(* ===== verification/_CoqProject ===== *)
-Q . S2P
Prelude.v
OMap.v
SparseInt.v
MarshalBuf.v
Marshal.v
ChrTs.v
Command.v
Wire.v
Chopper.v
Config.v
ChrTypes.v
ChrTx.v
ChrSched.v
ChrSchedInv.v
ChrDemo.v
ChrReach.v
ChrClock.v
ChrExec.v
ChrNotify.v
ChrIrt.v
ChrCrt.v
ChrManager.v
ChrNet.v
ChrAgree.v
ChrAgreeOps.v
ChrAgreeSys.v
ChrCoord.v
Paxos.v
ALock.v
ALockWound.v
ALockTimeout.v
ALockGroup.v
Snapshot.v
SnapshotRef.v
SnapshotRange.v
SccGraph.v
SccProof.v
SccTraverse.v
SlogTx.v
SlogSched.v
SlogOrder.v
SlogSite.v
SlogTotal.v
SlogExec.v
SlogRun.v
MemRow.v
MemRowSpec.v
Occ.v
OccLock.v
OccInv.v
MemTable.v
MemTableInv.v
MemTableSpec.v
MemTableRun.v
MemTableNew.v
MemTableThm.v
Sharding.v
Populate.v
PopulateThm.v
Tapir.v
TapirCoord.v
TapirSystem.v
TapirEval.v
TapirSteps.v
TapirInv.v
TapirSafe.v
TapirDecide.v
TapirServe.v
TapirSerial.v
OvSched.v
OvGossip.v
OvCoord.v
OvSystem.v
OvWatermark.v
OvReport.v
OvReach.v
OvSafe.v
OvTheorems.v
OvLimits.v
