(* ===== verification/Prelude.v ===== *)
(** * DAST: a verification library

    A verification of the core of DAST (directories [src/deptran], [src/memdb] and
    [src/rrr]), a distributed transaction system for edge data centres, and of the
    protocols and the in-memory database that are built with it.  Data is split
    into partitions (shards) with [N_REP_PER_SHARD] replicas, a site is one
    replica, and a region is a group of [n_shard_per_region_] partitions.  A client chops a transaction into pieces,
    one or more for each touched partition.  A transaction of one region (an IRT)
    gets its timestamp from the site that coordinates it; a transaction over
    several regions (a CRT) gets an anticipated timestamp from the manager of each
    touched region, and the coordinator decides on the maximum.  Every site runs
    the pieces in the order of the timestamps, and no site gives a timestamp above
    that of a CRT which it is waiting for.

    ** Files, and the code they model

    The effects of a handler are explicit: [M S A] (this file) is a state monad
    over the object's state with two failures, [Aborted] for a failed [verify] and
    [OutOfFuel].  Every handler of the code holds the mutex of its object for its
    whole body, and is one atomic action here.  RPCs are values: a handler
    appends what it sends or replies to the list [sent_] of its state.

    - [Prelude]: machine integers with wrap-around, record update, the monad [M],
      Hoare triples and the databases and tactics [solve_preserves] and
      [solve_terminates].
    - [OMap]: [std::map] and [std::set] as ordered lists, with [operator[]] that
      creates missing entries ([index]).
    - [SparseInt], [MarshalBuf], [Marshal]: the serialization of
      [src/rrr/base/basetypes.cpp] and [src/rrr/misc/marshal.hpp]; the class
      [Codec] states what a type's operators promise, the class [ByteQueue] what
      the queue under them promises.
    - [ChrTs]: timestamps, [src/deptran/chronos/types.h].
    - [Command], [Wire]: values, workspaces and pieces, and their wire format
      ([txn_chopper.h], [command_marshaler.cc], [marshal-value.cc]).
    - [Chopper]: [TxnCommand], the client's bookkeeping of the pieces of a
      transaction ([txn_chopper.cc]).
    - [Config]: sites, partitions and regions ([config.cc]).
    - [ChrTypes], [ChrTx]: [TxChronos], a transaction at a site, and the execution
      of its pieces ([chronos/tx.h], [chronos/tx.cc]).
    - [ChrSched]: [SchedulerChronos] ([chronos/scheduler.cc]), one definition per
      handler with the source's name.  [ChrSchedInv] has its invariant [wf] and
      the relation [reachable]; [ChrReach], [ChrClock], [ChrExec], [ChrNotify],
      [ChrIrt] and [ChrCrt] the theorems on runs, clocks, execution,
      announcements, local and cross-region transactions; [ChrDemo] a small
      deployment in which the theorems are instantiated.
    - [ChrManager]: [DastManager], the manager of a region ([chronos/manager.cc]).
    - [ChrNet]: all sites and managers, and the messages between them
      ([chronos/commo.cc], [rcc_service.cc]); [ChrAgree], [ChrAgreeOps] and
      [ChrAgreeSys] have its invariant, for one site, for each handler, and for the
      system.
    - [ChrCoord]: [CoordinatorChronos], the client's coordinator
      ([chronos/coordinator.cc], [classic/coord.cc]).
    - [Paxos]: replication by Multi-Paxos ([multi_paxos/]), the alternative to
      DAST's own replication.
    - [ALock], [ALockWound], [ALockTimeout], [ALockGroup]: the queued locks of
      [src/rrr/misc/alock.hpp] and [alock.cpp] under wait-die, wound-die and
      timeouts (with the alarm of [alarm.hpp]), groups of them, and the locks that
      a piece of two-phase locking takes ([tpl/ps.cc]).
    - [SccGraph], [SccProof], [SccTraverse]: the dependency graph of [rcc/graph.h],
      its strongly connected components and its searches.
    - [SlogTx], [SlogSched], [SlogOrder]: SLOG ([slog/]), a transaction at a site,
      the scheduler of a site, and the ordering of the batches by the region
      managers and the global log, with the network of them as a step relation;
      [SlogSite], [SlogTotal], [SlogExec] and [SlogRun] have the theorems.
    - [OvSched], [OvGossip], [OvCoord]: Ocean Vista ([ocean_vista/]), the scheduler
      of a site, the gossip of watermarks and the coordinator.  [OvSystem] is the
      network of them with drifting clocks; [OvWatermark], [OvReport], [OvReach] and
      [OvSafe] are the parts of its invariant,
      [OvTheorems] and [OvLimits] have the theorems.
    - [Snapshot], [SnapshotRef], [SnapshotRange]: the multi-version map of
      [src/memdb/snapshot.h] and its queries.
    - [MemRow], [MemRowSpec]: schemas and rows ([memdb/schema.h], [row.h], [row.cc]).
    - [MemTable]: sorted and indexed tables ([memdb/table.h], [table.cc]).
      [MemTableInv] has what a table keeps ([Rep]) and the steps of the operations,
      [MemTableSpec] and [MemTableRun] the operations and queries, [MemTableNew] the
      constructor, [MemTableThm] the abstract set of rows and the theorem.
    - [Sharding], [Populate], [PopulateThm]: the partition of a key
      ([src/deptran/sharding.cc]), and the tables that a worker makes and fills
      ([src/bench/tpca/sharding.cc], [tpcc], [tpcc_real_dist], with the parts of
      [config.cc] and [server_worker.cc] that lead there).
    - [Occ], [OccLock], [OccInv]: optimistic concurrency control at a
      server ([memdb/txn_occ.cc], [occ/exec.cc]), its locks, the serial order of
      the commits, and the invariant of all interleavings.
    - [Tapir], [TapirCoord], [TapirSystem]: TAPIR ([tapir/]), the executors of a
      server, the coordinator, and all of them with their connections.
      [TapirEval] says what requests do to the rows of a server, [TapirSteps] reduces
      the handlers of a coordinator to a few kinds of steps; [TapirInv] has the
      invariant, [TapirSafe], [TapirDecide] and [TapirServe] that every step keeps
      it, and [TapirSerial] the theorem.

    Parameters: the registered piece handlers and the database ([Registry]), the
    system clock, [rand_r] and the initial contents of uninitialised members
    ([Env]), [PrepareAllCmds] and [start_callback] of a workload ([Workload]).

    ** What is shown

    - Execution: the ready queue is run in timestamp order: a transaction
      leaves it only if it and all before it may run, and none of its pieces that
      runs conflicts with one left to run by an earlier transaction that was
      tried in the same pass; executing a transaction ends,
      leaves no piece that could run, and counts what was run exactly; a
      transaction that its region handler erases from the queue has run every
      piece, and one whose inputs are there finishes.
    - Every reachable state of a site is well formed, and every handler ends.
    - Clocks: local timestamps are strictly increasing and stay below the CRTs
      that are waited for; anticipated timestamps of a manager are strictly
      increasing; the decided timestamp is the maximum of the anticipated ones.
    - Quorums: from its submission on, an IRT becomes executable, and a CRT is
      decided, only after as many different sites of every touched partition have
      answered as the code asks for; a decision is sent to every touched partition.
    - Agreement: over a network that reorders, a transaction that may run at two
      sites has the same timestamp at both.
    - Regions: every site of a region is told of a CRT exactly once, with its
      pieces or with the sites to wait for, and released by the decision.
    - Clients: a request carries each piece handed out once, grouped by partition
      and region, and an output reaches every partition that waits for it.
    - Wire: values, workspaces, pieces and timestamps arrive as they were sent, and
      the chunked byte queue refines one list of bytes (writes of no bytes, which
      can fail an assertion, apart).
    - Replication: the log is learned in slot order without gaps or repetitions,
      and a proposer decides exactly at a majority.
    - Locks: whatever is asked for, wounded, timed out and released, holders never
      conflict, each request has at most one answer, no cycle of transactions waits
      for one another, and a piece that is aborted gives back each lock once.
    - Graph: the component that is found for a vertex is the set of the vertices
      that it reaches and that reach it; an unbounded search ends.
    - SLOG: over a network that reorders, two transactions that are in the queues of
      two sites, of any regions, are there in the same order; a piece runs only when
      the conflicting pieces before it have; execution is that of DAST.
    - Ocean Vista: below a watermark that some site has learned no transaction is
      missing at any replica, with clocks that drift and messages that overtake one
      another; with one data centre nothing is executed, and transactions below the
      watermark are executed in the order in which requests arrive, not in that of
      their timestamps.
    - Database: rows refine lists of values; the multi-version map refines a store of
      maps, one for each snapshot (erasing the first match only apart); an indexed table refines a set of rows, and
      queries of it and of its indices are exact; interleaved optimistic
      transactions that read and write columns of existing rows are serializable in
      the order of their commits.
    - Sharding: the tables that the workers of all partitions fill hold every record
      once, in the partition to which requests for it go ([rows_in_one_partition]); the
      counters over the combinations of foreign keys go through each of them once.
    - TAPIR: over connections that keep their order, with answers that are delayed
      and transactions that are refused and tried again, the rows of all replicas
      are those of the committed transactions in the order of the decisions, if
      re-execution writes what the dispatch phase wrote.
    - What the code does not do: theorems of kind error state precisely where a
      byte is lost, a guard is void, pieces are dropped, a decision that overtakes
      its request is ignored, and a check stops the process.

    ** Bounds and fuel

    Integers have the width of the source ([i32], [i64], [u32], [u64]); theorems
    that need room say so ([in_s], [stretchable], [sane_clock]).  Loops that do not
    follow a data structure have fuel: [exec_loop] has one unit more than there are
    pieces, since every round but the last runs a piece; the search for a free timestamp
    ([fresh_ts]) one per entry of the ready queue, since every round passes one
    entry; [learn_next] one per slot up to the last decided one; [send_committed]
    of SLOG one per entry of the log.  The multi-version map has room for [2^64]
    versions, and its theorems count the operations; the theorems on Ocean Vista have
    clocks and drift below [2^61] and fewer than [2^31] events, for which no
    timestamp or identifier wraps around; the one on TAPIR has fewer than [2^28] events; an indexed table hands out addresses below
    [2^63], the range of its hidden column.  Site names of a configuration are
    distinct.  The loop of
    [OnProposeRemote], which has no live caller, is left at once or never, and is
    [OutOfFuel] in the second case.  [handlers_terminate], [irt_timestamp_search_ends]
    and the theorems that state a result show that this is enough.

    ** What is not modelled

    Sockets, threads and polling ([src/rrr/rpc]), the parsing of configuration files,
    process start-up and statistics, the pieces of the benchmarks (a parameter),
    and the baseline protocols Janus, RCC and two-phase locking but for their
    locks and graphs.  Of TAPIR, the slow path ([Accept]), which nothing calls and no
    server answers.  Of the byte queue, the transfers to file descriptors,
    bookmarks and the transfer between two queues; of the database, the unsorted
    tables, whose order the language leaves open, nested transactions and those of
    two-phase locking, and read-only transactions on snapshots.

    ** Order of extension

    Next: the protocols of [rcc/] and [brq/] (Janus), over the graph of [SccGraph];
    the epochs of [epochs.h]; the transactions of two-phase locking over the tables of [MemTable]. *)
From stdpp Require Import base tactics numbers list gmap.

(** ** Machine integers *)

Declare Scope dast_scope.
Delimit Scope dast_scope with dast.
Open Scope Z_scope.

(** [wrap_s w z] is the two's-complement value of [z] at width [w]; [wrap_u w z]
    the unsigned one. *)
Definition wrap_s (w z : Z) : Z := (z + 2 ^ (w - 1)) mod 2 ^ w - 2 ^ (w - 1).
Definition wrap_u (w z : Z) : Z := z mod 2 ^ w.

Abbreviation i16 := (wrap_s 16).
Abbreviation i32 := (wrap_s 32).
Abbreviation i64 := (wrap_s 64).
Abbreviation u16 := (wrap_u 16).
Abbreviation u32 := (wrap_u 32).
Abbreviation u64 := (wrap_u 64).

Definition in_s (w z : Z) : Prop := - 2 ^ (w - 1) <= z < 2 ^ (w - 1).
Definition in_u (w z : Z) : Prop := 0 <= z < 2 ^ w.

Lemma wrap_s_id w z : 1 <= w -> in_s w z -> wrap_s w z = z.
Proof.
  unfold wrap_s, in_s. intros Hw Hz.
  assert (2 ^ w = 2 * 2 ^ (w - 1)) as E.
  { rewrite <- Z.pow_succ_r by lia. f_equal. lia. }
  rewrite Z.mod_small by lia. lia.
Qed.

Lemma wrap_s_range w z : 1 <= w -> in_s w (wrap_s w z).
Proof.
  unfold wrap_s, in_s. intros Hw.
  assert (2 ^ w = 2 * 2 ^ (w - 1)) as E.
  { rewrite <- Z.pow_succ_r by lia. f_equal. lia. }
  pose proof (Z.pow_pos_nonneg 2 (w - 1)).
  pose proof (Z.mod_pos_bound (z + 2 ^ (w - 1)) (2 ^ w)). lia.
Qed.

Lemma wrap_u_id w z : in_u w z -> wrap_u w z = z.
Proof. unfold wrap_u, in_u. intros. by apply Z.mod_small. Qed.

(** ** Functional record update

    [s <| f := v |>] and [s <| f ::= g |>]: a record type declares its
    eta-expansion once ([Eta]) and the setter of a projection is obtained from it
    by abstracting that projection. *)
Class Eta (R : Type) := eta_expand : R -> R.
Class SetField {R A : Type} (proj : R -> A) := set_field : (A -> A) -> R -> R.
#[global] Hint Mode SetField ! ! ! : typeclass_instances.

Ltac build_setter :=
  lazymatch goal with
  | |- @SetField ?R ?A ?proj =>
    let body := eval unfold eta_expand in (eta_expand : R -> R) in
    let body := eval hnf in body in
    lazymatch body with context [proj] => idtac end;
    let abs := eval pattern proj in body in
    lazymatch abs with
    | ?F _ =>
      let t := eval cbv beta in (fun (g : A -> A) (r : R) => F (fun x => g (proj x)) r) in
      exact t
    end
  end.
#[global] Hint Extern 1 (SetField _) => build_setter : typeclass_instances.

Notation "s <| f ::= g |>" := (set_field (proj:=f) g s)
  (at level 1, f at next level, left associativity) : dast_scope.
Notation "s <| f := v |>" := (set_field (proj:=f) (fun _ => v) s)
  (at level 1, f at next level, left associativity) : dast_scope.
Open Scope dast_scope.

(** ** State, abort and fuel: the effects of a handler

    A handler runs on the state of its object under the scheduler mutex.
    [Aborted] is a failed [verify] (or an uncaught [std::out_of_range]),
    [OutOfFuel] a loop that has not ended within the fuel given to it. *)
Inductive result (A : Type) : Type :=
  | Done (a : A)
  | Aborted
  | OutOfFuel.
Arguments Done {A} a.
Arguments Aborted {A}.
Arguments OutOfFuel {A}.

Definition M (S A : Type) : Type := S -> result (A * S).

Section monad.
Context {S : Type}.

#[export] Instance M_ret : MRet (M S) := fun A a s => Done (a, s).
#[export] Instance M_bind : MBind (M S) := fun A B k m s =>
  match m s with
  | Done (a, s') => k a s'
  | Aborted => Aborted
  | OutOfFuel => OutOfFuel
  end.

Definition get : M S S := fun s => Done (s, s).
Definition modify (f : S -> S) : M S () := fun s => Done ((), f s).
Definition gets {A} (f : S -> A) : M S A := fun s => Done (f s, s).
Definition state {A} (f : S -> A * S) : M S A := fun s => Done (f s).
Definition out_of_fuel {A} : M S A := fun _ => OutOfFuel.
Definition abort {A} : M S A := fun _ => Aborted.
Definition verify (b : bool) : M S () := fun s => if b then Done ((), s) else Aborted.
Definition when (b : bool) (m : M S ()) : M S () := if b then m else mret ().
Definition from_option {A} (o : option A) : M S A :=
  match o with Some a => mret a | None => abort end.

(** [for (auto& x : l) body(x)] *)
Fixpoint for_each {A} (l : list A) (body : A -> M S ()) : M S () :=
  match l with
  | [] => mret ()
  | x :: l => body x ;; for_each l body
  end.
End monad.

(** ** Hoare triples for the monad

    [hoare P m Q]: from a state satisfying [P], every run of [m] that completes
    ends with a value and a state satisfying [Q]. *)
Section hoare.
Context {S : Type}.
Implicit Types P : S -> Prop.

Definition hoare {A} P (m : M S A) (Q : A -> S -> Prop) : Prop :=
  forall s a s', P s -> m s = Done (a, s') -> Q a s'.

Lemma hoare_ret {A} (a : A) P (Q : A -> S -> Prop) :
  (forall s, P s -> Q a s) -> hoare P (mret a) Q.
Proof. intros H s b s' Hs E. injection E as <- <-. auto. Qed.

Lemma hoare_bind {A B} (m : M S A) (k : A -> M S B) P R Q :
  hoare P m R -> (forall a, hoare (R a) (k a) Q) -> hoare P (m ≫= k) Q.
Proof.
  intros Hm Hk s b s' Hs E. unfold mbind, M_bind in E.
  destruct (m s) as [[a s1]| |] eqn:E1; try done.
  eapply Hk; [|exact E]. eapply Hm; eauto.
Qed.

Lemma hoare_weaken {A} (m : M S A) P P' (Q Q' : A -> S -> Prop) :
  hoare P m Q -> (forall s, P' s -> P s) -> (forall a s, Q a s -> Q' a s) ->
  hoare P' m Q'.
Proof. intros H HP HQ s a s' Hs E. eapply HQ, H; eauto. Qed.

Lemma hoare_gets {A} (f : S -> A) P :
  hoare P (gets f) (fun a s => P s /\ a = f s).
Proof. intros s a s' Hs E. injection E as <- <-. auto. Qed.

Lemma hoare_get P : hoare P get (fun a s => P s /\ a = s).
Proof. intros s a s' Hs E. injection E as <- <-. auto. Qed.

Lemma hoare_modify (f : S -> S) P (Q : () -> S -> Prop) :
  (forall s, P s -> Q () (f s)) -> hoare P (modify f) Q.
Proof. intros H s a s' Hs E. injection E as <- <-. auto. Qed.

Lemma hoare_state {A} (f : S -> A * S) P (Q : A -> S -> Prop) :
  (forall s, P s -> Q (f s).1 (f s).2) -> hoare P (state f) Q.
Proof. intros H s a s' Hs E. injection E as E. specialize (H s Hs). by rewrite E in H. Qed.

Lemma hoare_verify b P : hoare P (verify b) (fun _ s => P s /\ b = true).
Proof.
  intros s a s' Hs E. unfold verify in E. destruct b eqn:Eb; [|discriminate E].
  injection E as <- <-. auto.
Qed.

Lemma hoare_abort {A} P (Q : A -> S -> Prop) : hoare P abort Q.
Proof. intros s a s' _ E. done. Qed.

Lemma hoare_when b (m : M S ()) P (Q : () -> S -> Prop) :
  (b = true -> hoare P m Q) -> (b = false -> forall s, P s -> Q () s) ->
  hoare P (when b m) Q.
Proof. unfold when. destruct b; intros; auto. apply hoare_ret; auto. Qed.

Lemma hoare_from_option {A} (o : option A) P :
  hoare P (from_option o) (fun a s => P s /\ o = Some a).
Proof. destruct o; [apply hoare_ret; auto | apply hoare_abort]. Qed.

Lemma hoare_for_each {A} (l : list A) body (I : S -> Prop) :
  (forall x, x ∈ l -> hoare I (body x) (fun _ => I)) ->
  hoare I (for_each l body) (fun _ => I).
Proof.
  induction l as [|x l IH]; intros H; simpl.
  - by apply hoare_ret.
  - eapply (hoare_bind _ _ _ (fun _ => I)); [apply H; left|]. intros []. apply IH.
    intros y Hy. apply H. by right.
Qed.

(** An invariant kept by a handler. *)
Definition preserves {A} (I : S -> Prop) (m : M S A) : Prop := hoare I m (fun _ => I).

Lemma preserves_ret {A} (a : A) I : preserves I (mret a).
Proof. by apply hoare_ret. Qed.
Lemma preserves_bind {A B} (m : M S A) (k : A -> M S B) I :
  preserves I m -> (forall a, preserves I (k a)) -> preserves I (m ≫= k).
Proof. intros H1 H2. eapply hoare_bind; [exact H1 | exact H2]. Qed.
Lemma preserves_gets {A} (f : S -> A) I : preserves I (gets f).
Proof. eapply hoare_weaken; [apply hoare_gets | done | naive_solver]. Qed.
Lemma preserves_get I : preserves I get.
Proof. eapply hoare_weaken; [apply hoare_get | done | naive_solver]. Qed.
Lemma preserves_verify b I : preserves I (verify b).
Proof. eapply hoare_weaken; [apply hoare_verify | done | naive_solver]. Qed.
Lemma preserves_abort {A} I : preserves I (abort (A:=A)).
Proof. apply hoare_abort. Qed.
Lemma preserves_when b m I : preserves I m -> preserves I (when b m).
Proof. intros H. apply hoare_when; auto. Qed.
Lemma preserves_from_option {A} (o : option A) I : preserves I (from_option o).
Proof. eapply hoare_weaken; [apply hoare_from_option | done | naive_solver]. Qed.
Lemma preserves_bind_option {A B} (o : option A) (k : A -> M S B) I :
  (forall a, o = Some a -> preserves I (k a)) -> preserves I (from_option o ≫= k).
Proof.
  intros Hk s b s' Hs E. destruct o as [a|]; [|done]. by eapply Hk.
Qed.
Lemma preserves_for_each {A} (l : list A) body I :
  (forall x, x ∈ l -> preserves I (body x)) -> preserves I (for_each l body).
Proof. apply hoare_for_each. Qed.
Lemma preserves_state {A} (f : S -> A * S) (I : S -> Prop) :
  (forall s, I s -> I (f s).2) -> preserves I (state f).
Proof. intros Hf. apply hoare_state. auto. Qed.
Lemma preserves_modify f (I : S -> Prop) :
  (forall s, I s -> I (f s)) -> preserves I (modify f).
Proof. intros. by apply hoare_modify. Qed.
End hoare.

(** ** Termination

    [terminates m]: the fuel given to the loops of [m] is always enough. *)
Section terminates.
Context {S : Type}.

Definition terminates {A} (m : M S A) : Prop := forall s, m s ≠ OutOfFuel.

Lemma terminates_bind {A B} (m : M S A) (k : A -> M S B) :
  terminates m -> (forall a, terminates (k a)) -> terminates (m ≫= k).
Proof.
  intros Hm Hk s. unfold mbind, M_bind. specialize (Hm s).
  destruct (m s) as [[a s1]| |]; [apply Hk | done | done].
Qed.
Lemma terminates_ret {A} (a : A) : terminates (mret a).
Proof. done. Qed.
Lemma terminates_get : terminates get.
Proof. done. Qed.
Lemma terminates_gets {A} (f : S -> A) : terminates (gets f).
Proof. done. Qed.
Lemma terminates_modify (f : S -> S) : terminates (modify f).
Proof. done. Qed.
Lemma terminates_state {A} (f : S -> A * S) : terminates (state f).
Proof. done. Qed.
Lemma terminates_abort {A} : terminates (abort (A:=A)).
Proof. done. Qed.
Lemma terminates_verify b : terminates (verify b).
Proof. intros s. unfold verify. by destruct b. Qed.
Lemma terminates_from_option {A} (o : option A) : terminates (from_option o).
Proof. by destruct o. Qed.
Lemma terminates_when b (m : M S ()) : terminates m -> terminates (when b m).
Proof. by destruct b. Qed.
Lemma terminates_for_each {A} (l : list A) body :
  (forall x, terminates (body x)) -> terminates (for_each l body).
Proof.
  intros Hb. induction l as [|x l IH]; simpl; [done|]. by apply terminates_bind.
Qed.
End terminates.

Create HintDb terminates discriminated.
#[export] Hint Resolve terminates_ret terminates_get terminates_gets terminates_modify
  terminates_state terminates_abort terminates_verify terminates_from_option terminates_when
  : terminates.

(** Walks through a handler, leaving the parts that need their own lemma. *)
Ltac solve_terminates :=
  repeat first
    [ progress intros
    | assumption
    | solve [eauto with terminates]
    | apply terminates_bind
    | apply terminates_when
    | apply terminates_for_each
    | match goal with
      | |- terminates (match ?x with _ => _ end) => destruct x
      end ].

Create HintDb preserves discriminated.
#[export] Hint Resolve preserves_ret preserves_gets preserves_get preserves_verify
  preserves_abort preserves_when preserves_from_option : preserves.

(** Walks through a handler, leaving the parts that need their own lemma. *)
Ltac solve_preserves_with tac :=
  repeat first
    [ progress intros
    | assumption
    | tac
    | solve [eauto with preserves]
    | match goal with
      | |- preserves _ (from_option _ ≫= _) => apply preserves_bind_option
      | |- preserves _ (_ ≫= _) => apply preserves_bind
      | |- preserves _ (when _ _) => apply preserves_when
      | |- preserves _ (for_each _ _) => apply preserves_for_each
      | |- preserves _ (match ?x with _ => _ end) => destruct x eqn:?
      end ].
Ltac solve_preserves := solve_preserves_with fail.

(** One step of a run: splits [(m ≫= k) s = Done _] at its first effect. *)
Ltac run_inv H :=
  unfold mbind, M_bind in H;
  lazymatch type of H with
  | match ?m ?s with _ => _ end = Done _ =>
    let E := fresh "E" in
    destruct (m s) as [[? ?]| |] eqn:E; [|discriminate H|discriminate H]
  end.

Lemma bind_done {S A B} (m : M S A) (k : A -> M S B) s r :
  (m ≫= k) s = Done r -> exists a s1, m s = Done (a, s1) /\ k a s1 = Done r.
Proof. unfold mbind, M_bind. destruct (m s) as [[a s1]| |]; naive_solver. Qed.

Lemma bind_eq {S A B} (m : M S A) (k : A -> M S B) s a s1 :
  m s = Done (a, s1) -> (m ≫= k) s = k a s1.
Proof. unfold mbind, M_bind. by intros ->. Qed.
