(* ===== verification/OMap.v ===== *)
(** * The ordered containers of the C++ standard library

    [std::map] and [std::set] as the schedulers use them: iteration visits the
    keys in increasing order, [operator[]] inserts a default value, the range
    [insert] keeps existing entries.  A map is its sequence of entries and a set
    its sequence of elements; [sorted_keys] is the invariant every operation
    keeps, and the lookup laws below do not need it. *)
From stdpp Require Import base tactics numbers list sorting sets.
From S2P Require Import Prelude.

(** A key type: what [std::less] provides. *)
Class OrdKey (K : Type) `{EqDecision K} := {
  key_ltb : K -> K -> bool;
  key_irrefl : forall a, key_ltb a a = false;
  key_trans : forall a b c, key_ltb a b = true -> key_ltb b c = true -> key_ltb a c = true;
  key_total : forall a b, a ≠ b -> key_ltb a b = false -> key_ltb b a = true;
}.

#[export] Program Instance Z_OrdKey : OrdKey Z := { key_ltb := Z.ltb }.
Solve All Obligations with lia.

Abbreviation omap K V := (list (K * V)) (only parsing).
Abbreviation oset K := (list K) (only parsing).

Definition key_lt `{OrdKey K} (a b : K) : Prop := key_ltb a b = true.

Lemma key_lt_asym `{OrdKey K} (a b : K) : key_ltb a b = true -> key_ltb b a = false.
Proof.
  intros Hab. destruct (key_ltb b a) eqn:E; [|done].
  by rewrite <- (key_irrefl a), (key_trans _ _ _ Hab E).
Qed.

Section omap.
Context `{OrdKey K} {V : Type}.
Implicit Types (m : omap K V) (k : K).

(** [m.find(k)] *)
Fixpoint find k m : option V :=
  match m with
  | [] => None
  | (k', v) :: m => if decide (k = k') then Some v else find k m
  end.

(** [m.count(k) != 0] *)
Definition count k m : bool := match find k m with Some _ => true | None => false end.

(** [m[k] = v] *)
Fixpoint insert k (v : V) m : omap K V :=
  match m with
  | [] => [(k, v)]
  | (k', v') :: m' =>
    if decide (k = k') then (k, v) :: m'
    else if key_ltb k k' then (k, v) :: m
    else (k', v') :: insert k v m'
  end.

(** [m.insert({k, v})]: an existing entry is kept. *)
Definition insert_new k (v : V) m : omap K V := if count k m then m else insert k v m.
Definition insert_range (l : omap K V) m : omap K V :=
  foldl (fun m p => insert_new p.1 p.2 m) m l.

(** [m.erase(k)] *)
Fixpoint erase k m : omap K V :=
  match m with
  | [] => []
  | (k', v) :: m' => if decide (k = k') then erase k m' else (k', v) :: erase k m'
  end.

(** [m[k]] on the right of an expression: the value, and the map in which the
    entry has been created with the default [d] when it was missing. *)
Definition index (d : V) k m : V * omap K V :=
  match find k m with
  | Some v => (v, m)
  | None => (d, insert k d m)
  end.

(** the entries from [m.upper_bound(k)] to [m.end()] *)
Fixpoint upper_bound k m : omap K V :=
  match m with
  | [] => []
  | (k', v) :: m' => if key_ltb k k' then m else upper_bound k m'
  end.

Definition sorted_keys m : Prop := StronglySorted key_lt m.*1.

Lemma find_insert_eq k v m : find k (insert k v m) = Some v.
Proof.
  induction m as [|[k' v'] m IH]; simpl.
  - by rewrite decide_True.
  - case_decide; simpl; [by rewrite decide_True|].
    destruct (key_ltb k k'); simpl; [by rewrite decide_True | by rewrite decide_False].
Qed.

Lemma find_insert_ne k j v m : k ≠ j -> find j (insert k v m) = find j m.
Proof.
  intros Hne. induction m as [|[k' v'] m IH]; simpl.
  - by rewrite decide_False.
  - case_decide; subst; simpl; [by rewrite !decide_False by done|].
    destruct (key_ltb k k'); simpl; [by rewrite (decide_False (P:=j = k))|].
    by rewrite IH.
Qed.

Lemma find_insert k j v m :
  find j (insert k v m) = if decide (k = j) then Some v else find j m.
Proof. case_decide; subst; [apply find_insert_eq | by apply find_insert_ne]. Qed.

Lemma find_erase k j m :
  find j (erase k m) = if decide (k = j) then None else find j m.
Proof.
  induction m as [|[k' v'] m IH]; simpl; [by case_decide|].
  destruct (decide (k = k')) as [->|]; simpl; rewrite IH; repeat case_decide; congruence.
Qed.

Lemma find_erase_eq k m : find k (erase k m) = None.
Proof. rewrite find_erase. by rewrite decide_True. Qed.
Lemma find_erase_ne k j m : k ≠ j -> find j (erase k m) = find j m.
Proof. intros. rewrite find_erase. by rewrite decide_False. Qed.

Lemma count_find k m : count k m = true <-> is_Some (find k m).
Proof. unfold count. destruct (find k m); split; [eauto | done | done | by intros []]. Qed.
Lemma count_find_None k m : count k m = false <-> find k m = None.
Proof. unfold count. destruct (find k m); split; congruence. Qed.

Lemma find_elem_of k v m : find k m = Some v -> (k, v) ∈ m.
Proof.
  induction m as [|[k' v'] m IH]; simpl; [done|].
  case_decide; intros; simplify_eq; [left | right; auto].
Qed.

Lemma find_None_notin k m : find k m = None <-> k ∉ m.*1.
Proof.
  induction m as [|[k' v'] m IH]; simpl; [set_solver|].
  rewrite not_elem_of_cons. case_decide; naive_solver.
Qed.

Lemma find_key_in k m : is_Some (find k m) <-> k ∈ m.*1.
Proof.
  destruct (find k m) eqn:E; split; intros Hx.
  - apply find_elem_of in E. apply list_elem_of_fmap. by exists (k, v).
  - eauto.
  - by destruct Hx.
  - by apply find_None_notin in E.
Qed.

Lemma insert_elem_of k v m p : p ∈ insert k v m -> p = (k, v) \/ p ∈ m.
Proof.
  induction m as [|[k' v'] m IH]; simpl; [set_solver|].
  repeat case_decide; [set_solver|]. destruct (key_ltb k k'); set_solver.
Qed.

Lemma insert_keys k v m j : j ∈ (insert k v m).*1 <-> j = k \/ j ∈ m.*1.
Proof.
  rewrite <- !find_key_in, find_insert. case_decide; subst.
  - split; [by left | intros _; eauto].
  - naive_solver.
Qed.

Lemma erase_elem_of k m p : p ∈ erase k m <-> p ∈ m /\ p.1 ≠ k.
Proof.
  induction m as [|[k' v'] m IH]; simpl; [set_solver|].
  case_decide; subst; rewrite ?elem_of_cons, IH; destruct p; simpl; naive_solver.
Qed.

Lemma sorted_insert k v m : sorted_keys m -> sorted_keys (insert k v m).
Proof.
  unfold sorted_keys. induction m as [|[k' v'] m IH]; simpl; intros Hs.
  { repeat constructor. }
  apply StronglySorted_inv in Hs as [Hs Hall].
  case_decide as E; subst; simpl; [by constructor|].
  destruct (key_ltb k k') eqn:El; simpl; constructor; auto.
  - by constructor.
  - constructor; [done|]. eapply Forall_impl; [exact Hall|].
    intros x Hx. eapply key_trans; eauto.
  - apply Forall_forall. intros x Hx. apply insert_keys in Hx as [->|Hx].
    + by apply key_total.
    + rewrite Forall_forall in Hall. auto.
Qed.

Lemma sorted_erase k m : sorted_keys m -> sorted_keys (erase k m).
Proof.
  unfold sorted_keys. induction m as [|[k' v'] m IH]; simpl; intros Hs; [done|].
  apply StronglySorted_inv in Hs as [Hs Hall].
  case_decide; auto. simpl. constructor; auto.
  apply Forall_forall. intros x (p & -> & Hp)%list_elem_of_fmap.
  apply erase_elem_of in Hp as [Hp _]. rewrite Forall_forall in Hall.
  apply Hall, list_elem_of_fmap. eauto.
Qed.

Lemma sorted_elem_of_find k v m : sorted_keys m -> (k, v) ∈ m -> find k m = Some v.
Proof.
  unfold sorted_keys. induction m as [|[k' v'] m IH]; simpl; intros Hs Hin; [set_solver|].
  apply StronglySorted_inv in Hs as [Hs Hall].
  apply elem_of_cons in Hin as [[= -> ->]|Hin]; [by rewrite decide_True|].
  rewrite decide_False; [auto|]. intros ->. rewrite Forall_forall in Hall.
  assert (key_lt k' k') as Hk.
  { apply Hall, list_elem_of_fmap. by exists (k', v). }
  unfold key_lt in Hk. rewrite key_irrefl in Hk. done.
Qed.

(** Iterating from [upper_bound(k)] visits exactly the entries above [k]. *)
Lemma upper_bound_elem_of k m p :
  sorted_keys m -> p ∈ upper_bound k m <-> p ∈ m /\ key_lt k p.1.
Proof.
  unfold sorted_keys. induction m as [|[k' v'] m IH]; simpl; intros Hs; [set_solver|].
  apply StronglySorted_inv in Hs as [Hs Hall].
  destruct (key_ltb k k') eqn:E.
  - split; [|by intros [? _]]. intros Hp. split; [done|].
    apply elem_of_cons in Hp as [->|Hp]; [done|].
    rewrite Forall_forall in Hall. unfold key_lt. eapply key_trans; [exact E|].
    apply Hall, list_elem_of_fmap. eauto.
  - rewrite IH, elem_of_cons by done. split; [naive_solver|].
    intros [[->|?] Hk]; [|done]. unfold key_lt in Hk. simpl in Hk. congruence.
Qed.

Lemma upper_bound_suffix k m : upper_bound k m `suffix_of` m.
Proof.
  induction m as [|[k' v'] m IH]; simpl; [done|].
  destruct (key_ltb k k'); [done|]. by apply suffix_cons_r.
Qed.

Lemma find_index d k j m :
  find j (index d k m).2 = if decide (k = j) then Some (index d k m).1 else find j m.
Proof.
  unfold index. destruct (find k m) eqn:E; simpl.
  - case_decide; congruence.
  - apply find_insert.
Qed.

Lemma index_fst d k m : (index d k m).1 = default d (find k m).
Proof. unfold index. by destruct (find k m). Qed.
Lemma sorted_index d k m : sorted_keys m -> sorted_keys (index d k m).2.
Proof. unfold index. destruct (find k m); simpl; auto using sorted_insert. Qed.

Lemma find_insert_new k v j m :
  find j (insert_new k v m) =
  if decide (k = j) then Some (default v (find k m)) else find j m.
Proof.
  unfold insert_new, count. destruct (find k m) eqn:E.
  - case_decide; subst; by rewrite ?E.
  - rewrite find_insert. by case_decide.
Qed.

Lemma find_insert_range l m j :
  find j (insert_range l m) = match find j m with Some v => Some v | None => find j l end.
Proof.
  unfold insert_range. revert m. induction l as [|[k v] l IH]; intros m; simpl.
  { by destruct (find j m). }
  rewrite IH, find_insert_new. destruct (decide (k = j)) as [->|].
  - rewrite (decide_True (P:=j = j)) by done. by destruct (find j m).
  - by rewrite (decide_False (P:=j = k)).
Qed.

Lemma insert_above k v m : Forall (fun j => key_lt j k) m.*1 -> insert k v m = m ++ [(k, v)].
Proof.
  induction m as [|[k' v'] m IH]; simpl; intros Hall; [done|].
  apply Forall_cons in Hall as [Hk Hall]. unfold key_lt in Hk. rewrite decide_False.
  - rewrite key_lt_asym by done. by rewrite IH.
  - intros ->. by rewrite key_irrefl in Hk.
Qed.

(** Reading back the entries of a map in order rebuilds the map. *)
Lemma insert_range_sorted m : sorted_keys m -> insert_range m [] = m.
Proof.
  intros Hs. enough (forall m1, sorted_keys (m1 ++ m) -> insert_range m m1 = m1 ++ m) as Hg.
  { by apply (Hg []). }
  clear Hs. unfold insert_range, sorted_keys. induction m as [|[k v] m IH]; intros m1 Hs; simpl.
  { by rewrite app_nil_r. }
  rewrite fmap_app in Hs. simpl in Hs. apply StronglySorted_app in Hs as Hs'. destruct Hs' as (Hlt & _ & _).
  assert (Forall (fun j => key_lt j k) m1.*1) as Hall.
  { apply Forall_forall. intros j Hj. apply Hlt; [done | left]. }
  unfold insert_new. rewrite (proj2 (count_find_None k m1)).
  - rewrite insert_above by done. rewrite IH.
    + by rewrite <- app_assoc.
    + rewrite !fmap_app, <- app_assoc. done.
  - apply find_None_notin. intros Hin. rewrite Forall_forall in Hall. specialize (Hall _ Hin).
    unfold key_lt in Hall. by rewrite key_irrefl in Hall.
Qed.
End omap.

Section oset.
Context `{OrdKey K}.
Implicit Types (X : oset K) (k : K).

(** [X.count(k) != 0] *)
Definition smem k X : bool := bool_decide (k ∈ X).

(** [X.insert(k)] *)
Fixpoint sinsert k X : oset K :=
  match X with
  | [] => [k]
  | k' :: X' =>
    if decide (k = k') then X
    else if key_ltb k k' then k :: X
    else k' :: sinsert k X'
  end.
Definition sinsert_range (l : list K) X : oset K := foldl (fun X k => sinsert k X) X l.

(** [X.erase(k)] *)
Fixpoint serase k X : oset K :=
  match X with
  | [] => []
  | k' :: X' => if decide (k = k') then serase k X' else k' :: serase k X'
  end.

Definition sorted_set X : Prop := StronglySorted key_lt X.

Lemma elem_of_sinsert k X j : j ∈ sinsert k X <-> j = k \/ j ∈ X.
Proof.
  induction X as [|k' X IH]; simpl; [set_solver|].
  case_decide; subst; [set_solver|]. destruct (key_ltb k k'); set_solver.
Qed.

Lemma elem_of_serase k X j : j ∈ serase k X <-> j ∈ X /\ j ≠ k.
Proof.
  induction X as [|k' X IH]; simpl; [set_solver|].
  case_decide; subst; rewrite ?elem_of_cons, IH; naive_solver.
Qed.

Lemma elem_of_sinsert_range l X j : j ∈ sinsert_range l X <-> j ∈ l \/ j ∈ X.
Proof.
  unfold sinsert_range. revert X. induction l as [|k l IH]; intros X; simpl; [set_solver|].
  rewrite IH, elem_of_sinsert. set_solver.
Qed.

Lemma smem_spec k X : smem k X = true <-> k ∈ X.
Proof. apply bool_decide_eq_true. Qed.
Lemma smem_spec_false k X : smem k X = false <-> k ∉ X.
Proof. apply bool_decide_eq_false. Qed.

Lemma sorted_sinsert k X : sorted_set X -> sorted_set (sinsert k X).
Proof.
  unfold sorted_set. induction X as [|k' X IH]; simpl; intros Hs.
  { repeat constructor. }
  pose proof Hs as Hs0. apply StronglySorted_inv in Hs as [Hs Hall].
  case_decide; subst; [done|].
  destruct (key_ltb k k') eqn:El; constructor; auto.
  - constructor; [done|]. eapply Forall_impl; [exact Hall|].
    intros x Hx. eapply key_trans; eauto.
  - apply Forall_forall. intros x Hx. apply elem_of_sinsert in Hx as [->|Hx].
    + by apply key_total.
    + rewrite Forall_forall in Hall. auto.
Qed.

Lemma sorted_serase k X : sorted_set X -> sorted_set (serase k X).
Proof.
  unfold sorted_set. induction X as [|k' X IH]; simpl; intros Hs; [done|].
  apply StronglySorted_inv in Hs as [Hs Hall].
  case_decide; auto. constructor; auto.
  apply Forall_forall. intros x Hx. apply elem_of_serase in Hx as [Hx _].
  rewrite Forall_forall in Hall. auto.
Qed.

Lemma sinsert_above k X : Forall (fun j => key_lt j k) X -> sinsert k X = X ++ [k].
Proof.
  induction X as [|k' X IH]; simpl; intros Hall; [done|].
  apply Forall_cons in Hall as [Hk Hall]. unfold key_lt in Hk. rewrite decide_False.
  - rewrite key_lt_asym by done. by rewrite IH.
  - intros ->. by rewrite key_irrefl in Hk.
Qed.

Lemma sinsert_range_sorted X : sorted_set X -> sinsert_range X [] = X.
Proof.
  intros Hs. enough (forall X1, sorted_set (X1 ++ X) -> sinsert_range X X1 = X1 ++ X) as Hg.
  { by apply (Hg []). }
  clear Hs. unfold sinsert_range, sorted_set. induction X as [|k X IH]; intros X1 Hs; simpl.
  { by rewrite app_nil_r. }
  apply StronglySorted_app in Hs as Hs'. destruct Hs' as (Hlt & _ & _).
  rewrite sinsert_above.
  - rewrite IH; [by rewrite <- app_assoc | by rewrite <- app_assoc].
  - apply Forall_forall. intros j Hj. apply Hlt; [done | left].
Qed.

(** [*X.begin()] is the least element. *)
Lemma sorted_head_least x X y :
  sorted_set (x :: X) -> y ∈ x :: X -> y = x \/ key_lt x y.
Proof.
  intros [_ Hall]%StronglySorted_inv [->|Hy]%elem_of_cons; [by left|].
  right. rewrite Forall_forall in Hall. auto.
Qed.

Lemma sorted_NoDup X : sorted_set X -> NoDup X.
Proof.
  induction X as [|x X IH]; intros Hs; [constructor|].
  apply StronglySorted_inv in Hs as [Hs Hall]. constructor; auto.
  intros Hx. rewrite Forall_forall in Hall. specialize (Hall _ Hx).
  unfold key_lt in Hall. by rewrite key_irrefl in Hall.
Qed.
End oset.

Create HintDb omap discriminated.
#[export] Hint Resolve sorted_insert sorted_erase sorted_index sorted_sinsert sorted_serase : omap.
