(* ===== verification/SparseInt.v ===== *)
(** * Variable-length integers: [rrr::SparseInt] (src/rrr/base/basetypes.cpp)

    A [char] buffer is a list of byte values in [0,256); [char *pv = &val] is the
    little-endian byte view of the integer.  [dump] returns the size it reports
    and the bytes it stores from [buf[0]] on, which are not the same number of
    bytes in the eight-byte class of [dump(i64)]. *)
From stdpp Require Import base tactics numbers list.
From S2P Require Import Prelude.

(** [pv[i]], the [i]-th byte of [val] in memory *)
Definition byte_at (val : Z) (i : nat) : Z := Z.land (Z.shiftr val (8 * Z.of_nat i)) 255.

(** The integer whose little-endian bytes are [pv]. *)
Fixpoint le_combine (pv : list Z) : Z :=
  match pv with
  | [] => 0
  | b :: pv => b + 256 * le_combine pv
  end.
Definition of_bytes (pv : list Z) : Z := wrap_s (8 * Z.of_nat (length pv)) (le_combine pv).

Definition between (lo val hi : Z) : bool := (lo <=? val) && (val <=? hi).

Definition buf_size (byte0 : Z) : nat :=
  if Z.land byte0 0x80 =? 0 then 1
  else if Z.land byte0 0xC0 =? 0x80 then 2
  else if Z.land byte0 0xE0 =? 0xC0 then 3
  else if Z.land byte0 0xF0 =? 0xE0 then 4
  else if Z.land byte0 0xF8 =? 0xF0 then 5
  else if Z.land byte0 0xFC =? 0xF8 then 6
  else if Z.land byte0 0xFE =? 0xFC then 7
  else if Z.land byte0 0xFF =? 0xFE then 8
  else 9.

Definition val_size (val : Z) : nat :=
  if between (-64) val 63 then 1
  else if between (-8192) val 8191 then 2
  else if between (-1048576) val 1048575 then 3
  else if between (-134217728) val 134217727 then 4
  else if between (-17179869184) val 17179869183 then 5
  else if between (-2199023255552) val 2199023255551 then 6
  else if between (-281474976710656) val 281474976710655 then 7
  else if between (-36028797018963968) val 36028797018963967 then 8
  else 9.

(** [buf[0] &= keep; buf[0] |= tag] after [buf[0] = b]. *)
Definition mark (b keep tag : Z) : Z := Z.lor (Z.land b keep) tag.

Definition dump_i32 (val : Z) : nat * list Z :=
  let pv := byte_at val in
  if between (-64) val 63 then (1%nat, [Z.land (pv 0%nat) 0x7F])
  else if between (-8192) val 8191 then (2%nat, [mark (pv 1%nat) 0x3F 0x80; pv 0%nat])
  else if between (-1048576) val 1048575 then
    (3%nat, [mark (pv 2%nat) 0x1F 0xC0; pv 1%nat; pv 0%nat])
  else if between (-134217728) val 134217727 then
    (4%nat, [mark (pv 3%nat) 0x0F 0xE0; pv 2%nat; pv 1%nat; pv 0%nat])
  else
    (5%nat, [if val <? 0 then 0xF7 else 0xF0; pv 3%nat; pv 2%nat; pv 1%nat; pv 0%nat]).

Definition dump_i64 (val : Z) : nat * list Z :=
  let pv := byte_at val in
  if between (-64) val 63 then (1%nat, [Z.land (pv 0%nat) 0x7F])
  else if between (-8192) val 8191 then (2%nat, [mark (pv 1%nat) 0x3F 0x80; pv 0%nat])
  else if between (-1048576) val 1048575 then
    (3%nat, [mark (pv 2%nat) 0x1F 0xC0; pv 1%nat; pv 0%nat])
  else if between (-134217728) val 134217727 then
    (4%nat, [mark (pv 3%nat) 0x0F 0xE0; pv 2%nat; pv 1%nat; pv 0%nat])
  else if between (-17179869184) val 17179869183 then
    (5%nat, [mark (pv 4%nat) 0x07 0xF0; pv 3%nat; pv 2%nat; pv 1%nat; pv 0%nat])
  else if between (-2199023255552) val 2199023255551 then
    (6%nat, [mark (pv 5%nat) 0x03 0xF8; pv 4%nat; pv 3%nat; pv 2%nat; pv 1%nat; pv 0%nat])
  else if between (-281474976710656) val 281474976710655 then
    (7%nat, [mark (pv 6%nat) 0x01 0xFC; pv 5%nat; pv 4%nat; pv 3%nat; pv 2%nat; pv 1%nat; pv 0%nat])
  else if between (-36028797018963968) val 36028797018963967 then
    (8%nat, [0xFE; pv 7%nat; pv 6%nat; pv 5%nat; pv 4%nat; pv 3%nat; pv 2%nat; pv 1%nat; pv 0%nat])
  else
    (9%nat, [0xFF; pv 7%nat; pv 6%nat; pv 5%nat; pv 4%nat; pv 3%nat; pv 2%nat; pv 1%nat; pv 0%nat]).

(** The body shared by [load_i32] and [load_i64]: [nb] is [sizeof(val)], and the
    encodings shorter than [short] bytes carry the tag in their first byte. *)
Definition load_body (nb short bsize : nat) (buf : list Z) : list Z :=
  let pv := replicate nb 0 in
  if (bsize <? short)%nat then
    let pv := foldl (fun pv i => <[i := buf !!! (bsize - i - 1)%nat]> pv) pv (seq 0 bsize) in
    let top := Z.land (pv !!! (bsize - 1)%nat) (Z.shiftr 0xFF (Z.of_nat bsize)) in
    let pv := <[(bsize - 1)%nat := top]> pv in
    if negb (Z.land (Z.shiftr top (7 - Z.of_nat bsize)) 1 =? 0) then
      let top := Z.land (Z.lor top (Z.shiftl 0xFF (7 - Z.of_nat bsize))) 255 in
      let pv := <[(bsize - 1)%nat := top]> pv in
      foldl (fun pv i => <[i := 0xFF]> pv) pv (seq bsize (nb - bsize))
    else pv
  else
    foldl (fun pv i => <[i := buf !!! (nb - i)%nat]> pv) pv (seq 0 nb).

Definition load_i32 (buf : list Z) : Z := of_bytes (load_body 4 5 (buf_size (buf !!! 0%nat)) buf).
Definition load_i64 (buf : list Z) : Z := of_bytes (load_body 8 8 (buf_size (buf !!! 0%nat)) buf).

(** ** Lemmas *)

#[local] Arguments byte_at : simpl never.
#[local] Arguments mark : simpl never.
#[local] Arguments of_bytes : simpl never.
#[local] Arguments in_s : simpl never.

Lemma byte_at_mod val i : byte_at val i = (val / 256 ^ Z.of_nat i) mod 256.
Proof.
  unfold byte_at. change 255 with (Z.ones 8). rewrite Z.land_ones, Z.shiftr_div_pow2 by lia.
  change 256 with (2 ^ 8) at 1. by rewrite <- Z.pow_mul_r by lia.
Qed.

Lemma byte_at_range val i : 0 <= byte_at val i < 256.
Proof. rewrite byte_at_mod. apply Z.mod_pos_bound. lia. Qed.

(** A property of bytes is decided by running it on the 256 of them. *)
Definition all_bytes : list Z := Z.of_nat <$> seq 0 256.
Lemma all_bytes_spec (P : Z -> bool) :
  forallb P all_bytes = true -> forall b, 0 <= b < 256 -> P b = true.
Proof.
  intros HP b Hb. rewrite forallb_forall in HP. apply HP.
  apply list_elem_of_In, list_elem_of_fmap. exists (Z.to_nat b).
  rewrite Z2Nat.id by lia. split; [done|]. apply elem_of_seq. lia.
Qed.

(** [n] low bytes of [val] followed by a top digit below [256]. *)
Lemma le_combine_low val (n : nat) :
  le_combine (byte_at val <$> seq 0 n) = val mod 256 ^ Z.of_nat n.
Proof.
  assert (forall k, le_combine (byte_at val <$> seq k n) = (val / 256 ^ Z.of_nat k) mod 256 ^ Z.of_nat n) as H.
  { induction n as [|n IH]; intros k; simpl fmap; simpl le_combine.
    - by rewrite Z.mod_1_r.
    - rewrite IH, byte_at_mod. rewrite (Nat2Z.inj_succ n), (Nat2Z.inj_succ k), !Z.pow_succ_r by lia.
      rewrite Z.rem_mul_r by lia. f_equal. f_equal. rewrite (Z.mul_comm 256 (256 ^ Z.of_nat k)).
      by rewrite Z.div_div by lia. }
  rewrite H. by rewrite Z.div_1_r.
Qed.

Lemma of_bytes_all val (n : nat) :
  (0 < n)%nat -> in_s (8 * Z.of_nat n) val -> of_bytes (byte_at val <$> seq 0 n) = val.
Proof.
  intros Hn Hv. unfold of_bytes. rewrite length_fmap, length_seq, le_combine_low.
  rewrite <- (wrap_s_id (8 * Z.of_nat n) val) at 2 by (done || lia).
  unfold wrap_s. change 256 with (2 ^ 8). rewrite <- Z.pow_mul_r by lia.
  f_equal. by rewrite Zplus_mod_idemp_l.
Qed.

Lemma le_combine_app l1 l2 :
  le_combine (l1 ++ l2) = le_combine l1 + 256 ^ Z.of_nat (length l1) * le_combine l2.
Proof.
  induction l1 as [|b l1 IH]; simpl le_combine; simpl length; [by rewrite Z.mul_1_l|].
  rewrite IH, Nat2Z.inj_succ, Z.pow_succ_r by lia. ring.
Qed.

Lemma le_combine_zeros n : le_combine (replicate n 0) = 0.
Proof. induction n as [|n IH]; simpl; [done|]. by rewrite IH. Qed.

Lemma le_combine_ones n : le_combine (replicate n 255) = 256 ^ Z.of_nat n - 1.
Proof.
  induction n as [|n IH]; simpl le_combine; [done|].
  rewrite IH, Nat2Z.inj_succ, Z.pow_succ_r by lia. ring.
Qed.

(** The value of an encoding of [S k] bytes with [7 * S k] value bits: the top
    byte contributes its [7 - k] low bits and their sign is extended to the
    remaining [r] bytes. *)
Section short.
Context (val : Z) (k r : nat).
Context (Hk : (k <= 6)%nat) (Hval : in_s (7 * Z.of_nat k + 7) val).

Let P := 256 ^ Z.of_nat k.
Let Q := 2 ^ (7 - Z.of_nat k).
Let top := byte_at val k mod Q.

Lemma short_PQ : P * Q = 2 * 2 ^ (7 * Z.of_nat k + 7 - 1).
Proof.
  unfold P, Q. change 256 with (2 ^ 8). rewrite <- Z.pow_mul_r, <- Z.pow_add_r by lia.
  rewrite <- Z.pow_succ_r by lia. f_equal. lia.
Qed.

Lemma short_low_top : val mod P + P * top = val mod (P * Q).
Proof.
  assert (0 < P) by (apply Z.pow_pos_nonneg; lia).
  assert (0 < Q) by (apply Z.pow_pos_nonneg; lia).
  rewrite Z.rem_mul_r by lia. f_equal. f_equal. unfold top. rewrite byte_at_mod. fold P.
  assert (256 = Q * 2 ^ (Z.of_nat k + 1)) as ->.
  { unfold Q. rewrite <- Z.pow_add_r by lia.
    replace (7 - Z.of_nat k + (Z.of_nat k + 1)) with 8 by lia. done. }
  rewrite Z.rem_mul_r by lia. rewrite Z.add_mod by lia.
  rewrite Z.mul_comm, Z.mod_mul, Z.add_0_r, !Z.mod_mod by lia. done.
Qed.

Lemma short_half : 2 * 2 ^ (6 - Z.of_nat k) = Q.
Proof. unfold Q. rewrite <- Z.pow_succ_r by lia. f_equal. lia. Qed.

Lemma short_val_mod :
  val mod (P * Q) = if top <? 2 ^ (6 - Z.of_nat k) then val else val + P * Q.
Proof.
  assert (0 < P) by (apply Z.pow_pos_nonneg; lia).
  assert (0 < Q) by (apply Z.pow_pos_nonneg; lia).
  pose proof short_PQ as HPQ. pose proof short_half as HQ. pose proof short_low_top as HT.
  unfold in_s in Hval. pose proof (Z.mod_pos_bound val P).
  assert (0 <= top < Q) by (apply Z.mod_pos_bound; lia).
  set (H6 := 2 ^ (6 - Z.of_nat k)) in *. set (X := 2 ^ (7 * Z.of_nat k + 7 - 1)) in *.
  assert (X = P * H6) as HX by nia.
  assert (val < 0 -> val mod (P * Q) = val + P * Q) as Hneg.
  { intros. rewrite <- (Z.mod_add val 1 (P * Q)), Z.mod_small; lia. }
  assert (0 <= val -> val mod (P * Q) = val) as Hpos.
  { intros. apply Z.mod_small. lia. }
  destruct (Z.ltb_spec top H6) as [Hlt|Hge].
  - assert (P * top <= P * (H6 - 1)) by (apply Z.mul_le_mono_nonneg_l; lia).
    destruct (Z.le_gt_cases 0 val) as [|Hlt0]; [auto|]. specialize (Hneg Hlt0). nia.
  - assert (P * H6 <= P * top) by (apply Z.mul_le_mono_nonneg_l; lia).
    destruct (Z.le_gt_cases 0 val) as [Hge0|]; [|auto]. specialize (Hpos Hge0). nia.
Qed.

Lemma short_value :
  of_bytes ((byte_at val <$> seq 0 k) ++
    (if top <? 2 ^ (6 - Z.of_nat k) then top :: replicate r 0
     else (top + 256 - Q) :: replicate r 255)) = val.
Proof.
  assert (0 < P) by (apply Z.pow_pos_nonneg; lia).
  unfold of_bytes. set (n := 8 * Z.of_nat (length _)).
  assert (n = 8 * (Z.of_nat k + Z.of_nat r + 1)) as Hn.
  { unfold n. rewrite length_app, length_fmap, length_seq.
    destruct (top <? _); simpl; rewrite length_replicate; lia. }
  assert (in_s n val) as Hn_in.
  { unfold in_s in *. pose proof (Z.pow_le_mono_r 2 (7 * Z.of_nat k + 7 - 1) (n - 1)). lia. }
  rewrite le_combine_app, length_fmap, length_seq, le_combine_low. fold P.
  pose proof short_low_top as HT. pose proof short_val_mod as HV.
  destruct (top <? _); simpl le_combine.
  - rewrite le_combine_zeros. rewrite <- (wrap_s_id n val) at 2 by (done || lia).
    f_equal. lia.
  - rewrite le_combine_ones. rewrite <- (wrap_s_id n val) at 2 by (done || lia).
    assert (2 ^ n = P * 256 * 256 ^ Z.of_nat r) as H2n.
    { unfold P. rewrite Hn. replace (8 * (Z.of_nat k + Z.of_nat r + 1))
        with (8 * Z.of_nat k + 8 + 8 * Z.of_nat r) by lia.
      rewrite !Z.pow_add_r, !Z.pow_mul_r by lia. done. }
    unfold wrap_s. f_equal.
    rewrite <- (Z.mod_add (val + 2 ^ (n - 1)) 1 (2 ^ n)) by lia. f_equal. nia.
Qed.
End short.

(** What the decoder recovers from the tagged first byte of an encoding of [n]
    bytes, checked on every byte value. *)
Definition short_ok (n : nat) (keep tag t : Z) : bool :=
  let z := Z.of_nat n in
  let m := mark t keep tag in
  let top := Z.land m (Z.shiftr 0xFF z) in
  let Q := 2 ^ (8 - z) in
  bool_decide (buf_size m = n) && (top =? t mod Q)
  && eqb (negb (Z.land (Z.shiftr top (7 - z)) 1 =? 0)) (negb (t mod Q <? 2 ^ (7 - z)))
  && ((t mod Q <? 2 ^ (7 - z))
      || (Z.land (Z.lor top (Z.shiftl 0xFF (7 - z))) 255 =? t mod Q + 256 - Q)).

Lemma short_ok_spec n keep tag t :
  forallb (short_ok n keep tag) all_bytes = true -> 0 <= t < 256 ->
  let z := Z.of_nat n in
  let m := mark t keep tag in
  let Q := 2 ^ (8 - z) in
  buf_size m = n /\ Z.land m (Z.shiftr 0xFF z) = t mod Q /\
  negb (Z.land (Z.shiftr (t mod Q) (7 - z)) 1 =? 0) = negb (t mod Q <? 2 ^ (7 - z)) /\
  ((t mod Q <? 2 ^ (7 - z)) = false ->
     Z.land (Z.lor (t mod Q) (Z.shiftl 0xFF (7 - z))) 255 = t mod Q + 256 - Q).
Proof.
  intros Hall Ht. apply (all_bytes_spec _ Hall) in Ht. unfold short_ok in Ht.
  apply andb_true_iff in Ht as [Ht H4]. apply andb_true_iff in Ht as [Ht H3].
  apply andb_true_iff in Ht as [H1 H2]. apply bool_decide_eq_true in H1.
  apply Z.eqb_eq in H2. rewrite H2 in H3, H4. apply eqb_prop in H3.
  repeat split; [done | done | done |]. intros Hf. rewrite Hf in H4. by apply Z.eqb_eq in H4.
Qed.

(** Replaces the closed arithmetic of the exponents by numerals. *)
Ltac norm_closed t := let v := eval vm_compute in t in change t with v in *.
Ltac norm_exponents :=
  repeat match goal with
  | H : context [Z.of_nat ?n] |- _ => norm_closed (Z.of_nat n)
  | |- context [Z.of_nat ?n] => norm_closed (Z.of_nat n)
  | H : context [2 ^ (?a - ?b)] |- _ => norm_closed (2 ^ (a - b))
  | H : context [_ ≫ (?a - ?b)] |- _ => norm_closed (a - b)
  | H : context [_ ≪ (?a - ?b)] |- _ => norm_closed (a - b)
  | H : context [in_s (?a + ?b)] |- _ => norm_closed (a + b)
  end.

(** Runs the loops of [load_body] on a buffer whose first bytes are known. *)
Ltac load_compute :=
  cbv [load_body foldl seq replicate base.insert list_insert lookup_total list_lookup_total
       Nat.sub Nat.ltb Nat.leb app].

(** Decodes an encoding whose class [S k] is a numeral: the first byte is resolved
    by [short_ok_spec], what is left computes and is an instance of [short_value]. *)
Ltac solve_short val k r keep tag :=
  let Hs := fresh in let Ht := fresh in let Hc := fresh in let Hf := fresh in
  destruct (short_ok_spec (S k) keep tag (byte_at val k)) as (Hs & Ht & Hc & Hf);
  [vm_compute; reflexivity | apply byte_at_range |];
  let H := fresh in
  pose proof (short_value val k r) as H;
  unfold load_i64, load_i32;
  match goal with |- context [buf_size ?b] => change (buf_size b) with (buf_size (mark (byte_at val k) keep tag)) end;
  rewrite Hs; load_compute;
  norm_exponents;
  rewrite Ht, Hc;
  match type of H with
  | _ -> _ -> of_bytes (_ ++ if ?c then _ else _) = _ =>
    destruct c eqn:?; simpl negb; cbv iota; rewrite ?Hf by done;
    cbv [seq fmap list_fmap app replicate] in H;
    (apply H; [lia | unfold in_s; simpl; lia])
  end.

Ltac next_class :=
  match goal with
  | |- context [snd (if ?c then _ else _)] => destruct c eqn:?; simpl snd
  end.

(** The encodings of one to seven bytes decode to the value they were made from,
    whatever follows them in the buffer. *)
Lemma load_dump_i64_short val junk :
  between (-281474976710656) val 281474976710655 = true ->
  load_i64 ((dump_i64 val).2 ++ junk) = val.
Proof.
  intros Hr. unfold dump_i64. rewrite Hr. unfold between.
  next_class.
  { rewrite <- (Z.lor_0_r (Z.land _ _)). fold (mark (byte_at val 0) 0x7F 0).
    solve_short val 0%nat 7%nat 0x7F 0. }
  next_class; [solve_short val 1%nat 6%nat 0x3F 0x80|].
  next_class; [solve_short val 2%nat 5%nat 0x1F 0xC0|].
  next_class; [solve_short val 3%nat 4%nat 0x0F 0xE0|].
  next_class; [solve_short val 4%nat 3%nat 0x07 0xF0|].
  next_class; [solve_short val 5%nat 2%nat 0x03 0xF8|].
  unfold between in Hr. solve_short val 6%nat 1%nat 0x01 0xFC.
Qed.

(** The two widest classes store the value in full behind a tag byte. *)
Lemma load_dump_i64_wide val junk :
  in_s 64 val -> between (-281474976710656) val 281474976710655 = false ->
  load_i64 ((dump_i64 val).2 ++ junk) = val.
Proof.
  intros Hv Hr. pose proof (of_bytes_all val 8) as H.
  assert (forall lo hi, -281474976710656 <= lo -> hi <= 281474976710655 -> between lo val hi = false) as Hf.
  { unfold between in *. intros. lia. }
  unfold dump_i64. rewrite !Hf by lia.
  next_class; apply H; (lia || done).
Qed.

Lemma load_dump_i32_all val junk :
  in_s 32 val -> load_i32 ((dump_i32 val).2 ++ junk) = val.
Proof.
  intros Hv. unfold dump_i32, between.
  next_class.
  { rewrite <- (Z.lor_0_r (Z.land _ _)). fold (mark (byte_at val 0) 0x7F 0).
    solve_short val 0%nat 3%nat 0x7F 0. }
  next_class; [solve_short val 1%nat 2%nat 0x3F 0x80|].
  next_class; [solve_short val 2%nat 1%nat 0x1F 0xC0|].
  next_class; [solve_short val 3%nat 0%nat 0x0F 0xE0|].
  pose proof (of_bytes_all val 4) as H.
  destruct (val <? 0); apply H; (lia || done).
Qed.

(** The first byte announces the size that [dump] returned. *)
Lemma buf_size_dump_i64 val : buf_size ((dump_i64 val).2 !!! 0%nat) = (dump_i64 val).1.
Proof.
  assert (forall n keep tag i, forallb (short_ok n keep tag) all_bytes = true ->
    buf_size (mark (byte_at val i) keep tag) = n) as H.
  { intros n keep tag i Hall. by apply (short_ok_spec n keep tag), byte_at_range. }
  unfold dump_i64.
  destruct (between _ _ _); simpl.
  { rewrite <- (Z.lor_0_r (Z.land _ _)). fold (mark (byte_at val 0) 0x7F 0).
    apply H; vm_compute; reflexivity. }
  repeat (destruct (between _ _ _); simpl; [first [reflexivity | apply H; vm_compute; reflexivity]|]).
  reflexivity.
Qed.

Lemma buf_size_dump_i32 val : buf_size ((dump_i32 val).2 !!! 0%nat) = (dump_i32 val).1.
Proof.
  assert (forall n keep tag i, forallb (short_ok n keep tag) all_bytes = true ->
    buf_size (mark (byte_at val i) keep tag) = n) as H.
  { intros n keep tag i Hall. by apply (short_ok_spec n keep tag), byte_at_range. }
  unfold dump_i32.
  destruct (between _ _ _); simpl.
  { rewrite <- (Z.lor_0_r (Z.land _ _)). fold (mark (byte_at val 0) 0x7F 0).
    apply H; vm_compute; reflexivity. }
  repeat (destruct (between _ _ _); simpl; [first [reflexivity | apply H; vm_compute; reflexivity]|]).
  by destruct (val <? 0).
Qed.

Lemma dump_i32_length val : length (dump_i32 val).2 = (dump_i32 val).1 /\ ((dump_i32 val).1 <= 5)%nat.
Proof. unfold dump_i32. repeat (destruct (between _ _ _); [simpl; lia|]). simpl. lia. Qed.

(** The class of values whose nine-byte encoding is announced as eight bytes. *)
Definition eight_byte_class (val : Z) : bool :=
  negb (between (-281474976710656) val 281474976710655) &&
  between (-36028797018963968) val 36028797018963967.

Lemma dump_i64_eight val :
  eight_byte_class val = true ->
  dump_i64 val = (8%nat, 0xFE :: map (byte_at val) [7; 6; 5; 4; 3; 2; 1; 0]%nat).
Proof.
  unfold eight_byte_class. rewrite andb_true_iff, negb_true_iff. intros [H1 H2].
  unfold dump_i64. rewrite H1, H2. unfold between in *.
  repeat match goal with
  | |- (if ?c then _ else _) = _ => destruct c eqn:?; [exfalso; lia|]
  end. done.
Qed.

(** Reading eight bytes back leaves the lowest byte to whatever lies behind them. *)
Lemma load_dump_i64_eight val j junk :
  eight_byte_class val = true -> 0 <= j < 256 ->
  load_i64 (take (dump_i64 val).1 (dump_i64 val).2 ++ j :: junk) = 256 * (val / 256) + j.
Proof.
  intros Hc Hj. set (v' := 256 * (val / 256) + j).
  pose proof (Z.div_mod val 256 ltac:(lia)) as Hdm.
  pose proof (Z.mod_pos_bound val 256 ltac:(lia)) as Hmb.
  assert (eight_byte_class v' = true) as Hc'.
  { unfold eight_byte_class, between, v' in *. lia. }
  assert (load_i64 ((dump_i64 v').2 ++ junk) = v') as Hl.
  { unfold eight_byte_class, between in *. apply load_dump_i64_wide; [|unfold between; lia].
    unfold in_s. change (2 ^ (64 - 1)) with 9223372036854775808. lia. }
  rewrite <- Hl at 1. f_equal. rewrite !dump_i64_eight by done.
  assert (byte_at v' 0 = j) as Hb0.
  { rewrite byte_at_mod. change (256 ^ Z.of_nat 0) with 1. rewrite Z.div_1_r. unfold v'.
    rewrite Z.mul_comm, Z.add_comm, Z_mod_plus_full. by apply Z.mod_small. }
  assert (forall i, byte_at v' (S i) = byte_at val (S i)) as Hbi.
  { intros i. rewrite !byte_at_mod, Nat2Z.inj_succ, Z.pow_succ_r by lia.
    rewrite <- !Z.div_div by lia. f_equal. f_equal. unfold v'.
    rewrite Z.mul_comm, Z.div_add_l by lia. rewrite (Z.div_small j) by lia. lia. }
  cbn [map fst snd take app]. by rewrite Hb0, !Hbi.
Qed.

Lemma dump_i64_size val : (dump_i64 val).1 = val_size val.
Proof. unfold dump_i64, val_size. by repeat (destruct (between _ _ _); [done|]). Qed.

Lemma dump_i64_bytes val : Forall (fun b => 0 <= b < 256) (dump_i64 val).2.
Proof.
  assert (forall keep tag i, forallb (fun t => between 0 (mark t keep tag) 255) all_bytes = true ->
    0 <= mark (byte_at val i) keep tag < 256) as H.
  { intros keep tag i Hall. pose proof (all_bytes_spec _ Hall _ (byte_at_range val i)) as Hb.
    unfold between in Hb. lia. }
  unfold dump_i64.
  destruct (between _ _ _); simpl.
  { rewrite <- (Z.lor_0_r (Z.land _ _)). fold (mark (byte_at val 0) 0x7F 0).
    constructor; [apply H; vm_compute; reflexivity | constructor]. }
  repeat (destruct (between _ _ _); simpl;
    [repeat (constructor; [first [apply byte_at_range | lia | apply H; vm_compute; reflexivity]|]); constructor|]).
  repeat (constructor; [first [apply byte_at_range | lia]|]); constructor.
Qed.
