(* ===== verification/MarshalBuf.v ===== *)
(** * The byte queue under every RPC: [rrr::Marshal] (src/rrr/misc/marshal.hpp, marshal.cpp)

    A [Marshal] is a linked list of chunks of at least [min_size] bytes, written
    at the tail and read at the head.  [ByteQueue] is the contract the typed
    operators rely on, a FIFO of bytes; the chunked implementation is an instance.
    [assert(n_write > 0)] of [write] is part of the definition: it fails for a
    write of no bytes into a tail that has room.  The other [assert]s, on the shape
    of the list and on [content_size_], are the invariant [wf], proved to be kept. *)
From stdpp Require Import base tactics numbers list.
From S2P Require Import Prelude.

(** ** The contract *)

Class ByteQueue (Q : Type) := {
  bq_content : Q -> list Z;
  bq_wf : Q -> Prop;
  bq_empty : Q;
  bq_write : list Z -> Q -> option Q;
  bq_read : nat -> Q -> list Z * Q;
  bq_peek : nat -> Q -> list Z;
  bq_empty_spec : bq_wf bq_empty /\ bq_content bq_empty = [];
  bq_write_spec : forall p q, bq_wf q -> p ≠ [] ->
    exists q', bq_write p q = Some q' /\ bq_wf q' /\ bq_content q' = bq_content q ++ p;
  bq_read_spec : forall n q, bq_wf q ->
    (bq_read n q).1 = take n (bq_content q) /\
    bq_content (bq_read n q).2 = drop n (bq_content q) /\ bq_wf (bq_read n q).2;
  bq_peek_spec : forall n q, bq_wf q -> bq_peek n q = take n (bq_content q);
}.

(** ** Chunks *)

(** [bytes] are the bytes written so far, so [write_idx] is [length bytes];
    [size] is [data->size]. *)
Record chunk := mk_chunk { bytes : list Z; size : nat; read_idx : nat }.

#[local] Open Scope nat_scope.

Definition min_size : nat := Z.to_nat 8192%Z.
#[local] Arguments min_size : simpl never.

Definition write_idx (c : chunk) : nat := length (bytes c).

(** [chunk(p, n)] *)
Definition new_chunk (p : list Z) : chunk := mk_chunk p (Nat.max (length p) min_size) 0.

Definition content_size (c : chunk) : nat := write_idx c - read_idx c.

Definition chunk_write (p : list Z) (c : chunk) : nat * chunk :=
  let n_write := Nat.min (length p) (size c - write_idx c) in
  (n_write, mk_chunk (bytes c ++ take n_write p) (size c) (read_idx c)).

Definition chunk_peek (n : nat) (c : chunk) : list Z :=
  take (Nat.min n (write_idx c - read_idx c)) (drop (read_idx c) (bytes c)).

Definition chunk_read (n : nat) (c : chunk) : list Z * chunk :=
  let n_read := Nat.min n (write_idx c - read_idx c) in
  (take n_read (drop (read_idx c) (bytes c)),
   mk_chunk (bytes c) (size c) (read_idx c + n_read)).

Definition chunk_discard (n : nat) (c : chunk) : nat * chunk :=
  let n_discard := Nat.min n (write_idx c - read_idx c) in
  (n_discard, mk_chunk (bytes c) (size c) (read_idx c + n_discard)).

Definition fully_written (c : chunk) : bool := (write_idx c =? size c).
Definition fully_read (c : chunk) : bool := (read_idx c =? size c).

(** ** The queue *)

(** [head_] ... [tail_] as the list of chunks. *)
Record Marshal := mk_marshal { chunks : list chunk; write_cnt_ : Z; content_size_ : nat }.

Definition empty_marshal : Marshal := mk_marshal [] 0%Z 0.

Definition content_size_slow (m : Marshal) : nat :=
  foldr (fun c n => content_size c + n) 0 (chunks m).

(** The chunk list after [write]: everything happens at the tail.  [None] is a
    failed [assert(n_write > 0)]. *)
Fixpoint write_chunks (p : list Z) (cs : list chunk) : option (list chunk) :=
  match cs with
  | [] => Some [new_chunk p]
  | [t] =>
    if fully_written t then Some [t; new_chunk p]
    else
      let '(n_write, t) := chunk_write p t in
      if n_write =? 0 then None
      else Some (if (n_write <? length p) then [t; new_chunk (drop n_write p)] else [t])
  | c :: cs => cs ← write_chunks p cs; Some (c :: cs)
  end.

Definition marshal_write (p : list Z) (m : Marshal) : option Marshal :=
  cs ← write_chunks p (chunks m);
  Some (mk_marshal cs (i32 (write_cnt_ m + Z.of_nat (length p))%Z) (content_size_ m + length p)).

(** The loop of [read]: it goes on to the next chunk only when the head has been
    read to the end of its buffer and is unlinked. *)
Fixpoint read_chunks (n : nat) (cs : list chunk) : list Z * list chunk :=
  match cs with
  | [] => ([], [])
  | c :: cs' =>
    if (n =? 0) || (content_size c =? 0) then ([], cs)
    else
      let '(out, c') := chunk_read n c in
      if fully_read c' then
        let '(out', cs'') := read_chunks (n - length out) cs' in (out ++ out', cs'')
      else (out, c' :: cs')
  end.

Definition marshal_read (n : nat) (m : Marshal) : list Z * Marshal :=
  let '(out, cs) := read_chunks n (chunks m) in
  (out, mk_marshal cs (write_cnt_ m) (content_size_ m - length out)).

Fixpoint peek_chunks (n : nat) (cs : list chunk) : list Z :=
  match cs with
  | [] => []
  | c :: cs =>
    if (n =? 0) then []
    else
      let out := chunk_peek n c in
      if (length out =? 0) then [] else out ++ peek_chunks (n - length out) cs
  end.

Definition marshal_peek (n : nat) (m : Marshal) : list Z := peek_chunks n (chunks m).

Definition get_and_reset_write_cnt (m : Marshal) : Z * Marshal :=
  (write_cnt_ m, mk_marshal (chunks m) 0%Z (content_size_ m)).

(** ** Invariant and abstraction *)

Definition chunk_content (c : chunk) : list Z := drop (read_idx c) (bytes c).
Definition content (cs : list chunk) : list Z := concat (chunk_content <$> cs).

(** A chunk has room for what was written, has not been read to the end of its
    buffer (else it would have been unlinked), and only the tail may be partly
    written. *)
Definition chunk_ok (c : chunk) : Prop :=
  (read_idx c <= write_idx c <= size c /\ read_idx c < size c).

Fixpoint chunks_ok (cs : list chunk) : Prop :=
  match cs with
  | [] => True
  | [t] => chunk_ok t
  | c :: cs => chunk_ok c /\ write_idx c = size c /\ chunks_ok cs
  end.

Definition wf (m : Marshal) : Prop :=
  chunks_ok (chunks m) /\ content_size_ m = content_size_slow m.

#[local] Arguments chunk_write : simpl never.
#[local] Arguments chunk_read : simpl never.
#[local] Arguments chunk_peek : simpl never.

Lemma min_size_pos : (0 < min_size).
Proof. unfold min_size. lia. Qed.

Lemma chunks_ok_cons c cs :
  chunks_ok (c :: cs) <-> chunk_ok c /\ (cs ≠ [] -> write_idx c = size c) /\ chunks_ok cs.
Proof. destruct cs; simpl; naive_solver. Qed.

Lemma content_cons c cs : content (c :: cs) = chunk_content c ++ content cs.
Proof. done. Qed.

Lemma content_nil : content [] = [].
Proof. done. Qed.
Lemma new_chunk_content p : chunk_content (new_chunk p) = p.
Proof. done. Qed.

Lemma length_chunk_content c : length (chunk_content c) = content_size c.
Proof. unfold chunk_content, content_size, write_idx. by rewrite length_drop. Qed.

Lemma content_size_slow_length m : content_size_slow m = length (content (chunks m)).
Proof.
  unfold content_size_slow. induction (chunks m) as [|c cs IH]; [done|].
  rewrite content_cons, length_app, length_chunk_content, <- IH. done.
Qed.

Lemma new_chunk_ok p : chunk_ok (new_chunk p).
Proof. pose proof min_size_pos. unfold chunk_ok, new_chunk, write_idx. simpl. lia. Qed.

Lemma chunk_write_spec p c :
  chunk_ok c -> write_idx c ≠ size c ->
  let '(n, c') := chunk_write p c in
  chunk_ok c' /\ chunk_content c' = chunk_content c ++ take n p /\
  (n <= length p) /\ ((n < length p) -> write_idx c' = size c') /\ (n = 0 <-> length p = 0).
Proof.
  unfold chunk_ok, chunk_write, write_idx, chunk_content. simpl. intros Hc Hne.
  rewrite length_app, length_take, drop_app_le by lia. repeat split; lia.
Qed.

Lemma write_chunks_tail p t :
  write_chunks p [t] =
    if fully_written t then Some [t; new_chunk p]
    else
      let '(n_write, t) := chunk_write p t in
      if n_write =? 0 then None
      else Some (if n_write <? length p then [t; new_chunk (drop n_write p)] else [t]).
Proof. done. Qed.

Lemma write_chunks_cons p c c2 cs :
  write_chunks p (c :: c2 :: cs) = (cs' ← write_chunks p (c2 :: cs); Some (c :: cs')).
Proof. done. Qed.

Lemma write_chunks_spec p cs :
  chunks_ok cs -> p ≠ [] ->
  exists cs', write_chunks p cs = Some cs' /\ chunks_ok cs' /\ content cs' = content cs ++ p.
Proof.
  intros Hok Hp. assert (length p ≠ 0) as Hlen by (by destruct p). induction cs as [|c cs IH].
  - eexists. split; [done|]. split; [apply new_chunk_ok|]. unfold content. simpl. by rewrite app_nil_r.
  - apply chunks_ok_cons in Hok as (Hc & Hw & Hcs).
    destruct cs as [|c2 cs].
    + rewrite write_chunks_tail. unfold fully_written. destruct (Nat.eqb_spec (write_idx c) (size c)) as [E|E].
      * eexists. split; [done|]. split; [|unfold content; simpl; by rewrite !app_nil_r].
        apply chunks_ok_cons; split; [done|]; split; [auto|]; apply new_chunk_ok.
      * pose proof (chunk_write_spec p c Hc E) as H. destruct (chunk_write p c) as [n c'].
        destruct H as (Hok' & Hcont & Hn & Hfull & H0).
        destruct (Nat.eqb_spec n 0) as [Ez|_]; [by apply H0 in Ez|]. eexists. split; [done|].
        destruct (Nat.ltb_spec n (length p)) as [Hlt|Hge].
        -- split; [apply chunks_ok_cons; split; [done|]; split; [auto|]; apply new_chunk_ok|].
           rewrite !content_cons, Hcont, new_chunk_content, content_nil, !app_nil_r, <- app_assoc.
           by rewrite take_drop.
        -- split; [done|]. unfold content. simpl. rewrite !app_nil_r, Hcont.
           by rewrite take_ge by lia.
    + rewrite write_chunks_cons. destruct (IH Hcs) as (cs' & E & IHok & IHc). rewrite E.
      eexists. split; [done|]. split.
      * apply chunks_ok_cons. split; [done|]. split; [|done]. intros _. by apply Hw.
      * by rewrite !(content_cons c), IHc, app_assoc.
Qed.

(** Writing nothing fails if the tail has room. *)
Lemma write_nothing cs :
  chunks_ok cs ->
  (write_chunks [] cs = None <-> exists t, last cs = Some t /\ fully_written t = false).
Proof.
  induction cs as [|c cs IH]; intros Hok; [split; [done | by intros (t & ? & _)]|].
  apply chunks_ok_cons in Hok as (Hc & _ & Hcs). destruct cs as [|c2 cs].
  - rewrite write_chunks_tail. unfold chunk_write. cbn [length Nat.min Nat.eqb last].
    destruct (fully_written c) eqn:E; [|by split; [exists c|]]. split; [done|]. intros (t & [= <-] & ?). congruence.
  - rewrite write_chunks_cons, last_cons_cons, <- (IH Hcs). by destruct (write_chunks [] (c2 :: cs)).
Qed.

Lemma chunk_read_spec n c :
  chunk_ok c ->
  let '(out, c') := chunk_read n c in
  out = take n (chunk_content c) /\ chunk_content c' = drop n (chunk_content c) /\
  (read_idx c' <= write_idx c' <= size c') /\ size c' = size c /\ write_idx c' = write_idx c.
Proof.
  unfold chunk_ok, chunk_read, chunk_content, write_idx. simpl. intros Hc.
  rewrite drop_drop. destruct (Nat.le_gt_cases n (length (bytes c) - read_idx c)).
  - rewrite Nat.min_l by lia. repeat split; auto; lia.
  - rewrite Nat.min_r by lia.
    rewrite (drop_ge _ (read_idx c + n)), (drop_ge _ (read_idx c + _)) by lia.
    rewrite (take_ge _ n), (take_ge _ (_ - _)) by (rewrite length_drop; lia).
    repeat split; lia.
Qed.

Lemma read_chunks_cons n c cs :
  read_chunks n (c :: cs) =
    if (n =? 0) || (content_size c =? 0) then ([], c :: cs)
    else
      let '(out, c') := chunk_read n c in
      if fully_read c' then
        let '(out', cs'') := read_chunks (n - length out) cs in (out ++ out', cs'')
      else (out, c' :: cs).
Proof. done. Qed.

Lemma read_chunks_spec n cs :
  chunks_ok cs ->
  (read_chunks n cs).1 = take n (content cs) /\
  content (read_chunks n cs).2 = drop n (content cs) /\ chunks_ok (read_chunks n cs).2.
Proof.
  revert n. induction cs as [|c cs IH]; intros n Hok.
  { simpl. unfold content. simpl. by rewrite take_nil, drop_nil. }
  pose proof Hok as Hok0. apply chunks_ok_cons in Hok as (Hc & Hw & Hcs).
  rewrite read_chunks_cons.
  destruct (Nat.eqb_spec n 0) as [->|Hn]; [by rewrite take_0, drop_0|]. cbn [orb].
  destruct (Nat.eqb_spec (content_size c) 0) as [H0|H0].
  { (* an empty head is a partly written tail *)
    simpl. assert (cs = []) as ->.
    { destruct cs; [done|]. unfold content_size in H0. unfold chunk_ok in Hc.
      specialize (Hw ltac:(done)). lia. }
    rewrite content_cons. pose proof (length_chunk_content c) as Hl. rewrite H0 in Hl.
    apply nil_length_inv in Hl. rewrite Hl. unfold content. simpl. by rewrite take_nil, drop_nil. }
  pose proof (chunk_read_spec n c Hc) as Hr. destruct (chunk_read n c) as [out c'].
  destruct Hr as (-> & Hc' & Hb & Hsz & Hwr). rewrite content_cons.
  unfold fully_read. destruct (Nat.eqb_spec (read_idx c') (size c')) as [E|E].
  - (* the head has been consumed *)
    assert (chunk_content c' = []) as Hnil.
    { apply nil_length_inv. rewrite length_chunk_content. unfold content_size. lia. }
    rewrite Hnil in Hc'. assert (length (chunk_content c) <= n) as Hle.
    { apply (f_equal length) in Hc'. rewrite length_drop in Hc'. simpl in Hc'. lia. }
    destruct (IH (n - length (take n (chunk_content c))) Hcs) as (H1 & H2 & H3).
    destruct (read_chunks _ cs) as [out' cs'']. simpl in *.
    rewrite !(take_ge (chunk_content c) n) in * by lia. subst out'.
    rewrite take_app, drop_app, (take_ge (chunk_content c) n), (drop_ge (chunk_content c) n) by lia.
    auto.
  - simpl. rewrite content_cons, Hc'.
    assert (chunk_ok c') as Hok' by (unfold chunk_ok in *; lia).
    destruct cs as [|c2 cs].
    + unfold content. simpl. rewrite !app_nil_r. auto.
    + specialize (Hw ltac:(done)).
      assert (n <= length (chunk_content c)) as Hle.
      { apply (f_equal length) in Hc'. rewrite length_drop, length_chunk_content in Hc'.
        unfold content_size in Hc'. lia. }
      rewrite take_app_le, drop_app_le by lia. split; [done|]. split; [done|].
      split; [done|]. split; [lia | done].
Qed.

Lemma peek_chunks_spec n cs : chunks_ok cs -> peek_chunks n cs = take n (content cs).
Proof.
  revert n. induction cs as [|c cs IH]; intros n Hok.
  { simpl. unfold content. simpl. by rewrite take_nil. }
  apply chunks_ok_cons in Hok as (Hc & Hw & Hcs). simpl.
  destruct (Nat.eqb_spec n 0) as [->|Hn]; [done|].
  assert (chunk_peek n c = take n (chunk_content c)) as ->.
  { pose proof (chunk_read_spec n c Hc) as Hr. unfold chunk_read in Hr. apply Hr. }
  rewrite content_cons.
  destruct (Nat.eqb_spec (length (take n (chunk_content c))) 0) as [H0|H0].
  - rewrite length_take, length_chunk_content in H0.
    assert (cs = []) as ->.
    { destruct cs; [done|]. unfold content_size in H0. unfold chunk_ok in Hc.
      specialize (Hw ltac:(done)). lia. }
    unfold content. simpl. rewrite app_nil_r, take_ge by (rewrite length_chunk_content; lia).
    symmetry. apply nil_length_inv. rewrite length_chunk_content. lia.
  - rewrite IH by done. rewrite take_app. f_equal. f_equal. rewrite length_take.
    destruct (Nat.le_gt_cases n (length (chunk_content c))); lia.
Qed.

Lemma marshal_write_spec p m :
  wf m -> p ≠ [] ->
  exists m', marshal_write p m = Some m' /\ wf m' /\ content (chunks m') = content (chunks m) ++ p.
Proof.
  intros [Hok Hsz] Hp. destruct (write_chunks_spec p (chunks m) Hok Hp) as (cs & E & H1 & H2).
  unfold marshal_write. rewrite E. eexists. split; [done|].
  unfold wf. rewrite content_size_slow_length in *. simpl in *.
  rewrite H2, length_app. repeat split; auto; lia.
Qed.

Lemma marshal_read_spec n m :
  wf m ->
  (marshal_read n m).1 = take n (content (chunks m)) /\
  content (chunks (marshal_read n m).2) = drop n (content (chunks m)) /\ wf (marshal_read n m).2.
Proof.
  intros [Hok Hsz]. destruct (read_chunks_spec n (chunks m) Hok) as (H1 & H2 & H3).
  unfold wf, marshal_read. destruct (read_chunks n (chunks m)) as [out cs].
  rewrite content_size_slow_length in *. simpl in *. subst out. rewrite H2.
  repeat split; auto. rewrite Hsz, length_take, length_drop. lia.
Qed.

#[export] Program Instance Marshal_ByteQueue : ByteQueue Marshal := {
  bq_content m := content (chunks m);
  bq_wf := wf;
  bq_empty := empty_marshal;
  bq_write := marshal_write;
  bq_read := marshal_read;
  bq_peek := marshal_peek;
}.
Next Obligation. repeat split. Qed.
Next Obligation. intros. by apply marshal_write_spec. Qed.
Next Obligation. intros. by apply marshal_read_spec. Qed.
Next Obligation. intros n q [Hok _]. by apply peek_chunks_spec. Qed.

(** ** The queue as a whole *)

(** An operation on a queue, and its result: the bytes read. *)
Inductive io := Write (p : list Z) | Read (n : nat) | Peek (n : nat).

Definition run_io (o : io) (m : Marshal) : option (list Z * Marshal) :=
  match o with
  | Write p => m ← marshal_write p m; Some ([], m)
  | Read n => Some (marshal_read n m)
  | Peek n => Some (marshal_peek n m, m)
  end.

(** The same on a plain list of bytes. *)
Definition spec_io (o : io) (l : list Z) : list Z * list Z :=
  match o with
  | Write p => ([], l ++ p)
  | Read n => (take n l, drop n l)
  | Peek n => (take n l, l)
  end.

Fixpoint run_all (os : list io) (m : Marshal) : option (list (list Z) * Marshal) :=
  match os with
  | [] => Some ([], m)
  | o :: os => '(out, m) ← run_io o m; '(outs, m) ← run_all os m; Some (out :: outs, m)
  end.

Fixpoint spec_all (os : list io) (l : list Z) : list (list Z) * list Z :=
  match os with
  | [] => ([], l)
  | o :: os => let '(out, l) := spec_io o l in let '(outs, l) := spec_all os l in (out :: outs, l)
  end.

(** An operation that does not write nothing. *)
Definition io_ok (o : io) : Prop := match o with Write p => p ≠ [] | _ => True end.

Lemma run_io_refines o m :
  wf m -> io_ok o -> exists out m', run_io o m = Some (out, m') /\ wf m' /\
    spec_io o (content (chunks m)) = (out, content (chunks m')).
Proof.
  intros Hm Ho. destruct o as [p|n|n]; cbn [run_io spec_io].
  - destruct (marshal_write_spec p m Hm Ho) as (m' & E & H1 & H2). rewrite E. exists [], m'. by rewrite H2.
  - destruct (marshal_read_spec n m Hm) as (H1 & H2 & H3). destruct (marshal_read n m) as [out m'].
    simpl in *. exists out, m'. by subst out; rewrite H2.
  - eexists _, m. split; [done|]. split; [done|]. destruct Hm as [Hok _]. unfold marshal_peek. by rewrite peek_chunks_spec.
Qed.

Lemma run_all_refines os m :
  wf m -> Forall io_ok os -> exists outs m', run_all os m = Some (outs, m') /\ wf m' /\
    spec_all os (content (chunks m)) = (outs, content (chunks m')).
Proof.
  intros Hm Hos. revert m Hm. induction Hos as [|o os Ho _ IH]; intros m Hm; [by exists [], m|].
  cbn [run_all spec_all]. destruct (run_io_refines o m Hm Ho) as (out & m1 & E & Hm1 & ->). rewrite E. cbn.
  destruct (IH m1 Hm1) as (outs & m2 & -> & Hm2 & ->). cbn. by exists (out :: outs), m2.
Qed.

(** C35: whatever is written, read and peeked, in any order, no write
    being of zero bytes, no assertion of the queue fails, the linked chunks give the
    same bytes as one list of bytes, and the counter [content_size_] is the number of
    bytes left.  A write of zero bytes at the end fails [assert(n_write > 0)] exactly
    when there is a chunk and the last one is not full. *)
Theorem marshal_is_a_byte_queue (os : list io) :
  Forall io_ok os ->
  exists outs m, run_all os empty_marshal = Some (outs, m) /\
    spec_all os [] = (outs, content (chunks m)) /\ content_size_ m = length (content (chunks m)) /\
    (marshal_write [] m = None <-> exists t, last (chunks m) = Some t /\ fully_written t = false).
Proof.
  intros Hos. destruct (run_all_refines os empty_marshal) as (outs & m & E & [Hok Hsz] & Hs); [repeat split | done|].
  exists outs, m. split_and!; [done..|by rewrite Hsz, content_size_slow_length|].
  rewrite <- (write_nothing _ Hok). unfold marshal_write. by destruct (write_chunks [] (chunks m)).
Qed.

(** ** Instances *)

Lemma marshal_is_a_byte_queue_witness :
  exists outs m, run_all [Write [1%Z; 2%Z; 3%Z]; Read 2; Peek 4; Write [4%Z]; Read 9] empty_marshal = Some (outs, m) /\
    outs = [[]; [1%Z; 2%Z]; [3%Z]; []; [3%Z; 4%Z]] /\ marshal_write [] m = None.
Proof.
  destruct (marshal_is_a_byte_queue [Write [1%Z; 2%Z; 3%Z]; Read 2; Peek 4; Write [4%Z]; Read 9])
    as (outs & m & E & Hs & _ & Hn); [by repeat constructor|].
  exists outs, m. split; [exact E|]. split; [by injection Hs as <- _|]. apply Hn.
  assert (run_all [Write [1%Z; 2%Z; 3%Z]; Read 2; Peek 4; Write [4%Z]; Read 9] empty_marshal =
    Some ([[]; [1%Z; 2%Z]; [3%Z]; []; [3%Z; 4%Z]], mk_marshal [mk_chunk [1%Z; 2%Z; 3%Z; 4%Z] min_size 4] 4%Z 0)) as E'
    by (vm_compute; reflexivity).
  rewrite E' in E. injection E as _ <-. eexists. split; [reflexivity|]. vm_compute. reflexivity.
Defined.
