(* ===== verification/Marshal.v ===== *)
(** * The typed operators of [rrr::Marshal] (src/rrr/misc/marshal.hpp)

    [operator<<] and [operator>>] for integers, variable-length integers, strings,
    pairs, vectors, sets and maps, over any byte queue.  A [Codec] packs the two
    operators of a type with its wire format, with what arrives at the receiver
    ([rcv], mostly the value itself) and with the two facts that make marshalling
    correct: writing a valid value succeeds and appends the wire format, and
    reading a wire format gives what should arrive and consumes exactly its
    bytes. *)
From stdpp Require Import base tactics numbers list sorting.
From S2P Require Import Prelude OMap SparseInt MarshalBuf.

Section codecs.
Context {Q : Type} `{ByteQueue Q}.
(** the uninitialised bytes of [char buf[9]] behind what has been read into it *)
Context (junk : list Z).

Class Codec (A : Type) := {
  valid : A -> Prop;
  enc : A -> list Z;
  rcv : A -> A;
  put : A -> Q -> option Q;
  get : Q -> option (A * Q);
  put_spec : forall a q, bq_wf q -> valid a ->
    exists q', put a q = Some q' /\ bq_wf q' /\ bq_content q' = bq_content q ++ enc a;
  get_spec : forall a q rest, bq_wf q -> valid a -> bq_content q = enc a ++ rest ->
    exists q', get q = Some (rcv a, q') /\ bq_content q' = rest /\ bq_wf q';
}.

(** [verify(m.read(p, n) == n)] *)
Definition read_exact (n : nat) (q : Q) : option (list Z * Q) :=
  let '(out, q') := bq_read n q in
  if (length out =? n)%nat then Some (out, q') else None.

Lemma read_exact_spec (p : list Z) q rest :
  bq_wf q -> bq_content q = p ++ rest ->
  exists q', read_exact (length p) q = Some (p, q') /\ bq_content q' = rest /\ bq_wf q'.
Proof.
  intros Hq Hc. unfold read_exact.
  destruct (bq_read_spec (length p) q Hq) as (H1 & H2 & H3).
  destruct (bq_read (length p) q) as [out q']. simpl in *. subst out.
  rewrite Hc, take_app_length in *. rewrite drop_app_length in H2.
  rewrite Nat.eqb_refl. eauto.
Qed.

(** ** Fixed-width integers *)

Definition put_int (nb : nat) (v : Z) (q : Q) : option Q := bq_write (byte_at v <$> seq 0 nb) q.
Definition get_signed (nb : nat) (q : Q) : option (Z * Q) :=
  '(out, q) ← read_exact nb q; Some (of_bytes out, q).
Definition get_unsigned (nb : nat) (q : Q) : option (Z * Q) :=
  '(out, q) ← read_exact nb q; Some (le_combine out, q).

Lemma put_int_spec nb v q :
  (0 < nb)%nat -> bq_wf q ->
  exists q', put_int nb v q = Some q' /\ bq_wf q' /\ bq_content q' = bq_content q ++ (byte_at v <$> seq 0 nb).
Proof. intros Hnb Hq. apply bq_write_spec; [done|]. by destruct nb; [lia|]. Qed.

Program Definition signed_codec (nb : nat) (Hnb : (0 < nb)%nat) : Codec Z := {|
  valid := in_s (8 * Z.of_nat nb); enc v := byte_at v <$> seq 0 nb; rcv v := v;
  put := put_int nb; get := get_signed nb |}.
Next Obligation. intros. by apply put_int_spec. Qed.
Next Obligation.
  intros nb Hnb a q rest Hq Hv Hc.
  destruct (read_exact_spec _ q rest Hq Hc) as (q' & Hr & H1 & H2).
  rewrite length_fmap, length_seq in Hr. exists q'. unfold get_signed. rewrite Hr. simpl.
  by rewrite of_bytes_all.
Qed.

Program Definition unsigned_codec (nb : nat) (Hnb : (0 < nb)%nat) : Codec Z := {|
  valid := in_u (8 * Z.of_nat nb); enc v := byte_at v <$> seq 0 nb; rcv v := v;
  put := put_int nb; get := get_unsigned nb |}.
Next Obligation. intros. by apply put_int_spec. Qed.
Next Obligation.
  intros nb Hnb a q rest Hq Hv Hc.
  destruct (read_exact_spec _ q rest Hq Hc) as (q' & Hr & H1 & H2).
  rewrite length_fmap, length_seq in Hr. exists q'. unfold get_unsigned. rewrite Hr. simpl.
  rewrite le_combine_low, Z.mod_small; [done|]. unfold in_u in Hv.
  by rewrite Z.pow_mul_r in Hv by lia.
Qed.

Definition i8_codec := signed_codec 1 ltac:(lia).
Definition i16_codec := signed_codec 2 ltac:(lia).
Definition i32_codec := signed_codec 4 ltac:(lia).
Definition i64_codec := signed_codec 8 ltac:(lia).
Definition u8_codec := unsigned_codec 1 ltac:(lia).
Definition u16_codec := unsigned_codec 2 ltac:(lia).
Definition u32_codec := unsigned_codec 4 ltac:(lia).
Definition u64_codec := unsigned_codec 8 ltac:(lia).

(** ** Variable-length integers *)

Definition put_v32 (v : Z) (q : Q) : option Q :=
  let '(bsize, buf) := dump_i32 v in bq_write (take bsize buf) q.
Definition put_v64 (v : Z) (q : Q) : option Q :=
  let '(bsize, buf) := dump_i64 v in bq_write (take bsize buf) q.

(** [char buf[5]]: a longer encoding overruns the buffer. *)
Definition get_v32 (q : Q) : option (Z * Q) :=
  match bq_peek 1 q with
  | [byte0] =>
    let bsize := buf_size byte0 in
    '(out, q) ← read_exact bsize q;
    if (bsize <=? 5)%nat then Some (load_i32 (out ++ junk), q) else None
  | _ => None
  end.
Definition get_v64 (q : Q) : option (Z * Q) :=
  match bq_peek 1 q with
  | [byte0] =>
    '(out, q) ← read_exact (buf_size byte0) q;
    Some (load_i64 (out ++ junk), q)
  | _ => None
  end.

(** The values whose encoding is not cut short: all but the eight-byte class. *)
Definition v64_valid (v : Z) : Prop :=
  in_s 64 v /\
  (between (-281474976710656) v 281474976710655 = true \/
   between (-36028797018963968) v 36028797018963967 = false).

Definition v64_bytes (v : Z) : list Z := take (dump_i64 v).1 (dump_i64 v).2.

Lemma dump_i64_length v : v64_valid v -> length (dump_i64 v).2 = (dump_i64 v).1.
Proof.
  intros [_ Hv]. unfold dump_i64.
  repeat match goal with
  | |- context [snd (if ?c then _ else _)] => destruct c eqn:?; [done|]
  end.
  destruct Hv as [Hv| ->]; [|done]. unfold between in *. lia.
Qed.

Lemma v64_bytes_full v : v64_valid v -> v64_bytes v = (dump_i64 v).2.
Proof. intros Hv. unfold v64_bytes. rewrite take_ge by (by rewrite dump_i64_length). done. Qed.

Lemma v64_bytes_cons v :
  exists l, v64_bytes v = (dump_i64 v).2 !!! 0%nat :: l /\ length (v64_bytes v) = (dump_i64 v).1.
Proof.
  unfold v64_bytes, dump_i64.
  repeat match goal with
  | |- context [snd (if ?c then _ else _)] => destruct c; [by eexists|]
  end. by eexists.
Qed.

Lemma get_v64_reads v q rest x :
  bq_wf q -> bq_content q = v64_bytes v ++ rest -> load_i64 (v64_bytes v ++ junk) = x ->
  exists q', get_v64 q = Some (x, q') /\ bq_content q' = rest /\ bq_wf q'.
Proof.
  intros Hq Hc <-. unfold get_v64. rewrite (bq_peek_spec 1 q Hq), Hc.
  destruct (v64_bytes_cons v) as (l & Hv & Hl).
  destruct (read_exact_spec _ q rest Hq Hc) as (q' & Hr & H1 & H2).
  assert (take 1 (v64_bytes v ++ rest) = [(dump_i64 v).2 !!! 0%nat]) as ->.
  { by rewrite Hv. }
  exists q'. rewrite buf_size_dump_i64, <- Hl, Hr. done.
Qed.

Lemma put_v64_spec v q :
  bq_wf q -> exists q', put_v64 v q = Some q' /\ bq_wf q' /\ bq_content q' = bq_content q ++ v64_bytes v.
Proof.
  intros Hq. destruct (v64_bytes_cons v) as (l & Hv & _). unfold put_v64, v64_bytes in *.
  destruct (dump_i64 v). apply bq_write_spec; [done|]. by rewrite Hv.
Qed.

Program Definition v64_codec : Codec Z := {|
  valid := v64_valid; enc := v64_bytes; rcv v := v; put := put_v64; get := get_v64 |}.
Next Obligation. intros. by apply put_v64_spec. Qed.
Next Obligation.
  intros v q rest Hq Hv Hc. eapply get_v64_reads; eauto. rewrite v64_bytes_full by done.
  destruct Hv as [Hr Hv].
  destruct (between (-281474976710656) v 281474976710655) eqn:E.
  - by apply load_dump_i64_short.
  - by apply load_dump_i64_wide.
Qed.

Program Definition v32_codec : Codec Z := {|
  valid := in_s 32; enc v := (dump_i32 v).2; rcv v := v; put := put_v32; get := get_v32 |}.
Next Obligation.
  intros v q Hq _. unfold put_v32. pose proof (dump_i32_length v) as [Hl _].
  pose proof (buf_size_dump_i32 v) as Hb.
  destruct (dump_i32 v) as [n b]. simpl in *. rewrite take_ge by lia.
  apply bq_write_spec; [done|]. intros ->. by rewrite <- Hl in Hb.
Qed.
Next Obligation.
  intros v q rest Hq Hv Hc. cbv beta in *. unfold get_v32. rewrite (bq_peek_spec 1 q Hq), Hc.
  destruct (dump_i32_length v) as [Hl H5].
  destruct (read_exact_spec _ q rest Hq Hc) as (q' & Hr & H1 & H2).
  assert (take 1 ((dump_i32 v).2 ++ rest) = [(dump_i32 v).2 !!! 0%nat]) as ->.
  { destruct (dump_i32 v).2 eqn:E; [|done]. exfalso.
    pose proof (buf_size_dump_i32 v) as Hb. rewrite <- Hl, E in Hb. done. }
  exists q'. rewrite buf_size_dump_i32, <- Hl, Hr. simpl. rewrite Hl.
  rewrite (proj2 (Nat.leb_le _ _) H5), load_dump_i32_all by done. done.
Qed.

(** ** Strings *)

(** [string::resize] throws on a negative length. *)
Definition put_string (s : list Z) (q : Q) : option Q :=
  q ← put_v64 (Z.of_nat (length s)) q;
  if (0 <? length s)%nat then bq_write s q else Some q.
Definition get_string (q : Q) : option (list Z * Q) :=
  '(v_len, q) ← get_v64 q;
  if v_len <? 0 then None
  else if v_len >? 0 then read_exact (Z.to_nat v_len) q
  else Some ([], q).

Definition len_valid (n : nat) : Prop := Z.of_nat n < 2 ^ 31.
Lemma len_v64_valid n : len_valid n -> v64_valid (Z.of_nat n).
Proof. unfold len_valid, v64_valid, in_s, between. intros. split; [|left]; lia. Qed.

Program Definition string_codec : Codec (list Z) := {|
  valid s := len_valid (length s); enc s := v64_bytes (Z.of_nat (length s)) ++ s;
  rcv s := s; put := put_string; get := get_string |}.
Next Obligation.
  intros s q Hq _. unfold put_string.
  destruct (put_v64_spec (Z.of_nat (length s)) q Hq) as (q1 & -> & H1 & H2). simpl.
  destruct (Nat.ltb_spec 0 (length s)) as [Hs|Hs].
  - destruct (bq_write_spec s _ H1) as (q2 & E & H3 & H4); [by destruct s; [cbn in Hs; lia|]|].
    exists q2. split; [done|]. split; [done|]. by rewrite H4, H2, app_assoc.
  - exists q1. split; [done|]. destruct s; [by rewrite app_nil_r | simpl in *; lia].
Qed.
Next Obligation.
  intros s q rest Hq Hv Hc. cbv beta in *. rewrite <- app_assoc in Hc. unfold get_string.
  destruct (get_spec (Codec:=v64_codec) _ q _ Hq (len_v64_valid _ Hv) Hc) as (q1 & E & H1 & H2).
  simpl in E. rewrite E. simpl. rewrite (proj2 (Z.ltb_ge _ _)) by lia.
  destruct (Z.gtb_spec (Z.of_nat (length s)) 0).
  - rewrite Nat2Z.id. by apply read_exact_spec.
  - destruct s; [by exists q1 | simpl in *; lia].
Qed.

(** ** Pairs and containers *)

Section pair.
Context {A B : Type} (cA : Codec A) (cB : Codec B).

Definition put_pair (v : A * B) (q : Q) : option Q := q ← put v.1 q; put v.2 q.
Definition get_pair (q : Q) : option ((A * B) * Q) :=
  '(a, q) ← get q; '(b, q) ← get q; Some ((a, b), q).

Program Definition pair_codec : Codec (A * B) := {|
  valid v := valid v.1 /\ valid v.2; enc v := enc v.1 ++ enc v.2;
  rcv v := (rcv v.1, rcv v.2); put := put_pair; get := get_pair |}.
Next Obligation.
  intros [a b] q Hq [Ha Hb]. unfold put_pair. simpl in *.
  destruct (put_spec a q Hq Ha) as (q1 & -> & H1 & H2). simpl.
  destruct (put_spec b _ H1 Hb) as (q2 & -> & H3 & H4). exists q2.
  by rewrite H4, H2, app_assoc.
Qed.
Next Obligation.
  intros [a b] q rest Hq [Ha Hb] Hc. simpl in *. rewrite <- app_assoc in Hc. unfold get_pair.
  destruct (get_spec a q _ Hq Ha Hc) as (q1 & -> & H1 & H2). simpl.
  destruct (get_spec b q1 _ H2 Hb H1) as (q2 & -> & H3 & H4). simpl. eauto.
Qed.
End pair.

Section seq.
Context {A : Type} (cA : Codec A).

Fixpoint put_all (l : list A) (q : Q) : option Q :=
  match l with
  | [] => Some q
  | a :: l => q ← put a q; put_all l q
  end.
Fixpoint get_n (n : nat) (q : Q) : option (list A * Q) :=
  match n with
  | O => Some ([], q)
  | S n => '(a, q) ← get q; '(l, q) ← get_n n q; Some (a :: l, q)
  end.
Definition enc_seq (l : list A) : list Z :=
  v64_bytes (Z.of_nat (length l)) ++ concat (enc <$> l).
Definition valid_seq (l : list A) : Prop := len_valid (length l) /\ Forall valid l.

(** the size as a [v64], then the elements in iteration order *)
Definition put_seq (l : list A) (q : Q) : option Q :=
  q ← put_v64 (Z.of_nat (length l)) q; put_all l q.

(** [for (int i = 0; i < v_len.get(); i++)]: with [2^31] elements or more the
    counter overflows, which has no defined behaviour. *)
Definition get_seq (q : Q) : option (list A * Q) :=
  '(v_len, q) ← get_v64 q;
  if v_len <? 2 ^ 31 then get_n (Z.to_nat v_len) q else None.
(** [std::vector]: [reserve] throws on a negative length *)
Definition get_vector (q : Q) : option (list A * Q) :=
  '(v_len, q) ← get_v64 q;
  if (0 <=? v_len) && (v_len <? 2 ^ 31) then get_n (Z.to_nat v_len) q else None.

Lemma put_all_spec l q :
  bq_wf q -> Forall valid l ->
  exists q', put_all l q = Some q' /\ bq_wf q' /\ bq_content q' = bq_content q ++ concat (enc <$> l).
Proof.
  intros Hq Hl. revert q Hq. induction Hl as [|a l Ha Hl IH]; intros q Hq; simpl.
  { exists q. by rewrite app_nil_r. }
  destruct (put_spec a q Hq Ha) as (q1 & -> & H1 & H2). simpl.
  destruct (IH _ H1) as (q2 & -> & H3 & H4). exists q2. by rewrite H4, H2, <- app_assoc.
Qed.

Lemma get_n_spec l q rest :
  bq_wf q -> Forall valid l -> bq_content q = concat (enc <$> l) ++ rest ->
  exists q', get_n (length l) q = Some (rcv <$> l, q') /\ bq_content q' = rest /\ bq_wf q'.
Proof.
  intros Hq Hl. revert q Hq. induction Hl as [|a l Ha Hl IH]; intros q Hq Hc; simpl in *.
  { by exists q. }
  rewrite <- app_assoc in Hc.
  destruct (get_spec a q _ Hq Ha Hc) as (q1 & -> & H1 & H2). simpl.
  destruct (IH q1 H2 H1) as (q2 & -> & H3 & H4). simpl. eauto.
Qed.

Lemma put_seq_spec l q :
  bq_wf q -> valid_seq l ->
  exists q', put_seq l q = Some q' /\ bq_wf q' /\ bq_content q' = bq_content q ++ enc_seq l.
Proof.
  intros Hq [_ Hl]. unfold put_seq, enc_seq.
  destruct (put_v64_spec (Z.of_nat (length l)) q Hq) as (q1 & -> & H1 & H2). simpl.
  destruct (put_all_spec l _ H1 Hl) as (q2 & -> & H3 & H4). exists q2.
  by rewrite H4, H2, <- app_assoc.
Qed.

Lemma get_seq_spec l q rest :
  bq_wf q -> valid_seq l -> bq_content q = enc_seq l ++ rest ->
  exists q', get_seq q = Some (rcv <$> l, q') /\ get_vector q = Some (rcv <$> l, q') /\
    bq_content q' = rest /\ bq_wf q'.
Proof.
  intros Hq [Hn Hl] Hc. unfold enc_seq in Hc. rewrite <- app_assoc in Hc.
  unfold get_seq, get_vector.
  destruct (get_spec (Codec:=v64_codec) _ q _ Hq (len_v64_valid _ Hn) Hc) as (q1 & E & H1 & H2).
  simpl in E. rewrite E. simpl. unfold len_valid in Hn.
  replace (Z.of_nat (length l) <? 2 ^ 31) with true by lia.
  replace (0 <=? Z.of_nat (length l)) with true by lia. simpl. rewrite Nat2Z.id.
  destruct (get_n_spec l q1 rest H2 Hl H1) as (q' & ? & ? & ?). eauto.
Qed.

Program Definition list_codec : Codec (list A) := {|
  valid := valid_seq; enc := enc_seq; rcv := fmap rcv; put := put_seq; get := get_seq |}.
Next Obligation. intros. by apply put_seq_spec. Qed.
Next Obligation. intros l q rest ? ? Hc. edestruct get_seq_spec as (? & ? & ? & ? & ?); eauto. Qed.

Program Definition vector_codec : Codec (list A) := {|
  valid := valid_seq; enc := enc_seq; rcv := fmap rcv; put := put_seq; get := get_vector |}.
Next Obligation. intros. by apply put_seq_spec. Qed.
Next Obligation. intros l q rest ? ? Hc. edestruct get_seq_spec as (? & ? & ? & ? & ?); eauto. Qed.

Definition get_set `{OrdKey A} (q : Q) : option (oset A * Q) :=
  '(l, q) ← get_seq q; Some (sinsert_range l [], q).

Program Definition set_codec `{OrdKey A} (Hexact : forall a, rcv a = a) : Codec (oset A) := {|
  valid l := valid_seq l /\ sorted_set l; enc := enc_seq; rcv l := l; put := put_seq; get := get_set |}.
Next Obligation. intros ??? l q Hq [Hv _]. by apply put_seq_spec. Qed.
Next Obligation.
  intros ?? Hexact l q rest Hq [Hv Hs] Hc. unfold get_set.
  edestruct get_seq_spec as (q' & -> & _ & H1 & H2); eauto. simpl.
  rewrite (list_fmap_ext rcv id l) by (intros; apply Hexact). rewrite list_fmap_id.
  rewrite sinsert_range_sorted by done. eauto.
Qed.
End seq.

Section map.
Context {K V : Type} (cK : Codec K) (cV : Codec V) `{OrdKey K}.

(** [insert_into_map] is [map.insert]: the first value of a key stays. *)
Definition get_map (q : Q) : option (omap K V * Q) :=
  '(l, q) ← get_seq (pair_codec cK cV) q; Some (insert_range l [], q).

Program Definition map_codec (Hexact : forall k : K, rcv k = k) : Codec (omap K V) := {|
  valid m := valid_seq (pair_codec cK cV) m /\ sorted_keys m;
  enc := enc_seq (pair_codec cK cV); rcv := fmap (fun p => (p.1, rcv p.2)); put := put_seq (pair_codec cK cV); get := get_map |}.
Next Obligation. intros _ l q Hq [Hv _]. by apply put_seq_spec. Qed.
Next Obligation.
  intros Hexact l q rest Hq [Hv Hs] Hc. unfold get_map.
  destruct (get_seq_spec (pair_codec cK cV) l q rest Hq Hv Hc) as (q' & -> & _ & H1 & H2). simpl.
  rewrite (list_fmap_ext _ (fun p : K * V => (p.1, rcv p.2)) l)
    by (intros i [k v] _; simpl; by rewrite Hexact).
  rewrite insert_range_sorted; [eauto|]. unfold sorted_keys in *.
  by rewrite <- list_fmap_compose.
Qed.
End map.
End codecs.

(** C36: a [v64] written into an empty queue is read back unchanged,
    with all its bytes consumed, for every 64-bit value but those of the
    eight-byte class. *)
Theorem v64_roundtrip junk v (m : Marshal) :
  wf m -> content (chunks m) = [] -> in_s 64 v -> eight_byte_class v = false ->
  exists m1 m2, put_v64 v m = Some m1 /\ get_v64 junk m1 = Some (v, m2) /\ content (chunks m2) = [].
Proof.
  intros Hm Hc Hv He. assert (v64_valid v) as Hok.
  { split; [done|]. unfold eight_byte_class in He.
    destruct (between (-281474976710656) v 281474976710655); [by left | by right]. }
  destruct (@put_v64_spec Marshal Marshal_ByteQueue v m Hm) as (m1 & E1 & W1 & C1).
  cbn [bq_content Marshal_ByteQueue] in C1. rewrite Hc in C1.
  destruct (get_spec (Codec:=v64_codec junk) v m1 [] W1 Hok) as (m2 & E2 & C2 & W2);
    [by rewrite app_nil_r | eauto].
Qed.

(** for a value of the eight-byte class, [SparseInt::dump]
    fills nine bytes and returns eight, so that the last byte is not sent: the
    reader takes whatever byte its buffer holds there for the lowest byte. *)
Theorem v64_low_byte_lost v j junk (m : Marshal) :
  wf m -> content (chunks m) = [] -> eight_byte_class v = true -> 0 <= j < 256 ->
  exists m1 m2, put_v64 v m = Some m1 /\ get_v64 (j :: junk) m1 = Some (256 * (v / 256) + j, m2).
Proof.
  intros Hm Hc He Hj.
  destruct (@put_v64_spec Marshal Marshal_ByteQueue v m Hm) as (m1 & E1 & W1 & C1).
  cbn [bq_content Marshal_ByteQueue] in C1. rewrite Hc in C1.
  destruct (@get_v64_reads Marshal Marshal_ByteQueue (j :: junk) v m1 [] (256 * (v / 256) + j) W1)
    as (m2 & E2 & _); [by rewrite app_nil_r | by apply load_dump_i64_eight | eauto].
Qed.

(** ** Instances *)

Lemma empty_marshal_wf : wf empty_marshal.
Proof. repeat split. Qed.

Lemma v64_roundtrip_witness :
  exists m1 m2, put_v64 (-70000) empty_marshal = Some m1 /\ get_v64 [] m1 = Some (-70000, m2) /\
    content (chunks m2) = [].
Proof.
  apply (v64_roundtrip [] (-70000) empty_marshal).
  - apply empty_marshal_wf.
  - reflexivity.
  - done.
  - reflexivity.
Defined.

(** [2^50 + 5] arrives as [2^50] if the buffer is zero. *)
Lemma v64_low_byte_lost_witness :
  exists m1 m2, put_v64 1125899906842629 empty_marshal = Some m1 /\
    get_v64 [0] m1 = Some (256 * (1125899906842629 / 256) + 0, m2).
Proof.
  apply (v64_low_byte_lost 1125899906842629 0 [] empty_marshal).
  - apply empty_marshal_wf.
  - reflexivity.
  - reflexivity.
  - lia.
Defined.
