(* ===== verification/ChrTs.v ===== *)
(** * Timestamps of DAST (src/deptran/chronos/types.h)

    [chr_ts_t] is a physical time, a stretch counter and the site that made it,
    ordered lexicographically.  The four comparison operators of the class, the
    [std::less] order of the maps and sets keyed by timestamps, and the wire
    format of [ToMarshal] and [FromMarshal]. *)
From stdpp Require Import base tactics numbers list sorting.
From S2P Require Import Prelude OMap SparseInt MarshalBuf Marshal.

Record chr_ts_t := mk_ts { timestamp_ : Z; stretch_counter_ : Z; ts_site_id_ : Z }.

#[export] Instance Eta_chr_ts : Eta chr_ts_t :=
  fun r => mk_ts (timestamp_ r) (stretch_counter_ r) (ts_site_id_ r).

#[export] Instance chr_ts_eq_dec : EqDecision chr_ts_t.
Proof. solve_decision. Defined.

(** [chr_ts_t()] *)
Definition ts_zero : chr_ts_t := mk_ts 0 0 0.

(** [operator<], [operator==], [operator<=], [operator>] *)
Definition ts_lt (a b : chr_ts_t) : bool :=
  if timestamp_ a <? timestamp_ b then true
  else if timestamp_ a >? timestamp_ b then false
  else if stretch_counter_ a <? stretch_counter_ b then true
  else if stretch_counter_ a >? stretch_counter_ b then false
  else ts_site_id_ a <? ts_site_id_ b.

Definition ts_eq (a b : chr_ts_t) : bool :=
  (timestamp_ a =? timestamp_ b) && (stretch_counter_ a =? stretch_counter_ b)
  && (ts_site_id_ a =? ts_site_id_ b).

Definition ts_le (a b : chr_ts_t) : bool := ts_lt a b || ts_eq a b.
Definition ts_gt (a b : chr_ts_t) : bool := negb (ts_lt a b) && negb (ts_eq a b).

(** the fields hold [int64_t], [int64_t] and [int16_t] *)
Definition ts_ok (a : chr_ts_t) : Prop :=
  in_s 64 (timestamp_ a) /\ in_s 64 (stretch_counter_ a) /\ in_s 16 (ts_site_id_ a).

(** The lexicographic order, as a relation. *)
Definition ts_lex (a b : chr_ts_t) : Prop :=
  timestamp_ a < timestamp_ b \/
  (timestamp_ a = timestamp_ b /\
   (stretch_counter_ a < stretch_counter_ b \/
    (stretch_counter_ a = stretch_counter_ b /\ ts_site_id_ a < ts_site_id_ b))).

Lemma ts_lt_lex a b : ts_lt a b = true <-> ts_lex a b.
Proof.
  unfold ts_lt, ts_lex.
  destruct (Z.ltb_spec (timestamp_ a) (timestamp_ b)), (Z.gtb_spec (timestamp_ a) (timestamp_ b));
    destruct (Z.ltb_spec (stretch_counter_ a) (stretch_counter_ b)),
      (Z.gtb_spec (stretch_counter_ a) (stretch_counter_ b)); lia.
Qed.

Lemma ts_eq_eq a b : ts_eq a b = true <-> a = b.
Proof.
  destruct a, b. unfold ts_eq. simpl. split; [|intros [=]; subst; lia].
  intros. f_equal; lia.
Qed.

Lemma ts_lt_false a b : ts_lt a b = false <-> ~ ts_lex a b.
Proof. rewrite <- ts_lt_lex. destruct (ts_lt a b); naive_solver. Qed.

Lemma ts_lex_ext a b : ~ ts_lex a b -> ~ ts_lex b a -> a = b.
Proof. destruct a, b. unfold ts_lex. simpl. intros. f_equal; lia. Qed.

Lemma ts_lex_irrefl a : ~ ts_lex a a.
Proof. unfold ts_lex. lia. Qed.
Lemma ts_lex_trans a b c : ts_lex a b -> ts_lex b c -> ts_lex a c.
Proof. unfold ts_lex. lia. Qed.

Lemma ts_gt_lex a b : ts_gt a b = true <-> ts_lex b a.
Proof.
  unfold ts_gt. rewrite andb_true_iff, !negb_true_iff, ts_lt_false.
  rewrite <- not_true_iff_false, ts_eq_eq. split.
  - intros [H1 H2]. destruct (ts_lt b a) eqn:E; [by apply ts_lt_lex|].
    apply ts_lt_false in E. exfalso. apply H2. by apply ts_lex_ext.
  - intros H. split; [unfold ts_lex in *; lia|]. intros ->. by apply (ts_lex_irrefl b).
Qed.

Lemma ts_gt_false a b : ts_gt a b = false <-> ~ ts_lex b a.
Proof. rewrite <- ts_gt_lex. destruct (ts_gt a b); naive_solver. Qed.

Lemma ts_le_spec a b : ts_le a b = true <-> ~ ts_lex b a.
Proof.
  unfold ts_le. rewrite orb_true_iff, ts_lt_lex, ts_eq_eq. split.
  - intros [H| ->]; [unfold ts_lex in *; lia | apply ts_lex_irrefl].
  - intros H. destruct (ts_lt a b) eqn:E; [left; by apply ts_lt_lex|].
    apply ts_lt_false in E. right. by apply ts_lex_ext.
Qed.

#[export] Program Instance chr_ts_OrdKey : OrdKey chr_ts_t := { key_ltb := ts_lt }.
Next Obligation. intros. rewrite ts_lt_false. apply ts_lex_irrefl. Qed.
Next Obligation. intros a b c. rewrite !ts_lt_lex. apply ts_lex_trans. Qed.
Next Obligation.
  intros a b Hne. rewrite ts_lt_false, ts_lt_lex. intros H.
  destruct (ts_lt b a) eqn:E; [by apply ts_lt_lex|]. apply ts_lt_false in E.
  exfalso. by apply Hne, ts_lex_ext.
Qed.

Lemma key_lt_ts a b : key_lt a b <-> ts_lex a b.
Proof. apply ts_lt_lex. Qed.

(** ** Wire format *)

Section codec.
Context {Q : Type} `{ByteQueue Q}.

Definition ts_ToMarshal (a : chr_ts_t) (m : Q) : option Q :=
  m ← put_int 8 (timestamp_ a) m;
  m ← put_int 8 (stretch_counter_ a) m;
  put_int 2 (ts_site_id_ a) m.

Definition ts_FromMarshal (m : Q) : option (chr_ts_t * Q) :=
  '(t, m) ← get_signed 8 m;
  '(c, m) ← get_signed 8 m;
  '(s, m) ← get_signed 2 m;
  Some (mk_ts t c s, m).

Program Definition chr_ts_codec : Codec chr_ts_t := {|
  valid := ts_ok;
  enc a := enc (Codec:=i64_codec) (timestamp_ a) ++
    enc (Codec:=i64_codec) (stretch_counter_ a) ++ enc (Codec:=i16_codec) (ts_site_id_ a);
  rcv a := a; put := ts_ToMarshal; get := ts_FromMarshal |}.
Next Obligation.
  intros a q Hq (V1 & V2 & V3). unfold ts_ToMarshal.
  destruct (put_spec (Codec:=i64_codec) (timestamp_ a) q Hq V1) as (q1 & E1 & W1 & C1).
  destruct (put_spec (Codec:=i64_codec) (stretch_counter_ a) _ W1 V2) as (q2 & E2 & W2 & C2).
  destruct (put_spec (Codec:=i16_codec) (ts_site_id_ a) _ W2 V3) as (q3 & E3 & W3 & C3).
  exists q3. split_and!; [|done|by rewrite C3, C2, C1, <- !app_assoc].
  change (put (Codec:=i64_codec)) with (put_int 8) in E1, E2.
  unfold mbind, option_bind. rewrite E1, E2. exact E3.
Qed.
Next Obligation.
  intros a q rest Hq (V1 & V2 & V3) Hc. cbv beta in *. rewrite <- !app_assoc in Hc.
  unfold ts_FromMarshal.
  destruct (get_spec (Codec:=i64_codec) _ q _ Hq V1 Hc) as (q1 & E1 & C1 & W1).
  change (get_signed 8 q = Some (timestamp_ a, q1)) in E1. rewrite E1. simpl.
  destruct (get_spec (Codec:=i64_codec) _ q1 _ W1 V2 C1) as (q2 & E2 & C2 & W2).
  change (get_signed 8 q1 = Some (stretch_counter_ a, q2)) in E2. rewrite E2. simpl.
  destruct (get_spec (Codec:=i16_codec) _ q2 _ W2 V3 C2) as (q3 & E3 & C3 & W3).
  change (get_signed 2 q2 = Some (ts_site_id_ a, q3)) in E3. rewrite E3. simpl.
  exists q3. by destruct a.
Qed.
End codec.

(** Decides goals about the order by unfolding it to integer comparisons. *)
Ltac ts_solve :=
  unfold ts_lex in *; simpl in *; lia.

(** [operator<] is a strict total order on timestamps, the
    lexicographic one, and [==], [<=] and [>] are the relations that go with it: the
    keys of [std::map<chr_ts_t, _>] are well ordered. *)
Theorem chr_ts_total_order (a b c : chr_ts_t) :
  (ts_lt a b = true <-> ts_lex a b) /\
  ts_lt a a = false /\
  (ts_lt a b = true /\ ts_lt b c = true -> ts_lt a c = true) /\
  (ts_lt a b = true \/ a = b \/ ts_lt b a = true) /\
  (ts_eq a b = true <-> a = b) /\ ts_le a b = negb (ts_lt b a) /\ ts_gt a b = ts_lt b a.
Proof.
  split_and!.
  - apply ts_lt_lex.
  - apply ts_lt_false, ts_lex_irrefl.
  - rewrite !ts_lt_lex. intros [? ?]. by eapply ts_lex_trans.
  - destruct (ts_lt a b) eqn:E1; [by left|]. destruct (ts_lt b a) eqn:E2; [by right; right|].
    right. left. apply ts_lex_ext; by apply ts_lt_false.
  - apply ts_eq_eq.
  - apply eq_true_iff_eq. by rewrite ts_le_spec, negb_true_iff, ts_lt_false.
  - apply eq_true_iff_eq. by rewrite ts_gt_lex, ts_lt_lex.
Qed.

(** a timestamp read from a queue is the one that was written,
    in eighteen bytes. *)
Theorem chr_ts_roundtrip (a : chr_ts_t) (m : Marshal) :
  MarshalBuf.wf m -> content (chunks m) = [] -> ts_ok a ->
  exists m1 m2, ts_ToMarshal a m = Some m1 /\ length (content (chunks m1)) = 18%nat /\
    ts_FromMarshal m1 = Some (a, m2) /\ content (chunks m2) = [].
Proof.
  intros Hm Hc Ha. destruct (@put_spec Marshal Marshal_ByteQueue _ chr_ts_codec a m Hm Ha) as (m1 & E1 & W1 & C1).
  cbn [bq_content Marshal_ByteQueue] in C1. rewrite Hc in C1.
  destruct (@get_spec Marshal Marshal_ByteQueue _ chr_ts_codec a m1 [] W1 Ha) as (m2 & E2 & C2 & W2);
    [by rewrite app_nil_r|].
  exists m1, m2. split_and!; [exact E1 | by rewrite C1 | exact E2 | exact C2].
Qed.

(** ** Instances *)

Lemma chr_ts_roundtrip_witness :
  exists m1 m2, ts_ToMarshal (mk_ts (-1) 77 (-2)) empty_marshal = Some m1 /\
    length (content (chunks m1)) = 18%nat /\
    ts_FromMarshal m1 = Some (mk_ts (-1) 77 (-2), m2) /\ content (chunks m2) = [].
Proof.
  apply (chr_ts_roundtrip (mk_ts (-1) 77 (-2)) empty_marshal).
  - apply empty_marshal_wf.
  - reflexivity.
  - split_and!; done.
Defined.
