(* ===== verification/Command.v ===== *)
(** * Commands: the pieces of a transaction
    (src/deptran/txn_chopper.h, src/deptran/command.h, src/memdb/value.h)

    [Value] is a column value, [TxnWorkspace] the input of a piece with the flags
    that say which of its variables have arrived, [SimpleCommand] a piece.  The
    values of a workspace sit behind a [shared_ptr]; a piece that reaches a server
    has been unmarshalled into a workspace of its own, so here they are a field. *)
From stdpp Require Import base tactics numbers list.
From S2P Require Import Prelude OMap.

(** [mdb::Value]: a double is its 64-bit pattern, a string its bytes. *)
Inductive Value :=
  | V_UNKNOWN
  | V_I32 (i32_ : Z)
  | V_I64 (i64_ : Z)
  | V_DOUBLE (double_ : Z)
  | V_STR (p_str_ : list Z).

#[export] Instance Value_eq_dec : EqDecision Value.
Proof. solve_decision. Defined.

Record TxnWorkspace := mk_ws {
  keys_ : oset Z;
  values_ : omap Z Value;
  input_var_ready_ : omap Z Z;
  piece_input_ready_ : Z;
}.

#[export] Instance Eta_ws : Eta TxnWorkspace :=
  fun r => mk_ws (keys_ r) (values_ r) (input_var_ready_ r) (piece_input_ready_ r).

(** [Aggregate]: keys are joined, existing values stay. *)
Definition ws_Aggregate (rhs ws : TxnWorkspace) : TxnWorkspace :=
  ws <| keys_ ::= sinsert_range (keys_ rhs) |> <| values_ ::= insert_range (values_ rhs) |>.

(** [TxnWorkspace::insert] *)
Definition ws_insert (m : omap Z Value) (ws : TxnWorkspace) : TxnWorkspace :=
  ws <| keys_ ::= sinsert_range m.*1 |> <| values_ ::= insert_range m |>.

(** [operator=(const map&)]: the readiness flags stay as they are. *)
Definition ws_assign (rhs : omap Z Value) (ws : TxnWorkspace) : TxnWorkspace :=
  ws <| keys_ := sinsert_range rhs.*1 [] |> <| values_ := rhs |>.

Record SimpleCommand := mk_cmd {
  id_ : Z;
  type_ : Z;
  inn_id_ : Z;
  root_id_ : Z;
  root_type_ : Z;
  input : TxnWorkspace;
  output : omap Z Value;
  output_size : Z;
  cmd_partition_id_ : Z;
  cmd_timestamp_ : Z;
  waiting_var_par_map : omap Z (list Z);
  local_executed_ : bool;
}.

#[export] Instance Eta_cmd : Eta SimpleCommand :=
  fun r => mk_cmd (id_ r) (type_ r) (inn_id_ r) (root_id_ r) (root_type_ r) (input r) (output r)
    (output_size r) (cmd_partition_id_ r) (cmd_timestamp_ r) (waiting_var_par_map r)
    (local_executed_ r).

(** [TxnOutput]: the output of each piece, by its [inn_id]. *)
Abbreviation TxnOutput := (omap Z (omap Z Value)).

(** [defer_t] *)
Inductive defer_t := DF_REAL | DF_NO | DF_FAKE.

(** ** The registry of transaction pieces

    [TxnRegistry] maps the types of a transaction and of a piece to a handler.
    The handlers are the workload's code: a handler reads and writes the database
    and fills the output; it is given the piece by reference and may extend its
    workspace. *)
Class Registry := {
  Db : Type;
  txn_reg_ : Z -> Z -> option (defer_t * (SimpleCommand -> Db -> TxnWorkspace * Db * omap Z Value));
}.

(** [txn_reg_->get(cmd)] *)
Definition reg_get `{Registry} (cmd : SimpleCommand) := txn_reg_ (root_type_ cmd) (type_ cmd).
