(* ===== verification/Wire.v ===== *)
(** * Pieces on the wire
    (src/deptran/marshal-value.cc, src/deptran/txn_chopper.cc,
    src/deptran/command_marshaler.cc)

    How values, workspaces and pieces are marshalled.  A piece arrives without the
    values that its workspace holds for other pieces, with a placeholder for each
    variable that is not ready, and not executed. *)
From stdpp Require Import base tactics numbers list sorting.
From S2P Require Import Prelude OMap SparseInt MarshalBuf Marshal Command.

Section wire.
Context {Q : Type} `{ByteQueue Q}.
Context (junk : list Z).

(** ** Sequencing of reads and writes *)

Lemma put_bind {A} (c : Codec A) a q (k : Q -> option Q) (P : Q -> Prop) :
  bq_wf q -> valid a ->
  (forall q1, bq_wf q1 -> bq_content q1 = bq_content q ++ enc a -> exists q', k q1 = Some q' /\ P q') ->
  exists q', (put a q ≫= k) = Some q' /\ P q'.
Proof. intros Hq Ha Hk. destruct (put_spec a q Hq Ha) as (q1 & -> & W & C). by apply Hk. Qed.

Lemma get_bind {A B} (c : Codec A) a q rest (k : A * Q -> option B) (P : B -> Prop) :
  bq_wf q -> valid a -> bq_content q = enc a ++ rest ->
  (forall q1, bq_wf q1 -> bq_content q1 = rest -> exists r, k (rcv a, q1) = Some r /\ P r) ->
  exists r, (get q ≫= k) = Some r /\ P r.
Proof. intros Hq Ha Hc Hk. destruct (get_spec a q rest Hq Ha Hc) as (q1 & -> & C & W). by apply Hk. Qed.

(** ** Values

    [ver_] is not copied by the copy constructor nor by [operator=]: a value taken
    from a container has version 0, and what is read for it is dropped when the
    value is put into the receiver's container. *)
Definition put_value (v : Value) (q : Q) : option Q :=
  q ← put (Codec:=u64_codec) 0 q;
  match v with
  | V_I32 i => q ← put (Codec:=i32_codec) 0 q; put (Codec:=i32_codec) i q
  | V_I64 i => q ← put (Codec:=i32_codec) 1 q; put (Codec:=i64_codec) i q
  | V_DOUBLE d => q ← put (Codec:=i32_codec) 2 q; put (Codec:=u64_codec) d q
  | V_STR s => q ← put (Codec:=i32_codec) 3 q; put (Codec:=string_codec junk) s q
  | V_UNKNOWN => None
  end.

Definition get_value (q : Q) : option (Value * Q) :=
  '(_, q) ← get (Codec:=u64_codec) q;
  '(k, q) ← get (Codec:=i32_codec) q;
  if k =? 0 then '(i, q) ← get (Codec:=i32_codec) q; Some (V_I32 i, q)
  else if k =? 1 then '(i, q) ← get (Codec:=i64_codec) q; Some (V_I64 i, q)
  else if k =? 2 then '(d, q) ← get (Codec:=u64_codec) q; Some (V_DOUBLE d, q)
  else if k =? 3 then '(s, q) ← get (Codec:=string_codec junk) q; Some (V_STR s, q)
  else Some (V_UNKNOWN, q).

Definition value_valid (v : Value) : Prop :=
  match v with
  | V_UNKNOWN => False
  | V_I32 i => in_s 32 i
  | V_I64 i => in_s 64 i
  | V_DOUBLE d => in_u 64 d
  | V_STR s => len_valid (length s)
  end.

Definition value_enc (v : Value) : list Z :=
  enc (Codec:=u64_codec) 0 ++
  match v with
  | V_UNKNOWN => []
  | V_I32 i => enc (Codec:=i32_codec) 0 ++ enc (Codec:=i32_codec) i
  | V_I64 i => enc (Codec:=i32_codec) 1 ++ enc (Codec:=i64_codec) i
  | V_DOUBLE d => enc (Codec:=i32_codec) 2 ++ enc (Codec:=u64_codec) d
  | V_STR s => enc (Codec:=i32_codec) 3 ++ enc (Codec:=string_codec junk) s
  end.

Lemma put_last {A} (c : Codec A) a q0 q pre :
  bq_wf q -> valid a -> bq_content q = bq_content q0 ++ pre ->
  exists q', put a q = Some q' /\ bq_wf q' /\ bq_content q' = bq_content q0 ++ pre ++ enc a.
Proof.
  intros Hq Ha Hc. destruct (put_spec a q Hq Ha) as (q' & E & W & C). exists q'.
  by rewrite C, Hc, <- app_assoc.
Qed.

Program Definition value_codec : Codec Value := {|
  valid := value_valid; enc := value_enc; rcv v := v; put := put_value; get := get_value |}.
Next Obligation.
  intros v q Hq Hv. unfold put_value, value_enc. apply put_bind; [done | by vm_compute|].
  intros q1 W1 C1. destruct v; cbn [value_valid] in Hv; [done|..].
  all: apply put_bind; [done | by vm_compute |]; intros q2 W2 C2; rewrite C1, <- app_assoc in C2.
  all: lazymatch goal with
       | |- exists q', put (Codec:=?c) ?a _ = Some q' /\ _ =>
         destruct (put_last c a q q2 _ W2 Hv C2) as (q3 & -> & W3 & C3)
       end; exists q3; rewrite C3, <- app_assoc; auto.
Qed.
Next Obligation.
  intros v q rest Hq Hv Hc. unfold get_value, value_enc in *. rewrite <- app_assoc in Hc.
  assert (exists r, get_value q = Some r /\ (r.1 = v /\ bq_content r.2 = rest /\ bq_wf r.2))
    as ([v' q'] & E & E1 & E2); [|simpl in *; subst v'; exists q'; auto].
  unfold get_value. eapply get_bind; [done | | exact Hc|]; [by vm_compute|].
  intros q1 W1 C1. destruct v; cbn [value_valid] in Hv; [done|..]; rewrite <- app_assoc in C1.
  all: eapply get_bind; [done | | exact C1|]; [by vm_compute|]; intros q2 W2 C2; cbn [rcv].
  all: eapply get_bind; [done | exact Hv | exact C2|]; intros q3 W3 C3; eexists; split; [reflexivity|]; done.
Qed.

(** ** Workspaces *)

Definition EMPTY_VALUE : Z := i32 0xFFFFEEFF.

Definition ready_map_codec : Codec (omap Z Z) := map_codec junk i32_codec i32_codec (fun _ => eq_refl).

(** What is sent for a key: its value, or the placeholder if the piece waits for
    it.  [None] is a failed [at] or [verify]. *)
Definition wire_value (ws : TxnWorkspace) (k : Z) : option Value :=
  if piece_input_ready_ ws =? 0 then
    r ← find k (input_var_ready_ ws);
    if r =? 1 then find k (values_ ws) else Some (V_I32 EMPTY_VALUE)
  else find k (values_ ws).

Fixpoint put_entries (value_of : Z -> option Value) (keys : list Z) (q : Q) : option Q :=
  match keys with
  | [] => Some q
  | k :: keys =>
    v ← value_of k;
    q ← put (Codec:=i32_codec) k q;
    q ← put (Codec:=value_codec) v q;
    put_entries value_of keys q
  end.

(** [tapir] is [cc_mode_ == MODE_TAPIR]. *)
Definition put_workspace (tapir : bool) (ws : TxnWorkspace) (q : Q) : option Q :=
  q ← put (Codec:=u64_codec) (Z.of_nat (length (keys_ ws))) q;
  if tapir then put_entries (fun k => find k (values_ ws)) (keys_ ws) q
  else
    q ← put (Codec:=i32_codec) (piece_input_ready_ ws) q;
    q ← put (Codec:=ready_map_codec) (input_var_ready_ ws) q;
    put_entries (wire_value ws) (keys_ ws) q.

Fixpoint get_entries (tapir : bool) (n : nat) (ws : TxnWorkspace) (q : Q) : option (TxnWorkspace * Q) :=
  match n with
  | O => Some (ws, q)
  | S n =>
    '(k, q) ← get (Codec:=i32_codec) q;
    '(v, q) ← get (Codec:=value_codec) q;
    let ws := ws <| keys_ ::= sinsert k |> <| values_ ::= insert k v |> in
    if tapir then get_entries tapir n ws q
    else if piece_input_ready_ ws =? 0 then
      let '(r, m) := index 0 k (input_var_ready_ ws) in
      if (r =? 0) && negb (bool_decide (v = V_I32 EMPTY_VALUE)) then None
      else get_entries tapir n (ws <| input_var_ready_ := m |>) q
    else get_entries tapir n ws q
  end.

Definition get_workspace (tapir : bool) (ws : TxnWorkspace) (q : Q) : option (TxnWorkspace * Q) :=
  '(sz, q) ← get (Codec:=u64_codec) q;
  if tapir then get_entries tapir (Z.to_nat sz) ws q
  else
    '(ready, q) ← get (Codec:=i32_codec) q;
    '(vars, q) ← get (Codec:=ready_map_codec) q;
    get_entries tapir (Z.to_nat sz) (ws <| piece_input_ready_ := ready |> <| input_var_ready_ := vars |>) q.

(** [TxnWorkspace()]: [piece_input_ready_] is not initialised. *)
Definition new_workspace (junk_ready : Z) : TxnWorkspace := mk_ws [] [] [] junk_ready.

(** A workspace that can be sent: each key has what [operator<<] asks for. *)
Record ws_valid (ws : TxnWorkspace) : Prop := {
  wv_keys : sorted_set (keys_ ws);
  wv_len : len_valid (length (keys_ ws));
  wv_i32 : Forall (in_s 32) (keys_ ws);
  wv_ready : in_s 32 (piece_input_ready_ ws);
  wv_vars : valid (Codec:=ready_map_codec) (input_var_ready_ ws);
  wv_values : Forall (fun k => exists v, wire_value ws k = Some v /\ value_valid v) (keys_ ws);
}.

Definition wire_entries (value_of : Z -> option Value) (keys : list Z) : omap Z Value :=
  (fun k => (k, default V_UNKNOWN (value_of k))) <$> keys.

Definition enc_entries (value_of : Z -> option Value) (keys : list Z) : list Z :=
  concat ((fun e => enc (Codec:=i32_codec) e.1 ++ value_enc e.2) <$> wire_entries value_of keys).

Definition ws_enc (ws : TxnWorkspace) : list Z :=
  enc (Codec:=u64_codec) (Z.of_nat (length (keys_ ws))) ++
  enc (Codec:=i32_codec) (piece_input_ready_ ws) ++
  enc (Codec:=ready_map_codec) (input_var_ready_ ws) ++ enc_entries (wire_value ws) (keys_ ws).

(** The workspace that arrives. *)
Definition ws_rcv (ws : TxnWorkspace) : TxnWorkspace :=
  mk_ws (keys_ ws) (wire_entries (wire_value ws) (keys_ ws)) (input_var_ready_ ws) (piece_input_ready_ ws).

Lemma put_entries_spec value_of keys q :
  bq_wf q -> Forall (in_s 32) keys -> Forall (fun k => exists v, value_of k = Some v /\ value_valid v) keys ->
  exists q', put_entries value_of keys q = Some q' /\ bq_wf q' /\
    bq_content q' = bq_content q ++ enc_entries value_of keys.
Proof.
  revert q. induction keys as [|k keys IH]; intros q Hq Hk Hv; cbn [put_entries].
  { exists q. split_and!; [done..|]. by rewrite app_nil_r. }
  apply Forall_cons in Hk as [Hk Hks], Hv as [(v & Ev & Hv) Hvs]. rewrite Ev. cbn [mbind option_bind].
  apply put_bind; [done..|]. intros q1 W1 C1. apply put_bind; [done..|]. intros q2 W2 C2.
  destruct (IH q2 W2 Hks Hvs) as (q3 & -> & W3 & C3). exists q3. split_and!; [done..|].
  rewrite C3, C2, C1. unfold enc_entries, wire_entries. rewrite !fmap_cons. cbn [concat fst snd].
  rewrite Ev. by rewrite <- !app_assoc.
Qed.

(** The entries arrive in key order, so each one is appended. *)
Lemma get_entries_spec ws0 keys done q rest :
  bq_wf q -> sorted_set (done ++ keys) -> Forall (in_s 32) keys ->
  Forall (fun k => exists v, wire_value ws0 k = Some v /\ value_valid v) keys ->
  bq_content q = enc_entries (wire_value ws0) keys ++ rest ->
  exists r, get_entries false (length keys)
      (mk_ws done (wire_entries (wire_value ws0) done) (input_var_ready_ ws0) (piece_input_ready_ ws0)) q =
      Some r /\
    (r.1 = mk_ws (done ++ keys) (wire_entries (wire_value ws0) (done ++ keys)) (input_var_ready_ ws0)
       (piece_input_ready_ ws0) /\ bq_content r.2 = rest /\ bq_wf r.2).
Proof.
  revert done q. induction keys as [|k keys IH]; intros done q Hq Hs Hk Hv Hc; cbn [get_entries length].
  { eexists. split; [reflexivity|]. by rewrite app_nil_r. }
  apply Forall_cons in Hk as [Hk Hks], Hv as [(v & Ev & Hv) Hvs].
  unfold enc_entries, wire_entries in Hc. rewrite !fmap_cons in Hc. cbn [concat fst snd] in Hc.
  rewrite Ev in Hc. cbn [default] in Hc. rewrite <- !app_assoc in Hc.
  eapply get_bind; [done | exact Hk | exact Hc|]. intros q1 W1 C1.
  eapply (get_bind value_codec); [done | exact Hv | exact C1|]. intros q2 W2 C2.
  change (rcv (Codec:=i32_codec) k) with k. change (rcv (Codec:=value_codec) v) with v.
  assert (Forall (fun j => key_lt j k) done) as Hlt.
  { apply Forall_forall. intros j Hj. eapply StronglySorted_app_1_elem_of; [exact Hs | done | left]. }
  unfold set_field. cbn [piece_input_ready_ input_var_ready_ keys_ values_].
  rewrite sinsert_above by done.
  rewrite insert_above by (unfold wire_entries; rewrite <- list_fmap_compose; simpl; by rewrite list_fmap_id).
  assert (wire_entries (wire_value ws0) done ++ [(k, v)] = wire_entries (wire_value ws0) (done ++ [k])) as ->.
  { unfold wire_entries. rewrite fmap_app. simpl. by rewrite Ev. }
  assert (sorted_set ((done ++ [k]) ++ keys)) as Hs' by (by rewrite <- app_assoc).
  destruct (IH (done ++ [k]) q2 W2 Hs' Hks Hvs C2) as (r & Er & Hr). rewrite <- app_assoc in Hr.
  exists r. split; [|exact Hr]. destruct (piece_input_ready_ ws0 =? 0) eqn:Ep; [|exact Er].
  unfold wire_value in Ev. rewrite Ep in Ev. unfold index.
  destruct (find k (input_var_ready_ ws0)) as [x|] eqn:Ef; [|done]. cbn [mbind option_bind] in Ev.
  destruct (Z.eqb_spec x 0) as [->|]; [|exact Er]. simpl in Ev. injection Ev as <-.
  rewrite bool_decide_true by done. exact Er.
Qed.

Program Definition ws_codec (junk_ready : Z) : Codec TxnWorkspace := {|
  valid := ws_valid; enc := ws_enc; rcv := ws_rcv;
  put := put_workspace false; get := get_workspace false (new_workspace junk_ready) |}.
Next Obligation.
  intros _ ws q Hq []. unfold put_workspace, ws_enc.
  apply put_bind; [done | unfold len_valid in *; cbn [valid u64_codec unsigned_codec]; unfold in_u; lia|].
  intros q1 W1 C1. apply put_bind; [done..|]. intros q2 W2 C2. apply put_bind; [done..|]. intros q3 W3 C3.
  destruct (put_entries_spec (wire_value ws) (keys_ ws) q3 W3) as (q4 & -> & W4 & C4); [done..|].
  exists q4. rewrite C4, C3, C2, C1. by rewrite <- !app_assoc.
Qed.
Next Obligation.
  intros jr ws q rest Hq [] Hc. unfold ws_enc in Hc. rewrite <- !app_assoc in Hc.
  assert (exists r, get_workspace false (new_workspace jr) q = Some r /\
    (r.1 = ws_rcv ws /\ bq_content r.2 = rest /\ bq_wf r.2)) as ([w q'] & E & E1 & E2);
    [|simpl in *; subst w; exists q'; auto].
  unfold get_workspace. eapply get_bind; [done | | exact Hc|].
  { unfold len_valid in *; cbn [valid u64_codec unsigned_codec]; unfold in_u; lia. }
  intros q1 W1 C1. eapply get_bind; [done | done | exact C1|]. intros q2 W2 C2.
  eapply get_bind; [done | done | exact C2|]. intros q3 W3 C3. cbn [rcv u64_codec unsigned_codec]. rewrite Nat2Z.id.
  replace (rcv (Codec:=ready_map_codec) (input_var_ready_ ws)) with (input_var_ready_ ws).
  2: { clear. cbn [rcv ready_map_codec map_codec]. induction (input_var_ready_ ws) as [|[a b] l IH]; [done|].
    rewrite fmap_cons. f_equal. exact IH. }
  apply (get_entries_spec ws (keys_ ws) [] q3 rest); done.
Qed.

(** ** Pieces *)

Definition output_codec : Codec (omap Z Value) := map_codec junk i32_codec value_codec (fun _ => eq_refl).
Definition waiting_codec : Codec (omap Z (list Z)) :=
  map_codec junk i32_codec (vector_codec junk u32_codec) (fun _ => eq_refl).

Definition put_command (junk_ready : Z) (cmd : SimpleCommand) (q : Q) : option Q :=
  if negb (Z.of_nat (length (keys_ (input cmd))) <? 10000) then None
  else
    q ← put (Codec:=u64_codec) (id_ cmd) q;
    q ← put (Codec:=u32_codec) (type_ cmd) q;
    q ← put (Codec:=u32_codec) (inn_id_ cmd) q;
    q ← put (Codec:=u64_codec) (root_id_ cmd) q;
    q ← put (Codec:=u32_codec) (root_type_ cmd) q;
    q ← put (Codec:=ws_codec junk_ready) (input cmd) q;
    q ← put (Codec:=output_codec) (output cmd) q;
    q ← put (Codec:=i32_codec) (output_size cmd) q;
    q ← put (Codec:=u32_codec) (cmd_partition_id_ cmd) q;
    q ← put (Codec:=u64_codec) (cmd_timestamp_ cmd) q;
    put (Codec:=waiting_codec) (waiting_var_par_map cmd) q.

(** into a new [SimpleCommand], whose [local_executed_] is [false] *)
Definition get_command (junk_ready : Z) (q : Q) : option (SimpleCommand * Q) :=
  '(id, q) ← get (Codec:=u64_codec) q;
  '(type, q) ← get (Codec:=u32_codec) q;
  '(inn_id, q) ← get (Codec:=u32_codec) q;
  '(root_id, q) ← get (Codec:=u64_codec) q;
  '(root_type, q) ← get (Codec:=u32_codec) q;
  '(ws, q) ← get (Codec:=ws_codec junk_ready) q;
  '(out, q) ← get (Codec:=output_codec) q;
  '(out_size, q) ← get (Codec:=i32_codec) q;
  '(par, q) ← get (Codec:=u32_codec) q;
  '(ts, q) ← get (Codec:=u64_codec) q;
  '(waiting, q) ← get (Codec:=waiting_codec) q;
  Some (mk_cmd id type inn_id root_id root_type ws out out_size par ts waiting false, q).

Record cmd_valid (cmd : SimpleCommand) : Prop := {
  cv_size : Z.of_nat (length (keys_ (input cmd))) < 10000;
  cv_id : in_u 64 (id_ cmd);
  cv_type : in_u 32 (type_ cmd);
  cv_inn_id : in_u 32 (inn_id_ cmd);
  cv_root_id : in_u 64 (root_id_ cmd);
  cv_root_type : in_u 32 (root_type_ cmd);
  cv_input : ws_valid (input cmd);
  cv_output : valid (Codec:=output_codec) (output cmd);
  cv_output_size : in_s 32 (output_size cmd);
  cv_partition : in_u 32 (cmd_partition_id_ cmd);
  cv_timestamp : in_u 64 (cmd_timestamp_ cmd);
  cv_waiting : valid (Codec:=waiting_codec) (waiting_var_par_map cmd);
}.

Definition cmd_enc (cmd : SimpleCommand) : list Z :=
  enc (Codec:=u64_codec) (id_ cmd) ++ enc (Codec:=u32_codec) (type_ cmd) ++
  enc (Codec:=u32_codec) (inn_id_ cmd) ++ enc (Codec:=u64_codec) (root_id_ cmd) ++
  enc (Codec:=u32_codec) (root_type_ cmd) ++ ws_enc (input cmd) ++
  enc (Codec:=output_codec) (output cmd) ++ enc (Codec:=i32_codec) (output_size cmd) ++
  enc (Codec:=u32_codec) (cmd_partition_id_ cmd) ++ enc (Codec:=u64_codec) (cmd_timestamp_ cmd) ++
  enc (Codec:=waiting_codec) (waiting_var_par_map cmd).

Definition cmd_rcv (cmd : SimpleCommand) : SimpleCommand :=
  cmd <| input ::= ws_rcv |> <| local_executed_ := false |>.

Lemma output_rcv (m : omap Z Value) : rcv (Codec:=output_codec) m = m.
Proof. induction m as [|[a b] l IH]; [done|]. cbn in *. rewrite IH. done. Qed.

Lemma waiting_rcv (m : omap Z (list Z)) : rcv (Codec:=waiting_codec) m = m.
Proof.
  induction m as [|[a b] l IH]; [done|]. cbn in *. rewrite IH. do 2 f_equal. apply list_fmap_id.
Qed.

Ltac step_put := apply put_bind; [done | solve [auto] |]; intros ?q ?W ?C.
Ltac step_get := eapply get_bind; [done | | eassumption |]; [solve [auto]|]; intros ?q ?W ?C.

Program Definition cmd_codec (junk_ready : Z) : Codec SimpleCommand := {|
  valid := cmd_valid; enc := cmd_enc; rcv := cmd_rcv;
  put := put_command junk_ready; get := get_command junk_ready |}.
Next Obligation.
  intros jr cmd q Hq []. unfold put_command, cmd_enc.
  rewrite (proj2 (Z.ltb_lt _ _)) by done. cbn [negb].
  do 10 step_put.
  destruct (put_spec (Codec:=waiting_codec) (waiting_var_par_map cmd) q9 ltac:(done) ltac:(done))
    as (q10 & -> & W10 & C10).
  exists q10. split_and!; [done..|].
  repeat match goal with E : bq_content ?x = _ |- context [bq_content ?x] => rewrite E; clear E end.
  by rewrite <- !app_assoc.
Qed.
Next Obligation.
  intros jr cmd q rest Hq [] Hc. unfold cmd_enc in Hc. rewrite <- !app_assoc in Hc.
  assert (exists r, get_command jr q = Some r /\
    (r.1 = cmd_rcv cmd /\ bq_content r.2 = rest /\ bq_wf r.2)) as ([w q'] & E & E1 & E2);
    [|simpl in *; subst w; exists q'; auto].
  unfold get_command. do 11 step_get.
  eexists. split; [reflexivity|]. split_and!; [|done..]. cbn [fst].
  rewrite output_rcv, waiting_rcv. done.
Qed.
End wire.

(** The argument of the submission and preparation RPCs: pieces by partition. *)
Definition payload_codec {Q} `{ByteQueue Q} (junk : list Z) (junk_ready : Z) :
    Codec (omap Z (list SimpleCommand)) :=
  map_codec junk u32_codec (vector_codec junk (cmd_codec junk junk_ready)) (fun _ => eq_refl).

(** What arrives of them *)
Definition payload_rcv (m : omap Z (list SimpleCommand)) : omap Z (list SimpleCommand) :=
  map (fun p => (p.1, map cmd_rcv p.2)) m.

(** Writing a value into an empty queue and reading it. *)
Lemma codec_roundtrip {Q} `{ByteQueue Q} {A} (c : Codec A) a (q : Q) :
  bq_wf q -> bq_content q = [] -> valid a ->
  exists q1 q2, put a q = Some q1 /\ get q1 = Some (rcv a, q2) /\ bq_content q2 = [] /\ bq_wf q2.
Proof.
  intros Hq Hc Ha. destruct (put_spec a q Hq Ha) as (q1 & E1 & W1 & C1). rewrite Hc in C1.
  destruct (get_spec a q1 [] W1 Ha) as (q2 & E2 & C2 & W2); [by rewrite app_nil_r|]. eauto 6.
Qed.

Lemma find_wire_entries value_of keys k v :
  k ∈ keys -> value_of k = Some v -> find k (wire_entries value_of keys) = Some v.
Proof.
  intros Hin Hv. induction keys as [|j keys IH]; [by apply not_elem_of_nil in Hin|]. simpl.
  case_decide as E; [subst; by rewrite Hv|]. apply elem_of_cons in Hin as [->|Hin]; [done | auto].
Qed.

(** a workspace that is marshalled and read again has the same
    keys and the same readiness flags.  If its piece is ready, each key has its
    value; if not, the keys marked as ready have their value and the others the
    placeholder. *)
Theorem workspace_arrives junk junk_ready ws (q : Marshal) :
  MarshalBuf.wf q -> content (chunks q) = [] -> ws_valid junk ws ->
  exists q1 q2 ws', put_workspace junk false ws q = Some q1 /\
    get_workspace junk false (new_workspace junk_ready) q1 = Some (ws', q2) /\ content (chunks q2) = [] /\
    keys_ ws' = keys_ ws /\ input_var_ready_ ws' = input_var_ready_ ws /\
    piece_input_ready_ ws' = piece_input_ready_ ws /\
    forall k, k ∈ keys_ ws -> find k (values_ ws') =
      if (piece_input_ready_ ws =? 0) && negb (bool_decide (find k (input_var_ready_ ws) = Some 1))
      then Some (V_I32 EMPTY_VALUE) else find k (values_ ws).
Proof.
  intros Hq Hc Hv. destruct (@codec_roundtrip Marshal Marshal_ByteQueue _ (ws_codec junk junk_ready) ws q Hq Hc Hv)
    as (q1 & q2 & E1 & E2 & C2 & _). exists q1, q2, (ws_rcv ws). split_and!; try done.
  intros k Hk. pose proof (wv_values _ _ Hv) as Hvs. rewrite Forall_forall in Hvs.
  destruct (Hvs k Hk) as (v & Ev & _). cbn [values_ ws_rcv]. rewrite (find_wire_entries _ _ _ _ Hk Ev).
  unfold wire_value in Ev. destruct (piece_input_ready_ ws =? 0); [|done].
  destruct (find k (input_var_ready_ ws)) as [r|] eqn:Er; [|discriminate Ev]. cbn [mbind option_bind] in Ev.
  cbn [andb]. destruct (Z.eqb_spec r 1) as [->|Hr].
  - by rewrite bool_decide_true.
  - by rewrite bool_decide_false by congruence.
Qed.

(** The pieces of a request, by partition, arrive complete and in
    order, each with the identity, the outputs and the dependencies it was sent
    with, its workspace as [workspace_arrives] says, and not marked as executed;
    the queue is empty afterwards. *)
Theorem pieces_arrive junk junk_ready (cmds_by_par : omap Z (list SimpleCommand)) (q : Marshal) :
  MarshalBuf.wf q -> content (chunks q) = [] ->
  valid (Codec:=payload_codec junk junk_ready) cmds_by_par ->
  exists q1 q2 received,
    put (Codec:=payload_codec junk junk_ready) cmds_by_par q = Some q1 /\
    get (Codec:=payload_codec junk junk_ready) q1 = Some (received, q2) /\
    content (chunks q2) = [] /\ MarshalBuf.wf q2 /\
    received = payload_rcv cmds_by_par /\
    Forall (fun p => Forall (fun c => local_executed_ c = false) p.2) received.
Proof.
  intros Hq Hc Hv. destruct (@codec_roundtrip Marshal Marshal_ByteQueue _ (payload_codec junk junk_ready) cmds_by_par q Hq Hc Hv)
    as (q1 & q2 & E1 & E2 & C2 & W2). exists q1, q2, (payload_rcv cmds_by_par). split_and!; try done.
  apply Forall_fmap, Forall_forall. intros p _. simpl. apply Forall_fmap, Forall_forall. done.
Qed.

(** ** Instances *)

(** A workspace of which variable 3 has arrived and variable 5 has not. *)
Definition demo_ws : TxnWorkspace := mk_ws [3; 5] [(3, V_STR [104; 105])] [(3, 1); (5, 0)] 0.
Definition demo_cmd : SimpleCommand :=
  mk_cmd 11 204 204 7 1 demo_ws [] 2 1 0 [(5, [0; 1])] true.
Definition demo_payload : omap Z (list SimpleCommand) := [(1, [demo_cmd; demo_cmd])].

Lemma demo_ws_valid junk : ws_valid junk demo_ws.
Proof.
  split.
  - repeat constructor.
  - done.
  - repeat constructor; done.
  - done.
  - split; [split; [done|]|]; repeat constructor; done.
  - repeat constructor; eexists; (split; [reflexivity | done]).
Qed.

Lemma workspace_arrives_witness :
  exists q1 q2 ws', put_workspace [] false demo_ws empty_marshal = Some q1 /\
    get_workspace [] false (new_workspace 9) q1 = Some (ws', q2) /\ content (chunks q2) = [] /\
    keys_ ws' = keys_ demo_ws /\ input_var_ready_ ws' = input_var_ready_ demo_ws /\
    piece_input_ready_ ws' = piece_input_ready_ demo_ws /\
    forall k, k ∈ keys_ demo_ws -> find k (values_ ws') =
      if (piece_input_ready_ demo_ws =? 0) && negb (bool_decide (find k (input_var_ready_ demo_ws) = Some 1))
      then Some (V_I32 EMPTY_VALUE) else find k (values_ demo_ws).
Proof.
  apply (workspace_arrives [] 9 demo_ws empty_marshal).
  - split; done.
  - done.
  - apply demo_ws_valid.
Defined.

Lemma pieces_arrive_witness :
  exists q1 q2 received,
    put (Codec:=payload_codec [] 9) demo_payload empty_marshal = Some q1 /\
    get (Codec:=payload_codec [] 9) q1 = Some (received, q2) /\
    content (chunks q2) = [] /\ MarshalBuf.wf q2 /\
    received = payload_rcv demo_payload /\
    Forall (fun p => Forall (fun c => local_executed_ c = false) p.2) received.
Proof.
  apply (pieces_arrive [] 9 demo_payload empty_marshal).
  - split; done.
  - done.
  - assert (cmd_valid [] demo_cmd) as Hc.
    { split; try done; [apply demo_ws_valid | |]; (split; [split; [done|]|]); repeat constructor; done. }
    split; [split; [done|]|].
    + apply Forall_singleton. split; [done|]. split; [done|].
      constructor; [exact Hc|]. constructor; [exact Hc | constructor].
    + constructor; constructor.
Defined.
