(* ===== verification/Chopper.v ===== *)
(** * The client's view of a transaction
    (src/deptran/txn_chopper.h, src/deptran/txn_chopper.cc)

    [TxnCommand] chops a transaction into pieces: it knows the input of each piece
    and its partition, which pieces may be sent, and what has come back.  What a
    workload does in [start_callback] is the parameter of [Merge]. *)
From stdpp Require Import base tactics numbers list sorting.
From S2P Require Import Prelude OMap Command.

(** [CommandStatus] *)
Definition WAITING : Z := -1.
Definition DISPATCHABLE : Z := 0.
Definition DISPATCHED : Z := 1.
Definition OUTPUT_READY : Z := 2.
Definition INIT : Z := 3.

Record TxnCommand := mk_txn {
  txn_id_ : Z;
  txn_root_id_ : Z;
  txn_type_ : Z;
  txn_timestamp_ : Z;
  inputs_ : omap Z TxnWorkspace;
  outputs_ : TxnOutput;
  output_size_ : omap Z Z;
  sharding_ : omap Z Z;
  status_ : omap Z Z;
  cmds_ : omap Z SimpleCommand;
  partition_ids_ : oset Z;
  n_pieces_all_ : Z;
  n_pieces_dispatchable_ : Z;
  n_pieces_dispatch_acked_ : Z;
  n_pieces_dispatched_ : Z;
}.

#[export] Instance Eta_txncmd : Eta TxnCommand :=
  fun r => mk_txn (txn_id_ r) (txn_root_id_ r) (txn_type_ r) (txn_timestamp_ r) (inputs_ r) (outputs_ r)
    (output_size_ r) (sharding_ r) (status_ r) (cmds_ r) (partition_ids_ r) (n_pieces_all_ r)
    (n_pieces_dispatchable_ r) (n_pieces_dispatch_acked_ r) (n_pieces_dispatched_ r).

(** [TxnWorkspace()], in a map that creates missing entries *)
Definition empty_ws (junk_ready : Z) : TxnWorkspace := mk_ws [] [] [] junk_ready.

(** ** Handing out pieces *)

(** One key of a waiting piece: whether its value is known, and if not, that the
    partition of the piece waits for it. *)
Definition mark_var (par : Z) (acc : TxnWorkspace * omap Z (list Z)) (k : Z) :
    TxnWorkspace * omap Z (list Z) :=
  let '(ws, waiting) := acc in
  if count k (values_ ws) then (ws <| input_var_ready_ ::= insert k 1 |>, waiting)
  else (ws <| input_var_ready_ ::= insert k 0 |>, insert k ((index [] k waiting).1 ++ [par]) waiting).

(** The input a piece is sent with. *)
Definition chop_input (status par : Z) (ws : TxnWorkspace) (waiting : omap Z (list Z)) :
    option (TxnWorkspace * omap Z (list Z)) :=
  if status =? DISPATCHABLE then Some (ws <| piece_input_ready_ := 1 |>, waiting)
  else if status =? WAITING then
    Some (foldl (mark_var par) (ws <| piece_input_ready_ := 0 |>, waiting) (keys_ ws))
  else None.

(** The fields of a new [SimpleCommand] for piece [pi]. *)
Definition new_command (t : TxnCommand) (pi par osz : Z) (ws : TxnWorkspace) : SimpleCommand :=
  mk_cmd 0 pi pi (txn_id_ t) (txn_type_ t) ws [] osz par (txn_timestamp_ t) [] false.

(** [cmds[par].push_back(c)] *)
Definition push_piece (par : Z) (c : SimpleCommand) (cmds : omap Z (list SimpleCommand)) :
    omap Z (list SimpleCommand) :=
  insert par ((index [] par cmds).1 ++ [c]) cmds.

(** The bookkeeping for a piece that is handed out. *)
Definition record_piece (pi par : Z) (c : SimpleCommand) (t : TxnCommand) : TxnCommand :=
  t <| inputs_ ::= fun m => (index (empty_ws 0) pi m).2 |> <| output_size_ ::= fun m => (index 0 pi m).2 |>
    <| cmds_ ::= insert pi c |> <| partition_ids_ ::= sinsert par |>
    <| status_ ::= insert pi DISPATCHED |> <| n_pieces_dispatched_ ::= Z.succ |>.

(** The loop of [GetAllCmds]: the pieces by partition, the waiting partitions by
    variable, and the number of pieces not needed. *)
Fixpoint get_all (entries : omap Z Z) (cmds : omap Z (list SimpleCommand)) (waiting : omap Z (list Z))
    (n_not_used : Z) : M TxnCommand (omap Z (list SimpleCommand) * omap Z (list Z) * Z) :=
  match entries with
  | [] => mret (cmds, waiting, n_not_used)
  | (pi, status) :: entries =>
    if status =? OUTPUT_READY then get_all entries cmds waiting (n_not_used + 1)
    else
      t ← get;
      par ← from_option (find pi (sharding_ t));
      let ws := (index (empty_ws 0) pi (inputs_ t)).1 in
      '(ws, waiting) ← from_option (chop_input status par ws waiting);
      verify (0 <? txn_type_ t);;
      let c := new_command t pi par (index 0 pi (output_size_ t)).1 ws in
      modify (record_piece pi par c);;
      get_all entries (push_piece par c cmds) waiting n_not_used
  end.

(** [c->waiting_var_par_map = waiting_var_par_map], for every piece handed out *)
Definition set_waiting (waiting : omap Z (list Z)) (c : SimpleCommand) : SimpleCommand :=
  c <| waiting_var_par_map := waiting |>.

Definition GetAllCmds : M TxnCommand (omap Z (list SimpleCommand)) :=
  t ← get;
  verify (n_pieces_dispatched_ t <? n_pieces_dispatchable_ t);;
  verify (n_pieces_dispatched_ t <? n_pieces_all_ t);;
  '(cmds, waiting, n_not_used) ← get_all (status_ t) [] [] 0;
  t' ← get;
  verify (Z.of_nat (length (cmds_ t')) + n_not_used =? Z.of_nat (length (status_ t')));;
  modify (fun t' => t' <| cmds_ ::= map (fun p =>
    (p.1, match find p.1 (status_ t) with
          | Some st => if st =? OUTPUT_READY then p.2 else set_waiting waiting p.2
          | None => p.2
          end)) |>);;
  verify (0 <? length cmds)%nat;;
  mret (map (fun p => (p.1, map (set_waiting waiting) p.2)) cmds).

(** The loop of [GetReadyCmds]; [max] is decremented before it is compared, so that
    0 means no bound. *)
Fixpoint get_ready (entries : omap Z Z) (max : Z) (cmds : omap Z (list SimpleCommand)) :
    M TxnCommand (omap Z (list SimpleCommand)) :=
  match entries with
  | [] => mret cmds
  | (pi, status) :: entries =>
    if status =? DISPATCHABLE then
      t ← get;
      par ← from_option (find pi (sharding_ t));
      verify (0 <? txn_type_ t);;
      let c := new_command t pi par (index 0 pi (output_size_ t)).1 (index (empty_ws 0) pi (inputs_ t)).1 in
      modify (record_piece pi par c);;
      let cmds := push_piece par c cmds in
      if max - 1 =? 0 then mret cmds else get_ready entries (max - 1) cmds
    else get_ready entries max cmds
  end.

Definition GetReadyCmds (max : Z) : M TxnCommand (omap Z (list SimpleCommand)) :=
  t ← get;
  verify (n_pieces_dispatched_ t <? n_pieces_dispatchable_ t);;
  verify (n_pieces_dispatched_ t <? n_pieces_all_ t);;
  cmds ← get_ready (status_ t) max [];
  verify (0 <? length cmds)%nat;;
  mret cmds.

(** ** Taking in outputs *)

Definition OutputReady (t : TxnCommand) : bool := n_pieces_all_ t =? n_pieces_dispatch_acked_ t.

Definition counters_ok (t : TxnCommand) : bool :=
  negb (n_pieces_all_ t <? n_pieces_dispatchable_ t)
  && negb (n_pieces_dispatchable_ t <? n_pieces_dispatched_ t)
  && negb (n_pieces_dispatched_ t <? n_pieces_dispatch_acked_ t).

Definition Merge (start_callback : Z -> omap Z Value -> TxnCommand -> TxnCommand) (inn_id : Z)
    (out : omap Z Value) : M TxnCommand () :=
  t ← get;
  verify (negb (count inn_id (outputs_ t)));;
  modify (fun t => t <| n_pieces_dispatch_acked_ ::= Z.succ |>);;
  t ← get;
  verify (counters_ok t);;
  modify (fun t => t <| outputs_ ::= insert inn_id out |>);;
  c ← from_option (find inn_id (cmds_ t));
  modify (fun t => t <| cmds_ ::= insert inn_id (c <| output := out |>) |>);;
  modify (start_callback inn_id out).

Definition HasMoreSubCmdReadyNotOut : M TxnCommand bool :=
  t ← get;
  verify (counters_ok t);;
  if n_pieces_dispatchable_ t =? n_pieces_dispatched_ t then
    verify ((n_pieces_all_ t =? n_pieces_dispatched_ t) || (n_pieces_dispatch_acked_ t <? n_pieces_dispatched_ t));;
    mret false
  else mret true.

Definition Reset (t : TxnCommand) : TxnCommand :=
  t <| n_pieces_dispatchable_ := 0 |> <| n_pieces_dispatch_acked_ := 0 |> <| n_pieces_dispatched_ := 0 |>
    <| outputs_ := [] |>.

(** ** The pieces handed out *)

(** The pieces of all partitions. *)
Definition pieces_of (cmds : omap Z (list SimpleCommand)) : list SimpleCommand := List.flat_map snd cmds.

(** Every piece is listed under its partition, and no partition is empty. *)
Definition by_partition (cmds : omap Z (list SimpleCommand)) : Prop :=
  sorted_keys cmds /\
  Forall (fun p => p.2 ≠ [] /\ Forall (fun c => cmd_partition_id_ c = p.1) p.2) cmds.

Lemma push_piece_Permutation par c cmds :
  sorted_keys cmds -> pieces_of (push_piece par c cmds) ≡ₚ c :: pieces_of cmds.
Proof.
  unfold push_piece, pieces_of, sorted_keys. rewrite index_fst. induction cmds as [|[p cs] cmds IH]; intros Hs; [done|].
  rewrite fmap_cons in Hs. apply StronglySorted_inv in Hs as [Hs Hall]. specialize (IH Hs).
  cbn [find insert].
  destruct (decide (par = p)) as [->|Hne].
  - cbn [List.flat_map snd fst]. rewrite <- app_assoc. simpl. by rewrite Permutation_middle.
  - destruct (key_ltb par p) eqn:El.
    + assert (find par cmds = None) as ->; [|done].
      apply find_None_notin. intros Hin. rewrite Forall_forall in Hall. specialize (Hall _ Hin).
      unfold key_lt in Hall. simpl in *. lia.
    + cbn [List.flat_map snd]. rewrite IH. by rewrite Permutation_middle.
Qed.

Lemma push_piece_by_partition par c cmds :
  by_partition cmds -> cmd_partition_id_ c = par -> by_partition (push_piece par c cmds).
Proof.
  intros [Hs Hall] Hc. split; [by apply sorted_insert|]. apply Forall_forall. intros [p cs] Hin.
  apply insert_elem_of in Hin as [[= -> ->]|Hin]; [|by rewrite Forall_forall in Hall; apply (Hall (p, cs))].
  simpl. split; [by destruct (index _ _ _).1|]. apply Forall_app. split; [|by constructor].
  unfold index. destruct (find par cmds) as [old|] eqn:E; [|constructor]. simpl.
  apply find_elem_of in E. rewrite Forall_forall in Hall. by apply (Hall (par, old)).
Qed.

Definition waits_for (waiting : omap Z (list Z)) (k par : Z) : Prop := par ∈ default [] (find k waiting).

(** The readiness flags of a waiting piece, and who waits for its variables. *)
Definition deps_ok (waiting : omap Z (list Z)) (c : SimpleCommand) : Prop :=
  piece_input_ready_ (input c) = 0 ->
  forall k, k ∈ keys_ (input c) ->
    if count k (values_ (input c)) then find k (input_var_ready_ (input c)) = Some 1
    else find k (input_var_ready_ (input c)) = Some 0 /\ waits_for waiting k (cmd_partition_id_ c).

Lemma mark_var_spec par ws waiting k :
  let '(ws', waiting') := mark_var par (ws, waiting) k in
  keys_ ws' = keys_ ws /\ values_ ws' = values_ ws /\ piece_input_ready_ ws' = piece_input_ready_ ws /\
  (forall j p, waits_for waiting j p -> waits_for waiting' j p) /\
  (forall j, j ≠ k -> find j (input_var_ready_ ws') = find j (input_var_ready_ ws)) /\
  (if count k (values_ ws) then find k (input_var_ready_ ws') = Some 1
   else find k (input_var_ready_ ws') = Some 0 /\ waits_for waiting' k par).
Proof.
  unfold mark_var, waits_for. destruct (count k (values_ ws)); unfold set_field; simpl; split_and!; try done.
  - intros j Hj. by rewrite find_insert_ne.
  - by rewrite find_insert_eq.
  - intros j p Hp. rewrite find_insert. case_decide as E; [|done]. subst j. simpl.
    rewrite index_fst. apply elem_of_app. by left.
  - intros j Hj. by rewrite find_insert_ne.
  - by rewrite find_insert_eq.
  - rewrite find_insert_eq. simpl. apply elem_of_app. right. by apply list_elem_of_singleton.
Qed.

Lemma mark_vars_spec par keys ws waiting :
  NoDup keys ->
  let '(ws', waiting') := foldl (mark_var par) (ws, waiting) keys in
  keys_ ws' = keys_ ws /\ values_ ws' = values_ ws /\ piece_input_ready_ ws' = piece_input_ready_ ws /\
  (forall j p, waits_for waiting j p -> waits_for waiting' j p) /\
  (forall j, j ∉ keys -> find j (input_var_ready_ ws') = find j (input_var_ready_ ws)) /\
  (forall k, k ∈ keys -> if count k (values_ ws) then find k (input_var_ready_ ws') = Some 1
     else find k (input_var_ready_ ws') = Some 0 /\ waits_for waiting' k par).
Proof.
  intros Hnd. revert ws waiting. induction Hnd as [|k keys Hk Hnd IH]; intros ws waiting; cbn [foldl].
  { split_and!; try done. by intros k ?%not_elem_of_nil. }
  pose proof (mark_var_spec par ws waiting k) as Hm.
  destruct (mark_var par (ws, waiting) k) as [ws1 w1]. destruct Hm as (K1 & V1 & P1 & M1 & F1 & T1).
  specialize (IH ws1 w1). destruct (foldl (mark_var par) (ws1, w1) keys) as [ws2 w2].
  destruct IH as (K2 & V2 & P2 & M2 & F2 & T2). rewrite K1 in K2. rewrite V1 in V2, T2. rewrite P1 in P2.
  split_and!; try done; [by auto | |].
  - intros j [Hj1 Hj2]%not_elem_of_cons. rewrite F2, F1 by done. done.
  - intros j [->|Hj]%elem_of_cons; [|by apply T2]. rewrite F2 by done.
    destruct (count k (values_ ws)); [done|]. destruct T1 as [T1a T1b]. split; [done | auto].
Qed.

(** What a piece takes over from the transaction. *)
Definition piece_of (t : TxnCommand) (c : SimpleCommand) : Prop :=
  find (inn_id_ c) (sharding_ t) = Some (cmd_partition_id_ c) /\ type_ c = inn_id_ c /\
  root_id_ c = txn_id_ t /\ root_type_ c = txn_type_ t /\ local_executed_ c = false /\
  keys_ (input c) = keys_ (default (empty_ws 0) (find (inn_id_ c) (inputs_ t))) /\
  values_ (input c) = values_ (default (empty_ws 0) (find (inn_id_ c) (inputs_ t))) /\
  exists st, find (inn_id_ c) (status_ t) = Some st /\
    (st = DISPATCHABLE /\ piece_input_ready_ (input c) = 1 \/ st = WAITING /\ piece_input_ready_ (input c) = 0).

(** The fields that handing out a piece does not change for the others. *)
Definition same_txn (t t' : TxnCommand) : Prop :=
  txn_id_ t' = txn_id_ t /\ txn_type_ t' = txn_type_ t /\ sharding_ t' = sharding_ t /\
  forall pi, default (empty_ws 0) (find pi (inputs_ t')) = default (empty_ws 0) (find pi (inputs_ t)).

Definition keys_NoDup (t : TxnCommand) : Prop :=
  forall pi, NoDup (keys_ (default (empty_ws 0) (find pi (inputs_ t)))).

Lemma chop_input_spec st par ws waiting ws' waiting' :
  chop_input st par ws waiting = Some (ws', waiting') -> NoDup (keys_ ws) ->
  keys_ ws' = keys_ ws /\ values_ ws' = values_ ws /\
  (forall j p, waits_for waiting j p -> waits_for waiting' j p) /\
  (st = DISPATCHABLE /\ piece_input_ready_ ws' = 1 \/ st = WAITING /\ piece_input_ready_ ws' = 0) /\
  (piece_input_ready_ ws' = 0 -> forall k, k ∈ keys_ ws ->
     if count k (values_ ws) then find k (input_var_ready_ ws') = Some 1
     else find k (input_var_ready_ ws') = Some 0 /\ waits_for waiting' k par).
Proof.
  unfold chop_input. intros E Hnd.
  destruct (Z.eqb_spec st DISPATCHABLE) as [->|_].
  { injection E as <- <-. unfold set_field. simpl. split_and!; try done. by left. }
  destruct (Z.eqb_spec st WAITING) as [->|]; [|done]. injection E as E.
  pose proof (mark_vars_spec par (keys_ ws) (ws <| piece_input_ready_ := 0 |>) waiting Hnd) as Hm.
  rewrite E in Hm. destruct Hm as (K & V & P & Mo & _ & T). unfold set_field in *. simpl in *.
  split_and!; [done | done | done | by right | auto].
Qed.

Lemma get_all_spec entries t0 cmds waiting n t cmds' waiting' n' t' :
  get_all entries cmds waiting n t = Done ((cmds', waiting', n'), t') ->
  same_txn t0 t -> keys_NoDup t0 -> (forall pi st, (pi, st) ∈ entries -> find pi (status_ t0) = Some st) ->
  by_partition cmds -> Forall (deps_ok waiting) (pieces_of cmds) -> Forall (piece_of t0) (pieces_of cmds) ->
  by_partition cmds' /\ Forall (deps_ok waiting') (pieces_of cmds') /\ Forall (piece_of t0) (pieces_of cmds') /\
  inn_id_ <$> pieces_of cmds' ≡ₚ
    (inn_id_ <$> pieces_of cmds) ++ (filter (fun e => e.2 ≠ OUTPUT_READY) entries).*1.
Proof.
  revert cmds waiting n t.
  induction entries as [|[pi st] entries IH]; intros cmds waiting n t Hrun Ht0 Hnd Hst Hb Hd Hp; cbn [get_all] in Hrun.
  { injection Hrun as <- <- <- <-. by rewrite app_nil_r. }
  rewrite filter_cons. destruct (Z.eqb_spec st OUTPUT_READY) as [->|Hne].
  { rewrite decide_False by (simpl; tauto). eapply IH; eauto. intros pi' st' Hin. apply Hst. by right. }
  rewrite decide_True by done.
  apply bind_done in Hrun as (t1 & t2 & [= <- <-] & Hrun).
  apply bind_done in Hrun as (par & t2 & E2 & Hrun).
  destruct (find pi (sharding_ t)) as [par'|] eqn:Epar; [|done]. injection E2 as -> <-.
  apply bind_done in Hrun as ([ws waiting1] & t2 & E3 & Hrun).
  destruct (chop_input st par _ waiting) as [[ws1 w1]|] eqn:Ec; [|done]. injection E3 as -> -> <-.
  apply bind_done in Hrun as ([] & t2 & E4 & Hrun). unfold verify in E4.
  destruct (0 <? txn_type_ t); [|done]. injection E4 as <-.
  apply bind_done in Hrun as ([] & t2 & [= <-] & Hrun).
  set (c := new_command t pi par _ ws) in Hrun. destruct Ht0 as (I1 & I2 & I3 & I4).
  rewrite index_fst, I4 in Ec. apply chop_input_spec in Ec as (K & Va & Mo & R & T); [|apply Hnd].
  assert (piece_of t0 c) as Hc.
  { unfold piece_of. simpl. rewrite <- I3, <- I1, <- I2. split_and!; try done.
    exists st. split; [apply Hst; by left | exact R]. }
  assert (deps_ok waiting1 c) as Hdc.
  { intros Hr k Hk. simpl in *. rewrite K in Hk. rewrite Va. by apply T. }
  pose proof (push_piece_Permutation par c cmds (proj1 Hb)) as Hperm.
  apply (IH _ _ _ _) in Hrun as (R1 & R2 & R3 & R4).
  - split_and!; [done..|]. rewrite R4, Hperm. rewrite !fmap_cons. simpl. by rewrite Permutation_middle.
  - split_and!; [done..|]. intros j. simpl. rewrite find_index. case_decide as E; [|apply I4].
    subst j. rewrite index_fst. simpl. apply I4.
  - done.
  - intros pi' st' Hin. apply Hst. by right.
  - by apply push_piece_by_partition.
  - rewrite Hperm. constructor; [done|]. eapply Forall_impl; [exact Hd|].
    intros c' Hc' Hr k Hk. specialize (Hc' Hr k Hk). destruct (count k _); [done|].
    destruct Hc' as [? ?]. split; [done | auto].
  - rewrite Hperm. by constructor.
Qed.

Lemma pieces_of_map (f : SimpleCommand -> SimpleCommand) cmds :
  pieces_of (map (fun p => (p.1, map f p.2)) cmds) = map f (pieces_of cmds).
Proof. unfold pieces_of. induction cmds as [|p l IH]; [done|]. cbn. by rewrite IH, map_app. Qed.

Lemma by_partition_map (f : SimpleCommand -> SimpleCommand) cmds :
  (forall c, cmd_partition_id_ (f c) = cmd_partition_id_ c) -> by_partition cmds ->
  by_partition (map (fun p => (p.1, map f p.2)) cmds).
Proof.
  intros Hf [Hs Hall]. split.
  - unfold sorted_keys in *. by rewrite <- list_fmap_compose.
  - apply Forall_fmap. eapply Forall_impl; [exact Hall|]. intros [p cs] [Hne Hcs]. simpl in *.
    split; [by destruct cs|]. apply Forall_fmap. eapply Forall_impl; [exact Hcs|].
    intros c Hc. simpl. by rewrite Hf.
Qed.

(** What is returned is what the loop collected, with the dependency map filled in. *)
Lemma GetAllCmds_run t cmds t' :
  GetAllCmds t = Done (cmds, t') ->
  exists cs waiting n t1, get_all (status_ t) [] [] 0 t = Done ((cs, waiting, n), t1) /\ cs ≠ [] /\
    cmds = map (fun p => (p.1, map (set_waiting waiting) p.2)) cs.
Proof.
  intros Hrun. unfold GetAllCmds in Hrun.
  apply bind_done in Hrun as (t0 & t1 & [= <- <-] & Hrun).
  apply bind_done in Hrun as ([] & t1 & Hv & Hrun). unfold verify in Hv.
  destruct (_ <? _) in Hv; [|done]. injection Hv as <-.
  apply bind_done in Hrun as ([] & t1 & Hv & Hrun). unfold verify in Hv.
  destruct (_ <? _) in Hv; [|done]. injection Hv as <-.
  apply bind_done in Hrun as ([[cs waiting] n] & t1 & E & Hrun). exists cs, waiting, n, t1.
  apply bind_done in Hrun as (t2 & t3 & [= <- <-] & Hrun).
  apply bind_done in Hrun as ([] & t3 & Hv & Hrun). apply bind_done in Hrun as ([] & t4 & _ & Hrun).
  apply bind_done in Hrun as ([] & t5 & Hv' & Hrun). injection Hrun as <- _.
  split_and!; [done | | done]. intros ->. done.
Qed.

(** The loop from its start. *)
Lemma get_all_start t cs waiting n t1 :
  get_all (status_ t) [] [] 0 t = Done ((cs, waiting, n), t1) -> sorted_keys (status_ t) -> keys_NoDup t ->
  by_partition cs /\ Forall (deps_ok waiting) (pieces_of cs) /\ Forall (piece_of t) (pieces_of cs) /\
  inn_id_ <$> pieces_of cs ≡ₚ (filter (fun e => e.2 ≠ OUTPUT_READY) (status_ t)).*1.
Proof.
  intros E Hs Hnd. apply (get_all_spec _ t) in E as (Hb & Hd & Hp & Hperm); [done | by split_and! | done | | | constructor..].
  - intros pi st Hin. by apply sorted_elem_of_find.
  - split; constructor.
Qed.

(** C31: [GetAllCmds] hands out every piece whose output is not known
    yet exactly once, grouped by partition, each with the identity and the inputs of
    the transaction; a piece is marked ready exactly if it was dispatchable, and for
    a piece that waits, each missing variable is recorded with the partition of the
    piece in the dependency map that every piece carries. *)
Theorem pieces_handed_out t cmds t' :
  GetAllCmds t = Done (cmds, t') -> sorted_keys (status_ t) -> keys_NoDup t ->
  by_partition cmds /\
  inn_id_ <$> pieces_of cmds ≡ₚ (filter (fun e => e.2 ≠ OUTPUT_READY) (status_ t)).*1 /\
  Forall (piece_of t) (pieces_of cmds) /\
  exists waiting, Forall (fun c => waiting_var_par_map c = waiting /\ deps_ok waiting c) (pieces_of cmds).
Proof.
  intros (cs & waiting & n & t1 & E & _ & ->)%GetAllCmds_run Hs Hnd.
  apply get_all_start in E as (Hb & Hd & Hp & Hperm); [|done..].
  rewrite !pieces_of_map. split_and!.
  - by apply by_partition_map.
  - rewrite <- Hperm. simpl. rewrite <- list_fmap_compose. by apply reflexive_eq, list_fmap_ext.
  - apply Forall_fmap. eapply Forall_impl; [exact Hp|]. intros c Hc. exact Hc.
  - exists waiting. apply Forall_fmap. eapply Forall_impl; [exact Hd|]. intros c Hc. split; [done | exact Hc].
Qed.

(** ** Instances *)

(** A transaction of three pieces: 201 is ready, 204 waits for variable 9 on
    another partition, and the output of 205 is known. *)
Definition demo_txn : TxnCommand :=
  mk_txn 70 70 1 70
    [(201, mk_ws [3] [(3, V_I32 4)] [] 0); (204, mk_ws [3; 9] [(3, V_I32 4)] [] 0)] [] [(201, 1)]
    [(201, 0); (204, 1); (205, 1)] [(201, DISPATCHABLE); (204, WAITING); (205, OUTPUT_READY)] [] [] 3 3 0 0.

Definition handed_out (t : TxnCommand) : omap Z (list SimpleCommand) :=
  match GetAllCmds t with Done (cmds, _) => cmds | _ => [] end.

Lemma pieces_handed_out_witness :
  by_partition (handed_out demo_txn) /\
  inn_id_ <$> pieces_of (handed_out demo_txn) ≡ₚ (filter (fun e => e.2 ≠ OUTPUT_READY) (status_ demo_txn)).*1 /\
  Forall (piece_of demo_txn) (pieces_of (handed_out demo_txn)) /\
  exists waiting,
    Forall (fun c => waiting_var_par_map c = waiting /\ deps_ok waiting c) (pieces_of (handed_out demo_txn)).
Proof.
  eapply (pieces_handed_out demo_txn (handed_out demo_txn)).
  - vm_compute. reflexivity.
  - repeat constructor.
  - intros pi. cbn. repeat case_decide; apply (bool_decide_unpack _); vm_compute; exact I.
Defined.
