(* ===== verification/Config.v ===== *)
(** * The configuration of a deployment (src/deptran/config.cc, config.h)

    Sites, partitions (shards) with their replicas, and regions.  A lookup that
    ends in [verify(0)] is [None]. *)
From stdpp Require Import base tactics numbers list.
From S2P Require Import Prelude.

(** [RandomGenerator::rand(min, max)] (src/rrr/misc/rand.cpp), on the result of
    [rand_r]; [None] is the failed [verify]. *)
Definition RandomGenerator_rand (r min max : Z) : option Z :=
  if max <? min then None else Some (Z.rem r (max - min + 1) + min).

Definition N_REP_PER_SHARD : Z := 3.

Record SiteInfo := mk_site { si_id : Z; si_partition_id_ : Z }.
Record ReplicaGroup := mk_group { partition_id : Z; replicas : list SiteInfo }.

Record Config := mk_config {
  sites_ : list SiteInfo;
  par_clients_ : list SiteInfo;
  replica_groups_ : list ReplicaGroup;
  n_shard_per_region_ : Z;
  benchmark_TPCC : bool;
  conflicts_ : list (Z * Z);
}.

Section config.
Context (c : Config).

Definition NumSites : Z := Z.of_nat (length (sites_ c)).

Definition SiteById (id : Z) : option SiteInfo :=
  s ← (if id <? Z.of_nat (length (sites_ c)) then sites_ c !! Z.to_nat id
       else par_clients_ c !! Z.to_nat (id - Z.of_nat (length (sites_ c))));
  if si_id s =? id then Some s else None.

Definition find_group (par : Z) : option ReplicaGroup :=
  List.find (fun g => partition_id g =? par) (replica_groups_ c).

Definition SitesByPartitionId (par : Z) : option (list SiteInfo) :=
  replicas <$> find_group par.

Definition GetPartitionSize (par : Z) : option Z :=
  (fun g => Z.of_nat (length (replicas g))) <$> find_group par.

(** [replica_groups_[0].replicas.size()]; the constructor of the scheduler
    verifies that there is a group. *)
Definition group0_size : Z :=
  match replica_groups_ c with
  | [] => 0
  | g :: _ => Z.of_nat (length (replicas g))
  end.

Definition partitions_in_same_region (a b : Z) : bool :=
  a / n_shard_per_region_ c =? b / n_shard_per_region_ c.

Definition sites_in_same_region (a b : Z) : bool :=
  partitions_in_same_region (a / group0_size) (b / group0_size).

Definition sites_for_same_par (a b : Z) : bool := a / group0_size =? b / group0_size.

Definition SitesInMyRegion (site_id : Z) : list SiteInfo :=
  filter (fun s => sites_in_same_region site_id (si_id s) = true) (sites_ c).
End config.

(** The layout that [config.cc] builds: the sites are numbered partition by
    partition, [n] replicas each. *)
Definition site_of (n p r : nat) : SiteInfo := mk_site (Z.of_nat (n * p + r)) (Z.of_nat p).
Definition group_of (n p : nat) : ReplicaGroup := mk_group (Z.of_nat p) (site_of n p <$> seq 0 n).
Definition uniform_config (n_rep n_shard n_regions : nat) (tpcc : bool) (conf : list (Z * Z)) : Config :=
  let groups := group_of n_rep <$> seq 0 (n_shard * n_regions) in
  mk_config (mbind replicas groups) [] groups (Z.of_nat n_shard) tpcc conf.

(** ** Well-formed layouts: no site twice in a partition, none in two partitions *)
Record layout (c : Config) : Prop := {
  layout_NoDup : forall p sites, SitesByPartitionId c p = Some sites -> NoDup (si_id <$> sites);
  layout_disjoint : forall p q sp sq x,
    SitesByPartitionId c p = Some sp -> SitesByPartitionId c q = Some sq ->
    x ∈ si_id <$> sp -> x ∈ si_id <$> sq -> p = q;
}.

Lemma find_group_of n l p g :
  List.find (fun g => partition_id g =? p) (group_of n <$> l) = Some g ->
  exists k, p = Z.of_nat k /\ g = group_of n k.
Proof.
  induction l as [|k l IH]; simpl; [done|].
  destruct (Z.eqb_spec (Z.of_nat k) p); [intros [= <-]; eauto | auto].
Qed.

Lemma uniform_sites n_rep n_shard n_regions tpcc conf p sites :
  SitesByPartitionId (uniform_config n_rep n_shard n_regions tpcc conf) p = Some sites ->
  exists k, p = Z.of_nat k /\ si_id <$> sites = (fun r => Z.of_nat (n_rep * k + r)) <$> seq 0 n_rep.
Proof.
  unfold SitesByPartitionId, find_group. simpl. intros E.
  destruct (List.find _ _) as [g|] eqn:Eg; [|done]. injection E as <-.
  apply find_group_of in Eg as (k & -> & ->). exists k. split; [done|]. simpl. by rewrite <- list_fmap_compose.
Qed.

Lemma uniform_layout n_rep n_shard n_regions tpcc conf :
  layout (uniform_config n_rep n_shard n_regions tpcc conf).
Proof.
  split.
  - intros p sites (k & -> & ->)%uniform_sites. apply NoDup_fmap_2; [intros a b; lia | apply NoDup_seq].
  - intros p q sp sq x (k & -> & ->)%uniform_sites (l & -> & ->)%uniform_sites.
    intros (a & -> & [_ Ha]%elem_of_seq)%list_elem_of_fmap (b & E & [_ Hb]%elem_of_seq)%list_elem_of_fmap.
    f_equal. apply Nat2Z.inj in E. simpl in Ha, Hb. nia.
Qed.

(** ** Loading the sites

    The file lists the servers of every partition, and the clients of every partition.
    Sites are numbered in this order, servers first; names, hosts and ports are left out,
    but for the check that a server has a port. *)
Definition has_port (site_addr : list Z) : bool := existsb (Z.eqb 58) site_addr.

Fixpoint load_group (par site_id : Z) (group : list (list Z)) : option (list SiteInfo) :=
  match group with
  | [] => Some []
  | site_addr :: group =>
    if has_port site_addr then l ← load_group par (site_id + 1) group; Some (mk_site site_id par :: l) else None
  end.

Fixpoint load_groups (par site_id : Z) (servers : list (list (list Z))) : option (list ReplicaGroup) :=
  match servers with
  | [] => Some []
  | group :: servers =>
    l ← load_group par site_id group;
    gs ← load_groups (par + 1) (site_id + Z.of_nat (length group)) servers;
    Some (mk_group par l :: gs)
  end.

Fixpoint load_clients (par site_id : Z) (clients : list (list (list Z))) : list SiteInfo :=
  match clients with
  | [] => []
  | group :: clients =>
    imap (fun k _ => mk_site (site_id + Z.of_nat k) par) group ++ load_clients (par + 1) (site_id + Z.of_nat (length group)) clients
  end.

(** [sites_], [replica_groups_] and [par_clients_] *)
Definition LoadSiteYML (servers clients : list (list (list Z))) : option (list SiteInfo * list ReplicaGroup * list SiteInfo) :=
  groups ← load_groups 0 0 servers;
  Some (mbind replicas groups, groups, load_clients 0 (Z.of_nat (length (mbind (M:=list) id servers))) clients).

Lemma load_group_spec par n group l : load_group par n group = Some l ->
  length l = length group /\ forall k s, l !! k = Some s -> s = mk_site (n + Z.of_nat k) par.
Proof.
  revert n l. induction group as [|a group IH]; intros n l; cbn; [intros [= <-]; by split|].
  destruct (has_port a); [|done]. destruct (load_group _ _ _) as [l'|] eqn:E; cbn; [|done]. intros [= <-]. apply IH in E as [Hl Hs].
  split; [cbn; by rewrite Hl|]. intros [|k] s; cbn; [intros [= <-]; f_equal; lia|]. intros Hk%Hs. rewrite Hk. f_equal. lia.
Qed.

Lemma load_groups_spec par n servers gs : load_groups par n servers = Some gs ->
  (forall k g, gs !! k = Some g -> partition_id g = par + Z.of_nat k) /\
  (forall k s, mbind replicas gs !! k = Some s -> si_id s = n + Z.of_nat k) /\
  (forall k g s, gs !! k = Some g -> s ∈ replicas g -> si_partition_id_ s = partition_id g).
Proof.
  revert par n gs. induction servers as [|group servers IH]; intros par n gs; cbn; [by intros [= <-]|].
  destruct (load_group _ _ _) as [l|] eqn:El; cbn; [|done]. destruct (load_groups _ _ _) as [gs'|] eqn:Eg; cbn; [|done]. intros [= <-].
  apply load_group_spec in El as [Hl Hs]. pose proof (IH _ _ _ Eg) as (A & B & C). split_and!.
  - intros [|k] g; cbn; [intros [= <-]; cbn; lia|]. intros Hk%A. lia.
  - intros k s. cbn. destruct (decide (k < length l)%nat); [rewrite lookup_app_l by lia|rewrite lookup_app_r by lia].
    + intros Hk%Hs. by rewrite Hk.
    + intros Hk%B. lia.
  - intros [|k] g s; cbn; [|apply C]. intros [= <-] [k Hk]%list_elem_of_lookup. cbn in *. apply Hs in Hk. by rewrite Hk.
Qed.

Lemma find_group_elem c p sites : SitesByPartitionId c p = Some sites -> exists g, g ∈ replica_groups_ c /\ partition_id g = p /\ replicas g = sites.
Proof.
  unfold SitesByPartitionId, find_group. destruct (List.find _ _) as [g|] eqn:E; [|done]. intros [= <-].
  apply List.find_some in E as [Hin Hp%Z.eqb_eq]. exists g. split; [by apply list_elem_of_In|done].
Qed.

(** The sites that are loaded are found by their numbers, and no site is in two
    partitions. *)
Theorem loaded_layout servers clients sites groups pc c :
  LoadSiteYML servers clients = Some (sites, groups, pc) -> sites_ c = sites -> replica_groups_ c = groups ->
  layout c /\ forall k s, sites !! k = Some s -> SiteById c (Z.of_nat k) = Some s.
Proof.
  unfold LoadSiteYML. destruct (load_groups 0 0 servers) as [gs|] eqn:E; cbn; [|done]. intros [= <- <- _] Es Eg.
  apply load_groups_spec in E as (_ & Hids & Hpar). subst gs.
  assert (forall s s', s ∈ mbind replicas (replica_groups_ c) -> s' ∈ mbind replicas (replica_groups_ c) -> si_id s = si_id s' -> s = s') as Hinj.
  { intros s s' [i Hi]%list_elem_of_lookup [j Hj]%list_elem_of_lookup Hid. pose proof (Hids _ _ Hi). pose proof (Hids _ _ Hj).
    assert (i = j) as -> by lia. congruence. }
  assert (forall g x, g ∈ replica_groups_ c -> x ∈ replicas g -> x ∈ mbind replicas (replica_groups_ c)) as Hin.
  { intros g x Hg Hx. apply list_elem_of_bind. by exists g. }
  split; [split|].
  - intros p l (g & Hg & _ & <-)%find_group_elem. assert (NoDup (si_id <$> mbind replicas (replica_groups_ c))) as Hnd.
    { apply NoDup_alt. intros i j x. rewrite !list_lookup_fmap. destruct (_ !! i) as [s|] eqn:Ei, (_ !! j) as [s'|] eqn:Ej; cbn; try done.
      intros [= <-] [= Hx]. pose proof (Hids _ _ Ei). pose proof (Hids _ _ Ej). lia. }
    clear -Hg Hnd. induction (replica_groups_ c) as [|g' gs IH]; [by apply not_elem_of_nil in Hg|]. cbn in Hnd. rewrite fmap_app in Hnd. apply NoDup_app in Hnd as (H1 & _ & H2).
    apply elem_of_cons in Hg as [->|Hg]; [done|by apply IH].
  - intros p q sp sq x (g & Hg & <- & <-)%find_group_elem (g' & Hg' & <- & <-)%find_group_elem (s & -> & Hs)%list_elem_of_fmap (s' & Hid & Hs')%list_elem_of_fmap.
    assert (s = s') as <- by (apply Hinj; eauto). destruct (list_elem_of_lookup_1 _ _ Hg) as [i Hi]. destruct (list_elem_of_lookup_1 _ _ Hg') as [j Hj].
    rewrite <- (Hpar i g s Hi Hs). by apply (Hpar j g' s Hj).
  - intros k s Hk. unfold SiteById. rewrite Es. assert (k < length (mbind replicas (replica_groups_ c)))%nat by (by eapply lookup_lt_Some).
    destruct (Z.ltb_spec (Z.of_nat k) (Z.of_nat (length (mbind replicas (replica_groups_ c))))); [|lia]. rewrite Nat2Z.id, Hk. cbn.
    pose proof (Hids _ _ Hk). by destruct (Z.eqb_spec (si_id s) (Z.of_nat k)); [|lia].
Qed.
