(* ===== verification/ChrTypes.v ===== *)
(** * Messages and per-transaction state of DAST
    (src/deptran/rcc_rpc.rpc, src/deptran/chronos/tx.h)

    The request and reply structures of the RPCs, the enumerations of [tx.h] and
    the record [TxChronos].  The callbacks stored in a transaction are closures
    over the handler that made them; a constructor per closure stands for it. *)
From stdpp Require Import base tactics numbers list.
From S2P Require Import Prelude OMap ChrTs Command.

(** ** Messages *)

Record ChrTxnInfo := mk_info { info_txn_id : Z; info_ts : chr_ts_t; info_region_leader : Z }.

Record DastPrepareCRTReq := mk_PrepareCRTReq {
  pc_anticipated_ts : chr_ts_t; pc_shard_leader : Z; pc_coord_site : Z; pc_input_ready : Z }.

Record DastNotiCRTReq := mk_NotiCRTReq {
  nc_txn_id : Z; nc_anticipated_ts : chr_ts_t; nc_touched_sites : oset Z }.

Record DastNotiCommitReq := mk_NotiCommitReq {
  nm_txn_id : Z; nm_original_ts : chr_ts_t; nm_need_input_wait : Z; nm_new_ts : chr_ts_t;
  nm_touched_sites : oset Z }.

Record DastNotiManagerWaitReq := mk_NotiManagerWaitReq {
  nw_txn_id : Z; nw_original_ts : chr_ts_t; nw_need_input_wait : Z; nw_new_ts : chr_ts_t;
  nw_touched_sites : oset Z }.

Record DastIRSyncReq := mk_IRSyncReq {
  ir_my_site : Z; ir_txn_ts : chr_ts_t; ir_my_txns : list ChrTxnInfo; ir_delivered_ts : chr_ts_t }.

Record ChronosDistExeReq := mk_DistExeReq { de_txn_id : Z; de_decision_ts : chr_ts_t }.

Record ChronosStoreLocalReq := mk_StoreLocalReq {
  sl_txn_ts : chr_ts_t; sl_piggy_my_txns : list ChrTxnInfo; sl_piggy_delivered_ts : chr_ts_t }.

Record ChronosStoreLocalRes := mk_StoreLocalRes {
  sr_piggy_my_ts : chr_ts_t; sr_piggy_my_pending_txns : list ChrTxnInfo;
  sr_piggy_delivered_ts : chr_ts_t }.

Record ChronosProposeRemoteReq := mk_ProposeRemoteReq {
  pr_src_ts : chr_ts_t; pr_par_input_ready : omap Z Z }.

Record ChronosStoreRemoteReq := mk_StoreRemoteReq {
  st_handler_site : Z; st_region_leader : Z; st_anticipated_ts : chr_ts_t }.

Record DastRemotePreparedReq := mk_RemotePreparedReq {
  rp_txn_id : Z; rp_my_site_id : Z; rp_my_partition_id : Z; rp_shard_manager : Z;
  rp_anticipated_ts : chr_ts_t }.

Record DastProposeLocalReq := mk_ProposeLocalReq {
  pl_coord_site : Z; pl_shard_leader_site : Z; pl_txn_ts : chr_ts_t }.

Record ChronosSendOutputReq := mk_SendOutputReq { so_txn_id : Z; so_var_values : omap Z Value }.

(** ** What a handler emits: the calls of [ChronosCommo] and the RPC replies *)
Inductive Msg :=
  | SendIRSync (target_site : Z) (req : DastIRSyncReq)
  | SendPrepareIRT (target_par target_site : Z) (cmds : list SimpleCommand) (req : ChronosStoreLocalReq)
  | SendOutput (target_par : Z) (req : ChronosSendOutputReq)
  | SendPrepareRemote (cmds : omap Z (list SimpleCommand)) (region : Z) (req : ChronosProposeRemoteReq)
  | SendDistExe (par_id : Z) (req : ChronosDistExeReq)
  | SendNotiWait (region : Z) (req : DastNotiManagerWaitReq)
  | SendRemotePrepared (target_site : Z) (req : DastRemotePreparedReq)
  | SendStoreRemote (target_site : Z) (cmds : list SimpleCommand) (req : ChronosStoreRemoteReq)
  | SendPrepareCRT (target_par target_site : Z) (cmds : list SimpleCommand) (req : DastPrepareCRTReq)
  | SendNotiCommit (target_site : Z) (req : DastNotiCommitReq)
  | SendNotiCRT (target_site : Z) (req : DastNotiCRTReq)
  | ReplySubmit (txn_id : Z) (out : TxnOutput)
  | ReplyPrepareIRT (txn_id : Z) (res : ChronosStoreLocalRes)
  | ReplyProposeRemote (anticipated_ts : chr_ts_t)
  | ReplyProposeLocal (my_site_id : Z)
  | ReplyRemotePrepared (txn_id : Z)
  | ReplyDistExe (txn_id : Z) (is_region_leader : Z) (out : TxnOutput)
  | ReplySendOutput (txn_id : Z)
  | ReplyNotiWait (txn_id : Z)
  | ReplyPrepareCRT (txn_id : Z).

(** ** Enumerations of [tx.h] *)

Inductive DistPartStatus :=
  | P_NOT_RECEIVED | P_REMOTE_SENT | P_REMOTE_PREPARED | P_LOCAL_NOT_SENT | P_LOCAL_SENT
  | P_LOCAL_PREPARED | P_OUTPUT_RECEIVED | P_ABORTED.

Definition status_Z (s : DistPartStatus) : Z :=
  match s with
  | P_NOT_RECEIVED => 0
  | P_REMOTE_SENT => 1
  | P_REMOTE_PREPARED => 2
  | P_LOCAL_NOT_SENT => 3
  | P_LOCAL_SENT => 4
  | P_LOCAL_PREPARED => 5
  | P_OUTPUT_RECEIVED => 6
  | P_ABORTED => -1
  end.

Inductive TxnPhase :=
  | PHASE_EMPTY | DIST_REMOTE_SENT | DIST_REMOTE_PREPARED | LOCAL_NOT_STORED | LOCAL_CAN_EXE
  | DIST_CAN_EXE | OUTPUT_SENT.

Definition phase_Z (p : TxnPhase) : Z :=
  match p with
  | PHASE_EMPTY => 0
  | DIST_REMOTE_SENT => 1
  | DIST_REMOTE_PREPARED => 2
  | LOCAL_NOT_STORED => 3
  | LOCAL_CAN_EXE => 4
  | DIST_CAN_EXE => 5
  | OUTPUT_SENT => 6
  end.

Definition PHASE_CAN_EXE : Z := 4.

#[export] Instance DistPartStatus_eq_dec : EqDecision DistPartStatus.
Proof. solve_decision. Defined.
#[export] Instance TxnPhase_eq_dec : EqDecision TxnPhase.
Proof. solve_decision. Defined.

(** [execute_callback_]: the default, which does nothing and returns [false], and
    the closures of [HandleIRT], [OnSubmitCRT], [OnPrepareIRT], and of
    [OnPrepareCRT], [OnProposeRemote] and [OnProposeLocal], whose bodies agree. *)
Inductive ExecuteCallback :=
  | EC_unassigned
  | EC_HandleIRT
  | EC_OnSubmitCRT
  | EC_OnPrepareIRT
  | EC_OnPrepareCRT.

(** [send_output_to_handler_]: the default, which only logs, and the closure of
    [OnDistExe], which answers the pending RPC. *)
Inductive SendOutputCallback := SO_unassigned | SO_OnDistExe.

(** [send_output_client]: the default is [verify(0)]. *)
Inductive SendClientCallback := SC_unassigned | SC_OnSubmitCRT.

(** ** The state of a transaction *)
Record TxChronos := mk_tx {
  tid_ : Z;
  ts_ : chr_ts_t;
  commit_ts_ : chr_ts_t;
  execute_callback_ : ExecuteCallback;
  input_ready_ : Z;
  root_type : Z;
  dist_partition_status_ : omap Z DistPartStatus;
  dist_shard_mgr_acked_ : omap Z bool;
  dist_partition_acks_ : omap Z (oset Z);
  anticipated_ts_ : omap Z chr_ts_t;
  send_output_to_handler_ : SendOutputCallback;
  send_output_client : SendClientCallback;
  pieces_ : list SimpleCommand;
  n_local_pieces_ : Z;
  n_executed_pieces : Z;
  chr_phase_ : TxnPhase;
  handler_site_ : Z;
  region_handler_ : Z;
  is_irt_ : bool;
  dist_output_ : option TxnOutput;
  exe_tried_ : bool;
  recur_times_ : Z;
}.

#[export] Instance Eta_tx : Eta TxChronos :=
  fun r => mk_tx (tid_ r) (ts_ r) (commit_ts_ r) (execute_callback_ r) (input_ready_ r)
    (root_type r) (dist_partition_status_ r) (dist_shard_mgr_acked_ r) (dist_partition_acks_ r)
    (anticipated_ts_ r) (send_output_to_handler_ r) (send_output_client r) (pieces_ r)
    (n_local_pieces_ r) (n_executed_pieces r) (chr_phase_ r) (handler_site_ r)
    (region_handler_ r) (is_irt_ r) (dist_output_ r) (exe_tried_ r) (recur_times_ r).

(** [new TxChronos]: [is_irt_] and [n_local_pieces_] have no initialiser and hold
    whatever the memory held; [dist_output_] is a pointer to nothing yet;
    [handler_site_] and [region_handler_] are [(siteid_t) -1]. *)
Definition new_TxChronos (junk_is_irt : bool) (junk_n_local_pieces : Z) (tid : Z) : TxChronos := {|
  tid_ := tid;
  ts_ := ts_zero;
  commit_ts_ := ts_zero;
  execute_callback_ := EC_unassigned;
  input_ready_ := 1;
  root_type := 0;
  dist_partition_status_ := [];
  dist_shard_mgr_acked_ := [];
  dist_partition_acks_ := [];
  anticipated_ts_ := [];
  send_output_to_handler_ := SO_unassigned;
  send_output_client := SC_unassigned;
  pieces_ := [];
  n_local_pieces_ := junk_n_local_pieces;
  n_executed_pieces := 0;
  chr_phase_ := PHASE_EMPTY;
  handler_site_ := 65535;
  region_handler_ := 65535;
  is_irt_ := junk_is_irt;
  dist_output_ := None;
  exe_tried_ := false;
  recur_times_ := 0;
|}.

Definition AllPiecesInputReady (t : TxChronos) : bool := input_ready_ t >? 0.
