(* ===== verification/ChrTx.v ===== *)
(** * Executing the pieces of a transaction (src/deptran/chronos/tx.cc)

    A transaction runs the pieces whose inputs have arrived, feeds their outputs
    to the pieces that wait for them, and repeats until nothing more is ready.
    The methods act on the transaction and on the database of the site. *)
From stdpp Require Import base tactics numbers list sorting sets.
From S2P Require Import Prelude OMap Command Config ChrTs ChrTypes.

Section tx.
Context `{Registry} (cfg : Config).

Record TxSt := mk_txst { tx : TxChronos; tx_db : Db }.
#[export] Instance Eta_txst : Eta TxSt := fun r => mk_txst (tx r) (tx_db r).

(** ** Conflicts between pieces *)

Definition check_piece_conflict (pending_pie_id type_to_check : Z) : bool :=
  if benchmark_TPCC cfg then bool_decide ((pending_pie_id, type_to_check) ∈ conflicts_ cfg)
  else false.

Definition can_exe_wo_conflict (to_check : Z) (pending_pieces : oset Z) : bool :=
  forallb (fun p => negb (check_piece_conflict p to_check)) pending_pieces.

(** ** Outputs *)

Definition GetOutputsTargets (t : TxChronos) (out : omap Z Value) : oset Z :=
  match pieces_ t with
  | [] => []
  | p0 :: _ =>
    foldl (fun ret pair =>
      match find pair.1 (waiting_var_par_map p0) with
      | Some targets => sinsert_range targets ret
      | None => ret
      end) [] out
  end.

(** One variable offered to one piece: the piece and whether it became ready. *)
Definition merge_var (varid : Z) (value : Value) (p : SimpleCommand) : SimpleCommand * bool :=
  let ws := input p in
  if (piece_input_ready_ ws =? 0) && smem varid (keys_ ws) then
    let '(r, ready_map) := index 0 varid (input_var_ready_ ws) in
    if r =? 0 then
      let ready_map := insert varid 1 ready_map in
      let ws := ws <| values_ ::= insert varid value |> <| input_var_ready_ := ready_map |> in
      let ready := forallb (fun re => negb (re.2 =? 0)) ready_map in
      (p <| input := if ready then ws <| piece_input_ready_ := 1 |> else ws |>, ready)
    else (p, false)
  else (p, false).

Definition merge_pieces (varid : Z) (value : Value) (ps : list SimpleCommand) :
    list SimpleCommand * bool :=
  (fst <$> (merge_var varid value <$> ps), existsb snd (merge_var varid value <$> ps)).

Fixpoint merge_output (out : omap Z Value) (ps : list SimpleCommand) : list SimpleCommand * bool :=
  match out with
  | [] => (ps, false)
  | (varid, value) :: out =>
    let '(ps, r1) := merge_pieces varid value ps in
    let '(ps, r2) := merge_output out ps in
    (ps, r1 || r2)
  end.

Definition MergeCheckReadyPieces (out : omap Z Value) (t : TxChronos) : TxChronos * bool :=
  let '(ps, ret) := merge_output out (pieces_ t) in (t <| pieces_ := ps |>, ret).

(** ** Running one piece *)

(** The handler may extend the workspace of the piece it is given; a piece that
    is not registered fails a [verify]; a [DF_FAKE] piece is skipped. *)
Definition DispatchExecute (i : nat) (c : SimpleCommand) : M TxSt (omap Z Value) :=
  modify (fun s => s <| tx ::= fun t => t <| root_type := root_type_ c |> |>);;
  '(defer, txn_handler) ← from_option (reg_get c);
  match defer with
  | DF_FAKE => mret []
  | _ => state (fun s =>
    let '(ws, db, out) := txn_handler c (tx_db s) in
    (out, s <| tx_db := db |>
            <| tx ::= fun t => t <| pieces_ ::= alter (fun c => c <| input := ws |>) i |> |>))
  end.

(** The body of the loop over [pieces_] at index [i]: the outputs collected so
    far and [need_check] are threaded. *)
Definition exec_piece (my_par_id : Z) (pending_pieces : oset Z) (i : nat)
    (acc : omap Z (omap Z Value) * bool) : M TxSt (omap Z (omap Z Value) * bool) :=
  let '(ret, need_check) := acc in
  ps ← gets (fun s => pieces_ (tx s));
  match ps !! i with
  | None => mret acc
  | Some c =>
    if negb (piece_input_ready_ (input c) =? 0) && negb (local_executed_ c)
       && can_exe_wo_conflict (inn_id_ c) pending_pieces then
      piece_output ← DispatchExecute i c;
      modify (fun s => s <| tx ::= fun t =>
        t <| pieces_ ::= alter (fun c => c <| local_executed_ := true |>) i |>
          <| n_executed_pieces ::= Z.add 1 |> |>);;
      targets ← gets (fun s => GetOutputsTargets (tx s) piece_output);
      let ret := foldl (fun ret tar =>
        insert tar (insert_range piece_output (index [] tar ret).1) ret) ret targets in
      need_check ←
        (if smem my_par_id targets then
           state (fun s =>
             let '(t, has_more_ready) := MergeCheckReadyPieces piece_output (tx s) in
             (need_check || has_more_ready, s <| tx := t |>))
         else mret need_check);
      out ← gets (fun s => dist_output_ (tx s));
      out ← from_option out;
      modify (fun s => s <| tx ::= fun t =>
        t <| dist_output_ := Some (insert (inn_id_ c) piece_output out) |> |>);;
      mret (ret, need_check)
    else mret acc
  end.

(** One iteration of the [do]: the pieces in order. *)
Fixpoint exec_pass (my_par_id : Z) (pending_pieces : oset Z) (idxs : list nat)
    (acc : omap Z (omap Z Value) * bool) : M TxSt (omap Z (omap Z Value) * bool) :=
  match idxs with
  | [] => mret acc
  | i :: idxs =>
    acc ← exec_piece my_par_id pending_pieces i acc;
    exec_pass my_par_id pending_pieces idxs acc
  end.

(** [do { ... } while (need_check)] *)
Fixpoint exec_loop (fuel : nat) (my_par_id : Z) (pending_pieces : oset Z)
    (ret : omap Z (omap Z Value)) : M TxSt (omap Z (omap Z Value)) :=
  match fuel with
  | O => out_of_fuel
  | S fuel =>
    n ← gets (fun s => length (pieces_ (tx s)));
    '(ret, need_check) ← exec_pass my_par_id pending_pieces (seq 0 n) (ret, false);
    if (need_check : bool) then exec_loop fuel my_par_id pending_pieces ret else mret ret
  end.

(** A pass that asks for another one has run a piece, so as many passes as there
    are pieces and one more are enough. *)
Definition RecursiveExecuteReadyPieces (my_par_id : Z) (pending_pieces : oset Z) :
    M TxSt (omap Z (omap Z Value) * oset Z) :=
  modify (fun s => s <| tx ::= fun t => t <| exe_tried_ := true |> <| recur_times_ ::= Z.add 1 |> |>);;
  n ← gets (fun s => length (pieces_ (tx s)));
  ret ← exec_loop (S n) my_par_id pending_pieces [];
  ps ← gets (fun s => pieces_ (tx s));
  mret (ret, foldl (fun pending c =>
    if local_executed_ c then pending else sinsert (inn_id_ c) pending) pending_pieces ps).

(** ** What merging an output does *)

Definition flags (ps : list SimpleCommand) : list bool := local_executed_ <$> ps.
Definition ready_flags (ps : list SimpleCommand) : list Z :=
  (fun c => piece_input_ready_ (input c)) <$> ps.

(** How a piece may change when variables arrive: what it is stays, and the
    inputs of a ready piece stay. *)
Definition piece_le (c c' : SimpleCommand) : Prop :=
  local_executed_ c' = local_executed_ c /\ inn_id_ c' = inn_id_ c /\ reg_get c' = reg_get c /\
  (piece_input_ready_ (input c) ≠ 0 -> input c' = input c).

#[export] Instance piece_le_preorder : PreOrder piece_le.
Proof.
  split; [by intros c|]. intros c1 c2 c3 (A1 & B1 & C1 & D1) (A2 & B2 & C2 & D2).
  split_and!; try congruence. intros Hr. rewrite D2; [auto|]. by rewrite D1.
Qed.

Lemma merge_var_le varid value p : piece_le p (merge_var varid value p).1.
Proof.
  unfold merge_var. destruct (_ && _) eqn:E; [|done].
  destruct (index _ _ _) as [r rm]. destruct (r =? 0); [|done].
  split_and!; try done. intros Hr. lia.
Qed.

Lemma merge_var_ready varid value p :
  (merge_var varid value p).2 = false ->
  piece_input_ready_ (input (merge_var varid value p).1) = piece_input_ready_ (input p).
Proof.
  unfold merge_var. destruct (_ && _) eqn:E; [|done].
  destruct (index _ _ _) as [r rm]. destruct (r =? 0); [|done].
  simpl. by intros ->.
Qed.

Lemma merge_pieces_le varid value ps : Forall2 piece_le ps (merge_pieces varid value ps).1.
Proof.
  simpl. induction ps as [|p ps IH]; simpl; constructor; [apply merge_var_le | done].
Qed.

Lemma merge_pieces_ready varid value ps :
  (merge_pieces varid value ps).2 = false ->
  ready_flags (merge_pieces varid value ps).1 = ready_flags ps.
Proof.
  simpl. induction ps as [|p ps IH]; simpl; [done|].
  rewrite orb_false_iff. intros [H1 H2]. unfold ready_flags in *. simpl. f_equal; auto.
  by apply merge_var_ready.
Qed.

Lemma merge_output_spec out ps :
  Forall2 piece_le ps (merge_output out ps).1 /\
  ((merge_output out ps).2 = false -> ready_flags (merge_output out ps).1 = ready_flags ps).
Proof.
  revert ps. induction out as [|[k v] out IH]; intros ps; [done|].
  cbn [merge_output].
  pose proof (merge_pieces_le k v ps) as H1. pose proof (merge_pieces_ready k v ps) as H2.
  destruct (merge_pieces k v ps) as [ps1 r1]. destruct (IH ps1) as [H3 H4].
  destruct (merge_output out ps1) as [ps2 r2]. simpl in *. split; [by etrans|].
  rewrite orb_false_iff. intros [-> ->]. rewrite H4, H2 by done. done.
Qed.

Lemma piece_le_flags ps ps' : Forall2 piece_le ps ps' -> flags ps' = flags ps.
Proof.
  induction 1 as [|c c' ps ps' (Hx & _) _ IH]; [done|]. unfold flags in *. simpl. by f_equal.
Qed.
Lemma piece_le_ids ps ps' : Forall2 piece_le ps ps' -> inn_id_ <$> ps' = inn_id_ <$> ps.
Proof. induction 1 as [|c c' ps ps' (_ & Hx & _) _ IH]; [done|]. simpl. by f_equal. Qed.
Lemma piece_le_regs ps ps' : Forall2 piece_le ps ps' -> reg_get <$> ps' = reg_get <$> ps.
Proof. induction 1 as [|c c' ps ps' (_ & _ & Hx & _) _ IH]; [done|]. simpl. by f_equal. Qed.

(** ** What running a piece does *)

(** The fields of a transaction that execution may write, blanked out. *)
Definition tx_frame (t : TxChronos) : TxChronos :=
  t <| root_type := 0 |> <| pieces_ := [] |> <| n_executed_pieces := 0 |>
    <| dist_output_ := None |> <| recur_times_ := 0 |>.

Definition settled (pending : oset Z) (c : SimpleCommand) : Prop :=
  local_executed_ c = true \/ piece_input_ready_ (input c) = 0 \/
  can_exe_wo_conflict (inn_id_ c) pending = false.

(** The inputs of the piece have arrived, unless it has run. *)
Definition ready_or_done (c : SimpleCommand) : Prop :=
  local_executed_ c = true \/ piece_input_ready_ (input c) ≠ 0.

Definition runnable (t : TxChronos) : Prop :=
  is_Some (dist_output_ t) /\ Forall is_Some (reg_get <$> pieces_ t).

(** Pieces that have run stay so, and those that have run since were free of
    conflicts with the pending pieces. *)
Definition runs_free (pending : oset Z) (t t' : TxChronos) : Prop :=
  (forall j, flags (pieces_ t) !! j = Some true -> flags (pieces_ t') !! j = Some true) /\
  (forall j x, flags (pieces_ t') !! j = Some true -> (inn_id_ <$> pieces_ t) !! j = Some x ->
     flags (pieces_ t) !! j = Some true \/ can_exe_wo_conflict x pending = true).

Lemma runs_free_refl pending t : runs_free pending t t.
Proof. split; auto. Qed.

Lemma runs_free_trans pending t1 t2 t3 :
  inn_id_ <$> pieces_ t2 = inn_id_ <$> pieces_ t1 ->
  runs_free pending t1 t2 -> runs_free pending t2 t3 -> runs_free pending t1 t3.
Proof.
  intros Hids [M1 F1] [M2 F2]. split; [auto|]. intros j x Hj Hx.
  destruct (F2 j x Hj) as [?|?]; [by rewrite Hids | by apply F1 | by right].
Qed.

(** The change of a transaction when its piece [i] has run. *)
Record ran (pending : oset Z) (i : nat) (nc nc' : bool) (t t' : TxChronos) : Prop := {
  ran_flag : flags (pieces_ t) !! i = Some false;
  ran_flags : flags (pieces_ t') = <[i := true]> (flags (pieces_ t));
  ran_ids : inn_id_ <$> pieces_ t' = inn_id_ <$> pieces_ t;
  ran_regs : reg_get <$> pieces_ t' = reg_get <$> pieces_ t;
  ran_count : n_executed_pieces t' = 1 + n_executed_pieces t;
  ran_output : is_Some (dist_output_ t) /\ is_Some (dist_output_ t');
  ran_frame : tx_frame t' = tx_frame t;
  ran_check : nc = true -> nc' = true;
  ran_ready : nc' = false -> forall j, j ≠ i ->
    ready_flags (pieces_ t') !! j = ready_flags (pieces_ t) !! j;
  ran_all_ready : Forall ready_or_done (pieces_ t) -> Forall ready_or_done (pieces_ t');
  ran_free : forall x, (inn_id_ <$> pieces_ t) !! i = Some x -> can_exe_wo_conflict x pending = true;
}.

Lemma fmap_alter_id {A B} (f : A -> B) (g : A -> A) i (l : list A) :
  (forall a, f (g a) = f a) -> f <$> alter g i l = f <$> l.
Proof.
  intros Hfg. revert i. induction l as [|a l IH]; intros [|i]; simpl; try done.
  - by rewrite Hfg.
  - f_equal. apply IH.
Qed.

Lemma DispatchExecute_spec i c s out s' :
  DispatchExecute i c s = Done (out, s') ->
  is_Some (reg_get c) /\ tx_frame (tx s') = tx_frame (tx s) /\
  dist_output_ (tx s') = dist_output_ (tx s) /\
  n_executed_pieces (tx s') = n_executed_pieces (tx s) /\
  exists g, (forall c, exists ws, g c = c <| input := ws |>) /\
    pieces_ (tx s') = alter g i (pieces_ (tx s)).
Proof.
  unfold DispatchExecute. intros Hrun.
  apply bind_done in Hrun as ([] & s1 & [= <-] & Hrun).
  apply bind_done in Hrun as ([defer h] & s2 & Hr & Hrun).
  destruct (reg_get c) as [[d h0]|] eqn:Er; [|done]. injection Hr as -> -> <-.
  split; [eauto|]. destruct defer.
  1,2: (injection Hrun as Hrun; destruct (h c _) as [[ws db] o]; injection Hrun as <- <-;
    split_and!; try done; exists (fun c => c <| input := ws |>); split; [eauto | done]).
  injection Hrun as <- <-. split_and!; try done. exists id. split.
  - intros c0. exists (input c0). by destruct c0.
  - symmetry. by apply list_alter_id.
Qed.
Lemma flags_alter_input (g : SimpleCommand -> SimpleCommand) i ps :
  (forall c, exists ws, g c = c <| input := ws |>) ->
  flags (alter g i ps) = flags ps /\ inn_id_ <$> alter g i ps = inn_id_ <$> ps /\
  reg_get <$> alter g i ps = reg_get <$> ps.
Proof.
  intros Hg. split_and!; apply fmap_alter_id; intros c; destruct (Hg c) as [ws ->]; done.
Qed.

Definition mark_executed (c : SimpleCommand) : SimpleCommand := c <| local_executed_ := true |>.

Lemma flags_alter_executed i ps c :
  ps !! i = Some c -> flags (alter mark_executed i ps) = <[i := true]> (flags ps).
Proof.
  unfold flags. revert i. induction ps as [|a ps IH]; intros [|i] Hi; simplify_eq/=; [done|].
  f_equal. by apply IH.
Qed.

Lemma ready_flags_alter_ne (g : SimpleCommand -> SimpleCommand) i j ps :
  j ≠ i -> ready_flags (alter g i ps) !! j = ready_flags ps !! j.
Proof. intros Hne. unfold ready_flags. by rewrite !list_lookup_fmap, list_lookup_alter_ne. Qed.

Lemma piece_le_ready ps ps' :
  Forall2 piece_le ps ps' -> Forall ready_or_done ps -> Forall ready_or_done ps'.
Proof.
  induction 1 as [|c c' ps ps' (Hl & _ & _ & Hi) _ IH]; [done|].
  intros [Hc Hall]%Forall_cons. constructor; [|auto]. destruct Hc as [Hc|Hc].
  - left. by rewrite Hl.
  - right. by rewrite Hi.
Qed.

(** Everything but the piece [i] is [ready_or_done]. *)
Definition others_ready (i : nat) (ps : list SimpleCommand) : Prop :=
  forall j c, j ≠ i -> ps !! j = Some c -> ready_or_done c.

Lemma Forall_alter_ne (g : SimpleCommand -> SimpleCommand) i ps :
  Forall ready_or_done ps -> others_ready i (alter g i ps).
Proof.
  intros Hall j c Hj Hc. rewrite list_lookup_alter_ne in Hc by done.
  rewrite Forall_lookup in Hall. eauto.
Qed.

Lemma Forall_alter_executed i ps :
  others_ready i ps -> Forall ready_or_done (alter mark_executed i ps).
Proof.
  intros Hall. apply Forall_lookup. intros j c Hc. destruct (decide (j = i)) as [->|Hj].
  - rewrite list_lookup_alter_eq in Hc. destruct (ps !! i); simplify_eq/=. by left.
  - rewrite list_lookup_alter_ne in Hc by done. eauto.
Qed.

(** A step at index [i] either leaves everything as it is and the piece is
    settled, or runs the piece. *)
(** Feeding the output of a piece to the waiting pieces, if this partition is among
    the targets. *)
Lemma feed_output_spec (par : Z) (targets : oset Z) out nc s nc' s' :
  (if smem par targets then
     state (fun s => let '(t, has_more_ready) := MergeCheckReadyPieces out (tx s) in
                     (nc || has_more_ready, s <| tx := t |>))
   else mret nc) s = Done (nc', s') ->
  Forall2 piece_le (pieces_ (tx s)) (pieces_ (tx s')) /\ (nc = true -> nc' = true) /\
  (nc' = false -> ready_flags (pieces_ (tx s')) = ready_flags (pieces_ (tx s))) /\
  tx_frame (tx s') = tx_frame (tx s) /\ n_executed_pieces (tx s') = n_executed_pieces (tx s) /\
  dist_output_ (tx s') = dist_output_ (tx s).
Proof.
  destruct (smem par targets); [|by intros [= <- <-]].
  unfold state, MergeCheckReadyPieces. intros Hmerge. destruct (merge_output_spec out (pieces_ (tx s))) as [L1 L2].
  destruct (merge_output out (pieces_ (tx s))) as [ps4 more]. injection Hmerge as <- <-.
  split_and!; try done; [by intros ->|]. simpl. rewrite orb_false_iff. naive_solver.
Qed.

Lemma exec_piece_spec par pending i ret nc s r s' :
  exec_piece par pending i (ret, nc) s = Done (r, s') ->
  (s' = s /\ r = (ret, nc) /\ forall c, pieces_ (tx s) !! i = Some c -> settled pending c) \/
  ran pending i nc r.2 (tx s) (tx s').
Proof.
  unfold exec_piece. intros Hrun.
  apply bind_done in Hrun as (ps & s1 & [= <- <-] & Hrun).
  destruct (pieces_ (tx s) !! i) as [c|] eqn:Ec; [|injection Hrun as <- <-; left; by split_and!].
  destruct (negb (piece_input_ready_ (input c) =? 0) && _ && _) eqn:Eguard.
  2: { injection Hrun as <- <-. left. split_and!; [done..|]. intros c' [= <-].
       unfold settled. destruct (local_executed_ c); [by left|right].
       destruct (can_exe_wo_conflict _ _); [left; lia | by right]. }
  right. apply bind_done in Hrun as (out & s2 & Hdisp & Hrun).
  apply DispatchExecute_spec in Hdisp as (_ & Hf & Hout & Hn & g & Hg & Hp).
  destruct (flags_alter_input g i (pieces_ (tx s)) Hg) as (G1 & G2 & G3).
  apply bind_done in Hrun as ([] & s3 & [= <-] & Hrun).
  apply bind_done in Hrun as (targets & s3 & [= <- <-] & Hrun).
  apply bind_done in Hrun as (nc' & s4 & Hmerge & Hrun).
  apply bind_done in Hrun as (o & s5 & [= <- <-] & Hrun).
  apply bind_done in Hrun as (o & s5 & Ho & Hrun).
  destruct (dist_output_ (tx s4)) as [o0|] eqn:Eo; [|done]. injection Ho as -> <-.
  apply bind_done in Hrun as ([] & s5 & [= <-] & Hrun). injection Hrun as <- <-.
  set (ps2 := alter mark_executed i (pieces_ (tx s2))) in *.
  assert (flags ps2 = <[i:=true]> (flags (pieces_ (tx s)))) as F2.
  { unfold ps2. rewrite Hp. destruct (pieces_ (tx s2) !! i) as [c2|] eqn:E2.
    - rewrite Hp in E2. rewrite (flags_alter_executed _ _ c2) by done. by rewrite G1.
    - rewrite Hp, list_lookup_alter, decide_True, Ec in E2 by done. done. }
  assert (inn_id_ <$> ps2 = inn_id_ <$> pieces_ (tx s) /\
          reg_get <$> ps2 = reg_get <$> pieces_ (tx s)) as [I2 R2].
  { unfold ps2. rewrite Hp, !(fmap_alter_id _ mark_executed) by done. done. }
  apply feed_output_spec in Hmerge as (M1 & M2 & M3 & M4 & M5 & M6).
  change (Forall2 piece_le ps2 (pieces_ (tx s4))) in M1.
  change (nc' = false -> ready_flags (pieces_ (tx s4)) = ready_flags ps2) in M3.
  change (tx_frame (tx s4) = tx_frame (tx s2)) in M4. change (dist_output_ (tx s4) = dist_output_ (tx s2)) in M6.
  split.
  - unfold flags. rewrite list_lookup_fmap, Ec. simpl.
    destruct (local_executed_ c); [|done]. by rewrite andb_false_r in Eguard.
  - by rewrite <- F2, <- (piece_le_flags _ _ M1).
  - by rewrite <- I2, <- (piece_le_ids _ _ M1).
  - by rewrite <- R2, <- (piece_le_regs _ _ M1).
  - cbn. rewrite M5. cbn. by rewrite Hn.
  - simpl. rewrite <- Hout, <- M6, Eo. eauto.
  - by rewrite <- Hf, <- M4.
  - done.
  - simpl. intros Hnc j Hj. rewrite M3 by done. unfold ps2.
    rewrite Hp. by rewrite !ready_flags_alter_ne by done.
  - intros Hall. apply (piece_le_ready ps2); [done|]. unfold ps2. rewrite Hp.
    apply Forall_alter_executed, Forall_alter_ne; done.
  - intros x Hx. rewrite list_lookup_fmap, Ec in Hx. injection Hx as <-.
    by apply andb_true_iff in Eguard as [_ ?].
Qed.
(** ** Passes and the loop *)

Definition ntrue (bs : list bool) : nat := length (filter (fun b => b = true) bs).
Lemma ntrue_all bs : ntrue bs = length bs -> Forall (fun b => b = true) bs.
Proof.
  unfold ntrue. induction bs as [|b bs IH]; [constructor|]. rewrite filter_cons.
  pose proof (length_filter (fun b => b = true) bs). case_decide; cbn; intros E; [constructor; [done|apply IH; lia] | lia].
Qed.
Definition n_done (t : TxChronos) : nat := ntrue (flags (pieces_ t)).
Definition settled_at (pending : oset Z) (t : TxChronos) (j : nat) : Prop :=
  forall c, pieces_ t !! j = Some c -> settled pending c.

Lemma ntrue_insert bs i : bs !! i = Some false -> ntrue (<[i := true]> bs) = S (ntrue bs).
Proof.
  unfold ntrue. revert i. induction bs as [|b bs IH]; intros [|i] Hi; simplify_eq/=.
  - done.
  - rewrite !filter_cons. specialize (IH i Hi). case_decide; simpl; lia.
Qed.

Lemma ntrue_le bs : (ntrue bs <= length bs)%nat.
Proof. unfold ntrue. apply length_filter. Qed.

(** What any number of steps does to a transaction. *)
Record advanced (pending : oset Z) (nc nc' : bool) (t t' : TxChronos) : Prop := {
  adv_ids : inn_id_ <$> pieces_ t' = inn_id_ <$> pieces_ t;
  adv_regs : reg_get <$> pieces_ t' = reg_get <$> pieces_ t;
  adv_frame : tx_frame t' = tx_frame t;
  adv_count : n_executed_pieces t' = n_executed_pieces t + Z.of_nat (n_done t') - Z.of_nat (n_done t);
  adv_done : (n_done t <= n_done t')%nat;
  adv_progress : nc' = nc \/ (n_done t < n_done t')%nat;
  adv_check : nc = true -> nc' = true;
  adv_settled : nc' = false -> forall j, settled_at pending t j -> settled_at pending t' j;
  adv_output : is_Some (dist_output_ t) -> is_Some (dist_output_ t');
  adv_ready : Forall ready_or_done (pieces_ t) -> Forall ready_or_done (pieces_ t');
  adv_free : runs_free pending t t';
}.

Lemma advanced_refl pending nc t : advanced pending nc nc t t.
Proof. split; auto using runs_free_refl; lia. Qed.

Lemma advanced_trans pending nc1 nc2 nc3 t1 t2 t3 :
  advanced pending nc1 nc2 t1 t2 -> advanced pending nc2 nc3 t2 t3 ->
  advanced pending nc1 nc3 t1 t3.
Proof.
  intros [] []. split; try congruence; try lia; auto.
  - destruct adv_progress0 as [->|], adv_progress1 as [->|]; auto; right; lia.
  - intros -> j Hj. destruct nc2; [naive_solver|]. auto.
  - by eapply runs_free_trans.
Qed.

Lemma ran_advanced pending i nc nc' t t' :
  ran pending i nc nc' t t' -> advanced pending nc nc' t t' /\ settled_at pending t' i.
Proof.
  intros [Hi Hfl Hids Hregs Hn [_ Ho] Hfr Hnc Hrd Hall Hfree].
  assert (n_done t' = S (n_done t)) as Hd by (unfold n_done; by rewrite Hfl, ntrue_insert).
  assert (forall c, pieces_ t' !! i = Some c -> local_executed_ c = true) as Hex.
  { intros c Hc. apply (f_equal (lookup i)) in Hfl. unfold flags in Hfl.
    rewrite list_lookup_fmap, Hc, list_lookup_insert_eq in Hfl; [by injection Hfl|].
    rewrite length_fmap. apply (f_equal length) in Hids. rewrite !length_fmap in Hids.
    rewrite <- Hids. by eapply lookup_lt_Some. }
  split; [split; auto; try lia|by intros c Hc; left; eauto]; cycle 1.
  { unfold runs_free. rewrite Hfl. split; intros j; destruct (decide (j = i)) as [->|Hne].
    - by rewrite Hi.
    - by rewrite list_lookup_insert_ne.
    - intros x _ Hx. right. auto.
    - rewrite list_lookup_insert_ne by done. auto. }
  intros Hf j Hj c Hc. destruct (decide (j = i)) as [->|Hne]; [left; eauto|].
  destruct (pieces_ t !! j) as [c0|] eqn:E0.
  2: { apply lookup_ge_None in E0. apply lookup_lt_Some in Hc.
       apply (f_equal length) in Hids. rewrite !length_fmap in Hids. lia. }
  specialize (Hj c0 E0). specialize (Hrd Hf j Hne).
  apply (f_equal (lookup j)) in Hfl, Hids. unfold flags in Hfl. unfold ready_flags in Hrd.
  rewrite list_lookup_insert_ne in Hfl by done.
  rewrite !list_lookup_fmap, Hc, E0 in *. simplify_eq/=.
  unfold settled in *. by rewrite Hfl, Hids, Hrd.
Qed.

Lemma exec_pass_spec par pending idxs ret nc s r s' :
  exec_pass par pending idxs (ret, nc) s = Done (r, s') ->
  advanced pending nc r.2 (tx s) (tx s') /\
  (r.2 = false -> forall j, j ∈ idxs -> settled_at pending (tx s') j).
Proof.
  revert ret nc s. induction idxs as [|i idxs IH]; intros ret nc s Hrun.
  { injection Hrun as <- <-. split; [apply advanced_refl | set_solver]. }
  cbn [exec_pass] in Hrun. apply bind_done in Hrun as ([ret1 nc1] & s1 & Hp & Hrun).
  apply IH in Hrun as [Hadv Hset].
  assert (advanced pending nc nc1 (tx s) (tx s1) /\ settled_at pending (tx s1) i) as [Ha Hs].
  { apply exec_piece_spec in Hp as [(-> & [= -> ->] & Hs)|Hr].
    - split; [apply advanced_refl | exact Hs].
    - by apply ran_advanced in Hr. }
  split; [by eapply advanced_trans|]. intros Hf j [->|Hj]%elem_of_cons; [|auto].
  by eapply adv_settled.
Qed.
Lemma advanced_runnable pending nc nc' t t' :
  advanced pending nc nc' t t' -> runnable t -> runnable t'.
Proof. intros Ha [Ho Hr]. split; [by eapply adv_output|]. by rewrite (adv_regs _ _ _ _ _ Ha). Qed.

Lemma exec_piece_total par pending i acc s :
  runnable (tx s) -> exists r s', exec_piece par pending i acc s = Done (r, s').
Proof.
  intros [[o Ho] Hreg]. unfold exec_piece. destruct acc as [ret nc]. unfold mbind at 1, M_bind. cbn [gets].
  destruct (pieces_ (tx s) !! i) as [c|] eqn:Ec; [|by eexists _, _].
  destruct (_ && _ && _); [|by eexists _, _].
  assert (is_Some (reg_get c)) as [[d h] Er].
  { rewrite Forall_fmap, Forall_lookup in Hreg. by apply (Hreg i). }
  assert (exists out s1, DispatchExecute i c s = Done (out, s1) /\ dist_output_ (tx s1) = Some o)
    as (out & s1 & Hd & Ho1).
  { unfold DispatchExecute, mbind, M_bind. cbn [modify]. rewrite Er. cbn.
    destruct d; [unfold state; cbn; destruct (h c (tx_db s)) as [[ws db] o']..|];
      eexists _, _; (split; [reflexivity|]); exact Ho. }
  unfold mbind at 1, M_bind. rewrite Hd. unfold mbind, M_bind. cbn [modify gets].
  destruct (smem par _); cbn [state mret M_ret gets].
  - unfold MergeCheckReadyPieces. destruct (merge_output out _) as [ps more]. cbn.
    rewrite Ho1. by eexists _, _.
  - cbn. rewrite Ho1. by eexists _, _.
Qed.

Lemma exec_pass_total par pending idxs acc s :
  runnable (tx s) -> exists r s', exec_pass par pending idxs acc s = Done (r, s').
Proof.
  revert acc s. induction idxs as [|i idxs IH]; intros [ret nc] s Hr; [by eexists _, _|].
  destruct (exec_piece_total par pending i (ret, nc) s Hr) as (r1 & s1 & E).
  cbn [exec_pass]. unfold mbind, M_bind. rewrite E. apply IH.
  apply exec_piece_spec in E as [(-> & _)|E]; [done|].
  apply ran_advanced in E as [E _]. by eapply advanced_runnable.
Qed.

Lemma exec_loop_spec par pending fuel ret s r s' :
  exec_loop fuel par pending ret s = Done (r, s') ->
  advanced pending false false (tx s) (tx s') /\ forall j, settled_at pending (tx s') j.
Proof.
  revert ret s. induction fuel as [|fuel IH]; intros ret s Hrun; [done|].
  cbn [exec_loop] in Hrun. apply bind_done in Hrun as (n & s0 & [= <- <-] & Hrun).
  apply bind_done in Hrun as ([ret1 nc1] & s1 & E & Hrun).
  apply exec_pass_spec in E as [Ha Hset]. simpl in Ha, Hset. destruct nc1.
  - apply IH in Hrun as [Ha2 Hset2]. split; [|done].
    destruct Ha, Ha2. split; auto; try congruence; try lia. by eapply runs_free_trans.
  - injection Hrun as <- <-. split; [done|]. intros j c Hc.
    apply (Hset eq_refl j); [|done]. apply elem_of_seq. apply lookup_lt_Some in Hc.
    pose proof (f_equal length (adv_ids _ _ _ _ _ Ha)) as Hl. rewrite !length_fmap in Hl. lia.
Qed.

Lemma exec_piece_terminates par pending i acc : terminates (exec_piece par pending i acc).
Proof. unfold exec_piece, DispatchExecute. solve_terminates. Qed.
Lemma exec_pass_terminates par pending idxs acc : terminates (exec_pass par pending idxs acc).
Proof.
  revert acc. induction idxs as [|i idxs IH]; intros acc; cbn [exec_pass]; [done|].
  apply terminates_bind; [apply exec_piece_terminates | done].
Qed.

(** The loop ends: a pass that asks for another has executed a piece. *)
Lemma exec_loop_terminates par pending fuel ret s :
  (length (pieces_ (tx s)) < fuel + n_done (tx s))%nat ->
  exec_loop fuel par pending ret s ≠ OutOfFuel /\
  (runnable (tx s) -> exec_loop fuel par pending ret s ≠ Aborted).
Proof.
  revert ret s. induction fuel as [|fuel IH]; intros ret s Hfuel.
  { pose proof (ntrue_le (flags (pieces_ (tx s)))) as Hle. unfold flags in Hle.
    rewrite length_fmap in Hle. unfold n_done, flags in Hfuel. lia. }
  cbn [exec_loop]. unfold mbind, M_bind. cbn [gets].
  set (pass := exec_pass _ _ _ _).
  pose proof (exec_pass_terminates par pending _ _ s : pass s ≠ OutOfFuel) as Hpass.
  pose proof (exec_pass_total par pending _ _ s : runnable _ -> exists r s', pass s = _) as Htot.
  destruct (pass s) as [[[ret1 nc1] s1]| |] eqn:E; [|split; [done|]; naive_solver | done].
  apply exec_pass_spec in E as [Ha _]. simpl in Ha.
  assert (length (pieces_ (tx s1)) = length (pieces_ (tx s))) as Hlen.
  { pose proof (f_equal length (adv_ids _ _ _ _ _ Ha)) as Hl. by rewrite !length_fmap in Hl. }
  destruct nc1; [|done].
  destruct (adv_progress _ _ _ _ _ Ha) as [Hx|Hprog]; [done|].
  destruct (IH ret1 s1) as [H1 H2]; [rewrite Hlen; lia|]. split; [done|].
  intros Hr. apply H2. by eapply advanced_runnable.
Qed.

Lemma pending_fold_elem_of (ps : list SimpleCommand) pending x :
  x ∈ foldl (fun pending c =>
    if local_executed_ c then pending else sinsert (inn_id_ c) pending) pending ps <->
  x ∈ pending \/ exists c, c ∈ ps /\ local_executed_ c = false /\ inn_id_ c = x.
Proof.
  revert pending. induction ps as [|c ps IH]; intros pending; simpl.
  { split; [by left | by intros [?|(? & ?%not_elem_of_nil & _)]]. }
  rewrite IH. setoid_rewrite elem_of_cons. destruct (local_executed_ c) eqn:E.
  - split; [intros [?|(c' & ? & ? & ?)]; eauto 10|].
    intros [?|(c' & [->|?] & ? & ?)]; [eauto | congruence | eauto 10].
  - rewrite elem_of_sinsert. split; [intros [[->|?]|(c' & ? & ? & ?)]; eauto 10|].
    intros [?|(c' & [->|?] & ? & ?)]; eauto 10.
Qed.

(** The result of a run of the pieces. *)
Record exec_result (pending pending' : oset Z) (t t' : TxChronos) : Prop := {
  er_settled : forall c, c ∈ pieces_ t' -> settled pending c;
  er_count : n_executed_pieces t' = n_executed_pieces t + Z.of_nat (n_done t') - Z.of_nat (n_done t);
  er_ids : inn_id_ <$> pieces_ t' = inn_id_ <$> pieces_ t;
  er_regs : reg_get <$> pieces_ t' = reg_get <$> pieces_ t;
  er_output : is_Some (dist_output_ t) -> is_Some (dist_output_ t');
  er_pending : forall x, x ∈ pending' <-> x ∈ pending \/
    exists c, c ∈ pieces_ t' /\ local_executed_ c = false /\ inn_id_ c = x;
  er_ready : Forall ready_or_done (pieces_ t) -> Forall ready_or_done (pieces_ t');
  er_frame : tx_frame t' = (tx_frame t) <| exe_tried_ := true |>;
  er_free : runs_free pending t t';
}.

Lemma exec_done par pending s ret pending' s' :
  RecursiveExecuteReadyPieces par pending s = Done ((ret, pending'), s') ->
  exec_result pending pending' (tx s) (tx s').
Proof.
  unfold RecursiveExecuteReadyPieces. intros Hrun.
  apply bind_done in Hrun as ([] & s1 & [= <-] & Hrun).
  apply bind_done in Hrun as (n & s1 & [= <- <-] & Hrun).
  apply bind_done in Hrun as (r & s2 & E & Hrun).
  apply bind_done in Hrun as (ps & s3 & [= <- <-] & Hrun). injection Hrun as <- <- <-.
  apply exec_loop_spec in E as [Ha Hset]. destruct Ha. split; auto.
  - intros c [j Hj]%list_elem_of_lookup. by eapply Hset.
  - intros x. apply pending_fold_elem_of.
Qed.

Lemma exec_terminates par pending : terminates (RecursiveExecuteReadyPieces par pending).
Proof.
  unfold RecursiveExecuteReadyPieces. intros s. unfold mbind, M_bind. cbn [modify gets].
  set (s1 := s <| tx ::= _ |>).
  destruct (exec_loop_terminates par pending (S (length (pieces_ (tx s1)))) [] s1) as [H1 _]; [lia|].
  by destruct (exec_loop _ _ _ _ s1) as [[]| |].
Qed.

Lemma exec_total par pending s :
  runnable (tx s) ->
  exists ret pending' s', RecursiveExecuteReadyPieces par pending s = Done ((ret, pending'), s') /\
    exec_result pending pending' (tx s) (tx s').
Proof.
  intros Hr. pose proof (exec_terminates par pending s) as Hfuel.
  destruct (RecursiveExecuteReadyPieces par pending s) as [[[ret p] s']| |] eqn:E; [|exfalso|done].
  - exists ret, p, s'. split; [done|]. by eapply exec_done.
  - unfold RecursiveExecuteReadyPieces, mbind, M_bind in E. cbn [modify gets] in E.
    set (s1 := s <| tx ::= _ |>) in E.
    destruct (exec_loop_terminates par pending (S (length (pieces_ (tx s1)))) [] s1) as [_ H2]; [lia|].
    specialize (H2 Hr). by destruct (exec_loop _ _ _ _ s1) as [[]| |].
Qed.
End tx.

(** C7: running a transaction whose pieces are registered
    terminates without failing.  Afterwards every piece has run, or waits for an
    input, or conflicts with a pending piece; the counter of executed pieces has
    grown by the number of pieces run; and the pending set has gained exactly the
    pieces that did not run. *)
Theorem execution_completes `{Registry} cfg par pending s :
  runnable (tx s) ->
  exists ret pending' s',
    RecursiveExecuteReadyPieces cfg par pending s = Done ((ret, pending'), s') /\
    (forall c, c ∈ pieces_ (tx s') -> settled cfg pending c) /\
    n_executed_pieces (tx s') =
      n_executed_pieces (tx s) + Z.of_nat (n_done (tx s')) - Z.of_nat (n_done (tx s)) /\
    (forall x, x ∈ pending' <-> x ∈ pending \/
      exists c, c ∈ pieces_ (tx s') /\ local_executed_ c = false /\ inn_id_ c = x).
Proof.
  intros Hr. destruct (exec_total cfg par pending s Hr) as (ret & p & s' & E & []).
  exists ret, p, s'. auto.
Qed.

(** [MergeCheckReadyPieces] returns [false] only if no piece
    changed its readiness, and it never touches a piece that is ready, nor what a
    piece is or whether it has run. *)
Theorem merge_flips_ready `{Registry} out t :
  let '(t', ret) := MergeCheckReadyPieces out t in
  Forall2 piece_le (pieces_ t) (pieces_ t') /\
  (ret = false -> ready_flags (pieces_ t') = ready_flags (pieces_ t)).
Proof.
  unfold MergeCheckReadyPieces. destruct (merge_output_spec out (pieces_ t)) as [H1 H2].
  destruct (merge_output out (pieces_ t)) as [ps r]. auto.
Qed.
