(* ===== verification/ChrSched.v ===== *)
(** * The DAST scheduler of a site (src/deptran/chronos/scheduler.cc, scheduler.h)

    The state of [SchedulerChronos] and its operations, each as one atomic
    action: every handler holds [mtx_] for its whole body.  [sent_] is the
    sequence of RPCs and replies issued so far.  A pointer to a transaction is its
    id in [dtxns_]; transactions are never destroyed. *)
From stdpp Require Import base tactics numbers list sorting gmap.
From S2P Require Import Prelude OMap Command Config ChrTs ChrTypes ChrTx.

(** What a site runs in: the workload's pieces, the configuration, the system
    clock (microseconds, one reading per call), the successive results of [rand_r],
    and the content of the memory that is read before it is written. *)
Class Env := {
  env_reg :: Registry;
  cfg : Config;
  now : nat -> Z;
  rand_r : nat -> Z;
  junk_is_irt : bool;
  junk_n_local_pieces : Z;
  junk_clock_offset : Z;
}.

Section sched.
Context `{Env}.

Record Sched := mk_sched {
  site_id_ : Z;
  partition_id_ : Z;
  my_rid_ : Z;
  dtxns_ : gmap Z TxChronos;
  ready_txns_ : omap chr_ts_t Z;
  my_txns_ : omap chr_ts_t Z;
  distributed_txns_by_me_ : oset Z;
  dist_txn_tss_ : oset chr_ts_t;
  ir_site_max_ts : omap Z chr_ts_t;
  ir_site_notified_ts : omap Z chr_ts_t;
  ir_site_wait_ts_ : omap chr_ts_t (oset Z);
  local_replicas_ : oset Z;
  new_input_ : bool;
  last_clock_ : chr_ts_t;
  clock_offset_ : Z;
  ir_synced : omap Z bool;
  n_replicas : Z;
  sites_per_region_ : Z;
  max_future_ts_ : chr_ts_t;
  db_ : Db;
  clock_reads_ : nat;
  rand_reads_ : nat;
  sent_ : list Msg;
}.

#[export] Instance Eta_sched : Eta Sched :=
  fun r => mk_sched (site_id_ r) (partition_id_ r) (my_rid_ r) (dtxns_ r) (ready_txns_ r)
    (my_txns_ r) (distributed_txns_by_me_ r) (dist_txn_tss_ r) (ir_site_max_ts r)
    (ir_site_notified_ts r) (ir_site_wait_ts_ r) (local_replicas_ r) (new_input_ r)
    (last_clock_ r) (clock_offset_ r) (ir_synced r) (n_replicas r) (sites_per_region_ r)
    (max_future_ts_ r) (db_ r) (clock_reads_ r) (rand_reads_ r) (sent_ r).

Definition max_pending_txns_ : Z := 5.

(** ** Construction *)

(** The constructor, then the fields that [ServerWorker::SetupBase] assigns. *)
Definition new_SchedulerChronos (site : SiteInfo) (db : Db) : option Sched :=
  reps ← SitesByPartitionId cfg (si_partition_id_ site);
  let others := filter (fun s => si_id s ≠ si_id site) in
  let region := si_id <$> others (SitesInMyRegion cfg (si_id site)) in
  if (length (replica_groups_ cfg) =? 0)%nat then None
  else Some {|
    site_id_ := si_id site;
    partition_id_ := si_partition_id_ site;
    my_rid_ := si_id site / (n_shard_per_region_ cfg * N_REP_PER_SHARD);
    dtxns_ := ∅;
    ready_txns_ := [];
    my_txns_ := [];
    distributed_txns_by_me_ := [];
    dist_txn_tss_ := [];
    ir_site_max_ts := foldl (fun m id => insert id ts_zero m) [] region;
    ir_site_notified_ts := [];
    ir_site_wait_ts_ := [];
    local_replicas_ := sinsert_range (si_id <$> others reps) [];
    new_input_ := false;
    last_clock_ := ts_zero;
    clock_offset_ := junk_clock_offset;
    ir_synced := foldl (fun m id => insert id false m) [] region;
    n_replicas := group0_size cfg;
    sites_per_region_ := u32 (n_shard_per_region_ cfg * N_REP_PER_SHARD);
    max_future_ts_ := ts_zero;
    db_ := db;
    clock_reads_ := 0;
    rand_reads_ := 0;
    sent_ := [];
  |}.

(** ** Access to the transactions (src/deptran/scheduler.cc) *)

Definition new_tx (tid : Z) : TxChronos := new_TxChronos junk_is_irt junk_n_local_pieces tid.

(** [*dtxn], for a pointer that is in the table *)
Definition txn (s : Sched) (id : Z) : TxChronos := default (new_tx id) (dtxns_ s !! id).

Definition set_txn (id : Z) (f : TxChronos -> TxChronos) : M Sched () :=
  modify (fun s => s <| dtxns_ ::= alter f id |>).

Definition send (m : Msg) : M Sched () := modify (fun s => s <| sent_ ::= fun l => l ++ [m] |>).

Definition GetDTxn (tid : Z) : M Sched (option TxChronos) := gets (fun s => dtxns_ s !! tid).

Definition CreateDTxn (tid : Z) : M Sched () :=
  s ← get;
  verify (bool_decide (dtxns_ s !! tid = None));;
  modify (fun s => s <| dtxns_ ::= <[tid := new_tx tid]> |>).

Definition GetOrCreateDTxn (tid : Z) : M Sched () :=
  d ← GetDTxn tid;
  match d with
  | None => CreateDTxn tid
  | Some _ => mret ()
  end.

(** ** Timestamps *)

Definition read_clock : M Sched Z :=
  state (fun s => (now (clock_reads_ s), s <| clock_reads_ ::= S |>)).

Definition GenerateChrTs (for_local : bool) : M Sched chr_ts_t :=
  t ← read_clock;
  state (fun s =>
    let ts := i64 (t + clock_offset_ s) in
    let ret := mk_ts ts ts (i16 (site_id_ s)) in
    if negb for_local then
      (if ts_lt ret (last_clock_ s)
       then ret <| timestamp_ := i64 (timestamp_ (last_clock_ s) + 1) |> else ret, s)
    else
      let ret :=
        match dist_txn_tss_ s with
        | low_dist_ts :: _ =>
          if negb (ts_lt ret low_dist_ts)
          then ret <| timestamp_ := i64 (timestamp_ low_dist_ts - 1) |> else ret
        | [] => ret
        end in
      let ret :=
        if negb (ts_gt ret (last_clock_ s))
        then (last_clock_ s) <| stretch_counter_ ::= fun c => i64 (c + 1) |> else ret in
      (ret, s <| last_clock_ := ret |>)).

(** ** Notifications between the sites of a region *)

(** What the loop of [CollectNotifyTxns] pushes for one transaction. *)
Definition notify_info (s : Sched) (target_par : Z) (e : chr_ts_t * Z) : option ChrTxnInfo :=
  let t := txn s e.2 in
  if is_irt_ t && count target_par (dist_partition_acks_ t)
  then Some (mk_info (tid_ t) e.1 (site_id_ s)) else None.

Definition CollectNotifyTxns (target_site target_par : Z) : M Sched (list ChrTxnInfo) :=
  state (fun s =>
    let '(from, notified) := index ts_zero target_site (ir_site_notified_ts s) in
    (List.flat_map (fun e => option_list (notify_info s target_par e))
       (upper_bound from (my_txns_ s)),
     s <| ir_site_notified_ts := notified |> <| ir_synced ::= insert target_site true |>)).

(** The sites a timestamp waits for, after a site has reported [remote_ts]: entries
    up to it no longer wait for the site, and those that wait for nobody are
    removed, here and from [dist_txn_tss_]. *)
Fixpoint unblock (remote_site : Z) (remote_ts : chr_ts_t) (w : omap chr_ts_t (oset Z))
    (d : oset chr_ts_t) : omap chr_ts_t (oset Z) * oset chr_ts_t :=
  match w with
  | [] => ([], d)
  | (ts, sites) :: w' =>
    if ts_lt remote_ts ts then (w, d)
    else
      match serase remote_site sites with
      | [] => unblock remote_site remote_ts w' (serase ts d)
      | sites' => let '(w2, d2) := unblock remote_site remote_ts w' d in ((ts, sites') :: w2, d2)
      end
  end.

(** A transaction another site told us about. *)
Definition handle_notified (remote_site : Z) (info : ChrTxnInfo) : M Sched () :=
  d ← GetDTxn (info_txn_id info);
  match d with
  | Some _ => mret ()
  | None =>
    GetOrCreateDTxn (info_txn_id info);;
    set_txn (info_txn_id info) (fun t => t <| ts_ := info_ts info |> <| handler_site_ := remote_site |>
      <| region_handler_ := info_region_leader info |> <| chr_phase_ := LOCAL_CAN_EXE |>);;
    modify (fun s => s <| ready_txns_ ::= insert (info_ts info) (info_txn_id info) |>)
  end.

(** A clock that is ahead of what was known of the site: the offset of the own
    clock follows it, and the timestamps it has passed are released. *)
Definition adopt_remote_ts (remote_site : Z) (remote_ts : chr_ts_t) : M Sched () :=
  my_ts ← GenerateChrTs false;
  when (timestamp_ my_ts <? timestamp_ remote_ts)
    (modify (fun s => s <| clock_offset_ ::= fun o =>
       i64 (o + i64 (timestamp_ remote_ts - timestamp_ my_ts)) |>));;
  modify (fun s => s <| ir_site_max_ts ::= insert remote_site remote_ts |>);;
  modify (fun s =>
    let '(w, d) := unblock remote_site remote_ts (ir_site_wait_ts_ s) (dist_txn_tss_ s) in
    s <| ir_site_wait_ts_ := w |> <| dist_txn_tss_ := d |>).

Definition HandlePiggyInfo (remote_site : Z) (remote_ts : chr_ts_t) (noti_txns : list ChrTxnInfo)
    (remote_delivered_ts : chr_ts_t) : M Sched () :=
  for_each noti_txns (handle_notified remote_site);;
  modify (fun s => s <| ir_site_notified_ts ::= fun m =>
    let '(cur, m) := index ts_zero remote_site m in
    if ts_lt cur remote_delivered_ts then insert remote_site remote_delivered_ts m else m |>);;
  cur ← state (fun s => let '(cur, m) := index ts_zero remote_site (ir_site_max_ts s) in
                        (cur, s <| ir_site_max_ts := m |>));
  when (ts_lt cur remote_ts) (adopt_remote_ts remote_site remote_ts).

(** ** Execution *)

(** Runs a method of a transaction on its fields and on the database. *)
Definition on_txn {A} (id : Z) (m : M TxSt A) : M Sched A := fun s =>
  match m (mk_txst (txn s id) (db_ s)) with
  | Done (a, st) => Done (a, s <| dtxns_ ::= <[id := tx st]> |> <| db_ := tx_db st |>)
  | Aborted => Aborted
  | OutOfFuel => OutOfFuel
  end.

(** [RecursiveExecuteReadyPieces], then [SendOutput] to the other partitions that
    need an output. *)
Definition run_pieces (id : Z) (pending_pieces : oset Z) : M Sched (oset Z) :=
  me ← gets partition_id_;
  '(output_to_send, pending_pieces) ←
    on_txn id (RecursiveExecuteReadyPieces cfg me pending_pieces);
  for_each output_to_send (fun pair =>
    when (negb (pair.1 =? me)) (send (SendOutput pair.1 (mk_SendOutputReq id pair.2))));;
  mret pending_pieces.

Definition is_finished (id : Z) : M Sched bool :=
  gets (fun s => n_local_pieces_ (txn s id) =? n_executed_pieces (txn s id)).

(** the output buffer a reply carries: a null [dist_output_] cannot be read *)
Definition output_of (id : Z) : M Sched TxnOutput :=
  o ← gets (fun s => dist_output_ (txn s id)); from_option o.

(** src/deptran/chronos/tx.cc *)
Definition CheckSendOutputToClient (id : Z) : M Sched () :=
  t ← gets (fun s => txn s id);
  if bool_decide (chr_phase_ t = OUTPUT_SENT) then mret ()
  else
    let all_output_received :=
      forallb (fun pair => negb (status_Z pair.2 <? status_Z P_OUTPUT_RECEIVED))
        (dist_partition_status_ t) in
    when all_output_received
      (match send_output_client t with
       | SC_unassigned => abort
       | SC_OnSubmitCRT => out ← output_of id; send (ReplySubmit id out)
       end;;
       set_txn id (fun t => t <| chr_phase_ := OUTPUT_SENT |>)).

(** The closures kept in [execute_callback_]: whether the transaction has
    finished, and the pending pieces. *)
Definition cb_HandleIRT (id : Z) (pending : oset Z) : M Sched (bool * oset Z) :=
  pending ← run_pieces id pending;
  finished ← is_finished id;
  when finished (out ← output_of id; send (ReplySubmit id out));;
  mret (finished, pending).

Definition cb_OnSubmitCRT (id : Z) (pending : oset Z) : M Sched (bool * oset Z) :=
  t ← gets (fun s => txn s id);
  pending ← (if (length (pieces_ t) =? 0)%nat then mret pending else run_pieces id pending);
  finished ← is_finished id;
  when finished
    (s ← get;
     verify (smem id (distributed_txns_by_me_ s));;
     modify (fun s => s <| distributed_txns_by_me_ ::= serase id |>);;
     set_txn id (fun t => t <| dist_partition_status_ ::= insert (partition_id_ s) P_OUTPUT_RECEIVED |>);;
     modify (fun s => s <| dist_txn_tss_ ::= serase (ts_ (txn s id)) |>);;
     CheckSendOutputToClient id);;
  mret (finished, pending).

Definition cb_OnPrepareIRT (id : Z) (pending : oset Z) : M Sched (bool * oset Z) :=
  pending ← run_pieces id pending;
  finished ← is_finished id;
  mret (finished, pending).

Definition cb_OnPrepareCRT (id : Z) (pending : oset Z) : M Sched (bool * oset Z) :=
  pending ← run_pieces id pending;
  finished ← is_finished id;
  cb ← gets (fun s => send_output_to_handler_ (txn s id));
  when finished
    (match cb with
     | SO_unassigned => mret ()
     | SO_OnDistExe => out ← output_of id; send (ReplyDistExe id 1 out)
     end);;
  mret (finished, pending).

Definition execute_callback (id : Z) (pending : oset Z) : M Sched (bool * oset Z) :=
  cb ← gets (fun s => execute_callback_ (txn s id));
  match cb with
  | EC_unassigned => mret (false, pending)
  | EC_HandleIRT => cb_HandleIRT id pending
  | EC_OnSubmitCRT => cb_OnSubmitCRT id pending
  | EC_OnPrepareIRT => cb_OnPrepareIRT id pending
  | EC_OnPrepareCRT => cb_OnPrepareCRT id pending
  end.

(** The guards at the head of the loop: some site of the region has not passed
    the commit timestamp, or the transaction may not run yet. *)
Definition must_wait (s : Sched) (id : Z) : bool :=
  existsb (fun c => negb (ts_gt c.2 (commit_ts_ (txn s id)))) (ir_site_max_ts s)
  || (phase_Z (chr_phase_ (txn s id)) <? PHASE_CAN_EXE).

(** The loop over [ready_txns_]; nothing in its body adds or removes an entry but
    the [erase] at the iterator, so it visits the entries present at its start. *)
Fixpoint check_executable (entries : omap chr_ts_t Z) (pending : oset Z) (found_pending : Z) :
    M Sched () :=
  match entries with
  | [] => mret ()
  | (ts, id) :: entries =>
    s ← get;
    if must_wait s id then mret ()
    else if region_handler_ (txn s id) =? site_id_ s then
      '(finished, pending) ←
        (if negb (exe_tried_ (txn s id)) || new_input_ s then execute_callback id pending
         else mret (false, pending));
      if (finished : bool) then
        modify (fun s => s <| ready_txns_ ::= erase ts |> <| new_input_ := true |>);;
        check_executable entries pending found_pending
      else if found_pending + 1 >? max_pending_txns_ then mret ()
      else check_executable entries pending (found_pending + 1)
    else
      '(_, pending) ← execute_callback id pending;
      modify (fun s => s <| ready_txns_ ::= erase ts |>);;
      check_executable entries pending found_pending
  end.

Definition CheckExecutableTxns : M Sched () :=
  entries ← gets ready_txns_;
  check_executable entries [] 0;;
  modify (fun s => s <| new_input_ := false |>).

(** ** Transactions of one region *)

(** The [while] of Step 1: each round takes a later timestamp, so the entries of
    [ready_txns_] bound the number of rounds. *)
Fixpoint fresh_ts (fuel : nat) (ts : chr_ts_t) : M Sched chr_ts_t :=
  r ← gets (fun s => find ts (ready_txns_ s));
  match r with
  | None => mret ts
  | Some prev =>
    match fuel with
    | O => out_of_fuel
    | S fuel =>
      ph ← gets (fun s => chr_phase_ (txn s prev));
      verify (bool_decide (ph = DIST_CAN_EXE));;
      ts ← GenerateChrTs true;
      fresh_ts fuel ts
    end
  end.

(** Step 3 for one partition: [PrepareIRT] to its sites but this one. *)
Definition send_prepare_irt (txn_id : Z) (ts : chr_ts_t) (item : Z * list SimpleCommand) : M Sched () :=
  let target_par := item.1 in
  set_txn txn_id (fun t => t <| dist_partition_acks_ ::= insert target_par [] |>);;
  sites ← from_option (SitesByPartitionId cfg target_par);
  for_each sites (fun p =>
    me ← gets site_id_;
    when (negb (si_id p =? me))
      (infos ← CollectNotifyTxns (si_id p) target_par;
       send (SendPrepareIRT target_par (si_id p) item.2 (mk_StoreLocalReq ts infos ts_zero)))).

Definition HandleIRT (cmds_by_par : omap Z (list SimpleCommand)) : M Sched () :=
  c ← from_option ('(_, cs) ← head cmds_by_par; head cs);
  let txn_id := root_id_ c in
  ts ← GenerateChrTs true;
  n ← gets (fun s => length (ready_txns_ s));
  ts ← fresh_ts n ts;
  CreateDTxn txn_id;;
  s ← get;
  pieces ← from_option (find (partition_id_ s) cmds_by_par);
  set_txn txn_id (fun t => t <| chr_phase_ := LOCAL_NOT_STORED |> <| ts_ := ts |>
    <| handler_site_ := site_id_ s |> <| region_handler_ := site_id_ s |> <| pieces_ := pieces |>
    <| n_local_pieces_ := Z.of_nat (length pieces) |> <| n_executed_pieces := 0 |>
    <| dist_output_ := Some [] |> <| is_irt_ := true |>
    <| execute_callback_ := EC_HandleIRT |>);;
  modify (fun s => s <| ready_txns_ ::= insert ts txn_id |> <| my_txns_ ::= insert ts txn_id |>);;
  for_each cmds_by_par (send_prepare_irt txn_id ts).

Definition OnSubmitTxn (cmds_by_par : omap Z (list SimpleCommand)) (is_irt : Z) : M Sched () :=
  when (negb (is_irt =? 0)) (HandleIRT cmds_by_par).

Definition PrepareIRTACK (txn_id target_par target_site : Z) (chr_res : ChronosStoreLocalRes) :
    M Sched () :=
  d ← GetDTxn txn_id;
  verify (bool_decide (d ≠ None));;
  HandlePiggyInfo target_site (sr_piggy_my_ts chr_res) (sr_piggy_my_pending_txns chr_res)
    (sr_piggy_delivered_ts chr_res);;
  ph ← gets (fun s => chr_phase_ (txn s txn_id));
  if bool_decide (ph = LOCAL_CAN_EXE) then mret ()
  else
    set_txn txn_id (fun t => t <| dist_partition_acks_ ::= fun m =>
      insert target_par (sinsert target_site (index [] target_par m).1) m |>);;
    s ← get;
    if forallb (fun p => negb (Z.of_nat (length p.2) <? Z.quot (n_replicas s - 1) 2))
         (dist_partition_acks_ (txn s txn_id)) then
      set_txn txn_id (fun t => t <| chr_phase_ := LOCAL_CAN_EXE |>);;
      CheckExecutableTxns
    else mret ().

Definition OnPrepareIRT (cmd : list SimpleCommand) (chr_req : ChronosStoreLocalReq) : M Sched () :=
  let ts := sl_txn_ts chr_req in
  let src_site := u16 (ts_site_id_ ts) in
  c ← from_option (head cmd);
  let txn_id := root_id_ c in
  src ← from_option (SiteById cfg src_site);
  let src_par := si_partition_id_ src in
  s ← get;
  verify (match find ts (ready_txns_ s) with Some id => tid_ (txn s id) =? txn_id | None => true end);;
  GetOrCreateDTxn txn_id;;
  set_txn txn_id (fun t => t <| ts_ := ts |> <| handler_site_ := src_site |>
    <| region_handler_ := if sites_for_same_par cfg (site_id_ s) src_site then src_site else site_id_ s |>
    <| chr_phase_ := LOCAL_CAN_EXE |> <| pieces_ := cmd |>
    <| n_local_pieces_ := Z.of_nat (length cmd) |> <| n_executed_pieces := 0 |>
    <| dist_output_ := Some [] |> <| is_irt_ := true |>
    <| execute_callback_ := EC_OnPrepareIRT |>);;
  modify (fun s => s <| ready_txns_ ::= insert ts txn_id |>);;
  HandlePiggyInfo src_site ts (sl_piggy_my_txns chr_req) (sl_piggy_delivered_ts chr_req);;
  CheckExecutableTxns;;
  my_ts ← GenerateChrTs true;
  infos ← CollectNotifyTxns src_site src_par;
  send (ReplyPrepareIRT txn_id (mk_StoreLocalRes my_ts infos ts)).

Definition OnIRSync (req : DastIRSyncReq) : M Sched () :=
  HandlePiggyInfo (ir_my_site req) (ir_txn_ts req) (ir_my_txns req) (ir_delivered_ts req);;
  CheckExecutableTxns.

(** One round of [IRSyncLoop]: the keys of [ir_synced] do not change in it. *)
Definition IRSyncLoop : M Sched () :=
  keys ← gets (fun s => (ir_synced s).*1);
  for_each keys (fun target_site =>
    synced ← gets (fun s => default false (find target_site (ir_synced s)));
    when (negb synced)
      (infos ← CollectNotifyTxns target_site (target_site / N_REP_PER_SHARD);
       delivered ← state (fun s => let '(d, m) := index ts_zero target_site (ir_site_max_ts s) in
                                   (d, s <| ir_site_max_ts := m |>));
       me ← gets site_id_;
       ts ← GenerateChrTs true;
       send (SendIRSync target_site (mk_IRSyncReq me ts infos delivered)));;
    modify (fun s => s <| ir_synced ::= insert target_site false |>)).

(** ** Transactions over several regions *)

(** The readiness of the input of each touched partition, and whether some piece
    204 of TPC-C waits for its input. *)
Definition crt_par_input_ready (cmds_by_region : omap Z (omap Z (list SimpleCommand))) : omap Z Z :=
  foldl (fun m r => foldl (fun m item => insert item.1 1 m) m r.2) [] cmds_by_region.

Definition TPCC_wait_input (cmds_by_region : omap Z (omap Z (list SimpleCommand))) : bool :=
  existsb (fun r => existsb (fun item => existsb (fun c =>
    (inn_id_ c =? 204) && (piece_input_ready_ (input c) =? 0)) item.2) r.2) cmds_by_region.

Definition OnSubmitCRT (cmds_by_region : omap Z (omap Z (list SimpleCommand))) : M Sched () :=
  c ← from_option ('(_, by_par) ← head cmds_by_region; '(_, cs) ← head by_par; head cs);
  let txn_id := root_id_ c in
  s ← get;
  verify (negb (smem txn_id (distributed_txns_by_me_ s)));;
  modify (fun s => s <| distributed_txns_by_me_ ::= sinsert txn_id |>);;
  GetOrCreateDTxn txn_id;;
  set_txn txn_id (fun t => t <| handler_site_ := site_id_ s |> <| region_handler_ := site_id_ s |>
    <| is_irt_ := false |>);;
  let wait := TPCC_wait_input cmds_by_region in
  when wait (set_txn txn_id (fun t => t <| input_ready_ := 0 |>));;
  let par_input_ready :=
    let m := crt_par_input_ready cmds_by_region in
    if wait then insert (partition_id_ s) 0 m else m in
  src_ts ← GenerateChrTs true;
  for_each cmds_by_region (fun itr =>
    send (SendPrepareRemote itr.2 itr.1 (mk_ProposeRemoteReq src_ts par_input_ready));;
    for_each itr.2 (fun pair =>
      set_txn txn_id (fun t => t <| dist_partition_status_ ::= insert pair.1 P_REMOTE_SENT |>
        <| dist_partition_acks_ ::= insert pair.1 [] |>
        <| dist_shard_mgr_acked_ ::= insert pair.1 false |>)));;
  set_txn txn_id (fun t => t <| chr_phase_ := DIST_REMOTE_SENT |>
    <| send_output_client := SC_OnSubmitCRT |>);;
  let rid := partition_id_ s / (n_replicas s * n_shard_per_region_ cfg) in
  let pieces := default [] (by_par ← find rid cmds_by_region; find (partition_id_ s) by_par) in
  set_txn txn_id (fun t => t <| pieces_ := pieces |> <| n_local_pieces_ := Z.of_nat (length pieces) |>
    <| n_executed_pieces := 0 |> <| dist_output_ := Some [] |>
    <| execute_callback_ := EC_OnSubmitCRT |>).

Definition max_anticipated (m : omap Z chr_ts_t) : chr_ts_t :=
  foldl (fun acc pair => if ts_gt pair.2 acc then pair.2 else acc) ts_zero m.

(** The notice to the manager of one touched region. *)
Definition send_noti_wait (id : Z) (max_ts : chr_ts_t) (r : Z) : M Sched () :=
  original ← state (fun s =>
    let '(o, m) := index ts_zero r (anticipated_ts_ (txn s id)) in
    (o, s <| dtxns_ ::= alter (fun t => t <| anticipated_ts_ := m |>) id |>));
  s ← get;
  if negb (AllPiecesInputReady (txn s id)) && (r =? my_rid_ s) then
    sites ← from_option (SitesByPartitionId cfg (partition_id_ s));
    send (SendNotiWait r (mk_NotiManagerWaitReq (tid_ (txn s id)) original 1 max_ts
            (sinsert_range (si_id <$> sites) [])))
  else send (SendNotiWait r (mk_NotiManagerWaitReq (tid_ (txn s id)) original 0 ts_zero [])).

Definition CheckRemotePrepared (id : Z) : M Sched () :=
  t ← gets (fun s => txn s id);
  when (forallb (fun s => negb (status_Z s.2 <? status_Z P_REMOTE_PREPARED)) (dist_partition_status_ t))
    (let max_ts := max_anticipated (anticipated_ts_ t) in
     modify (fun s => s <| dist_txn_tss_ ::= serase (ts_ t) |>);;
     set_txn id (fun t => t <| ts_ := max_ts |>);;
     when (negb (AllPiecesInputReady t)) (modify (fun s => s <| dist_txn_tss_ ::= sinsert max_ts |>));;
     _ ← GenerateChrTs true;
     s ← get;
     verify (negb (count max_ts (ready_txns_ s)));;
     modify (fun s => s <| ready_txns_ ::= insert max_ts id |>);;
     verify (bool_decide (chr_phase_ t = DIST_REMOTE_SENT));;
     set_txn id (fun t => t <| chr_phase_ := DIST_REMOTE_PREPARED |>);;
     for_each (dist_partition_status_ t) (fun pair =>
       send (SendDistExe pair.1 (mk_DistExeReq (tid_ t) max_ts)));;
     for_each (sinsert_range ((fun pair => pair.1 / n_shard_per_region_ cfg) <$> dist_partition_status_ t) [])
       (send_noti_wait id max_ts);;
     set_txn id (fun t => t <| chr_phase_ := DIST_CAN_EXE |>);;
     CheckExecutableTxns).

(** [dist_partition_acks_[par].insert(site)] *)
Definition add_ack (par site : Z) (t : TxChronos) : TxChronos :=
  t <| dist_partition_acks_ ::= fun m => insert par (sinsert site (index [] par m).1) m |>.

(** [status[par] == P_REMOTE_SENT && acks[par].size() >= (n_replicas + 1) / 2] *)
Definition remote_quorum (n par : Z) (t : TxChronos) : bool :=
  bool_decide ((index P_NOT_RECEIVED par (dist_partition_status_ t)).1 = P_REMOTE_SENT)
  && negb (Z.of_nat (length (index [] par (dist_partition_acks_ t)).1) <? Z.quot (n + 1) 2).

(** [dist_partition_status_[par] == ...] creates a missing entry. *)
Definition touch_status (par : Z) (t : TxChronos) : TxChronos :=
  t <| dist_partition_status_ ::= fun m => (index P_NOT_RECEIVED par m).2 |>.

Definition ProposeRemoteAck (txn_id par_id site_id : Z) (anticipated_ts : chr_ts_t) : M Sched () :=
  GetOrCreateDTxn txn_id;;
  s ← get;
  verify (count par_id (dist_partition_acks_ (txn s txn_id)));;
  set_txn txn_id (fun t => touch_status par_id
    ((add_ack par_id site_id t)
       <| anticipated_ts_ ::= insert (par_id / n_shard_per_region_ cfg) anticipated_ts |>));;
  s ← get;
  when (remote_quorum (n_replicas s) par_id (txn s txn_id))
    (set_txn txn_id (fun t => t <| dist_partition_status_ ::= insert par_id P_REMOTE_PREPARED |>);;
     CheckRemotePrepared txn_id).

Definition ProposeLocalACK (txn_id target_site my_site_id : Z) : M Sched () :=
  GetOrCreateDTxn txn_id;;
  s ← get;
  let par := partition_id_ s in
  verify (count par (dist_partition_acks_ (txn s txn_id)));;
  set_txn txn_id (fun t => touch_status par (add_ack par my_site_id t));;
  s ← get;
  let t := txn s txn_id in
  when (bool_decide ((index P_NOT_RECEIVED par (dist_partition_status_ t)).1 = P_LOCAL_SENT)
        && negb (Z.of_nat (length (index [] par (dist_partition_acks_ t)).1) <? Z.quot (n_replicas s - 1) 2))
    (set_txn txn_id (fun t => t <| dist_partition_status_ ::= insert par P_LOCAL_PREPARED |>);;
     verify (bool_decide (chr_phase_ t = DIST_REMOTE_PREPARED))).

Definition DistExeAck (txn_id par_id : Z) (out : TxnOutput) (is_region_leader : Z) : M Sched () :=
  when (negb (is_region_leader =? 0))
    (GetOrCreateDTxn txn_id;;
     for_each out (fun pair =>
       o ← output_of txn_id;
       verify (negb (count pair.1 o));;
       set_txn txn_id (fun t => t <| dist_output_ := Some (insert pair.1 pair.2 o) |>));;
     set_txn txn_id (fun t => t <| dist_partition_status_ ::= insert par_id P_OUTPUT_RECEIVED |>);;
     CheckSendOutputToClient txn_id).

Definition OnRemotePrepared (req : DastRemotePreparedReq) : M Sched () :=
  let par_id := rp_my_partition_id req in
  let txn_id := rp_txn_id req in
  GetOrCreateDTxn txn_id;;
  s ← get;
  verify (count par_id (dist_partition_acks_ (txn s txn_id)));;
  set_txn txn_id (fun t => touch_status par_id
    ((add_ack par_id (rp_my_site_id req) t)
       <| anticipated_ts_ ::= insert (par_id / n_shard_per_region_ cfg) (rp_anticipated_ts req) |>));;
  when (rp_shard_manager req =? rp_my_site_id req)
    (set_txn txn_id (fun t => t <| dist_shard_mgr_acked_ ::= insert par_id true |>));;
  s ← get;
  when (remote_quorum (n_replicas s) par_id (txn s txn_id))
    (acked ← state (fun s =>
       let '(a, m) := index false par_id (dist_shard_mgr_acked_ (txn s txn_id)) in
       (a, s <| dtxns_ ::= alter (fun t => t <| dist_shard_mgr_acked_ := m |>) txn_id |>));
     when acked
       (set_txn txn_id (fun t => t <| dist_partition_status_ ::= insert par_id P_REMOTE_PREPARED |>);;
        CheckRemotePrepared txn_id));;
  send (ReplyRemotePrepared txn_id).

Definition OnDistExe (chr_req : ChronosDistExeReq) : M Sched () :=
  let txn_id := de_txn_id chr_req in
  d ← GetDTxn txn_id;
  match d with
  | None => CreateDTxn txn_id
  | Some t =>
    modify (fun s => s <| dist_txn_tss_ ::= serase (ts_ t) |>);;
    set_txn txn_id (fun t => t <| chr_phase_ := DIST_CAN_EXE |>);;
    modify (fun s => s <| ready_txns_ ::= erase (ts_ t) |>);;
    let new_ts := de_decision_ts chr_req in
    s ← get;
    verify (negb (count new_ts (ready_txns_ s)));;
    modify (fun s => s <| ready_txns_ ::= insert new_ts txn_id |>);;
    set_txn txn_id (fun t => t <| ts_ := new_ts |>);;
    when (negb (AllPiecesInputReady t)) (modify (fun s => s <| dist_txn_tss_ ::= sinsert new_ts |>));;
    (if region_handler_ t =? site_id_ s then
       set_txn txn_id (fun t => t <| send_output_to_handler_ := SO_OnDistExe |>)
     else send (ReplyDistExe txn_id 0 []));;
    CheckExecutableTxns
  end.

Definition OnSendOutput (chr_req : ChronosSendOutputReq) : M Sched () :=
  let txn_id := so_txn_id chr_req in
  d ← GetDTxn txn_id;
  match d with
  | None => mret ()
  | Some _ =>
    set_txn txn_id (fun t => t <| input_ready_ := 2 |>);;
    s ← get;
    let t := txn s txn_id in
    when (negb (is_irt_ t))
      (when (AllPiecesInputReady t || (phase_Z (chr_phase_ t) >? phase_Z DIST_CAN_EXE))
         (modify (fun s => s <| dist_txn_tss_ ::= serase (ts_ t) |>));;
       send (SendNotiWait (my_rid_ s) (mk_NotiManagerWaitReq (tid_ t) (ts_ t) 0 ts_zero [])));;
    modify (fun s => s <| new_input_ := true |>);;
    more_to_run ← state (fun s =>
      let '(t, more) := MergeCheckReadyPieces (so_var_values chr_req) (txn s txn_id) in
      (more, s <| dtxns_ ::= <[txn_id := t]> |>));
    when (more_to_run && negb (phase_Z (chr_phase_ t) <? phase_Z LOCAL_CAN_EXE)) CheckExecutableTxns
  end;;
  send (ReplySendOutput txn_id).

(** [ir_site_wait_ts_[ts].insert(sites)] *)
Definition add_wait (ts : chr_ts_t) (sites : oset Z) : M Sched () :=
  modify (fun s => s <| ir_site_wait_ts_ ::= fun m => insert ts (sinsert_range sites (index [] ts m).1) m |>).

Definition OnNotiCRT (req : DastNotiCRTReq) : M Sched () :=
  d ← GetDTxn (nc_txn_id req);
  verify (bool_decide (d = None));;
  modify (fun s => s <| dist_txn_tss_ ::= sinsert (nc_anticipated_ts req) |>);;
  add_wait (nc_anticipated_ts req) (nc_touched_sites req).

Definition OnNotiCommit (req : DastNotiCommitReq) : M Sched () :=
  modify (fun s => s <| dist_txn_tss_ ::= serase (nm_original_ts req) |>
                     <| ir_site_wait_ts_ ::= erase (nm_original_ts req) |>);;
  when (nm_need_input_wait req =? 1)
    (modify (fun s => s <| dist_txn_tss_ ::= sinsert (nm_new_ts req) |>);;
     add_wait (nm_new_ts req) (nm_touched_sites req)).

Definition OnPrepareCRT (cmds : list SimpleCommand) (req : DastPrepareCRTReq) : M Sched () :=
  c ← from_option (head cmds);
  let txn_id := root_id_ c in
  let ts := pc_anticipated_ts req in
  s ← get;
  let par := partition_id_ s in
  verify (negb (smem ts (dist_txn_tss_ s)));;
  verify (negb (count ts (ready_txns_ s)));;
  d ← GetDTxn txn_id;
  match d with
  | Some t =>
    if bool_decide (chr_phase_ t = DIST_REMOTE_SENT) then
      (* this site is the coordinator *)
      set_txn txn_id (fun t => touch_status par
        ((add_ack par (site_id_ s) t) <| dist_shard_mgr_acked_ ::= insert par true |>
           <| anticipated_ts_ ::= insert (par / n_shard_per_region_ cfg) ts |> <| ts_ := ts |>));;
      modify (fun s => s <| dist_txn_tss_ ::= sinsert ts |>);;
      s ← get;
      when (remote_quorum (n_replicas s) par (txn s txn_id))
        (set_txn txn_id (fun t => t <| dist_partition_status_ ::= insert par P_REMOTE_PREPARED |>);;
         CheckRemotePrepared txn_id)
    else
      when (input_ready_ t =? 1) (set_txn txn_id (fun t => t <| input_ready_ := pc_input_ready req |>))
  | None =>
    modify (fun s => s <| dist_txn_tss_ ::= sinsert ts |>);;
    GetOrCreateDTxn txn_id;;
    set_txn txn_id (fun t => t <| ts_ := ts |> <| handler_site_ := pc_coord_site req |>
      <| region_handler_ := pc_shard_leader req |> <| pieces_ := cmds |>
      <| n_local_pieces_ := Z.of_nat (length cmds) |> <| n_executed_pieces := 0 |>
      <| dist_output_ := Some [] |> <| input_ready_ := pc_input_ready req |> <| is_irt_ := false |>
    <| execute_callback_ := EC_OnPrepareCRT |>);;
    modify (fun s => s <| ready_txns_ ::= insert ts txn_id |>);;
    send (SendRemotePrepared (pc_coord_site req)
      (mk_RemotePreparedReq txn_id (site_id_ s) par (pc_shard_leader req) ts))
  end.

(** ** The handlers of the earlier protocol that are still registered *)

Definition OnProposeLocal (cmds : list SimpleCommand) (req : DastProposeLocalReq) : M Sched () :=
  c ← from_option (head cmds);
  let txn_id := root_id_ c in
  let ts := pl_txn_ts req in
  s ← get;
  verify (negb (smem ts (dist_txn_tss_ s)));;
  modify (fun s => s <| dist_txn_tss_ ::= sinsert ts |>);;
  GetOrCreateDTxn txn_id;;
  set_txn txn_id (fun t => t <| ts_ := ts |> <| commit_ts_ := ts |> <| handler_site_ := pl_coord_site req |>
    <| region_handler_ := pl_shard_leader_site req |> <| pieces_ := cmds |>
    <| n_local_pieces_ := Z.of_nat (length cmds) |> <| n_executed_pieces := 0 |>
    <| dist_output_ := Some [] |>
    <| execute_callback_ := EC_OnPrepareCRT |>);;
  verify (negb (count ts (ready_txns_ s)));;
  modify (fun s => s <| ready_txns_ ::= insert ts txn_id |>);;
  send (ReplyProposeLocal (site_id_ s)).

(** [anticipated_ts] keeps its default value in the loop, whose condition then
    never changes: it is left at once or never. *)
Definition OnProposeRemote (cmds : list SimpleCommand) (req : ChronosProposeRemoteReq) : M Sched () :=
  c ← from_option (head cmds);
  let txn_id := root_id_ c in
  let src_site := u16 (ts_site_id_ (pr_src_ts req)) in
  _ ← GenerateChrTs true;
  modify (fun s => s <| distributed_txns_by_me_ ::= sinsert txn_id |>);;
  s ← get;
  (if smem ts_zero (dist_txn_tss_ s) || count ts_zero (ready_txns_ s) then out_of_fuel else mret ());;
  verify (ts_lt (last_clock_ s) ts_zero);;
  modify (fun s => s <| dist_txn_tss_ ::= sinsert ts_zero |>);;
  GetOrCreateDTxn txn_id;;
  set_txn txn_id (fun t => t <| ts_ := ts_zero |> <| commit_ts_ := ts_zero |> <| handler_site_ := src_site |>
    <| region_handler_ := site_id_ s |> <| pieces_ := cmds |>
    <| n_local_pieces_ := Z.of_nat (length cmds) |> <| n_executed_pieces := 0 |>
    <| dist_output_ := Some [] |>
    <| execute_callback_ := EC_OnPrepareCRT |>);;
  modify (fun s => s <| ready_txns_ ::= insert ts_zero txn_id |>);;
  for_each (local_replicas_ s) (fun target_site =>
    send (SendStoreRemote target_site cmds (mk_StoreRemoteReq src_site (site_id_ s) ts_zero)));;
  send (ReplyProposeRemote ts_zero).
End sched.
