(* ===== verification/ChrSchedInv.v ===== *)
(** * The invariant of the DAST scheduler

    [wf] says that the tables of a site refer to existing transactions, that the
    ordered containers are ordered, and that the counters of a transaction agree
    with its pieces.  Every operation of [ChrSched] keeps it, and none of them can
    run out of fuel. *)
From stdpp Require Import base tactics numbers list sorting gmap sets.
From S2P Require Import Prelude OMap Command Config ChrTs ChrTypes ChrTx ChrSched.

Section inv.
Context `{Env}.

(** ** Termination of the handlers *)

Lemma on_txn_terminates {A} id (m : M TxSt A) : terminates m -> terminates (on_txn id m).
Proof.
  intros Hm s. unfold on_txn. specialize (Hm (mk_txst (txn s id) (db_ s))).
  by destruct (m _) as [[a st]| |].
Qed.

Lemma run_pieces_terminates id pending : terminates (run_pieces id pending).
Proof.
  unfold run_pieces, send. solve_terminates. apply on_txn_terminates, exec_terminates.
Qed.

Lemma GenerateChrTs_terminates b : terminates (GenerateChrTs b).
Proof. unfold GenerateChrTs, read_clock. solve_terminates. Qed.
Lemma CreateDTxn_terminates id : terminates (CreateDTxn id).
Proof. unfold CreateDTxn. solve_terminates. Qed.
Lemma GetOrCreateDTxn_terminates id : terminates (GetOrCreateDTxn id).
Proof. unfold GetOrCreateDTxn, GetDTxn, CreateDTxn. solve_terminates. Qed.
#[local] Hint Resolve run_pieces_terminates GenerateChrTs_terminates CreateDTxn_terminates
  GetOrCreateDTxn_terminates : terminates.

Lemma CheckSendOutputToClient_terminates id : terminates (CheckSendOutputToClient id).
Proof. unfold CheckSendOutputToClient, output_of, send, set_txn. solve_terminates. Qed.
#[local] Hint Resolve CheckSendOutputToClient_terminates : terminates.

Lemma execute_callback_terminates id pending : terminates (execute_callback id pending).
Proof.
  unfold execute_callback, cb_HandleIRT, cb_OnSubmitCRT, cb_OnPrepareIRT, cb_OnPrepareCRT,
    is_finished, output_of, send, set_txn.
  solve_terminates.
Qed.
#[local] Hint Resolve execute_callback_terminates : terminates.

Lemma check_executable_terminates entries pending found :
  terminates (check_executable entries pending found).
Proof.
  revert pending found. induction entries as [|[ts id] entries IH]; intros pending found; simpl.
  { done. }
  solve_terminates.
Qed.
#[local] Hint Resolve check_executable_terminates : terminates.

Lemma CheckExecutableTxns_terminates : terminates CheckExecutableTxns.
Proof. unfold CheckExecutableTxns. solve_terminates. Qed.
Lemma HandlePiggyInfo_terminates site ts infos dts : terminates (HandlePiggyInfo site ts infos dts).
Proof. unfold HandlePiggyInfo, adopt_remote_ts, handle_notified, GetDTxn, set_txn. solve_terminates. Qed.
Lemma CollectNotifyTxns_terminates site par : terminates (CollectNotifyTxns site par).
Proof. unfold CollectNotifyTxns. solve_terminates. Qed.
#[local] Hint Resolve CheckExecutableTxns_terminates HandlePiggyInfo_terminates
  CollectNotifyTxns_terminates : terminates.

Lemma CheckRemotePrepared_terminates id : terminates (CheckRemotePrepared id).
Proof. unfold CheckRemotePrepared, send_noti_wait, send, set_txn. solve_terminates. Qed.
#[local] Hint Resolve CheckRemotePrepared_terminates : terminates.

(** ** Events *)

(** What a site can be asked to do: the RPCs it serves, the replies to its own
    RPCs, and the synchronisation timer. *)
Inductive Event :=
  | EvSubmitTxn (cmds_by_par : omap Z (list SimpleCommand)) (is_irt : Z)
  | EvSubmitCRT (cmds_by_region : omap Z (omap Z (list SimpleCommand)))
  | EvPrepareIRT (cmd : list SimpleCommand) (req : ChronosStoreLocalReq)
  | EvPrepareIRTACK (txn_id target_par target_site : Z) (res : ChronosStoreLocalRes)
  | EvIRSync (req : DastIRSyncReq)
  | EvIRSyncTimer
  | EvRemotePrepared (req : DastRemotePreparedReq)
  | EvDistExe (req : ChronosDistExeReq)
  | EvDistExeAck (txn_id par_id : Z) (out : TxnOutput) (is_region_leader : Z)
  | EvSendOutput (req : ChronosSendOutputReq)
  | EvNotiCRT (req : DastNotiCRTReq)
  | EvNotiCommit (req : DastNotiCommitReq)
  | EvPrepareCRT (cmds : list SimpleCommand) (req : DastPrepareCRTReq)
  | EvProposeLocal (cmds : list SimpleCommand) (req : DastProposeLocalReq)
  | EvProposeLocalACK (txn_id target_site my_site_id : Z)
  | EvProposeRemote (cmds : list SimpleCommand) (req : ChronosProposeRemoteReq)
  | EvProposeRemoteAck (txn_id par_id site_id : Z) (anticipated_ts : chr_ts_t).

Definition handle (e : Event) : M Sched () :=
  match e with
  | EvSubmitTxn cmds_by_par is_irt => OnSubmitTxn cmds_by_par is_irt
  | EvSubmitCRT cmds_by_region => OnSubmitCRT cmds_by_region
  | EvPrepareIRT cmd req => OnPrepareIRT cmd req
  | EvPrepareIRTACK txn_id par site res => PrepareIRTACK txn_id par site res
  | EvIRSync req => OnIRSync req
  | EvIRSyncTimer => IRSyncLoop
  | EvRemotePrepared req => OnRemotePrepared req
  | EvDistExe req => OnDistExe req
  | EvDistExeAck txn_id par out leader => DistExeAck txn_id par out leader
  | EvSendOutput req => OnSendOutput req
  | EvNotiCRT req => OnNotiCRT req
  | EvNotiCommit req => OnNotiCommit req
  | EvPrepareCRT cmds req => OnPrepareCRT cmds req
  | EvProposeLocal cmds req => OnProposeLocal cmds req
  | EvProposeLocalACK txn_id site my_site => ProposeLocalACK txn_id site my_site
  | EvProposeRemote cmds req => OnProposeRemote cmds req
  | EvProposeRemoteAck txn_id par site ts => ProposeRemoteAck txn_id par site ts
  end.

(** [SubmitTxn] looks for a free timestamp, which is treated apart, and
    [ProposeRemote] really can loop. *)
Definition loops (e : Event) : bool :=
  match e with EvSubmitTxn _ _ | EvProposeRemote _ _ => true | _ => false end.

Lemma handle_terminates e : loops e = false -> terminates (handle e).
Proof.
  destruct e; intros He; try discriminate He; cbn [handle];
    unfold OnSubmitCRT, OnPrepareIRT, PrepareIRTACK, OnIRSync, IRSyncLoop, OnRemotePrepared,
      OnDistExe, DistExeAck, OnSendOutput, OnNotiCRT, OnNotiCommit, OnPrepareCRT, OnProposeLocal,
      ProposeLocalACK, ProposeRemoteAck, GetDTxn, output_of, send, set_txn, add_wait;
    solve_terminates.
Qed.

(** Pieces that come off the wire have not been run. *)
Definition fresh_cmds (cmds : list SimpleCommand) : Prop :=
  Forall (fun c => local_executed_ c = false) cmds.

Definition event_ok (e : Event) : Prop :=
  match e with
  | EvSubmitTxn cmds_by_par _ => Forall (fun p => fresh_cmds p.2) cmds_by_par
  | EvSubmitCRT cmds_by_region => Forall (fun r => Forall (fun p => fresh_cmds p.2) r.2) cmds_by_region
  | EvPrepareIRT cmds _ | EvPrepareCRT cmds _ | EvProposeLocal cmds _ | EvProposeRemote cmds _ =>
    fresh_cmds cmds
  | _ => True
  end.

(** ** The invariant *)

Record wf_tx (id : Z) (t : TxChronos) : Prop := {
  wf_tid : tid_ t = id;
  wf_executed : n_executed_pieces t = Z.of_nat (n_done t);
  wf_callback : execute_callback_ t ≠ EC_unassigned ->
    n_local_pieces_ t = Z.of_nat (length (pieces_ t)) /\ is_Some (dist_output_ t);
  wf_status : sorted_keys (dist_partition_status_ t);
  wf_mgr_acked : sorted_keys (dist_shard_mgr_acked_ t);
  wf_acks : sorted_keys (dist_partition_acks_ t) /\ Forall (fun p => sorted_set p.2) (dist_partition_acks_ t);
  wf_anticipated : sorted_keys (anticipated_ts_ t);
}.

Record wf (s : Sched) : Prop := {
  wf_txns : forall id t, dtxns_ s !! id = Some t -> wf_tx id t;
  wf_ready : sorted_keys (ready_txns_ s);
  wf_ready_dom : forall ts id, (ts, id) ∈ ready_txns_ s -> is_Some (dtxns_ s !! id);
  wf_my : sorted_keys (my_txns_ s);
  wf_my_dom : forall ts id, (ts, id) ∈ my_txns_ s -> is_Some (dtxns_ s !! id);
  wf_by_me : sorted_set (distributed_txns_by_me_ s);
  wf_dist : sorted_set (dist_txn_tss_ s);
  wf_max : sorted_keys (ir_site_max_ts s);
  wf_notified : sorted_keys (ir_site_notified_ts s);
  wf_wait : sorted_keys (ir_site_wait_ts_ s);
  wf_synced : sorted_keys (ir_synced s);
}.

Lemma wf_new_tx id : wf_tx id (new_tx id).
Proof. split; try done; repeat constructor. Qed.

(** The invariant, and that the transactions [ids] exist. *)
Definition wfk (ids : list Z) (s : Sched) : Prop :=
  wf s /\ forall id, id ∈ ids -> is_Some (dtxns_ s !! id).

Lemma wf_upd_txn s id (f : TxChronos -> TxChronos) :
  wf s -> (forall t, wf_tx id t -> wf_tx id (f t)) -> wf (s <| dtxns_ ::= alter f id |>).
Proof.
  intros [] Hf. split; simpl; auto.
  - intros j t Hj. destruct (decide (j = id)) as [->|].
    + rewrite lookup_alter_eq in Hj. destruct (dtxns_ s !! id) eqn:E; simplify_eq/=. eauto.
    + rewrite lookup_alter_ne in Hj by done. eauto.
  - intros ts j Hj. destruct (decide (j = id)) as [->|].
    + rewrite lookup_alter_eq. apply fmap_is_Some. eauto.
    + rewrite lookup_alter_ne by done. eauto.
  - intros ts j Hj. destruct (decide (j = id)) as [->|].
    + rewrite lookup_alter_eq. apply fmap_is_Some. eauto.
    + rewrite lookup_alter_ne by done. eauto.
Qed.

Lemma wf_ins_txn s id t : wf s -> wf_tx id t -> wf (s <| dtxns_ ::= <[id := t]> |>).
Proof.
  intros [] Ht. split; simpl; auto.
  - intros j t' [[<- <-]|[_ Hj]]%lookup_insert_Some; auto.
  - intros ts j Hj. apply lookup_insert_is_Some'. right. eauto.
  - intros ts j Hj. apply lookup_insert_is_Some'. right. eauto.
Qed.

Lemma wfk_upd_txn ids s id (f : TxChronos -> TxChronos) :
  wfk ids s -> (forall t, wf_tx id t -> wf_tx id (f t)) -> wfk ids (s <| dtxns_ ::= alter f id |>).
Proof.
  intros [W D] Hf. split; [by apply wf_upd_txn|]. intros j Hj. simpl.
  destruct (decide (j = id)) as [->|].
  - rewrite lookup_alter_eq. apply fmap_is_Some. auto.
  - rewrite lookup_alter_ne by done. auto.
Qed.

Lemma wfk_ins_txn ids s id t :
  wfk ids s -> wf_tx id t -> wfk (id :: ids) (s <| dtxns_ ::= <[id := t]> |>).
Proof.
  intros [W D] Ht. split; [by apply wf_ins_txn|].
  intros j [->|Hj]%elem_of_cons; simpl; apply lookup_insert_is_Some'; auto.
Qed.

Lemma wfk_weaken ids ids' s : wfk ids s -> ids' ⊆ ids -> wfk ids' s.
Proof. intros [W D] Hsub. split; auto. Qed.

Lemma set_txn_wf ids id f :
  (forall t, wf_tx id t -> wf_tx id (f t)) -> preserves (wfk ids) (set_txn id f).
Proof. intros Hf. apply preserves_modify. intros s Hs. by apply wfk_upd_txn. Qed.

(** A change of the state that keeps the table of transactions, the queues of
    transactions, and the order of the containers. *)
Lemma modify_wf ids (f : Sched -> Sched) :
  (forall s, wf s -> wf (f s) /\ dtxns_ (f s) = dtxns_ s) -> preserves (wfk ids) (modify f).
Proof.
  intros Hf. apply preserves_modify. intros s [W D]. destruct (Hf s W) as [W' E].
  split; [done|]. by rewrite E.
Qed.

Lemma insert_ready_wf ids ts id :
  id ∈ ids -> preserves (wfk ids) (modify (fun s => s <| ready_txns_ ::= insert ts id |>)).
Proof.
  intros Hid. apply preserves_modify. intros s [W D]. split; [|done].
  destruct W. split; simpl; auto with omap.
  intros ts' id' [[= -> ->]|Hin]%insert_elem_of; eauto.
Qed.

Lemma bind_create {A} ids id (m : M Sched ()) (k : () -> M Sched A) :
  hoare (wfk ids) m (fun _ => wfk (id :: ids)) -> preserves (wfk (id :: ids)) (k ()) ->
  preserves (wfk ids) (m ≫= k).
Proof.
  intros Hm Hk. eapply hoare_bind; [exact Hm|]. intros [].
  eapply hoare_weaken; [exact Hk | done|]. intros a s Hs. eapply wfk_weaken; [exact Hs|]. set_solver.
Qed.

Lemma CreateDTxn_wf ids id : hoare (wfk ids) (CreateDTxn id) (fun _ => wfk (id :: ids)).
Proof.
  unfold CreateDTxn. intros s [] s' Hs Hrun.
  apply bind_done in Hrun as (s0 & s1 & [= <- <-] & Hrun).
  apply bind_done in Hrun as ([] & s1 & Hv & [= <-]).
  unfold verify in Hv. destruct (bool_decide _); [|done]. injection Hv as <-.
  apply wfk_ins_txn; [done | apply wf_new_tx].
Qed.

Lemma GetOrCreateDTxn_wf ids id : hoare (wfk ids) (GetOrCreateDTxn id) (fun _ => wfk (id :: ids)).
Proof.
  unfold GetOrCreateDTxn, GetDTxn. intros s [] s' Hs Hrun.
  apply bind_done in Hrun as (d & s1 & [= <- <-] & Hrun).
  destruct (dtxns_ s !! id) eqn:E.
  - injection Hrun as <-. destruct Hs as [W D]. split; [done|].
    intros j [->|Hj]%elem_of_cons; eauto.
  - eapply CreateDTxn_wf; eauto.
Qed.

Lemma bind_GetDTxn {A} ids id (k : option TxChronos -> M Sched A) :
  preserves (wfk ids) (k None) -> (forall t, preserves (wfk (id :: ids)) (k (Some t))) ->
  preserves (wfk ids) (GetDTxn id ≫= k).
Proof.
  intros Hn Hs s a s' [W D] Hrun. apply bind_done in Hrun as (d & s1 & [= <- <-] & Hrun).
  destruct (dtxns_ s !! id) as [t|] eqn:E.
  - eapply (wfk_weaken (id :: ids)); [|set_solver]. eapply (Hs t); [|exact Hrun].
    split; [done|]. intros j [->|Hj]%elem_of_cons; eauto.
  - eapply Hn; [|exact Hrun]. by split.
Qed.

(** Solves [wf_tx] of an updated transaction, and [wf] of a state whose plain
    fields or containers are updated. *)
Ltac wf_txn :=
  apply set_txn_wf; intros ?t [?Htid ?Hexe ?Hcb ?Hst ?Hmgr [?Hack ?Hacks] ?Hant];
  split; simpl; auto with omap.
Ltac wf_state :=
  apply modify_wf; intros ?s ?W; split; [|done];
  destruct W; split; simpl; auto with omap.

(** A transaction that has been looked up or created exists from there on. *)
Ltac wf_create :=
  idtac;
  match goal with
  | |- preserves (wfk _) (GetOrCreateDTxn _ ≫= _) => eapply bind_create; [apply GetOrCreateDTxn_wf|]
  | |- preserves (wfk _) (CreateDTxn _ ≫= _) => eapply bind_create; [apply CreateDTxn_wf|]
  | |- preserves (wfk _) (GetDTxn _ ≫= _) =>
    apply bind_GetDTxn; [cbv beta iota | intros ?; cbv beta iota]
  end.
Ltac solve_wf := solve_preserves_with wf_create.

Lemma send_wf ids m : preserves (wfk ids) (send m).
Proof. unfold send. wf_state. Qed.
Lemma GetDTxn_wf ids id : preserves (wfk ids) (GetDTxn id).
Proof. apply preserves_gets. Qed.
#[local] Hint Resolve send_wf GetDTxn_wf : preserves.

Lemma GenerateChrTs_wf ids b : preserves (wfk ids) (GenerateChrTs b).
Proof.
  unfold GenerateChrTs, read_clock. apply preserves_bind.
  - apply preserves_state. intros s [W D]. split; [|done]. by destruct W; split.
  - intros t. apply preserves_state. intros s [W D]. destruct (negb b); [done|].
    split; [|done]. by destruct W; split.
Qed.
#[local] Hint Resolve GenerateChrTs_wf : preserves.

Lemma run_wf_tx me pending id t db r st :
  wf_tx id t -> RecursiveExecuteReadyPieces cfg me pending (mk_txst t db) = Done (r, st) ->
  wf_tx id (tx st).
Proof.
  intros Ht Hrun. destruct r as [ret pending']. apply exec_done in Hrun as Hr. clear Hrun.
  destruct st as [t' db']. simpl in *. destruct Hr as [_ Hcount Hids _ Hout _ _ Hframe].
  assert (length (pieces_ t') = length (pieces_ t)) as Hlen.
  { apply (f_equal length) in Hids. by rewrite !length_fmap in Hids. }
  destruct Ht as [? Hexe Hcb ? ? ? ?].
  pose proof (f_equal tid_ Hframe). pose proof (f_equal execute_callback_ Hframe) as Hc.
  pose proof (f_equal n_local_pieces_ Hframe) as Hn.
  pose proof (f_equal dist_partition_status_ Hframe) as Hs.
  pose proof (f_equal dist_shard_mgr_acked_ Hframe) as Hm.
  pose proof (f_equal dist_partition_acks_ Hframe) as Ha.
  pose proof (f_equal anticipated_ts_ Hframe) as Hant.
  simpl in *. split; try congruence.
  - rewrite Hcount, Hexe. lia.
  - rewrite Hc, Hn, Hlen. intros Hne. destruct (Hcb Hne) as [? ?]. auto.
Qed.

Lemma txn_wf s id : wf s -> wf_tx id (txn s id).
Proof.
  intros W. unfold txn. destruct (dtxns_ s !! id) eqn:E; simpl; [by eapply wf_txns | apply wf_new_tx].
Qed.

Lemma on_txn_run_wf ids me pending id :
  preserves (wfk ids) (on_txn id (RecursiveExecuteReadyPieces cfg me pending)).
Proof.
  intros s r s' Hs Hrun. unfold on_txn in Hrun.
  destruct (RecursiveExecuteReadyPieces _ _ _ _) as [[r0 st]| |] eqn:E; [|done|done].
  injection Hrun as <- <-.
  eapply (wfk_weaken (id :: ids)); [|set_solver].
  assert (wfk (id :: ids) (s <| dtxns_ ::= <[id := tx st]> |>)) as [W D].
  { apply wfk_ins_txn; [done|]. eapply run_wf_tx; [|exact E]. apply txn_wf, Hs. }
  split; [|exact D]. by destruct W; split.
Qed.

Lemma run_pieces_wf ids id pending : preserves (wfk ids) (run_pieces id pending).
Proof. unfold run_pieces. solve_wf. apply on_txn_run_wf. Qed.
#[local] Hint Resolve run_pieces_wf : preserves.

Lemma CheckSendOutputToClient_wf ids id : preserves (wfk ids) (CheckSendOutputToClient id).
Proof. unfold CheckSendOutputToClient, output_of. solve_wf. wf_txn. Qed.
#[local] Hint Resolve CheckSendOutputToClient_wf : preserves.

Lemma execute_callback_wf ids id pending : preserves (wfk ids) (execute_callback id pending).
Proof.
  unfold execute_callback, cb_HandleIRT, cb_OnSubmitCRT, cb_OnPrepareIRT, cb_OnPrepareCRT,
    is_finished, output_of.
  solve_wf; try (by wf_state); wf_txn.
Qed.
#[local] Hint Resolve execute_callback_wf : preserves.

Lemma erase_ready_wf ids ts (f : Sched -> Sched) :
  (forall s, f s = s <| ready_txns_ ::= erase ts |> \/
             f s = s <| ready_txns_ ::= erase ts |> <| new_input_ := true |>) ->
  preserves (wfk ids) (modify f).
Proof.
  intros Hf. apply modify_wf. intros s W. destruct (Hf s) as [-> | ->]; (split; [|done]);
    destruct W; split; simpl; auto with omap; intros ts' id' [Hin _]%erase_elem_of; eauto.
Qed.

Lemma check_executable_wf ids entries pending found :
  preserves (wfk ids) (check_executable entries pending found).
Proof.
  revert pending found. induction entries as [|[ts id] entries IH]; intros pending found; simpl.
  { apply preserves_ret. }
  solve_wf; apply (erase_ready_wf _ ts); auto.
Qed.

Lemma CheckExecutableTxns_wf ids : preserves (wfk ids) CheckExecutableTxns.
Proof.
  unfold CheckExecutableTxns. solve_wf; [apply check_executable_wf | wf_state].
Qed.
#[local] Hint Resolve CheckExecutableTxns_wf : preserves.

Lemma unblock_keys site ts w d k : k ∈ (unblock site ts w d).1.*1 -> k ∈ w.*1.
Proof.
  revert d. induction w as [|[ts' sites] w IH]; intros d; simpl; [done|].
  destruct (ts_lt ts ts'); [done|]. destruct (serase site sites) as [|x l].
  - intros Hk. right. by eapply IH.
  - specialize (IH d). destruct (unblock site ts w d) as [w2 d2]. simpl in *.
    intros [->|Hk]%elem_of_cons; [left | right; auto].
Qed.

Lemma unblock_sorted site ts w d :
  sorted_keys w -> sorted_set d ->
  sorted_keys (unblock site ts w d).1 /\ sorted_set (unblock site ts w d).2.
Proof.
  revert d. induction w as [|[ts' sites] w IH]; intros d Hw Hd; simpl; [done|].
  destruct (ts_lt ts ts'); [done|]. unfold sorted_keys in Hw. simpl in Hw.
  apply StronglySorted_inv in Hw as [Hw Hall].
  destruct (serase site sites) as [|x l]; [apply IH; auto with omap|].
  pose proof (unblock_keys site ts w d) as Hk.
  destruct (IH d Hw Hd) as [H1 H2]. destruct (unblock site ts w d) as [w2 d2]. simpl in *.
  split; [|done]. unfold sorted_keys. simpl. constructor; [done|].
  apply Forall_forall. intros k Hk2. rewrite Forall_forall in Hall. auto.
Qed.

Lemma handle_notified_wf ids site info : preserves (wfk ids) (handle_notified site info).
Proof.
  unfold handle_notified. solve_wf.
  - wf_txn.
  - apply insert_ready_wf. set_solver.
Qed.
#[local] Hint Resolve handle_notified_wf : preserves.

Lemma HandlePiggyInfo_wf ids site ts infos dts :
  preserves (wfk ids) (HandlePiggyInfo site ts infos dts).
Proof.
  unfold HandlePiggyInfo, adopt_remote_ts. solve_wf.
  - wf_state. pose proof (sorted_index ts_zero site _ wf_notified0).
    destruct (index ts_zero site _) as [cur m]. destruct (ts_lt cur dts); auto with omap.
  - apply preserves_state. intros s [W D].
    pose proof (sorted_index ts_zero site _ (wf_max _ W)). destruct (index ts_zero site _) as [cur m].
    split; [|done]. by destruct W; split.
  - wf_state.
  - wf_state.
  - apply modify_wf. intros s W.
    pose proof (unblock_sorted site ts _ _ (wf_wait _ W) (wf_dist _ W)) as [H1 H2].
    destruct (unblock site ts _ _) as [w d]. split; [|done]. by destruct W; split.
Qed.

Lemma CollectNotifyTxns_wf ids site par : preserves (wfk ids) (CollectNotifyTxns site par).
Proof.
  apply preserves_state. intros s [W D].
  pose proof (sorted_index ts_zero site _ (wf_notified _ W)). destruct (index ts_zero site _) as [cur m].
  split; [|done]. destruct W; split; simpl; auto with omap.
Qed.
#[local] Hint Resolve HandlePiggyInfo_wf CollectNotifyTxns_wf : preserves.

Lemma send_noti_wait_wf ids id max_ts r : preserves (wfk ids) (send_noti_wait id max_ts r).
Proof.
  unfold send_noti_wait. solve_wf. apply preserves_state. intros s Hs.
  pose proof (sorted_index ts_zero r _ (wf_anticipated _ _ (txn_wf s id (proj1 Hs)))) as Hi.
  destruct (index ts_zero r _) as [o m]. apply wfk_upd_txn; [done|].
  intros t []. by split.
Qed.
#[local] Hint Resolve send_noti_wait_wf : preserves.

Lemma CheckRemotePrepared_wf ids id :
  id ∈ ids -> preserves (wfk ids) (CheckRemotePrepared id).
Proof.
  intros Hid. unfold CheckRemotePrepared. solve_wf;
    try (by wf_state); try (by apply insert_ready_wf); wf_txn.
Qed.

Lemma fresh_ts_wf ids fuel ts : preserves (wfk ids) (fresh_ts fuel ts).
Proof.
  revert ts. induction fuel as [|fuel IH]; intros ts; cbn [fresh_ts]; solve_wf.
  by intros ? ? ? _ ?.
Qed.
#[local] Hint Resolve fresh_ts_wf : preserves.

Lemma fresh_ntrue cmds : fresh_cmds cmds -> ntrue (flags cmds) = 0%nat.
Proof.
  unfold ntrue, flags. induction 1 as [|c cmds Hc _ IH]; [done|]. simpl. by rewrite Hc.
Qed.

(** A transaction that gets new pieces. *)
Lemma wf_tx_pieces id t t' :
  wf_tx id t -> fresh_cmds (pieces_ t') -> n_executed_pieces t' = 0 ->
  n_local_pieces_ t' = Z.of_nat (length (pieces_ t')) -> is_Some (dist_output_ t') ->
  tid_ t' = tid_ t -> dist_partition_status_ t' = dist_partition_status_ t ->
  dist_shard_mgr_acked_ t' = dist_shard_mgr_acked_ t -> dist_partition_acks_ t' = dist_partition_acks_ t ->
  anticipated_ts_ t' = anticipated_ts_ t -> wf_tx id t'.
Proof.
  intros [] Hf Hn Hl Ho Ht Hs Hm Ha Han. split; try congruence; auto.
  unfold n_done. by rewrite fresh_ntrue.
Qed.
Ltac wf_pieces := apply set_txn_wf; intros ?t ?Ht; eapply wf_tx_pieces; [eassumption | try (done || by eauto)..].

Lemma acks_insert_sorted m par (sites : oset Z) :
  Forall (fun p => sorted_set p.2) m -> sorted_set sites ->
  Forall (fun p : Z * oset Z => sorted_set p.2) (insert par sites m).
Proof.
  intros Hm Hs. apply Forall_forall. intros p [->|Hp]%insert_elem_of; [done|].
  rewrite Forall_forall in Hm. auto.
Qed.

Lemma acks_index_sorted m par :
  Forall (fun p : Z * oset Z => sorted_set p.2) m -> sorted_set (index [] par m).1.
Proof.
  intros Hm. unfold index. destruct (find par m) as [x|] eqn:E; simpl; [|constructor].
  apply find_elem_of in E. rewrite Forall_forall in Hm. by apply (Hm (par, x)).
Qed.

Lemma wf_add_ack id par site t : wf_tx id t -> wf_tx id (add_ack par site t).
Proof.
  intros [? ? ? ? ? [Hk Hs] ?]. split; try done. simpl. split; [auto with omap|].
  apply acks_insert_sorted; [done|]. apply sorted_sinsert. by apply acks_index_sorted.
Qed.

Lemma send_prepare_irt_wf ids txn_id ts item : preserves (wfk ids) (send_prepare_irt txn_id ts item).
Proof.
  unfold send_prepare_irt. solve_wf. wf_txn. split; [auto with omap|].
  apply acks_insert_sorted; [done|constructor].
Qed.
#[local] Hint Resolve send_prepare_irt_wf : preserves.

Lemma HandleIRT_wf ids cmds_by_par :
  Forall (fun p => fresh_cmds p.2) cmds_by_par -> preserves (wfk ids) (HandleIRT cmds_by_par).
Proof.
  intros Hf. unfold HandleIRT. solve_wf.
  - wf_pieces. simpl. rewrite Forall_forall in Hf.
    eapply (Hf (_, _)), find_elem_of. eassumption.
  - apply preserves_modify. intros s [W D]. split; [|done].
    destruct W. split; simpl; auto with omap;
      intros ts' id' [[= -> ->]|Hin]%insert_elem_of; eauto; apply D; set_solver.
Qed.

Lemma PrepareIRTACK_wf ids txn_id par site res : preserves (wfk ids) (PrepareIRTACK txn_id par site res).
Proof.
  unfold PrepareIRTACK. solve_wf.
  - apply set_txn_wf. intros t0. apply wf_add_ack.
  - wf_txn.
Qed.

Lemma OnPrepareIRT_wf ids cmd req : fresh_cmds cmd -> preserves (wfk ids) (OnPrepareIRT cmd req).
Proof.
  intros Hf. unfold OnPrepareIRT. solve_wf.
  - wf_pieces.
  - apply insert_ready_wf. set_solver.
Qed.

Lemma IRSyncLoop_wf ids : preserves (wfk ids) IRSyncLoop.
Proof.
  unfold IRSyncLoop. solve_wf.
  - apply preserves_state. intros s [W D].
    pose proof (sorted_index ts_zero x _ (wf_max _ W)). destruct (index ts_zero x _) as [cur m].
    split; [|done]. by destruct W; split.
  - wf_state.
Qed.

#[local] Hint Extern 1 (preserves (wfk _) (CheckRemotePrepared _)) =>
  apply CheckRemotePrepared_wf; set_solver : preserves.

Lemma wf_touch_status id par t : wf_tx id t -> wf_tx id (touch_status par t).
Proof. intros []. split; try done. simpl. auto with omap. Qed.

Lemma OnSubmitCRT_wf ids cmds_by_region :
  Forall (fun r => Forall (fun p => fresh_cmds p.2) r.2) cmds_by_region ->
  preserves (wfk ids) (OnSubmitCRT cmds_by_region).
Proof.
  intros Hf. unfold OnSubmitCRT. solve_wf; try (by wf_state); try (by wf_txn).
  - wf_txn. split; [auto with omap|]. apply acks_insert_sorted; [done|constructor].
  - wf_pieces. simpl. destruct (find _ cmds_by_region) as [by_par|] eqn:E1; simpl; [|constructor].
    destruct (find (partition_id_ _) by_par) as [cmds|] eqn:E2; simpl; [|constructor].
    apply find_elem_of in E1, E2. rewrite Forall_forall in Hf. specialize (Hf _ E1).
    rewrite Forall_forall in Hf. by specialize (Hf _ E2).
Qed.

Lemma ProposeRemoteAck_wf ids txn_id par site ts :
  preserves (wfk ids) (ProposeRemoteAck txn_id par site ts).
Proof.
  unfold ProposeRemoteAck. solve_wf; try (by wf_txn).
  apply set_txn_wf. intros t Ht. apply wf_touch_status.
  apply (wf_add_ack _ par site) in Ht as []. split; try done. simpl. auto with omap.
Qed.

Lemma ProposeLocalACK_wf ids txn_id site my_site : preserves (wfk ids) (ProposeLocalACK txn_id site my_site).
Proof.
  unfold ProposeLocalACK. solve_wf; try (by wf_txn).
  apply set_txn_wf. intros t Ht. by apply wf_touch_status, wf_add_ack.
Qed.

Lemma DistExeAck_wf ids txn_id par out leader : preserves (wfk ids) (DistExeAck txn_id par out leader).
Proof.
  unfold DistExeAck, output_of. solve_wf; wf_txn. intros Hne. split; [by apply Hcb | eauto].
Qed.

Lemma OnRemotePrepared_wf ids req : preserves (wfk ids) (OnRemotePrepared req).
Proof.
  unfold OnRemotePrepared. solve_wf; try (by wf_txn).
  - apply set_txn_wf. intros t Ht. apply wf_touch_status.
    apply (wf_add_ack _ (rp_my_partition_id req) (rp_my_site_id req)) in Ht as [].
    split; try done. simpl. auto with omap.
  - apply preserves_state. intros s Hs.
    pose proof (sorted_index false (rp_my_partition_id req) _
      (wf_mgr_acked _ _ (txn_wf s (rp_txn_id req) (proj1 Hs)))) as Hi.
    destruct (index false _ _) as [o m]. apply wfk_upd_txn; [done|]. intros t []. by split.
Qed.

Lemma OnDistExe_wf ids req : preserves (wfk ids) (OnDistExe req).
Proof.
  unfold OnDistExe. solve_wf; try (by wf_state); try (by wf_txn).
  - eapply hoare_weaken; [apply CreateDTxn_wf | done|]. intros [] s Hs.
    eapply wfk_weaken; [exact Hs | set_solver].
  - apply (erase_ready_wf _ (ts_ t)). auto.
  - apply insert_ready_wf. set_solver.
Qed.

Lemma merge_wf_tx id out t : wf_tx id t -> wf_tx id (MergeCheckReadyPieces out t).1.
Proof.
  intros []. unfold MergeCheckReadyPieces. destruct (merge_output_spec out (pieces_ t)) as [Hle _].
  destruct (merge_output out (pieces_ t)) as [ps r]. simpl in *.
  pose proof (piece_le_flags _ _ Hle) as Hfl. pose proof (Forall2_length _ _ _ Hle) as Hlen.
  split; try done; simpl; unfold n_done in *; simpl; [by rewrite Hfl|]. by rewrite <- Hlen.
Qed.

Lemma OnSendOutput_wf ids req : preserves (wfk ids) (OnSendOutput req).
Proof.
  unfold OnSendOutput. solve_wf; try (by wf_state); try (by wf_txn).
  apply preserves_state. intros s Hs.
  pose proof (merge_wf_tx (so_txn_id req) (so_var_values req) _ (txn_wf s _ (proj1 Hs))) as Hm.
  destruct (MergeCheckReadyPieces _ _) as [t' more].
  eapply (wfk_weaken (so_txn_id req :: _)); [by apply wfk_ins_txn | set_solver].
Qed.

Lemma add_wait_wf ids ts sites : preserves (wfk ids) (add_wait ts sites).
Proof. unfold add_wait. wf_state. Qed.
#[local] Hint Resolve add_wait_wf : preserves.

Lemma OnNotiCRT_wf ids req : preserves (wfk ids) (OnNotiCRT req).
Proof. unfold OnNotiCRT. solve_wf; wf_state. Qed.
Lemma OnNotiCommit_wf ids req : preserves (wfk ids) (OnNotiCommit req).
Proof. unfold OnNotiCommit. solve_wf; wf_state. Qed.

Lemma OnPrepareCRT_wf ids cmds req : fresh_cmds cmds -> preserves (wfk ids) (OnPrepareCRT cmds req).
Proof.
  intros Hf. unfold OnPrepareCRT. solve_wf; try (by wf_state); try (by wf_txn).
  - wf_pieces.
  - apply insert_ready_wf. set_solver.
  - apply set_txn_wf. intros t' Ht. apply wf_touch_status.
    apply (wf_add_ack _ (partition_id_ a0) (site_id_ a0)) in Ht as [].
    split; try done; simpl; auto with omap.
Qed.

Lemma OnProposeLocal_wf ids cmds req : fresh_cmds cmds -> preserves (wfk ids) (OnProposeLocal cmds req).
Proof.
  intros Hf. unfold OnProposeLocal. solve_wf; try (by wf_state).
  - wf_pieces.
  - apply insert_ready_wf. set_solver.
Qed.

Lemma OnProposeRemote_wf ids cmds req : fresh_cmds cmds -> preserves (wfk ids) (OnProposeRemote cmds req).
Proof.
  intros Hf. unfold OnProposeRemote. solve_wf; try (by wf_state); try (by intros ? ? ? _ ?).
  - wf_pieces.
  - apply insert_ready_wf. set_solver.
Qed.

(** Every event keeps the invariant. *)
Lemma handle_wf e : event_ok e -> preserves (wfk []) (handle e).
Proof.
  destruct e; cbn [handle event_ok]; intros He; auto using OnSubmitCRT_wf, OnPrepareIRT_wf,
    PrepareIRTACK_wf, IRSyncLoop_wf, OnRemotePrepared_wf, OnDistExe_wf, DistExeAck_wf,
    OnSendOutput_wf, OnNotiCRT_wf, OnNotiCommit_wf, OnPrepareCRT_wf, OnProposeLocal_wf,
    ProposeLocalACK_wf, OnProposeRemote_wf, ProposeRemoteAck_wf.
  - unfold OnSubmitTxn. solve_wf. by apply HandleIRT_wf.
  - unfold OnIRSync. solve_wf.
Qed.

(** ** Runs of a site *)

Inductive step (s : Sched) (e : Event) (s' : Sched) : Prop :=
  | step_handle : event_ok e -> handle e s = Done (tt, s') -> step s e s'.

Inductive reachable (site : SiteInfo) (db : Db) : Sched -> Prop :=
  | reach_init s : new_SchedulerChronos site db = Some s -> reachable site db s
  | reach_step s e s' : reachable site db s -> step s e s' -> reachable site db s'.

Lemma sorted_fill {V} (v : V) (l : list Z) : sorted_keys (foldl (fun m id => insert id v m) [] l).
Proof.
  assert (sorted_keys (@nil (Z * V))) as Hs by constructor. revert Hs.
  generalize (@nil (Z * V)). induction l as [|x l IH]; intros m Hm; simpl; auto with omap.
Qed.

Lemma new_wf site db s : new_SchedulerChronos site db = Some s -> wf s.
Proof.
  unfold new_SchedulerChronos. destruct (SitesByPartitionId _ _) as [reps|]; [|done]. simpl.
  destruct (_ =? 0)%nat; [done|]. intros [= <-].
  split; simpl; try (by constructor); try apply sorted_fill;
    first [intros ? ? Hin; by apply not_elem_of_nil in Hin | intros ? ? Hin; by rewrite lookup_empty in Hin].
Qed.

Lemma reachable_wf site db s : reachable site db s -> wf s.
Proof.
  induction 1 as [s Hs | s e s' _ IH [He Hrun]]; [by eapply new_wf|].
  apply (handle_wf e He s tt s'); [|done]. split; [done | set_solver].
Qed.

(** A sequence of events, in order. *)
Definition run (es : list Event) : M Sched () := for_each es handle.

Lemma reachable_run site db es s s' :
  reachable site db s -> Forall event_ok es -> run es s = Done (tt, s') -> reachable site db s'.
Proof.
  intros Hr Hes. revert s Hr. induction Hes as [|e es He _ IH]; intros s Hr Hrun.
  { by injection Hrun as <-. }
  unfold run in *. cbn [for_each] in Hrun. apply bind_done in Hrun as ([] & s1 & E & Hrun).
  eapply IH; [|exact Hrun]. eapply reach_step; [exact Hr|]. by split.
Qed.
End inv.
