(* ===== verification/ChrDemo.v ===== *)
(** * A small deployment

    Two regions of two shards with three replicas each, a database that counts
    the pieces run on it, and a clock that ticks once per reading and wraps around after a second: the concrete
    setting in which the theorems about the scheduler are instantiated. *)
From stdpp Require Import base tactics numbers list gmap.
From S2P Require Import Prelude OMap Command Config ChrTs ChrTypes ChrTx ChrSched ChrSchedInv.

(** A piece of type 7 outputs variable 100, one of type 8 outputs nothing. *)
Definition demo_handler (out : omap Z Value) (c : SimpleCommand) (db : Z) :
    TxnWorkspace * Z * omap Z Value := (input c, db + 1, out).

Definition demo_registry : Registry := {|
  Db := Z;
  txn_reg_ root_type type :=
    if type =? 7 then Some (DF_REAL, demo_handler [(100, V_I32 5)])
    else if type =? 8 then Some (DF_NO, demo_handler [])
    else None;
|}.

Definition demo_config : Config := uniform_config 3 2 2 true [(8, 7)].

Definition demo_env : Env := {|
  env_reg := demo_registry;
  cfg := demo_config;
  now n := 1000 + Z.of_nat n mod 1000000;
  rand_r n := Z.of_nat n;
  junk_is_irt := false;
  junk_n_local_pieces := 77;
  junk_clock_offset := 0;
|}.
#[local] Existing Instance demo_env.

Definition demo_piece (root type : Z) (ready : Z) : SimpleCommand :=
  mk_cmd 0 type type root 1
    (mk_ws (if ready =? 1 then [] else [100]) [] (if ready =? 1 then [] else [(100, 0)]) ready)
    [] 0 0 0 [(100, [0; 1])] false.

(** Site [id], right after it has started. *)
Definition demo_site (id : Z) : Sched :=
  match new_SchedulerChronos (mk_site id (id / 3)) (0 : Db) with
  | Some s => s
  | None => mk_sched 0 0 0 ∅ [] [] [] [] [] [] [] [] false ts_zero 0 [] 0 0 ts_zero (0 : Db) 0 0 []
  end.

(** The state a list of actions ends in. *)
Definition after {S A} (m : M S A) (s : S) : S :=
  match m s with Done (_, s') => s' | _ => s end.
Definition result_of {S A} (m : M S A) (s : S) : option A :=
  match m s with Done (a, _) => Some a | _ => None end.

Lemma done_after {S A} (m : M S A) (s : S) (r : A) :
  result_of m s = Some r -> m s = Done (r, after m s).
Proof. unfold result_of, after. destruct (m s) as [[a s']| |]; congruence. Qed.

(** ** A run of site 0

    It is given transaction 5 on its own shard, hears from the other sites of the
    region, and gets the acknowledgements of its two replicas. *)
Definition demo_cmds : list SimpleCommand := [demo_piece 5 7 1; demo_piece 5 8 1].
Definition demo_sync (site : Z) : Event :=
  EvIRSync (mk_IRSyncReq site (mk_ts 2000 0 site) [] ts_zero).
Definition demo_ack (site : Z) : Event :=
  EvPrepareIRTACK 5 0 site (mk_StoreLocalRes (mk_ts 2000 0 site) [] ts_zero).
Definition demo_events : list Event :=
  [EvSubmitTxn [(0, demo_cmds)] 1; demo_sync 3; demo_sync 4; demo_sync 5; demo_ack 1; demo_ack 2].

(** Transaction 5 is queued and may run. *)
Definition demo_ready : Sched := after (run demo_events) (demo_site 0).

Lemma demo_site_reachable : reachable (mk_site 0 0) (0 : Db) (demo_site 0).
Proof. apply reach_init. reflexivity. Qed.

Lemma demo_reachable es :
  Forall event_ok es -> result_of (run es) (demo_site 0) = Some tt ->
  reachable (mk_site 0 0) (0 : Db) (after (run es) (demo_site 0)).
Proof.
  intros Hes Hrun. eapply reachable_run; [apply demo_site_reachable | exact Hes | by apply done_after].
Qed.

Lemma demo_ready_reachable : reachable (mk_site 0 0) (0 : Db) demo_ready.
Proof. apply demo_reachable; [repeat constructor | vm_compute; reflexivity]. Qed.
