(* ===== verification/ChrReach.v ===== *)
(** * Runs of a site

    What holds in every state a site can reach by handling events in any order,
    and that each handler ends. *)
From stdpp Require Import base tactics numbers list sorting gmap.
From S2P Require Import Prelude OMap Command Config ChrTs ChrTypes ChrTx ChrSched ChrSchedInv ChrDemo.

(** C5: in every state a site reaches, whatever events it
    handles: the ready queue and the own transactions are ordered by timestamp and
    refer to existing transactions, every transaction counts exactly the pieces it
    has run, knows its number of pieces and has an output buffer once it can be
    executed, and every set and map is kept ordered. *)
Theorem reachable_invariant `{Env} site db s : reachable site db s -> wf s.
Proof. apply reachable_wf. Qed.

(** C34: every handler ends on every state, apart from the
    timestamp search of [HandleIRT] and the loop of [OnProposeRemote]. *)
Theorem handlers_terminate `{Env} e s : loops e = false -> handle e s ≠ OutOfFuel.
Proof. intros He. by apply handle_terminates. Qed.

(** ** Instances *)

#[local] Existing Instance demo_env.

Lemma reachable_invariant_witness : wf demo_ready.
Proof. apply (@reachable_invariant demo_env (mk_site 0 0) (0 : Z)). apply demo_ready_reachable. Defined.

Lemma handlers_terminate_witness : handle (demo_ack 1) demo_ready ≠ OutOfFuel.
Proof. apply (handlers_terminate (demo_ack 1) demo_ready). reflexivity. Defined.

(** A transaction with a ready piece, a waiting one, and one that conflicts with a
    pending piece. *)
Definition demo_tx : TxSt :=
  mk_txst ((new_tx 5) <| pieces_ := [demo_piece 5 7 1; demo_piece 5 7 0; demo_piece 5 8 1] |>
             <| dist_output_ := Some [] |>) (0 : Db).

Lemma execution_completes_witness :
  exists ret pending' s',
    RecursiveExecuteReadyPieces demo_config 0 [7] demo_tx = Done ((ret, pending'), s') /\
    (forall c, c ∈ pieces_ (tx s') -> settled demo_config [7] c) /\
    n_executed_pieces (tx s') =
      n_executed_pieces (tx demo_tx) + Z.of_nat (n_done (tx s')) - Z.of_nat (n_done (tx demo_tx)) /\
    (forall x, x ∈ pending' <-> x ∈ [7] \/
      exists c, c ∈ pieces_ (tx s') /\ local_executed_ c = false /\ inn_id_ c = x).
Proof.
  apply (execution_completes demo_config 0 [7] demo_tx).
  split.
  - eexists. reflexivity.
  - repeat constructor; eexists; reflexivity.
Defined.
