(* ===== verification/ChrClock.v ===== *)
(** * Timestamps made by a site: [GenerateChrTs]

    The stretchable clock: timestamps made for local use grow strictly and stay
    below the timestamps of the multi-region transactions that are not ready,
    whatever the system clock returns.  The increments of [stretch_counter_] must
    not overflow, which is the only hypothesis on its value. *)
From stdpp Require Import base tactics numbers list sorting gmap sets.
From S2P Require Import Prelude OMap Command Config ChrTs ChrTypes ChrTx ChrSched ChrDemo.

Section clock.
Context `{Env}.

(** The stretch counter can be incremented [n] times. *)
Definition stretchable (n : Z) (s : Sched) : Prop :=
  in_s 64 (stretch_counter_ (last_clock_ s)) /\ stretch_counter_ (last_clock_ s) + n < 2 ^ 63.

Lemma stretchable_le n m s : n <= m -> stretchable m s -> stretchable n s.
Proof. intros Hle [Hin Hb]. split; [done | lia]. Qed.

Lemma i64_succ c : in_s 64 c -> c + 1 < 2 ^ 63 -> i64 (c + 1) = c + 1.
Proof. intros Hc Hb. apply wrap_s_id; [lia|]. unfold in_s in *. lia. Qed.

(** The fields a call for local use leaves alone. *)
Definition same_but_clock (s s' : Sched) : Prop :=
  s' = s <| last_clock_ := last_clock_ s' |> <| clock_reads_ := clock_reads_ s' |>.

Lemma GenerateChrTs_local s r s' :
  GenerateChrTs true s = Done (r, s') -> stretchable 1 s ->
  ts_lex (last_clock_ s) r /\ last_clock_ s' = r /\ same_but_clock s s' /\
  (forall low d, dist_txn_tss_ s = low :: d ->
     timestamp_ (last_clock_ s) < timestamp_ low -> in_s 64 (timestamp_ low - 1) -> ts_lex r low).
Proof.
  unfold GenerateChrTs, read_clock, stretchable. intros Hrun [Hin Hb].
  apply bind_done in Hrun as (t & s1 & [= <- <-] & [= <- <-]).
  cbn [last_clock_ dist_txn_tss_ clock_offset_ site_id_ set_field].
  set (ts := i64 _). set (site := i16 _). clearbody ts site.
  destruct s as [? ? ? ? ? ? ? dist ? ? ? ? ? last ? ? ? ? ? ? ? ? ?]. simpl in *.
  set (ret := match dist with [] => _ | low :: _ => _ end).
  assert (forall low d, dist = low :: d -> in_s 64 (timestamp_ low - 1) ->
    timestamp_ ret < timestamp_ low \/ ts_lex ret low) as Hret.
  { intros low d -> Hl. unfold ret. destruct (ts_lt (mk_ts ts ts site) low) eqn:E; simpl.
    - right. by apply ts_lt_lex.
    - left. unfold set_field. simpl. rewrite wrap_s_id by (done || lia). lia. }
  clearbody ret.
  destruct (ts_gt ret last) eqn:E; simpl.
  - apply ts_gt_lex in E. split_and!; try done. intros low d Hd Hlt Hl.
    destruct (Hret low d Hd Hl); [by left | done].
  - split_and!; try done.
    + right. split; [done|]. left. unfold set_field. simpl. rewrite i64_succ by done. lia.
    + intros low d Hd Hlt Hl. by left.
Qed.

(** Calls for local use, one after the other. *)
Fixpoint generate_n (n : nat) : M Sched (list chr_ts_t) :=
  match n with
  | O => mret []
  | S n => ts ← GenerateChrTs true; rest ← generate_n n; mret (ts :: rest)
  end.

(** The next [n] readings of the clock leave room for [n] increments. *)
Definition sane_clock (n : Z) (s : Sched) : Prop :=
  forall k, i64 (now k + clock_offset_ s) + n < 2 ^ 63.

Lemma GenerateChrTs_total b s : exists r s', GenerateChrTs b s = Done (r, s').
Proof.
  unfold GenerateChrTs, read_clock, mbind, M_bind. cbn [state].
  set (s1 := s <| clock_reads_ ::= S |>). unfold state.
  match goal with |- exists r s', Done ?x = _ => destruct x as [r s'] end. eauto.
Qed.

Lemma GenerateChrTs_budget n s r s' :
  GenerateChrTs true s = Done (r, s') -> 0 <= n -> stretchable (1 + n) s -> sane_clock (1 + n) s ->
  stretchable n s' /\ sane_clock n s'.
Proof.
  intros Hrun Hn Hs Hc.
  destruct (GenerateChrTs_local s r s' Hrun) as (_ & Hl & Hsame & _).
  { eapply stretchable_le; [|eassumption]. lia. }
  assert (clock_offset_ s' = clock_offset_ s) as Ho by (by rewrite Hsame).
  split; [|intros k; rewrite Ho; specialize (Hc k); lia].
  unfold stretchable in *. rewrite Hl. clear Hl Hsame Ho.
  unfold GenerateChrTs, read_clock in Hrun.
  apply bind_done in Hrun as (t & s1 & [= <- <-] & [= <- _]).
  specialize (Hc (clock_reads_ s)). cbn [last_clock_ dist_txn_tss_ clock_offset_ site_id_ set_field].
  destruct s as [? ? ? ? ? ? ? dist ? ? ? ? ? last ? ? ? ? ? ? ? ? ?]. simpl in *.
  match type of Hc with ?x + _ < _ => assert (in_s 64 x) as Hr by (by apply wrap_s_range); set (ts := x) in * end.
  clearbody ts. set (site := i16 _). clearbody site.
  set (ret := match dist with [] => _ | low :: _ => _ end).
  assert (stretch_counter_ ret = ts) as Hret.
  { unfold ret. destruct dist as [|low d]; [done|]. by destruct (ts_lt _ low). }
  clearbody ret. destruct (ts_gt ret last); simpl.
  - rewrite Hret. split; [done | lia].
  - unfold set_field. simpl. destruct Hs as [Hin Hb]. rewrite i64_succ by (done || lia).
    unfold in_s in *. lia.
Qed.

Lemma generate_n_spec n s :
  stretchable (Z.of_nat n) s -> sane_clock (Z.of_nat n) s ->
  exists l s', generate_n n s = Done (l, s') /\ length l = n /\
    StronglySorted ts_lex (last_clock_ s :: l).
Proof.
  revert s. induction n as [|n IH]; intros s Hs Hc.
  { exists [], s. split; [done|]. split; [done|]. repeat constructor. }
  destruct (GenerateChrTs_total true s) as (ts & s1 & E).
  destruct (GenerateChrTs_local s ts s1 E) as (Hlt & Hl & _).
  { eapply stretchable_le; [|eassumption]. lia. }
  destruct (GenerateChrTs_budget (Z.of_nat n) s ts s1 E) as [Hs1 Hc1];
    [lia | by replace (1 + Z.of_nat n) with (Z.of_nat (S n)) by lia..|].
  destruct (IH s1 Hs1 Hc1) as (l & s2 & E2 & Hlen & Hsort). rewrite Hl in Hsort.
  exists (ts :: l), s2. cbn [generate_n]. unfold mbind, M_bind. rewrite E, E2.
  split; [done|]. split; [simpl; lia|]. constructor; [done|].
  apply StronglySorted_inv in Hsort as [_ Hall]. constructor; [done|].
  eapply Forall_impl; [exact Hall|]. intros x Hx. by eapply ts_lex_trans.
Qed.

(** ** Looking for a free timestamp *)

(** The entries of the ready queue that are not before [ts]. *)
Definition not_before (ts : chr_ts_t) (m : omap chr_ts_t Z) : nat :=
  length (filter (fun e => ts_lt e.1 ts = false) m).

Lemma not_before_step ts ts' prev m :
  find ts m = Some prev -> ts_lex ts ts' -> (not_before ts' m < not_before ts m)%nat.
Proof.
  intros Hf Hlt.
  assert (forall m, (not_before ts' m <= not_before ts m)%nat) as Hle.
  { clear Hf. intros m0. unfold not_before. induction m0 as [|[k v] m0 IH]; [done|].
    rewrite !filter_cons. simpl.
    destruct (decide (ts_lt k ts' = false)) as [D1|D1], (decide (ts_lt k ts = false)) as [D2|D2];
      simpl; try lia.
    exfalso. apply ts_lt_false in D1. apply not_false_is_true, ts_lt_lex in D2.
    by apply D1, (ts_lex_trans _ ts). }
  induction m as [|[k v] m IH]; [done|]. simpl in Hf. specialize (Hle m).
  unfold not_before in *. rewrite !filter_cons. simpl.
  destruct (decide (ts = k)) as [<-|Hne].
  - rewrite (decide_False (P:=ts_lt ts ts' = false)) by (rewrite (proj2 (ts_lt_lex _ _) Hlt); done).
    rewrite decide_True by (apply ts_lt_false, ts_lex_irrefl). simpl. lia.
  - specialize (IH Hf).
    destruct (decide (ts_lt k ts' = false)) as [D1|D1], (decide (ts_lt k ts = false)) as [D2|D2];
      simpl; try lia.
    exfalso. apply ts_lt_false in D1. apply not_false_is_true, ts_lt_lex in D2.
    by apply D1, (ts_lex_trans _ ts).
Qed.

Lemma fresh_ts_terminates fuel ts s :
  last_clock_ s = ts -> (not_before ts (ready_txns_ s) <= fuel)%nat ->
  stretchable (Z.of_nat fuel) s -> sane_clock (Z.of_nat fuel) s ->
  fresh_ts fuel ts s ≠ OutOfFuel.
Proof.
  revert ts s. induction fuel as [|fuel IH]; intros ts s Hl Hn Hs Hc; cbn [fresh_ts];
    unfold mbind, M_bind; cbn [gets]; destruct (find ts (ready_txns_ s)) as [prev|] eqn:Ef; try done.
  { pose proof (not_before_step ts (mk_ts (timestamp_ ts + 1) 0 0) prev _ Ef) as Hx.
    specialize (Hx ltac:(left; simpl; lia)). lia. }
  unfold verify. destruct (bool_decide _); [|done].
  destruct (GenerateChrTs_total true s) as (ts' & s1 & E). rewrite E.
  destruct (GenerateChrTs_local s ts' s1 E) as (Hlt & Hl1 & Hsame & _).
  { eapply stretchable_le; [|eassumption]. lia. }
  destruct (GenerateChrTs_budget (Z.of_nat fuel) s ts' s1 E) as [Hs1 Hc1];
    [lia | by replace (1 + Z.of_nat fuel) with (Z.of_nat (S fuel)) by lia..|].
  assert (ready_txns_ s1 = ready_txns_ s) as Hready by (by rewrite Hsame).
  apply IH; try done. rewrite Hready. rewrite Hl in Hlt.
  pose proof (not_before_step ts ts' prev _ Ef Hlt). lia.
Qed.

(** What the search returns: a free timestamp, not before the one it started with. *)
Lemma fresh_ts_spec fuel ts s r s' :
  fresh_ts fuel ts s = Done (r, s') -> last_clock_ s = ts ->
  stretchable (Z.of_nat fuel) s -> sane_clock (Z.of_nat fuel) s ->
  find r (ready_txns_ s) = None /\ ~ ts_lex r ts /\ last_clock_ s' = r /\ same_but_clock s s'.
Proof.
  revert ts s. induction fuel as [|fuel IH]; intros ts s Hrun Hl Hs Hc; cbn [fresh_ts] in Hrun;
    apply bind_done in Hrun as (o & s0 & [= <- <-] & Hrun);
    destruct (find ts (ready_txns_ s)) as [prev|] eqn:Ef; try done.
  1,3: injection Hrun as <- <-; split_and!; try done; [apply ts_lex_irrefl | by destruct s].
  apply bind_done in Hrun as (ph & s0 & [= <- <-] & Hrun).
  apply bind_done in Hrun as ([] & s0 & Hv & Hrun).
  unfold verify in Hv. destruct (bool_decide _); [|done]. injection Hv as <-.
  apply bind_done in Hrun as (ts' & s1 & E & Hrun).
  destruct (GenerateChrTs_local s ts' s1 E) as (Hlt & Hl1 & Hsame & _).
  { eapply stretchable_le; [|eassumption]. lia. }
  destruct (GenerateChrTs_budget (Z.of_nat fuel) s ts' s1 E) as [Hs1 Hc1];
    [lia | by replace (1 + Z.of_nat fuel) with (Z.of_nat (S fuel)) by lia..|].
  destruct (IH ts' s1 Hrun Hl1 Hs1 Hc1) as (H1 & H2 & H3 & H4).
  assert (ready_txns_ s1 = ready_txns_ s) as Hready by (by rewrite Hsame).
  rewrite Hready in H1. split_and!; try done.
  - rewrite Hl in Hlt. unfold ts_lex in *. lia.
  - unfold same_but_clock in *. rewrite H4 at 1. rewrite Hsame at 1. done.
Qed.
End clock.

(** The timestamps that [GenerateChrTs(true)] returns one
    after the other are strictly increasing, and above [last_clock_], whatever the
    system clock returns, as long as the stretch counter does not overflow. *)
Theorem local_ts_increasing `{Env} n s :
  stretchable (Z.of_nat n) s -> sane_clock (Z.of_nat n) s ->
  exists l s', generate_n n s = Done (l, s') /\ length l = n /\
    StronglySorted ts_lex (last_clock_ s :: l).
Proof. apply generate_n_spec. Qed.

(** a timestamp made for a local transaction is below
    the timestamp of every multi-region transaction that is not ready, provided
    the last one made is at an earlier microsecond. *)
Theorem local_ts_below_pending `{Env} s r s' :
  GenerateChrTs true s = Done (r, s') -> stretchable 1 s -> sorted_set (dist_txn_tss_ s) ->
  (forall x, x ∈ dist_txn_tss_ s ->
     timestamp_ (last_clock_ s) < timestamp_ x /\ in_s 64 (timestamp_ x - 1)) ->
  forall x, x ∈ dist_txn_tss_ s -> ts_lt r x = true.
Proof.
  intros Hrun Hs Hsort Hx x Hin.
  destruct (GenerateChrTs_local s r s' Hrun Hs) as (_ & _ & _ & Hlow).
  destruct (dist_txn_tss_ s) as [|low d] eqn:E; [by apply not_elem_of_nil in Hin|].
  destruct (Hx low) as [H1 H2]; [left|]. specialize (Hlow low d eq_refl H1 H2).
  apply ts_lt_lex. destruct (sorted_head_least _ _ _ Hsort Hin) as [->|Hlt]; [done|].
  eapply ts_lex_trans; [exact Hlow | by apply key_lt_ts].
Qed.

(** ** Instances *)

#[local] Existing Instance demo_env.

Lemma demo_sane n s : n < 1000000 -> 0 <= clock_offset_ s <= 1000000 -> sane_clock n s.
Proof.
  intros Hn Ho k. simpl. pose proof (Z.mod_pos_bound (Z.of_nat k) 1000000 ltac:(lia)).
  rewrite wrap_s_id; [lia | lia|]. unfold in_s. lia.
Qed.

Lemma local_ts_increasing_witness :
  exists l s', generate_n 3 (demo_site 0) = Done (l, s') /\ length l = 3%nat /\
    StronglySorted ts_lex (last_clock_ (demo_site 0) :: l).
Proof.
  apply (local_ts_increasing 3 (demo_site 0)).
  - split; vm_compute; split; congruence.
  - apply demo_sane; [lia | vm_compute; split; congruence].
Defined.

(** A site that has been told of a transaction at microsecond 1000. *)
Definition demo_blocked : Sched :=
  after (OnNotiCRT (mk_NotiCRTReq 9 (mk_ts 1000 0 12) [3; 4])) (demo_site 0).

Lemma local_ts_below_pending_witness :
  ts_lt (mk_ts 999 1000 0) (mk_ts 1000 0 12) = true.
Proof.
  apply (local_ts_below_pending demo_blocked _ (after (GenerateChrTs true) demo_blocked)).
  - apply done_after. vm_compute. reflexivity.
  - split; vm_compute; split; congruence.
  - repeat constructor.
  - intros x [->|Hx%not_elem_of_nil]%elem_of_cons; [|done]. split; [by vm_compute|].
    unfold in_s. vm_compute. split; congruence.
  - left.
Defined.
