(* ===== verification/ChrExec.v ===== *)
(** * The execution order of a site: [CheckExecutableTxns]

    The loop over the ready queue runs transactions in timestamp order: a
    transaction leaves the queue only if it and every transaction before it may
    run, and a piece that runs does not conflict with a waiting piece of an earlier
    transaction whose callback is called.  A transaction that leaves the queue of
    its region handler has run all its pieces; one that has all its inputs
    finishes in one call, whatever its kind. *)
From stdpp Require Import base tactics numbers list sorting gmap sets.
From S2P Require Import Prelude OMap Command Config ChrTs ChrTypes ChrTx ChrSched ChrSchedInv ChrDemo.

Section exec.
Context `{Env}.

(** What the execution of transaction [id] may change of a state. *)
Record exec_frame (id : Z) (s0 s : Sched) : Prop := {
  ef_ready : ready_txns_ s = ready_txns_ s0;
  ef_my : my_txns_ s = my_txns_ s0;
  ef_max : ir_site_max_ts s = ir_site_max_ts s0;
  ef_site : site_id_ s = site_id_ s0;
  ef_input : new_input_ s = new_input_ s0;
  ef_others : forall j, j ≠ id -> dtxns_ s !! j = dtxns_ s0 !! j;
  ef_commit : commit_ts_ (txn s id) = commit_ts_ (txn s0 id);
  ef_acks : dist_partition_acks_ (txn s id) = dist_partition_acks_ (txn s0 id);
  ef_mgr : dist_shard_mgr_acked_ (txn s id) = dist_shard_mgr_acked_ (txn s0 id);
  ef_phase : chr_phase_ (txn s id) = chr_phase_ (txn s0 id) \/ chr_phase_ (txn s id) = OUTPUT_SENT;
}.

Lemma exec_frame_refl id s : exec_frame id s s.
Proof. split; auto. Qed.

Lemma txn_alter s id f :
  txn (s <| dtxns_ ::= alter f id |>) id = f (txn s id) \/
  txn (s <| dtxns_ ::= alter f id |>) id = txn s id.
Proof. unfold txn. simpl. rewrite lookup_alter_eq. destruct (dtxns_ s !! id); auto. Qed.

Lemma txn_alter_ne s id j f : j ≠ id -> txn (s <| dtxns_ ::= alter f id |>) j = txn s j.
Proof. intros. unfold txn. simpl. by rewrite lookup_alter_ne. Qed.

Lemma txn_alter_some s id f : is_Some (dtxns_ s !! id) -> txn (s <| dtxns_ ::= alter f id |>) id = f (txn s id).
Proof. intros [t E]. unfold txn. simpl. by rewrite lookup_alter_eq, E. Qed.

Lemma txn_insert s id t : txn (s <| dtxns_ ::= <[id := t]> |>) id = t.
Proof. unfold txn. simpl. by rewrite lookup_insert_eq. Qed.

Lemma txn_some s id t : dtxns_ s !! id = Some t -> txn s id = t.
Proof. intros E. unfold txn. by rewrite E. Qed.

Lemma set_txn_frame id s0 f :
  (forall t, commit_ts_ (f t) = commit_ts_ t /\ dist_partition_acks_ (f t) = dist_partition_acks_ t /\
     dist_shard_mgr_acked_ (f t) = dist_shard_mgr_acked_ t /\
     (chr_phase_ (f t) = chr_phase_ t \/ chr_phase_ (f t) = OUTPUT_SENT)) ->
  preserves (exec_frame id s0) (set_txn id f).
Proof.
  intros Hf. apply preserves_modify. intros s []. split; auto; simpl.
  - intros j Hj. rewrite lookup_alter_ne by done. auto.
  - destruct (txn_alter s id f) as [-> | ->]; [|done]. by rewrite (proj1 (Hf _)).
  - destruct (txn_alter s id f) as [-> | ->]; [|done]. by rewrite (proj1 (proj2 (Hf _))).
  - destruct (txn_alter s id f) as [-> | ->]; [|done]. by rewrite (proj1 (proj2 (proj2 (Hf _)))).
  - destruct (txn_alter s id f) as [-> | ->]; [|done].
    destruct (Hf (txn s id)) as (_ & _ & _ & [-> | ->]); auto.
Qed.

Lemma on_txn_frame id s0 me pending :
  preserves (exec_frame id s0) (on_txn id (RecursiveExecuteReadyPieces cfg me pending)).
Proof.
  intros s r s' Hs Hrun. unfold on_txn in Hrun.
  destruct (RecursiveExecuteReadyPieces _ _ _ _) as [[[ret p] st]| |] eqn:E; [|done|done].
  injection Hrun as <- <-. apply exec_done in E. simpl in E.
  pose proof (f_equal commit_ts_ (er_frame _ _ _ _ _ E)) as Hc.
  pose proof (f_equal chr_phase_ (er_frame _ _ _ _ _ E)) as Hp.
  pose proof (f_equal dist_partition_acks_ (er_frame _ _ _ _ _ E)) as Ha.
  pose proof (f_equal dist_shard_mgr_acked_ (er_frame _ _ _ _ _ E)) as Hm. simpl in Hc, Hp, Ha, Hm.
  destruct Hs. split; auto; simpl.
  - intros j Hj. rewrite lookup_insert_ne by done. auto.
  - unfold txn at 1. simpl. rewrite lookup_insert_eq. simpl. by rewrite Hc.
  - unfold txn at 1. simpl. rewrite lookup_insert_eq. simpl. by rewrite Ha.
  - unfold txn at 1. simpl. rewrite lookup_insert_eq. simpl. by rewrite Hm.
  - unfold txn at 1 3. simpl. rewrite lookup_insert_eq. simpl. by rewrite Hp.
Qed.

Ltac frame_state := apply preserves_modify; intros ? []; by split.

Lemma send_frame id s0 m : preserves (exec_frame id s0) (send m).
Proof. unfold send. frame_state. Qed.
#[local] Hint Resolve send_frame on_txn_frame : preserves.

Lemma execute_callback_frame id s0 pending : preserves (exec_frame id s0) (execute_callback id pending).
Proof.
  unfold execute_callback, cb_HandleIRT, cb_OnSubmitCRT, cb_OnPrepareIRT, cb_OnPrepareCRT,
    run_pieces, CheckSendOutputToClient, is_finished, output_of.
  solve_preserves; first [frame_state | apply set_txn_frame; auto].
Qed.

Lemma must_wait_frame id s0 s :
  exec_frame id s0 s -> must_wait s0 id = false -> forall j, must_wait s j = must_wait s0 j.
Proof.
  intros [_ _ Hmax _ _ Hothers Hc _ _ Hp] Hw j. unfold must_wait in *. rewrite Hmax.
  destruct (decide (j = id)) as [->|Hj].
  - rewrite Hc. destruct Hp as [-> | ->]; [done|].
    apply orb_false_iff in Hw as [-> Hw]. by rewrite Hw.
  - unfold txn. by rewrite Hothers.
Qed.

(** ** The loop *)

Definition removed_in_order (s : Sched) (entries : omap chr_ts_t Z) (s' : Sched) : Prop :=
  forall k, find k (ready_txns_ s') = find k (ready_txns_ s) \/
    (find k (ready_txns_ s') = None /\
     exists pre id post, entries = pre ++ (k, id) :: post /\
       Forall (fun e => must_wait s e.2 = false) (pre ++ [(k, id)])).

Lemma removed_in_order_cons s s1 s2 ts id entries :
  (forall j, must_wait s1 j = must_wait s j) -> must_wait s id = false ->
  removed_in_order s1 entries s2 ->
  ready_txns_ s1 = ready_txns_ s \/ ready_txns_ s1 = erase ts (ready_txns_ s) ->
  removed_in_order s ((ts, id) :: entries) s2.
Proof.
  intros Hw Hid Hrem Hready k. destruct (Hrem k) as [E|(E & pre & id' & post & -> & Hall)].
  - destruct Hready as [Hr|Hr]; rewrite Hr in E; [by left|]. rewrite find_erase in E.
    destruct (decide (ts = k)) as [->|]; [|by left]. right. split; [done|].
    exists [], id, entries. split; [done|]. by repeat constructor.
  - right. split; [done|]. exists ((ts, id) :: pre), id', post. split; [done|]. constructor; [done|].
    eapply Forall_impl; [exact Hall|]. intros e He. cbv beta in *. by rewrite <- Hw.
Qed.

(** ** Finished transactions *)

Definition assigned (id : Z) (s : Sched) : Prop := execute_callback_ (txn s id) ≠ EC_unassigned.
Definition finished_at (id : Z) (s : Sched) : Prop :=
  assigned id s /\ n_local_pieces_ (txn s id) = n_executed_pieces (txn s id).

Lemma set_txn_finished id f :
  (forall t, execute_callback_ (f t) = execute_callback_ t /\ n_local_pieces_ (f t) = n_local_pieces_ t /\
     n_executed_pieces (f t) = n_executed_pieces t) ->
  preserves (finished_at id) (set_txn id f).
Proof.
  intros Hf. apply preserves_modify. unfold finished_at, assigned. intros s [Ha Hn].
  destruct (txn_alter s id f) as [-> | ->]; [|done]. by destruct (Hf (txn s id)) as (-> & -> & ->).
Qed.

Lemma send_finished id m : preserves (finished_at id) (send m).
Proof. unfold send. by apply preserves_modify. Qed.

Lemma run_pieces_assigned id pending : preserves (assigned id) (run_pieces id pending).
Proof.
  unfold run_pieces, send. solve_preserves; [|by apply preserves_modify].
  intros s r s' Hs Hrun. unfold on_txn in Hrun.
  destruct (RecursiveExecuteReadyPieces _ _ _ _) as [[[ret p] st]| |] eqn:E; [|done|done].
  injection Hrun as <- <-. apply exec_done in E. simpl in E.
  pose proof (f_equal execute_callback_ (er_frame _ _ _ _ _ E)) as Hc. simpl in Hc.
  unfold assigned, txn in *. simpl. rewrite lookup_insert_eq. simpl. by rewrite Hc.
Qed.

(** After [is_finished], the rest of a callback leaves the counters alone. *)
Lemma finish_tail id (k : bool -> M Sched (bool * oset Z)) :
  (forall b : bool, hoare (fun s => if b then finished_at id s else True) (k b)
     (fun r s => r.1 = true -> finished_at id s)) ->
  hoare (assigned id) (is_finished id ≫= k) (fun r s => r.1 = true -> finished_at id s).
Proof.
  intros Hk s r s' Hs Hrun. apply bind_done in Hrun as (b & s1 & [= <- <-] & Hrun).
  eapply Hk; [|exact Hrun]. simpl. destruct (_ =? _) eqn:E; [|done]. split; [done | lia].
Qed.

(** A callback that ends with [when finished m]. *)
Lemma finish_when id (b : bool) (m : M Sched ()) (p : oset Z) :
  preserves (finished_at id) m ->
  hoare (fun s => if b then finished_at id s else True) (when b m ;; mret (b, p))
    (fun r s => r.1 = true -> finished_at id s).
Proof.
  intros Hm s r s' Hs Hrun. apply bind_done in Hrun as ([] & s1 & E & [= <- <-]). simpl.
  intros ->. by eapply Hm.
Qed.

#[local] Hint Resolve send_finished : preserves.

Lemma CheckSendOutputToClient_finished id : preserves (finished_at id) (CheckSendOutputToClient id).
Proof. unfold CheckSendOutputToClient, output_of. solve_preserves. by apply set_txn_finished. Qed.
#[local] Hint Resolve CheckSendOutputToClient_finished : preserves.

Lemma execute_callback_finished id pending s p s' :
  execute_callback id pending s = Done ((true, p), s') -> finished_at id s'.
Proof.
  unfold execute_callback. intros Hrun. apply bind_done in Hrun as (cb & s1 & [= <- <-] & Hrun).
  assert (execute_callback_ (txn s id) ≠ EC_unassigned -> assigned id s) as Has by done.
  destruct (execute_callback_ (txn s id)); [done|..]; specialize (Has ltac:(done)).
  - unfold cb_HandleIRT in Hrun. apply bind_done in Hrun as (p1 & s1 & E & Hrun).
    eapply (finish_tail id); [|eapply run_pieces_assigned; eauto | exact Hrun | done].
    intros b. apply finish_when. unfold output_of. solve_preserves.
  - unfold cb_OnSubmitCRT in Hrun. apply bind_done in Hrun as (t & s1 & [= <- <-] & Hrun).
    apply bind_done in Hrun as (p1 & s1 & E & Hrun).
    eapply (finish_tail id); [| |exact Hrun | done].
    + intros b. apply finish_when. solve_preserves;
        first [by apply set_txn_finished | by apply preserves_modify].
    + destruct (_ =? _)%nat; [by injection E as <- <- | by eapply run_pieces_assigned].
  - unfold cb_OnPrepareIRT in Hrun. apply bind_done in Hrun as (p1 & s1 & E & Hrun).
    eapply (finish_tail id); [|eapply run_pieces_assigned; eauto | exact Hrun | done].
    intros b s2 r s3 Hs [= <- <-]. simpl. by intros ->.
  - unfold cb_OnPrepareCRT in Hrun. apply bind_done in Hrun as (p1 & s1 & E & Hrun).
    eapply (finish_tail id); [|eapply run_pieces_assigned; eauto | exact Hrun | done].
    intros b s2 r s3 Hs Hrun2. apply bind_done in Hrun2 as (cb & s4 & [= <- <-] & Hrun2).
    eapply finish_when; [|exact Hs | exact Hrun2]. unfold output_of. solve_preserves.
Qed.

Lemma finished_executed s id :
  wf s -> finished_at id s -> forall c, c ∈ pieces_ (txn s id) -> local_executed_ c = true.
Proof.
  intros W [Ha Hn] c Hc. destruct (txn_wf s id W) as [_ Hexe Hcb _ _ _ _].
  destruct (Hcb Ha) as [Hl _]. rewrite Hexe, Hl in Hn.
  assert (Forall (fun b => b = true) (flags (pieces_ (txn s id)))) as Hall.
  { apply ntrue_all. unfold n_done, flags in *. rewrite length_fmap. lia. }
  unfold flags in Hall. rewrite Forall_fmap, Forall_forall in Hall. by apply Hall.
Qed.

(** ** The pieces a callback runs *)

(** What a callback called with the pieces [pending] does to its transaction. *)
Record run_frame (pending : oset Z) (t0 t : TxChronos) : Prop := {
  rf_ids : inn_id_ <$> pieces_ t = inn_id_ <$> pieces_ t0;
  rf_free : runs_free cfg pending t0 t;
  rf_handler : region_handler_ t = region_handler_ t0;
  rf_callback : execute_callback_ t = execute_callback_ t0;
}.

Lemma run_frame_refl pending t : run_frame pending t t.
Proof. split; auto using runs_free_refl. Qed.

Lemma run_frame_trans pending t1 t2 t3 :
  run_frame pending t1 t2 -> run_frame pending t2 t3 -> run_frame pending t1 t3.
Proof. intros [] []. split; try congruence. by eapply runs_free_trans. Qed.

Lemma runs_free_subset p p' t t' : p ⊆ p' -> runs_free cfg p' t t' -> runs_free cfg p t t'.
Proof.
  intros Hsub [Hm Hf]. split; [done|]. intros j x Hj Hx. destruct (Hf j x Hj Hx) as [?|Hc]; [by left|].
  right. unfold can_exe_wo_conflict in *. rewrite forallb_forall in Hc |- *. intros y Hy.
  apply Hc, list_elem_of_In, Hsub. by apply list_elem_of_In.
Qed.

Lemma run_frame_subset p p' t t' : p ⊆ p' -> run_frame p' t t' -> run_frame p t t'.
Proof. intros Hsub []. split; auto. by eapply runs_free_subset. Qed.

(** A change of [t] that leaves its pieces, its handler and its callback. *)
Lemma run_frame_same pending t0 t t' :
  pieces_ t' = pieces_ t -> region_handler_ t' = region_handler_ t ->
  execute_callback_ t' = execute_callback_ t -> run_frame pending t0 t -> run_frame pending t0 t'.
Proof. intros Hp Hh Hc [Hi Hf ? ?]. unfold runs_free in *. split; [by rewrite Hp | |congruence..]. unfold runs_free. by rewrite Hp. Qed.

Lemma exec_result_frame pending p t t' : exec_result cfg pending p t t' -> run_frame pending t t'.
Proof.
  intros []. pose proof (f_equal region_handler_ er_frame) as Hh.
  pose proof (f_equal execute_callback_ er_frame) as Hc. by split.
Qed.

Definition runs (id : Z) (pending : oset Z) (t0 : TxChronos) (s : Sched) : Prop := run_frame pending t0 (txn s id).

Lemma set_txn_runs id pending t0 f :
  (forall t, pieces_ (f t) = pieces_ t /\ region_handler_ (f t) = region_handler_ t /\
     execute_callback_ (f t) = execute_callback_ t) ->
  preserves (runs id pending t0) (set_txn id f).
Proof.
  intros Hf. apply preserves_modify. unfold runs. intros s Hs.
  destruct (txn_alter s id f) as [-> | ->]; [|done]. destruct (Hf (txn s id)) as (? & ? & ?).
  by eapply run_frame_same.
Qed.

Lemma send_runs id pending t0 m : preserves (runs id pending t0) (send m).
Proof. unfold send. by apply preserves_modify. Qed.

Lemma on_txn_runs id pending t0 me :
  preserves (runs id pending t0) (on_txn id (RecursiveExecuteReadyPieces cfg me pending)).
Proof.
  intros s r s' Hs Hrun. unfold on_txn in Hrun.
  destruct (RecursiveExecuteReadyPieces _ _ _ _) as [[[ret p] st]| |] eqn:E; [|done|done].
  injection Hrun as <- <-. apply exec_done, exec_result_frame in E. simpl in E.
  unfold runs in *. unfold txn at 1. simpl. rewrite lookup_insert_eq. by eapply run_frame_trans.
Qed.
#[local] Hint Resolve send_runs on_txn_runs : preserves.

Lemma execute_callback_runs id pending t0 : preserves (runs id pending t0) (execute_callback id pending).
Proof.
  unfold execute_callback, cb_HandleIRT, cb_OnSubmitCRT, cb_OnPrepareIRT, cb_OnPrepareCRT,
    run_pieces, CheckSendOutputToClient, is_finished, output_of.
  solve_preserves; first [by apply set_txn_runs | by apply preserves_modify].
Qed.

(** The pending pieces a callback hands on: those it was given, and those of its
    transaction that have not run. *)
Definition covered (id : Z) (p : oset Z) (s : Sched) : Prop :=
  forall c, c ∈ pieces_ (txn s id) -> local_executed_ c = false -> inn_id_ c ∈ p.

Lemma set_txn_covered id p f : (forall t, pieces_ (f t) = pieces_ t) -> preserves (covered id p) (set_txn id f).
Proof.
  intros Hf. apply preserves_modify. unfold covered. intros s Hs.
  destruct (txn_alter s id f) as [-> | ->]; [|done]. by rewrite Hf.
Qed.
Lemma send_covered id p m : preserves (covered id p) (send m).
Proof. unfold send. by apply preserves_modify. Qed.
#[local] Hint Resolve send_covered : preserves.

Lemma run_pieces_covers id pending s p s' :
  run_pieces id pending s = Done (p, s') -> pending ⊆ p /\ covered id p s'.
Proof.
  unfold run_pieces. intros Hrun. apply bind_done in Hrun as (me & s1 & [= <- <-] & Hrun).
  apply bind_done in Hrun as ([ret p1] & s1 & E & Hrun).
  apply bind_done in Hrun as ([] & s2 & Hsend & [= <- <-]).
  unfold on_txn in E. destruct (RecursiveExecuteReadyPieces _ _ _ _) as [[[ret' p'] st]| |] eqn:Er; [|done|done].
  injection E as <- <- <-. apply exec_done in Er as []. simpl in *.
  split; [intros x Hx; apply er_pending; by left|].
  revert Hsend. apply (preserves_for_each _ _ (covered id p')); [intros x _; solve_preserves|].
  intros c Hc Hf. unfold txn in Hc. simpl in Hc. rewrite lookup_insert_eq in Hc.
  apply er_pending. right. by exists c.
Qed.

Lemma tail_covered id p (m : bool -> M Sched ()) :
  (forall b, preserves (covered id p) (m b)) ->
  hoare (covered id p) (is_finished id ≫= fun fin => m fin;; mret (fin, p)) (fun (r : bool * oset Z) s => r.2 = p /\ covered id p s).
Proof.
  intros Hm s r s' Hs Hrun. apply bind_done in Hrun as (b & s1 & [= <- <-] & Hrun).
  apply bind_done in Hrun as ([] & s1 & E & [= <- <-]). split; [done|]. by eapply Hm.
Qed.

Lemma execute_callback_pending id pending s b p s' :
  execute_callback id pending s = Done ((b, p), s') -> pending ⊆ p /\ (assigned id s -> covered id p s').
Proof.
  assert (forall (m : bool -> M Sched ()) p1 s1, (forall b p, preserves (covered id p) (m b)) ->
    pending ⊆ p1 /\ covered id p1 s1 ->
    (is_finished id ≫= fun fin => m fin;; mret (fin, p1)) s1 = Done ((b, p), s') ->
    pending ⊆ p /\ covered id p s') as Htail.
  { intros m p1 s1 Hm [Hsub Hc] E. apply (tail_covered id p1 m (fun b => Hm b p1) s1 _ _ Hc) in E as [[= ->] ?]. done. }
  unfold execute_callback. intros Hrun. apply bind_done in Hrun as (cb & s1 & [= <- <-] & Hrun).
  unfold assigned. destruct (execute_callback_ (txn s id)).
  - injection Hrun as <- <- <-. by split.
  - apply bind_done in Hrun as (p1 & s1 & E%run_pieces_covers & Hrun).
    eapply Htail in Hrun as [??]; [by split | | exact E]. intros b0 q. unfold output_of. solve_preserves.
  - apply bind_done in Hrun as (t & s1 & [= <- <-] & Hrun). apply bind_done in Hrun as (p1 & s1 & E & Hrun).
    assert (pending ⊆ p1 /\ covered id p1 s1) as Hc.
    { destruct (_ =? _)%nat eqn:El; [|by eapply run_pieces_covers]. injection E as <- <-. split; [done|].
      apply Nat.eqb_eq, nil_length_inv in El. intros c. rewrite El. by intros ?%not_elem_of_nil. }
    eapply Htail in Hrun as [??]; [by split | | exact Hc]. intros b0 q. unfold CheckSendOutputToClient, output_of.
    solve_preserves; first [by apply set_txn_covered | by apply preserves_modify].
  - apply bind_done in Hrun as (p1 & s1 & E%run_pieces_covers & Hrun).
    destruct (Htail (fun _ => mret ()) p1 s1); [intros; solve_preserves | exact E | exact Hrun | by split].
  - apply bind_done in Hrun as (p1 & s1 & E%run_pieces_covers & Hrun).
    apply bind_done in Hrun as (fin & s2 & [= <- <-] & Hrun).
    apply bind_done in Hrun as (cb & s2 & [= <- <-] & Hrun).
    destruct (Htail (fun fin => when fin match send_output_to_handler_ (txn s1 id) with SO_unassigned => mret () | SO_OnDistExe =>
      output_of id ≫= fun out => send (ReplyDistExe id 1 out) end) p1 s1); [|exact E | exact Hrun | by split].
    intros. unfold output_of. solve_preserves.
Qed.

(** ** One turn of the loop *)

(** The visit of the entry [(ts, id)] with the pieces [pending] before it and
    [p] after it. *)
Record visit (ts : chr_ts_t) (id : Z) (pending p : oset Z) (s s1 : Sched) : Prop := {
  vi_go : must_wait s id = false;
  vi_wait : forall j, must_wait s1 j = must_wait s j;
  vi_site : site_id_ s1 = site_id_ s;
  vi_input : new_input_ s = true -> new_input_ s1 = true;
  vi_others : forall j, j ≠ id -> txn s1 j = txn s j;
  vi_runs : run_frame pending (txn s id) (txn s1 id);
  vi_pending : pending ⊆ p;
  vi_covered : assigned id s ->
    exe_tried_ (txn s id) = false \/ new_input_ s = true \/ region_handler_ (txn s id) ≠ site_id_ s ->
    covered id p s1;
  vi_ready : ready_txns_ s1 = ready_txns_ s \/
    ready_txns_ s1 = erase ts (ready_txns_ s) /\
    (region_handler_ (txn s id) = site_id_ s -> finished_at id s1);
  vi_wf : wf s -> wf s1;
}.

Lemma skip_visit ts id pending s :
  must_wait s id = false -> region_handler_ (txn s id) = site_id_ s ->
  negb (exe_tried_ (txn s id)) || new_input_ s = false -> visit ts id pending pending s s.
Proof.
  intros Hw Hh Hf. apply orb_false_iff in Hf as [Ht Hn]. rewrite negb_false_iff in Ht.
  split; auto using run_frame_refl. rewrite Ht, Hn. intros _ [?|[?|?]]; congruence.
Qed.

Lemma call_visit ts id pending s b p s1 :
  must_wait s id = false -> execute_callback id pending s = Done ((b, p), s1) ->
  visit ts id pending p s s1 /\ ready_txns_ s1 = ready_txns_ s.
Proof.
  intros Hw Hrun. apply (execute_callback_frame id s) in Hrun as Hf; [|apply exec_frame_refl].
  pose proof (must_wait_frame id s s1 Hf Hw) as Hm.
  apply (execute_callback_runs id pending (txn s id)) in Hrun as Hr; [|apply run_frame_refl].
  apply execute_callback_pending in Hrun as Hp. destruct Hf, Hp as [Hsub Hcov].
  split; [split; auto | done].
  - by rewrite ef_input0.
  - intros j Hj. unfold txn. by rewrite ef_others0.
  - intros W. apply (execute_callback_wf [] id pending) in Hrun as [? _]; [done|]. split; [done | set_solver].
Qed.

Lemma erase_visit ts id pending p s s1 s2 :
  visit ts id pending p s s1 -> ready_txns_ s1 = ready_txns_ s ->
  (region_handler_ (txn s id) = site_id_ s -> finished_at id s1) ->
  s2 = s1 <| ready_txns_ ::= erase ts |> \/ s2 = s1 <| ready_txns_ ::= erase ts |> <| new_input_ := true |> ->
  visit ts id pending p s s2.
Proof.
  intros [] Hr Hfin Hs.
  assert (wf s1 -> wf s2) as Hwf.
  { intros W. assert (wfk [] s1) as W1 by (split; [done | set_solver]). destruct Hs as [-> | ->].
    - eapply (erase_ready_wf [] ts (fun s => s <| ready_txns_ ::= erase ts |>)); [by left | exact W1 | done].
    - eapply (erase_ready_wf [] ts (fun s => s <| ready_txns_ ::= erase ts |> <| new_input_ := true |>));
        [by right | exact W1 | done]. }
  destruct Hs as [-> | ->]; (split; simpl; auto; right; split; [by rewrite Hr | done]).
Qed.

(** The loop stops at once, or visits its first entry and then stops or goes on. *)
Lemma check_head ts id entries pending found s s' :
  check_executable ((ts, id) :: entries) pending found s = Done (tt, s') ->
  s' = s \/ exists p s1, visit ts id pending p s s1 /\
    (s' = s1 \/ exists found', check_executable entries p found' s1 = Done (tt, s')).
Proof.
  cbn [check_executable]. intros Hrun. apply bind_done in Hrun as (s0 & s1 & [= <- <-] & Hrun).
  destruct (must_wait s id) eqn:Hw; [injection Hrun as <-; by left | right].
  destruct (region_handler_ (txn s id) =? site_id_ s) eqn:Eh.
  - apply bind_done in Hrun as ([fin p] & s1 & E & Hrun). exists p.
    destruct (negb _ || _) eqn:Ef.
    + destruct (call_visit ts id pending s fin p s1 Hw E) as [Hv Hr]. destruct fin.
      * apply bind_done in Hrun as ([] & s2 & [= <-] & Hrun).
        eexists. split; [|right; exists found; exact Hrun]. apply (erase_visit ts id pending p s s1); auto.
        intros _. by eapply execute_callback_finished.
      * exists s1. split; [done|]. destruct (_ >? _); [injection Hrun as <-; by left | right; by eexists].
    + injection E as <- <- <-. exists s. split; [apply skip_visit; auto; lia|].
      destruct (_ >? _); [injection Hrun as <-; by left | right; by eexists].
  - apply bind_done in Hrun as ([b p] & s1 & E & Hrun). exists p.
    destruct (call_visit ts id pending s b p s1 Hw E) as [Hv Hr].
    apply bind_done in Hrun as ([] & s2 & [= <-] & Hrun).
    eexists. split; [|right; exists found; exact Hrun]. apply (erase_visit ts id pending p s s1); auto. lia.
Qed.

(** ** The whole loop *)

(** Induction over the visits of a run of the loop. *)
Lemma check_executable_ind (P : omap chr_ts_t Z -> oset Z -> Sched -> Sched -> Prop) :
  (forall entries pending s, P entries pending s s) ->
  (forall ts id entries pending p s s1 s', visit ts id pending p s s1 -> P entries p s1 s' ->
     P ((ts, id) :: entries) pending s s') ->
  forall entries pending found s s', check_executable entries pending found s = Done (tt, s') ->
  P entries pending s s'.
Proof.
  intros Hstop Hvisit entries. induction entries as [|[ts id] entries IH]; intros pending found s s' Hrun.
  { injection Hrun as <-. auto. }
  apply check_head in Hrun as [->|(p & s1 & Hv & [->|(found' & Hrun)])]; eauto.
Qed.

Lemma check_executable_order entries pending found s s' :
  check_executable entries pending found s = Done (tt, s') ->
  removed_in_order s entries s' /\ (forall j, must_wait s' j = must_wait s j).
Proof.
  revert entries pending found s s'.
  apply (check_executable_ind (fun entries _ s s' => removed_in_order s entries s' /\ (forall j, must_wait s' j = must_wait s j))).
  { intros entries _ s. split; [by left | done]. }
  intros ts id entries pending p s s1 s' [] [Hrem Hm]. split; [|intros j; rewrite Hm; auto].
  eapply removed_in_order_cons; eauto. destruct vi_ready0 as [?|[? _]]; auto.
Qed.

(** What the loop does to any transaction. *)
Lemma check_executable_runs entries pending found s s' :
  check_executable entries pending found s = Done (tt, s') ->
  forall id, run_frame pending (txn s id) (txn s' id) /\ (id ∉ entries.*2 -> txn s' id = txn s id).
Proof.
  revert entries pending found s s'.
  apply (check_executable_ind (fun entries pending s s' => forall id,
    run_frame pending (txn s id) (txn s' id) /\ (id ∉ entries.*2 -> txn s' id = txn s id))).
  { intros entries pending s id. split; [apply run_frame_refl | done]. }
  intros ts id entries pending p s s1 s' [] IH j. destruct (IH j) as [Hr Ho]. split.
  - apply (run_frame_subset pending p) in Hr; [|done]. eapply run_frame_trans; [|exact Hr].
    destruct (decide (j = id)) as [->|]; [done|]. rewrite vi_others0 by done. apply run_frame_refl.
  - cbn. intros [? ?]%not_elem_of_cons. rewrite Ho by done. auto.
Qed.

Definition all_executed (t : TxChronos) : Prop := Forall (fun c => local_executed_ c = true) (pieces_ t).

Lemma all_executed_flags t :
  all_executed t <-> forall j b, flags (pieces_ t) !! j = Some b -> b = true.
Proof.
  unfold all_executed, flags. rewrite <- Forall_lookup. by rewrite Forall_fmap.
Qed.

Lemma run_frame_executed pending t t' : run_frame pending t t' -> all_executed t -> all_executed t'.
Proof.
  intros [Hids [Hm _] _ _]. rewrite !all_executed_flags. intros Ha j b Hb.
  destruct (flags (pieces_ t) !! j) as [b0|] eqn:E.
  - apply Ha in E as Eb. subst b0. apply Hm in E. congruence.
  - exfalso. apply lookup_lt_Some in Hb. apply lookup_ge_None in E. unfold flags in *.
    apply (f_equal length) in Hids. rewrite !length_fmap in *. lia.
Qed.

(** An entry the loop erases has finished, if its region handler is this site. *)
Lemma check_executable_finished entries pending found s s' :
  wf s -> check_executable entries pending found s = Done (tt, s') ->
  forall k, find k (ready_txns_ s') = find k (ready_txns_ s) \/
    exists id, (k, id) ∈ entries /\ (region_handler_ (txn s id) = site_id_ s -> all_executed (txn s' id)).
Proof.
  intros W Hrun. revert entries pending found s s' Hrun W.
  enough (forall entries pending found s s', check_executable entries pending found s = Done (tt, s') ->
    (forall id, run_frame [] (txn s id) (txn s' id)) /\ (wf s -> forall k,
    find k (ready_txns_ s') = find k (ready_txns_ s) \/
    exists id, (k, id) ∈ entries /\ (region_handler_ (txn s id) = site_id_ s -> all_executed (txn s' id))))
    as Hall by (intros ????? Hrun; by apply Hall in Hrun as [_ ?]).
  apply (check_executable_ind (fun entries pending s s' => (forall id, run_frame [] (txn s id) (txn s' id)) /\ (wf s -> forall k,
    find k (ready_txns_ s') = find k (ready_txns_ s) \/
    exists id, (k, id) ∈ entries /\ (region_handler_ (txn s id) = site_id_ s -> all_executed (txn s' id))))).
  { intros entries _ s. split; [intros; apply run_frame_refl | by left]. }
  intros ts id entries pending p s s1 s' Hv [Hr IH].
  assert (forall j, run_frame [] (txn s j) (txn s1 j)) as Hr1.
  { intros j. destruct (decide (j = id)) as [->|Hj].
    - eapply (run_frame_subset [] pending), vi_runs; [set_solver | exact Hv].
    - rewrite (vi_others _ _ _ _ _ _ Hv j Hj). apply run_frame_refl. }
  split; [intros j; by eapply run_frame_trans|]. intros W k. destruct Hv. specialize (vi_wf0 W).
  destruct (IH vi_wf0 k) as [E|(j & Hj & Hx)].
  - rewrite E. destruct vi_ready0 as [-> | [-> Hfin]]; [by left|]. rewrite find_erase.
    destruct (decide (ts = k)) as [->|]; [|by left]. right. exists id. split; [left|]. intros Hh.
    eapply run_frame_executed; [apply Hr|]. apply Forall_forall. by apply finished_executed, Hfin.
  - right. exists j. split; [by right|]. intros Hh. apply Hx. rewrite vi_site0, <- Hh. apply Hr1.
Qed.

(** ** Conflicting pieces *)

(** No piece of [id] that runs between [s] and [s'] conflicts with a piece of
    [id'] that has not run at the end. *)
Definition not_overtaken (id' id : Z) (s s' : Sched) : Prop :=
  forall j x c', flags (pieces_ (txn s id)) !! j = Some false -> flags (pieces_ (txn s' id)) !! j = Some true ->
    (inn_id_ <$> pieces_ (txn s id)) !! j = Some x ->
    c' ∈ pieces_ (txn s' id') -> local_executed_ c' = false ->
    check_piece_conflict cfg (inn_id_ c') x = false.

(** The callback of [id] is going to be called when the loop reaches it. *)
Definition retried (id : Z) (s : Sched) : Prop :=
  exe_tried_ (txn s id) = false \/ new_input_ s = true \/ region_handler_ (txn s id) ≠ site_id_ s.

Lemma visit_retried ts id pending p s s1 j : visit ts id pending p s s1 -> j ≠ id -> retried j s -> retried j s1.
Proof. intros [] Hj. unfold retried. rewrite vi_site0, (vi_others0 j Hj). intros [?|[?|?]]; auto. Qed.

Lemma head_not_overtaken ts' id' id pending p s s1 s' :
  visit ts' id' pending p s s1 -> id ≠ id' -> assigned id' s -> retried id' s ->
  (forall j, run_frame p (txn s1 j) (txn s' j)) -> not_overtaken id' id s s'.
Proof.
  intros [] Hne Ha Hre Hr j x c' Hf Ht Hx Hc' Hu. rewrite <- (vi_others0 id Hne) in Hf, Hx.
  destruct (Hr id) as [_ [_ Hfree] _ _]. destruct (Hfree j x Ht Hx) as [?|Hc]; [congruence|].
  unfold can_exe_wo_conflict in Hc. rewrite forallb_forall in Hc.
  apply negb_true_iff, Hc, list_elem_of_In.
  destruct (Hr id') as [Hids [Hm _] _ _]. apply list_elem_of_lookup in Hc' as [i Hi].
  pose proof (f_equal (lookup i) Hids) as Hid. rewrite !list_lookup_fmap, Hi in Hid.
  destruct (pieces_ (txn s1 id') !! i) as [c|] eqn:Ec; [|done]. injection Hid as ->.
  apply vi_covered0; [done..|by apply list_elem_of_lookup; eauto|].
  destruct (local_executed_ c) eqn:El; [|done]. exfalso.
  specialize (Hm i). unfold flags in Hm. rewrite !list_lookup_fmap, Ec, Hi in Hm. cbn in Hm.
  rewrite El, Hu in Hm. by specialize (Hm eq_refl).
Qed.

Lemma check_executable_conflicts pre ts' id' post pending found s s' id :
  check_executable (pre ++ (ts', id') :: post) pending found s = Done (tt, s') ->
  id ∉ pre.*2 -> id' ∉ pre.*2 -> id ≠ id' -> assigned id' s -> retried id' s ->
  not_overtaken id' id s s'.
Proof.
  revert pending found s. induction pre as [|[ts0 id0] pre IH]; intros pending found s Hrun Hid Hid' Hne Ha Hre.
  - apply check_head in Hrun as [->|(p & s1 & Hv & Hrest)]; [intros ??????; congruence|].
    eapply head_not_overtaken; eauto. destruct Hrest as [->|(found' & Hrun)].
    + intros j. apply run_frame_refl.
    + intros j. by apply check_executable_runs with (id := j) in Hrun as [? _].
  - cbn in Hid, Hid'. apply not_elem_of_cons in Hid as [Hid0 Hid], Hid' as [Hid0' Hid'].
    apply check_head in Hrun as [->|(p & s1 & Hv & Hrest)]; [intros ??????; congruence|].
    pose proof (vi_others _ _ _ _ _ _ Hv id Hid0) as E. pose proof (vi_others _ _ _ _ _ _ Hv id' Hid0') as E'.
    destruct Hrest as [->|(found' & Hrun)]; [intros ??????; congruence|].
    apply IH in Hrun; [|done..|by unfold assigned; rewrite E'|by eapply visit_retried].
    unfold not_overtaken in *. by rewrite <- E.
Qed.

Lemma CheckExecutableTxns_loop s s' :
  CheckExecutableTxns s = Done (tt, s') ->
  exists s1, check_executable (ready_txns_ s) [] 0 s = Done (tt, s1) /\ s' = s1 <| new_input_ := false |>.
Proof.
  unfold CheckExecutableTxns. intros Hrun.
  apply bind_done in Hrun as (entries & s1 & [= <- <-] & Hrun).
  apply bind_done in Hrun as ([] & s2 & E & [= <-]). eauto.
Qed.

(** The queue around an entry: what comes before it, and that a later entry comes
    after it. *)
Lemma ready_split s ts' id' ts id :
  wf s -> (ts', id') ∈ ready_txns_ s -> (ts, id) ∈ ready_txns_ s -> ts_lt ts' ts = true ->
  exists pre post, ready_txns_ s = pre ++ (ts', id') :: post /\ (ts, id) ∈ post.
Proof.
  intros W Hin' Hin Hlt. apply list_elem_of_split in Hin' as (pre & post & E). exists pre, post. split; [done|].
  pose proof (wf_ready _ W) as Hs. unfold sorted_keys in Hs. rewrite E, fmap_app in Hs.
  apply StronglySorted_app in Hs as (Hs & _ & _). apply ts_lt_lex in Hlt.
  rewrite E in Hin. apply elem_of_app in Hin as [Hp|[Hx|Hp]%elem_of_cons]; [exfalso..|done].
  - apply (ts_lex_irrefl ts'), (ts_lex_trans _ ts); [done|]. apply key_lt_ts, Hs; [|set_solver].
    apply list_elem_of_fmap. by exists (ts, id).
  - injection Hx as -> ->. by apply (ts_lex_irrefl ts').
Qed.

(** ** Transactions with all their inputs *)

Lemma sends_done {A} (l : list A) (g : A -> bool) (m : A -> Msg) s :
  exists s', for_each l (fun x => when (g x) (send (m x))) s = Done (tt, s') /\ dtxns_ s' = dtxns_ s.
Proof.
  revert s. induction l as [|x l IH]; intros s; cbn [for_each]; [by exists s|].
  unfold mbind, M_bind, when. destruct (g x).
  - unfold send at 1, modify. destruct (IH (s <| sent_ ::= fun l => l ++ [m x] |>)) as (s' & E & Hd).
    exists s'. split; [exact E | exact Hd].
  - apply IH.
Qed.

Lemma run_pieces_total id pending s :
  runnable (txn s id) ->
  exists p s', run_pieces id pending s = Done (p, s') /\
    exec_result cfg pending p (txn s id) (txn s' id).
Proof.
  intros Hr. unfold run_pieces, mbind, M_bind. cbn [gets].
  destruct (exec_total cfg (partition_id_ s) pending (mk_txst (txn s id) (db_ s)))
    as (ret & p & st & E & Hres); [exact Hr|].
  unfold on_txn at 1. rewrite E.
  match goal with |- context [for_each ret ?f ?s1] =>
    destruct (sends_done ret (fun pair => negb (pair.1 =? partition_id_ s))
      (fun pair => SendOutput pair.1 (mk_SendOutputReq id pair.2)) s1) as (s2 & E2 & Hd) end.
  rewrite E2. exists p, s2. split; [done|]. simpl in Hd, Hres.
  unfold txn at 2. rewrite Hd, lookup_insert_eq. exact Hres.
Qed.

(** A transaction whose pieces are registered, ready and without conflict. *)
Definition all_inputs (pending : oset Z) (t : TxChronos) : Prop :=
  forall c, c ∈ pieces_ t -> is_Some (reg_get c) /\ piece_input_ready_ (input c) ≠ 0 /\
    can_exe_wo_conflict cfg (inn_id_ c) pending = true.

Lemma all_inputs_executed pending p t t' :
  all_inputs pending t -> exec_result cfg pending p t t' ->
  forall c, c ∈ pieces_ t' -> local_executed_ c = true.
Proof.
  intros Hall [Hset _ Hids _ _ _ Hready _] c Hc.
  assert (Forall ready_or_done (pieces_ t')) as Hrd.
  { apply Hready, Forall_forall. intros c0 Hc0. right. by apply Hall. }
  rewrite Forall_forall in Hrd. destruct (Hrd c Hc) as [?|Hnz]; [done|].
  destruct (Hset c Hc) as [?|[?|Hconf]]; [done..|].
  apply (list_elem_of_fmap_2 inn_id_) in Hc. rewrite Hids in Hc.
  apply list_elem_of_fmap in Hc as (c0 & E & Hc0). rewrite E in Hconf.
  destruct (Hall c0 Hc0) as (_ & _ & ?). congruence.
Qed.

Lemma all_inputs_finish id pending p s s' :
  wf s -> assigned id s -> all_inputs pending (txn s id) ->
  exec_result cfg pending p (txn s id) (txn s' id) ->
  (forall x, x ∈ p <-> x ∈ pending) /\ is_finished id s' = Done (true, s') /\
  is_Some (dist_output_ (txn s' id)) /\
  forall c, c ∈ pieces_ (txn s' id) -> local_executed_ c = true.
Proof.
  intros W Ha Hall Hres. pose proof (all_inputs_executed _ _ _ _ Hall Hres) as Hx.
  destruct (txn_wf s id W) as [_ Hexe Hcb _ _ _ _]. destruct (Hcb Ha) as [Hl Ho].
  destruct Hres as [_ Hcount Hids _ Hout Hpend _ Hframe]. split_and!; auto.
  - intros x. rewrite Hpend. split; [|by left]. intros [?|(c & Hc & Hf & _)]; [done|].
    rewrite Hx in Hf; done.
  - unfold is_finished, gets. do 2 f_equal.
    pose proof (f_equal n_local_pieces_ Hframe) as Hn. simpl in Hn.
    apply (f_equal length) in Hids. rewrite !length_fmap in Hids.
    assert (n_done (txn s' id) = length (pieces_ (txn s' id))) as Hd.
    { unfold n_done, flags. rewrite <- (length_fmap local_executed_).
      assert (Forall (fun b => b = true) (local_executed_ <$> pieces_ (txn s' id))) as Hb.
      { rewrite Forall_fmap, Forall_forall. exact Hx. }
      unfold ntrue. f_equal. induction Hb as [|b bs -> _ IH]; [done|]. rewrite filter_cons_True by done. by f_equal. }
    rewrite Hn, Hcount, Hl, Hexe, Hd. lia.
Qed.

(** An entry removed in order, and an earlier one. *)
Lemma removed_before s ts id ts' id' pre id2 post :
  wf s -> ready_txns_ s = pre ++ (ts, id2) :: post ->
  Forall (fun e => must_wait s e.2 = false) (pre ++ [(ts, id2)]) ->
  (ts, id) ∈ ready_txns_ s -> (ts', id') ∈ ready_txns_ s -> ts_lt ts' ts = true ->
  must_wait s id = false /\ must_wait s id' = false.
Proof.
  intros W E Hall Hin Hin' Hlt. pose proof (wf_ready _ W) as Hs. rewrite Forall_forall in Hall.
  assert (forall t i, (t, i) ∈ ready_txns_ s -> ~ ts_lex ts t -> must_wait s i = false) as Hbefore.
  { intros t i Hi Hle. apply (Hall (t, i)). rewrite E in Hi.
    apply elem_of_app in Hi as [Hp|[Hx|Hp]%elem_of_cons]; [set_solver | rewrite Hx; set_solver|].
    exfalso. unfold sorted_keys in Hs. rewrite E, fmap_app in Hs.
    apply StronglySorted_app in Hs as (_ & _ & Hs). simpl in Hs.
    apply StronglySorted_inv in Hs as [_ Hs]. rewrite Forall_forall in Hs.
    apply Hle, key_lt_ts, Hs, list_elem_of_fmap. by exists (t, i). }
  apply ts_lt_lex in Hlt. split; [apply (Hbefore ts id Hin), ts_lex_irrefl | apply (Hbefore ts' id' Hin')].
  intros Hlt2. by apply (ts_lex_irrefl ts), (ts_lex_trans _ ts').
Qed.

(** The run of the pieces, as [all_inputs_finish] states it; a transaction without
    pieces of its own has nothing to run. *)
Lemma pieces_finish id pending s (skip : bool) :
  wf s -> assigned id s -> all_inputs pending (txn s id) -> (skip = true -> pieces_ (txn s id) = []) ->
  exists p s1, (if skip then mret pending else run_pieces id pending) s = Done (p, s1) /\
    (forall x, x ∈ p <-> x ∈ pending) /\ is_finished id s1 = Done (true, s1) /\
    is_Some (dist_output_ (txn s1 id)) /\ all_executed (txn s1 id) /\
    tx_frame (txn s1 id) = tx_frame (if skip then txn s id else (txn s id) <| exe_tried_ := true |>).
Proof.
  intros W Ha Hall Hskip. destruct (wf_callback _ _ (txn_wf s id W) Ha) as [Hl Ho].
  destruct skip.
  - exists pending, s. specialize (Hskip eq_refl). split_and!; try done.
    + unfold is_finished, gets. do 2 f_equal. rewrite Hl, (wf_executed _ _ (txn_wf s id W)).
      unfold n_done, flags, ntrue. by rewrite Hskip.
    + unfold all_executed. by rewrite Hskip.
  - destruct (run_pieces_total id pending s) as (p & s1 & E & Hres).
    { split; [done|]. rewrite Forall_fmap. apply Forall_forall. intros c Hc. by apply Hall. }
    destruct (all_inputs_finish id pending p s s1 W Ha Hall Hres) as (Hp & Hf & Hout & Hx).
    exists p, s1. split_and!; auto; [by apply Forall_forall | apply Hres].
Qed.

(** The end of a cross-region transaction at its coordinator. *)
Definition crt_done (id par : Z) : M Sched () :=
  modify (fun s => s <| distributed_txns_by_me_ ::= serase id |>);;
  set_txn id (fun t => t <| dist_partition_status_ ::= insert par P_OUTPUT_RECEIVED |>);;
  modify (fun s => s <| dist_txn_tss_ ::= serase (ts_ (txn s id)) |>);;
  CheckSendOutputToClient id.

(** Every touched partition but [par] has sent its outputs. *)
Definition others_output (par : Z) (t : TxChronos) : bool :=
  forallb (fun pair => negb (status_Z pair.2 <? status_Z P_OUTPUT_RECEIVED))
    (insert par P_OUTPUT_RECEIVED (dist_partition_status_ t)).

Lemma crt_done_spec id par s :
  is_Some (dtxns_ s !! id) -> is_Some (dist_output_ (txn s id)) -> send_output_client (txn s id) ≠ SC_unassigned ->
  exists s', crt_done id par s = Done (tt, s') /\ pieces_ (txn s' id) = pieces_ (txn s id) /\
    (id ∉ distributed_txns_by_me_ s') /\
    find par (dist_partition_status_ (txn s' id)) = Some P_OUTPUT_RECEIVED /\
    (chr_phase_ (txn s id) ≠ OUTPUT_SENT -> others_output par (txn s id) = true ->
       exists out, list.last (sent_ s') = Some (ReplySubmit id out)).
Proof.
  intros [t Et] [out Ho] Hc. rewrite (txn_some s id t Et) in *.
  unfold crt_done, mbind, M_bind. cbn [modify]. unfold set_txn at 1, modify at 1.
  set (s1 := _ <| dist_txn_tss_ ::= _ |>).
  assert (txn s1 id = t <| dist_partition_status_ ::= insert par P_OUTPUT_RECEIVED |>) as E1.
  { unfold s1, txn. simpl. by rewrite lookup_alter_eq, Et. }
  assert (is_Some (dtxns_ s1 !! id)) as Hs1.
  { unfold s1. simpl. rewrite lookup_alter_eq, Et. by eexists. }
  assert (id ∉ distributed_txns_by_me_ s1) as Hme.
  { unfold s1. simpl. rewrite elem_of_serase. by intros [_ ?]. }
  unfold CheckSendOutputToClient, mbind, M_bind. cbn [gets]. rewrite E1. cbn [chr_phase_ dist_partition_status_].
  destruct (bool_decide _) eqn:Ep.
  { exists s1. rewrite E1. split_and!; try done; [apply find_insert_eq|]. apply bool_decide_eq_true in Ep. done. }
  unfold others_output. unfold when. destruct (forallb _ _) eqn:Ef.
  - destruct (send_output_client t) eqn:Ec; [done|].
    replace (send_output_client (t <| dist_partition_status_ ::= insert par P_OUTPUT_RECEIVED |>)) with SC_OnSubmitCRT by (by rewrite <- Ec).
    unfold output_of, mbind, M_bind. cbn [gets]. rewrite E1.
    replace (dist_output_ (t <| dist_partition_status_ ::= insert par P_OUTPUT_RECEIVED |>)) with (Some out) by (by rewrite <- Ho).
    cbn [from_option]. unfold send, set_txn, modify. eexists. split; [reflexivity|].
    rewrite txn_alter_some by done.
    change (txn (s1 <| sent_ ::= _ |>) id) with (txn s1 id). rewrite E1. simpl.
    split_and!; try done; [apply find_insert_eq|]. intros _ _. exists out. by rewrite last_snoc.
  - exists s1. rewrite E1. split_and!; try done. apply find_insert_eq.
Qed.

Lemma assigned_some id s : assigned id s -> is_Some (dtxns_ s !! id).
Proof. unfold assigned, txn. destruct (dtxns_ s !! id); [by eexists | done]. Qed.

Lemma run_pieces_keeps id pending s0 p s :
  run_pieces id pending s0 = Done (p, s) ->
  distributed_txns_by_me_ s = distributed_txns_by_me_ s0 /\ partition_id_ s = partition_id_ s0.
Proof.
  set (P s := distributed_txns_by_me_ s = distributed_txns_by_me_ s0 /\ partition_id_ s = partition_id_ s0).
  assert (preserves P (run_pieces id pending)) as Hp; [|intros E; by apply Hp in E].
  unfold run_pieces, send. solve_preserves; [|by apply preserves_modify].
  intros s1 r s' Hs Hrun. unfold on_txn in Hrun.
  by destruct (RecursiveExecuteReadyPieces _ _ _ _) as [[ret st]| |]; [injection Hrun as <- <-|..].
Qed.

Lemma submit_crt_finishes id pending s :
  wf s -> assigned id s -> all_inputs pending (txn s id) ->
  id ∈ distributed_txns_by_me_ s -> send_output_client (txn s id) ≠ SC_unassigned ->
  exists p s', cb_OnSubmitCRT id pending s = Done ((true, p), s') /\
    (forall x, x ∈ p <-> x ∈ pending) /\
    (forall c, c ∈ pieces_ (txn s' id) -> local_executed_ c = true) /\
    (id ∉ distributed_txns_by_me_ s') /\
    find (partition_id_ s) (dist_partition_status_ (txn s' id)) = Some P_OUTPUT_RECEIVED /\
    (chr_phase_ (txn s id) ≠ OUTPUT_SENT -> others_output (partition_id_ s) (txn s id) = true ->
       exists out, list.last (sent_ s') = Some (ReplySubmit id out)).
Proof.
  intros W Ha Hall Hme Hc.
  set (skip := (length (pieces_ (txn s id)) =? 0)%nat).
  destruct (pieces_finish id pending s skip W Ha Hall) as (p & s1 & E & Hp & Hf & Ho & Hx & Hfr).
  { unfold skip. intros ?%Nat.eqb_eq. by apply nil_length_inv. }
  assert (assigned id s1 /\ distributed_txns_by_me_ s1 = distributed_txns_by_me_ s /\ partition_id_ s1 = partition_id_ s)
    as (Ha1 & Hme1 & Hpar).
  { destruct skip; [by injection E as <- <-|]. split; [by eapply run_pieces_assigned|].
    by apply (run_pieces_keeps id pending s) in E. }
  destruct (crt_done_spec id (partition_id_ s1) s1) as (s2 & E2 & Hpc & Hout & Hst & Hrep); [by apply assigned_some | done|..].
  { pose proof (f_equal send_output_client Hfr) as H1. destruct skip; cbn in H1; congruence. }
  unfold cb_OnSubmitCRT, mbind, M_bind. cbn [gets]. fold skip. rewrite E, Hf. cbn [when get].
  unfold mbind, M_bind. cbn [get]. rewrite Hme1, (proj2 (smem_spec _ _) Hme). cbn [verify].
  unfold crt_done, mbind, M_bind in E2. rewrite E2. exists p, s2. split; [done|]. split; [done|].
  unfold all_executed in Hx. rewrite Forall_forall in Hx. rewrite Hpc, <- Hpar. split_and!; try done.
  pose proof (f_equal chr_phase_ Hfr) as Hph. pose proof (f_equal dist_partition_status_ Hfr) as Hds.
  unfold others_output in *. destruct skip; cbn in Hph, Hds; rewrite <- Hph, <- Hds; exact Hrep.
Qed.

End exec.

(** C3: [CheckExecutableTxns] runs the queue in timestamp order.  When a
    transaction is taken out of the queue, it and every queued transaction with a
    smaller timestamp was executable: its phase allowed it and every site of the
    region had passed its commit timestamp.  And no piece that runs in the call
    conflicts with a piece of an earlier transaction [id'] that has not run by the
    end of it, if the callback of [id'] is called: [id'] has not been tried before,
    or a new input has arrived since, or this site is not its region handler.  A
    transaction that was tried, without new input, is passed over and its waiting
    pieces are forgotten. *)
Theorem executes_in_ts_order `{Env} s s' ts id ts' id' :
  wf s -> CheckExecutableTxns s = Done (tt, s') ->
  (ts, id) ∈ ready_txns_ s -> (ts', id') ∈ ready_txns_ s -> ts_lt ts' ts = true ->
  (find ts (ready_txns_ s') = None -> must_wait s id = false /\ must_wait s id' = false) /\
  (NoDup ((ready_txns_ s).*2) -> assigned id' s -> retried id' s -> not_overtaken id' id s s').
Proof.
  intros W Hrun Hin Hin' Hlt. destruct (ready_split s ts' id' ts id W Hin' Hin Hlt) as (pre & post & E & Hpost).
  apply CheckExecutableTxns_loop in Hrun as (s1 & Hrun & ->). split.
  - cbn. intros Hgone. pose proof (wf_ready _ W) as Hs.
    apply sorted_elem_of_find in Hin as Hf; [|done]. apply sorted_elem_of_find in Hin' as Hf'; [|done].
    destruct (proj1 (check_executable_order _ _ _ _ _ Hrun) ts) as [Ek|(_ & pre2 & id2 & post2 & E2 & Hall)]; [congruence|].
    eapply removed_before; eauto.
  - intros Hnd Ha Hre. rewrite E in Hrun, Hnd. rewrite fmap_app, fmap_cons in Hnd.
    apply NoDup_app in Hnd as (_ & Hnd & [Hnd' _]%NoDup_cons).
    apply (list_elem_of_fmap_2 snd) in Hpost. cbn in *.
    apply check_executable_conflicts with (id := id) in Hrun; try done.
    + intros Hp. apply (Hnd _ Hp). by right.
    + intros Hp. apply (Hnd _ Hp). left.
    + by intros ->.
Qed.

(** C8: a transaction that [CheckExecutableTxns] erases from the ready queue
    of the site that is its region handler has run all its pieces.  (At any other
    site the entry is erased after one call of its callback.) *)
Theorem finished_means_executed `{Env} site db s s' ts id :
  reachable site db s -> CheckExecutableTxns s = Done (tt, s') ->
  find ts (ready_txns_ s) = Some id -> find ts (ready_txns_ s') = None ->
  region_handler_ (txn s id) = site_id_ s ->
  Forall (fun c => local_executed_ c = true) (pieces_ (txn s' id)).
Proof.
  intros Hr Hrun Hf Hgone Hh. apply reachable_wf in Hr. apply CheckExecutableTxns_loop in Hrun as (s1 & Hrun & ->).
  destruct (check_executable_finished _ _ _ _ _ Hr Hrun ts) as [E|(j & Hj & Hx)]; [cbn in Hgone; congruence|].
  apply sorted_elem_of_find in Hj; [|apply Hr]. replace j with id in Hx by congruence. by apply Hx.
Qed.

(** C29: a transaction of one region or of several whose inputs have all
    arrived, and none of whose pieces conflicts with a pending one, finishes in a
    single call of its execution callback, and nothing of it stays pending.  If
    this site coordinates a transaction of one region, the result goes to the
    client.  The coordinator of a cross-region transaction, which must have it in
    its list and know how to answer the client, crosses it off, marks its own
    partition as done, and answers the client if every other partition has sent
    its outputs; another site of such a transaction sends its outputs to the
    coordinator if it has been asked for them. *)
Theorem all_ready_finishes `{Env} s id pending :
  wf s -> assigned id s -> all_inputs pending (txn s id) ->
  (execute_callback_ (txn s id) = EC_OnSubmitCRT ->
     id ∈ distributed_txns_by_me_ s /\ send_output_client (txn s id) ≠ SC_unassigned) ->
  exists p s', execute_callback id pending s = Done ((true, p), s') /\
    (forall x, x ∈ p <-> x ∈ pending) /\
    (forall c, c ∈ pieces_ (txn s' id) -> local_executed_ c = true) /\
    match execute_callback_ (txn s id) with
    | EC_HandleIRT => exists out, list.last (sent_ s') = Some (ReplySubmit id out)
    | EC_OnSubmitCRT =>
      (id ∉ distributed_txns_by_me_ s') /\
      find (partition_id_ s) (dist_partition_status_ (txn s' id)) = Some P_OUTPUT_RECEIVED /\
      (chr_phase_ (txn s id) ≠ OUTPUT_SENT -> others_output (partition_id_ s) (txn s id) = true ->
         exists out, list.last (sent_ s') = Some (ReplySubmit id out))
    | EC_OnPrepareCRT => send_output_to_handler_ (txn s id) = SO_OnDistExe ->
      exists out, list.last (sent_ s') = Some (ReplyDistExe id 1 out)
    | EC_OnPrepareIRT | EC_unassigned => True
    end.
Proof.
  intros W Ha Hall Hcrt.
  destruct (pieces_finish id pending s false W Ha Hall) as (p & s1 & E & Hp & Hf & [out Ho] & Hx & Hfr); [done|].
  unfold all_executed in Hx. rewrite Forall_forall in Hx.
  unfold execute_callback, mbind, M_bind. cbn [gets]. destruct (execute_callback_ (txn s id)) eqn:Hcb; [done|..].
  - unfold cb_HandleIRT, mbind, M_bind. rewrite E, Hf. cbn [when]. unfold output_of, mbind, M_bind.
    cbn [gets]. rewrite Ho. cbn [from_option]. unfold send, modify. cbn.
    eexists _, _. split; [reflexivity|]. split_and!; auto. exists out. simpl. by rewrite last_snoc.
  - destruct (Hcrt eq_refl). by apply submit_crt_finishes.
  - unfold cb_OnPrepareIRT, mbind, M_bind. rewrite E, Hf. eexists _, _. split; [reflexivity|].
    by split_and!.
  - unfold cb_OnPrepareCRT, mbind, M_bind. rewrite E, Hf. cbn [gets when].
    pose proof (f_equal send_output_to_handler_ Hfr) as Hso. cbn in Hso. rewrite Hso.
    destruct (send_output_to_handler_ (txn s id)).
    + eexists _, _. split; [reflexivity|]. by split_and!.
    + unfold output_of, mbind, M_bind. cbn [gets]. rewrite Ho. cbn [from_option]. unfold send, modify. cbn.
      eexists _, _. split; [reflexivity|]. split_and!; auto. intros _. exists out. simpl. by rewrite last_snoc.
Qed.
(** ** Instances *)

#[local] Existing Instance demo_env.

(** Site 0 with transactions 5 and 6 in its queue, both stored by a replica. *)
Definition demo_pair_events : list Event :=
  [EvSubmitTxn [(0, demo_cmds)] 1; EvSubmitTxn [(0, [demo_piece 6 7 1])] 1;
   demo_sync 3; demo_sync 4; demo_sync 5; demo_ack 1;
   EvPrepareIRTACK 6 0 1 (mk_StoreLocalRes (mk_ts 2001 0 1) [] ts_zero); demo_ack 2].
Definition demo_pair : Sched := after (run demo_pair_events) (demo_site 0).

(** Transaction 6 leaves the queue, so transaction 5 before it could run, and no
    piece of 6 has overtaken a piece of 5. *)
Lemma executes_in_ts_order_witness :
  must_wait demo_pair 5 = false /\ not_overtaken 5 6 demo_pair (after CheckExecutableTxns demo_pair).
Proof.
  destruct (executes_in_ts_order demo_pair (after CheckExecutableTxns demo_pair)
           (mk_ts 1001 1001 0) 6 (mk_ts 1000 1000 0) 5) as [Ho Hc].
  - eapply reachable_wf, (demo_reachable demo_pair_events); [repeat constructor | vm_compute; reflexivity].
  - apply done_after. vm_compute. reflexivity.
  - vm_compute. right. left.
  - vm_compute. left.
  - reflexivity.
  - split; [apply Ho; vm_compute; reflexivity | apply Hc].
    + apply (bool_decide_unpack (NoDup (ready_txns_ demo_pair).*2)). vm_compute. exact I.
    + unfold assigned. assert (execute_callback_ (txn demo_pair 5) = EC_HandleIRT) as -> by (vm_compute; reflexivity). discriminate.
    + left. vm_compute. reflexivity.
Defined.

Lemma finished_means_executed_witness :
  Forall (fun c => local_executed_ c = true) (pieces_ (txn (after CheckExecutableTxns demo_ready) 5)).
Proof.
  apply (@finished_means_executed demo_env (mk_site 0 0) (0 : Z) demo_ready (after CheckExecutableTxns demo_ready)
           (mk_ts 1000 1000 0) 5).
  - apply demo_ready_reachable.
  - apply done_after. vm_compute. reflexivity.
  - vm_compute. reflexivity.
  - vm_compute. reflexivity.
  - vm_compute. reflexivity.
Defined.

Lemma all_ready_finishes_witness :
  exists p s', execute_callback 5 [] demo_ready = Done ((true, p), s') /\
    (forall x, x ∈ p <-> x ∈ []) /\
    (forall c, c ∈ pieces_ (txn s' 5) -> local_executed_ c = true) /\
    exists out, list.last (sent_ s') = Some (ReplySubmit 5 out).
Proof.
  assert (execute_callback_ (txn demo_ready 5) = EC_HandleIRT) as Hcb by (vm_compute; reflexivity).
  destruct (all_ready_finishes demo_ready 5 []) as (p & s' & Hrun & Hp & Hx & Hout).
  - eapply reachable_wf, demo_ready_reachable.
  - unfold assigned. rewrite Hcb. discriminate.
  - clear Hcb. intros c Hc. assert (c ∈ demo_cmds) as Hd.
    { revert Hc. assert (pieces_ (txn demo_ready 5) = demo_cmds) as -> by (vm_compute; reflexivity). done. }
    unfold demo_cmds in Hd. apply elem_of_cons in Hd as [->|Hd].
    { split; [by eexists | done]. }
    apply elem_of_cons in Hd as [->|Hd%not_elem_of_nil]; [|done]. split; [by eexists | done].
  - rewrite Hcb. discriminate.
  - rewrite Hcb in Hout. exists p, s'. split; [exact Hrun|]. split; [exact Hp|]. split; [exact Hx | exact Hout].
Defined.
