(* ===== verification/ChrNotify.v ===== *)
(** * What the sites of a region tell each other

    [HandlePiggyInfo] takes in the clock of another site, the transactions it
    announces and what it has received; [CollectNotifyTxns] builds the
    announcements; [OnNotiCRT] and [OnNotiCommit] block and release
    timestamps. *)
From stdpp Require Import base tactics numbers list sorting gmap sets.
From S2P Require Import Prelude OMap Command Config ChrTs ChrTypes ChrTx ChrSched ChrSchedInv ChrDemo ChrClock ChrExec.

Section notify.
Context `{Env}.

(** ** Releasing timestamps *)

(** The entry of timestamp [k] once the site has reported [ts]. *)
Definition released (site : Z) (ts k : chr_ts_t) (sites : oset Z) : option (oset Z) :=
  if ts_lt ts k then Some sites
  else match serase site sites with [] => None | l => Some l end.

Lemma unblock_find site ts w d k :
  sorted_keys w -> find k (unblock site ts w d).1 = find k w ≫= released site ts k.
Proof.
  revert d. induction w as [|[k' sites] w IH]; intros d Hw; [done|]. cbn [unblock].
  pose proof Hw as Hw0. unfold sorted_keys in Hw. simpl in Hw.
  apply StronglySorted_inv in Hw as [Hw Hall]. destruct (ts_lt ts k') eqn:Hlt.
  - cbn [fst]. destruct (find k ((k', sites) :: w)) as [x|] eqn:Ef; [|done]. simpl. unfold released.
    assert (ts_lt ts k = true) as ->; [|done]. simpl in Ef. case_decide as Hk; [by subst|].
    apply find_elem_of, (list_elem_of_fmap_2 fst) in Ef. rewrite Forall_forall in Hall.
    apply ts_lt_lex. eapply ts_lex_trans; [by apply ts_lt_lex | apply key_lt_ts; by apply Hall].
  - assert (k = k' -> find k w = None) as Hnone.
    { intros ->. apply find_None_notin. intros Hin. rewrite Forall_forall in Hall. specialize (Hall _ Hin). unfold key_lt in Hall.
      by rewrite key_irrefl in Hall. }
    simpl. destruct (serase site sites) as [|x l] eqn:Es.
    + rewrite IH by done. destruct (decide (k = k')) as [->|Hne]; [|done].
      rewrite Hnone by done. simpl. unfold released. by rewrite Hlt, Es.
    + specialize (IH d Hw). destruct (unblock site ts w d) as [w2 d2]. simpl in *.
      destruct (decide (k = k')) as [->|Hne]; [|done]. simpl. unfold released. by rewrite Hlt, Es.
Qed.

(** The timestamps that nobody blocks any more. *)
Definition freed (site : Z) (ts : chr_ts_t) (w : omap chr_ts_t (oset Z)) (x : chr_ts_t) : Prop :=
  exists sites, find x w = Some sites /\ released site ts x sites = None.

Lemma unblock_dist site ts w d x :
  sorted_keys w -> x ∈ (unblock site ts w d).2 <-> x ∈ d /\ ~ freed site ts w x.
Proof.
  revert d. induction w as [|[k sites] w IH]; intros d Hw.
  { simpl. split; [|by intros []]. intros Hx. split; [done|]. by intros (? & ? & _). }
  pose proof (unblock_find site ts ((k, sites) :: w) d x Hw) as Hfind.
  unfold sorted_keys in Hw. simpl in Hw. apply StronglySorted_inv in Hw as [Hw Hall].
  assert (find k w = None) as Hnone.
  { apply find_None_notin. intros Hin. rewrite Forall_forall in Hall. specialize (Hall _ Hin).
    unfold key_lt in Hall. by rewrite key_irrefl in Hall. }
  cbn [unblock] in *. destruct (ts_lt ts k) eqn:Hlt.
  - cbn [fst snd] in *. split; [|by intros []]. intros Hx. split; [done|].
    intros (sites' & Hf & Hr). rewrite Hf in Hfind. simpl in Hfind. by rewrite Hr in Hfind.
  - assert (freed site ts ((k, sites) :: w) x <->
      (x = k /\ serase site sites = []) \/ (x ≠ k /\ freed site ts w x)) as ->.
    { unfold freed. simpl. case_decide as Hk; [subst x|].
      - split.
        + intros (? & [= <-] & Hr). unfold released in Hr. rewrite Hlt in Hr.
          destruct (serase site sites); [by left | done].
        + intros [[_ Hs]|[? _]]; [|done]. exists sites. unfold released. by rewrite Hlt, Hs.
      - split; [by right|]. intros [[? _]|[_ ?]]; done. }
    destruct (serase site sites) as [|y l].
    + rewrite IH, elem_of_serase by done. split.
      * intros [[Hd Hk] Hf]. split; [done|]. by intros [[-> _]|[_ ?]].
      * intros [Hd Hf]. destruct (decide (x = k)) as [->|]; [exfalso; by apply Hf; left|].
        split; [done|]. intros ?. apply Hf. by right.
    + specialize (IH d Hw). destruct (unblock site ts w d) as [w2 d2]. simpl in *. rewrite IH.
      split; (intros [Hd Hf]; split; [done|]).
      * by intros [[_ ?]|[_ ?]].
      * intros Hx. apply Hf. right. split; [|done]. intros ->.
        destruct Hx as (? & Hx & _). congruence.
Qed.

(** ** Taking in the state of another site *)

(** What announcements may change: transactions are added, none is altered. *)
Definition note_frame (s0 s : Sched) : Prop :=
  s = s0 <| dtxns_ := dtxns_ s |> <| ready_txns_ := ready_txns_ s |> /\
  forall id t, dtxns_ s0 !! id = Some t -> dtxns_ s !! id = Some t.

Lemma note_frame_refl s : note_frame s s.
Proof. split; [by destruct s | done]. Qed.

Lemma handle_notified_run site info s :
  exists s', handle_notified site info s = Done (tt, s') /\ is_Some (dtxns_ s' !! info_txn_id info) /\
    note_frame s s'.
Proof.
  unfold handle_notified, GetOrCreateDTxn, GetDTxn, mbind, M_bind. cbn [gets].
  destruct (dtxns_ s !! info_txn_id info) as [t|] eqn:E.
  { exists s. split; [done|]. split; [eauto | apply note_frame_refl]. }
  cbn [gets]. rewrite E. unfold CreateDTxn, mbind, M_bind, verify. cbn [get].
  rewrite bool_decide_true by done. eexists. split; [reflexivity|]. simpl. split.
  - rewrite lookup_alter_eq, lookup_insert_eq. eauto.
  - split; [done|]. simpl. intros id t Ht. rewrite lookup_alter_ne, lookup_insert_ne by congruence. done.
Qed.

Lemma handle_all_notified site infos s :
  exists s', for_each infos (handle_notified site) s = Done (tt, s') /\ note_frame s s' /\
    Forall (fun info => is_Some (dtxns_ s' !! info_txn_id info)) infos.
Proof.
  revert s. induction infos as [|info infos IH]; intros s.
  { exists s. split; [done|]. split; [apply note_frame_refl | done]. }
  destruct (handle_notified_run site info s) as (s1 & E1 & [t Hi] & [F1 D1]).
  destruct (IH s1) as (s2 & E2 & [F2 D2] & Hall). exists s2. cbn [for_each].
  unfold mbind, M_bind. rewrite E1, E2. split; [done|]. split.
  - split; [|eauto]. rewrite F2, F1. by destruct s.
  - constructor; [|done]. eauto.
Qed.

Lemma GenerateChrTs_false_run s : exists r, GenerateChrTs false s = Done (r, s <| clock_reads_ ::= S |>).
Proof. unfold GenerateChrTs, read_clock, mbind, M_bind. cbn [state]. by eexists. Qed.

(** The effect of [HandlePiggyInfo], on every branch. *)
Record piggy_effect (site : Z) (ts dts : chr_ts_t) (infos : list ChrTxnInfo) (s s' : Sched) : Prop := {
  pe_known : Forall (fun info => is_Some (dtxns_ s' !! info_txn_id info)) infos;
  pe_txns : forall id t, dtxns_ s !! id = Some t -> dtxns_ s' !! id = Some t;
  pe_max : let old := (index ts_zero site (ir_site_max_ts s)).1 in
    forall j, find j (ir_site_max_ts s') =
      if decide (site = j) then Some (if ts_lt old ts then ts else old)
      else find j (ir_site_max_ts s);
  pe_notified : let old := (index ts_zero site (ir_site_notified_ts s)).1 in
    forall j, find j (ir_site_notified_ts s') =
      if decide (site = j) then Some (if ts_lt old dts then dts else old)
      else find j (ir_site_notified_ts s);
  pe_stale : ts_lt (index ts_zero site (ir_site_max_ts s)).1 ts = false ->
    dist_txn_tss_ s' = dist_txn_tss_ s /\ ir_site_wait_ts_ s' = ir_site_wait_ts_ s /\
    clock_offset_ s' = clock_offset_ s;
  pe_wait : ts_lt (index ts_zero site (ir_site_max_ts s)).1 ts = true -> sorted_keys (ir_site_wait_ts_ s) ->
    (forall k, find k (ir_site_wait_ts_ s') = find k (ir_site_wait_ts_ s) ≫= released site ts k) /\
    (forall x, x ∈ dist_txn_tss_ s' <->
       x ∈ dist_txn_tss_ s /\ ~ freed site ts (ir_site_wait_ts_ s) x);
  pe_rest : last_clock_ s' = last_clock_ s /\ site_id_ s' = site_id_ s /\ n_replicas s' = n_replicas s /\
    sent_ s' = sent_ s /\ my_txns_ s' = my_txns_ s;
}.

Lemma adopt_run site ts s :
  exists off, adopt_remote_ts site ts s =
    Done (tt, s <| clock_reads_ ::= S |> <| clock_offset_ := off |>
      <| ir_site_max_ts ::= insert site ts |>
      <| ir_site_wait_ts_ := (unblock site ts (ir_site_wait_ts_ s) (dist_txn_tss_ s)).1 |>
      <| dist_txn_tss_ := (unblock site ts (ir_site_wait_ts_ s) (dist_txn_tss_ s)).2 |>).
Proof.
  unfold adopt_remote_ts, mbind, M_bind. destruct (GenerateChrTs_false_run s) as [r ->].
  destruct s. unfold when. destruct (_ <? _); cbn [modify mret M_ret]; eexists; unfold modify; simpl;
    by destruct (unblock _ _ _ _).
Qed.

Lemma find_index_update (old new : chr_ts_t) (b : bool) (site : Z) (m : omap Z chr_ts_t) j :
  (index ts_zero site m).1 = old ->
  find j (if b then insert site new (index ts_zero site m).2 else (index ts_zero site m).2) =
  if decide (site = j) then Some (if b then new else old) else find j m.
Proof.
  intros <-. destruct b; rewrite ?find_insert, find_index; by case_decide.
Qed.

Lemma HandlePiggyInfo_run site ts infos dts s :
  exists s', HandlePiggyInfo site ts infos dts s = Done (tt, s') /\ piggy_effect site ts dts infos s s'.
Proof.
  unfold HandlePiggyInfo. unfold mbind at 1, M_bind.
  destruct (handle_all_notified site infos s) as (s1 & E1 & [F1 D1] & Hk). rewrite E1.
  assert (ir_site_max_ts s1 = ir_site_max_ts s /\ ir_site_notified_ts s1 = ir_site_notified_ts s /\
    dist_txn_tss_ s1 = dist_txn_tss_ s /\ ir_site_wait_ts_ s1 = ir_site_wait_ts_ s /\
    clock_offset_ s1 = clock_offset_ s /\ last_clock_ s1 = last_clock_ s /\ site_id_ s1 = site_id_ s /\
    n_replicas s1 = n_replicas s /\ sent_ s1 = sent_ s /\ my_txns_ s1 = my_txns_ s)
    as (A1 & A2 & A3 & A4 & A5 & A6 & A7 & A8 & A9 & A10) by (rewrite F1; by split_and!).
  set (s2 := s1 <| ir_site_notified_ts ::= fun m => let '(cur, m) := index ts_zero site m in
    if ts_lt cur dts then insert site dts m else m |>).
  assert (forall j, find j (ir_site_notified_ts s2) =
    if decide (site = j) then Some (let old := (index ts_zero site (ir_site_notified_ts s)).1 in
      if ts_lt old dts then dts else old) else find j (ir_site_notified_ts s)) as Hn.
  { intros j. unfold s2. simpl. rewrite A2.
    pose proof (find_index_update (index ts_zero site (ir_site_notified_ts s)).1 dts
      (ts_lt (index ts_zero site (ir_site_notified_ts s)).1 dts) site _ j eq_refl) as Hx.
    by destruct (index ts_zero site (ir_site_notified_ts s)). }
  pose proof (find_index_update (index ts_zero site (ir_site_max_ts s)).1 ts
    (ts_lt (index ts_zero site (ir_site_max_ts s)).1 ts) site (ir_site_max_ts s)) as Hm.
  unfold mbind at 1, M_bind. cbn [modify]. unfold mbind, M_bind. unfold state at 1. cbv beta.
  match goal with |- context [index ts_zero site (ir_site_max_ts ?x)] =>
    change (ir_site_max_ts x) with (ir_site_max_ts s1) end. rewrite A1.
  destruct (index ts_zero site (ir_site_max_ts s)) as [m0 m1] eqn:Em. cbn [fst snd] in Hm.
  destruct (ts_lt m0 ts) eqn:Elt; cbn [when].
  - match goal with |- context [adopt_remote_ts site ts ?s3] =>
      destruct (adopt_run site ts s3) as [off E3] end.
    rewrite E3. eexists. split; [reflexivity|]. split; simpl; auto; rewrite ?Em; simpl.
    + rewrite Elt. auto.
    + intros ?. congruence.
    + intros _ Hw. rewrite A3, A4. split; intros; [by apply unblock_find | by apply unblock_dist].
  - eexists. split; [reflexivity|]. split; simpl; auto; rewrite ?Em; simpl.
    + rewrite Elt. auto.
    + intros. congruence.
Qed.

(** ** Announcements *)

Definition infos_of (s : Sched) (par : Z) (u : omap chr_ts_t Z) : list ChrTxnInfo :=
  List.flat_map (fun e => option_list (notify_info s par e)) u.

Lemma infos_elem_of s par u info :
  info ∈ infos_of s par u <->
  exists ts id, (ts, id) ∈ u /\ is_irt_ (txn s id) = true /\
    count par (dist_partition_acks_ (txn s id)) = true /\
    info = mk_info (tid_ (txn s id)) ts (site_id_ s).
Proof.
  unfold infos_of. rewrite list_elem_of_In, in_flat_map. split.
  - intros ([ts id] & Hin & Hi). apply list_elem_of_In in Hin. exists ts, id.
    unfold notify_info in Hi. simpl in Hi. destruct (_ && _) eqn:E; [|done].
    apply andb_true_iff in E as [? ?]. destruct Hi as [<-|[]]. auto.
  - intros (ts & id & Hin & Hirt & Hc & ->). exists (ts, id). split; [by apply list_elem_of_In|].
    unfold notify_info. simpl. rewrite Hirt, Hc. by left.
Qed.

Lemma infos_sorted s par u :
  sorted_keys u -> StronglySorted (fun a b => ts_lex (info_ts a) (info_ts b)) (infos_of s par u).
Proof.
  unfold sorted_keys. induction u as [|[ts id] u IH]; simpl; intros Hs; [constructor|].
  apply StronglySorted_inv in Hs as [Hs Hall]. specialize (IH Hs).
  unfold notify_info. simpl. destruct (_ && _); [|done]. simpl. constructor; [done|].
  apply Forall_forall. intros info (ts' & id' & Hin & _ & _ & ->)%infos_elem_of. simpl.
  rewrite Forall_forall in Hall. apply key_lt_ts, Hall, list_elem_of_fmap. by exists (ts', id').
Qed.

Lemma upper_bound_sorted {V} k (m : omap chr_ts_t V) : sorted_keys m -> sorted_keys (upper_bound k m).
Proof.
  intros Hs. destruct (upper_bound_suffix k m) as [pre E]. unfold sorted_keys in *.
  rewrite E, fmap_app in Hs. by apply StronglySorted_app_1_r in Hs.
Qed.

End notify.

(** [HandlePiggyInfo] always completes.  It makes every
    announced transaction known and alters none; the clock kept for the other site
    becomes the larger of the old and the new one, and so does what it has
    received; if the clock moved, the site is taken off every waiting timestamp up
    to it, and exactly the timestamps that wait for nobody else are released. *)
Theorem piggy_info_effect `{Env} site ts infos dts s :
  exists s', HandlePiggyInfo site ts infos dts s = Done (tt, s') /\ piggy_effect site ts dts infos s s'.
Proof. apply HandlePiggyInfo_run. Qed.

(** [CollectNotifyTxns] returns, in timestamp order,
    exactly the transactions that this site coordinates, that are local to the
    region, that touch the partition of the target, and whose timestamp is above
    what the target has acknowledged. *)
Theorem notifications_complete `{Env} target par s :
  wf s ->
  exists infos s', CollectNotifyTxns target par s = Done (infos, s') /\
    StronglySorted (fun a b => ts_lex (info_ts a) (info_ts b)) infos /\
    forall info, info ∈ infos <->
      exists ts id, (ts, id) ∈ my_txns_ s /\
        ts_lex (index ts_zero target (ir_site_notified_ts s)).1 ts /\
        is_irt_ (txn s id) = true /\ count par (dist_partition_acks_ (txn s id)) = true /\
        info = mk_info (tid_ (txn s id)) ts (site_id_ s).
Proof.
  intros W. unfold CollectNotifyTxns, state.
  destruct (index ts_zero target (ir_site_notified_ts s)) as [from m]. eexists _, _.
  split; [reflexivity|]. split.
  - apply infos_sorted, upper_bound_sorted, W.
  - intros info. change (List.flat_map _ _) with (infos_of s par (upper_bound from (my_txns_ s))).
    rewrite infos_elem_of. setoid_rewrite upper_bound_elem_of; [|apply W].
    split; intros (ts & id & Hx); exists ts, id; rewrite key_lt_ts in *; naive_solver.
Qed.

(** once a site has been told of a multi-region transaction it
    does not take part in, the anticipated timestamp is blocked and waits for the
    sites that do. *)
Theorem noti_crt_blocks `{Env} req s s' :
  OnNotiCRT req s = Done (tt, s') ->
  nc_anticipated_ts req ∈ dist_txn_tss_ s' /\
  (exists sites, find (nc_anticipated_ts req) (ir_site_wait_ts_ s') = Some sites /\
     forall x, x ∈ nc_touched_sites req -> x ∈ sites) /\
  dtxns_ s !! nc_txn_id req = None /\ ready_txns_ s' = ready_txns_ s.
Proof.
  unfold OnNotiCRT, GetDTxn, add_wait. intros Hrun.
  apply bind_done in Hrun as (d & s1 & [= <- <-] & Hrun).
  apply bind_done in Hrun as ([] & s1 & Hv & Hrun).
  unfold verify in Hv. destruct (bool_decide _) eqn:Ed; [|done]. injection Hv as <-.
  apply bool_decide_eq_true in Ed.
  apply bind_done in Hrun as ([] & s1 & [= <-] & [= <-]). simpl. split_and!; try done.
  - apply elem_of_sinsert. by left.
  - eexists. split; [apply find_insert_eq|]. intros x Hx. apply elem_of_sinsert_range. by left.
Qed.

(** the commit notice releases the anticipated timestamp;
    if the transaction still waits for an input, its new timestamp is blocked
    instead, and otherwise nothing is. *)
Theorem noti_commit_releases `{Env} req s :
  exists s', OnNotiCommit req s = Done (tt, s') /\
    (nm_need_input_wait req ≠ 1 ->
       find (nm_original_ts req) (ir_site_wait_ts_ s') = None /\
       forall x, x ∈ dist_txn_tss_ s' <-> x ∈ dist_txn_tss_ s /\ x ≠ nm_original_ts req) /\
    (nm_need_input_wait req = 1 ->
       (exists sites, find (nm_new_ts req) (ir_site_wait_ts_ s') = Some sites) /\
       forall x, x ∈ dist_txn_tss_ s' <->
         x = nm_new_ts req \/ (x ∈ dist_txn_tss_ s /\ x ≠ nm_original_ts req)).
Proof.
  unfold OnNotiCommit, add_wait, mbind, M_bind. cbn [modify].
  destruct (Z.eqb_spec (nm_need_input_wait req) 1) as [E|E]; cbn [when]; eexists;
    (split; [reflexivity|]); split; intros Hx; try done; simpl.
  - split; [eexists; apply find_insert_eq|]. intros x. by rewrite elem_of_sinsert, elem_of_serase.
  - split; [apply find_erase_eq|]. intros x. apply elem_of_serase.
Qed.

(** ** Instances *)

#[local] Existing Instance demo_env.

Lemma notifications_complete_witness :
  exists infos s', CollectNotifyTxns 1 0 demo_ready = Done (infos, s') /\
    StronglySorted (fun a b => ts_lex (info_ts a) (info_ts b)) infos /\
    forall info, info ∈ infos <->
      exists ts id, (ts, id) ∈ my_txns_ demo_ready /\
        ts_lex (index ts_zero 1 (ir_site_notified_ts demo_ready)).1 ts /\
        is_irt_ (txn demo_ready id) = true /\
        count 0 (dist_partition_acks_ (txn demo_ready id)) = true /\
        info = mk_info (tid_ (txn demo_ready id)) ts (site_id_ demo_ready).
Proof.
  apply (notifications_complete 1 0 demo_ready). eapply reachable_wf, demo_ready_reachable.
Defined.

Lemma noti_crt_blocks_witness :
  mk_ts 1000 0 12 ∈ dist_txn_tss_ demo_blocked /\
  (exists sites, find (mk_ts 1000 0 12) (ir_site_wait_ts_ demo_blocked) = Some sites /\
     forall x, x ∈ [3; 4] -> x ∈ sites) /\
  dtxns_ (demo_site 0) !! 9 = None /\ ready_txns_ demo_blocked = ready_txns_ (demo_site 0).
Proof.
  apply (noti_crt_blocks (mk_NotiCRTReq 9 (mk_ts 1000 0 12) [3; 4]) (demo_site 0) demo_blocked).
  unfold demo_blocked. apply done_after. vm_compute. reflexivity.
Defined.
