(* ===== verification/ChrIrt.v ===== *)
(** * Submitting a transaction of one region: [HandleIRT]

    The transaction gets a fresh timestamp above everything this site has issued,
    enters the queues under it, and is sent to every other site of every partition
    it touches.  The search for the timestamp ends.  The transaction may run only
    after enough sites of every partition it touches have acknowledged it. *)
From stdpp Require Import base tactics numbers list sorting gmap sets.
From S2P Require Import Prelude OMap Command Config ChrTs ChrTypes ChrTx ChrSched ChrSchedInv ChrDemo ChrClock ChrExec ChrNotify.

Section irt.
Context `{Env}.

(** The addressee and the payload of a [PrepareIRT]. *)
Definition irt_msg (m : Msg) : option (Z * Z * list SimpleCommand * chr_ts_t) :=
  match m with
  | SendPrepareIRT par site cmds req => Some (par, site, cmds, sl_txn_ts req)
  | _ => None
  end.

Definition irt_targets_of (me : Z) (ts : chr_ts_t) (item : Z * list SimpleCommand) (sites : list SiteInfo) :=
  (fun p => (item.1, si_id p, item.2, ts)) <$> filter (fun p => si_id p ≠ me) sites.

Definition irt_targets (me : Z) (ts : chr_ts_t) (cmds_by_par : omap Z (list SimpleCommand)) :=
  mbind (fun item => irt_targets_of me ts item (default [] (SitesByPartitionId cfg item.1))) cmds_by_par.

(** From [s0] to [s] only the messages to [l] have been sent, and the queues and
    the clock are as they were. *)
Record sent_to (l : list (Z * Z * list SimpleCommand * chr_ts_t)) (s0 s : Sched) : Prop := {
  st_sent : exists msgs, sent_ s = sent_ s0 ++ msgs /\ irt_msg <$> msgs = Some <$> l;
  st_ready : ready_txns_ s = ready_txns_ s0;
  st_my : my_txns_ s = my_txns_ s0;
  st_clock : last_clock_ s = last_clock_ s0;
  st_site : site_id_ s = site_id_ s0;
  st_txns : forall id, chr_phase_ (txn s id) = chr_phase_ (txn s0 id) /\ ts_ (txn s id) = ts_ (txn s0 id) /\
    (is_Some (dtxns_ s0 !! id) -> is_Some (dtxns_ s !! id));
}.

Lemma sent_to_refl s : sent_to [] s s.
Proof. split; try done. exists []. by rewrite app_nil_r. Qed.

Lemma sent_to_trans l1 l2 s0 s1 s2 : sent_to l1 s0 s1 -> sent_to l2 s1 s2 -> sent_to (l1 ++ l2) s0 s2.
Proof.
  intros [(m1 & E1 & F1) ? ? ? ? T1] [(m2 & E2 & F2) ? ? ? ? T2]. split; try congruence.
  - exists (m1 ++ m2). rewrite E2, E1, app_assoc, !fmap_app, F1, F2. done.
  - intros id. destruct (T1 id) as (? & ? & ?), (T2 id) as (? & ? & ?). split_and!; try congruence; auto.
Qed.

Lemma send_to_sites ts par cmds sites s s' me :
  site_id_ s = me ->
  for_each sites (fun p =>
    me ← gets site_id_;
    when (negb (si_id p =? me))
      (infos ← CollectNotifyTxns (si_id p) par;
       send (SendPrepareIRT par (si_id p) cmds (mk_StoreLocalReq ts infos ts_zero)))) s = Done (tt, s') ->
  sent_to (irt_targets_of me ts (par, cmds) sites) s s'.
Proof.
  revert s. induction sites as [|p sites IH]; intros s Hme Hrun; cbn [for_each] in Hrun.
  { injection Hrun as <-. apply sent_to_refl. }
  apply bind_done in Hrun as ([] & s1 & E & Hrun).
  apply bind_done in E as (me' & s2 & [= <- <-] & E). rewrite Hme in E.
  unfold irt_targets_of. rewrite filter_cons.
  destruct (Z.eqb_spec (si_id p) me) as [Hp|Hp]; cbn [negb when] in E.
  - injection E as <-. rewrite decide_False by congruence. by apply IH.
  - rewrite decide_True by done. rewrite fmap_cons.
    apply (sent_to_trans [_] _ s s1 s').
    + apply bind_done in E as (infos & s2 & Ec & [= <-]).
      unfold CollectNotifyTxns, state in Ec. destruct (index _ _ _) as [from m]. injection Ec as <- <-.
      split; try done. by eexists [_].
    + apply IH; [|done]. apply bind_done in E as (infos & s2 & Ec & [= <-]).
      unfold CollectNotifyTxns, state in Ec. destruct (index _ _ _) as [from m]. by injection Ec as <- <-.
Qed.

Lemma send_prepare_irt_sent id ts item s s' :
  send_prepare_irt id ts item s = Done (tt, s') ->
  sent_to (irt_targets_of (site_id_ s) ts item (default [] (SitesByPartitionId cfg item.1))) s s'.
Proof.
  unfold send_prepare_irt. intros Hrun. apply bind_done in Hrun as ([] & s1 & [= <-] & Hrun).
  apply bind_done in Hrun as (sites & s1 & Es & Hrun).
  destruct (SitesByPartitionId cfg item.1) as [sites0|]; [|done]. injection Es as <- <-. simpl.
  destruct item as [par cmds].
  match type of Hrun with for_each _ _ ?x = _ => apply (sent_to_trans [] _ s x s') end;
    [|by eapply send_to_sites].
  split; try done.
  - exists []. by rewrite app_nil_r.
  - intros j. destruct (decide (j = id)) as [->|Hj].
    + destruct (txn_alter s id (fun t => t <| dist_partition_acks_ ::= insert (par, cmds).1 [] |>))
        as [-> | ->]; (split_and!; [done..|]); intros [t Ht]; simpl; rewrite lookup_alter_eq, Ht; eauto.
    + rewrite txn_alter_ne by done. split_and!; try done. simpl. by rewrite lookup_alter_ne.
Qed.

Lemma send_all_prepare_irt id ts cmds_by_par s s' :
  for_each cmds_by_par (send_prepare_irt id ts) s = Done (tt, s') ->
  sent_to (irt_targets (site_id_ s) ts cmds_by_par) s s'.
Proof.
  revert s. induction cmds_by_par as [|item l IH]; intros s Hrun; cbn [for_each] in Hrun.
  { injection Hrun as <-. apply sent_to_refl. }
  apply bind_done in Hrun as ([] & s1 & E & Hrun). apply send_prepare_irt_sent in E.
  apply IH in Hrun. rewrite (st_site _ _ _ E) in Hrun. by eapply sent_to_trans.
Qed.

(** The effect of submitting a transaction. *)
Record irt_submitted (cmds_by_par : omap Z (list SimpleCommand)) (s s' : Sched) (is_ts : chr_ts_t)
    (is_id : Z) : Prop := {
  is_root : exists c, c ∈ mbind snd cmds_by_par /\ root_id_ c = is_id;
  is_new : dtxns_ s !! is_id = None;
  is_above : ts_lex (last_clock_ s) is_ts;
  is_free : find is_ts (ready_txns_ s) = None;
  is_ready : ready_txns_ s' = insert is_ts is_id (ready_txns_ s);
  is_my : my_txns_ s' = insert is_ts is_id (my_txns_ s);
  is_clock : last_clock_ s' = is_ts;
  is_txn : chr_phase_ (txn s' is_id) = LOCAL_NOT_STORED /\ ts_ (txn s' is_id) = is_ts;
  is_sent : exists msgs, sent_ s' = sent_ s ++ msgs /\
    irt_msg <$> msgs = Some <$> irt_targets (site_id_ s) is_ts cmds_by_par;
}.

Lemma head_cmd_elem (cmds_by_par : omap Z (list SimpleCommand)) c :
  ('(_, cs) ← head cmds_by_par; head cs) = Some c -> c ∈ mbind snd cmds_by_par.
Proof.
  destruct cmds_by_par as [|[p [|c' cs]] l]; simpl; try done. intros [= ->]. left.
Qed.

Lemma HandleIRT_spec cmds_by_par s s' :
  HandleIRT cmds_by_par s = Done (tt, s') ->
  stretchable (1 + Z.of_nat (length (ready_txns_ s))) s ->
  sane_clock (1 + Z.of_nat (length (ready_txns_ s))) s ->
  exists ts id, irt_submitted cmds_by_par s s' ts id.
Proof.
  intros Hrun Hst Hsane. unfold HandleIRT in Hrun.
  apply bind_done in Hrun as (c & s1 & Ec & Hrun).
  destruct ('(_, cs) ← head cmds_by_par; head cs) as [c0|] eqn:Ehd; [|done]. injection Ec as -> <-.
  apply bind_done in Hrun as (ts0 & s1 & Eg & Hrun).
  destruct (GenerateChrTs_local s ts0 s1 Eg) as (Habove & Hl1 & Hsame1 & _).
  { eapply stretchable_le; [|exact Hst]. lia. }
  destruct (GenerateChrTs_budget _ s ts0 s1 Eg (Nat2Z.is_nonneg _) Hst Hsane) as [Hst1 Hsane1].
  apply bind_done in Hrun as (n & s2 & [= <- <-] & Hrun).
  assert (ready_txns_ s1 = ready_txns_ s) as Hr1 by (by rewrite Hsame1).
  apply bind_done in Hrun as (ts & s2 & Ef & Hrun). rewrite <- Hr1 in Hst1, Hsane1.
  destruct (fresh_ts_spec _ ts0 s1 ts s2 Ef Hl1 Hst1 Hsane1) as (Hfree & Hge & Hl2 & Hsame2).
  assert (same_but_clock s s2) as Hsame.
  { unfold same_but_clock in *. rewrite Hsame2 at 1. rewrite Hsame1 at 1. done. }
  apply bind_done in Hrun as ([] & s3 & Ecr & Hrun). unfold CreateDTxn in Ecr.
  apply bind_done in Ecr as (s0 & s3' & [= <- <-] & Ecr).
  apply bind_done in Ecr as ([] & s3' & Hv & [= <-]).
  unfold verify in Hv. destruct (bool_decide _) eqn:Ed; [|done]. injection Hv as <-.
  apply bool_decide_eq_true in Ed.
  apply bind_done in Hrun as (s4 & s5 & [= <- <-] & Hrun).
  apply bind_done in Hrun as (pieces & s5 & Ep & Hrun).
  destruct (find _ cmds_by_par) as [ps|]; [|done]. injection Ep as <- <-.
  apply bind_done in Hrun as ([] & s5 & [= <-] & Hrun).
  apply bind_done in Hrun as ([] & s5 & [= <-] & Hrun).
  apply send_all_prepare_irt in Hrun as [Hsent Hr Hm Hc Hsite Htx].
  rewrite Hsame in Ed. simpl in *. rewrite Hsame in Hr, Hm, Hsent. simpl in *. rewrite Hr1 in Hfree.
  exists ts, (root_id_ c). split; try done.
  - exists c. split; [by apply head_cmd_elem | done].
  - unfold ts_lex in *. lia.
  - by rewrite Hc.
  - destruct (Htx (root_id_ c)) as (-> & -> & _). unfold txn. simpl.
    by rewrite lookup_alter_eq, lookup_insert_eq.
Qed.

Lemma bind_fuel {S A B} (m : M S A) (k : A -> M S B) s :
  m s ≠ OutOfFuel -> (forall a, terminates (k a)) -> (m ≫= k) s ≠ OutOfFuel.
Proof. intros Hm Hk. unfold mbind, M_bind. destruct (m s) as [[a s1]| |]; [apply Hk | done | done]. Qed.

Lemma not_before_le ts m : (not_before ts m <= length m)%nat.
Proof. apply length_filter. Qed.

Lemma HandleIRT_fuel cmds_by_par s :
  stretchable (1 + Z.of_nat (length (ready_txns_ s))) s ->
  sane_clock (1 + Z.of_nat (length (ready_txns_ s))) s ->
  HandleIRT cmds_by_par s ≠ OutOfFuel.
Proof.
  intros Hst Hsane. unfold HandleIRT. unfold mbind at 1, M_bind.
  destruct ('(_, cs) ← head cmds_by_par; head cs) as [c|]; [|done]. cbn [from_option mret M_ret].
  unfold mret, M_ret. destruct (GenerateChrTs_total true s) as (ts0 & s1 & Eg).
  destruct (GenerateChrTs_local s ts0 s1 Eg) as (Habove & Hl1 & Hsame1 & _).
  { eapply stretchable_le; [|exact Hst]. lia. }
  destruct (GenerateChrTs_budget _ s ts0 s1 Eg (Nat2Z.is_nonneg _) Hst Hsane) as [Hst1 Hsane1].
  assert (ready_txns_ s1 = ready_txns_ s) as Hr1 by (by rewrite Hsame1).
  rewrite <- Hr1 in Hst1, Hsane1.
  unfold mbind at 1, M_bind. rewrite Eg. unfold mbind at 1, M_bind. cbn [gets].
  apply bind_fuel.
  - apply fresh_ts_terminates; try done. apply not_before_le.
  - intros ts. unfold send_prepare_irt, CreateDTxn, CollectNotifyTxns, send, set_txn. solve_terminates.
Qed.

(** ** What the events about other transactions leave alone *)

(** The fields of a site that never change. *)
Definition consts (s : Sched) : Z * Z * Z := (n_replicas s, site_id_ s, partition_id_ s).

Lemma GenerateChrTs_consts b c : preserves (fun s => consts s = c) (GenerateChrTs b).
Proof.
  unfold GenerateChrTs, read_clock. apply preserves_bind; [by apply preserves_state|].
  intros r. apply preserves_state. intros s. by destruct (negb b).
Qed.

Lemma fresh_ts_consts fuel ts c : preserves (fun s => consts s = c) (fresh_ts fuel ts).
Proof.
  revert ts. induction fuel as [|fuel IH]; intros ts; cbn [fresh_ts]; solve_preserves.
  - by intros ? ? ? ? ?.
  - apply GenerateChrTs_consts.
Qed.

Lemma execute_callback_consts j pending c : preserves (fun s => consts s = c) (execute_callback j pending).
Proof.
  unfold execute_callback, cb_HandleIRT, cb_OnSubmitCRT, cb_OnPrepareIRT, cb_OnPrepareCRT,
    run_pieces, CheckSendOutputToClient, is_finished, output_of, send, set_txn.
  solve_preserves; try by apply preserves_modify.
  all: intros s r s' Hs Hrun; unfold on_txn in Hrun;
    by destruct (RecursiveExecuteReadyPieces _ _ _ _) as [[ret st]| |]; [injection Hrun as <- <-|..].
Qed.

(** The transaction an event is about, for the handlers that may move a
    transaction that exists to another phase. *)
Definition names (e : Event) : option Z :=
  match e with
  | EvSubmitCRT cmds_by_region =>
    root_id_ <$> ('(_, by_par) ← head cmds_by_region; '(_, cs) ← head by_par; head cs)
  | EvPrepareIRT cmds _ | EvPrepareCRT cmds _ | EvProposeLocal cmds _ | EvProposeRemote cmds _ =>
    root_id_ <$> head cmds
  | EvPrepareIRTACK id _ _ _ | EvDistExeAck id _ _ _ | EvProposeLocalACK id _ _ | EvProposeRemoteAck id _ _ _ => Some id
  | EvRemotePrepared req => Some (rp_txn_id req)
  | EvDistExe req => Some (de_txn_id req)
  | EvSubmitTxn _ _ | EvIRSync _ | EvIRSyncTimer | EvSendOutput _ | EvNotiCRT _ | EvNotiCommit _ => None
  end.

(** A property [K] of the transaction [id] that running its pieces and feeding it
    inputs keep is kept by every handler that is not about [id]. *)
Section kept.
Context (id : Z) (c : Z * Z * Z) (K : TxChronos -> Prop).
Context (K_exec : forall s t pending r s', dtxns_ s !! id = Some t -> K t -> must_wait s id = false ->
  execute_callback id pending s = Done (r, s') -> exists t', dtxns_ s' !! id = Some t' /\ K t').
Context (K_ready : forall t, K t -> K (t <| input_ready_ := 2 |>)).
Context (K_pieces : forall t ps, K t -> K (t <| pieces_ := ps |>)).

Definition kept (s : Sched) : Prop := consts s = c /\ exists t, dtxns_ s !! id = Some t /\ K t.

Lemma modify_kept (f : Sched -> Sched) :
  (forall s, consts (f s) = consts s /\ dtxns_ (f s) = dtxns_ s) -> preserves kept (modify f).
Proof. intros Hf. apply preserves_modify. intros s. unfold kept. by destruct (Hf s) as [-> ->]. Qed.

Lemma state_kept {R} (f : Sched -> R * Sched) :
  (forall s, consts (f s).2 = consts s /\ dtxns_ (f s).2 = dtxns_ s) -> preserves kept (state f).
Proof. intros Hf. apply preserves_state. intros s. unfold kept. by destruct (Hf s) as [-> ->]. Qed.

Lemma set_txn_kept_ne j f : j ≠ id -> preserves kept (set_txn j f).
Proof.
  intros Hj. apply preserves_modify. intros s (Hn & t & Ht & Hs). split; [done|]. exists t.
  split; [|done]. simpl. by rewrite lookup_alter_ne.
Qed.

Lemma set_txn_kept j f : (forall t, K t -> K (f t)) -> preserves kept (set_txn j f).
Proof.
  intros Hf. destruct (decide (j = id)) as [->|Hj]; [|by apply set_txn_kept_ne].
  apply preserves_modify. intros s (Hn & t & Ht & Hs). split; [done|]. exists (f t).
  split; [|by apply Hf]. simpl. by rewrite lookup_alter_eq, Ht.
Qed.

Lemma send_kept m : preserves kept (send m).
Proof. unfold send. by apply modify_kept. Qed.

Lemma GetDTxn_kept j : preserves kept (GetDTxn j).
Proof. apply preserves_gets. Qed.

(** A transaction that is created is another one. *)
Lemma bind_CreateDTxn_kept {R} j (k : () -> M Sched R) :
  (j ≠ id -> preserves kept (k ())) -> preserves kept (CreateDTxn j ≫= k).
Proof.
  intros Hk s r s' (Hn & t & Ht & Hs) Hrun. apply bind_done in Hrun as ([] & s1 & Ec & Hrun).
  unfold CreateDTxn in Ec. apply bind_done in Ec as (s0 & s2 & [= <- <-] & Ec).
  apply bind_done in Ec as ([] & s2 & Hv & [= <-]).
  unfold verify in Hv. destruct (bool_decide _) eqn:Ed; [|done]. injection Hv as <-.
  apply bool_decide_eq_true in Ed. assert (j ≠ id) as Hj by congruence. eapply (Hk Hj); [|exact Hrun].
  split; [done|]. exists t. split; [|done]. simpl. by rewrite lookup_insert_ne.
Qed.

Lemma CreateDTxn_kept j : preserves kept (CreateDTxn j).
Proof.
  intros s [] s' Hs Hrun. apply (bind_CreateDTxn_kept j mret (fun _ => preserves_ret _ _) s tt s' Hs).
  by rewrite (bind_eq _ _ _ _ _ Hrun).
Qed.

Lemma GetOrCreateDTxn_kept j : preserves kept (GetOrCreateDTxn j).
Proof.
  unfold GetOrCreateDTxn. apply preserves_bind; [apply GetDTxn_kept|]. intros [t|]; [apply preserves_ret|].
  apply CreateDTxn_kept.
Qed.

Lemma GenerateChrTs_kept b : preserves kept (GenerateChrTs b).
Proof.
  unfold GenerateChrTs, read_clock. apply preserves_bind; [by apply state_kept|].
  intros r. apply state_kept. intros s. by destruct (negb b).
Qed.

Lemma HandlePiggyInfo_kept site ts infos dts : preserves kept (HandlePiggyInfo site ts infos dts).
Proof.
  unfold HandlePiggyInfo, adopt_remote_ts. solve_preserves;
    first [apply GenerateChrTs_kept | apply modify_kept | apply state_kept | idtac];
    try (intros s; repeat case_match; done).
  intros s [] s' (Hn & t & Ht & Hs) Hrun. unfold handle_notified in Hrun.
  apply bind_done in Hrun as (d & s1 & [= <- <-] & Hrun).
  destruct (dtxns_ s !! info_txn_id x) as [t'|] eqn:Ed; [injection Hrun as <-; split; eauto|].
  assert (info_txn_id x ≠ id) as Hj by congruence. revert Hrun.
  assert (preserves kept (GetOrCreateDTxn (info_txn_id x);;
    set_txn (info_txn_id x) (fun t => t <| ts_ := info_ts x |> <| handler_site_ := site |>
      <| region_handler_ := info_region_leader x |> <| chr_phase_ := LOCAL_CAN_EXE |>);;
    modify (fun s => s <| ready_txns_ ::= insert (info_ts x) (info_txn_id x) |>))) as Hk.
  { apply preserves_bind; [apply GetOrCreateDTxn_kept|]. intros _.
    apply preserves_bind; [by apply set_txn_kept_ne|]. intros _. by apply modify_kept. }
  apply Hk. split; eauto.
Qed.

Lemma CollectNotifyTxns_kept site par : preserves kept (CollectNotifyTxns site par).
Proof. unfold CollectNotifyTxns. apply state_kept. intros s. by destruct (index _ _ _). Qed.
#[local] Hint Resolve send_kept GetDTxn_kept CreateDTxn_kept GetOrCreateDTxn_kept GenerateChrTs_kept
  HandlePiggyInfo_kept CollectNotifyTxns_kept : preserves.

Lemma execute_callback_kept j pending s r s' :
  kept s -> must_wait s j = false -> execute_callback j pending s = Done (r, s') -> kept s'.
Proof.
  intros (Hn & t & Ht & Hs) Hw Hrun.
  split; [rewrite <- Hn; by apply (execute_callback_consts j pending (consts s)) in Hrun|].
  destruct (decide (j = id)) as [->|Hj]; [by eapply K_exec|].
  apply (execute_callback_frame j s) in Hrun as Hf; [|apply exec_frame_refl].
  exists t. split; [by rewrite (ef_others j s s' Hf) | done].
Qed.

Lemma CheckExecutableTxns_kept : preserves kept CheckExecutableTxns.
Proof.
  assert (forall entries pending found, preserves kept (check_executable entries pending found)) as Hc.
  { induction entries as [|[ts j] entries IH]; intros pending found; cbn [check_executable]; [apply preserves_ret|].
    intros s [] s' Hs Hrun. apply bind_done in Hrun as (? & ? & [= <- <-] & Hrun).
    destruct (must_wait s j) eqn:Hw; [by injection Hrun as <-|]. destruct (_ =? _).
    - apply bind_done in Hrun as ([fin p] & s1 & E & Hrun).
      assert (kept s1) as Hs1 by (destruct (negb _ || _); [by eapply execute_callback_kept | by injection E as _ _ <-]).
      revert Hs1 Hrun. destruct fin; [apply preserves_bind; [by apply modify_kept | intros []; apply IH]|].
      destruct (_ >? _); [apply preserves_ret | apply IH].
    - apply bind_done in Hrun as ([fin p] & s1 & E & Hrun). apply execute_callback_kept in E as Hs1; [|done..].
      revert Hs1 Hrun. apply preserves_bind; [by apply modify_kept|]. intros []. apply IH. }
  unfold CheckExecutableTxns. solve_preserves. by apply modify_kept.
Qed.
#[local] Hint Resolve CheckExecutableTxns_kept : preserves.

Ltac solve_kept :=
  solve_preserves; first [by apply modify_kept | by apply set_txn_kept_ne | by apply set_txn_kept | idtac].

Lemma CheckRemotePrepared_kept j : j ≠ id -> preserves kept (CheckRemotePrepared j).
Proof.
  intros Hj. unfold CheckRemotePrepared, send_noti_wait. solve_kept.
  apply preserves_state. intros s (Hn & t & Ht & Hs). destruct (index _ _ _). split; [done|]. exists t.
  simpl. by rewrite lookup_alter_ne.
Qed.

Lemma CheckSendOutputToClient_kept j : j ≠ id -> preserves kept (CheckSendOutputToClient j).
Proof. intros Hj. unfold CheckSendOutputToClient, output_of. solve_kept. Qed.

Lemma fresh_ts_kept fuel ts : preserves kept (fresh_ts fuel ts).
Proof.
  revert ts. induction fuel as [|fuel IH]; intros ts; cbn [fresh_ts]; solve_kept. by intros ? ? ? ? ?.
Qed.
#[local] Hint Resolve CheckRemotePrepared_kept CheckSendOutputToClient_kept fresh_ts_kept : preserves.

Lemma HandleIRT_kept cmds_by_par : preserves kept (HandleIRT cmds_by_par).
Proof.
  unfold HandleIRT. apply preserves_bind_option. intros c0 _. apply preserves_bind; [solve_kept|].
  intros ts0. apply preserves_bind; [solve_kept|]. intros m. apply preserves_bind; [solve_kept|].
  intros ts. apply bind_CreateDTxn_kept. intros Hj. unfold send_prepare_irt. solve_kept.
Qed.

Lemma OnSendOutput_kept req : preserves kept (OnSendOutput req).
Proof.
  unfold OnSendOutput. solve_kept.
  apply preserves_state. intros s0 (Hn & t0 & Ht & Hs). unfold MergeCheckReadyPieces.
  destruct (merge_output _ _) as [ps more]. split; [done|]. simpl.
  destruct (decide (so_txn_id req = id)) as [->|Hj].
  - rewrite lookup_insert_eq. eexists. split; [done|]. rewrite (txn_some s0 id t0 Ht). auto.
  - exists t0. by rewrite lookup_insert_ne.
Qed.

(** A handler that takes the transaction id from its first command. *)
Ltac other_root H :=
  apply preserves_bind_option; let Hc := fresh "Hc" in intros ?c0 Hc; rewrite Hc in H;
  match type of Hc with _ = Some ?x =>
    assert (root_id_ x ≠ id) by (let E := fresh "E" in intros E; apply H; by rewrite <- E) end;
  solve_kept.

Lemma handle_kept e : names e ≠ Some id -> preserves kept (handle e).
Proof.
  destruct e as [cbp irt|cbr|cmd req|tid par site res|req| |req|req|tid par out lead|req|req|req|cmds req|cmds req
    |tid site my|cmds req|tid par site ts]; cbn [names handle]; intros Hne.
  - unfold OnSubmitTxn. apply preserves_when, HandleIRT_kept.
  - unfold OnSubmitCRT. other_root Hne.
  - unfold OnPrepareIRT. other_root Hne.
  - unfold PrepareIRTACK. assert (tid ≠ id) by congruence. solve_kept.
  - unfold OnIRSync. solve_kept.
  - unfold IRSyncLoop. solve_kept. apply state_kept. intros s. by destruct (index _ _ _).
  - unfold OnRemotePrepared. assert (rp_txn_id req ≠ id) by congruence. solve_kept.
    apply preserves_state. intros s0 (Hn & t0 & Ht & Hs). destruct (index _ _ _). split; [done|]. exists t0.
    simpl. by rewrite lookup_alter_ne.
  - unfold OnDistExe. assert (de_txn_id req ≠ id) by congruence. solve_kept.
  - unfold DistExeAck, output_of. assert (tid ≠ id) by congruence. solve_kept.
  - apply OnSendOutput_kept.
  - unfold OnNotiCRT, add_wait. solve_kept.
  - unfold OnNotiCommit, add_wait. solve_kept.
  - unfold OnPrepareCRT. other_root Hne.
  - unfold OnProposeLocal. other_root Hne.
  - unfold ProposeLocalACK. assert (tid ≠ id) by congruence. solve_kept.
  - unfold OnProposeRemote. other_root Hne. all: by intros ? ? ? ? ?.
  - unfold ProposeRemoteAck. assert (tid ≠ id) by congruence. solve_kept.
Qed.
End kept.

(** ** Acknowledgements

    What a submitted transaction [id] waits for: nothing but its own
    acknowledgements moves it out of [LOCAL_NOT_STORED]. *)

(** The transaction has the acknowledgements [A] and is in phase [ph]. *)
Definition irt_in (A : omap Z (oset Z)) (ph : TxnPhase) (t : TxChronos) : Prop :=
  dist_partition_acks_ t = A /\ chr_phase_ t = ph /\ execute_callback_ t = EC_HandleIRT.

Definition held (id : Z) (k : Z * Z * Z) (A : omap Z (oset Z)) (ph : TxnPhase) : Sched -> Prop :=
  kept id k (irt_in A ph).

Lemma irt_in_exec id A ph s t pending r s' :
  dtxns_ s !! id = Some t -> irt_in A ph t -> must_wait s id = false ->
  execute_callback id pending s = Done (r, s') -> exists t', dtxns_ s' !! id = Some t' /\ irt_in A ph t'.
Proof.
  intros Ht Hin _ Hrun. unfold execute_callback in Hrun.
  apply bind_done in Hrun as (cb & s1 & [= <- <-] & Hrun).
  rewrite (txn_some s id t Ht), (proj2 (proj2 Hin)) in Hrun.
  enough (preserves (held id (consts s) A ph) (cb_HandleIRT id pending)) as Hp.
  { apply Hp in Hrun as [_ ?]; [done|]. split; [done|]. by exists t. }
  unfold cb_HandleIRT, run_pieces, is_finished, output_of. solve_preserves; try apply send_kept.
  intros s1 r1 s2 (Hn & t1 & Ht1 & Ha & Hp & Hc) Hrun1. unfold on_txn in Hrun1.
  destruct (RecursiveExecuteReadyPieces _ _ _ _) as [[[ret p] st]| |] eqn:E; [|done|done].
  injection Hrun1 as <- <-. apply exec_done in E as []. simpl in *. rewrite (txn_some s1 id t1 Ht1) in *.
  split; [done|]. exists (tx st). simpl. rewrite lookup_insert_eq. split; [done|].
  pose proof (f_equal dist_partition_acks_ er_frame) as E1. pose proof (f_equal chr_phase_ er_frame) as E2.
  pose proof (f_equal execute_callback_ er_frame) as E3. cbn in E1, E2, E3. unfold irt_in. by rewrite E1, E2, E3.
Qed.

Lemma CheckExecutableTxns_held id k A ph : preserves (held id k A ph) CheckExecutableTxns.
Proof. apply CheckExecutableTxns_kept, irt_in_exec. Qed.

Lemma handle_held id k A ph e : names e ≠ Some id -> preserves (held id k A ph) (handle e).
Proof. intros He. by apply handle_kept; [apply irt_in_exec|..]. Qed.

(** The number of acknowledgements asked of each partition. *)
Definition ack_quorum (n : Z) : Z := Z.quot (n - 1) 2.

Definition add_irt_ack (par site : Z) (A : omap Z (oset Z)) : omap Z (oset Z) :=
  insert par (sinsert site (index [] par A).1) A.

(** An acknowledgement is recorded, and the transaction goes on if every partition
    it waits for has enough. *)
Lemma PrepareIRTACK_held id k A ph par site res s s' :
  held id k A ph s -> PrepareIRTACK id par site res s = Done (tt, s') ->
  held id k A ph s' \/ held id k (add_irt_ack par site A) ph s' \/
  held id k (add_irt_ack par site A) LOCAL_CAN_EXE s' /\
    Forall (fun p => ack_quorum k.1.1 <= Z.of_nat (length p.2)) (add_irt_ack par site A).
Proof.
  intros Hs Hrun. unfold PrepareIRTACK in Hrun.
  apply bind_done in Hrun as (d & s1 & [= <- <-] & Hrun).
  apply bind_done in Hrun as ([] & s1 & Hv & Hrun).
  apply (preserves_verify _ (fun x => x = s)) in Hv as ->; [|done].
  apply bind_done in Hrun as ([] & s1 & Hp & Hrun). apply (HandlePiggyInfo_kept id k (irt_in A ph)) in Hp; [|done].
  apply bind_done in Hrun as (ph0 & s2 & [= <- <-] & Hrun).
  destruct (bool_decide _); [injection Hrun as <-; by left|]. right.
  apply bind_done in Hrun as ([] & s2 & [= <-] & Hrun).
  apply bind_done in Hrun as (s2 & s3 & [= <- <-] & Hrun). set (s2 := s1 <| dtxns_ ::= _ |>) in *.
  destruct Hp as (Hn & t & Ht & Ha & Hp & Hc).
  assert (held id k (add_irt_ack par site A) ph s2) as Hs2.
  { split; [done|]. eexists. unfold s2. simpl. rewrite lookup_alter_eq, Ht. split; [done|]. unfold irt_in. simpl. by rewrite Ha. }
  clearbody s2. destruct (forallb _ _) eqn:Eall; [right | by injection Hrun as <-; left].
  destruct Hs2 as (Hn2 & t2 & Ht2 & Ha2 & _ & Hc2). rewrite (txn_some s2 id t2 Ht2), Ha2 in Eall.
  pose proof (f_equal (fun c => c.1.1) Hn2) as Hnr. cbn in Hnr. rewrite Hnr in Eall. split.
  - apply bind_done in Hrun as ([] & s3 & [= <-] & Hrun). eapply CheckExecutableTxns_held; [|exact Hrun].
    split; [done|]. eexists. simpl. rewrite lookup_alter_eq, Ht2. by split_and!.
  - apply Forall_forall. intros p Hin%list_elem_of_In. rewrite forallb_forall in Eall. specialize (Eall p Hin).
    unfold ack_quorum. lia.
Qed.

Lemma sinsert_length (x : Z) (l : oset Z) : (length l <= length (sinsert x l))%nat.
Proof. induction l as [|y l IH]; cbn [sinsert length]; [lia|]. repeat case_match; cbn; lia. Qed.

(** The sites that have stored [id] for partition [par], according to [es]. *)
Definition stored (id : Z) (es : list Event) (par : Z) (sites : oset Z) : Prop :=
  sorted_set sites /\ forall x, x ∈ sites -> exists res, EvPrepareIRTACK id par x res ∈ es.

(** The submitted transaction [id], after the events [es]. *)
Definition irt_tracked (id : Z) (k : Z * Z * Z) (pars : list Z) (es : list Event) (s : Sched) : Prop :=
  exists A ph, held id k A ph s /\
    (forall par sites, find par A = Some sites -> stored id es par sites) /\
    (forall par, par ∈ pars -> is_Some (find par A)) /\
    (ph ≠ LOCAL_NOT_STORED ->
       forall par sites, par ∈ pars -> find par A = Some sites -> ack_quorum k.1.1 <= Z.of_nat (length sites)).

Lemma stored_app id es es' par sites : stored id es par sites -> stored id (es ++ es') par sites.
Proof. intros [? Hs]. split; [done|]. intros x Hx. destruct (Hs x Hx) as [res ?]. exists res. set_solver. Qed.

Lemma add_irt_ack_stored id es par site res A :
  (forall p sites, find p A = Some sites -> stored id es p sites) ->
  forall p sites, find p (add_irt_ack par site A) = Some sites -> stored id (es ++ [EvPrepareIRTACK id par site res]) p sites.
Proof.
  intros Hst p sites. unfold add_irt_ack. rewrite find_insert. case_decide as Hp; [|by intros; apply stored_app, Hst].
  subst p. intros [= <-].
  assert (stored id es par (index [] par A).1) as [Hs Hx].
  { rewrite index_fst. destruct (find par A) as [l|] eqn:E; [by apply Hst | split; [constructor | set_solver]]. }
  split; [by apply sorted_sinsert|]. intros x [->|Hin]%elem_of_sinsert.
  - exists res. set_solver.
  - destruct (Hx x Hin) as [r ?]. exists r. set_solver.
Qed.

Lemma tracked_ack id k pars es par site res s s' :
  irt_tracked id k pars es s -> PrepareIRTACK id par site res s = Done (tt, s') ->
  irt_tracked id k pars (es ++ [EvPrepareIRTACK id par site res]) s'.
Proof.
  intros (A & ph & Hh & Hst & Hsome & Hq) Hrun.
  assert (forall p, p ∈ pars -> is_Some (find p (add_irt_ack par site A))) as Hsome'.
  { intros p Hp. unfold add_irt_ack. rewrite find_insert. case_decide; [by eexists | by apply Hsome]. }
  pose proof (add_irt_ack_stored id es par site res A Hst) as Hst'.
  apply (PrepareIRTACK_held id k A ph par site res s s' Hh) in Hrun as [Hs|[Hs|[Hs Hall]]].
  - exists A, ph. split_and!; try done. intros p l Hp. by apply stored_app, Hst.
  - exists (add_irt_ack par site A), ph. split_and!; try done. intros Hph p l Hp.
    unfold add_irt_ack. rewrite find_insert. case_decide; [subst p|by apply Hq].
    intros [= <-]. rewrite index_fst. destruct (Hsome par Hp) as [l Hl]. rewrite Hl. simpl.
    pose proof (Hq Hph par l Hp Hl). pose proof (sinsert_length site l). lia.
  - exists (add_irt_ack par site A), LOCAL_CAN_EXE. split_and!; try done. intros _ p l Hp Hl.
    rewrite Forall_forall in Hall. by apply (Hall (p, l)), find_elem_of.
Qed.

Lemma tracked_run id k pars es0 es s s' :
  irt_tracked id k pars es0 s -> run es s = Done (tt, s') ->
  Forall (fun e => (exists par site res, e = EvPrepareIRTACK id par site res) \/ names e ≠ Some id) es ->
  irt_tracked id k pars (es0 ++ es) s'.
Proof.
  revert es0 s. induction es as [|e es IH]; intros es0 s Hs Hrun Hes.
  { injection Hrun as <-. by rewrite app_nil_r. }
  apply Forall_cons in Hes as [He Hes]. unfold run in Hrun. cbn [for_each] in Hrun.
  apply bind_done in Hrun as ([] & s1 & E & Hrun). rewrite cons_middle, app_assoc.
  apply (IH _ s1); [|done..]. destruct He as [(par & site & res & ->)|Hne]; [by eapply tracked_ack|].
  destruct Hs as (A & ph & Hh & Hst & Hrest). exists A, ph. split; [by eapply handle_held|]. split; [|done].
  intros p l Hp. by apply stored_app, Hst.
Qed.

(** ** The submission *)

Lemma send_prepare_irt_held id k A ts item s s' :
  held id k A LOCAL_NOT_STORED s -> send_prepare_irt id ts item s = Done (tt, s') ->
  held id k (insert item.1 [] A) LOCAL_NOT_STORED s'.
Proof.
  unfold send_prepare_irt. intros (Hn & t & Ht & Ha & Hp & Hc) Hrun.
  apply bind_done in Hrun as ([] & s1 & [= <-] & Hrun).
  apply bind_done in Hrun as (sites & s1 & Es & Hrun).
  destruct (SitesByPartitionId cfg item.1) as [sites0|]; [|done]. injection Es as <- <-.
  eapply (preserves_for_each _ _ (held id k (insert item.1 [] A) LOCAL_NOT_STORED)); [| |exact Hrun].
  - intros p _. apply preserves_bind; [apply preserves_gets|]. intros me.
    apply preserves_when, preserves_bind; [apply CollectNotifyTxns_kept|]. intros infos. apply send_kept.
  - split; [done|]. eexists. simpl. rewrite lookup_alter_eq, Ht. split; [done|]. unfold irt_in. simpl. by rewrite Ha.
Qed.

Lemma send_all_held id k A ts l s s' :
  held id k A LOCAL_NOT_STORED s -> for_each l (send_prepare_irt id ts) s = Done (tt, s') ->
  (forall par sites, find par A = Some sites -> sites = []) ->
  exists A', held id k A' LOCAL_NOT_STORED s' /\ (forall par sites, find par A' = Some sites -> sites = []) /\
    forall par, is_Some (find par A) \/ par ∈ l.*1 -> is_Some (find par A').
Proof.
  revert A s. induction l as [|item l IH]; intros A s Hs Hrun Hnil.
  { injection Hrun as <-. exists A. split_and!; try done. intros par [?|?%not_elem_of_nil]; done. }
  cbn [for_each] in Hrun. apply bind_done in Hrun as ([] & s1 & E & Hrun).
  apply (send_prepare_irt_held id k A) in E; [|done].
  destruct (IH _ s1 E Hrun) as (A' & Hh & Hn' & Hk).
  { intros par sites. rewrite find_insert. case_decide; [by intros [= <-] | apply Hnil]. }
  exists A'. split_and!; try done. intros par Hpar. apply Hk. rewrite find_insert. cbn in Hpar.
  rewrite elem_of_cons in Hpar. case_decide; [left; by eexists|]. destruct Hpar as [?|[?|?]]; auto. congruence.
Qed.

Lemma HandleIRT_tracked cmds_by_par s s' c :
  ('(_, cs) ← head cmds_by_par; head cs) = Some c -> HandleIRT cmds_by_par s = Done (tt, s') ->
  irt_tracked (root_id_ c) (consts s) (cmds_by_par.*1) [] s'.
Proof.
  intros Hc Hrun. unfold HandleIRT in Hrun. apply bind_done in Hrun as (c0 & s1 & Ec & Hrun).
  rewrite Hc in Ec. injection Ec as <- <-.
  set (P x := consts x = consts s).
  apply bind_done in Hrun as (ts0 & s1 & Eg & Hrun).
  assert (P s1) as H1.
  { by apply (GenerateChrTs_consts true (consts s)) in Eg. }
  apply bind_done in Hrun as (m & s2 & [= <- <-] & Hrun).
  apply bind_done in Hrun as (ts & s2 & Ef & Hrun).
  assert (P s2) as H2.
  { by apply (fresh_ts_consts _ _ (consts s)) in Ef. }
  apply bind_done in Hrun as ([] & s3 & Ecr & Hrun). unfold CreateDTxn in Ecr.
  apply bind_done in Ecr as (s0 & s3' & [= <- <-] & Ecr).
  apply bind_done in Ecr as ([] & s3' & Hv & [= <-]).
  apply (preserves_verify _ (fun x => x = s2)) in Hv as ->; [|done].
  apply bind_done in Hrun as (s4 & s5 & [= <- <-] & Hrun).
  apply bind_done in Hrun as (pieces & s5 & Ep & Hrun).
  destruct (find _ cmds_by_par) as [ps|]; [|done]. injection Ep as <- <-.
  apply bind_done in Hrun as ([] & s5 & [= <-] & Hrun).
  apply bind_done in Hrun as ([] & s5 & [= <-] & Hrun).
  apply (send_all_held (root_id_ c) (consts s) []) in Hrun as (A & Hh & Hnil & Hk); [|..|done].
  - exists A, LOCAL_NOT_STORED. split_and!; try done.
    + intros par sites Hf. rewrite (Hnil _ _ Hf). split; [constructor | set_solver].
    + intros par Hp. apply Hk. by right.
  - split; [exact H2|]. eexists. simpl. rewrite lookup_alter_eq, lookup_insert_eq. by split_and!.
Qed.
End irt.

(** A submitted transaction of one region gets a timestamp that
    is above every timestamp the site has issued and free in the ready queue; it is
    put into both queues under it, and sent once to every other site of every
    partition it touches, with that timestamp. *)
Theorem irt_submission `{Env} cmds_by_par s s' :
  HandleIRT cmds_by_par s = Done (tt, s') ->
  stretchable (1 + Z.of_nat (length (ready_txns_ s))) s ->
  sane_clock (1 + Z.of_nat (length (ready_txns_ s))) s ->
  exists ts id, irt_submitted cmds_by_par s s' ts id.
Proof. apply HandleIRT_spec. Qed.

(** The loop of [HandleIRT] that looks for a free
    timestamp ends after at most as many rounds as there are queued transactions. *)
Theorem irt_timestamp_search_ends `{Env} cmds_by_par s :
  stretchable (1 + Z.of_nat (length (ready_txns_ s))) s ->
  sane_clock (1 + Z.of_nat (length (ready_txns_ s))) s ->
  HandleIRT cmds_by_par s ≠ OutOfFuel.
Proof. apply HandleIRT_fuel. Qed.

(** C19: a transaction of one region leaves the phase
    [LOCAL_NOT_STORED], so that it may run at its coordinator, only after every
    partition it was submitted for has acknowledged it from at least
    [(n_replicas - 1) / 2] different sites: whatever else the site handles in
    between that is not about this transaction, besides its acknowledgements and
    the outputs of its pieces. *)
Theorem irt_executable_after_quorum `{Env} cmds_by_par c s0 s1 es s' :
  HandleIRT cmds_by_par s0 = Done (tt, s1) ->
  ('(_, cs) ← head cmds_by_par; head cs) = Some c ->
  run es s1 = Done (tt, s') ->
  Forall (fun e => (exists par site res, e = EvPrepareIRTACK (root_id_ c) par site res) \/
                   names e ≠ Some (root_id_ c)) es ->
  chr_phase_ (txn s' (root_id_ c)) ≠ LOCAL_NOT_STORED ->
  forall par, par ∈ cmds_by_par.*1 ->
  exists sites, NoDup sites /\ ack_quorum (n_replicas s0) <= Z.of_nat (length sites) /\
    forall site, site ∈ sites -> exists res, EvPrepareIRTACK (root_id_ c) par site res ∈ es.
Proof.
  intros Hrun Hc Hes Hall Hph par Hpar. apply (HandleIRT_tracked _ _ _ c Hc) in Hrun.
  apply (tracked_run _ _ _ _ _ _ _ Hrun) in Hes as (A & ph & (_ & t & Ht & _ & Hp & _) & Hst & Hsome & Hq); [|done].
  rewrite (txn_some s' _ t Ht), Hp in Hph. destruct (Hsome par Hpar) as [sites Hf].
  destruct (Hst par sites Hf) as [Hs Hacks]. exists sites. split_and!; [by apply sorted_NoDup | by eapply Hq | done].
Qed.

(** ** Instances *)

#[local] Existing Instance demo_env.

(** Transaction 6 touches both shards of the region. *)
Definition demo_cmds2 : omap Z (list SimpleCommand) :=
  [(0, [demo_piece 6 7 1]); (1, [demo_piece 6 8 1])].
Definition demo_two : Sched := after (HandleIRT demo_cmds2) demo_ready.

Lemma irt_submission_witness : exists ts id, irt_submitted demo_cmds2 demo_ready demo_two ts id.
Proof.
  apply (irt_submission demo_cmds2 demo_ready demo_two).
  - unfold demo_two. apply done_after. vm_compute. reflexivity.
  - split; vm_compute; split; congruence.
  - apply demo_sane; vm_compute; [reflexivity | split; congruence].
Defined.

Lemma irt_timestamp_search_ends_witness : HandleIRT demo_cmds2 demo_ready ≠ OutOfFuel.
Proof.
  apply (irt_timestamp_search_ends demo_cmds2 demo_ready).
  - split; vm_compute; split; congruence.
  - apply demo_sane; vm_compute; [reflexivity | split; congruence].
Defined.

(** The two shards acknowledge transaction 6, and other messages arrive. *)
Definition demo_two_events : list Event :=
  [demo_sync 3; EvPrepareIRTACK 6 0 1 (mk_StoreLocalRes (mk_ts 2001 0 1) [] ts_zero); demo_ack 1;
   EvPrepareIRTACK 6 1 4 (mk_StoreLocalRes (mk_ts 2001 0 4) [] ts_zero)].

Lemma irt_executable_after_quorum_witness :
  exists sites, NoDup sites /\ 1 <= Z.of_nat (length sites) /\
    forall site, site ∈ sites -> exists res, EvPrepareIRTACK 6 1 site res ∈ demo_two_events.
Proof.
  apply (irt_executable_after_quorum demo_cmds2 (demo_piece 6 7 1) demo_ready demo_two demo_two_events
           (after (run demo_two_events) demo_two)).
  - unfold demo_two. apply done_after. vm_compute. reflexivity.
  - reflexivity.
  - apply done_after. vm_compute. reflexivity.
  - unfold demo_two_events. rewrite !Forall_cons. split_and!; [right | left | right | left | by apply Forall_nil];
      try discriminate; by eexists _, _, _.
  - assert (chr_phase_ (txn (after (run demo_two_events) demo_two) 6) = LOCAL_CAN_EXE) as E by (vm_compute; reflexivity).
    cbn [root_id_ demo_piece]. rewrite E. discriminate.
  - right. left.
Defined.
