(* ===== verification/ChrCrt.v ===== *)
(** * Transactions over several regions

    The decision on the timestamp by the coordinator ([CheckRemotePrepared]), the
    answers it waits for from the submission on, and two places where the code does
    less than its comments say: the pieces a coordinator keeps for its own
    partition, and a decision that overtakes the prepare request. *)
From stdpp Require Import base tactics numbers list sorting gmap sets.
From S2P Require Import Prelude OMap Command Config ChrTs ChrTypes ChrTx ChrSched ChrSchedInv ChrDemo ChrClock ChrExec ChrNotify ChrIrt.

Section crt.
Context `{Env}.

(** ** The decision *)

Lemma max_anticipated_acc (m : omap Z chr_ts_t) acc :
  let r := foldl (fun acc pair => if ts_gt pair.2 acc then pair.2 else acc) acc m in
  (r = acc \/ exists k, (k, r) ∈ m) /\ ~ ts_lex r acc /\ forall k ts, (k, ts) ∈ m -> ~ ts_lex r ts.
Proof.
  revert acc. induction m as [|[k ts] m IH]; intros acc; simpl.
  { split; [by left|]. split; [apply ts_lex_irrefl|]. intros ? ? Hx. by apply not_elem_of_nil in Hx. }
  destruct (ts_gt ts acc) eqn:E.
  - apply ts_gt_lex in E. destruct (IH ts) as (H1 & H2 & H3). split_and!.
    + destruct H1 as [-> | [k' Hk]]; right; [exists k; left | exists k'; by right].
    + unfold ts_lex in *. lia.
    + intros k' ts' [[= -> ->]|Hin]%elem_of_cons; eauto.
  - apply ts_gt_false in E. destruct (IH acc) as (H1 & H2 & H3). split_and!; auto.
    + destruct H1 as [-> | [k' Hk]]; [by left | right; exists k'; by right].
    + intros k' ts' [[= -> ->]|Hin]%elem_of_cons; [|eauto]. unfold ts_lex in *. lia.
Qed.

(** ** Messages only accumulate *)

Definition sent_from (l : list Msg) (s : Sched) : Prop := l `prefix_of` sent_ s.

Lemma send_from l m : preserves (sent_from l) (send m).
Proof. unfold send. apply preserves_modify. intros s Hs. by apply prefix_app_r. Qed.
Lemma set_txn_from l id f : preserves (sent_from l) (set_txn id f).
Proof. by apply preserves_modify. Qed.
Lemma on_txn_from {A} l id (m : M TxSt A) : preserves (sent_from l) (on_txn id m).
Proof.
  intros s a s' Hs Hrun. unfold on_txn in Hrun. destruct (m _) as [[r st]| |]; [|done|done].
  by injection Hrun as <- <-.
Qed.
#[local] Hint Resolve send_from set_txn_from on_txn_from : preserves.

Lemma execute_callback_from l id pending : preserves (sent_from l) (execute_callback id pending).
Proof.
  unfold execute_callback, cb_HandleIRT, cb_OnSubmitCRT, cb_OnPrepareIRT, cb_OnPrepareCRT,
    run_pieces, CheckSendOutputToClient, is_finished, output_of.
  solve_preserves; by apply preserves_modify.
Qed.
#[local] Hint Resolve execute_callback_from : preserves.

Lemma CheckExecutableTxns_from l : preserves (sent_from l) CheckExecutableTxns.
Proof.
  assert (forall entries pending found, preserves (sent_from l) (check_executable entries pending found)) as Hc.
  { induction entries as [|[ts id] entries IH]; intros pending found; cbn [check_executable];
      solve_preserves; by apply preserves_modify. }
  unfold CheckExecutableTxns. solve_preserves. by apply preserves_modify.
Qed.
Lemma send_noti_wait_from l id max_ts r : preserves (sent_from l) (send_noti_wait id max_ts r).
Proof.
  unfold send_noti_wait. solve_preserves. apply preserves_state. intros s Hs.
  by destruct (index ts_zero r _).
Qed.
#[local] Hint Resolve CheckExecutableTxns_from send_noti_wait_from : preserves.

Lemma send_all {A} (l : list A) (m : A -> Msg) s s' :
  for_each l (fun x => send (m x)) s = Done (tt, s') -> sent_ s' = sent_ s ++ (m <$> l).
Proof.
  revert s. induction l as [|x l IH]; intros s Hrun; cbn [for_each] in Hrun.
  { injection Hrun as <-. by rewrite app_nil_r. }
  apply bind_done in Hrun as ([] & s1 & [= <-] & Hrun). apply IH in Hrun. rewrite Hrun. simpl.
  by rewrite <- app_assoc.
Qed.

Definition all_prepared (t : TxChronos) : bool :=
  forallb (fun s => negb (status_Z s.2 <? status_Z P_REMOTE_PREPARED)) (dist_partition_status_ t).

Lemma CheckRemotePrepared_sends id s s' :
  CheckRemotePrepared id s = Done (tt, s') -> stretchable 1 s ->
  let t := txn s id in
  let max_ts := max_anticipated (anticipated_ts_ t) in
  if all_prepared t then
    chr_phase_ t = DIST_REMOTE_SENT /\ find max_ts (ready_txns_ s) = None /\
    exists rest, sent_ s' = sent_ s ++
      ((fun p => SendDistExe p.1 (mk_DistExeReq (tid_ t) max_ts)) <$> dist_partition_status_ t) ++ rest
  else s' = s.
Proof.
  unfold CheckRemotePrepared. intros Hrun Hst. apply bind_done in Hrun as (t & s1 & [= <- <-] & Hrun).
  cbv zeta. fold (all_prepared (txn s id)) in Hrun.
  destruct (all_prepared (txn s id)); cbn [when] in Hrun; [|by injection Hrun].
  set (max_ts := max_anticipated _) in *. set (t := txn s id) in *. clearbody max_ts.
  apply bind_done in Hrun as ([] & s1 & [= <-] & Hrun).
  apply bind_done in Hrun as ([] & s1 & [= <-] & Hrun).
  apply bind_done in Hrun as ([] & s1 & E1 & Hrun).
  assert (ready_txns_ s1 = ready_txns_ s /\ sent_ s1 = sent_ s /\ last_clock_ s1 = last_clock_ s) as (A1 & A2 & A3).
  { unfold when in E1. destruct (negb _); by injection E1 as <-. }
  apply bind_done in Hrun as (cur & s2 & E2 & Hrun).
  apply GenerateChrTs_local in E2 as (_ & _ & Hsame & _); [|unfold stretchable in *; by rewrite A3].
  apply bind_done in Hrun as (s3 & s4 & [= <- <-] & Hrun).
  apply bind_done in Hrun as ([] & s4 & Hv & Hrun). unfold verify in Hv.
  destruct (negb (count max_ts (ready_txns_ s2))) eqn:Ec; [|done]. injection Hv as <-.
  apply negb_true_iff, count_find_None in Ec. rewrite Hsame in Ec. simpl in Ec. rewrite A1 in Ec.
  apply bind_done in Hrun as ([] & s4 & [= <-] & Hrun).
  apply bind_done in Hrun as ([] & s4 & Hv & Hrun). unfold verify in Hv.
  destruct (bool_decide _) eqn:Ep; [|done]. injection Hv as <-. apply bool_decide_eq_true in Ep.
  apply bind_done in Hrun as ([] & s4 & [= <-] & Hrun).
  apply bind_done in Hrun as ([] & s4 & E4 & Hrun). apply send_all in E4. simpl in E4.
  rewrite Hsame in E4. simpl in E4. rewrite A2 in E4. split; [done|]. split; [done|].
  assert (preserves (sent_from (sent_ s4)) (for_each (sinsert_range
    ((fun pair => pair.1 / n_shard_per_region_ cfg) <$> dist_partition_status_ t) [])
    (send_noti_wait id max_ts);; set_txn id (fun t => t <| chr_phase_ := DIST_CAN_EXE |>);;
    CheckExecutableTxns)) as Hk by solve_preserves.
  destruct (Hk s4 tt s') as [rest Hrest]; [by exists []; rewrite app_nil_r | exact Hrun|].
  exists rest. by rewrite Hrest, E4, <- app_assoc.
Qed.

Lemma GetOrCreateDTxn_run id s s1 :
  GetOrCreateDTxn id s = Done (tt, s1) ->
  txn s1 id = txn s id /\ is_Some (dtxns_ s1 !! id) /\ s1 = s <| dtxns_ := dtxns_ s1 |>.
Proof.
  unfold GetOrCreateDTxn, GetDTxn. intros E1. apply bind_done in E1 as (d & s2 & [= <- <-] & E1).
  destruct (dtxns_ s !! id) as [t|] eqn:Ed.
  { injection E1 as <-. split_and!; eauto. by destruct s. }
  unfold CreateDTxn in E1. apply bind_done in E1 as (s0 & s2 & [= <- <-] & E1).
  apply bind_done in E1 as ([] & s2 & Hv & [= <-]). unfold verify in Hv.
  destruct (bool_decide _); [|done]. injection Hv as <-. rewrite txn_insert.
  unfold txn. rewrite Ed. split_and!; try done. simpl. rewrite lookup_insert_eq. eauto.
Qed.

(** ** The votes of the partitions

    A cross-region transaction [id], from its submission on: the coordinator takes
    its decision only when enough sites of every touched partition have answered. *)

(** Event [e] is the answer of [site] for partition [par]; a prepare request that
    reaches the coordinator counts as its own answer. *)
Definition crt_answer (k : Z * Z * Z) (id par site : Z) (e : Event) : Prop :=
  match e with
  | EvRemotePrepared req => rp_txn_id req = id /\ rp_my_partition_id req = par /\ rp_my_site_id req = site
  | EvProposeRemoteAck i p x _ => i = id /\ p = par /\ x = site
  | EvPrepareCRT cmds _ => root_id_ <$> head cmds = Some id /\ par = k.2 /\ site = k.1.2
  | _ => False
  end.

Definition crt_quorum (n : Z) : Z := Z.quot (n + 1) 2.

Section votes.
Context (id : Z) (k : Z * Z * Z) (pars : list Z).

Definition quorate (par : Z) (A : omap Z (oset Z)) : Prop :=
  crt_quorum k.1.1 <= Z.of_nat (length (default [] (find par A))).

(** The coordinator waits: a touched partition that counts as prepared has its
    quorum. *)
Definition crt_open (A : omap Z (oset Z)) (t : TxChronos) : Prop :=
  chr_phase_ t = DIST_REMOTE_SENT /\ forall par, par ∈ pars ->
    exists st, find par (dist_partition_status_ t) = Some st /\
      (status_Z st < status_Z P_REMOTE_PREPARED \/ quorate par A).

Definition crt_in (A : omap Z (oset Z)) (t : TxChronos) : Prop :=
  dist_partition_acks_ t = A /\ execute_callback_ t = EC_OnSubmitCRT /\
  (crt_open A t \/ forall par, par ∈ pars -> quorate par A).

(** The decision may be taken. *)
Definition crt_ok (A : omap Z (oset Z)) (t : TxChronos) : Prop :=
  dist_partition_acks_ t = A /\ execute_callback_ t = EC_OnSubmitCRT /\ forall par, par ∈ pars -> quorate par A.

Lemma crt_ok_in A s : kept id k (crt_ok A) s -> kept id k (crt_in A) s.
Proof. intros (Hk & t & Ht & Ha & Hc & Hq). split; [done|]. exists t. split; [done|]. split_and!; auto. Qed.

(** Running the pieces keeps the votes. *)
Lemma exec_votes s t pending r s' :
  dtxns_ s !! id = Some t -> execute_callback_ t = EC_OnSubmitCRT ->
  execute_callback id pending s = Done (r, s') ->
  exists t', dtxns_ s' !! id = Some t' /\ dist_partition_acks_ t' = dist_partition_acks_ t /\
    execute_callback_ t' = EC_OnSubmitCRT.
Proof.
  intros Ht Hc Hrun. pose proof (txn_some s id t Ht) as Hs.
  apply (execute_callback_frame id s) in Hrun as Hf; [|apply exec_frame_refl].
  apply (execute_callback_runs id pending (txn s id)) in Hrun as [_ _ _ Hcb]; [|apply run_frame_refl].
  rewrite Hs in Hcb. destruct (assigned_some id s') as [t' Ht']; [unfold assigned; congruence|].
  exists t'. split; [done|]. rewrite <- (txn_some s' id t' Ht'), (ef_acks id s s' Hf), Hs. split; congruence.
Qed.

Lemma crt_ok_exec A s t pending r s' :
  dtxns_ s !! id = Some t -> crt_ok A t -> must_wait s id = false ->
  execute_callback id pending s = Done (r, s') -> exists t', dtxns_ s' !! id = Some t' /\ crt_ok A t'.
Proof.
  intros Ht (Ha & Hc & Hq) _ Hrun. destruct (exec_votes s t pending r s' Ht Hc Hrun) as (t' & ? & ? & ?).
  exists t'. split; [done|]. split_and!; [congruence | done..].
Qed.

Lemma crt_in_exec A s t pending r s' :
  dtxns_ s !! id = Some t -> crt_in A t -> must_wait s id = false ->
  execute_callback id pending s = Done (r, s') -> exists t', dtxns_ s' !! id = Some t' /\ crt_in A t'.
Proof.
  intros Ht (Ha & Hc & Hq) Hw Hrun. destruct (exec_votes s t pending r s' Ht Hc Hrun) as (t' & ? & ? & ?).
  destruct Hq as [[Hph _]|Hq].
  { unfold must_wait in Hw. rewrite (txn_some s id t Ht), Hph, orb_true_r in Hw. done. }
  exists t'. split; [done|]. split_and!; [congruence | done | by right].
Qed.

Lemma CheckRemotePrepared_votes A : preserves (kept id k (crt_in A)) (CheckRemotePrepared id).
Proof.
  intros s [] s' Hs Hrun. unfold CheckRemotePrepared in Hrun.
  apply bind_done in Hrun as (t0 & s1 & [= <- <-] & Hrun). fold (all_prepared (txn s id)) in Hrun.
  destruct (all_prepared (txn s id)) eqn:Eall; cbn [when] in Hrun; [|by injection Hrun as <-].
  apply crt_ok_in.
  assert (kept id k (crt_ok A) s) as Hok.
  { destruct Hs as (Hk & t & Ht & Ha & Hc & Hq). split; [done|]. exists t. split; [done|]. split_and!; [done..|].
    destruct Hq as [[_ Hq]|Hq]; [|done]. intros par Hpar. destruct (Hq par Hpar) as (st & Hf & [Hst|?]); [|done].
    unfold all_prepared in Eall. rewrite (txn_some s id t Ht), forallb_forall in Eall.
    apply find_elem_of, list_elem_of_In, Eall in Hf. cbn [snd] in Hf. lia. }
  match type of Hrun with ?m s = _ => enough (preserves (kept id k (crt_ok A)) m) as Hp by (by apply Hp in Hrun) end.
  unfold send_noti_wait.
  solve_preserves; try apply send_kept; try apply GenerateChrTs_kept; try by apply modify_kept.
  all: try (by apply set_txn_kept); try (by apply CheckExecutableTxns_kept, crt_ok_exec).
  apply preserves_state. intros s0 (Hn & t0 & Ht & Hs0). destruct (index _ _ _). split; [done|].
  eexists. simpl. rewrite lookup_alter_eq, Ht. by split.
Qed.

(** The end of the three handlers that count an answer. *)
Lemma try_prepare A par s s' :
  kept id k (crt_in A) s -> remote_quorum k.1.1 par (txn s id) = true ->
  (set_txn id (fun t => t <| dist_partition_status_ ::= insert par P_REMOTE_PREPARED |>);;
   CheckRemotePrepared id) s = Done (tt, s') -> kept id k (crt_in A) s'.
Proof.
  intros (Hk & t & Ht & Ha & Hc & Hq) Hquo Hrun. apply bind_done in Hrun as ([] & s1 & [= <-] & Hrun).
  eapply CheckRemotePrepared_votes; [|exact Hrun]. split; [done|]. eexists. simpl.
  rewrite lookup_alter_eq, Ht. split; [done|]. split_and!; [done..|]. destruct Hq as [[Hph Hq]|Hq]; [left | by right].
  split; [done|]. intros p Hp. simpl. rewrite find_insert. case_decide as E; [subst p | by apply Hq].
  eexists. split; [done|]. right. unfold quorate, crt_quorum.
  unfold remote_quorum in Hquo. apply andb_true_iff in Hquo as [_ Hquo].
  rewrite (txn_some s id t Ht), Ha, index_fst in Hquo. lia.
Qed.

(** Counting the answer of [site]. *)
Lemma quorate_mono par site A p : quorate p A -> quorate p (add_irt_ack par site A).
Proof.
  unfold quorate, add_irt_ack. rewrite find_insert. case_decide; [subst p|done]. rewrite index_fst. simpl.
  pose proof (sinsert_length site (default [] (find par A))). lia.
Qed.

Lemma count_answer A par site (f : TxChronos -> TxChronos) s s' :
  (forall t, dist_partition_acks_ (f t) = add_irt_ack par site (dist_partition_acks_ t) /\
     execute_callback_ (f t) = execute_callback_ t /\ chr_phase_ (f t) = chr_phase_ t /\
     dist_partition_status_ (f t) = (index P_NOT_RECEIVED par (dist_partition_status_ t)).2) ->
  kept id k (crt_in A) s -> set_txn id f s = Done (tt, s') -> kept id k (crt_in (add_irt_ack par site A)) s'.
Proof.
  intros Hf (Hk & t & Ht & Ha & Hc & Hq) [= <-]. split; [done|]. exists (f t). simpl.
  rewrite lookup_alter_eq, Ht. split; [done|]. destruct (Hf t) as (E1 & E2 & E3 & E4).
  split; [by rewrite E1, Ha|]. split; [by rewrite E2|].
  destruct Hq as [[Hph Hq]|Hq]; [left | right; intros; by apply quorate_mono, Hq].
  split; [by rewrite E3|]. intros p Hp. rewrite E4, find_index. destruct (Hq p Hp) as (st & Hst & Hor).
  case_decide as E; [subst p; rewrite index_fst, Hst|]; exists st; (split; [done|]); destruct Hor; auto using quorate_mono.
Qed.

Lemma kept_consts K s : kept id k K s -> n_replicas s = k.1.1 /\ site_id_ s = k.1.2 /\ partition_id_ s = k.2.
Proof. intros (<- & _). done. Qed.

Lemma when_prepare A par s s' :
  kept id k (crt_in A) s ->
  when (remote_quorum (n_replicas s) par (txn s id))
    (set_txn id (fun t => t <| dist_partition_status_ ::= insert par P_REMOTE_PREPARED |>);;
     CheckRemotePrepared id) s = Done (tt, s') -> kept id k (crt_in A) s'.
Proof.
  intros Hs Hrun. destruct (kept_consts _ s Hs) as (En & _). rewrite En in Hrun.
  destruct (remote_quorum k.1.1 par (txn s id)) eqn:Eq; [by eapply try_prepare | by injection Hrun as <-].
Qed.

Lemma ProposeRemoteAck_votes A par site ts s s' :
  kept id k (crt_in A) s -> ProposeRemoteAck id par site ts s = Done (tt, s') ->
  kept id k (crt_in (add_irt_ack par site A)) s'.
Proof.
  intros Hs Hrun. unfold ProposeRemoteAck in Hrun.
  apply bind_done in Hrun as ([] & s1 & E1 & Hrun). apply (GetOrCreateDTxn_kept id k (crt_in A)) in E1; [|exact Hs].
  apply bind_done in Hrun as (? & ? & [= <- <-] & Hrun).
  apply bind_done in Hrun as ([] & s2 & Hv & Hrun).
  apply (preserves_verify _ (fun x => x = s1)) in Hv as ->; [|done].
  apply bind_done in Hrun as ([] & s2 & E2 & Hrun). apply (count_answer A par site) in E2; [|done..].
  apply bind_done in Hrun as (? & ? & [= <- <-] & Hrun). by eapply when_prepare.
Qed.

Lemma OnRemotePrepared_votes A req s s' :
  rp_txn_id req = id -> kept id k (crt_in A) s -> OnRemotePrepared req s = Done (tt, s') ->
  kept id k (crt_in (add_irt_ack (rp_my_partition_id req) (rp_my_site_id req) A)) s'.
Proof.
  intros Hid Hs Hrun. unfold OnRemotePrepared in Hrun. rewrite Hid in Hrun.
  set (par := rp_my_partition_id req) in *. set (A' := add_irt_ack _ _ _).
  apply bind_done in Hrun as ([] & s1 & E1 & Hrun). apply (GetOrCreateDTxn_kept id k (crt_in A)) in E1; [|exact Hs].
  apply bind_done in Hrun as (? & ? & [= <- <-] & Hrun).
  apply bind_done in Hrun as ([] & s2 & Hv & Hrun).
  apply (preserves_verify _ (fun x => x = s1)) in Hv as ->; [|done].
  apply bind_done in Hrun as ([] & s2 & E2 & Hrun). apply (count_answer A par (rp_my_site_id req)) in E2; [|done..].
  apply bind_done in Hrun as ([] & s3 & E3 & Hrun).
  apply (preserves_when _ _ (kept id k (crt_in A'))) in E3; [|by apply set_txn_kept|exact E2].
  apply bind_done in Hrun as (? & ? & [= <- <-] & Hrun).
  apply bind_done in Hrun as ([] & s4 & E4 & Hrun). apply (send_kept id k (crt_in A')) in Hrun; [exact Hrun|].
  destruct (kept_consts _ s3 E3) as (En & _). rewrite En in E4.
  destruct (remote_quorum k.1.1 par (txn s3 id)) eqn:Eq; [cbn [when] in E4 | by injection E4 as <-].
  apply bind_done in E4 as (acked & s5 & E5 & E4). unfold state in E5.
  destruct (index false par _) as [a m] eqn:Ei. injection E5 as <- <-.
  set (s5 := s3 <| dtxns_ ::= _ |>) in *.
  assert (kept id k (crt_in A') s5 /\ remote_quorum k.1.1 par (txn s5 id) = true) as [Hs5 Hq5].
  { destruct E3 as (Hk & t & Ht & Hin). split.
    - split; [done|]. eexists. unfold s5. simpl. rewrite lookup_alter_eq, Ht. by split.
    - unfold s5. rewrite txn_alter_some by eauto. done. }
  clearbody s5. destruct a; cbn [when] in E4; [by eapply try_prepare | by injection E4 as <-].
Qed.

Lemma OnPrepareCRT_votes A cmds req s s' :
  root_id_ <$> head cmds = Some id -> kept id k (crt_in A) s -> OnPrepareCRT cmds req s = Done (tt, s') ->
  kept id k (crt_in A) s' \/ kept id k (crt_in (add_irt_ack k.2 k.1.2 A)) s'.
Proof.
  intros Hid Hs Hrun. unfold OnPrepareCRT in Hrun. destruct (head cmds) as [c|]; [|done]. injection Hid as Hid.
  apply bind_done in Hrun as (? & ? & [= <- <-] & Hrun). rewrite Hid in Hrun.
  apply bind_done in Hrun as (? & ? & [= <- <-] & Hrun).
  apply bind_done in Hrun as ([] & s1 & Hv & Hrun).
  apply (preserves_verify _ (fun x => x = s)) in Hv as ->; [|done].
  apply bind_done in Hrun as ([] & s1 & Hv & Hrun).
  apply (preserves_verify _ (fun x => x = s)) in Hv as ->; [|done].
  apply bind_done in Hrun as (? & ? & [= <- <-] & Hrun).
  pose proof Hs as (_ & t & Ht & _). rewrite Ht in Hrun.
  destruct (kept_consts _ s Hs) as (En & Esite & Epar). rewrite Esite, Epar in Hrun.
  destruct (bool_decide _).
  - right. apply bind_done in Hrun as ([] & s1 & E1 & Hrun). apply (count_answer A k.2 k.1.2) in E1; [|done..].
    apply bind_done in Hrun as ([] & s2 & E2 & Hrun). apply (modify_kept id k (crt_in (add_irt_ack k.2 k.1.2 A))) in E2; [|done|exact E1].
    apply bind_done in Hrun as (? & ? & [= <- <-] & Hrun). by eapply when_prepare.
  - left. unfold when in Hrun. destruct (_ =? _); [|by injection Hrun as <-].
    eapply (set_txn_kept id k (crt_in A)); [|exact Hs | exact Hrun]. done.
Qed.

Lemma answer_votes A e par site s s' :
  crt_answer k id par site e -> kept id k (crt_in A) s -> handle e s = Done (tt, s') ->
  kept id k (crt_in A) s' \/ kept id k (crt_in (add_irt_ack par site A)) s'.
Proof.
  destruct e; cbn [crt_answer handle]; try done.
  - intros (Hid & <- & <-) Hs Hrun. right. by eapply OnRemotePrepared_votes.
  - intros (Hid & -> & ->) Hs Hrun. by eapply OnPrepareCRT_votes.
  - intros (-> & <- & <-) Hs Hrun. right. by eapply ProposeRemoteAck_votes.
Qed.

(** The answers counted for the touched partitions have arrived. *)
Definition voted (es : list Event) (A : omap Z (oset Z)) : Prop :=
  forall par sites, par ∈ pars -> find par A = Some sites -> sorted_set sites /\
    forall x, x ∈ sites -> exists e, e ∈ es /\ crt_answer k id par x e.

Lemma voted_app es es' A : voted es A -> voted (es ++ es') A.
Proof.
  intros Hv par sites Hp Hf. destruct (Hv par sites Hp Hf) as [Hs Hx]. split; [done|].
  intros x Hin. destruct (Hx x Hin) as (e & ? & ?). exists e. split; [apply elem_of_app; by left | done].
Qed.

Lemma voted_add es A e par site : crt_answer k id par site e -> voted es A -> voted (es ++ [e]) (add_irt_ack par site A).
Proof.
  intros He Hv p sites Hp. unfold add_irt_ack. rewrite find_insert. case_decide as E; [subst p|by apply voted_app].
  intros [= <-]. assert (sorted_set (index [] par A).1 /\ forall x, x ∈ (index [] par A).1 ->
    exists e, e ∈ es /\ crt_answer k id par x e) as [Hs Hx].
  { rewrite index_fst. destruct (find par A) as [l|] eqn:Ef; [by apply Hv|].
    split; [constructor | by intros x ?%not_elem_of_nil]. }
  split; [by apply sorted_sinsert|]. intros x [->|Hin]%elem_of_sinsert.
  - exists e. split; [apply elem_of_app; right; left | done].
  - destruct (Hx x Hin) as (e' & ? & ?). exists e'. split; [apply elem_of_app; by left | done].
Qed.

Lemma votes_run es0 es s s' :
  (exists A, kept id k (crt_in A) s /\ voted es0 A) -> run es s = Done (tt, s') ->
  Forall (fun e => (exists par site, crt_answer k id par site e) \/ names e ≠ Some id) es ->
  exists A, kept id k (crt_in A) s' /\ voted (es0 ++ es) A.
Proof.
  revert es0 s. induction es as [|e es IH]; intros es0 s (A & Hs & Hv) Hrun Hes.
  { injection Hrun as <-. exists A. by rewrite app_nil_r. }
  apply Forall_cons in Hes as [He Hes]. unfold run in Hrun. cbn [for_each] in Hrun.
  apply bind_done in Hrun as ([] & s1 & E & Hrun). rewrite cons_middle, app_assoc.
  apply (IH _ s1); [|done..]. destruct He as [(par & site & He)|Hne].
  - destruct (answer_votes A e par site s s1 He Hs E) as [?|?]; [exists A | eexists]; (split; [done|]).
    + by apply voted_app.
    + by apply voted_add.
  - exists A. split; [|by apply voted_app]. eapply handle_kept; [..|exact E]; [by apply crt_in_exec|done..].
Qed.
End votes.

(** ** The commit timestamp of the execution gate *)

Definition commit_zero (s : Sched) : Prop :=
  forall id t, dtxns_ s !! id = Some t -> commit_ts_ t = ts_zero.

Lemma commit_zero_txn s id : commit_zero s -> commit_ts_ (txn s id) = ts_zero.
Proof. intros Hs. unfold txn. destruct (dtxns_ s !! id) eqn:E; simpl; [by eapply Hs | done]. Qed.

Lemma commit_zero_insert s id t :
  commit_zero s -> commit_ts_ t = ts_zero -> commit_zero (s <| dtxns_ ::= <[id := t]> |>).
Proof.
  intros Hs Ht j t' Hj. simpl in Hj. apply lookup_insert_Some in Hj as [[<- <-]|[_ Hj]]; eauto.
Qed.

Lemma commit_zero_alter s id (f : TxChronos -> TxChronos) :
  commit_zero s -> (forall t, commit_ts_ (f t) = commit_ts_ t) ->
  commit_zero (s <| dtxns_ ::= alter f id |>).
Proof.
  intros Hs Hf j t Hj. simpl in Hj. destruct (decide (j = id)) as [->|Hne].
  - rewrite lookup_alter_eq in Hj. destruct (dtxns_ s !! id) eqn:E; simplify_eq/=.
    rewrite Hf. eauto.
  - rewrite lookup_alter_ne in Hj by done. eauto.
Qed.

Lemma set_txn_commit id f :
  (forall t, commit_ts_ (f t) = commit_ts_ t) -> preserves commit_zero (set_txn id f).
Proof. intros Hf. apply preserves_modify. intros s Hs. by apply commit_zero_alter. Qed.

Ltac commit_state :=
  first [ by apply set_txn_commit
        | apply preserves_modify; intros ?s ?Hs; repeat case_match; assumption
        | apply preserves_state; intros ?s ?Hs; repeat case_match; assumption ].

Lemma on_txn_commit id me pending :
  preserves commit_zero (on_txn id (RecursiveExecuteReadyPieces cfg me pending)).
Proof.
  intros s r s' Hs Hrun. unfold on_txn in Hrun.
  destruct (RecursiveExecuteReadyPieces _ _ _ _) as [[[ret p] st]| |] eqn:E; [|done|done].
  injection Hrun as <- <-. apply exec_done in E. simpl in E.
  pose proof (f_equal commit_ts_ (er_frame _ _ _ _ _ E)) as Hc. simpl in Hc.
  assert (commit_zero (s <| dtxns_ ::= <[id := tx st]> |>)) as Hz; [|exact Hz].
  apply commit_zero_insert; [done|]. rewrite Hc. by apply commit_zero_txn.
Qed.
#[local] Hint Resolve on_txn_commit : preserves.

Lemma CreateDTxn_commit id : preserves commit_zero (CreateDTxn id).
Proof.
  unfold CreateDTxn. solve_preserves. apply preserves_modify. intros s Hs. by apply commit_zero_insert.
Qed.
#[local] Hint Resolve CreateDTxn_commit : preserves.
Lemma GetOrCreateDTxn_commit id : preserves commit_zero (GetOrCreateDTxn id).
Proof. unfold GetOrCreateDTxn, GetDTxn. solve_preserves. Qed.
Lemma GenerateChrTs_commit b : preserves commit_zero (GenerateChrTs b).
Proof. unfold GenerateChrTs, read_clock. solve_preserves; commit_state. Qed.
Lemma send_commit m : preserves commit_zero (send m).
Proof. unfold send. commit_state. Qed.
#[local] Hint Resolve GetOrCreateDTxn_commit GenerateChrTs_commit send_commit : preserves.

Lemma CheckExecutableTxns_commit : preserves commit_zero CheckExecutableTxns.
Proof.
  assert (forall id pending, preserves commit_zero (execute_callback id pending)) as He.
  { intros id pending. unfold execute_callback, cb_HandleIRT, cb_OnSubmitCRT, cb_OnPrepareIRT,
      cb_OnPrepareCRT, run_pieces, CheckSendOutputToClient, is_finished, output_of.
    solve_preserves; commit_state. }
  assert (forall entries pending found, preserves commit_zero (check_executable entries pending found)) as Hc.
  { induction entries as [|[ts id] entries IH]; intros pending found; cbn [check_executable];
      solve_preserves; commit_state. }
  unfold CheckExecutableTxns. solve_preserves. commit_state.
Qed.
Lemma HandlePiggyInfo_commit site ts infos dts : preserves commit_zero (HandlePiggyInfo site ts infos dts).
Proof.
  unfold HandlePiggyInfo, adopt_remote_ts, handle_notified, GetDTxn. solve_preserves; commit_state.
Qed.
Lemma CollectNotifyTxns_commit site par : preserves commit_zero (CollectNotifyTxns site par).
Proof. unfold CollectNotifyTxns. commit_state. Qed.
#[local] Hint Resolve CheckExecutableTxns_commit HandlePiggyInfo_commit CollectNotifyTxns_commit : preserves.

Lemma CheckRemotePrepared_commit id : preserves commit_zero (CheckRemotePrepared id).
Proof.
  unfold CheckRemotePrepared, send_noti_wait. solve_preserves; try commit_state.
  apply preserves_state. intros s Hs. destruct (index ts_zero x _) as [o m]. by apply commit_zero_alter.
Qed.
Lemma fresh_ts_commit fuel ts : preserves commit_zero (fresh_ts fuel ts).
Proof. revert ts. induction fuel as [|fuel IH]; intros ts; cbn [fresh_ts]; solve_preserves. by intros ? ? ? _ ?. Qed.
#[local] Hint Resolve CheckRemotePrepared_commit fresh_ts_commit : preserves.

(** The two handlers of the earlier protocol, which assign [commit_ts_]. *)
Definition assigns_commit_ts (e : Event) : bool :=
  match e with EvProposeLocal _ _ | EvProposeRemote _ _ => true | _ => false end.

Lemma handle_commit e : assigns_commit_ts e = false -> preserves commit_zero (handle e).
Proof.
  destruct e; intros He; try discriminate He; cbn [handle];
    unfold OnSubmitTxn, HandleIRT, send_prepare_irt, OnSubmitCRT, OnPrepareIRT, PrepareIRTACK, OnIRSync,
      IRSyncLoop, OnRemotePrepared, OnDistExe, DistExeAck, CheckSendOutputToClient, OnSendOutput,
      OnNotiCRT, OnNotiCommit, OnPrepareCRT, ProposeLocalACK, ProposeRemoteAck, GetDTxn, output_of, add_wait;
    solve_preserves; try commit_state.
  - apply preserves_state. intros s Hs. destruct (index false _ _) as [o m]. by apply commit_zero_alter.
  - apply preserves_state. intros s Hs. pose proof (commit_zero_txn s (so_txn_id req) Hs) as Hc.
    unfold MergeCheckReadyPieces. destruct (merge_output _ _) as [ps r]. by apply commit_zero_insert.
Qed.

(** ** The submission *)

(** The partitions [done] have been asked. *)
Definition asked (done : list Z) (t : TxChronos) : Prop :=
  forall par, par ∈ done -> find par (dist_partition_status_ t) = Some P_REMOTE_SENT /\
    find par (dist_partition_acks_ t) = Some [].

Definition ask (id : Z) (pair : Z * list SimpleCommand) : M Sched () :=
  set_txn id (fun t => t <| dist_partition_status_ ::= insert pair.1 P_REMOTE_SENT |>
    <| dist_partition_acks_ ::= insert pair.1 [] |> <| dist_shard_mgr_acked_ ::= insert pair.1 false |>).

Lemma ask_all id k done by_par s s' :
  kept id k (asked done) s -> for_each by_par (ask id) s = Done (tt, s') ->
  kept id k (asked (done ++ by_par.*1)) s'.
Proof.
  revert done s. induction by_par as [|pair by_par IH]; intros done s Hs Hrun.
  { injection Hrun as <-. by rewrite app_nil_r. }
  cbn [for_each] in Hrun. apply bind_done in Hrun as ([] & s1 & [= <-] & Hrun).
  rewrite fmap_cons, cons_middle, app_assoc. eapply IH; [|exact Hrun].
  destruct Hs as (Hk & t & Ht & Ha). split; [done|]. eexists. simpl. rewrite lookup_alter_eq, Ht. split; [done|].
  intros par [Hp|[->|?%not_elem_of_nil]%elem_of_cons]%elem_of_app; [| |done]; simpl; rewrite !find_insert.
  - case_decide; [done|]. by apply Ha.
  - by rewrite !decide_True.
Qed.

Lemma ask_regions id k done cmds_by_region (m : Z * omap Z (list SimpleCommand) -> Msg) s s' :
  kept id k (asked done) s ->
  for_each cmds_by_region (fun itr => send (m itr);; for_each itr.2 (ask id)) s = Done (tt, s') ->
  kept id k (asked (done ++ mbind (fun r => r.2.*1) cmds_by_region)) s'.
Proof.
  revert done s. induction cmds_by_region as [|itr l IH]; intros done s Hs Hrun.
  { injection Hrun as <-. by rewrite app_nil_r. }
  cbn [for_each] in Hrun. apply bind_done in Hrun as ([] & s1 & E & Hrun).
  apply bind_done in E as ([] & s2 & E2 & E). apply (send_kept id k (asked done)) in E2; [|done].
  apply (ask_all id k done) in E; [|done]. cbn [mbind list_bind]. rewrite app_assoc. by eapply IH.
Qed.
End crt.

(** The command a coordinator takes the transaction id from. *)
Definition first_cmd (cmds_by_region : omap Z (omap Z (list SimpleCommand))) : option SimpleCommand :=
  '(_, by_par) ← head cmds_by_region; '(_, cs) ← head by_par; head cs.

(** The partitions a request touches. *)
Definition touched_pars (cmds_by_region : omap Z (omap Z (list SimpleCommand))) : list Z :=
  mbind (fun r => r.2.*1) cmds_by_region.

Lemma OnSubmitCRT_votes `{Env} cmds_by_region c s s' :
  OnSubmitCRT cmds_by_region s = Done (tt, s') -> first_cmd cmds_by_region = Some c ->
  exists A, kept (root_id_ c) (consts s) (crt_in (consts s) (touched_pars cmds_by_region) A) s' /\
    voted (root_id_ c) (consts s) (touched_pars cmds_by_region) [] A.
Proof.
  unfold OnSubmitCRT. intros Hrun Hc. apply bind_done in Hrun as (c' & s1 & Ec & Hrun).
  change ('(_, by_par) ← head cmds_by_region; '(_, cs) ← head by_par; head cs)
    with (first_cmd cmds_by_region) in Ec. rewrite Hc in Ec. injection Ec as <- <-.
  set (id := root_id_ c) in *. set (k := consts s).
  apply bind_done in Hrun as (s0 & s1 & [= <- <-] & Hrun).
  apply bind_done in Hrun as ([] & s1 & Hv & Hrun).
  apply (preserves_verify _ (fun x => x = s)) in Hv as ->; [|done].
  apply bind_done in Hrun as ([] & s1 & [= <-] & Hrun).
  apply bind_done in Hrun as ([] & s2 & E2 & Hrun). apply GetOrCreateDTxn_run in E2 as (_ & [t2 Ht2] & Hs2).
  assert (kept id k (asked []) s2) as K2.
  { split; [by rewrite Hs2|]. exists t2. split; [done|]. by intros par ?%not_elem_of_nil. }
  apply bind_done in Hrun as ([] & s3 & E3 & Hrun). apply (set_txn_kept id k (asked [])) in E3; [|done..].
  apply bind_done in Hrun as ([] & s4 & E4 & Hrun).
  apply (preserves_when _ _ (kept id k (asked []))) in E4; [|by apply set_txn_kept|exact E3].
  apply bind_done in Hrun as (src & s5 & E5 & Hrun). apply (GenerateChrTs_kept id k (asked [])) in E5; [|exact E4].
  apply bind_done in Hrun as ([] & s6 & E6 & Hrun).
  apply (ask_regions id k []) in E6 as (Hk6 & t6 & Ht6 & Hasked); [|exact E5].
  apply bind_done in Hrun as ([] & s7 & [= <-] & Hrun). injection Hrun as <-.
  exists (dist_partition_acks_ t6). split.
  - split; [exact Hk6|]. eexists. simpl. rewrite lookup_alter_eq, lookup_alter_eq, Ht6. split; [done|].
    split_and!; [done..|]. left. split; [done|]. intros par Hp. eexists. split; [by apply Hasked|]. left. done.
  - intros par sites Hp Hf. destruct (Hasked par Hp) as [_ Hn]. simplify_eq.
    split; [constructor | by intros x ?%not_elem_of_nil].
Qed.

(** Every partition is listed under its own region. *)
Definition grouped `{Env} (cmds_by_region : omap Z (omap Z (list SimpleCommand))) : Prop :=
  forall r by_par p cs, (r, by_par) ∈ cmds_by_region -> (p, cs) ∈ by_par ->
    p / n_shard_per_region_ cfg = r.

Lemma OnSubmitCRT_pieces `{Env} cmds_by_region c s s' :
  OnSubmitCRT cmds_by_region s = Done (tt, s') -> first_cmd cmds_by_region = Some c ->
  pieces_ (txn s' (root_id_ c)) =
    default [] (by_par ← find (partition_id_ s / (n_replicas s * n_shard_per_region_ cfg)) cmds_by_region;
                find (partition_id_ s) by_par).
Proof.
  unfold OnSubmitCRT. intros Hrun Hc. apply bind_done in Hrun as (c' & s1 & Ec & Hrun).
  change ('(_, by_par) ← head cmds_by_region; '(_, cs) ← head by_par; head cs)
    with (first_cmd cmds_by_region) in Ec. rewrite Hc in Ec. injection Ec as <- <-.
  apply bind_done in Hrun as (s0 & s1 & [= <- <-] & Hrun).
  apply bind_done in Hrun as ([] & s1 & Hv & Hrun).
  unfold verify in Hv. destruct (negb _); [|done]. injection Hv as <-.
  apply bind_done in Hrun as ([] & s1 & [= <-] & Hrun).
  apply bind_done in Hrun as ([] & s2 & E2 & Hrun). apply GetOrCreateDTxn_run in E2 as (_ & Hsome & _).
  set (I := fun st : Sched => is_Some (dtxns_ st !! root_id_ c)).
  assert (forall id f, preserves I (set_txn id f)) as Hset.
  { intros id f. apply preserves_modify. unfold I. intros st Hst. simpl.
    destruct (decide (root_id_ c = id)) as [E|Hne].
    - rewrite <- E, lookup_alter_eq. by apply fmap_is_Some.
    - rewrite lookup_alter_ne by congruence. exact Hst. }
  assert (forall b, preserves I (GenerateChrTs b)) as Hgen.
  { intros b. unfold GenerateChrTs, read_clock. solve_preserves; apply preserves_state; intros st Hst;
      repeat case_match; exact Hst. }
  assert (forall m, preserves I (send m)) as Hsend by (intros m; by apply preserves_modify).
  apply bind_done in Hrun as ([] & s3 & E3 & Hrun). apply (Hset _ _ _ _ _ Hsome) in E3.
  apply bind_done in Hrun as ([] & s4 & E4 & Hrun).
  apply (preserves_when _ _ _ (Hset _ _) _ _ _ E3) in E4.
  apply bind_done in Hrun as (src & s5 & E5 & Hrun). apply (Hgen _ _ _ _ E4) in E5.
  apply bind_done in Hrun as ([] & s6 & E6 & Hrun).
  assert (I s6) as H6.
  { revert E6. apply (preserves_for_each cmds_by_region); [|exact E5]. intros itr _.
    solve_preserves; auto. }
  apply bind_done in Hrun as ([] & s7 & E7 & Hrun). apply (Hset _ _ _ _ _ H6) in E7.
  injection Hrun as <-. by rewrite txn_alter_some.
Qed.

(** the timestamp a coordinator decides on is not below the
    anticipated timestamp of any region, and is one of them (or zero if no region
    has answered). *)
Lemma max_is_max (m : omap Z chr_ts_t) :
  (max_anticipated m = ts_zero \/ exists region, (region, max_anticipated m) ∈ m) /\
  forall region ts, (region, ts) ∈ m -> ts_lt (max_anticipated m) ts = false.
Proof.
  destruct (max_anticipated_acc m ts_zero) as (H1 & _ & H3). split; [done|].
  intros region ts Hin. apply ts_lt_false. by eapply H3.
Qed.

(** C21: [CheckRemotePrepared] does nothing until every touched
    partition has prepared; then it sends one timestamp to every touched partition
    as the decision: it is not below the anticipated timestamp of any region, it
    is one of them (or zero if there is none), and it is free in the ready queue
    of the coordinator. *)
Theorem decision_sent_to_all `{Env} id s s' :
  CheckRemotePrepared id s = Done (tt, s') -> stretchable 1 s ->
  let t := txn s id in
  if all_prepared t then
    exists ts rest,
    (ts = ts_zero \/ exists region, (region, ts) ∈ anticipated_ts_ t) /\
    (forall region ts', (region, ts') ∈ anticipated_ts_ t -> ts_lt ts ts' = false) /\
    chr_phase_ t = DIST_REMOTE_SENT /\ find ts (ready_txns_ s) = None /\
    sent_ s' = sent_ s ++
      ((fun p => SendDistExe p.1 (mk_DistExeReq (tid_ t) ts)) <$> dist_partition_status_ t) ++ rest
  else s' = s.
Proof.
  intros Hrun Hst. cbv zeta. apply CheckRemotePrepared_sends in Hrun; [|done]. cbv zeta in Hrun.
  destruct (all_prepared (txn s id)); [|done]. destruct Hrun as (Hph & Hf & rest & Hsent).
  destruct (max_is_max (anticipated_ts_ (txn s id))) as [Hone Hmax].
  by exists (max_anticipated (anticipated_ts_ (txn s id))), rest.
Qed.

(** C20: from the submission of a cross-region transaction
    on, its coordinator leaves the phase [DIST_REMOTE_SENT], and so decides, only
    after at least [(n_replicas + 1) / 2] different sites of every touched
    partition have answered: whatever else the site handles in between that is
    not about this transaction, besides these answers and the outputs of its
    pieces.  (A prepare request that reaches the coordinator counts as the answer
    of its own site.) *)
Theorem crt_decided_after_quorum `{Env} cmds_by_region c s0 s1 es s' :
  OnSubmitCRT cmds_by_region s0 = Done (tt, s1) -> first_cmd cmds_by_region = Some c ->
  run es s1 = Done (tt, s') ->
  Forall (fun e => (exists par site, crt_answer (consts s0) (root_id_ c) par site e) \/
                   names e ≠ Some (root_id_ c)) es ->
  chr_phase_ (txn s' (root_id_ c)) ≠ DIST_REMOTE_SENT ->
  forall par, par ∈ touched_pars cmds_by_region ->
  exists sites, NoDup sites /\ Z.quot (n_replicas s0 + 1) 2 <= Z.of_nat (length sites) /\
    forall site, site ∈ sites -> exists e, e ∈ es /\ crt_answer (consts s0) (root_id_ c) par site e.
Proof.
  intros Hsub Hc Hrun Hes Hph par Hpar. apply (OnSubmitCRT_votes _ c) in Hsub; [|done].
  destruct (votes_run _ _ _ _ _ _ _ Hsub Hrun Hes) as (A & (_ & t & Ht & _ & _ & Hq) & Hv).
  rewrite (txn_some s' _ t Ht) in Hph. destruct Hq as [[? _]|Hq]; [done|]. specialize (Hq par Hpar).
  unfold quorate, crt_quorum in Hq. cbn in Hq. exists (default [] (find par A)).
  destruct (find par A) as [sites|] eqn:Ef; cbn in *.
  - destruct (Hv par sites Hpar Ef) as [Hs Hx]. split_and!; [by apply sorted_NoDup | done..].
  - split_and!; [constructor | done | by intros x ?%not_elem_of_nil].
Qed.

(** the first guard of [CheckExecutableTxns] compares the
    clocks of the region with [commit_ts_], which only the handlers of the earlier
    protocol assign.  Without those events every transaction has the zero commit
    timestamp, so the guard asks each site for some positive clock and does not
    look at the timestamp of the transaction. *)
Theorem gate_ignores_timestamp `{Env} site db es s0 s id :
  new_SchedulerChronos site db = Some s0 -> Forall (fun e => assigns_commit_ts e = false) es ->
  run es s0 = Done (tt, s) ->
  must_wait s id =
    existsb (fun c => negb (ts_gt c.2 ts_zero)) (ir_site_max_ts s)
    || (phase_Z (chr_phase_ (txn s id)) <? PHASE_CAN_EXE).
Proof.
  intros Hnew Hes Hrun.
  assert (commit_zero s) as Hz.
  { revert Hrun. unfold run. apply (preserves_for_each es handle commit_zero).
    - intros e He. rewrite Forall_forall in Hes. apply handle_commit. auto.
    - intros j t Hj. unfold new_SchedulerChronos in Hnew.
      destruct (SitesByPartitionId _ _); [|done]. simpl in Hnew. destruct (_ =? _)%nat; [done|].
      injection Hnew as <-. simpl in Hj. by rewrite lookup_empty in Hj. }
  unfold must_wait. by rewrite commit_zero_txn.
Qed.

(** A coordinator looks its own pieces up under the
    region [partition_id_ / (n_replicas * n_shard_per_region_)], while the request
    lists them under [partition_id_ / n_shard_per_region_]: where the two differ,
    it keeps no pieces at all. *)
Theorem coordinator_drops_pieces `{Env} cmds_by_region c s s' :
  OnSubmitCRT cmds_by_region s = Done (tt, s') -> first_cmd cmds_by_region = Some c ->
  grouped cmds_by_region ->
  partition_id_ s / (n_replicas s * n_shard_per_region_ cfg) ≠ partition_id_ s / n_shard_per_region_ cfg ->
  pieces_ (txn s' (root_id_ c)) = [].
Proof.
  intros Hrun Hc Hg Hne. rewrite (OnSubmitCRT_pieces cmds_by_region c s s' Hrun Hc).
  destruct (find _ cmds_by_region) as [by_par|] eqn:E1; [|done]. simpl.
  destruct (find (partition_id_ s) by_par) as [cs|] eqn:E2; [|done].
  apply find_elem_of in E1, E2. exfalso. apply Hne. symmetry. by eapply Hg.
Qed.

(** If the decision on a transaction reaches a site
    before the prepare request, the site only notes the transaction id; the
    prepare request is then taken for one already handled.  The transaction is
    never queued, its pieces are not kept, and neither RPC is answered. *)
Theorem decision_overtakes_prepare `{Env} dreq cmds c preq s s1 s2 :
  dtxns_ s !! de_txn_id dreq = None -> head cmds = Some c -> root_id_ c = de_txn_id dreq ->
  OnDistExe dreq s = Done (tt, s1) -> OnPrepareCRT cmds preq s1 = Done (tt, s2) ->
  ready_txns_ s2 = ready_txns_ s /\ sent_ s2 = sent_ s /\ dist_txn_tss_ s2 = dist_txn_tss_ s /\
  pieces_ (txn s2 (root_id_ c)) = [].
Proof.
  intros Hnone Hc Hid Hd Hp. unfold OnDistExe, GetDTxn in Hd.
  apply bind_done in Hd as (d & s0 & [= <- <-] & Hd). rewrite Hnone in Hd. unfold CreateDTxn in Hd.
  apply bind_done in Hd as (s0 & s0' & [= <- <-] & Hd).
  apply bind_done in Hd as ([] & s0 & Hv & [= <-]).
  unfold verify in Hv. destruct (bool_decide _); [|done]. injection Hv as <-.
  unfold OnPrepareCRT in Hp. rewrite Hc in Hp.
  apply bind_done in Hp as (c' & s0 & [= <- <-] & Hp).
  apply bind_done in Hp as (s0 & s0' & [= <- <-] & Hp).
  apply bind_done in Hp as ([] & s0 & Hv & Hp). unfold verify in Hv.
  destruct (negb _); [|done]. injection Hv as <-.
  apply bind_done in Hp as ([] & s0 & Hv & Hp). unfold verify in Hv.
  destruct (negb _); [|done]. injection Hv as <-.
  apply bind_done in Hp as (d & s0 & [= <- <-] & Hp). simpl in Hp.
  rewrite Hid, lookup_insert_eq in Hp. simpl in Hp.
  injection Hp as <-. rewrite Hid. split_and!; try done.
  unfold txn. simpl. by rewrite lookup_alter_eq, lookup_insert_eq.
Qed.

(** ** Instances *)

#[local] Existing Instance demo_env.

(** Site 6 coordinates transaction 8, which touches its own partition 2 (region 1)
    and partition 0 (region 0). *)
Definition demo_crt : omap Z (omap Z (list SimpleCommand)) :=
  [(0, [(0, [demo_piece 8 7 1])]); (1, [(2, [demo_piece 8 8 1])])].
Definition demo_crt_sent : Sched := after (OnSubmitCRT demo_crt) (demo_site 6).
Definition demo_prep (site par : Z) (ts : Z) : DastRemotePreparedReq :=
  mk_RemotePreparedReq 8 site par (3 * par) (mk_ts ts 0 12).

(** All answers but the last one of partition 0 have arrived. *)
Definition demo_crt_waiting : Sched :=
  after (run [EvRemotePrepared (demo_prep 6 2 91000); EvRemotePrepared (demo_prep 7 2 91000);
              EvRemotePrepared (demo_prep 0 0 92000)]) demo_crt_sent.

(** The state in which the last answer has been counted. *)
Definition demo_crt_prepared : Sched :=
  after (set_txn 8 (fun t => add_ack 0 1 (t <| dist_partition_status_ ::= insert 0 P_REMOTE_PREPARED |>)))
    demo_crt_waiting.

Lemma decision_sent_to_all_witness :
  let t := txn demo_crt_prepared 8 in
  exists ts rest,
    (ts = ts_zero \/ exists region, (region, ts) ∈ anticipated_ts_ t) /\
    (forall region ts', (region, ts') ∈ anticipated_ts_ t -> ts_lt ts ts' = false) /\
    chr_phase_ t = DIST_REMOTE_SENT /\ find ts (ready_txns_ demo_crt_prepared) = None /\
    sent_ (after (CheckRemotePrepared 8) demo_crt_prepared) = sent_ demo_crt_prepared ++
      ((fun p => SendDistExe p.1 (mk_DistExeReq (tid_ t) ts)) <$> dist_partition_status_ t) ++ rest.
Proof.
  assert (all_prepared (txn demo_crt_prepared 8) = true) as E by (vm_compute; reflexivity).
  pose proof (decision_sent_to_all 8 demo_crt_prepared (after (CheckRemotePrepared 8) demo_crt_prepared)) as Hd.
  cbv zeta in *. rewrite E in Hd. apply Hd.
  - apply done_after. vm_compute. reflexivity.
  - split; vm_compute; split; congruence.
Defined.

(** Four answers, after which the coordinator has decided. *)
Definition demo_answers : list Event :=
  [EvRemotePrepared (demo_prep 6 2 91000); EvRemotePrepared (demo_prep 7 2 91000);
   EvRemotePrepared (demo_prep 0 0 92000); EvRemotePrepared (demo_prep 1 0 92000)].

Lemma crt_decided_after_quorum_witness :
  exists sites, NoDup sites /\ 2 <= Z.of_nat (length sites) /\
    forall site, site ∈ sites -> exists e, e ∈ demo_answers /\ crt_answer (consts (demo_site 6)) 8 0 site e.
Proof.
  apply (crt_decided_after_quorum demo_crt (demo_piece 8 7 1) (demo_site 6) demo_crt_sent demo_answers
           (after (run demo_answers) demo_crt_sent)).
  - unfold demo_crt_sent. apply done_after. vm_compute. reflexivity.
  - reflexivity.
  - apply done_after. vm_compute. reflexivity.
  - unfold demo_answers. rewrite !Forall_cons. split_and!; [left..|by apply Forall_nil]; by eexists _, _.
  - assert (chr_phase_ (txn (after (run demo_answers) demo_crt_sent) 8) = DIST_CAN_EXE) as E by (vm_compute; reflexivity).
    cbn [root_id_ demo_piece]. rewrite E. discriminate.
  - left.
Defined.

Lemma gate_ignores_timestamp_witness :
  must_wait demo_ready 5 =
    existsb (fun c => negb (ts_gt c.2 ts_zero)) (ir_site_max_ts demo_ready)
    || (phase_Z (chr_phase_ (txn demo_ready 5)) <? PHASE_CAN_EXE).
Proof.
  apply (@gate_ignores_timestamp demo_env (mk_site 0 0) (0 : Z) demo_events (demo_site 0) demo_ready 5).
  - reflexivity.
  - repeat constructor.
  - unfold demo_ready. apply done_after. vm_compute. reflexivity.
Defined.

Lemma coordinator_drops_pieces_witness : pieces_ (txn demo_crt_sent 8) = [].
Proof.
  apply (coordinator_drops_pieces demo_crt (demo_piece 8 7 1) (demo_site 6) demo_crt_sent).
  - unfold demo_crt_sent. apply done_after. vm_compute. reflexivity.
  - reflexivity.
  - intros r by_par p cs [[= -> ->]|[[= -> ->]|Hx%not_elem_of_nil]%elem_of_cons]%elem_of_cons; [| |done];
      intros [[= -> ->]|Hx%not_elem_of_nil]%elem_of_cons; done.
  - vm_compute. congruence.
Defined.

Definition demo_dexe : ChronosDistExeReq := mk_DistExeReq 8 (mk_ts 92000 0 12).
Definition demo_pcrt : DastPrepareCRTReq := mk_PrepareCRTReq (mk_ts 91000 0 12) 0 6 1.
Definition demo_overtaken : Sched :=
  after (OnPrepareCRT [demo_piece 8 7 1] demo_pcrt) (after (OnDistExe demo_dexe) (demo_site 1)).

Lemma decision_overtakes_prepare_witness :
  ready_txns_ demo_overtaken = ready_txns_ (demo_site 1) /\ sent_ demo_overtaken = sent_ (demo_site 1) /\
  dist_txn_tss_ demo_overtaken = dist_txn_tss_ (demo_site 1) /\ pieces_ (txn demo_overtaken 8) = [].
Proof.
  apply (decision_overtakes_prepare demo_dexe [demo_piece 8 7 1] (demo_piece 8 7 1) demo_pcrt
    (demo_site 1) (after (OnDistExe demo_dexe) (demo_site 1)) demo_overtaken).
  - reflexivity.
  - reflexivity.
  - reflexivity.
  - apply done_after. vm_compute. reflexivity.
  - unfold demo_overtaken. apply done_after. vm_compute. reflexivity.
Defined.
