(* ===== verification/ChrManager.v ===== *)
(** * The region manager of DAST (src/deptran/chronos/manager.cc, manager.h)

    [DastManager] is itself a [SchedulerChronos], created in the process of the
    first site of a region.  It assigns the anticipated timestamp of a transaction
    over several regions, forwards the pieces to the sites of the region they
    touch and makes the other sites of the region wait. *)
From stdpp Require Import base tactics numbers list sorting gmap.
From S2P Require Import Prelude OMap Command Config ChrTs ChrTypes ChrTx ChrSched ChrSchedInv ChrClock ChrExec ChrDemo.

Section manager.
Context `{Env}.

Record DastManager := mk_mgr { base : Sched; mgr_rid_ : Z; mgr_siteid_ : Z }.
#[export] Instance Eta_mgr : Eta DastManager :=
  fun r => mk_mgr (base r) (mgr_rid_ r) (mgr_siteid_ r).

(** The constructor of the base class leaves [site_id_], [partition_id_] and
    [my_rid_] at their initial values, [(siteid_t) -1], 0 and none; nobody assigns
    them for a manager. *)
Definition new_DastManager (site : SiteInfo) (db : Db) (junk_rid : Z) : option DastManager :=
  s ← new_SchedulerChronos site db;
  if sites_per_region_ s =? 0 then None
  else
    let rid := si_id site / sites_per_region_ s in
    Some (mk_mgr (s <| site_id_ := 65535 |> <| partition_id_ := 0 |> <| my_rid_ := junk_rid |>)
            rid (u16 (NumSites cfg + rid))).

(** A method of the base class *)
Definition on_base {A} (m : M Sched A) : M DastManager A := fun g =>
  match m (base g) with
  | Done (a, s) => Done (a, g <| base := s |>)
  | Aborted => Aborted
  | OutOfFuel => OutOfFuel
  end.

Definition draw (min max : Z) : M Sched Z :=
  r ← state (fun s => (rand_r (rand_reads_ s), s <| rand_reads_ ::= S |>));
  from_option (RandomGenerator_rand r min max).

Definition estimated_rtt : Z := 90 * 1000.

Definition CalculateAnticipatedTs (src_ts recv_ts : chr_ts_t) : M DastManager chr_ts_t :=
  state (fun g =>
    let ret := mk_ts (i64 (Z.max (timestamp_ src_ts) (timestamp_ recv_ts) + estimated_rtt)) 0
                 (i16 (mgr_siteid_ g)) in
    let ret := if negb (ts_gt ret (max_future_ts_ (base g)))
               then (max_future_ts_ (base g)) <| timestamp_ ::= fun t => i64 (t + 1) |> else ret in
    (ret, g <| base ::= fun s => s <| max_future_ts_ := ret |> |>)).

(** [for (target_par = region_start_par; target_par < end_par; target_par++)] *)
Definition region_pars (rid : Z) : list Z :=
  let region_start_par := u32 (rid * n_shard_per_region_ cfg) in
  let end_par := u32 ((rid + 1) * n_shard_per_region_ cfg) in
  seqZ region_start_par (end_par - region_start_par).

Definition NotiWait (req : DastNotiManagerWaitReq) : M DastManager () :=
  rid ← gets mgr_rid_;
  for_each (region_pars rid) (fun target_par =>
    let noti := mk_NotiCommitReq (nw_txn_id req) (nw_original_ts req) (nw_need_input_wait req)
                  (nw_new_ts req) (sinsert_range (nw_touched_sites req) []) in
    par_sites ← from_option (SitesByPartitionId cfg target_par);
    for_each par_sites (fun site =>
      when (negb (smem (si_id site) (nw_touched_sites req)))
        (on_base (send (SendNotiCommit (si_id site) noti)))));;
  on_base (modify (fun s => s <| dist_txn_tss_ ::= serase (nw_original_ts req) |>));;
  when (negb (nw_need_input_wait req =? 0))
    (on_base (modify (fun s => s <| dist_txn_tss_ ::= sinsert (nw_new_ts req) |>)));;
  on_base (send (ReplyNotiWait (nw_txn_id req))).

(** The leader of a shard, which sends the outputs: the coordinator if it is of
    this shard, else a random replica. *)
Definition shard_leader (coord_site target_par : Z) (par_sites : list SiteInfo) : M DastManager Z :=
  if coord_site / N_REP_PER_SHARD =? target_par then mret coord_site
  else
    r ← on_base (draw 0 (i32 (Z.of_nat (length par_sites) - 1)));
    s ← from_option (par_sites !! Z.to_nat r);
    mret (si_id s).

(** The loop over the touched partitions, which collects the touched sites. *)
Fixpoint prepare_pars (req : ChronosProposeRemoteReq) (anticipated_ts : chr_ts_t)
    (cmds_by_par : omap Z (list SimpleCommand)) (touched_sites : oset Z) : M DastManager (oset Z) :=
  match cmds_by_par with
  | [] => mret touched_sites
  | (target_par, cmds) :: cmds_by_par =>
    par_sites ← from_option (SitesByPartitionId cfg target_par);
    rid ← gets mgr_rid_;
    verify (target_par / n_shard_per_region_ cfg =? rid);;
    let coord_site := u16 (ts_site_id_ (pr_src_ts req)) in
    input_ready ← from_option (find target_par (pr_par_input_ready req));
    leader ← shard_leader coord_site target_par par_sites;
    let prep_req := mk_PrepareCRTReq anticipated_ts leader coord_site input_ready in
    for_each par_sites (fun site =>
      on_base (send (SendPrepareCRT target_par (si_id site) cmds prep_req)));;
    prepare_pars req anticipated_ts cmds_by_par (sinsert_range (si_id <$> par_sites) touched_sites)
  end.

Definition PrepareCRT (cmds_by_par : omap Z (list SimpleCommand)) (req : ChronosProposeRemoteReq) :
    M DastManager () :=
  c ← from_option ('(_, cs) ← head cmds_by_par; head cs);
  let txn_id := root_id_ c in
  my_ts ← on_base (GenerateChrTs true);
  anticipated_ts ← CalculateAnticipatedTs (pr_src_ts req) my_ts;
  touched_sites ← prepare_pars req anticipated_ts cmds_by_par [];
  rid ← gets mgr_rid_;
  for_each (region_pars rid) (fun target_par =>
    when (negb (count target_par cmds_by_par))
      (par_sites ← from_option (SitesByPartitionId cfg target_par);
       for_each par_sites (fun site =>
         on_base (send (SendNotiCRT (si_id site)
           (mk_NotiCRTReq txn_id anticipated_ts touched_sites))))));;
  on_base (modify (fun s => s <| dist_txn_tss_ ::= sinsert anticipated_ts |>));;
  on_base (send (ReplyPrepareCRT txn_id)).

(** ** Runs of the manager *)

(** The state after sending some messages *)
Definition emit (msgs : list Msg) (g : DastManager) : DastManager :=
  g <| base ::= fun s => s <| sent_ ::= fun l => l ++ msgs |> |>.

Lemma emit_nil g : emit [] g = g.
Proof. destruct g as [s ? ?], s. unfold emit, set_field. simpl. by rewrite app_nil_r. Qed.

Lemma emit_app a b g : emit b (emit a g) = emit (a ++ b) g.
Proof. unfold emit, set_field. simpl. by rewrite app_assoc. Qed.

Lemma emit_rand n msgs g :
  (emit msgs g) <| base ::= fun s => s <| rand_reads_ := n |> |> =
  emit msgs (g <| base ::= fun s => s <| rand_reads_ := n |> |>).
Proof. done. Qed.

Lemma send_each {A} (f : A -> Msg) l g :
  for_each l (fun x => on_base (send (f x))) g = Done (tt, emit (f <$> l) g).
Proof.
  revert g. induction l as [|x l IH]; intros g; simpl; [by rewrite emit_nil|].
  change (for_each l (fun x => on_base (send (f x))) (emit [f x] g) = Done (tt, emit (f x :: (f <$> l)) g)).
  by rewrite IH, emit_app.
Qed.

(** A loop each of whose rounds only sends. *)
Lemma emit_each {A} (f : A -> list Msg) (body : A -> M DastManager ()) (Ok : A -> Prop) l g g' :
  (forall x g g', body x g = Done (tt, g') -> Ok x /\ g' = emit (f x) g) ->
  for_each l body g = Done (tt, g') -> Forall Ok l /\ g' = emit (List.flat_map f l) g.
Proof.
  intros Hb. revert g. induction l as [|x l IH]; intros g; simpl.
  - intros [= <-]. rewrite emit_nil. by split.
  - intros Hrun. apply bind_done in Hrun as ([] & g1 & (Hok & ->)%Hb & Hrun).
    apply IH in Hrun as [Hall ->]. rewrite emit_app. by split; [constructor|].
Qed.

(** *** [NotiWait] *)

Definition noti_commit_of (req : DastNotiManagerWaitReq) : DastNotiCommitReq :=
  mk_NotiCommitReq (nw_txn_id req) (nw_original_ts req) (nw_need_input_wait req) (nw_new_ts req)
    (sinsert_range (nw_touched_sites req) []).

(** The sites of a partition *)
Definition par_ids (p : Z) : list Z := si_id <$> default [] (SitesByPartitionId cfg p).

Lemma fmap_filter_flat_map {A B C} (f : B -> C) (P : B -> Prop) `{forall x, Decision (P x)} (h : A -> list B) l :
  List.flat_map (fun p => f <$> filter P (h p)) l = f <$> filter P (List.flat_map h l).
Proof. induction l as [|p l IH]; simpl; [done|]. by rewrite IH, filter_app, fmap_app. Qed.

Lemma NotiWait_run req g g' :
  NotiWait req g = Done (tt, g') ->
  sent_ (base g') = sent_ (base g) ++
    ((fun x => SendNotiCommit x (noti_commit_of req)) <$>
      filter (fun x => x ∉ nw_touched_sites req) (List.flat_map par_ids (region_pars (mgr_rid_ g)))) ++
    [ReplyNotiWait (nw_txn_id req)] /\
  dist_txn_tss_ (base g') =
    let d := serase (nw_original_ts req) (dist_txn_tss_ (base g)) in
    if nw_need_input_wait req =? 0 then d else sinsert (nw_new_ts req) d.
Proof.
  unfold NotiWait. intros Hrun. apply bind_done in Hrun as (rid & g0 & [= <- <-] & Hrun).
  apply bind_done in Hrun as ([] & g1 & E1 & Hrun).
  apply (emit_each (fun p => (fun x => SendNotiCommit x (noti_commit_of req)) <$>
           filter (fun x => x ∉ nw_touched_sites req) (par_ids p)) _ (fun _ => True)) in E1 as [_ Hg].
  - apply bind_done in Hrun as ([] & g2 & [= <-] & Hrun).
    apply bind_done in Hrun as ([] & g3 & E3 & [= <-]).
    rewrite fmap_filter_flat_map in Hg. subst g1.
    unfold when in E3. destruct (nw_need_input_wait req =? 0); injection E3 as <-; simpl;
      by rewrite <- app_assoc.
  - intros p h h' Hb. split; [done|]. apply bind_done in Hb as (sites & h0 & Es & Hb).
    unfold par_ids. destruct (SitesByPartitionId cfg p); [|done]. injection Es as -> <-.
    apply (emit_each (fun s => if decide (si_id s ∉ nw_touched_sites req)
             then [SendNotiCommit (si_id s) (noti_commit_of req)] else []) _ (fun _ => True)) in Hb as [_ ->].
    + f_equal. simpl. induction sites as [|s l IH]; simpl; [done|]. rewrite filter_cons.
      case_decide; simpl; by rewrite IH.
    + intros s k k' Hk. split; [done|]. unfold when in Hk.
      destruct (smem (si_id s) _) eqn:Em; simpl in Hk; injection Hk as <-.
      * apply smem_spec in Em. rewrite decide_False by auto. by rewrite emit_nil.
      * apply smem_spec_false in Em. by rewrite decide_True.
Qed.

(** *** [PrepareCRT] *)

(** The messages of the first loop, with the leader chosen for each partition. *)
Inductive prepares (req : ChronosProposeRemoteReq) (ts : chr_ts_t) :
    omap Z (list SimpleCommand) -> list Msg -> Prop :=
  | prepares_nil : prepares req ts [] []
  | prepares_cons p cmds rest sites leader ready msgs :
    SitesByPartitionId cfg p = Some sites ->
    find p (pr_par_input_ready req) = Some ready ->
    (leader = u16 (ts_site_id_ (pr_src_ts req)) /\ leader / N_REP_PER_SHARD = p \/ leader ∈ si_id <$> sites) ->
    prepares req ts rest msgs ->
    prepares req ts ((p, cmds) :: rest)
      (((fun s => SendPrepareCRT p (si_id s) cmds
          (mk_PrepareCRTReq ts leader (u16 (ts_site_id_ (pr_src_ts req))) ready)) <$> sites) ++ msgs).

(** The random choices of the manager *)
Definition set_rand (n : nat) (g : DastManager) : DastManager :=
  g <| base ::= fun s => s <| rand_reads_ := n |> |>.

Lemma set_rand_id g : set_rand (rand_reads_ (base g)) g = g.
Proof. by destruct g as [[] ? ?]. Qed.

Lemma shard_leader_run coord p sites g leader g' :
  shard_leader coord p sites g = Done (leader, g') ->
  (leader = coord /\ leader / N_REP_PER_SHARD = p \/ leader ∈ si_id <$> sites) /\ exists n, g' = set_rand n g.
Proof.
  unfold shard_leader. destruct (Z.eqb_spec (coord / N_REP_PER_SHARD) p) as [<-|].
  - intros [= <- <-]. split; [by left|]. exists (rand_reads_ (base g)). by rewrite set_rand_id.
  - intros Hrun. apply bind_done in Hrun as (r & g1 & E1 & Hrun).
    apply bind_done in Hrun as (s & g2 & E2 & [= <- <-]).
    destruct (sites !! Z.to_nat r) as [x|] eqn:El; [|done]. injection E2 as -> <-.
    split; [right; apply list_elem_of_fmap_2; by eapply list_elem_of_lookup_2|].
    unfold on_base, draw, mbind, M_bind in E1. cbn [state] in E1.
    destruct (RandomGenerator_rand _ _ _); [|done]. injection E1 as <- <-. by eexists.
Qed.

Lemma prepare_pars_run req ts items touched g t' g' :
  prepare_pars req ts items touched g = Done (t', g') ->
  exists msgs n, g' = emit msgs (set_rand n g) /\ prepares req ts items msgs /\
    forall x, x ∈ t' <-> x ∈ touched \/ exists p, p ∈ items.*1 /\ x ∈ par_ids p.
Proof.
  revert touched g. induction items as [|[p cmds] items IH]; intros touched g; cbn [prepare_pars].
  - intros [= <- <-]. exists [], (rand_reads_ (base g)). rewrite emit_nil, set_rand_id.
    split_and!; [done | constructor|]. intros x. split; [auto|]. intros [?|(p & []%not_elem_of_nil & _)]. done.
  - intros Hrun. apply bind_done in Hrun as (sites & g1 & E1 & Hrun).
    destruct (SitesByPartitionId cfg p) as [ss|] eqn:Es; [|done]. injection E1 as -> <-.
    apply bind_done in Hrun as (rid & g1 & [= <- <-] & Hrun).
    apply bind_done in Hrun as ([] & g1 & E2 & Hrun). unfold verify in E2.
    destruct (_ =? _) in E2; [|done]. injection E2 as <-.
    apply bind_done in Hrun as (ready & g1 & E3 & Hrun).
    destruct (find p _) as [rd|] eqn:Er; [|done]. injection E3 as -> <-.
    apply bind_done in Hrun as (leader & g1 & [Hl [n ->]]%shard_leader_run & Hrun).
    apply bind_done in Hrun as ([] & g1 & E4 & Hrun). rewrite send_each in E4. injection E4 as <-.
    apply IH in Hrun as (msgs & k & -> & Hp & Ht). eexists _, k. split_and!.
    + rewrite <- emit_app. reflexivity.
    + by econstructor.
    + intros x. rewrite Ht, elem_of_sinsert_range. unfold par_ids in *. split.
      * intros [[Hx|Hx]|(q & Hq & Hx)]; [right; exists p | by left | right; exists q].
        -- rewrite Es. split; [by left | done].
        -- split; [by right | done].
      * intros [Hx|(q & [Hq|Hq]%elem_of_cons & Hx)]; [tauto | |].
        -- simpl in Hq. subst q. rewrite Es in Hx. auto.
        -- right. eauto.
Qed.

(** The site a message of the manager is for *)
Definition msg_site (m : Msg) : option Z :=
  match m with
  | SendPrepareCRT _ x _ _ | SendNotiCRT x _ | SendNotiCommit x _ => Some x
  | _ => None
  end.

Definition messages_to (x : Z) (msgs : list Msg) : list Msg := filter (fun m => msg_site m = Some x) msgs.

(** A site that is not addressed receives nothing; a site addressed once, one message. *)
Lemma messages_to_sites (f : Z -> Msg) (x : Z) (sites : list SiteInfo) :
  (forall y, msg_site (f y) = Some y) -> NoDup (si_id <$> sites) ->
  messages_to x ((fun s => f (si_id s)) <$> sites) =
  if decide (x ∈ si_id <$> sites) then [f x] else [].
Proof.
  intros Hf. unfold messages_to. induction sites as [|s l IH]; [done|]. rewrite !fmap_cons.
  intros [Hn Hd]%NoDup_cons. rewrite filter_cons, IH by done. rewrite Hf.
  destruct (decide (Some (si_id s) = Some x)) as [[= <-]|Hne].
  - rewrite (decide_False (P := si_id s ∈ si_id <$> l)), decide_True by (done || apply list_elem_of_here). done.
  - destruct (decide (x ∈ si_id <$> l)) as [Hin|Hin].
    + by rewrite decide_True by (by apply list_elem_of_further).
    + rewrite decide_False; [done|]. intros [->|?]%elem_of_cons; done.
Qed.

Lemma prepares_messages req ts items msgs p x :
  prepares req ts items msgs -> layout cfg -> NoDup items.*1 -> x ∈ par_ids p ->
  match find p items with
  | Some cmds => exists leader ready,
      messages_to x msgs = [SendPrepareCRT p x cmds
        (mk_PrepareCRTReq ts leader (u16 (ts_site_id_ (pr_src_ts req))) ready)] /\
      find p (pr_par_input_ready req) = Some ready /\
      (leader = u16 (ts_site_id_ (pr_src_ts req)) /\ leader / N_REP_PER_SHARD = p \/ leader ∈ par_ids p)
  | None => messages_to x msgs = []
  end.
Proof.
  intros Hp HL. induction Hp as [|q cmds rest sites leader ready msgs Hs Hr Hl Hp IH]; [done|].
  intros [Hn Hd]%NoDup_cons Hx. specialize (IH Hd Hx). cbn [find]. simpl in Hn.
  unfold messages_to. rewrite filter_app. change (filter _ msgs) with (messages_to x msgs).
  change (filter _ (_ <$> sites)) with (messages_to x ((fun s => SendPrepareCRT q (si_id s) cmds
     (mk_PrepareCRTReq ts leader (u16 (ts_site_id_ (pr_src_ts req))) ready)) <$> sites)).
  rewrite (messages_to_sites (fun y => SendPrepareCRT q y cmds _));
    [|done|by eapply layout_NoDup].
  destruct (decide (p = q)) as [->|Hne].
  - rewrite (proj2 (find_None_notin q rest)) in IH by done. rewrite IH. unfold par_ids in *.
    rewrite Hs in *. simpl in *. rewrite decide_True by done. exists leader, ready. by rewrite app_nil_r.
  - assert (x ∉ si_id <$> sites) as Hout.
    { intros Hin. unfold par_ids in Hx. destruct (SitesByPartitionId cfg p) as [sp|] eqn:Ep.
      - apply Hne. by eapply layout_disjoint.
      - by apply not_elem_of_nil in Hx. }
    rewrite decide_False by done. exact IH.
Qed.

(** The second loop: the partitions of the region that are not touched. *)
Definition noti_msgs (cmds_by_par : omap Z (list SimpleCommand)) (noti : DastNotiCRTReq) (p : Z) : list Msg :=
  if count p cmds_by_par then [] else (fun x => SendNotiCRT x noti) <$> par_ids p.

Lemma messages_to_app x a b : messages_to x (a ++ b) = messages_to x a ++ messages_to x b.
Proof. apply filter_app. Qed.

(** The partitions of a region, if their numbers fit the 32 bits of [parid_t]. *)
Definition region_fits (rid : Z) : Prop :=
  0 < n_shard_per_region_ cfg /\ 0 <= rid /\ (rid + 1) * n_shard_per_region_ cfg < 2 ^ 32.

Lemma elem_of_region_pars rid p :
  region_fits rid -> p ∈ region_pars rid <-> p / n_shard_per_region_ cfg = rid.
Proof.
  intros (Hn & Hr & Hb). unfold region_pars. set (n := n_shard_per_region_ cfg) in *.
  rewrite !wrap_u_id by (unfold in_u; nia). rewrite elem_of_seqZ.
  pose proof (Z.div_mod p n ltac:(lia)). pose proof (Z.mod_pos_bound p n ltac:(lia)). split.
  - intros Hp. symmetry. apply (Z.div_unique p n rid (p - n * rid)); nia.
  - intros <-. nia.
Qed.

Lemma par_ids_disjoint p q x : layout cfg -> x ∈ par_ids p -> x ∈ par_ids q -> p = q.
Proof.
  intros HL. unfold par_ids. destruct (SitesByPartitionId cfg p) eqn:Ep; [|by intros ?%not_elem_of_nil].
  destruct (SitesByPartitionId cfg q) eqn:Eq; [|by intros _ ?%not_elem_of_nil].
  by apply (layout_disjoint _ HL).
Qed.

Lemma noti_messages_to cmds_by_par noti q x :
  layout cfg -> messages_to x (noti_msgs cmds_by_par noti q) =
  if count q cmds_by_par then [] else if decide (x ∈ par_ids q) then [SendNotiCRT x noti] else [].
Proof.
  intros HL. unfold noti_msgs. destruct (count q cmds_by_par); [done|].
  unfold par_ids. rewrite <- list_fmap_compose.
  apply (messages_to_sites (fun y => SendNotiCRT y noti)); [done|].
  destruct (SitesByPartitionId cfg q) eqn:E; [by eapply layout_NoDup | constructor].
Qed.

Lemma noti_messages cmds_by_par noti pars p x :
  layout cfg -> NoDup pars -> x ∈ par_ids p ->
  messages_to x (List.flat_map (noti_msgs cmds_by_par noti) pars) =
  if decide (p ∈ pars) then if count p cmds_by_par then [] else [SendNotiCRT x noti] else [].
Proof.
  intros HL Hnd Hx. induction Hnd as [|q pars Hq Hnd IH]; [done|].
  cbn [List.flat_map]. rewrite messages_to_app, IH, noti_messages_to by done.
  destruct (decide (p = q)) as [->|Hne].
  - rewrite (decide_False (P := q ∈ pars)), (decide_True (P := q ∈ q :: pars)) by (done || apply list_elem_of_here).
    rewrite decide_True by done. destruct (count q cmds_by_par); by rewrite ?app_nil_r.
  - rewrite (decide_False (P := x ∈ par_ids q)) by (intros Hin; apply Hne; by eapply par_ids_disjoint).
    destruct (count q cmds_by_par); simpl; (destruct (decide (p ∈ pars)) as [Hin|Hin];
      [rewrite (decide_True (P := p ∈ q :: pars)) by (by apply list_elem_of_further); done
      |rewrite (decide_False (P := p ∈ q :: pars)) by (intros [?|?]%elem_of_cons; done); done]).
Qed.

Lemma NoDup_par_ids p : layout cfg -> NoDup (par_ids p).
Proof.
  intros HL. unfold par_ids. destruct (SitesByPartitionId cfg p) eqn:E; [by eapply layout_NoDup | constructor].
Qed.

(** The notices of [NotiWait]. *)
Lemma commit_messages req pars p x :
  layout cfg -> NoDup pars -> x ∈ par_ids p ->
  messages_to x ((fun y => SendNotiCommit y (noti_commit_of req)) <$>
      filter (fun y => y ∉ nw_touched_sites req) (List.flat_map par_ids pars)) =
  if bool_decide (p ∈ pars) && negb (smem x (nw_touched_sites req))
  then [SendNotiCommit x (noti_commit_of req)] else [].
Proof.
  intros HL Hnd Hx.
  assert (forall l, NoDup l -> messages_to x ((fun y => SendNotiCommit y (noti_commit_of req)) <$> l) =
    if decide (x ∈ l) then [SendNotiCommit x (noti_commit_of req)] else []) as Hone.
  { intros l Hl. pose proof (messages_to_sites (fun y => SendNotiCommit y (noti_commit_of req)) x
      ((fun y => mk_site y 0) <$> l)) as Hm.
    rewrite <- !list_fmap_compose in Hm. change (si_id ∘ (fun y : Z => mk_site y 0)) with (@id Z) in Hm.
    rewrite list_fmap_id in Hm. by apply Hm. }
  rewrite Hone.
  - unfold smem. destruct (bool_decide_reflect (p ∈ pars)) as [Hp|Hp];
      destruct (bool_decide_reflect (x ∈ nw_touched_sites req)) as [Ht|Ht]; cbn [andb negb];
      [rewrite decide_False | rewrite decide_True | rewrite decide_False | rewrite decide_False]; try done.
    + intros [? _]%list_elem_of_filter. done.
    + apply list_elem_of_filter. split; [done|]. apply list_elem_of_In, in_flat_map. exists p.
      split; by apply list_elem_of_In.
    + intros [? _]%list_elem_of_filter. done.
    + intros [_ Hin]%list_elem_of_filter. apply list_elem_of_In, in_flat_map in Hin as (q & Hq & Hxq).
      apply list_elem_of_In in Hq, Hxq. by rewrite (par_ids_disjoint p q x HL Hx Hxq) in Hp.
  - apply NoDup_filter. induction Hnd as [|q pars Hq Hnd IH]; [constructor|]. cbn [List.flat_map].
    apply NoDup_app. split_and!; [by apply NoDup_par_ids | | done].
    intros y Hy Hin. apply list_elem_of_In, in_flat_map in Hin as (r & Hr & Hyr).
    apply list_elem_of_In in Hr, Hyr. by rewrite (par_ids_disjoint q r y HL Hy Hyr) in Hq.
Qed.

(** What a run of [PrepareCRT] does, message by message. *)
Lemma PrepareCRT_run cmds_by_par req g g' :
  PrepareCRT cmds_by_par req g = Done (tt, g') ->
  exists ts txn_id touched prep my_ts s1,
    GenerateChrTs true (base g) = Done (my_ts, s1) /\
    result_of (CalculateAnticipatedTs (pr_src_ts req) my_ts) (g <| base := s1 |>) = Some ts /\
    sent_ (base g') = sent_ (base g) ++ (prep ++
      List.flat_map (noti_msgs cmds_by_par (mk_NotiCRTReq txn_id ts touched)) (region_pars (mgr_rid_ g))) ++
      [ReplyPrepareCRT txn_id] /\
    prepares req ts cmds_by_par prep /\
    (forall x, x ∈ touched <-> exists p, p ∈ cmds_by_par.*1 /\ x ∈ par_ids p) /\
    dist_txn_tss_ (base g') = sinsert ts (dist_txn_tss_ (base g)) /\ max_future_ts_ (base g') = ts.
Proof.
  unfold PrepareCRT. intros Hrun. apply bind_done in Hrun as (c & g0 & E0 & Hrun).
  destruct ('(_, cs) ← head cmds_by_par; head cs) as [c'|]; [|done]. injection E0 as -> <-.
  apply bind_done in Hrun as (my_ts & g1 & E1 & Hrun). unfold on_base in E1.
  destruct (GenerateChrTs true (base g)) as [[m s1]| |] eqn:Eg; try done. injection E1 as -> <-.
  assert (sent_ s1 = sent_ (base g) /\ dist_txn_tss_ s1 = dist_txn_tss_ (base g)) as [Hs1 Hd1].
  { unfold GenerateChrTs, read_clock in Eg. apply bind_done in Eg as (t & s2 & [= <- <-] & [= <- <-]).
    done. }
  apply bind_done in Hrun as (ts & g2 & E2 & Hrun).
  apply bind_done in Hrun as (touched & g3 & (prep & n & -> & Hp & Ht)%prepare_pars_run & Hrun).
  apply bind_done in Hrun as (rid & g4 & [= <- <-] & Hrun).
  apply bind_done in Hrun as ([] & g4 & E4 & Hrun).
  apply (emit_each (noti_msgs cmds_by_par (mk_NotiCRTReq (root_id_ c) ts touched)) _ (fun _ => True)) in E4
    as [_ ->].
  - injection E2 as Ets <-.
    exists ts, (root_id_ c), touched, prep, my_ts, s1. split_and!; [done | | | done | | |].
    + unfold result_of, CalculateAnticipatedTs, state. by rewrite <- Ets.
    + injection Hrun as <-. simpl. rewrite Hs1, <- !app_assoc. done.
    + intros x. rewrite Ht. split; [intros [?%not_elem_of_nil|?] | right]; done.
    + injection Hrun as <-. simpl. by rewrite Hd1.
    + injection Hrun as <-. done.
  - intros p h h' Hb. split; [done|]. unfold when in Hb. unfold noti_msgs.
    destruct (count p cmds_by_par); simpl in Hb; [injection Hb as <-; by rewrite emit_nil|].
    apply bind_done in Hb as (sites & h0 & Es & Hb). unfold par_ids.
    destruct (SitesByPartitionId cfg p); [|done]. injection Es as -> <-.
    rewrite send_each in Hb. injection Hb as <-. simpl. by rewrite <- list_fmap_compose.
Qed.

Lemma CalculateAnticipatedTs_run src recv g :
  in_s 64 (Z.max (timestamp_ src) (timestamp_ recv) + estimated_rtt) ->
  in_s 64 (timestamp_ (max_future_ts_ (base g)) + 1) ->
  let r := Z.max (timestamp_ src) (timestamp_ recv) + estimated_rtt in
  exists ts g', CalculateAnticipatedTs src recv g = Done (ts, g') /\ max_future_ts_ (base g') = ts /\
    r <= timestamp_ ts <= Z.max r (timestamp_ (max_future_ts_ (base g)) + 1) /\
    ts_lex (max_future_ts_ (base g)) ts.
Proof.
  intros Hin Hmax r. unfold CalculateAnticipatedTs, state. fold r. fold r in Hin.
  rewrite (wrap_s_id 64 r) by (done || lia). set (ret := mk_ts r 0 _).
  set (mx := max_future_ts_ (base g)) in *. eexists _, _. split; [reflexivity|]. simpl.
  destruct (ts_gt ret mx) eqn:E; simpl.
  - apply ts_gt_lex in E. split_and!; [done | lia | lia | done].
  - apply ts_gt_false in E. unfold set_field. simpl. rewrite wrap_s_id by (done || lia).
    unfold ts_lex in *. simpl in *. split_and!; [done | lia | lia | left; lia].
Qed.

(** Requests one after the other, each with the timestamp of its source and the
    clock of the manager at its arrival. *)
Fixpoint anticipate_all (l : list (chr_ts_t * chr_ts_t)) : M DastManager (list chr_ts_t) :=
  match l with
  | [] => mret []
  | (src, recv) :: l =>
    ts ← CalculateAnticipatedTs src recv;
    rest ← anticipate_all l;
    mret (ts :: rest)
  end.

(** The timestamps leave room for the estimate and for [n] increments. *)
Definition in_horizon (n : Z) (p : chr_ts_t * chr_ts_t) : Prop :=
  0 <= timestamp_ p.1 /\ 0 <= timestamp_ p.2 /\
  Z.max (timestamp_ p.1) (timestamp_ p.2) + estimated_rtt + n < 2 ^ 63.

Lemma anticipate_all_run l g :
  Forall (in_horizon (Z.of_nat (length l))) l ->
  0 <= timestamp_ (max_future_ts_ (base g)) ->
  timestamp_ (max_future_ts_ (base g)) + Z.of_nat (length l) < 2 ^ 63 ->
  exists out g', anticipate_all l g = Done (out, g') /\
    StronglySorted ts_lex (max_future_ts_ (base g) :: out) /\
    Forall2 (fun p ts => timestamp_ p.1 + estimated_rtt <= timestamp_ ts /\
                         timestamp_ p.2 + estimated_rtt <= timestamp_ ts) l out.
Proof.
  revert g. induction l as [|[src recv] l IH]; intros g Hl Hpos Hm.
  - exists [], g. split_and!; [done | repeat constructor | constructor].
  - inversion Hl as [|? ? (H1 & H2 & H3) Hl']; subst. simpl in *.
    destruct (CalculateAnticipatedTs_run src recv g) as (ts & g1 & E & Hts & Hr & Hlex);
      [unfold in_s, estimated_rtt in *; lia | unfold in_s; lia |].
    destruct (IH g1) as (out & g2 & E2 & Hs & Hall).
    + eapply Forall_impl; [exact Hl'|]. intros p (P1 & P2 & P3). split_and!; [done..|]. lia.
    + rewrite Hts. unfold estimated_rtt in *. lia.
    + rewrite Hts. unfold estimated_rtt in *. lia.
    + exists (ts :: out), g2. unfold mbind, M_bind. rewrite E, E2. rewrite Hts in Hs. split_and!; [done | |].
      * apply StronglySorted_cons. split; [|exact Hs]. constructor; [exact Hlex|].
        inversion Hs as [|? ? Hs' Hf]; subst. eapply Forall_impl; [exact Hf|].
        intros y Hy. by eapply ts_lex_trans.
      * constructor; [simpl; lia | done].
Qed.
End manager.

(** The messages of the sync loop carry the [site_id_] of the object. *)
Definition syncs_as (site : Z) `{Env} (s : Sched) : Prop :=
  site_id_ s = site /\ forall x req, SendIRSync x req ∈ sent_ s -> ir_my_site req = site.

Lemma IRSyncLoop_syncs_as `{Env} site : preserves (syncs_as site) IRSyncLoop.
Proof.
  unfold IRSyncLoop. apply preserves_bind; [apply preserves_gets|]. intros l.
  apply preserves_for_each. intros x _.
  assert (forall a b, preserves (syncs_as site) (CollectNotifyTxns a b)) as Hc.
  { intros a b. unfold CollectNotifyTxns. apply preserves_state. intros s Hs.
    by destruct (index ts_zero a _). }
  assert (forall b, preserves (syncs_as site) (GenerateChrTs b)) as Hg.
  { intros b. unfold GenerateChrTs, read_clock. solve_preserves; apply preserves_state; intros s Hs;
      repeat case_match; exact Hs. }
  apply preserves_bind; [apply preserves_gets|]. intros synced.
  apply preserves_bind; [|intros _; by apply preserves_modify].
  apply preserves_when. apply preserves_bind; [apply Hc|]. intros infos.
  apply preserves_bind; [apply preserves_state; intros s Hs; by destruct (index ts_zero _ _)|].
  intros d. eapply (hoare_bind _ _ _ (fun me s => syncs_as site s /\ me = site)).
  { intros s a s' Hs [= <- <-]. split; [done | by destruct Hs]. }
  intros me s a s' [Hs ->] Hrun. apply bind_done in Hrun as (ts & s1 & E & [= <- <-]).
  apply (Hg _ _ _ _ Hs) in E as [E1 E2]. split; [done|]. intros y req. cbn. rewrite elem_of_app.
  intros [Hin|[= _ ->]%list_elem_of_singleton]; [by eapply E2 | done].
Qed.

(** C33: the anticipated timestamps a manager assigns, one
    request after the other, are strictly increasing, above every one it has
    assigned before, and each is at least the estimated round trip later than the
    source's and than its own clock. *)
Theorem anticipated_ts_increasing `{Env} l g :
  Forall (in_horizon (Z.of_nat (length l))) l ->
  0 <= timestamp_ (max_future_ts_ (base g)) ->
  timestamp_ (max_future_ts_ (base g)) + Z.of_nat (length l) < 2 ^ 63 ->
  exists out g', anticipate_all l g = Done (out, g') /\
    StronglySorted ts_lex (max_future_ts_ (base g) :: out) /\
    Forall2 (fun p ts => timestamp_ p.1 + estimated_rtt <= timestamp_ ts /\
                         timestamp_ p.2 + estimated_rtt <= timestamp_ ts) l out.
Proof. apply anticipate_all_run. Qed.

(** C6: on a transaction over several regions, every site of
    a touched partition receives exactly one message, the request to prepare its
    pieces at the anticipated timestamp, with the coordinator or a replica as the
    leader of the shard; every site of another partition of the region receives
    exactly one message, the notice to wait at this timestamp for precisely the
    sites of the touched partitions. *)
Theorem prepare_reaches_region `{Env} cmds_by_par req g g' :
  PrepareCRT cmds_by_par req g = Done (tt, g') -> layout cfg -> NoDup cmds_by_par.*1 ->
  region_fits (mgr_rid_ g) ->
  exists ts txn_id touched msgs,
    sent_ (base g') = sent_ (base g) ++ msgs ++ [ReplyPrepareCRT txn_id] /\
    dist_txn_tss_ (base g') = sinsert ts (dist_txn_tss_ (base g)) /\
    (forall x, x ∈ touched <-> exists p, p ∈ cmds_by_par.*1 /\ x ∈ par_ids p) /\
    forall p x, p / n_shard_per_region_ cfg = mgr_rid_ g -> x ∈ par_ids p ->
      match find p cmds_by_par with
      | Some cmds => exists leader ready,
          messages_to x msgs = [SendPrepareCRT p x cmds
            (mk_PrepareCRTReq ts leader (u16 (ts_site_id_ (pr_src_ts req))) ready)] /\
          find p (pr_par_input_ready req) = Some ready /\
          (leader = u16 (ts_site_id_ (pr_src_ts req)) /\ leader / N_REP_PER_SHARD = p \/ leader ∈ par_ids p)
      | None => messages_to x msgs = [SendNotiCRT x (mk_NotiCRTReq txn_id ts touched)]
      end.
Proof.
  intros Hrun HL Hnd Hfit.
  apply PrepareCRT_run in Hrun as (ts & txn_id & touched & prep & my_ts & s1 & _ & _ & Hs & Hp & Ht & Hd & _).
  eexists ts, txn_id, touched, _. split_and!; [exact Hs | done | done |].
  intros p x Hin%(elem_of_region_pars _ p Hfit) Hx. rewrite messages_to_app.
  rewrite (noti_messages _ _ _ p) by (done || apply NoDup_seqZ). rewrite decide_True by done.
  pose proof (prepares_messages req ts cmds_by_par prep p x Hp HL Hnd Hx) as Hm. unfold count.
  destruct (find p cmds_by_par) as [cmds|].
  - destruct Hm as (leader & ready & -> & Hr). exists leader, ready. by rewrite app_nil_r.
  - by rewrite Hm.
Qed.

(** The notice that a transaction is decided is passed on to exactly the
    sites of the region that are not touched, once each, and the manager itself
    stops waiting at the anticipated timestamp; it waits at the decided one if and
    only if the transaction still needs input. *)
Theorem noti_wait_releases_region `{Env} req g g' :
  NotiWait req g = Done (tt, g') -> layout cfg -> region_fits (mgr_rid_ g) ->
  (exists msgs, sent_ (base g') = sent_ (base g) ++ msgs ++ [ReplyNotiWait (nw_txn_id req)] /\
    forall p x, x ∈ par_ids p ->
      messages_to x msgs =
        if (p / n_shard_per_region_ cfg =? mgr_rid_ g) && negb (smem x (nw_touched_sites req))
        then [SendNotiCommit x (noti_commit_of req)] else []) /\
  dist_txn_tss_ (base g') =
    let d := serase (nw_original_ts req) (dist_txn_tss_ (base g)) in
    if nw_need_input_wait req =? 0 then d else sinsert (nw_new_ts req) d.
Proof.
  intros Hrun HL Hfit. apply NotiWait_run in Hrun as [Hs Hd]. split; [|done].
  eexists. split; [exact Hs|]. intros p x Hx.
  rewrite (commit_messages req _ p x HL) by (done || apply NoDup_seqZ).
  rewrite (bool_decide_ext _ _ (elem_of_region_pars _ p Hfit)).
  destruct (Z.eqb_spec (p / n_shard_per_region_ cfg) (mgr_rid_ g)).
  - by rewrite bool_decide_true.
  - by rewrite bool_decide_false.
Qed.

(** the sync loop of a manager announces its clock under
    the site id 65535, the initial value of [site_id_], which is nobody's: the
    constructor computes [mgr_siteid_] but does not change [site_id_]. *)
Theorem manager_syncs_as_nobody `{Env} site db junk g s' x req :
  new_DastManager site db junk = Some g -> IRSyncLoop (base g) = Done (tt, s') ->
  SendIRSync x req ∈ sent_ s' -> ir_my_site req = 65535.
Proof.
  intros Hnew Hrun. unfold new_DastManager, new_SchedulerChronos in Hnew.
  destruct (SitesByPartitionId _ _) as [reps|]; [|done]. simpl in Hnew.
  destruct (_ =? _)%nat; [done|]. simpl in Hnew. destruct (_ =? _); [done|]. injection Hnew as <-.
  assert (syncs_as 65535 s') as [_ Hs]; [|by apply Hs].
  revert Hrun. apply IRSyncLoop_syncs_as. split; [done|]. intros y r Hy. by apply not_elem_of_nil in Hy.
Qed.

(** ** Instances *)

#[local] Existing Instance demo_env.

(** The manager of region 0 *)
Definition demo_mgr : DastManager :=
  match new_DastManager (mk_site 0 0) (0 : Db) 0 with
  | Some g => g
  | None => mk_mgr (demo_site 0) 0 0
  end.

Definition demo_requests : list (chr_ts_t * chr_ts_t) :=
  [(mk_ts 5000 0 6, mk_ts 4000 0 (-1)); (mk_ts 3000 0 7, mk_ts 4100 0 (-1));
   (mk_ts 3000 0 8, mk_ts 200000 0 (-1))].

Lemma anticipated_ts_increasing_witness :
  exists out g', anticipate_all demo_requests demo_mgr = Done (out, g') /\
    StronglySorted ts_lex (max_future_ts_ (base demo_mgr) :: out) /\
    Forall2 (fun p ts => timestamp_ p.1 + estimated_rtt <= timestamp_ ts /\
                         timestamp_ p.2 + estimated_rtt <= timestamp_ ts) demo_requests out.
Proof.
  apply (anticipated_ts_increasing demo_requests demo_mgr).
  - repeat constructor; vm_compute; congruence.
  - vm_compute. congruence.
  - vm_compute. reflexivity.
Defined.

(** Site 6, of region 1, asks the manager of region 0 to prepare a piece of
    partition 0; partition 1 is not touched. *)
Definition demo_pcmds : omap Z (list SimpleCommand) := [(0, [demo_piece 8 7 1])].
Definition demo_preq : ChronosProposeRemoteReq := mk_ProposeRemoteReq (mk_ts 5000 0 6) [(0, 1); (2, 1)].
Definition demo_prepared : DastManager := after (PrepareCRT demo_pcmds demo_preq) demo_mgr.

Lemma prepare_reaches_region_witness :
  exists ts txn_id touched msgs,
    sent_ (base demo_prepared) = sent_ (base demo_mgr) ++ msgs ++ [ReplyPrepareCRT txn_id] /\
    dist_txn_tss_ (base demo_prepared) = sinsert ts (dist_txn_tss_ (base demo_mgr)) /\
    (forall x, x ∈ touched <-> exists p, p ∈ demo_pcmds.*1 /\ x ∈ par_ids p) /\
    forall p x, p / n_shard_per_region_ cfg = mgr_rid_ demo_mgr -> x ∈ par_ids p ->
      match find p demo_pcmds with
      | Some cmds => exists leader ready,
          messages_to x msgs = [SendPrepareCRT p x cmds
            (mk_PrepareCRTReq ts leader (u16 (ts_site_id_ (pr_src_ts demo_preq))) ready)] /\
          find p (pr_par_input_ready demo_preq) = Some ready /\
          (leader = u16 (ts_site_id_ (pr_src_ts demo_preq)) /\ leader / N_REP_PER_SHARD = p \/
           leader ∈ par_ids p)
      | None => messages_to x msgs = [SendNotiCRT x (mk_NotiCRTReq txn_id ts touched)]
      end.
Proof.
  apply (prepare_reaches_region demo_pcmds demo_preq demo_mgr demo_prepared).
  - unfold demo_prepared. apply done_after. vm_compute. reflexivity.
  - apply uniform_layout.
  - repeat constructor. by intros ?%not_elem_of_nil.
  - split_and!; vm_compute; congruence.
Defined.

(** Partition 0 is touched, and waits for input at a later timestamp. *)
Definition demo_wait : DastNotiManagerWaitReq :=
  mk_NotiManagerWaitReq 8 (mk_ts 95000 0 12) 1 (mk_ts 97000 0 13) [0; 1; 2].

Definition demo_waited : DastManager := after (NotiWait demo_wait) demo_mgr.

Lemma noti_wait_releases_region_witness :
  (exists msgs, sent_ (base demo_waited) = sent_ (base demo_mgr) ++ msgs ++ [ReplyNotiWait (nw_txn_id demo_wait)] /\
    forall p x, x ∈ par_ids p ->
      messages_to x msgs =
        if (p / n_shard_per_region_ cfg =? mgr_rid_ demo_mgr) && negb (smem x (nw_touched_sites demo_wait))
        then [SendNotiCommit x (noti_commit_of demo_wait)] else []) /\
  dist_txn_tss_ (base demo_waited) =
    let d := serase (nw_original_ts demo_wait) (dist_txn_tss_ (base demo_mgr)) in
    if nw_need_input_wait demo_wait =? 0 then d else sinsert (nw_new_ts demo_wait) d.
Proof.
  apply (noti_wait_releases_region demo_wait demo_mgr demo_waited).
  - unfold demo_waited. apply done_after. vm_compute. reflexivity.
  - apply uniform_layout.
  - split_and!; vm_compute; congruence.
Defined.

Definition demo_mgr_synced : Sched := after IRSyncLoop (base demo_mgr).
Definition demo_mgr_sync : DastIRSyncReq := mk_IRSyncReq 65535 (mk_ts 1000 1000 (-1)) [] ts_zero.

Lemma manager_syncs_as_nobody_witness : ir_my_site demo_mgr_sync = 65535.
Proof.
  apply (@manager_syncs_as_nobody demo_env (mk_site 0 0) (0 : Z) 0 demo_mgr demo_mgr_synced 1 demo_mgr_sync).
  - reflexivity.
  - unfold demo_mgr_synced. apply done_after. vm_compute. reflexivity.
  - assert (head (sent_ demo_mgr_synced) = Some (SendIRSync 1 demo_mgr_sync)) as E by (vm_compute; reflexivity).
    destruct (sent_ demo_mgr_synced) as [|m l]; [done|]. injection E as ->. apply list_elem_of_here.
Defined.
