(* ===== verification/ChrNet.v ===== *)
(** * DAST: the sites and the region managers together
    (src/deptran/chronos/commo.cc; start-up in src/deptran/server_worker.cc)

    The schedulers of all sites and the managers of all regions, with the messages
    between them.  A message that has been sent may be delivered at any later time, once,
    in any order, or never; a handler that fails a [verify] has no successor state.
    [dy_callers] is what the closure of an RPC that is answered later has captured: who
    called, and which partition it meant.  A manager, being a scheduler, runs the
    synchronisation loop of one as well, under the site number it never assigned.  [dy_ids] are the identifiers that clients have
    used; no handler reads it. *)
From stdpp Require Import base tactics numbers list sorting gmap.
From S2P Require Import Prelude OMap Command Config ChrTs ChrTypes ChrTx ChrSched ChrManager.

(** A message to a site, a message to the manager of a region, and an answer to what
    [dst] has sent to [site] of the partition [par]. *)
Inductive dast_packet :=
  | Pkt (src dst : Z) (m : Msg)
  | ToMgr (region : Z) (m : Msg)
  | Rsp (dst par site : Z) (m : Msg).

Section net.
Context `{Env}.

Record Dast := mk_dast {
  dy_sites : gmap Z Sched;
  dy_mgrs : gmap Z DastManager;
  dy_net : list dast_packet;
  dy_callers : gmap (Z * Z) (Z * Z);
  dy_ids : gset Z;
}.
#[export] Instance Eta_dast : Eta Dast := fun r => mk_dast (dy_sites r) (dy_mgrs r) (dy_net r) (dy_callers r) (dy_ids r).

(** Every site has a scheduler; the first site of a region has its manager as well. *)
Definition manager_of (db : Db) (junk_rid : Z) (x : SiteInfo) : option (Z * DastManager) :=
  n ← GetPartitionSize cfg (si_partition_id_ x);
  if si_id x mod (n * n_shard_per_region_ cfg) =? 0
  then g ← new_DastManager x db junk_rid; Some (si_id x / (n * n_shard_per_region_ cfg), g)
  else None.

Definition init_dast (db : Db) (junk_rid : Z) : Dast := {|
  dy_sites := list_to_map (base.omap (fun x => s ← new_SchedulerChronos x db; Some (si_id x, s)) (sites_ cfg));
  dy_mgrs := list_to_map (base.omap (manager_of db junk_rid) (sites_ cfg));
  dy_net := [];
  dy_callers := ∅;
  dy_ids := ∅;
|}.

(** ** Where the messages of the site [me] go *)

Definition par_sites (par : Z) : list Z := si_id <$> default [] (SitesByPartitionId cfg par).

(** An answer goes to the caller of the RPC. *)
Definition answer (callers : gmap (Z * Z) (Z * Z)) (me id : Z) (m : Msg) : list dast_packet :=
  match callers !! (me, id) with
  | Some (src, par) => [Rsp src par me m]
  | None => []
  end.

(** The other answers are to RPCs without a callback, or to clients. *)
Definition route (callers : gmap (Z * Z) (Z * Z)) (me : Z) (m : Msg) : list dast_packet :=
  match m with
  | SendIRSync x _ | SendPrepareIRT _ x _ _ | SendRemotePrepared x _ | SendStoreRemote x _ _
  | SendPrepareCRT _ x _ _ | SendNotiCommit x _ | SendNotiCRT x _ => [Pkt me x m]
  | SendOutput par _ => (fun x => Pkt me x m) <$> par_sites par
  | SendDistExe par _ => (fun x => Pkt me x m) <$> filter (fun x => x ≠ me) (par_sites par)
  | SendPrepareRemote _ region _ | SendNotiWait region _ => [ToMgr region m]
  | ReplyPrepareIRT id _ | ReplyDistExe id _ _ => answer callers me id m
  | ReplySubmit _ _ | ReplyProposeRemote _ | ReplyProposeLocal _ | ReplyRemotePrepared _
  | ReplySendOutput _ | ReplyNotiWait _ | ReplyPrepareCRT _ => []
  end.

Definition at_site (site : Z) (m : M Sched ()) (w : Dast) : option Dast :=
  s ← dy_sites w !! site;
  match m (s <| sent_ := [] |>) with
  | Done (_, s) => Some (w <| dy_sites ::= <[site := s]> |> <| dy_net ::= fun l => l ++ (sent_ s ≫= route (dy_callers w) site) |>)
  | _ => None
  end.

Definition at_mgr (region : Z) (m : M DastManager ()) (w : Dast) : option Dast :=
  g ← dy_mgrs w !! region;
  match m (g <| base ::= fun s => s <| sent_ := [] |> |>) with
  | Done (_, g) => Some (w <| dy_mgrs ::= <[region := g]> |> <| dy_net ::= fun l => l ++ (sent_ (base g) ≫= route ∅ (mgr_siteid_ g)) |>)
  | _ => None
  end.

(** ** Steps *)

(** The RPCs of a site that are answered by their callback. *)
Definition remember (src dst par id : Z) (w : Dast) : Dast := w <| dy_callers ::= <[(dst, id) := (src, par)]> |>.

Definition deliver (p : dast_packet) (w : Dast) : option Dast :=
  match p with
  | Pkt _ x (SendIRSync _ req) => at_site x (OnIRSync req) w
  | Pkt src x (SendPrepareIRT par _ cmds req) =>
    c ← head cmds;
    at_site x (OnPrepareIRT cmds req) (remember src x par (root_id_ c) w)
  | Pkt _ x (SendOutput _ req) => at_site x (OnSendOutput req) w
  | Pkt src x (SendDistExe par req) => at_site x (OnDistExe req) (remember src x par (de_txn_id req) w)
  | Pkt _ x (SendRemotePrepared _ req) => at_site x (OnRemotePrepared req) w
  | Pkt _ x (SendPrepareCRT _ _ cmds req) => at_site x (OnPrepareCRT cmds req) w
  | Pkt _ x (SendNotiCommit _ req) => at_site x (OnNotiCommit req) w
  | Pkt _ x (SendNotiCRT _ req) => at_site x (OnNotiCRT req) w
  | ToMgr r (SendPrepareRemote cmds _ req) => at_mgr r (PrepareCRT cmds req) w
  | ToMgr r (SendNotiWait _ req) => at_mgr r (NotiWait req) w
  | Rsp x par site (ReplyPrepareIRT id res) => at_site x (PrepareIRTACK id par site res) w
  | Rsp x par _ (ReplyDistExe id leader out) => at_site x (DistExeAck id par out leader) w
  | _ => None
  end.

Inductive dast_event :=
  | DvIRT (site : Z) (cmds_by_par : omap Z (list SimpleCommand))
  | DvCRT (site : Z) (cmds_by_region : omap Z (omap Z (list SimpleCommand)))
  | DvDeliver (k : nat)
  | DvSync (site : Z)
  | DvMgrSync (region : Z).

(** A request of a client has a new identifier, which all its pieces carry. *)
Definition carries (id : Z) (cmds_by_par : omap Z (list SimpleCommand)) : bool :=
  forallb (fun p => forallb (fun c => root_id_ c =? id) p.2) cmds_by_par.

Definition dast_step (e : dast_event) (w : Dast) : option Dast :=
  match e with
  | DvIRT site cmds =>
    c ← ('(_, cs) ← head cmds; head cs);
    if carries (root_id_ c) cmds && bool_decide (root_id_ c ∉ dy_ids w)
    then at_site site (OnSubmitTxn cmds 1) (w <| dy_ids ::= fun ids => {[root_id_ c]} ∪ ids |>)
    else None
  | DvCRT site cmds =>
    c ← ('(_, by_par) ← head cmds; '(_, cs) ← head by_par; head cs);
    if forallb (fun r => carries (root_id_ c) r.2) cmds && bool_decide (root_id_ c ∉ dy_ids w)
    then at_site site (OnSubmitCRT cmds) (w <| dy_ids ::= fun ids => {[root_id_ c]} ∪ ids |>)
    else None
  | DvDeliver k =>
    p ← dy_net w !! k;
    deliver p (w <| dy_net ::= delete k |>)
  | DvSync site => at_site site IRSyncLoop w
  | DvMgrSync region => at_mgr region (on_base IRSyncLoop) w
  end.

Fixpoint dast_run (es : list dast_event) (w : Dast) : option Dast :=
  match es with
  | [] => Some w
  | e :: es => w ← dast_step e w; dast_run es w
  end.

(** The site has the transaction in its queue, at the given timestamp, and may run it. *)
Definition runs_at (w : Dast) (site id : Z) (ts : chr_ts_t) : Prop :=
  exists s t, dy_sites w !! site = Some s /\ (ts, id) ∈ ready_txns_ s /\ dtxns_ s !! id = Some t /\ PHASE_CAN_EXE <= phase_Z (chr_phase_ t).

Definition runs_atb (w : Dast) (site id : Z) (ts : chr_ts_t) : bool :=
  match dy_sites w !! site with
  | Some s =>
    match dtxns_ s !! id with
    | Some t => bool_decide ((ts, id) ∈ ready_txns_ s) && (PHASE_CAN_EXE <=? phase_Z (chr_phase_ t))
    | None => false
    end
  | None => false
  end.

Lemma runs_atb_spec w site id ts : runs_atb w site id ts = true <-> runs_at w site id ts.
Proof.
  unfold runs_atb, runs_at. split.
  - destruct (dy_sites w !! site) as [s|]; [|done]. destruct (dtxns_ s !! id) as [t|] eqn:Et; [|done].
    intros [Hin%bool_decide_eq_true Hph%Z.leb_le]%andb_true_iff. exists s, t. done.
  - intros (s & t & -> & Hin & -> & Hph). rewrite bool_decide_eq_true_2 by done. by apply Z.leb_le.
Qed.
End net.
