(* ===== verification/ChrAgree.v ===== *)
(** * DAST: every site has a transaction at the same timestamp (one site)

    [D] are the timestamps decided so far and [C] the coordinators of the transactions
    over several regions.  [agrees D C s]: what the site [s] has in its tables, and what
    it has sent, goes with them.  Each handler keeps it; a coordinator adds to [D] when it
    takes a transaction, or has heard from all partitions. *)
From stdpp Require Import base tactics numbers list sorting gmap.
From S2P Require Import Prelude OMap Command Config ChrTs ChrTypes ChrTx ChrSched ChrSchedInv.

Section agree.
Context `{Env} {me : Z}.
Implicit Types (D : gmap Z chr_ts_t) (C : gmap Z Z).

(** ** What is said of transactions and messages *)

(** A transaction of one region has its timestamp from the start; one over several
    regions has it once its coordinator has decided. *)
Record tx_ok D C (site id : Z) (t : TxChronos) : Prop := {
  ok_tid : tid_ t = id;
  ok_irt : C !! id = None -> D !! id = Some (ts_ t) /\ 3 <= phase_Z (chr_phase_ t);
  ok_sent : chr_phase_ t = DIST_REMOTE_SENT -> C !! id = Some site /\ D !! id = None;
  ok_new : chr_phase_ t = PHASE_EMPTY -> send_output_client t = SC_unassigned;
  ok_answer : C !! id = None -> send_output_to_handler_ t = SO_unassigned;
  ok_decided : 2 <= phase_Z (chr_phase_ t) -> D !! id = Some (ts_ t);
}.

Definition info_ok D C (i : ChrTxnInfo) : Prop := C !! info_txn_id i = None /\ D !! info_txn_id i = Some (info_ts i).

(** The pieces are of a transaction over several regions. *)
Definition crt_cmds C (cmds : list SimpleCommand) : Prop := Forall (fun c => is_Some (C !! root_id_ c)) cmds.

Definition msg_ok D C (m : Msg) : Prop :=
  match m with
  | SendPrepareIRT _ _ cmds req =>
    Forall (fun c => C !! root_id_ c = None /\ D !! root_id_ c = Some (sl_txn_ts req)) cmds /\ Forall (info_ok D C) (sl_piggy_my_txns req)
  | SendIRSync _ req => Forall (info_ok D C) (ir_my_txns req)
  | ReplyPrepareIRT id res => C !! id = None /\ is_Some (D !! id) /\ Forall (info_ok D C) (sr_piggy_my_pending_txns res)
  | SendPrepareRemote cmds _ _ => Forall (fun p => crt_cmds C p.2) cmds
  | SendPrepareCRT _ _ cmds _ => crt_cmds C cmds
  | SendRemotePrepared _ req => is_Some (C !! rp_txn_id req)
  | SendDistExe _ req => is_Some (C !! de_txn_id req) /\ D !! de_txn_id req = Some (de_decision_ts req)
  | ReplyDistExe id _ _ => is_Some (C !! id) /\ is_Some (D !! id)
  | SendStoreRemote _ _ _ => False
  | _ => True
  end.

Record agrees D C (s : Sched) : Prop := {
  ag_txns : forall id t, dtxns_ s !! id = Some t -> tx_ok D C me id t;
  ag_ready : forall ts id, (ts, id) ∈ ready_txns_ s -> exists t, dtxns_ s !! id = Some t /\ ts_ t = ts /\ chr_phase_ t ≠ DIST_REMOTE_SENT;
  ag_my : forall ts id, (ts, id) ∈ my_txns_ s -> C !! id = None /\ D !! id = Some ts;
  ag_sent : Forall (msg_ok D C) (sent_ s);
  ag_me : site_id_ s = me;
}.

(** ** Changes of the state *)

(** Only the tables of transactions and the messages matter. *)
Lemma agrees_frame D C s s' :
  site_id_ s' = site_id_ s -> dtxns_ s' = dtxns_ s -> ready_txns_ s' = ready_txns_ s -> my_txns_ s' = my_txns_ s -> sent_ s' = sent_ s ->
  agrees D C s -> agrees D C s'.
Proof. intros E1 E2 E3 E4 E5 []. split; rewrite ?E1, ?E2, ?E3, ?E4, ?E5; done. Qed.

Lemma modify_agrees D C (f : Sched -> Sched) :
  (forall s, site_id_ (f s) = site_id_ s /\ dtxns_ (f s) = dtxns_ s /\ ready_txns_ (f s) = ready_txns_ s /\ my_txns_ (f s) = my_txns_ s /\ sent_ (f s) = sent_ s) ->
  preserves (agrees D C) (modify f).
Proof. intros Hf. apply preserves_modify. intros s. destruct (Hf s) as (? & ? & ? & ? & ?). by apply agrees_frame. Qed.

Lemma state_agrees {A} D C (f : Sched -> A * Sched) :
  (forall s, let s' := (f s).2 in site_id_ s' = site_id_ s /\ dtxns_ s' = dtxns_ s /\ ready_txns_ s' = ready_txns_ s /\ my_txns_ s' = my_txns_ s /\ sent_ s' = sent_ s) ->
  preserves (agrees D C) (state f).
Proof. intros Hf. apply preserves_state. intros s. destruct (Hf s) as (? & ? & ? & ? & ?). by apply agrees_frame. Qed.

Lemma send_agrees D C m : msg_ok D C m -> preserves (agrees D C) (send m).
Proof. intros Hm. apply preserves_modify. intros s []. split; try done. cbn. by apply Forall_app; split; [|constructor]. Qed.

(** A transaction changes, not its timestamp nor its phase. *)
Definition same_core (t t' : TxChronos) : Prop :=
  tid_ t' = tid_ t /\ ts_ t' = ts_ t /\ chr_phase_ t' = chr_phase_ t /\ send_output_client t' = send_output_client t /\
  send_output_to_handler_ t' = send_output_to_handler_ t.

Lemma tx_ok_core D C a id t t' : same_core t t' -> tx_ok D C a id t -> tx_ok D C a id t'.
Proof. intros (E1 & E2 & E3 & E4 & E5) []. split; rewrite ?E1, ?E2, ?E3, ?E4, ?E5; done. Qed.

(** A transaction is replaced by another with the same timestamp. *)
Lemma agrees_put D C s id t :
  agrees D C s -> tx_ok D C me id t ->
  (forall t0, dtxns_ s !! id = Some t0 -> (exists ts, (ts, id) ∈ ready_txns_ s) -> ts_ t = ts_ t0 /\ chr_phase_ t ≠ DIST_REMOTE_SENT) ->
  agrees D C (s <| dtxns_ ::= <[id := t]> |>).
Proof.
  intros [A B E F] Ht Hq. split; cbn; try done.
  - intros j t' [[<- <-]|[_ Hj]]%lookup_insert_Some; auto.
  - intros ts j Hj. destruct (B ts j Hj) as (t0 & Ht0 & Ets & Hph). destruct (decide (j = id)) as [->|Hne].
    + exists t. rewrite lookup_insert_eq. destruct (Hq t0 Ht0) as [E1 E2]; [eauto|]. split_and!; congruence || done.
    + exists t0. by rewrite lookup_insert_ne.
Qed.

Lemma agrees_alter D C s id (f : TxChronos -> TxChronos) :
  agrees D C s ->
  (forall t, dtxns_ s !! id = Some t -> tx_ok D C me id t -> tx_ok D C me id (f t) /\
     ((exists ts, (ts, id) ∈ ready_txns_ s) -> chr_phase_ t ≠ DIST_REMOTE_SENT -> ts_ (f t) = ts_ t /\ chr_phase_ (f t) ≠ DIST_REMOTE_SENT)) ->
  agrees D C (s <| dtxns_ ::= alter f id |>).
Proof.
  intros Ha Hf. destruct (dtxns_ s !! id) as [t|] eqn:E.
  - destruct (Hf t eq_refl (ag_txns _ _ _ Ha id t E)) as [Hok Hq].
    assert (alter f id (dtxns_ s) = <[id := f t]> (dtxns_ s)) as Ealt.
    { apply map_eq. intros j. destruct (decide (j = id)) as [->|]; [by rewrite lookup_alter_eq, E, lookup_insert_eq|by rewrite lookup_alter_ne, lookup_insert_ne]. }
    apply (agrees_frame _ _ (s <| dtxns_ ::= <[id := f t]> |>)); try done. apply agrees_put; try done.
    intros t0 Ht0 Hin. rewrite E in Ht0. injection Ht0 as <-. apply Hq; [done|]. destruct Hin as [ts Hin].
    destruct (ag_ready _ _ _ Ha ts id Hin) as (t0 & Ht0 & _ & Hph). congruence.
  - apply (agrees_frame _ _ s); try done. cbn. apply map_eq. intros j. destruct (decide (j = id)) as [->|]; [by rewrite lookup_alter_eq, E|by rewrite lookup_alter_ne].
Qed.

Lemma set_txn_agrees D C id f : (forall t, same_core t (f t)) -> preserves (agrees D C) (set_txn id f).
Proof.
  intros Hf. apply preserves_modify. intros s Hs. apply agrees_alter; [done|]. intros t Ht Hok. split; [by eapply tx_ok_core|].
  intros _ Hph. destruct (Hf t) as (_ & -> & -> & _). done.
Qed.

(** ** Execution *)

Lemma txn_eq s id t : dtxns_ s !! id = Some t -> txn s id = t.
Proof. intros Ht. unfold txn. by rewrite Ht. Qed.
Lemma txn_none s id : dtxns_ s !! id = None -> txn s id = new_tx id.
Proof. intros Ht. unfold txn. by rewrite Ht. Qed.

(** A transaction that may run. *)
Definition live D C (id : Z) (s : Sched) : Prop :=
  agrees D C s /\ exists t, dtxns_ s !! id = Some t /\ PHASE_CAN_EXE <= phase_Z (chr_phase_ t).

Lemma live_decided D C id s : live D C id s -> is_Some (D !! id).
Proof. intros [Ha (t & Ht & Hph)]. exists (ts_ t). apply (ok_decided _ _ _ _ _ (ag_txns _ _ _ Ha id t Ht)). unfold PHASE_CAN_EXE in Hph. lia. Qed.

Lemma run_same_core par pending t db r st : RecursiveExecuteReadyPieces cfg par pending (mk_txst t db) = Done (r, st) -> same_core t (tx st).
Proof.
  intros Hrun. destruct r as [ret pending']. apply exec_done in Hrun as [_ _ _ _ _ _ _ Hframe]. cbn [tx] in Hframe.
  split_and!; [exact (f_equal tid_ Hframe)|exact (f_equal ts_ Hframe)|exact (f_equal chr_phase_ Hframe)|exact (f_equal send_output_client Hframe)|exact (f_equal send_output_to_handler_ Hframe)].
Qed.

Lemma live_put D C id s t t' : live D C id s -> dtxns_ s !! id = Some t -> same_core t t' -> live D C id (s <| dtxns_ ::= <[id := t']> |>).
Proof.
  intros [Ha (t0 & Ht0 & Hph)] Ht Hc. rewrite Ht in Ht0. injection Ht0 as <-. split.
  - apply agrees_put; [done|eapply tx_ok_core; [exact Hc|by apply (ag_txns _ _ _ Ha)]|]. intros t1 Ht1 [ts Hin]. rewrite Ht in Ht1. injection Ht1 as <-.
    destruct (ag_ready _ _ _ Ha ts id Hin) as (t1 & Ht1 & _ & Hne). rewrite Ht in Ht1. injection Ht1 as <-. destruct Hc as (_ & -> & -> & _). done.
  - exists t'. cbn. rewrite lookup_insert_eq. split; [done|]. destruct Hc as (_ & _ & -> & _). done.
Qed.

Lemma live_send D C id m : msg_ok D C m -> preserves (live D C id) (send m).
Proof. intros Hm s a s' [Ha Hl] Hrun. split; [by apply (send_agrees D C m Hm s a)|]. by injection Hrun as <- <-. Qed.

Lemma run_pieces_live D C id pending : preserves (live D C id) (run_pieces id pending).
Proof.
  unfold run_pieces. solve_preserves; [|by apply live_send].
  intros s r s' Hs Hrun. unfold on_txn in Hrun. destruct (RecursiveExecuteReadyPieces _ _ _ _) as [[r0 st]| |] eqn:E; [|done|done]. injection Hrun as <- <-.
  pose proof Hs as [_ (t & Ht & _)]. rewrite (txn_eq s id t Ht) in E.
  destruct (live_put D C id s t (tx st) Hs Ht (run_same_core _ _ _ _ _ _ E)) as [Ha Hl]. split; [|exact Hl]. by apply (agrees_frame _ _ (s <| dtxns_ ::= <[id := tx st]> |>)).
Qed.

Lemma CheckSendOutputToClient_agrees D C id : is_Some (D !! id) -> preserves (agrees D C) (CheckSendOutputToClient id).
Proof.
  intros [ts Hd] s [] s' Ha Hrun. unfold CheckSendOutputToClient in Hrun. apply bind_done in Hrun as (t & s1 & [= <- <-] & Hrun).
  case_bool_decide as Hph; [by injection Hrun as <-|]. unfold when in Hrun. destruct (forallb _ _); [|by injection Hrun as <-].
  apply bind_done in Hrun as ([] & s2 & Hs & [= <-]). destruct (dtxns_ s !! id) as [t|] eqn:Et; [rewrite (txn_eq s id t Et) in Hs, Hph|by rewrite (txn_none s id Et) in Hs].
  destruct (ag_txns _ _ _ Ha id t Et) as [O1 O2 O3 O4 O5 O6]. destruct (send_output_client t) eqn:Esc; [done|].
  assert (2 <= phase_Z (chr_phase_ t)) as Hp2.
  { destruct (chr_phase_ t) eqn:Ep; cbn; try lia; [by specialize (O4 eq_refl)|]. destruct (O3 eq_refl) as [_ ?]. congruence. }
  apply bind_done in Hs as (out & s3 & Ho & Hs). assert (s3 = s) as ->.
  { unfold output_of in Ho. apply bind_done in Ho as (o & s4 & [= <- <-] & Ho). destruct (dist_output_ _); [by injection Ho as _ <-|done]. }
  assert (agrees D C s2 /\ dtxns_ s2 !! id = Some t) as [Ha2 Et2] by (split; [by eapply send_agrees; [|exact Ha|exact Hs]|by injection Hs as <-]).
  apply agrees_alter; [done|]. intros t0 Ht0 _. rewrite Et2 in Ht0. injection Ht0 as <-. split; [split; cbn; try done|by intros _ _].
  - intros Hc. split; [by apply O2|lia].
  - intros _. by apply O6.
Qed.

Lemma execute_callback_agrees D C id pending : hoare (live D C id) (execute_callback id pending) (fun _ => agrees D C).
Proof.
  assert (forall A (m : M Sched A), preserves (live D C id) m -> hoare (live D C id) m (fun _ => agrees D C)) as Hw
    by (intros A m Hm; eapply hoare_weaken; [exact Hm|done|]; by intros a s [? _]).
  unfold execute_callback. intros s r s' Hs Hrun. apply bind_done in Hrun as (cb & s1 & [= <- <-] & Hrun).
  destruct Hs as [Ha (t & Ht & Hph)]. assert (live D C id s) as Hs by (split; eauto). rewrite (txn_eq s id t Ht) in Hrun.
  destruct (execute_callback_ t).
  - by injection Hrun as <- <-.
  - revert Hs Hrun. apply Hw. unfold cb_HandleIRT, is_finished, output_of. solve_preserves; [apply run_pieces_live|by apply live_send].
  - revert Hs Hrun. unfold cb_OnSubmitCRT, is_finished. intros Hs Hrun. apply bind_done in Hrun as (t' & s1 & [= <- <-] & Hrun).
    apply bind_done in Hrun as (pend & s2 & E2 & Hrun). assert (live D C id s2) as Hs2.
    { destruct (length _ =? 0)%nat; [by injection E2 as _ <-|]. by apply (run_pieces_live D C id pending s pend). }
    apply bind_done in Hrun as (fin & s3 & [= <- <-] & Hrun). apply bind_done in Hrun as ([] & s4 & E4 & [= _ <-]).
    pose proof (live_decided _ _ _ _ Hs2) as Hd. revert E4. apply (preserves_when _ _ (agrees D C)); [|apply Hs2].
    solve_preserves; try (by apply modify_agrees); [by apply set_txn_agrees|by apply CheckSendOutputToClient_agrees].
  - revert Hs Hrun. apply Hw. unfold cb_OnPrepareIRT, is_finished. solve_preserves. apply run_pieces_live.
  - revert Hs Hrun. unfold cb_OnPrepareCRT, is_finished. intros Hs Hrun. apply bind_done in Hrun as (pend & s2 & E2 & Hrun).
    apply (run_pieces_live D C id pending s pend s2 Hs) in E2 as Hs2. apply bind_done in Hrun as (fin & s3 & [= <- <-] & Hrun).
    apply bind_done in Hrun as (cb & s3 & [= <- <-] & Hrun). apply bind_done in Hrun as ([] & s4 & E4 & [= _ <-]).
    pose proof (live_decided _ _ _ _ Hs2) as Hd. destruct Hs2 as [Ha2 (t2 & Ht2 & _)]. rewrite (txn_eq _ id t2 Ht2) in E4.
    revert E4. apply (preserves_when _ _ (agrees D C)); [|done]. destruct (send_output_to_handler_ t2) eqn:Eso; [apply preserves_ret|].
    unfold output_of. solve_preserves. apply send_agrees. split; [|done]. destruct (C !! id) eqn:Ec; [by eexists|].
    by rewrite (ok_answer _ _ _ _ _ (ag_txns _ _ _ Ha2 id t2 Ht2) Ec) in Eso.
Qed.

Lemma erase_ready_agrees D C ts (f : Sched -> Sched) :
  (forall s, f s = s <| ready_txns_ ::= erase ts |> \/ f s = s <| ready_txns_ ::= erase ts |> <| new_input_ := true |>) ->
  preserves (agrees D C) (modify f).
Proof.
  intros Hf. apply preserves_modify. intros s []. assert (forall ts' id, (ts', id) ∈ erase ts (ready_txns_ s) -> exists t, dtxns_ s !! id = Some t /\ ts_ t = ts' /\ chr_phase_ t ≠ DIST_REMOTE_SENT) as Hq
    by (intros ts' id [Hin _]%erase_elem_of; auto).
  by destruct (Hf s) as [-> | ->]; split.
Qed.

Lemma insert_ready_agrees D C s ts id t :
  agrees D C s -> dtxns_ s !! id = Some t -> ts_ t = ts -> chr_phase_ t ≠ DIST_REMOTE_SENT -> agrees D C (s <| ready_txns_ ::= insert ts id |>).
Proof. intros [] Ht Hts Hph. split; cbn; try done. intros ts' id' [[= -> ->]|Hin]%insert_elem_of; eauto. Qed.

Lemma must_wait_live D C s id : agrees D C s -> must_wait s id = false -> live D C id s.
Proof.
  intros Ha [_ Hph%Z.ltb_ge]%orb_false_iff. split; [done|]. destruct (dtxns_ s !! id) as [t|] eqn:Et; [|rewrite (txn_none s id Et) in Hph; by cbn in Hph].
  rewrite (txn_eq s id t Et) in Hph. eauto.
Qed.

Lemma check_executable_agrees D C entries pending found : preserves (agrees D C) (check_executable entries pending found).
Proof.
  revert pending found. induction entries as [|[ts id] entries IH]; intros pending found; simpl; [apply preserves_ret|].
  intros s [] s' Ha Hrun. apply bind_done in Hrun as (? & ? & [= <- <-] & Hrun). destruct (must_wait s id) eqn:Hw; [by injection Hrun as <-|].
  pose proof (must_wait_live D C s id Ha Hw) as Hl. destruct (region_handler_ (txn s id) =? site_id_ s).
  - apply bind_done in Hrun as ([fin pend] & s1 & E1 & Hrun). assert (agrees D C s1) as Ha1.
    { destruct (negb _ || _); [by apply (execute_callback_agrees D C id pending s _ _ Hl) in E1|by injection E1 as _ _ <-]. }
    revert Ha1 Hrun. destruct fin; [apply preserves_bind; [apply (erase_ready_agrees D C ts); auto|intros []; apply IH]|].
    destruct (_ >? _); [apply preserves_ret|apply IH].
  - apply bind_done in Hrun as ([fin pend] & s1 & E1 & Hrun). apply (execute_callback_agrees D C id pending s _ _ Hl) in E1 as Ha1.
    revert Ha1 Hrun. apply preserves_bind; [apply (erase_ready_agrees D C ts); auto|]. intros []. apply IH.
Qed.

Lemma CheckExecutableTxns_agrees D C : preserves (agrees D C) CheckExecutableTxns.
Proof. unfold CheckExecutableTxns. solve_preserves; [apply check_executable_agrees|by apply modify_agrees]. Qed.

(** ** Clocks and notifications *)

Lemma GenerateChrTs_agrees D C b : preserves (agrees D C) (GenerateChrTs b).
Proof. unfold GenerateChrTs, read_clock. solve_preserves; apply state_agrees; intros s; [done|]. by destruct (negb b). Qed.

Lemma fresh_ts_agrees D C fuel ts : preserves (agrees D C) (fresh_ts fuel ts).
Proof.
  revert ts. induction fuel as [|fuel IH]; intros ts; cbn [fresh_ts]; solve_preserves; [by intros ? ? ? _ ?|apply GenerateChrTs_agrees].
Qed.

(** A transaction of another site is taken over as it was announced. *)
Lemma handle_notified_agrees D C site info : info_ok D C info -> preserves (agrees D C) (handle_notified site info).
Proof.
  intros [Hc Hd] s [] s' Ha Hrun. unfold handle_notified, GetDTxn in Hrun. apply bind_done in Hrun as (d & s1 & [= <- <-] & Hrun).
  destruct (dtxns_ s !! info_txn_id info) as [t|] eqn:Et; [by injection Hrun as <-|].
  unfold GetOrCreateDTxn, GetDTxn, CreateDTxn, mbind, M_bind, gets, get, verify in Hrun. rewrite Et in Hrun. rewrite bool_decide_eq_true_2 in Hrun by done.
  unfold set_txn, modify in Hrun. injection Hrun as <-. set (t := (new_tx (info_txn_id info)) <| ts_ := info_ts info |> <| handler_site_ := site |>
    <| region_handler_ := info_region_leader info |> <| chr_phase_ := LOCAL_CAN_EXE |>).
  assert (tx_ok D C me (info_txn_id info) t) as Hok by (by split).
  assert (agrees D C (s <| dtxns_ ::= <[info_txn_id info := t]> |>)) as Ha1 by (apply agrees_put; [done|done|by rewrite Et]).
  apply (agrees_frame _ _ (s <| dtxns_ ::= <[info_txn_id info := t]> |> <| ready_txns_ ::= insert (info_ts info) (info_txn_id info) |>)); try done.
  - cbn. by rewrite alter_insert_eq.
  - apply (insert_ready_agrees _ _ _ _ _ t); [done|by apply lookup_insert_eq|done..].
Qed.

Lemma HandlePiggyInfo_agrees D C site ts infos dts : Forall (info_ok D C) infos -> preserves (agrees D C) (HandlePiggyInfo site ts infos dts).
Proof.
  intros Hi. unfold HandlePiggyInfo, adopt_remote_ts. solve_preserves; try (by apply modify_agrees).
  - rewrite Forall_forall in Hi. by apply handle_notified_agrees, Hi.
  - apply state_agrees. intros s. by destruct (index ts_zero site (ir_site_max_ts s)).
  - apply GenerateChrTs_agrees.
  - apply modify_agrees. intros s. by destruct (unblock site ts (ir_site_wait_ts_ s) (dist_txn_tss_ s)).
Qed.

(** What a site announces are its own transactions. *)
Lemma CollectNotifyTxns_agrees D C site par :
  hoare (agrees D C) (CollectNotifyTxns site par) (fun infos s => agrees D C s /\ Forall (info_ok D C) infos).
Proof.
  apply hoare_state. intros s Ha. destruct (index ts_zero site (ir_site_notified_ts s)) as [from notified]. cbn [fst snd]. split; [by apply (agrees_frame _ _ s)|].
  apply Forall_forall. intros i Hi. apply list_elem_of_In, in_flat_map in Hi as ([ts id] & Hin & Hi). apply list_elem_of_In in Hin.
  assert ((ts, id) ∈ my_txns_ s) as Hmy.
  { destruct (upper_bound_suffix from (my_txns_ s)) as [pre E]. rewrite E. apply elem_of_app. by right. }
  destruct (ag_my _ _ _ Ha ts id Hmy) as [Hc Hd]. unfold notify_info in Hi. cbn [fst snd] in Hi. destruct (is_irt_ (txn s id) && _); [|done].
  destruct Hi as [<-|[]]. unfold info_ok. cbn. assert (tid_ (txn s id) = id) as ->; [|done].
  destruct (dtxns_ s !! id) as [t|] eqn:Et; [rewrite (txn_eq s id t Et); apply (ag_txns _ _ _ Ha id t Et)|by rewrite (txn_none s id Et)].
Qed.
End agree.
