(* ===== verification/ChrAgreeOps.v ===== *)
(** * DAST: every site has a transaction at the same timestamp (the handlers) *)
From stdpp Require Import base tactics numbers list sorting gmap.
From S2P Require Import Prelude OMap Command Config ChrTs ChrTypes ChrTx ChrSched ChrSchedInv ChrAgree.

Section ops.
Context `{Env} {me : Z}.
Implicit Types (D : gmap Z chr_ts_t) (C : gmap Z Z).
Abbreviation agrees := (agrees (me:=me)).

(** ** A new decision, a new coordinator *)

Lemma insert_mono D id ts j x : D !! id = None -> D !! j = Some x -> <[id := ts]> D !! j = Some x.
Proof. intros Hn Hj. rewrite lookup_insert_ne; [done|]. congruence. Qed.

Lemma info_ok_decide D C id ts i : D !! id = None -> info_ok D C i -> info_ok (<[id := ts]> D) C i.
Proof. intros Hn [? ?]. split; [done|]. by apply insert_mono. Qed.

Lemma msg_ok_decide D C id ts m : D !! id = None -> msg_ok D C m -> msg_ok (<[id := ts]> D) C m.
Proof.
  intros Hn. destruct m; cbn; try done.
  - intros Hi. apply (Forall_impl _ _ _ Hi). intros i. by apply info_ok_decide.
  - intros [Hc Hi]. split; [apply (Forall_impl _ _ _ Hc); intros c [? ?]; split; [done|by apply insert_mono]|apply (Forall_impl _ _ _ Hi); intros i; by apply info_ok_decide].
  - intros [? ?]. split; [done|by apply insert_mono].
  - intros (Hc & [x Hx] & Hi). split; [done|]. split; [eexists; by apply insert_mono|]. apply (Forall_impl _ _ _ Hi). intros i. by apply info_ok_decide.
  - intros [? [x Hx]]. split; [done|]. eexists. by apply insert_mono.
Qed.

(** The coordinator of the transaction is another site, or there is none. *)
Lemma agrees_decide D C id ts s : D !! id = None -> C !! id ≠ Some me -> agrees D C s -> agrees (<[id := ts]> D) C s.
Proof.
  intros Hn Hc [A B E F]. split; [|done| | |done].
  - intros j t Hj. destruct (A j t Hj) as [O1 O2 O3 O4 O5 O6]. split; try done.
    + intros Hcj. destruct (O2 Hcj). split; [by apply insert_mono|done].
    + intros Hs. destruct (O3 Hs) as [Hcj Hdj]. split; [done|]. rewrite lookup_insert_ne; [done|]. intros ->. done.
    + intros Hp. by apply insert_mono, O6.
  - intros ts' j Hj. destruct (E ts' j Hj). split; [done|by apply insert_mono].
  - apply (Forall_impl _ _ _ F). intros m. by apply msg_ok_decide.
Qed.

Lemma crt_cmds_coord C id a cmds : crt_cmds C cmds -> crt_cmds (<[id := a]> C) cmds.
Proof. intros Hc. apply (Forall_impl _ _ _ Hc). intros c Hx. apply lookup_insert_is_Some'. by right. Qed.

Lemma coord_none D C id a j x : D !! id = None -> D !! j = Some x -> C !! j = None -> <[id := a]> C !! j = None.
Proof. intros Hn Hj Hc. rewrite lookup_insert_ne; [done|]. congruence. Qed.

Lemma info_ok_coord D C id a i : D !! id = None -> info_ok D C i -> info_ok D (<[id := a]> C) i.
Proof. intros Hn [Hc Hd]. split; [|done]. by eapply coord_none. Qed.

Lemma msg_ok_coord D C id a m : D !! id = None -> msg_ok D C m -> msg_ok D (<[id := a]> C) m.
Proof.
  intros Hn. destruct m; cbn; try done.
  - intros Hi. apply (Forall_impl _ _ _ Hi). intros i. by apply info_ok_coord.
  - intros [Hc Hi]. split; [apply (Forall_impl _ _ _ Hc); intros c [? ?]; split; [by eapply coord_none|done]|apply (Forall_impl _ _ _ Hi); intros i; by apply info_ok_coord].
  - intros Hi. apply (Forall_impl _ _ _ Hi). intros p. by apply crt_cmds_coord.
  - intros [? ?]. split; [|done]. apply lookup_insert_is_Some'. by right.
  - intros Hx. apply lookup_insert_is_Some'. by right.
  - by apply crt_cmds_coord.
  - intros (Hc & [x Hx] & Hi). split; [by eapply coord_none|]. split; [by eexists|]. apply (Forall_impl _ _ _ Hi). intros i. by apply info_ok_coord.
  - intros [? ?]. split; [|done]. apply lookup_insert_is_Some'. by right.
Qed.

(** Nobody knows a transaction that is neither decided nor coordinated. *)
Lemma unknown D C s id : agrees D C s -> D !! id = None -> C !! id = None -> dtxns_ s !! id = None.
Proof. intros Ha Hd Hc. destruct (dtxns_ s !! id) as [t|] eqn:Et; [|done]. destruct (ok_irt _ _ _ _ _ (ag_txns _ _ _ Ha id t Et) Hc). congruence. Qed.

Lemma agrees_coord D C id a s : D !! id = None -> C !! id = None -> agrees D C s -> agrees D (<[id := a]> C) s.
Proof.
  intros Hn Hc Ha. pose proof (unknown D C s id Ha Hn Hc) as Hun. destruct Ha as [A B E F]. split; [|done| | |done].
  - intros j t Hj. assert (j ≠ id) as Hne by congruence. destruct (A j t Hj) as [O1 O2 O3 O4 O5 O6]. split; rewrite ?lookup_insert_ne by done; done.
  - intros ts j Hj. destruct (E ts j Hj). split; [by eapply coord_none|done].
  - apply (Forall_impl _ _ _ F). intros m. by apply msg_ok_coord.
Qed.

(** ** Transactions of one region *)

Lemma bind_collect {A} D C site par (k : list ChrTxnInfo -> M Sched A) :
  (forall infos, Forall (info_ok D C) infos -> preserves (agrees D C) (k infos)) -> preserves (agrees D C) (CollectNotifyTxns site par ≫= k).
Proof.
  intros Hk. eapply hoare_bind; [apply CollectNotifyTxns_agrees|]. intros infos s a s' [Ha Hi] Hrun. by apply (Hk infos Hi s a s').
Qed.
Ltac solve_agrees := solve_preserves_with ltac:(idtac; match goal with |- preserves _ (CollectNotifyTxns _ _ ≫= _) => apply bind_collect end).

Definition cmds_of (id : Z) (cmds : list SimpleCommand) : Prop := Forall (fun c => root_id_ c = id) cmds.

Lemma send_prepare_irt_agrees D C id ts item :
  C !! id = None -> D !! id = Some ts -> cmds_of id item.2 -> preserves (agrees D C) (send_prepare_irt id ts item).
Proof.
  intros Hc Hd Hi. unfold send_prepare_irt. solve_agrees; [by apply set_txn_agrees|]. apply send_agrees. split; [|done].
  apply (Forall_impl _ _ _ Hi). by intros c ->.
Qed.

(** The transaction that is taken gets its timestamp. *)
Lemma HandleIRT_agrees D C c cmds s s' :
  ('(_, cs) ← head cmds; head cs) = Some c -> Forall (fun p => cmds_of (root_id_ c) p.2) cmds ->
  D !! root_id_ c = None -> C !! root_id_ c = None -> agrees D C s -> HandleIRT cmds s = Done (tt, s') ->
  exists ts, agrees (<[root_id_ c := ts]> D) C s'.
Proof.
  intros Hc Hcmds Hd Hcc Ha Hrun. unfold HandleIRT in Hrun. rewrite Hc in Hrun. apply bind_done in Hrun as (? & ? & [= <- <-] & Hrun).
  apply bind_done in Hrun as (ts0 & s1 & E1 & Hrun). apply (GenerateChrTs_agrees D C true s ts0 s1 Ha) in E1 as Ha1.
  apply bind_done in Hrun as (n & ? & [= <- <-] & Hrun). apply bind_done in Hrun as (ts & s2 & E2 & Hrun). apply (fresh_ts_agrees D C _ _ s1 ts s2 Ha1) in E2 as Ha2.
  pose proof (unknown D C s2 _ Ha2 Hd Hcc) as Hun. apply (agrees_decide D C (root_id_ c) ts) in Ha2; [|done|congruence]. exists ts.
  apply bind_done in Hrun as ([] & s3 & E3 & Hrun). unfold CreateDTxn, mbind, M_bind, get, verify in E3. rewrite bool_decide_eq_true_2 in E3 by done. injection E3 as <-.
  apply bind_done in Hrun as (? & ? & [= <- <-] & Hrun). apply bind_done in Hrun as (pieces & s4 & Hp & Hrun). destruct (find _ cmds) as [ps|]; [|done]. injection Hp as <- <-.
  apply bind_done in Hrun as ([] & s5 & [= <-] & Hrun). apply bind_done in Hrun as ([] & s6 & [= <-] & Hrun). revert Hrun.
  set (t := (new_tx (root_id_ c)) <| chr_phase_ := LOCAL_NOT_STORED |> <| ts_ := ts |> <| handler_site_ := site_id_ s2 |> <| region_handler_ := site_id_ s2 |> <| pieces_ := ps |>
    <| n_local_pieces_ := Z.of_nat (length ps) |> <| n_executed_pieces := 0 |> <| dist_output_ := Some [] |> <| is_irt_ := true |> <| execute_callback_ := EC_HandleIRT |>).
  apply (preserves_for_each _ _ (agrees (<[root_id_ c := ts]> D) C)).
  { intros item Hitem. rewrite Forall_forall in Hcmds. apply send_prepare_irt_agrees; [done|apply lookup_insert_eq|by apply Hcmds]. }
  assert (agrees (<[root_id_ c := ts]> D) C (s2 <| dtxns_ ::= <[root_id_ c := t]> |>)) as Ha3.
  { apply agrees_put; [done| |by rewrite Hun]. split; try done; intros _; rewrite lookup_insert_eq; done. }
  apply (agrees_frame _ _ (s2 <| dtxns_ ::= <[root_id_ c := t]> |> <| ready_txns_ ::= insert ts (root_id_ c) |> <| my_txns_ ::= insert ts (root_id_ c) |>)); try done.
  { cbn. by rewrite alter_insert_eq. }
  apply (insert_ready_agrees _ _ _ ts (root_id_ c) t) in Ha3; [|apply lookup_insert_eq|done..]. destruct Ha3 as [A B E F]. split; try done.
  cbn. intros ts' id' [[= -> ->]|Hin]%insert_elem_of; [split; [done|apply lookup_insert_eq]|by apply E].
Qed.

Lemma OnIRSync_agrees D C req : Forall (info_ok D C) (ir_my_txns req) -> preserves (agrees D C) (OnIRSync req).
Proof. intros Hi. unfold OnIRSync. solve_preserves; [by apply HandlePiggyInfo_agrees|apply CheckExecutableTxns_agrees]. Qed.

Lemma IRSyncLoop_agrees D C : preserves (agrees D C) IRSyncLoop.
Proof.
  unfold IRSyncLoop. solve_agrees; [|apply GenerateChrTs_agrees|by apply send_agrees|by apply modify_agrees].
  apply state_agrees. intros s. by destruct (index ts_zero x (ir_site_max_ts s)).
Qed.

(** A site that stores a transaction of its region has it at the coordinator's timestamp. *)
Lemma OnPrepareIRT_agrees D C cmds req c :
  head cmds = Some c -> msg_ok D C (SendPrepareIRT 0 0 cmds req) -> preserves (agrees D C) (OnPrepareIRT cmds req).
Proof.
  intros Hh [Hcs Hi] s [] s' Ha Hrun. destruct cmds as [|c0 cmds]; [done|]. injection Hh as ->. apply Forall_cons in Hcs as [[Hc Hd] _].
  unfold OnPrepareIRT in Hrun. cbn [head] in Hrun. apply bind_done in Hrun as (? & ? & [= <- <-] & Hrun).
  apply bind_done in Hrun as (src & s1 & Hs & Hrun). destruct (SiteById _ _); [|done]. injection Hs as <- <-. apply bind_done in Hrun as (? & ? & [= <- <-] & Hrun).
  apply bind_done in Hrun as ([] & s2 & Hv & Hrun). apply (preserves_verify _ (fun x => x = s)) in Hv as ->; [|done].
  apply bind_done in Hrun as ([] & s3 & E3 & Hrun). apply bind_done in Hrun as ([] & s4 & E4 & Hrun). apply bind_done in Hrun as ([] & s5 & [= <-] & Hrun).
  revert Hrun. match type of E4 with set_txn _ ?f _ = _ => set (ff := f) in E4 end.
  assert (exists t, dtxns_ s4 = <[root_id_ c := ff t]> (dtxns_ s) /\ s4 = s <| dtxns_ := dtxns_ s4 |> /\ tid_ t = root_id_ c /\ (dtxns_ s !! root_id_ c = Some t \/ dtxns_ s !! root_id_ c = None /\ t = new_tx (root_id_ c)))
    as (t & E5 & E6 & Htid & Hor).
  { unfold GetOrCreateDTxn, GetDTxn, CreateDTxn, mbind, M_bind, gets, get, verify in E3. injection E4 as <-. destruct (dtxns_ s !! root_id_ c) as [t|] eqn:Et.
    - injection E3 as <-. exists t. cbn. split_and!; [|by destruct s|apply (ag_txns _ _ _ Ha _ t Et)|by left]. apply map_eq. intros j.
      destruct (decide (j = root_id_ c)) as [->|]; [by rewrite lookup_alter_eq, Et, lookup_insert_eq|by rewrite lookup_alter_ne, lookup_insert_ne].
    - rewrite Et, bool_decide_eq_true_2 in E3 by done. injection E3 as <-. exists (new_tx (root_id_ c)). cbn. split; [by rewrite alter_insert_eq|]. split; [by destruct s|]. split; [done|]. by right. }
  rewrite E5 in E6. rewrite E6.
  assert (send_output_to_handler_ t = SO_unassigned) as Hso.
  { destruct Hor as [Ht|[_ ->]]; [|done]. by apply (ok_answer _ _ _ _ _ (ag_txns _ _ _ Ha _ t Ht)). }
  assert (agrees D C (s <| dtxns_ ::= <[root_id_ c := ff t]> |>)) as Ha4.
  { apply agrees_put; [done|by split; cbn|]. intros t0 Ht0 _. destruct Hor as [Ht|[Ht _]]; [|congruence]. rewrite Ht in Ht0. injection Ht0 as <-. split; [|done].
    cbn. destruct (ok_irt _ _ _ _ _ (ag_txns _ _ _ Ha _ t Ht) Hc) as [Hdt _]. congruence. }
  apply preserves_bind; [by apply HandlePiggyInfo_agrees|intros []|].
  { solve_agrees; [apply CheckExecutableTxns_agrees|apply GenerateChrTs_agrees|]. apply send_agrees. split; [done|]. split; [by eexists|done]. }
  apply (agrees_frame _ _ (s <| dtxns_ ::= <[root_id_ c := ff t]> |> <| ready_txns_ ::= insert (sl_txn_ts req) (root_id_ c) |>)); try done.
  apply (insert_ready_agrees _ _ _ _ _ (ff t)); [done|apply lookup_insert_eq|done..].
Qed.

Lemma PrepareIRTACK_agrees D C id par site res :
  C !! id = None -> Forall (info_ok D C) (sr_piggy_my_pending_txns res) -> preserves (agrees D C) (PrepareIRTACK id par site res).
Proof.
  intros Hc Hi. unfold PrepareIRTACK, GetDTxn. solve_preserves; try apply CheckExecutableTxns_agrees.
  - by apply HandlePiggyInfo_agrees.
  - by apply set_txn_agrees.
  - apply preserves_modify. intros s Hs. apply agrees_alter; [done|]. intros t Ht [O1 O2 O3 O4 O5 O6]. destruct (O2 Hc) as [Hd Hp]. split; [by split; cbn|]. done.
Qed.

(** ** Transactions over several regions: the coordinator *)

Lemma preserves_and {St A} (P Q : St -> Prop) (m : M St A) : preserves P m -> preserves Q m -> preserves (fun s => P s /\ Q s) m.
Proof. intros HP HQ s a s' [Hp Hq] Hrun. split; [by apply (HP s a)|by apply (HQ s a)]. Qed.

(** A transaction that is not known is created. *)
Lemma create_agrees D C s id t : is_Some (C !! id) -> agrees D C s -> dtxns_ s !! id = None -> tx_ok D C me id t -> agrees D C (s <| dtxns_ ::= <[id := t]> |>).
Proof. intros _ Ha Hn Ht. apply agrees_put; [done|done|]. by rewrite Hn. Qed.

Lemma new_tx_ok D C id : is_Some (C !! id) -> tx_ok D C me id (new_tx id).
Proof. intros [a Hc]. split; try done; congruence. Qed.

Lemma GetOrCreateDTxn_agrees D C id : is_Some (C !! id) -> preserves (agrees D C) (GetOrCreateDTxn id).
Proof.
  intros Hc s [] s' Ha Hrun. unfold GetOrCreateDTxn, GetDTxn, CreateDTxn, mbind, M_bind, gets, get, verify in Hrun. destruct (dtxns_ s !! id) as [t|] eqn:Et; [by injection Hrun as <-|].
  rewrite Et, bool_decide_eq_true_2 in Hrun by done. injection Hrun as <-. by apply create_agrees; [..|apply new_tx_ok].
Qed.

Definition unqueued (id : Z) (s : Sched) : Prop := forall ts, (ts, id) ∉ ready_txns_ s.

Lemma OnSubmitCRT_agrees D C c cmds s s' :
  ('(_, by_par) ← head cmds; '(_, cs) ← head by_par; head cs) = Some c ->
  Forall (fun r => Forall (fun p => cmds_of (root_id_ c) p.2) r.2) cmds ->
  D !! root_id_ c = None -> C !! root_id_ c = None -> agrees D C s -> OnSubmitCRT cmds s = Done (tt, s') -> agrees D (<[root_id_ c := me]> C) s'.
Proof.
  intros Hh Hcmds Hd Hc Ha Hrun. pose proof (unknown D C s _ Ha Hd Hc) as Hun. apply (agrees_coord D C (root_id_ c) me) in Ha; [|done..].
  set (id := root_id_ c) in *. set (C' := <[id := me]> C) in *. assert (C' !! id = Some me) as Hc' by apply lookup_insert_eq.
  unfold OnSubmitCRT in Hrun. rewrite Hh in Hrun. apply bind_done in Hrun as (? & ? & [= <- <-] & Hrun). apply bind_done in Hrun as (? & ? & [= <- <-] & Hrun).
  apply bind_done in Hrun as ([] & s1 & Hv & Hrun). apply (preserves_verify _ (fun x => x = s)) in Hv as ->; [|done].
  apply bind_done in Hrun as ([] & s2 & [= <-] & Hrun). apply bind_done in Hrun as ([] & s3 & E3 & Hrun).
  assert (agrees D C' s3 /\ unqueued id s3) as Hs3.
  { split; [eapply (GetOrCreateDTxn_agrees D C' id); [by eexists| |exact E3]; by apply (agrees_frame _ _ s)|].
    fold id in E3. unfold GetOrCreateDTxn, GetDTxn, CreateDTxn, mbind, M_bind, gets, get, verify in E3. cbn in E3. rewrite Hun in E3. cbn in E3. rewrite Hun in E3. cbn in E3. injection E3 as <-.
    intros ts Hin. cbn in Hin. destruct (ag_ready _ _ _ Ha ts id Hin) as (t & Ht & _). congruence. }
  fold id in Hrun.
  assert (forall f, (forall t, same_core t (f t)) -> preserves (fun s => agrees D C' s /\ unqueued id s) (set_txn id f)) as Hset
    by (intros f Hf; apply preserves_and; [by apply set_txn_agrees|by apply preserves_modify]).
  match type of Hrun with ?m s3 = _ => assert (preserves (fun s => agrees D C' s /\ unqueued id s) m) as Hm; [clear Hrun|by apply (Hm s3 tt s' Hs3)] end.
  solve_preserves; try (by apply Hset).
  - apply preserves_and; [apply GenerateChrTs_agrees|]. unfold GenerateChrTs, read_clock. solve_preserves; apply preserves_state; [done|]. intros s0. by destruct (negb true).
  - apply preserves_and; [|by apply preserves_modify]. apply send_agrees. cbn. rewrite Forall_forall in Hcmds. match goal with Hx : ?x ∈ cmds |- _ => specialize (Hcmds x Hx) end.
    apply (Forall_impl _ _ _ Hcmds). intros p Hp. apply (Forall_impl _ _ _ Hp). intros c0 ->. by eexists.
  - apply preserves_modify. intros s0 [Ha0 Hq]. split; [|done]. apply agrees_alter; [done|]. intros t Ht [O1 O2 O3 O4 O5 O6]. split.
    + split; cbn; try done; congruence || lia.
    + intros [ts Hin]. by destruct (Hq ts).
Qed.

(** *** The decision *)

Lemma GenerateChrTs_same b s ts s' : GenerateChrTs b s = Done (ts, s') ->
  site_id_ s' = site_id_ s /\ dtxns_ s' = dtxns_ s /\ ready_txns_ s' = ready_txns_ s /\ my_txns_ s' = my_txns_ s /\ sent_ s' = sent_ s.
Proof.
  unfold GenerateChrTs, read_clock. intros Hrun. apply bind_done in Hrun as (t & s1 & [= <- <-] & Hrun). unfold state in Hrun. injection Hrun as Hrun.
  destruct (negb b); by injection Hrun as _ <-.
Qed.

(** The coordinator queues the transaction at the timestamp it has decided on. *)
Lemma agrees_decided D C s id t t' ts s' :
  agrees D C s -> dtxns_ s !! id = Some t -> chr_phase_ t = DIST_REMOTE_SENT -> tid_ t' = id -> ts_ t' = ts -> 2 <= phase_Z (chr_phase_ t') ->
  site_id_ s' = site_id_ s -> dtxns_ s' = <[id := t']> (dtxns_ s) -> ready_txns_ s' = insert ts id (ready_txns_ s) -> my_txns_ s' = my_txns_ s -> sent_ s' = sent_ s ->
  agrees (<[id := ts]> D) C s' /\ D !! id = None /\ C !! id = Some me.
Proof.
  intros [A B E F G] Ht Hph Htid Hts Hph' E1 E2 E3 E4 E5. destruct (ok_sent _ _ _ _ _ (A id t Ht) Hph) as [Hc Hd]. split; [|done].
  split; rewrite ?E1, ?E2, ?E3, ?E4, ?E5; try done.
  - intros j tj [[<- <-]|[Hne Hj]]%lookup_insert_Some.
    + split; try done; rewrite ?lookup_insert_eq; try congruence; intros Hx; rewrite Hx in Hph'; by cbn in Hph'.
    + destruct (A j tj Hj) as [O1 O2 O3 O4 O5 O6]. by split; rewrite ?lookup_insert_ne by done.
  - intros ts' j [[= -> ->]|Hin]%insert_elem_of.
    + exists t'. rewrite lookup_insert_eq. split_and!; try done. intros Hx. rewrite Hx in Hph'. by cbn in Hph'.
    + destruct (B ts' j Hin) as (tj & Htj & Etj & Hne). exists tj. rewrite lookup_insert_ne; [done|]. intros <-. congruence.
  - intros ts' j Hj. destruct (E ts' j Hj). split; [done|by apply insert_mono].
  - apply (Forall_impl _ _ _ F). intros m. by apply msg_ok_decide.
Qed.

(** What a handler of the coordinator may end in. *)
Definition after_decision D C (id : Z) (s : Sched) : Prop :=
  agrees D C s \/ exists ts, D !! id = None /\ C !! id = Some me /\ agrees (<[id := ts]> D) C s.

Lemma send_noti_wait_keeps D C id max_ts ts r :
  preserves (fun s => agrees D C s /\ ts_ <$> dtxns_ s !! id = Some ts) (send_noti_wait id max_ts r).
Proof.
  unfold send_noti_wait. solve_preserves; try (apply preserves_and; [by apply send_agrees|by apply preserves_modify]).
  apply preserves_state. intros s [Ha Hts]. destruct (index ts_zero r (anticipated_ts_ (txn s id))) as [o m]. cbn [snd]. split.
  - apply agrees_alter; [done|]. intros t Ht Hok. split; [by apply (tx_ok_core _ _ _ _ t)|done].
  - cbn. rewrite lookup_alter_eq, <- Hts. by destruct (dtxns_ s !! id).
Qed.

Lemma CheckRemotePrepared_agrees D C id s s' : is_Some (C !! id) -> agrees D C s -> CheckRemotePrepared id s = Done (tt, s') -> after_decision D C id s'.
Proof.
  intros Hc Ha Hrun. unfold CheckRemotePrepared in Hrun. apply bind_done in Hrun as (t & ? & [= <- <-] & Hrun). unfold when at 1 in Hrun. destruct (forallb _ _); [|injection Hrun as <-; by left].
  set (t := txn s id) in *. set (max_ts := max_anticipated (anticipated_ts_ t)) in *.
  apply bind_done in Hrun as ([] & s1 & [= <-] & Hrun). apply bind_done in Hrun as ([] & s2 & [= <-] & Hrun). apply bind_done in Hrun as ([] & s3 & E3 & Hrun).
  apply bind_done in Hrun as (ts & s4 & E4 & Hrun). apply GenerateChrTs_same in E4 as (F1 & F2 & F3 & F4 & F5). apply bind_done in Hrun as (? & ? & [= <- <-] & Hrun).
  apply bind_done in Hrun as ([] & s5 & Hv & Hrun). apply (preserves_verify _ (fun x => x = s4)) in Hv as ->; [|done]. apply bind_done in Hrun as ([] & s6 & [= <-] & Hrun).
  apply bind_done in Hrun as ([] & s7 & Hv & Hrun). unfold verify in Hv. case_bool_decide as Hph; [|done]. injection Hv as <-. apply bind_done in Hrun as ([] & s8 & [= <-] & Hrun).
  assert (dtxns_ s !! id = Some t) as Ht.
  { destruct (dtxns_ s !! id) as [t0|] eqn:E; [by rewrite <- (txn_eq s id t0 E)|]. unfold t in Hph. by rewrite (txn_none s id E) in Hph. }
  destruct (agrees_decided D C s id t (t <| ts_ := max_ts |> <| chr_phase_ := DIST_REMOTE_PREPARED |>) max_ts
    (s4 <| ready_txns_ ::= insert max_ts id |> <| dtxns_ ::= alter (fun t => t <| chr_phase_ := DIST_REMOTE_PREPARED |>) id |>) Ha Ht Hph) as (Ha8 & Hd & Hc'); try done.
  { apply (ag_txns _ _ _ Ha id t Ht). } { cbn. rewrite F1. unfold when in E3. destruct (negb _); by injection E3 as <-. }
  { cbn. rewrite F2. assert (dtxns_ s3 = alter (fun t => t <| ts_ := max_ts |>) id (dtxns_ s)) as -> by (unfold when in E3; destruct (negb _); by injection E3 as <-).
    apply map_eq. intros j. destruct (decide (j = id)) as [->|]; [by rewrite !lookup_alter_eq, Ht, lookup_insert_eq|by rewrite !lookup_alter_ne, lookup_insert_ne]. }
  { cbn. rewrite F3. unfold when in E3. destruct (negb _); by injection E3 as <-. } { cbn. rewrite F4. unfold when in E3. destruct (negb _); by injection E3 as <-. }
  { cbn. rewrite F5. unfold when in E3. destruct (negb _); by injection E3 as <-. }
  right. exists max_ts. split; [done|]. split; [done|]. set (D' := <[id := max_ts]> D) in *. set (s8 := s4 <| ready_txns_ ::= _ |> <| dtxns_ ::= _ |>) in *.
  assert (ts_ <$> dtxns_ s8 !! id = Some max_ts) as Hts8.
  { cbn. rewrite F2, lookup_alter_eq. assert (dtxns_ s3 = alter (fun t => t <| ts_ := max_ts |>) id (dtxns_ s)) as -> by (unfold when in E3; destruct (negb _); by injection E3 as <-).
    by rewrite lookup_alter_eq, Ht. }
  apply bind_done in Hrun as ([] & s9 & E9 & Hrun). apply bind_done in Hrun as ([] & s10 & E10 & Hrun). apply bind_done in Hrun as ([] & s11 & [= <-] & Hrun).
  assert (agrees D' C s9 /\ ts_ <$> dtxns_ s9 !! id = Some max_ts) as Hs9.
  { eapply (preserves_for_each _ _ (fun s => agrees D' C s /\ ts_ <$> dtxns_ s !! id = Some max_ts)); [|split; [exact Ha8|exact Hts8]|exact E9]. intros x _.
    apply preserves_and; [|by apply preserves_modify]. apply send_agrees. cbn. rewrite (ok_tid _ _ _ _ _ (ag_txns _ _ _ Ha id t Ht)). split; [done|apply lookup_insert_eq]. }
  assert (agrees D' C s10 /\ ts_ <$> dtxns_ s10 !! id = Some max_ts) as [Ha10 Hts10].
  { eapply (preserves_for_each _ _ (fun s => agrees D' C s /\ ts_ <$> dtxns_ s !! id = Some max_ts)); [|exact Hs9|exact E10]. intros x _. apply send_noti_wait_keeps. }
  eapply CheckExecutableTxns_agrees; [|exact Hrun]. apply agrees_alter; [done|]. intros t0 Ht0 [O1 O2 O3 O4 O5 O6]. rewrite Ht0 in Hts10. injection Hts10 as Hts0. split; [|done].
  assert (D' !! id = Some (ts_ t0)) as Hd0 by (rewrite Hts0; apply lookup_insert_eq). by split; cbn.
Qed.

Lemma after_send D C id m : (forall D C, msg_ok D C m) -> preserves (after_decision D C id) (send m).
Proof.
  intros Hall. apply preserves_modify. intros s [Ha|(ts & Hd & Hc & Ha)]; [left|right; exists ts; split; [done|]; split; [done|]]; by apply (send_agrees _ _ m (Hall _ _) s tt).
Qed.

Lemma OnRemotePrepared_agrees D C req :
  is_Some (C !! rp_txn_id req) -> hoare (agrees D C) (OnRemotePrepared req) (fun _ => after_decision D C (rp_txn_id req)).
Proof.
  intros Hc. set (id := rp_txn_id req) in *. unfold OnRemotePrepared. fold id.
  eapply hoare_bind; [by apply (GetOrCreateDTxn_agrees D C id)|intros []]. eapply hoare_bind; [apply preserves_get|intros s0]. eapply hoare_bind; [apply preserves_verify|intros []].
  eapply hoare_bind; [by apply (set_txn_agrees D C)|intros []]. eapply (hoare_bind _ _ _ (fun _ => agrees D C)); [apply preserves_when; by apply set_txn_agrees|intros []].
  eapply hoare_bind; [apply preserves_get|intros s1]. eapply (hoare_bind _ _ _ (fun _ => after_decision D C id)); [|intros []; by apply after_send].
  apply hoare_when; [intros _|intros _ s Ha; by left]. eapply (hoare_bind _ _ _ (fun _ => agrees D C)).
  - apply preserves_state. intros s Ha. destruct (index false _ _) as [a m]. cbn [snd]. apply agrees_alter; [done|]. intros t Ht Hok. split; [by apply (tx_ok_core _ _ _ _ t)|done].
  - intros acked. apply hoare_when; [intros _|intros _ s Ha; by left]. eapply hoare_bind; [by apply (set_txn_agrees D C)|intros []]. intros s [] s' Ha Hrun.
    by apply (CheckRemotePrepared_agrees D C id s).
Qed.

(** ** Transactions over several regions: the other sites *)

Lemma OnPrepareCRT_agrees D C cmds req c :
  head cmds = Some c -> is_Some (C !! root_id_ c) -> hoare (agrees D C) (OnPrepareCRT cmds req) (fun _ => after_decision D C (root_id_ c)).
Proof.
  intros Hh Hc s [] s' Ha Hrun. set (id := root_id_ c) in *. unfold OnPrepareCRT in Hrun. rewrite Hh in Hrun. apply bind_done in Hrun as (? & ? & [= <- <-] & Hrun).
  apply bind_done in Hrun as (? & ? & [= <- <-] & Hrun). apply bind_done in Hrun as ([] & s1 & Hv & Hrun). apply (preserves_verify _ (fun x => x = s)) in Hv as ->; [|done].
  apply bind_done in Hrun as ([] & s1 & Hv & Hrun). apply (preserves_verify _ (fun x => x = s)) in Hv as ->; [|done]. apply bind_done in Hrun as (d & ? & [= <- <-] & Hrun). fold id in Hrun.
  destruct (dtxns_ s !! id) as [t|] eqn:Et.
  - case_bool_decide as Hph.
    + apply bind_done in Hrun as ([] & s1 & [= <-] & Hrun). apply bind_done in Hrun as ([] & s2 & [= <-] & Hrun). apply bind_done in Hrun as (? & ? & [= <- <-] & Hrun).
      match type of Hrun with when _ _ ?x = _ => assert (agrees D C x) as Ha2 end.
      { apply (agrees_frame _ _ (s <| dtxns_ ::= alter (fun t => touch_status (partition_id_ s) ((add_ack (partition_id_ s) (site_id_ s) t) <| dist_shard_mgr_acked_ ::= insert (partition_id_ s) true |>
           <| anticipated_ts_ ::= insert (partition_id_ s / n_shard_per_region_ cfg) (pc_anticipated_ts req) |> <| ts_ := pc_anticipated_ts req |>)) id |>)); try done.
        apply agrees_alter; [done|]. intros t0 Ht0 [O1 O2 O3 O4 O5 O6]. rewrite Et in Ht0. injection Ht0 as <-. split; [|done]. destruct Hc as [a Hc]. rewrite Hph in *. split; cbn; rewrite ?Hph; try done; try congruence; cbn; lia. }
      unfold when in Hrun. destruct (remote_quorum _ _ _); [|injection Hrun as <-; by left]. apply bind_done in Hrun as ([] & s3 & E3 & Hrun).
      eapply (CheckRemotePrepared_agrees D C id s3); [done| |exact Hrun]. by eapply (set_txn_agrees D C); [|exact Ha2|exact E3].
    + left. revert Ha Hrun. apply preserves_when. by apply set_txn_agrees.
  - left. apply bind_done in Hrun as ([] & s1 & [= <-] & Hrun). apply bind_done in Hrun as ([] & s2 & E2 & Hrun).
    unfold GetOrCreateDTxn, GetDTxn, CreateDTxn, mbind, M_bind, gets, get, verify in E2. cbn in E2. rewrite Et in E2. cbn in E2. rewrite Et in E2. cbn in E2. injection E2 as <-.
    apply bind_done in Hrun as ([] & s3 & [= <-] & Hrun). apply bind_done in Hrun as ([] & s4 & [= <-] & Hrun). revert Hrun.
    match goal with |- context [alter ?f id] => set (ff := f) end. apply send_agrees; [exact Hc|].
    assert (agrees D C (s <| dtxns_ ::= <[id := ff (new_tx id)]> |>)) as Ha1.
    { apply create_agrees; [done..|]. destruct Hc as [a Hc]. split; try done; cbn; try congruence. }
    apply (agrees_frame _ _ (s <| dtxns_ ::= <[id := ff (new_tx id)]> |> <| ready_txns_ ::= insert (pc_anticipated_ts req) id |>)); try done; [cbn; by rewrite alter_insert_eq|].
    apply (insert_ready_agrees _ _ _ _ _ (ff (new_tx id))); [done|apply lookup_insert_eq|done..].
Qed.

(** The decision replaces the anticipated timestamp. *)
Lemma OnDistExe_agrees D C req :
  is_Some (C !! de_txn_id req) -> D !! de_txn_id req = Some (de_decision_ts req) -> preserves (agrees D C) (OnDistExe req).
Proof.
  intros Hc Hd s [] s' Ha Hrun. set (id := de_txn_id req) in *. set (new_ts := de_decision_ts req) in *. unfold OnDistExe in Hrun. fold id new_ts in Hrun.
  apply bind_done in Hrun as (d & ? & [= <- <-] & Hrun). destruct (dtxns_ s !! id) as [t|] eqn:Et.
  - apply bind_done in Hrun as ([] & s1 & [= <-] & Hrun). apply bind_done in Hrun as ([] & s2 & [= <-] & Hrun). apply bind_done in Hrun as ([] & s3 & [= <-] & Hrun).
    apply bind_done in Hrun as (? & ? & [= <- <-] & Hrun). apply bind_done in Hrun as ([] & s4 & Hv & Hrun). unfold verify in Hv. destruct (negb _) in Hv; [|done]. injection Hv as <-.
    apply bind_done in Hrun as ([] & s5 & [= <-] & Hrun). apply bind_done in Hrun as ([] & s6 & [= <-] & Hrun).
    match type of Hrun with ?m ?x = _ => assert (agrees D C x) as Ha6; [|assert (preserves (agrees D C) m) as Hm; [|by apply (Hm x tt s')]]; clear Hrun end.
    + set (t' := t <| chr_phase_ := DIST_CAN_EXE |> <| ts_ := new_ts |>).
      assert (agrees D C (s <| ready_txns_ ::= erase (ts_ t) |>)) as Ha1 by (apply (erase_ready_agrees D C (ts_ t) (fun s => s <| ready_txns_ ::= erase (ts_ t) |>) ltac:(by left) s tt _ Ha); done).
      assert (agrees D C (s <| ready_txns_ ::= erase (ts_ t) |> <| dtxns_ ::= <[id := t']> |>)) as Ha2.
      { apply agrees_put; [done| |].
        - destruct (ag_txns _ _ _ Ha id t Et) as [O1 O2 O3 O4 O5 O6]. split; cbn; try done; congruence || lia.
        - cbn. intros t0 Ht0 [ts Hin]. apply erase_elem_of in Hin as [Hin Hne]. destruct (ag_ready _ _ _ Ha ts id Hin) as (t1 & Ht1 & <- & _). cbn in Hne. congruence. }
      apply (agrees_frame _ _ (s <| ready_txns_ ::= erase (ts_ t) |> <| dtxns_ ::= <[id := t']> |> <| ready_txns_ ::= insert new_ts id |>)); try done.
      * cbn. apply map_eq. intros j. destruct (decide (j = id)) as [->|]; [by rewrite !lookup_alter_eq, Et, lookup_insert_eq|by rewrite !lookup_alter_ne, lookup_insert_ne].
      * apply (insert_ready_agrees _ _ _ _ _ t'); [done|apply lookup_insert_eq|done..].
    + solve_preserves; try (by apply modify_agrees); [| |apply CheckExecutableTxns_agrees].
      * apply preserves_modify. intros s0 Ha0. apply agrees_alter; [done|]. intros t0 Ht0 [O1 O2 O3 O4 O5 O6]. split; [|done]. split; cbn; try done. by destruct Hc as [? ->].
      * apply send_agrees. split; [done|by eexists].
  - unfold CreateDTxn, mbind, M_bind, get, verify in Hrun. rewrite Et, bool_decide_eq_true_2 in Hrun by done. injection Hrun as <-. by apply create_agrees; [..|apply new_tx_ok].
Qed.

Lemma DistExeAck_agrees D C id par out leader : is_Some (C !! id) -> is_Some (D !! id) -> preserves (agrees D C) (DistExeAck id par out leader).
Proof.
  intros Hc Hd. unfold DistExeAck, output_of. solve_preserves; try (by apply set_txn_agrees); [by apply GetOrCreateDTxn_agrees|by apply CheckSendOutputToClient_agrees].
Qed.

Lemma OnNotiCRT_agrees D C req : preserves (agrees D C) (OnNotiCRT req).
Proof. unfold OnNotiCRT, GetDTxn, add_wait. solve_preserves; by apply modify_agrees. Qed.
Lemma OnNotiCommit_agrees D C req : preserves (agrees D C) (OnNotiCommit req).
Proof. unfold OnNotiCommit, add_wait. solve_preserves; by apply modify_agrees. Qed.

(** Values of another partition: the transaction is known, and stays what it is. *)
Lemma merge_same_core out t : same_core t (MergeCheckReadyPieces out t).1.
Proof. unfold MergeCheckReadyPieces. by destruct (merge_output out (pieces_ t)). Qed.

Definition known D C (id : Z) (s : Sched) : Prop := agrees D C s /\ is_Some (dtxns_ s !! id).

Lemma known_modify D C id f :
  preserves (agrees D C) (modify f) -> (forall s, dtxns_ (f s) = dtxns_ s) -> preserves (known D C id) (modify f).
Proof. intros Hf Hd. apply preserves_and; [done|]. apply preserves_modify. intros s. by rewrite Hd. Qed.

Lemma OnSendOutput_agrees D C req : preserves (agrees D C) (OnSendOutput req).
Proof.
  unfold OnSendOutput. set (id := so_txn_id req). intros s r s' Ha Hrun. apply bind_done in Hrun as (d & s1 & [= <- <-] & Hrun).
  apply bind_done in Hrun as ([] & s0 & Hrun & Hsend). apply (send_agrees D C (ReplySendOutput id) I s0 r s'); [|exact Hsend]. clear Hsend.
  destruct (dtxns_ s !! id) as [t|] eqn:Et; [|by injection Hrun as <-].
  apply bind_done in Hrun as ([] & s1 & E1 & Hrun). apply (set_txn_agrees (me:=me) D C) in E1 as Ha1; [|done|done].
  assert (is_Some (dtxns_ s1 !! id)) as Hk1 by (injection E1 as <-; cbn; by rewrite lookup_alter_eq, Et; eexists).
  apply bind_done in Hrun as (? & ? & [= <- <-] & Hrun). apply bind_done in Hrun as ([] & s2 & E2 & Hrun).
  assert (known D C id s2) as Hk2.
  { revert E2. apply (preserves_when _ _ (known D C id)); [|by split]. apply preserves_bind; [apply preserves_when|intros []]; apply known_modify; try done; [by apply modify_agrees|by apply send_agrees]. }
  apply bind_done in Hrun as ([] & s3 & [= <-] & Hrun). apply bind_done in Hrun as (more & s4 & E4 & Hrun). destruct Hk2 as [Ha2 [t2 Ht2]].
  revert Hrun. apply preserves_when; [apply CheckExecutableTxns_agrees|]. unfold state in E4. change (txn _ id) with (txn s2 id) in E4. rewrite (txn_eq s2 id t2 Ht2) in E4.
  pose proof (merge_same_core (so_var_values req) t2) as Hc. destruct (MergeCheckReadyPieces _ t2) as [t3 b]. injection E4 as _ <-. cbn [fst] in Hc.
  apply (agrees_frame _ _ (s2 <| dtxns_ ::= <[id := t3]> |>)); try done. apply agrees_put; [done|by eapply tx_ok_core; [|apply (ag_txns _ _ _ Ha2)]|].
  intros t0 Ht0 [ts Hin]. rewrite Ht2 in Ht0. injection Ht0 as <-. destruct (ag_ready _ _ _ Ha2 ts id Hin) as (t1 & Ht1 & _ & Hph).
  rewrite Ht2 in Ht1. injection Ht1 as <-. destruct Hc as (_ & -> & -> & _). done.
Qed.
End ops.
