(* ===== verification/ChrAgreeSys.v ===== *)
(** * DAST: every site has a transaction at the same timestamp (the system)

    The invariant of one site holds at all sites at once, for the same decisions, and the
    messages under way go with it.  Decisions are only added, so two sites that may run a
    transaction, now or later, have it at the same timestamp. *)
From stdpp Require Import base tactics numbers list sorting gmap.
From S2P Require Import Prelude OMap Command Config ChrTs ChrTypes ChrTx ChrSched ChrSchedInv ChrManager ChrDemo ChrNet ChrAgree ChrAgreeOps.

Section system.
Context `{Env}.
Implicit Types (D : gmap Z chr_ts_t) (C : gmap Z Z).

Definition packet_msg (p : dast_packet) : Msg := match p with Pkt _ _ m | ToMgr _ m | Rsp _ _ _ m => m end.

Record sys_ok D C (w : Dast) : Prop := {
  so_sites : forall a s, dy_sites w !! a = Some s -> agrees (me:=a) D C s;
  so_net : Forall (fun p => msg_ok D C (packet_msg p)) (dy_net w);
  so_ids : dom D ∪ dom C ⊆ dy_ids w;
  so_mgrs : forall r g, dy_mgrs w !! r = Some g -> my_txns_ (base g) = [];
}.

(** ** The steps of one site or manager *)

Lemma route_msg callers me m p : p ∈ route callers me m -> packet_msg p = m.
Proof.
  assert (forall id, p ∈ answer callers me id m -> packet_msg p = m) as Ha.
  { intros id. unfold answer. destruct (callers !! (me, id)) as [[]|]; [|by intros []%not_elem_of_nil]. by intros ->%list_elem_of_singleton. }
  destruct m; cbn; try apply Ha; try (by intros ->%list_elem_of_singleton); try (by intros []%not_elem_of_nil); by intros (x & -> & _)%list_elem_of_fmap.
Qed.

Lemma routed_ok D C callers me ms : Forall (msg_ok D C) ms -> Forall (fun p => msg_ok D C (packet_msg p)) (ms ≫= route callers me).
Proof.
  intros Hm. apply Forall_forall. intros p (m & Hp & Hin)%list_elem_of_bind. rewrite (route_msg _ _ _ _ Hp). rewrite Forall_forall in Hm. by apply Hm.
Qed.

Lemma agrees_clear a D C s : agrees (me:=a) D C s -> agrees (me:=a) D C (s <| sent_ := [] |>).
Proof. intros []. by split. Qed.

(** What one site does may add to the decisions and coordinators. *)
Lemma dast_at_site_inv site m w w' :
  at_site site m w = Some w' -> exists s s', dy_sites w !! site = Some s /\ m (s <| sent_ := [] |>) = Done (tt, s') /\
    w' = w <| dy_sites ::= <[site := s']> |> <| dy_net ::= fun l => l ++ (sent_ s' ≫= route (dy_callers w) site) |>.
Proof.
  unfold at_site. destruct (dy_sites w !! site) as [s|]; [|done]. cbn. destruct (m _) as [[[] s']| |] eqn:E; [|done..]. intros [= <-]. by eexists _, _.
Qed.

Lemma sys_ok_site D C D' C' site s' w l :
  sys_ok D C w -> (forall b s, b ≠ site -> agrees (me:=b) D C s -> agrees (me:=b) D' C' s) -> (forall m, msg_ok D C m -> msg_ok D' C' m) ->
  agrees (me:=site) D' C' s' -> dom D' ∪ dom C' ⊆ dy_ids w -> Forall (fun p => msg_ok D' C' (packet_msg p)) l ->
  sys_ok D' C' (w <| dy_sites ::= <[site := s']> |> <| dy_net ::= fun l0 => l0 ++ l |>).
Proof.
  intros [A B E F] Ho Hm Hs Hi Hl. split; cbn; [| |done|done].
  - intros a s [[<- <-]|[Hne Ha]]%lookup_insert_Some; [done|]. apply Ho; auto.
  - apply Forall_app. split; [|done]. apply (Forall_impl _ _ _ B). intros p. apply Hm.
Qed.

Lemma at_site_same D C site m w w' :
  preserves (agrees (me:=site) D C) m -> sys_ok D C w -> at_site site m w = Some w' -> sys_ok D C w'.
Proof.
  intros Hm Hw (s & s' & Hs & Hrun & ->)%dast_at_site_inv. assert (agrees (me:=site) D C s') as Ha.
  { eapply Hm; [|exact Hrun]. by apply agrees_clear, (so_sites _ _ _ Hw). }
  apply (sys_ok_site D C D C); auto; [apply (so_ids _ _ _ Hw)|apply routed_ok, (ag_sent _ _ _ Ha)].
Qed.

(** The coordinator decides. *)
Lemma at_site_decides D C site id m w w' :
  hoare (agrees (me:=site) D C) m (fun _ => after_decision (me:=site) D C id) -> id ∈ dy_ids w -> sys_ok D C w -> at_site site m w = Some w' ->
  exists D', sys_ok D' C w' /\ D ⊆ D'.
Proof.
  intros Hm Hid Hw (s & s' & Hs & Hrun & ->)%dast_at_site_inv. pose proof (so_ids _ _ _ Hw) as Hi.
  destruct (Hm _ _ _ (agrees_clear _ _ _ _ (so_sites _ _ _ Hw _ _ Hs)) Hrun) as [Ha|(ts & Hd & Hc & Ha)].
  - exists D. split; [|done]. apply (sys_ok_site D C D C); auto. apply routed_ok, (ag_sent _ _ _ Ha).
  - exists (<[id := ts]> D). split; [|by apply insert_subseteq]. apply (sys_ok_site D C); auto; [| |set_solver|apply routed_ok, (ag_sent _ _ _ Ha)].
    + intros b sb Hb. apply agrees_decide; [done|]. congruence.
    + intros msg. by apply msg_ok_decide.
Qed.

(** A manager coordinates no transaction of its own, so that it has none to announce. *)
Definition mgr_base_ok D C (s : Sched) : Prop := my_txns_ s = [] /\ Forall (msg_ok D C) (sent_ s).
Definition mgr_ok D C (g : DastManager) : Prop := mgr_base_ok D C (base g).

Lemma on_base_ok {A} D C (m : M Sched A) : preserves (mgr_base_ok D C) m -> preserves (mgr_ok D C) (on_base m).
Proof. intros Hm g a g' Hg. unfold on_base. destruct (m (base g)) as [[a' s]| |] eqn:E; [|done..]. intros [= <- <-]. by apply (Hm _ _ _ Hg E). Qed.

Lemma mgr_send_ok D C m : msg_ok D C m -> preserves (mgr_ok D C) (on_base (send m)).
Proof. intros Hm. apply on_base_ok, preserves_modify. intros s [Ht Hs]. split; cbn; [done|]. apply Forall_app. by split; [|constructor]. Qed.

Lemma NotiWait_ok D C req : preserves (mgr_ok D C) (NotiWait req).
Proof. unfold NotiWait. solve_preserves; try (by apply mgr_send_ok); by apply on_base_ok, preserves_modify. Qed.

Lemma prepare_pars_ok D C req ts items touched :
  Forall (fun p => crt_cmds C p.2) items -> preserves (mgr_ok D C) (prepare_pars req ts items touched).
Proof.
  intros Hi. revert touched. induction Hi as [|[par cmds] items Hc Hi IH]; intros touched; cbn [prepare_pars]; [apply preserves_ret|].
  unfold shard_leader, draw. solve_preserves; [apply on_base_ok; solve_preserves; by apply preserves_state|by apply mgr_send_ok..].
Qed.

Lemma GenerateChrTs_mgr D C b : preserves (mgr_base_ok D C) (GenerateChrTs b).
Proof.
  unfold GenerateChrTs, read_clock. apply preserves_bind; [by apply preserves_state|]. intros r. apply preserves_state. intros s. by destruct (negb b).
Qed.

Lemma IRSyncLoop_mgr D C : preserves (mgr_base_ok D C) IRSyncLoop.
Proof.
  unfold IRSyncLoop. apply preserves_bind; [apply preserves_gets|]. intros keys. apply preserves_for_each. intros x _.
  apply preserves_bind; [apply preserves_gets|]. intros synced. apply preserves_bind; [|by intros []; apply preserves_modify].
  apply preserves_when. intros s [] s' [Ht Hs] Hrun. apply bind_done in Hrun as (infos & s1 & E1 & Hrun).
  unfold CollectNotifyTxns, state in E1. destruct (index _ _ _) as [from m]. rewrite Ht in E1. injection E1 as <- <-. revert Hrun.
  match goal with |- ?k ?s1 = _ -> _ => enough (preserves (mgr_base_ok D C) k) as Hk by (by apply Hk) end.
  apply preserves_bind; [apply preserves_state; intros s1 ?; by destruct (index _ _ _)|]. intros d. apply preserves_bind; [apply preserves_gets|].
  intros me. apply preserves_bind; [apply GenerateChrTs_mgr|]. intros ts. apply preserves_modify. intros s2 [Ht2 Hs2]. split; cbn; [done|].
  apply Forall_app. split; [done|]. by repeat constructor.
Qed.

Lemma PrepareCRT_ok D C cmds req : Forall (fun p => crt_cmds C p.2) cmds -> preserves (mgr_ok D C) (PrepareCRT cmds req).
Proof.
  intros Hc. unfold PrepareCRT, CalculateAnticipatedTs. solve_preserves; try (by apply mgr_send_ok).
  - apply on_base_ok. intros s ts s' Hs Hrun. by apply (GenerateChrTs_mgr D C) in Hrun.
  - by apply preserves_state.
  - by apply prepare_pars_ok.
  - by apply on_base_ok, preserves_modify.
Qed.

Lemma at_mgr_ok D C r m w w' : preserves (mgr_ok D C) m -> sys_ok D C w -> at_mgr r m w = Some w' -> sys_ok D C w'.
Proof.
  intros Hm [A B E F]. unfold at_mgr. destruct (dy_mgrs w !! r) as [g|] eqn:Er; [|done]. cbn. destruct (m _) as [[[] g']| |] eqn:Eg; [|done..]. intros [= <-].
  apply Hm in Eg as [Ht Hs]; [|split; [exact (F r g Er)|constructor]]. split; cbn; try done.
  - apply Forall_app. split; [done|]. by apply routed_ok.
  - intros r' g1 [[<- <-]|[_ Hg]]%lookup_insert_Some; [done|]. exact (F r' g1 Hg).
Qed.

(** ** Deliveries *)

Lemma sys_ok_remember D C src dst par id w : sys_ok D C w -> sys_ok D C (remember src dst par id w).
Proof. intros []. by split. Qed.

Lemma sys_ok_ids D C w ids : dy_ids w ⊆ ids -> sys_ok D C w -> sys_ok D C (w <| dy_ids := ids |>).
Proof. intros Hi [A B E F]. split; cbn; try done. set_solver. Qed.

Lemma coord_id D C w id : sys_ok D C w -> is_Some (C !! id) -> id ∈ dy_ids w.
Proof. intros Hw Hc%elem_of_dom. pose proof (so_ids _ _ _ Hw). set_solver. Qed.

(** The handlers that do not decide. *)
Lemma deliver_same D C site m w w' :
  sys_ok D C w -> preserves (agrees (me:=site) D C) m -> at_site site m w = Some w' -> exists D', sys_ok D' C w' /\ D ⊆ D'.
Proof. intros Hw Hm Hd. exists D. split; [|done]. by eapply at_site_same. Qed.

Lemma deliver_mgr D C r m w w' :
  sys_ok D C w -> preserves (mgr_ok D C) m -> at_mgr r m w = Some w' -> exists D', sys_ok D' C w' /\ D ⊆ D'.
Proof. intros Hw Hm Hd. exists D. split; [|done]. by eapply at_mgr_ok. Qed.

Lemma deliver_ok D C p w w' : sys_ok D C w -> msg_ok D C (packet_msg p) -> deliver p w = Some w' -> exists D', sys_ok D' C w' /\ D ⊆ D'.
Proof.
  intros Hw Hp. destruct p as [src x m|r m|x par site m].
  - destruct m; try done; cbn [deliver].
    + apply deliver_same; [done|]. by apply OnIRSync_agrees.
    + destruct (head cmds) as [c|] eqn:Hh; [|done]. apply deliver_same; [by apply sys_ok_remember|]. by eapply OnPrepareIRT_agrees.
    + apply deliver_same; [done|]. apply OnSendOutput_agrees.
    + destruct Hp as [Hc Hd]. apply deliver_same; [by apply sys_ok_remember|]. by apply OnDistExe_agrees.
    + apply (at_site_decides D C x (rp_txn_id req)); [by apply OnRemotePrepared_agrees|by eapply coord_id|done].
    + destruct cmds as [|c cmds]; [by intros (s & s' & _ & Hrun & _)%dast_at_site_inv|]. apply Forall_cons in Hp as [Hc _].
      apply (at_site_decides D C x (root_id_ c)); [by apply OnPrepareCRT_agrees|by eapply coord_id|done].
    + apply deliver_same; [done|]. apply OnNotiCommit_agrees.
    + apply deliver_same; [done|]. apply OnNotiCRT_agrees.
  - destruct m; try done; cbn [deliver]; apply deliver_mgr; try done; [by apply PrepareCRT_ok|apply NotiWait_ok].
  - destruct m; try done; cbn [deliver]; apply deliver_same; try done.
    + destruct Hp as (Hc & _ & Hi). by apply PrepareIRTACK_agrees.
    + destruct Hp. by apply DistExeAck_agrees.
Qed.

(** ** Runs *)

Lemma carries_spec id cmds : carries id cmds = true -> Forall (fun p => cmds_of id p.2) cmds.
Proof.
  unfold carries. rewrite forallb_forall. intros Hc. apply Forall_forall. intros p Hp%list_elem_of_In. apply Hc in Hp. rewrite forallb_forall in Hp.
  apply Forall_forall. intros c Hin%list_elem_of_In. by apply Z.eqb_eq, Hp.
Qed.

Lemma fresh_id_unknown D C w id : sys_ok D C w -> id ∉ dy_ids w -> D !! id = None /\ C !! id = None.
Proof. intros Hw Hn. pose proof (so_ids _ _ _ Hw). split; apply not_elem_of_dom; set_solver. Qed.

Lemma submit_irt_ok D C site c cmds w w' :
  ('(_, cs) ← head cmds; head cs) = Some c -> Forall (fun p => cmds_of (root_id_ c) p.2) cmds -> D !! root_id_ c = None -> C !! root_id_ c = None ->
  root_id_ c ∈ dy_ids w -> sys_ok D C w -> at_site site (OnSubmitTxn cmds 1) w = Some w' -> exists D', sys_ok D' C w' /\ D ⊆ D'.
Proof.
  intros Hh Hcmds Hd Hc Hid Hw (s & s' & Hs & Hrun & ->)%dast_at_site_inv. pose proof (so_ids _ _ _ Hw) as Hi.
  destruct (HandleIRT_agrees D C c cmds _ _ Hh Hcmds Hd Hc (agrees_clear _ _ _ _ (so_sites _ _ _ Hw _ _ Hs)) Hrun) as [ts Ha].
  exists (<[root_id_ c := ts]> D). split; [|by apply insert_subseteq].
  apply (sys_ok_site D C); auto; [| |set_solver|apply routed_ok, (ag_sent _ _ _ Ha)].
  - intros b sb _. apply agrees_decide; [done|]. congruence.
  - intros msg. by apply msg_ok_decide.
Qed.

Lemma submit_crt_ok D C site c cmds w w' :
  ('(_, by_par) ← head cmds; '(_, cs) ← head by_par; head cs) = Some c -> Forall (fun r => Forall (fun p => cmds_of (root_id_ c) p.2) r.2) cmds ->
  D !! root_id_ c = None -> C !! root_id_ c = None -> root_id_ c ∈ dy_ids w -> sys_ok D C w -> at_site site (OnSubmitCRT cmds) w = Some w' ->
  exists C', sys_ok D C' w'.
Proof.
  intros Hh Hcmds Hd Hc Hid Hw (s & s' & Hs & Hrun & ->)%dast_at_site_inv. pose proof (so_ids _ _ _ Hw) as Hi.
  pose proof (OnSubmitCRT_agrees D C c cmds _ _ Hh Hcmds Hd Hc (agrees_clear _ _ _ _ (so_sites _ _ _ Hw _ _ Hs)) Hrun) as Ha.
  exists (<[root_id_ c := site]> C). apply (sys_ok_site D C); auto; [| |set_solver|apply routed_ok, (ag_sent _ _ _ Ha)].
  - intros b sb _. by apply agrees_coord.
  - intros msg. by apply msg_ok_coord.
Qed.

Lemma dast_step_ok D C e w w' : sys_ok D C w -> dast_step e w = Some w' -> exists D' C', sys_ok D' C' w' /\ D ⊆ D'.
Proof.
  intros Hw. destruct e as [site cmds|site cmds|k|site|r]; cbn [dast_step].
  - destruct (_ ← head cmds; _) as [c|] eqn:Hh; [|done]. cbn [mbind option_bind]. destruct (carries _ cmds) eqn:Hc; [|done]. case_bool_decide as Hn; [|done]. intros Hrun.
    destruct (fresh_id_unknown D C w _ Hw Hn). apply (submit_irt_ok D C site c) in Hrun as (D' & ? & ?); [by exists D', C|done|by apply carries_spec|done..|cbn; set_solver|].
    apply (sys_ok_ids D C w); [set_solver|done].
  - destruct (_ ← head cmds; _) as [c|] eqn:Hh; [|done]. cbn [mbind option_bind]. destruct (forallb _ cmds) eqn:Hc; [|done]. case_bool_decide as Hn; [|done]. intros Hrun.
    destruct (fresh_id_unknown D C w _ Hw Hn). apply (submit_crt_ok D C site c) in Hrun as (C' & ?); [by exists D, C'|done| |done..|cbn; set_solver|].
    + rewrite forallb_forall in Hc. apply Forall_forall. intros r Hr%list_elem_of_In. by apply carries_spec, Hc.
    + apply (sys_ok_ids D C w); [set_solver|done].
  - destruct (dy_net w !! k) as [p|] eqn:Ep; [|done]. cbn [mbind option_bind]. intros Hrun. destruct Hw as [A B E F].
    apply (deliver_ok D C) in Hrun as (D' & ? & ?); [by exists D', C| |by apply (Forall_lookup_1 _ _ _ _ B Ep)].
    split; cbn; try done. by apply Forall_delete.
  - intros Hrun. exists D, C. split; [|done]. eapply at_site_same; [apply IRSyncLoop_agrees|done..].
  - intros Hrun. exists D, C. split; [|done]. eapply at_mgr_ok; [apply on_base_ok, IRSyncLoop_mgr|done..].
Qed.

Lemma dast_run_ok D C es w w' : sys_ok D C w -> dast_run es w = Some w' -> exists D' C', sys_ok D' C' w' /\ D ⊆ D'.
Proof.
  revert D C w. induction es as [|e es IH]; intros D C w Hw; cbn [dast_run]; [intros [= <-]; by exists D, C|].
  destruct (dast_step e w) as [w1|] eqn:E; [|done]. cbn [mbind option_bind]. intros Hrun. destruct (dast_step_ok D C e w w1 Hw E) as (D1 & C1 & Hw1 & Hs1).
  destruct (IH D1 C1 w1 Hw1 Hrun) as (D2 & C2 & Hw2 & Hs2). exists D2, C2. split; [done|]. by etrans.
Qed.

(** At start-up nothing is known and nothing is under way. *)
Lemma init_agrees x db s : new_SchedulerChronos x db = Some s -> agrees (me:=si_id x) ∅ ∅ s.
Proof.
  unfold new_SchedulerChronos. destruct (SitesByPartitionId _ _); [|done]. cbn. destruct (length _ =? 0)%nat; [done|]. intros [= <-].
  split; cbn; try done; intros ? ? []%not_elem_of_nil.
Qed.

Lemma init_sys_ok db junk : sys_ok ∅ ∅ (init_dast db junk).
Proof.
  split; cbn; [|constructor|set_solver|].
  2: { intros r g Hr. apply elem_of_list_to_map_2, list_elem_of_omap in Hr as (x & _ & Hx). unfold manager_of, new_DastManager in Hx.
       destruct (GetPartitionSize _ _); [|done]. cbn in Hx. destruct (_ =? 0); [|done]. unfold new_SchedulerChronos in Hx.
       destruct (SitesByPartitionId _ _); [|done]. cbn in Hx. repeat (case_match; cbn in Hx; try done). by simplify_eq. }
  intros a s Ha. apply elem_of_list_to_map_2, list_elem_of_omap in Ha as (x & _ & Hx).
  destruct (new_SchedulerChronos x db) as [s0|] eqn:E; [|done]. injection Hx as <- <-. by eapply init_agrees.
Qed.

Lemma runs_decided D C w a id ts : sys_ok D C w -> runs_at w a id ts -> D !! id = Some ts.
Proof.
  intros Hw (s & t & Hs & Hin & Ht & Hph). pose proof (so_sites _ _ _ Hw a s Hs) as Ha. destruct (ag_ready _ _ _ Ha ts id Hin) as (t' & Ht' & <- & _).
  rewrite Ht in Ht'. injection Ht' as <-. apply (ok_decided _ _ _ _ _ (ag_txns _ _ _ Ha id t Ht)). unfold PHASE_CAN_EXE in Hph. lia.
Qed.

(** C1: In every run of the sites and managers of DAST, whatever the order in which
    messages arrive, a transaction that a site may run, at one time, and a site may run, at the same or a
    later time, has the same timestamp at both: all sites put a transaction at one place of the one order
    of timestamps, whether its own region has taken it or the coordinators of several regions agreed. *)
Theorem dast_sites_agree db junk es es' w w' a b id ts ts' :
  dast_run es (init_dast db junk) = Some w -> dast_run es' w = Some w' -> runs_at w a id ts -> runs_at w' b id ts' -> ts = ts'.
Proof.
  intros (D & C & Hw & _)%(dast_run_ok ∅ ∅) Hrun' Ha Hb; [|apply init_sys_ok]. apply (dast_run_ok D C) in Hrun' as (D' & C' & Hw' & Hs); [|done].
  apply (runs_decided D C) in Ha; [|done]. apply (runs_decided D' C') in Hb; [|done]. apply (lookup_weaken _ _ _ _ Ha) in Hs. congruence.
Qed.
End system.

(** Transaction 9 over both regions, of site 0: the managers anticipate, all sites prepare, the coordinator
    decides when it has heard from both partitions, and a site of the other region hears of it. *)
#[local] Existing Instance demo_env.
Definition demo_crt : list dast_event :=
  DvCRT 0 [(0, [(0, [demo_piece 9 7 1])]); (1, [(2, [demo_piece 9 8 1])])] :: replicate 18 (DvDeliver 0).
Definition demo_crt_more : list dast_event := replicate 4 (DvDeliver 0).
Definition demo_dast : Dast := init_dast (H := demo_env) 0 0.
Definition dast_after (es : list dast_event) (w : Dast) : Dast := default w (dast_run es w).

Definition dast_runs (es : list dast_event) (w : Dast) : bool := match dast_run es w with Some _ => true | None => false end.

Lemma dast_runs_after es w : dast_runs es w = true -> dast_run es w = Some (dast_after es w).
Proof. unfold dast_runs, dast_after. by destruct (dast_run es w). Qed.

Definition demo_decided : Dast := dast_after demo_crt demo_dast.
Definition demo_heard : Dast := dast_after demo_crt_more demo_decided.

Lemma dast_sites_agree_witness : exists ts ts', runs_at demo_decided 0 9 ts /\ runs_at demo_heard 6 9 ts' /\ ts = ts'.
Proof.
  assert (runs_at demo_decided 0 9 (mk_ts 91000 0 13)) as Ha by (apply runs_atb_spec; vm_compute; reflexivity).
  assert (runs_at demo_heard 6 9 (mk_ts 91000 0 13)) as Hb by (apply runs_atb_spec; vm_compute; reflexivity).
  assert (dast_run demo_crt demo_dast = Some demo_decided) as E1 by (apply dast_runs_after; vm_compute; reflexivity).
  assert (dast_run demo_crt_more demo_decided = Some demo_heard) as E2 by (apply dast_runs_after; vm_compute; reflexivity).
  exists (mk_ts 91000 0 13), (mk_ts 91000 0 13). split; [exact Ha|]. split; [exact Hb|].
  exact (@dast_sites_agree demo_env 0 0 demo_crt demo_crt_more demo_decided demo_heard 0 6 9 (mk_ts 91000 0 13) (mk_ts 91000 0 13) E1 E2 Ha Hb).
Defined.
