(* ===== verification/ChrCoord.v ===== *)
(** * The client's coordinator of DAST
    (src/deptran/chronos/coordinator.cc, src/deptran/classic/coord.cc,
    src/deptran/coordinator.h)

    A coordinator runs one transaction at a time in two phases: it submits all the
    pieces in one request, to a server of the home partition, and ends when the
    output is back.  [PrepareAllCmds] is the workload's. *)
From stdpp Require Import base tactics numbers list sorting.
From S2P Require Import Prelude OMap Command Config ChrTs ChrTypes ChrTx ChrSched ChrDemo Chopper ChrCrt.

(** The two requests of [ChronosCommo] that a coordinator makes, to a server of
    partition [target]. *)
Inductive CoordMsg :=
  | SubmitTxn (cmds_by_par : omap Z (list SimpleCommand)) (target : Z) (is_irt : bool)
  | SubmitCRT (cmds_by_region : omap Z (omap Z (list SimpleCommand))) (target : Z).

Record Coord := mk_coord {
  phase_ : Z;
  committed_ : bool;
  aborted_ : bool;
  n_retry_ : Z;
  n_dispatch_ : Z;
  n_dispatch_ack_ : Z;
  dispatch_acks_ : omap Z bool;
  next_pie_id_ : Z;
  next_txn_id_ : Z;
  my_txn_is_loacal_ : bool;
  home_par_id_ : Z;
  cmd_ : TxnCommand;
  coord_rand_reads_ : nat;
  requests_ : list CoordMsg;
  ended_ : list (Z * bool);
}.

#[export] Instance Eta_coord : Eta Coord :=
  fun r => mk_coord (phase_ r) (committed_ r) (aborted_ r) (n_retry_ r) (n_dispatch_ r) (n_dispatch_ack_ r)
    (dispatch_acks_ r) (next_pie_id_ r) (next_txn_id_ r) (my_txn_is_loacal_ r) (home_par_id_ r) (cmd_ r)
    (coord_rand_reads_ r) (requests_ r) (ended_ r).

(** What a workload provides: [PrepareAllCmds]; and the configured [max_retry_]. *)
Class Workload := {
  PrepareAllCmds : TxnCommand -> TxnCommand;
  max_retry_ : Z;
}.

(** What the coordinator relies on: preparing the pieces keeps the identity of the
    transaction, and its maps and sets are a [std::map] and [std::set]s. *)
Definition txn_wf (t : TxnCommand) : Prop := sorted_keys (status_ t) /\ keys_NoDup t.

Class WorkloadOk `{Workload} : Prop := {
  prepare_id t : txn_id_ (PrepareAllCmds t) = txn_id_ t;
  prepare_root t : txn_root_id_ (PrepareAllCmds t) = txn_root_id_ t;
  prepare_wf t : txn_wf t -> txn_wf (PrepareAllCmds t);
}.

Section coord.
Context `{Env} `{Workload}.

(** A method of the transaction *)
Definition on_cmd {A} (m : M TxnCommand A) : M Coord A := fun s =>
  match m (cmd_ s) with
  | Done (a, t) => Done (a, s <| cmd_ := t |>)
  | Aborted => Aborted
  | OutOfFuel => OutOfFuel
  end.

Definition request (m : CoordMsg) : M Coord () := modify (fun s => s <| requests_ ::= fun l => l ++ [m] |>).

Definition coord_rand (min max : Z) : M Coord Z :=
  r ← state (fun s => (rand_r (coord_rand_reads_ s), s <| coord_rand_reads_ ::= S |>));
  from_option (RandomGenerator_rand r min max).

(** [c->id_ = next_pie_id(); dispatch_acks_[c->inn_id_] = false]: the piece is the
    one that [cmds_] of the transaction points to. *)
Definition number_piece (c : SimpleCommand) : M Coord SimpleCommand :=
  state (fun s =>
    let c' := c <| id_ := next_pie_id_ s |> in
    (c', s <| next_pie_id_ ::= fun n => u64 (n + 1) |> <| dispatch_acks_ ::= insert (inn_id_ c) false |>
           <| cmd_ ::= fun t => t <| cmds_ ::= insert (inn_id_ c) c' |> |>)).

Fixpoint number_pieces (cmds : list SimpleCommand) : M Coord (list SimpleCommand) :=
  match cmds with
  | [] => mret []
  | c :: cmds => c ← number_piece c; cmds ← number_pieces cmds; mret (c :: cmds)
  end.

Definition count_dispatch (cmds : list SimpleCommand) : M Coord () :=
  modify (fun s => s <| n_dispatch_ ::= fun n => u32 (n + Z.of_nat (length cmds)) |>).

(** The loop of a request inside one region. *)
Fixpoint group_by_par (cmds_by_par to_send : omap Z (list SimpleCommand)) :
    M Coord (omap Z (list SimpleCommand)) :=
  match cmds_by_par with
  | [] => mret to_send
  | (par_id, cmds) :: cmds_by_par =>
    count_dispatch cmds;;
    verify (negb (count par_id to_send));;
    cmds ← number_pieces cmds;
    group_by_par cmds_by_par (insert par_id cmds to_send)
  end.

(** [m[rid][par_id] = cmds] *)
Definition put_in_region (rid par_id : Z) (cmds : list SimpleCommand)
    (m : omap Z (omap Z (list SimpleCommand))) : omap Z (omap Z (list SimpleCommand)) :=
  insert rid (insert par_id cmds (index [] rid m).1) m.

(** The loop of a request over several regions. *)
Fixpoint group_by_region (cmds_by_par : omap Z (list SimpleCommand))
    (by_region : omap Z (omap Z (list SimpleCommand))) : M Coord (omap Z (omap Z (list SimpleCommand))) :=
  match cmds_by_par with
  | [] => mret by_region
  | (par_id, cmds) :: cmds_by_par =>
    count_dispatch cmds;;
    cmds ← number_pieces cmds;
    group_by_region cmds_by_par (put_in_region (par_id / n_shard_per_region_ cfg) par_id cmds by_region)
  end.

(** [std::advance(begin, rand(0, size - 1))]: the key of a random entry *)
Definition random_key {V} (m : omap Z V) : M Coord Z :=
  r ← coord_rand 0 (i32 (Z.of_nat (length m) - 1));
  e ← from_option (m !! Z.to_nat r);
  mret e.1.

(** The [verify]s of [ChronosCommo::SubmitTxn] and [SubmitCRT]. *)
Definition first_piece (m : omap Z (list SimpleCommand)) : option SimpleCommand :=
  '(_, cs) ← head m; head cs.

(** A request inside one region: to the home partition if it is touched, else to
    any touched one. *)
Definition submit_irt (home_par : Z) (cmds_by_par : omap Z (list SimpleCommand)) : M Coord () :=
  cmds_to_send ← group_by_par cmds_by_par [];
  target ← (if count home_par cmds_by_par then mret home_par else random_key cmds_by_par);
  _ ← from_option (first_piece cmds_to_send);
  request (SubmitTxn cmds_to_send target true).

(** A request over several regions: [cmds_by_region[rid]] is an operator that
    creates the entry. *)
Definition submit_crt (home_par : Z) (cmds_by_par : omap Z (list SimpleCommand)) : M Coord () :=
  _ ← from_option (GetPartitionSize cfg 0);
  by_region ← group_by_region cmds_by_par [];
  if count home_par cmds_by_par then
    _ ← from_option (first_cmd by_region);
    request (SubmitCRT by_region home_par)
  else
    let rid := home_par / n_shard_per_region_ cfg in
    let '(region, by_region) := index [] rid by_region in
    target ← random_key region;
    _ ← from_option (first_cmd by_region);
    request (SubmitCRT by_region target).

Definition SubmitReq : M Coord () :=
  s ← get;
  verify (txn_root_id_ (cmd_ s) =? txn_id_ (cmd_ s));;
  on_cmd (modify PrepareAllCmds);;
  cmds_by_par ← on_cmd GetAllCmds;
  if my_txn_is_loacal_ s then submit_irt (home_par_id_ s) cmds_by_par
  else submit_crt (home_par_id_ s) cmds_by_par.

(** [ClassicCoord::End]: the reply goes to the client. *)
Definition End_ : M Coord () :=
  s ← get;
  verify (committed_ s || aborted_ s);;
  modify (fun s => s <| ended_ ::= fun l => l ++ [(txn_id_ (cmd_ s), committed_ s)] |>).

(** [CoordinatorChronos::Reset], the fields of this model *)
Definition coord_Reset (s : Coord) : Coord :=
  s <| committed_ := false |> <| aborted_ := false |> <| n_dispatch_ := 0 |> <| n_dispatch_ack_ := 0 |>
    <| dispatch_acks_ := [] |>.

(** [phase_++ % 2] is 0 in [CHR_INIT] and 1 in [CHR_COMMIT]; in the latter an aborted
    transaction is tried again ([ClassicCoord::Restart]), which is a new
    [CHR_INIT]. *)
Definition new_attempt : M Coord () :=
  modify (fun s => s <| next_txn_id_ ::= fun n => u64 (n + 1) |>
    <| n_retry_ ::= fun n => u32 (n + 1) |>
    <| cmd_ ::= fun t => t <| txn_root_id_ := next_txn_id_ s |> <| txn_id_ := next_txn_id_ s |> |>).

Definition GotoNextPhase_init : M Coord () :=
  modify (fun s => s <| phase_ ::= fun p => u32 (p + 1) |>);;
  SubmitReq;;
  s ← get;
  verify (phase_ s mod 2 =? 1).

Definition Restart : M Coord () :=
  s ← get;
  verify (aborted_ s);;
  new_attempt;;
  s ← get;
  if (max_retry_ <? n_retry_ s) && (0 <=? max_retry_) then End_
  else
    modify coord_Reset;;
    on_cmd (modify Reset);;
    GotoNextPhase_init.

Definition GotoNextPhase : M Coord () :=
  s ← get;
  if phase_ s mod 2 =? 0 then GotoNextPhase_init
  else
    modify (fun s => s <| phase_ ::= fun p => u32 (p + 1) |>);;
    s ← get;
    verify (phase_ s mod 2 =? 0);;
    if committed_ s then End_ else if aborted_ s then Restart else abort.

Definition SubmitAck (phase : Z) : M Coord () :=
  s ← get;
  verify (phase =? phase_ s);;
  verify (txn_root_id_ (cmd_ s) =? txn_id_ (cmd_ s));;
  modify (fun s => s <| committed_ := true |>);;
  GotoNextPhase.

(** [ClassicCoord::do_one] for the transaction that [CreateTxnCommand] made of a
    request *)
Definition do_one (is_local : bool) (home_region_id : Z) (t : TxnCommand) : M Coord () :=
  verify (negb (home_region_id =? 65535));;
  modify (fun s => s <| my_txn_is_loacal_ := is_local |> <| home_par_id_ := home_region_id |>
    <| cmd_ := t <| txn_root_id_ := next_txn_id_ s |> <| txn_id_ := next_txn_id_ s |>
                 <| txn_timestamp_ := next_txn_id_ s |> |>
    <| next_txn_id_ ::= fun n => u64 (n + 1) |> <| n_retry_ := 0 |>);;
  modify coord_Reset;;
  GotoNextPhase.

(** ** What a request carries *)

(** The pieces numbered in order, from [n]. *)
Fixpoint number_from (n : Z) (cs : list SimpleCommand) : list SimpleCommand :=
  match cs with
  | [] => []
  | c :: cs => c <| id_ := n |> :: number_from (u64 (n + 1)) cs
  end.

Fixpoint next_after (n : Z) (cs : list SimpleCommand) : Z :=
  match cs with [] => n | _ :: cs => next_after (u64 (n + 1)) cs end.

Lemma number_from_app n a b : number_from n (a ++ b) = number_from n a ++ number_from (next_after n a) b.
Proof. revert n. induction a as [|c a IH]; intros n; [done|]. simpl. by rewrite IH. Qed.

Lemma next_after_app n a b : next_after n (a ++ b) = next_after (next_after n a) b.
Proof. revert n. induction a as [|c a IH]; intros n; [done|]. simpl. apply IH. Qed.

(** The pieces of a partition, as a request lists them. *)
Definition part_ok (p : Z * list SimpleCommand) : Prop :=
  p.2 ≠ [] /\ Forall (fun c => cmd_partition_id_ c = p.1) p.2.

Lemma number_from_ok n par cs : part_ok (par, cs) -> part_ok (par, number_from n cs).
Proof.
  intros [Hne Hall]. split; cbn [fst snd] in *; [by destruct cs|]. clear Hne. revert n.
  induction Hall as [|c cs Hc Hall IH]; intros n; [constructor|]. constructor; [exact Hc | apply IH].
Qed.

(** The part of the state that grouping the pieces leaves alone. *)
Definition frame (s s' : Coord) : Prop :=
  phase_ s' = phase_ s /\ committed_ s' = committed_ s /\ aborted_ s' = aborted_ s /\
  requests_ s' = requests_ s /\ ended_ s' = ended_ s /\
  txn_id_ (cmd_ s') = txn_id_ (cmd_ s) /\ txn_root_id_ (cmd_ s') = txn_root_id_ (cmd_ s) /\
  next_txn_id_ s' = next_txn_id_ s.

Lemma frame_trans s1 s2 s3 : frame s1 s2 -> frame s2 s3 -> frame s1 s3.
Proof. unfold frame. intuition congruence. Qed.

Lemma number_pieces_eq cs s :
  exists s', number_pieces cs s = Done (number_from (next_pie_id_ s) cs, s') /\
    next_pie_id_ s' = next_after (next_pie_id_ s) cs /\ frame s s'.
Proof.
  revert s. induction cs as [|c cs IH]; intros s; cbn [number_pieces number_from next_after].
  { exists s. by unfold frame. }
  edestruct IH as (s' & E & En & Hf). exists s'. split_and!.
  - unfold number_piece, state, mbind, M_bind. rewrite E. reflexivity.
  - exact En.
  - eapply frame_trans; [|exact Hf]. by unfold frame.
Qed.

(** Inserting the pieces of one more partition. *)
Lemma pieces_of_insert par cs cmds :
  find par cmds = None -> pieces_of (insert par cs cmds) ≡ₚ cs ++ pieces_of cmds.
Proof.
  unfold pieces_of. induction cmds as [|[p l] cmds IH]; [done|]. cbn [find insert].
  destruct (decide (par = p)) as [->|Hne]; [done|]. intros Hf.
  destruct (key_ltb par p); [done|]. cbn [List.flat_map snd].
  rewrite (IH Hf), !app_assoc. apply Permutation_app_tail, Permutation_app_comm.
Qed.

Lemma group_by_par_eq cmds acc s :
  NoDup cmds.*1 -> (forall p, p ∈ cmds.*1 -> find p acc = None) -> Forall part_ok cmds -> Forall part_ok acc ->
  exists r s', group_by_par cmds acc s = Done (r, s') /\ frame s s' /\
    pieces_of r ≡ₚ pieces_of acc ++ number_from (next_pie_id_ s) (pieces_of cmds) /\
    (forall p, is_Some (find p r) <-> is_Some (find p acc) \/ p ∈ cmds.*1) /\
    Forall part_ok r.
Proof.
  revert acc s. induction cmds as [|[p cs] cmds IH]; intros acc s Hnd Hnew Hok Hacc; cbn [group_by_par].
  { exists acc, s. split_and!; [done | by unfold frame | by rewrite app_nil_r | | done].
    intros q. split; [by left | intros [?|?%not_elem_of_nil]]; done. }
  rewrite fmap_cons in Hnd. apply NoDup_cons in Hnd as [Hp Hnd]. apply Forall_cons in Hok as [Hcs Hok].
  assert (find p acc = None) as Hpn by (apply Hnew; by left).
  assert (count p acc = false) as Hcount by (by apply count_find_None).
  destruct (number_pieces_eq cs (s <| n_dispatch_ ::= fun n => u32 (n + Z.of_nat (length cs)) |>))
    as (s1 & E1 & En1 & F1).
  destruct (IH (insert p (number_from (next_pie_id_ s) cs) acc) s1) as (r & s2 & E2 & F2 & P2 & K2 & M2).
  - done.
  - intros q Hq. rewrite find_insert_ne; [apply Hnew; by right|]. intros <-. done.
  - done.
  - apply Forall_forall. intros q [->|Hq]%insert_elem_of; [by apply number_from_ok|].
    by eapply Forall_forall in Hq; [|exact Hacc].
  - exists r, s2. split_and!.
    + unfold count_dispatch, modify, verify, mbind, M_bind. rewrite Hcount. cbn [negb].
      rewrite E1. exact E2.
    + eapply frame_trans; [|exact F2]. eapply frame_trans; [|exact F1]. by unfold frame.
    + rewrite P2, pieces_of_insert by done. unfold pieces_of. cbn [List.flat_map snd].
      rewrite number_from_app, En1. cbn. rewrite app_assoc. apply Permutation_app_tail, Permutation_app_comm.
    + intros q. rewrite K2, fmap_cons, elem_of_cons, find_insert. cbn [fst].
      case_decide; subst; [split; [by right; left | by left; eauto]|]. intuition congruence.
    + done.
Qed.

(** The pieces of all regions. *)
Definition region_pieces (m : omap Z (omap Z (list SimpleCommand))) : list SimpleCommand :=
  List.flat_map (fun p => pieces_of p.2) m.

(** [par] is listed under its region. *)
Definition listed (m : omap Z (omap Z (list SimpleCommand))) (rid par : Z) : Prop :=
  exists by_par, find rid m = Some by_par /\ is_Some (find par by_par).

Lemma put_in_region_pieces rid par cs m :
  ~ listed m rid par -> sorted_keys m -> region_pieces (put_in_region rid par cs m) ≡ₚ cs ++ region_pieces m.
Proof.
  unfold put_in_region, region_pieces, sorted_keys, listed. rewrite index_fst.
  induction m as [|[r by_par] m IH]; intros Hn Hs; cbn [find insert].
  { unfold pieces_of. cbn. by rewrite app_nil_r. }
  rewrite fmap_cons in Hs. apply StronglySorted_inv in Hs as [Hs Hall]. cbn [find] in Hn.
  destruct (decide (rid = r)) as [->|Hne].
  { cbn [List.flat_map snd fst default]. rewrite pieces_of_insert; [by rewrite app_assoc|].
    destruct (find par by_par) eqn:E; [|done]. exfalso. apply Hn. exists by_par. by rewrite E. }
  destruct (key_ltb rid r) eqn:El.
  - assert (find rid m = None) as ->.
    { apply find_None_notin. intros Hin. rewrite Forall_forall in Hall. specialize (Hall _ Hin).
      unfold key_lt in Hall. simpl in *. lia. }
    unfold pieces_of. cbn. by rewrite app_nil_r.
  - cbn [List.flat_map snd]. rewrite (IH Hn Hs), !app_assoc.
    apply Permutation_app_tail, Permutation_app_comm.
Qed.

Lemma listed_put rid par cs m r p :
  listed (put_in_region rid par cs m) r p <-> (r = rid /\ p = par) \/ listed m r p.
Proof.
  unfold put_in_region, listed. rewrite index_fst. setoid_rewrite find_insert.
  case_decide as E; [|split; [by right | intros [[-> ->]|?]; [done | done]]]. subst r. split.
  - intros (m' & [= <-] & Hp). rewrite find_insert in Hp. case_decide; subst; [by left|]. right.
    destruct (find rid m) as [by_par|]; [by exists by_par | by destruct Hp].
  - intros Hx. eexists. split; [done|]. rewrite find_insert. case_decide; [done|].
    destruct Hx as [[_ ->]|(by_par & -> & Hp)]; [done | exact Hp].
Qed.

(** No region without partitions, no partition without pieces, and every piece
    under its partition. *)
Definition regions_ok (m : omap Z (omap Z (list SimpleCommand))) : Prop :=
  Forall (fun p => p.2 ≠ [] /\ sorted_keys p.2 /\ Forall part_ok p.2) m.

Lemma regions_ok_find rid m :
  regions_ok m -> sorted_keys (default [] (find rid m)) /\ Forall part_ok (default [] (find rid m)).
Proof.
  intros Hm. destruct (find rid m) as [old|] eqn:E; [|split; constructor].
  apply find_elem_of in E. unfold regions_ok in Hm. rewrite Forall_forall in Hm. by apply (Hm _ E).
Qed.

Lemma put_in_region_ok rid par cs m :
  part_ok (par, cs) -> regions_ok m -> regions_ok (put_in_region rid par cs m).
Proof.
  intros Hcs Hm. destruct (regions_ok_find rid m Hm) as [Hs Hok]. apply Forall_forall. intros [r by_par] Hin.
  unfold put_in_region in Hin. rewrite index_fst in Hin.
  apply insert_elem_of in Hin as [[= -> ->]|Hin]; [|by eapply Forall_forall in Hin; [|exact Hm]].
  cbn [snd]. split_and!.
  - intros E. pose proof (find_insert_eq par cs (default [] (find rid m))) as Hf. by rewrite E in Hf.
  - by apply sorted_insert.
  - apply Forall_forall. intros q [->|Hq]%insert_elem_of; [done|]. rewrite Forall_forall in Hok. by apply Hok.
Qed.

Lemma put_in_region_grouped par cs m :
  grouped m -> grouped (put_in_region (par / n_shard_per_region_ cfg) par cs m).
Proof.
  intros Hg r by_par p l Hin Hp. unfold put_in_region in Hin. rewrite index_fst in Hin.
  apply insert_elem_of in Hin as [[= -> ->]|Hin]; [|by eapply Hg].
  apply insert_elem_of in Hp as [[= -> ->]|Hp]; [done|].
  destruct (find _ m) as [old|] eqn:E; [|by apply not_elem_of_nil in Hp].
  apply find_elem_of in E. by eapply Hg.
Qed.

Lemma group_by_region_eq cmds acc s :
  NoDup cmds.*1 -> (forall p, p ∈ cmds.*1 -> ~ listed acc (p / n_shard_per_region_ cfg) p) ->
  Forall part_ok cmds -> sorted_keys acc -> grouped acc -> regions_ok acc ->
  exists r s', group_by_region cmds acc s = Done (r, s') /\ frame s s' /\ sorted_keys r /\
    region_pieces r ≡ₚ region_pieces acc ++ number_from (next_pie_id_ s) (pieces_of cmds) /\
    grouped r /\ regions_ok r /\
    (forall rid p, listed r rid p <-> listed acc rid p \/ (p ∈ cmds.*1 /\ rid = p / n_shard_per_region_ cfg)).
Proof.
  revert acc s. induction cmds as [|[p cs] cmds IH]; intros acc s Hnd Hnew Hne Hs Hg Ha; cbn [group_by_region].
  { exists acc, s. split_and!; [done | by unfold frame | done | by rewrite app_nil_r | done | done |].
    intros rid q. split; [by left | intros [?|[?%not_elem_of_nil _]]]; done. }
  rewrite fmap_cons in Hnd. apply NoDup_cons in Hnd as [Hp Hnd].
  apply Forall_cons in Hne as [Hcs Hne]. cbn [fst snd] in *.
  assert (~ listed acc (p / n_shard_per_region_ cfg) p) as Hpn by (apply Hnew; by left).
  destruct (number_pieces_eq cs (s <| n_dispatch_ ::= fun n => u32 (n + Z.of_nat (length cs)) |>))
    as (s1 & E1 & En1 & F1).
  destruct (IH (put_in_region (p / n_shard_per_region_ cfg) p (number_from (next_pie_id_ s) cs) acc) s1)
    as (r & s2 & E2 & F2 & S2 & P2 & G2 & A2 & L2); try done.
  - intros q Hq. rewrite listed_put. intros [[_ ->]|Hl]; [done|]. eapply Hnew; [by right | exact Hl].
  - by apply sorted_insert.
  - by apply put_in_region_grouped.
  - apply put_in_region_ok; [by apply number_from_ok | done].
  - exists r, s2. split_and!; try done.
    + unfold count_dispatch, modify, mbind, M_bind. rewrite E1. exact E2.
    + eapply frame_trans; [|exact F2]. eapply frame_trans; [|exact F1]. by unfold frame.
    + rewrite P2, put_in_region_pieces by done. unfold pieces_of. cbn [List.flat_map snd].
      rewrite number_from_app, En1. cbn. rewrite app_assoc. apply Permutation_app_tail, Permutation_app_comm.
    + intros rid q. rewrite L2, listed_put, fmap_cons, elem_of_cons. cbn [fst]. intuition congruence.
Qed.

Lemma first_piece_some (m : omap Z (list SimpleCommand)) :
  m ≠ [] -> Forall part_ok m -> is_Some (first_piece m).
Proof.
  destruct m as [|[p [|c cs]] m]; [done | | by intros; eexists].
  intros _ [[Hne _] _]%Forall_cons. done.
Qed.

Lemma first_cmd_some (m : omap Z (omap Z (list SimpleCommand))) :
  m ≠ [] -> regions_ok m -> is_Some (first_cmd m).
Proof.
  destruct m as [|[r by_par] m]; [done|]. intros _ [(Hne & _ & Hok) _]%Forall_cons.
  destruct (first_piece_some by_par Hne Hok) as [c Hc]. by exists c.
Qed.

Lemma random_key_done {V} (m : omap Z V) s :
  m ≠ [] -> Z.of_nat (length m) < 2 ^ 31 -> (forall n, 0 <= rand_r n) ->
  exists k, random_key m s = Done (k, s <| coord_rand_reads_ ::= S |>) /\ k ∈ m.*1.
Proof.
  intros Hne Hlen Hr. unfold random_key, coord_rand, state, mbind, M_bind, RandomGenerator_rand.
  assert (i32 (Z.of_nat (length m) - 1) = Z.of_nat (length m) - 1) as -> by (apply wrap_s_id; [done | unfold in_s; lia]).
  assert (0 < length m)%nat as Hpos by (destruct m; [done | simpl; lia]).
  destruct (Z.ltb_spec (Z.of_nat (length m) - 1) 0); [lia|]. cbn [from_option].
  set (i := Z.rem _ _ + 0).
  assert (0 <= i < Z.of_nat (length m)) as Hi.
  { unfold i. specialize (Hr (coord_rand_reads_ s)).
    pose proof (Z.rem_bound_pos (rand_r (coord_rand_reads_ s)) (Z.of_nat (length m) - 1 - 0 + 1)
      ltac:(done) ltac:(lia)). lia. }
  destruct (lookup_lt_is_Some_2 m (Z.to_nat i)) as [e He]; [lia|].
  exists e.1. split; [|apply list_elem_of_fmap; exists e; split; [done | by eapply list_elem_of_lookup_2]].
  unfold mret, M_ret. rewrite He. reflexivity.
Qed.

Lemma get_all_ids a b entries cmds waiting n :
  preserves (fun t => txn_id_ t = a /\ txn_root_id_ t = b) (get_all entries cmds waiting n).
Proof.
  revert cmds waiting n. induction entries as [|[pi st] entries IH]; intros cmds waiting n; cbn [get_all];
    solve_preserves. by apply preserves_modify.
Qed.

Lemma GetAllCmds_ids t cmds t' :
  GetAllCmds t = Done (cmds, t') -> txn_id_ t' = txn_id_ t /\ txn_root_id_ t' = txn_root_id_ t.
Proof.
  intros Hrun. assert (preserves (fun t' => txn_id_ t' = txn_id_ t /\ txn_root_id_ t' = txn_root_id_ t) GetAllCmds) as Hp.
  { unfold GetAllCmds. pose proof get_all_ids. solve_preserves; by apply preserves_modify. }
  by apply (Hp t cmds t').
Qed.

Definition request_pieces (m : CoordMsg) : list SimpleCommand :=
  match m with
  | SubmitTxn by_par _ _ => pieces_of by_par
  | SubmitCRT by_region _ => region_pieces by_region
  end.

(** A request inside a region goes to a partition it touches, one over several
    regions to a partition that it touches in the home region; to the home partition
    if it is touched. *)
Definition request_ok (is_local : bool) (home_par : Z) (m : CoordMsg) : Prop :=
  match m with
  | SubmitTxn by_par target is_irt =>
    is_local = true /\ is_irt = true /\ Forall part_ok by_par /\ is_Some (find target by_par) /\
    (is_Some (find home_par by_par) -> target = home_par)
  | SubmitCRT by_region target =>
    is_local = false /\ regions_ok by_region /\ grouped by_region /\
    let rid := home_par / n_shard_per_region_ cfg in
    listed by_region rid target /\ (listed by_region rid home_par -> target = home_par)
  end.

(** What the deployment and [rand_r] guarantee. *)
Class EnvOk : Prop := {
  rand_r_nonneg n : 0 <= rand_r n;
  partition0 : is_Some (GetPartitionSize cfg 0);
}.

Lemma request_done (m : CoordMsg) (s0 s : Coord) :
  frame s0 s -> exists s', request m s = Done (tt, s') /\ requests_ s' = requests_ s0 ++ [m] /\
    frame (s0 <| requests_ := requests_ s' |>) s'.
Proof.
  intros Hf. eexists. split; [reflexivity|]. unfold frame in *. unfold set_field. cbn. intuition congruence.
Qed.

Lemma SubmitReq_start `{!WorkloadOk} s cmds t' :
  txn_root_id_ (cmd_ s) = txn_id_ (cmd_ s) -> GetAllCmds (PrepareAllCmds (cmd_ s)) = Done (cmds, t') ->
  exists s1, frame s s1 /\ next_pie_id_ s1 = next_pie_id_ s /\
    SubmitReq s = (if my_txn_is_loacal_ s then submit_irt else submit_crt) (home_par_id_ s) cmds s1.
Proof.
  intros Hroot Hget. exists (s <| cmd_ := t' |>).
  destruct (GetAllCmds_ids _ _ _ Hget) as [Hid Hrid]. rewrite prepare_id in Hid. rewrite prepare_root in Hrid.
  split_and!; [by unfold frame | done |]. unfold SubmitReq.
  erewrite bind_eq; [|reflexivity]. rewrite Hroot, Z.eqb_refl.
  erewrite bind_eq; [|reflexivity]. erewrite bind_eq; [|reflexivity].
  erewrite bind_eq; [|unfold on_cmd; cbn; rewrite Hget; reflexivity]. by destruct (my_txn_is_loacal_ s).
Qed.

(** What a request for the pieces of [cmds] comes to. *)
Definition requested (is_local : bool) (home_par : Z) (cmds : omap Z (list SimpleCommand)) (s s' : Coord) : Prop :=
  exists m, requests_ s' = requests_ s ++ [m] /\ frame (s <| requests_ := requests_ s' |>) s' /\
    request_pieces m ≡ₚ number_from (next_pie_id_ s) (pieces_of cmds) /\ request_ok is_local home_par m.

(** The pieces that [GetAllCmds] returns, as far as the coordinator uses them. *)
Definition handed (cmds : omap Z (list SimpleCommand)) : Prop :=
  cmds ≠ [] /\ by_partition cmds /\ Z.of_nat (length cmds) < 2 ^ 31.

Lemma handed_NoDup cmds : handed cmds -> NoDup cmds.*1.
Proof. intros (_ & [Hs _] & _). by apply sorted_NoDup. Qed.

Lemma submit_irt_done `{!EnvOk} home_par cmds s :
  handed cmds -> exists s', submit_irt home_par cmds s = Done (tt, s') /\ requested true home_par cmds s s'.
Proof.
  intros Hh. destruct Hh as (Hne & [Hs Hok] & Hlen).
  destruct (group_by_par_eq cmds [] s) as (r & s1 & E1 & F1 & P1 & K1 & O1); [by apply sorted_NoDup | done | done | constructor|].
  assert (forall p, is_Some (find p r) <-> p ∈ cmds.*1) as K.
  { intros p. rewrite K1. split; [by intros [[? [=]]|?] | by right]. }
  assert (r ≠ []) as Hr.
  { intros ->. destruct cmds as [|[p cs] cmds]; [done|]. destruct (proj2 (K p)); [by left | done]. }
  destruct (first_piece_some r Hr O1) as [c Hc].
  assert (exists target s2, (if count home_par cmds then mret home_par else random_key cmds) s1 = Done (target, s2) /\
    frame s1 s2 /\ target ∈ cmds.*1 /\ (home_par ∈ cmds.*1 -> target = home_par)) as (target & s2 & E2 & F2 & T1 & T2).
  { destruct (count home_par cmds) eqn:Ec.
    - exists home_par, s1. split_and!; [done | by unfold frame | | done]. by apply find_key_in, count_find.
    - destruct (random_key_done cmds s1 Hne Hlen rand_r_nonneg) as (k & E & Hk). exists k. eexists.
      split_and!; [exact E | by unfold frame | done |]. intros Hin%find_key_in%count_find. congruence. }
  destruct (request_done (SubmitTxn r target true) s s2) as (s3 & E3 & R3 & F3); [by eapply frame_trans|].
  exists s3. split.
  - unfold submit_irt. rewrite (bind_eq _ _ _ _ _ E1), (bind_eq _ _ _ _ _ E2), Hc. exact E3.
  - exists (SubmitTxn r target true). split_and!; [done | done | by rewrite P1 |]. simpl. by rewrite !K.
Qed.

(** The home region is touched. *)
Definition touches_home (home_par : Z) (cmds : omap Z (list SimpleCommand)) : Prop :=
  exists p, p ∈ cmds.*1 /\ p / n_shard_per_region_ cfg = home_par / n_shard_per_region_ cfg.

Lemma group_all_regions cmds s :
  handed cmds ->
  exists r s', group_by_region cmds [] s = Done (r, s') /\ frame s s' /\ sorted_keys r /\
    region_pieces r ≡ₚ number_from (next_pie_id_ s) (pieces_of cmds) /\ grouped r /\ regions_ok r /\
    (forall rid p, listed r rid p <-> p ∈ cmds.*1 /\ rid = p / n_shard_per_region_ cfg).
Proof.
  intros Hh. pose proof (handed_NoDup _ Hh) as Hnd. destruct Hh as (Hne & [Hs Hok] & Hlen).
  assert (forall rid p, ~ listed [] rid p) as Hnil by (by intros rid p (? & [=] & _)).
  destruct (group_by_region_eq cmds [] s) as (r & s1 & E & F & S & P & G & O & L); try done.
  - constructor.
  - intros ? ? ? ? Hin. by apply not_elem_of_nil in Hin.
  - constructor.
  - exists r, s1. split_and!; try done. intros rid p. rewrite L. split; [by intros [?%Hnil|?] | by right].
Qed.

(** A region that lists [n] partitions of the transaction. *)
Lemma region_small r rid by_par cmds :
  handed cmds -> regions_ok r -> find rid r = Some by_par ->
  (forall rid p, listed r rid p -> p ∈ cmds.*1) -> Z.of_nat (length by_par) < 2 ^ 31.
Proof.
  intros (_ & _ & Hlen) Hok E Hl. pose proof (regions_ok_find rid r Hok) as [Hs _]. rewrite E in Hs.
  assert (length by_par.*1 <= length cmds.*1)%nat as Hle.
  { apply submseteq_length, NoDup_submseteq; [by apply sorted_NoDup|]. intros p Hp%find_key_in. apply (Hl rid). by exists by_par. }
  rewrite !length_fmap in Hle. lia.
Qed.

Lemma submit_crt_done `{!EnvOk} home_par cmds s :
  handed cmds -> touches_home home_par cmds ->
  exists s', submit_crt home_par cmds s = Done (tt, s') /\ requested false home_par cmds s s'.
Proof.
  intros Hh (p0 & Hp0 & Hrid). destruct partition0 as [n0 Hn0].
  destruct (group_all_regions cmds s Hh) as (r & s1 & E1 & F1 & S1 & P1 & G1 & O1 & L1).
  destruct (proj2 (L1 (home_par / n_shard_per_region_ cfg) p0)) as (by_par & Hby & Hpk); [done|].
  assert (r ≠ []) as Hr by (by intros ->). destruct (first_cmd_some r Hr O1) as [c Hc].
  assert (forall target s2, frame s1 s2 -> is_Some (find target by_par) ->
    (home_par ∈ cmds.*1 -> target = home_par) ->
    exists s', request (SubmitCRT r target) s2 = Done (tt, s') /\ requested false home_par cmds s s') as Hfin.
  { intros target s2 F2 T1 T2.
    destruct (request_done (SubmitCRT r target) s s2) as (s3 & E3 & R3 & F3); [by eapply frame_trans|].
    exists s3. split; [done|]. exists (SubmitCRT r target). split_and!; try done. simpl. split_and!; try done.
    - by exists by_par.
    - intros [Hin _]%L1. auto. }
  unfold submit_crt. rewrite Hn0, (bind_eq _ _ s n0 s eq_refl), (bind_eq _ _ _ _ _ E1).
  destruct (count home_par cmds) eqn:Ec.
  - rewrite Hc. apply Hfin; [by unfold frame | | done].
    apply count_find in Ec. apply find_key_in in Ec.
    destruct (proj2 (L1 (home_par / n_shard_per_region_ cfg) home_par)) as (by_par' & Hby' & Hk); [done|].
    rewrite Hby in Hby'. by injection Hby' as <-.
  - unfold index. rewrite Hby.
    destruct (random_key_done by_par s1) as (k & Ek & Hk).
    + intros ->. by destruct Hpk.
    + eapply (region_small r); [done | done | exact Hby |]. by intros rid p [Hp _]%L1.
    + exact rand_r_nonneg.
    + rewrite (bind_eq _ _ _ _ _ Ek), Hc. apply Hfin; [by unfold frame | by apply find_key_in |].
      intros Hin%find_key_in%count_find. congruence.
Qed.

(** If the home region is not touched, [cmds_by_region[rid]] is empty. *)
Lemma submit_crt_aborts home_par cmds s :
  handed cmds -> ~ touches_home home_par cmds -> submit_crt home_par cmds s = Aborted.
Proof.
  intros Hh Hno. destruct (group_all_regions cmds s Hh) as (r & s1 & E1 & F1 & S1 & P1 & G1 & O1 & L1).
  unfold submit_crt. destruct (GetPartitionSize cfg 0) as [n0|]; [|done].
  rewrite (bind_eq _ _ s n0 s eq_refl), (bind_eq _ _ _ _ _ E1).
  destruct (count home_par cmds) eqn:Ec.
  { exfalso. apply Hno. exists home_par. split; [by apply find_key_in, count_find | done]. }
  assert (find (home_par / n_shard_per_region_ cfg) r = None) as Hnone.
  { destruct (find _ r) as [by_par|] eqn:E; [|done]. exfalso. apply Hno.
    pose proof (find_elem_of _ _ _ E) as Hin. unfold regions_ok in O1. rewrite Forall_forall in O1.
    destruct (O1 _ Hin) as [Hne _]. destruct by_par as [|[p cs] by_par]; [done|].
    destruct (proj1 (L1 (home_par / n_shard_per_region_ cfg) p)) as [Hp Hrid].
    - eexists. split; [exact E|]. apply find_key_in. by left.
    - by exists p. }
  unfold index. rewrite Hnone. reflexivity.
Qed.

Lemma GetAllCmds_handed t cmds t' :
  GetAllCmds t = Done (cmds, t') -> txn_wf t -> Z.of_nat (length cmds) < 2 ^ 31 -> handed cmds.
Proof.
  intros (cs & waiting & n & t1 & E & Hne & ->)%GetAllCmds_run [Hs Hnd] Hlen.
  apply get_all_start in E as (Hb & _); [|done..]. split_and!; [by destruct cs | by apply by_partition_map | done].
Qed.

(** C30: the coordinator sends one request, which carries every
    piece that the transaction hands out exactly once, numbered with the next piece
    identifiers, under its own partition and region; the request goes to the home
    partition if it is touched, and else to a touched partition, of the home region
    if the transaction spans regions, in which case it is assumed to touch its home
    region. *)
Theorem request_carries_pieces `{!WorkloadOk} `{!EnvOk} s cmds t' :
  txn_root_id_ (cmd_ s) = txn_id_ (cmd_ s) -> txn_wf (cmd_ s) ->
  GetAllCmds (PrepareAllCmds (cmd_ s)) = Done (cmds, t') -> Z.of_nat (length cmds) < 2 ^ 31 ->
  (my_txn_is_loacal_ s = true \/ touches_home (home_par_id_ s) cmds) ->
  exists m s', SubmitReq s = Done (tt, s') /\ requests_ s' = requests_ s ++ [m] /\
    request_pieces m ≡ₚ number_from (next_pie_id_ s) (pieces_of cmds) /\
    request_ok (my_txn_is_loacal_ s) (home_par_id_ s) m.
Proof.
  intros Hroot Hwf Hget Hlen Hhome.
  pose proof (GetAllCmds_handed _ _ _ Hget (prepare_wf _ Hwf) Hlen) as Hh.
  destruct (SubmitReq_start s cmds t' Hroot Hget) as (s1 & F1 & N1 & ->).
  assert (exists s', (if my_txn_is_loacal_ s then submit_irt else submit_crt) (home_par_id_ s) cmds s1 = Done (tt, s') /\
    requested (my_txn_is_loacal_ s) (home_par_id_ s) cmds s1 s') as (s' & E & m & R & F & P & O).
  { destruct (my_txn_is_loacal_ s); [by apply submit_irt_done|]. destruct Hhome; [done|]. by apply submit_crt_done. }
  exists m, s'. rewrite N1 in P. split_and!; try done. rewrite R. f_equal. apply F1.
Qed.

(** a transaction over several regions that touches no
    partition of its home region brings the coordinator down: the list of the
    partitions to choose from is empty, and [rand(0, -1)] fails its check. *)
Theorem untouched_home_aborts `{!WorkloadOk} s cmds t' :
  txn_root_id_ (cmd_ s) = txn_id_ (cmd_ s) -> txn_wf (cmd_ s) ->
  GetAllCmds (PrepareAllCmds (cmd_ s)) = Done (cmds, t') -> Z.of_nat (length cmds) < 2 ^ 31 ->
  my_txn_is_loacal_ s = false -> ~ touches_home (home_par_id_ s) cmds ->
  SubmitReq s = Aborted.
Proof.
  intros Hroot Hwf Hget Hlen Hloc Hhome.
  pose proof (GetAllCmds_handed _ _ _ Hget (prepare_wf _ Hwf) Hlen) as Hh.
  destruct (SubmitReq_start s cmds t' Hroot Hget) as (s1 & F1 & N1 & ->).
  rewrite Hloc. by apply submit_crt_aborts.
Qed.

(** ** The life of a transaction at its coordinator *)

(** What a submission leaves alone. *)
Definition kept (s0 s : Coord) : Prop :=
  phase_ s = phase_ s0 /\ committed_ s = committed_ s0 /\ aborted_ s = aborted_ s0 /\ ended_ s = ended_ s0 /\
  txn_id_ (cmd_ s) = txn_id_ (cmd_ s0) /\ txn_root_id_ (cmd_ s) = txn_root_id_ (cmd_ s0) /\
  next_txn_id_ s = next_txn_id_ s0.

Lemma on_cmd_kept {A} (m : M TxnCommand A) s0 :
  (forall a b, preserves (fun t => txn_id_ t = a /\ txn_root_id_ t = b) m) -> preserves (kept s0) (on_cmd m).
Proof.
  intros Hm s a s' Hs Hrun. unfold on_cmd in Hrun. destruct (m (cmd_ s)) as [[r t]| |] eqn:E; [|done..].
  injection Hrun as <- <-. destruct (Hm _ _ _ _ _ (conj eq_refl eq_refl) E) as [H1 H2].
  unfold kept in *. cbn. intuition congruence.
Qed.

Lemma number_pieces_kept s0 cs : preserves (kept s0) (number_pieces cs).
Proof.
  induction cs as [|c cs IH]; cbn [number_pieces]; solve_preserves. unfold number_piece. by apply preserves_state.
Qed.
#[local] Hint Resolve number_pieces_kept : preserves.

Lemma count_dispatch_kept s0 cs : preserves (kept s0) (count_dispatch cs).
Proof. by apply preserves_modify. Qed.
#[local] Hint Resolve count_dispatch_kept : preserves.

Lemma random_key_kept {V} s0 (m : omap Z V) : preserves (kept s0) (random_key m).
Proof. unfold random_key, coord_rand. solve_preserves. by apply preserves_state. Qed.
#[local] Hint Resolve random_key_kept : preserves.

Lemma request_kept s0 m : preserves (kept s0) (request m).
Proof. by apply preserves_modify. Qed.
#[local] Hint Resolve request_kept : preserves.

Lemma submit_irt_kept s0 home_par cmds : preserves (kept s0) (submit_irt home_par cmds).
Proof.
  assert (forall acc, preserves (kept s0) (group_by_par cmds acc)) as Hg.
  { induction cmds as [|[p cs] l IH]; intros acc; cbn [group_by_par]; solve_preserves. }
  unfold submit_irt. solve_preserves.
Qed.

Lemma submit_crt_kept s0 home_par cmds : preserves (kept s0) (submit_crt home_par cmds).
Proof.
  assert (forall acc, preserves (kept s0) (group_by_region cmds acc)) as Hg.
  { induction cmds as [|[p cs] l IH]; intros acc; cbn [group_by_region]; solve_preserves. }
  unfold submit_crt. solve_preserves.
Qed.
#[local] Hint Resolve submit_irt_kept submit_crt_kept : preserves.

Lemma SubmitReq_kept `{!WorkloadOk} s0 : preserves (kept s0) SubmitReq.
Proof.
  unfold SubmitReq. solve_preserves; apply on_cmd_kept; intros i j.
  - apply preserves_modify. intros t. by rewrite prepare_id, prepare_root.
  - unfold GetAllCmds. pose proof get_all_ids. solve_preserves; by apply preserves_modify.
Qed.

Lemma u32_parity p : u32 (p + 1) mod 2 = 1 - p mod 2.
Proof.
  unfold wrap_u. change (2 ^ 32) with (2 * 2147483648). rewrite Z.rem_mul_r by lia.
  rewrite (Z.mul_comm 2 (_ mod _)), Z_mod_plus_full, Z.mod_mod by lia.
  pose proof (Z.mod_pos_bound p 2). pose proof (Z.div_mod p 2).
  assert (p mod 2 = 0 \/ p mod 2 = 1) as [E|E] by lia; rewrite E in *.
  - symmetry. apply (Z.mod_unique_pos _ _ (p / 2)); lia.
  - symmetry. apply (Z.mod_unique_pos _ _ (p / 2 + 1)); lia.
Qed.

Lemma SubmitAck_ends s :
  phase_ s mod 2 = 1 -> txn_root_id_ (cmd_ s) = txn_id_ (cmd_ s) ->
  SubmitAck (phase_ s) s =
    Done (tt, s <| committed_ := true |> <| phase_ ::= fun p => u32 (p + 1) |>
                <| ended_ ::= fun l => l ++ [(txn_id_ (cmd_ s), true)] |>).
Proof.
  intros Hp Hroot. unfold SubmitAck.
  erewrite bind_eq by reflexivity. rewrite Z.eqb_refl, Hroot, Z.eqb_refl.
  erewrite bind_eq by reflexivity. erewrite bind_eq by reflexivity. erewrite bind_eq by reflexivity.
  unfold GotoNextPhase. erewrite bind_eq by reflexivity.
  change (phase_ (s <| committed_ := true |>)) with (phase_ s). rewrite Hp. cbn [Z.eqb].
  erewrite bind_eq by reflexivity. erewrite bind_eq by reflexivity.
  set (s' := _ <| phase_ ::= _ |>). assert (phase_ s' mod 2 = 0) as Hp'.
  { unfold s'. cbn -[Z.modulo wrap_u]. rewrite u32_parity. lia. }
  rewrite Hp'. cbn [Z.eqb]. erewrite bind_eq by reflexivity. reflexivity.
Qed.

Lemma GotoNextPhase_init_done s s1 :
  phase_ s mod 2 = 0 -> GotoNextPhase s = Done (tt, s1) ->
  SubmitReq (s <| phase_ ::= fun p => u32 (p + 1) |>) = Done (tt, s1) /\ phase_ s1 mod 2 = 1.
Proof.
  intros Hp Hrun. unfold GotoNextPhase in Hrun. erewrite bind_eq in Hrun by reflexivity.
  rewrite Hp in Hrun. cbn [Z.eqb] in Hrun. unfold GotoNextPhase_init in Hrun.
  erewrite bind_eq in Hrun by reflexivity.
  apply bind_done in Hrun as ([] & s2 & E & Hrun). erewrite bind_eq in Hrun by reflexivity.
  unfold verify in Hrun. destruct (Z.eqb_spec (phase_ s2 mod 2) 1) as [Ep|]; [|done].
  assert (s2 = s1) as -> by congruence. done.
Qed.

(** A coordinator that has taken a request. *)
Lemma do_one_done `{!WorkloadOk} is_local home t s s1 :
  phase_ s mod 2 = 0 -> do_one is_local home t s = Done (tt, s1) ->
  phase_ s1 mod 2 = 1 /\ ended_ s1 = ended_ s /\ txn_id_ (cmd_ s1) = next_txn_id_ s /\
  txn_root_id_ (cmd_ s1) = next_txn_id_ s /\ next_txn_id_ s1 = u64 (next_txn_id_ s + 1).
Proof.
  intros Hph Hrun. unfold do_one in Hrun.
  apply bind_done in Hrun as ([] & s' & Hv & Hrun). unfold verify in Hv.
  destruct (negb _) in Hv; [|done]. injection Hv as <-.
  erewrite bind_eq in Hrun by reflexivity. erewrite bind_eq in Hrun by reflexivity.
  apply GotoNextPhase_init_done in Hrun as [Hrun Hp1]; [|exact Hph].
  assert (kept _ s1) as K by (eapply SubmitReq_kept; [|exact Hrun]; by unfold kept).
  destruct K as (K1 & K2 & K3 & K4 & K5 & K6 & K7). split_and!; [done | exact K4 | exact K5 | exact K6 | exact K7].
Qed.

(** a coordinator between two transactions that takes a request
    numbers it with the next transaction identifier and submits it; the first
    acknowledgement ends the transaction as committed with that identifier, without
    another request, and leaves the coordinator ready for the next one.  An
    acknowledgement for any other phase fails a check. *)
Theorem one_ack_ends_txn `{!WorkloadOk} is_local home t s s1 :
  phase_ s mod 2 = 0 -> do_one is_local home t s = Done (tt, s1) ->
  (exists s2, SubmitAck (phase_ s1) s1 = Done (tt, s2) /\
    ended_ s2 = ended_ s ++ [(next_txn_id_ s, true)] /\ requests_ s2 = requests_ s1 /\
    phase_ s2 mod 2 = 0 /\ next_txn_id_ s2 = u64 (next_txn_id_ s + 1)) /\
  (forall p, p ≠ phase_ s1 -> SubmitAck p s1 = Aborted).
Proof.
  intros Hph Hrun. apply do_one_done in Hrun as (Hp1 & He & Hi & Hr & Hn); [|done]. split.
  - eexists. split; [apply SubmitAck_ends; [done | congruence]|]. cbn -[Z.modulo wrap_u].
    rewrite He, Hi, Hn, u32_parity, Hp1. by split_and!.
  - intros p Hp. unfold SubmitAck. erewrite bind_eq by reflexivity. unfold verify, mbind, M_bind.
    by destruct (Z.eqb_spec p (phase_ s1)).
Qed.

(** ** What the servers do with the dependency map *)

Lemma number_from_elem n cs c : c ∈ number_from n cs -> exists c0 i, c0 ∈ cs /\ c = c0 <| id_ := i |>.
Proof.
  revert n. induction cs as [|c0 cs IH]; intros n; [by intros ?%not_elem_of_nil|].
  intros [->|(c1 & i & Hc1 & ->)%IH]%elem_of_cons; [exists c0, n | exists c1, i]; (split; [constructor; done | done]).
Qed.

Lemma targets_acc (waiting : omap Z (list Z)) out acc par :
  par ∈ foldl (fun ret (pair : Z * Value) =>
    match find pair.1 waiting with Some targets => sinsert_range targets ret | None => ret end) acc out <->
  par ∈ acc \/ exists k v, (k, v) ∈ out /\ waits_for waiting k par.
Proof.
  revert acc. induction out as [|[k v] out IH]; intros acc; cbn [foldl fst].
  { split; [by left|]. intros [?|(? & ? & ?%not_elem_of_nil & _)]; done. }
  rewrite IH. unfold waits_for. setoid_rewrite elem_of_cons. destruct (find k waiting) as [targets|] eqn:E.
  - rewrite elem_of_sinsert_range. split.
    + intros [[?|?]|(k' & v' & ? & ?)]; [right; exists k, v | by left | right; exists k', v'; by auto].
      rewrite E. auto.
    + intros [?|(k' & v' & [[= -> ->]|?] & Hw)]; [auto | rewrite E in Hw; auto | right; by eauto].
  - split.
    + intros [?|(k' & v' & ? & ?)]; [by left | right; exists k', v'; by auto].
    + intros [?|(k' & v' & [[= -> ->]|?] & Hw)]; [auto | | right; by eauto].
      rewrite E in Hw. by apply not_elem_of_nil in Hw.
Qed.

(** C32: if a server keeps pieces of a request and one of the
    transaction's pieces outputs a variable that another piece of the request is
    still waiting for, then the partition of the waiting piece is among those that
    the server sends the output to. *)
Theorem outputs_reach_waiting t cmds t' n tx out c k v :
  GetAllCmds t = Done (cmds, t') -> txn_wf t ->
  pieces_ tx ≠ [] -> Forall (fun p => p ∈ number_from n (pieces_of cmds)) (pieces_ tx) ->
  c ∈ pieces_of cmds -> piece_input_ready_ (input c) = 0 -> k ∈ keys_ (input c) -> count k (values_ (input c)) = false ->
  (k, v) ∈ out -> cmd_partition_id_ c ∈ GetOutputsTargets tx out.
Proof.
  intros (cs & waiting & m & t1 & E & Hne & ->)%GetAllCmds_run [Hs Hnd] Htx Hin Hc Hr Hk Hcount Hout.
  apply get_all_start in E as (_ & Hd & _ & _); [|done..]. rewrite pieces_of_map in Hin, Hc.
  unfold GetOutputsTargets. destruct (pieces_ tx) as [|p0 ps]; [done|].
  apply Forall_cons in Hin as [Hp0 _].
  apply number_from_elem in Hp0 as (p1 & i & Hp1 & ->). apply list_elem_of_fmap in Hp1 as (p2 & -> & Hp2).
  apply list_elem_of_fmap in Hc as (c2 & -> & Hc2). cbn -[piece_input_ready_] in *.
  rewrite Forall_forall in Hd. specialize (Hd _ Hc2 Hr k Hk). rewrite Hcount in Hd. destruct Hd as [_ Hw].
  apply targets_acc. right. by exists k, v.
Qed.
End coord.

(** ** Instances *)
#[local] Existing Instance demo_env.

(** A workload whose pieces are prepared when the transaction is created. *)
#[local] Instance demo_workload : Workload := { PrepareAllCmds t := t; max_retry_ := 2 }.
#[local] Instance demo_workload_ok : WorkloadOk.
Proof. by split. Qed.
#[local] Instance demo_env_ok : EnvOk.
Proof. split; [intros n; simpl; lia | by eexists]. Qed.

(** The transaction of three pieces with piece 204 on partition [par]. *)
Definition demo_txn_on (par : Z) : TxnCommand := demo_txn <| sharding_ := [(201, 0); (204, par); (205, 1)] |>.

(** A coordinator about to submit it, with home partition [home]. *)
Definition demo_coord (is_local : bool) (home par : Z) : Coord :=
  mk_coord 0 false false 0 0 0 [] 900 71 is_local home (demo_txn_on par) 0 [] [].

Lemma demo_txn_wf par : txn_wf (demo_txn_on par).
Proof.
  split; [repeat constructor|]. intros pi. cbn. repeat case_decide; apply (bool_decide_unpack _); vm_compute; exact I.
Qed.

Lemma demo_handed par :
  result_of GetAllCmds (demo_txn_on par) = Some (handed_out (demo_txn_on par)) ->
  GetAllCmds (demo_txn_on par) = Done (handed_out (demo_txn_on par), after GetAllCmds (demo_txn_on par)).
Proof. apply done_after. Qed.

(** Pieces on partitions 0 and 3, home partition 1: the request goes to partition 0. *)
Lemma request_carries_pieces_witness :
  exists m s', SubmitReq (demo_coord false 1 3) = Done (tt, s') /\ requests_ s' = requests_ (demo_coord false 1 3) ++ [m] /\
    request_pieces m ≡ₚ number_from (next_pie_id_ (demo_coord false 1 3)) (pieces_of (handed_out (demo_txn_on 3))) /\
    request_ok (my_txn_is_loacal_ (demo_coord false 1 3)) (home_par_id_ (demo_coord false 1 3)) m.
Proof.
  apply (request_carries_pieces (demo_coord false 1 3) (handed_out (demo_txn_on 3)) (after GetAllCmds (demo_txn_on 3))).
  - reflexivity.
  - apply demo_txn_wf.
  - apply demo_handed. vm_compute. reflexivity.
  - vm_compute. reflexivity.
  - right. exists 0. split; [|reflexivity]. apply (bool_decide_unpack _). vm_compute. exact I.
Defined.

(** Home partition 0, pieces on partitions 0 and 1, but the region of partition 2. *)
Lemma untouched_home_aborts_witness : SubmitReq (demo_coord false 2 1) = Aborted.
Proof.
  apply (untouched_home_aborts (demo_coord false 2 1) (handed_out (demo_txn_on 1)) (after GetAllCmds (demo_txn_on 1))).
  - reflexivity.
  - apply demo_txn_wf.
  - apply demo_handed. vm_compute. reflexivity.
  - vm_compute. reflexivity.
  - reflexivity.
  - intros (p & Hp & E). vm_compute in Hp. apply elem_of_cons in Hp as [->|Hp]; [discriminate E|].
    apply elem_of_cons in Hp as [->|Hp]; [discriminate E|]. by apply not_elem_of_nil in Hp.
Defined.

Definition demo_submitted : Coord := after (do_one true 1 (demo_txn_on 1)) (demo_coord true 0 1).

Lemma one_ack_ends_txn_witness :
  (exists s2, SubmitAck (phase_ demo_submitted) demo_submitted = Done (tt, s2) /\
    ended_ s2 = [(71, true)] /\ requests_ s2 = requests_ demo_submitted /\ phase_ s2 mod 2 = 0 /\ next_txn_id_ s2 = 72) /\
  (forall p, p ≠ phase_ demo_submitted -> SubmitAck p demo_submitted = Aborted).
Proof.
  apply (one_ack_ends_txn true 1 (demo_txn_on 1) (demo_coord true 0 1)); [reflexivity|].
  unfold demo_submitted. apply done_after. vm_compute. reflexivity.
Defined.

(** The server of partition 0 keeps piece 201, which outputs variable 9. *)
Definition demo_kept : TxChronos :=
  (new_tx 70) <| pieces_ := firstn 1 (number_from 900 (pieces_of (handed_out (demo_txn_on 1)))) |>.

(** Piece 204, on partition 1. *)
Definition demo_waiting : SimpleCommand :=
  default (new_command demo_txn 0 0 0 (empty_ws 0)) (pieces_of (handed_out (demo_txn_on 1)) !! 1%nat).

Lemma outputs_reach_waiting_witness :
  cmd_partition_id_ demo_waiting = 1 /\ cmd_partition_id_ demo_waiting ∈ GetOutputsTargets demo_kept [(9, V_I32 6)].
Proof.
  split; [vm_compute; reflexivity|].
  apply (outputs_reach_waiting (demo_txn_on 1) (handed_out (demo_txn_on 1)) (after GetAllCmds (demo_txn_on 1))
    900 demo_kept [(9, V_I32 6)] demo_waiting 9 (V_I32 6)).
  - apply demo_handed. vm_compute. reflexivity.
  - apply demo_txn_wf.
  - vm_compute. discriminate.
  - unfold demo_kept. cbn [pieces_ set_field]. apply Forall_forall. intros p Hp.
    eapply elem_of_submseteq; [exact Hp|]. apply sublist_submseteq, sublist_take.
  - apply list_elem_of_lookup_2 with 1%nat. vm_compute. reflexivity.
  - vm_compute. reflexivity.
  - apply (bool_decide_unpack _). vm_compute. exact I.
  - vm_compute. reflexivity.
  - left.
Defined.
