(* ===== verification/Paxos.v ===== *)
(** * Replication by Multi-Paxos (src/deptran/multi_paxos/)

    The acceptor of a slot ([MultiPaxosExecutor]), the log of a replica
    ([MultiPaxosSched]), which hands the commands of decided slots to the learner,
    and the proposer of a slot ([MultiPaxosCoord]).  Only the leader proposes, so
    the prepare phase is cut off by a [verify(0)]. *)
From stdpp Require Import base tactics numbers list gmap.
From S2P Require Import Prelude.

Section paxos.
(** A command; [Clone] makes an equal one. *)
Context {Cmd : Type}.

(** ** The acceptor of a slot *)

Record MultiPaxosExecutor := mk_exec {
  max_ballot_seen_ : Z;
  max_ballot_accepted_ : Z;
  committed_cmd_ : option Cmd;
}.
#[export] Instance Eta_exec : Eta MultiPaxosExecutor :=
  fun r => mk_exec (max_ballot_seen_ r) (max_ballot_accepted_ r) (committed_cmd_ r).

Definition new_exec : MultiPaxosExecutor := mk_exec 0 0 None.

Definition exec_Prepare (ballot : Z) : M MultiPaxosExecutor Z :=
  e ← get;
  verify (negb (ballot =? max_ballot_seen_ e));;
  if max_ballot_seen_ e <? ballot then
    modify (fun e => e <| max_ballot_seen_ := ballot |>);; gets max_ballot_seen_
  else abort.

Definition exec_Accept (ballot : Z) : M MultiPaxosExecutor Z :=
  e ← get;
  verify (max_ballot_accepted_ e <? ballot);;
  if max_ballot_seen_ e <=? ballot then
    modify (fun e => e <| max_ballot_seen_ := ballot |> <| max_ballot_accepted_ := ballot |>);;
    gets max_ballot_seen_
  else abort.

(** ** The log of a replica *)

(** [learned_] lists the commands that [learner_action_] was called with. *)
Record MultiPaxosSched := mk_psched {
  max_executed_slot_ : Z;
  max_committed_slot_ : Z;
  executors_ : gmap Z MultiPaxosExecutor;
  learned_ : list Cmd;
}.
#[export] Instance Eta_psched : Eta MultiPaxosSched :=
  fun r => mk_psched (max_executed_slot_ r) (max_committed_slot_ r) (executors_ r) (learned_ r).

Definition new_psched : MultiPaxosSched := mk_psched 0 0 ∅ [].

Definition exec_of (s : MultiPaxosSched) (slot : Z) : MultiPaxosExecutor :=
  default new_exec (executors_ s !! slot).

Definition CreateExecutor (slot : Z) : M MultiPaxosSched () :=
  s ← get;
  verify (bool_decide (executors_ s !! slot = None));;
  modify (fun s => s <| executors_ ::= <[slot := new_exec]> |>).

Definition GetOrCreateExecutor (slot : Z) : M MultiPaxosSched () :=
  s ← get;
  if bool_decide (executors_ s !! slot = None) then CreateExecutor slot else mret ().

(** A method of the executor of [slot] *)
Definition on_exec {A} (slot : Z) (m : M MultiPaxosExecutor A) : M MultiPaxosSched A := fun s =>
  match m (exec_of s slot) with
  | Done (a, e) => Done (a, s <| executors_ ::= <[slot := e]> |>)
  | Aborted => Aborted
  | OutOfFuel => OutOfFuel
  end.

(** The reply is sent, and then the process stops. *)
Definition OnPrepare (slot ballot : Z) : M MultiPaxosSched Z :=
  CreateExecutor slot;; _ ← on_exec slot (exec_Prepare ballot); abort.

Definition OnAccept (slot ballot : Z) : M MultiPaxosSched Z :=
  GetOrCreateExecutor slot;; on_exec slot (exec_Accept ballot).

Definition learn (c : Cmd) : M MultiPaxosSched () := modify (fun s => s <| learned_ ::= fun l => l ++ [c] |>).

Definition executed_one : M MultiPaxosSched () :=
  modify (fun s => s <| max_executed_slot_ ::= fun n => u64 (n + 1) |>).

(** The loop over the slots after the one just executed. *)
Fixpoint learn_next (fuel : nat) (next_slot : Z) : M MultiPaxosSched () :=
  s ← get;
  if next_slot <=? max_committed_slot_ s then
    match fuel with
    | O => out_of_fuel
    | S fuel =>
      GetOrCreateExecutor next_slot;;
      s ← get;
      match committed_cmd_ (exec_of s next_slot) with
      | Some c => learn c;; executed_one;; learn_next fuel (u64 (next_slot + 1))
      | None => mret ()
      end
    end
  else mret ().

Definition OnCommit (slot : Z) (cmd : Cmd) : M MultiPaxosSched () :=
  modify (fun s => if max_committed_slot_ s <? slot then s <| max_committed_slot_ := slot |> else s);;
  s ← get;
  verify (max_executed_slot_ s <? slot);;
  if slot =? u64 (max_executed_slot_ s + 1) then
    executed_one;;
    learn cmd;;
    learn_next (Z.to_nat (max_committed_slot_ s - slot)) (u64 (slot + 1))
  else
    GetOrCreateExecutor slot;;
    on_exec slot (modify (fun e => e <| committed_cmd_ := Some cmd |>)).

(** ** The proposer of a slot *)

Inductive PaxosMsg :=
  | BroadcastAccept (slot ballot : Z) (cmd : Cmd)
  | BroadcastDecide (slot ballot : Z) (cmd : Cmd).

(** [commits_] counts the calls of [commit_callback_]. *)
Record MultiPaxosCoord := mk_pcoord {
  pc_phase_ : Z;
  pc_loc_id_ : Z;
  in_submission_ : bool;
  in_accept : bool;
  pc_cmd_ : option Cmd;
  curr_ballot_ : Z;
  n_replica_ : Z;
  slot_id_ : Z;
  n_prepare_ack_ : Z;
  n_finish_ack_ : Z;
  pc_committed_ : bool;
  commits_ : nat;
  broadcast_ : list PaxosMsg;
}.
#[export] Instance Eta_pcoord : Eta MultiPaxosCoord :=
  fun r => mk_pcoord (pc_phase_ r) (pc_loc_id_ r) (in_submission_ r) (in_accept r) (pc_cmd_ r) (curr_ballot_ r)
    (n_replica_ r) (slot_id_ r) (n_prepare_ack_ r) (n_finish_ack_ r) (pc_committed_ r) (commits_ r) (broadcast_ r).

Definition INIT_END : Z := 0.
Definition PREPARE : Z := 1.
Definition ACCEPT : Z := 2.
Definition COMMIT : Z := 3.

(** [CreateCoord]: the next slot, and the replicas of the partition *)
Definition new_pcoord (loc_id n_replica slot : Z) : MultiPaxosCoord :=
  mk_pcoord INIT_END loc_id false false None 1 n_replica slot 0 0 false 0 [].

Definition IsLeader (s : MultiPaxosCoord) : bool := pc_loc_id_ s =? 0.

Definition GetQuorum : M MultiPaxosCoord Z :=
  s ← get; verify (0 <? n_replica_ s);; mret (n_replica_ s / 2 + 1).

Definition pc_Prepare {A} : M MultiPaxosCoord A := abort.

Definition next_phase : M MultiPaxosCoord Z :=
  state (fun s => (pc_phase_ s, s <| pc_phase_ ::= fun p => u32 (p + 1) |>)).

Definition broadcast (m : PaxosMsg) : M MultiPaxosCoord () :=
  modify (fun s => s <| broadcast_ ::= fun l => l ++ [m] |>).

Definition pc_Accept : M MultiPaxosCoord () :=
  s ← get;
  verify (negb (in_accept s));;
  modify (fun s => s <| in_accept := true |>);;
  c ← from_option (pc_cmd_ s);
  broadcast (BroadcastAccept (slot_id_ s) (curr_ballot_ s) c).

(** At [COMMIT] the next phase has nothing to do. *)
Definition pc_Commit : M MultiPaxosCoord () :=
  modify (fun s => s <| commits_ ::= S |>);;
  s ← get;
  c ← from_option (pc_cmd_ s);
  broadcast (BroadcastDecide (slot_id_ s) (curr_ballot_ s) c);;
  verify (pc_phase_ s =? COMMIT);;
  _ ← next_phase; mret ().

Definition pc_GotoNextPhase : M MultiPaxosCoord () :=
  phase ← next_phase;
  s ← get;
  if phase mod 4 =? INIT_END then
    if IsLeader s then _ ← next_phase; pc_Accept else pc_Prepare
  else if phase mod 4 =? ACCEPT then
    verify (pc_phase_ s mod 4 =? COMMIT);;
    if pc_committed_ s then pc_Commit else abort
  else if phase mod 4 =? PREPARE then
    verify (pc_phase_ s mod 4 =? ACCEPT);; pc_Accept
  else mret ().

(** A ballot above ours: start over with a larger one. *)
Definition outbid (max_ballot : Z) : M MultiPaxosCoord () :=
  s ← get;
  when (curr_ballot_ s <? max_ballot)
    (modify (fun s => s <| curr_ballot_ := u64 (max_ballot + 1) |> <| pc_phase_ := INIT_END |>);;
     pc_GotoNextPhase).

Definition PrepareAck (phase max_ballot : Z) : M MultiPaxosCoord () :=
  s ← get;
  if negb (pc_phase_ s =? phase) then mret ()
  else if max_ballot =? curr_ballot_ s then
    modify (fun s => s <| n_prepare_ack_ ::= fun n => u32 (n + 1) |>);;
    s ← get;
    verify (n_prepare_ack_ s <=? n_replica_ s);;
    q ← GetQuorum;
    when (q <=? n_prepare_ack_ s) pc_GotoNextPhase
  else outbid max_ballot.

Definition AcceptAck (phase max_ballot : Z) : M MultiPaxosCoord () :=
  s ← get;
  if phase <? pc_phase_ s then mret ()
  else if max_ballot =? curr_ballot_ s then
    modify (fun s => s <| n_finish_ack_ ::= fun n => u32 (n + 1) |>);;
    s ← get;
    q ← GetQuorum;
    when (q <=? n_finish_ack_ s)
      (modify (fun s => s <| pc_committed_ := true |>);; pc_GotoNextPhase)
  else outbid max_ballot.

(** What [Log_fatal] of the logging library does is the first argument. *)
Definition Submit (Log_fatal : M MultiPaxosCoord ()) (cmd : Cmd) : M MultiPaxosCoord () :=
  s ← get;
  when (negb (IsLeader s)) Log_fatal;;
  verify (negb (in_submission_ s));;
  verify (bool_decide (pc_cmd_ s = None));;
  modify (fun s => s <| in_submission_ := true |> <| pc_cmd_ := Some cmd |>);;
  pc_GotoNextPhase.

(** ** The log is learned in slot order

    [cmd k] is the command decided for slot [k]. *)
Section log.
Context (cmd : Z -> Cmd).

(** A replica that has been told the decisions of the slots [D]. *)
Record log_inv (D : list Z) (s : MultiPaxosSched) : Prop := {
  li_exec : 0 <= max_executed_slot_ s;
  li_learned : learned_ s = cmd <$> seqZ 1 (max_executed_slot_ s);
  li_prefix : forall k, 1 <= k <= max_executed_slot_ s -> k ∈ D;
  li_kept : forall k, k ∈ D -> max_executed_slot_ s < k -> committed_cmd_ (exec_of s k) = Some (cmd k);
  li_told : forall k c, committed_cmd_ (exec_of s k) = Some c -> k ∈ D /\ c = cmd k;
  li_max : forall k, k ∈ D -> k <= max_committed_slot_ s;
  li_bound : max_committed_slot_ s < 2 ^ 64 - 1;
}.

(** The executors of two states remember the same commands. *)
Definition same_cmds (s s' : MultiPaxosSched) : Prop :=
  forall k, committed_cmd_ (exec_of s' k) = committed_cmd_ (exec_of s k).

Lemma get_or_create_done slot s :
  exists s', GetOrCreateExecutor slot s = Done (tt, s') /\ same_cmds s s' /\
    max_executed_slot_ s' = max_executed_slot_ s /\ max_committed_slot_ s' = max_committed_slot_ s /\
    learned_ s' = learned_ s /\ is_Some (executors_ s' !! slot).
Proof.
  unfold GetOrCreateExecutor. erewrite bind_eq by reflexivity. destruct (executors_ s !! slot) as [e|] eqn:E.
  - exists s. split_and!; try done.
  - rewrite bool_decide_true by done. unfold CreateExecutor. erewrite bind_eq by reflexivity.
    rewrite E. eexists. split; [reflexivity|]. split_and!; try done.
    + intros k. unfold exec_of. cbn. destruct (decide (k = slot)) as [->|].
      * by rewrite lookup_insert_eq, E.
      * by rewrite lookup_insert_ne.
    + cbn. by rewrite lookup_insert_eq.
Qed.

Lemma log_inv_same D s s' :
  log_inv D s -> same_cmds s s' -> max_executed_slot_ s' = max_executed_slot_ s ->
  max_committed_slot_ s' = max_committed_slot_ s -> learned_ s' = learned_ s -> log_inv D s'.
Proof. intros [] Hc E1 E2 E3. split; rewrite ?E1, ?E2, ?E3; try done; intros k; rewrite Hc; auto. Qed.

(** Learning one more slot that is known. *)
Lemma log_inv_learn D s :
  log_inv D s -> max_executed_slot_ s + 1 ∈ D -> max_executed_slot_ s + 1 < 2 ^ 64 - 1 ->
  log_inv D (s <| learned_ ::= fun l => l ++ [cmd (max_executed_slot_ s + 1)] |>
               <| max_executed_slot_ ::= fun n => u64 (n + 1) |>).
Proof.
  intros [] Hin Hb.
  assert (u64 (max_executed_slot_ s + 1) = max_executed_slot_ s + 1) as E by (apply wrap_u_id; unfold in_u; lia).
  split; unfold set_field; cbn -[wrap_u seqZ]; rewrite ?E; try done.
  - lia.
  - rewrite li_learned0, seqZ_app, fmap_app by lia. by rewrite (Z.add_comm 1).
  - intros k Hk. destruct (decide (k = max_executed_slot_ s + 1)) as [->|]; [done|]. apply li_prefix0. lia.
  - intros k Hk Hlt. apply li_kept0; [done | lia].
Qed.

Lemma learn_next_done D fuel s :
  log_inv D s -> max_committed_slot_ s - max_executed_slot_ s <= Z.of_nat fuel ->
  exists s', learn_next fuel (max_executed_slot_ s + 1) s = Done (tt, s') /\ log_inv D s' /\
    max_executed_slot_ s' + 1 ∉ D.
Proof.
  revert s. induction fuel as [|fuel IH]; intros s Hs Hfuel; cbn [learn_next];
    erewrite bind_eq by reflexivity; destruct (Z.leb_spec (max_executed_slot_ s + 1) (max_committed_slot_ s)).
  - lia.
  - exists s. split_and!; [done | done|]. intros Hin%(li_max D s Hs). lia.
  - destruct (get_or_create_done (max_executed_slot_ s + 1) s) as (s1 & E1 & Hc & X1 & X2 & X3 & _).
    assert (log_inv D s1) as H1 by (by eapply log_inv_same).
    rewrite (bind_eq _ _ _ _ _ E1). erewrite bind_eq by reflexivity. rewrite <- X1 in *.
    destruct (committed_cmd_ (exec_of s1 (max_executed_slot_ s1 + 1))) as [c|] eqn:Ec.
    + destruct (li_told D s1 H1 _ _ Ec) as [Hin ->]. pose proof (li_bound D s1 H1) as Hb.
      erewrite bind_eq by reflexivity. erewrite bind_eq by reflexivity.
      assert (u64 (max_executed_slot_ s1 + 1) = max_executed_slot_ s1 + 1) as E.
      { apply wrap_u_id. unfold in_u. pose proof (li_exec D s1 H1). lia. }
      edestruct IH as (s2 & E2 & H2); [by apply log_inv_learn; [done | done | lia] | |].
      { cbn -[wrap_u]. rewrite E. lia. }
      exists s2. split; [|exact H2]. rewrite <- E2. f_equal. cbn -[wrap_u]. rewrite E.
      apply wrap_u_id. unfold in_u. pose proof (li_exec D s1 H1). lia.
    + exists s1. split_and!; [done | done |]. intros Hin.
      rewrite (li_kept D s1 H1 _ Hin) in Ec; [done | lia].
  - exists s. split_and!; [done | done|]. intros Hin%(li_max D s Hs). lia.
Qed.

(** One more decision. *)
Lemma log_inv_tell D s slot :
  log_inv D s -> slot < 2 ^ 64 - 1 -> max_executed_slot_ s < slot ->
  forall s', max_executed_slot_ s' = max_executed_slot_ s -> learned_ s' = learned_ s ->
    max_committed_slot_ s' = Z.max (max_committed_slot_ s) slot ->
    (forall k, k ≠ slot -> committed_cmd_ (exec_of s' k) = committed_cmd_ (exec_of s k)) ->
    committed_cmd_ (exec_of s' slot) = Some (cmd slot) -> log_inv (slot :: D) s'.
Proof.
  intros [] Hb Hlt s' E1 E2 E3 Hc Hs. split; rewrite ?E1, ?E2, ?E3; try done.
  - intros k Hk. right. auto.
  - intros k Hk Hl. destruct (decide (k = slot)) as [->|]; [done|]. rewrite Hc by done.
    apply elem_of_cons in Hk as [?|?]; [done | auto].
  - intros k c Hk. destruct (decide (k = slot)) as [->|].
    + split; [by left|]. congruence.
    + rewrite Hc in Hk by done. apply li_told0 in Hk as [? ?]. split; [by right | done].
  - intros k [->|Hk%li_max0]%elem_of_cons; lia.
  - lia.
Qed.
(** A decision for the next slot to learn. *)
Lemma log_inv_now D s s' :
  log_inv D s -> let slot := max_executed_slot_ s + 1 in
  slot < 2 ^ 64 - 1 -> max_executed_slot_ s' = slot -> learned_ s' = learned_ s ++ [cmd slot] ->
  max_committed_slot_ s' = Z.max (max_committed_slot_ s) slot -> same_cmds s s' -> log_inv (slot :: D) s'.
Proof.
  intros [] slot Hb E1 E2 E3 Hc. split; rewrite ?E1, ?E2, ?E3; unfold slot in *; try lia.
  - rewrite li_learned0, seqZ_app, fmap_app by lia. by rewrite (Z.add_comm 1).
  - intros k Hk. destruct (decide (k = max_executed_slot_ s + 1)) as [->|]; [by left|]. right. apply li_prefix0. lia.
  - intros k [->|Hk]%elem_of_cons Hl; [lia|]. rewrite Hc. apply li_kept0; [done | lia].
  - intros k c Hk. rewrite Hc in Hk. apply li_told0 in Hk as [? ?]. split; [by right | done].
  - intros k [->|Hk%li_max0]%elem_of_cons; lia.
Qed.

Definition raise_committed (slot : Z) (s : MultiPaxosSched) : MultiPaxosSched :=
  if max_committed_slot_ s <? slot then s <| max_committed_slot_ := slot |> else s.

Lemma raise_committed_spec slot s :
  let s' := raise_committed slot s in
  max_executed_slot_ s' = max_executed_slot_ s /\ learned_ s' = learned_ s /\ executors_ s' = executors_ s /\
  max_committed_slot_ s' = Z.max (max_committed_slot_ s) slot.
Proof. unfold raise_committed. destruct (Z.ltb_spec (max_committed_slot_ s) slot); cbn; split_and!; try done; lia. Qed.

Lemma OnCommit_done D s slot :
  log_inv D s -> max_executed_slot_ s + 1 ∉ D -> slot ∉ D -> 1 <= slot < 2 ^ 64 - 1 ->
  exists s', OnCommit slot (cmd slot) s = Done (tt, s') /\ log_inv (slot :: D) s' /\
    max_executed_slot_ s' + 1 ∉ slot :: D.
Proof.
  intros Hs Hgap Hnew Hb. pose proof (li_exec D s Hs) as H0.
  assert (max_executed_slot_ s < slot) as Hlt.
  { destruct (Z.lt_ge_cases (max_executed_slot_ s) slot) as [|Hge]; [done|]. exfalso. apply Hnew.
    apply (li_prefix D s Hs). lia. }
  unfold OnCommit. erewrite bind_eq by reflexivity. fold (raise_committed slot s).
  destruct (raise_committed_spec slot s) as (R1 & R2 & R3 & R4). set (s1 := raise_committed slot s) in *.
  erewrite bind_eq by reflexivity. rewrite R1. destruct (Z.ltb_spec (max_executed_slot_ s) slot); [|lia].
  erewrite bind_eq by reflexivity.
  assert (u64 (max_executed_slot_ s + 1) = max_executed_slot_ s + 1) as E by (apply wrap_u_id; unfold in_u; lia).
  rewrite E. destruct (Z.eqb_spec slot (max_executed_slot_ s + 1)) as [->|Hne].
  - erewrite bind_eq by reflexivity. erewrite bind_eq by reflexivity.
    set (s2 := (s1 <| max_executed_slot_ ::= _ |>) <| learned_ ::= _ |>).
    assert (log_inv (max_executed_slot_ s + 1 :: D) s2) as H2.
    { apply (log_inv_now D s); [done | lia | | | done |]; unfold s2; cbn -[wrap_u]; rewrite ?R1, ?R2, ?E; try done.
      intros k. unfold exec_of. cbn. by rewrite R3. }
    destruct (learn_next_done _ (Z.to_nat (max_committed_slot_ s1 - (max_executed_slot_ s + 1))) s2 H2) as (s3 & E3 & H3).
    { unfold s2. cbn -[wrap_u]. rewrite R1, E. lia. }
    exists s3. split; [|done]. rewrite <- E3. f_equal. unfold s2. cbn -[wrap_u]. rewrite R1, E.
    apply wrap_u_id. unfold in_u. lia.
  - destruct (get_or_create_done slot s1) as (s2 & E2 & Hc & X1 & X2 & X3 & _).
    rewrite (bind_eq _ _ _ _ _ E2). eexists. split; [reflexivity|]. split.
    + apply (log_inv_tell D s); try done; try lia; unfold set_field; cbn; try congruence.
      * intros k Hk. unfold exec_of. cbn. rewrite lookup_insert_ne by done. fold (exec_of s2 k).
        rewrite Hc. unfold exec_of. by rewrite R3.
      * unfold exec_of. cbn. by rewrite lookup_insert_eq.
    + cbn. rewrite X1, R1. intros [?|?]%elem_of_cons; [lia | done].
Qed.

(** ** Runs of a replica *)

Inductive PaxosEvent :=
  | EvAccept (slot ballot : Z)
  | EvCommit (slot : Z).

Definition paxos_step (e : PaxosEvent) : M MultiPaxosSched () :=
  match e with
  | EvAccept slot ballot => _ ← OnAccept slot ballot; mret ()
  | EvCommit slot => OnCommit slot (cmd slot)
  end.

Definition committed_slots (es : list PaxosEvent) : list Z :=
  List.flat_map (fun e => match e with EvCommit slot => [slot] | _ => [] end) es.
Lemma log_inv_ext D D' s : (forall k, k ∈ D <-> k ∈ D') -> log_inv D s -> log_inv D' s.
Proof.
  intros Heq []. split; try done.
  - intros k Hk. apply Heq. auto.
  - intros k Hk. apply Heq in Hk. auto.
  - intros k c Hk. rewrite <- Heq. auto.
  - intros k Hk. apply Heq in Hk. auto.
Qed.

Lemma OnAccept_inv D slot ballot s r s' :
  OnAccept slot ballot s = Done (r, s') -> log_inv D s -> log_inv D s' /\ max_executed_slot_ s' = max_executed_slot_ s.
Proof.
  unfold OnAccept. intros Hrun Hs. destruct (get_or_create_done slot s) as (s1 & E1 & Hc & X1 & X2 & X3 & _).
  rewrite (bind_eq _ _ _ _ _ E1) in Hrun. unfold on_exec in Hrun.
  destruct (exec_Accept ballot (exec_of s1 slot)) as [[b e]| |] eqn:Ea; [|done..]. injection Hrun as <- <-.
  assert (committed_cmd_ e = committed_cmd_ (exec_of s1 slot)) as He.
  { unfold exec_Accept in Ea. run_inv Ea. injection E as <- <-. run_inv Ea.
    destruct (_ <=? _) in Ea; [|done]. injection Ea as _ <-. unfold verify in E.
    destruct (_ <? _) in E; [|done]. by injection E as <- <-. }
  split; [|done]. apply (log_inv_same D s); try done. intros k. rewrite <- Hc. unfold exec_of. cbn.
  destruct (decide (k = slot)) as [->|]; [by rewrite lookup_insert_eq | by rewrite lookup_insert_ne].
Qed.

Lemma paxos_run es D s s' :
  for_each es paxos_step s = Done (tt, s') ->
  log_inv D s -> max_executed_slot_ s + 1 ∉ D ->
  NoDup (committed_slots es) -> (forall k, k ∈ committed_slots es -> k ∉ D /\ 1 <= k < 2 ^ 64 - 1) ->
  log_inv (committed_slots es ++ D) s' /\ max_executed_slot_ s' + 1 ∉ committed_slots es ++ D.
Proof.
  revert D s. induction es as [|[slot ballot|slot] es IH]; intros D s Hrun Hs Hgap Hnd Hnew; cbn [for_each] in Hrun.
  - by injection Hrun as <-.
  - apply bind_done in Hrun as ([] & s1 & E & Hrun). apply bind_done in E as (r & s2 & E & [= <-]).
    apply (OnAccept_inv D) in E as [H2 Hm]; [|done]. eapply IH; try done. by rewrite Hm.
  - cbn [committed_slots List.flat_map app] in *. apply NoDup_cons in Hnd as [Hslot Hnd].
    destruct (Hnew slot) as [Hn Hb]; [by left|].
    destruct (OnCommit_done D s slot) as (s1 & E & H1 & Hg1); [done..|].
    rewrite (bind_eq _ _ _ _ _ E) in Hrun.
    assert (forall k, k ∈ committed_slots es ++ slot :: D <-> k ∈ slot :: committed_slots es ++ D) as Heq.
    { intros k. rewrite elem_of_cons, !elem_of_app, elem_of_cons. tauto. }
    destruct (IH (slot :: D) s1 Hrun H1 Hg1 Hnd) as [H2 Hg2].
    + intros k Hk. destruct (Hnew k) as [Hk1 Hk2]; [by right|]. split; [|done].
      intros [->|?]%elem_of_cons; done.
    + split; [by eapply log_inv_ext | by rewrite <- Heq].
Qed.

Lemma new_psched_inv : log_inv [] new_psched.
Proof.
  split; cbn; try done; intros k Hk; first [lia | by apply not_elem_of_nil in Hk].
Qed.

(** C22: in whatever order a replica is told the decisions of the
    slots, and whatever it accepts in between, what it has handed to the learner is
    the commands of the slots 1 to n in order, each once, where n is the largest
    number such that it knows the decisions of all these slots.  A further decision
    is taken in without failing, and one for a slot that was learned already fails a
    check. *)
Theorem learned_in_slot_order es s :
  for_each es paxos_step new_psched = Done (tt, s) ->
  NoDup (committed_slots es) -> Forall (fun k => 1 <= k < 2 ^ 64 - 1) (committed_slots es) ->
  exists n, 0 <= n /\ learned_ s = cmd <$> seqZ 1 n /\
    (forall k, 1 <= k <= n -> k ∈ committed_slots es) /\ n + 1 ∉ committed_slots es /\
    (forall k, 1 <= k < 2 ^ 64 - 1 -> k ∉ committed_slots es -> exists s', OnCommit k (cmd k) s = Done (tt, s')) /\
    (forall k c, k <= n -> OnCommit k c s = Aborted).
Proof.
  intros Hrun Hnd Hb. rewrite Forall_forall in Hb.
  destruct (paxos_run es [] new_psched s Hrun new_psched_inv) as [Hs Hg]; try done.
  - by apply not_elem_of_nil.
  - intros k Hk. split; [by apply not_elem_of_nil | auto].
  - rewrite app_nil_r in Hs, Hg. exists (max_executed_slot_ s). pose proof Hs as []. split_and!; try done.
    + intros k Hk Hn. destruct (OnCommit_done _ s k Hs Hg Hn Hk) as (s' & E & _). by exists s'.
    + intros k c Hk. unfold OnCommit. erewrite bind_eq by reflexivity. fold (raise_committed k s).
      erewrite bind_eq by reflexivity. destruct (raise_committed_spec k s) as (-> & _).
      unfold verify, mbind, M_bind. by destruct (Z.ltb_spec (max_executed_slot_ s) k); [lia|].
Qed.
End log.

(** ** The proposer *)

Section proposer.
Context (n slot : Z) (c : Cmd).

(** After [Submit], with [k] acknowledgements. *)
Definition proposing (k : Z) : MultiPaxosCoord :=
  mk_pcoord ACCEPT 0 true true (Some c) 1 n slot 0 k false 0 [BroadcastAccept slot 1 c].
Definition decided : MultiPaxosCoord :=
  mk_pcoord 4 0 true true (Some c) 1 n slot 0 (n / 2 + 1) true 1 [BroadcastAccept slot 1 c; BroadcastDecide slot 1 c].

Definition n_acks (acks : list Z) : Z := Z.of_nat (length (filter (fun b => b = 1) acks)).

Lemma Submit_proposing Log_fatal : Submit Log_fatal c (new_pcoord 0 n slot) = Done (tt, proposing 0).
Proof. reflexivity. Qed.

Lemma AcceptAck_proposing k b :
  0 < n < 2 ^ 32 -> 0 <= k <= n / 2 -> b <= 1 ->
  AcceptAck ACCEPT b (proposing k) =
    Done (tt, if b =? 1 then if k =? n / 2 then decided else proposing (k + 1) else proposing k).
Proof.
  intros Hn Hk Hb. unfold AcceptAck. erewrite bind_eq by reflexivity. cbn [pc_phase_ proposing curr_ballot_].
  change (ACCEPT <? ACCEPT) with false. destruct (Z.eqb_spec b 1) as [->|Hne]; cbn match.
  - erewrite bind_eq by reflexivity. erewrite bind_eq by reflexivity. unfold set_field.
    assert (n / 2 < n) by (apply Z.div_lt; lia).
    assert (u32 (k + 1) = k + 1) as E by (apply wrap_u_id; unfold in_u; lia).
    assert (forall s, n_replica_ s = n -> GetQuorum s = Done (n / 2 + 1, s)) as Hq.
    { intros s Hs. unfold GetQuorum. erewrite bind_eq by reflexivity. rewrite Hs.
      by destruct (Z.ltb_spec 0 n); [|lia]. }
    erewrite bind_eq by (by apply Hq). unfold proposing. cbn [n_finish_ack_ n_replica_]. rewrite E.
    destruct (Z.leb_spec (n / 2 + 1) (k + 1)), (Z.eqb_spec k (n / 2)); try lia; [subst k|]; reflexivity.
  - unfold outbid. erewrite bind_eq by reflexivity. cbn [curr_ballot_ proposing]. destruct (Z.ltb_spec 1 b); [lia | reflexivity].
Qed.

Lemma acks_decided acks : for_each acks (AcceptAck ACCEPT) decided = Done (tt, decided).
Proof. induction acks as [|b acks IH]; [done|]. cbn [for_each]. by erewrite bind_eq by reflexivity. Qed.

Lemma acks_proposing acks k :
  0 < n < 2 ^ 32 -> 0 <= k <= n / 2 -> Forall (fun b => b <= 1) acks ->
  for_each acks (AcceptAck ACCEPT) (proposing k) =
    Done (tt, if n / 2 <? k + n_acks acks then decided else proposing (k + n_acks acks)).
Proof.
  intros Hn. revert k. induction acks as [|b acks IH]; intros k Hk Hall; cbn [for_each].
  { unfold n_acks. cbn. rewrite Z.add_0_r. by destruct (Z.ltb_spec (n / 2) k); [lia|]. }
  apply Forall_cons in Hall as [Hb Hall]. rewrite (bind_eq _ _ _ _ _ (AcceptAck_proposing k b Hn Hk Hb)).
  unfold n_acks in *. rewrite filter_cons. destruct (Z.eqb_spec b 1) as [->|Hne].
  - rewrite decide_True by done. cbn [length]. destruct (Z.eqb_spec k (n / 2)) as [->|Hk'].
    + rewrite acks_decided. destruct (Z.ltb_spec (n / 2) (n / 2 + Z.of_nat (S (length (filter (fun b => b = 1) acks))))); [done | lia].
    + rewrite IH by (done || lia). by replace (k + Z.of_nat (S (length (filter (fun b => b = 1) acks))))
        with (k + 1 + Z.of_nat (length (filter (fun b => b = 1) acks))) by lia.
  - rewrite decide_False by done. by apply IH.
Qed.

(** C37: the leader's proposer of a slot asks the replicas to accept
    the command at ballot 1, and decides it, calling the commit callback once, exactly
    when more than half of the replicas have answered with that ballot; smaller
    ballots and acknowledgements after the decision change nothing.  A larger ballot
    before the decision fails a check. *)
Theorem decided_after_quorum Log_fatal acks :
  0 < n < 2 ^ 32 -> Forall (fun b => b <= 1) acks ->
  exists s, (Submit Log_fatal c;; for_each acks (AcceptAck ACCEPT)) (new_pcoord 0 n slot) = Done (tt, s) /\
    (broadcast_ s, commits_ s) =
      (if n <? 2 * n_acks acks then ([BroadcastAccept slot 1 c; BroadcastDecide slot 1 c], 1%nat)
       else ([BroadcastAccept slot 1 c], 0%nat)) /\
    (forall b, 1 < b -> AcceptAck ACCEPT b s = if n <? 2 * n_acks acks then Done (tt, s) else Aborted).
Proof.
  intros Hn Hall. rewrite (bind_eq _ _ _ _ _ (Submit_proposing Log_fatal)), (acks_proposing acks 0) by
    (done || (split; [lia | apply Z.div_pos; lia])).
  rewrite Z.add_0_l. assert ((n / 2 <? n_acks acks) = (n <? 2 * n_acks acks)) as ->.
  { pose proof (Z.div_mod n 2). pose proof (Z.mod_pos_bound n 2).
    destruct (Z.ltb_spec (n / 2) (n_acks acks)), (Z.ltb_spec n (2 * n_acks acks)); lia. }
  destruct (n <? 2 * n_acks acks); eexists; (split; [reflexivity|]); (split; [reflexivity|]); intros b Hb.
  - reflexivity.
  - unfold AcceptAck. erewrite bind_eq by reflexivity. cbn [pc_phase_ proposing curr_ballot_].
    change (ACCEPT <? ACCEPT) with false. destruct (Z.eqb_spec b 1); [lia|]. unfold outbid.
    erewrite bind_eq by reflexivity. cbn [curr_ballot_ proposing]. destruct (Z.ltb_spec 1 b); [reflexivity | lia].
Qed.
End proposer.
End paxos.

(** ** Instances *)

(** Decisions for the slots 2, 1 and 4, in this order, with an accept in between. *)
Definition demo_commits : list PaxosEvent := [EvCommit 2; EvAccept 1 1; EvCommit 1; EvCommit 4].
Definition demo_cmd (slot : Z) : Z := 10 * slot.
Definition demo_log : MultiPaxosSched :=
  match for_each demo_commits (paxos_step demo_cmd) new_psched with Done (_, s) => s | _ => new_psched end.

Lemma learned_in_slot_order_witness :
  learned_ demo_log = [10; 20] /\
  exists n, 0 <= n /\ learned_ demo_log = demo_cmd <$> seqZ 1 n /\
    (forall k, 1 <= k <= n -> k ∈ committed_slots demo_commits) /\ n + 1 ∉ committed_slots demo_commits /\
    (forall k, 1 <= k < 2 ^ 64 - 1 -> k ∉ committed_slots demo_commits ->
       exists s', OnCommit k (demo_cmd k) demo_log = Done (tt, s')) /\
    (forall k c, k <= n -> OnCommit k c demo_log = Aborted).
Proof.
  split; [vm_compute; reflexivity|].
  apply (learned_in_slot_order demo_cmd demo_commits demo_log).
  - vm_compute. reflexivity.
  - apply (bool_decide_unpack _). vm_compute. exact I.
  - repeat constructor; lia.
Defined.

(** Three replicas, two of which answer. *)
Lemma decided_after_quorum_witness :
  exists s, (Submit abort 5;; for_each [1; 0; 1] (AcceptAck ACCEPT)) (new_pcoord 0 3 7) = Done (tt, s) /\
    (broadcast_ s, commits_ s) =
      (if 3 <? 2 * n_acks [1; 0; 1] then ([BroadcastAccept 7 1 5; BroadcastDecide 7 1 5], 1%nat)
       else ([BroadcastAccept 7 1 5], 0%nat)) /\
    (forall b, 1 < b -> AcceptAck ACCEPT b s = if 3 <? 2 * n_acks [1; 0; 1] then Done (tt, s) else Aborted).
Proof. apply (decided_after_quorum 3 7 5 abort [1; 0; 1]); [lia | repeat constructor; lia]. Defined.
