(* ===== verification/ALock.v ===== *)
(** * Queued locks: [rrr::ALock] and [WaitDieALock]
    (src/rrr/misc/alock.hpp, src/rrr/misc/alock.cpp)

    An [ALock] is a read/write lock with a queue of requests, each answered by a
    callback: [yes] when it gets the lock, [no] when it is turned away.  This file has
    the parts that [WaitDieALock] and [WoundDieALock] have in common, the wait-die
    policy, its invariant and its freedom from deadlock.

    A callback runs when the lock has already been updated; [called_] lists the
    callbacks in the order in which they are made. *)
From stdpp Require Import base tactics numbers list relations sorting.
From S2P Require Import Prelude.

Inductive type_t := RLOCK | WLOCK.
Inductive lock_status_t := FREE | WLOCKED | RLOCKED.
Inductive lock_req_status_t := WAIT | LOCK.

#[export] Instance type_t_dec : EqDecision type_t.
Proof. solve_decision. Defined.
#[export] Instance lock_status_t_dec : EqDecision lock_status_t.
Proof. solve_decision. Defined.
#[export] Instance lock_req_status_t_dec : EqDecision lock_req_status_t.
Proof. solve_decision. Defined.

(** A request; a lower value of [req_priority] is a higher priority. *)
Record lock_req_t := mk_req {
  req_id : Z;
  req_priority : Z;
  req_type : type_t;
  req_status : lock_req_status_t;
}.
#[export] Instance Eta_req : Eta lock_req_t :=
  fun r => mk_req (req_id r) (req_priority r) (req_type r) (req_status r).

Inductive callback_t := Yes (id : Z) | No (id : Z).

(** The counters of the queue belong to [WaitDieALock] only; they and [n_rlock_] never
    exceed the length of the queue. *)
Record ALock := mk_alock {
  next_id_ : Z;
  lock_status_ : lock_status_t;
  n_rlock_ : Z;
  done_ : bool;
  requests_ : list lock_req_t;
  n_r_in_queue_ : Z;
  n_w_in_queue_ : Z;
  called_ : list callback_t;
}.
#[export] Instance Eta_alock : Eta ALock :=
  fun r => mk_alock (next_id_ r) (lock_status_ r) (n_rlock_ r) (done_ r) (requests_ r)
    (n_r_in_queue_ r) (n_w_in_queue_ r) (called_ r).

Definition new_ALock : ALock := mk_alock 1 FREE 0 false [] 0 0 [].

Definition get_next_id : M ALock Z :=
  state (fun s => (next_id_ s, s <| next_id_ ::= fun n => u64 (n + 1) |>)).

Definition call (c : callback_t) : M ALock () := modify (fun s => s <| called_ ::= fun l => l ++ [c] |>).

Definition is_free (s : ALock) : bool := bool_decide (lock_status_ s = FREE).
Definition is_rlocked (s : ALock) : bool := bool_decide (lock_status_ s = RLOCKED).
Definition is_r (r : lock_req_t) : bool := bool_decide (req_type r = RLOCK).
Definition is_w (r : lock_req_t) : bool := bool_decide (req_type r = WLOCK).
Definition is_waiting (r : lock_req_t) : bool := bool_decide (req_status r = WAIT).

(** ** Granting requests

    A reference to a request is its position in the queue. *)

Definition lock_it (r : lock_req_t) : lock_req_t := r <| req_status := LOCK |>.

Definition lock_at (i : nat) : M ALock () := modify (fun s => s <| requests_ ::= alter lock_it i |>).

Definition write_acquire (i : nat) : M ALock () :=
  s ← get;
  r ← from_option (requests_ s !! i);
  verify (is_w r && is_waiting r);;
  modify (fun s => s <| lock_status_ := WLOCKED |>);;
  lock_at i;;
  call (Yes (req_id r)).

Definition read_acquire (i : nat) : M ALock () :=
  s ← get;
  r ← from_option (requests_ s !! i);
  verify (is_r r && is_waiting r);;
  modify (fun s => if n_rlock_ s =? 0 then s <| lock_status_ := RLOCKED |> else s);;
  modify (fun s => s <| n_rlock_ ::= Z.succ |>);;
  lock_at i;;
  call (Yes (req_id r)).

(** The loop of [read_acquire] over several requests, and the calls after it. *)
Fixpoint lock_reads (is_ : list nat) : M ALock (list callback_t) :=
  match is_ with
  | [] => mret []
  | i :: is_ =>
    s ← get;
    r ← from_option (requests_ s !! i);
    verify (is_r r && is_waiting r);;
    lock_at i;;
    to_calls ← lock_reads is_;
    mret (Yes (req_id r) :: to_calls)
  end.

Definition read_acquire_all (lock_reqs : list nat) : M ALock () :=
  match lock_reqs with
  | [] => mret ()
  | _ =>
    modify (fun s => if n_rlock_ s =? 0 then s <| lock_status_ := RLOCKED |> else s);;
    modify (fun s => s <| n_rlock_ ::= Z.add (Z.of_nat (length lock_reqs)) |>);;
    to_calls ← lock_reads lock_reqs;
    for_each to_calls call
  end.

(** The read requests from position [i] up to the next write request. *)
Fixpoint read_run (i : nat) (l : list lock_req_t) : list nat :=
  match l with
  | [] => []
  | r :: l => if is_r r then i :: read_run (S i) l else []
  end.

(** The request [id]: its position, and the number of write requests before it. *)
Fixpoint find_req (id : Z) (l : list lock_req_t) (i : nat) (n_w : Z) : option (nat * Z) :=
  match l with
  | [] => None
  | r :: l =>
    if req_id r =? id then Some (i, n_w) else find_req id l (S i) (if is_w r then n_w + 1 else n_w)
  end.

Definition erase_at (i : nat) : M ALock () := modify (fun s => s <| requests_ ::= delete i |>).

(** The end of [abort] for a write lock: the requests from position [i] on. *)
Definition after_write (i : nat) : M ALock () :=
  s ← get;
  match requests_ s !! i with
  | None =>
    modify (fun s => s <| lock_status_ := FREE |>);;
    verify (Nat.eqb (length (requests_ s)) 0)
  | Some r =>
    if is_w r then write_acquire i
    else
      read_acquire_all (read_run i (drop i (requests_ s)));;
      s ← get;
      verify (is_rlocked s)
  end.

(** The end of [abort] for a read lock. *)
Definition after_read (i : nat) : M ALock () :=
  s ← get;
  when (n_rlock_ s =? 0)
    (match requests_ s !! i with
     | None =>
       modify (fun s => s <| lock_status_ := FREE |>);;
       verify (Nat.eqb (length (requests_ s)) 0)
     | Some _ => write_acquire i
     end).

(** The end of [abort] for a waiting write request at position [i]: if no write
    request was before it, the lock is read locked. *)
Definition after_waiting_write (i : nat) (n_w_before_this : Z) : M ALock () :=
  when (n_w_before_this =? 0)
    (s ← get;
     verify (is_rlocked s);;
     read_acquire_all (read_run i (drop i (requests_ s)))).

(** ** Wait-die *)

(** [None] is the [verify(0)] at the end. *)
Fixpoint wait_die (type : type_t) (priority : Z) (rev_requests : list lock_req_t) : option bool :=
  match type, rev_requests with
  | WLOCK, [] => Some true
  | WLOCK, r :: l =>
    if priority >=? req_priority r then Some false else if is_w r then Some true else wait_die type priority l
  | RLOCK, [] => None
  | RLOCK, r :: l => if is_w r then Some (priority <? req_priority r) else wait_die type priority l
  end.

Definition enqueue (id priority : Z) (type : type_t) : M ALock () :=
  modify (fun s => s <| requests_ ::= fun l => l ++ [mk_req id priority type WAIT] |>).

Definition count_in (type : type_t) : M ALock () :=
  modify (fun s => match type with
    | RLOCK => s <| n_r_in_queue_ ::= Z.succ |>
    | WLOCK => s <| n_w_in_queue_ ::= Z.succ |>
    end).

Definition count_out (type : type_t) : M ALock () :=
  modify (fun s => match type with
    | RLOCK => s <| n_r_in_queue_ ::= Z.pred |>
    | WLOCK => s <| n_w_in_queue_ ::= Z.pred |>
    end).

Definition wd_vlock (type : type_t) (priority : Z) : M ALock Z :=
  id ← get_next_id;
  s ← get;
  if done_ s then call (No id);; mret id
  else if is_free s || (is_rlocked s && bool_decide (type = RLOCK) && (n_w_in_queue_ s =? 0)) then
    enqueue id priority type;;
    count_in type;;
    match type with
    | RLOCK => read_acquire (length (requests_ s))
    | WLOCK => write_acquire (length (requests_ s))
    end;;
    mret id
  else
    wait ← from_option (wait_die type priority (rev (requests_ s)));
    (if (wait : bool) then enqueue id priority type;; count_in type else call (No id));;
    mret id.

Definition wd_abort (id : Z) : M ALock () :=
  s ← get;
  if done_ s then mret ()
  else
    match find_req id (requests_ s) 0 0 with
    | None => mret ()
    | Some (i, n_w_before_this) =>
      r ← from_option (requests_ s !! i);
      if is_waiting r then
        erase_at i;;
        count_out (req_type r);;
        when (is_w r) (after_waiting_write i n_w_before_this);;
        call (No (req_id r))
      else
        count_out (req_type r);;
        when (is_r r) (modify (fun s => s <| n_rlock_ ::= Z.pred |>));;
        erase_at i;;
        if is_r r then after_read i else after_write i
    end.

(** The destructor: whoever still waits is turned away. *)
Definition wd_destroy : M ALock () :=
  s ← get;
  verify (negb (done_ s));;
  modify (fun s => s <| done_ := true |>);;
  verify (negb (is_rlocked s));;
  for_each (requests_ s) (fun r => when (is_waiting r) (call (No (req_id r))));;
  modify (fun s => s <| requests_ := [] |>).

(** ** [sanity_check], the author's own check of the queue *)

Record sanity := mk_sanity {
  acquired_check : bool;
  big : Z;
  tmp_big : Z;
  n_r_locked : Z;
  num_w : Z;
  num_r : Z;
}.

Definition sanity_one (st : lock_status_t) (n_rlock : Z) (first : bool) (a : sanity) (it : lock_req_t) : option sanity :=
  '(acq, n) ← (if acquired_check a then if is_waiting it then Some (true, n_r_locked a) else None
    else match st with
    | WLOCKED => if first && is_w it && negb (is_waiting it) then Some (true, n_r_locked a) else None
    | RLOCKED =>
      if is_r it then if negb (is_waiting it) then Some (false, n_r_locked a + 1) else None
      else if is_waiting it && (n_r_locked a =? n_rlock) then Some (true, n_r_locked a) else None
    | FREE => None
    end);
  if negb (req_priority it <? big a) then None
  else if is_r it then
    Some (mk_sanity acq (big a)
      (if tmp_big a =? -1 then req_priority it
       else if req_priority it <? tmp_big a then req_priority it else tmp_big a) n (num_w a) (num_r a + 1))
  else if tmp_big a =? -1 then Some (mk_sanity acq (req_priority it) (tmp_big a) n (num_w a + 1) (num_r a))
  else if req_priority it <? tmp_big a then Some (mk_sanity acq (tmp_big a) (-1) n (num_w a + 1) (num_r a))
  else None.

Fixpoint sanity_loop (st : lock_status_t) (n_rlock : Z) (first : bool) (a : sanity) (l : list lock_req_t) :
    option sanity :=
  match l with
  | [] => Some a
  | it :: l => a ← sanity_one st n_rlock first a it; sanity_loop st n_rlock false a l
  end.

(** Whether all the [verify]s pass. *)
Definition wd_sanity_check (s : ALock) : bool :=
  (if is_free s then Nat.eqb (length (requests_ s)) 0 else true) &&
  match sanity_loop (lock_status_ s) (n_rlock_ s) true (mk_sanity false (2 ^ 63 - 1) (-1) 0 0 0) (requests_ s) with
  | Some a => (num_w a =? n_w_in_queue_ s) && (num_r a =? n_r_in_queue_ s)
  | None => false
  end.

(** ** The shape of the queue

    The requests that hold the lock come first; those that wait follow, and the first
    of them conflicts with the holders. *)
Definition waiting (r : lock_req_t) : Prop := req_status r = WAIT.
Definition reading (r : lock_req_t) : Prop := req_type r = RLOCK /\ req_status r = LOCK.
Definition writing (r : lock_req_t) : Prop := req_type r = WLOCK /\ req_status r = LOCK.
Definition starts_with_write (l : list lock_req_t) : Prop := forall r, head l = Some r -> req_type r = WLOCK.

Inductive shape : lock_status_t -> Z -> list lock_req_t -> Prop :=
  | shape_free : shape FREE 0 []
  | shape_write r w : writing r -> Forall waiting w -> shape WLOCKED 0 (r :: w)
  | shape_read g w : g ≠ [] -> Forall reading g -> Forall waiting w -> starts_with_write w ->
      shape RLOCKED (Z.of_nat (length g)) (g ++ w).

Lemma shape_readers g : g ≠ [] -> Forall reading g -> shape RLOCKED (Z.of_nat (length g)) g.
Proof. intros Hne Hg. pose proof (shape_read g [] Hne Hg) as Hs. rewrite app_nil_r in Hs. by apply Hs. Qed.

Lemma shape_free_inv n l : shape FREE n l -> n = 0 /\ l = [].
Proof. by inversion 1. Qed.
Lemma shape_write_inv n l : shape WLOCKED n l -> n = 0 /\ exists r w, l = r :: w /\ writing r /\ Forall waiting w.
Proof. inversion 1; eauto 6. Qed.
Lemma shape_read_inv n l :
  shape RLOCKED n l -> exists g w, l = g ++ w /\ n = Z.of_nat (length g) /\ g ≠ [] /\ Forall reading g /\
    Forall waiting w /\ starts_with_write w.
Proof. inversion 1. eauto 10. Qed.

(** What granting a request does not change. *)
Definition req_key (r : lock_req_t) : Z * Z * type_t := (req_id r, req_priority r, req_type r).

(** ** What the granting operations do *)


Lemma alter_middle {A} (f : A -> A) (a b : list A) x : alter f (length a) (a ++ x :: b) = a ++ f x :: b.
Proof. induction a as [|y a IH]; simpl; [done | by f_equal]. Qed.

Lemma write_acquire_eq a r b s :
  requests_ s = a ++ r :: b -> req_type r = WLOCK -> waiting r ->
  write_acquire (length a) s = Done (tt, s <| lock_status_ := WLOCKED |> <| requests_ := a ++ lock_it r :: b |>
    <| called_ ::= fun l => l ++ [Yes (req_id r)] |>).
Proof.
  intros E Ht Hw. unfold write_acquire. erewrite bind_eq by reflexivity.
  rewrite E, list_lookup_middle by done. erewrite bind_eq by reflexivity.
  unfold is_w, is_waiting. rewrite !bool_decide_true by done. erewrite bind_eq by reflexivity.
  erewrite bind_eq by reflexivity. erewrite bind_eq by reflexivity. unfold call, modify, set_field. cbn.
  by rewrite E, alter_middle.
Qed.

(** Granting the first waiting request, a write request. *)
Lemma grant_write s r w :
  requests_ s = r :: w -> req_type r = WLOCK -> waiting r ->
  write_acquire 0 s = Done (tt, s <| lock_status_ := WLOCKED |> <| requests_ := lock_it r :: w |>
    <| called_ ::= fun l => l ++ [Yes (req_id r)] |>).
Proof. apply (write_acquire_eq []). Qed.

Definition read_status (s : ALock) : ALock := if n_rlock_ s =? 0 then s <| lock_status_ := RLOCKED |> else s.

Lemma read_acquire_eq a r b s :
  requests_ s = a ++ r :: b -> req_type r = RLOCK -> waiting r ->
  read_acquire (length a) s = Done (tt, (read_status s) <| n_rlock_ ::= Z.succ |> <| requests_ := a ++ lock_it r :: b |>
    <| called_ ::= fun l => l ++ [Yes (req_id r)] |>).
Proof.
  intros E Ht Hw. unfold read_acquire. erewrite bind_eq by reflexivity.
  rewrite E, list_lookup_middle by done. erewrite bind_eq by reflexivity.
  unfold is_r, is_waiting. rewrite !bool_decide_true by done. erewrite bind_eq by reflexivity.
  erewrite bind_eq by reflexivity. erewrite bind_eq by reflexivity. erewrite bind_eq by reflexivity.
  unfold call, modify, read_status, set_field.
  destruct (n_rlock_ s =? 0); cbn; by rewrite E, alter_middle.
Qed.

Lemma lock_reads_eq a b c s :
  requests_ s = a ++ b ++ c -> Forall (fun r => req_type r = RLOCK /\ waiting r) b ->
  lock_reads (seq (length a) (length b)) s =
    Done ((fun r => Yes (req_id r)) <$> b, s <| requests_ := a ++ (lock_it <$> b) ++ c |>).
Proof.
  revert a s. induction b as [|r b IH]; intros a s E Hb; cbn [length seq lock_reads fmap list_fmap].
  { rewrite app_nil_l in *. rewrite <- E. by destruct s. }
  rewrite <- app_comm_cons in E.
  apply Forall_cons in Hb as [[Ht Hw] Hb]. erewrite bind_eq by reflexivity.
  rewrite E, list_lookup_middle by done. erewrite bind_eq by reflexivity.
  unfold is_r, is_waiting. rewrite !bool_decide_true by done. erewrite bind_eq by reflexivity.
  erewrite bind_eq by reflexivity.
  pose proof (IH (a ++ [lock_it r]) (s <| requests_ ::= alter lock_it (length a) |>)) as IH'.
  rewrite length_app in IH'. cbn [length] in IH'. rewrite Nat.add_1_r in IH'.
  erewrite bind_eq; [|apply IH'; [|done]].
  - unfold set_field. cbn. by rewrite <- app_assoc.
  - unfold set_field. cbn. rewrite E. cbn. by rewrite alter_middle, <- app_assoc.
Qed.

Lemma calls_eq cs s : for_each cs call s = Done (tt, s <| called_ ::= fun l => l ++ cs |>).
Proof.
  revert s. induction cs as [|c cs IH]; intros s; cbn [for_each].
  { unfold set_field. cbn. rewrite app_nil_r. by destruct s. }
  erewrite bind_eq by reflexivity. rewrite IH. unfold set_field. cbn. by rewrite <- app_assoc.
Qed.

Lemma read_acquire_all_eq a b c s :
  requests_ s = a ++ b ++ c -> b ≠ [] -> Forall (fun r => req_type r = RLOCK /\ waiting r) b ->
  read_acquire_all (seq (length a) (length b)) s =
    Done (tt, (read_status s) <| n_rlock_ ::= Z.add (Z.of_nat (length b)) |>
      <| requests_ := a ++ (lock_it <$> b) ++ c |>
      <| called_ ::= fun l => l ++ ((fun r => Yes (req_id r)) <$> b) |>).
Proof.
  intros E Hne Hb. unfold read_acquire_all. destruct (seq (length a) (length b)) as [|i l] eqn:Es.
  { by destruct b. }
  rewrite <- Es. erewrite bind_eq by reflexivity. erewrite bind_eq by reflexivity.
  rewrite length_seq. fold (read_status s).
  erewrite bind_eq; [|apply (lock_reads_eq a b c); [|done]].
  - rewrite calls_eq. reflexivity.
  - unfold read_status. by destruct (n_rlock_ s =? 0).
Qed.

(** The requests that [read_run] collects. *)
Lemma read_run_split i l :
  exists b c, l = b ++ c /\ read_run i l = seq i (length b) /\ Forall (fun r => req_type r = RLOCK) b /\ starts_with_write c.
Proof.
  revert i. induction l as [|r l IH]; intros i; cbn [read_run]; [by exists [], []|].
  unfold is_r. case_bool_decide as Ht.
  - destruct (IH (S i)) as (b & c & -> & -> & Hb & Hc). exists (r :: b), c. split_and!; try done. by constructor.
  - exists [], (r :: l). split_and!; try done. intros r' [= <-]. by destruct (req_type r).
Qed.

Definition n_writes (l : list lock_req_t) : Z := Z.of_nat (length (filter (fun r => req_type r = WLOCK) l)).
Definition n_reads (l : list lock_req_t) : Z := Z.of_nat (length (filter (fun r => req_type r = RLOCK) l)).

Lemma n_writes_cons r l : n_writes (r :: l) = (if is_w r then 1 else 0) + n_writes l.
Proof. unfold n_writes, is_w. rewrite filter_cons. case_decide; case_bool_decide; try done. cbn [length]. lia. Qed.
Lemma n_reads_cons r l : n_reads (r :: l) = (if is_r r then 1 else 0) + n_reads l.
Proof. unfold n_reads, is_r. rewrite filter_cons. case_decide; case_bool_decide; try done. cbn [length]. lia. Qed.
Lemma n_writes_nonneg l : 0 <= n_writes l.
Proof. unfold n_writes. lia. Qed.
Lemma n_writes_write r l : req_type r = WLOCK -> 0 < n_writes (r :: l).
Proof.
  intros Ht. rewrite n_writes_cons. unfold is_w. rewrite bool_decide_true by done.
  pose proof (n_writes_nonneg l). lia.
Qed.
Lemma n_writes_readers g : Forall (fun r => req_type r = RLOCK) g -> n_writes g = 0.
Proof. induction 1 as [|r g Hr Hg IH]; [done|]. rewrite n_writes_cons, IH. unfold is_w. by rewrite Hr. Qed.
Lemma n_writes_app l k : n_writes (l ++ k) = n_writes l + n_writes k.
Proof. unfold n_writes. rewrite filter_app, length_app. lia. Qed.
Lemma n_reads_app l k : n_reads (l ++ k) = n_reads l + n_reads k.
Proof. unfold n_reads. rewrite filter_app, length_app. lia. Qed.

Lemma n_writes_zero l : n_writes l = 0 -> Forall (fun r => req_type r = RLOCK) l.
Proof.
  induction l as [|r l IH]; [constructor|]. rewrite n_writes_cons. unfold is_w. intros Hn.
  pose proof (n_writes_nonneg l). case_bool_decide as Ht; [lia|].
  constructor; [by destruct (req_type r) | apply IH; lia].
Qed.

Lemma find_req_spec id l i0 n0 i n :
  find_req id l i0 n0 = Some (i, n) ->
  exists a r b, l = a ++ r :: b /\ i = (i0 + length a)%nat /\ req_id r = id /\ n = n0 + n_writes a.
Proof.
  revert i0 n0. induction l as [|r l IH]; intros i0 n0; cbn [find_req]; [done|].
  destruct (Z.eqb_spec (req_id r) id) as [<-|Hne].
  - intros [= <- <-]. exists [], r, l. unfold n_writes. cbn. split_and!; [done | lia | done | lia].
  - intros (a & r' & b & -> & -> & Hr & ->)%IH. exists (r :: a), r', b. rewrite n_writes_cons. cbn [length].
    split_and!; [done | lia | done | destruct (is_w r); lia].
Qed.

Lemma find_req_none id l i n : find_req id l i n = None -> id ∉ req_id <$> l.
Proof.
  revert i n. induction l as [|r l IH]; intros i n; cbn [find_req]; [intros _; apply not_elem_of_nil|].
  destruct (Z.eqb_spec (req_id r) id); [done|]. intros Hn%IH. rewrite fmap_cons.
  intros [->|?]%elem_of_cons; done.
Qed.

(** ** Some waiting requests are granted, and nothing else changes. *)
Definition granted (s s' : ALock) : Prop :=
  exists a b c, requests_ s = a ++ b ++ c /\ requests_ s' = a ++ (lock_it <$> b) ++ c /\ Forall waiting b /\
    called_ s' = called_ s ++ ((fun r => Yes (req_id r)) <$> b) /\ next_id_ s' = next_id_ s /\ done_ s' = done_ s /\
    n_r_in_queue_ s' = n_r_in_queue_ s /\ n_w_in_queue_ s' = n_w_in_queue_ s.

Definition well_shaped (s : ALock) : Prop := shape (lock_status_ s) (n_rlock_ s) (requests_ s).

Lemma granted_none s s' :
  requests_ s' = requests_ s -> called_ s' = called_ s -> next_id_ s' = next_id_ s -> done_ s' = done_ s ->
  n_r_in_queue_ s' = n_r_in_queue_ s -> n_w_in_queue_ s' = n_w_in_queue_ s -> granted s s'.
Proof.
  intros. exists (requests_ s), [], []. rewrite !app_nil_r. split_and!; try done.
Qed.

Lemma reading_locked b : Forall (fun r => req_type r = RLOCK /\ waiting r) b -> Forall reading (lock_it <$> b).
Proof. intros Hb. apply Forall_fmap. eapply Forall_impl; [exact Hb|]. by intros r [? _]. Qed.

(** Granting the reads at the front of the waiting requests. *)
Lemma grant_reads s g w :
  requests_ s = g ++ w -> n_rlock_ s = Z.of_nat (length g) -> (g ≠ [] -> lock_status_ s = RLOCKED) ->
  Forall reading g -> Forall waiting w -> g ≠ [] \/ (exists r w', w = r :: w' /\ req_type r = RLOCK) ->
  exists s', read_acquire_all (read_run (length g) w) s = Done (tt, s') /\ granted s s' /\ well_shaped s' /\
    lock_status_ s' = RLOCKED.
Proof.
  intros E Hn Hst Hg Hw Hsome. destruct (read_run_split (length g) w) as (b & c & -> & Eb & Hb & Hc).
  apply Forall_app in Hw as [Hwb Hwc]. rewrite Eb.
  assert (Forall (fun r => req_type r = RLOCK /\ waiting r) b) as Hb2 by (by apply Forall_and).
  destruct (decide (b = [])) as [->|Hne].
  - destruct Hsome as [Hgne|(r & w' & Ew & Hr)].
    + exists s. split_and!; [done | by apply granted_none | | by apply Hst].
      unfold well_shaped. rewrite Hst, Hn, E by done. by apply shape_read.
    + exfalso. cbn in Ew. subst c. specialize (Hc r eq_refl). congruence.
  - rewrite (read_acquire_all_eq g b c) by done. eexists. split; [done|]. unfold read_status.
    assert (forall s0 : ALock, lock_status_ s0 = RLOCKED -> requests_ s0 = g ++ (lock_it <$> b) ++ c ->
      n_rlock_ s0 = Z.of_nat (length b) + Z.of_nat (length g) -> well_shaped s0) as Hshape.
    { intros s0 E1 E2 E3. unfold well_shaped. rewrite E1, E2, E3, app_assoc.
      replace (Z.of_nat (length b) + Z.of_nat (length g)) with (Z.of_nat (length (g ++ (lock_it <$> b))))
        by (rewrite length_app, length_fmap; lia).
      apply shape_read; [by destruct g, b | | done | done]. apply Forall_app. split; [done | by apply reading_locked]. }
    destruct (Z.eqb_spec (n_rlock_ s) 0) as [Hz|Hz]; unfold set_field; cbn.
    + split_and!; [|apply Hshape; cbn; [done | done | lia] | done].
      exists g, b, c. split_and!; try done.
    + assert (g ≠ []) as Hgne by (intros ->; done).
      split_and!; [|apply Hshape; cbn; [by apply Hst | done | lia] | by apply Hst].
      exists g, b, c. split_and!; try done.
Qed.

Lemma after_write_done s :
  Forall waiting (requests_ s) -> n_rlock_ s = 0 ->
  exists s', after_write 0 s = Done (tt, s') /\ granted s s' /\ well_shaped s'.
Proof.
  intros Hw Hn. unfold after_write. erewrite bind_eq by reflexivity.
  destruct (requests_ s) as [|r w] eqn:E; cbn [lookup list_lookup].
  - erewrite bind_eq by reflexivity. eexists. split; [reflexivity|]. split; [by apply granted_none|].
    unfold well_shaped. cbn. rewrite E, Hn. constructor.
  - destruct (is_w r) eqn:Ew.
    + apply bool_decide_eq_true in Ew. apply Forall_cons in Hw as [Hr Hw].
      rewrite (grant_write s r w) by done. eexists. split; [done|]. split.
      * exists [], [r], w. unfold set_field. cbn. split_and!; try done. by constructor.
      * unfold well_shaped. cbn. rewrite Hn. by apply shape_write.
    + apply bool_decide_eq_false in Ew. rewrite drop_0.
      destruct (grant_reads s [] (r :: w)) as (s' & E' & Hg & Hs & Hst); try done.
      { right. exists r, w. split; [done|]. by destruct (req_type r). }
      rewrite (bind_eq _ _ _ _ _ E'). erewrite bind_eq by reflexivity. exists s'.
      unfold is_rlocked. by rewrite bool_decide_true.
Qed.

(** [g] are the readers left. *)
Lemma after_read_done s i g w :
  requests_ s = g ++ w -> lock_status_ s = RLOCKED -> n_rlock_ s = Z.of_nat (length g) -> (g = [] -> i = 0%nat) ->
  Forall reading g -> Forall waiting w -> starts_with_write w ->
  exists s', after_read i s = Done (tt, s') /\ granted s s' /\ well_shaped s'.
Proof.
  intros E Hst Hn Hi Hg Hw Hs. unfold after_read. erewrite bind_eq by reflexivity. rewrite Hn.
  destruct (Z.eqb_spec (Z.of_nat (length g)) 0) as [Hz|Hz]; cbn [when].
  - assert (g = []) as -> by (by destruct g). rewrite Hi by done. rewrite app_nil_l in E. rewrite E.
    destruct w as [|r w]; cbn [lookup list_lookup].
    + erewrite bind_eq by reflexivity. eexists. split; [reflexivity|]. split; [by apply granted_none|].
      unfold well_shaped. cbn. rewrite E, Hn. constructor.
    + apply Forall_cons in Hw as [Hr Hw]. pose proof (Hs r eq_refl) as Ht. rewrite (grant_write s r w) by done.
      eexists. split; [done|]. split.
      * exists [], [r], w. unfold set_field. cbn. split_and!; try done. by constructor.
      * unfold well_shaped. cbn. rewrite Hn. by apply shape_write.
  - exists s. split_and!; [done | by apply granted_none |]. unfold well_shaped. rewrite Hst, E, Hn.
    apply shape_read; try done. by intros ->.
Qed.

(** ** Callbacks

    Every request is answered at most once: a waiting request has not been answered,
    a request that holds the lock has been answered with [Yes]. *)
Definition cb_id (c : callback_t) : Z := match c with Yes id | No id => id end.

Record answers (next : Z) (l : list lock_req_t) (cs : list callback_t) : Prop := {
  an_once : NoDup (cb_id <$> cs);
  an_called : Forall (fun c => cb_id c < next) cs;
  an_waiting : forall r, r ∈ l -> waiting r -> req_id r ∉ cb_id <$> cs;
  an_locked : forall r, r ∈ l -> req_status r = LOCK -> Yes (req_id r) ∈ cs;
  an_ids : NoDup (req_id <$> l);
  an_issued : Forall (fun r => req_id r < next) l;
}.

Lemma answers_granted next a b c cs :
  answers next (a ++ b ++ c) cs -> Forall waiting b ->
  answers next (a ++ (lock_it <$> b) ++ c) (cs ++ ((fun r => Yes (req_id r)) <$> b)).
Proof.
  intros [H1 H2 H3 H4 H5 H6] Hb. rewrite Forall_forall in Hb.
  assert (req_id <$> (lock_it <$> b) = req_id <$> b) as Hids by (by rewrite <- list_fmap_compose).
  assert (cb_id <$> ((fun r => Yes (req_id r)) <$> b) = req_id <$> b) as Hcb by (by rewrite <- list_fmap_compose).
  assert (NoDup (req_id <$> b)) as Hnd.
  { rewrite !fmap_app in H5. apply NoDup_app in H5 as (_ & _ & H5). by apply NoDup_app in H5 as (? & _). }
  split.
  - rewrite fmap_app, Hcb. apply NoDup_app. split_and!; try done.
    intros x Hx (r & -> & Hr)%list_elem_of_fmap. apply (H3 r); [by rewrite !elem_of_app; auto | auto | done].
  - rewrite !Forall_app in H6. apply Forall_app. split; [done|]. apply Forall_fmap. apply H6.
  - intros r Hr Hw. rewrite fmap_app, Hcb, not_elem_of_app.
    assert (r ∈ a \/ r ∈ c) as Hr'.
    { rewrite !elem_of_app in Hr. destruct Hr as [?|[Hr|?]]; [auto | | auto].
      apply list_elem_of_fmap in Hr as (r0 & -> & _). done. }
    split; [apply H3; [rewrite !elem_of_app; tauto | done]|].
    intros Hin. rewrite !fmap_app in H5. apply NoDup_app in H5 as (_ & Hd1 & H5). apply NoDup_app in H5 as (_ & Hd2 & _).
    destruct Hr' as [Hr'|Hr'].
    + apply (Hd1 (req_id r)); [by apply list_elem_of_fmap_2 | apply elem_of_app; by left].
    + apply (Hd2 (req_id r)); [done | by apply list_elem_of_fmap_2].
  - intros r Hr Hl. apply elem_of_app. rewrite !elem_of_app in Hr. destruct Hr as [Hr|[Hr|Hr]].
    + left. apply H4; [rewrite !elem_of_app; tauto | done].
    + right. apply list_elem_of_fmap in Hr as (r0 & -> & Hr). apply list_elem_of_fmap. by exists r0.
    + left. apply H4; [rewrite !elem_of_app; tauto | done].
  - rewrite !fmap_app, Hids. by rewrite !fmap_app in H5.
  - rewrite !Forall_app in *. destruct H6 as (? & ? & ?). split_and!; try done. by apply Forall_fmap.
Qed.

Lemma answers_delete next a r b cs : answers next (a ++ r :: b) cs -> answers next (a ++ b) cs.
Proof.
  intros [H1 H2 H3 H4 H5 H6].
  assert (a ++ b `sublist_of` a ++ r :: b) as Hsub by (apply sublist_app; [done | by apply sublist_cons]).
  assert (forall x, x ∈ a ++ b -> x ∈ a ++ r :: b) as Hin.
  { intros x. rewrite !elem_of_app, elem_of_cons. tauto. }
  split; auto.
  - eapply sublist_NoDup; [exact H5|]. by apply fmap_sublist.
  - rewrite Forall_app, Forall_cons in H6. apply Forall_app. tauto.
Qed.

(** A waiting request leaves and is turned away. *)
Lemma answers_refuse next a r b cs :
  answers next (a ++ r :: b) cs -> waiting r -> answers next (a ++ b) (cs ++ [No (req_id r)]).
Proof.
  intros H Hw. pose proof (answers_delete _ _ _ _ _ H) as [D1 D2 D3 D4 D5 D6]. destruct H as [H1 H2 H3 H4 H5 H6].
  assert (r ∈ a ++ r :: b) as Hr by (apply elem_of_app; right; by left).
  split; try done.
  - rewrite fmap_app. apply NoDup_app. split_and!; [done | | apply NoDup_singleton].
    intros x Hx ->%list_elem_of_singleton. by apply (H3 r).
  - apply Forall_app. split; [done|]. constructor; [|constructor]. rewrite Forall_forall in H6. by apply H6.
  - intros r' Hr' Hw'. rewrite fmap_app, not_elem_of_app. split; [by apply D3|].
    intros E%list_elem_of_singleton. rewrite fmap_app, fmap_cons in H5. apply NoDup_app in H5 as (_ & Hd & H5).
    apply NoDup_cons in H5 as [Hd2 _]. apply elem_of_app in Hr' as [Hr'|Hr'].
    + apply (Hd (req_id r')); [by apply list_elem_of_fmap_2 | rewrite E; by left].
    + apply Hd2. cbn in E. rewrite <- E. by apply list_elem_of_fmap_2.
  - intros r' Hr' Hl. apply elem_of_app. left. auto.
Qed.

(** The order of the calls does not matter. *)
Lemma answers_perm next l cs cs' : cs ≡ₚ cs' -> answers next l cs -> answers next l cs'.
Proof.
  intros Hp [H1 H2 H3 H4 H5 H6]. split; try done.
  - by rewrite <- Hp.
  - by rewrite <- Hp.
  - intros r Hr Hw. rewrite <- Hp. auto.
  - intros r Hr Hl. rewrite <- Hp. auto.
Qed.

(** A waiting request leaves, some of the others are granted, and it is turned away. *)
Lemma answers_refuse_grant next a r b x y z cs :
  answers next (a ++ r :: b) cs -> waiting r -> a ++ b = x ++ y ++ z -> Forall waiting y ->
  answers next (x ++ (lock_it <$> y) ++ z) ((cs ++ ((fun r => Yes (req_id r)) <$> y)) ++ [No (req_id r)]).
Proof.
  intros Ha Hw E Hy. apply answers_refuse in Ha; [|done]. rewrite E in Ha.
  apply (answers_granted _ _ _ _ _ Ha) in Hy. eapply answers_perm; [|exact Hy]. by rewrite <- !app_assoc, (Permutation_app_comm [_]).
Qed.

(** A new request enters the queue, or is turned away at once. *)
Lemma answers_enqueue next l cs p t :
  answers next l cs -> answers (next + 1) (l ++ [mk_req next p t WAIT]) cs.
Proof.
  intros [H1 H2 H3 H4 H5 H6]. assert (next ∉ cb_id <$> cs) as Hn.
  { intros (c & E & Hc)%list_elem_of_fmap. rewrite Forall_forall in H2. specialize (H2 c Hc). lia. }
  split; try done.
  - eapply Forall_impl; [exact H2|]. intros c Hc. simpl in *. lia.
  - intros r [Hr| ->%list_elem_of_singleton]%elem_of_app Hw; [auto | done].
  - intros r [Hr| ->%list_elem_of_singleton]%elem_of_app Hl; [auto | done].
  - rewrite fmap_app. apply NoDup_app. split_and!; [done | | apply NoDup_singleton].
    intros x (r & -> & Hr)%list_elem_of_fmap E%list_elem_of_singleton.
    rewrite Forall_forall in H6. specialize (H6 r Hr). cbn in E. lia.
  - apply Forall_app. split; [|constructor; [cbn; lia | constructor]].
    eapply Forall_impl; [exact H6|]. intros r Hr. simpl in *. lia.
Qed.

Lemma answers_turn_away next l cs : answers next l cs -> answers (next + 1) l (cs ++ [No next]).
Proof.
  intros H. pose proof (answers_enqueue next l cs 0 RLOCK H) as H'.
  apply (answers_refuse _ _ _ []) in H'; [|done]. by rewrite app_nil_r in H'.
Qed.

(** ** The order of the queue

    A request waits only for requests with a larger value of [priority]. *)
Definition conflict (a b : lock_req_t) : Prop := req_type a = WLOCK \/ req_type b = WLOCK.
Definition waits_older (a b : lock_req_t) : Prop := conflict a b -> req_priority b < req_priority a.
Definition ordered (l : list lock_req_t) : Prop := StronglySorted waits_older l.

Definition same_key (r r' : lock_req_t) : Prop := req_key r = req_key r'.


Lemma same_key_refl l : Forall2 same_key l l.
Proof. induction l; by constructor. Qed.

Lemma granted_keys s s' : granted s s' -> Forall2 same_key (requests_ s) (requests_ s').
Proof.
  intros (a & b & c & -> & -> & _). apply Forall2_app; [apply same_key_refl|].
  apply Forall2_app; [|apply same_key_refl]. induction b; by constructor.
Qed.

Lemma same_key_ordered l l' : Forall2 same_key l l' -> ordered l -> ordered l'.
Proof.
  intros Hk Hl. induction Hk as [|r r' l l' Hr Hk IH]; [constructor|].
  apply StronglySorted_inv in Hl as [Hl Hall]. constructor; [by apply IH|]. clear IH Hl.
  induction Hk as [|x x' l l' Hx Hk IH]; [constructor|]. apply Forall_cons in Hall as [Hxr Hall].
  constructor; [|by apply IH]. injection Hx as _ Px Tx. injection Hr as _ Pr Tr.
  unfold waits_older, conflict in *. by rewrite <- Px, <- Pr, <- Tx, <- Tr.
Qed.

Lemma same_key_counts l l' : Forall2 same_key l l' -> n_reads l' = n_reads l /\ n_writes l' = n_writes l.
Proof.
  induction 1 as [|r r' l l' Hr Hk [IH1 IH2]]; [done|]. rewrite !n_reads_cons, !n_writes_cons, IH1, IH2.
  injection Hr as _ _ Tr. unfold is_r, is_w. by rewrite Tr.
Qed.

Lemma ordered_delete a r b : ordered (a ++ r :: b) -> ordered (a ++ b).
Proof.
  unfold ordered. rewrite !StronglySorted_app, StronglySorted_cons. intros (H1 & H2 & [H3 H4]).
  split_and!; [|done|done]. intros x y Hx Hy. apply H1; [done | by right].
Qed.

Lemma ordered_enqueue l r :
  ordered l -> (forall x, x ∈ l -> waits_older x r) -> ordered (l ++ [r]).
Proof.
  intros Hl Hx. unfold ordered. rewrite StronglySorted_app. split_and!; [|done | repeat constructor].
  intros x y Hin ->%list_elem_of_singleton. auto.
Qed.

(** Who may wait is older than everyone in its way. *)
Lemma wait_die_ordered t p l :
  ordered l -> wait_die t p (rev l) = Some true -> forall id x, x ∈ l -> waits_older x (mk_req id p t WAIT).
Proof.
  induction l as [|r l IH] using rev_ind; intros Hl Hwd id x Hx; [by apply not_elem_of_nil in Hx|].
  rewrite rev_app_distr in Hwd. cbn [rev app] in Hwd.
  unfold ordered in Hl. rewrite StronglySorted_app in Hl. destruct Hl as (Hr & Hl & _).
  assert (is_w r = true -> p < req_priority r -> x ∈ l -> waits_older x (mk_req id p t WAIT)) as Hold.
  { intros Hw%bool_decide_eq_true Hp Hxl _. specialize (Hr x r Hxl ltac:(by left)).
    unfold waits_older, conflict in Hr. simpl. assert (req_priority r < req_priority x) by (apply Hr; by right). lia. }
  destruct t; cbn [wait_die] in Hwd.
  - destruct (is_w r) eqn:Ew.
    + injection Hwd as Hp. apply Z.ltb_lt in Hp. apply elem_of_app in Hx as [Hx| ->%list_elem_of_singleton]; [auto|].
      intros _. exact Hp.
    + apply elem_of_app in Hx as [Hx| ->%list_elem_of_singleton]; [by apply IH|].
      apply bool_decide_eq_false in Ew. intros [?|?]; simpl in *; congruence.
  - destruct (Z.geb_spec p (req_priority r)) as [|Hp]; [done|].
    apply elem_of_app in Hx as [Hx| ->%list_elem_of_singleton]; [|by intros _].
    destruct (is_w r); [auto | by apply IH].
Qed.

Lemma wait_die_total t p l : (t = RLOCK -> 0 < n_writes l) -> is_Some (wait_die t p (rev l)).
Proof.
  induction l as [|r l IH] using rev_ind; intros Ht.
  { destruct t; [|by eexists]. by specialize (Ht eq_refl). }
  rewrite rev_app_distr. cbn [rev app]. destruct t; cbn [wait_die].
  - destruct (is_w r) eqn:Ew; [by eexists|]. apply IH. intros _. specialize (Ht eq_refl).
    rewrite n_writes_app, n_writes_cons, Ew in Ht. unfold n_writes at 2 in Ht. cbn in Ht. lia.
  - destruct (_ >=? _); [by eexists|]. destruct (is_w r); [by eexists|]. by apply IH.
Qed.

(** ** The invariant of a wait-die lock *)
Record wd_inv (s : ALock) : Prop := {
  wi_shape : well_shaped s;
  wi_ordered : ordered (requests_ s);
  wi_reads : n_r_in_queue_ s = n_reads (requests_ s);
  wi_writes : n_w_in_queue_ s = n_writes (requests_ s);
  wi_answers : answers (next_id_ s) (requests_ s) (called_ s);
  wi_done : done_ s = false;
}.

Lemma new_ALock_inv : wd_inv new_ALock.
Proof.
  split; try done; [constructor | constructor |].
  split; cbn; try constructor; intros r Hr; by apply not_elem_of_nil in Hr.
Qed.

(** Granting keeps the invariant, if it leaves the queue in shape. *)
Lemma granted_inv s s' :
  granted s s' -> well_shaped s' -> ordered (requests_ s) ->
  n_r_in_queue_ s = n_reads (requests_ s) -> n_w_in_queue_ s = n_writes (requests_ s) ->
  answers (next_id_ s) (requests_ s) (called_ s) -> done_ s = false -> wd_inv s'.
Proof.
  intros Hg Hs Ho Hr Hw Ha Hd. pose proof (granted_keys _ _ Hg) as Hk.
  destruct (same_key_counts _ _ Hk) as [K1 K2].
  destruct Hg as (a & b & c & E & E' & Hb & Ec & En & Ed & Er & Ew).
  split; [done | by eapply same_key_ordered | congruence | congruence | | congruence].
  rewrite E', Ec, En. apply answers_granted; [by rewrite <- E | done].
Qed.

Lemma u64_next s : next_id_ s < 2 ^ 64 - 1 -> 1 <= next_id_ s -> u64 (next_id_ s + 1) = next_id_ s + 1.
Proof. intros. apply wrap_u_id. unfold in_u. lia. Qed.

(** The state with a new request at the end of the queue. *)
Definition queued (t : type_t) (p : Z) (s : ALock) : ALock :=
  mk_alock (u64 (next_id_ s + 1)) (lock_status_ s) (n_rlock_ s) (done_ s) (requests_ s ++ [mk_req (next_id_ s) p t WAIT])
    (n_r_in_queue_ s + match t with RLOCK => 1 | WLOCK => 0 end)
    (n_w_in_queue_ s + match t with RLOCK => 0 | WLOCK => 1 end) (called_ s).

Definition issued (s : ALock) : ALock := s <| next_id_ ::= fun n => u64 (n + 1) |>.

Lemma enqueue_count_eq t p s :
  (enqueue (next_id_ s) p t;; count_in t) (issued s) = Done (tt, queued t p s).
Proof.
  unfold enqueue, count_in, modify, mbind, M_bind, issued, queued, set_field. cbn -[wrap_u].
  destruct t; cbn -[wrap_u]; by rewrite Z.add_0_r.
Qed.

Lemma queued_inv s t p s' :
  wd_inv s -> next_id_ s < 2 ^ 64 - 1 -> 1 <= next_id_ s ->
  (forall x, x ∈ requests_ s -> waits_older x (mk_req (next_id_ s) p t WAIT)) ->
  granted (queued t p s) s' -> well_shaped s' -> wd_inv s' /\ next_id_ s' = next_id_ s + 1.
Proof.
  intros [Hs Ho Hr Hw Ha Hd] Hb H1 Hold Hg Hs'. pose proof Hg as (a & b & c & _ & _ & _ & _ & En & _).
  split; [|by rewrite En; apply u64_next]. apply (granted_inv _ _ Hg Hs'); cbn -[wrap_u].
  - by apply ordered_enqueue.
  - rewrite n_reads_app, n_reads_cons, Hr. change (n_reads []) with 0. unfold is_r. by destruct t; rewrite ?Z.add_0_r.
  - rewrite n_writes_app, n_writes_cons, Hw. change (n_writes []) with 0. unfold is_w. by destruct t; rewrite ?Z.add_0_r.
  - rewrite u64_next by done. by apply answers_enqueue.
  - done.
Qed.

(** A new request that is granted at once. *)
Lemma vlock_grant s t p :
  wd_inv s -> is_free s || (is_rlocked s && bool_decide (t = RLOCK) && (n_w_in_queue_ s =? 0)) = true ->
  (forall x, x ∈ requests_ s -> waits_older x (mk_req (next_id_ s) p t WAIT)) /\
  exists s', match t with RLOCK => read_acquire | WLOCK => write_acquire end (length (requests_ s)) (queued t p s) =
    Done (tt, s') /\ granted (queued t p s) s' /\ well_shaped s'.
Proof.
  intros [Hs Ho Hr Hw Ha Hd] Hc. unfold well_shaped in Hs.
  apply orb_true_iff in Hc as [Hc%bool_decide_eq_true|Hc].
  - rewrite Hc in Hs. apply shape_free_inv in Hs as [Hn Hq]. symmetry in Hn, Hq.
    rewrite <- Hq. split; [by intros x Hx%not_elem_of_nil|]. destruct t.
    + rewrite (read_acquire_eq [] (mk_req (next_id_ s) p RLOCK WAIT) []) by (done || (cbn; by rewrite <- Hq)).
      eexists. split; [done|]. unfold read_status. cbn -[wrap_u]. rewrite <- Hn. cbn -[wrap_u]. split.
      * exists [], [mk_req (next_id_ s) p RLOCK WAIT], []. unfold set_field. cbn. rewrite <- ?Hq. split_and!; try done. by constructor.
      * unfold well_shaped, set_field. cbn. rewrite <- Hn.
        apply (shape_read [lock_it (mk_req (next_id_ s) p RLOCK WAIT)] []); try done. by constructor.
    + rewrite (grant_write _ (mk_req (next_id_ s) p WLOCK WAIT) []) by (done || (cbn; by rewrite <- Hq)).
      eexists. split; [done|]. split.
      * exists [], [mk_req (next_id_ s) p WLOCK WAIT], []. unfold set_field. cbn. rewrite <- ?Hq. split_and!; try done. by constructor.
      * unfold well_shaped, set_field. cbn. rewrite <- Hn. by apply shape_write.
  - rewrite !andb_true_iff in Hc.
    destruct Hc as [[Hst%bool_decide_eq_true Ht%bool_decide_eq_true] Hz%Z.eqb_eq]. subst t. rewrite Hw in Hz.
    apply n_writes_zero in Hz. split.
    { intros x Hx [Hx'|Hx']; [|by simpl in Hx']. rewrite Forall_forall in Hz. by rewrite Hz in Hx'. }
    rewrite Hst in Hs. apply shape_read_inv in Hs as (g & w & Hq & Hn & Hgne & Hg & Hww & Hsw).
    symmetry in Hn. rewrite Hq in Hz.
    destruct w as [|r w].
    2: { apply Forall_app in Hz as [_ Hz]. apply Forall_cons in Hz as [Hz _]. specialize (Hsw r eq_refl). congruence. }
    rewrite app_nil_r in Hq. rewrite Hq.
    rewrite (read_acquire_eq g (mk_req (next_id_ s) p RLOCK WAIT) []) by (done || (cbn; by rewrite Hq)).
    eexists. split; [done|]. unfold read_status. cbn -[wrap_u]. rewrite <- Hn.
    destruct (Z.eqb_spec (Z.of_nat (length g)) 0) as [Hz0|_]; [by destruct g|]. split.
    + exists g, [mk_req (next_id_ s) p RLOCK WAIT], []. unfold set_field. cbn. rewrite ?Hq. split_and!; try done. by constructor.
    + unfold well_shaped, set_field. cbn. rewrite Hst, <- Hn.
      replace (Z.succ (Z.of_nat (length g))) with (Z.of_nat (length (g ++ [lock_it (mk_req (next_id_ s) p RLOCK WAIT)])))
        by (rewrite length_app; cbn; lia).
      apply shape_readers; [by destruct g|]. apply Forall_app. split; [done|]. by constructor.
Qed.

(** A request that waits joins a queue that someone holds. *)
Lemma shape_enqueue st n l r :
  shape st n l -> st ≠ FREE -> waiting r -> (st = RLOCKED -> req_type r = RLOCK -> 0 < n_writes l) -> shape st n (l ++ [r]).
Proof.
  intros [|x w Hx Hw|g w Hgne Hg Hw Hsw] Hne Hr Ht; [done| |].
  - rewrite <- app_comm_cons. apply shape_write; [done|]. apply Forall_app. split; [done | by constructor].
  - rewrite <- app_assoc. apply shape_read; try done; [by apply Forall_app; split; [|by constructor]|].
    destruct w as [|y w]; [|exact Hsw]. intros y [= <-]. destruct (req_type r) eqn:Er; [|done].
    specialize (Ht eq_refl eq_refl). rewrite app_nil_r in Ht.
    rewrite n_writes_readers in Ht; [lia|]. eapply Forall_impl; [exact Hg | by intros y []].
Qed.

Lemma wd_vlock_done s t p :
  wd_inv s -> next_id_ s < 2 ^ 64 - 1 -> 1 <= next_id_ s ->
  exists s', wd_vlock t p s = Done (next_id_ s, s') /\ wd_inv s' /\ next_id_ s' = next_id_ s + 1.
Proof.
  intros Hi Hb H1. pose proof Hi as [Hs Ho Hr Hw Ha Hd]. unfold wd_vlock. erewrite bind_eq by reflexivity.
  erewrite bind_eq by reflexivity. fold (issued s). change (done_ (issued s)) with (done_ s).
  change (is_free (issued s)) with (is_free s). change (is_rlocked (issued s)) with (is_rlocked s).
  change (n_w_in_queue_ (issued s)) with (n_w_in_queue_ s). change (requests_ (issued s)) with (requests_ s).
  rewrite Hd. destruct (is_free s || _) eqn:Hc.
  - destruct (vlock_grant s t p Hi Hc) as (Hold & s' & E & Hg & Hs').
    exists s'. split; [|by apply (queued_inv s t p)].
    pose proof (enqueue_count_eq t p s) as Eq. unfold mbind, M_bind in Eq |- *.
    destruct (enqueue _ _ _ _) as [[[] s1]| |]; [|done..]. rewrite Eq. destruct t; by rewrite E.
  - apply orb_false_iff in Hc as [Hf Hc]. apply bool_decide_eq_false in Hf.
    assert (lock_status_ s = RLOCKED -> t = RLOCK -> 0 < n_writes (requests_ s)) as Hpos.
    { intros Hst ->. unfold is_rlocked in Hc. rewrite Hst, !bool_decide_true in Hc by done. cbn in Hc.
      apply Z.eqb_neq in Hc. rewrite Hw in Hc. pose proof (n_writes_nonneg (requests_ s)). lia. }
    destruct (wait_die_total t p (requests_ s)) as [w Ew].
    { intros ->. destruct (lock_status_ s) eqn:Est; [done | | by apply Hpos].
      unfold well_shaped in Hs. rewrite Est in Hs. apply shape_write_inv in Hs as (_ & r & l & Hq & [Hr1 _] & _).
      rewrite Hq. by apply n_writes_write. }
    rewrite Ew. erewrite bind_eq by reflexivity. destruct w.
    + erewrite bind_eq by (apply enqueue_count_eq). eexists. split; [done|].
      apply (queued_inv s t p _ Hi Hb H1); [by eapply wait_die_ordered | by apply granted_none |].
      unfold well_shaped in *. cbn. by apply shape_enqueue.
    + erewrite bind_eq by reflexivity. eexists. split; [reflexivity|]. unfold issued, set_field. cbn -[wrap_u].
      rewrite u64_next by done. split; [|done]. split; cbn; try done. by apply answers_turn_away.
Qed.

(** ** Releasing and giving up *)

Lemma split_at {A} (a b g w : list A) r :
  a ++ r :: b = g ++ w ->
  (exists g', g = a ++ r :: g' /\ b = g' ++ w) \/ (exists w', w = w' ++ r :: b /\ a = g ++ w').
Proof.
  revert a. induction g as [|x g IH]; intros a E; [right; by exists a|].
  destruct a as [|y a]; injection E as -> E; [left; by exists g|].
  apply IH in E as [(g' & -> & ->)|(w' & -> & ->)]; [left; by exists g' | right; by exists w'].
Qed.

Lemma waiting_not_locked r : waiting r -> req_status r = LOCK -> False.
Proof. unfold waiting. congruence. Qed.

(** A waiting request that is not the first write request leaves. *)
Lemma shape_delete st n a r b :
  shape st n (a ++ r :: b) -> waiting r -> (req_type r = WLOCK -> n_writes a ≠ 0) -> shape st n (a ++ b).
Proof.
  intros Hs Hr Hnw. destruct st.
  - apply shape_free_inv in Hs as [_ Hs]. by destruct a.
  - apply shape_write_inv in Hs as (-> & x & w & E & [Hx1 Hx2] & Hw). destruct a as [|y a]; injection E as -> E.
    + exfalso. by eapply waiting_not_locked.
    + cbn. apply shape_write; [done|]. rewrite <- E, Forall_app, Forall_cons in Hw. apply Forall_app. tauto.
  - apply shape_read_inv in Hs as (g & w & E & -> & Hne & Hg & Hw & Hsw).
    apply split_at in E as [(g' & -> & _)|(w' & -> & ->)].
    + rewrite Forall_app, Forall_cons in Hg. destruct Hg as (_ & [_ Hl] & _). exfalso. by eapply waiting_not_locked.
    + rewrite <- app_assoc. rewrite Forall_app, Forall_cons in Hw. apply shape_read; try done; [apply Forall_app; tauto|].
      destruct w' as [|y w']; [|by intros z [= <-]; apply (Hsw y)]. exfalso. specialize (Hsw r eq_refl).
      rewrite app_nil_r in Hnw. apply (Hnw Hsw), n_writes_readers. eapply Forall_impl; [exact Hg | by intros y []].
Qed.

(** The first write request waits for readers only. *)
Lemma shape_first_write st n a r b :
  shape st n (a ++ r :: b) -> waiting r -> req_type r = WLOCK -> n_writes a = 0 ->
  st = RLOCKED /\ n = Z.of_nat (length a) /\ a ≠ [] /\ Forall reading a /\ Forall waiting b.
Proof.
  intros Hs Hr Ht Hnw. destruct st.
  - apply shape_free_inv in Hs as [_ Hs]. by destruct a.
  - apply shape_write_inv in Hs as (_ & x & w & E & [Hx1 Hx2] & Hw). exfalso. destruct a as [|y a]; injection E as -> E.
    + by eapply waiting_not_locked.
    + pose proof (n_writes_write x a Hx1). lia.
  - apply shape_read_inv in Hs as (g & w & E & -> & Hne & Hg & Hw & Hsw).
    apply split_at in E as [(g' & -> & _)|(w' & -> & ->)].
    + rewrite Forall_app, Forall_cons in Hg. destruct Hg as (_ & [_ Hl] & _). exfalso. by eapply waiting_not_locked.
    + rewrite Forall_app, Forall_cons in Hw. destruct Hw as (Hw1 & _ & Hw2).
      destruct w' as [|y w']; [by rewrite app_nil_r|]. specialize (Hsw y eq_refl).
      rewrite n_writes_app in Hnw. pose proof (n_writes_write y w' Hsw). pose proof (n_writes_nonneg g). lia.
Qed.

Lemma after_waiting_write_done s a b :
  requests_ s = a ++ b -> lock_status_ s = RLOCKED -> n_rlock_ s = Z.of_nat (length a) -> a ≠ [] ->
  Forall reading a -> Forall waiting b ->
  exists s', after_waiting_write (length a) 0 s = Done (tt, s') /\ granted s s' /\ well_shaped s'.
Proof.
  intros E Hst Hn Hne Ha Hb. unfold after_waiting_write. cbn [when Z.eqb]. erewrite bind_eq by reflexivity.
  unfold is_rlocked. rewrite bool_decide_true by done. erewrite bind_eq by reflexivity.
  rewrite E, drop_app_length. destruct (grant_reads s a b) as (s' & E' & Hg & Hs & _); eauto.
Qed.

Lemma locked_read_shape n a r b :
  shape RLOCKED n (a ++ r :: b) -> req_status r = LOCK ->
  req_type r = RLOCK /\ exists g w, b = g ++ w /\ n = Z.of_nat (length (a ++ g)) + 1 /\ Forall reading (a ++ g) /\
    Forall waiting w /\ starts_with_write w.
Proof.
  intros (g & w & E & -> & Hne & Hg & Hw & Hsw)%shape_read_inv Hr.
  apply split_at in E as [(g' & -> & ->)|(w' & -> & ->)].
  - rewrite Forall_app, Forall_cons in Hg. destruct Hg as (Hg1 & [Ht _] & Hg2). split; [done|]. exists g', w.
    rewrite !length_app. cbn [length]. split_and!; try done; [lia | apply Forall_app; tauto].
  - rewrite Forall_app, Forall_cons in Hw. destruct Hw as (_ & Hw & _). exfalso. by eapply waiting_not_locked.
Qed.

Lemma locked_write_shape n a r b :
  shape WLOCKED n (a ++ r :: b) -> req_status r = LOCK -> req_type r = WLOCK /\ n = 0 /\ a = [] /\ Forall waiting b.
Proof.
  intros (-> & x & w & E & [Hx1 Hx2] & Hw)%shape_write_inv Hr. destruct a as [|y a]; injection E as -> E; [by subst|].
  rewrite <- E, Forall_app, Forall_cons in Hw. destruct Hw as (_ & Hw & _). exfalso. by eapply waiting_not_locked.
Qed.

(** A waiting request has left the queue. *)
Lemma waiting_leaves s1 st n a r b :
  shape st n (a ++ r :: b) -> waiting r -> requests_ s1 = a ++ b -> lock_status_ s1 = st -> n_rlock_ s1 = n ->
  exists s', when (is_w r) (after_waiting_write (length a) (0 + n_writes a)) s1 = Done (tt, s') /\ granted s1 s' /\ well_shaped s'.
Proof.
  intros Hs Hw E Est En. assert ((req_type r = WLOCK -> n_writes a ≠ 0) -> well_shaped s1) as Hstay.
  { intros Hnw. unfold well_shaped. rewrite E, Est, En. by eapply shape_delete. }
  unfold is_w. case_bool_decide as Ht; cbn [when].
  - destruct (Z.eq_dec (n_writes a) 0) as [Hz|Hz].
    + destruct (shape_first_write _ _ _ _ _ Hs Hw Ht Hz) as (Hst & Hn & Hne & Ha & Hb).
      rewrite Hz. apply (after_waiting_write_done _ a b); congruence || done.
    + unfold after_waiting_write. destruct (Z.eqb_spec (0 + n_writes a) 0); [lia|]. cbn [when].
      exists s1. split_and!; [done | by apply granted_none | by apply Hstay].
  - exists s1. split_and!; [done | by apply granted_none | by apply Hstay].
Qed.

(** A holder has left the queue. *)
Lemma locked_leaves s1 st n a r b :
  shape st n (a ++ r :: b) -> req_status r = LOCK -> requests_ s1 = a ++ b -> lock_status_ s1 = st ->
  n_rlock_ s1 = (if is_r r then Z.pred n else n) ->
  exists s', (if is_r r then after_read (length a) else after_write (length a)) s1 = Done (tt, s') /\
    granted s1 s' /\ well_shaped s'.
Proof.
  intros Hs Hl E Est En. unfold is_r in *. destruct st.
  - apply shape_free_inv in Hs as [_ Hs]. by destruct a.
  - destruct (locked_write_shape _ _ _ _ Hs Hl) as (Ht & -> & -> & Hb).
    rewrite Ht, bool_decide_false in * by done. apply after_write_done; [by rewrite E | done].
  - destruct (locked_read_shape _ _ _ _ Hs Hl) as (Ht & g & w & -> & -> & Hg & Hw & Hsw).
    rewrite Ht, bool_decide_true in * by done. apply (after_read_done s1 (length a) (a ++ g) w); try done.
    + by rewrite <- app_assoc.
    + lia.
    + by intros [-> _]%app_nil.
Qed.

(** The state without the request between [a] and [b]. *)
Definition removed (t : type_t) (a b : list lock_req_t) (n : Z) (s : ALock) : ALock :=
  mk_alock (next_id_ s) (lock_status_ s) n (done_ s) (a ++ b)
    (n_r_in_queue_ s - match t with RLOCK => 1 | WLOCK => 0 end)
    (n_w_in_queue_ s - match t with RLOCK => 0 | WLOCK => 1 end) (called_ s).

(** What is left of the invariant when a request has gone. *)
Lemma removed_inv s a r b n s' :
  wd_inv s -> requests_ s = a ++ r :: b ->
  granted (removed (req_type r) a b n s) s' -> well_shaped s' -> wd_inv s' /\ next_id_ s' = next_id_ s.
Proof.
  intros [Hs Ho Hr Hw Ha Hd] E Hg Hs'. pose proof Hg as (? & ? & ? & _ & _ & _ & _ & En & _).
  split; [|done]. rewrite E in *. apply (granted_inv _ _ Hg Hs'); cbn.
  - by eapply ordered_delete.
  - rewrite Hr, !n_reads_app, n_reads_cons. unfold is_r. destruct (req_type r); case_bool_decide; (done || lia).
  - rewrite Hw, !n_writes_app, n_writes_cons. unfold is_w. destruct (req_type r); case_bool_decide; (done || lia).
  - by eapply answers_delete.
  - done.
Qed.

(** The same for a waiting request, which is turned away at the end. *)
Lemma refused_inv s a r b n s' :
  wd_inv s -> requests_ s = a ++ r :: b -> waiting r ->
  granted (removed (req_type r) a b n s) s' -> well_shaped s' ->
  wd_inv (s' <| called_ ::= fun l => l ++ [No (req_id r)] |>) /\ next_id_ s' = next_id_ s.
Proof.
  intros Hi E Hw Hg Hs'. destruct (removed_inv s a r b n s' Hi E Hg Hs') as [[H1 H2 H3 H4 H5 H6] En]. split; [|done].
  split; try done. unfold set_field. cbn. rewrite En. destruct Hi as [_ _ _ _ Ha _]. rewrite E in Ha.
  destruct Hg as (x & y & z & E1 & E2 & Hy & Ec & _). rewrite E2, Ec. cbn in E1 |- *. by eapply answers_refuse_grant.
Qed.

Lemma wd_abort_done s id : wd_inv s -> exists s', wd_abort id s = Done (tt, s') /\ wd_inv s' /\ next_id_ s' = next_id_ s.
Proof.
  intros Hi. pose proof Hi as [Hs _ _ _ _ Hd]. unfold wd_abort. erewrite bind_eq by reflexivity. rewrite Hd.
  destruct (find_req id (requests_ s) 0 0) as [[i n]|] eqn:Ef; [|by exists s].
  apply find_req_spec in Ef as (a & r & b & E & -> & <- & ->). unfold well_shaped in Hs. rewrite E in Hs.
  rewrite E, list_lookup_middle by done. erewrite bind_eq by reflexivity. cbn [Nat.add].
  unfold is_waiting. case_bool_decide as Hw.
  - erewrite bind_eq by reflexivity. erewrite bind_eq by reflexivity.
    set (s1 := match req_type r with RLOCK => _ | WLOCK => _ end).
    assert (s1 = removed (req_type r) a b (n_rlock_ s) s) as ->.
    { unfold s1, removed, set_field. destruct (req_type r); cbn; rewrite E, delete_middle; f_equal; lia. }
    destruct (waiting_leaves (removed (req_type r) a b (n_rlock_ s) s) _ _ a r b Hs Hw eq_refl eq_refl eq_refl) as (s' & E' & Hg & Hs').
    rewrite (bind_eq _ _ _ _ _ E'). eexists. split; [reflexivity|].
    destruct (refused_inv s a r b (n_rlock_ s) s' Hi E Hw Hg Hs') as [R1 R2]. by split.
  - assert (req_status r = LOCK) as Hl by (by destruct (req_status r)).
    erewrite bind_eq by reflexivity. set (n := if is_r r then Z.pred (n_rlock_ s) else n_rlock_ s).
    destruct (locked_leaves (removed (req_type r) a b n s) _ _ a r b Hs Hl eq_refl eq_refl eq_refl) as (s' & E' & Hg & Hs').
    exists s'. split; [|by apply (removed_inv s a r b n)]. rewrite <- E'. unfold n, is_r.
    destruct (req_type r); [rewrite !bool_decide_true by done | rewrite !bool_decide_false by done];
      (erewrite bind_eq by reflexivity); (erewrite bind_eq by reflexivity); f_equal;
      unfold removed, set_field; cbn; rewrite E, delete_middle; f_equal; lia.
Qed.

(** ** The author's check passes *)

(** What the loop of [sanity_check] knows of the requests to come: who holds the lock. *)
Definition holders_ok (st : lock_status_t) (n_rlock : Z) (first : bool) (a : sanity) (l : list lock_req_t) : Prop :=
  if acquired_check a then Forall waiting l
  else match st with
  | FREE => l = []
  | WLOCKED => l = [] \/ first = true /\ exists r w, l = r :: w /\ writing r /\ Forall waiting w
  | RLOCKED => exists g w, l = g ++ w /\ Forall reading g /\ Forall waiting w /\ starts_with_write w /\
      n_r_locked a + Z.of_nat (length g) = n_rlock
  end.

(** And their priorities. *)
Definition priorities_ok (a : sanity) (l : list lock_req_t) : Prop :=
  Forall (fun r => req_priority r < big a) l /\
  (tmp_big a = -1 \/ 0 <= tmp_big a /\ Forall (fun r => req_type r = WLOCK -> req_priority r < tmp_big a) l).

Lemma sanity_one_ok st n first a it l :
  holders_ok st n first a (it :: l) -> priorities_ok a (it :: l) -> ordered (it :: l) -> 0 <= req_priority it ->
  exists a', sanity_one st n first a it = Some a' /\ holders_ok st n false a' l /\ priorities_ok a' l /\
    num_w a' = num_w a + (if is_w it then 1 else 0) /\ num_r a' = num_r a + (if is_r it then 1 else 0).
Proof.
  intros Hh [Hb Ht] Ho Hp. apply Forall_cons in Hb as [Hb Hbl]. apply StronglySorted_inv in Ho as [_ Ho].
  assert (exists acq k, (if acquired_check a then if is_waiting it then Some (true, n_r_locked a) else None
    else match st with
    | WLOCKED => if first && is_w it && negb (is_waiting it) then Some (true, n_r_locked a) else None
    | RLOCKED => if is_r it then if negb (is_waiting it) then Some (false, n_r_locked a + 1) else None
      else if is_waiting it && (n_r_locked a =? n) then Some (true, n_r_locked a) else None
    | FREE => None end) = Some (acq, k) /\
    forall b t nw nr, holders_ok st n false (mk_sanity acq b t k nw nr) l) as (acq & k & Ea & Hacq).
  { unfold holders_ok in *. destruct (acquired_check a).
    - apply Forall_cons in Hh as [Hw Hl]. unfold is_waiting. rewrite bool_decide_true by done. by exists true, (n_r_locked a).
    - destruct st; [done| |].
      + destruct Hh as [Hh|(-> & r & w & [= -> ->] & [Hr1 Hr2] & Hw)]; [done|]. unfold is_w, is_waiting.
        rewrite Hr1, Hr2. by exists true, (n_r_locked a).
      + destruct Hh as (g & w & E & Hg & Hw & Hsw & Hn). destruct g as [|r g].
        * cbn in E. subst w. apply Forall_cons in Hw as [Hw Hl]. specialize (Hsw it eq_refl). unfold is_r, is_waiting.
          rewrite Hsw, (bool_decide_true (req_status it = WAIT)) by done. cbn in Hn. rewrite Z.add_0_r in Hn.
          cbn. rewrite (proj2 (Z.eqb_eq _ _) Hn). by exists true, (n_r_locked a).
        * injection E as <- ->. apply Forall_cons in Hg as [[Hr1 Hr2] Hg]. unfold is_r, is_waiting. rewrite Hr1, Hr2.
          exists false, (n_r_locked a + 1). split; [done|]. intros. cbn in *. exists g, w. split_and!; try done. lia. }
  unfold sanity_one. rewrite Ea. cbn [mbind option_bind]. destruct (Z.ltb_spec (req_priority it) (big a)); [|lia]. cbn [negb].
  unfold is_r, is_w. destruct (req_type it) eqn:Et.
  - rewrite bool_decide_true by done. eexists. split; [done|]. split; [apply Hacq|]. cbn [num_w num_r].
    split_and!; [|rewrite bool_decide_false by done; lia | done]. split; [exact Hbl|]. right. cbn [tmp_big].
    assert (Forall (fun r => req_type r = WLOCK -> req_priority r < req_priority it) l) as Hw.
    { eapply Forall_impl; [exact Ho|]. intros r Hr Hrw. apply Hr. by right. }
    destruct (Z.eqb_spec (tmp_big a) (-1)); [done|]. destruct Ht as [?|[Ht1 Ht2]]; [lia|].
    apply Forall_cons in Ht2 as [_ Ht2]. destruct (req_priority it <? tmp_big a); done.
  - assert (Forall (fun r => req_priority r < req_priority it) l) as Hw.
    { eapply Forall_impl; [exact Ho|]. intros r Hr. apply Hr. by left. }
    rewrite bool_decide_false by done. destruct (Z.eqb_spec (tmp_big a) (-1)) as [Hm|Hm].
    + eexists. split; [done|]. split; [apply Hacq|]. cbn [num_w num_r]. split_and!; [|done | lia].
      split; [exact Hw | by left].
    + destruct Ht as [?|[Ht1 Ht2]]; [lia|]. apply Forall_cons in Ht2 as [Ht2 _]. specialize (Ht2 Et).
      destruct (Z.ltb_spec (req_priority it) (tmp_big a)); [|lia].
      eexists. split; [done|]. split; [apply Hacq|]. cbn [num_w num_r]. split_and!; [|done | lia].
      split; [|by left]. eapply Forall_impl; [exact Hw|]. intros r Hr. cbn in *. lia.
Qed.

Lemma sanity_loop_ok st n first a l :
  holders_ok st n first a l -> priorities_ok a l -> ordered l -> Forall (fun r => 0 <= req_priority r) l ->
  exists a', sanity_loop st n first a l = Some a' /\ num_w a' = num_w a + n_writes l /\ num_r a' = num_r a + n_reads l.
Proof.
  revert first a. induction l as [|it l IH]; intros first a Hh Hp Ho Hpos; cbn [sanity_loop].
  { exists a. unfold n_writes, n_reads. cbn. split_and!; [done | lia | lia]. }
  apply Forall_cons in Hpos as [Hp0 Hpos].
  destruct (sanity_one_ok st n first a it l Hh Hp Ho Hp0) as (a1 & -> & Hh1 & Hp1 & Ew & Er).
  apply StronglySorted_inv in Ho as [Ho _]. destruct (IH false a1 Hh1 Hp1 Ho Hpos) as (a2 & E2 & Ew2 & Er2).
  exists a2. rewrite n_writes_cons, n_reads_cons. split_and!; [exact E2 | lia | lia].
Qed.

Lemma wd_inv_sane s :
  wd_inv s -> Forall (fun r => 0 <= req_priority r < 2 ^ 63 - 1) (requests_ s) -> wd_sanity_check s = true.
Proof.
  intros [Hs Ho Hr Hw _ _] Hp. unfold wd_sanity_check. apply andb_true_iff. split.
  { unfold is_free. case_bool_decide as Hf; [|done]. unfold well_shaped in Hs. rewrite Hf in Hs.
    apply shape_free_inv in Hs as [_ ->]. done. }
  destruct (sanity_loop_ok (lock_status_ s) (n_rlock_ s) true (mk_sanity false (2 ^ 63 - 1) (-1) 0 0 0) (requests_ s))
    as (a & -> & -> & ->); try done.
  - unfold holders_ok. cbn. unfold well_shaped in Hs. destruct (lock_status_ s).
    + by apply shape_free_inv in Hs as [_ ->].
    + apply shape_write_inv in Hs as (_ & r & w & -> & ? & ?). right. eauto 6.
    + apply shape_read_inv in Hs as (g & w & -> & -> & _ & ? & ? & ?). exists g, w. split_and!; try done.
  - split; [|by left]. eapply Forall_impl; [exact Hp|]. cbn. intros r Hr'. lia.
  - eapply Forall_impl; [exact Hp|]. cbn. intros r Hr'. lia.
  - rewrite Hw, Hr. cbn. by rewrite !Z.eqb_refl.
Qed.

(** ** Runs of a lock *)

Inductive lock_event := EvLock (type : type_t) (priority : Z) | EvAbort (id : Z).

Definition wd_step (e : lock_event) : M ALock () :=
  match e with
  | EvLock t p => _ ← wd_vlock t p; mret ()
  | EvAbort id => wd_abort id
  end.

Lemma wd_run s es :
  wd_inv s -> 1 <= next_id_ s -> next_id_ s + Z.of_nat (length es) < 2 ^ 64 ->
  exists s', for_each es wd_step s = Done (tt, s') /\ wd_inv s'.
Proof.
  revert s. induction es as [|[t p|id] es IH]; intros s Hi H1 Hb; cbn [for_each wd_step length] in *.
  - by exists s.
  - destruct (wd_vlock_done s t p Hi ltac:(lia) H1) as (s1 & E & Hi1 & En). rewrite (bind_eq _ _ s tt s1).
    + apply IH; [done | lia | lia].
    + by rewrite (bind_eq _ _ _ _ _ E).
  - destruct (wd_abort_done s id Hi) as (s1 & E & Hi1 & En). rewrite (bind_eq _ _ _ _ _ E). apply IH; [done | lia | lia].
Qed.

(** Two requests hold the lock only if both read. *)
Definition exclusive (l : list lock_req_t) : Prop :=
  forall r r', r ∈ l -> r' ∈ l -> req_status r = LOCK -> req_status r' = LOCK -> conflict r r' -> r = r'.

Lemma shape_exclusive st n l : shape st n l -> exclusive l.
Proof.
  intros [|x w Hx Hw|g w Hne Hg Hw Hs] r r' Hr Hr' L L' C.
  - by apply not_elem_of_nil in Hr.
  - assert (forall y, y ∈ x :: w -> req_status y = LOCK -> y = x) as Hy.
    { intros y [->|Hy]%elem_of_cons Hl; [done|]. rewrite Forall_forall in Hw. specialize (Hw y Hy).
      exfalso. by eapply waiting_not_locked. }
    by rewrite (Hy r), (Hy r').
  - assert (forall y, y ∈ g ++ w -> req_status y = LOCK -> req_type y = RLOCK) as Hy.
    { intros y [Hy|Hy]%elem_of_app Hl; rewrite Forall_forall in Hg, Hw; [by apply Hg|].
      exfalso. eapply waiting_not_locked; [by apply Hw | done]. }
    destruct C as [C|C]; [rewrite (Hy r) in C | rewrite (Hy r') in C]; done.
Qed.

(** Nobody waits for a lock that is free. *)
Lemma shape_held st n l r : shape st n l -> r ∈ l -> waiting r -> exists r', r' ∈ l /\ req_status r' = LOCK.
Proof.
  intros [|x w Hx Hw|g w Hne Hg Hw Hs] Hr Hwr.
  - by apply not_elem_of_nil in Hr.
  - exists x. split; [by left | apply Hx].
  - destruct g as [|x g]; [done|]. apply Forall_cons in Hg as [Hx _]. exists x. split; [by left | apply Hx].
Qed.

(** C17: whatever requests are made and given up, no check in a wait-die
    lock fails; two requests hold the lock only if both read; nobody waits for a lock
    that nobody holds; every request is answered at most once, one that waits has not
    been answered, one that holds the lock was answered with yes; and the queue passes
    the author's [sanity_check], for priorities from 0 up to the largest integer, which
    the check takes as a bound. *)
Theorem wait_die_lock_safe es :
  Z.of_nat (length es) < 2 ^ 64 - 1 ->
  exists s, for_each es wd_step new_ALock = Done (tt, s) /\ exclusive (requests_ s) /\
    (forall r, r ∈ requests_ s -> waiting r -> exists r', r' ∈ requests_ s /\ req_status r' = LOCK) /\
    NoDup (cb_id <$> called_ s) /\
    (forall r, r ∈ requests_ s ->
       if is_waiting r then req_id r ∉ cb_id <$> called_ s else Yes (req_id r) ∈ called_ s) /\
    (Forall (fun r => 0 <= req_priority r < 2 ^ 63 - 1) (requests_ s) -> wd_sanity_check s = true).
Proof.
  intros Hlen. destruct (wd_run new_ALock es new_ALock_inv) as (s & E & Hi); [done | cbn; lia|].
  exists s. pose proof Hi as [Hs _ _ _ [A1 A2 A3 A4 _ _] _]. split_and!; try done.
  - by eapply shape_exclusive.
  - intros r. by eapply shape_held.
  - intros r Hr. unfold is_waiting. case_bool_decide as Hw; [by apply A3|]. apply A4; [done|]. by destruct (req_status r).
  - by apply wd_inv_sane.
Qed.

(** ** No deadlock *)

(** On lock [s], a request of priority [p] waits behind a conflicting one of priority [q]. *)
Definition waits_on (s : ALock) (p q : Z) : Prop :=
  exists a b c r r', requests_ s = a ++ r' :: b ++ r :: c /\ conflict r' r /\ req_priority r = p /\ req_priority r' = q.

(** On one of the locks. *)
Definition waits_for (locks : list ALock) (p q : Z) : Prop := exists s, s ∈ locks /\ waits_on s p q.

Lemma waits_on_older s p q : ordered (requests_ s) -> waits_on s p q -> p < q.
Proof.
  intros Ho (a & b & c & r & r' & E & Hc & <- & <-). rewrite E in Ho. unfold ordered in Ho.
  rewrite StronglySorted_app in Ho. destruct Ho as (_ & _ & Ho). apply StronglySorted_inv in Ho as [_ Ho].
  rewrite Forall_app, Forall_cons in Ho. destruct Ho as (_ & Ho & _). auto.
Qed.

(** C18: transactions that ask for any number of wait-die locks, each
    with its own priority, cannot wait for each other in a circle: a transaction only
    ever waits behind one with a larger priority value. *)
Theorem wait_die_no_deadlock locks :
  Forall (fun s => exists es, Z.of_nat (length es) < 2 ^ 64 - 1 /\ for_each es wd_step new_ALock = Done (tt, s)) locks ->
  forall p, ~ tc (waits_for locks) p p.
Proof.
  intros Hl. rewrite Forall_forall in Hl.
  assert (forall p q, waits_for locks p q -> p < q) as Hlt.
  { intros p q (s & Hs & Hw). destruct (Hl s Hs) as (es & Hlen & E).
    destruct (wd_run new_ALock es new_ALock_inv) as (s' & E' & Hi); [done | cbn; lia|].
    assert (s' = s) as -> by congruence. eapply waits_on_older; [apply Hi | done]. }
  intros p Hp. assert (forall p q, tc (waits_for locks) p q -> p < q) as Htc.
  { induction 1 as [x y Hxy|x y z Hxy _ IH]; [auto|]. specialize (Hlt _ _ Hxy). lia. }
  specialize (Htc _ _ Hp). lia.
Qed.

(** ** Instances *)

(** Two readers, a writer that may wait, one that may not, and a reader behind it. *)
Definition demo_lock_events : list lock_event :=
  [EvLock RLOCK 5; EvLock RLOCK 6; EvLock WLOCK 3; EvLock WLOCK 4; EvLock RLOCK 2; EvAbort 3].
Definition demo_alock : ALock :=
  match for_each demo_lock_events wd_step new_ALock with Done (_, s) => s | _ => new_ALock end.

Lemma wait_die_lock_safe_witness :
  exists s, for_each demo_lock_events wd_step new_ALock = Done (tt, s) /\ exclusive (requests_ s) /\
    (forall r, r ∈ requests_ s -> waiting r -> exists r', r' ∈ requests_ s /\ req_status r' = LOCK) /\
    NoDup (cb_id <$> called_ s) /\
    (forall r, r ∈ requests_ s ->
       if is_waiting r then req_id r ∉ cb_id <$> called_ s else Yes (req_id r) ∈ called_ s) /\
    (Forall (fun r => 0 <= req_priority r < 2 ^ 63 - 1) (requests_ s) -> wd_sanity_check s = true).
Proof. apply wait_die_lock_safe. cbn. lia. Defined.

Example demo_alock_calls : called_ demo_alock = [Yes 1; Yes 2; No 4; Yes 5; No 3] /\ wd_sanity_check demo_alock = true.
Proof. vm_compute. auto. Qed.

Lemma wait_die_no_deadlock_witness : ~ tc (waits_for [demo_alock; demo_alock]) 3 3.
Proof.
  apply wait_die_no_deadlock. repeat constructor; exists demo_lock_events; (split; [cbn; lia | vm_compute; reflexivity]).
Defined.
