(* ===== verification/ALockWound.v ===== *)
(** * Wound-die locks: [WoundDieALock]
    (src/rrr/misc/alock.hpp, src/rrr/misc/alock.cpp)

    A new request drives out the requests of lower priority in its way: one that
    waits is turned away, and one that holds the lock is asked by its
    [wound_callback], which may decline.  The identifiers of those that decline
    during a call of [vlock] are an argument. *)
From stdpp Require Import base tactics numbers list relations sorting.
From S2P Require Import Prelude ALock.

Section wound.
Context (declines : Z -> bool).

(** [wound] of a request; [try_wound] also removes it, at position [i], if that succeeds. *)
Definition wound (r : lock_req_t) : M ALock bool :=
  if is_waiting r then call (No (req_id r));; mret true
  else if declines (req_id r) then mret false
  else if is_w r then
    s ← get;
    verify (bool_decide (lock_status_ s = WLOCKED));;
    modify (fun s => s <| lock_status_ := FREE |>);;
    mret true
  else
    s ← get;
    verify (is_rlocked s);;
    modify (fun s => s <| n_rlock_ ::= Z.pred |>);;
    modify (fun s => if n_rlock_ s =? 0 then s <| lock_status_ := FREE |> else s);;
    mret true.

Definition try_wound (i : nat) (r : lock_req_t) : M ALock () :=
  ok ← wound r;
  when ok (erase_at i).

(** The two loops of [wound_die], from position [i - 1] down. *)
Fixpoint wound_for_write (priority : Z) (i : nat) : M ALock () :=
  match i with
  | O => mret ()
  | S i =>
    s ← get;
    r ← from_option (requests_ s !! i);
    if req_priority r >=? priority then try_wound i r;; wound_for_write priority i
    else if is_w r then mret ()
    else wound_for_write priority i
  end.

Fixpoint wound_for_read (priority : Z) (i : nat) : M ALock () :=
  match i with
  | O => mret ()
  | S i =>
    s ← get;
    r ← from_option (requests_ s !! i);
    if req_priority r <? priority then mret ()
    else when (is_w r) (try_wound i r);; wound_for_read priority i
  end.

Definition wound_die (type : type_t) (priority : Z) : M ALock () :=
  s ← get;
  match type with
  | WLOCK => wound_for_write priority (length (requests_ s))
  | RLOCK => wound_for_read priority (length (requests_ s))
  end.

(** The loop over a read-locked queue: the read requests to grant.  [None] is a failed
    [verify]. *)
Fixpoint new_reads (i : nat) (new_acquired : bool) (l : list lock_req_t) : option (list nat) :=
  match l with
  | [] => Some []
  | r :: l =>
    if negb (is_waiting r) then
      if is_r r && negb new_acquired then new_reads (S i) new_acquired l else None
    else if is_r r then cons i <$> new_reads (S i) true l
    else Some []
  end.

(** The end of [vlock]: the [switch] over the status. *)
Definition wo_grant : M ALock () :=
  s ← get;
  front ← from_option (head (requests_ s));
  match lock_status_ s with
  | FREE => if is_w front then write_acquire 0 else read_acquire_all (read_run 0 (requests_ s))
  | RLOCKED =>
    verify (is_r front && negb (is_waiting front));;
    lock_reqs ← from_option (new_reads 0 false (requests_ s));
    read_acquire_all lock_reqs
  | WLOCKED => verify (is_w front && negb (is_waiting front))
  end.

Definition wo_vlock (type : type_t) (priority : Z) : M ALock Z :=
  id ← get_next_id;
  s ← get;
  if done_ s then call (No id);; mret id
  else
    wound_die type priority;;
    enqueue id priority type;;
    wo_grant;;
    mret id.
End wound.

Definition wo_abort (id : Z) : M ALock () :=
  s ← get;
  if done_ s then mret ()
  else
    match find_req id (requests_ s) 0 0 with
    | None => mret ()
    | Some (i, n_w_before_this) =>
      r ← from_option (requests_ s !! i);
      if is_waiting r then
        erase_at i;;
        when (is_w r) (after_waiting_write i n_w_before_this);;
        call (No (req_id r))
      else
        when (is_r r) (modify (fun s => s <| n_rlock_ ::= Z.pred |>));;
        erase_at i;;
        if is_r r then after_read i else after_write i
    end.

(** ** The invariant *)

(** The queue between wounding and granting: the holders first. *)
Inductive held : lock_status_t -> Z -> list lock_req_t -> Prop :=
  | held_free w : Forall waiting w -> held FREE 0 w
  | held_write r w : writing r -> Forall waiting w -> held WLOCKED 0 (r :: w)
  | held_read g w : g ≠ [] -> Forall reading g -> Forall waiting w -> held RLOCKED (Z.of_nat (length g)) (g ++ w).

Lemma shape_is_held st n l : shape st n l -> held st n l.
Proof. intros [|r w Hr Hw|g w Hne Hg Hw _]; by constructor. Qed.

(** [d] says whether a holder may decline to be wounded. *)
Section age.
Context (d : bool).

(** A request waits behind older ones only, among those it conflicts with: behind any
    request if the holders never decline, behind a waiting one otherwise. *)
Definition counts (a : lock_req_t) : Prop := d = true -> waiting a.
Definition older_first (a b : lock_req_t) : Prop :=
  counts a -> waiting b -> conflict a b -> req_priority a < req_priority b.
Definition age_ordered (l : list lock_req_t) : Prop := StronglySorted older_first l.

(** All the identifiers in use are below [next]. *)
Record wo_pre (next : Z) (s : ALock) : Prop := {
  wp_held : held (lock_status_ s) (n_rlock_ s) (requests_ s);
  wp_ordered : age_ordered (requests_ s);
  wp_answers : answers next (requests_ s) (called_ s);
  wp_done : done_ s = false;
}.

Lemma age_delete a r b : age_ordered (a ++ r :: b) -> age_ordered (a ++ b).
Proof.
  unfold age_ordered. rewrite !StronglySorted_app, StronglySorted_cons. intros (H1 & H2 & [H3 H4]).
  split_and!; [|done|done]. intros x y Hx Hy. apply H1; [done | by right].
Qed.

(** In a queue, nothing waits in front of a holder. *)
Lemma held_no_gap st n a r b :
  held st n (a ++ r :: b) -> req_status r = LOCK -> Forall (fun x => ~ waiting x) a /\ Forall (fun x => ~ conflict x r) a.
Proof.
  intros Hh Hr. remember (a ++ r :: b) as l eqn:E. destruct Hh as [w Hw|x w Hx Hw|g w Hne Hg Hw].
  - rewrite E, Forall_app, Forall_cons in Hw. destruct Hw as (_ & Hw & _). exfalso. by eapply waiting_not_locked.
  - destruct a as [|y a]; [by split|]. injection E as -> ->. rewrite Forall_app, Forall_cons in Hw.
    destruct Hw as (_ & Hw & _). exfalso. by eapply waiting_not_locked.
  - symmetry in E. apply split_at in E as [(g' & -> & _)|(w' & -> & _)].
    + rewrite Forall_app, Forall_cons in Hg. destruct Hg as (Hg & [Ht _] & _).
      split; (eapply Forall_impl; [exact Hg|]; intros x [Hx1 Hx2]).
      * intros Hw'. by eapply waiting_not_locked.
      * intros [?|?]; congruence.
    + rewrite Forall_app, Forall_cons in Hw. destruct Hw as (_ & Hw & _). exfalso. by eapply waiting_not_locked.
Qed.

Lemma held_delete_waiting st n a r b : held st n (a ++ r :: b) -> waiting r -> held st n (a ++ b).
Proof.
  intros Hh Hr. remember (a ++ r :: b) as l eqn:E. destruct Hh as [w Hw|x w Hx Hw|g w Hne Hg Hw].
  - subst w. constructor. rewrite Forall_app, Forall_cons in Hw. apply Forall_app. tauto.
  - destruct a as [|y a]; injection E as -> ->.
    + exfalso. eapply waiting_not_locked; [done | apply Hx].
    + rewrite Forall_app, Forall_cons in Hw. cbn. constructor; [done|]. apply Forall_app. tauto.
  - symmetry in E. apply split_at in E as [(g' & -> & ->)|(w' & -> & ->)].
    + rewrite Forall_app, Forall_cons in Hg. destruct Hg as (_ & [_ Hl] & _). exfalso. by eapply waiting_not_locked.
    + rewrite <- app_assoc. rewrite Forall_app, Forall_cons in Hw. constructor; [done | done |]. apply Forall_app. tauto.
Qed.

Lemma wound_waiting next s a r b :
  wo_pre next s -> requests_ s = a ++ r :: b -> waiting r ->
  wo_pre next (s <| called_ ::= fun l => l ++ [No (req_id r)] |> <| requests_ := a ++ b |>).
Proof.
  intros [Hh Ho Ha Hd] E Hw. rewrite E in *. split; unfold set_field; cbn; try done.
  - by eapply held_delete_waiting.
  - by eapply age_delete.
  - by apply answers_refuse.
Qed.

Lemma held_locked st n a r b :
  held st n (a ++ r :: b) -> req_status r = LOCK ->
  match req_type r with WLOCK => st = WLOCKED /\ held FREE n (a ++ b)
  | RLOCK => st = RLOCKED /\ held (if Z.pred n =? 0 then FREE else RLOCKED) (Z.pred n) (a ++ b) end.
Proof.
  intros Hh Hl. remember (a ++ r :: b) as l eqn:E. destruct Hh as [w Hw|x w Hx Hw|g w Hne Hg Hw].
  - rewrite E, Forall_app, Forall_cons in Hw. destruct Hw as (_ & Hw & _). exfalso. by eapply waiting_not_locked.
  - destruct a as [|y a]; injection E as -> ->.
    + destruct Hx as [-> _]. split; [done | by constructor].
    + rewrite Forall_app, Forall_cons in Hw. destruct Hw as (_ & Hw & _). exfalso. by eapply waiting_not_locked.
  - symmetry in E. apply split_at in E as [(g' & -> & ->)|(w' & -> & _)].
    + rewrite Forall_app, Forall_cons in Hg. destruct Hg as (Hg1 & [-> _] & Hg2). split; [done|].
      replace (Z.pred _) with (Z.of_nat (length (a ++ g'))) by (rewrite !length_app; cbn [length]; lia).
      rewrite (app_assoc a g' w). destruct (Z.eqb_spec (Z.of_nat (length (a ++ g'))) 0) as [Hz|Hz].
      * rewrite Hz. assert (a ++ g' = []) as -> by (apply length_zero_iff_nil; lia). by constructor.
      * constructor; [by intros H0; rewrite H0 in Hz | by apply Forall_app | done].
    + rewrite Forall_app, Forall_cons in Hw. destruct Hw as (_ & Hw & _). exfalso. by eapply waiting_not_locked.
Qed.

Section loops.
Context (declines : Z -> bool) (Hdecl : forall id, declines id = true -> d = true).

(** What remains to be done after a call of [wound] does not depend on its outcome: the
    request stays only if it holds the lock. *)
Lemma try_wound_done next s a r b :
  wo_pre next s -> requests_ s = a ++ r :: b ->
  exists s' b', try_wound declines (length a) r s = Done (tt, s') /\ wo_pre next s' /\ requests_ s' = a ++ b' /\
    next_id_ s' = next_id_ s /\ (b' = b \/ b' = r :: b /\ req_status r = LOCK /\ d = true).
Proof.
  intros Hp E. pose proof Hp as [Hh Ho Ha Hd]. unfold try_wound, wound, is_waiting. case_bool_decide as Hw.
  { eexists _, b. split; [reflexivity|].
    unfold set_field. cbn. rewrite E, delete_middle. split_and!; [by eapply wound_waiting | done | done | by left]. }
  assert (req_status r = LOCK) as Hl by (by destruct (req_status r)).
  destruct (declines (req_id r)) eqn:Edec.
  { exists s, (r :: b). split; [done|]. split_and!; [done | done | done |]. right. split_and!; [done | done | by eapply Hdecl]. }
  rewrite E in Hh. pose proof (held_locked _ _ _ _ _ Hh Hl) as Hk. rewrite E in Ho, Ha.
  apply age_delete in Ho. apply answers_delete in Ha. unfold is_w.
  destruct (req_type r); destruct Hk as [Est Hk]; [rewrite bool_decide_false by done | rewrite bool_decide_true by done].
  - exists (mk_alock (next_id_ s) (if Z.pred (n_rlock_ s) =? 0 then FREE else RLOCKED) (Z.pred (n_rlock_ s)) (done_ s)
      (a ++ b) (n_r_in_queue_ s) (n_w_in_queue_ s) (called_ s)), b.
    split; [|split_and!; [done | done | done | by left]].
    unfold mbind, M_bind, is_rlocked, verify, modify, erase_at, set_field. cbn -[bool_decide]. rewrite (bool_decide_true _ Est). cbn.
    unfold modify. destruct (Z.pred (n_rlock_ s) =? 0); cbn; rewrite E, ?Est, delete_middle; done.
  - exists (mk_alock (next_id_ s) FREE (n_rlock_ s) (done_ s)
      (a ++ b) (n_r_in_queue_ s) (n_w_in_queue_ s) (called_ s)), b.
    split; [|split_and!; [done | done | done | by left]].
    unfold mbind, M_bind, verify, modify, erase_at, set_field. cbn -[bool_decide]. rewrite (bool_decide_true _ Est). unfold modify. cbn. by rewrite E, delete_middle.
Qed.

Definition below (p : Z) (l : list lock_req_t) : Prop := Forall (fun r => counts r -> req_priority r < p) l.
Definition writes_below (p : Z) (l : list lock_req_t) : Prop :=
  Forall (fun r => counts r -> req_type r = WLOCK -> req_priority r < p) l.

(** Whoever waits in front of a request that stays is older than it, if they conflict. *)
Lemma in_front next s a r b p x :
  wo_pre next s -> requests_ s = a ++ r :: b -> req_priority r < p -> x ∈ a -> counts x -> conflict x r -> req_priority x < p.
Proof.
  intros [Hh Ho _ _] E Hr Hx Hw Hc. rewrite E in *. destruct (decide (waiting r)) as [Hwr|Hl].
  - unfold age_ordered in Ho. rewrite StronglySorted_app in Ho. destruct Ho as (Ho & _).
    assert (req_priority x < req_priority r) by (apply Ho; [done | by left | done..]). lia.
  - assert (req_status r = LOCK) as Hl' by (unfold waiting in Hl; by destruct (req_status r)).
    pose proof (held_no_gap _ _ _ _ _ Hh Hl') as Hg. destruct Hg as [Hg Hr']. rewrite Forall_forall in Hg, Hr'. destruct (Hr' x Hx Hc).
Qed.

Lemma wound_for_write_done next p s a b :
  wo_pre next s -> requests_ s = a ++ b -> below p b ->
  exists s', wound_for_write declines p (length a) s = Done (tt, s') /\ wo_pre next s' /\ below p (requests_ s') /\
    next_id_ s' = next_id_ s.
Proof.
  revert s b. induction a as [|r a IH] using rev_ind; intros s b Hp E Hb; cbn [length wound_for_write].
  { exists s. rewrite E. done. }
  rewrite length_app. cbn [length]. rewrite Nat.add_1_r. cbn [wound_for_write]. rewrite <- app_assoc in E. cbn [app] in E.
  erewrite bind_eq by reflexivity. rewrite E, list_lookup_middle by done. erewrite bind_eq by reflexivity.
  destruct (Z.geb_spec (req_priority r) p) as [Hr|Hr].
  - destruct (try_wound_done next s a r b Hp E) as (s1 & b' & E1 & Hp1 & Er1 & En & Hb').
    rewrite (bind_eq _ _ _ _ _ E1). destruct (IH s1 b' Hp1 Er1) as (s' & E' & Hp' & Hb'' & En').
    + destruct Hb' as [->|(-> & Hl & Hdt)]; [done|]. constructor; [|done]. intros Hw. exfalso. eapply waiting_not_locked; [by apply Hw | done].
    + exists s'. split_and!; [done..|congruence].
  - assert (below p (r :: b)) as Hrb by (by constructor).
    unfold is_w. case_bool_decide as Ht; [|by apply (IH s (r :: b))].
    exists s. split_and!; try done. unfold below. rewrite E. apply Forall_app. split; [|done].
    apply Forall_forall. intros x Hx Hw. eapply in_front; try done. by right.
Qed.

Lemma wound_for_read_done next p s a b :
  wo_pre next s -> requests_ s = a ++ b -> writes_below p b ->
  exists s', wound_for_read declines p (length a) s = Done (tt, s') /\ wo_pre next s' /\ writes_below p (requests_ s') /\
    next_id_ s' = next_id_ s.
Proof.
  revert s b. induction a as [|r a IH] using rev_ind; intros s b Hp E Hb; cbn [length wound_for_read].
  { exists s. rewrite E. done. }
  rewrite length_app. cbn [length]. rewrite Nat.add_1_r. cbn [wound_for_read]. rewrite <- app_assoc in E. cbn [app] in E.
  erewrite bind_eq by reflexivity. rewrite E, list_lookup_middle by done. erewrite bind_eq by reflexivity.
  destruct (Z.ltb_spec (req_priority r) p) as [Hr|Hr].
  - exists s. split_and!; try done. unfold writes_below. rewrite E. apply Forall_app.
    split; [|by constructor]. apply Forall_forall. intros x Hx Hw Ht. eapply in_front; try done. by left.
  - unfold is_w. case_bool_decide as Ht; cbn [when].
    + destruct (try_wound_done next s a r b Hp E) as (s1 & b' & E1 & Hp1 & Er1 & En & Hb').
      rewrite (bind_eq _ _ _ _ _ E1). destruct (IH s1 b' Hp1 Er1) as (s' & E' & Hp' & Hb'' & En').
      * destruct Hb' as [->|(-> & Hl & Hdt)]; [done|]. constructor; [|done]. intros Hw. exfalso. eapply waiting_not_locked; [by apply Hw | done].
      * exists s'. split_and!; [done..|congruence].
    + erewrite bind_eq by reflexivity. apply (IH s (r :: b)); [done | done |]. by constructor.
Qed.

(** Whoever still waits in front of the new request and conflicts with it is older. *)
Lemma wound_die_done next s t p :
  wo_pre next s ->
  exists s', wound_die declines t p s = Done (tt, s') /\ wo_pre next s' /\ next_id_ s' = next_id_ s /\
    forall id x, x ∈ requests_ s' -> older_first x (mk_req id p t WAIT).
Proof.
  intros Hp. unfold wound_die. erewrite bind_eq by reflexivity. destruct t.
  - destruct (wound_for_read_done next p s (requests_ s) [] Hp) as (s' & E & Hp' & Hb & En);
      [by rewrite app_nil_r | constructor|].
    exists s'. split_and!; try done. intros id x Hx Hw _ [Hc|Hc]; [|done].
    unfold writes_below in Hb. rewrite Forall_forall in Hb. by apply Hb.
  - destruct (wound_for_write_done next p s (requests_ s) [] Hp) as (s' & E & Hp' & Hb & En);
      [by rewrite app_nil_r | constructor|].
    exists s'. split_and!; try done. intros id x Hx Hw _ _. unfold below in Hb. rewrite Forall_forall in Hb. by apply Hb.
Qed.
End loops.

(** ** Granting *)

Record wo_inv (s : ALock) : Prop := {
  woi_shape : well_shaped s;
  woi_ordered : age_ordered (requests_ s);
  woi_answers : answers (next_id_ s) (requests_ s) (called_ s);
  woi_done : done_ s = false;
}.

Lemma wo_inv_pre s : wo_inv s -> wo_pre (next_id_ s) s.
Proof. intros [Hs Ho Ha Hd]. split; try done. by apply shape_is_held. Qed.

(** Granting takes requests out of the waiting ones. *)
Lemma age_granted a b c : Forall waiting b -> age_ordered (a ++ b ++ c) -> age_ordered (a ++ (lock_it <$> b) ++ c).
Proof.
  assert (forall x y l, x ∈ (lock_it <$> l) ++ c -> (x ∈ c -> older_first y x) -> older_first y x) as Hnew.
  { intros x y l [Hx|Hx]%elem_of_app Hc; [|auto]. apply list_elem_of_fmap in Hx as (x0 & -> & _). intros _ Hw. done. }
  assert (forall l, Forall waiting l -> age_ordered (l ++ c) -> age_ordered ((lock_it <$> l) ++ c)) as Hb.
  { induction 1 as [|r l Hr Hl IH]; [done|]. intros [H1 H2]%StronglySorted_inv. constructor; [by apply IH|].
    apply Forall_forall. intros x Hx. apply (Hnew _ _ _ Hx). intros Hxc _ Hw Hc. rewrite Forall_forall in H2.
    apply (H2 x); [apply elem_of_app; by right | by intros _ | done | done]. }
  intros Hw. unfold age_ordered in *. rewrite !(StronglySorted_app _ a). intros (H1 & H2 & H3).
  split_and!; [|done | by apply Hb]. intros x y Hx Hy. apply (Hnew _ _ _ Hy). intros Hyc. apply H1; [done|].
  apply elem_of_app. by right.
Qed.

Lemma granted_wo_inv s s' :
  granted s s' -> well_shaped s' -> age_ordered (requests_ s) -> answers (next_id_ s) (requests_ s) (called_ s) ->
  done_ s = false -> wo_inv s'.
Proof.
  intros (a & b & c & E & E' & Hb & Ec & En & Ed & _) Hs Ho Ha Hd. rewrite E in Ho, Ha.
  split; [done | | | congruence].
  - rewrite E'. by apply age_granted.
  - rewrite E', Ec, En. by apply answers_granted.
Qed.

Lemma new_reads_eq i g w :
  Forall reading g -> Forall waiting w -> new_reads i false (g ++ w) = Some (read_run (i + length g) w).
Proof.
  intros Hg Hw. revert i. induction Hg as [|r g [H1 H2] Hg IH]; intros i; cbn [app new_reads length].
  - rewrite Nat.add_0_r. generalize false. revert i. induction Hw as [|r w Hr Hw IH]; intros i b; [done|].
    cbn [new_reads read_run]. unfold is_waiting. rewrite bool_decide_true by done. cbn [negb].
    destruct (is_r r); [|done]. by rewrite IH.
  - unfold is_waiting, is_r. rewrite H1, H2, bool_decide_false, bool_decide_true by done. cbn.
    rewrite IH. do 2 f_equal. lia.
Qed.

Lemma wo_grant_done s :
  held (lock_status_ s) (n_rlock_ s) (requests_ s) -> requests_ s ≠ [] ->
  exists s', wo_grant s = Done (tt, s') /\ granted s s' /\ well_shaped s'.
Proof.
  intros Hh Hne. unfold wo_grant. erewrite bind_eq by reflexivity.
  remember (lock_status_ s) as st eqn:Est. remember (n_rlock_ s) as n eqn:En. remember (requests_ s) as l eqn:El.
  destruct Hh as [w Hw|r w [H1 H2] Hw|g w Hgne Hg Hw].
  - destruct w as [|r w]; [done|]. erewrite bind_eq by reflexivity. unfold is_w. case_bool_decide as Ht.
    + apply Forall_cons in Hw as [Hr Hw]. rewrite (grant_write s r w) by done. eexists. split; [done|]. split.
      * exists [], [r], w. unfold set_field. cbn. split_and!; try done. by constructor.
      * unfold well_shaped, set_field. cbn. rewrite <- En. by apply shape_write.
    + destruct (grant_reads s [] (r :: w)) as (s' & E & Hg & Hs & _); try done; [|by exists s'].
      right. exists r, w. split; [done|]. by destruct (req_type r).
  - erewrite bind_eq by reflexivity. exists s. unfold is_w, is_waiting. rewrite H1, H2. split_and!; [done | by apply granted_none |].
    unfold well_shaped. rewrite <- Est, <- En, <- El. by apply shape_write.
  - destruct g as [|r g]; [done|]. erewrite bind_eq by reflexivity. pose proof Hg as [[H1 H2] _]%Forall_cons.
    unfold is_r, is_waiting. rewrite H1, H2, bool_decide_true, bool_decide_false by done. erewrite bind_eq by reflexivity.
    rewrite new_reads_eq by done. erewrite bind_eq by reflexivity. cbn [Nat.add].
    destruct (grant_reads s (r :: g) w) as (s' & E & Hg' & Hs & _); try done; [by left | by exists s'].
Qed.

Lemma held_enqueue st n l r : held st n l -> waiting r -> held st n (l ++ [r]).
Proof.
  intros Hh Hr. destruct Hh as [w Hw|x w Hx Hw|g w Hne Hg Hw].
  - constructor. apply Forall_app. split; [done | by constructor].
  - rewrite <- app_comm_cons. constructor; [done|]. apply Forall_app. split; [done | by constructor].
  - rewrite <- app_assoc. constructor; [done..|]. apply Forall_app. split; [done | by constructor].
Qed.

Lemma age_enqueue l r : age_ordered l -> (forall x, x ∈ l -> older_first x r) -> age_ordered (l ++ [r]).
Proof.
  intros Hl Hx. unfold age_ordered. rewrite StronglySorted_app. split_and!; [|done | repeat constructor].
  intros x y Hin ->%list_elem_of_singleton. auto.
Qed.

Lemma wo_vlock_done declines s t p :
  (forall id, declines id = true -> d = true) -> wo_inv s -> next_id_ s < 2 ^ 64 - 1 -> 1 <= next_id_ s ->
  exists s', wo_vlock declines t p s = Done (next_id_ s, s') /\ wo_inv s' /\ next_id_ s' = next_id_ s + 1.
Proof.
  intros Hdecl Hi Hb H1. unfold wo_vlock. erewrite bind_eq by reflexivity. erewrite bind_eq by reflexivity. fold (issued s).
  change (done_ (issued s)) with (done_ s). rewrite (woi_done s Hi).
  assert (wo_pre (next_id_ s) (issued s)) as Hp by (destruct (wo_inv_pre s Hi); by split).
  destruct (wound_die_done declines Hdecl _ _ t p Hp) as (s1 & E1 & [Hh Ho Ha Hd] & En & Hold).
  rewrite (bind_eq _ _ _ _ _ E1). erewrite bind_eq by reflexivity. set (s2 := s1 <| requests_ ::= _ |>).
  destruct (wo_grant_done s2) as (s' & E' & Hg & Hs').
  - by apply held_enqueue.
  - unfold s2, set_field. cbn. by destruct (requests_ s1).
  - exists s'. assert (next_id_ s2 = next_id_ s + 1) as En2 by (change (next_id_ s1 = next_id_ s + 1); rewrite En; by apply u64_next).
    split; [by rewrite (bind_eq _ _ _ _ _ E')|]. split.
    + apply (granted_wo_inv s2 s' Hg Hs'); [| |done].
      * apply age_enqueue; [done|]. intros x Hx. by apply Hold.
      * rewrite En2. by apply answers_enqueue.
    + destruct Hg as (? & ? & ? & _ & _ & _ & _ & -> & _). done.
Qed.
(** ** Releasing and giving up *)

Definition gone (a b : list lock_req_t) (n : Z) (s : ALock) : ALock :=
  mk_alock (next_id_ s) (lock_status_ s) n (done_ s) (a ++ b) (n_r_in_queue_ s) (n_w_in_queue_ s) (called_ s).

Lemma wo_abort_done s id : wo_inv s -> exists s', wo_abort id s = Done (tt, s') /\ wo_inv s' /\ next_id_ s' = next_id_ s.
Proof.
  intros [Hs Ho Ha Hd]. unfold wo_abort. erewrite bind_eq by reflexivity. rewrite Hd.
  destruct (find_req id (requests_ s) 0 0) as [[i n]|] eqn:Ef; [|by exists s].
  apply find_req_spec in Ef as (a & r & b & E & -> & <- & ->). unfold well_shaped in Hs. rewrite E in Hs, Ho, Ha.
  rewrite E, list_lookup_middle by done. erewrite bind_eq by reflexivity. cbn [Nat.add].
  apply age_delete in Ho. pose proof (answers_delete _ _ _ _ _ Ha) as Ha'.
  unfold is_waiting. case_bool_decide as Hw.
  - erewrite bind_eq by reflexivity. set (s1 := s <| requests_ ::= _ |>).
    assert (s1 = gone a b (n_rlock_ s) s) as -> by (unfold s1, gone, set_field; cbn; by rewrite E, delete_middle).
    destruct (waiting_leaves (gone a b (n_rlock_ s) s) _ _ a r b Hs Hw eq_refl eq_refl eq_refl) as (s' & E' & Hg & Hs').
    rewrite (bind_eq _ _ _ _ _ E'). eexists. split; [reflexivity|].
    destruct (granted_wo_inv _ _ Hg Hs' Ho Ha' Hd) as [I1 I2 I3 I4].
    destruct Hg as (x & y & z & E1 & E2 & Hy & Ec & En & _). split; [|done]. split; try done. unfold set_field. cbn in *.
    rewrite E2, Ec, En. by eapply answers_refuse_grant.
  - assert (req_status r = LOCK) as Hl by (by destruct (req_status r)).
    set (n := if is_r r then Z.pred (n_rlock_ s) else n_rlock_ s).
    destruct (locked_leaves (gone a b n s) _ _ a r b Hs Hl eq_refl eq_refl eq_refl) as (s' & E' & Hg & Hs').
    exists s'. split; [|split; [by apply (granted_wo_inv _ _ Hg Hs') | by destruct Hg as (? & ? & ? & _ & _ & _ & _ & -> & _)]].
    rewrite <- E'. unfold n, is_r.
    destruct (req_type r); [rewrite !bool_decide_true by done | rewrite !bool_decide_false by done];
      (erewrite bind_eq by reflexivity); (erewrite bind_eq by reflexivity); f_equal;
      unfold gone, set_field; cbn; by rewrite E, delete_middle.
Qed.
End age.

(** ** Runs of a lock *)

Inductive wound_event :=
  | WoLock (type : type_t) (priority : Z) (declines : list Z)
  | WoAbort (id : Z).

Definition wo_step (e : wound_event) : M ALock () :=
  match e with
  | WoLock t p ds => _ ← wo_vlock (fun id => bool_decide (id ∈ ds)) t p; mret ()
  | WoAbort id => wo_abort id
  end.

(** No holder ever declines. *)
Definition never_declines (e : wound_event) : Prop := match e with WoLock _ _ ds => ds = [] | WoAbort _ => True end.

Lemma wo_run d s es :
  (d = false -> Forall never_declines es) -> wo_inv d s -> 1 <= next_id_ s -> next_id_ s + Z.of_nat (length es) < 2 ^ 64 ->
  exists s', for_each es wo_step s = Done (tt, s') /\ wo_inv d s'.
Proof.
  intros Hd. revert s. induction es as [|[t p ds|id] es IH]; intros s Hi H1 Hb; cbn [for_each wo_step length] in *.
  - by exists s.
  - destruct (wo_vlock_done d (fun id => bool_decide (id ∈ ds)) s t p) as (s1 & E & Hi1 & En); try done; [|lia|].
    { intros id Hid%bool_decide_eq_true. destruct d; [done|]. specialize (Hd eq_refl). apply Forall_cons in Hd as [Hd _].
      cbn in Hd. subst ds. by apply not_elem_of_nil in Hid. }
    rewrite (bind_eq _ _ s tt s1) by (by rewrite (bind_eq _ _ _ _ _ E)).
    apply IH; [|done|lia|lia]. intros E0. by apply Hd, Forall_cons in E0 as [_ ?].
  - destruct (wo_abort_done d s id Hi) as (s1 & E & Hi1 & En). rewrite (bind_eq _ _ _ _ _ E).
    apply IH; [|done|lia|lia]. intros E0. by apply Hd, Forall_cons in E0 as [_ ?].
Qed.

Lemma new_wo_inv d : wo_inv d new_ALock.
Proof. destruct new_ALock_inv as [? _ _ _ ? ?]. split; [done | constructor | done | done]. Qed.

(** C23: whatever requests are made and given up and whoever declines to
    be wounded, no check in a wound-die lock fails; two requests hold the lock only if
    both read; nobody waits for a lock that nobody holds; every request is answered at
    most once, one that waits has not been answered, one that holds the lock was
    answered with yes; and of two waiting requests that conflict, the older is in
    front. *)
Theorem wound_die_lock_safe es :
  Z.of_nat (length es) < 2 ^ 64 - 1 ->
  exists s, for_each es wo_step new_ALock = Done (tt, s) /\ exclusive (requests_ s) /\
    (forall r, r ∈ requests_ s -> waiting r -> exists r', r' ∈ requests_ s /\ req_status r' = LOCK) /\
    NoDup (cb_id <$> called_ s) /\
    (forall r, r ∈ requests_ s ->
       if is_waiting r then req_id r ∉ cb_id <$> called_ s else Yes (req_id r) ∈ called_ s) /\
    (forall a b c r r', requests_ s = a ++ r :: b ++ r' :: c -> waiting r -> waiting r' -> conflict r r' ->
       req_priority r < req_priority r').
Proof.
  intros Hlen. destruct (wo_run true new_ALock es) as (s & E & [Hs Ho [A1 A2 A3 A4 _ _] _]);
    [done | apply new_wo_inv | done | cbn; lia|].
  exists s. split_and!; try done.
  - by eapply shape_exclusive.
  - intros r. by eapply shape_held.
  - intros r Hr. unfold is_waiting. case_bool_decide as Hw; [by apply A3|]. apply A4; [done|]. by destruct (req_status r).
  - intros a b c r r' Eq Hr Hr' Hc. rewrite Eq in Ho. unfold age_ordered in Ho. rewrite StronglySorted_app in Ho.
    destruct Ho as (_ & _ & Ho). apply StronglySorted_inv in Ho as [_ Ho]. rewrite Forall_app, Forall_cons in Ho.
    destruct Ho as (_ & Ho & _). apply Ho; [by intros _ | done | done].
Qed.

(** ** No deadlock *)

(** C24: if the holders of wound-die locks never decline, the
    transactions that ask for them cannot wait for each other in a circle: a
    transaction only ever waits behind one with a smaller priority value. *)
Theorem wound_die_no_deadlock locks :
  Forall (fun s => exists es, Z.of_nat (length es) < 2 ^ 64 - 1 /\ Forall never_declines es /\
    for_each es wo_step new_ALock = Done (tt, s)) locks ->
  forall p, ~ tc (waits_for locks) p p.
Proof.
  intros Hl. rewrite Forall_forall in Hl.
  assert (forall p q, waits_for locks p q -> q < p) as Hlt.
  { intros p q (s & Hs & a & b & c & r & r' & Eq & Hc & <- & <-). destruct (Hl s Hs) as (es & Hlen & Hn & E).
    destruct (wo_run false new_ALock es) as (s' & E' & Hi); [done | apply new_wo_inv | done | cbn; lia|].
    assert (s' = s) as -> by congruence. destruct Hi as [Hsh Ho _ _]. unfold well_shaped in Hsh. rewrite Eq in Ho, Hsh.
    unfold age_ordered in Ho. rewrite StronglySorted_app in Ho.
    destruct Ho as (_ & _ & Ho). apply StronglySorted_inv in Ho as [_ Ho]. rewrite Forall_app, Forall_cons in Ho.
    destruct Ho as (_ & Ho & _). apply Ho; [done | | done].
    destruct (req_status r) eqn:Er; [done|]. exfalso. apply shape_is_held in Hsh.
    rewrite app_comm_cons, app_assoc in Hsh. destruct (held_no_gap _ _ _ _ _ Hsh Er) as [_ Hg].
    rewrite Forall_forall in Hg. apply (Hg r'); [apply elem_of_app; right; by left | done]. }
  intros p Hp. assert (forall p q, tc (waits_for locks) p q -> q < p) as Htc.
  { induction 1 as [x y Hxy|x y z Hxy _ IH]; [auto|]. specialize (Hlt _ _ Hxy). lia. }
  specialize (Htc _ _ Hp). lia.
Qed.

(** ** Instances *)

(** A reader, a younger writer that waits, an older writer that drives both out, a
    reader that waits, and an older reader that the writer declines to yield to. *)
Definition demo_wound_events : list wound_event :=
  [WoLock RLOCK 5 []; WoLock WLOCK 7 []; WoLock WLOCK 4 []; WoLock RLOCK 6 []; WoLock RLOCK 3 [3]].

Definition demo_mild_events : list wound_event :=
  [WoLock RLOCK 5 []; WoLock WLOCK 7 []; WoLock WLOCK 4 []; WoLock RLOCK 6 []; WoLock RLOCK 3 []; WoAbort 4].

Definition demo_wound_lock : ALock :=
  match for_each demo_mild_events wo_step new_ALock with Done (_, s) => s | _ => new_ALock end.

Example demo_wound_calls :
  match for_each demo_wound_events wo_step new_ALock with
  | Done (_, s) => called_ s = [Yes 1; No 2; Yes 3] /\ req_id <$> requests_ s = [3; 4; 5]
  | _ => False
  end.
Proof. vm_compute. auto. Qed.

Lemma wound_die_lock_safe_witness :
  exists s, for_each demo_wound_events wo_step new_ALock = Done (tt, s) /\ exclusive (requests_ s).
Proof.
  destruct (wound_die_lock_safe demo_wound_events) as (s & H1 & H2 & _); [vm_compute; reflexivity|]. by exists s.
Defined.

Lemma wound_die_no_deadlock_witness : ~ tc (waits_for [demo_wound_lock; demo_wound_lock]) 3 3.
Proof.
  apply wound_die_no_deadlock. repeat constructor; exists demo_mild_events;
    (split_and!; [vm_compute; reflexivity | repeat constructor | vm_compute; reflexivity]).
Defined.
