(* ===== verification/ALockTimeout.v ===== *)
(** * Locks with a timeout: [TimeoutALock] and [Alarm]
    (src/rrr/misc/alock.hpp, src/rrr/misc/alock.cpp, src/rrr/misc/alarm.hpp)

    A request that cannot have the lock at once waits until it gets the lock or until
    its alarm goes off.  The callback of the alarm holds a reference to the request in
    the queue; here it holds the identifier, and looking it up fails if the request is
    gone, where the code would read freed memory.

    The alarm is one object for all the locks of a process; the model has the alarms of
    one lock.  The clock is an argument. *)
From stdpp Require Import base tactics numbers list relations sorting.
From S2P Require Import Prelude ALock.

(** ** [Alarm] *)

(** [waiting_] in the order of its keys: the keys are handed out in increasing order. *)
Record Alarm := mk_alarm {
  al_next_id : Z;
  al_waiting : list (Z * (Z * Z));   (* key, time, request *)
}.
#[export] Instance Eta_alarm : Eta Alarm := fun r => mk_alarm (al_next_id r) (al_waiting r).

Definition alarm_add (time req : Z) (a : Alarm) : Z * Alarm :=
  (al_next_id a, mk_alarm (u64 (al_next_id a + 1)) (al_waiting a ++ [(al_next_id a, (time, req))])).

Definition alarm_remove (id : Z) (a : Alarm) : Alarm :=
  a <| al_waiting ::= filter (fun e => e.1 ≠ id) |>.

(** ** [TimeoutALock] *)

Inductive treq_status := T_WAIT | T_LOCK | T_UNLOCK | T_ABORT | T_TIMEOUT.
#[export] Instance treq_status_dec : EqDecision treq_status.
Proof. solve_decision. Defined.

Record ALockReq := mk_treq {
  tr_id : Z;
  tr_type : type_t;
  tr_alarm_id : Z;
  tr_status : treq_status;
}.
#[export] Instance Eta_treq : Eta ALockReq := fun r => mk_treq (tr_id r) (tr_type r) (tr_alarm_id r) (tr_status r).

Record TimeoutALock := mk_tlock {
  tl_next_id : Z;
  tl_status : lock_status_t;
  tl_n_rlock : Z;
  tl_requests : list ALockReq;
  tl_tm_wait : Z;
  tl_alarm : Alarm;
  tl_called : list callback_t;
}.
#[export] Instance Eta_tlock : Eta TimeoutALock :=
  fun r => mk_tlock (tl_next_id r) (tl_status r) (tl_n_rlock r) (tl_requests r) (tl_tm_wait r) (tl_alarm r) (tl_called r).

Definition new_TimeoutALock (tm_wait : Z) : TimeoutALock := mk_tlock 1 FREE 0 [] tm_wait (mk_alarm 1 []) [].

Definition tl_get_next_id : M TimeoutALock Z :=
  state (fun s => (tl_next_id s, s <| tl_next_id ::= fun n => u64 (n + 1) |>)).

Definition tl_call (c : callback_t) : M TimeoutALock () := modify (fun s => s <| tl_called ::= fun l => l ++ [c] |>).

Definition lockable (s : TimeoutALock) (type : type_t) : bool :=
  bool_decide (tl_status s = FREE) || (bool_decide (tl_status s = RLOCKED) && bool_decide (type = RLOCK)).

(** The status and the number of readers when a request of this type gets the lock. *)
Definition take (type : type_t) (s : TimeoutALock) : TimeoutALock :=
  match type with
  | RLOCK => s <| tl_status := RLOCKED |> <| tl_n_rlock ::= Z.succ |>
  | WLOCK => s <| tl_status := WLOCKED |>
  end.

Definition tl_vlock (now : Z) (type : type_t) : M TimeoutALock Z :=
  id ← tl_get_next_id;
  s ← get;
  if lockable s type then
    modify (take type);;
    modify (fun s => s <| tl_requests ::= fun l => l ++ [mk_treq id type 0 T_LOCK] |>);;
    tl_call (Yes id);;
    mret id
  else if tl_tm_wait s >? 0 then
    let '(alarm_id, alarm) := alarm_add (u64 (now + tl_tm_wait s)) id (tl_alarm s) in
    modify (fun s => s <| tl_alarm := alarm |>);;
    modify (fun s => s <| tl_requests ::= fun l => l ++ [mk_treq id type alarm_id T_WAIT] |>);;
    mret id
  else
    when (tl_tm_wait s =? 0) (tl_call (No id));;
    mret id.

Definition set_treq_status (st : treq_status) (i : nat) : M TimeoutALock () :=
  modify (fun s => s <| tl_requests ::= alter (fun r => r <| tr_status := st |>) i |>).

(** [lock_all]: the first waiting request from position [i] on, and where the search
    ends; then the waiting readers after it. *)
Fixpoint first_waiting (i : nat) (l : list ALockReq) : option (nat * ALockReq) :=
  match l with
  | [] => None
  | r :: l => if bool_decide (tr_status r = T_WAIT) then Some (i, r) else first_waiting (S i) l
  end.

(** A waiting request gets the lock: [cas_status], the alarm and the counters. *)
Definition grant (i : nat) (r : ALockReq) : M TimeoutALock () :=
  set_treq_status T_LOCK i;;
  modify (fun s => s <| tl_alarm ::= alarm_remove (tr_alarm_id r) |>);;
  modify (take (tr_type r)).

Fixpoint grant_readers (i : nat) (l : list ALockReq) : M TimeoutALock (list Z) :=
  match l with
  | [] => mret []
  | r :: l =>
    if bool_decide (tr_type r = RLOCK) && bool_decide (tr_status r = T_WAIT) then
      grant i r;;
      ids ← grant_readers (S i) l;
      mret (tr_id r :: ids)
    else grant_readers (S i) l
  end.

Definition tl_lock_all : M TimeoutALock (list Z) :=
  s ← get;
  verify (bool_decide (tl_status s = FREE) && (tl_n_rlock s =? 0));;
  match first_waiting 0 (tl_requests s) with
  | None => mret []
  | Some (i, r) =>
    grant i r;;
    s ← get;
    ids ← (if bool_decide (tl_status s = RLOCKED) then grant_readers (S i) (drop (S i) (tl_requests s)) else mret []);
    mret (tr_id r :: ids)
  end.

Fixpoint find_treq (id : Z) (i : nat) (l : list ALockReq) : option (nat * ALockReq) :=
  match l with
  | [] => None
  | r :: l => if tr_id r =? id then Some (i, r) else find_treq id (S i) l
  end.

Definition tl_erase_at (i : nat) : M TimeoutALock () := modify (fun s => s <| tl_requests ::= delete i |>).

Definition tl_abort (id : Z) : M TimeoutALock () :=
  s ← get;
  match find_treq id 0 (tl_requests s) with
  | None => mret ()
  | Some (i, r) =>
    match tr_status r with
    | T_LOCK =>
      when (bool_decide (tr_type r = RLOCK)) (modify (fun s => s <| tl_n_rlock ::= Z.pred |>));;
      modify (fun s => if tl_n_rlock s =? 0 then s <| tl_status := FREE |> else s);;
      tl_erase_at i;;
      s ← get;
      ids ← (if bool_decide (tl_status s = FREE) then tl_lock_all else mret []);
      for_each ids (fun id => tl_call (Yes id))
    | T_WAIT =>
      modify (fun s => s <| tl_alarm ::= alarm_remove (tr_alarm_id r) |>);;
      tl_erase_at i
    | T_TIMEOUT => tl_erase_at i
    | T_UNLOCK | T_ABORT => abort
    end
  end.

(** The callback of an alarm. *)
Definition do_timeout (req : Z) : M TimeoutALock () :=
  s ← get;
  '(i, r) ← from_option (find_treq req 0 (tl_requests s));
  when (bool_decide (tr_status r = T_WAIT))
    (set_treq_status T_TIMEOUT i;;
     tl_call (No req)).

Definition exe_next (now : Z) : M TimeoutALock bool :=
  s ← get;
  match al_waiting (tl_alarm s) with
  | [] => mret false
  | (key, (tm_out, req)) :: _ =>
    if now >? tm_out then
      do_timeout req;;
      modify (fun s => s <| tl_alarm ::= alarm_remove key |>);;
      mret true
    else mret false
  end.

(** [run]: [while (exe_next()) { }]. *)
Fixpoint alarm_run (fuel : nat) (now : Z) : M TimeoutALock () :=
  match fuel with
  | O => out_of_fuel
  | S fuel => more ← exe_next now; if (more : bool) then alarm_run fuel now else mret ()
  end.

(** The destructor: one request after the other leaves the queue. *)
Fixpoint tl_destroy (l : list ALockReq) : M TimeoutALock () :=
  match l with
  | [] => mret ()
  | r :: l =>
    match tr_status r with
    | T_LOCK | T_TIMEOUT => mret ()
    | T_WAIT =>
      modify (fun s => s <| tl_alarm ::= alarm_remove (tr_alarm_id r) |>);;
      tl_call (No (tr_id r))
    | T_UNLOCK | T_ABORT => abort
    end;;
    tl_erase_at 0;;
    tl_destroy l
  end.

(** ** The invariant *)

Definition waits (r : ALockReq) : Prop := tr_status r = T_WAIT.
Definition holds (r : ALockReq) : Prop := tr_status r = T_LOCK.
#[export] Instance waits_dec r : Decision (waits r).
Proof. unfold waits. apply _. Defined.
#[export] Instance holds_dec r : Decision (holds r).
Proof. unfold holds. apply _. Defined.

(** Who may hold the lock, by its status. *)
Inductive held_by : lock_status_t -> Z -> list ALockReq -> Prop :=
  | held_by_none : held_by FREE 0 []
  | held_by_write r : tr_type r = WLOCK -> held_by WLOCKED 0 [r]
  | held_by_reads g : g ≠ [] -> Forall (fun r => tr_type r = RLOCK) g -> held_by RLOCKED (Z.of_nat (length g)) g.

(** The alarms, in order, are those of the waiting requests. *)
Definition alarm_of (e : Z * (Z * Z)) : Z * Z := (e.1, e.2.2).
Definition req_alarm (r : ALockReq) : Z * Z := (tr_alarm_id r, tr_id r).

Record alarms_ok (l : list ALockReq) (al : Alarm) : Prop := {
  ao_match : alarm_of <$> al_waiting al = req_alarm <$> filter waits l;
  ao_keys : NoDup (fst <$> al_waiting al);
  ao_issued : Forall (fun e => e.1 < al_next_id al) (al_waiting al);
}.

Lemma filter_all {A} (P : A -> Prop) `{forall x, Decision (P x)} (l : list A) : (forall x, x ∈ l -> P x) -> filter P l = l.
Proof.
  induction l as [|x l IH]; intros Hl; [done|]. rewrite filter_cons_True by (apply Hl; by left). f_equal. apply IH.
  intros y Hy. apply Hl. by right.
Qed.

(** A waiting request leaves the waiting ones, and its alarm is removed. *)
Lemma alarms_drop a r m b al :
  alarms_ok (a ++ r :: b) al -> waits r -> filter waits m = [] ->
  alarms_ok (a ++ m ++ b) (alarm_remove (tr_alarm_id r) al).
Proof.
  intros [H1 H2 H3] Hr Hm. unfold alarm_remove, set_field. rewrite filter_app, filter_cons_True in H1 by done.
  rewrite fmap_app, fmap_cons in H1. apply fmap_app_inv in H1 as (x & y & Hx & Hy & Exy). rewrite Exy in *.
  destruct y as [|e y]; [done|]. cbn in Hy. apply (f_equal (fun l => (head l, tail l))) in Hy. cbn in Hy. injection Hy as Ee Ei Hy.
  rewrite fmap_app, fmap_cons in H2. apply NoDup_app in H2 as (N1 & N2 & N3). apply NoDup_cons in N3 as [N3 N4].
  symmetry in Ee.
  assert (filter (fun e : Z * (Z * Z) => e.1 ≠ tr_alarm_id r) (x ++ e :: y) = x ++ y) as Ef.
  { rewrite filter_app, filter_cons_False by (intros H; by apply H). f_equal.
    - apply filter_all. intros e' He' E'. apply (N2 e'.1); [by apply list_elem_of_fmap_2 | rewrite E', <- Ee; by left].
    - apply filter_all. intros e' He' E'. apply N3. rewrite Ee, <- E'. by apply list_elem_of_fmap_2. }
  split; cbn; rewrite ?Ef.
  - rewrite !filter_app, Hm, !fmap_app. cbn. by rewrite Hx, Hy.
  - rewrite fmap_app. apply NoDup_app. split_and!; [done| |done]. intros z Hz Hz'. apply (N2 z Hz). by right.
  - rewrite Forall_app, Forall_cons in H3. apply Forall_app. tauto.
Qed.

(** The queue as the other locks have it: the requests that timed out have left. *)
Definition in_view (r : ALockReq) : Prop := tr_status r ≠ T_TIMEOUT.
#[export] Instance in_view_dec r : Decision (in_view r).
Proof. unfold in_view. apply _. Defined.
Definition to_req (r : ALockReq) : lock_req_t :=
  mk_req (tr_id r) 0 (tr_type r) (if bool_decide (waits r) then WAIT else LOCK).
Definition view (l : list ALockReq) : list lock_req_t := to_req <$> filter in_view l.

Lemma view_app l k : view (l ++ k) = view l ++ view k.
Proof. unfold view. by rewrite filter_app, fmap_app. Qed.
Lemma view_waits r l : waits r -> view (r :: l) = mk_req (tr_id r) 0 (tr_type r) WAIT :: view l.
Proof.
  intros Hr. unfold view. rewrite filter_cons_True by (unfold in_view, waits in *; congruence).
  rewrite fmap_cons. unfold to_req at 1. by rewrite bool_decide_true.
Qed.
Lemma view_holds r l : holds r -> view (r :: l) = mk_req (tr_id r) 0 (tr_type r) LOCK :: view l.
Proof.
  intros Hr. unfold view. rewrite filter_cons_True by (unfold in_view, holds in *; congruence).
  rewrite fmap_cons. unfold to_req at 1. rewrite bool_decide_false; [done|]. unfold waits, holds in *. congruence.
Qed.
Lemma view_timeout r l : tr_status r = T_TIMEOUT -> view (r :: l) = view l.
Proof. intros Hr. unfold view. rewrite filter_cons_False; [done|]. unfold in_view. intros H. by apply H. Qed.

Definition live (r : ALockReq) : Prop := waits r \/ holds r \/ tr_status r = T_TIMEOUT.

(** [cs] are the calls made or about to be made. *)
Record tl_core (cs : list callback_t) (s : TimeoutALock) : Prop := {
  tc_held : held_by (tl_status s) (tl_n_rlock s) (filter holds (tl_requests s));
  tc_live : Forall live (tl_requests s);
  tc_alarms : alarms_ok (tl_requests s) (tl_alarm s);
  tc_answers : answers (tl_next_id s) (view (tl_requests s)) cs;
  tc_ids : NoDup (tr_id <$> tl_requests s);
  tc_issued : Forall (fun r => tr_id r < tl_next_id s) (tl_requests s);
  tc_timed : Forall (fun r => tr_status r = T_TIMEOUT -> No (tr_id r) ∈ cs) (tl_requests s);
  tc_alarm_next : al_next_id (tl_alarm s) <= tl_next_id s;
}.

Record tl_inv (s : TimeoutALock) : Prop := {
  ti_core : tl_core (tl_called s) s;
  ti_free : tl_status s = FREE -> filter waits (tl_requests s) = [];
}.

(** ** Granting *)

Definition locked (r : ALockReq) : ALockReq := r <| tr_status := T_LOCK |>.

(** The state after a waiting request got the lock. *)
Definition granted_to (a : list ALockReq) (r : ALockReq) (b : list ALockReq) (s : TimeoutALock) : TimeoutALock :=
  take (tr_type r) (s <| tl_requests := a ++ locked r :: b |> <| tl_alarm ::= alarm_remove (tr_alarm_id r) |>).

Lemma grant_eq a r b s : tl_requests s = a ++ r :: b -> grant (length a) r s = Done (tt, granted_to a r b s).
Proof.
  intros E. unfold grant. erewrite bind_eq by reflexivity. erewrite bind_eq by reflexivity.
  unfold modify, granted_to, set_field. cbn. by rewrite E, alter_middle.
Qed.

Lemma take_fields t s :
  tl_next_id (take t s) = tl_next_id s /\ tl_requests (take t s) = tl_requests s /\ tl_alarm (take t s) = tl_alarm s /\
  tl_called (take t s) = tl_called s /\ tl_tm_wait (take t s) = tl_tm_wait s.
Proof. by destruct t. Qed.

Lemma take_held t s ga r gb :
  held_by (tl_status s) (tl_n_rlock s) (ga ++ gb) -> lockable s t = true -> tr_type r = t ->
  held_by (tl_status (take t s)) (tl_n_rlock (take t s)) (ga ++ r :: gb).
Proof.
  unfold lockable. intros Hh Hl Ht. apply orb_true_iff in Hl as [Hl%bool_decide_eq_true|Hl].
  - rewrite Hl in Hh. inversion Hh as [H1 H2 H3| |]; subst. symmetry in H3. apply app_nil in H3 as [-> ->].
    destruct (tr_type r) eqn:Er; unfold take, set_field; cbn; rewrite <- H2.
    + apply (held_by_reads [r]); [done|]. by constructor.
    + by constructor.
  - apply andb_true_iff in Hl as [Hl%bool_decide_eq_true ->%bool_decide_eq_true]. rewrite Hl in Hh.
    inversion Hh as [| |g Hne Hg H1 H2 H3]; subst. unfold take, set_field. cbn. rewrite <- H2.
    replace (Z.succ _) with (Z.of_nat (length (ga ++ r :: gb))) by (rewrite !length_app; cbn; lia).
    apply Forall_app in Hg as [G1 G2]. constructor; [by destruct ga|]. apply Forall_app. split; [done | by constructor].
Qed.

Lemma granted_to_core cs s a r b :
  tl_core cs s -> tl_requests s = a ++ r :: b -> waits r -> lockable s (tr_type r) = true ->
  tl_core (cs ++ [Yes (tr_id r)]) (granted_to a r b s).
Proof.
  intros [H1 H2 H3 H4 H5 H6 H7 H8] E Hr Hl. rewrite E in *. unfold granted_to. set (s1 := s <| tl_requests := _ |> <| tl_alarm ::= _ |>).
  destruct (take_fields (tr_type r) s1) as (E0 & E1 & E2 & _ & _). assert (waits r -> ~ holds r) as Hwh by (unfold waits, holds; congruence).
  assert (tl_requests s1 = a ++ locked r :: b /\ tl_alarm s1 = alarm_remove (tr_alarm_id r) (tl_alarm s) /\
    tl_next_id s1 = tl_next_id s) as (F1 & F2 & F3) by done.
  split; rewrite ?E0, ?E1, ?E2, ?F1, ?F2, ?F3.
  - rewrite filter_app, filter_cons_True by done. apply take_held; [|done|done].
    rewrite filter_app, filter_cons_False in H1 by auto. done.
  - rewrite Forall_app, Forall_cons in *. destruct H2 as (? & _ & ?). split_and!; try done. right. by left.
  - by apply (alarms_drop a r [locked r] b).
  - rewrite view_app, view_waits in H4 by done. rewrite view_app, view_holds by done.
    apply (answers_granted _ _ [mk_req (tr_id r) 0 (tr_type r) WAIT]) in H4; [exact H4 | by constructor].
  - rewrite fmap_app, fmap_cons in *. done.
  - rewrite Forall_app, Forall_cons in *. done.
  - rewrite Forall_app, Forall_cons in *. destruct H7 as (H7 & _ & H7').
    split_and!; [| by intros ? |]; (eapply Forall_impl; [done|]; intros x Hx Ht; apply elem_of_app; left; auto).
  - done.
Qed.

(** What granting does not change. *)
Definition same_rest (s s' : TimeoutALock) : Prop :=
  tl_next_id s' = tl_next_id s /\ tl_called s' = tl_called s /\ tl_tm_wait s' = tl_tm_wait s /\
  al_next_id (tl_alarm s') = al_next_id (tl_alarm s).

Lemma granted_to_rest a r b s : tl_requests s = a ++ r :: b -> same_rest s (granted_to a r b s).
Proof.
  intros E. unfold same_rest, granted_to. set (s1 := s <| tl_requests := _ |> <| tl_alarm ::= _ |>).
  destruct (take_fields (tr_type r) s1) as (-> & _ & -> & -> & ->). split_and!; done.
Qed.

Lemma same_rest_trans s1 s2 s3 : same_rest s1 s2 -> same_rest s2 s3 -> same_rest s1 s3.
Proof. unfold same_rest. intros (?&?&?&?) (?&?&?&?). split_and!; congruence. Qed.

Lemma grant_readers_done cs s a l :
  tl_core cs s -> tl_status s = RLOCKED -> tl_requests s = a ++ l ->
  exists ids s', grant_readers (length a) l s = Done (ids, s') /\ tl_core (cs ++ (Yes <$> ids)) s' /\
    tl_status s' = RLOCKED /\ same_rest s s'.
Proof.
  revert cs s a. induction l as [|r l IH]; intros cs s a Hc Hst E; cbn [grant_readers].
  { exists [], s. cbn. rewrite app_nil_r. done. }
  destruct (bool_decide (tr_type r = RLOCK) && bool_decide (tr_status r = T_WAIT)) eqn:Eb.
  - apply andb_true_iff in Eb as [Ht%bool_decide_eq_true Hw%bool_decide_eq_true].
    rewrite (bind_eq _ _ _ _ _ (grant_eq a r l s E)).
    assert (lockable s (tr_type r) = true) as Hl by (unfold lockable; by rewrite Hst, Ht).
    pose proof (granted_to_core cs s a r l Hc E Hw Hl) as Hc1. pose proof (granted_to_rest a r l s E) as Hr1.
    destruct (IH _ (granted_to a r l s) (a ++ [locked r]) Hc1) as (ids & s' & E' & Hc' & Hst' & Hr').
    + unfold granted_to. by rewrite Ht.
    + unfold granted_to. rewrite <- app_assoc. by destruct (tr_type r).
    + exists (tr_id r :: ids), s'. rewrite length_app, Nat.add_1_r in E'. rewrite (bind_eq _ _ _ _ _ E').
      rewrite <- app_assoc in Hc'. split_and!; try done. by eapply same_rest_trans.
  - replace (S (length a)) with (length (a ++ [r])) by (rewrite length_app; cbn; lia). apply IH; [done..|].
    by rewrite <- app_assoc.
Qed.

Lemma first_waiting_some l i0 i r :
  first_waiting i0 l = Some (i, r) -> exists a b, l = a ++ r :: b /\ i = (i0 + length a)%nat /\ waits r.
Proof.
  revert i0. induction l as [|x l IH]; intros i0; cbn [first_waiting]; [done|]. case_bool_decide as Hx.
  - intros [= <- <-]. exists [], l. cbn. split_and!; [done | lia | done].
  - intros (a & b & -> & -> & Hr)%IH. exists (x :: a), b. cbn. split_and!; [done | lia | done].
Qed.

Lemma first_waiting_none l i : first_waiting i l = None -> filter waits l = [].
Proof.
  revert i. induction l as [|x l IH]; intros i; cbn [first_waiting]; [done|]. case_bool_decide as Hx; [done|].
  intros Hn%IH. by rewrite filter_cons_False.
Qed.

Lemma tl_lock_all_done cs s :
  tl_core cs s -> tl_status s = FREE ->
  exists ids s', tl_lock_all s = Done (ids, s') /\ tl_core (cs ++ (Yes <$> ids)) s' /\ same_rest s s' /\
    (tl_status s' = FREE -> filter waits (tl_requests s') = []).
Proof.
  intros Hc Hf. unfold tl_lock_all. erewrite bind_eq by reflexivity.
  pose proof (tc_held _ _ Hc) as Hh. rewrite Hf in Hh |- *. inversion Hh as [E1 E2 E3| |]; subst.
  cbn [bool_decide decide_rel lock_status_t_dec andb Z.eqb]. erewrite bind_eq by reflexivity.
  destruct (first_waiting 0 (tl_requests s)) as [[i r]|] eqn:Ef.
  - apply first_waiting_some in Ef as (a & b & E & -> & Hr). cbn [Nat.add].
    rewrite (bind_eq _ _ _ _ _ (grant_eq a r b s E)). erewrite bind_eq by reflexivity.
    assert (lockable s (tr_type r) = true) as Hl by (unfold lockable; by rewrite Hf).
    pose proof (granted_to_core cs s a r b Hc E Hr Hl) as Hc1. pose proof (granted_to_rest a r b s E) as Hr1.
    assert (tl_requests (granted_to a r b s) = (a ++ [locked r]) ++ b) as Eq.
    { rewrite <- app_assoc. unfold granted_to. by destruct (tr_type r). }
    destruct (tr_type r) eqn:Ht.
    + assert (tl_status (granted_to a r b s) = RLOCKED) as Hst by (unfold granted_to; by rewrite Ht). rewrite Hst.
      cbn [bool_decide decide_rel lock_status_t_dec].
      destruct (grant_readers_done _ _ (a ++ [locked r]) b Hc1 Hst Eq) as (ids & s' & E' & Hc' & Hst' & Hr').
      rewrite length_app, Nat.add_1_r in E'. exists (tr_id r :: ids), s'.
      replace (drop _ _) with b by (rewrite Eq, drop_app_length'; [done | rewrite length_app; cbn; lia]).
      rewrite (bind_eq _ _ _ _ _ E'). rewrite <- app_assoc in Hc'. split_and!; try done; [by eapply same_rest_trans|].
      by rewrite Hst'.
    + assert (tl_status (granted_to a r b s) = WLOCKED) as Hst by (unfold granted_to; by rewrite Ht). rewrite Hst.
      cbn [bool_decide decide_rel lock_status_t_dec]. erewrite bind_eq by reflexivity. eexists [tr_id r], _.
      split_and!; try done. by rewrite Hst.
  - exists [], s. cbn. rewrite app_nil_r. split_and!; try done. intros _. by eapply first_waiting_none.
Qed.

(** ** New requests *)

Lemma lockable_not_free t s : tl_status (take t s) ≠ FREE.
Proof. by destruct t. Qed.

Lemma not_lockable_held t s : lockable s t = false -> tl_status s ≠ FREE.
Proof. unfold lockable. intros [H%bool_decide_eq_false _]%orb_false_iff. done. Qed.

Lemma alarms_add l al now req r :
  alarms_ok l al -> al_next_id al < 2 ^ 64 - 1 -> 1 <= al_next_id al -> r = mk_treq req (tr_type r) (al_next_id al) T_WAIT ->
  alarms_ok (l ++ [r]) (alarm_add now req al).2 /\ al_next_id (alarm_add now req al).2 = al_next_id al + 1.
Proof.
  intros [H1 H2 H3] Hb H0 Er. assert (u64 (al_next_id al + 1) = al_next_id al + 1) as Eu.
  { apply wrap_u_id. unfold in_u. lia. }
  unfold alarm_add. cbn -[wrap_u]. rewrite Eu. split; [|done]. split; cbn -[wrap_u].
  - rewrite fmap_app, filter_app, fmap_app, H1, filter_cons_True by (by rewrite Er). cbn. f_equal. by rewrite Er.
  - rewrite fmap_app. apply NoDup_app. split_and!; [done | | apply NoDup_singleton].
    intros x (e & -> & He)%list_elem_of_fmap E%list_elem_of_singleton. rewrite Forall_forall in H3. specialize (H3 e He).
    cbn in E. lia.
  - apply Forall_app. split; [|constructor; [cbn; lia | constructor]]. eapply Forall_impl; [exact H3|]. cbn. intros. lia.
Qed.

Lemma fresh_id l n (x : ALockReq) :
  Forall (fun r => tr_id r < n) l -> NoDup (tr_id <$> l) -> tr_id x = n ->
  NoDup (tr_id <$> l ++ [x]) /\ Forall (fun r => tr_id r < n + 1) (l ++ [x]).
Proof.
  intros H1 H2 Hx. split.
  - rewrite fmap_app. apply NoDup_app. split_and!; [done | | apply NoDup_singleton].
    intros i (r & -> & Hr)%list_elem_of_fmap E%list_elem_of_singleton. rewrite Forall_forall in H1. specialize (H1 r Hr). lia.
  - apply Forall_app. split; [|constructor; [lia | constructor]]. eapply Forall_impl; [exact H1|]. cbn. intros. lia.
Qed.

Lemma filter_waits_app l (x : ALockReq) : waits x \/ filter waits (l ++ [x]) = filter waits l.
Proof. destruct (decide (waits x)); [by left|]. right. rewrite filter_app, filter_cons_False by done. by rewrite app_nil_r. Qed.

Section vlock.
Context (s : TimeoutALock) (Hi : tl_inv s) (Hb : tl_next_id s < 2 ^ 64 - 1) (H1 : 1 <= al_next_id (tl_alarm s)).

Lemma vlock_next : u64 (tl_next_id s + 1) = tl_next_id s + 1.
Proof. apply wrap_u_id. pose proof (tc_alarm_next _ _ (ti_core _ Hi)). unfold in_u. lia. Qed.

Let inc : TimeoutALock := s <| tl_next_id ::= fun n => u64 (n + 1) |>.

Lemma inc_fields : tl_requests inc = tl_requests s /\ tl_called inc = tl_called s /\ tl_alarm inc = tl_alarm s /\
  tl_next_id inc = tl_next_id s + 1.
Proof. split_and!; try done. apply vlock_next. Qed.

Lemma vlock_grant_inv t : lockable s t = true ->
  tl_inv ((take t inc) <| tl_requests ::= fun l => l ++ [mk_treq (tl_next_id s) t 0 T_LOCK] |>
    <| tl_called ::= fun l => l ++ [Yes (tl_next_id s)] |>).
Proof.
  intros Hl. pose proof Hi as [[C1 C2 C3 C4 C5 C6 C7 C8] Hf]. destruct (take_fields t inc) as (E0 & E1 & E2 & E3 & _).
  destruct inc_fields as (G1 & G2 & G3 & G4).
  set (x := mk_treq (tl_next_id s) t 0 T_LOCK). destruct (fresh_id _ _ x C6 C5 eq_refl) as [F1 F2].
  unfold set_field. split; [|intros E; by destruct (lockable_not_free t inc)].
  split; cbn -[take wrap_u view]; rewrite ?E0, ?E1, ?E2, ?E3, ?G1, ?G2, ?G3, ?G4.
  - rewrite filter_app, filter_cons_True by done. cbn [filter list_filter].
    rewrite <- (app_nil_r (filter holds (tl_requests s))) in C1. by apply take_held.
  - apply Forall_app. split; [done|]. constructor; [right; by left | constructor].
  - destruct C3 as [A1 A2 A3]. split; try done.
    destruct (filter_waits_app (tl_requests s) x) as [?| ->]; done.
  - rewrite view_app, view_holds by done. apply (answers_enqueue _ _ _ 0 t) in C4.
    apply (answers_granted _ _ [mk_req (tl_next_id s) 0 t WAIT] []) in C4; [exact C4 | by constructor].
  - done.
  - done.
  - apply Forall_app. split; [|by constructor]. eapply Forall_impl; [exact C7|]. intros r Hr Ht. apply elem_of_app. left. auto.
  - lia.
Qed.

Lemma vlock_wait_inv t time : lockable s t = false ->
  tl_inv (inc <| tl_alarm := (alarm_add time (tl_next_id s) (tl_alarm s)).2 |>
    <| tl_requests ::= fun l => l ++ [mk_treq (tl_next_id s) t (al_next_id (tl_alarm s)) T_WAIT] |>) /\
  al_next_id (alarm_add time (tl_next_id s) (tl_alarm s)).2 = al_next_id (tl_alarm s) + 1.
Proof.
  intros Hl. destruct Hi as [[C1 C2 C3 C4 C5 C6 C7 C8] Hf]. pose proof (not_lockable_held _ _ Hl) as Hnf.
  set (x := mk_treq (tl_next_id s) t (al_next_id (tl_alarm s)) T_WAIT). destruct (fresh_id _ _ x C6 C5 eq_refl) as [F1 F2].
  destruct (alarms_add _ _ time (tl_next_id s) x C3 ltac:(lia) H1 eq_refl) as [A1 A2]. split; [|done].
  unfold set_field. split; [|done]. split; cbn -[alarm_add wrap_u view]; rewrite ?vlock_next.
  - by rewrite filter_app, filter_cons_False, app_nil_r.
  - apply Forall_app. split; [done|]. constructor; [by left | constructor].
  - exact A1.
  - rewrite view_app, view_waits by done. by apply (answers_enqueue _ _ _ 0 t).
  - done.
  - done.
  - apply Forall_app. split; [done | by constructor].
  - rewrite A2. lia.
Qed.

Lemma vlock_refuse_inv : tl_inv (inc <| tl_called ::= fun l => l ++ [No (tl_next_id s)] |>).
Proof.
  destruct Hi as [[C1 C2 C3 C4 C5 C6 C7 C8] Hf]. unfold set_field. split; [|done].
  split; cbn -[wrap_u view]; rewrite ?vlock_next; try done.
  - by apply answers_turn_away.
  - eapply Forall_impl; [exact C6|]. cbn. intros. lia.
  - eapply Forall_impl; [exact C7|]. intros r Hr Ht. apply elem_of_app. left. auto.
  - lia.
Qed.
End vlock.

(** The operations keep the alarm's counter positive and move on by one request at most. *)
Definition counters (k : Z) (s s' : TimeoutALock) : Prop :=
  tl_next_id s' = tl_next_id s + k /\ al_next_id (tl_alarm s) <= al_next_id (tl_alarm s').

Lemma tl_vlock_done now t s :
  tl_inv s -> tl_next_id s < 2 ^ 64 - 1 -> 1 <= al_next_id (tl_alarm s) -> 0 <= tl_tm_wait s ->
  exists s', tl_vlock now t s = Done (tl_next_id s, s') /\ tl_inv s' /\ counters 1 s s' /\ tl_tm_wait s' = tl_tm_wait s.
Proof.
  intros Hi Hb H1 Hw. unfold tl_vlock, counters. erewrite bind_eq by reflexivity. erewrite bind_eq by reflexivity.
  set (inc := s <| tl_next_id ::= _ |>). change (lockable inc t) with (lockable s t). change (tl_tm_wait inc) with (tl_tm_wait s).
  destruct (lockable s t) eqn:Hl.
  - do 3 (erewrite bind_eq by reflexivity). eexists. split; [reflexivity|]. split; [by apply vlock_grant_inv|].
    destruct (take_fields t inc) as (E0 & _ & E2 & _ & E4). unfold set_field. cbn -[take wrap_u]. rewrite E0, E2, E4.
    unfold inc, set_field. cbn -[wrap_u]. by rewrite (vlock_next s Hi Hb H1).
  - destruct (Z.gtb_spec (tl_tm_wait s) 0) as [Hp|Hp].
    + destruct (vlock_wait_inv s Hi Hb H1 t (u64 (now + tl_tm_wait s)) Hl) as [I1 I2].
      unfold alarm_add at 1. do 2 (erewrite bind_eq by reflexivity). eexists. split; [reflexivity|]. split; [exact I1|].
      unfold set_field. cbn -[wrap_u]. rewrite (vlock_next s Hi Hb H1). cbn -[wrap_u] in I2. rewrite I2. split_and!; [done | lia | done].
    + destruct (Z.eqb_spec (tl_tm_wait s) 0); [|lia]. cbn [when]. erewrite bind_eq by reflexivity.
      eexists. split; [reflexivity|]. split; [by apply vlock_refuse_inv|].
      unfold set_field. cbn -[wrap_u]. by rewrite (vlock_next s Hi Hb H1).
Qed.

(** ** Releasing and giving up *)

Lemma find_treq_spec id l i0 i r :
  find_treq id i0 l = Some (i, r) -> exists a b, l = a ++ r :: b /\ i = (i0 + length a)%nat /\ tr_id r = id.
Proof.
  revert i0. induction l as [|x l IH]; intros i0; cbn [find_treq]; [done|]. destruct (Z.eqb_spec (tr_id x) id) as [<-|].
  - intros [= <- <-]. exists [], l. cbn. split_and!; [done | lia | done].
  - intros (a & b & -> & -> & Hr)%IH. exists (x :: a), b. cbn. split_and!; [done | lia | done].
Qed.

Lemma find_treq_in id l i0 a r b :
  NoDup (tr_id <$> l) -> l = a ++ r :: b -> tr_id r = id -> find_treq id i0 l = Some ((i0 + length a)%nat, r).
Proof.
  intros Hnd -> Hr. revert i0. induction a as [|x a IH]; intros i0; cbn [app find_treq].
  - destruct (Z.eqb_spec (tr_id r) id); [|done]. cbn. by rewrite Nat.add_0_r.
  - rewrite <- app_comm_cons, fmap_cons in Hnd. apply NoDup_cons in Hnd as [Hx Hnd]. destruct (Z.eqb_spec (tr_id x) id) as [Hxi|].
    + destruct Hx. rewrite Hxi, <- Hr. apply list_elem_of_fmap_2, elem_of_app. right. by left.
    + rewrite IH by done. cbn. do 2 f_equal. lia.
Qed.

Lemma answers_view_delete next a r b cs : answers next (view (a ++ r :: b)) cs -> answers next (view (a ++ b)) cs.
Proof.
  rewrite !view_app. unfold view at 2. rewrite filter_cons. destruct (decide (in_view r)); [|done].
  rewrite fmap_cons. apply answers_delete.
Qed.

(** A request leaves the queue. *)
Lemma core_remove cs s a r b st n al :
  tl_core cs s -> tl_requests s = a ++ r :: b -> held_by st n (filter holds (a ++ b)) -> alarms_ok (a ++ b) al ->
  al_next_id al = al_next_id (tl_alarm s) ->
  tl_core cs (mk_tlock (tl_next_id s) st n (a ++ b) (tl_tm_wait s) al (tl_called s)).
Proof.
  intros [C1 C2 C3 C4 C5 C6 C7 C8] E Hh Ha Hn. rewrite E in *.
  assert (forall P : ALockReq -> Prop, Forall P (a ++ r :: b) -> Forall P (a ++ b)) as HF.
  { intros P. rewrite !Forall_app, Forall_cons. tauto. }
  split; cbn -[view]; auto; [by eapply answers_view_delete | | by rewrite Hn].
  eapply sublist_NoDup; [exact C5|]. apply fmap_sublist, sublist_app; [done | by apply sublist_cons].
Qed.

Lemma alarms_keep a r b al : alarms_ok (a ++ r :: b) al -> ~ waits r -> alarms_ok (a ++ b) al.
Proof. intros [H1 H2 H3] Hr. split; try done. rewrite filter_app, filter_cons_False in H1 by done. by rewrite filter_app. Qed.

Definition readers_left (t : type_t) (n : Z) : Z := match t with RLOCK => Z.pred n | WLOCK => n end.

Lemma held_release st n ha r hb :
  held_by st n (ha ++ r :: hb) ->
  held_by (if readers_left (tr_type r) n =? 0 then FREE else st) (readers_left (tr_type r) n) (ha ++ hb).
Proof.
  remember (ha ++ r :: hb) as l eqn:E. intros Hh. destruct Hh as [|x Hx|g Hne Hg].
  - by destruct ha.
  - destruct ha as [|y ha]; injection E as -> E; [|by destruct ha]. subst hb. rewrite Hx. constructor.
  - subst g. rewrite Forall_app, Forall_cons in Hg. destruct Hg as (G1 & G2 & G3). rewrite G2. cbn [readers_left].
    replace (Z.pred _) with (Z.of_nat (length (ha ++ hb))) by (rewrite !length_app; cbn [length]; lia).
    destruct (Z.eqb_spec (Z.of_nat (length (ha ++ hb))) 0) as [Hz|Hz].
    + rewrite Hz. assert (ha ++ hb = []) as -> by (apply length_zero_iff_nil; lia). constructor.
    + constructor; [intros H0; by rewrite H0 in Hz | by apply Forall_app].
Qed.

(** The state after a holder left. *)
Definition released (a : list ALockReq) (r : ALockReq) (b : list ALockReq) (s : TimeoutALock) : TimeoutALock :=
  let n := readers_left (tr_type r) (tl_n_rlock s) in
  mk_tlock (tl_next_id s) (if n =? 0 then FREE else tl_status s) n (a ++ b) (tl_tm_wait s) (tl_alarm s) (tl_called s).

Lemma released_core cs s a r b :
  tl_core cs s -> tl_requests s = a ++ r :: b -> holds r -> tl_core cs (released a r b s).
Proof.
  intros Hc E Hr. pose proof Hc as [C1 _ C3 _ _ _ _ _]. rewrite E in C1, C3. apply core_remove with (r := r); try done.
  - rewrite filter_app, filter_cons_True in C1 by done. rewrite filter_app. by apply held_release.
  - eapply alarms_keep; [exact C3|]. unfold waits, holds in *. congruence.
Qed.

Lemma tl_calls_eq ids s : for_each ids (fun id => tl_call (Yes id)) s = Done (tt, s <| tl_called ::= fun l => l ++ (Yes <$> ids) |>).
Proof.
  revert s. induction ids as [|i ids IH]; intros s; cbn [for_each].
  { unfold set_field. cbn. rewrite app_nil_r. by destruct s. }
  erewrite bind_eq by reflexivity. rewrite IH. unfold set_field. cbn. by rewrite <- app_assoc.
Qed.

Lemma core_called cs s l : tl_core cs s -> tl_core cs (s <| tl_called := l |>).
Proof. intros [? ? ? ? ? ? ? ?]. by split. Qed.

(** [lock_all] and the calls after it. *)
Lemma release_done s :
  tl_core (tl_called s) s ->
  exists s', (s1 ← get;
      ids ← (if bool_decide (tl_status s1 = FREE) then tl_lock_all else mret []);
      for_each ids (fun id => tl_call (Yes id))) s = Done (tt, s') /\ tl_inv s' /\ tl_next_id s' = tl_next_id s /\
    tl_tm_wait s' = tl_tm_wait s /\ al_next_id (tl_alarm s') = al_next_id (tl_alarm s).
Proof.
  intros Hc. erewrite bind_eq by reflexivity. case_bool_decide as Hf.
  - destruct (tl_lock_all_done _ _ Hc Hf) as (ids & s' & E & Hc' & (R1 & R2 & R3 & R4) & Hfree).
    rewrite (bind_eq _ _ _ _ _ E). rewrite tl_calls_eq. eexists. split; [done|]. rewrite <- R2 in Hc'.
    split_and!; [|done..]. split; [|done]. unfold set_field. cbn. by apply (core_called _ _ (tl_called s' ++ (Yes <$> ids))).
  - exists s. split_and!; try done.
Qed.

Lemma tl_abort_done id s :
  tl_inv s -> exists s', tl_abort id s = Done (tt, s') /\ tl_inv s' /\ counters 0 s s' /\ tl_tm_wait s' = tl_tm_wait s.
Proof.
  intros Hi. pose proof Hi as [Hc Hf]. unfold tl_abort. erewrite bind_eq by reflexivity. unfold counters. rewrite Z.add_0_r.
  destruct (find_treq id 0 (tl_requests s)) as [[i r]|] eqn:Ef; [|exists s; split_and!; (done || lia)].
  apply find_treq_spec in Ef as (a & b & E & -> & <-). cbn [Nat.add].
  pose proof Hc as [C1 C2 C3 C4 C5 C6 C7 C8]. rewrite E in C1, C2, C3, Hf.
  assert (live r) as Hlive by (rewrite Forall_app, Forall_cons in C2; tauto).
  destruct Hlive as [Hr|[Hr|Hr]]; unfold waits, holds in Hr; rewrite Hr.
  - erewrite bind_eq by reflexivity.
    eexists (mk_tlock _ _ _ (a ++ b) _ (alarm_remove (tr_alarm_id r) (tl_alarm s)) _).
    split; [unfold tl_erase_at, modify, set_field; cbn; by rewrite E, delete_middle|]. cbn. split_and!; [|done|lia|done]. split.
    + eapply core_remove; try done; [|by apply (alarms_drop a r [] b)].
      rewrite filter_app, filter_cons_False in C1 by (unfold holds; congruence). by rewrite filter_app.
    + intros Hst. specialize (Hf Hst). rewrite filter_app, filter_cons_True in Hf by done. by destruct (filter waits a).
  - pose proof (released_core _ _ _ _ _ Hc E Hr) as Hc1.
    destruct (release_done (released a r b s) Hc1) as (s' & E' & Hi' & N1 & N2 & N3).
    exists s'. split; [|split_and!; try done; cbn in *; lia].
    rewrite <- E'. unfold released, readers_left.
    destruct (tr_type r); [rewrite bool_decide_true by done | rewrite bool_decide_false by done];
      do 3 (erewrite bind_eq by reflexivity); f_equal; unfold set_field; cbn.
    + destruct (Z.pred (tl_n_rlock s) =? 0); cbn; by rewrite E, delete_middle.
    + destruct (tl_n_rlock s =? 0); cbn; by rewrite E, delete_middle.
  - eexists (mk_tlock _ _ _ (a ++ b) _ (tl_alarm s) _).
    split; [unfold tl_erase_at, modify, set_field; cbn; by rewrite E, delete_middle|]. cbn. split_and!; [|done|lia|done]. split.
    + eapply core_remove; try done.
      * rewrite filter_app, filter_cons_False in C1 by (unfold holds; congruence). by rewrite filter_app.
      * eapply alarms_keep; [exact C3|]. unfold waits. congruence.
    + intros Hst. specialize (Hf Hst). rewrite filter_app, filter_cons_False in Hf by (unfold waits; congruence). change (filter waits (a ++ b) = []). by rewrite filter_app.
Qed.

(** ** Timeouts *)

Definition timed_out (r : ALockReq) : ALockReq := r <| tr_status := T_TIMEOUT |>.

(** The state after the alarm of a waiting request went off. *)
Definition expired (a : list ALockReq) (r : ALockReq) (b : list ALockReq) (s : TimeoutALock) : TimeoutALock :=
  mk_tlock (tl_next_id s) (tl_status s) (tl_n_rlock s) (a ++ timed_out r :: b) (tl_tm_wait s)
    (alarm_remove (tr_alarm_id r) (tl_alarm s)) (tl_called s ++ [No (tr_id r)]).

Lemma expired_inv s a r b : tl_inv s -> tl_requests s = a ++ r :: b -> waits r -> tl_inv (expired a r b s).
Proof.
  intros [[C1 C2 C3 C4 C5 C6 C7 C8] Hf] E Hr. rewrite E in *. assert (~ holds r) as Hnh by (unfold waits, holds in *; congruence).
  assert (filter waits (a ++ timed_out r :: b) = filter waits a ++ filter waits b) as Ew.
  { by rewrite filter_app, filter_cons_False. }
  split; [split|]; cbn -[view]; auto.
  - rewrite filter_app, filter_cons_False in C1 by done. rewrite filter_app, filter_cons_False; [done|]. by unfold holds.
  - rewrite Forall_app, Forall_cons in *. destruct C2 as (? & _ & ?). split_and!; try done. right. by right.
  - by apply (alarms_drop a r [timed_out r] b).
  - rewrite view_app, view_waits in C4 by done. rewrite view_app, view_timeout by done. by apply (answers_refuse _ _ _ _ _ C4).
  - by rewrite fmap_app in *.
  - rewrite Forall_app, Forall_cons in *. done.
  - rewrite Forall_app, Forall_cons in *. destruct C7 as (D1 & _ & D3).
    split_and!; [|intros _; apply elem_of_app; right; by left|];
      (eapply Forall_impl; [done|]; intros x Hx Ht; apply elem_of_app; left; auto).
  - intros Hst. specialize (Hf Hst). rewrite Ew. rewrite filter_app, filter_cons_True in Hf by done. by destruct (filter waits a).
Qed.

Lemma filter_head {A} (P : A -> Prop) `{forall x, Decision (P x)} l x w :
  filter P l = x :: w -> exists a b, l = a ++ x :: b /\ P x /\ filter P a = [] /\ filter P b = w.
Proof.
  induction l as [|y l IH]; [done|]. rewrite filter_cons. destruct (decide (P y)) as [Hy|Hy].
  - intros [= -> <-]. by exists [], l.
  - intros (a & b & -> & Hx & Ha & Hb)%IH. exists (y :: a), b. split_and!; try done. by rewrite filter_cons_False.
Qed.

Lemma exe_next_done now s :
  tl_inv s ->
  exe_next now s = Done (false, s) /\ (forall e w, al_waiting (tl_alarm s) = e :: w -> now <= e.2.1) \/
  exists e w a r b, al_waiting (tl_alarm s) = e :: w /\ tl_requests s = a ++ r :: b /\ waits r /\ filter waits a = [] /\
    exe_next now s = Done (true, expired a r b s) /\ al_waiting (tl_alarm (expired a r b s)) = w.
Proof.
  intros Hi. pose proof Hi as [[_ _ [A1 A2 A3] _ C5 _ _ _] _]. unfold exe_next. erewrite bind_eq by reflexivity.
  destruct (al_waiting (tl_alarm s)) as [|[key [tm req]] w] eqn:Ea; [by left|].
  destruct (Z.gtb_spec now tm) as [Ht|Ht].
  - right. rewrite fmap_cons in A1. symmetry in A1. destruct (filter waits (tl_requests s)) as [|r w'] eqn:Ew; [done|].
    rewrite fmap_cons in A1. injection A1 as K1 K2 K3. apply filter_head in Ew as (a & b & E & Hr & Ha & Hb).
    exists (key, (tm, req)), w, a, r, b. split_and!; try done.
    + rewrite (bind_eq _ _ s tt (s <| tl_requests := a ++ timed_out r :: b |> <| tl_called ::= fun l => l ++ [No req] |>)).
      * erewrite bind_eq by reflexivity. unfold expired, set_field. cbn. by rewrite K1, K2.
      * unfold do_timeout. erewrite bind_eq by reflexivity. rewrite (find_treq_in _ _ _ a r b) by done. erewrite bind_eq by reflexivity.
        cbn. rewrite bool_decide_true by done. cbn [when]. erewrite bind_eq by reflexivity. unfold tl_call, modify, set_field.
        cbn. by rewrite E, alter_middle.
    + cbn. rewrite Ea, K1, filter_cons_False by (intros H; by apply H). apply filter_all. intros e He Ee.
      rewrite fmap_cons in A2. apply NoDup_cons in A2 as [A2 _]. apply A2. cbn. rewrite <- Ee. by apply list_elem_of_fmap_2.
  - left. split; [done|]. by intros e w' [= <- <-].
Qed.

(** [run] ends, and leaves only alarms behind the first that has not gone off. *)
Lemma alarm_run_done now n s :
  tl_inv s -> (length (al_waiting (tl_alarm s)) < n)%nat ->
  exists s', alarm_run n now s = Done (tt, s') /\ tl_inv s' /\ counters 0 s s' /\ tl_tm_wait s' = tl_tm_wait s /\
    filter holds (tl_requests s') = filter holds (tl_requests s) /\ (tl_called s) `prefix_of` (tl_called s') /\
    (forall e w, al_waiting (tl_alarm s') = e :: w -> now <= e.2.1) /\
    (exists k, al_waiting (tl_alarm s) = k ++ al_waiting (tl_alarm s')) /\
    (forall r, r ∈ tl_requests s -> waits r -> r ∈ tl_requests s' \/ No (tr_id r) ∈ tl_called s').
Proof.
  revert s. induction n as [|n IH]; intros s Hi Hn; [lia|]. cbn [alarm_run].
  destruct (exe_next_done now s Hi) as [[E Hstop]|(e & w & a & r & b & Ea & Er & Hr & Hfa & E & Ew)];
    rewrite (bind_eq _ _ _ _ _ E).
  - exists s. unfold counters. split_and!; try done; [lia | by exists [] |]. intros r Hr _. by left.
  - destruct (IH (expired a r b s)) as (s' & E' & Hi' & [N1 N2] & N3 & N4 & N5 & N6 & [k N7] & N8).
    + by apply expired_inv.
    + rewrite Ew. rewrite Ea in Hn. cbn in Hn. lia.
    + exists s'. unfold counters in *. cbn in N1, N2, N3, N4, N5, N7. split_and!; try done.
      * rewrite N4, Er, !filter_app, !filter_cons_False; [done | unfold waits, holds in *; congruence | by unfold holds].
      * etrans; [|exact N5]. by apply prefix_app_r.
      * exists (e :: k). rewrite Ea. cbn. f_equal. rewrite <- Ew. exact N7.
      * intros x Hx Hwx. rewrite Er in Hx. apply elem_of_app in Hx as [Hx|[->|Hx]%elem_of_cons].
        -- apply N8; [|done]. cbn. apply elem_of_app. by left.
        -- right. destruct N5 as [l ->]. rewrite !elem_of_app. left. right. by left.
        -- apply N8; [|done]. cbn. apply elem_of_app. right. by right.
Qed.

(** ** Runs of a lock *)

Inductive tl_event :=
  | TlLock (now : Z) (type : type_t)
  | TlAbort (id : Z)
  | TlTick (now : Z).

Definition tl_tick (now : Z) : M TimeoutALock () :=
  s ← get;
  alarm_run (S (length (al_waiting (tl_alarm s)))) now.

Definition tl_step (e : tl_event) : M TimeoutALock () :=
  match e with
  | TlLock now t => _ ← tl_vlock now t; mret ()
  | TlAbort id => tl_abort id
  | TlTick now => tl_tick now
  end.

Definition tl_good (tm : Z) (s : TimeoutALock) : Prop := tl_inv s /\ 1 <= al_next_id (tl_alarm s) /\ tl_tm_wait s = tm.

Lemma tl_step_done tm e s :
  0 <= tm -> tl_good tm s -> tl_next_id s < 2 ^ 64 - 1 ->
  exists s', tl_step e s = Done (tt, s') /\ tl_good tm s' /\ tl_next_id s' <= tl_next_id s + 1.
Proof.
  intros Htm (Hi & H1 & Hw) Hb. unfold tl_good, counters in *. destruct e as [now t|id|now]; cbn [tl_step].
  - destruct (tl_vlock_done now t s Hi Hb H1) as (s' & E & Hi' & [N1 N2] & N3); [by rewrite Hw|].
    exists s'. rewrite (bind_eq _ _ _ _ _ E). split_and!; try done; [lia | congruence | lia].
  - destruct (tl_abort_done id s Hi) as (s' & E & Hi' & [N1 N2] & N3). exists s'. split_and!; try done; [lia | congruence | lia].
  - unfold tl_tick. erewrite bind_eq by reflexivity.
    destruct (alarm_run_done now (S (length (al_waiting (tl_alarm s)))) s Hi) as (s' & E & Hi' & [N1 N2] & N3 & _); [lia|].
    exists s'. split_and!; try done; [lia | congruence | lia].
Qed.

Lemma tl_run tm es s :
  0 <= tm -> tl_good tm s -> tl_next_id s + Z.of_nat (length es) < 2 ^ 64 ->
  exists s', for_each es tl_step s = Done (tt, s') /\ tl_good tm s'.
Proof.
  intros Htm. revert s. induction es as [|e es IH]; intros s Hg Hb; cbn [for_each length] in *; [by exists s|].
  destruct (tl_step_done tm e s Htm Hg) as (s1 & E & Hg1 & N); [lia|]. rewrite (bind_eq _ _ _ _ _ E). apply IH; [done | lia].
Qed.

Lemma new_tl_good tm : tl_good tm (new_TimeoutALock tm).
Proof.
  split_and!; try done. split; [|done]. split; cbn; try constructor; try done; try constructor;
    intros r Hr; by apply not_elem_of_nil in Hr.
Qed.

(** Two requests of a queue hold the lock only if both read. *)
Definition tl_exclusive (l : list ALockReq) : Prop :=
  forall r r', r ∈ l -> r' ∈ l -> holds r -> holds r' -> tr_type r = WLOCK \/ tr_type r' = WLOCK -> r = r'.

Lemma held_exclusive st n l : held_by st n (filter holds l) -> tl_exclusive l.
Proof.
  intros Hh r r' Hr Hr' L L' C.
  assert (r ∈ filter holds l /\ r' ∈ filter holds l) as [Fr Fr'] by (by rewrite !list_elem_of_filter).
  destruct Hh as [|x Hx|g Hne Hg].
  - by apply not_elem_of_nil in Fr.
  - apply list_elem_of_singleton in Fr, Fr'. congruence.
  - rewrite Forall_forall in Hg. pose proof (Hg r Fr). pose proof (Hg r' Fr'). destruct C; congruence.
Qed.

(** C25: whatever requests are made and given up and whenever the alarms
    run, no check in a lock with a timeout fails and no alarm touches a request that
    has left the queue; two requests hold the lock only if both read; nobody waits for
    a free lock; every request is answered at most once, one that waits has not been
    answered, one that holds the lock was answered with yes and one that timed out with
    no; and the alarms are those of the waiting requests, in the same order. *)
Theorem timeout_lock_safe tm_wait es :
  0 <= tm_wait -> Z.of_nat (length es) < 2 ^ 64 - 1 ->
  exists s, for_each es tl_step (new_TimeoutALock tm_wait) = Done (tt, s) /\ tl_exclusive (tl_requests s) /\
    (tl_status s = FREE -> filter waits (tl_requests s) = []) /\
    NoDup (cb_id <$> tl_called s) /\
    (forall r, r ∈ tl_requests s ->
       match tr_status r with
       | T_WAIT => tr_id r ∉ cb_id <$> tl_called s
       | T_LOCK => Yes (tr_id r) ∈ tl_called s
       | T_TIMEOUT => No (tr_id r) ∈ tl_called s
       | T_UNLOCK | T_ABORT => False
       end) /\
    alarm_of <$> al_waiting (tl_alarm s) = req_alarm <$> filter waits (tl_requests s).
Proof.
  intros Htm Hlen. destruct (tl_run tm_wait es (new_TimeoutALock tm_wait) Htm (new_tl_good tm_wait)) as (s & E & Hi & _ & _);
    [cbn; lia|].
  exists s. destruct Hi as [[C1 C2 [A1 _ _] [B1 B2 B3 B4 _ _] C5 C6 C7 C8] Hf].
  split_and!; try done; [by eapply held_exclusive|].
  intros r Hr. rewrite Forall_forall in C2, C7. destruct (C2 r Hr) as [Hs|[Hs|Hs]].
  - unfold waits in Hs. rewrite Hs. apply (B3 (to_req r)); [|unfold to_req; by rewrite bool_decide_true].
    apply list_elem_of_fmap_2, list_elem_of_filter. split; [unfold in_view; congruence | done].
  - unfold holds in Hs. rewrite Hs. apply (B4 (to_req r)).
    + apply list_elem_of_fmap_2, list_elem_of_filter. split; [unfold in_view; congruence | done].
    + unfold to_req. rewrite bool_decide_false; [done|]. unfold waits. congruence.
  - rewrite Hs. by apply C7.
Qed.

(** C26: when the alarms run after the deadline of every waiting request, the
    run ends, nobody waits any more, everyone who waited has been answered with no, and
    those who hold the lock keep it. *)
Theorem timeouts_fire tm_wait es now s :
  0 <= tm_wait -> Z.of_nat (length es) < 2 ^ 64 - 1 ->
  for_each es tl_step (new_TimeoutALock tm_wait) = Done (tt, s) ->
  Forall (fun e => e.2.1 < now) (al_waiting (tl_alarm s)) ->
  exists s', tl_tick now s = Done (tt, s') /\ filter waits (tl_requests s') = [] /\
    (forall r, r ∈ tl_requests s -> waits r -> No (tr_id r) ∈ tl_called s') /\
    filter holds (tl_requests s') = filter holds (tl_requests s).
Proof.
  intros Htm Hlen E Hall.
  destruct (tl_run tm_wait es (new_TimeoutALock tm_wait) Htm (new_tl_good tm_wait)) as (s0 & E0 & Hi & _ & _); [cbn; lia|].
  assert (s0 = s) as -> by congruence. unfold tl_tick.
  destruct (alarm_run_done now (S (length (al_waiting (tl_alarm s)))) s Hi) as
    (s' & E' & Hi' & _ & _ & N4 & _ & N6 & [k N7] & N8); [lia|].
  assert (filter waits (tl_requests s') = []) as Hnone.
  { destruct Hi' as [[_ _ [A1 _ _] _ _ _ _ _] _]. destruct (al_waiting (tl_alarm s')) as [|e w] eqn:Ea.
    - symmetry in A1. by apply fmap_nil_inv in A1.
    - exfalso. specialize (N6 e w eq_refl). rewrite N7, Forall_app, Forall_cons in Hall. destruct Hall as (_ & Hall & _). lia. }
  exists s'. split_and!; [by rewrite (bind_eq _ _ _ s s) | done | | done].
  intros r Hr Hw. destruct (N8 r Hr Hw) as [Hin|]; [|done]. exfalso.
  assert (r ∈ filter waits (tl_requests s')) as Hin' by (by apply list_elem_of_filter). rewrite Hnone in Hin'.
  by apply not_elem_of_nil in Hin'.
Qed.

(** ** Instances *)

(** A reader, a writer that waits, a reader that overtakes it, and a second writer. *)
Definition demo_tl_events : list tl_event :=
  [TlLock 10 RLOCK; TlLock 20 WLOCK; TlLock 30 RLOCK; TlLock 40 WLOCK; TlAbort 1; TlTick 50].
Definition demo_tl : TimeoutALock :=
  match for_each demo_tl_events tl_step (new_TimeoutALock 100) with Done (_, s) => s | _ => new_TimeoutALock 100 end.

Lemma timeout_lock_safe_witness :
  exists s, for_each demo_tl_events tl_step (new_TimeoutALock 100) = Done (tt, s) /\ tl_exclusive (tl_requests s).
Proof.
  destruct (timeout_lock_safe 100 demo_tl_events) as (s & H1 & H2 & _); [lia | vm_compute; reflexivity|]. by exists s.
Defined.

Lemma timeouts_fire_witness :
  exists s', tl_tick 141 demo_tl = Done (tt, s') /\ filter waits (tl_requests s') = [].
Proof.
  destruct (timeouts_fire 100 demo_tl_events 141 demo_tl) as (s' & H1 & H2 & _); [lia | vm_compute; reflexivity
    | vm_compute; reflexivity | apply (bool_decide_unpack _); vm_compute; exact I|]. by exists s'.
Defined.

(** The second writer, whose deadline is later, still waits at time 121, and so does
    nobody at 141. *)
Example demo_tl_calls :
  tl_called demo_tl = [Yes 1; Yes 3] /\
  match tl_tick 121 demo_tl with Done (_, s) => tl_called s = [Yes 1; Yes 3; No 2] | _ => False end.
Proof. vm_compute. auto. Qed.
