(* ===== verification/ALockGroup.v ===== *)
(** * Groups of locks: [ALockGroup], [DragonBall] and [PieceStatus]
    (src/rrr/misc/alock.hpp, src/rrr/misc/alock.cpp, src/rrr/misc/dball.hpp,
    src/deptran/tpl/ps.h, src/deptran/tpl/ps.cc)

    Two-phase locking takes the locks of a piece as one group: each lock is asked, its
    answer comes back by a callback, now or later, and when all have answered the group
    reports success, or reports failure and gives back what it was granted.

    A lock is known by its address.  What the group does to the outside, the calls of the
    locks and of its own callbacks, is recorded in [g_out].  The callbacks that arrive
    while [lock_all] asks a lock are an argument. *)
From stdpp Require Import base tactics numbers list relations sorting.
From S2P Require Import Prelude OMap ALock.

(** ** [DragonBall] *)

Record DragonBall := mk_dball { n_wait : Z; n_ready : Z; wish_called : bool }.

Inductive group_status := G_INIT | G_WAIT | G_LOCK | G_TIMEOUT | G_UNLOCK.
#[export] Instance group_status_dec : EqDecision group_status.
Proof. solve_decision. Defined.

Inductive group_out :=
  | Ask (alock : Z) (type : type_t)       (* alock->lock(...) *)
  | Release (alock : Z) (id : Z)          (* alock->abort(id) *)
  | GroupYes                              (* yes_callback_() *)
  | GroupNo.                              (* no_callback_() *)

(** [g_db] is [None] before the first [lock_all] and once the ball has deleted itself. *)
Record ALockGroup := mk_group {
  g_locked : omap Z Z;
  g_tolock : omap Z type_t;
  g_status : group_status;
  g_db : option DragonBall;
  g_out : list group_out;
}.
#[export] Instance Eta_group : Eta ALockGroup :=
  fun r => mk_group (g_locked r) (g_tolock r) (g_status r) (g_db r) (g_out r).

Definition new_group : ALockGroup := mk_group [] [] G_INIT None [].

Definition out (o : group_out) : M ALockGroup () := modify (fun g => g <| g_out ::= fun l => l ++ [o] |>).

Definition cas_status (c s : group_status) : M ALockGroup bool :=
  g ← get;
  if bool_decide (g_status g = c) then modify (fun g => g <| g_status := s |>);; mret true
  else mret false.

Definition add (alock : Z) (type : type_t) : M ALockGroup () :=
  g ← get;
  if bool_decide (g_status g = G_INIT) || bool_decide (g_status g = G_LOCK)
  then modify (fun g => g <| g_tolock ::= OMap.insert alock type |>)
  else abort.

Definition abort_all_locked : M ALockGroup () :=
  g ← get;
  for_each (g_locked g) (fun p => when (negb (p.2 =? 0)) (out (Release p.1 p.2))).

(** The wish of the ball. *)
Definition wish : M ALockGroup () :=
  ok ← cas_status G_WAIT G_LOCK;
  if (ok : bool) then out GroupYes
  else
    g ← get;
    verify (bool_decide (g_status g = G_TIMEOUT));;
    out GroupNo;;
    abort_all_locked.

(** [db_->trigger()]; calling a ball that has deleted itself fails. *)
Definition trigger : M ALockGroup () :=
  g ← get;
  db ← from_option (g_db g);
  let ready := n_ready db + 1 in
  verify (ready <=? n_wait db);;
  if ready =? n_wait db then
    verify (negb (wish_called db));;
    modify (fun g => g <| g_db := Some (mk_dball (n_wait db) ready true) |>);;
    wish;;
    modify (fun g => g <| g_db := None |>)
  else modify (fun g => g <| g_db := Some (mk_dball (n_wait db) ready (wish_called db)) |>).

(** The answer of a lock: the identifier of the request it granted, or no. *)
Record answer_t := mk_answer { ans_lock : Z; ans_id : option Z }.

Definition callback (c : answer_t) : M ALockGroup () :=
  match ans_id c with
  | Some id => modify (fun g => g <| g_locked ::= OMap.insert (ans_lock c) id |>);; trigger
  | None => modify (fun g => g <| g_status := G_TIMEOUT |>);; trigger
  end.

(** The wound callback handed to a lock: [ret] is what [wound_callback_] returns. *)
Definition group_wound (ret : Z) (alock : Z) : M ALockGroup Z :=
  when (ret =? 0) (modify (fun g => g <| g_locked ::= OMap.erase alock |>));;
  mret ret.

(** [during] are the callbacks made while each lock is asked. *)
Definition lock_all (during : Z -> list answer_t) : M ALockGroup () :=
  a ← cas_status G_INIT G_WAIT;
  b ← (if (a : bool) then mret true else cas_status G_LOCK G_WAIT);
  verify b;;
  g ← get;
  modify (fun g => g <| g_db := Some (mk_dball (Z.of_nat (length (g_tolock g))) 0 false) |>);;
  let tmp := g_tolock g in
  modify (fun g => g <| g_tolock := [] |>);;
  for_each tmp (fun p => out (Ask p.1 p.2);; for_each (during p.1) callback).

Definition unlock_all : M ALockGroup () :=
  ok ← cas_status G_LOCK G_UNLOCK;
  verify ok;;
  abort_all_locked.

Definition abort_all : M ALockGroup () :=
  ok ← cas_status G_LOCK G_UNLOCK;
  if (ok : bool) then abort_all_locked else abort.

(** ** The locks of a piece: [PieceStatus] *)

Record column_lock_t := mk_clock { cl_fine : bool; cl_alock : Z; cl_type : type_t }.

Record PieceStatus := mk_ps {
  num_waiting : Z;
  num_acquired : Z;
  rej : bool;
  finish : bool;
  rw_succ : bool;
  rw_lock_group : ALockGroup;
  rm_succ : bool;
  rm_lock_group : ALockGroup;
  is_rw : bool;
  is_rm : bool;
}.
#[export] Instance Eta_ps : Eta PieceStatus :=
  fun r => mk_ps (num_waiting r) (num_acquired r) (rej r) (finish r) (rw_succ r) (rw_lock_group r) (rm_succ r)
    (rm_lock_group r) (is_rw r) (is_rm r).

Definition new_PieceStatus : PieceStatus := mk_ps 1 0 false false false new_group false new_group false false.

(** An operation of one of the two groups. *)
Definition on_rw {A} (m : M ALockGroup A) : M PieceStatus A := fun p =>
  match m (rw_lock_group p) with
  | Done (a, g) => Done (a, p <| rw_lock_group := g |>)
  | Aborted => Aborted
  | OutOfFuel => OutOfFuel
  end.
Definition on_rm {A} (m : M ALockGroup A) : M PieceStatus A := fun p =>
  match m (rm_lock_group p) with
  | Done (a, g) => Done (a, p <| rm_lock_group := g |>)
  | Aborted => Aborted
  | OutOfFuel => OutOfFuel
  end.

Definition reg_rw_lock (during : Z -> list answer_t) (col_locks : list column_lock_t) : M PieceStatus () :=
  modify (fun p => p <| rw_succ := false |> <| is_rw := true |>);;
  for_each col_locks (fun c => verify (cl_fine c);; on_rw (add (cl_alock c) (cl_type c)));;
  on_rw (lock_all during).

(** [alocks]: the locks of the columns of the row. *)
Definition reg_rm_lock (during : Z -> list answer_t) (fine : bool) (alocks : list Z) : M PieceStatus () :=
  modify (fun p => p <| rm_succ := false |> <| is_rm := true |>);;
  verify fine;;
  for_each alocks (fun l => on_rm (add l WLOCK));;
  on_rm (lock_all during).

Definition start_yes_callback : M PieceStatus () :=
  modify (fun p => p <| num_acquired ::= Z.succ |>);;
  p ← get;
  verify (num_acquired p <=? num_waiting p);;
  modify (fun p => if is_rw p then p <| rw_succ := true |> else p);;
  modify (fun p => if is_rm p then p <| rm_succ := true |> else p).

Definition start_no_callback : M PieceStatus () :=
  modify (fun p => p <| num_acquired ::= Z.succ |> <| rej := true |>);;
  p ← get;
  verify (num_acquired p <=? num_waiting p).

Definition set_finish : M PieceStatus () :=
  p ← get;
  verify (negb (finish p));;
  modify (fun p => p <| finish := true |>).

Definition ps_abort : M PieceStatus () :=
  p ← get;
  verify (finish p);;
  when (rw_succ p) (on_rw unlock_all);;
  when (rm_succ p) (on_rm unlock_all).

Definition ps_commit : M PieceStatus () :=
  p ← get;
  verify (finish p);;
  when (rw_succ p) (on_rw unlock_all).

(** ** All or nothing *)

Definition granted_answer (c : answer_t) : bool := match ans_id c with Some _ => true | None => false end.

(** The locks granted by these answers, with the identifiers of the requests. *)
Definition grants (cs : list answer_t) : list (Z * Z) :=
  flat_map (fun c => match ans_id c with Some id => [(ans_lock c, id)] | None => [] end) cs.

Definition is_ask (o : group_out) : bool := match o with Ask _ _ => true | _ => false end.

(** What the group did besides asking. *)
Definition effects (l : list group_out) : list group_out := List.filter (fun o => negb (is_ask o)) l.
Definition asked (l : list group_out) : list group_out := List.filter is_ask l.

Definition locks_of (cs : list answer_t) : omap Z Z :=
  foldl (fun m c => match ans_id c with Some id => OMap.insert (ans_lock c) id m | None => m end) [] cs.

Definition releases (m : omap Z Z) : list group_out :=
  flat_map (fun p => if p.2 =? 0 then [] else [Release p.1 p.2]) m.

(** The group after the answers [cs], of [n] it waits for. *)
Record answered (n : nat) (cs : list answer_t) (g : ALockGroup) : Prop := {
  an_locked_map : g_locked g = locks_of cs;
  an_open : (length cs < n)%nat ->
    g_db g = Some (mk_dball (Z.of_nat n) (Z.of_nat (length cs)) false) /\ effects (g_out g) = [] /\
    g_status g = (if forallb granted_answer cs then G_WAIT else G_TIMEOUT);
  an_closed : (length cs = n)%nat ->
    g_db g = None /\
    if forallb granted_answer cs then g_status g = G_LOCK /\ effects (g_out g) = [GroupYes]
    else g_status g = G_TIMEOUT /\ effects (g_out g) = GroupNo :: releases (locks_of cs);
}.

Lemma effects_app l k : effects (l ++ k) = effects l ++ effects k.
Proof. apply List.filter_app. Qed.

Lemma abort_all_locked_eq g : abort_all_locked g = Done (tt, g <| g_out ::= fun l => l ++ releases (g_locked g) |>).
Proof.
  unfold abort_all_locked. erewrite bind_eq by reflexivity. generalize (g_locked g) as m. intros m. revert g.
  induction m as [|p m IH]; intros g; cbn [for_each releases flat_map].
  { unfold set_field. cbn. rewrite app_nil_r. by destruct g. }
  destruct (p.2 =? 0); cbn [negb when]; (erewrite bind_eq by reflexivity); rewrite IH; unfold set_field; cbn;
    by rewrite <- ?app_assoc.
Qed.

Lemma effects_releases m : effects (releases m) = releases m.
Proof. induction m as [|p m IH]; [done|]. cbn. destruct (p.2 =? 0); cbn; [done|]. f_equal. exact IH. Qed.

Lemma cas_status_yes c s g : g_status g = c -> cas_status c s g = Done (true, g <| g_status := s |>).
Proof. intros E. unfold cas_status. erewrite bind_eq by reflexivity. by rewrite bool_decide_true. Qed.
Lemma cas_status_no c s g : g_status g ≠ c -> cas_status c s g = Done (false, g).
Proof. intros E. unfold cas_status. erewrite bind_eq by reflexivity. by rewrite bool_decide_false. Qed.

Lemma asked_releases m : asked (releases m) = [].
Proof. induction m as [|p m IH]; [done|]. cbn. by destruct (p.2 =? 0). Qed.
Lemma asked_app l k : asked (l ++ k) = asked l ++ asked k.
Proof. apply List.filter_app. Qed.

(** The last answer makes the wish come true. *)
Lemma wish_done cs g :
  g_locked g = locks_of cs -> effects (g_out g) = [] ->
  g_status g = (if forallb granted_answer cs then G_WAIT else G_TIMEOUT) ->
  exists g', wish g = Done (tt, g') /\ g_locked g' = locks_of cs /\ asked (g_out g') = asked (g_out g) /\
    g_tolock g' = g_tolock g /\
    if forallb granted_answer cs then g_status g' = G_LOCK /\ effects (g_out g') = [GroupYes]
    else g_status g' = G_TIMEOUT /\ effects (g_out g') = GroupNo :: releases (locks_of cs).
Proof.
  intros El Ee Es. unfold wish. destruct (forallb granted_answer cs).
  - rewrite (bind_eq _ _ _ _ _ (cas_status_yes _ _ _ Es)). eexists. split; [reflexivity|]. unfold set_field. cbn -[effects asked].
    rewrite effects_app, asked_app, Ee. cbn. by rewrite app_nil_r.
  - rewrite (bind_eq _ _ g false g) by (apply cas_status_no; by rewrite Es). erewrite bind_eq by reflexivity.
    rewrite bool_decide_true by done. erewrite bind_eq by reflexivity. erewrite bind_eq by reflexivity.
    rewrite abort_all_locked_eq. eexists. split; [reflexivity|]. unfold set_field. cbn -[effects asked].
    rewrite !effects_app, !asked_app, Ee, El, effects_releases, asked_releases. cbn. by rewrite !app_nil_r.
Qed.

Lemma callback_done n cs c g :
  answered n cs g -> (length cs < n)%nat ->
  exists g', callback c g = Done (tt, g') /\ answered n (cs ++ [c]) g' /\ asked (g_out g') = asked (g_out g) /\
    g_tolock g' = g_tolock g.
Proof.
  intros [El Ho _] Hn. destruct (Ho Hn) as (Ed & Ee & Es).
  set (g1 := mk_group (locks_of (cs ++ [c])) (g_tolock g)
    (if forallb granted_answer (cs ++ [c]) then G_WAIT else G_TIMEOUT) (g_db g) (g_out g)).
  assert (callback c g = trigger g1) as ->.
  { unfold callback, g1, locks_of. rewrite foldl_app. cbn. rewrite forallb_app. cbn. unfold granted_answer at 2.
    destruct (ans_id c) as [id|]; (erewrite bind_eq by reflexivity); unfold set_field; cbn; f_equal; fold (locks_of cs);
      rewrite ?El; [|by rewrite andb_false_r]. by rewrite !andb_true_r, <- Es. }
  unfold trigger. erewrite bind_eq by reflexivity. cbn [g1 g_db]. rewrite Ed. erewrite bind_eq by reflexivity.
  cbn [n_ready n_wait wish_called]. destruct (Z.leb_spec (Z.of_nat (length cs) + 1) (Z.of_nat n)); [|lia].
  erewrite bind_eq by reflexivity.
  assert (length (cs ++ [c]) = S (length cs)) as Elen by (rewrite length_app; cbn; lia).
  destruct (Z.eqb_spec (Z.of_nat (length cs) + 1) (Z.of_nat n)) as [Hlast|Hmore].
  - erewrite bind_eq by reflexivity. erewrite bind_eq by reflexivity. cbn [negb].
    set (g2 := g1 <| g_db := _ |>).
    destruct (wish_done (cs ++ [c]) g2) as (g3 & E3 & L3 & A3 & T3 & F3); [done | done | done|].
    rewrite (bind_eq _ _ _ _ _ E3). eexists. split; [reflexivity|]. unfold set_field. split_and!; [|done|done].
    split; [done | cbn; lia | done].
  - eexists. split; [reflexivity|]. unfold set_field. cbn. split_and!; try done. split; cbn; [done | | lia].
    intros Hlt. split_and!; [|done|done]. do 2 f_equal. lia.
Qed.

Lemma callbacks_done n cs rest g :
  answered n cs g -> (length (cs ++ rest) <= n)%nat ->
  exists g', for_each rest callback g = Done (tt, g') /\ answered n (cs ++ rest) g' /\ asked (g_out g') = asked (g_out g) /\
    g_tolock g' = g_tolock g.
Proof.
  revert cs g. induction rest as [|c rest IH]; intros cs g Ha Hn; cbn [for_each].
  { exists g. by rewrite app_nil_r. }
  rewrite length_app in Hn. cbn [length] in Hn. destruct (callback_done n cs c g Ha) as (g1 & E1 & Ha1 & A1 & T1); [lia|].
  rewrite (bind_eq _ _ _ _ _ E1). destruct (IH (cs ++ [c]) g1 Ha1) as (g' & E' & Ha' & A' & T').
  { rewrite !length_app. cbn [length]. lia. }
  exists g'. rewrite <- app_assoc in Ha'. split_and!; try done; congruence.
Qed.

Definition ask_of (p : Z * type_t) : group_out := Ask p.1 p.2.

Lemma ask_loop_done n during tmp cs g :
  answered n cs g -> (length (cs ++ flat_map during tmp.*1) <= n)%nat ->
  exists g', for_each tmp (fun p => out (Ask p.1 p.2);; for_each (during p.1) callback) g = Done (tt, g') /\
    answered n (cs ++ flat_map during tmp.*1) g' /\ asked (g_out g') = asked (g_out g) ++ (ask_of <$> tmp) /\
    g_tolock g' = g_tolock g.
Proof.
  revert cs g. induction tmp as [|p tmp IH]; intros cs g Ha Hn; cbn [for_each].
  { exists g. cbn. by rewrite !app_nil_r. }
  rewrite fmap_cons in Hn. cbn [flat_map] in Hn. rewrite app_assoc, length_app in Hn.
  set (g1 := g <| g_out ::= fun l => l ++ [Ask p.1 p.2] |>).
  assert (answered n cs g1) as Ha1.
  { destruct Ha as [H1 H2 H3]. split; unfold g1, set_field; cbn -[effects]; rewrite ?effects_app; cbn [effects List.filter is_ask negb];
      rewrite ?app_nil_r; done. }
  destruct (callbacks_done n cs (during p.1) g1 Ha1) as (g2 & E2 & Ha2 & A2 & T2); [lia|].
  destruct (IH (cs ++ during p.1) g2 Ha2) as (g' & E' & Ha' & A' & T'); [by rewrite length_app|].
  exists g'. rewrite (bind_eq _ _ _ tt g2) by (erewrite bind_eq by reflexivity; exact E2).
  split_and!; [exact E' | | | by rewrite T', T2].
  - rewrite fmap_cons. cbn [flat_map]. by rewrite app_assoc.
  - rewrite A', A2, fmap_cons. unfold g1, set_field. cbn -[asked]. rewrite asked_app, <- app_assoc. done.
Qed.

Lemma insert_fresh (k v : Z) (m : list (Z * Z)) : k ∉ m.*1 -> OMap.insert k v m ≡ₚ (k, v) :: m.
Proof.
  induction m as [|[k' v'] m IH]; intros Hk; cbn; [done|]. cbn in Hk. apply not_elem_of_cons in Hk as [Hk Hm].
  rewrite decide_False by done. destruct (k <? k'); [done|]. rewrite IH by done. by rewrite Permutation_swap.
Qed.

Lemma locks_of_grants cs : NoDup (ans_lock <$> cs) -> locks_of cs ≡ₚ grants cs.
Proof.
  unfold locks_of. induction cs as [|c cs IH] using rev_ind; [done|]. intros Hnd. rewrite fmap_app in Hnd.
  apply NoDup_app in Hnd as (Hnd & Hc & _). specialize (IH Hnd). rewrite foldl_app. cbn. unfold grants.
  rewrite flat_map_app. fold (grants cs). cbn. destruct (ans_id c) as [id|]; [|by rewrite app_nil_r].
  rewrite insert_fresh.
  - rewrite IH. cbn. apply Permutation_cons_append.
  - rewrite IH. intros ((k & v) & E & Hin)%list_elem_of_fmap. cbn in E. subst k. unfold grants in Hin.
    apply list_elem_of_In, in_flat_map in Hin as (c' & Hc' & Hin). apply list_elem_of_In in Hc'.
    apply (Hc (ans_lock c)); [|by left]. destruct (ans_id c'); [|done]. destruct Hin as [[= <- _]|[]].
    by apply list_elem_of_fmap_2.
Qed.

Lemma releases_nonzero m : Forall (fun p => p.2 ≠ 0) m -> releases m = (fun p => Release p.1 p.2) <$> m.
Proof. induction 1 as [|p m Hp Hm IH]; [done|]. cbn. destruct (Z.eqb_spec p.2 0); [done|]. cbn. by f_equal. Qed.

(** A group that asks for some locks, each of which answers once,
    at any time, ends with exactly one report: success, when every lock was granted,
    and then it holds them all; or failure, and then it gives back exactly the locks it
    was granted.  Before the last answer it reports nothing. *)
Lemma group_all_or_nothing g during later :
  g_status g = G_INIT -> g_locked g = [] -> g_out g = [] -> g_tolock g ≠ [] ->
  let cs := flat_map during (g_tolock g).*1 ++ later in
  NoDup (g_tolock g).*1 -> ans_lock <$> cs ≡ₚ (g_tolock g).*1 -> Forall (fun c => ans_id c ≠ Some 0) cs ->
  exists g', (lock_all during;; for_each later callback) g = Done (tt, g') /\
    asked (g_out g') = ask_of <$> g_tolock g /\ g_locked g' ≡ₚ grants cs /\
    if forallb granted_answer cs then g_status g' = G_LOCK /\ effects (g_out g') = [GroupYes]
    else g_status g' = G_TIMEOUT /\ exists rel, effects (g_out g') = GroupNo :: rel /\
      rel ≡ₚ (fun p => Release p.1 p.2) <$> grants cs.
Proof.
  intros Es El Eo Hne cs Hnd Hperm Hid. set (n := length (g_tolock g)).
  assert (length cs = n) as Hlen by (rewrite <- (length_fmap ans_lock cs), Hperm; apply length_fmap).
  set (g1 := mk_group [] [] G_WAIT (Some (mk_dball (Z.of_nat n) 0 false)) []).
  assert (answered n [] g1) as Ha1.
  { split; cbn; try done. intros Hz. unfold n in Hz. by destruct (g_tolock g). }
  unfold cs in Hlen. destruct (ask_loop_done n during (g_tolock g) [] g1 Ha1) as (g2 & E2 & Ha2 & A2 & T2).
  { cbn [app]. rewrite length_app in Hlen. lia. }
  destruct (callbacks_done n _ later g2 Ha2) as (g3 & E3 & Ha3 & A3 & T3); [cbn [app]; lia|].
  assert (NoDup (ans_lock <$> cs)) as Hnd' by (by rewrite Hperm).
  exists g3. split.
  - rewrite (bind_eq _ _ g tt g2); [exact E3|]. unfold lock_all.
    rewrite (bind_eq _ _ _ _ _ (cas_status_yes _ _ _ Es)). repeat (erewrite bind_eq by reflexivity).
    rewrite <- E2. unfold g1, set_field, n. cbn. by rewrite El, Eo.
  - cbn [app] in Ha3. destruct Ha3 as [L3 _ C3]. destruct (C3 Hlen) as [_ C4]. fold cs in L3, C4.
    split_and!.
    + by rewrite A3, A2.
    + rewrite L3. by apply locks_of_grants.
    + destruct (forallb granted_answer cs); [done|]. destruct C4 as [-> ->]. split; [done|]. eexists. split; [done|].
      rewrite releases_nonzero; [by rewrite locks_of_grants|]. rewrite locks_of_grants by done.
      apply Forall_forall. intros p Hp. unfold grants in Hp. apply list_elem_of_In, in_flat_map in Hp as (c & Hc & Hp).
      apply list_elem_of_In in Hc. rewrite Forall_forall in Hid. specialize (Hid c Hc).
      destruct (ans_id c); [|done]. destruct Hp as [<-|[]]. cbn. congruence.
Qed.

(** After success, [unlock_all] gives back exactly what the group holds. *)
Lemma unlock_all_releases g :
  g_status g = G_LOCK -> Forall (fun p => p.2 ≠ 0) (g_locked g) ->
  unlock_all g = Done (tt, g <| g_status := G_UNLOCK |>
    <| g_out ::= fun l => l ++ ((fun p => Release p.1 p.2) <$> g_locked g) |>).
Proof.
  intros Es Hid. unfold unlock_all. rewrite (bind_eq _ _ _ _ _ (cas_status_yes _ _ _ Es)). erewrite bind_eq by reflexivity.
  rewrite abort_all_locked_eq. unfold set_field. cbn. by rewrite releases_nonzero.
Qed.

(** ** The locks of a piece *)

(** The locks a piece asks for: for a column named twice, the type named last. *)
Definition tolock_of (col_locks : list column_lock_t) : omap Z type_t :=
  foldl (fun m c => OMap.insert (cl_alock c) (cl_type c) m) [] col_locks.

Lemma tolock_sorted col_locks : sorted_keys (tolock_of col_locks).
Proof.
  unfold tolock_of. induction col_locks as [|c l IH] using rev_ind; [constructor|]. rewrite foldl_app. cbn. by apply sorted_insert.
Qed.

Lemma on_rw_eq {A} (m : M ALockGroup A) p a g : m (rw_lock_group p) = Done (a, g) -> on_rw m p = Done (a, p <| rw_lock_group := g |>).
Proof. unfold on_rw. by intros ->. Qed.

Lemma adds_done col_locks p :
  Forall (fun c => cl_fine c = true) col_locks -> g_status (rw_lock_group p) = G_INIT ->
  for_each col_locks (fun c => verify (cl_fine c);; on_rw (add (cl_alock c) (cl_type c))) p =
    Done (tt, p <| rw_lock_group ::= fun g => g <| g_tolock ::= fun m =>
      foldl (fun m c => OMap.insert (cl_alock c) (cl_type c) m) m col_locks |> |>).
Proof.
  intros Hf. revert p. induction Hf as [|c l Hc Hl IH]; intros p Es; cbn [for_each].
  { unfold set_field. destruct p as [? ? ? ? ? [] ? ? ? ?]. done. }
  set (p1 := p <| rw_lock_group ::= fun g => g <| g_tolock ::= OMap.insert (cl_alock c) (cl_type c) |> |>).
  rewrite (bind_eq _ _ p tt p1).
  - rewrite IH by done. unfold p1, set_field. done.
  - rewrite Hc. erewrite bind_eq by reflexivity. erewrite on_rw_eq; [reflexivity|]. unfold add.
    erewrite bind_eq by reflexivity. by rewrite bool_decide_true.
Qed.

(** What happens to the locks of a piece whose transaction aborts: it asks for them, is
    told the outcome, finishes, and is aborted. *)
Definition aborted_piece (during : Z -> list answer_t) (later : list answer_t) (col_locks : list column_lock_t) :
    M PieceStatus () :=
  reg_rw_lock during col_locks;;
  on_rw (for_each later callback);;
  p ← get;
  (if bool_decide (g_status (rw_lock_group p) = G_LOCK) then start_yes_callback else start_no_callback);;
  set_finish;;
  ps_abort.

Definition is_release (o : group_out) : bool := match o with Release _ _ => true | _ => false end.
Definition released_locks (l : list group_out) : list group_out := List.filter is_release l.

#[export] Instance released_locks_proper : Proper (Permutation ==> Permutation) released_locks.
Proof.
  unfold released_locks. induction 1 as [|o l l' _ IH|o o' l|l1 l2 l3 _ IH1 _ IH2]; cbn.
  - done.
  - by destruct (is_release o); rewrite IH.
  - destruct (is_release o), (is_release o'); try done. apply Permutation_swap.
  - by rewrite IH1.
Qed.

Lemma released_app l k : released_locks (l ++ k) = released_locks l ++ released_locks k.
Proof. apply List.filter_app. Qed.
Lemma released_effects l : released_locks (effects l) = released_locks l.
Proof. unfold released_locks, effects. induction l as [|[] l IH]; cbn; [done | done | by f_equal | done | done]. Qed.
Lemma released_releases (m : list (Z * Z)) : released_locks ((fun p => Release p.1 p.2) <$> m) = (fun p => Release p.1 p.2) <$> m.
Proof. unfold released_locks. induction m as [|p m IH]; cbn; [done | by f_equal]. Qed.

(** The group of a piece once every lock has answered. *)
Lemma piece_group_done during later col_locks :
  let cs := flat_map during (tolock_of col_locks).*1 ++ later in
  col_locks ≠ [] -> Forall (fun c => cl_fine c = true) col_locks ->
  ans_lock <$> cs ≡ₚ (tolock_of col_locks).*1 -> Forall (fun c => ans_id c ≠ Some 0) cs ->
  exists g, (reg_rw_lock during col_locks;; on_rw (for_each later callback)) new_PieceStatus =
      Done (tt, new_PieceStatus <| is_rw := true |> <| rw_lock_group := g |>) /\
    g_locked g ≡ₚ grants cs /\
    if forallb granted_answer cs then g_status g = G_LOCK /\ released_locks (g_out g) = []
    else g_status g = G_TIMEOUT /\ released_locks (g_out g) ≡ₚ (fun p => Release p.1 p.2) <$> grants cs.
Proof.
  intros cs Hne Hf Hperm Hid. set (g0 := mk_group [] (tolock_of col_locks) G_INIT None []).
  assert (tolock_of col_locks ≠ []) as Hne'.
  { intros E. destruct col_locks as [|c l] using rev_ind; [done|]. unfold tolock_of in E. rewrite foldl_app in E. cbn in E.
    apply (f_equal (OMap.find (cl_alock c))) in E. rewrite find_insert_eq in E. done. }
  destruct (group_all_or_nothing g0 during later) as (g & E & _ & L & C); try done.
  { apply sorted_NoDup, tolock_sorted. }
  apply bind_done in E as ([] & g1 & E1 & E2). change (flat_map during (g_tolock g0).*1 ++ later) with cs in L, C. exists g. split; [|split; [done|]].
  - unfold reg_rw_lock. set (p0 := new_PieceStatus <| rw_succ := false |> <| is_rw := true |>).
    rewrite (bind_eq _ _ _ tt (p0 <| rw_lock_group := g1 |>)).
    + erewrite on_rw_eq; [reflexivity | exact E2].
    + erewrite bind_eq by reflexivity. rewrite (bind_eq _ _ _ _ _ (adds_done col_locks p0 Hf eq_refl)).
      erewrite on_rw_eq; [reflexivity | exact E1].
  - destruct (forallb granted_answer cs).
    + destruct C as [-> C]. split; [done|]. by rewrite <- released_effects, C.
    + destruct C as (-> & rel & C & Hrel). split; [done|]. rewrite <- released_effects, C.
      change (released_locks (GroupNo :: rel)) with (released_locks rel). by rewrite Hrel, released_releases.
Qed.

Lemma grants_nonzero cs : Forall (fun c => ans_id c ≠ Some 0) cs -> Forall (fun p => p.2 ≠ 0) (grants cs).
Proof.
  intros Hid. apply Forall_forall. intros p Hp. unfold grants in Hp. apply list_elem_of_In, in_flat_map in Hp as (c & Hc & Hp).
  apply list_elem_of_In in Hc. rewrite Forall_forall in Hid. specialize (Hid c Hc).
  destruct (ans_id c); [|done]. destruct Hp as [<-|[]]. cbn. congruence.
Qed.

(** C27: a piece asks once for every column lock it needs (its read-write
    group, with nobody wounding it); when
    each of them has answered, at whatever time, the piece succeeds only if all were
    granted and then holds them all; and by the time its transaction has aborted,
    every lock that was granted has been released exactly once, whether the piece
    failed to get them all or got them and gave them back. *)
Theorem piece_locks_released_once during later col_locks :
  let cs := flat_map during (tolock_of col_locks).*1 ++ later in
  col_locks ≠ [] -> Forall (fun c => cl_fine c = true) col_locks ->
  ans_lock <$> cs ≡ₚ (tolock_of col_locks).*1 -> Forall (fun c => ans_id c ≠ Some 0) cs ->
  exists p, aborted_piece during later col_locks new_PieceStatus = Done (tt, p) /\
    rw_succ p = forallb granted_answer cs /\ rej p = negb (forallb granted_answer cs) /\
    released_locks (g_out (rw_lock_group p)) ≡ₚ (fun p => Release p.1 p.2) <$> grants cs.
Proof.
  intros cs Hne Hf Hperm Hid. destruct (piece_group_done during later col_locks Hne Hf Hperm Hid) as (g & E & L & C).
  fold cs in L, C. unfold aborted_piece.
  apply bind_done in E as ([] & p1 & E1 & E2). rewrite (bind_eq _ _ _ _ _ E1), (bind_eq _ _ _ _ _ E2).
  erewrite bind_eq by reflexivity. destruct (forallb granted_answer cs).
  - destruct C as [Es C]. rewrite bool_decide_true by done.
    rewrite (bind_eq _ _ _ tt (mk_ps 1 1 false false true g false new_group true false)) by reflexivity.
    rewrite (bind_eq _ _ _ tt (mk_ps 1 1 false true true g false new_group true false)) by reflexivity.
    assert (Forall (fun p => p.2 ≠ 0) (g_locked g)) as Hz by (rewrite L; by apply grants_nonzero).
    pose proof (unlock_all_releases g Es Hz) as Eu. eexists. split; [|split_and!].
    + unfold ps_abort. do 2 (erewrite bind_eq by reflexivity). cbn [when rw_succ rm_succ]. erewrite bind_eq; [reflexivity|].
      erewrite on_rw_eq; [reflexivity | exact Eu].
    + done.
    + done.
    + unfold set_field. cbn -[released_locks]. by rewrite released_app, C, released_releases, L.
  - destruct C as [Es C]. rewrite bool_decide_false by (by cbn; rewrite Es). do 2 (erewrite bind_eq by reflexivity).
    eexists. split; [reflexivity|]. done.
Qed.

(** A piece that writes a column and reads it afterwards asks for the
    lock of the column once, and only to read. *)
Theorem write_lock_lost c :
  exists p, reg_rw_lock (fun _ => []) [mk_clock true c WLOCK; mk_clock true c RLOCK] new_PieceStatus = Done (tt, p) /\
    g_out (rw_lock_group p) = [Ask c RLOCK].
Proof.
  unfold reg_rw_lock. erewrite bind_eq by reflexivity.
  set (p0 := new_PieceStatus <| rw_succ := false |> <| is_rw := true |>).
  rewrite (bind_eq _ _ _ _ _ (adds_done [mk_clock true c WLOCK; mk_clock true c RLOCK] p0 ltac:(by repeat constructor) eq_refl)).
  unfold set_field. cbn. rewrite decide_True by done. eexists. split; reflexivity.
Qed.

(** ** Instances *)

Definition demo_columns : list column_lock_t := [mk_clock true 7 WLOCK; mk_clock true 3 RLOCK; mk_clock true 5 WLOCK].
(** Lock 3 answers at once, lock 5 refuses, lock 7 is granted last. *)
Definition demo_during (l : Z) : list answer_t := if l =? 3 then [mk_answer 3 (Some 11)] else [].
Definition demo_later : list answer_t := [mk_answer 5 None; mk_answer 7 (Some 12)].

Lemma piece_locks_released_once_witness :
  exists p, aborted_piece demo_during demo_later demo_columns new_PieceStatus = Done (tt, p) /\
    rw_succ p = false /\ rej p = true /\
    released_locks (g_out (rw_lock_group p)) ≡ₚ [Release 3 11; Release 7 12].
Proof.
  destruct (piece_locks_released_once demo_during demo_later demo_columns) as (p & E & H1 & H2 & H3).
  - done.
  - by repeat constructor.
  - vm_compute. apply perm_skip. done.
  - repeat constructor; done.
  - exists p. split_and!; [exact E | exact H1 | exact H2 | exact H3].
Defined.
