(* ===== verification/Snapshot.v ===== *)
(** * The multi-version map of the database: [snapshot_sortedmap]
    (src/memdb/snapshot.h)

    A group of snapshots shares one multimap whose values carry the versions at which
    they were created and removed.  One member of the group may write; every other
    member sees the map as it was when the snapshot was taken.

    The members form a doubly linked ring, here the list of the members in the order of
    [next_], from any of them: a member is its name and its version.  The [assert]s of the
    source are compiled out ([-DNDEBUG] in wscript). *)
From stdpp Require Import base tactics numbers list sorting.
From S2P Require Import Prelude OMap.

(** [version_t] is unsigned; [no_version] is the -1 of the source. *)
Definition no_version : Z := 2 ^ 64 - 1.

Record versioned_value (V : Type) := mk_vv { created_at : Z; removed_at : Z; vval : V }.
Arguments mk_vv {V} _ _ _.
Arguments created_at {V} _.
Arguments removed_at {V} _.
Arguments vval {V} _.

Section snapshot.
Context {K : Type} `{OrdKey K} {V : Type} `{!EqDecision V}.
Implicit Types (k : K) (v : V).

Definition valid_at (ver : Z) (x : versioned_value V) : bool :=
  (created_at x <=? ver) && ((removed_at x =? no_version) || (ver <? removed_at x)).

Definition vv_remove (ver : Z) (x : versioned_value V) : versioned_value V := mk_vv (created_at x) ver (vval x).

Abbreviation entry := (K * versioned_value V)%type.

Record snapshot_group := mk_sgroup {
  sg_data : list entry;
  sg_members : list (nat * Z);
  sg_writer : option nat;
  sg_gc_insert : Z;
  sg_gc_erase : Z;
}.
#[export] Instance Eta_sgroup : Eta snapshot_group :=
  fun r => mk_sgroup (sg_data r) (sg_members r) (sg_writer r) (sg_gc_insert r) (sg_gc_erase r).

(** ** The multimap *)

(** The entries before [lower_bound(key)]; those of [key]; and those from
    [upper_bound(key)] on. *)
Fixpoint below_key {A} k (l : list (K * A)) : list (K * A) :=
  match l with
  | [] => []
  | e :: l => if key_ltb e.1 k then e :: below_key k l else []
  end.
Fixpoint from_key {A} k (l : list (K * A)) : list (K * A) :=
  match l with
  | [] => []
  | e :: l => if key_ltb e.1 k then from_key k l else e :: l
  end.
Fixpoint upto_key {A} k (l : list (K * A)) : list (K * A) :=
  match l with
  | [] => []
  | e :: l => if key_ltb k e.1 then [] else e :: upto_key k l
  end.
Fixpoint above_key {A} k (l : list (K * A)) : list (K * A) :=
  match l with
  | [] => []
  | e :: l => if key_ltb k e.1 then e :: l else above_key k l
  end.
Definition equal_range {A} k (l : list (K * A)) : list (K * A) := upto_key k (from_key k l).

(** [insert_into_map]: a multimap puts a new value behind those with the same key. *)
Definition mm_insert {A} k (a : A) (l : list (K * A)) : list (K * A) := upto_key k l ++ (k, a) :: above_key k l.

(** ** Members *)

Fixpoint ring_ver (me : nat) (l : list (nat * Z)) : option Z :=
  match l with
  | [] => None
  | (n, ver) :: l => if Nat.eqb n me then Some ver else ring_ver me l
  end.

(** [prev_]: the member before, cyclically. *)
Fixpoint ring_prev_from (last me : nat) (l : list (nat * Z)) : option nat :=
  match l with
  | [] => None
  | (n, _) :: l => if Nat.eqb n me then Some last else ring_prev_from n me l
  end.
Definition ring_prev (me : nat) (l : list (nat * Z)) : option nat :=
  match List.last (fst <$> l) O with last => ring_prev_from last me l end.

Fixpoint ring_next_from (first me : nat) (l : list (nat * Z)) : option nat :=
  match l with
  | [] => None
  | (n, _) :: l => if Nat.eqb n me then Some (match l with [] => first | (m, _) :: _ => m end) else ring_next_from first me l
  end.
Definition ring_next (me : nat) (l : list (nat * Z)) : option nat :=
  match l with [] => None | (n, _) :: _ => ring_next_from n me l end.

(** A new member to the left of [src]. *)
Fixpoint ring_insert_left (src : nat) (m : nat * Z) (l : list (nat * Z)) : list (nat * Z) :=
  match l with
  | [] => []
  | (n, ver) :: l => if Nat.eqb n src then m :: (n, ver) :: l else (n, ver) :: ring_insert_left src m l
  end.

Fixpoint ring_remove (me : nat) (l : list (nat * Z)) : list (nat * Z) :=
  match l with
  | [] => []
  | (n, ver) :: l => if Nat.eqb n me then l else (n, ver) :: ring_remove me l
  end.

Fixpoint ring_set_ver (me : nat) (ver : Z) (l : list (nat * Z)) : list (nat * Z) :=
  match l with
  | [] => []
  | (n, w) :: l => if Nat.eqb n me then (n, ver) :: l else (n, w) :: ring_set_ver me ver l
  end.

Definition version (me : nat) : M snapshot_group Z :=
  g ← get;
  from_option (ring_ver me (sg_members g)).

Definition writable (me : nat) (g : snapshot_group) : bool := bool_decide (sg_writer g = Some me).

Definition has_readonly_snapshot (me : nat) (g : snapshot_group) : bool :=
  if negb (writable me g) then true
  else match ring_prev me (sg_members g) with Some p => negb (writable p g) | None => false end.

Definition has_writable_snapshot (g : snapshot_group) : bool :=
  match sg_writer g with Some _ => true | None => false end.

Definition snapshot_count (g : snapshot_group) : nat := length (sg_members g).

(** [ver_++], giving the version before. *)
Definition next_version (me : nat) : M snapshot_group Z :=
  ver ← version me;
  modify (fun g => g <| sg_members ::= ring_set_ver me (u64 (ver + 1)) |>);;
  mret ver.

(** ** Writing *)

Definition insert_one (ver : Z) (kv : K * V) : M snapshot_group () :=
  modify (fun g => g <| sg_data ::= mm_insert kv.1 (mk_vv ver no_version kv.2) |>
    <| sg_gc_insert ::= fun n => u64 (n + 1) |>).

Definition sm_insert (me : nat) k v : M snapshot_group () :=
  g ← get;
  verify (writable me g);;
  ver ← next_version me;
  insert_one (u64 (ver + 1)) (k, v).

(** The inserts of a range, one version for all. *)
Definition sm_insert_range (me : nat) (kvs : list (K * V)) : M snapshot_group () :=
  g ← get;
  verify (writable me g);;
  ver ← next_version me;
  for_each kvs (insert_one (u64 (ver + 1))).

(** The loops that mark values as removed, and the number of values marked. *)
Fixpoint mark (orig_ver ver : Z) (P : V -> bool) (first_match_only : bool) (l : list entry) : list entry * Z :=
  match l with
  | [] => ([], 0)
  | e :: l =>
    if valid_at orig_ver e.2 && P (vval e.2) then
      if first_match_only then ((e.1, vv_remove ver e.2) :: l, 1)
      else let '(l', n) := mark orig_ver ver P first_match_only l in ((e.1, vv_remove ver e.2) :: l', n + 1)
    else let '(l', n) := mark orig_ver ver P first_match_only l in (e :: l', n)
  end.

Definition mark_key (me : nat) k (P : V -> bool) (first_match_only : bool) (orig_ver : Z) : M snapshot_group () :=
  modify (fun g =>
    let '(l, n) := mark orig_ver (u64 (orig_ver + 1)) P first_match_only (equal_range k (sg_data g)) in
    g <| sg_data := below_key k (sg_data g) ++ l ++ above_key k (sg_data g) |> <| sg_gc_erase ::= fun c => u64 (c + n) |>).

(** [data.erase(data.lower_bound(key))]; erasing [end()] is undefined. *)
Definition erase_lower_bound k (l : list entry) : option (list entry) :=
  match from_key k l with
  | [] => None
  | _ :: r => Some (below_key k l ++ r)
  end.

Definition erase_key (me : nat) k (first_match_only : bool) : M snapshot_group () :=
  g ← get;
  verify (writable me g);;
  orig_ver ← next_version me;
  if has_readonly_snapshot me g then mark_key me k (fun _ => true) first_match_only orig_ver
  else if first_match_only then
    l ← from_option (erase_lower_bound k (sg_data g));
    modify (fun g => g <| sg_data := l |>)
  else modify (fun g => g <| sg_data := below_key k (sg_data g) ++ above_key k (sg_data g) |>).

(** The loop that erases the values equal to [v]. *)
Fixpoint erase_vals v (first_match_only : bool) (l : list entry) : list entry :=
  match l with
  | [] => []
  | e :: l =>
    if bool_decide (v = vval e.2) then if first_match_only then l else erase_vals v first_match_only l
    else e :: erase_vals v first_match_only l
  end.

Definition erase_key_value (me : nat) k v (first_match_only : bool) : M snapshot_group () :=
  g ← get;
  verify (writable me g);;
  orig_ver ← next_version me;
  if has_readonly_snapshot me g then mark_key me k (fun x => bool_decide (v = x)) first_match_only orig_ver
  else modify (fun g => g <| sg_data :=
    below_key k (sg_data g) ++ erase_vals v first_match_only (equal_range k (sg_data g)) ++ above_key k (sg_data g) |>).

(** ** Ranges *)

Inductive range_spec := RAll | REq k | RLt k | RGt k | RIn (low high : K).

(** The entries before a range, in it and after it. *)
Definition range_parts {A} (r : range_spec) (l : list (K * A)) : list (K * A) * list (K * A) * list (K * A) :=
  match r with
  | RAll => ([], l, [])
  | REq k => (below_key k l, equal_range k l, above_key k l)
  | RLt k => ([], below_key k l, from_key k l)
  | RGt k => (upto_key k l, above_key k l, [])
  | RIn low high => (upto_key low l, below_key high (above_key low l), from_key high (above_key low l))
  end.

(** [erase(range)], the entries of the range being marked or erased; a reverse range has
    the same entries. *)
Definition erase_range (me : nat) (r : range_spec) : M snapshot_group () :=
  g ← get;
  verify (writable me g);;
  orig_ver ← next_version me;
  let '(a, b, c) := range_parts r (sg_data g) in
  if has_readonly_snapshot me g then
    modify (fun g => g <| sg_data := a ++ (mark orig_ver (u64 (orig_ver + 1)) (fun _ => true) false b).1 ++ c |>)
  else modify (fun g => g <| sg_data := a ++ c |>).

(** [snapshot_range]: [next_] is the rest of the entries, [cached_next_] the prefetched one. *)
Record snapshot_range := mk_range {
  sr_version : Z;
  sr_all : list entry;
  sr_next : list entry;
  sr_cached : option (K * V);
  sr_count : Z;
}.
#[export] Instance Eta_range : Eta snapshot_range :=
  fun r => mk_range (sr_version r) (sr_all r) (sr_next r) (sr_cached r) (sr_count r).

Fixpoint prefetch (ver : Z) (l : list entry) : option (K * V) * list entry :=
  match l with
  | [] => (None, [])
  | e :: l => if valid_at ver e.2 then (Some (e.1, vval e.2), l) else prefetch ver l
  end.

Definition prefetch_next : M snapshot_range bool :=
  r ← get;
  let '(c, l) := prefetch (sr_version r) (sr_next r) in
  modify (fun r => r <| sr_cached := c |> <| sr_next := l |>);;
  mret (bool_decide (is_Some c)).

Definition has_next : M snapshot_range bool :=
  r ← get;
  match sr_cached r with Some _ => mret true | None => prefetch_next end.

Definition range_next : M snapshot_range (K * V) :=
  r ← get;
  match sr_cached r with
  | Some _ => mret ()
  | None => ok ← prefetch_next; verify ok
  end;;
  r ← get;
  modify (fun r => r <| sr_cached := None |>);;
  from_option (sr_cached r).

Definition range_count : M snapshot_range Z :=
  r ← get;
  if sr_count r >=? 0 then mret (sr_count r)
  else
    let n := Z.of_nat (length (List.filter (fun e => valid_at (sr_version r) e.2) (sr_all r))) in
    modify (fun r => r <| sr_count := n |>);;
    mret n.

(** ** Snapshots and garbage *)

Definition make_me_snapshot_of (me src : nat) : M snapshot_group () :=
  ver ← version src;
  modify (fun g => g <| sg_members ::= ring_insert_left src (me, ver) |>);;
  g ← get;
  when (writable src g) (modify (fun g => g <| sg_gc_insert := 0 |> <| sg_gc_erase := 0 |>)).

(** [all()], [query(key)] and so on: a new snapshot [me], and the entries of the range.
    The reverse variants visit the entries from the other end. *)
Definition sm_query (src me : nat) (r : range_spec) (rev_order : bool) : M snapshot_group snapshot_range :=
  make_me_snapshot_of me src;;
  ver ← version me;
  g ← get;
  let '(_, b, _) := range_parts r (sg_data g) in
  let l := if rev_order then rev b else b in
  mret (mk_range ver l l None (-1)).

(** [ver_high] starts at -1, which is the largest version. *)
Definition gc_bounds (me_ver : Z) (l : list (nat * Z)) : Z * Z :=
  foldl (fun '(low, high) m =>
    (if m.2 <? low then m.2 else low, if m.2 >? high then m.2 else high)) (me_ver, no_version) l.

Definition garbage (low high : Z) (x : versioned_value V) : bool :=
  (created_at x >? high) || (negb (removed_at x =? no_version) && (removed_at x <? low)).

Definition gc_run (me : nat) : M snapshot_group () :=
  ver ← version me;
  g ← get;
  let '(low, high) := gc_bounds ver (sg_members g) in
  modify (fun g => g <| sg_data ::= List.filter (fun e => negb (garbage low high e.2)) |>
    <| sg_gc_insert := 0 |> <| sg_gc_erase := 0 |>).

Definition gc_size (g : snapshot_group) : Z := Z.of_nat (length (sg_data g)).
Definition gc_counter (g : snapshot_group) : Z := u64 (sg_gc_insert g + sg_gc_erase g).

Definition destroy_me (me : nat) : M snapshot_group () :=
  g ← get;
  let auto_gc := writable me g && (gc_counter g >=? 16) && (gc_counter g >=? gc_size g / 2) in
  when (writable me g) (modify (fun g => g <| sg_writer := None |>));;
  prev ← from_option (ring_prev me (sg_members g));
  next ← from_option (ring_next me (sg_members g));
  modify (fun g => g <| sg_members ::= ring_remove me |>);;
  when (negb (Nat.eqb prev me) && auto_gc) (gc_run next).

(** A new map, a member [me] that writes. *)
Definition new_sortedmap (me : nat) : snapshot_group := mk_sgroup [] [(me, 0)] (Some me) 0 0.

(** [while (range) { ... range.next() ... }], the values it visits. *)
Fixpoint drain (fuel : nat) : M snapshot_range (list (K * V)) :=
  match fuel with
  | O => out_of_fuel
  | S fuel =>
    more ← has_next;
    if (more : bool) then kv ← range_next; kvs ← drain fuel; mret (kv :: kvs) else mret []
  end.

(** The copy of a map that may be written: a group of its own.  [tmp] is the snapshot
    that the range holds. *)
Definition copy_all (src tmp me : nat) : M snapshot_group snapshot_group :=
  r ← sm_query src tmp RAll false;
  kvs ← (match drain (S (length (sr_all r))) r with Done (kvs, _) => mret kvs | Aborted => abort | OutOfFuel => out_of_fuel end);
  g ← (match sm_insert_range me kvs (new_sortedmap me) with
       | Done (_, g) => mret g | Aborted => abort | OutOfFuel => out_of_fuel end);
  destroy_me tmp;;
  mret g.

(** ** What a member sees *)

Definition shown (e : entry) : K * V := (e.1, vval e.2).
Definition contents (ver : Z) (l : list entry) : list (K * V) := shown <$> filter (fun e => valid_at ver e.2 = true) l.

Lemma contents_app ver l l' : contents ver (l ++ l') = contents ver l ++ contents ver l'.
Proof. unfold contents. by rewrite filter_app, fmap_app. Qed.
Lemma contents_cons ver e l : contents ver (e :: l) = (if valid_at ver e.2 then [shown e] else []) ++ contents ver l.
Proof. unfold contents. rewrite filter_cons. by destruct (valid_at ver e.2). Qed.

(** ** Ordered multimaps *)

Definition key_le {A} (a b : K * A) : Prop := key_ltb b.1 a.1 = false.
Definition mm_sorted {A} (l : list (K * A)) : Prop := StronglySorted key_le l.

Lemma below_from {A} k (l : list (K * A)) : below_key k l ++ from_key k l = l.
Proof. induction l as [|e l IH]; cbn; [done|]. destruct (key_ltb e.1 k); cbn; [by f_equal | done]. Qed.
Lemma upto_above {A} k (l : list (K * A)) : upto_key k l ++ above_key k l = l.
Proof. induction l as [|e l IH]; cbn; [done|]. destruct (key_ltb k e.1); cbn; [done | by f_equal]. Qed.

Lemma not_lt_trans a b c : key_ltb b a = false -> key_ltb c b = false -> key_ltb c a = false.
Proof.
  intros H1 H2. destruct (key_ltb c a) eqn:E; [|done]. destruct (decide (a = b)) as [->|Hab]; [congruence|].
  assert (key_ltb a b = true) as Hlt by (by apply key_total). by rewrite (key_trans c a b E Hlt) in H2.
Qed.

Section parts.
Context {A : Type}.
Implicit Types (l : list (K * A)).

Lemma sorted_tail e l : mm_sorted (e :: l) -> mm_sorted l /\ Forall (key_le e) l.
Proof. apply StronglySorted_inv. Qed.

Lemma below_spec k l : Forall (fun e => key_ltb e.1 k = true) (below_key k l).
Proof. induction l as [|e l IH]; cbn; [constructor|]. destruct (key_ltb e.1 k) eqn:E; [by constructor | constructor]. Qed.
Lemma from_spec k l : mm_sorted l -> Forall (fun e => key_ltb e.1 k = false) (from_key k l).
Proof.
  induction l as [|e l IH]; cbn; [constructor|]. intros [Hl He]%sorted_tail. destruct (key_ltb e.1 k) eqn:E; [auto|].
  constructor; [done|]. eapply Forall_impl; [exact He|]. intros x Hx. unfold key_le in Hx. by eapply not_lt_trans.
Qed.
Lemma upto_spec k l : Forall (fun e => key_ltb k e.1 = false) (upto_key k l).
Proof. induction l as [|e l IH]; cbn; [constructor|]. destruct (key_ltb k e.1) eqn:E; [constructor | by constructor]. Qed.
Lemma above_spec k l : mm_sorted l -> Forall (fun e => key_ltb k e.1 = true) (above_key k l).
Proof.
  induction l as [|e l IH]; cbn; [constructor|]. intros [Hl He]%sorted_tail. destruct (key_ltb k e.1) eqn:E; [|auto].
  constructor; [done|]. eapply Forall_impl; [exact He|]. intros x Hx. unfold key_le in Hx.
  destruct (key_ltb k x.1) eqn:E'; [done|]. by rewrite (not_lt_trans e.1 x.1 k) in E.
Qed.

(** A range: the keys in it. *)
Definition in_range (r : range_spec) k : bool :=
  match r with
  | RAll => true
  | REq j => negb (key_ltb k j) && negb (key_ltb j k)
  | RLt j => key_ltb k j
  | RGt j => key_ltb j k
  | RIn low high => key_ltb low k && key_ltb k high
  end.

Definition range_ok (r : range_spec) : bool := match r with RIn low high => key_ltb low high | _ => true end.

Lemma sorted_app l l' : mm_sorted (l ++ l') -> mm_sorted l /\ mm_sorted l' /\ forall x y, x ∈ l -> y ∈ l' -> key_le x y.
Proof. unfold mm_sorted. rewrite StronglySorted_app. tauto. Qed.

(** The parts of a range make up the map; the keys of the range are in the middle. *)
Lemma range_parts_spec r l a b c :
  mm_sorted l -> range_ok r = true -> range_parts r l = (a, b, c) ->
  l = a ++ b ++ c /\ Forall (fun e => in_range r e.1 = false) a /\ Forall (fun e => in_range r e.1 = true) b /\
  Forall (fun e => in_range r e.1 = false) c.
Proof.
  intros Hs Hok E. destruct r as [|k|k|k|lo hi]; cbn in E; injection E as <- <- <-; cbn [in_range].
  - rewrite app_nil_r. split_and!; try constructor. by apply Forall_forall.
  - pose proof (below_from k l) as Hl. pose proof (from_spec k l Hs) as Hfrom. rewrite Forall_forall in Hfrom.
    assert (mm_sorted (from_key k l)) as Hsf by (rewrite <- Hl in Hs; by apply sorted_app in Hs as (_ & ? & _)).
    pose proof (upto_above k (from_key k l)) as Hf.
    assert (above_key k l = above_key k (from_key k l)) as Ea.
    { clear. induction l as [|e l IH]; cbn; [done|]. destruct (key_ltb e.1 k) eqn:Ek; [|done].
      by rewrite (key_lt_asym _ _ Ek). }
    rewrite Ea. unfold equal_range. split_and!; [by rewrite Hf, Hl | | |].
    + eapply Forall_impl; [apply below_spec|]. cbn. by intros e ->.
    + apply Forall_forall. intros e He. pose proof (upto_spec k (from_key k l)) as Hu. rewrite Forall_forall in Hu.
      rewrite (Hu e He), Hfrom; [done|]. rewrite <- Hf. apply elem_of_app. by left.
    + eapply Forall_impl; [by apply above_spec|]. cbn. intros e ->. by rewrite andb_false_r.
  - split_and!; [by rewrite below_from | constructor | apply below_spec | by apply from_spec].
  - rewrite app_nil_r. split_and!; [by rewrite upto_above | apply upto_spec | by apply above_spec | constructor].
  - pose proof (upto_above lo l) as Hl. assert (mm_sorted (above_key lo l)) as Hsa.
    { rewrite <- Hl in Hs. by apply sorted_app in Hs as (_ & Hs & _). }
    split_and!; [by rewrite below_from, Hl | | |].
    + eapply Forall_impl; [apply upto_spec|]. cbn. by intros e ->.
    + pose proof (above_spec lo l Hs) as Ha. rewrite <- (below_from hi (above_key lo l)) in Ha. apply Forall_app in Ha as [Ha _].
      pose proof (below_spec hi (above_key lo l)) as Hb. rewrite Forall_forall in *. intros e He. rewrite Ha, Hb; done.
    + eapply Forall_impl; [by apply from_spec|]. cbn. intros e ->. by rewrite andb_false_r.
Qed.

(** Inserting keeps the order. *)
Lemma mm_insert_sorted k (x : A) l : mm_sorted l -> mm_sorted (mm_insert k x l).
Proof.
  intros Hs. pose proof (upto_spec k l) as Hu. pose proof (above_spec k l Hs) as Ha. unfold mm_insert.
  rewrite <- (upto_above k l) in Hs. apply sorted_app in Hs as (S1 & S2 & S3). unfold mm_sorted.
  rewrite StronglySorted_app, StronglySorted_cons. rewrite Forall_forall in Hu, Ha. split_and!; [|done| |done].
  - intros x' y Hx [->|Hy]%elem_of_cons; [|by apply S3]. unfold key_le. cbn. by apply Hu.
  - apply Forall_forall. intros y Hy. unfold key_le. cbn. apply key_lt_asym. by apply Ha.
Qed.

Lemma upto_unique k l a b :
  l = a ++ b -> Forall (fun e => key_ltb k e.1 = false) a -> Forall (fun e => key_ltb k e.1 = true) b ->
  upto_key k l = a /\ above_key k l = b.
Proof.
  intros -> Ha Hb. induction Ha as [|e a He Ha [IH1 IH2]]; cbn.
  - destruct Hb as [|e b He Hb]; cbn; [done|]. by rewrite He.
  - by rewrite He, IH1, IH2.
Qed.
End parts.

Lemma Forall_contents (P : K -> Prop) ver (l : list entry) :
  Forall (fun e => P e.1) l -> Forall (fun e => P e.1) (contents ver l).
Proof.
  intros Hl. unfold contents. apply Forall_fmap. rewrite Forall_forall in *. intros e He. cbn.
  apply list_elem_of_filter in He as [_ He]. by apply Hl.
Qed.

Lemma contents_insert ver k x l :
  mm_sorted l -> contents ver (mm_insert k x l) =
    if valid_at ver x then mm_insert k (vval x) (contents ver l) else contents ver l.
Proof.
  intros Hs. unfold mm_insert. rewrite contents_app, contents_cons. cbn [snd].
  assert (contents ver l = contents ver (upto_key k l) ++ contents ver (above_key k l)) as El.
  { by rewrite <- contents_app, upto_above. }
  destruct (upto_unique k (contents ver l) (contents ver (upto_key k l)) (contents ver (above_key k l)) El) as [E1 E2].
  - apply (Forall_contents (fun j => key_ltb k j = false)), upto_spec.
  - apply (Forall_contents (fun j => key_ltb k j = true)). by apply above_spec.
  - destruct (valid_at ver x); [by rewrite E1, E2|]. cbn. by rewrite El.
Qed.

(** ** Removing *)

(** The values of a range that satisfy [P]. *)
Definition hit (r : range_spec) (P : V -> bool) (kv : K * V) : Prop := in_range r kv.1 && P kv.2 = true.
#[export] Instance hit_dec r P kv : Decision (hit r P kv).
Proof. unfold hit. apply _. Defined.

Lemma mark_all orig ver P (l : list entry) :
  (mark orig ver P false l).1 = (fun e => if valid_at orig e.2 && P (vval e.2) then (e.1, vv_remove ver e.2) else e) <$> l.
Proof.
  induction l as [|e l IH]; cbn [mark]; [done|]. rewrite fmap_cons, <- IH.
  destruct (valid_at orig e.2 && P (vval e.2)); destruct (mark orig ver P false l); done.
Qed.

(** A value of the map: created, and removed if at all, no later than the writer's version. *)
Definition entry_ok (w : Z) (e : entry) : Prop :=
  0 <= created_at e.2 <= w /\ (removed_at e.2 = no_version \/ removed_at e.2 <= w).

(** Marking a value leaves it visible up to the version before, and hides it from then on. *)
Lemma mark_one_old w u P e :
  entry_ok w e -> u <= w -> w + 1 < no_version ->
  valid_at u (if valid_at w e.2 && P (vval e.2) then (e.1, vv_remove (w + 1) e.2) else e).2 = valid_at u e.2.
Proof.
  intros [Hc Hr] Hu Hb. destruct (valid_at w e.2 && P (vval e.2)) eqn:E; [|done]. apply andb_true_iff in E as [E _].
  unfold valid_at in *. cbn. apply andb_true_iff in E as [_ E].
  assert ((w + 1 =? no_version) = false) as -> by lia. assert ((u <? w + 1) = true) as -> by lia. cbn [orb].
  destruct (Z.eqb_spec (removed_at e.2) no_version) as [->|Hne]; [done|]. cbn [orb] in E |- *.
  destruct (Z.ltb_spec u (removed_at e.2)); [done|]. lia.
Qed.

Lemma valid_next w e : entry_ok w e -> w + 1 < no_version -> valid_at (w + 1) e.2 = valid_at w e.2.
Proof.
  intros [Hc Hr] Hb. unfold valid_at. destruct (Z.leb_spec (created_at e.2) w); [|lia]. destruct (Z.leb_spec (created_at e.2) (w + 1)); [|lia].
  destruct (Z.eqb_spec (removed_at e.2) no_version); [done|]. cbn. lia.
Qed.

Lemma mark_one_new w P e :
  entry_ok w e -> 0 <= w -> w + 1 < no_version ->
  valid_at (w + 1) (if valid_at w e.2 && P (vval e.2) then (e.1, vv_remove (w + 1) e.2) else e).2 =
  valid_at w e.2 && negb (P (vval e.2)).
Proof.
  intros He Hw Hb. destruct (valid_at w e.2) eqn:Ev; cbn [andb]; [|by rewrite valid_next].
  destruct (P (vval e.2)); [|by rewrite valid_next]. unfold valid_at. cbn.
  assert ((w + 1 =? no_version) = false) as -> by lia. assert ((w + 1 <? w + 1) = false) as -> by lia. by rewrite andb_false_r.
Qed.

Lemma contents_mark_old w u P l :
  Forall (entry_ok w) l -> u <= w -> w + 1 < no_version -> contents u (mark w (w + 1) P false l).1 = contents u l.
Proof.
  intros Hl Hu Hb. rewrite mark_all. induction Hl as [|e l He Hl IH]; [done|]. rewrite fmap_cons, !contents_cons, IH.
  rewrite mark_one_old by done. by destruct (valid_at w e.2 && P (vval e.2)).
Qed.

Lemma contents_mark_new w P l :
  Forall (entry_ok w) l -> 0 <= w -> w + 1 < no_version ->
  contents (w + 1) (mark w (w + 1) P false l).1 = filter (fun kv => negb (P kv.2) = true) (contents w l).
Proof.
  intros Hl Hw Hb. rewrite mark_all. induction Hl as [|e l He Hl IH]; [done|].
  rewrite fmap_cons, !contents_cons, filter_app, IH. f_equal. rewrite mark_one_new by done.
  destruct (valid_at w e.2); [|done]. cbn [andb]. rewrite filter_cons. cbn. by destruct (P (vval e.2)).
Qed.

Lemma contents_next w l : Forall (entry_ok w) l -> w + 1 < no_version -> contents (w + 1) l = contents w l.
Proof.
  intros Hl Hb. induction Hl as [|e l He Hl IH]; [done|]. by rewrite !contents_cons, IH, valid_next.
Qed.

(** What is outside the range stays. *)
Lemma contents_outside w r P l :
  Forall (fun e => in_range r e.1 = false) l -> filter (fun kv => ~ hit r P kv) (contents w l) = contents w l.
Proof.
  intros Hl. induction Hl as [|e l He Hl IH]; [done|]. rewrite contents_cons, filter_app, IH. f_equal.
  destruct (valid_at w e.2); [|done]. rewrite filter_cons_True; [done|]. unfold hit. cbn. by rewrite He.
Qed.

Lemma contents_inside w r P l :
  Forall (fun e => in_range r e.1 = true) l ->
  filter (fun kv => negb (P kv.2) = true) (contents w l) = filter (fun kv => ~ hit r P kv) (contents w l).
Proof.
  intros Hl. induction Hl as [|e l He Hl IH]; [done|]. rewrite contents_cons, !filter_app, IH. f_equal.
  destruct (valid_at w e.2); [|done]. rewrite !filter_cons. unfold hit. cbn.
  destruct (decide (negb (P (vval e.2)) = true)) as [H1|H1]; destruct (decide _) as [H2|H2]; try done; exfalso;
    unfold hit in H2; cbn in H2; rewrite He in H2; destruct (P (vval e.2)); cbn in *; naive_solver.
Qed.

(** Removing from a range, by marking or by erasing: [b'] is what becomes of the entries
    of the range. *)
Lemma contents_remove w r P a b b' c :
  Forall (entry_ok w) (a ++ b ++ c) -> w + 1 < no_version ->
  Forall (fun e => in_range r e.1 = false) a -> Forall (fun e => in_range r e.1 = true) b ->
  Forall (fun e => in_range r e.1 = false) c ->
  contents (w + 1) b' = filter (fun kv => negb (P kv.2) = true) (contents w b) ->
  contents (w + 1) (a ++ b' ++ c) = filter (fun kv => ~ hit r P kv) (contents w (a ++ b ++ c)).
Proof.
  intros Hok Hb Ha Hbr Hc E. rewrite !Forall_app in Hok. destruct Hok as (O1 & O2 & O3).
  rewrite !contents_app, !filter_app, E, !contents_next by done. by rewrite (contents_outside w r P a), (contents_outside w r P c), (contents_inside w r P b).
Qed.

Lemma contents_erase_vals w v l :
  Forall (entry_ok w) l -> w + 1 < no_version ->
  contents (w + 1) (erase_vals v false l) = filter (fun kv => negb (bool_decide (v = kv.2)) = true) (contents w l).
Proof.
  intros Hl Hb. induction Hl as [|e l He Hl IH]; [done|]. cbn [erase_vals]. rewrite (contents_cons w), filter_app, <- IH.
  case_bool_decide as Hv.
  - destruct (valid_at w e.2); [|done]. rewrite filter_cons_False; [done|]. cbn. by rewrite bool_decide_true.
  - rewrite contents_cons, valid_next by done. destruct (valid_at w e.2); [|done]. rewrite filter_cons_True; [done|].
    cbn. by rewrite bool_decide_false.
Qed.

(** ** Order and versions after a write *)

Lemma mm_sorted_keys {A B} (l : list (K * A)) (l' : list (K * B)) : l.*1 = l'.*1 -> mm_sorted l -> mm_sorted l'.
Proof.
  revert l'. induction l as [|e l IH]; intros [|e' l'] E Hs; try done; [constructor|]. rewrite !fmap_cons in E.
  injection E as E1 E2. apply StronglySorted_inv in Hs as [Hs He]. constructor; [by apply IH|].
  rewrite Forall_forall in He. apply Forall_forall. intros x Hx. assert (x.1 ∈ l'.*1) as Hx1 by (by apply list_elem_of_fmap_2). rewrite <- E2 in Hx1.
  apply list_elem_of_fmap in Hx1 as (y & Ey & Hy). specialize (He y Hy). unfold key_le in *. by rewrite Ey, <- E1.
Qed.

Lemma Forall_sublist {A} (P : A -> Prop) l l' : l' `sublist_of` l -> Forall P l -> Forall P l'.
Proof. intros Hsub Hl. rewrite Forall_forall in *. intros x Hx. apply Hl. by eapply elem_of_sublist. Qed.

Lemma mm_sorted_sublist {A} (l l' : list (K * A)) : l' `sublist_of` l -> mm_sorted l -> mm_sorted l'.
Proof.
  intros Hsub. induction Hsub as [|x l1 l2 Hsub IH|x l1 l2 Hsub IH]; intros Hs; [done| |].
  - apply StronglySorted_inv in Hs as [Hs Hx]. constructor; [by apply IH|]. by eapply Forall_sublist.
  - apply StronglySorted_inv in Hs as [Hs _]. by apply IH.
Qed.

Lemma mark_keys orig ver P l : (mark orig ver P false l).1.*1 = l.*1.
Proof.
  rewrite mark_all, <- list_fmap_compose. apply list_fmap_ext. intros i e _. cbn.
  by destruct (valid_at orig e.2 && P (vval e.2)).
Qed.

Lemma entry_ok_mono w w' e : entry_ok w e -> w <= w' -> entry_ok w' e.
Proof. unfold entry_ok. intros [? [?|?]] ?; split; try lia. Qed.

Lemma mark_ok w P l : Forall (entry_ok w) l -> 0 <= w -> Forall (entry_ok (w + 1)) (mark w (w + 1) P false l).1.
Proof.
  intros Hl Hw. rewrite mark_all. apply Forall_fmap. eapply Forall_impl; [exact Hl|]. intros e He.
  cbn. destruct (valid_at w e.2 && P (vval e.2)); [|apply (entry_ok_mono w); [done | lia]].
  destruct He as [? _]. unfold entry_ok. cbn. lia.
Qed.

Lemma erase_vals_sublist v f l : erase_vals v f l `sublist_of` l.
Proof.
  induction l as [|e l IH]; cbn; [constructor|]. case_bool_decide; [|by apply sublist_skip].
  destruct f; [by apply sublist_cons | by apply sublist_cons].
Qed.
End snapshot.
