(* ===== verification/SnapshotRef.v ===== *)
(** * The multi-version map implements a map per snapshot

    The abstract map keeps, for every member of the group, the list of values it sees, in
    the order of the keys.  A write changes what the writer sees and nothing else; taking
    a snapshot copies what the source sees; garbage collection changes nothing. *)
From stdpp Require Import base tactics numbers list gmap sorting.
From S2P Require Import Prelude OMap Snapshot.

(** ** The ring of members *)

Lemma ring_ver_Some me l v : ring_ver me l = Some v -> (me, v) ∈ l.
Proof.
  induction l as [|[n u] l IH]; cbn; [done|]. destruct (Nat.eqb_spec n me) as [->|]; [intros [= ->]; by left|].
  intros ?. right. auto.
Qed.

Lemma ring_ver_elem me l v : NoDup l.*1 -> (me, v) ∈ l -> ring_ver me l = Some v.
Proof.
  induction l as [|[n u] l IH]; cbn; intros Hnd Hin; [by apply not_elem_of_nil in Hin|]. apply NoDup_cons in Hnd as [Hn Hnd].
  apply elem_of_cons in Hin as [[= -> ->]|Hin]; [by rewrite Nat.eqb_refl|].
  destruct (Nat.eqb_spec n me) as [->|]; [|auto]. destruct Hn. by apply (list_elem_of_fmap_2 fst _ (me, v)).
Qed.

Lemma ring_ver_None me l : ring_ver me l = None <-> me ∉ l.*1.
Proof.
  induction l as [|[n u] l IH]; cbn; [split; [intros _; apply not_elem_of_nil | done]|].
  rewrite not_elem_of_cons. destruct (Nat.eqb_spec n me) as [->|]; [naive_solver|]. naive_solver.
Qed.

Lemma ring_ver_perm me l l' : NoDup l.*1 -> l ≡ₚ l' -> ring_ver me l' = ring_ver me l.
Proof.
  intros Hnd Hp. destruct (ring_ver me l) as [v|] eqn:E.
  - apply ring_ver_elem; [by rewrite <- Hp|]. rewrite <- Hp. by apply ring_ver_Some.
  - apply ring_ver_None. apply ring_ver_None in E. by rewrite <- Hp.
Qed.

Lemma ring_set_names me v l : (ring_set_ver me v l).*1 = l.*1.
Proof. induction l as [|[n u] l IH]; cbn; [done|]. destruct (Nat.eqb n me); cbn; [done | by f_equal]. Qed.

Lemma ring_set_ver_eq me v l n :
  ring_ver n (ring_set_ver me v l) = if Nat.eqb n me then (fun _ => v) <$> ring_ver me l else ring_ver n l.
Proof.
  induction l as [|[j u] l IH]; cbn; [by destruct (Nat.eqb n me)|].
  destruct (Nat.eqb_spec j me) as [->|Hj]; cbn.
  - destruct (Nat.eqb_spec me n) as [->|]; [by rewrite Nat.eqb_refl|]. destruct (Nat.eqb_spec n me); congruence.
  - rewrite IH. destruct (Nat.eqb_spec j n) as [->|]; [|done]. destruct (Nat.eqb_spec n me); congruence.
Qed.

Lemma ring_set_elem me v l n u : (n, u) ∈ ring_set_ver me v l -> (n, u) = (me, v) \/ (n, u) ∈ l.
Proof.
  induction l as [|[j w] l IH]; cbn; [by intros ?%not_elem_of_nil|]. destruct (Nat.eqb_spec j me) as [->|].
  - intros [->|Hin]%elem_of_cons; [by left | right; by right].
  - intros [->|Hin]%elem_of_cons; [right; by left|]. apply IH in Hin as [->|]; [by left | right; by right].
Qed.

Lemma ring_insert_perm src m l : src ∈ l.*1 -> ring_insert_left src m l ≡ₚ m :: l.
Proof.
  induction l as [|[n u] l IH]; cbn; intros Hin; [by apply not_elem_of_nil in Hin|].
  destruct (Nat.eqb_spec n src) as [->|]; [done|]. apply elem_of_cons in Hin as [?|Hin]; [congruence|].
  rewrite IH by done. apply Permutation_swap.
Qed.

Lemma ring_remove_perm me u l : ring_ver me l = Some u -> l ≡ₚ (me, u) :: ring_remove me l.
Proof.
  induction l as [|[n v] l IH]; cbn; [done|]. destruct (Nat.eqb_spec n me) as [->|]; [by intros [= ->]|].
  intros E. rewrite (IH E) at 1. apply Permutation_swap.
Qed.

(** The member before [me] is [me] itself only when it is alone. *)
Lemma ring_prev_from_in last me l :
  me ∈ l.*1 -> exists p, ring_prev_from last me l = Some p /\ (p = last \/ p ∈ l.*1 /\ (NoDup l.*1 -> p ≠ me)).
Proof.
  revert last. induction l as [|[n u] l IH]; intros last Hin; cbn; [by apply not_elem_of_nil in Hin|].
  destruct (Nat.eqb_spec n me) as [->|Hne]; [exists last; by split; [|left]|]. apply elem_of_cons in Hin as [?|Hin]; [cbn in *; congruence|].
  destruct (IH n Hin) as (p & E & [->|[Hp1 Hp2]]).
  - exists n. split; [done|]. right. split; [by left | done].
  - exists p. split; [done|]. right. split; [by right|]. intros [_ Hnd]%NoDup_cons. auto.
Qed.

Lemma last_in (l : list nat) d : l ≠ [] -> List.last l d ∈ l.
Proof.
  induction l as [|x l IH]; [done|]. intros _. destruct l as [|y l]; [by left|]. right. by apply IH.
Qed.

Lemma ring_prev_total me l : me ∈ l.*1 -> exists p, ring_prev me l = Some p /\ p ∈ l.*1.
Proof.
  intros Hin. unfold ring_prev. destruct (ring_prev_from_in (List.last (fst <$> l) O) me l Hin) as (p & E & Hp).
  exists p. split; [done|]. destruct Hp as [->|[? _]]; [|done]. apply last_in. intros Hn. rewrite Hn in Hin. by apply not_elem_of_nil in Hin.
Qed.

Lemma ring_prev_alone me l : NoDup l.*1 -> me ∈ l.*1 -> ring_prev me l = Some me -> exists u, l = [(me, u)].
Proof.
  intros Hnd Hin E. unfold ring_prev in E. destruct (ring_prev_from_in (List.last (fst <$> l) O) me l Hin) as (p & E' & Hp).
  assert (p = me) as -> by congruence. destruct Hp as [Hlast|[_ Hne]]; [|by destruct (Hne Hnd)]. clear E'.
  destruct l as [|[n u] l]; [by apply not_elem_of_nil in Hin|]. destruct l as [|[j v] l].
  { cbn in Hlast. exists u. by subst. }
  exfalso. rewrite !fmap_cons in *. apply NoDup_cons in Hnd as [Hn Hnd]. cbn in E. destruct (Nat.eqb_spec n me) as [->|Hne].
  - apply Hn. rewrite Hlast. cbn [fst]. change (List.last (me :: j :: l.*1) 0%nat) with (List.last (j :: l.*1) 0%nat). by apply last_in.
  - change ((if Nat.eqb j me then Some n else ring_prev_from j me l) = Some me) in E. destruct (Nat.eqb_spec j me) as [->|Hj]; [congruence|].
    assert (me ∈ l.*1) as Hm by (apply elem_of_cons in Hin as [?|[?|?]%elem_of_cons]; cbn in *; congruence).
    destruct (ring_prev_from_in j me l Hm) as (p & E' & [->|[_ Hp]]); [congruence|].
    apply NoDup_cons in Hnd as [_ Hnd]. specialize (Hp Hnd). congruence.
Qed.

Lemma ring_next_total me l : me ∈ l.*1 -> exists p, ring_next me l = Some p /\ p ∈ l.*1 /\
  (NoDup l.*1 -> ring_prev me l ≠ Some me -> p ≠ me).
Proof.
  intros Hin. unfold ring_next. destruct l as [|[n0 u0] l0] eqn:El; [by apply not_elem_of_nil in Hin|].
  assert (forall l, me ∈ l.*1 -> exists p, ring_next_from n0 me l = Some p /\
    (p ∈ l.*1 /\ (NoDup l.*1 -> p ≠ me) \/ p = n0 /\ exists a u, l = a ++ [(me, u)])) as Hgen.
  { clear. induction l as [|[n u] l IH]; intros Hin; [by apply not_elem_of_nil in Hin|]. cbn [ring_next_from].
    destruct (Nat.eqb_spec n me) as [->|Hne].
    - destruct l as [|[m w] l]; [exists n0; split; [done|]; right; split; [done|]; by exists [], u|].
      exists m. split; [done|]. left. split; [right; by left|]. intros [Hn _]%NoDup_cons ->. apply Hn. by left.
    - apply elem_of_cons in Hin as [?|Hin]; [cbn in *; congruence|]. destruct (IH Hin) as (p & E & [[H1 H2]|(-> & a & w & ->)]).
      + exists p. split; [done|]. left. split; [by right|]. intros [_ Hnd]%NoDup_cons. auto.
      + exists n0. split; [done|]. right. split; [done|]. by exists ((n, u) :: a), w. }
  destruct (Hgen ((n0, u0) :: l0)) as (p & E & Hp); [done|]. exists p. split; [done|].
  destruct Hp as [[H1 H2]|(-> & a & w & Ea)]; [auto|]. split; [by left|]. intros Hnd Hprev ->. apply Hprev.
  unfold ring_prev. rewrite fmap_cons. cbn [fst ring_prev_from]. rewrite Nat.eqb_refl. f_equal.
  change (me :: l0.*1) with (((me, u0) :: l0).*1). rewrite Ea, fmap_app. cbn. apply last_last.
Qed.

Section refinement.
Context {K : Type} `{OrdKey K} {V : Type} `{!EqDecision V}.
Implicit Types (k : K) (v : V) (g : snapshot_group (K:=K) (V:=V)).

(** ** The invariant *)

Record sg_inv (B : Z) g : Prop := {
  gi_names : NoDup (sg_members g).*1;
  gi_sorted : mm_sorted (sg_data g);
  gi_vers : Forall (fun m => 0 <= m.2 <= B) (sg_members g);
  gi_writer : forall w, sg_writer g = Some w ->
    exists W, (w, W) ∈ sg_members g /\ Forall (fun m => m.2 <= W) (sg_members g) /\ Forall (entry_ok W) (sg_data g);
}.

(** What member [n] sees. *)
Definition seen (n : nat) g : option (list (K * V)) :=
  (fun ver => contents ver (sg_data g)) <$> ring_ver n (sg_members g).

Lemma has_readonly_false w g :
  NoDup (sg_members g).*1 -> w ∈ (sg_members g).*1 -> has_readonly_snapshot w g = false ->
  exists u, sg_members g = [(w, u)].
Proof.
  intros Hnd Hin. unfold has_readonly_snapshot. destruct (writable w g) eqn:Ew; cbn [negb]; [|done].
  destruct (ring_prev_total w _ Hin) as (p & Ep & _). rewrite Ep. intros Hp. apply (ring_prev_alone w _ Hnd Hin).
  rewrite Ep. f_equal. unfold writable in *. apply negb_false_iff, bool_decide_eq_true in Hp. apply bool_decide_eq_true in Ew. congruence.
Qed.

(** ** A write *)

Section write.
Context (B : Z) g (w : nat) (W : Z).
Context (Hi : sg_inv B g) (HB : B + 1 < no_version) (Hw : sg_writer g = Some w).
Context (HW : ring_ver w (sg_members g) = Some W) (Hok : Forall (entry_ok W) (sg_data g))
  (Hmax : Forall (fun m => m.2 <= W) (sg_members g)).

Lemma W_bound : 0 <= W /\ W + 1 < no_version /\ u64 (W + 1) = W + 1.
Proof.
  pose proof (gi_vers _ _ Hi) as Hv. rewrite Forall_forall in Hv. specialize (Hv _ (ring_ver_Some _ _ _ HW)). cbn in Hv.
  unfold no_version in *. split_and!; [lia | lia |]. apply wrap_u_id. unfold in_u. lia.
Qed.

(** The writer moves on by one version and the data changes to [D]. *)
Definition written (D : list (K * versioned_value V)) (n1 n2 : Z) : snapshot_group :=
  mk_sgroup D (ring_set_ver w (W + 1) (sg_members g)) (Some w) n1 n2.

Lemma written_inv D n1 n2 :
  mm_sorted D -> Forall (entry_ok (W + 1)) D -> sg_inv (B + 1) (written D n1 n2).
Proof.
  intros Hs Hd. destruct W_bound as (B1 & B2 & _). destruct Hi as [N S Hv _]. split; cbn.
  - by rewrite ring_set_names.
  - done.
  - rewrite Forall_forall in *. intros [n u] [[= -> ->]|Hin]%ring_set_elem; cbn.
    + specialize (Hv _ (ring_ver_Some _ _ _ HW)). cbn in Hv. lia.
    + specialize (Hv _ Hin). cbn in Hv. lia.
  - intros w' [= <-]. exists (W + 1). split_and!; [|rewrite Forall_forall in *|done].
    + apply ring_ver_Some. rewrite ring_set_ver_eq, Nat.eqb_refl, HW. done.
    + intros [n u] [[= -> ->]|Hin]%ring_set_elem; cbn; [lia|]. specialize (Hmax _ Hin). cbn in Hmax. lia.
Qed.

Lemma written_seen D n1 n2 f :
  (forall n u, (n, u) ∈ sg_members g -> n ≠ w -> contents u D = contents u (sg_data g)) ->
  contents (W + 1) D = f (contents W (sg_data g)) ->
  forall n, seen n (written D n1 n2) = if Nat.eqb n w then f <$> seen w g else seen n g.
Proof.
  intros Hold Hnew n. unfold seen. cbn -[contents]. rewrite ring_set_ver_eq. destruct (Nat.eqb_spec n w) as [->|Hne].
  - rewrite HW. cbn -[contents]. by rewrite Hnew.
  - destruct (ring_ver n (sg_members g)) as [u|] eqn:E; [|done]. cbn -[contents]. f_equal. apply (Hold n); [by apply ring_ver_Some | done].
Qed.

Lemma next_version_eq : next_version w g = Done (W, g <| sg_members ::= ring_set_ver w (W + 1) |>).
Proof.
  unfold next_version, version. erewrite bind_eq; [|erewrite bind_eq by reflexivity; by rewrite HW].
  erewrite bind_eq by reflexivity. destruct W_bound as (_ & _ & ->). done.
Qed.

(** How every write begins. *)
Definition moved : snapshot_group := g <| sg_members ::= ring_set_ver w (W + 1) |>.

Lemma write_start {A} (k : snapshot_group -> Z -> M snapshot_group A) :
  (g0 ← get; verify (writable w g0);; ver ← next_version w; k g0 ver) g = k g W moved.
Proof.
  erewrite bind_eq by reflexivity. unfold writable. rewrite bool_decide_true by done.
  erewrite bind_eq by reflexivity. by rewrite (bind_eq _ _ _ _ _ next_version_eq).
Qed.

Lemma older n u : (n, u) ∈ sg_members g -> u <= W.
Proof. intros Hin. rewrite Forall_forall in Hmax. apply (Hmax _ Hin). Qed.

Lemma insert_data_ok k v D :
  mm_sorted D -> Forall (entry_ok (W + 1)) D ->
  let D' := mm_insert k (mk_vv (W + 1) no_version v) D in
  mm_sorted D' /\ Forall (entry_ok (W + 1)) D' /\ contents (W + 1) D' = mm_insert k v (contents (W + 1) D) /\
  forall u, u <= W -> contents u D' = contents u D.
Proof.
  intros Hs Hd D'. destruct W_bound as (B1 & B2 & _). split_and!.
  - by apply mm_insert_sorted.
  - unfold D', mm_insert. rewrite <- (upto_above k D), Forall_app in Hd. destruct Hd. apply Forall_app. split; [done|].
    constructor; [|done]. unfold entry_ok. cbn. lia.
  - unfold D'. rewrite contents_insert by done. unfold valid_at. cbn. assert ((W + 1 <=? W + 1) = true) as -> by lia.
    by rewrite Z.eqb_refl.
  - intros u Hu. unfold D'. rewrite contents_insert by done. unfold valid_at. cbn. by assert ((W + 1 <=? u) = false) as -> by lia.
Qed.

Lemma sm_insert_done k v :
  exists n1 n2 D, sm_insert w k v g = Done (tt, written D n1 n2) /\ sg_inv (B + 1) (written D n1 n2) /\
    forall n, seen n (written D n1 n2) = if Nat.eqb n w then mm_insert k v <$> seen w g else seen n g.
Proof.
  destruct W_bound as (B1 & B2 & Eu).
  assert (Forall (entry_ok (W + 1)) (sg_data g)) as Hd.
  { eapply Forall_impl; [exact Hok|]. intros e He. eapply entry_ok_mono; [exact He | lia]. }
  destruct (insert_data_ok k v (sg_data g) (gi_sorted _ _ Hi) Hd) as (I1 & I2 & I3 & I4).
  eexists _, _, (mm_insert k (mk_vv (W + 1) no_version v) (sg_data g)). split; [|split; [by apply written_inv|]].
  - unfold sm_insert. rewrite write_start, Eu. unfold insert_one, modify, set_field, written.
    cbn -[wrap_u]. by rewrite Hw.
  - apply written_seen; [|by rewrite I3, contents_next]. intros n u Hin _. apply I4. by eapply older.
Qed.

Lemma insert_loop_done (kvs : list (K * V)) (st : snapshot_group) :
  mm_sorted (sg_data st) -> Forall (entry_ok (W + 1)) (sg_data st) ->
  exists D n, for_each kvs (insert_one (W + 1)) st =
      Done (tt, mk_sgroup D (sg_members st) (sg_writer st) n (sg_gc_erase st)) /\
    mm_sorted D /\ Forall (entry_ok (W + 1)) D /\
    contents (W + 1) D = foldl (fun l kv => mm_insert kv.1 kv.2 l) (contents (W + 1) (sg_data st)) kvs /\
    forall u, u <= W -> contents u D = contents u (sg_data st).
Proof.
  revert st. induction kvs as [|[k v] kvs IH]; intros st Hs Hd; cbn [for_each foldl].
  { exists (sg_data st), (sg_gc_insert st). split_and!; try done. by destruct st. }
  destruct (insert_data_ok k v (sg_data st) Hs Hd) as (I1 & I2 & I3 & I4).
  set (st1 := st <| sg_data ::= mm_insert k (mk_vv (W + 1) no_version v) |> <| sg_gc_insert ::= fun n => u64 (n + 1) |>).
  rewrite (bind_eq _ _ _ tt st1) by reflexivity. destruct (IH st1 I1 I2) as (D & n & E & J1 & J2 & J3 & J4).
  exists D, n. split_and!; [exact E | done | done | |].
    + rewrite J3. cbn -[contents mm_insert]. by rewrite I3.
    + intros u Hu. rewrite J4 by done. by apply I4.
Qed.

Lemma data_ok_next : Forall (entry_ok (W + 1)) (sg_data g).
Proof. eapply Forall_impl; [exact Hok|]. intros e He. eapply entry_ok_mono; [exact He | lia]. Qed.

Lemma sm_insert_range_done (kvs : list (K * V)) :
  exists n1 n2 D, sm_insert_range w kvs g = Done (tt, written D n1 n2) /\ sg_inv (B + 1) (written D n1 n2) /\
    forall n, seen n (written D n1 n2) =
      if Nat.eqb n w then (fun l => foldl (fun l kv => mm_insert kv.1 kv.2 l) l kvs) <$> seen w g else seen n g.
Proof.
  destruct W_bound as (B1 & B2 & Eu).
  set (g1 := g <| sg_members ::= ring_set_ver w (W + 1) |>).
  destruct (insert_loop_done kvs g1 (gi_sorted _ _ Hi) data_ok_next)
    as (D & n & E & I1 & I2 & I3 & I4).
  eexists _, _, D. split; [|split; [by apply written_inv|]].
  - unfold sm_insert_range. rewrite write_start, Eu. etrans; [exact E|]. unfold written, set_field. cbn.
    by rewrite Hw.
  - apply written_seen; [|rewrite I3; cbn -[contents mm_insert]; by rewrite contents_next].
    intros n' u Hin _. rewrite I4; [done | by eapply older].
Qed.

(** ** Removing *)

Section remove.
Context (r : range_spec (K:=K)) (P : V -> bool) (a b c : list (K * versioned_value V)).
Context (Hr : range_ok r = true) (Hparts : range_parts r (sg_data g) = (a, b, c)).

(** What the writer sees afterwards. *)
Definition kept (l : list (K * V)) : list (K * V) := filter (fun kv => ~ hit r P kv) l.

Lemma parts_ok : Forall (entry_ok W) b.
Proof.
  destruct (range_parts_spec r _ a b c (gi_sorted _ _ Hi) Hr Hparts) as (E & _). pose proof Hok as Ho.
  rewrite E, !Forall_app in Ho. tauto.
Qed.

(** [b'] is what becomes of the entries [b] of the range. *)
Lemma removed_done b' n1 n2 :
  contents (W + 1) b' = filter (fun kv => negb (P kv.2) = true) (contents W b) ->
  mm_sorted (a ++ b' ++ c) -> Forall (entry_ok (W + 1)) b' ->
  (forall n u, (n, u) ∈ sg_members g -> n ≠ w -> contents u b' = contents u b) ->
  sg_inv (B + 1) (written (a ++ b' ++ c) n1 n2) /\
  forall n, seen n (written (a ++ b' ++ c) n1 n2) = if Nat.eqb n w then kept <$> seen w g else seen n g.
Proof.
  intros Hnew Hs Hb' Hold. destruct W_bound as (B1 & B2 & _).
  destruct (range_parts_spec r _ a b c (gi_sorted _ _ Hi) Hr Hparts) as (E & Pa & Pb & Pc).
  assert (Forall (entry_ok (W + 1)) (a ++ b' ++ c)) as Hok'.
  { pose proof data_ok_next as Hd. rewrite E, !Forall_app in Hd. rewrite !Forall_app. tauto. }
  split; [by apply written_inv|]. apply written_seen.
  - intros n u Hin Hne. rewrite E, !contents_app. by rewrite (Hold n u).
  - unfold kept. rewrite E. apply contents_remove; try done. by rewrite <- E.
Qed.

Lemma marked_done n1 n2 :
  let b' := (mark W (W + 1) P false b).1 in
  sg_inv (B + 1) (written (a ++ b' ++ c) n1 n2) /\
  forall n, seen n (written (a ++ b' ++ c) n1 n2) = if Nat.eqb n w then kept <$> seen w g else seen n g.
Proof.
  intros b'. destruct W_bound as (B1 & B2 & _). pose proof parts_ok as Hpb.
  destruct (range_parts_spec r _ a b c (gi_sorted _ _ Hi) Hr Hparts) as (E & _).
  apply removed_done.
  - by apply contents_mark_new.
  - apply (mm_sorted_keys (sg_data g)); [|apply Hi]. rewrite E, !fmap_app. unfold b'. by rewrite mark_keys.
  - by apply mark_ok.
  - intros n u Hin _. apply contents_mark_old; [done | by eapply older | done].
Qed.

Lemma alone_done b' n1 n2 :
  has_readonly_snapshot w g = false -> b' `sublist_of` b ->
  contents (W + 1) b' = filter (fun kv => negb (P kv.2) = true) (contents W b) ->
  sg_inv (B + 1) (written (a ++ b' ++ c) n1 n2) /\
  forall n, seen n (written (a ++ b' ++ c) n1 n2) = if Nat.eqb n w then kept <$> seen w g else seen n g.
Proof.
  intros Hro Hsub Hnew. destruct (range_parts_spec r _ a b c (gi_sorted _ _ Hi) Hr Hparts) as (E & _).
  apply removed_done; [done | | |].
  - apply (mm_sorted_sublist (sg_data g)); [|apply Hi]. rewrite E. by repeat apply sublist_app.
  - eapply Forall_sublist; [exact Hsub|]. eapply Forall_impl; [exact parts_ok|]. intros e He. eapply entry_ok_mono; [exact He | lia].
  - intros n u Hin Hne. destruct (has_readonly_false w g) as [u' Em]; [apply Hi | | done |].
    + apply (list_elem_of_fmap_2 fst _ (w, W)). by apply ring_ver_Some.
    + rewrite Em in Hin. apply list_elem_of_singleton in Hin. congruence.
Qed.
End remove.

(** One of the erasing operations: the writer's version moves on, and the range is marked
    or erased. *)
Definition erases (m : M snapshot_group ()) (r : range_spec (K:=K)) (P : V -> bool) : Prop :=
  exists n1 n2 D, m g = Done (tt, written D n1 n2) /\ sg_inv (B + 1) (written D n1 n2) /\
    forall n, seen n (written D n1 n2) = if Nat.eqb n w then kept r P <$> seen w g else seen n g.

Lemma mark_key_eq k P f g1 :
  mark_key w k P f W g1 = Done (tt, mk_sgroup
    (below_key k (sg_data g1) ++ (mark W (W + 1) P f (equal_range k (sg_data g1))).1 ++ above_key k (sg_data g1))
    (sg_members g1) (sg_writer g1) (sg_gc_insert g1)
    (u64 (sg_gc_erase g1 + (mark W (W + 1) P f (equal_range k (sg_data g1))).2))).
Proof.
  destruct W_bound as (_ & _ & Eu). unfold mark_key, modify, set_field. rewrite Eu.
  by destruct (mark W (W + 1) P f (equal_range k (sg_data g1))).
Qed.

Lemma filter_none {A} (l : list A) : filter (fun _ => negb true = true) l = [].
Proof. induction l as [|x l IH]; [done|]. by rewrite filter_cons_False. Qed.

Lemma erase_key_done k : erases (erase_key w k false) (REq k) (fun _ => true).
Proof.
  unfold erases, erase_key. destruct W_bound as (B1 & B2 & Eu). destruct (has_readonly_snapshot w g) eqn:Hro.
  - eexists _, _, _. split; [|by apply marked_done].
    rewrite write_start, Hro, mark_key_eq. unfold written, set_field. cbn -[wrap_u mark].
    by rewrite Hw.
  - eexists _, _, (below_key k (sg_data g) ++ [] ++ above_key k (sg_data g)). split.
    + rewrite write_start, Hro. unfold modify, written, set_field. cbn.
      by rewrite Hw.
    + eapply alone_done; [done | reflexivity | done | apply sublist_nil_l|]. cbn -[contents]. by rewrite filter_none.
Qed.

Lemma erase_key_value_done k v : erases (erase_key_value w k v false) (REq k) (fun x => bool_decide (v = x)).
Proof.
  unfold erases, erase_key_value. destruct W_bound as (B1 & B2 & Eu). destruct (has_readonly_snapshot w g) eqn:Hro.
  - eexists _, _, _. split; [|by apply marked_done].
    rewrite write_start, Hro, mark_key_eq. unfold written, set_field. cbn -[wrap_u mark].
    by rewrite Hw.
  - eexists _, _, _. split.
    + rewrite write_start, Hro. unfold modify, set_field. cbn -[erase_vals].
      by rewrite Hw.
    + eapply alone_done; [done | reflexivity | done | apply erase_vals_sublist|]. apply contents_erase_vals; [|done].
      eapply (parts_ok (REq k)); reflexivity.
Qed.

Lemma erase_range_done r : range_ok r = true -> erases (erase_range w r) r (fun _ => true).
Proof.
  intros Hr. unfold erases, erase_range. destruct W_bound as (B1 & B2 & Eu).
  destruct (range_parts r (sg_data g)) as [[a b] c] eqn:Ep. destruct (has_readonly_snapshot w g) eqn:Hro.
  - eexists _, _, _. split; [|by eapply marked_done].
    rewrite write_start, Ep, Hro, Eu. unfold modify, set_field. cbn -[mark].
    by rewrite Hw.
  - eexists _, _, (a ++ [] ++ c). split.
    + rewrite write_start, Ep, Hro. unfold modify, set_field. cbn.
      by rewrite Hw.
    + eapply alone_done; [done | exact Ep | done | apply sublist_nil_l|]. cbn -[contents]. by rewrite filter_none.
Qed.
End write.

(** ** Snapshots *)

Lemma sg_inv_members B B' g l :
  sg_inv B g -> NoDup l.*1 -> Forall (fun m => 0 <= m.2 <= B') l ->
  (forall w W, sg_writer g = Some w -> (w, W) ∈ sg_members g -> Forall (fun m => m.2 <= W) (sg_members g) ->
     (w, W) ∈ l /\ Forall (fun m => m.2 <= W) l) ->
  forall n1 n2, sg_inv B' (mk_sgroup (sg_data g) l (sg_writer g) n1 n2).
Proof.
  intros [N S Hv Hwr] Hnd Hb Hmem n1 n2. split; try done. intros w Ew. destruct (Hwr w Ew) as (W & H1 & H2 & H3).
  destruct (Hmem w W Ew H1 H2) as [M1 M2]. by exists W.
Qed.

Lemma snapshot_done B g me src l :
  sg_inv B g -> seen src g = Some l -> seen me g = None ->
  exists g', make_me_snapshot_of me src g = Done (tt, g') /\ sg_inv B g' /\ sg_writer g' = sg_writer g /\
    forall n, seen n g' = if Nat.eqb n me then Some l else seen n g.
Proof.
  intros Hi Hsrc Hme. unfold seen in Hsrc, Hme. destruct (ring_ver src (sg_members g)) as [v|] eqn:Es; [|done].
  destruct (ring_ver me (sg_members g)) as [?|] eqn:Em; [done|]. injection Hsrc as <-. apply ring_ver_None in Em.
  set (l' := ring_insert_left src (me, v) (sg_members g)). pose proof (ring_ver_Some _ _ _ Es) as Hin.
  assert (l' ≡ₚ (me, v) :: sg_members g) as Hp by (apply ring_insert_perm; by apply (list_elem_of_fmap_2 fst _ (src, v))).
  assert (NoDup ((me, v) :: sg_members g).*1) as Hnd by (rewrite fmap_cons; apply NoDup_cons; split; [done | apply Hi]).
  assert (forall n1 n2, sg_inv B (mk_sgroup (sg_data g) l' (sg_writer g) n1 n2)) as Hinv.
  { apply sg_inv_members with (B := B); [done | by rewrite Hp | |].
    - rewrite Hp. constructor; [|apply Hi]. pose proof (gi_vers _ _ Hi) as Hv. rewrite Forall_forall in Hv. by apply (Hv _ Hin).
    - intros w W Ew H1 H2. rewrite Hp. split; [by right|]. constructor; [|done]. rewrite Forall_forall in H2. by apply (H2 _ Hin). }
  assert (forall n1 n2 n, seen n (mk_sgroup (sg_data g) l' (sg_writer g) n1 n2) =
    if Nat.eqb n me then Some (contents v (sg_data g)) else seen n g) as Hseen.
  { intros n1 n2 n. unfold seen. cbn -[contents]. rewrite (ring_ver_perm n _ _ Hnd (symmetry Hp)). cbn -[contents].
    destruct (Nat.eqb_spec me n) as [->|]; [by rewrite Nat.eqb_refl|]. by destruct (Nat.eqb_spec n me). }
  unfold make_me_snapshot_of, version. erewrite bind_eq; [|erewrite bind_eq by reflexivity; by rewrite Es].
  erewrite bind_eq by reflexivity. erewrite bind_eq by reflexivity. destruct (writable src _); cbn [when];
    (eexists; split; [reflexivity|]; split_and!; [apply Hinv | done | apply Hseen]).
Qed.

(** ** Garbage *)

Lemma gc_bounds_spec z l low high :
  Forall (fun m => m.2 < no_version) l -> gc_bounds z l = (low, high) ->
  high = no_version /\ Forall (fun m => low <= m.2) l.
Proof.
  unfold gc_bounds. intros Hl. cut (forall lo, foldl (fun '(low, high) (m : nat * Z) =>
    (if m.2 <? low then m.2 else low, if m.2 >? high then m.2 else high)) (lo, no_version) l = (low, high) ->
    low <= lo /\ high = no_version /\ Forall (fun m => low <= m.2) l); [intros Hc E; by apply Hc in E as (_ & ? & ?)|].
  induction Hl as [|m l Hm Hl IH]; intros lo E; cbn [foldl] in E.
  - injection E as <- <-. split_and!; [lia | done | constructor].
  - destruct (Z.gtb_spec m.2 no_version); [lia|]. apply IH in E as (E1 & E2 & E3).
    destruct (Z.ltb_spec m.2 lo); (split_and!; [lia | done | constructor; [lia | done]]).
Qed.

Lemma list_filter_sublist {A} (f : A -> bool) l : List.filter f l `sublist_of` l.
Proof. induction l as [|x l IH]; cbn; [constructor|]. destruct (f x); [by apply sublist_skip | by apply sublist_cons]. Qed.

(** No member sees garbage. *)
Lemma contents_gc low u (l : list (K * versioned_value V)) :
  low <= u -> u < no_version -> contents u (List.filter (fun e => negb (garbage low no_version e.2)) l) = contents u l.
Proof.
  intros Hlow Hu. induction l as [|e l IH]; [done|]. cbn [List.filter]. rewrite (contents_cons u e l), <- IH.
  destruct (garbage low no_version e.2) eqn:Eg; cbn [negb]; [|by rewrite contents_cons].
  assert (valid_at u e.2 = false) as ->; [|done]. unfold garbage in Eg. unfold valid_at.
  destruct (Z.leb_spec (created_at e.2) u); [|done]. destruct (Z.gtb_spec (created_at e.2) no_version); [lia|].
  cbn [orb] in Eg. apply andb_true_iff in Eg as [E1 E2]. destruct (Z.eqb_spec (removed_at e.2) no_version); [done|].
  apply Z.ltb_lt in E2. cbn. lia.
Qed.

Lemma gc_done B g me l :
  sg_inv B g -> B < no_version -> seen me g = Some l ->
  exists g', gc_run me g = Done (tt, g') /\ sg_inv B g' /\ sg_writer g' = sg_writer g /\ forall n, seen n g' = seen n g.
Proof.
  intros Hi HB Hme. unfold seen in Hme. destruct (ring_ver me (sg_members g)) as [v|] eqn:Em; [|done].
  unfold gc_run, version. erewrite bind_eq; [|erewrite bind_eq by reflexivity; by rewrite Em]. erewrite bind_eq by reflexivity.
  destruct (gc_bounds v (sg_members g)) as [low high] eqn:Eb. pose proof Hi as [N S Hv Hwr].
  destruct (gc_bounds_spec v (sg_members g) low high) as [-> Hlow]; [|done|].
  { eapply Forall_impl; [exact Hv|]. cbn. intros m Hm. lia. }
  eexists. split; [reflexivity|]. split_and!; [|done|].
  - unfold set_field. split; cbn.
    + done.
    + eapply mm_sorted_sublist; [apply list_filter_sublist | done].
    + done.
    + intros w Ew. destruct (Hwr w Ew) as (W & H1 & H2 & H3). exists W. split_and!; try done.
      eapply Forall_sublist; [apply list_filter_sublist | done].
  - intros n. unfold seen, set_field. cbn -[contents garbage]. destruct (ring_ver n (sg_members g)) as [u|] eqn:En; [|done].
    cbn -[contents garbage]. f_equal. apply ring_ver_Some in En. rewrite Forall_forall in Hv, Hlow.
    specialize (Hv _ En). specialize (Hlow _ En). cbn in Hv, Hlow. apply contents_gc; lia.
Qed.

Lemma destroy_done B g me l :
  sg_inv B g -> B < no_version -> seen me g = Some l ->
  exists g', destroy_me me g = Done (tt, g') /\ sg_inv B g' /\
    sg_writer g' = (if writable me g then None else sg_writer g) /\
    forall n, seen n g' = if Nat.eqb n me then None else seen n g.
Proof.
  intros Hi HB Hme. unfold seen in Hme. destruct (ring_ver me (sg_members g)) as [v|] eqn:Em; [|done].
  pose proof (ring_remove_perm _ _ _ Em) as Hp. pose proof Hi as [N S Hv Hwr].
  assert (me ∈ (sg_members g).*1) as Hin by (apply (list_elem_of_fmap_2 fst _ (me, v)); by apply ring_ver_Some).
  destruct (ring_prev_total me _ Hin) as (p & Ep & Hpin). destruct (ring_next_total me _ Hin) as (q & Eq & Hqin & Hqne).
  set (l' := ring_remove me (sg_members g)). fold l' in Hp.
  assert (NoDup ((me, v) :: l').*1) as Hnd by (by rewrite <- Hp). pose proof Hnd as [Hnin Hnd']%NoDup_cons.
  set (wr := if writable me g then None else sg_writer g).
  set (g1 := mk_sgroup (sg_data g) l' wr (sg_gc_insert g) (sg_gc_erase g)).
  assert (sg_inv B g1) as Hi1.
  { split; cbn; try done.
    - rewrite Hp in Hv. by apply Forall_cons in Hv as [_ Hv].
    - intros w Ew. unfold wr, writable in Ew. case_bool_decide as Hd; [done|]. destruct (Hwr w Ew) as (W & H1 & H2 & H3).
      exists W. rewrite Hp in H1, H2. apply elem_of_cons in H1 as [[= -> ->]|H1]; [by rewrite Ew in Hd|].
      apply Forall_cons in H2 as [_ H2]. done. }
  assert (forall n, seen n g1 = if Nat.eqb n me then None else seen n g) as Hseen.
  { intros n. unfold seen. cbn -[contents]. rewrite (ring_ver_perm n _ _ Hnd (symmetry Hp)). cbn.
    destruct (Nat.eqb_spec n me) as [->|Hne]; [|by destruct (Nat.eqb_spec me n)].
    rewrite (proj2 (ring_ver_None me l')) by done. done. }
  unfold destroy_me. erewrite bind_eq by reflexivity. set (auto_gc := writable me g && _ && _).
  rewrite (bind_eq _ _ g tt (mk_sgroup (sg_data g) (sg_members g) wr (sg_gc_insert g) (sg_gc_erase g))).
  2: { unfold wr. destruct (writable me g); cbn [when]; [done | by destruct g]. }
  rewrite Ep, Eq. erewrite bind_eq by reflexivity. erewrite bind_eq by reflexivity.
  rewrite (bind_eq _ _ _ tt g1) by reflexivity.
  destruct (Nat.eqb_spec p me) as [->|Hpne]; cbn [negb andb]; [by exists g1|].
  destruct auto_gc; cbn [when]; [|by exists g1].
  assert (q ≠ me) as Hq by (apply Hqne; [done | congruence]).
  destruct (seen q g1) as [lq|] eqn:Esq.
  - destruct (gc_done B g1 q lq Hi1 HB Esq) as (g' & E & Hi' & Ew & Hs'). exists g'. split_and!; try done.
    intros n. by rewrite Hs', Hseen.
  - exfalso. rewrite Hseen in Esq. destruct (Nat.eqb_spec q me); [done|]. unfold seen in Esq.
    apply fmap_None, ring_ver_None in Esq. done.
Qed.

(** ** The abstract map *)

Record amap := mk_amap { am_maps : gmap nat (list (K * V)); am_writer : option nat }.

Inductive sm_event :=
  | SInsert k v
  | SInsertAll (kvs : list (K * V))
  | SErase k
  | SEraseVal k v
  | SEraseRange (r : range_spec (K:=K))
  | SSnapshot (src me : nat)
  | SDestroy (me : nat)
  | SGc (me : nat).

Definition a_write (f : list (K * V) -> list (K * V)) (a : amap) : option amap :=
  w ← am_writer a;
  l ← am_maps a !! w;
  Some (mk_amap (<[w := f l]> (am_maps a)) (am_writer a)).

(** What a step does, [None] when there is no writer or no such member, or when the name
    of a new snapshot is taken. *)
Definition a_step (e : sm_event) (a : amap) : option amap :=
  match e with
  | SInsert k v => a_write (mm_insert k v) a
  | SInsertAll kvs => a_write (fun l => foldl (fun l kv => mm_insert kv.1 kv.2 l) l kvs) a
  | SErase k => a_write (filter (fun kv => kv.1 ≠ k)) a
  | SEraseVal k v => a_write (filter (fun kv => kv ≠ (k, v))) a
  | SEraseRange r => if range_ok r then a_write (filter (fun kv => in_range r kv.1 ≠ true)) a else None
  | SSnapshot src me =>
    match am_maps a !! src, am_maps a !! me with
    | Some l, None => Some (mk_amap (<[me := l]> (am_maps a)) (am_writer a))
    | _, _ => None
    end
  | SDestroy me =>
    _ ← am_maps a !! me;
    Some (mk_amap (delete me (am_maps a)) (if bool_decide (am_writer a = Some me) then None else am_writer a))
  | SGc me => _ ← am_maps a !! me; Some a
  end.

Definition as_writer (f : nat -> M (snapshot_group (K:=K) (V:=V)) ()) : M snapshot_group () :=
  g ← get;
  w ← from_option (sg_writer g);
  f w.

Definition sm_step (e : sm_event) : M snapshot_group () :=
  match e with
  | SInsert k v => as_writer (fun w => sm_insert w k v)
  | SInsertAll kvs => as_writer (fun w => sm_insert_range w kvs)
  | SErase k => as_writer (fun w => erase_key w k false)
  | SEraseVal k v => as_writer (fun w => erase_key_value w k v false)
  | SEraseRange r => as_writer (fun w => erase_range w r)
  | SSnapshot src me => make_me_snapshot_of me src
  | SDestroy me => destroy_me me
  | SGc me => gc_run me
  end.

Fixpoint a_run (es : list sm_event) (a : amap) : option amap :=
  match es with
  | [] => Some a
  | e :: es => a ← a_step e a; a_run es a
  end.

(** Every member sees what the abstract map has for it. *)
Record matches g (a : amap) : Prop := {
  ma_seen : forall n, seen n g = am_maps a !! n;
  ma_writer : sg_writer g = am_writer a;
}.

Lemma in_range_eq k j : in_range (REq k) j = true <-> j = k.
Proof.
  cbn. rewrite andb_true_iff, !negb_true_iff. split; [intros [H1 H2]|intros ->; by rewrite key_irrefl].
  destruct (decide (j = k)) as [|Hne]; [done|]. by rewrite (key_total j k Hne H1) in H2.
Qed.

Lemma kept_ext (f : list (K * V) -> list (K * V)) r P :
  (forall l, kept r P l = f l) -> forall o : option (list (K * V)), kept r P <$> o = f <$> o.
Proof. intros Hf [l|]; [|done]. cbn. by rewrite Hf. Qed.

(** A write by the writer, in both. *)
Lemma write_step B g a a' f m :
  sg_inv B g -> B + 1 < no_version -> matches g a -> a_write f a = Some a' ->
  (forall w W, sg_writer g = Some w -> ring_ver w (sg_members g) = Some W -> Forall (entry_ok W) (sg_data g) ->
     Forall (fun m => m.2 <= W) (sg_members g) ->
     exists n1 n2 D, m w g = Done (tt, written g w W D n1 n2) /\ sg_inv (B + 1) (written g w W D n1 n2) /\
       forall n, seen n (written g w W D n1 n2) = if Nat.eqb n w then f <$> seen w g else seen n g) ->
  exists g', as_writer m g = Done (tt, g') /\ sg_inv (B + 1) g' /\ matches g' a'.
Proof.
  intros Hi HB [Hs Hw] Ha Hm. unfold a_write in Ha. destruct (am_writer a) as [w|] eqn:Ew; [|done]. cbn in Ha.
  destruct (am_maps a !! w) as [l|] eqn:El; [|done]. injection Ha as <-.
  destruct (gi_writer _ _ Hi w Hw) as (W & H1 & H2 & H3).
  assert (ring_ver w (sg_members g) = Some W) as HW by (by apply ring_ver_elem; [apply Hi|]).
  destruct (Hm w W Hw HW H3 H2) as (n1 & n2 & D & E & Hi' & Hseen). eexists. split; [|split; [exact Hi'|]].
  - unfold as_writer. erewrite bind_eq by reflexivity. rewrite Hw. erewrite bind_eq by reflexivity. exact E.
  - split; [|done]. intros n. rewrite Hseen. cbn. destruct (Nat.eqb_spec n w) as [->|Hne].
    + by rewrite Hs, El, lookup_insert_eq.
    + by rewrite Hs, lookup_insert_ne by done.
Qed.

Lemma erase_step B g a a' f m r P :
  sg_inv B g -> B + 1 < no_version -> matches g a -> a_write f a = Some a' -> (forall l, kept r P l = f l) ->
  (forall w W, sg_writer g = Some w -> ring_ver w (sg_members g) = Some W -> Forall (entry_ok W) (sg_data g) ->
     Forall (fun m => m.2 <= W) (sg_members g) -> erases B g w W (m w) r P) ->
  exists g', as_writer m g = Done (tt, g') /\ sg_inv (B + 1) g' /\ matches g' a'.
Proof.
  intros Hi HB Hma Ha Hk Hm. eapply write_step; try done. intros w W H1 H2 H3 H4.
  destruct (Hm w W H1 H2 H3 H4) as (n1 & n2 & D & E & Hi' & Hseen). exists n1, n2, D. split_and!; try done.
  intros n. rewrite Hseen. destruct (Nat.eqb n w); [|done]. by apply kept_ext.
Qed.

Lemma sg_inv_mono B B' g : sg_inv B g -> B <= B' -> sg_inv B' g.
Proof. intros [N S Hv Hw] HB. split; try done. eapply Forall_impl; [exact Hv|]. cbn. intros m Hm. lia. Qed.

Lemma sm_step_refines B e g a a' :
  sg_inv B g -> B + 1 < no_version -> matches g a -> a_step e a = Some a' ->
  exists g', sm_step e g = Done (tt, g') /\ sg_inv (B + 1) g' /\ matches g' a'.
Proof.
  intros Hi HB Hma Ha. destruct e as [k v|kvs|k|k v|r|src me|me|me]; cbn [a_step sm_step] in *.
  - eapply write_step; try done. intros w W ? ? ? ?. by apply sm_insert_done.
  - eapply write_step; try done. intros w W ? ? ? ?. by apply sm_insert_range_done.
  - eapply erase_step; try done; [|intros w W ? ? ? ?; by apply erase_key_done]. intros l. unfold kept. apply list_filter_iff.
    intros kv. unfold hit. rewrite andb_true_r. by rewrite in_range_eq.
  - eapply erase_step; try done; [|intros w W ? ? ? ?; by apply erase_key_value_done]. intros l. unfold kept. apply list_filter_iff.
    intros [k' v']. unfold hit. cbn [fst snd]. rewrite andb_true_iff, in_range_eq, bool_decide_eq_true. naive_solver.
  - destruct (range_ok r) eqn:Hr; [|done]. eapply erase_step; try done; [|intros w W ? ? ? ?; by apply erase_range_done].
    intros l. unfold kept. apply list_filter_iff. intros kv. unfold hit. by rewrite andb_true_r.
  - destruct Hma as [Hs Hw]. destruct (am_maps a !! src) as [l|] eqn:El; [|done]. destruct (am_maps a !! me) eqn:Em; [done|].
    injection Ha as <-. rewrite <- Hs in El, Em. destruct (snapshot_done B g me src l Hi El Em) as (g' & E & Hi' & Ew & Hs').
    exists g'. split_and!; [done | apply (sg_inv_mono B); [done | lia]|]. split; [|cbn; congruence]. intros n. rewrite Hs'. cbn.
    destruct (Nat.eqb_spec n me) as [->|]; [by rewrite lookup_insert_eq | by rewrite lookup_insert_ne, Hs].
  - destruct Hma as [Hs Hw]. destruct (am_maps a !! me) as [l|] eqn:Em; [|done]. injection Ha as <-. rewrite <- Hs in Em.
    destruct (destroy_done B g me l Hi ltac:(lia) Em) as (g' & E & Hi' & Ew & Hs').
    exists g'. split_and!; [done | apply (sg_inv_mono B); [done | lia]|]. split; [|cbn; unfold writable in Ew; by rewrite <- Hw].
    intros n. rewrite Hs'. cbn. destruct (Nat.eqb_spec n me) as [->|]; [by rewrite lookup_delete_eq | by rewrite lookup_delete_ne, Hs].
  - destruct Hma as [Hs Hw]. destruct (am_maps a !! me) as [l|] eqn:Em; [|done]. injection Ha as <-. rewrite <- Hs in Em.
    destruct (gc_done B g me l Hi ltac:(lia) Em) as (g' & E & Hi' & Ew & Hs').
    exists g'. split_and!; [done | apply (sg_inv_mono B); [done | lia]|]. split; [|congruence]. intros n. by rewrite Hs'.
Qed.

Lemma new_sortedmap_inv me : sg_inv 0 (new_sortedmap me) /\ matches (new_sortedmap me) (mk_amap {[me := []]} (Some me)).
Proof.
  split; split; cbn; try done.
  - apply NoDup_singleton.
  - constructor.
  - repeat constructor; cbn; lia.
  - intros w [= <-]. exists 0. split_and!; [by left | by repeat constructor | constructor].
  - intros n. unfold seen. cbn. destruct (Nat.eqb_spec me n) as [->|]; [by rewrite lookup_singleton_eq | by rewrite lookup_singleton_ne].
Qed.

Lemma sm_run_refines B es g a a' :
  sg_inv B g -> 0 <= B -> B + Z.of_nat (length es) < no_version -> matches g a -> a_run es a = Some a' ->
  exists g' B', for_each es sm_step g = Done (tt, g') /\ sg_inv B' g' /\ matches g' a'.
Proof.
  revert B g a. induction es as [|e es IH]; intros B g a Hi H0 HB Hma Ha; cbn [for_each a_run length] in *.
  { injection Ha as <-. by exists g, B. }
  destruct (a_step e a) as [a1|] eqn:E1; [|done]. destruct (sm_step_refines B e g a a1 Hi ltac:(lia) Hma E1) as (g1 & E & Hi1 & Hma1).
  rewrite (bind_eq _ _ _ _ _ E). apply (IH (B + 1) g1 a1); try done; lia.
Qed.

(** ** What is refused *)

(** A write by a member that is not the writer, which [verify(writable())] stops. *)
Lemma write_refused n g k v kvs r :
  sg_writer g ≠ Some n ->
  sm_insert n k v g = Aborted /\ sm_insert_range n kvs g = Aborted /\ erase_key n k false g = Aborted /\
  erase_key_value n k v false g = Aborted /\ erase_range n r g = Aborted.
Proof.
  intros Hw. assert (writable n g = false) as E by (by apply bool_decide_eq_false).
  unfold sm_insert, sm_insert_range, erase_key, erase_key_value, erase_range, mbind, M_bind. cbn [get]. by rewrite E.
Qed.

Lemma ring_prev_missing n l : ring_ver n l = None -> ring_prev n l = None.
Proof.
  unfold ring_prev. generalize (List.last (fst <$> l) O). induction l as [|[m ver] l IH]; intros last; cbn; [done|].
  destruct (Nat.eqb m n); [done|]. intros Hl. by apply IH.
Qed.

(** A call on what is not a member. *)
Lemma member_refused n g me :
  seen n g = None -> make_me_snapshot_of me n g = Aborted /\ destroy_me n g = Aborted /\ gc_run n g = Aborted.
Proof.
  intros Hs. apply fmap_None in Hs.
  unfold make_me_snapshot_of, destroy_me, gc_run, version, mbind, M_bind. cbn [get]. rewrite Hs. split_and!; [done| |done].
  rewrite (ring_prev_missing n _ Hs). unfold when. by destruct (writable n g).
Qed.
End refinement.

(** C9: a map with snapshots behaves as one map per member: whatever is
    inserted, erased, snapshotted, destroyed and collected, in any order, every member
    sees exactly what the abstract map has for it.  So a write is seen by the writer
    only, a snapshot keeps what it saw when it was taken, and garbage collection, also
    the automatic one, is seen by nobody.  Erasing a key, or a key with a value, erases
    all that match; the variants that erase the first match only are not covered.  At
    the end every write by a member that the abstract map does not let write, and every
    snapshot, destruction or collection of what is no member, fails. *)
Theorem snapshot_refines `{OrdKey K} {V} `{!EqDecision V} (me : nat) (es : list (sm_event (K:=K) (V:=V))) a :
  Z.of_nat (length es) < no_version -> a_run es (mk_amap {[me := []]} (Some me)) = Some a ->
  exists g, for_each es sm_step (new_sortedmap me) = Done (tt, g) /\ sg_writer g = am_writer a /\
    (forall n, seen n g = am_maps a !! n) /\
    (forall n k v kvs r, am_writer a ≠ Some n ->
       sm_insert n k v g = Aborted /\ sm_insert_range n kvs g = Aborted /\ erase_key n k false g = Aborted /\
       erase_key_value n k v false g = Aborted /\ erase_range n r g = Aborted) /\
    (forall n new, am_maps a !! n = None ->
       make_me_snapshot_of new n g = Aborted /\ destroy_me n g = Aborted /\ gc_run n g = Aborted).
Proof.
  intros Hlen Ha. destruct (new_sortedmap_inv (V:=V) me) as [Hi Hma].
  destruct (sm_run_refines 0 es _ _ a Hi ltac:(lia) ltac:(lia) Hma Ha) as (g & B & E & _ & [Hs Hw]).
  exists g. split_and!; try done.
  - intros n k v kvs r Hn. apply write_refused. congruence.
  - intros n new Hn. apply member_refused. congruence.
Qed.
