(* ===== verification/SnapshotRange.v ===== *)
(** * Reading the multi-version map: ranges, cursors and copies
    (src/memdb/snapshot.h)

    A query takes a snapshot and enumerates the values it sees.  The copy of a map that may
    be written is a map of its own with the same values.  And three operations that do not
    do what they say. *)
From stdpp Require Import base tactics numbers list gmap sorting.
From S2P Require Import Prelude OMap Snapshot SnapshotRef.

(** A list, or the list backwards. *)
Definition directed {A} (rv : bool) (l : list A) : list A := if rv then rev l else l.

Section ranges.
Context {K : Type} `{OrdKey K} {V : Type} `{!EqDecision V}.
Implicit Types (k : K) (v : V) (g : snapshot_group (K:=K) (V:=V)) (l : list (K * versioned_value V)).

(** ** Enumeration *)

Lemma prefetch_spec ver l :
  match prefetch ver l with
  | (Some kv, l') => contents ver l = kv :: contents ver l' /\ (length l' < length l)%nat
  | (None, _) => contents ver l = []
  end.
Proof.
  induction l as [|e l IH]; cbn [prefetch]; [done|]. rewrite contents_cons.
  destruct (valid_at ver e.2); [by cbn; split; [|lia]|]. destruct (prefetch ver l) as [[kv|] l']; [|done].
  destruct IH. cbn. split; [done | lia].
Qed.

Definition fresh_range (ver : Z) (all l : list (K * versioned_value V)) (n : Z) : snapshot_range := mk_range ver all l None n.

Lemma has_next_eq ver all l n :
  has_next (fresh_range ver all l n) =
    let '(c, l') := prefetch ver l in Done (bool_decide (is_Some c), mk_range ver all l' c n).
Proof. unfold has_next. erewrite bind_eq by reflexivity. cbn. unfold prefetch_next. erewrite bind_eq by reflexivity. cbn. by destruct (prefetch ver l). Qed.

(** The loop over a range visits what the snapshot sees, and ends. *)
Lemma drain_done ver all n fuel l :
  (length l < fuel)%nat -> exists l', drain fuel (fresh_range ver all l n) = Done (contents ver l, fresh_range ver all l' n).
Proof.
  revert l. induction fuel as [|fuel IH]; intros l Hlen; [lia|]. cbn [drain].
  pose proof (prefetch_spec ver l) as Hp. pose proof (has_next_eq ver all l n) as Hn.
  destruct (prefetch ver l) as [[kv|] l1].
  - rewrite (bind_eq _ _ _ _ _ Hn). rewrite bool_decide_true by done. destruct Hp as [-> Hl].
    rewrite (bind_eq _ _ _ kv (fresh_range ver all l1 n)) by reflexivity.
    destruct (IH l1) as [l' E]; [lia|]. rewrite (bind_eq _ _ _ _ _ E). by exists l'.
  - rewrite (bind_eq _ _ _ _ _ Hn). rewrite bool_decide_false by (by intros [? ?]). rewrite Hp. by exists l1.
Qed.

Lemma length_visible ver l : length (List.filter (fun e => valid_at ver e.2) l) = length (contents ver l).
Proof.
  unfold contents. rewrite length_fmap. induction l as [|e l IH]; [done|]. cbn [List.filter]. rewrite filter_cons.
  destruct (valid_at ver e.2); [|exact IH]. rewrite decide_True by done. cbn [length]. by rewrite IH.
Qed.

Lemma count_eq ver all l :
  exists r, range_count (fresh_range ver all l (-1)) = Done (Z.of_nat (length (contents ver all)), r).
Proof.
  unfold range_count. erewrite bind_eq by reflexivity. cbn [fresh_range sr_count sr_version sr_all Z.geb Z.compare].
  erewrite bind_eq by reflexivity. rewrite length_visible. by eexists.
Qed.

Lemma contents_rev ver l : contents ver (rev l) = rev (contents ver l).
Proof.
  induction l as [|e l IH]; [done|]. cbn [rev]. rewrite contents_app, IH, (contents_cons ver e l), rev_app_distr. f_equal.
  rewrite contents_cons. by destruct (valid_at ver e.2).
Qed.

(** The values of a range that a member sees. *)
Lemma contents_range ver r l a b c :
  mm_sorted l -> range_ok r = true -> range_parts r l = (a, b, c) ->
  contents ver b = filter (fun kv => in_range r kv.1 = true) (contents ver l).
Proof.
  intros Hs Hr Hp. destruct (range_parts_spec r l a b c Hs Hr Hp) as (-> & Ha & Hb & Hc).
  assert (forall l, Forall (fun e => in_range r e.1 = false) l ->
    filter (fun kv : K * V => in_range r kv.1 = true) (contents ver l) = []) as Hout.
  { induction 1 as [|e l' He Hl' IH]; [done|]. rewrite contents_cons, filter_app, IH.
    destruct (valid_at ver e.2); [|done]. rewrite filter_cons_False; [done|]. cbn. congruence. }
  rewrite !contents_app, !filter_app, (Hout a Ha), (Hout c Hc), app_nil_r, app_nil_l.
  clear Hp Hs. induction Hb as [|e b He Hb IH]; [done|]. rewrite contents_cons, filter_app, <- IH. f_equal.
  destruct (valid_at ver e.2); [|done]. rewrite filter_cons_True; [done|]. exact He.
Qed.

(** ** Queries *)

Lemma query_done B g src me (l : list (K * V)) r rv :
  sg_inv B g -> seen src g = Some l -> seen me g = None -> range_ok r = true ->
  exists g' ver es, sm_query src me r rv g = Done (fresh_range ver es es (-1), g') /\ sg_inv B g' /\
    sg_writer g' = sg_writer g /\ (forall n, seen n g' = if Nat.eqb n me then Some l else seen n g) /\
    contents ver es = directed rv (filter (fun kv => in_range r kv.1 = true) l).
Proof.
  intros Hi Hsrc Hme Hr. destruct (snapshot_done B g me src l Hi Hsrc Hme) as (g' & E & Hi' & Ew & Hseen).
  unfold sm_query. rewrite (bind_eq _ _ _ _ _ E). pose proof (Hseen me) as Hs. rewrite Nat.eqb_refl in Hs. unfold seen in Hs.
  destruct (ring_ver me (sg_members g')) as [ver|] eqn:Ev; [|done]. injection Hs as Hl.
  unfold version. erewrite bind_eq; [|erewrite bind_eq by reflexivity; by rewrite Ev]. erewrite bind_eq by reflexivity.
  destruct (range_parts r (sg_data g')) as [[a b] c] eqn:Ep. exists g', ver, (if rv then rev b else b).
  split_and!; try done. rewrite <- Hl, <- (contents_range ver r _ a b c (gi_sorted _ _ Hi') Hr Ep).
  destruct rv; [apply contents_rev | done].
Qed.
(** ** Copies *)

Lemma insert_last (kv : K * V) (l : list (K * V)) :
  Forall (fun e => key_ltb kv.1 e.1 = false) l -> mm_insert kv.1 kv.2 l = l ++ [kv].
Proof.
  intros Hl. unfold mm_insert. destruct (upto_unique kv.1 l l []) as [-> ->]; [by rewrite app_nil_r | done | constructor|].
  by destruct kv.
Qed.

Lemma insert_all_sorted (kvs : list (K * V)) : mm_sorted kvs -> foldl (fun m kv => mm_insert kv.1 kv.2 m) [] kvs = kvs.
Proof.
  induction kvs as [|kv kvs IH] using rev_ind; [done|]. intros Hs. rewrite foldl_app. cbn.
  apply sorted_app in Hs as (H1 & _ & H2). rewrite IH by done. apply insert_last. apply Forall_forall. intros e He.
  apply (H2 e kv He). by left.
Qed.

Lemma contents_sorted ver l : mm_sorted l -> mm_sorted (contents ver l).
Proof.
  intros Hs. assert (mm_sorted (filter (fun e => valid_at ver e.2 = true) l)) as Hf.
  { eapply mm_sorted_sublist; [|exact Hs]. clear. induction l as [|e l IH]; [constructor|]. rewrite filter_cons.
    destruct (decide _); [by apply sublist_skip | by apply sublist_cons]. }
  eapply mm_sorted_keys; [|exact Hf]. unfold contents. rewrite <- list_fmap_compose. by apply list_fmap_ext.
Qed.

(** The copy of a map that may be written: a new map with the same values, and nothing
    changes for anybody else. *)
Lemma copy_all_done B g src tmp me (l : list (K * V)) :
  sg_inv B g -> B + 1 < no_version -> seen src g = Some l -> seen tmp g = None ->
  exists g2 g', copy_all src tmp me g = Done (g2, g') /\ seen me g2 = Some l /\ sg_writer g2 = Some me /\
    forall n, seen n g' = seen n g.
Proof.
  intros Hi HB Hsrc Htmp. destruct (query_done B g src tmp l RAll false Hi Hsrc Htmp eq_refl) as (g1 & ver & es & E & Hi1 & Ew & Hseen & Hc).
  unfold copy_all. rewrite (bind_eq _ _ _ _ _ E). destruct (drain_done ver es (-1) (S (length es)) es) as [l' Ed]; [lia|].
  assert (filter (fun kv : K * V => in_range RAll kv.1 = true) l = l) as Hl.
  { clear. induction l as [|kv l IH]; [done|]. rewrite filter_cons_True by done. by rewrite IH. }
  rewrite Hl in Hc. cbn [directed] in Hc. cbn [fresh_range sr_all]. fold (fresh_range ver es es (-1)). rewrite Ed, Hc. erewrite bind_eq by reflexivity.
  destruct (new_sortedmap_inv (V:=V) me) as [Hi0 [Hs0 _]].
  destruct (sm_insert_range_done 0 (new_sortedmap me) me 0 Hi0 ltac:(unfold no_version; lia) eq_refl) with (kvs := l)
    as (n1 & n2 & D & E2 & Hi2 & Hs2); [cbn; by rewrite Nat.eqb_refl | constructor | by repeat constructor|].
  rewrite E2. erewrite bind_eq by reflexivity.
  assert (seen tmp g1 = Some l) as Ht by (rewrite Hseen; by rewrite Nat.eqb_refl).
  destruct (destroy_done B g1 tmp l Hi1 ltac:(lia) Ht) as (g' & E3 & _ & _ & Hs3). rewrite (bind_eq _ _ _ _ _ E3).
  eexists _, g'. split; [reflexivity|]. split_and!; [|done|].
  - rewrite Hs2, Nat.eqb_refl, Hs0. cbn [am_maps]. rewrite lookup_singleton_eq. cbn. f_equal. apply insert_all_sorted.
    unfold seen in Hsrc. destruct (ring_ver src (sg_members g)); [|done]. injection Hsrc as <-. apply contents_sorted, Hi.
  - intros n. rewrite Hs3, Hseen. destruct (Nat.eqb_spec n tmp) as [->|]; [by rewrite Htmp | done].
Qed.
End ranges.

(** A query of a map or of a snapshot, by key, below or above a key,
    between two keys or of everything, in either direction, enumerates exactly the
    values of that range which the member sees, in the order of the keys or backwards;
    [count] is their number, and taking the query changes what nobody else sees. *)
Theorem query_enumerates `{OrdKey K} {V} `{!EqDecision V} (me : nat) (es : list (sm_event (K:=K) (V:=V))) g src q l r rv :
  Z.of_nat (length es) < no_version -> is_Some (a_run es (mk_amap {[me := []]} (Some me))) ->
  for_each es sm_step (new_sortedmap me) = Done (tt, g) ->
  seen src g = Some l -> seen q g = None -> range_ok r = true ->
  exists rng g', sm_query src q r rv g = Done (rng, g') /\
    (exists rng', drain (S (length (sr_all rng))) rng =
       Done (directed rv (filter (fun kv => in_range r kv.1 = true) l), rng')) /\
    (exists rng', range_count rng = Done (Z.of_nat (length (filter (fun kv => in_range r kv.1 = true) l)), rng')) /\
    forall n, n ≠ q -> seen n g' = seen n g.
Proof.
  intros Hlen [a Ha] Hrun Hsrc Hq Hr. destruct (new_sortedmap_inv (V:=V) me) as [Hi Hma].
  destruct (sm_run_refines 0 es _ _ a Hi ltac:(lia) ltac:(lia) Hma Ha) as (g0 & B & E & Hi0 & _).
  assert (g0 = g) as -> by congruence.
  destruct (query_done B g src q l r rv Hi0 Hsrc Hq Hr) as (g' & ver & en & Eq & _ & _ & Hseen & Hc).
  exists (fresh_range ver en en (-1)), g'. split_and!; [done | | |].
  - destruct (drain_done ver en (-1) (S (length en)) en) as [l' Ed]; [lia|]. eexists. etrans; [exact Ed|]. by rewrite Hc.
  - destruct (count_eq ver en en) as [rr Ec]. exists rr. etrans; [exact Ec|]. rewrite Hc. do 3 f_equal. destruct rv; [apply length_rev | done].
  - intros n Hn. rewrite Hseen. by destruct (Nat.eqb_spec n q).
Qed.

(** ** Where the map does not do what it says *)

Section flaws.
Context {K : Type} `{OrdKey K} {V : Type} `{!EqDecision V}.
Implicit Types (k : K) (v : V).

Lemma mm_insert_nil {A} k (x : A) : mm_insert k x [] = [(k, x)].
Proof. done. Qed.
Lemma mm_insert_same {A} k (x y : A) : mm_insert k y [(k, x)] = [(k, x); (k, y)].
Proof. unfold mm_insert. cbn. by rewrite key_irrefl. Qed.

(** A value is inserted, a snapshot is taken, the value is erased, the snapshot goes away
    and another value is inserted under the same key. *)
Definition stale_history k v1 v2 : list (sm_event (K:=K) (V:=V)) :=
  [SInsert k v1; SSnapshot 0 1; SErase k; SDestroy 1; SInsert k v2].

Definition stale_group k v1 v2 : snapshot_group :=
  mk_sgroup [(k, mk_vv 1 2 v1); (k, mk_vv 3 no_version v2)] [(0%nat, 3)] (Some 0%nat) 1 1.

Lemma stale_history_eq k v1 v2 : for_each (stale_history k v1 v2) sm_step (new_sortedmap 0) = Done (tt, stale_group k v1 v2).
Proof.
  unfold stale_history. cbn [for_each].
  rewrite (bind_eq _ _ _ tt (mk_sgroup [(k, mk_vv 1 no_version v1)] [(0%nat, 1)] (Some 0%nat) 1 0)) by reflexivity.
  rewrite (bind_eq _ _ _ tt (mk_sgroup [(k, mk_vv 1 no_version v1)] [(1%nat, 1); (0%nat, 1)] (Some 0%nat) 0 0)) by reflexivity.
  rewrite (bind_eq _ _ _ tt (mk_sgroup [(k, mk_vv 1 2 v1)] [(1%nat, 1); (0%nat, 2)] (Some 0%nat) 0 1)).
  2: { unfold sm_step, as_writer. do 2 (erewrite bind_eq by reflexivity). unfold erase_key.
    erewrite bind_eq by reflexivity. erewrite bind_eq by reflexivity. erewrite bind_eq by reflexivity.
    replace (has_readonly_snapshot 0 _) with true by reflexivity.
    unfold mark_key, modify, set_field, equal_range. cbn. rewrite !key_irrefl. cbn. by rewrite !key_irrefl. }
  rewrite (bind_eq _ _ _ tt (mk_sgroup [(k, mk_vv 1 2 v1)] [(0%nat, 2)] (Some 0%nat) 0 1)) by reflexivity.
  rewrite (bind_eq _ _ _ tt (stale_group k v1 v2)); [done|]. unfold sm_step, as_writer. do 2 (erewrite bind_eq by reflexivity).
  unfold sm_insert. do 3 (erewrite bind_eq by reflexivity). unfold insert_one, modify, set_field, stale_group.
  cbn -[mm_insert]. by rewrite mm_insert_same.
Qed.
End flaws.

(** [erase(key, true)] is to erase the first visible value of the key.
    After a value was erased while a snapshot existed, and the snapshot went away, it
    erases the old version of that value instead: the writer still sees the value. *)
Theorem erase_first_misses `{OrdKey K} {V} `{!EqDecision V} (k : K) (v1 v2 : V) :
  exists g g', for_each (stale_history k v1 v2) sm_step (new_sortedmap 0) = Done (tt, g) /\
    erase_key 0 k true g = Done (tt, g') /\ seen 0 g = Some [(k, v2)] /\ seen 0 g' = Some [(k, v2)].
Proof.
  exists (stale_group k v1 v2), (mk_sgroup [(k, mk_vv 3 no_version v2)] [(0%nat, 4)] (Some 0%nat) 1 1).
  split_and!; [apply stale_history_eq | | done | done].
  unfold erase_key. do 3 (erewrite bind_eq by reflexivity). replace (has_readonly_snapshot 0 _) with false by reflexivity.
  unfold erase_lower_bound, stale_group. cbn. rewrite key_irrefl. reflexivity.
Qed.

(** in a map without snapshots, [erase(key, true)] of a key that
    is not there erases the first value of the next key. *)
Theorem erase_first_other_key `{OrdKey K} {V} `{!EqDecision V} (k j : K) (v : V) :
  key_ltb k j = true ->
  exists g g', sm_insert 0 j v (new_sortedmap 0) = Done (tt, g) /\ seen 0 g = Some [(j, v)] /\
    erase_key 0 k true g = Done (tt, g') /\ seen 0 g' = Some [].
Proof.
  intros Hk. exists (mk_sgroup [(j, mk_vv 1 no_version v)] [(0%nat, 1)] (Some 0%nat) 1 0), (mk_sgroup [] [(0%nat, 2)] (Some 0%nat) 1 0).
  split_and!; try done. unfold erase_key. do 3 (erewrite bind_eq by reflexivity).
  replace (has_readonly_snapshot 0 _) with false by reflexivity.
  unfold erase_lower_bound. cbn. rewrite (key_lt_asym _ _ Hk). reflexivity.
Qed.

(** garbage collection is to drop the values that were created after
    the newest snapshot, too.  It does not: a value the writer inserted and nobody can
    see any more, the writer being gone, stays in the map. *)
Theorem gc_keeps_unseen `{OrdKey K} {V} `{!EqDecision V} (k : K) (v : V) :
  exists g, for_each [SSnapshot 0 1; SInsert k v; SDestroy 0; SGc 1] sm_step (new_sortedmap 0) = Done (tt, g) /\
    gc_size g = 1 /\ seen 1 g = Some [] /\ forall n, n ≠ 1%nat -> seen n g = None.
Proof.
  eexists. split; [reflexivity|]. split_and!; try done. intros n Hn. by destruct n as [|[|n]].
Qed.

(** ** Instances *)

Definition demo_sm_events : list (sm_event (K:=Z) (V:=Z)) :=
  [SInsert 5 50; SInsert 3 30; SSnapshot 0 1; SInsert 3 31; SErase 5; SSnapshot 0 2; SEraseVal 3 30; SGc 0;
   SDestroy 1; SInsertAll [(9, 90); (1, 10)]; SEraseRange (RGt 8)].

(** What the writer and the snapshot see in the end. *)
Definition demo_amap : amap (K:=Z) (V:=Z) := mk_amap {[0%nat := [(1, 10); (3, 31)]; 2%nat := [(3, 30); (3, 31)]]} (Some 0%nat).

Lemma snapshot_refines_witness :
  exists g, for_each demo_sm_events sm_step (new_sortedmap 0) = Done (tt, g) /\
    seen 0 g = Some [(1, 10); (3, 31)] /\ seen 2 g = Some [(3, 30); (3, 31)] /\ seen 1 g = None.
Proof.
  destruct (snapshot_refines 0 demo_sm_events demo_amap) as (g & E & _ & Hs & _); [vm_compute; reflexivity | vm_compute; reflexivity|].
  exists g. rewrite !Hs. split_and!; [exact E | vm_compute; reflexivity..].
Defined.

Definition demo_sm : snapshot_group (K:=Z) (V:=Z) :=
  match for_each demo_sm_events sm_step (new_sortedmap 0) with Done (_, g) => g | _ => new_sortedmap 0 end.

Lemma query_enumerates_witness :
  exists rng g', sm_query 2 7 (RIn 2 4) true demo_sm = Done (rng, g') /\
    exists rng', drain (S (length (sr_all rng))) rng = Done ([(3, 31); (3, 30)], rng').
Proof.
  destruct (query_enumerates 0 demo_sm_events demo_sm 2 7 [(3, 30); (3, 31)] (RIn 2 4) true) as (rng & g' & E & [rng' D] & _).
  - vm_compute. reflexivity.
  - exists demo_amap. vm_compute. reflexivity.
  - vm_compute. reflexivity.
  - vm_compute. reflexivity.
  - vm_compute. reflexivity.
  - reflexivity.
  - exists rng, g'. split; [exact E|]. exists rng'. exact D.
Defined.

Lemma erase_first_other_key_witness :
  exists g g', sm_insert 0 5 50 (new_sortedmap 0) = Done (tt, g) /\ seen 0 g = Some [(5, 50)] /\
    erase_key 0 3 true g = Done (tt, g') /\ seen 0 g' = Some [].
Proof. apply (erase_first_other_key 3 5 50). reflexivity. Defined.
