(* ===== verification/SccGraph.v ===== *)
(** * The dependency graph: [Vertex] and [Graph] (src/deptran/rcc/graph.h)

    A vertex knows its parents by their identifiers; some of them may not be in the graph.
    [FindSccPred] finds the strongly connected component of a vertex, by a depth-first
    search over the parents, and keeps it in the vertices of the component, so that later
    searches skip them. *)
From stdpp Require Import base tactics numbers list relations gmap sets fin_sets sorting.
From S2P Require Import Prelude OMap.

Record Vertex := mk_vertex {
  parents_ : oset Z;
  walked_ : bool;
  scc_ : option (list Z);
}.
#[export] Instance Eta_vertex : Eta Vertex := fun r => mk_vertex (parents_ r) (walked_ r) (scc_ r).

(** [vertex_index_] *)
Abbreviation Graph := (gmap Z Vertex).

Definition new_vertex : Vertex := mk_vertex [] false None.

(** ** The graph *)

Definition FindV (id : Z) (g : Graph) : option Vertex := g !! id.

Definition AddV (id : Z) (v : Vertex) : M Graph () := modify (fun g => <[id := v]> g).

(** A new vertex; the copy of another one has its parents only. *)
Definition CreateV (id : Z) : M Graph () := AddV id new_vertex.
Definition CreateV_from (id : Z) (av : Vertex) : M Graph () := AddV id (mk_vertex (parents_ av) false None).

Definition Remove (id : Z) : M Graph () :=
  g ← get;
  _ ← from_option (FindV id g);
  modify (fun g => delete id g).

Definition FindOrCreateV (id : Z) : M Graph () :=
  g ← get;
  match FindV id g with Some _ => mret () | None => CreateV id end.

Definition FindOrCreateV_from (id : Z) (av : Vertex) : M Graph () :=
  g ← get;
  match FindV id g with Some _ => mret () | None => CreateV_from id av end.

Definition AddParentEdge (id rhs : Z) : M Graph () :=
  g ← get;
  v ← from_option (FindV id g);
  modify (fun g => <[id := v <| parents_ ::= sinsert rhs |>]> g).

(** ** [StrongConnectPred] *)

(** The variables that the search shares; [sc_stack] has the back of [S] first. *)
Record sc_state := mk_sc {
  sc_indexes : gmap Z Z;
  sc_lowlinks : gmap Z Z;
  sc_index : Z;
  sc_stack : list Z;
}.
#[export] Instance Eta_sc : Eta sc_state := fun r => mk_sc (sc_indexes r) (sc_lowlinks r) (sc_index r) (sc_stack r).

(** [m[v]], on a map that has [v] in the code. *)
Definition at_ (m : gmap Z Z) (v : Z) : Z := default 0 (m !! v).

(** The [do ... while] loop that empties the stack down to [v]. *)
Fixpoint pop_until (v : Z) (s : list Z) : option (list Z * list Z) :=
  match s with
  | [] => None
  | w :: s => if w =? v then Some ([w], s) else '(ret, s') ← pop_until v s; Some (w :: ret, s')
  end.

Definition enter (v : Z) : M sc_state () :=
  modify (fun s => mk_sc (<[v := sc_index s]> (sc_indexes s)) (<[v := sc_index s]> (sc_lowlinks s)) (sc_index s + 1) (v :: sc_stack s)).

(** [lowlinks[v] = lowlinks[v] < x ? lowlinks[v] : x] *)
Definition lower (v x : Z) : M sc_state () :=
  modify (fun s => s <| sc_lowlinks := <[v := if at_ (sc_lowlinks s) v <? x then at_ (sc_lowlinks s) v else x]> (sc_lowlinks s) |>).

Definition leave (v : Z) : M sc_state (list Z) :=
  s ← get;
  if at_ (sc_lowlinks s) v =? at_ (sc_indexes s) v then
    '(ret, rest) ← from_option (pop_until v (sc_stack s));
    modify (fun s => s <| sc_stack := rest |>);;
    mret ret
  else mret [].

Section connect.
Context (g : Graph).

(** The body of the loop over the parents: [rec] is the recursive call. *)
Definition visit_parent (rec : Z -> M sc_state (list Z)) (v p : Z) : M sc_state () :=
  match FindV p g with
  | None => mret ()
  | Some w =>
    match scc_ w with
    | Some _ => mret ()
    | None =>
      s ← get;
      match sc_indexes s !! p with
      | None =>
        _ ← rec p;
        s ← get;
        lower v (at_ (sc_lowlinks s) p)
      | Some i => for_each (rev (sc_stack s)) (fun t => when (t =? p) (lower v i))
      end
    end
  end.

Fixpoint StrongConnectPred (fuel : nat) (v : Z) : M sc_state (list Z) :=
  match fuel with
  | O => out_of_fuel
  | S fuel =>
    enter v;;
    vv ← from_option (FindV v g);
    for_each (parents_ vv) (visit_parent (StrongConnectPred fuel) v);;
    leave v
  end.
End connect.

Definition set_scc (scc : list Z) (v : Z) : M Graph () :=
  g ← get;
  vv ← from_option (FindV v g);
  verify (bool_decide (scc_ vv = None));;
  modify (fun g => <[v := vv <| scc_ := Some scc |>]> g).

Definition FindSccPred (v : Z) : M Graph (list Z) :=
  g ← get;
  vv ← from_option (FindV v g);
  match scc_ vv with
  | Some scc => mret scc
  | None =>
    scc ← (match StrongConnectPred g (size g) v (mk_sc ∅ ∅ 0 []) with
           | Done (ret, _) => mret ret
           | Aborted => abort
           | OutOfFuel => out_of_fuel
           end);
    for_each scc (set_scc scc);;
    mret scc
  end.

(** ** [TraversePred] *)

Inductive SearchHint := Exit | Ok | Skip.
#[export] Instance SearchHint_dec : EqDecision SearchHint.
Proof. solve_decision. Defined.

(** The graph, whose vertices are flagged, the vector [walked], and the vertices on which
    the callback was called. *)
Record tr_state := mk_tr {
  tr_graph : Graph;
  tr_walked : list Z;
  tr_calls : list Z;
}.
#[export] Instance Eta_tr : Eta tr_state := fun r => mk_tr (tr_graph r) (tr_walked r) (tr_calls r).

Definition set_walked (b : bool) (v : Z) : M tr_state () :=
  modify (fun s => s <| tr_graph ::= alter (fun vv => vv <| walked_ := b |>) v |>).

Section traverse.
Context (func : Z -> SearchHint).

(** The loop over the parents: [rec] is the recursive call, [ret] the value so far. *)
Fixpoint traverse_parents (rec : Z -> Z -> M tr_state SearchHint) (depth : Z) (ret : SearchHint) (ps : list Z) :
    M tr_state SearchHint :=
  match ps with
  | [] => mret ret
  | p :: ps =>
    s ← get;
    match FindV p (tr_graph s) with
    | None => traverse_parents rec depth ret ps
    | Some _ =>
      modify (fun s => s <| tr_calls ::= fun l => l ++ [p] |>);;
      match func p with
      | Exit => mret Exit
      | Skip => traverse_parents rec depth Skip ps
      | Ok =>
        if (depth <? 0) || (depth >? 0) then
          ret ← rec p (depth - 1);
          if bool_decide (ret = Exit) then mret Exit else traverse_parents rec depth ret ps
        else traverse_parents rec depth Ok ps
      end
    end
  end.

Fixpoint traverse (fuel : nat) (vertex depth : Z) : M tr_state SearchHint :=
  match fuel with
  | O => out_of_fuel
  | S fuel =>
    s ← get;
    vv ← from_option (FindV vertex (tr_graph s));
    if walked_ vv then mret Ok
    else
      set_walked true vertex;;
      modify (fun s => s <| tr_walked ::= fun l => l ++ [vertex] |>);;
      traverse_parents (traverse fuel) depth Ok (parents_ vv)
  end.

(** The call from outside, with [walked == nullptr]: the flags are taken back, unless the
    vertex was flagged, when the function returns at once. *)
Definition TraversePred (vertex depth : Z) : M tr_state SearchHint :=
  s ← get;
  vv ← from_option (FindV vertex (tr_graph s));
  if walked_ vv then mret Ok
  else
    ret ← traverse (S (size (tr_graph s))) vertex depth;
    s ← get;
    for_each (tr_walked s) (set_walked false);;
    mret ret.
End traverse.
