(* ===== verification/SccProof.v ===== *)
(** * [FindSccPred] finds the strongly connected component

    The search keeps a stack of visited vertices.  A vertex is taken off the stack together
    with everything above it, when nothing above it leads below it; what has been taken
    off is closed under edges.  What is left when the search is back at the vertex it
    started from leads back to it. *)
From stdpp Require Import base tactics numbers list relations gmap sets fin_sets sorting.
From S2P Require Import Prelude OMap SccGraph.

Lemma sorted_by_ext {A} (f f' : A -> Z) (l : list A) :
  (forall x, x ∈ l -> f' x = f x) -> StronglySorted (fun a b => f b < f a) l -> StronglySorted (fun a b => f' b < f' a) l.
Proof.
  intros Hf Hl. induction Hl as [|x l Hl IH Hx]; [constructor|]. constructor; [apply IH; intros y Hy; apply Hf; by right|].
  rewrite Forall_forall in *. intros y Hy. rewrite (Hf x), (Hf y) by (by left || by right). auto.
Qed.

Section scc.
Context (g : Graph) (root : Z).

(** The edges of the graph: from a vertex to those of its parents that are there. *)
Definition edge (x y : Z) : Prop := exists vx, g !! x = Some vx /\ y ∈ parents_ vx /\ is_Some (g !! y).
Definition reach : relation Z := rtc edge.

(** The component of [y] is known already. *)
Definition cached (y : Z) : Prop := exists vy l, g !! y = Some vy /\ scc_ vy = Some l.

Lemma cached_dec y : is_Some (g !! y) -> cached y \/ exists vy, g !! y = Some vy /\ scc_ vy = None.
Proof. intros [vy E]. destruct (scc_ vy) as [l|] eqn:El; [left; by exists vy, l | right; by exists vy]. Qed.

(** ** States of the search *)

Definition visited (s : sc_state) (x : Z) : Prop := is_Some (sc_indexes s !! x).
Definition popped (s : sc_state) (x : Z) : Prop := visited s x /\ x ∉ sc_stack s.
Definition idx (s : sc_state) (x : Z) : Z := at_ (sc_indexes s) x.

(** [gray] are the vertices whose visit has not ended. *)
Record sc_inv (gray : list Z) (s : sc_state) : Prop := {
  si_sorted : StronglySorted (fun a b => idx s b < idx s a) (sc_stack s);
  si_stack : forall x, x ∈ sc_stack s -> visited s x;
  si_bound : forall x, visited s x -> idx s x < sc_index s;
  si_known : forall x, visited s x -> (exists vx, g !! x = Some vx /\ scc_ vx = None) /\ reach root x;
  si_popped : forall x y, popped s x -> edge x y -> cached y \/ popped s y;
  si_done : forall x y, visited s x -> x ∉ gray -> edge x y -> cached y \/ visited s y;
  si_low : forall x, x ∈ sc_stack s -> x ∉ gray -> exists y, y ∈ sc_stack s /\ idx s y < idx s x /\ reach x y;
  si_gray : forall x, x ∈ gray -> x ∈ sc_stack s;
}.

(** The search goes on from [s] to [s']: what was visited keeps its numbers, and the
    stack grows by [ex]. *)
Record extends (s s' : sc_state) (ex : list Z) : Prop := {
  ex_stack : sc_stack s' = ex ++ sc_stack s;
  ex_index : sc_index s <= sc_index s';
  ex_visited : forall x, visited s x -> sc_indexes s' !! x = sc_indexes s !! x /\ sc_lowlinks s' !! x = sc_lowlinks s !! x;
  ex_new : forall x, visited s' x -> ~ visited s x -> sc_index s <= idx s' x;
  ex_fresh : forall x, x ∈ ex -> ~ visited s x;
}.

Lemma extends_idx s s' ex x : extends s s' ex -> visited s x -> idx s' x = idx s x.
Proof. intros He Hx. unfold idx, at_. by rewrite (proj1 (ex_visited _ _ _ He x Hx)). Qed.
Lemma extends_visited s s' ex x : extends s s' ex -> visited s x -> visited s' x.
Proof. intros He Hx. unfold visited. by rewrite (proj1 (ex_visited _ _ _ He x Hx)). Qed.

(** The number of vertices not yet visited. *)
Definition todo (s : sc_state) : nat := size ((dom g : gset Z) ∖ dom (sc_indexes s)).

Lemma todo_mono s s' ex : extends s s' ex -> (todo s' <= todo s)%nat.
Proof.
  intros He. unfold todo. apply subseteq_size. intros x. rewrite !elem_of_difference, !elem_of_dom. intros [H1 H2]. split; [done|].
  intros H3. apply H2. by eapply extends_visited.
Qed.

(** ** Entering a vertex *)

Definition entered (v : Z) (s : sc_state) : sc_state :=
  mk_sc (<[v := sc_index s]> (sc_indexes s)) (<[v := sc_index s]> (sc_lowlinks s)) (sc_index s + 1) (v :: sc_stack s).

Lemma entered_visited v s x : visited (entered v s) x <-> x = v \/ visited s x.
Proof.
  unfold visited. cbn. destruct (decide (x = v)) as [->|Hne].
  - rewrite lookup_insert_eq. split; [by left | eauto].
  - rewrite lookup_insert_ne by done. split; [by right|]. intros [?|?]; done.
Qed.

Lemma entered_idx v s x : idx (entered v s) x = if decide (x = v) then sc_index s else idx s x.
Proof.
  unfold idx, at_. cbn. destruct (decide (x = v)) as [->|Hne]; [by rewrite lookup_insert_eq | by rewrite lookup_insert_ne].
Qed.

Lemma entered_todo v s : is_Some (g !! v) -> ~ visited s v -> (todo (entered v s) < todo s)%nat.
Proof.
  intros Hv Hnv. unfold todo. apply subset_size. split.
  - intros x. cbn. rewrite dom_insert. set_solver.
  - intros Hsub. assert (v ∈ (dom g : gset Z) ∖ dom (sc_indexes s)) as Hin.
    { rewrite elem_of_difference, !elem_of_dom. done. }
    apply Hsub in Hin. cbn in Hin. rewrite dom_insert in Hin. set_solver.
Qed.

Section enter.
Context (gray : list Z) (s : sc_state) (v : Z).
Context (Hi : sc_inv gray s) (Hv : exists vv, g !! v = Some vv /\ scc_ vv = None) (Hnv : ~ visited s v) (Hr : reach root v).

Lemma stack_not_v x : x ∈ sc_stack s -> x ≠ v.
Proof. intros Hx ->. by apply Hnv, (si_stack _ _ Hi). Qed.

Lemma entered_popped x : popped (entered v s) x <-> popped s x.
Proof.
  unfold popped. rewrite entered_visited. cbn. rewrite not_elem_of_cons. split.
  - intros [[->|Hx] [Hne Hnin]]; done.
  - intros [Hx Hnin]. split; [by right|]. split; [|done]. by intros ->.
Qed.

Lemma entered_inv : sc_inv (v :: gray) (entered v s).
Proof.
  pose proof Hi as [I1 I2 I3 I4 I5 I6 I7 I8]. split.
  - cbn. constructor.
    + apply (sorted_by_ext (idx s)); [|done]. intros x Hx. rewrite entered_idx, decide_False; [done | by apply stack_not_v].
    + apply Forall_forall. intros x Hx. rewrite (entered_idx v s x), decide_False by (by apply stack_not_v).
      rewrite entered_idx, decide_True by done. by apply I3, I2.
  - intros x [->|Hx]%elem_of_cons; apply entered_visited; [by left | right; auto].
  - intros x Hx. rewrite entered_idx. cbn. destruct (decide (x = v)); [lia|]. apply entered_visited in Hx as [?|Hx]; [done|].
    specialize (I3 x Hx). lia.
  - intros x [->|Hx]%entered_visited; auto.
  - intros x y Hx Hxy. apply entered_popped in Hx. destruct (I5 x y Hx Hxy); [by left|]. right. by apply entered_popped.
  - intros x y [->|Hx]%entered_visited Hg Hxy; [destruct Hg; by left|]. apply not_elem_of_cons in Hg as [_ Hg].
    destruct (I6 x y Hx Hg Hxy); [by left|]. right. apply entered_visited. by right.
  - intros x [->|Hx]%elem_of_cons Hg; [destruct Hg; by left|]. apply not_elem_of_cons in Hg as [_ Hg].
    destruct (I7 x Hx Hg) as (y & Hy & Hlt & Hxy). exists y. split; [by right|]. split; [|done].
    rewrite !entered_idx, !decide_False by (by apply stack_not_v). done.
  - intros x [->|Hx]%elem_of_cons; [by left | right; auto].
Qed.
End enter.

(** ** While the parents of a vertex are visited *)

(** What a finished visit of [v] leaves behind: the stack has grown by [ex]; [lv] is the
    number of a vertex on the stack that [v] leads to, unless it is not below those of
    this visit; and no vertex of [ex] has an edge to one below [lv]. *)
Record returned (gray : list Z) (v : Z) (s s' : sc_state) (ex : list Z) (lv : Z) : Prop := {
  rt_extends : extends s s' ex;
  rt_inv : sc_inv gray s';
  rt_visited : visited s' v;
  rt_low : sc_lowlinks s' !! v = Some lv;
  rt_real : (exists y, y ∈ sc_stack s' /\ idx s' y = lv /\ reach v y) \/ sc_index s <= lv;
  rt_min : forall x y, x ∈ ex -> edge x y -> y ∈ sc_stack s' -> lv <= idx s' y;
}.

(** In the middle of the visit of [v], which began in [s], with [ps] of its parents done. *)
Record visiting (gray : list Z) (v : Z) (s : sc_state) (ps : list Z) (s1 : sc_state) (ex : list Z) (lv : Z) : Prop := {
  vi_extends : extends s s1 (ex ++ [v]);
  vi_inv : sc_inv (v :: gray) s1;
  vi_visited : sc_indexes s1 !! v = Some (sc_index s);
  vi_low : sc_lowlinks s1 !! v = Some lv;
  vi_le : lv <= sc_index s;
  vi_real : exists y, y ∈ sc_stack s1 /\ idx s1 y = lv /\ reach v y;
  vi_min : forall x y, x ∈ ex -> edge x y -> y ∈ sc_stack s1 -> lv <= idx s1 y;
  vi_done : forall p, p ∈ ps -> edge v p -> (cached p \/ visited s1 p) /\ (p ∈ sc_stack s1 -> lv <= idx s1 p);
}.

Lemma entered_visiting gray v s :
  sc_inv gray s -> (exists vv, g !! v = Some vv /\ scc_ vv = None) -> ~ visited s v -> reach root v ->
  visiting gray v s [] (entered v s) [] (sc_index s).
Proof.
  intros Hi Hv Hnv Hr. split; cbn.
  - split; cbn.
    + done.
    + lia.
    + intros x Hx. rewrite !lookup_insert_ne; [done | |]; by intros ->.
    + intros x [->|Hx]%entered_visited Hn; [|done]. rewrite entered_idx, decide_True by done. lia.
    + intros x ->%list_elem_of_singleton. done.
  - by apply entered_inv.
  - by rewrite lookup_insert_eq.
  - by rewrite lookup_insert_eq.
  - lia.
  - exists v. split; [by left|]. split; [by rewrite entered_idx, decide_True | done].
  - intros x y Hx. by apply not_elem_of_nil in Hx.
  - intros p Hp. by apply not_elem_of_nil in Hp.
Qed.

(** A smaller low link, of a vertex on the stack. *)
Definition lowered (v x : Z) (s : sc_state) : sc_state := s <| sc_lowlinks := <[v := x]> (sc_lowlinks s) |>.

Lemma sc_inv_lowered gray v x s : sc_inv gray s -> sc_inv gray (lowered v x s).
Proof. intros [? ? ? ? ? ? ? ?]. by split. Qed.

Lemma lower_eq v x s lv :
  sc_lowlinks s !! v = Some lv -> lower v x s = Done (tt, lowered v (if lv <? x then lv else x) s).
Proof. intros E. unfold lower, modify, lowered, at_. by rewrite E. Qed.

Section parent.
Context (gray : list Z) (v : Z) (s : sc_state) (ps : list Z) (s1 : sc_state) (ex : list Z) (lv : Z).
Context (Hvi : visiting gray v s ps s1 ex lv) (Hnv : ~ visited s v).

Lemma v_visited : visited s1 v.
Proof. exists (sc_index s). apply Hvi. Qed.
Lemma v_idx : idx s1 v = sc_index s.
Proof. unfold idx, at_. by rewrite (vi_visited _ _ _ _ _ _ _ Hvi). Qed.
Lemma lv_bound : lv < sc_index s1.
Proof. pose proof (si_bound _ _ (vi_inv _ _ _ _ _ _ _ Hvi) v v_visited) as Hb. rewrite v_idx in Hb. pose proof (vi_le _ _ _ _ _ _ _ Hvi). lia. Qed.

(** A parent that needs no visit. *)
Lemma skip_parent p : (edge v p -> cached p) -> visiting gray v s (p :: ps) s1 ex lv.
Proof.
  intros Hp. destruct Hvi as [V1 V2 V3 V4 V5 V6 V7 V8]. split; try done.
  intros q [->|Hq]%elem_of_cons Hvq; [|by apply V8]. specialize (Hp Hvq). split; [by left|].
  intros Hin. destruct (si_known _ _ V2 p (si_stack _ _ V2 p Hin)) as [(vp & E & En) _].
  destruct Hp as (vp' & l & E' & El). congruence.
Qed.

(** The low link moves to [lv'], the number of [y] on the stack. *)
Lemma lowered_visiting p lv' y :
  (edge v p -> visited s1 p /\ (p ∈ sc_stack s1 -> lv' <= idx s1 p)) -> lv' <= lv ->
  (lv' = lv \/ y ∈ sc_stack s1 /\ idx s1 y = lv' /\ reach v y) ->
  visiting gray v s (p :: ps) (lowered v lv' s1) ex lv'.
Proof.
  intros Hp Hle Hreal. destruct Hvi as [V1 V2 V3 V4 V5 V6 V7 V8]. split; try done.
  - destruct V1 as [E1 E2 E3 E4 E5]. split; try done. intros x Hx. cbn. rewrite lookup_insert_ne by (by intros ->). by apply E3.
  - by apply sc_inv_lowered.
  - cbn. by rewrite lookup_insert_eq.
  - lia.
  - destruct Hreal as [->|?]; [done | by exists y].
  - intros x z Hx Hxz Hz. specialize (V7 x z Hx Hxz Hz). change (lv' <= idx s1 z). lia.
  - intros q [->|Hq]%elem_of_cons Hvq.
    + destruct (Hp Hvq) as [Hp1 Hp2]. split; [by right | done].
    + destruct (V8 q Hq Hvq) as [H1 H2]. split; [done|]. intros Hin. specialize (H2 Hin). change (lv' <= idx s1 q). lia.
Qed.

(** A parent that has been visited: it counts if it is on the stack. *)
Lemma scan_stack p i l st lw :
  sc_lowlinks st !! v = Some lw ->
  for_each l (fun t => when (t =? p) (lower v i)) st =
    Done (tt, lowered v (if bool_decide (p ∈ l) then Z.min lw i else lw) st).
Proof.
  revert st lw. induction l as [|t l IH]; intros st lw E; cbn [for_each].
  - rewrite bool_decide_false by apply not_elem_of_nil. unfold lowered, set_field. cbn. rewrite insert_id by done. by destruct st.
  - destruct (Z.eqb_spec t p) as [->|Hne]; cbn [when].
    + rewrite (bind_eq _ _ _ _ _ (lower_eq _ _ _ _ E)).
      rewrite (IH _ (if lw <? i then lw else i)) by (cbn; by rewrite lookup_insert_eq).
      rewrite (bool_decide_true (p ∈ p :: l)) by (by left). f_equal. f_equal. unfold lowered, set_field. cbn. rewrite insert_insert_eq.
      f_equal. destruct (Z.ltb_spec lw i); case_bool_decide; f_equal; lia.
    + erewrite bind_eq by reflexivity. rewrite (IH st lw E). do 3 f_equal.
      assert (p ∈ t :: l <-> p ∈ l) as Hiff by (rewrite elem_of_cons; naive_solver).
      by rewrite (bool_decide_ext _ _ Hiff).
Qed.
End parent.

Lemma extends_trans s s1 s2 ex1 ex2 : extends s s1 ex1 -> extends s1 s2 ex2 -> extends s s2 (ex2 ++ ex1).
Proof.
  intros A B. split.
  - by rewrite (ex_stack _ _ _ B), (ex_stack _ _ _ A), app_assoc.
  - pose proof (ex_index _ _ _ A). pose proof (ex_index _ _ _ B). lia.
  - intros x Hx. destruct (ex_visited _ _ _ A x Hx) as [A1 A2].
    destruct (ex_visited _ _ _ B x (extends_visited _ _ _ x A Hx)) as [B1 B2]. split; congruence.
  - intros x Hx Hn. destruct (decide (visited s1 x)) as [Hx1|Hx1].
    + rewrite (extends_idx _ _ _ x B Hx1). by apply (ex_new _ _ _ A).
    + pose proof (ex_new _ _ _ B x Hx Hx1). pose proof (ex_index _ _ _ A). lia.
  - intros x [Hx|Hx]%elem_of_app Hv; [|by eapply (ex_fresh _ _ _ A)].
    by apply (ex_fresh _ _ _ B x Hx), (extends_visited _ _ _ x A).
Qed.

Section child.
Context (gray : list Z) (v : Z) (s : sc_state) (ps : list Z) (s1 : sc_state) (ex : list Z) (lv : Z).
Context (Hvi : visiting gray v s ps s1 ex lv) (Hnv : ~ visited s v).
Context (p : Z) (s2 : sc_state) (exp : list Z) (lp : Z).
Context (Hnp : ~ visited s1 p) (Hret : returned (v :: gray) p s1 s2 exp lp).

(** What is new on the stack has a larger number than everything before. *)
Lemma new_above y : y ∈ exp -> sc_index s1 <= idx s2 y.
Proof.
  intros Hy. pose proof (rt_extends _ _ _ _ _ _ Hret) as He. apply (ex_new _ _ _ He); [|by apply (ex_fresh _ _ _ He)].
  apply (si_stack _ _ (rt_inv _ _ _ _ _ _ Hret)). rewrite (ex_stack _ _ _ He). apply elem_of_app. by left.
Qed.

Lemma stack_split y : y ∈ sc_stack s2 -> y ∈ exp \/ y ∈ sc_stack s1 /\ idx s2 y = idx s1 y.
Proof.
  pose proof (rt_extends _ _ _ _ _ _ Hret) as He. rewrite (ex_stack _ _ _ He). intros [Hy|Hy]%elem_of_app; [by left|].
  right. split; [done|]. apply (extends_idx _ _ _ y He), (si_stack _ _ (vi_inv _ _ _ _ _ _ _ Hvi) y Hy).
Qed.

Lemma stack_kept y : y ∈ sc_stack s1 -> y ∈ sc_stack s2 /\ idx s2 y = idx s1 y.
Proof.
  intros Hy. pose proof (rt_extends _ _ _ _ _ _ Hret) as He. split; [rewrite (ex_stack _ _ _ He); apply elem_of_app; by right|].
  apply (extends_idx _ _ _ y He), (si_stack _ _ (vi_inv _ _ _ _ _ _ _ Hvi) y Hy).
Qed.

Lemma child_low : sc_lowlinks s2 !! v = Some lv.
Proof.
  pose proof (rt_extends _ _ _ _ _ _ Hret) as He. destruct (ex_visited _ _ _ He v (v_visited _ _ _ _ _ _ _ Hvi)) as [_ ->]. apply Hvi.
Qed.

(** The visit of [p] is over, and [v] takes its low link if that is smaller. *)
Lemma child_visiting : edge v p -> visiting gray v s (p :: ps) (lowered v (if lv <? lp then lv else lp) s2) (exp ++ ex) (if lv <? lp then lv else lp).
Proof.
  intros Hvp. pose proof (lv_bound _ _ _ _ _ _ _ Hvi) as Hlv. pose proof Hvi as [V1 V2 V3 V4 V5 V6 V7 V8].
  pose proof Hret as [R1 R2 R3 R4 R5 R6]. set (m := if lv <? lp then lv else lp).
  assert (m <= lv /\ m <= lp) as [Hm1 Hm2] by (unfold m; destruct (Z.ltb_spec lv lp); lia).
  assert (extends s s2 ((exp ++ ex) ++ [v])) as Hext by (rewrite <- app_assoc; by eapply extends_trans).
  split.
  - destruct Hext as [E1 E2 E3 E4 E5]. split; try done. intros x Hx. cbn. rewrite lookup_insert_ne by (by intros ->). by apply E3.
  - by apply sc_inv_lowered.
  - cbn. destruct (ex_visited _ _ _ R1 v (v_visited _ _ _ _ _ _ _ Hvi)) as [-> _]. done.
  - cbn. by rewrite lookup_insert_eq.
  - lia.
  - change (exists y, y ∈ sc_stack s2 /\ idx s2 y = m /\ reach v y). unfold m. destruct (Z.ltb_spec lv lp) as [Hlt|Hge].
    + destruct V6 as (y & Hy & Hi & Hr). destruct (stack_kept y Hy) as [Hy' Hi']. exists y. split_and!; [done | lia | done].
    + destruct R5 as [(y & Hy & Hi & Hr)|Hbig]; [|lia]. exists y. split_and!; try done. by eapply rtc_l.
  - intros x y Hx Hxy Hy. change (m <= idx s2 y). change (y ∈ sc_stack s2) in Hy. apply elem_of_app in Hx as [Hx|Hx].
    + specialize (R6 x y Hx Hxy Hy). lia.
    + destruct (stack_split y Hy) as [Hye|[Hy1 Ei]]; [pose proof (new_above y Hye); lia|]. specialize (V7 x y Hx Hxy Hy1). lia.
  - intros q Hq Hvq. change ((cached q \/ visited s2 q) /\ (q ∈ sc_stack s2 -> m <= idx s2 q)).
    assert (q ∈ sc_stack s2 -> q ∈ exp \/ q ∈ sc_stack s1 /\ idx s2 q = idx s1 q) as Hsp by apply stack_split.
    apply elem_of_cons in Hq as [->|Hq].
    + split; [by right|]. intros Hin. destruct (Hsp Hin) as [He|[Hin1 _]]; [pose proof (new_above p He); lia|].
      destruct Hnp. by apply (si_stack _ _ V2).
    + destruct (V8 q Hq Hvq) as [H1 H2]. split.
      * destruct H1 as [?|H1]; [by left|]. right. by apply (extends_visited _ _ _ q R1).
      * intros Hin. destruct (Hsp Hin) as [He|[Hin1 Ei]]; [pose proof (new_above q He); lia|]. specialize (H2 Hin1). lia.
Qed.
End child.

(** ** Leaving a vertex *)

Lemma pop_until_eq v ex l : v ∉ ex -> pop_until v (ex ++ v :: l) = Some (ex ++ [v], l).
Proof.
  induction ex as [|x ex IH]; cbn; [by rewrite Z.eqb_refl|]. rewrite not_elem_of_cons. intros [Hx Hex].
  destruct (Z.eqb_spec x v); [congruence|]. by rewrite IH.
Qed.

Section leave.
Context (gray : list Z) (v : Z) (s : sc_state) (ps : list Z) (s1 : sc_state) (ex : list Z) (lv : Z).
Context (Hvi : visiting gray v s ps s1 ex lv) (Hnv : ~ visited s v) (Hi : sc_inv gray s).
Context (Hall : forall y, edge v y -> y ∈ ps).

Lemma stack_is : sc_stack s1 = (ex ++ [v]) ++ sc_stack s.
Proof. apply (ex_stack _ _ _ (vi_extends _ _ _ _ _ _ _ Hvi)). Qed.

Lemma below x : x ∈ sc_stack s -> idx s1 x < sc_index s.
Proof.
  intros Hx. pose proof (si_stack _ _ Hi x Hx) as Hv. rewrite (extends_idx _ _ _ x (vi_extends _ _ _ _ _ _ _ Hvi) Hv).
  by apply (si_bound _ _ Hi).
Qed.

Lemma above x : x ∈ ex ++ [v] -> sc_index s <= idx s1 x.
Proof.
  intros Hx. pose proof (vi_extends _ _ _ _ _ _ _ Hvi) as He. apply (ex_new _ _ _ He); [|by apply (ex_fresh _ _ _ He)].
  apply (si_stack _ _ (vi_inv _ _ _ _ _ _ _ Hvi)). rewrite stack_is. apply elem_of_app. by left.
Qed.

Lemma v_not_in_ex : v ∉ ex.
Proof.
  pose proof (si_sorted _ _ (vi_inv _ _ _ _ _ _ _ Hvi)) as Hs. rewrite stack_is, <- app_assoc in Hs.
  apply StronglySorted_app in Hs as (Hs & _ & _). intros Hin. assert (idx s1 v < idx s1 v); [|lia].
  apply Hs; [done|]. by left.
Qed.

Lemma gray_old x : x ∈ gray -> x ∈ sc_stack s.
Proof. apply (si_gray _ _ Hi). Qed.

Lemma finished x y : visited s1 x -> x ∉ gray -> edge x y -> cached y \/ visited s1 y.
Proof.
  intros Hx Hg Hxy. destruct (decide (x = v)) as [->|Hne].
  - apply (vi_done _ _ _ _ _ _ _ Hvi y); [by apply Hall | done].
  - apply (si_done _ _ (vi_inv _ _ _ _ _ _ _ Hvi) x); [done | | done]. by apply not_elem_of_cons.
Qed.

(** No edge of the vertices of this visit leads below the low link. *)
Lemma all_above x y : x ∈ ex ++ [v] -> edge x y -> y ∈ sc_stack s1 -> lv <= idx s1 y.
Proof.
  intros [Hx| ->%list_elem_of_singleton]%elem_of_app Hxy Hy; [by apply (vi_min _ _ _ _ _ _ _ Hvi x)|].
  apply (vi_done _ _ _ _ _ _ _ Hvi y); [by apply Hall | done | done].
Qed.

(** The vertices of this visit are taken off the stack. *)
Definition cut : sc_state := s1 <| sc_stack := sc_stack s |>.

Lemma cut_popped x : popped cut x <-> popped s1 x \/ x ∈ ex ++ [v].
Proof.
  unfold popped. change (visited cut x) with (visited s1 x). change (sc_stack cut) with (sc_stack s). rewrite stack_is, not_elem_of_app.
  split.
  - intros [H1 H2]. destruct (decide (x ∈ ex ++ [v])); [by right | left; done].
  - intros [(H1 & H2 & H3)|Hx]; [done|]. split.
    + apply (si_stack _ _ (vi_inv _ _ _ _ _ _ _ Hvi)). rewrite stack_is. apply elem_of_app. by left.
    + intros Hin. pose proof (below x Hin). pose proof (above x Hx). lia.
Qed.

Lemma cut_inv : lv = sc_index s -> sc_inv gray cut.
Proof.
  intros Hlv. pose proof Hvi as [V1 [I1 I2 I3 I4 I5 I6 I7 I8] _ _ _ _ _ _].
  assert (forall x, x ∈ sc_stack s -> x ∈ sc_stack s1) as Hold by (intros x Hx; rewrite stack_is; apply elem_of_app; by right).
  split.
  - rewrite stack_is in I1. apply StronglySorted_app in I1 as (_ & _ & I1). exact I1.
  - intros x Hx. by apply I2, Hold.
  - exact I3.
  - exact I4.
  - intros x y Hx Hxy. rewrite cut_popped in Hx |- *. destruct Hx as [Hx|Hx].
    + destruct (I5 x y Hx Hxy); [by left | right; by left].
    + assert (x ∉ gray) as Hg.
      { intros Hg. pose proof (below x (gray_old x Hg)). pose proof (above x Hx). lia. }
      assert (visited s1 x) as Hvx by (apply I2; rewrite stack_is; apply elem_of_app; by left).
      destruct (finished x y Hvx Hg Hxy) as [?|Hy]; [by left|]. right.
      destruct (decide (y ∈ sc_stack s1)) as [Hin|Hin]; [|by left]. right.
      pose proof (all_above x y Hx Hxy Hin) as Hge. rewrite stack_is in Hin. apply elem_of_app in Hin as [?|Hin]; [done|].
      pose proof (below y Hin). lia.
  - exact finished.
  - intros x Hx Hg. destruct (I7 x (Hold x Hx)) as (y & Hy & Hlt & Hr).
    { apply not_elem_of_cons. split; [|done]. intros ->. by apply Hnv, (si_stack _ _ Hi). }
    exists y. split; [|done]. rewrite stack_is in Hy. apply elem_of_app in Hy as [Hy|Hy]; [|done].
    pose proof (above y Hy). pose proof (below x Hx). lia.
  - exact gray_old.
Qed.

Lemma stays_inv : lv ≠ sc_index s -> sc_inv gray s1.
Proof.
  intros Hlv. pose proof Hvi as [V1 [I1 I2 I3 I4 I5 I6 I7 I8] _ _ V5 V6 _ _]. split; try done.
  - exact finished.
  - intros x Hx Hg. destruct (decide (x = v)) as [->|Hne].
    + destruct V6 as (y & Hy & Ei & Hr). exists y. split_and!; [done | | done]. rewrite (v_idx _ _ _ _ _ _ _ Hvi). lia.
    + apply I7; [done|]. by apply not_elem_of_cons.
  - intros x Hx. apply I8. by right.
Qed.

Lemma leave_done :
  exists ret s' ex', leave v s1 = Done (ret, s') /\ returned gray v s s' ex' lv /\
    (lv = sc_index s -> ret = ex ++ [v]).
Proof.
  pose proof Hvi as [V1 V2 V3 V4 V5 V6 V7 V8]. unfold leave. erewrite bind_eq by reflexivity. unfold at_. rewrite V3, V4. cbn [default id].
  destruct (Z.eqb_spec lv (sc_index s)) as [Heq|Hne].
  - rewrite stack_is, <- app_assoc. cbn [app]. rewrite pop_until_eq by apply v_not_in_ex. erewrite bind_eq by reflexivity.
    exists (ex ++ [v]), cut, []. split; [done|]. split; [|done]. split.
    + destruct V1 as [E1 E2 E3 E4 E5]. split; try done. intros x Hx. by apply not_elem_of_nil in Hx.
    + by apply cut_inv.
    + by exists (sc_index s).
    + done.
    + right. lia.
    + intros x y Hx. by apply not_elem_of_nil in Hx.
  - exists [], s1, (ex ++ [v]). split; [done|]. split; [|done]. split.
    + done.
    + by apply stays_inv.
    + by exists (sc_index s).
    + done.
    + left. done.
    + intros x y Hx Hxy Hy. by apply (all_above x).
Qed.
End leave.

(** ** The search *)

Section parents.
Context (gray : list Z) (v : Z) (s : sc_state) (fuel : nat).
Context (Hnv : ~ visited s v) (Hrv : reach root v).

(** The recursive call does what it should, in every state with few vertices left. *)
Definition call_ok (gray : list Z) (fuel : nat) : Prop :=
  forall p s1, sc_inv gray s1 -> (exists vp, g !! p = Some vp /\ scc_ vp = None) -> ~ visited s1 p -> reach root p ->
    (todo s1 <= fuel)%nat ->
    exists ret s2 exp lp, StrongConnectPred g fuel p s1 = Done (ret, s2) /\ returned gray p s1 s2 exp lp.

Lemma visit_parent_done ps s1 ex lv p vv :
  call_ok (v :: gray) fuel -> visiting gray v s ps s1 ex lv -> (todo s1 <= fuel)%nat ->
  g !! v = Some vv -> p ∈ parents_ vv ->
  exists s2 ex2 lv2, visit_parent g (StrongConnectPred g fuel) v p s1 = Done (tt, s2) /\
    visiting gray v s (p :: ps) s2 ex2 lv2 /\ (todo s2 <= todo s1)%nat.
Proof.
  intros Hcall Hvi Hf Hv Hp. unfold visit_parent, FindV. destruct (g !! p) as [vp|] eqn:Ep.
  2: { exists s1, ex, lv. split_and!; [done | | done]. apply skip_parent; [done|]. intros (? & _ & _ & [? E]). congruence. }
  destruct (scc_ vp) as [l|] eqn:El.
  { exists s1, ex, lv. split_and!; [done | | done]. apply skip_parent; [done|]. intros _. by exists vp, l. }
  assert (edge v p) as Hvp by (exists vv; split_and!; [done | done | by exists vp]).
  erewrite bind_eq by reflexivity. destruct (sc_indexes s1 !! p) as [i|] eqn:Ei.
  - rewrite (scan_stack v p i _ s1 lv) by apply Hvi. eexists _, ex, _. split; [done|]. split; [|done].
    assert (idx s1 p = i) as Hi by (unfold idx, at_; by rewrite Ei).
    assert (p ∈ rev (sc_stack s1) <-> p ∈ sc_stack s1) as Hrev by (rewrite !list_elem_of_In; symmetry; apply in_rev).
    apply (lowered_visiting _ _ _ _ _ _ _ Hvi Hnv p _ p).
    + intros _. split; [by exists i|]. intros Hin. rewrite bool_decide_true by (by apply Hrev). lia.
    + case_bool_decide; lia.
    + case_bool_decide as Hin; [|by left]. destruct (Z.le_gt_cases lv i); [left; lia|]. right.
      split_and!; [by apply Hrev | lia | by apply rtc_once].
  - assert (~ visited s1 p) as Hnp by (unfold visited; rewrite Ei; by intros [? ?]).
    destruct (Hcall p s1 (vi_inv _ _ _ _ _ _ _ Hvi) (ex_intro _ vp (conj Ep El)) Hnp) as (ret & s2 & exp & lp & E & Hret); [|done|].
    { eapply rtc_r; [exact Hrv | done]. }
    rewrite (bind_eq _ _ _ _ _ E). erewrite bind_eq by reflexivity.
    pose proof (child_low _ _ _ _ _ _ _ Hvi _ _ _ _ Hret) as Hlow. rewrite (lower_eq _ _ _ _ Hlow).
    unfold at_. rewrite (rt_low _ _ _ _ _ _ Hret). cbn [default id]. eexists _, _, _. split; [done|]. split.
    + by apply (child_visiting _ _ _ _ _ _ _ Hvi Hnv p s2 exp lp Hnp Hret).
    + by apply (todo_mono s1 s2 exp), Hret.
Qed.

Lemma parents_done l ps s1 ex lv vv :
  call_ok (v :: gray) fuel -> visiting gray v s ps s1 ex lv -> (todo s1 <= fuel)%nat ->
  g !! v = Some vv -> Forall (fun p => p ∈ parents_ vv) l ->
  exists s2 ex2 lv2, for_each l (visit_parent g (StrongConnectPred g fuel) v) s1 = Done (tt, s2) /\
    visiting gray v s (rev l ++ ps) s2 ex2 lv2.
Proof.
  intros Hcall Hvi Hf Hv Hl. revert ps s1 ex lv Hvi Hf. induction Hl as [|p l Hp Hl IH]; intros ps s1 ex lv Hvi Hf; cbn [for_each].
  { by exists s1, ex, lv. }
  destruct (visit_parent_done ps s1 ex lv p vv Hcall Hvi Hf Hv Hp) as (s2 & ex2 & lv2 & E & Hvi2 & Ht).
  rewrite (bind_eq _ _ _ _ _ E). destruct (IH (p :: ps) s2 ex2 lv2 Hvi2) as (s3 & ex3 & lv3 & E3 & Hvi3); [lia|].
  exists s3, ex3, lv3. cbn [rev]. rewrite <- app_assoc. done.
Qed.
End parents.

(** The whole visit of a vertex. *)
Lemma connect_visiting gray v s fuel vv :
  call_ok (v :: gray) fuel -> sc_inv gray s -> g !! v = Some vv -> scc_ vv = None -> ~ visited s v -> reach root v ->
  (todo s <= S fuel)%nat ->
  exists s1 ex lv, visiting gray v s (rev (parents_ vv)) s1 ex lv /\ (forall y, edge v y -> y ∈ rev (parents_ vv)) /\
    StrongConnectPred g (S fuel) v s = leave v s1.
Proof.
  intros Hcall Hi Hv Hs Hnv Hr Ht. assert (exists vv, g !! v = Some vv /\ scc_ vv = None) as Hex by (by exists vv).
  pose proof (entered_visiting gray v s Hi Hex Hnv Hr) as Hvi0.
  assert (todo (entered v s) <= fuel)%nat as Hf by (pose proof (entered_todo v s (mk_is_Some _ _ Hv) Hnv); lia).
  destruct (parents_done gray v s fuel Hnv Hr (parents_ vv) [] (entered v s) [] (sc_index s) vv Hcall Hvi0 Hf Hv)
    as (s1 & ex & lv & E & Hvi); [by apply Forall_forall|].
  rewrite app_nil_r in Hvi. exists s1, ex, lv. split_and!; [done | |].
  - intros y (vx & Ex & Hy & _). assert (vx = vv) as -> by congruence. apply list_elem_of_In, in_rev. rewrite rev_involutive.
    by apply list_elem_of_In.
  - cbn [StrongConnectPred]. rewrite (bind_eq _ _ _ tt (entered v s)) by reflexivity. unfold FindV. rewrite Hv.
    erewrite bind_eq by reflexivity. by rewrite (bind_eq _ _ _ _ _ E).
Qed.

Lemma connect_done fuel gray : call_ok gray fuel.
Proof.
  revert gray. induction fuel as [|fuel IH]; intros gray v s Hi (vv & Hv & Hs) Hnv Hr Ht.
  { exfalso. pose proof (entered_todo v s (mk_is_Some _ _ Hv) Hnv). lia. }
  destruct (connect_visiting gray v s fuel vv (IH (v :: gray)) Hi Hv Hs Hnv Hr Ht) as (s1 & ex & lv & Hvi & Hall & E).
  destruct (leave_done gray v s _ s1 ex lv Hvi Hnv Hi Hall) as (ret & s' & ex' & E' & Hret & _).
  exists ret, s', ex', lv. by rewrite E.
Qed.

(** ** The component of the first vertex *)

Definition start : sc_state := mk_sc ∅ ∅ 0 [].

Lemma start_inv : sc_inv [] start.
Proof.
  assert (forall x, ~ visited start x) as Hnv by (intros x [i Hi]; cbn in Hi; by rewrite lookup_empty in Hi).
  split; try (intros x Hx; by apply not_elem_of_nil in Hx).
  - constructor.
  - intros x Hx. by destruct (Hnv x).
  - intros x Hx. by destruct (Hnv x).
  - intros x y [Hx _]. by destruct (Hnv x).
  - intros x y Hx. by destruct (Hnv x).
Qed.

(** Both ways. *)
Definition together (x y : Z) : Prop := reach x y /\ reach y x.

Section root.
Context (vr : Vertex) (Hr : g !! root = Some vr) (Hscc : scc_ vr = None).
(** A vertex whose component is known is not in the component of the root. *)
Context (Hcache : forall x, cached x -> ~ together root x).
Context (ps : list Z) (s1 : sc_state) (ex : list Z) (lv : Z).
Context (Hvi : visiting [] root start ps s1 ex lv) (Hall : forall y, edge root y -> y ∈ ps).

Lemma start_fresh : ~ visited start root.
Proof. intros [i Hi]. cbn in Hi. by rewrite lookup_empty in Hi. Qed.

Lemma root_stack : sc_stack s1 = ex ++ [root].
Proof. rewrite (stack_is _ _ _ _ _ _ _ Hvi). apply app_nil_r. Qed.

Lemma root_low : lv = sc_index start.
Proof.
  pose proof (vi_le _ _ _ _ _ _ _ Hvi) as Hle. destruct (vi_real _ _ _ _ _ _ _ Hvi) as (y & Hy & Ei & _).
  rewrite root_stack in Hy. pose proof (above _ _ _ _ _ _ _ Hvi y Hy). lia.
Qed.

(** Every vertex on the stack leads down to the root. *)
Lemma stack_leads_back x : x ∈ sc_stack s1 -> reach x root.
Proof.
  pose proof (vi_inv _ _ _ _ _ _ _ Hvi) as Hi. assert (forall k x, (Z.to_nat (idx s1 x) < k)%nat -> x ∈ sc_stack s1 -> reach x root) as Hk.
  { induction k as [|k IH]; intros z Hz Hin; [lia|]. destruct (decide (z = root)) as [->|Hne]; [apply rtc_refl|].
    destruct (si_low _ _ Hi z Hin) as (y & Hy & Hlt & Hzy); [by intros ?%list_elem_of_singleton|].
    assert (0 <= idx s1 y) as H0 by (rewrite root_stack in Hy; exact (above _ _ _ _ _ _ _ Hvi y Hy)).
    etrans; [exact Hzy|]. apply IH; [lia | done]. }
  apply (Hk (S (Z.to_nat (idx s1 x)))). lia.
Qed.

Lemma root_visited : visited s1 root.
Proof. exact (v_visited _ _ _ _ _ _ _ Hvi). Qed.

(** Every vertex of the component is visited. *)
Lemma component_visited x : reach root x -> reach x root -> visited s1 x.
Proof.
  intros Hx. revert x Hx. refine (rtc_ind_r _ _ _ _).
  - intros _. exact root_visited.
  - intros y z Hry Hyz IH Hz. assert (reach y root) as Hy by (by eapply rtc_l).
    destruct (finished _ _ _ _ _ _ _ Hvi Hall y z (IH Hy)) as [Hc|?]; [apply not_elem_of_nil | done | | done].
    exfalso. apply (Hcache z Hc). split; [by eapply rtc_r | done].
Qed.

(** And is still on the stack, since what was taken off does not lead to the root. *)
Lemma popped_stays x : popped s1 x -> reach root x -> reach x root -> False.
Proof.
  pose proof (vi_inv _ _ _ _ _ _ _ Hvi) as Hi. intros Hp Hrx Hx. revert Hp Hrx.
  apply (rtc_ind_l (R:=edge) (fun x => popped s1 x -> reach root x -> False) root); [|  |exact Hx].
  - intros [_ Hn] _. apply Hn. rewrite root_stack. apply elem_of_app. right. by left.
  - intros y z Hyz Hz IH Hp Hry. assert (reach root z) as Hrz by (by eapply rtc_r).
    destruct (si_popped _ _ Hi y z Hp Hyz) as [Hc|Hpz]; [|by apply IH]. by apply (Hcache z Hc).
Qed.

Lemma component_is x : x ∈ ex ++ [root] <-> together root x.
Proof.
  rewrite <- root_stack. split.
  - intros Hx. pose proof (vi_inv _ _ _ _ _ _ _ Hvi) as Hi. split; [by apply (si_known _ _ Hi), (si_stack _ _ Hi) | by apply stack_leads_back].
  - intros [H1 H2]. destruct (decide (x ∈ sc_stack s1)) as [|Hn]; [done|]. exfalso.
    apply (popped_stays x); [|done|done]. split; [by apply component_visited | done].
Qed.

Lemma component_NoDup : NoDup (ex ++ [root]).
Proof.
  rewrite <- root_stack. pose proof (si_sorted _ _ (vi_inv _ _ _ _ _ _ _ Hvi)) as Hs.
  induction Hs as [|x l Hl IH Hx]; [constructor|]. constructor; [|done]. intros Hin. rewrite Forall_forall in Hx.
  specialize (Hx x Hin). lia.
Qed.
End root.

Lemma start_todo : todo start = size g.
Proof. unfold todo. cbn. rewrite dom_empty_L, difference_empty_L. apply size_dom. Qed.

(** The search from a vertex whose component is not known finds it. *)
Lemma search_done vr :
  g !! root = Some vr -> scc_ vr = None -> (forall x, cached x -> ~ together root x) ->
  exists l s', StrongConnectPred g (size g) root start = Done (l, s') /\ NoDup l /\ forall x, x ∈ l <-> together root x.
Proof.
  intros Hr Hs Hcache. destruct (size g) as [|fuel] eqn:Esz.
  { apply map_size_empty_inv in Esz. by rewrite Esz, lookup_empty in Hr. }
  destruct (connect_visiting [] root start fuel vr (connect_done fuel _) start_inv Hr Hs start_fresh (rtc_refl _ _))
    as (s1 & ex & lv & Hvi & Hall & E); [rewrite start_todo; lia|].
  destruct (leave_done [] root start _ s1 ex lv Hvi start_fresh start_inv Hall) as (ret & s' & ex' & E' & _ & Hret).
  rewrite (Hret (root_low _ _ _ _ Hvi)) in E'. exists (ex ++ [root]), s'. rewrite E.
  split_and!; [done | by eapply component_NoDup | by eapply component_is].
Qed.
End scc.

(** ** [FindSccPred] *)

(** What the vertices remember: the whole component, and all of it remembers the same. *)
Definition cache_ok (g : Graph) : Prop :=
  forall x vx l, g !! x = Some vx -> scc_ vx = Some l ->
    NoDup l /\ (forall y, y ∈ l <-> together g x y) /\ (forall y, y ∈ l -> exists vy, g !! y = Some vy /\ scc_ vy = Some l).

Lemma together_sym g x y : together g x y -> together g y x.
Proof. unfold together. tauto. Qed.
Lemma together_trans g x y z : together g x y -> together g y z -> together g x z.
Proof. intros [H1 H2] [H3 H4]. split; by etrans. Qed.

Lemma cached_apart g root vr :
  cache_ok g -> g !! root = Some vr -> scc_ vr = None -> forall x, cached g x -> ~ together g root x.
Proof.
  intros Hc Hr Hs x (vx & l & Ex & El) Ht. destruct (Hc x vx l Ex El) as (_ & H1 & H2).
  destruct (H2 root) as (vy & Ey & Hy); [by apply H1, together_sym | congruence].
Qed.

Lemma set_scc_done l todo_ g :
  NoDup todo_ -> (forall x, x ∈ todo_ -> exists vx, g !! x = Some vx /\ scc_ vx = None) ->
  exists g', for_each todo_ (set_scc l) g = Done (tt, g') /\
    forall x, g' !! x = if bool_decide (x ∈ todo_) then (fun vx => vx <| scc_ := Some l |>) <$> g !! x else g !! x.
Proof.
  intros Hnd. revert g. induction Hnd as [|x k Hx Hk IH]; intros g Hg; cbn [for_each].
  { exists g. split; [done|]. intros x. by rewrite bool_decide_false by apply not_elem_of_nil. }
  destruct (Hg x ltac:(by left)) as (vx & Ex & En). set (g1 := <[x := vx <| scc_ := Some l |>]> g).
  rewrite (bind_eq _ _ _ tt g1).
  - destruct (IH g1) as (g' & E & Hg').
    + intros y Hy. unfold g1. rewrite lookup_insert_ne by (by intros ->). apply Hg. by right.
    + exists g'. split; [done|]. intros y. rewrite Hg'. unfold g1. destruct (decide (y = x)) as [->|Hne].
      * rewrite (bool_decide_false (x ∈ k)), (bool_decide_true (x ∈ x :: k)) by (done || by left). by rewrite lookup_insert_eq, Ex.
      * rewrite lookup_insert_ne by done. assert (y ∈ x :: k <-> y ∈ k) as Hiff by (rewrite elem_of_cons; naive_solver).
        by rewrite (bool_decide_ext _ _ Hiff).
  - unfold set_scc, FindV. erewrite bind_eq by reflexivity. rewrite Ex. erewrite bind_eq by reflexivity.
    rewrite bool_decide_true by done. by erewrite bind_eq by reflexivity.
Qed.

(** Two graphs with the same vertices and edges. *)
Definition same_edges (g g' : Graph) : Prop := forall x, parents_ <$> g' !! x = parents_ <$> g !! x.

Lemma same_edges_edge g g' x y : same_edges g g' -> edge g x y -> edge g' x y.
Proof.
  intros Hs (vx & Ex & Hy & [vy Ey]). pose proof (Hs x) as Hx. pose proof (Hs y) as Hy'. rewrite Ex in Hx. rewrite Ey in Hy'.
  destruct (g' !! x) as [vx'|] eqn:Ex'; [|done]. destruct (g' !! y) as [vy'|] eqn:Ey'; [|done].
  injection Hx as Hx. exists vx'. split_and!; [done | by rewrite Hx | by exists vy'].
Qed.

Lemma same_edges_sym g g' : same_edges g g' -> same_edges g' g.
Proof. intros Hs x. by rewrite Hs. Qed.

Lemma same_edges_together g g' x y : same_edges g g' -> together g x y <-> together g' x y.
Proof.
  intros Hs. assert (forall g g' a b, same_edges g g' -> reach g a b -> reach g' a b) as Hr.
  { intros h h' a b Hh Hab. induction Hab as [|a b c Hab _ IH]; [apply rtc_refl|]. eapply rtc_l; [|done].
    by eapply same_edges_edge. }
  split; intros [H1 H2]; split; (eapply Hr; [|done]); by (done || apply same_edges_sym).
Qed.

(** C10: for a vertex of the graph, [FindSccPred] ends and gives its strongly
    connected component, every vertex of it once and no other, whether the component
    was known before or not; afterwards every vertex of the component remembers it, no
    vertex's parents have changed, and what the other vertices remember is still right,
    so that later searches may rely on it. *)
Theorem find_scc g v :
  cache_ok g -> is_Some (g !! v) ->
  exists l g', FindSccPred v g = Done (l, g') /\ NoDup l /\ (forall x, x ∈ l <-> reach g v x /\ reach g x v) /\
    (forall x, x ∈ l -> exists vx, g' !! x = Some vx /\ scc_ vx = Some l) /\ same_edges g g' /\ cache_ok g'.
Proof.
  intros Hc [vv Hv]. unfold FindSccPred, FindV. erewrite bind_eq by reflexivity. rewrite Hv. erewrite bind_eq by reflexivity.
  destruct (scc_ vv) as [l|] eqn:El.
  { destruct (Hc v vv l Hv El) as (H1 & H2 & H3). by exists l, g. }
  destruct (search_done g v vv Hv El (cached_apart g v vv Hc Hv El)) as (l & s' & E & Hnd & Hl). fold start. rewrite E.
  erewrite bind_eq by reflexivity.
  assert (forall x, x ∈ l -> exists vx, g !! x = Some vx /\ scc_ vx = None) as Hfresh.
  { intros x Hx. apply Hl in Hx. assert (is_Some (g !! x)) as [vx Ex].
    { destruct Hx as [_ Hx]. apply rtc_inv in Hx as [->|(y & (vx & Ex & _) & _)]; by eexists. }
    exists vx. split; [done|]. destruct (scc_ vx) as [lx|] eqn:Elx; [|done]. exfalso.
    apply (cached_apart g v vv Hc Hv El x); [by exists vx, lx | done]. }
  destruct (set_scc_done l l g Hnd Hfresh) as (g' & E' & Hg').
  assert (same_edges g g') as Hse.
  { intros x. rewrite Hg'. case_bool_decide; [|done]. by destruct (g !! x). }
  exists l, g'. split_and!; try done; [by rewrite (bind_eq _ _ _ _ _ E') | |].
  { intros x Hx. destruct (Hfresh x Hx) as (vx & Ex & _). rewrite Hg', bool_decide_true, Ex by done. by eexists. }
  intros x vx lx Ex Elx. rewrite Hg' in Ex. case_bool_decide as Hin.
  - destruct (Hfresh x Hin) as (wx & Ewx & _). rewrite Ewx in Ex. injection Ex as <-. cbn in Elx. injection Elx as <-.
    apply Hl in Hin. split_and!; [done | |].
    + intros y. rewrite Hl, <- (same_edges_together g g' x y Hse). split; intros Hy.
      * by apply (together_trans g x v y), Hy; apply together_sym.
      * by apply (together_trans g v x y).
    + intros y Hy. destruct (Hfresh y Hy) as (wy & Ewy & _). rewrite Hg', bool_decide_true, Ewy by done. by eexists.
  - destruct (Hc x vx lx Ex Elx) as (H1 & H2 & H3). split_and!; [done | |].
    + intros y. by rewrite H2, (same_edges_together g g').
    + intros y Hy. destruct (H3 y Hy) as (vy & Ey & Ely). exists vy. rewrite Hg'. case_bool_decide as Hyl; [|done].
      destruct (Hfresh y Hyl) as (wy & Ewy & En). congruence.
Qed.

(** ** Instances *)

Lemma nothing_cached g : map_Forall (fun _ v => scc_ v = None) g -> cache_ok g.
Proof. intros Hg x vx l Ex El. specialize (Hg x vx Ex). cbn in Hg. congruence. Qed.

(** 1, 2 and 3 are parents of each other in a circle, 4 has 1 as a parent and 2 has one
    that is not in the graph. *)
Definition demo_graph : Graph :=
  {[1 := mk_vertex [2] false None; 2 := mk_vertex [3; 9] false None; 3 := mk_vertex [1] false None;
    4 := mk_vertex [1] false None]}.

Lemma find_scc_witness :
  exists l g', FindSccPred 2 demo_graph = Done (l, g') /\ NoDup l /\
    (forall x, x ∈ l <-> reach demo_graph 2 x /\ reach demo_graph x 2) /\
    (forall x, x ∈ l -> exists vx, g' !! x = Some vx /\ scc_ vx = Some l).
Proof.
  destruct (find_scc demo_graph 2) as (l & g' & E & H1 & H2 & H3 & _).
  - apply nothing_cached. apply (bool_decide_unpack _). vm_compute. exact I.
  - apply (bool_decide_unpack _). vm_compute. exact I.
  - exists l, g'. done.
Defined.

Example demo_scc :
  match FindSccPred 2 demo_graph with
  | Done (l, g') => l = [1; 3; 2] /\ match FindSccPred 4 g' with Done (l', _) => l' = [4] | _ => False end
  | _ => False
  end.
Proof. vm_compute. auto. Qed.
