(* ===== verification/SccTraverse.v ===== *)
(** * [TraversePred] visits the ancestors (src/deptran/rcc/graph.h) *)
From stdpp Require Import base tactics numbers list relations gmap sets fin_sets sorting.
From S2P Require Import Prelude OMap SccGraph SccProof.

Section traverse.
Context (func : Z -> SearchHint) (Hexit : forall x, func x ≠ Exit).
Context (g : Graph) (Hfresh : map_Forall (fun _ v => walked_ v = false) g).

(** An edge the search follows. *)
Definition ok_edge (x y : Z) : Prop := edge g x y /\ func y = Ok.

(** The graph with the vertices of [w] flagged. *)
Definition flagged (w : list Z) (x : Z) : option Vertex := (fun v => v <| walked_ := bool_decide (x ∈ w) |>) <$> g !! x.

Record tr_ok (s : tr_state) : Prop := {
  to_graph : forall x, tr_graph s !! x = flagged (tr_walked s) x;
  to_nodup : NoDup (tr_walked s);
  to_in : forall x, x ∈ tr_walked s -> is_Some (g !! x);
}.

(** Everything about the parents of [x] has been done. *)
Definition closed (s : tr_state) (x : Z) : Prop :=
  forall y, edge g x y -> y ∈ tr_calls s /\ (func y = Ok -> y ∈ tr_walked s).

(** The search went on from [s] to [s'] below [u]. *)
Record searched (u : Z) (s s' : tr_state) : Prop := {
  sd_ok : tr_ok s';
  sd_walked : forall x, x ∈ tr_walked s -> x ∈ tr_walked s';
  sd_calls : forall x, x ∈ tr_calls s -> x ∈ tr_calls s';
  sd_new : forall x, x ∈ tr_walked s' -> x ∉ tr_walked s -> closed s' x /\ rtc ok_edge u x;
  sd_called : forall c, c ∈ tr_calls s' -> c ∈ tr_calls s \/ exists x, rtc ok_edge u x /\ edge g x c;
}.

Lemma closed_mono s s' x :
  (forall x, x ∈ tr_walked s -> x ∈ tr_walked s') -> (forall x, x ∈ tr_calls s -> x ∈ tr_calls s') -> closed s x -> closed s' x.
Proof. intros Hw Hc Hx y Hy. destruct (Hx y Hy) as [H1 H2]. auto. Qed.

Lemma searched_refl u s : tr_ok s -> searched u s s.
Proof. intros Hok. split; try done. intros c Hc. by left. Qed.

Lemma searched_trans u s s1 s2 : searched u s s1 -> searched u s1 s2 -> searched u s s2.
Proof.
  intros [A1 A2 A3 A4 A5] [B1 B2 B3 B4 B5]. split; auto.
  - intros x Hx Hn. destruct (decide (x ∈ tr_walked s1)) as [Hx1|Hx1]; [|by apply B4].
    destruct (A4 x Hx1 Hn) as [H1 H2]. split; [|done]. by eapply closed_mono.
  - intros c Hc. destruct (B5 c Hc) as [Hc1|?]; [auto | by right].
Qed.

Lemma searched_up u p s s' : ok_edge u p -> searched p s s' -> searched u s s'.
Proof.
  intros Hup [A1 A2 A3 A4 A5]. split; auto.
  - intros x Hx Hn. destruct (A4 x Hx Hn) as [H1 H2]. split; [done|]. by eapply rtc_l.
  - intros c Hc. destruct (A5 c Hc) as [?|(x & Hx & Hxc)]; [by left|]. right. exists x. split; [by eapply rtc_l | done].
Qed.

(** The number of vertices without a flag. *)
Definition unwalked (s : tr_state) : nat := (size g - length (tr_walked s))%nat.

Lemma unwalked_pos s u : tr_ok s -> is_Some (g !! u) -> u ∉ tr_walked s -> (length (tr_walked s) < size g)%nat.
Proof.
  intros [_ Hnd Hin] Hu Hn. rewrite <- size_dom.
  assert (size (list_to_set (C:=gset Z) (u :: tr_walked s)) <= size (dom g))%nat as Hle.
  { apply subseteq_size. intros x. rewrite elem_of_list_to_set, elem_of_dom. intros [->|Hx]%elem_of_cons; auto. }
  rewrite size_list_to_set in Hle by (by constructor). cbn in Hle. lia.
Qed.

(** A callback. *)
Lemma call_searched u p s :
  tr_ok s -> edge g u p -> searched u s (s <| tr_calls ::= fun l => l ++ [p] |>).
Proof.
  intros Hok Hup. split; unfold set_field; cbn.
  - destruct Hok as [? ? ?]. by split.
  - done.
  - intros x Hx. apply elem_of_app. by left.
  - intros x Hx Hn. done.
  - intros c [Hc| ->%list_elem_of_singleton]%elem_of_app; [by left|]. right. exists u. split; [apply rtc_refl | done].
Qed.

Definition walk (u : Z) (s : tr_state) : tr_state :=
  s <| tr_graph ::= alter (fun v => v <| walked_ := true |>) u |> <| tr_walked ::= fun l => l ++ [u] |>.

Lemma walk_ok u s : tr_ok s -> is_Some (g !! u) -> u ∉ tr_walked s -> tr_ok (walk u s).
Proof.
  intros [H1 H2 H3] Hu Hn. split; unfold walk, set_field; cbn.
  - intros x. unfold flagged. destruct (decide (x = u)) as [->|Hne].
    + rewrite lookup_alter_eq, H1. unfold flagged. destruct (g !! u); [|done]. cbn.
      rewrite (bool_decide_true (u ∈ tr_walked s ++ [u])); [done|]. apply elem_of_app. right. by left.
    + rewrite lookup_alter_ne, H1 by done. unfold flagged. destruct (g !! x); [|done]. cbn.
      assert (x ∈ tr_walked s ++ [u] <-> x ∈ tr_walked s) as Hiff by (rewrite elem_of_app, list_elem_of_singleton; naive_solver).
      by rewrite (bool_decide_ext _ _ Hiff).
  - apply NoDup_app. split_and!; [done | | apply NoDup_singleton]. intros x Hx ->%list_elem_of_singleton. done.
  - intros x [Hx| ->%list_elem_of_singleton]%elem_of_app; auto.
Qed.

Definition rec_ok (rec : Z -> Z -> M tr_state SearchHint) (n : nat) : Prop :=
  forall p depth s, tr_ok s -> is_Some (g !! p) -> depth < 0 -> (unwalked s < n)%nat ->
    exists ret s', rec p depth s = Done (ret, s') /\ ret ≠ Exit /\ searched p s s' /\ p ∈ tr_walked s'.

Lemma searched_unwalked u s s' : tr_ok s -> searched u s s' -> (unwalked s' <= unwalked s)%nat.
Proof.
  intros [_ Hnd _] [A1 A2 _ _ _]. assert (length (tr_walked s) <= length (tr_walked s'))%nat; [|unfold unwalked; lia].
  apply submseteq_length. by apply NoDup_submseteq.
Qed.

Lemma parents_searched rec n u depth ps ret s vu :
  rec_ok rec n -> depth < 0 -> g !! u = Some vu -> Forall (fun p => p ∈ parents_ vu) ps -> tr_ok s -> (unwalked s < n)%nat -> ret ≠ Exit ->
  exists ret' s', traverse_parents func rec depth ret ps s = Done (ret', s') /\ ret' ≠ Exit /\ searched u s s' /\
    forall p, p ∈ ps -> edge g u p -> p ∈ tr_calls s' /\ (func p = Ok -> p ∈ tr_walked s').
Proof.
  intros Hrec Hd Hu Hps. revert ret s. induction Hps as [|p ps Hp Hps IH]; intros ret s Hok Hn Hret; cbn [traverse_parents].
  { exists ret, s. split_and!; [done | done | by apply searched_refl |]. intros p Hp. by apply not_elem_of_nil in Hp. }
  erewrite bind_eq by reflexivity. unfold FindV. rewrite (to_graph s Hok p). unfold flagged.
  destruct (g !! p) as [vp|] eqn:Ep; cbn [fmap option_fmap option_map].
  2: { destruct (IH ret s Hok Hn Hret) as (ret' & s' & E & Hr' & Hs' & Hall). exists ret', s'. split_and!; try done.
    intros q [->|Hq]%elem_of_cons Huq; [|by apply Hall]. destruct Huq as (? & _ & _ & [? ?]). congruence. }
  assert (edge g u p) as Hup by (exists vu; split_and!; [done | done | by exists vp]).
  erewrite bind_eq by reflexivity. set (s1 := s <| tr_calls ::= _ |>). pose proof (call_searched u p s Hok Hup) as Hs1. fold s1 in Hs1.
  assert (p ∈ tr_calls s1) as Hp1 by (unfold s1, set_field; cbn; apply elem_of_app; right; by left).
  assert (forall s2 r, searched u s1 s2 -> r ≠ Exit -> (func p = Ok -> p ∈ tr_walked s2) ->
    exists ret' s', traverse_parents func rec depth r ps s2 = Done (ret', s') /\ ret' ≠ Exit /\ searched u s s' /\
      forall q, q ∈ p :: ps -> edge g u q -> q ∈ tr_calls s' /\ (func q = Ok -> q ∈ tr_walked s')) as Hgo.
  { intros s2 r Hs2 Hr Hpw. pose proof (searched_unwalked u s1 s2 (sd_ok _ _ _ Hs1) Hs2) as Hle.
    change (unwalked s1) with (unwalked s) in Hle.
    destruct (IH r s2 (sd_ok _ _ _ Hs2) ltac:(lia) Hr) as (ret' & s' & E & Hr' & Hs' & Hall).
    exists ret', s'. split_and!; [done | done | |].
    - eapply searched_trans; [exact Hs1|]. by eapply searched_trans.
    - intros q [->|Hq]%elem_of_cons Huq; [|by apply Hall]. split; [by apply (sd_calls _ _ _ Hs'), (sd_calls _ _ _ Hs2)|].
      intros Hok'. apply (sd_walked _ _ _ Hs'). auto. }
  destruct (func p) eqn:Ef; [by destruct (Hexit p) | |].
  - assert ((depth <? 0) || (depth >? 0) = true) as -> by (destruct (Z.ltb_spec depth 0); [done | lia]).
    destruct (Hrec p (depth - 1) s1 (sd_ok _ _ _ Hs1) (mk_is_Some _ _ Ep) ltac:(lia) Hn) as (r & s2 & E & Hr & Hs2 & Hpw).
    rewrite (bind_eq _ _ _ _ _ E), bool_decide_false by done. apply Hgo; [|done|done]. by apply (searched_up u p).
  - apply Hgo; [by apply searched_refl, Hs1 | done | done].
Qed.

Lemma traverse_done fuel : rec_ok (traverse func fuel) fuel.
Proof.
  induction fuel as [|fuel IH]; intros u depth s Hok Hu Hd Hn; [lia|]. cbn [traverse]. erewrite bind_eq by reflexivity.
  pose proof Hu as [vu Eu]. unfold FindV. rewrite (to_graph s Hok u). unfold flagged. rewrite Eu. erewrite bind_eq by reflexivity.
  cbn [walked_ set_field]. case_bool_decide as Hw.
  { exists Ok, s. split_and!; [done | done | by apply searched_refl | done]. }
  rewrite (bind_eq _ _ _ tt (s <| tr_graph ::= alter (fun v => v <| walked_ := true |>) u |>)) by reflexivity.
  rewrite (bind_eq _ _ _ tt (walk u s)) by reflexivity. pose proof (walk_ok u s Hok Hu Hw) as Hok1.
  pose proof (unwalked_pos s u Hok Hu Hw) as Hlt.
  assert (unwalked (walk u s) < fuel)%nat as Hn1.
  { unfold unwalked, walk, set_field in *. cbn. rewrite length_app. cbn [length]. lia. }
  destruct (parents_searched (traverse func fuel) fuel u depth (parents_ vu) Ok (walk u s) vu IH Hd Eu) as (ret & s' & E & Hr & Hs & Hall);
    [by apply Forall_forall | done | done | done|].
  assert (u ∈ tr_walked s') as Hin by (apply (sd_walked _ _ _ Hs); unfold walk, set_field; cbn; apply elem_of_app; right; by left).
  exists ret, s'. split_and!; [exact E | done | | done]. destruct Hs as [A1 A2 A3 A4 A5]. split.
  - done.
  - intros x Hx. apply A2. unfold walk, set_field. cbn. apply elem_of_app. by left.
  - exact A3.
  - intros x Hx Hnx. destruct (decide (x = u)) as [->|Hne].
    + split; [|apply rtc_refl]. intros y Huy. apply Hall; [|done]. destruct Huy as (vx & Ex & Hy & _). congruence.
    + apply A4; [done|]. unfold walk, set_field. cbn. rewrite elem_of_app, list_elem_of_singleton. naive_solver.
  - exact A5.
Qed.

(** The flags are taken back. *)
Lemma unflag_done l s : (for_each l (set_walked false) s) =
  Done (tt, s <| tr_graph ::= fun h => foldl (fun h v => alter (fun vv => vv <| walked_ := false |>) v h) h l |>).
Proof.
  revert s. induction l as [|v l IH]; intros s; cbn [for_each foldl].
  { unfold set_field. by destruct s. }
  erewrite bind_eq by reflexivity. by rewrite IH.
Qed.

Lemma unflag_lookup l (h : Graph) x :
  foldl (fun h v => alter (fun vv => vv <| walked_ := false |>) v h) h l !! x =
    if bool_decide (x ∈ l) then (fun vv => vv <| walked_ := false |>) <$> h !! x else h !! x.
Proof.
  revert h. induction l as [|v l IH]; intros h; cbn [foldl].
  { by rewrite bool_decide_false by apply not_elem_of_nil. }
  rewrite IH. destruct (decide (x = v)) as [->|Hne].
  - rewrite (bool_decide_true (v ∈ v :: l)) by (by left). rewrite lookup_alter_eq. case_bool_decide; [|done]. by destruct (h !! v).
  - rewrite lookup_alter_ne by done. assert (x ∈ v :: l <-> x ∈ l) as Hiff by (rewrite elem_of_cons; naive_solver).
    by rewrite (bool_decide_ext _ _ Hiff).
Qed.

Lemma vertex_fresh x v : g !! x = Some v -> v <| walked_ := false |> = v.
Proof. intros E. specialize (Hfresh x v E). cbn in Hfresh. destruct v. cbn in *. by subst. Qed.

Lemma TraversePred_done v depth :
  is_Some (g !! v) -> depth < 0 ->
  exists ret s', TraversePred func v depth (mk_tr g [] []) = Done (ret, s') /\ tr_graph s' = g /\
    forall x, x ∈ tr_calls s' <-> exists y, rtc ok_edge v y /\ edge g y x.
Proof.
  intros Hv Hd. set (s0 := mk_tr g [] []). assert (tr_ok s0) as Hok.
  { split; cbn; [|constructor | intros x Hx; by apply not_elem_of_nil in Hx]. intros x. unfold flagged.
    destruct (g !! x) as [vx|] eqn:Ex; [|done]. cbn [fmap option_fmap option_map]. rewrite bool_decide_false by apply not_elem_of_nil. by rewrite (vertex_fresh x vx). }
  destruct (traverse_done (S (size g)) v depth s0 Hok Hv Hd) as (ret & s1 & E & _ & [A1 A2 A3 A4 A5] & Hin).
  { unfold unwalked. cbn. lia. }
  unfold TraversePred. erewrite bind_eq by reflexivity. pose proof Hv as [vv Ev]. unfold FindV. cbn [tr_graph s0]. rewrite Ev.
  erewrite bind_eq by reflexivity. rewrite (Hfresh v vv Ev). rewrite (bind_eq _ _ _ _ _ E). erewrite bind_eq by reflexivity.
  rewrite (bind_eq _ _ _ _ _ (unflag_done _ _)). eexists ret, _. split; [reflexivity|]. unfold set_field. cbn [tr_graph tr_calls]. split.
  - apply map_eq. intros x. rewrite unflag_lookup, (to_graph _ A1). unfold flagged. destruct (g !! x) as [vx|] eqn:Ex; [|by case_bool_decide].
    pose proof (vertex_fresh x vx Ex) as Hx. unfold set_field in Hx. destruct vx. cbn in Hx. simplify_eq.
    by case_bool_decide.
  - intros x. assert (forall y, rtc ok_edge v y -> y ∈ tr_walked s1) as Hall.
    { refine (rtc_ind_r _ _ _ _); [done|]. intros y z Hvy [Hyz Hz] Hy.
      destruct (A4 y Hy) as [Hcl _]; [apply not_elem_of_nil|]. by apply (Hcl z Hyz). }
    split.
    + intros Hx. destruct (A5 x Hx) as [Hx'|?]; [by apply not_elem_of_nil in Hx' | done].
    + intros (y & Hy & Hyx). destruct (A4 y (Hall y Hy)) as [Hcl _]; [apply not_elem_of_nil|]. by apply (Hcl x Hyx).
Qed.
End traverse.

(** A search of unbounded depth from a vertex, with a callback
    that never ends it, ends by itself; it calls the callback exactly on the parents of
    the vertices that can be reached by going on from one vertex to its parents where
    the callback says so; and it leaves the graph as it was, its flags included. *)
Theorem traverse_visits_ancestors (func : Z -> SearchHint) g v depth :
  (forall x, func x ≠ Exit) -> map_Forall (fun _ v => walked_ v = false) g -> is_Some (g !! v) -> depth < 0 ->
  exists ret s', TraversePred func v depth (mk_tr g [] []) = Done (ret, s') /\ tr_graph s' = g /\
    forall x, x ∈ tr_calls s' <-> exists y, rtc (ok_edge func g) v y /\ edge g y x.
Proof. intros H1 H2. by apply TraversePred_done. Qed.

Lemma traverse_visits_ancestors_witness :
  exists ret s', TraversePred (fun x => if x =? 3 then Skip else Ok) 4 (-1) (mk_tr demo_graph [] []) = Done (ret, s') /\
    tr_graph s' = demo_graph.
Proof.
  destruct (traverse_visits_ancestors (fun x => if x =? 3 then Skip else Ok) demo_graph 4 (-1)) as (ret & s' & E & H1 & _).
  - intros x. by destruct (x =? 3).
  - apply (bool_decide_unpack _). vm_compute. exact I.
  - apply (bool_decide_unpack _). vm_compute. exact I.
  - lia.
  - by exists ret, s'.
Defined.
