(* ===== verification/SlogTx.v ===== *)
(** * SLOG: executing the pieces of a transaction at a site
    (src/deptran/slog/tx.cc, src/deptran/slog/tx.h)

    [TxSlog] runs its pieces by the same loop as [TxChronos], with one difference:
    [DispatchExecute] records the pieces it has seen and skips a second one with the
    same number.  The theorem at the end relates the two classes.  The phases, the
    output batches and the store acknowledgements of [tx.h] belong to the handlers of
    an earlier version and are left out here. *)
From stdpp Require Import base tactics numbers list sorting sets.
From S2P Require Import Prelude OMap Command Config ChrTs ChrTypes ChrTx.

(** [reply_callback]: the default is [verify(0)]; the closure of [OnSubmitTxn], and
    the two of [OnSendBatch]. *)
Inductive ReplyCallback := RC_unassigned | RC_OnSubmitTxn | RC_replica_of_coord | RC_send_output.

Record TxSlog := mk_sx {
  sx_tid : Z;
  sx_is_local : bool;
  sx_executed : bool;
  sx_relevant : bool;
  sx_dreqs : list SimpleCommand;
  sx_root_type : Z;
  sx_par_output_received : omap Z bool;
  sx_pieces : list SimpleCommand;
  sx_n_local_pieces : Z;
  sx_n_executed_pieces : Z;
  sx_dist_output : option TxnOutput;
  sx_own_dist_output : bool;
  sx_exe_tried : bool;
  sx_recur_times : Z;
  sx_reply_callback : ReplyCallback;
  sx_coord_site : Z;
}.

#[export] Instance Eta_sx : Eta TxSlog :=
  fun r => mk_sx (sx_tid r) (sx_is_local r) (sx_executed r) (sx_relevant r) (sx_dreqs r) (sx_root_type r)
    (sx_par_output_received r) (sx_pieces r) (sx_n_local_pieces r) (sx_n_executed_pieces r)
    (sx_dist_output r) (sx_own_dist_output r) (sx_exe_tried r) (sx_recur_times r) (sx_reply_callback r)
    (sx_coord_site r).

(** [new TxSlog]: [n_local_pieces_] and [coord_site_] have no initialiser. *)
Definition new_TxSlog (junk_n_local_pieces junk_coord_site : Z) (tid : Z) : TxSlog := {|
  sx_tid := tid;
  sx_is_local := true;
  sx_executed := false;
  sx_relevant := false;
  sx_dreqs := [];
  sx_root_type := 0;
  sx_par_output_received := [];
  sx_pieces := [];
  sx_n_local_pieces := junk_n_local_pieces;
  sx_n_executed_pieces := 0;
  sx_dist_output := None;
  sx_own_dist_output := false;
  sx_exe_tried := false;
  sx_recur_times := 0;
  sx_reply_callback := RC_unassigned;
  sx_coord_site := junk_coord_site;
|}.

Section tx.
Context `{Registry} (cfg : Config).

Record SxSt := mk_sxst { sx : TxSlog; sx_db : Db }.
#[export] Instance Eta_sxst : Eta SxSt := fun r => mk_sxst (sx r) (sx_db r).

Definition sx_check_piece_conflict (pending_pie_id type_to_check : Z) : bool :=
  if benchmark_TPCC cfg then bool_decide ((pending_pie_id, type_to_check) ∈ conflicts_ cfg)
  else false.

Definition sx_can_exe_wo_conflict (to_check : Z) (pending_pieces : oset Z) : bool :=
  forallb (fun p => negb (sx_check_piece_conflict p to_check)) pending_pieces.

Definition sx_GetOutputsTargets (t : TxSlog) (out : omap Z Value) : oset Z :=
  match sx_pieces t with
  | [] => []
  | p0 :: _ =>
    foldl (fun ret pair =>
      match find pair.1 (waiting_var_par_map p0) with
      | Some targets => sinsert_range targets ret
      | None => ret
      end) [] out
  end.

(** One variable after the other is offered to the pieces that wait for it. *)
Definition sx_MergeCheckReadyPieces (out : omap Z Value) (t : TxSlog) : TxSlog * bool :=
  let '(ps, ret) := merge_output out (sx_pieces t) in (t <| sx_pieces := ps |>, ret).

(** Runs the handler of the piece [c] at index [i]. *)
Definition sx_handler (h : SimpleCommand -> Db -> TxnWorkspace * Db * omap Z Value) (i : nat)
    (c : SimpleCommand) : M SxSt (omap Z Value) :=
  state (fun s =>
    let '(ws, db, out) := h c (sx_db s) in
    (out, s <| sx_db := db |>
            <| sx ::= fun t => t <| sx_pieces ::= alter (fun c => c <| input := ws |>) i |> |>)).

Definition sx_push_dreq (c : SimpleCommand) : M SxSt () :=
  modify (fun s => s <| sx ::= fun t => t <| sx_dreqs ::= fun l => l ++ [c] |> |>).

Definition sx_DispatchExecute (i : nat) (c : SimpleCommand) : M SxSt (omap Z Value) :=
  modify (fun s => s <| sx ::= fun t => t <| sx_root_type := root_type_ c |> |>);;
  dreqs ← gets (fun s => sx_dreqs (sx s));
  if existsb (fun d => inn_id_ d =? inn_id_ c) dreqs then mret []
  else
    '(defer, txn_handler) ← from_option (reg_get c);
    match defer with
    | DF_REAL => sx_push_dreq c;; sx_handler txn_handler i c
    | DF_NO => sx_handler txn_handler i c
    | DF_FAKE => sx_push_dreq c;; mret []
    end.

(** The body of the loop over [pieces_] at index [i]. *)
Definition sx_exec_piece (my_par_id : Z) (pending_pieces : oset Z) (i : nat)
    (acc : omap Z (omap Z Value) * bool) : M SxSt (omap Z (omap Z Value) * bool) :=
  let '(ret, need_check) := acc in
  ps ← gets (fun s => sx_pieces (sx s));
  match ps !! i with
  | None => mret acc
  | Some c =>
    if negb (piece_input_ready_ (input c) =? 0) && negb (local_executed_ c)
       && sx_can_exe_wo_conflict (inn_id_ c) pending_pieces then
      piece_output ← sx_DispatchExecute i c;
      modify (fun s => s <| sx ::= fun t =>
        t <| sx_pieces ::= alter (fun c => c <| local_executed_ := true |>) i |>
          <| sx_n_executed_pieces ::= Z.add 1 |> |>);;
      targets ← gets (fun s => sx_GetOutputsTargets (sx s) piece_output);
      let ret := foldl (fun ret tar =>
        insert tar (insert_range piece_output (index [] tar ret).1) ret) ret targets in
      need_check ←
        (if smem my_par_id targets then
           state (fun s =>
             let '(t, has_more_ready) := sx_MergeCheckReadyPieces piece_output (sx s) in
             (need_check || has_more_ready, s <| sx := t |>))
         else mret need_check);
      out ← gets (fun s => sx_dist_output (sx s));
      out ← from_option out;
      modify (fun s => s <| sx ::= fun t =>
        t <| sx_dist_output := Some (insert (inn_id_ c) piece_output out) |> |>);;
      mret (ret, need_check)
    else mret acc
  end.

Fixpoint sx_exec_pass (my_par_id : Z) (pending_pieces : oset Z) (idxs : list nat)
    (acc : omap Z (omap Z Value) * bool) : M SxSt (omap Z (omap Z Value) * bool) :=
  match idxs with
  | [] => mret acc
  | i :: idxs =>
    acc ← sx_exec_piece my_par_id pending_pieces i acc;
    sx_exec_pass my_par_id pending_pieces idxs acc
  end.

(** [do { ... } while (need_check)] *)
Fixpoint sx_exec_loop (fuel : nat) (my_par_id : Z) (pending_pieces : oset Z)
    (ret : omap Z (omap Z Value)) : M SxSt (omap Z (omap Z Value)) :=
  match fuel with
  | O => out_of_fuel
  | S fuel =>
    n ← gets (fun s => length (sx_pieces (sx s)));
    '(ret, need_check) ← sx_exec_pass my_par_id pending_pieces (seq 0 n) (ret, false);
    if (need_check : bool) then sx_exec_loop fuel my_par_id pending_pieces ret else mret ret
  end.

Definition sx_RecursiveExecuteReadyPieces (my_par_id : Z) (pending_pieces : oset Z) :
    M SxSt (omap Z (omap Z Value) * oset Z) :=
  modify (fun s => s <| sx ::= fun t => t <| sx_exe_tried := true |> <| sx_recur_times ::= Z.add 1 |> |>);;
  n ← gets (fun s => length (sx_pieces (sx s)));
  ret ← sx_exec_loop (S n) my_par_id pending_pieces [];
  ps ← gets (fun s => sx_pieces (sx s));
  mret (ret, foldl (fun pending c =>
    if local_executed_ c then pending else sinsert (inn_id_ c) pending) pending_pieces ps).

(** ** The same run in [TxChronos] *)

(** What of a transaction the loop reads and writes, as a [TxChronos]. *)
Definition as_chronos (t : TxSlog) : TxChronos :=
  (new_TxChronos false 0 (sx_tid t))
    <| root_type := sx_root_type t |> <| pieces_ := sx_pieces t |>
    <| n_executed_pieces := sx_n_executed_pieces t |> <| dist_output_ := sx_dist_output t |>
    <| exe_tried_ := sx_exe_tried t |> <| recur_times_ := sx_recur_times t |>.
Definition chr (s : SxSt) : TxSt := mk_txst (as_chronos (sx s)) (sx_db s).

(** What the loop leaves alone. *)
Definition sx_frame (t : TxSlog) : TxSlog :=
  t <| sx_dreqs := [] |> <| sx_root_type := 0 |> <| sx_pieces := [] |> <| sx_n_executed_pieces := 0 |>
    <| sx_dist_output := None |> <| sx_exe_tried := false |> <| sx_recur_times := 0 |>.

(** Every piece has its own number, and only pieces that have run are recorded. *)
Record fresh_dreqs (t : TxSlog) : Prop := {
  fd_NoDup : NoDup (inn_id_ <$> sx_pieces t);
  fd_run : forall c, c ∈ sx_pieces t -> local_executed_ c = false ->
    existsb (fun d => inn_id_ d =? inn_id_ c) (sx_dreqs t) = false;
}.

(** [s'] is where a run from [s] with value [r] ends if [chr s] ends in [t]. *)
Definition simulates {A} (m : M SxSt A) (m' : M TxSt A) : Prop :=
  forall s, fresh_dreqs (sx s) ->
  match m' (chr s) with
  | Done (r, t) => exists s', m s = Done (r, s') /\ chr s' = t /\ fresh_dreqs (sx s') /\ sx_frame (sx s') = sx_frame (sx s)
  | Aborted => m s = Aborted
  | OutOfFuel => m s = OutOfFuel
  end.

Lemma fresh_dreqs_ran (t t' : TxSlog) i c :
  fresh_dreqs t -> sx_pieces t !! i = Some c ->
  inn_id_ <$> sx_pieces t' = inn_id_ <$> sx_pieces t ->
  flags (sx_pieces t') = <[i := true]> (flags (sx_pieces t)) ->
  sx_dreqs t' = sx_dreqs t \/ sx_dreqs t' = sx_dreqs t ++ [c] ->
  fresh_dreqs t'.
Proof.
  intros [Hnd Hrun] Hc Hids Hfl Hd. split; [by rewrite Hids|].
  intros c' [j Hj]%list_elem_of_lookup Hex.
  assert (j ≠ i) as Hne.
  { intros ->. apply (f_equal (lookup i)) in Hfl. unfold flags in Hfl.
    rewrite list_lookup_fmap, Hj, list_lookup_insert_eq in Hfl by (rewrite length_fmap; by eapply lookup_lt_Some).
    simpl in Hfl. congruence. }
  pose proof (f_equal (lookup j) Hids) as Hij. rewrite !list_lookup_fmap, Hj in Hij.
  destruct (sx_pieces t !! j) as [c0|] eqn:E0; [|done]. injection Hij as Hij.
  assert (local_executed_ c0 = false) as H0.
  { apply (f_equal (lookup j)) in Hfl. unfold flags in Hfl.
    rewrite list_lookup_insert_ne, !list_lookup_fmap, Hj, E0 in Hfl by done. simpl in Hfl. congruence. }
  assert (existsb (fun d => inn_id_ d =? inn_id_ c') (sx_dreqs t) = false) as Hold.
  { rewrite Hij. apply Hrun; [by apply list_elem_of_lookup_2 with j | done]. }
  destruct Hd as [-> | ->]; [done|]. rewrite existsb_app, Hold. cbn. rewrite orb_false_r.
  apply Z.eqb_neq. intros E. apply Hne. apply (NoDup_lookup _ _ _ (inn_id_ c') Hnd).
  - rewrite list_lookup_fmap, E0. cbn. by rewrite Hij.
  - rewrite list_lookup_fmap, Hc. cbn. by rewrite E.
Qed.

(** A piece that has not run is dispatched as in [TxChronos]. *)
Lemma dispatch_sim i c s :
  existsb (fun d => inn_id_ d =? inn_id_ c) (sx_dreqs (sx s)) = false ->
  match DispatchExecute i c (chr s) with
  | Done (out, t) => exists s', sx_DispatchExecute i c s = Done (out, s') /\ chr s' = t /\
      (sx_dreqs (sx s') = sx_dreqs (sx s) \/ sx_dreqs (sx s') = sx_dreqs (sx s) ++ [c]) /\
      sx_frame (sx s') = sx_frame (sx s)
  | Aborted => sx_DispatchExecute i c s = Aborted
  | OutOfFuel => sx_DispatchExecute i c s = OutOfFuel
  end.
Proof.
  intros Hd. unfold DispatchExecute, sx_DispatchExecute, mbind, M_bind. cbn [modify gets].
  assert (sx_dreqs (sx s <| sx ::= fun t => t <| sx_root_type := root_type_ c |> |>) = sx_dreqs (sx s)) as -> by done.
  rewrite Hd. destruct (reg_get c) as [[d h]|]; [|done]. cbn [from_option mret M_ret].
  destruct s as [t db]. destruct t. unfold sx_push_dreq, sx_handler, state, set_field. cbn.
  destruct d; cbn; [destruct (h c db) as [[ws db'] o]..|]; eexists; (split; [reflexivity|]); (split; [reflexivity|]);
    (split; [|reflexivity]); first [by left | by right].
Qed.

(** A piece runs as in [TxChronos]; if it runs, it may be recorded. *)
Lemma exec_piece_alike par pending i acc s :
  fresh_dreqs (sx s) ->
  match exec_piece cfg par pending i acc (chr s) with
  | Done (r, t) => exists s', sx_exec_piece par pending i acc s = Done (r, s') /\ chr s' = t /\
      sx_frame (sx s') = sx_frame (sx s) /\
      (s' = s \/ exists c, sx_pieces (sx s) !! i = Some c /\ ~ settled cfg pending c /\
        (sx_dreqs (sx s') = sx_dreqs (sx s) \/ sx_dreqs (sx s') = sx_dreqs (sx s) ++ [c]))
  | Aborted => sx_exec_piece par pending i acc s = Aborted
  | OutOfFuel => sx_exec_piece par pending i acc s = OutOfFuel
  end.
Proof.
  intros Hf. unfold exec_piece, sx_exec_piece. destruct acc as [ret nc]. unfold mbind, M_bind. cbn [gets].
  change (pieces_ (tx (chr s))) with (sx_pieces (sx s)).
  destruct (sx_pieces (sx s) !! i) as [c|] eqn:Ec; [|exists s; auto].
  change (sx_can_exe_wo_conflict) with (can_exe_wo_conflict cfg).
  destruct (negb (piece_input_ready_ (input c) =? 0) && _ && _) eqn:Eg; [|exists s; auto].
  apply andb_true_iff in Eg as [[Hready Hnot]%andb_true_iff Hcan]. apply negb_true_iff in Hready, Hnot.
  assert (~ settled cfg pending c) as Hset by (unfold settled; rewrite Hnot, Hcan; lia).
  pose proof (fd_run _ Hf c (list_elem_of_lookup_2 _ _ _ Ec) Hnot) as Hd.
  pose proof (dispatch_sim i c s Hd) as Hdisp.
  destruct (DispatchExecute i c (chr s)) as [[out t1]| |]; [|by rewrite Hdisp..].
  destruct Hdisp as (s1 & -> & <- & Hdq & <-). cbn [modify gets].
  destruct s1 as [t1 db1]. destruct t1. unfold MergeCheckReadyPieces, sx_MergeCheckReadyPieces, state, set_field. cbn in *.
  destruct (smem par _); [destruct (merge_output out _) as [ps more]|]; cbn; (destruct sx_dist_output0; [|done]);
    eexists; (split; [reflexivity|]); (split; [reflexivity|]); (split; [reflexivity|]); right; by exists c.
Qed.

Lemma exec_piece_sim par pending i acc :
  simulates (sx_exec_piece par pending i acc) (exec_piece cfg par pending i acc).
Proof.
  intros s Hf. pose proof (exec_piece_alike par pending i acc s Hf) as Hsim.
  destruct (exec_piece cfg par pending i acc (chr s)) as [[r t]| |] eqn:E; [|done..].
  destruct Hsim as (s' & Hrun & <- & Hfr & Hd). exists s'. split_and!; [done..| |done].
  destruct acc as [ret nc]. apply exec_piece_spec in E.
  destruct Hd as [->|(c & Hc & Hset & Hd)]; [done|].
  destruct E as [(_ & _ & Hs)|[]]; [by destruct (Hset (Hs c Hc))|]. by apply (fresh_dreqs_ran (sx s) _ i c).
Qed.

Lemma simulates_bind {A B} (m : M SxSt A) (m' : M TxSt A) (k : A -> M SxSt B) (k' : A -> M TxSt B) :
  simulates m m' -> (forall a, simulates (k a) (k' a)) -> simulates (m ≫= k) (m' ≫= k').
Proof.
  intros Hm Hk s Hs. specialize (Hm s Hs). unfold mbind, M_bind.
  destruct (m' (chr s)) as [[a t]| |]; [|by rewrite Hm..].
  destruct Hm as (s1 & -> & <- & Hs1 & Hf1). specialize (Hk a s1 Hs1).
  destruct (k' a (chr s1)) as [[b t]| |]; [|done..].
  destruct Hk as (s2 & Hk & Hc & Hs2 & Hf2). exists s2. split_and!; [done..|]. by rewrite Hf2.
Qed.

Lemma simulates_ret {A} (a : A) : simulates (mret a) (mret a).
Proof. intros s Hs. by exists s. Qed.

Lemma simulates_gets {A} (f : SxSt -> A) (f' : TxSt -> A) :
  (forall s, f s = f' (chr s)) -> simulates (gets f) (gets f').
Proof. intros Hff s Hs. exists s. by rewrite <- Hff. Qed.

Lemma exec_pass_sim par pending idxs acc :
  simulates (sx_exec_pass par pending idxs acc) (exec_pass cfg par pending idxs acc).
Proof.
  revert acc. induction idxs as [|i idxs IH]; intros acc; [apply simulates_ret|].
  apply simulates_bind; [apply exec_piece_sim | exact IH].
Qed.

Lemma exec_loop_sim fuel par pending ret :
  simulates (sx_exec_loop fuel par pending ret) (exec_loop cfg fuel par pending ret).
Proof.
  revert ret. induction fuel as [|fuel IH]; intros ret; [by intros s Hs|].
  apply simulates_bind; [by apply simulates_gets|]. intros n.
  apply simulates_bind; [apply exec_pass_sim|]. intros [ret' []]; [apply IH | apply simulates_ret].
Qed.

Lemma recursive_sim par pending :
  simulates (sx_RecursiveExecuteReadyPieces par pending) (RecursiveExecuteReadyPieces cfg par pending).
Proof.
  apply simulates_bind.
  { intros s [Hnd Hrun]. eexists. split; [reflexivity|]. split_and!; by destruct s as [[] ?]. }
  intros _. apply simulates_bind; [by apply simulates_gets|]. intros n.
  apply simulates_bind; [apply exec_loop_sim|]. intros ret.
  apply simulates_bind; [by apply simulates_gets|]. intros ps. apply simulates_ret.
Qed.
End tx.

(** C38: a transaction of SLOG whose pieces are registered and have
    their own numbers runs to the end; it leaves the pieces, the outputs, the counter
    and the pending set that DAST leaves for the same transaction, so every piece has
    run, or waits for an input, or conflicts with a pending piece; and it touches
    nothing else of the transaction. *)
Theorem slog_executes_like_dast `{Registry} cfg par pending (s : SxSt) :
  fresh_dreqs (sx s) -> is_Some (sx_dist_output (sx s)) -> Forall is_Some (reg_get <$> sx_pieces (sx s)) ->
  exists ret pending' s',
    sx_RecursiveExecuteReadyPieces cfg par pending s = Done ((ret, pending'), s') /\
    RecursiveExecuteReadyPieces cfg par pending (chr s) = Done ((ret, pending'), chr s') /\
    (forall c, c ∈ sx_pieces (sx s') -> settled cfg pending c) /\
    fresh_dreqs (sx s') /\ sx_frame (sx s') = sx_frame (sx s).
Proof.
  intros Hf Ho Hr. destruct (exec_total cfg par pending (chr s)) as (ret & p & t & E & []); [done|].
  pose proof (recursive_sim cfg par pending s Hf) as Hsim. rewrite E in Hsim.
  destruct Hsim as (s' & Hrun & <- & Hf' & Hfr). by exists ret, p, s'.
Qed.

(** Three pieces, the second of which waits for a value. *)
Definition sx_demo_reg : Registry :=
  {| Db := list Z; txn_reg_ := fun _ _ => Some (DF_REAL, fun c db => (input c, db ++ [inn_id_ c], [])) |}.
Definition sx_demo_piece (inn ready : Z) : SimpleCommand := mk_cmd inn 0 inn 100 0 (mk_ws [] [] [] ready) [] 0 0 0 [] false.
Definition sx_demo : SxSt (H := sx_demo_reg) :=
  @mk_sxst sx_demo_reg ((new_TxSlog 7 9 100) <| sx_pieces := [sx_demo_piece 1 1; sx_demo_piece 2 0; sx_demo_piece 3 1] |>
    <| sx_dist_output := Some [] |>) [].

Lemma slog_executes_like_dast_witness : exists ret pending' s',
  sx_RecursiveExecuteReadyPieces (uniform_config 3 1 2 false []) 0 [] sx_demo = Done ((ret, pending'), s') /\
  sx_db s' = [1; 3] /\ pending' = [2] /\
  (forall c, c ∈ sx_pieces (sx s') -> settled (uniform_config 3 1 2 false []) [] c).
Proof.
  destruct (slog_executes_like_dast (uniform_config 3 1 2 false []) 0 [] sx_demo) as (ret & p & s' & E & _ & Hs & _).
  - split; [vm_compute; repeat constructor; set_solver | intros c _ _; reflexivity].
  - vm_compute. by eexists.
  - vm_compute. repeat constructor; by eexists.
  - exists ret, p, s'. split; [exact E|]. vm_compute in E. injection E as <- <- <-. done.
Defined.
