(* ===== verification/SlogSched.v ===== *)
(** * SLOG: the scheduler of a site
    (src/deptran/slog/scheduler.cc, scheduler.h; the calls of src/deptran/slog/commo.cc)

    A coordinator hands a transaction of its region to the manager of the region, and any
    other transaction to the global log ([OnSubmitTxn]).  The manager sends numbered
    batches to every site of the region; a site puts them into its queue
    ([OnSendBatch]) and runs the queue in order ([ExecTxnQueue]), past transactions that
    still wait for values of other partitions ([OnSendDepValues]).  The coordinator
    answers its client when every partition has reported ([OnSendTxnOutput]).

    Each handler holds [mtx_] and is one atomic action.  The handlers of the replicated
    log ([OnInsertDistributed], [OnReplicateLocal], [OnSubmitDistributed],
    [OnSendBatchRemote], [CheckExecutableTxns] and what they call) have no caller left
    in the client and are not modelled; the list [txn_log_] that [OnSubmitTxn] still
    writes is. *)
From stdpp Require Import base tactics numbers list sorting gmap.
From S2P Require Import Prelude OMap Command Config ChrTs ChrTypes ChrTx SlogTx.

(** The pieces of a transaction by partition. *)
Abbreviation cmds_by_par := (omap Z (list SimpleCommand)).

(** What the parts of SLOG send to one another. *)
Inductive SlogMsg :=
  | SendRmIRT (manager_site : Z) (cmds : cmds_by_par) (handler_site : Z)
  | SlogRaftSubmit (cmds : cmds_by_par) (handler_site : Z)
  | RaftAppendEntries (proxy : nat) (cmds : cmds_by_par) (index : nat)
  | RmReplicate (backup_site : Z) (cmds : cmds_by_par) (handler_site : Z) (index : nat)
  | SlogSendOrderedCRT (manager_site : Z) (cmds : cmds_by_par) (index : nat) (handler_site : Z)
  | SlogSendBatch (target_site : Z) (start_index : nat) (cmds : list (Z * list SimpleCommand))
      (coord_sites : list (Z * Z))
  | SlogSendDepValues (target_site : Z) (req : ChronosSendOutputReq)
  | SlogSendTxnOutput (target_site : Z) (par_id txn_id : Z) (out : TxnOutput)
  | SlogReplyClient (txn_id : Z) (out : TxnOutput).

(** What a site runs in: the workload, the configuration, and the content of the fields
    that no constructor sets. *)
Class SlogEnv := {
  slog_reg :: Registry;
  slog_cfg : Config;
  slog_junk_n_local_pieces : Z;
  slog_junk_coord_site : Z;
  slog_junk_next_execute_index : Z;
}.

Section sched.
Context `{SlogEnv}.

Record SchedulerSlog := mk_ss {
  ss_site_id : Z;
  ss_partition_id : Z;
  ss_dtxns : gmap Z TxSlog;
  ss_txn_log : list Z;
  ss_txn_queue : list (option Z);
  ss_next_execute_index : Z;
  ss_pending_dep_values : list ChronosSendOutputReq;
  ss_db : Db;
  ss_sent : list SlogMsg;
}.

#[export] Instance Eta_ss : Eta SchedulerSlog :=
  fun r => mk_ss (ss_site_id r) (ss_partition_id r) (ss_dtxns r) (ss_txn_log r) (ss_txn_queue r)
    (ss_next_execute_index r) (ss_pending_dep_values r) (ss_db r) (ss_sent r).

Definition slog_max_pending_txns : Z := 5.

(** [next_execute_index_] has no initialiser. *)
Definition new_SchedulerSlog (site par : Z) (db : Db) : SchedulerSlog :=
  mk_ss site par ∅ [] [] slog_junk_next_execute_index [] db [].

(** ** Access *)

Definition new_sx (tid : Z) : TxSlog := new_TxSlog slog_junk_n_local_pieces slog_junk_coord_site tid.

Definition ss_send (m : SlogMsg) : M SchedulerSlog () := modify (fun s => s <| ss_sent ::= fun l => l ++ [m] |>).

Definition ss_set_txn (id : Z) (f : TxSlog -> TxSlog) : M SchedulerSlog () :=
  modify (fun s => s <| ss_dtxns ::= alter f id |>).

Definition ss_GetDTxn (tid : Z) : M SchedulerSlog (option TxSlog) := gets (fun s => ss_dtxns s !! tid).

Definition ss_CreateDTxn (tid : Z) : M SchedulerSlog () :=
  s ← get;
  verify (bool_decide (ss_dtxns s !! tid = None));;
  modify (fun s => s <| ss_dtxns ::= <[tid := new_sx tid]> |>).

Definition ss_GetOrCreateDTxn (tid : Z) : M SchedulerSlog () :=
  d ← ss_GetDTxn tid;
  match d with
  | None => ss_CreateDTxn tid
  | Some _ => mret ()
  end.

(** A method of the transaction [id] that uses the database. *)
Definition on_sx {A} (id : Z) (m : M SxSt A) : M SchedulerSlog A := fun s =>
  match ss_dtxns s !! id with
  | None => Aborted
  | Some t =>
    match m (mk_sxst t (ss_db s)) with
    | Done (a, s') => Done (a, s <| ss_dtxns ::= <[id := sx s']> |> <| ss_db := sx_db s' |>)
    | Aborted => Aborted
    | OutOfFuel => OutOfFuel
    end
  end.

(** ** Sending *)

Definition ss_sites (par : Z) : list Z :=
  match SitesByPartitionId slog_cfg par with Some sites => si_id <$> sites | None => [] end.

Definition SendDependentValues (target_par : Z) (req : ChronosSendOutputReq) : M SchedulerSlog () :=
  for_each (ss_sites target_par) (fun site => ss_send (SlogSendDepValues site req)).

(** [dtxn->reply_callback()] *)
Definition reply_callback (id : Z) : M SchedulerSlog () :=
  s ← get;
  t ← from_option (ss_dtxns s !! id);
  match sx_reply_callback t with
  | RC_unassigned => abort
  | RC_OnSubmitTxn =>
    if forallb snd (sx_par_output_received t) then
      out ← from_option (sx_dist_output t);
      ss_send (SlogReplyClient id out)
    else mret ()
  | RC_replica_of_coord => mret ()
  | RC_send_output =>
    out ← from_option (sx_dist_output t);
    when (negb (sx_n_local_pieces t =? 0) && negb (length out =? 0)%nat)
      (ss_send (SlogSendTxnOutput (sx_coord_site t) (ss_partition_id s) id out))
  end.

(** ** Execution *)

Definition TryExecute (id : Z) (pending_pieces : oset Z) (my_par_id : Z) :
    M SchedulerSlog (bool * omap Z (omap Z Value) * oset Z) :=
  '(dependent_vars, pending_pieces) ← on_sx id (sx_RecursiveExecuteReadyPieces slog_cfg my_par_id pending_pieces);
  s ← get;
  t ← from_option (ss_dtxns s !! id);
  if sx_n_local_pieces t =? sx_n_executed_pieces t then
    ss_set_txn id (fun t => t <| sx_executed := true |>);;
    out ← from_option (sx_dist_output t);
    when (negb (length out =? 0)%nat)
      (ss_set_txn id (fun t => t <| sx_par_output_received ::= insert my_par_id true |>));;
    reply_callback id;;
    mret (true, dependent_vars, pending_pieces)
  else mret (false, dependent_vars, pending_pieces).

Definition send_dependent_vars (id : Z) (dependent_vars : omap Z (omap Z Value)) : M SchedulerSlog () :=
  me ← gets ss_partition_id;
  for_each dependent_vars (fun pair =>
    when (negb (pair.1 =? me)) (SendDependentValues pair.1 (mk_SendOutputReq id pair.2))).

Definition next_execute : M SchedulerSlog () :=
  modify (fun s => s <| ss_next_execute_index ::= fun i => u64 (i + 1) |>).

(** The loop of [ExecTxnQueue] over the queue from the index to check on. *)
Fixpoint exec_queue (found_pending : Z) (pending_pieces : oset Z) (l : list (option Z)) : M SchedulerSlog () :=
  match l with
  | [] | None :: _ => mret ()
  | Some id :: l =>
    s ← get;
    t ← from_option (ss_dtxns s !! id);
    if sx_executed t then
      when (found_pending =? 0) next_execute;;
      exec_queue found_pending pending_pieces l
    else
      '(finished, dependent_vars, pending_pieces) ← TryExecute id pending_pieces (ss_partition_id s);
      send_dependent_vars id dependent_vars;;
      if (finished : bool) then
        when (found_pending =? 0) next_execute;;
        exec_queue found_pending pending_pieces l
      else
        let found_pending := found_pending + 1 in
        if found_pending >? slog_max_pending_txns then mret ()
        else exec_queue found_pending pending_pieces l
  end.

(** [txn_queue_] from [next_execute_index_] on. *)
Definition ExecTxnQueue : M SchedulerSlog () :=
  s ← get;
  exec_queue 0 [] (drop (Z.to_nat (ss_next_execute_index s)) (ss_txn_queue s)).

(** ** Values of other partitions *)

Definition ss_merge (id : Z) (var_values : omap Z Value) : M SchedulerSlog bool :=
  s ← get;
  t ← from_option (ss_dtxns s !! id);
  let '(t, more_to_run) := sx_MergeCheckReadyPieces var_values t in
  ss_set_txn id (fun _ => t);;
  mret more_to_run.

(** The loop of [CheckPendingDeps]: what is merged is erased. *)
Fixpoint check_deps (need_check : bool) (kept todo : list ChronosSendOutputReq) : M SchedulerSlog bool :=
  match todo with
  | [] => modify (fun s => s <| ss_pending_dep_values := kept |>);; mret need_check
  | req :: todo =>
    d ← ss_GetDTxn (so_txn_id req);
    match d with
    | Some _ =>
      more ← ss_merge (so_txn_id req) (so_var_values req);
      check_deps (more || need_check) kept todo
    | None => check_deps need_check (kept ++ [req]) todo
    end
  end.

Definition CheckPendingDeps : M SchedulerSlog () :=
  s ← get;
  need_check ← check_deps false [] (ss_pending_dep_values s);
  when need_check ExecTxnQueue.

Definition OnSendDepValues (req : ChronosSendOutputReq) : M SchedulerSlog () :=
  d ← ss_GetDTxn (so_txn_id req);
  match d with
  | None => modify (fun s => s <| ss_pending_dep_values ::= fun l => l ++ [req] |>)
  | Some _ =>
    more_to_run ← ss_merge (so_txn_id req) (so_var_values req);
    when more_to_run ExecTxnQueue
  end.

(** ** Outputs of other partitions *)

Definition OnSendTxnOutput (txn_id par_id : Z) (out : TxnOutput) : M SchedulerSlog () :=
  s ← get;
  t ← from_option (ss_dtxns s !! txn_id);
  received ← from_option (find par_id (sx_par_output_received t));
  when (negb received)
    (ss_set_txn txn_id (fun t => t <| sx_par_output_received ::= insert par_id true |>);;
     reply_callback txn_id).

(** ** Submission *)

(** [cmd_by_par.begin()->second.at(0).root_id_], after the two [verify]s *)
Definition first_root_id (cmds : cmds_by_par) : option Z :=
  match cmds with
  | (_, c :: _) :: _ => Some (root_id_ c)
  | _ => None
  end.

Definition slog_region (par : Z) : Z := par / n_shard_per_region_ slog_cfg.

(** [siteid_t] has 16 bits. *)
Definition manager_site_of (rid : Z) : Z := u16 (rid * n_shard_per_region_ slog_cfg * N_REP_PER_SHARD).

(** The fields that [OnSubmitTxn] sets. *)
Definition submitted (me site : Z) (cmds : cmds_by_par) (t : TxSlog) : TxSlog :=
  let t := t <| sx_is_local := true |> in
  let t := match find me cmds with
           | Some ps => t <| sx_relevant := true |> <| sx_pieces := ps |>
                          <| sx_n_local_pieces := Z.of_nat (length ps) |>
           | None => t <| sx_relevant := false |>
           end in
  t <| sx_coord_site := site |> <| sx_n_executed_pieces := 0 |> <| sx_dist_output := Some [] |>
    <| sx_par_output_received ::= fun m => foldl (fun m p => insert p false m) m cmds.*1 |>
    <| sx_reply_callback := RC_OnSubmitTxn |>.

Definition OnSubmitTxn (cmds : cmds_by_par) (is_irt : bool) : M SchedulerSlog () :=
  txn_id ← from_option (first_root_id cmds);
  ss_GetOrCreateDTxn txn_id;;
  modify (fun s => s <| ss_txn_log ::= fun l => l ++ [txn_id] |>);;
  s ← get;
  let me := ss_partition_id s in
  let site := ss_site_id s in
  ss_set_txn txn_id (submitted me site cmds);;
  if is_irt then ss_send (SendRmIRT (manager_site_of (slog_region me)) cmds site)
  else ss_send (SlogRaftSubmit cmds site).

(** ** Batches *)

(** [txn_queue_[i] = dtxn], after [verify(txn_queue_[i] == nullptr)] *)
Definition queue_put (i : nat) (id : Z) : M SchedulerSlog () :=
  s ← get;
  e ← from_option (ss_txn_queue s !! i);
  verify (bool_decide (e = None));;
  modify (fun s => s <| ss_txn_queue ::= <[i := Some id]> |>).

(** The fields that [OnSendBatch] sets on a transaction it has created. *)
Definition received (site coord : Z) (ps : list SimpleCommand) (t : TxSlog) : TxSlog :=
  t <| sx_relevant := true |> <| sx_pieces := ps |> <| sx_n_local_pieces := Z.of_nat (length ps) |>
    <| sx_n_executed_pieces := 0 |> <| sx_coord_site := coord |> <| sx_dist_output := Some [] |>
    <| sx_own_dist_output := true |>
    <| sx_reply_callback := if coord / N_REP_PER_SHARD =? site / N_REP_PER_SHARD
                            then RC_replica_of_coord else RC_send_output |>.

Definition put_txn (i : nat) (cmd : Z * list SimpleCommand) (coord : Z) : M SchedulerSlog () :=
  s ← get;
  let '(txn_id, ps) := cmd in
  match ss_dtxns s !! txn_id with
  | Some t =>
    verify (coord =? ss_site_id s);;
    verify (sx_coord_site t =? ss_site_id s);;
    queue_put i txn_id
  | None =>
    ss_CreateDTxn txn_id;;
    ss_set_txn txn_id (received (ss_site_id s) coord ps);;
    queue_put i txn_id
  end.

Fixpoint put_txns (i : nat) (cmds : list (Z * list SimpleCommand)) (coord_sites : list (Z * Z)) :
    M SchedulerSlog () :=
  match cmds with
  | [] => mret ()
  | cmd :: cmds =>
    c ← from_option (head coord_sites);
    put_txn i cmd c.2;;
    put_txns (S i) cmds (tail coord_sites)
  end.

Definition OnSendBatch (start_index : nat) (cmds : list (Z * list SimpleCommand)) (coord_sites : list (Z * Z)) :
    M SchedulerSlog () :=
  modify (fun s => s <| ss_txn_queue ::= fun q => q ++ replicate (start_index + length cmds - length q) None |>);;
  put_txns start_index cmds coord_sites;;
  ExecTxnQueue;;
  CheckPendingDeps.
End sched.
