(* ===== verification/SlogOrder.v ===== *)
(** * SLOG: the global log and the managers of the regions
    (src/deptran/slog/auxiliary_raft.cc, src/deptran/slog/manager.cc and their headers)

    The leader of the global log numbers the transactions that cross regions, waits for
    one backup, and sends them in order to the manager of every region, or a notice to
    skip the number.  A manager merges them into the log of its region, in their order,
    with the transactions of the region; when its backup has an entry it goes out to
    the sites of the region in numbered batches.  Each handler holds the mutex of its
    object. *)
From stdpp Require Import base tactics numbers list sorting gmap.
From S2P Require Import Prelude OMap Command Config ChrTs ChrTypes ChrTx SlogTx SlogSched.

(** ** The global log *)

Record raftEntry := mk_re { re_cmds : cmds_by_par; re_coord_site : Z; re_committed : bool; re_sent : bool }.
#[export] Instance Eta_re : Eta raftEntry := fun r => mk_re (re_cmds r) (re_coord_site r) (re_committed r) (re_sent r).

Record AuxiliaryRaft := mk_raft { ra_log : list raftEntry; ra_next_send_index : nat; ra_out : list SlogMsg }.
#[export] Instance Eta_raft : Eta AuxiliaryRaft := fun r => mk_raft (ra_log r) (ra_next_send_index r) (ra_out r).

Definition new_raft : AuxiliaryRaft := mk_raft [] 0 [].

(** ** The manager of a region *)

Record logEntry := mk_le { le_cmds : cmds_by_par; le_coord_site : Z; le_committed : bool }.
#[export] Instance Eta_le : Eta logEntry := fun r => mk_le (le_cmds r) (le_coord_site r) (le_committed r).

Record SlogRegionManager := mk_rm {
  rm_rid : Z;
  rm_partition_id : Z;
  rm_log : list logEntry;
  rm_next_commit_index : nat;
  rm_next_send_index : nat;
  rm_global_log : list (option logEntry);
  rm_global_next_insert_index : nat;
  rm_out : list SlogMsg;
}.
#[export] Instance Eta_rm : Eta SlogRegionManager :=
  fun r => mk_rm (rm_rid r) (rm_partition_id r) (rm_log r) (rm_next_commit_index r) (rm_next_send_index r)
    (rm_global_log r) (rm_global_next_insert_index r) (rm_out r).

Section order.
Context `{SlogEnv}.

Definition sites_per_region : Z := n_shard_per_region_ slog_cfg * N_REP_PER_SHARD.

(** The sites with a manager: the first two of every region. *)
Definition manager_sites : list Z :=
  filter (fun s => s mod sites_per_region = 0 \/ s mod sites_per_region = 1) (si_id <$> sites_ slog_cfg).

Definition ra_send (m : SlogMsg) : M AuxiliaryRaft () := modify (fun s => s <| ra_out ::= fun l => l ++ [m] |>).

(** [raft_proxies_.size()] is the number of processes that keep the global log. *)
Definition SlogRaftSubmit_handler (n_proxies : nat) (cmds : cmds_by_par) (handler_site : Z) : M AuxiliaryRaft () :=
  modify (fun s => s <| ra_log ::= fun l => l ++ [mk_re cmds handler_site false false] |>);;
  s ← get;
  let index := (length (ra_log s) - 1)%nat in
  for_each (seq 1 (n_proxies - 1)) (fun i => ra_send (RaftAppendEntries i cmds index)).

(** [cmds_by_region[rid]] *)
Definition cmds_of_region (rid : Z) (cmds : cmds_by_par) : cmds_by_par :=
  filter (fun p => slog_region p.1 = rid) cmds.

Definition SendToAllPars (log_index : nat) : M AuxiliaryRaft () :=
  s ← get;
  e ← from_option (ra_log s !! log_index);
  for_each manager_sites (fun target_site =>
    when (target_site mod sites_per_region =? 0)
      (ra_send (SlogSendOrderedCRT target_site (cmds_of_region (target_site / sites_per_region) (re_cmds e))
        log_index (re_coord_site e)))).

(** The loop of [RaftAppendAck], over the entries from [next_send_index_] on. *)
Fixpoint send_committed (fuel : nat) (i : nat) : M AuxiliaryRaft () :=
  match fuel with
  | O => mret ()
  | S fuel =>
    s ← get;
    match ra_log s !! i with
    | None => mret ()
    | Some e =>
      if re_committed e then
        verify (negb (re_sent e));;
        SendToAllPars i;;
        modify (fun s => s <| ra_log ::= alter (fun e => e <| re_sent := true |>) i |>
                           <| ra_next_send_index ::= S |>);;
        send_committed fuel (S i)
      else mret ()
    end
  end.

Definition RaftAppendAck (index : nat) : M AuxiliaryRaft () :=
  s ← get;
  e ← from_option (ra_log s !! index);
  when (negb (re_committed e))
    (modify (fun s => s <| ra_log ::= alter (fun e => e <| re_committed := true |>) index |>);;
     send_committed (length (ra_log s)) (ra_next_send_index s)).

(** At a backup. *)
Definition RaftAppendEntries_handler (cmds : cmds_by_par) : M AuxiliaryRaft () :=
  _ ← from_option (first_root_id cmds);
  modify (fun s => s <| ra_log ::= fun l => l ++ [mk_re cmds 0 false false] |>).

(** ** Operations of a manager *)

Definition rm_send (m : SlogMsg) : M SlogRegionManager () := modify (fun s => s <| rm_out ::= fun l => l ++ [m] |>).

Definition new_manager (site par : Z) : SlogRegionManager :=
  mk_rm (site / (N_REP_PER_SHARD * n_shard_per_region_ slog_cfg)) par [] 0 0 [] 0 [].

Definition InsertLocalLog (cmds : cmds_by_par) (handler_site : Z) : M SlogRegionManager () :=
  modify (fun s => s <| rm_log ::= fun l => l ++ [mk_le cmds handler_site false] |>);;
  s ← get;
  let index := (length (rm_log s) - 1)%nat in
  let rid := slog_region (rm_partition_id s) in
  rm_send (RmReplicate (u16 (rid * n_shard_per_region_ slog_cfg * N_REP_PER_SHARD + 1)) cmds handler_site index).

Definition SendRmIRT_handler (cmds : cmds_by_par) (handler_site : Z) : M SlogRegionManager () :=
  InsertLocalLog cmds handler_site.

(** At a backup; the entry keeps no coordinator. *)
Definition RmReplicate_handler (cmds : cmds_by_par) : M SlogRegionManager () :=
  modify (fun s => s <| rm_log ::= fun l => l ++ [mk_le cmds 0 false] |>).

(** The loop of [ReplicateACK]: [next_commit_index_] moves over committed entries. *)
Fixpoint count_committed (l : list logEntry) : nat :=
  match l with
  | [] => 0
  | e :: l => if le_committed e then S (count_committed l) else 0
  end.

Definition ReplicateACK (index : nat) : M SlogRegionManager () :=
  s ← get;
  verify (index <? length (rm_log s))%nat;;
  modify (fun s => s <| rm_log ::= alter (fun e => e <| le_committed := true |>) index |>);;
  modify (fun s => s <| rm_next_commit_index ::=
    fun n => (n + count_committed (drop n (rm_log s)))%nat |>).

(** What a batch says of one entry of the log, for one partition. *)
Definition batch_cmd (par : Z) (e : logEntry) : option (Z * list SimpleCommand) :=
  (fun id => (id, default [] (find par (le_cmds e)))) <$> first_root_id (le_cmds e).
Definition batch_coord (e : logEntry) : option (Z * Z) :=
  (fun id => (id, le_coord_site e)) <$> first_root_id (le_cmds e).

Definition send_batch (start_index : nat) (entries : list logEntry) (target_par : Z) : M SlogRegionManager () :=
  cmds ← from_option (mapM (batch_cmd target_par) entries);
  coord_sites ← from_option (mapM batch_coord entries);
  for_each (ss_sites target_par) (fun site => rm_send (SlogSendBatch site start_index cmds coord_sites)).

(** One round of [CheckAndSendBacth]. *)
Definition CheckAndSendBatch : M SlogRegionManager () :=
  s ← get;
  when (rm_next_send_index s <? rm_next_commit_index s)%nat
    (let n := n_shard_per_region_ slog_cfg in
     let entries := take (rm_next_commit_index s - rm_next_send_index s) (drop (rm_next_send_index s) (rm_log s)) in
     for_each ((fun k => rm_rid s * n + Z.of_nat k) <$> seq 0 (Z.to_nat n)) (send_batch (rm_next_send_index s) entries);;
     modify (fun s => s <| rm_next_send_index := rm_next_commit_index s |>)).

(** The loop of [SlogSendOrderedCRT] over the global log. *)
Fixpoint insert_ordered (l : list (option logEntry)) (i : nat) : M SlogRegionManager () :=
  match l with
  | [] | None :: _ => mret ()
  | Some e :: l =>
    when (negb (length (le_cmds e) =? 0)%nat) (InsertLocalLog (le_cmds e) (le_coord_site e));;
    modify (fun s => s <| rm_global_log ::= alter (fmap (fun e => e <| le_committed := true |>)) i |>
                       <| rm_global_next_insert_index ::= S |>);;
    insert_ordered l (S i)
  end.

Definition SlogSendOrderedCRT_handler (cmds : cmds_by_par) (index : nat) (handler_site : Z) : M SlogRegionManager () :=
  modify (fun s => s <| rm_global_log ::= fun l => l ++ replicate (S index - length l) None |>);;
  s ← get;
  e ← from_option (rm_global_log s !! index);
  verify (bool_decide (e = None));;
  modify (fun s => s <| rm_global_log ::= <[index := Some (mk_le cmds handler_site false)]> |>);;
  s ← get;
  insert_ordered (drop (rm_global_next_insert_index s) (rm_global_log s)) (rm_global_next_insert_index s).
End order.

(** ** SLOG: the sites, the managers and the global log together

    The parts of SLOG with the messages between them.  A message that has been sent may
    be delivered at any later time, once, in any order; a handler that fails a [verify]
    has no successor state.  [sy_origin] records, for every transaction that has been
    submitted, the manager it went to, or that it went to the global log; it is read by
    no handler. *)

(** A message on its way, with the manager that sent it where it is to be answered; and
    the answers of the backups. *)
Inductive packet :=
  | Pkt (src : Z) (m : SlogMsg)
  | RaftAck (index : nat)
  | RmAck (manager_site : Z) (index : nat).

Section system.
Context `{SlogEnv} (n_proxies : nat).

Record Sys := mk_sys {
  sy_raft : AuxiliaryRaft;
  sy_raft_backups : gmap nat AuxiliaryRaft;
  sy_mgrs : gmap Z SlogRegionManager;
  sy_sites : gmap Z SchedulerSlog;
  sy_net : list packet;
  sy_origin : gmap Z (option Z);
}.
#[export] Instance Eta_sys : Eta Sys :=
  fun r => mk_sys (sy_raft r) (sy_raft_backups r) (sy_mgrs r) (sy_sites r) (sy_net r) (sy_origin r).

Definition init_sys (db : Db) : Sys := {|
  sy_raft := new_raft;
  sy_raft_backups := list_to_map ((fun i => (i, new_raft)) <$> seq 1 (n_proxies - 1));
  sy_mgrs := list_to_map ((fun x => (si_id x, new_manager (si_id x) (si_partition_id_ x)))
    <$> filter (fun x => si_id x ∈ manager_sites) (sites_ slog_cfg));
  sy_sites := list_to_map ((fun x => (si_id x, new_SchedulerSlog (si_id x) (si_partition_id_ x) db)) <$> sites_ slog_cfg);
  sy_net := [];
  sy_origin := ∅;
|}.

(** ** Running a handler at one of the parts: what it sends goes on its way *)

Definition at_raft (m : M AuxiliaryRaft ()) (w : Sys) : option Sys :=
  match m ((sy_raft w) <| ra_out := [] |>) with
  | Done (_, r) => Some (w <| sy_raft := r |> <| sy_net ::= fun l => l ++ (Pkt 0 <$> ra_out r) |>)
  | _ => None
  end.

Definition at_raft_backup (i : nat) (m : M AuxiliaryRaft ()) (ack : packet) (w : Sys) : option Sys :=
  r ← sy_raft_backups w !! i;
  match m r with
  | Done (_, r) => Some (w <| sy_raft_backups ::= <[i := r]> |> <| sy_net ::= fun l => l ++ [ack] |>)
  | _ => None
  end.

Definition at_mgr (site : Z) (m : M SlogRegionManager ()) (acks : list packet) (w : Sys) : option Sys :=
  r ← sy_mgrs w !! site;
  match m (r <| rm_out := [] |>) with
  | Done (_, r) => Some (w <| sy_mgrs ::= <[site := r]> |> <| sy_net ::= fun l => (l ++ (Pkt site <$> rm_out r)) ++ acks |>)
  | _ => None
  end.

Definition at_site (site : Z) (m : M SchedulerSlog ()) (w : Sys) : option Sys :=
  r ← sy_sites w !! site;
  match m (r <| ss_sent := [] |>) with
  | Done (_, r) => Some (w <| sy_sites ::= <[site := r]> |> <| sy_net ::= fun l => l ++ (Pkt site <$> ss_sent r) |>)
  | _ => None
  end.

(** ** Steps *)

Definition deliver (p : packet) (w : Sys) : option Sys :=
  match p with
  | Pkt _ (SendRmIRT site cmds h) => at_mgr site (SendRmIRT_handler cmds h) [] w
  | Pkt _ (SlogRaftSubmit cmds h) => at_raft (SlogRaftSubmit_handler n_proxies cmds h) w
  | Pkt _ (RaftAppendEntries i cmds index) => at_raft_backup i (RaftAppendEntries_handler cmds) (RaftAck index) w
  | Pkt src (RmReplicate site cmds _ index) => at_mgr site (RmReplicate_handler cmds) [RmAck src index] w
  | Pkt _ (SlogSendOrderedCRT site cmds index h) => at_mgr site (SlogSendOrderedCRT_handler cmds index h) [] w
  | Pkt _ (SlogSendBatch site start cmds coords) => at_site site (OnSendBatch start cmds coords) w
  | Pkt _ (SlogSendDepValues site req) => at_site site (OnSendDepValues req) w
  | Pkt _ (SlogSendTxnOutput site par id out) => at_site site (OnSendTxnOutput id par out) w
  | Pkt _ (SlogReplyClient _ _) => Some w
  | RaftAck index => at_raft (RaftAppendAck index) w
  | RmAck site index => at_mgr site (ReplicateACK index) [] w
  end.

Inductive sys_event :=
  | EvSubmit (site : Z) (cmds : cmds_by_par) (is_irt : bool)
  | EvDeliver (k : nat)
  | EvBatch (site : Z).

(** A request of a client: a new identifier, which all pieces carry, and pieces for every
    partition it names. *)
Definition request_ok (id : Z) (cmds : cmds_by_par) : bool :=
  negb (length cmds =? 0)%nat &&
  forallb (fun p => negb (length p.2 =? 0)%nat && forallb (fun c => root_id_ c =? id) p.2) cmds.

(** The thread that sends the batches runs at the first manager of a region. *)
Definition leads_region (site : Z) : bool := site mod sites_per_region =? 0.

Definition sys_step (e : sys_event) (w : Sys) : option Sys :=
  match e with
  | EvSubmit site cmds is_irt =>
    id ← first_root_id cmds;
    r ← sy_sites w !! site;
    if request_ok id cmds && bool_decide (sy_origin w !! id = None) then
      at_site site (OnSubmitTxn cmds is_irt)
        (w <| sy_origin ::= <[id := if is_irt then Some (manager_site_of (slog_region (ss_partition_id r))) else None]> |>)
    else None
  | EvDeliver k =>
    p ← sy_net w !! k;
    deliver p (w <| sy_net ::= delete k |>)
  | EvBatch site => if leads_region site then at_mgr site CheckAndSendBatch [] w else None
  end.

Fixpoint sys_run (es : list sys_event) (w : Sys) : option Sys :=
  match es with
  | [] => Some w
  | e :: es => w ← sys_step e w; sys_run es w
  end.
End system.
