(* ===== verification/SlogSite.v ===== *)
(** * SLOG: what the handlers of a site do to its queue

    Only a batch changes the queue of a site, and only at empty places; every other
    handler, execution included, leaves the queue alone and sends nothing that the order
    of the transactions depends on. *)
From stdpp Require Import base tactics numbers list sorting gmap.
From S2P Require Import Prelude OMap Command Config ChrTs ChrTypes ChrTx SlogTx SlogSched.

Section calm.
Context `{SlogEnv}.

(** Messages that the order does not depend on. *)
Definition harmless (m : SlogMsg) : Prop :=
  match m with
  | SlogSendDepValues _ _ | SlogSendTxnOutput _ _ _ _ | SlogReplyClient _ _ => True
  | _ => False
  end.

(** The queue and the names of the site are these, and nothing of importance was sent. *)
Definition calm (q : list (option Z)) (a p : Z) (s : SchedulerSlog) : Prop :=
  ss_txn_queue s = q /\ ss_site_id s = a /\ ss_partition_id s = p /\ Forall harmless (ss_sent s).

Lemma calm_send q a p m : harmless m -> preserves (calm q a p) (ss_send m).
Proof.
  intros Hm. apply preserves_modify. intros s (Hq & Ha & Hp & Hs). split_and!; [done..|].
  unfold set_field. cbn. apply Forall_app. by repeat constructor.
Qed.

Lemma calm_set_txn q a p id f : preserves (calm q a p) (ss_set_txn id f).
Proof. by apply preserves_modify. Qed.

Lemma calm_on_sx {A} q a p id (m : M SxSt A) : preserves (calm q a p) (on_sx id m).
Proof.
  intros s r s' Hs E. unfold on_sx in E. destruct (ss_dtxns s !! id); [|done].
  destruct (m _) as [[b x]| |]; [|done..]. by injection E as <- <-.
Qed.
End calm.

#[export] Hint Resolve calm_set_txn calm_on_sx : preserves.
#[export] Hint Extern 2 (preserves (calm _ _ _) (ss_send _)) => apply calm_send; exact I : preserves.
#[export] Hint Extern 3 (preserves (calm _ _ _) (modify _)) => by apply preserves_modify : preserves.

Section site.
Context `{SlogEnv}.

Lemma calm_reply q a p id : preserves (calm q a p) (reply_callback id).
Proof. unfold reply_callback. solve_preserves. Qed.

Lemma calm_TryExecute q a p id pending par : preserves (calm q a p) (TryExecute id pending par).
Proof. unfold TryExecute. pose proof (calm_reply q a p id). solve_preserves. Qed.

Lemma calm_dependent q a p id vars : preserves (calm q a p) (send_dependent_vars id vars).
Proof. unfold send_dependent_vars, SendDependentValues. solve_preserves. Qed.

Lemma calm_exec_queue q a p n pending l : preserves (calm q a p) (exec_queue n pending l).
Proof.
  revert n pending. induction l as [|[id|] l IH]; intros n pending; cbn [exec_queue]; [apply preserves_ret| |apply preserves_ret].
  pose proof (calm_TryExecute q a p). pose proof (calm_dependent q a p).
  assert (preserves (calm q a p) next_execute) by (by apply preserves_modify).
  solve_preserves_with ltac:(first [apply IH | solve [eauto]]).
Qed.

Lemma calm_ExecTxnQueue q a p : preserves (calm q a p) ExecTxnQueue.
Proof. unfold ExecTxnQueue. pose proof (calm_exec_queue q a p). solve_preserves_with ltac:(solve [eauto]). Qed.

Lemma calm_merge q a p id vars : preserves (calm q a p) (ss_merge id vars).
Proof. unfold ss_merge. solve_preserves. Qed.

Lemma calm_check_deps q a p b kept todo : preserves (calm q a p) (check_deps b kept todo).
Proof.
  revert b kept. induction todo as [|r todo IH]; intros b kept; cbn [check_deps]; [solve_preserves|].
  pose proof (calm_merge q a p). unfold ss_GetDTxn. solve_preserves_with ltac:(first [apply IH | solve [eauto]]).
Qed.

Lemma calm_CheckPendingDeps q a p : preserves (calm q a p) CheckPendingDeps.
Proof.
  unfold CheckPendingDeps. pose proof (calm_check_deps q a p). pose proof (calm_ExecTxnQueue q a p).
  solve_preserves_with ltac:(solve [eauto]).
Qed.

Lemma calm_OnSendDepValues q a p req : preserves (calm q a p) (OnSendDepValues req).
Proof.
  unfold OnSendDepValues, ss_GetDTxn. pose proof (calm_merge q a p). pose proof (calm_ExecTxnQueue q a p).
  solve_preserves_with ltac:(solve [eauto]).
Qed.

Lemma calm_OnSendTxnOutput q a p id par out : preserves (calm q a p) (OnSendTxnOutput id par out).
Proof. unfold OnSendTxnOutput. pose proof (calm_reply q a p). solve_preserves_with ltac:(solve [eauto]). Qed.

(** The queue after a batch has been put in from position [i] on. *)
Fixpoint put_ids (i : nat) (ids : list Z) (q : list (option Z)) : list (option Z) :=
  match ids with
  | [] => q
  | id :: ids => put_ids (S i) ids (<[i := Some id]> q)
  end.

Lemma put_ids_length i ids q : length (put_ids i ids q) = length q.
Proof. revert i q. induction ids as [|id ids IH]; intros i q; cbn; [done|]. by rewrite IH, length_insert. Qed.

Lemma put_ids_before i ids q k : (k < i)%nat -> put_ids i ids q !! k = q !! k.
Proof.
  revert i q. induction ids as [|id ids IH]; intros i q Hk; cbn; [done|].
  rewrite IH by lia. by rewrite list_lookup_insert_ne by lia.
Qed.

Lemma put_ids_lookup i ids q k id :
  put_ids i ids q !! k = Some (Some id) <->
  ((exists j, k = (i + j)%nat /\ ids !! j = Some id /\ (k < length q)%nat) \/
   q !! k = Some (Some id) /\ ((k < i)%nat \/ (i + length ids <= k)%nat)).
Proof.
  revert i q. induction ids as [|x ids IH]; intros i q; cbn [put_ids length].
  { split; [|by intros [(j & _ & ? & _)|[]]]. intros E. right. split; [done|lia]. }
  rewrite IH, length_insert. destruct (decide (k = i)) as [->|Hne].
  - split.
    + intros [(j & ? & _)|[E _]]; [lia|]. left. exists 0%nat. rewrite Nat.add_0_r.
      apply list_lookup_insert_Some in E as [(_ & [= ->] & ?)|[? _]]; [auto|done].
    + intros [(j & Ej & Ex & Hl)|[_ ?]]; [|lia]. right. split; [|lia].
      assert (j = 0)%nat as -> by lia. injection Ex as ->. by apply list_lookup_insert_eq.
  - rewrite list_lookup_insert_ne by done. split.
    + intros [(j & -> & Ex & Hl)|[E Hk]]; [left; exists (S j); split; [lia|done] | right; split; [done|lia]].
    + intros [([|j] & Ej & Ex & Hl)|[E Hk]]; [lia|left; exists j; split; [lia|done] | right; split; [done|lia]].
Qed.

Lemma queue_put_done i id s s' q a p :
  calm q a p s -> queue_put i id s = Done (tt, s') -> q !! i = Some None /\ calm (<[i := Some id]> q) a p s'.
Proof.
  intros (Hq & Ha & Hp & Hs) Hrun. unfold queue_put in Hrun.
  apply bind_done in Hrun as (s0 & s1 & [= <- <-] & Hrun). apply bind_done in Hrun as (e & s1 & He & Hrun).
  rewrite Hq in He. destruct (q !! i) as [e'|] eqn:Ei; [|done]. injection He as -> <-.
  apply bind_done in Hrun as ([] & s1 & Hv & Hrun). unfold verify in Hv.
  destruct (bool_decide (e = None)) eqn:Ee; [|done]. apply bool_decide_eq_true in Ee as ->. injection Hv as <-.
  injection Hrun as <-. split; [done|]. split_and!; try done. unfold set_field. cbn. by rewrite Hq.
Qed.

Lemma put_txn_done i cmd coord s s' q a p :
  calm q a p s -> put_txn i cmd coord s = Done (tt, s') -> q !! i = Some None /\ calm (<[i := Some cmd.1]> q) a p s'.
Proof.
  intros Hc Hrun. unfold put_txn in Hrun. apply bind_done in Hrun as (s0 & s1 & [= <- <-] & Hrun).
  destruct cmd as [id ps]. destruct (ss_dtxns s !! id) as [t|].
  - apply bind_done in Hrun as (u1 & s1 & H1 & Hrun). pose proof (preserves_verify _ (calm q a p) _ _ _ Hc H1) as Hc1.
    apply bind_done in Hrun as (u2 & s2 & H2 & Hrun). pose proof (preserves_verify _ (calm q a p) _ _ _ Hc1 H2) as Hc2.
    by apply (queue_put_done i id s2).
  - apply bind_done in Hrun as (u1 & s1 & H1 & Hrun).
    assert (calm q a p s1) as Hc1.
    { revert H1. assert (preserves (calm q a p) (ss_CreateDTxn id)) as Hp; [|intros H1; exact (Hp _ _ _ Hc H1)].
      unfold ss_CreateDTxn. solve_preserves. }
    apply bind_done in Hrun as (u2 & s2 & H2 & Hrun). pose proof (calm_set_txn q a p _ _ _ _ _ Hc1 H2) as Hc2.
    by apply (queue_put_done i id s2).
Qed.

Lemma put_txns_done i cmds coords s s' q a p :
  calm q a p s -> put_txns i cmds coords s = Done (tt, s') ->
  calm (put_ids i cmds.*1 q) a p s' /\ forall j, (j < length cmds)%nat -> q !! (i + j)%nat = Some None.
Proof.
  revert i coords s q. induction cmds as [|c cmds IH]; intros i coords s q Hc Hrun; cbn [put_txns] in Hrun.
  { injection Hrun as <-. split; [done|]. cbn. lia. }
  apply bind_done in Hrun as (co & s1 & Hco & Hrun). destruct (head coords) as [co'|]; [|done]. injection Hco as -> <-.
  apply bind_done in Hrun as ([] & s1 & H1 & Hrun). apply (put_txn_done _ _ _ _ _ q a p) in H1 as [Hi Hc1]; [|done].
  apply IH with (q := <[i := Some c.1]> q) in Hrun as [Hc2 Hj]; [|done]. split; [done|].
  intros [|j] Hlt; cbn in Hlt; [by rewrite Nat.add_0_r|]. specialize (Hj j ltac:(lia)).
  rewrite list_lookup_insert_ne in Hj by lia. rewrite <- Hj. f_equal. lia.
Qed.

(** The queue of a site before and after a batch. *)
Definition grown (n : nat) (q : list (option Z)) : list (option Z) := q ++ replicate (n - length q) None.

Lemma OnSendBatch_done start cmds coords s s' q a p :
  calm q a p s -> OnSendBatch start cmds coords s = Done (tt, s') ->
  calm (put_ids start cmds.*1 (grown (start + length cmds) q)) a p s' /\
  forall j, (j < length cmds)%nat -> grown (start + length cmds) q !! (start + j)%nat = Some None.
Proof.
  intros Hc Hrun. unfold OnSendBatch in Hrun.
  apply bind_done in Hrun as ([] & s1 & [= <-] & Hrun).
  apply bind_done in Hrun as ([] & s2 & H2 & Hrun).
  apply (put_txns_done _ _ _ _ _ (grown (start + length cmds) q) a p) in H2 as [Hc2 Hj].
  2: { destruct Hc as (Hq & Ha & Hp & Hs). split_and!; [|done..]. unfold set_field. cbn. by rewrite Hq. }
  split; [|done]. apply bind_done in Hrun as ([] & s3 & H3 & Hrun).
  pose proof (calm_ExecTxnQueue _ a p _ _ _ Hc2 H3) as Hc3. exact (calm_CheckPendingDeps _ a p _ _ _ Hc3 Hrun).
Qed.

Lemma OnSubmitTxn_done cmds is_irt s s' :
  OnSubmitTxn cmds is_irt s = Done (tt, s') ->
  ss_txn_queue s' = ss_txn_queue s /\ ss_site_id s' = ss_site_id s /\ ss_partition_id s' = ss_partition_id s /\
  ss_sent s' = ss_sent s ++ [if is_irt then SendRmIRT (manager_site_of (slog_region (ss_partition_id s))) cmds (ss_site_id s)
                             else SlogRaftSubmit cmds (ss_site_id s)].
Proof.
  intros Hrun. unfold OnSubmitTxn in Hrun. apply bind_done in Hrun as (id & s0 & Hid & Hrun).
  destruct (first_root_id cmds) as [id'|]; [|done]. injection Hid as -> <-.
  apply bind_done in Hrun as ([] & s1 & H1 & Hrun).
  assert (exists d, s1 = s <| ss_dtxns := d |>) as [d ->].
  { unfold ss_GetOrCreateDTxn in H1. apply bind_done in H1 as (o & s0 & [= <- <-] & H1).
    destruct (ss_dtxns s !! id) eqn:E; [injection H1 as <-; exists (ss_dtxns s); by destruct s|].
    unfold ss_CreateDTxn in H1. apply bind_done in H1 as (s0 & s2 & [= <- <-] & H1).
    rewrite E in H1. apply bind_done in H1 as ([] & s2 & Hv & H1). injection Hv as <-. injection H1 as <-. by eexists. }
  apply bind_done in Hrun as ([] & s2 & [= <-] & Hrun). apply bind_done in Hrun as (s2 & s3 & [= <- <-] & Hrun).
  apply bind_done in Hrun as ([] & s2 & [= <-] & Hrun). destruct is_irt; by injection Hrun as <-.
Qed.
End site.
