(* ===== verification/SlogTotal.v ===== *)
(** * SLOG: every site executes in one order

    The invariant of the system of SlogOrder.v and its main consequence: two transactions
    that are in the queues of two sites, of whatever regions, are in the same order in
    both queues. *)
From stdpp Require Import base tactics numbers list sorting gmap.
From S2P Require Import Prelude OMap Command Config ChrTs ChrTypes ChrTx SlogTx SlogSched SlogOrder SlogSite.

(** ** The layout: replicas in a row, no identifier out of range *)
Section total.
Context `{SlogEnv} (n_proxies : nat).

Record slog_layout : Prop := {
  ly_shards : 0 < n_shard_per_region_ slog_cfg;
  ly_site : forall x, x ∈ sites_ slog_cfg -> 0 <= si_id x < 65535 /\ si_partition_id_ x = si_id x / N_REP_PER_SHARD;
  ly_par : forall par site, site ∈ ss_sites par -> par = site / N_REP_PER_SHARD;
}.

(** The region of a site, and the site of its manager. *)
Definition region_of (a : Z) : Z := a / sites_per_region.
Definition leader_of (a : Z) : Z := region_of a * sites_per_region.

(** ** What the logs hold, without the flags *)
Abbreviation item := (cmds_by_par * Z)%type.
Definition re_item (e : raftEntry) : item := (re_cmds e, re_coord_site e).
Definition le_item (e : logEntry) : item := (le_cmds e, le_coord_site e).
Definition ids (l : list item) : list (option Z) := (fun x => first_root_id x.1) <$> l.

Definition global (w : Sys) : list item := re_item <$> ra_log (sy_raft w).
Definition local (w : Sys) (m : Z) : list item :=
  match sy_mgrs w !! m with Some r => le_item <$> rm_log r | None => [] end.

(** What the region [rid] has to do of an entry of the global log. *)
Definition part (rid : Z) (x : item) : item := (cmds_of_region rid x.1, x.2).

(** The log of the manager [m] merges the transactions of its region with its parts of the
    first [n] entries of the global log [g], in the order of [g]. *)
Inductive merged (g : list item) (org : gmap Z (option Z)) (m : Z) : nat -> list item -> Prop :=
  | merged_nil : merged g org m 0 []
  | merged_irt n l x id : merged g org m n l -> first_root_id x.1 = Some id -> org !! id = Some (Some m) ->
      merged g org m n (l ++ [x])
  | merged_crt n l x : merged g org m n l -> g !! n = Some x -> (part (region_of m) x).1 ≠ [] ->
      merged g org m (S n) (l ++ [part (region_of m) x])
  | merged_skip n l x : merged g org m n l -> g !! n = Some x -> (part (region_of m) x).1 = [] ->
      merged g org m (S n) l.

(** A request that asks for the identifier [id], which went to [o]. *)
Definition asks (org : gmap Z (option Z)) (o : option Z) (c : cmds_by_par) : Prop :=
  exists id, first_root_id c = Some id /\ request_ok id c = true /\ org !! id = Some o.

Definition pkt_ok (w : Sys) (p : packet) : Prop :=
  match p with
  | Pkt _ (SendRmIRT m c _) => asks (sy_origin w) (Some m) c
  | Pkt _ (SlogRaftSubmit c _) => asks (sy_origin w) None c
  | Pkt _ (RmReplicate b _ _ _) => leads_region b = false
  | Pkt _ (SlogSendOrderedCRT m c i h) => exists x, global w !! i = Some x /\ (c, h) = part (region_of m) x
  | Pkt _ (SlogSendBatch a start cmds _) =>
    forall j id, cmds.*1 !! j = Some id -> ids (local w (leader_of a)) !! (start + j)%nat = Some (Some id)
  | _ => True
  end.

(** The transactions on their way to the global log, and to the manager [m]. *)
Definition to_global (p : packet) : option (option Z) :=
  match p with Pkt _ (SlogRaftSubmit c _) => Some (first_root_id c) | _ => None end.
Definition to_manager (m : Z) (p : packet) : option (option Z) :=
  match p with Pkt _ (SendRmIRT m' c _) => if m' =? m then Some (first_root_id c) else None | _ => None end.

Record sys_inv (w : Sys) : Prop := {
  sv_global : Forall (fun x => asks (sy_origin w) None x.1) (global w);
  sv_global_once : NoDup (base.omap to_global (sy_net w) ++ ids (global w));
  sv_ordered : forall m r i e, sy_mgrs w !! m = Some r -> rm_global_log r !! i = Some (Some e) ->
    exists x, global w !! i = Some x /\ le_item e = part (region_of m) x;
  sv_merged : forall m r, sy_mgrs w !! m = Some r -> leads_region m = true ->
    merged (global w) (sy_origin w) m (rm_global_next_insert_index r) (local w m);
  sv_local_once : forall m, leads_region m = true -> NoDup (base.omap (to_manager m) (sy_net w) ++ ids (local w m));
  sv_net : Forall (pkt_ok w) (sy_net w);
  sv_queue : forall a r i id, sy_sites w !! a = Some r -> ss_txn_queue r !! i = Some (Some id) ->
    ids (local w (leader_of a)) !! i = Some (Some id);
  sv_site : forall a r, sy_sites w !! a = Some r -> ss_site_id r = a /\ 0 <= a < 65535 /\ ss_partition_id r = a / N_REP_PER_SHARD;
  sv_mgr : forall m r, sy_mgrs w !! m = Some r -> rm_rid r = region_of m /\ 0 <= m < 65535 /\ rm_partition_id r = m / N_REP_PER_SHARD;
}.

(** ** Logs only grow *)

Record grows (w w' : Sys) : Prop := {
  gr_global : global w `prefix_of` global w';
  gr_local : forall m, leads_region m = true -> local w m `prefix_of` local w' m;
  gr_origin : sy_origin w ⊆ sy_origin w';
}.

Lemma asks_mono org org' o c : org ⊆ org' -> asks org o c -> asks org' o c.
Proof. intros Hsub (id & H1 & H2 & H3). exists id. split_and!; [done..|]. by eapply lookup_weaken. Qed.

Lemma merged_mono g g' org org' m n l :
  g `prefix_of` g' -> org ⊆ org' -> merged g org m n l -> merged g' org' m n l.
Proof.
  intros Hg Ho. induction 1 as [|n l x id _ IH Hx Hid|n l x _ IH Hx Hp|n l x _ IH Hx Hp].
  - constructor.
  - eapply merged_irt; [done..|]. by eapply lookup_weaken.
  - apply merged_crt; [done| |done]. by eapply prefix_lookup_Some.
  - eapply merged_skip; [done| |done]. by eapply prefix_lookup_Some.
Qed.

Lemma ids_prefix l l' i id : l `prefix_of` l' -> ids l !! i = Some id -> ids l' !! i = Some id.
Proof. intros [k ->]. unfold ids. rewrite fmap_app. apply lookup_app_l_Some. Qed.

Context (Hly : slog_layout).

Lemma spr_pos : 0 < sites_per_region.
Proof. unfold sites_per_region, N_REP_PER_SHARD. pose proof (ly_shards Hly). lia. Qed.

Lemma leader_leads a : leads_region (leader_of a) = true.
Proof. unfold leads_region, leader_of. pose proof spr_pos. rewrite Z.mod_mul by lia. done. Qed.

Lemma pkt_ok_mono w w' p : grows w w' -> pkt_ok w p -> pkt_ok w' p.
Proof.
  intros [G1 G2 G3]. destruct p as [src []| |]; cbn; try done.
  - by apply asks_mono.
  - by apply asks_mono.
  - intros (x & Hx & E). exists x. split; [|done]. by eapply prefix_lookup_Some.
  - intros Hb j id Hj. eapply ids_prefix; [apply G2, leader_leads|by apply Hb].
Qed.

(** ** Messages *)

(** A packet that carries no transaction to a log. *)
Definition quiet (p : packet) : Prop := to_global p = None /\ forall m, to_manager m p = None.

Lemma omap_quiet l : Forall quiet l -> base.omap to_global l = [] /\ forall m, base.omap (to_manager m) l = [].
Proof.
  induction 1 as [|p l [H1 H2] _ [IH1 IH2]]; [done|]. cbn. rewrite H1, IH1. split; [done|].
  intros m. by rewrite (H2 m), (IH2 m).
Qed.

Definition sends (l : list packet) (w : Sys) : Sys := w <| sy_net ::= fun n => n ++ l |>.

Lemma inv_sends w l : sys_inv w -> Forall quiet l -> Forall (pkt_ok w) l -> sys_inv (sends l w).
Proof.
  intros [] Hq Hl. apply omap_quiet in Hq as [Q1 Q2]. split; try done.
  - unfold sends, set_field. cbn. rewrite omap_app, Q1, app_nil_r. done.
  - intros m Hm. unfold sends, set_field. cbn. rewrite omap_app, Q2, app_nil_r. by apply sv_local_once0.
  - unfold sends, set_field. cbn. apply Forall_app. split; [exact sv_net0 | exact Hl].
Qed.

(** Taking a packet off. *)
Definition taken (k : nat) (w : Sys) : Sys := w <| sy_net ::= delete k |>.

Lemma omap_delete {A B} (f : A -> option B) (l : list A) k x :
  l !! k = Some x -> base.omap f l ≡ₚ option_list (f x) ++ base.omap f (delete k l).
Proof.
  intros Hk. rewrite <- (take_drop_middle l k x Hk) at 1. rewrite omap_app. cbn [base.omap list_omap].
  rewrite delete_take_drop, omap_app. destruct (f x); cbn; [|done]. by rewrite Permutation_middle.
Qed.

(** What is known of a packet that has been taken off: its content, and that the
    transaction it carries is nowhere else. *)
Record carried (p : packet) (w : Sys) : Prop := {
  ca_ok : pkt_ok w p;
  ca_global : NoDup (option_list (to_global p) ++ base.omap to_global (sy_net w) ++ ids (global w));
  ca_local : forall m, leads_region m = true ->
    NoDup (option_list (to_manager m p) ++ base.omap (to_manager m) (sy_net w) ++ ids (local w m));
}.

Lemma inv_taken w k p : sys_inv w -> sy_net w !! k = Some p -> sys_inv (taken k w) /\ carried p (taken k w).
Proof.
  intros [] Hk.
  assert (NoDup (option_list (to_global p) ++ base.omap to_global (delete k (sy_net w)) ++ ids (global w))) as H1.
  { rewrite app_assoc, <- (omap_delete to_global _ _ _ Hk). done. }
  assert (forall m, leads_region m = true -> NoDup (option_list (to_manager m p) ++ base.omap (to_manager m) (delete k (sy_net w)) ++ ids (local w m))) as H2.
  { intros m Hm. rewrite app_assoc, <- (omap_delete (to_manager m) _ _ _ Hk). by apply sv_local_once0. }
  split; split; try done.
  - by apply NoDup_app in H1 as (_ & _ & H1).
  - intros m Hm. by apply H2, NoDup_app in Hm as (_ & _ & Hm).
  - unfold taken, set_field. cbn. by apply Forall_delete.
  - rewrite Forall_forall in sv_net0. by apply sv_net0, list_elem_of_lookup_2 with k.
Qed.

(** ** One part changes *)

Lemma inv_site w a r r' :
  sys_inv w -> sy_sites w !! a = Some r -> ss_site_id r' = ss_site_id r -> ss_partition_id r' = ss_partition_id r ->
  (forall i id, ss_txn_queue r' !! i = Some (Some id) -> ids (local w (leader_of a)) !! i = Some (Some id)) ->
  sys_inv (w <| sy_sites ::= <[a := r']> |>).
Proof.
  intros [] Ha E1 E2 Hq. split; try done.
  - intros b rb i id. unfold set_field. cbn. intros Hb. apply lookup_insert_Some in Hb as [[<- <-]|[_ Hb]]; [apply Hq | by eapply sv_queue0].
  - intros b rb. unfold set_field. cbn. intros Hb. apply lookup_insert_Some in Hb as [[<- <-]|[_ Hb]]; [|by apply sv_site0].
    rewrite E1, E2. by apply sv_site0.
Qed.

Lemma inv_raft_same w r' : sys_inv w -> re_item <$> ra_log r' = global w -> sys_inv (w <| sy_raft := r' |>).
Proof.
  intros [] E. set (w' := w <| sy_raft := r' |>). assert (global w' = global w) as Eg by exact E.
  split; rewrite ?Eg.
  - exact sv_global0.
  - exact sv_global_once0.
  - exact sv_ordered0.
  - exact sv_merged0.
  - exact sv_local_once0.
  - eapply Forall_impl; [exact sv_net0|]. intros p. apply pkt_ok_mono. split; [by rewrite Eg|done|done].
  - exact sv_queue0.
  - exact sv_site0.
  - exact sv_mgr0.
Qed.

Lemma inv_raft_app w r' x :
  sys_inv w -> re_item <$> ra_log r' = global w ++ [x] -> asks (sy_origin w) None x.1 ->
  NoDup (first_root_id x.1 :: base.omap to_global (sy_net w) ++ ids (global w)) ->
  sys_inv (w <| sy_raft := r' |>).
Proof.
  intros [] E Hx Hnd. set (w' := w <| sy_raft := r' |>). assert (global w' = global w ++ [x]) as Eg by exact E.
  assert (global w `prefix_of` global w ++ [x]) as Hpre by (by apply prefix_app_r).
  split; rewrite ?Eg.
  - apply Forall_app. split; [exact sv_global0|]. by repeat constructor.
  - unfold ids. rewrite fmap_app, app_assoc. cbn. by rewrite <- Permutation_cons_append.
  - intros m r i e Hm He. destruct (sv_ordered0 m r i e Hm He) as (y & Hy & Ey). exists y. split; [|done].
    by eapply prefix_lookup_Some.
  - intros m r Hm Hl. eapply merged_mono; [exact Hpre|done|]. by apply sv_merged0.
  - exact sv_local_once0.
  - eapply Forall_impl; [exact sv_net0|]. intros p. apply pkt_ok_mono. split; [by rewrite Eg|done|done].
  - exact sv_queue0.
  - exact sv_site0.
  - exact sv_mgr0.
Qed.

Lemma inv_backups w b : sys_inv w -> sys_inv (w <| sy_raft_backups := b |>).
Proof. by intros []. Qed.

Definition with_mgr (m : Z) (r' : SlogRegionManager) (w : Sys) : Sys := w <| sy_mgrs ::= <[m := r']> |>.

Lemma local_with_mgr m r' w k :
  local (with_mgr m r' w) k = if decide (k = m) then le_item <$> rm_log r' else local w k.
Proof.
  unfold local, with_mgr, set_field. cbn. case_decide as E; [subst; by rewrite lookup_insert_eq | by rewrite lookup_insert_ne].
Qed.

Lemma inv_mgr w m r r' :
  sys_inv w -> sy_mgrs w !! m = Some r -> rm_rid r' = rm_rid r -> rm_partition_id r' = rm_partition_id r ->
  (forall i e, rm_global_log r' !! i = Some (Some e) -> exists x, global w !! i = Some x /\ le_item e = part (region_of m) x) ->
  (leads_region m = true -> local w m `prefix_of` (le_item <$> rm_log r') /\
    merged (global w) (sy_origin w) m (rm_global_next_insert_index r') (le_item <$> rm_log r') /\
    NoDup (base.omap (to_manager m) (sy_net w) ++ ids (le_item <$> rm_log r'))) ->
  sys_inv (with_mgr m r' w).
Proof.
  intros Hinv Hm E1 E2 Hg Hl. set (w' := with_mgr m r' w).
  assert (grows w w') as Hgr.
  { split; [done| |done]. intros k Hk. unfold w'. rewrite local_with_mgr. case_decide as E; [subst; by apply Hl | done]. }
  destruct Hinv. split; try done.
  - intros k rk i e Hk. unfold w', with_mgr, set_field in Hk. cbn in Hk.
    apply lookup_insert_Some in Hk as [[<- <-]|[_ Hk]]; [apply Hg | by eapply sv_ordered0].
  - intros k rk Hk Hlk. unfold w' in *. rewrite local_with_mgr. unfold with_mgr, set_field in Hk. cbn in Hk.
    apply lookup_insert_Some in Hk as [[<- <-]|[Hne Hk]].
    + rewrite decide_True by done. by apply Hl.
    + rewrite decide_False by done. by apply sv_merged0.
  - intros k Hk. unfold w'. rewrite local_with_mgr. case_decide as E; [subst; by apply Hl | by apply sv_local_once0].
  - eapply Forall_impl; [exact sv_net0|]. intros p. by apply pkt_ok_mono.
  - intros a ra i id Ha Hi. eapply ids_prefix; [apply (gr_local _ _ Hgr), leader_leads | by eapply sv_queue0].
  - intros k rk Hk. unfold w', with_mgr, set_field in Hk. cbn in Hk.
    apply lookup_insert_Some in Hk as [[<- <-]|[_ Hk]]; [rewrite E1, E2|]; by apply sv_mgr0.
Qed.

(** ** The global log *)

Definition raft_msg (g : list item) (m : SlogMsg) : Prop :=
  match m with
  | RaftAppendEntries _ _ _ => True
  | SlogSendOrderedCRT m c i h => exists x, g !! i = Some x /\ (c, h) = part (region_of m) x
  | _ => False
  end.
Definition raft_at (g : list item) (r : AuxiliaryRaft) : Prop := re_item <$> ra_log r = g /\ Forall (raft_msg g) (ra_out r).

Lemma raft_send g m : raft_msg g m -> preserves (raft_at g) (ra_send m).
Proof.
  intros Hm. apply preserves_modify. intros s [E Hs]. split; [done|]. unfold set_field. cbn. apply Forall_app. by repeat constructor.
Qed.

Lemma raft_flags g (f : raftEntry -> raftEntry) i r r' :
  ra_log r' = alter f i (ra_log r) -> ra_out r' = ra_out r -> (forall e, re_item (f e) = re_item e) ->
  raft_at g r -> raft_at g r'.
Proof. intros E1 E2 Hf [E Hs]. split; [|by rewrite E2]. by rewrite E1, fmap_alter_id. Qed.

Lemma raft_SendToAllPars g i : preserves (raft_at g) (SendToAllPars i).
Proof.
  intros s a s' Hs Hrun. unfold SendToAllPars in Hrun. apply bind_done in Hrun as (s0 & s1 & [= <- <-] & Hrun).
  apply bind_done in Hrun as (e & s1 & He & Hrun). destruct (ra_log s !! i) as [e'|] eqn:Ei; [|done]. injection He as -> <-.
  assert (g !! i = Some (re_item e)) as Hg by (destruct Hs as [<- _]; by rewrite list_lookup_fmap, Ei).
  refine (preserves_for_each manager_sites _ (raft_at g) _ s a s' Hs Hrun). intros m _.
  apply preserves_when, raft_send. by exists (re_item e).
Qed.

Lemma raft_send_committed g fuel i : preserves (raft_at g) (send_committed fuel i).
Proof.
  revert i. induction fuel as [|fuel IH]; intros i; cbn [send_committed]; [apply preserves_ret|].
  pose proof (raft_SendToAllPars g i).
  assert (preserves (raft_at g) (modify (fun s => s <| ra_log ::= alter (fun e => e <| re_sent := true |>) i |> <| ra_next_send_index ::= S |>))).
  { apply preserves_modify. intros s Hs. by eapply raft_flags. }
  solve_preserves_with ltac:(first [apply IH | solve [eauto]]).
Qed.

Lemma raft_ack g i : preserves (raft_at g) (RaftAppendAck i).
Proof.
  unfold RaftAppendAck. pose proof (raft_send_committed g).
  assert (preserves (raft_at g) (modify (fun s => s <| ra_log ::= alter (fun e => e <| re_committed := true |>) i |>))).
  { apply preserves_modify. intros s Hs. by eapply raft_flags. }
  solve_preserves_with ltac:(solve [eauto]).
Qed.

Lemma raft_submit g c h s a s' :
  raft_at g s -> SlogRaftSubmit_handler n_proxies c h s = Done (a, s') -> raft_at (g ++ [(c, h)]) s'.
Proof.
  intros [E Hs] Hrun. unfold SlogRaftSubmit_handler in Hrun. apply bind_done in Hrun as ([] & s1 & [= <-] & Hrun).
  apply bind_done in Hrun as (s0 & s1 & [= <- <-] & Hrun).
  refine (preserves_for_each _ _ (raft_at (g ++ [(c, h)])) _ _ a s' _ Hrun); [intros i _; by apply raft_send|].
  split; [unfold set_field; cbn; by rewrite fmap_app, E|]. eapply Forall_impl; [exact Hs|]. intros []; try done.
  intros (x & Hx & Ex). exists x. split; [by apply lookup_app_l_Some | done].
Qed.

(** ** The managers *)

(** The part of a request for a region carries the identifier of the request. *)
Lemma first_id id c : c ≠ [] -> Forall (fun p => p.2 ≠ [] /\ Forall (fun x => root_id_ x = id) p.2) c -> first_root_id c = Some id.
Proof.
  destruct c as [|[k [|x l]] c]; [done| |]; intros _ [[H1 H2] _]%Forall_cons; [done|].
  apply Forall_cons in H2 as [H2 _]. cbn. by rewrite H2.
Qed.

Lemma request_ok_Forall id c :
  request_ok id c = true -> Forall (fun p => p.2 ≠ [] /\ Forall (fun x => root_id_ x = id) p.2) c.
Proof.
  unfold request_ok. rewrite andb_true_iff, forallb_forall. intros [_ Hc]. apply Forall_forall. intros p Hp.
  specialize (Hc p (proj1 (list_elem_of_In _ _) Hp)). apply andb_true_iff in Hc as [H1 H2]. rewrite forallb_forall in H2. split.
  - by destruct (p.2).
  - apply Forall_forall. intros x Hx. apply Z.eqb_eq, H2. by apply list_elem_of_In.
Qed.

Lemma part_id rid id x :
  request_ok id x.1 = true -> (part rid x).1 ≠ [] -> first_root_id (part rid x).1 = Some id.
Proof.
  intros Hr Hne. apply first_id; [done|]. apply request_ok_Forall in Hr. rewrite Forall_forall in *. intros p Hp.
  apply Hr. cbn in Hp. unfold cmds_of_region in Hp. by apply list_elem_of_filter in Hp as [_ Hp].
Qed.

(** What a merged log holds. *)
Lemma merged_ids g org m n l id :
  Forall (fun x => asks org None x.1) g -> merged g org m n l -> Some id ∈ ids l ->
  org !! id = Some (Some m) \/ exists k x, (k < n)%nat /\ g !! k = Some x /\ first_root_id x.1 = Some id.
Proof.
  intros Hg. induction 1 as [|n l x i _ IH Hx Hi|n l x _ IH Hx Hp|n l x _ IH Hx Hp]; intros Hin.
  - by apply not_elem_of_nil in Hin.
  - unfold ids in Hin. rewrite fmap_app in Hin. apply elem_of_app in Hin as [Hin|Hin%list_elem_of_singleton]; [auto|].
    left. congruence.
  - unfold ids in Hin. rewrite fmap_app in Hin. apply elem_of_app in Hin as [Hin|Hin%list_elem_of_singleton].
    + destruct (IH Hin) as [?|(k & y & Hk & Hy)]; [by left|]. right. exists k, y. split; [lia|done].
    + right. exists n, x. split_and!; [lia|done|]. rewrite Forall_lookup in Hg. destruct (Hg n x Hx) as (i & H1 & H2 & _).
      rewrite (part_id (region_of m) i x H2 Hp) in Hin. congruence.
  - destruct (IH Hin) as [?|(k & y & Hk & Hy)]; [by left|]. right. exists k, y. split; [lia|done].
Qed.

Section manager.
Context (w : Sys) (m : Z) (Hinv : sys_inv w).

Definition mgr_msg (r : SlogRegionManager) (x : SlogMsg) : Prop :=
  match x with
  | RmReplicate b _ _ _ => leads_region b = false
  | SlogSendBatch a start cmds _ => leader_of a = m /\
    forall j id, cmds.*1 !! j = Some id -> ids (le_item <$> rm_log r) !! (start + j)%nat = Some (Some id)
  | _ => False
  end.

(** The log [l] may be the log of [m], after [n] entries of the global log. *)
Definition log_ok (n : nat) (l : list item) : Prop :=
  local w m `prefix_of` l /\ merged (global w) (sy_origin w) m n l /\
  NoDup (base.omap (to_manager m) (sy_net w) ++ ids l).

(** [r] may take the place of the manager [m]. *)
Record mgr_good (r : SlogRegionManager) : Prop := {
  mg_rid : rm_rid r = region_of m;
  mg_range : 0 <= m < 65535;
  mg_par : rm_partition_id r = m / N_REP_PER_SHARD;
  mg_global : forall i e, rm_global_log r !! i = Some (Some e) -> exists x, global w !! i = Some x /\ le_item e = part (region_of m) x;
  mg_log : leads_region m = true -> log_ok (rm_global_next_insert_index r) (le_item <$> rm_log r);
  mg_out : Forall (mgr_msg r) (rm_out r);
}.

Lemma mgr_good_start r : sy_mgrs w !! m = Some r -> mgr_good (r <| rm_out := [] |>).
Proof.
  intros Hm. destruct (sv_mgr _ Hinv m r Hm) as (H1 & H2 & H3).
  assert (local w m = le_item <$> rm_log r) as El by (unfold local; by rewrite Hm). split; try done.
  - intros i e. exact (sv_ordered _ Hinv m r i e Hm).
  - intros Hl. unfold log_ok, set_field. cbn. rewrite <- El. split_and!; [done|by apply (sv_merged _ Hinv)|by apply (sv_local_once _ Hinv)].
Qed.

Lemma mgr_good_inv r0 r :
  sy_mgrs w !! m = Some r0 -> mgr_good r -> sys_inv (sends (Pkt m <$> rm_out r) (with_mgr m r w)).
Proof.
  intros Hm [H1 H2 H3 H4 H5 H6]. destruct (sv_mgr _ Hinv m r0 Hm) as (G1 & _ & G3).
  apply inv_sends.
  - apply (inv_mgr _ _ r0); [done|done|congruence|congruence|done|done].
  - rewrite Forall_fmap. eapply Forall_impl; [exact H6|]. by intros [].
  - rewrite Forall_fmap. eapply Forall_impl; [exact H6|]. intros []; try done. intros [El Hb] j id Hj.
    cbn in El. rewrite local_with_mgr, El, decide_True by done. by apply Hb.
Qed.

(** [InsertLocalLog] *)
Definition backup_of (r : SlogRegionManager) : Z :=
  u16 (slog_region (rm_partition_id r) * n_shard_per_region_ slog_cfg * N_REP_PER_SHARD + 1).
Definition inserted (c : cmds_by_par) (h : Z) (r : SlogRegionManager) : SlogRegionManager :=
  r <| rm_log ::= fun l => l ++ [mk_le c h false] |>
    <| rm_out ::= fun l => l ++ [RmReplicate (backup_of r) c h (length (rm_log r ++ [mk_le c h false]) - 1)%nat] |>.

Lemma InsertLocalLog_eq c h r : InsertLocalLog c h r = Done (tt, inserted c h r).
Proof. done. Qed.

Lemma region_div a : a / N_REP_PER_SHARD / n_shard_per_region_ slog_cfg = region_of a.
Proof.
  pose proof (ly_shards Hly). unfold region_of, sites_per_region, N_REP_PER_SHARD.
  rewrite Z.div_div by lia. f_equal. lia.
Qed.

Lemma backup_not_leader r : mgr_good r -> leads_region (backup_of r) = false.
Proof.
  intros Hr. unfold backup_of, slog_region. rewrite (mg_par _ Hr), region_div. pose proof (ly_shards Hly) as Hn.
  pose proof (mg_range _ Hr) as Hm. pose proof spr_pos as Hs.
  assert (region_of m * n_shard_per_region_ slog_cfg * N_REP_PER_SHARD = leader_of m) as -> by (unfold leader_of, sites_per_region; lia).
  assert (0 <= leader_of m <= m) as Hle.
  { unfold leader_of, region_of. pose proof (Z.mul_div_le m sites_per_region Hs). pose proof (Z.div_pos m sites_per_region). lia. }
  rewrite wrap_u_id by (unfold in_u; lia). unfold leads_region, leader_of.
  rewrite Z.add_comm, Z_mod_plus_full, Z.mod_small by (unfold sites_per_region, N_REP_PER_SHARD; lia). done.
Qed.

(** Messages stay valid when the log grows. *)
Lemma mgr_msg_mono r r' x :
  (le_item <$> rm_log r) `prefix_of` (le_item <$> rm_log r') -> mgr_msg r x -> mgr_msg r' x.
Proof.
  intros Hpre. destruct x; try done. intros [El Hb]. split; [done|]. intros j id Hj. eapply ids_prefix; [done|]. by apply Hb.
Qed.

(** A new entry, and maybe one step further in the global log. *)
Lemma inserted_good c h r gl n :
  mgr_good r ->
  (forall i e, gl !! i = Some (Some e) -> exists x, global w !! i = Some x /\ le_item e = part (region_of m) x) ->
  (leads_region m = true -> log_ok n ((le_item <$> rm_log r) ++ [(c, h)])) ->
  mgr_good ((inserted c h r) <| rm_global_log := gl |> <| rm_global_next_insert_index := n |>).
Proof.
  intros Hr Hgl Hlog. pose proof (backup_not_leader r Hr) as Hb. destruct Hr as [H1 H2 H3 H4 H5 H6]. split; try done.
  - intros Hl. unfold set_field. cbn. rewrite fmap_app. by apply Hlog.
  - unfold set_field. cbn. apply Forall_app. split; [|by repeat constructor]. eapply Forall_impl; [exact H6|].
    intros x. apply mgr_msg_mono. unfold set_field. cbn. rewrite fmap_app. by apply prefix_app_r.
Qed.

Lemma pending_irt id : Some id ∈ base.omap (to_manager m) (sy_net w) -> sy_origin w !! id = Some (Some m).
Proof.
  intros (p & Hp & Hid)%list_elem_of_omap. pose proof (sv_net _ Hinv) as Hnet. rewrite Forall_forall in Hnet.
  specialize (Hnet p Hp). destruct p as [src []| |]; try done. cbn in Hid, Hnet.
  destruct (Z.eqb_spec manager_site m) as [->|]; [|done]. destruct Hnet as (id' & H1 & _ & H3). congruence.
Qed.

Lemma log_ok_crt n l x :
  log_ok n l -> global w !! n = Some x -> (part (region_of m) x).1 ≠ [] -> log_ok (S n) (l ++ [part (region_of m) x]).
Proof.
  intros (H1 & H2 & H3) Hx Hne. split_and!.
  - by apply prefix_app_r.
  - by apply merged_crt.
  - pose proof (sv_global _ Hinv) as Hg. pose proof Hg as Hg'. rewrite Forall_lookup in Hg'.
    destruct (Hg' n x Hx) as (id & E1 & E2 & E3). unfold ids at 1. rewrite fmap_app, list_fmap_singleton, (part_id _ id) by done.
    rewrite app_assoc. apply NoDup_app. split_and!; [done| |apply NoDup_singleton].
    intros o Ho ->%list_elem_of_singleton. apply elem_of_app in Ho as [Ho|Ho].
    + apply pending_irt in Ho. congruence.
    + destruct (merged_ids _ _ _ _ _ _ Hg H2 Ho) as [?|(k & y & Hk & Hy & Ey)]; [congruence|].
      pose proof (sv_global_once _ Hinv) as Hnd. apply NoDup_app in Hnd as (_ & _ & Hnd).
      assert (k = n) as ->; [|lia]. apply (NoDup_lookup _ _ _ (Some id) Hnd); unfold ids; rewrite list_lookup_fmap.
      * rewrite Hy. cbn. by rewrite Ey.
      * rewrite Hx. cbn. by rewrite E1.
Qed.

Lemma log_ok_skip n l x :
  log_ok n l -> global w !! n = Some x -> (part (region_of m) x).1 = [] -> log_ok (S n) l.
Proof. intros (H1 & H2 & H3) Hx Hne. split_and!; [done| |done]. by apply merged_skip with x. Qed.

(** A manager that differs in flags only, or has sent more. *)
Lemma mgr_good_same r r' :
  mgr_good r -> rm_rid r' = rm_rid r -> rm_partition_id r' = rm_partition_id r ->
  (forall i e, rm_global_log r' !! i = Some (Some e) -> exists e0, rm_global_log r !! i = Some (Some e0) /\ le_item e = le_item e0) ->
  rm_global_next_insert_index r' = rm_global_next_insert_index r -> le_item <$> rm_log r' = le_item <$> rm_log r ->
  Forall (mgr_msg r) (rm_out r') -> mgr_good r'.
Proof.
  intros [H1 H2 H3 H4 H5 H6] E1 E2 Hg E3 E4 Ho. split.
  - congruence.
  - done.
  - congruence.
  - intros i e He. destruct (Hg i e He) as (e0 & He0 & ->). by apply H4.
  - intros Hl. rewrite E3, E4. by apply H5.
  - eapply Forall_impl; [exact Ho|]. intros x. apply mgr_msg_mono. by rewrite E4.
Qed.

Lemma ack_good i : preserves mgr_good (ReplicateACK i).
Proof.
  unfold ReplicateACK. solve_preserves.
  all: apply preserves_modify; intros r Hr; apply (mgr_good_same r); try done; first [by eauto | exact (mg_out _ Hr) | idtac].
  unfold set_field. cbn. by rewrite fmap_alter_id.
Qed.

(** The loop over the global log, of which [l] is left at [i]. *)
Lemma insert_ordered_good l i r a r' :
  mgr_good r -> rm_global_next_insert_index r = i ->
  (forall j e, l !! j = Some (Some e) -> exists x, global w !! (i + j)%nat = Some x /\ le_item e = part (region_of m) x) ->
  insert_ordered l i r = Done (a, r') -> mgr_good r'.
Proof.
  revert i r. induction l as [|[e|] l IH]; intros i r Hr Hi Hl Hrun; cbn [insert_ordered] in Hrun.
  1, 3: by injection Hrun as _ <-.
  destruct (Hl 0%nat e eq_refl) as (x & Hx & Ex). rewrite Nat.add_0_r in Hx.
  apply bind_done in Hrun as ([] & r1 & H1 & Hrun). apply bind_done in Hrun as ([] & r2 & [= <-] & Hrun).
  assert (forall k e0, rm_global_log r !! k = Some (Some e0) -> exists y, global w !! k = Some y /\ le_item e0 = part (region_of m) y) as Hgl
    by apply (mg_global _ Hr).
  set (gl := alter (fmap (fun e : logEntry => e <| le_committed := true |>)) i (rm_global_log r)).
  assert (forall k e0, gl !! k = Some (Some e0) -> exists y, global w !! k = Some y /\ le_item e0 = part (region_of m) y) as Hgl'.
  { intros k e0 Hk. unfold gl in Hk. destruct (decide (k = i)) as [->|Hne]; [|rewrite list_lookup_alter_ne in Hk by done; by apply Hgl].
    rewrite list_lookup_alter_eq in Hk. destruct (rm_global_log r !! i) as [[e1|]|] eqn:E1; [|done..]. injection Hk as <-.
    by apply Hgl in E1. }
  assert (leads_region m = true -> log_ok i (le_item <$> rm_log r)) as Hlog by (rewrite <- Hi; apply (mg_log _ Hr)).
  apply (IH (S i)) in Hrun; [done| | |].
  3: { intros j e' Hj. destruct (Hl (S j) e' Hj) as (y & Hy & Ey). exists y. split; [|done]. rewrite <- Hy. f_equal. lia. }
  - destruct (decide (le_cmds e = [])) as [E0|E0].
    + rewrite E0 in H1. injection H1 as <-. apply (f_equal fst) in Ex. cbn in Ex. rewrite E0 in Ex.
      destruct Hr as [G1 G2 G3 G4 G5 G6]. split; try done. intros Hlead. unfold set_field. cbn. rewrite Hi. by apply log_ok_skip with x; [apply Hlog|..].
    + assert ((length (le_cmds e) =? 0)%nat = false) as E0' by (by destruct (le_cmds e)). rewrite E0' in H1.
      injection H1 as <-. pose proof (f_equal fst Ex) as Ex1. pose proof (f_equal snd Ex) as Ex2. cbn in Ex1, Ex2.
      subst i. refine (inserted_good (le_cmds e) (le_coord_site e) r gl (S (rm_global_next_insert_index r)) Hr Hgl' _).
      intros Hlead. change (le_cmds e, le_coord_site e) with (le_item e). rewrite Ex.
      apply log_ok_crt; [by apply Hlog|done|]. by rewrite <- Ex.
  - destruct (negb _); injection H1 as <-; unfold set_field; cbn; by rewrite Hi.
Qed.

Lemma ordered_good c i h r a r' :
  (exists x, global w !! i = Some x /\ (c, h) = part (region_of m) x) ->
  mgr_good r -> SlogSendOrderedCRT_handler c i h r = Done (a, r') -> mgr_good r'.
Proof.
  intros (x & Hx & Ex) Hr Hrun. unfold SlogSendOrderedCRT_handler in Hrun.
  apply bind_done in Hrun as ([] & r1 & [= <-] & Hrun). apply bind_done in Hrun as (s0 & r1 & [= <- <-] & Hrun).
  apply bind_done in Hrun as (e & r1 & He & Hrun).
  set (gl := rm_global_log r ++ replicate (S i - length (rm_global_log r)) None) in *.
  destruct (rm_global_log _ !! i) as [e'|] eqn:Ei; [|done]. injection He as -> <-.
  apply bind_done in Hrun as ([] & r1 & Hv & Hrun). unfold verify in Hv. destruct (bool_decide (e = None)); [|done]. injection Hv as <-.
  apply bind_done in Hrun as ([] & r1 & [= <-] & Hrun). apply bind_done in Hrun as (s0 & r1 & [= <- <-] & Hrun).
  set (r1 := (r <| rm_global_log ::= _ |>) <| rm_global_log ::= _ |>) in *.
  assert (forall k e0, rm_global_log r1 !! k = Some (Some e0) -> exists y, global w !! k = Some y /\ le_item e0 = part (region_of m) y) as Hgl.
  { intros k e0 Hk. unfold r1, set_field in Hk. cbn in Hk. apply list_lookup_insert_Some in Hk as [(-> & [= <-] & _)|[Hne Hk]]; [by exists x|].
    apply lookup_app_Some in Hk as [Hk|[_ Hk]]; [by apply (mg_global _ Hr)|]. by apply lookup_replicate in Hk as [? _]. }
  assert (mgr_good r1) as Hr1 by (destruct Hr; by split).
  apply (insert_ordered_good _ _ r1 _ _ Hr1 eq_refl) in Hrun; [done|]. intros j e0 Hj. rewrite lookup_drop in Hj. by apply Hgl.
Qed.

(** A site of a partition of the region is led by the manager of the region. *)
Lemma batch_region k a :
  (k < Z.to_nat (n_shard_per_region_ slog_cfg))%nat -> leads_region m = true ->
  a ∈ ss_sites (region_of m * n_shard_per_region_ slog_cfg + Z.of_nat k) -> leader_of a = m.
Proof.
  intros Hk Hm Ha. apply (ly_par Hly) in Ha. pose proof (ly_shards Hly). pose proof spr_pos.
  unfold leader_of. rewrite <- region_div, <- Ha, Z.div_add_l, (Z.div_small (Z.of_nat k)), Z.add_0_r by lia.
  unfold leads_region in Hm. apply Z.eqb_eq in Hm. unfold region_of. rewrite Z.mul_comm. symmetry. apply Z_div_exact_2; lia.
Qed.

Lemma send_batch_good L start par :
  leads_region m = true -> (forall a, a ∈ ss_sites par -> leader_of a = m) ->
  forall n, preserves (fun r => mgr_good r /\ rm_log r = L) (send_batch start (take n (drop start L)) par).
Proof.
  intros Hm Hpar n. unfold send_batch. apply preserves_bind_option. intros cmds Hcmds.
  apply preserves_bind_option. intros coords _. apply preserves_for_each. intros a Ha. apply preserves_modify.
  intros r [Hr HL]. split; [|done]. apply (mgr_good_same r); try done; [by eauto|]. unfold set_field. cbn.
  apply Forall_app. split; [exact (mg_out _ Hr)|]. constructor; [|done]. split; [by apply Hpar|].
  intros j id Hj. apply mapM_Some in Hcmds. rewrite list_lookup_fmap in Hj.
  destruct (cmds !! j) as [[id' ps]|] eqn:Ej; [|done]. injection Hj as ->.
  destruct (Forall2_lookup_r _ _ _ _ _ Hcmds Ej) as (e & He & Eb). unfold batch_cmd in Eb.
  destruct (first_root_id (le_cmds e)) as [id'|] eqn:Eid; [|done]. injection Eb as -> _.
  apply lookup_take_Some in He as [He _]. rewrite lookup_drop in He.
  unfold ids. rewrite HL, !list_lookup_fmap, He. cbn. by rewrite Eid.
Qed.

Lemma batch_good : leads_region m = true -> preserves mgr_good CheckAndSendBatch.
Proof.
  intros Hm r a r' Hr Hrun. unfold CheckAndSendBatch in Hrun. apply bind_done in Hrun as (s0 & s1 & [= <- <-] & Hrun).
  unfold when in Hrun. destruct (_ <? _)%nat; [|by injection Hrun as _ <-].
  apply bind_done in Hrun as (u & r1 & H1 & Hrun). injection Hrun as _ <-.
  assert (mgr_good r1 /\ rm_log r1 = rm_log r) as [Hr1 _].
  { refine (preserves_for_each _ _ (fun x => mgr_good x /\ rm_log x = rm_log r) _ r u r1 (conj Hr eq_refl) H1).
    intros par (k & -> & [_ Hk]%elem_of_seq)%list_elem_of_fmap. apply send_batch_good; [done|]. intros b.
    rewrite (mg_rid _ Hr). by apply batch_region. }
  apply (mgr_good_same r1); try done; [by eauto|]. exact (mg_out _ Hr1).
Qed.

Lemma irt_good src c h r0 a r' :
  carried (Pkt src (SendRmIRT m c h)) w -> sy_mgrs w !! m = Some r0 ->
  SendRmIRT_handler c h (r0 <| rm_out := [] |>) = Done (a, r') -> mgr_good r'.
Proof.
  intros [Hok _ Hnd] Hm Hrun. injection Hrun as _ <-. pose proof (mgr_good_start r0 Hm) as Hr.
  refine (inserted_good c h _ (rm_global_log r0) (rm_global_next_insert_index r0) Hr (mg_global _ Hr) _).
  intros Hl. destruct (mg_log _ Hr Hl) as (H1 & H2 & H3). unfold set_field in *. cbn in *.
  destruct Hok as (id & E1 & _ & E3). specialize (Hnd m Hl). rewrite Z.eqb_refl, E1 in Hnd. cbn in Hnd.
  assert (local w m = le_item <$> rm_log r0) as El by (unfold local; by rewrite Hm). rewrite El in Hnd. split_and!.
  - by apply prefix_app_r.
  - by apply merged_irt with id.
  - unfold ids in *. rewrite fmap_app, app_assoc. cbn. rewrite E1. by rewrite <- Permutation_cons_append.
Qed.

Lemma replicate_good c : leads_region m = false -> preserves mgr_good (RmReplicate_handler c).
Proof.
  intros Hm. apply preserves_modify. intros r [H1 H2 H3 H4 H5 H6]. split; try done; [congruence|].
  unfold set_field. cbn. eapply Forall_impl; [exact H6|]. intros x. apply mgr_msg_mono. unfold set_field. cbn.
  rewrite fmap_app. by apply prefix_app_r.
Qed.
End manager.

(** ** Steps *)

Lemma at_mgr_inv w m mm acks w' :
  sys_inv w -> Forall (fun p => quiet p /\ forall w, pkt_ok w p) acks ->
  (forall r a r', sy_mgrs w !! m = Some r -> mm (r <| rm_out := [] |>) = Done (a, r') -> mgr_good w m r') ->
  at_mgr m mm acks w = Some w' -> sys_inv w'.
Proof.
  intros Hinv Hacks Hm Hrun. unfold at_mgr in Hrun. destruct (sy_mgrs w !! m) as [r|] eqn:Er; [|done]. cbn in Hrun.
  destruct (mm _) as [[a r']| |] eqn:E; [|done..]. injection Hrun as <-.
  pose proof (mgr_good_inv w m Hinv r r' Er (Hm r a r' eq_refl E)) as Hinv'.
  refine (inv_sends _ acks Hinv' _ _); (eapply Forall_impl; [exact Hacks|]); naive_solver.
Qed.

Lemma at_site_inv w a mm w' :
  sys_inv w ->
  (forall r u r', sy_sites w !! a = Some r -> mm (r <| ss_sent := [] |>) = Done (u, r') ->
     ss_site_id r' = ss_site_id r /\ ss_partition_id r' = ss_partition_id r /\
     (forall i id, ss_txn_queue r' !! i = Some (Some id) -> ids (local w (leader_of a)) !! i = Some (Some id)) /\
     Forall harmless (ss_sent r')) ->
  at_site a mm w = Some w' -> sys_inv w'.
Proof.
  intros Hinv Hm Hrun. unfold at_site in Hrun. destruct (sy_sites w !! a) as [r|] eqn:Er; [|done]. cbn in Hrun.
  destruct (mm _) as [[u r']| |] eqn:E; [|done..]. injection Hrun as <-.
  destruct (Hm r u r' eq_refl E) as (H1 & H2 & H3 & H4).
  refine (inv_sends _ (Pkt a <$> ss_sent r') (inv_site w a r r' Hinv Er H1 H2 H3) _ _);
    rewrite Forall_fmap; (eapply Forall_impl; [exact H4|]); by intros [].
Qed.

Lemma calm_start r a : ss_site_id r = a -> calm (ss_txn_queue r) a (ss_partition_id r) (r <| ss_sent := [] |>).
Proof. intros Ha. by split_and!. Qed.

(** A handler that leaves the queue alone. *)
Lemma at_site_calm w a mm w' :
  sys_inv w -> (forall q p, preserves (calm q a p) mm) -> at_site a mm w = Some w' -> sys_inv w'.
Proof.
  intros Hinv Hm. apply at_site_inv; [done|]. intros r u r' Hr Hrun. destruct (sv_site _ Hinv a r Hr) as [Ha _].
  destruct (Hm (ss_txn_queue r) (ss_partition_id r) _ _ _ (calm_start r _ Ha) Hrun) as (Hq & Hs & Hp & Hh).
  split_and!; [congruence|done| |done]. intros i id. rewrite Hq. by apply (sv_queue _ Hinv).
Qed.

Lemma at_raft_inv w mm w' g' :
  (forall r a r', raft_at (global w) r -> mm r = Done (a, r') -> raft_at g' r') ->
  (forall r', re_item <$> ra_log r' = g' -> sys_inv (w <| sy_raft := r' |>)) ->
  at_raft mm w = Some w' -> sys_inv w'.
Proof.
  intros Hm Hinv Hrun. unfold at_raft in Hrun. destruct (mm _) as [[a r']| |] eqn:E; [|done..]. injection Hrun as <-.
  apply Hm in E as [E1 E2]; [|done]. refine (inv_sends _ (Pkt 0 <$> ra_out r') (Hinv r' E1) _ _); rewrite Forall_fmap;
    (eapply Forall_impl; [exact E2|]); intros []; try done. cbn. unfold global. cbn. by rewrite E1.
Qed.

Lemma deliver_inv w p w' : sys_inv w -> carried p w -> deliver n_proxies p w = Some w' -> sys_inv w'.
Proof.
  intros Hinv Hca. pose proof (ca_ok _ _ Hca) as Hok. destruct p as [src x|i|s i].
  2: { apply (at_raft_inv _ _ _ (global w)); [intros r a r'; apply raft_ack | intros r' Er; by apply inv_raft_same]. }
  2: { apply at_mgr_inv; [done|done|]. intros r a r' Hr. apply (ack_good w s), (mgr_good_start w s Hinv r Hr). }
  destruct x as [s c h|c h|i c k|s c h k|s c k h|s k cmds coords|s req|s par id out|id out].
  - apply at_mgr_inv; [done|done|]. intros r a r' Hr. by apply (irt_good w s Hinv src c h r).
  - apply (at_raft_inv _ _ _ (global w ++ [(c, h)])); [intros r a r'; apply raft_submit|].
    intros r' Er. apply (inv_raft_app w r' (c, h)); [done|done|done|]. exact (ca_global _ _ Hca).
  - intros Hrun. cbn in Hrun. unfold at_raft_backup in Hrun. destruct (sy_raft_backups w !! i) as [r|]; [|done]. cbn in Hrun.
    destruct (RaftAppendEntries_handler c r) as [[a r']| |]; [|done..]. injection Hrun as <-.
    apply (inv_sends (w <| sy_raft_backups ::= base.insert i r' |>) [RaftAck k]); [by apply inv_backups|by repeat constructor..].
  - apply at_mgr_inv; [done|constructor; [by repeat split|constructor]|]. intros r a r' Hr. apply (replicate_good w s); [exact Hok | by apply mgr_good_start].
  - apply at_mgr_inv; [done|done|]. intros r a r' Hr. apply (ordered_good w s Hinv); [exact Hok | by apply mgr_good_start].
  - apply at_site_inv; [done|]. intros r [] r' Hr Hrun. destruct (sv_site _ Hinv s r Hr) as [Ha _].
    destruct (OnSendBatch_done _ _ _ _ _ (ss_txn_queue r) s (ss_partition_id r) (calm_start r _ Ha) Hrun)
      as [(Hq & Hs & Hp & Hh) _].
    split_and!; [congruence|done| |done]. intros i id. rewrite Hq, put_ids_lookup. intros [(j & -> & Hj & _)|[Hi _]]; [by apply Hok|].
    apply lookup_app_Some in Hi as [Hi|[_ Hi]]; [by apply (sv_queue _ Hinv s r) | by apply lookup_replicate in Hi as [? _]].
  - apply at_site_calm; [done|]. intros q p. apply calm_OnSendDepValues.
  - apply at_site_calm; [done|]. intros q p. apply calm_OnSendTxnOutput.
  - by intros [= <-].
Qed.

(** *** Submission *)

Lemma inv_post w p : sys_inv w -> carried p w -> sys_inv (sends [p] w).
Proof.
  intros [] [Hok Hg Hl]. split; try done.
  - unfold sends, set_field. cbn. rewrite omap_app, <- app_assoc. cbn. destruct (to_global p); cbn in *; [|done].
    by rewrite <- Permutation_middle.
  - intros m Hm. specialize (Hl m Hm). unfold sends, set_field. cbn. rewrite omap_app, <- app_assoc. cbn.
    destruct (to_manager m p); cbn in *; [|done]. by rewrite <- Permutation_middle.
  - unfold sends, set_field. cbn. apply Forall_app. split; [exact sv_net0 | by apply Forall_singleton].
Qed.

Lemma local_mgr w m x : x ∈ ids (local w m) -> exists r, sy_mgrs w !! m = Some r.
Proof. unfold local. destruct (sy_mgrs w !! m); [eauto|]. intros Hx. by apply not_elem_of_nil in Hx. Qed.

(** Where a transaction that is in the log of a manager came from. *)
Lemma local_origin w m id :
  sys_inv w -> leads_region m = true -> Some id ∈ ids (local w m) ->
  sy_origin w !! id = Some (Some m) \/ sy_origin w !! id = Some None.
Proof.
  intros Hinv Hm Hin. destruct (local_mgr _ _ _ Hin) as [r Hr].
  destruct (merged_ids _ _ _ _ _ _ (sv_global _ Hinv) (sv_merged _ Hinv m r Hr Hm) Hin) as [?|(k & x & _ & Hx & Ex)]; [by left|].
  right. pose proof (sv_global _ Hinv) as Hg. rewrite Forall_lookup in Hg. destruct (Hg k x Hx) as (id' & E1 & _ & E3). congruence.
Qed.

Lemma global_origin w id : sys_inv w -> Some id ∈ ids (global w) -> sy_origin w !! id = Some None.
Proof.
  intros Hinv (x & Ex & Hx)%list_elem_of_fmap. pose proof (sv_global _ Hinv) as Hg. rewrite Forall_forall in Hg.
  destruct (Hg x Hx) as (id' & E1 & _ & E3). congruence.
Qed.

(** A transaction that has not been submitted is nowhere. *)
Lemma fresh_carried w p id :
  sys_inv w -> sy_origin w !! id = None -> (to_global p = None \/ to_global p = Some (Some id)) ->
  (forall m, to_manager m p = None \/ to_manager m p = Some (Some id)) ->
  NoDup (option_list (to_global p) ++ base.omap to_global (sy_net w) ++ ids (global w)) /\
  forall m, leads_region m = true -> NoDup (option_list (to_manager m p) ++ base.omap (to_manager m) (sy_net w) ++ ids (local w m)).
Proof.
  intros Hinv Hid Hg Hl. split.
  - destruct Hg as [->| ->]; [apply (sv_global_once _ Hinv)|]. cbn. constructor; [|apply (sv_global_once _ Hinv)].
    intros [Hin|Hin]%elem_of_app.
    + apply list_elem_of_omap in Hin as (x & Hx & E). pose proof (sv_net _ Hinv) as Hnet. rewrite Forall_forall in Hnet.
      specialize (Hnet x Hx). destruct x as [src []| |]; try done. destruct Hnet as (i & E1 & _ & E3). cbn in E. congruence.
    + apply (global_origin _ _ Hinv) in Hin. congruence.
  - intros m Hm. destruct (Hl m) as [->| ->]; [by apply (sv_local_once _ Hinv)|]. cbn. constructor; [|by apply (sv_local_once _ Hinv)].
    intros [Hin|Hin]%elem_of_app.
    + apply (pending_irt w m Hinv) in Hin. congruence.
    + destruct (local_origin _ _ _ Hinv Hm Hin); congruence.
Qed.

Lemma inv_origin w id o : sys_inv w -> sy_origin w !! id = None -> sys_inv (w <| sy_origin ::= base.insert id o |>).
Proof.
  intros Hinv Hid. set (w' := w <| sy_origin ::= base.insert id o |>).
  assert (sy_origin w ⊆ sy_origin w') as Hsub by (by apply insert_subseteq).
  destruct Hinv. split; try done.
  - eapply Forall_impl; [exact sv_global0|]. intros x. by apply asks_mono.
  - intros m r Hm Hl. eapply merged_mono; [reflexivity|exact Hsub|]. by apply sv_merged0.
  - eapply Forall_impl; [exact sv_net0|]. intros p. apply pkt_ok_mono. by split.
Qed.

Lemma submit_inv w a c irt w' : sys_inv w -> sys_step n_proxies (EvSubmit a c irt) w = Some w' -> sys_inv w'.
Proof.
  intros Hinv Hrun. cbn in Hrun. destruct (first_root_id c) as [id|] eqn:Eid; [|done]. cbn in Hrun.
  destruct (sy_sites w !! a) as [r|] eqn:Er; [|done]. cbn in Hrun.
  destruct (request_ok id c) eqn:Eok; [|done]. destruct (bool_decide _) eqn:Ef; [|done]. apply bool_decide_eq_true in Ef. cbn in Hrun.
  set (o := if irt then Some _ else None) in Hrun. set (w1 := w <| sy_origin ::= _ |>) in Hrun.
  pose proof (inv_origin w id o Hinv Ef : sys_inv w1) as Hinv1. unfold at_site in Hrun.
  change (sy_sites w1) with (sy_sites w) in Hrun. rewrite Er in Hrun. cbn in Hrun.
  destruct (OnSubmitTxn _ _ _) as [[[] r']| |] eqn:E; [|done..]. injection Hrun as <-.
  apply OnSubmitTxn_done in E as (E1 & E2 & E3 & E4). cbn in E4. rewrite E4.
  set (w2 := w1 <| sy_sites ::= base.insert a r' |>).
  assert (sys_inv w2) as Hinv2.
  { apply (inv_site w1 a r r'); [done|done|done|done|]. intros i x. rewrite E1. by apply (sv_queue _ Hinv1 a r). }
  refine (inv_post w2 (Pkt a _) Hinv2 _).
  assert (sy_origin w2 !! id = Some o) as Ho by apply lookup_insert_eq.
  set (p := Pkt a _). destruct (fresh_carried w p id Hinv Ef) as [H1 H2].
  - unfold p. destruct irt; cbn; rewrite ?Eid; auto.
  - intros m. unfold p. destruct irt; cbn; rewrite ?Eid; [destruct (_ =? m)|]; auto.
  - split; [|exact H1|exact H2]. unfold p. destruct irt; exists id; by split_and!.
Qed.

Lemma step_inv e w w' : sys_inv w -> sys_step n_proxies e w = Some w' -> sys_inv w'.
Proof.
  intros Hinv. destruct e as [a c irt|k|m]; [by apply submit_inv|..]; intros Hrun; cbn in Hrun.
  - destruct (sy_net w !! k) as [p|] eqn:Ek; [|done]. cbn in Hrun. destruct (inv_taken w k p Hinv Ek) as [H1 H2].
    by apply (deliver_inv (taken k w) p).
  - destruct (leads_region m) eqn:El; [|done]. revert Hrun. apply at_mgr_inv; [done|done|].
    intros r a r' Hr. apply (batch_good w m El), (mgr_good_start w m Hinv r Hr).
Qed.

Lemma init_inv db : sys_inv (init_sys n_proxies db).
Proof.
  assert (forall m r, sy_mgrs (init_sys n_proxies db) !! m = Some r -> exists p, r = new_manager m p /\ 0 <= m < 65535 /\ p = m / N_REP_PER_SHARD) as Hm.
  { intros m r Hr. apply elem_of_list_to_map_2 in Hr. apply list_elem_of_fmap in Hr as (x & [= -> ->] & Hx).
    apply list_elem_of_filter in Hx as [_ Hx]. destruct (ly_site Hly x Hx). by eexists. }
  assert (forall m, local (init_sys n_proxies db) m = []) as Hl.
  { intros m. unfold local. destruct (_ !! m) as [r|] eqn:E; [|done]. by destruct (Hm m r E) as (p & -> & _). }
  split; try done.
  - apply NoDup_nil_2.
  - intros m r i e Hr. by destruct (Hm m r Hr) as (p & -> & _).
  - intros m r Hr _. rewrite Hl. destruct (Hm m r Hr) as (p & -> & _). constructor.
  - intros m _. rewrite Hl. apply NoDup_nil_2.
  - intros a r i id Hr. apply elem_of_list_to_map_2 in Hr. by apply list_elem_of_fmap in Hr as (x & [= -> ->] & _).
  - intros a r Hr. apply elem_of_list_to_map_2 in Hr. apply list_elem_of_fmap in Hr as (x & [= -> ->] & Hx).
    by destruct (ly_site Hly x Hx).
  - intros m r Hr. destruct (Hm m r Hr) as (p & -> & H1 & H2). split_and!; try done; [|lia..].
    cbn. unfold region_of, sites_per_region. f_equal. lia.
Qed.

Lemma run_inv es w w' : sys_inv w -> sys_run n_proxies es w = Some w' -> sys_inv w'.
Proof.
  revert w. induction es as [|e es IH]; intros w Hinv Hrun; cbn in Hrun; [by injection Hrun as <-|].
  destruct (sys_step n_proxies e w) as [w1|] eqn:E; [|done]. cbn in Hrun. apply (IH w1); [|done]. by apply (step_inv e w).
Qed.

(** ** The order *)

(** Transactions of the global log are merged in the order of the global log. *)
Lemma merged_order g org m n l i1 i2 t1 t2 :
  Forall (fun x => asks org None x.1) g -> merged g org m n l ->
  ids l !! i1 = Some (Some t1) -> ids l !! i2 = Some (Some t2) -> (i1 < i2)%nat ->
  org !! t1 = Some None -> org !! t2 = Some None ->
  exists k1 k2, (k1 < k2 < n)%nat /\ ids g !! k1 = Some (Some t1) /\ ids g !! k2 = Some (Some t2).
Proof.
  intros Hg Hm. revert i1 i2. induction Hm as [|n l x id Hm IH Hx Hid|n l x Hm IH Hx Hp|n l x Hm IH Hx Hp];
    intros i1 i2 E1 E2 Hlt O1 O2; [done|..].
  - unfold ids in E1, E2. rewrite fmap_app in E1, E2. apply lookup_app_Some in E2 as [E2|[_ E2]].
    + apply (IH i1 i2); [|done..]. apply lookup_lt_Some in E2. by rewrite lookup_app_l in E1 by lia.
    + apply list_lookup_singleton_Some in E2 as [_ E2]. congruence.
  - unfold ids in E1, E2. rewrite fmap_app in E1, E2. apply lookup_app_Some in E2 as [E2|[Hi2 E2]].
    + pose proof (lookup_lt_Some _ _ _ E2). rewrite lookup_app_l in E1 by lia.
      destruct (IH i1 i2) as (k1 & k2 & Hk & Ek); [done..|]. exists k1, k2. split; [lia|done].
    + apply list_lookup_singleton_Some in E2 as [Hi E2]. rewrite lookup_app_l in E1 by lia.
      apply list_elem_of_lookup_2 in E1. destruct (merged_ids _ _ _ _ _ _ Hg Hm E1) as [?|(k & y & Hk & Hy & Ey)]; [congruence|].
      exists k, n. split; [lia|]. unfold ids. rewrite !list_lookup_fmap, Hy, Hx. cbn. rewrite Ey. split; [done|].
      rewrite Forall_lookup in Hg. destruct (Hg n x Hx) as (id & F1 & F2 & _).
      cbn in E2. change (cmds_of_region (region_of m) x.1) with (part (region_of m) x).1 in E2.
      rewrite (part_id (region_of m) id x F2 Hp) in E2. by rewrite F1, E2.
  - destruct (IH i1 i2) as (k1 & k2 & Hk & Ek); [done..|]. exists k1, k2. split; [lia|done].
Qed.

Lemma local_NoDup w m : sys_inv w -> leads_region m = true -> NoDup (ids (local w m)).
Proof. intros Hinv Hm. by apply (sv_local_once _ Hinv), NoDup_app in Hm as (_ & _ & Hm). Qed.

Lemma same_order w ma mb i1 i2 j1 j2 t1 t2 :
  sys_inv w -> leads_region ma = true -> leads_region mb = true ->
  ids (local w ma) !! i1 = Some (Some t1) -> ids (local w ma) !! i2 = Some (Some t2) ->
  ids (local w mb) !! j1 = Some (Some t1) -> ids (local w mb) !! j2 = Some (Some t2) ->
  (i1 < i2)%nat -> (j1 < j2)%nat.
Proof.
  intros Hinv Ha Hb I1 I2 J1 J2 Hlt. destruct (decide (ma = mb)) as [<-|Hne].
  { pose proof (local_NoDup _ _ Hinv Ha) as Hnd.
    by rewrite <- (NoDup_lookup _ _ _ _ Hnd I1 J1), <- (NoDup_lookup _ _ _ _ Hnd I2 J2). }
  assert (forall i j t, ids (local w ma) !! i = Some (Some t) -> ids (local w mb) !! j = Some (Some t) -> sy_origin w !! t = Some None) as Ho.
  { intros i j t Hi Hj. apply list_elem_of_lookup_2, (local_origin _ _ _ Hinv) in Hi, Hj; [|done..]. destruct Hi as [Hi|?], Hj as [Hj|?]; congruence. }
  pose proof (Ho _ _ _ I1 J1) as O1. pose proof (Ho _ _ _ I2 J2) as O2.
  assert (forall m i, ids (local w m) !! i = Some (Some t1) -> exists r, sy_mgrs w !! m = Some r) as Hr.
  { intros m i Hi. by apply (local_mgr w m (Some t1)), list_elem_of_lookup_2 with i. }
  destruct (Hr _ _ I1) as [ra Era]. destruct (Hr _ _ J1) as [rb Erb].
  destruct (merged_order _ _ _ _ _ _ _ _ _ (sv_global _ Hinv) (sv_merged _ Hinv ma ra Era Ha) I1 I2 Hlt O1 O2) as (k1 & k2 & Hk & K1 & K2).
  pose proof (sv_global_once _ Hinv) as Hnd. apply NoDup_app in Hnd as (_ & _ & Hnd).
  destruct (Nat.lt_trichotomy j1 j2) as [?|[<-|Hj]]; [done|exfalso..].
  - assert (t1 = t2) as <- by congruence. pose proof (NoDup_lookup _ _ _ _ Hnd K1 K2). lia.
  - destruct (merged_order _ _ _ _ _ _ _ _ _ (sv_global _ Hinv) (sv_merged _ Hinv mb rb Erb Hb) J2 J1 Hj O2 O1) as (l2 & l1 & Hl & L2 & L1).
    pose proof (NoDup_lookup _ _ _ _ Hnd K1 L1). pose proof (NoDup_lookup _ _ _ _ Hnd K2 L2). lia.
Qed.
End total.

(** A layout with three replicas per shard and site numbers below 65535. *)
Lemma uniform_slog_layout `{SlogEnv} n_shard n_regions tpcc conf :
  slog_cfg = uniform_config 3 n_shard n_regions tpcc conf -> (0 < n_shard)%nat -> Z.of_nat (3 * (n_shard * n_regions)) <= 65535 ->
  slog_layout.
Proof.
  intros Ec Hn Hmax. split.
  - rewrite Ec. cbn. lia.
  - intros x. rewrite Ec. cbn [uniform_config sites_]. intros (g & Hx & (p & -> & [_ Hp]%elem_of_seq)%list_elem_of_fmap)%list_elem_of_bind.
    apply list_elem_of_fmap in Hx as (r & -> & [_ Hr]%elem_of_seq). cbn [site_of si_id si_partition_id_]. unfold N_REP_PER_SHARD.
    rewrite Nat2Z.inj_add, Nat2Z.inj_mul. split; [lia|]. rewrite Z.add_comm, Z.mul_comm, Z.div_add, Z.div_small by lia. lia.
  - intros par site Hs. unfold ss_sites in Hs. rewrite Ec in Hs. destruct (SitesByPartitionId _ par) as [sites|] eqn:E; [|by apply not_elem_of_nil in Hs].
    apply uniform_sites in E as (k & -> & E). rewrite E in Hs. apply list_elem_of_fmap in Hs as (r & -> & [_ Hr]%elem_of_seq).
    unfold N_REP_PER_SHARD. rewrite Nat2Z.inj_add, Nat2Z.inj_mul, Z.add_comm, Z.mul_comm, Z.div_add, Z.div_small by lia. lia.
Qed.

(** C4: in every reachable state of SLOG, whatever the order in which messages
    were delivered, two transactions that are in the queues of two sites - of the same
    region or of different regions - are in the same order in both queues. *)
Theorem slog_total_order `{SlogEnv} n_proxies db es w a b sa sb i1 i2 j1 j2 t1 t2 :
  slog_layout -> sys_run n_proxies es (init_sys n_proxies db) = Some w ->
  sy_sites w !! a = Some sa -> sy_sites w !! b = Some sb ->
  ss_txn_queue sa !! i1 = Some (Some t1) -> ss_txn_queue sa !! i2 = Some (Some t2) ->
  ss_txn_queue sb !! j1 = Some (Some t1) -> ss_txn_queue sb !! j2 = Some (Some t2) ->
  (i1 < i2)%nat -> (j1 < j2)%nat.
Proof.
  intros Hly Hrun Ha Hb I1 I2 J1 J2. pose proof (run_inv n_proxies Hly es _ _ (init_inv n_proxies Hly db) Hrun) as Hinv.
  pose proof (sv_queue _ Hinv) as Hq.
  apply (same_order w (leader_of a) (leader_of b) i1 i2 j1 j2 t1 t2); eauto using leader_leads.
Qed.

(** C12: two sites of one region never hold different transactions at the
    same place of their queues, and no site holds a transaction twice. *)
Theorem slog_replicas_agree `{SlogEnv} n_proxies db es w a b sa sb i j t t' :
  slog_layout -> sys_run n_proxies es (init_sys n_proxies db) = Some w ->
  sy_sites w !! a = Some sa -> sy_sites w !! b = Some sb -> region_of a = region_of b ->
  ss_txn_queue sa !! i = Some (Some t) -> ss_txn_queue sb !! j = Some (Some t') -> (i = j <-> t = t').
Proof.
  intros Hly Hrun Ha Hb Hab Hi Hj. pose proof (run_inv n_proxies Hly es _ _ (init_inv n_proxies Hly db) Hrun) as Hinv.
  apply (sv_queue _ Hinv a) in Hi; [|done]. apply (sv_queue _ Hinv b) in Hj; [|done].
  unfold leader_of in *. rewrite <- Hab in Hj. split; [intros ->; congruence|intros <-].
  eapply NoDup_lookup; [|exact Hi|exact Hj]. apply (local_NoDup w (leader_of a)); [done|by apply leader_leads].
Qed.

(** ** An example: two regions, two transactions across them, one in each region *)

Definition slog_demo_reg : Registry :=
  {| Db := list Z; txn_reg_ := fun _ _ => Some (DF_NO, fun c db => (input c, db ++ [root_id_ c], [])) |}.
Definition slog_demo_env : SlogEnv :=
  {| slog_reg := slog_demo_reg; slog_cfg := uniform_config 3 1 2 false []; slog_junk_n_local_pieces := 7;
     slog_junk_coord_site := 9; slog_junk_next_execute_index := 0 |}.
Definition slog_demo_piece (id inn : Z) : SimpleCommand := mk_cmd inn 0 inn id 0 (mk_ws [] [] [] 1) [] 0 0 0 [] false.
Definition slog_demo_cross (id : Z) : cmds_by_par := [(0, [slog_demo_piece id 1]); (1, [slog_demo_piece id 2])].
Definition slog_demo_events : list sys_event :=
  [EvSubmit 0 (slog_demo_cross 100) false; EvSubmit 4 [(1, [slog_demo_piece 200 1])] true;
   EvSubmit 3 (slog_demo_cross 400) false; EvSubmit 1 [(0, [slog_demo_piece 300 1])] true]
  ++ replicate 28 (EvDeliver 0) ++ [EvBatch 0; EvBatch 3] ++ replicate 16 (EvDeliver 0).
Definition slog_demo_run : option (Sys (H := slog_demo_env)) :=
  sys_run 3 slog_demo_events (init_sys 3 (H := slog_demo_env) []).
Definition slog_demo_queue (a : Z) : list (option Z) :=
  match slog_demo_run ≫= (fun w => sy_sites w !! a) with Some s => ss_txn_queue s | None => [] end.

Lemma slog_demo_layout : slog_layout (H := slog_demo_env).
Proof. apply (uniform_slog_layout (H := slog_demo_env) 1 2 false []); [done|lia|lia]. Qed.

Lemma slog_total_order_witness :
  slog_demo_queue 2 = [Some 300; Some 100; Some 400] /\ slog_demo_queue 5 = [Some 200; Some 100; Some 400] /\ (1 < 2)%nat.
Proof.
  split; [vm_compute; reflexivity|]. split; [vm_compute; reflexivity|].
  destruct slog_demo_run as [w|] eqn:E; [|vm_compute in E; discriminate E].
  assert (exists sa, sy_sites w !! 2 = Some sa /\ ss_txn_queue sa = [Some 300; Some 100; Some 400]) as (sa & Ea & Qa).
  { vm_compute in E. injection E as <-. eexists. split; [vm_compute; reflexivity | reflexivity]. }
  assert (exists sb, sy_sites w !! 5 = Some sb /\ ss_txn_queue sb = [Some 200; Some 100; Some 400]) as (sb & Eb & Qb).
  { vm_compute in E. injection E as <-. eexists. split; [vm_compute; reflexivity | reflexivity]. }
  apply (slog_total_order (H := slog_demo_env) 3 [] slog_demo_events w 2 5 sa sb 1 2 1 2 100 400 slog_demo_layout E Ea Eb).
  all: rewrite ?Qa, ?Qb; first [reflexivity | lia].
Defined.

Lemma slog_replicas_agree_witness : slog_demo_queue 0 = slog_demo_queue 2 /\ (1 = 1 <-> 100 = 100).
Proof.
  split; [vm_compute; reflexivity|].
  destruct slog_demo_run as [w|] eqn:E; [|vm_compute in E; discriminate E].
  assert (forall a, a = 0 \/ a = 2 -> exists sa, sy_sites w !! a = Some sa /\ ss_txn_queue sa !! 1%nat = Some (Some 100)) as Hs.
  { intros a Ha. vm_compute in E. injection E as <-. destruct Ha as [-> | ->]; (eexists; split; [vm_compute; reflexivity | reflexivity]). }
  destruct (Hs 0 (or_introl eq_refl)) as (sa & Ea & Qa). destruct (Hs 2 (or_intror eq_refl)) as (sb & Eb & Qb).
  pose proof (slog_replicas_agree (H := slog_demo_env) 3 [] slog_demo_events w 0 2 sa sb 1 1 100 100 slog_demo_layout E Ea Eb eq_refl Qa Qb) as [H1 H2].
  split; [by intros _; apply H1 | done].
Defined.
