(* ===== verification/SlogExec.v ===== *)
(** * SLOG: a site runs its queue in order

    [ExecTxnQueue] goes past transactions that wait for values of other partitions; what
    keeps the execution in the order of the queue is the set of pending pieces.  The
    invariant of the transactions of a site, kept by all its handlers, and the theorem
    that a piece never overtakes a conflicting piece of an earlier transaction. *)
From stdpp Require Import base tactics numbers list sorting gmap.
From S2P Require Import Prelude OMap Command Config ChrTs ChrTypes ChrTx SlogTx SlogSched.

(** ** Pieces that conflict with a pending piece are not run *)
Section blocked.
Context `{Registry} (cfg : Config).

Record blocked_kept (pending : oset Z) (t t' : TxChronos) : Prop := {
  bk_ids : inn_id_ <$> pieces_ t' = inn_id_ <$> pieces_ t;
  bk_flags : forall j x, (inn_id_ <$> pieces_ t) !! j = Some x -> can_exe_wo_conflict cfg x pending = false ->
    flags (pieces_ t') !! j = flags (pieces_ t) !! j;
}.

#[export] Instance blocked_kept_preorder pending : PreOrder (blocked_kept pending).
Proof.
  split; [by split|]. intros t1 t2 t3 [A1 A2] [B1 B2]. split; [congruence|].
  intros j x Hj Hx. rewrite (B2 j x) by (by rewrite ?A1). by apply (A2 j x).
Qed.

Lemma exec_piece_blocked par pending i acc s r s' :
  exec_piece cfg par pending i acc s = Done (r, s') -> blocked_kept pending (tx s) (tx s').
Proof.
  intros Hrun. destruct acc as [ret nc]. apply exec_piece_spec in Hrun as [(-> & _)|[]]; [done|].
  split; [done|]. intros j x Hj Hx. rewrite ran_flags.
  destruct (decide (j = i)) as [->|Hne]; [|by rewrite list_lookup_insert_ne].
  apply ran_free in Hj. congruence.
Qed.

Lemma exec_pass_blocked par pending idxs acc s r s' :
  exec_pass cfg par pending idxs acc s = Done (r, s') -> blocked_kept pending (tx s) (tx s').
Proof.
  revert acc s. induction idxs as [|i idxs IH]; intros acc s Hrun; [by injection Hrun as <- <-|].
  apply bind_done in Hrun as (acc1 & s1 & H1 & Hrun). etrans; [by eapply exec_piece_blocked | by eapply IH].
Qed.

Lemma exec_loop_blocked par pending fuel ret s r s' :
  exec_loop cfg fuel par pending ret s = Done (r, s') -> blocked_kept pending (tx s) (tx s').
Proof.
  revert ret s. induction fuel as [|fuel IH]; intros ret s Hrun; [done|].
  apply bind_done in Hrun as (n & s0 & [= <- <-] & Hrun). apply bind_done in Hrun as ([ret1 nc] & s1 & H1 & Hrun).
  apply exec_pass_blocked in H1. destruct nc; [etrans; [exact H1|by eapply IH] | by injection Hrun as <- <-].
Qed.

Lemma exec_blocked par pending s r s' :
  RecursiveExecuteReadyPieces cfg par pending s = Done (r, s') -> blocked_kept pending (tx s) (tx s').
Proof.
  intros Hrun. unfold RecursiveExecuteReadyPieces in Hrun. apply bind_done in Hrun as ([] & s1 & [= <-] & Hrun).
  apply bind_done in Hrun as (n & s1 & [= <- <-] & Hrun). apply bind_done in Hrun as (ret & s2 & H2 & Hrun).
  apply bind_done in Hrun as (ps & s3 & [= <- <-] & Hrun). injection Hrun as _ <-. apply exec_loop_blocked in H2 as [A B]. by split.
Qed.
End blocked.

Section exec.
Context `{SlogEnv}.

(** ** The transactions of a site *)

Record sx_wf (t : TxSlog) : Prop := {
  xw_fresh : fresh_dreqs t;
  xw_count : sx_n_executed_pieces t = Z.of_nat (ntrue (flags (sx_pieces t)));
  xw_local : sx_pieces t ≠ [] -> sx_n_local_pieces t = Z.of_nat (length (sx_pieces t));
  xw_done : sx_executed t = true -> Forall (fun c => local_executed_ c = true) (sx_pieces t);
}.

(** One transaction is tried: [t] becomes [t'], [pending] becomes [pending']. *)
Record tried (pending pending' : oset Z) (t t' : TxSlog) : Prop := {
  td_wf : sx_wf t';
  td_ids : inn_id_ <$> sx_pieces t' = inn_id_ <$> sx_pieces t;
  td_blocked : forall j x, (inn_id_ <$> sx_pieces t) !! j = Some x -> sx_can_exe_wo_conflict slog_cfg x pending = false ->
    flags (sx_pieces t') !! j = flags (sx_pieces t) !! j;
  td_pending : forall x, x ∈ pending' <-> x ∈ pending \/
    exists c, c ∈ sx_pieces t' /\ local_executed_ c = false /\ inn_id_ c = x;
}.

Lemma recursive_tried par pending t db r t' db' :
  sx_wf t -> sx_executed t = false ->
  sx_RecursiveExecuteReadyPieces slog_cfg par pending (mk_sxst t db) = Done (r, mk_sxst t' db') ->
  tried pending r.2 t t' /\ sx_executed t' = false /\ sx_frame t' = sx_frame t.
Proof.
  intros [Hf Hc Hl _] Hex Hrun. pose proof (recursive_sim slog_cfg par pending (mk_sxst t db) Hf) as Hsim.
  destruct (RecursiveExecuteReadyPieces slog_cfg par pending (chr (mk_sxst t db))) as [[r0 u]| |] eqn:E; [|congruence..].
  destruct Hsim as (s' & Hrun' & <- & Hf' & Hfr). rewrite Hrun in Hrun'. injection Hrun' as <- <-.
  pose proof (exec_blocked _ _ _ _ _ _ E) as [_ Hb]. destruct r as [ret p]. apply exec_done in E as [_ Hcount Hids _ _ Hpend _ _]. cbn in *.
  assert (sx_executed t' = false) as Hex' by (rewrite <- Hex; exact (f_equal sx_executed Hfr)).
  split; [|done]. split; [|done|exact Hb|exact Hpend]. split; [done| | |congruence].
  - unfold ntrue, flags in *. lia.
  - intros Hne. pose proof (f_equal length Hids) as Hlen. rewrite !length_fmap in Hlen.
    rewrite Hlen, <- Hl; [exact (f_equal sx_n_local_pieces Hfr)|]. intros E0. rewrite E0 in Hlen. by destruct (sx_pieces t').
Qed.

Definition txns_are (d : gmap Z TxSlog) (s : SchedulerSlog) : Prop := ss_dtxns s = d.

Lemma txns_are_send d m : preserves (txns_are d) (ss_send m).
Proof. by apply preserves_modify. Qed.
#[local] Hint Resolve txns_are_send : preserves.

Lemma txns_are_reply d id : preserves (txns_are d) (reply_callback id).
Proof. unfold reply_callback. solve_preserves. Qed.

Lemma txns_are_dependent d id vars : preserves (txns_are d) (send_dependent_vars id vars).
Proof. unfold send_dependent_vars, SendDependentValues. solve_preserves. Qed.

(** The fields that [TryExecute] writes besides do not matter for [tried]. *)
Lemma tried_flags pending pending' t t' t'' :
  tried pending pending' t t' -> sx_pieces t'' = sx_pieces t' -> sx_dreqs t'' = sx_dreqs t' ->
  sx_n_executed_pieces t'' = sx_n_executed_pieces t' -> sx_n_local_pieces t'' = sx_n_local_pieces t' ->
  (sx_executed t'' = true -> Forall (fun c => local_executed_ c = true) (sx_pieces t'')) ->
  tried pending pending' t t''.
Proof.
  intros [[[A B] C D _] F G K] E1 E2 E3 E4 Hx.
  split; [|by rewrite E1|by rewrite E1|by rewrite E1]. split; [split; by rewrite E1, ?E2| | |done]; by rewrite ?E1, ?E3, ?E4.
Qed.

(** A transaction all of whose pieces have been counted has run them all. *)
Lemma counted_all t :
  sx_wf t -> sx_n_local_pieces t = sx_n_executed_pieces t -> Forall (fun c => local_executed_ c = true) (sx_pieces t).
Proof.
  intros [_ Hc Hl _] E. destruct (sx_pieces t) as [|c ps] eqn:Ep; [constructor|]. rewrite <- Ep in *.
  assert (ntrue (flags (sx_pieces t)) = length (flags (sx_pieces t))) as Hn.
  { unfold flags at 2. rewrite length_fmap. apply Nat2Z.inj. rewrite <- Hl by (by rewrite Ep). congruence. }
  apply ntrue_all in Hn. unfold flags in Hn. by rewrite Forall_fmap in Hn.
Qed.

(** The transaction [id] has become one that is [tried], all of it run. *)
Definition all_run (d : gmap Z TxSlog) (id : Z) (pending pending' : oset Z) (t : TxSlog) (s : SchedulerSlog) : Prop :=
  exists t', ss_dtxns s = <[id := t']> d /\ tried pending pending' t t' /\ sx_executed t' = true.

Lemma all_run_set d id pending pending' t f :
  (forall u, sx_pieces (f u) = sx_pieces u /\ sx_dreqs (f u) = sx_dreqs u /\
    sx_n_executed_pieces (f u) = sx_n_executed_pieces u /\ sx_n_local_pieces (f u) = sx_n_local_pieces u /\
    sx_executed (f u) = sx_executed u) ->
  preserves (all_run d id pending pending' t) (ss_set_txn id f).
Proof.
  intros Hf. apply preserves_modify. intros s (t' & E & Htr & Hx). destruct (Hf t') as (E1 & E2 & E3 & E4 & E5).
  exists (f t'). unfold set_field. cbn. rewrite E, alter_insert_eq. split_and!; [done| |by rewrite E5].
  eapply tried_flags; try done. rewrite E1. intros _. by apply (xw_done _ (td_wf _ _ _ _ Htr)).
Qed.

Lemma all_run_reply d id pending pending' t i : preserves (all_run d id pending pending' t) (reply_callback i).
Proof.
  intros s a s' (t' & E & Hrest) Hrun. exists t'. split; [|done]. by apply (txns_are_reply _ i s a s' E).
Qed.

Lemma TryExecute_tried id pending par s r s' t :
  ss_dtxns s !! id = Some t -> sx_wf t -> sx_executed t = false ->
  TryExecute id pending par s = Done (r, s') ->
  exists t', ss_dtxns s' = <[id := t']> (ss_dtxns s) /\ tried pending r.2 t t' /\ (r.1.1 = true -> sx_executed t' = true).
Proof.
  intros Ht Hwf Hex Hrun. apply bind_done in Hrun as ([vars pend] & s1 & H1 & Hrun).
  unfold on_sx in H1. rewrite Ht in H1.
  destruct (sx_RecursiveExecuteReadyPieces _ _ _ _) as [[x [t1 db1]]| |] eqn:E; [|done..].
  injection H1 as -> <-. apply recursive_tried in E as (Htr & Hex1 & _); [|done..]. cbn [snd] in Htr.
  apply bind_done in Hrun as (? & ? & [= <- <-] & Hrun). apply bind_done in Hrun as (t2 & s2 & H2 & Hrun).
  set (s1 := _ <| ss_db := _ |>) in *. assert (ss_dtxns s1 = <[id := t1]> (ss_dtxns s)) as Ed by done. clearbody s1.
  rewrite Ed, lookup_insert_eq in H2. injection H2 as <- <-.
  destruct (_ =? _) eqn:En; [|injection Hrun as <- <-; by exists t1].
  apply Z.eqb_eq in En. pose proof (counted_all t1 (td_wf _ _ _ _ Htr) En) as Hall.
  apply bind_done in Hrun as ([] & s2 & H2 & Hrun).
  assert (all_run (ss_dtxns s) id pending pend t s2) as H2'.
  { injection H2 as <-. exists (t1 <| sx_executed := true |>). unfold set_field. cbn. rewrite Ed, alter_insert_eq.
    split_and!; [done| |done]. by apply (tried_flags _ _ _ t1). }
  clear H2. rename H2' into H2.
  apply bind_done in Hrun as (out & s3 & H3 & Hrun). apply (preserves_from_option _ _ _ _ _ H2) in H3.
  apply bind_done in Hrun as ([] & s4 & H4 & Hrun).
  apply (preserves_when _ _ _ (all_run_set _ _ _ _ _
    (fun t : TxSlog => t <| sx_par_output_received ::= insert par true |>) ltac:(done)) _ _ _ H3) in H4.
  apply bind_done in Hrun as ([] & s5 & H5 & Hrun). apply (all_run_reply _ _ _ _ _ _ _ _ _ H4) in H5.
  injection Hrun as <- <-. destruct H5 as (t' & ? & ? & ?). by exists t'.
Qed.

(** ** The queue *)

Definition site_wf (s : SchedulerSlog) : Prop := forall id t, ss_dtxns s !! id = Some t -> sx_wf t.

(** The piece [x] of the transaction [id] has been run between [s] and [s']. *)
Definition piece_ran (s s' : SchedulerSlog) (id x : Z) : Prop :=
  exists t t' j, ss_dtxns s !! id = Some t /\ ss_dtxns s' !! id = Some t' /\
    (inn_id_ <$> sx_pieces t) !! j = Some x /\ flags (sx_pieces t) !! j = Some false /\
    flags (sx_pieces t') !! j = Some true.

(** The piece [y] of the transaction [id] has not been run. *)
Definition piece_waits (s : SchedulerSlog) (id y : Z) : Prop :=
  exists t c, ss_dtxns s !! id = Some t /\ c ∈ sx_pieces t /\ local_executed_ c = false /\ inn_id_ c = y.

(** What a run over the part [l] of the queue does. *)
Record in_order (pending : oset Z) (l : list (option Z)) (s s' : SchedulerSlog) : Prop := {
  io_wf : site_wf s';
  io_other : forall id, Some id ∉ l -> ss_dtxns s' !! id = ss_dtxns s !! id;
  io_pending : forall id x y, piece_ran s s' id x -> y ∈ pending -> sx_check_piece_conflict slog_cfg y x = false;
  io_earlier : forall i k id id' x y, l !! k = Some (Some id) -> piece_ran s s' id x -> (i < k)%nat ->
    l !! i = Some (Some id') -> piece_waits s' id' y -> sx_check_piece_conflict slog_cfg y x = false;
  io_filled : forall i k id x, l !! k = Some (Some id) -> piece_ran s s' id x -> (i < k)%nat -> is_Some (l !! i ≫= (fun o => o));
}.

Lemma not_ran s s' id x : ss_dtxns s' !! id = ss_dtxns s !! id -> ~ piece_ran s s' id x.
Proof. intros E (t & t' & j & H1 & H2 & _ & Hj & Hj'). rewrite E, H1 in H2. injection H2 as <-. congruence. Qed.

Lemma in_order_refl pending l s s' : site_wf s -> ss_dtxns s' = ss_dtxns s -> in_order pending l s s'.
Proof.
  intros Hwf E. assert (forall id x, ~ piece_ran s s' id x) by (intros; apply not_ran; by rewrite E).
  split; [intros id t; rewrite E; apply Hwf | by rewrite E | naive_solver..].
Qed.

Lemma tried_done pending t : sx_wf t -> sx_executed t = true -> tried pending pending t t.
Proof.
  intros Hwf Hex. split; [done..|]. intros x. split; [by left|]. intros [Hx|(c & Hc & Hn & _)]; [done|].
  apply (xw_done _ Hwf) in Hex. rewrite Forall_forall in Hex. rewrite (Hex c Hc) in Hn. done.
Qed.

Lemma can_exe_false x y pending :
  y ∈ pending -> sx_check_piece_conflict slog_cfg y x = true -> sx_can_exe_wo_conflict slog_cfg x pending = false.
Proof.
  intros Hy Hc. apply not_true_iff_false. intros Hall. unfold sx_can_exe_wo_conflict in Hall.
  rewrite forallb_forall in Hall. specialize (Hall y). rewrite <- list_elem_of_In, Hc in Hall. by specialize (Hall Hy).
Qed.

(** The run over the rest of the queue goes on after one transaction has been tried. *)
Lemma in_order_cons pending pending' id l s s1 s' t t' :
  ss_dtxns s !! id = Some t -> ss_dtxns s1 = <[id := t']> (ss_dtxns s) -> tried pending pending' t t' ->
  Some id ∉ l -> in_order pending' l s1 s' -> in_order pending (Some id :: l) s s'.
Proof.
  intros Ht E [Hwf Hids Hbl Hp] Hid [A B C D F].
  assert (forall id2 x, id2 ≠ id -> piece_ran s s' id2 x -> piece_ran s1 s' id2 x) as Hran.
  { intros id2 x Hne (u & u' & j & H1 & Hrest). exists u, u', j. by rewrite E, lookup_insert_ne. }
  assert (ss_dtxns s' !! id = Some t') as Ht' by (by rewrite (B id Hid), E, lookup_insert_eq).
  assert (forall k id2, l !! k = Some (Some id2) -> id2 ≠ id) as Hne
    by (intros k id2 Hk ->; by apply Hid, list_elem_of_lookup_2 with k).
  split; [done| | | |].
  - intros id2 Hn. apply not_elem_of_cons in Hn as [Hn1 Hn2]. rewrite (B id2 Hn2), E, lookup_insert_ne; [done|congruence].
  - intros id2 x y Hx Hy. destruct (decide (id2 = id)) as [->|Hd]; [|apply (C id2); [by apply Hran|]; apply Hp; by left].
    apply not_true_iff_false. intros Hc. destruct Hx as (u & u' & j & H1 & H2 & Hj & H3 & H4).
    rewrite Ht in H1. rewrite Ht' in H2. injection H1 as <-. injection H2 as <-.
    rewrite (Hbl j x Hj (can_exe_false x y pending Hy Hc)) in H4. congruence.
  - intros i [|k] id2 id' x y Hk Hx Hi Hid' Hy; [lia|]. cbn in Hk. specialize (Hran id2 x (Hne k id2 Hk) Hx).
    destruct i as [|i]; cbn in Hid'; [|apply (D i k id2 id' x y); eauto with lia].
    injection Hid' as <-. apply (C id2 x y Hran), Hp. right. destruct Hy as (u & c & H1 & H2).
    rewrite Ht' in H1. injection H1 as <-. by exists c.
  - intros [|i] [|k] id2 x Hk Hx Hi; [lia|done|lia|]. cbn in *. apply (F i k id2 x Hk); [|lia]. apply Hran; [by eapply Hne|done].
Qed.

Definition no_repeats (l : list (option Z)) : Prop :=
  forall i k (id : Z), l !! i = Some (Some id) -> l !! k = Some (Some id) -> i = k.

Lemma no_repeats_cons id l : no_repeats (Some id :: l) -> (Some id ∉ l) /\ no_repeats l.
Proof.
  intros Hn. split; [|intros i k x Hi Hk; specialize (Hn (S i) (S k) x Hi Hk); lia].
  intros Hin. apply list_elem_of_lookup in Hin as [k Hk]. specialize (Hn 0%nat (S k) id eq_refl Hk). lia.
Qed.

Lemma next_execute_txns b s s' :
  when b next_execute s = Done (tt, s') -> ss_dtxns s' = ss_dtxns s.
Proof. by destruct b; intros [= <-]. Qed.

Lemma in_order_from pending l s s1 s' : ss_dtxns s1 = ss_dtxns s -> in_order pending l s1 s' -> in_order pending l s s'.
Proof. intros E []. split; unfold piece_ran in *; rewrite <- ?E; done. Qed.

Lemma site_wf_same s s' : ss_dtxns s' = ss_dtxns s -> site_wf s -> site_wf s'.
Proof. unfold site_wf. by intros ->. Qed.

Lemma exec_queue_in_order l n pending s s' :
  site_wf s -> no_repeats l -> exec_queue n pending l s = Done (tt, s') -> in_order pending l s s'.
Proof.
  revert n pending s. induction l as [|[id|] l IH]; intros n pending s Hwf Hnd Hrun; [by injection Hrun as <-; apply in_order_refl..| |by injection Hrun as <-; apply in_order_refl].
  apply no_repeats_cons in Hnd as [Hid Hnd]. cbn [exec_queue] in Hrun.
  apply bind_done in Hrun as (s0 & ? & [= <- <-] & Hrun). apply bind_done in Hrun as (t & s1 & H1 & Hrun).
  destruct (ss_dtxns s !! id) as [u|] eqn:Ht; [|done]. injection H1 as <- <-.
  destruct (sx_executed u) eqn:Hex.
  - apply bind_done in Hrun as ([] & s2 & H2%next_execute_txns & Hrun).
    apply (in_order_cons pending pending id l s s2 s' u u); [done|by rewrite insert_id|apply tried_done; by eauto|done|].
    eapply IH; [|done..]. by apply (site_wf_same s).
  - apply bind_done in Hrun as ([[fin vars] pend] & s2 & H2 & Hrun).
    apply (TryExecute_tried id pending _ _ _ _ u) in H2 as (u' & Ed & Htr & _); [|by eauto..]. cbn [snd] in Htr.
    apply bind_done in Hrun as ([] & s3 & H3 & Hrun). apply (txns_are_dependent (ss_dtxns s2) _ _ _ _ _ eq_refl) in H3.
    assert (site_wf s3) as Hwf3.
    { apply (site_wf_same s2); [done|]. intros k v. rewrite Ed. intros [(<- & <-)|[_ ?]]%lookup_insert_Some; [apply Htr|by eauto]. }
    apply (in_order_cons pending pend id l s s2 s' u u'); [done..|]. apply (in_order_from _ _ _ s3); [done|].
    destruct fin.
    + apply bind_done in Hrun as ([] & s4 & H4%next_execute_txns & Hrun). apply (in_order_from _ _ _ s4); [done|].
      eapply IH; [|done..]. by apply (site_wf_same s3).
    + destruct (_ >? _); [injection Hrun as <-; by apply in_order_refl | by eapply IH].
Qed.

(** ** The invariant of a site *)

Definition done_upto (s : SchedulerSlog) (c : nat) : Prop :=
  forall i, (i < c)%nat -> exists id t,
    ss_txn_queue s !! i = Some (Some id) /\ ss_dtxns s !! id = Some t /\ sx_executed t = true.

(** Every transaction is well formed, and those before [next_execute_index_] have run. *)
Record site_inv (s : SchedulerSlog) : Prop := {
  si_wf : site_wf s;
  si_next : 0 <= ss_next_execute_index s;
  si_done : done_upto s (Z.to_nat (ss_next_execute_index s));
}.

Definition queue_is (q : list (option Z)) (n : Z) (s : SchedulerSlog) : Prop :=
  ss_txn_queue s = q /\ ss_next_execute_index s = n.

Lemma queue_is_send q n m : preserves (queue_is q n) (ss_send m).
Proof. by apply preserves_modify. Qed.
Lemma queue_is_set q n id f : preserves (queue_is q n) (ss_set_txn id f).
Proof. by apply preserves_modify. Qed.
Lemma queue_is_on_sx {A} q n id (m : M SxSt A) : preserves (queue_is q n) (on_sx id m).
Proof.
  intros s r s' Hs E. unfold on_sx in E. destruct (ss_dtxns s !! id); [|done].
  destruct (m _) as [[b x]| |]; [|done..]. by injection E as <- <-.
Qed.
#[local] Hint Resolve queue_is_send queue_is_set queue_is_on_sx : preserves.

Lemma queue_is_reply q n id : preserves (queue_is q n) (reply_callback id).
Proof. unfold reply_callback. solve_preserves. Qed.
#[local] Hint Resolve queue_is_reply : preserves.

Lemma queue_is_TryExecute q n id pending par : preserves (queue_is q n) (TryExecute id pending par).
Proof. unfold TryExecute. solve_preserves. Qed.

Lemma queue_is_dependent q n id vars : preserves (queue_is q n) (send_dependent_vars id vars).
Proof. unfold send_dependent_vars, SendDependentValues. solve_preserves. Qed.

(** One transaction is replaced; if it had run, it still has. *)
Section put.
Context (s s' : SchedulerSlog) (id : Z) (t' : TxSlog) (Hput : ss_dtxns s' = <[id := t']> (ss_dtxns s))
  (Hrun : forall t, ss_dtxns s !! id = Some t -> sx_executed t = true -> sx_executed t' = true)
  (Hqueue : queue_is (ss_txn_queue s) (ss_next_execute_index s) s').

Lemma done_upto_put c : done_upto s c -> done_upto s' c.
Proof.
  destruct Hqueue as [Eq En]. unfold done_upto. rewrite Eq, Hput. intros Hd i (k & t & Hq & Hk & Hex)%Hd.
  destruct (decide (k = id)) as [->|Hne]; [exists id, t'; rewrite lookup_insert_eq; eauto | exists k, t; by rewrite lookup_insert_ne].
Qed.

Lemma site_inv_put : site_inv s -> sx_wf t' -> site_inv s'.
Proof.
  intros [Hwf Hn Hd] Ht. destruct Hqueue as [_ En].
  split; [|by rewrite En|rewrite En; by apply done_upto_put].
  intros k t. rewrite Hput. intros [(<- & <-)|[_ Hk]]%lookup_insert_Some; [done|by apply (Hwf k)].
Qed.
End put.

Lemma done_upto_same s s' c : ss_dtxns s' = ss_dtxns s -> ss_txn_queue s' = ss_txn_queue s -> done_upto s c -> done_upto s' c.
Proof. unfold done_upto. by intros -> ->. Qed.

Lemma site_inv_same s s' :
  ss_dtxns s' = ss_dtxns s -> queue_is (ss_txn_queue s) (ss_next_execute_index s) s' -> site_inv s -> site_inv s'.
Proof.
  intros Ed [Eq En] [Hwf Hn Hd]. split; [by apply (site_wf_same s)|by rewrite En|]. rewrite En. by apply (done_upto_same s).
Qed.

(** Where the loop stands while it has found nothing pending. *)
Definition front (s : SchedulerSlog) (c : nat) (l : list (option Z)) : Prop :=
  l = drop c (ss_txn_queue s) /\ ss_next_execute_index s <= Z.of_nat c /\ done_upto s c.

(** The loop goes past a transaction that has run. *)
Lemma front_next s c id t l :
  site_inv s -> front s c (Some id :: l) -> ss_dtxns s !! id = Some t -> sx_executed t = true ->
  let s' := s <| ss_next_execute_index ::= fun i => u64 (i + 1) |> in site_inv s' /\ front s' (S c) l.
Proof.
  intros [Hwf Hn _] (Hl & Hc & Hd) Ht Hx s'.
  assert (done_upto s' (S c)) as Hd'.
  { intros i Hi. destruct (decide (i = c)) as [->|Hne]; [|apply Hd; lia]. exists id, t. split; [|done].
    change (ss_txn_queue s') with (ss_txn_queue s). by rewrite <- (Nat.add_0_r c), <- lookup_drop, <- Hl. }
  assert (0 <= ss_next_execute_index s' <= Z.of_nat (S c)) as Hr.
  { unfold s'. cbn. unfold wrap_u. pose proof (Z.mod_pos_bound (ss_next_execute_index s + 1) (2 ^ 64) ltac:(lia)).
    pose proof (Z.mod_le (ss_next_execute_index s + 1) (2 ^ 64) ltac:(lia) ltac:(lia)). lia. }
  split.
  - split; [done|lia|]. intros i Hi. apply Hd'. lia.
  - split_and!; [|lia|done]. change (ss_txn_queue s') with (ss_txn_queue s). apply (f_equal (drop 1)) in Hl.
    rewrite drop_drop, Nat.add_1_r in Hl. exact Hl.
Qed.

Lemma exec_queue_inv l n pending s s' :
  site_inv s -> 0 <= n -> (n = 0 -> exists c, front s c l) ->
  exec_queue n pending l s = Done (tt, s') -> site_inv s'.
Proof.
  revert n pending s. induction l as [|[id|] l IH]; intros n pending s Hinv Hn0 Hf Hrun;
    [by injection Hrun as <-..| |by injection Hrun as <-].
  cbn [exec_queue] in Hrun. apply bind_done in Hrun as (s0 & ? & [= <- <-] & Hrun).
  apply bind_done in Hrun as (t & s1 & H1 & Hrun).
  destruct (ss_dtxns s !! id) as [u|] eqn:Ht; [|done]. injection H1 as <- <-.
  assert (forall s3 u', site_inv s3 -> (n = 0 -> exists c, front s3 c (Some id :: l)) -> ss_dtxns s3 !! id = Some u' ->
    sx_executed u' = true -> forall pending s4, when (n =? 0) next_execute s3 = Done (tt, s4) ->
    exec_queue n pending l s4 = Done (tt, s') -> site_inv s') as Hgo.
  { intros s3 u' Hi3 Hf3 Hu' Hx' p s4 H4 Hrun4. destruct (Z.eqb_spec n 0) as [->|Hne].
    - destruct (Hf3 eq_refl) as [c Hc]. injection H4 as <-.
      destruct (front_next s3 c id u' l Hi3 Hc Hu' Hx') as [Hi4 Hf4]. apply (IH 0 p _ Hi4); [done|by exists (S c)|exact Hrun4].
    - injection H4 as <-. apply (IH n p s3); [done|done|intros; lia|done]. }
  destruct (sx_executed u) eqn:Hex.
  - apply bind_done in Hrun as ([] & s2 & H2 & Hrun). by eapply (Hgo s u).
  - apply bind_done in Hrun as ([[fin vars] pend] & s2 & H2 & Hrun).
    pose proof (queue_is_TryExecute _ _ _ _ _ s _ _ (conj eq_refl eq_refl) H2) as Hq2.
    apply (TryExecute_tried id pending _ _ _ _ u) in H2 as (u' & Ed & Htr & Hfin); [|done|by apply (si_wf s Hinv id)|done].
    apply bind_done in Hrun as ([] & s3 & H3 & Hrun). cbn [fst] in Hfin.
    pose proof (queue_is_dependent _ _ _ _ s2 _ _ Hq2 H3) as Hq3. apply (txns_are_dependent _ _ _ _ _ _ Ed) in H3.
    assert (forall t, ss_dtxns s !! id = Some t -> sx_executed t = true -> sx_executed u' = true) as Hx by (intros; congruence).
    pose proof (site_inv_put s s3 id u' H3 Hx Hq3 Hinv (td_wf _ _ _ _ Htr)) as Hi3.
    assert (n = 0 -> exists c, front s3 c (Some id :: l)) as Hf3.
    { intros (c & Hl & Hc & Hd)%Hf. exists c. split_and!; [|destruct Hq3 as [_ ->]; lia|].
      - destruct Hq3 as [-> _]. done.
      - by apply (done_upto_put s s3 id u'). }
    destruct fin.
    + apply bind_done in Hrun as ([] & s4 & H4 & Hrun). eapply (Hgo s3 u'); eauto. by rewrite H3, lookup_insert_eq.
    + destruct (_ >? _); [by injection Hrun as <-|]. apply (IH (n + 1) pend s3); [done|lia|intros; lia|done].
Qed.
End exec.
