(* ===== verification/SlogRun.v ===== *)
(** * SLOG: a site through its handlers

    The invariant of a site ([site_inv]) holds from the start and is kept by every
    handler; with it, the execution of the queue never lets a piece overtake a
    conflicting piece of a transaction before it. *)
From stdpp Require Import base tactics numbers list sorting gmap.
From S2P Require Import Prelude OMap Command Config ChrTs ChrTypes ChrTx SlogTx SlogSched SlogExec.

Section run.
Context `{SlogEnv}.

(** ** Pieces as a client sends them *)

Definition fresh_pieces (ps : list SimpleCommand) : Prop :=
  NoDup (inn_id_ <$> ps) /\ Forall (fun c => local_executed_ c = false) ps.

Lemma fresh_wf (t : TxSlog) :
  fresh_pieces (sx_pieces t) -> sx_dreqs t = [] -> sx_n_executed_pieces t = 0 ->
  (sx_pieces t ≠ [] -> sx_n_local_pieces t = Z.of_nat (length (sx_pieces t))) -> sx_executed t = false -> sx_wf t.
Proof.
  intros [Hnd Hf] Hd Hn Hl Hx. split; [split; [done|by rewrite Hd]| |done|by rewrite Hx].
  rewrite Hn. unfold ntrue, flags. rewrite Forall_forall in Hf.
  assert (filter (fun b => b = true) (local_executed_ <$> sx_pieces t) = []) as ->; [|done].
  apply elem_of_nil_inv. intros b [Hb (c & -> & Hc)%list_elem_of_fmap]%list_elem_of_filter. by rewrite Hf in Hb.
Qed.

(** Creating a transaction and filling it in. *)
Lemma site_inv_create s s' id f :
  site_inv s -> ss_dtxns s !! id = None -> sx_wf (f (new_sx id)) ->
  ss_dtxns s' = alter f id (<[id := new_sx id]> (ss_dtxns s)) ->
  queue_is (ss_txn_queue s) (ss_next_execute_index s) s' -> site_inv s'.
Proof.
  intros Hinv Hid Hwf E Hq. rewrite alter_insert_eq in E. apply (site_inv_put s s' id _ E); [|done..].
  intros t Ht. by rewrite Hid in Ht.
Qed.

Lemma CreateDTxn_done id s a s' :
  ss_CreateDTxn id s = Done (a, s') -> ss_dtxns s !! id = None /\ s' = s <| ss_dtxns ::= <[id := new_sx id]> |>.
Proof.
  intros Hrun. apply bind_done in Hrun as (? & ? & [= <- <-] & Hrun). apply bind_done in Hrun as ([] & s1 & H1 & Hrun).
  unfold verify in H1. case_bool_decide as Hd; [|done]. injection H1 as <-. injection Hrun as _ <-. done.
Qed.

Lemma OnSubmitTxn_inv cmds irt s s' :
  site_inv s -> Forall (fun p => fresh_pieces p.2) cmds ->
  (forall id, first_root_id cmds = Some id -> ss_dtxns s !! id = None) ->
  OnSubmitTxn cmds irt s = Done (tt, s') -> site_inv s'.
Proof.
  intros Hinv Hc Hnew Hrun. apply bind_done in Hrun as (id & ? & H0 & Hrun).
  destruct (first_root_id cmds) as [tid|] eqn:Ex; [|done]. injection H0 as <- <-. specialize (Hnew tid eq_refl).
  apply bind_done in Hrun as ([] & s1 & H1 & Hrun). apply bind_done in H1 as (? & ? & [= <- <-] & H1).
  rewrite Hnew in H1. apply CreateDTxn_done in H1 as [_ ->].
  apply bind_done in Hrun as ([] & s2 & [= <-] & Hrun). apply bind_done in Hrun as (? & ? & [= <- <-] & Hrun).
  apply bind_done in Hrun as ([] & s3 & [= <-] & Hrun).
  apply (site_inv_create s s' tid (submitted (ss_partition_id s) (ss_site_id s) cmds)); [done|done| | |];
    [|by destruct irt; injection Hrun as <-..].
  apply fresh_wf; unfold submitted; destruct (find _ cmds) as [ps|] eqn:Ef; cbn; try done; [|by repeat constructor].
  rewrite Forall_forall in Hc. apply find_elem_of in Ef.
  by specialize (Hc _ Ef).
Qed.

(** ** Batches *)

(** The queue may grow, and be filled where it is empty. *)
Lemma site_inv_queue s s' :
  site_inv s -> ss_dtxns s' = ss_dtxns s -> ss_next_execute_index s' = ss_next_execute_index s ->
  (forall i id, ss_txn_queue s !! i = Some (Some id) -> ss_txn_queue s' !! i = Some (Some id)) -> site_inv s'.
Proof.
  intros [Hwf Hn Hd] Ed En Hq. split; [by apply (site_wf_same s)|by rewrite En|]. rewrite En.
  intros i (id & t & Hi & Ht & Hx)%Hd. exists id, t. rewrite Ed. eauto.
Qed.

Lemma queue_put_inv i id s s' : site_inv s -> queue_put i id s = Done (tt, s') -> site_inv s'.
Proof.
  intros Hinv Hrun. apply bind_done in Hrun as (? & ? & [= <- <-] & Hrun). apply bind_done in Hrun as (e & s1 & H1 & Hrun).
  destruct (ss_txn_queue s !! i) as [e0|] eqn:Ei; [|done]. injection H1 as -> <-.
  apply bind_done in Hrun as ([] & s1 & H1 & Hrun). unfold verify in H1. case_bool_decide as He; [|done].
  injection H1 as <-. injection Hrun as <-. apply (site_inv_queue s); [done..|]. intros k id' Hk. cbn.
  rewrite list_lookup_insert_ne; [done|]. intros ->. congruence.
Qed.

Lemma put_txn_inv i cmd coord s s' :
  fresh_pieces cmd.2 -> site_inv s -> put_txn i cmd coord s = Done (tt, s') -> site_inv s'.
Proof.
  destruct cmd as [id ps]. intros Hf Hinv Hrun. apply bind_done in Hrun as (? & ? & [= <- <-] & Hrun).
  destruct (ss_dtxns s !! id) as [t|] eqn:Ht.
  - apply bind_done in Hrun as ([] & s1 & H1 & Hrun). apply (preserves_verify _ _ _ _ _ Hinv) in H1.
    apply bind_done in Hrun as ([] & s2 & H2 & Hrun). apply (preserves_verify _ _ _ _ _ H1) in H2.
    by eapply queue_put_inv.
  - apply bind_done in Hrun as ([] & s1 & H1 & Hrun). apply CreateDTxn_done in H1 as [_ ->].
    apply bind_done in Hrun as ([] & s2 & [= <-] & Hrun). eapply queue_put_inv; [|exact Hrun].
    apply (site_inv_create s _ id (received (ss_site_id s) coord ps)); [done|done|by apply fresh_wf|done|done].
Qed.

Lemma put_txns_inv i cmds coords s s' :
  Forall (fun c => fresh_pieces c.2) cmds -> site_inv s -> put_txns i cmds coords s = Done (tt, s') -> site_inv s'.
Proof.
  intros Hf. revert i coords s. induction Hf as [|cmd cmds Hc Hf IH]; intros i coords s Hinv Hrun; [by injection Hrun as <-|].
  apply bind_done in Hrun as (c & s1 & H1 & Hrun). apply (preserves_from_option _ _ _ _ _ Hinv) in H1.
  apply bind_done in Hrun as ([] & s2 & H2%put_txn_inv & Hrun); [|done..]. by eapply IH.
Qed.

Lemma ExecTxnQueue_inv s s' : site_inv s -> ExecTxnQueue s = Done (tt, s') -> site_inv s'.
Proof.
  intros Hinv Hrun. apply bind_done in Hrun as (? & ? & [= <- <-] & Hrun).
  apply (exec_queue_inv _ _ _ s s' Hinv) in Hrun; [done|done|]. intros _. pose proof (si_next s Hinv).
  exists (Z.to_nat (ss_next_execute_index s)). split_and!; [done|lia|by apply si_done].
Qed.

(** ** Values of other partitions *)

Lemma merge_sx_wf out t : sx_wf t -> sx_wf (sx_MergeCheckReadyPieces out t).1.
Proof.
  intros [[Hnd Hr] Hc Hl Hx]. unfold sx_MergeCheckReadyPieces. destruct (merge_output_spec out (sx_pieces t)) as [Hle _].
  destruct (merge_output out (sx_pieces t)) as [ps r]. cbn [fst] in *.
  pose proof (piece_le_flags _ _ Hle) as Hfl. pose proof (piece_le_ids _ _ Hle) as Hids.
  pose proof (Forall2_length _ _ _ Hle) as Hlen. split; cbn.
  - split; cbn; [by rewrite Hids|]. intros c [j Hj]%list_elem_of_lookup Hex.
    destruct (Forall2_lookup_r _ _ _ _ _ Hle Hj) as (c0 & H0 & Hpc). destruct Hpc as (E1 & E2 & E3). rewrite E2.
    apply Hr; [by apply list_elem_of_lookup_2 with j|congruence].
  - unfold ntrue, flags in *. cbn. by rewrite Hfl.
  - rewrite <- Hlen. intros Hne. apply Hl. intros E. rewrite E in Hlen. by destruct ps.
  - intros Hex. specialize (Hx Hex). assert (Forall (fun b => b = true) (flags ps)) as Hps
      by (rewrite Hfl; unfold flags; by rewrite Forall_fmap).
    unfold flags in Hps. by rewrite Forall_fmap in Hps.
Qed.

Lemma merge_executed out t : sx_executed (sx_MergeCheckReadyPieces out t).1 = sx_executed t.
Proof. unfold sx_MergeCheckReadyPieces. by destruct (merge_output _ _). Qed.

(** A transaction that exists is changed, and stays well formed. *)
Lemma site_inv_set s id t f :
  site_inv s -> ss_dtxns s !! id = Some t -> sx_wf (f t) -> sx_executed (f t) = sx_executed t ->
  site_inv (s <| ss_dtxns ::= alter f id |>).
Proof.
  intros Hinv Ht Hwf Hx. apply (site_inv_put s _ id (f t)); [|intros t' Ht'; congruence|done..].
  cbn. apply map_eq. intros k. destruct (decide (k = id)) as [->|Hne].
  - by rewrite lookup_alter_eq, lookup_insert_eq, Ht.
  - by rewrite lookup_alter_ne, lookup_insert_ne.
Qed.

Lemma merge_inv id out : preserves site_inv (ss_merge id out).
Proof.
  intros s a s' Hinv Hrun. apply bind_done in Hrun as (? & ? & [= <- <-] & Hrun). apply bind_done in Hrun as (t & s1 & H1 & Hrun).
  destruct (ss_dtxns s !! id) as [u|] eqn:Ht; [|done]. injection H1 as -> <-.
  pose proof (merge_sx_wf out t (si_wf s Hinv id t Ht)) as Hm. pose proof (merge_executed out t) as Hx.
  destruct (sx_MergeCheckReadyPieces out t) as [t' more]. apply bind_done in Hrun as ([] & s1 & [= <-] & Hrun).
  injection Hrun as <- <-. by apply (site_inv_set s id t (fun _ => t')).
Qed.

Lemma keep_inv (f : SchedulerSlog -> SchedulerSlog) :
  (forall s, ss_dtxns (f s) = ss_dtxns s /\ queue_is (ss_txn_queue s) (ss_next_execute_index s) (f s)) ->
  preserves site_inv (modify f).
Proof. intros Hf. apply preserves_modify. intros s. destruct (Hf s). by apply site_inv_same. Qed.

Lemma check_deps_inv b kept todo : preserves site_inv (check_deps b kept todo).
Proof.
  revert b kept. induction todo as [|r todo IH]; intros b kept; cbn [check_deps]; pose proof merge_inv; pose proof keep_inv;
    unfold ss_GetDTxn; solve_preserves_with ltac:(first [apply IH | by apply keep_inv | solve [eauto]]).
Qed.

Lemma OnSendTxnOutput_inv id par out : preserves site_inv (OnSendTxnOutput id par out).
Proof.
  intros s [] s' Hinv Hrun. apply bind_done in Hrun as (? & ? & [= <- <-] & Hrun). apply bind_done in Hrun as (t & s1 & H1 & Hrun).
  destruct (ss_dtxns s !! id) as [u|] eqn:Ht; [|done]. injection H1 as -> <-.
  apply bind_done in Hrun as (b & s1 & H1 & Hrun). apply (preserves_from_option _ (fun x => x = s) _ _ _ eq_refl) in H1 as ->.
  destruct b; [by injection Hrun as <-|]. apply bind_done in Hrun as ([] & s1 & [= <-] & Hrun).
  set (f := fun t : TxSlog => t <| sx_par_output_received ::= insert par true |>).
  assert (site_inv (s <| ss_dtxns ::= alter f id |>)) as H1.
  { apply (site_inv_set s id t); [done|done| |done]. by destruct (si_wf s Hinv id t Ht) as [[] ? ? ?]. }
  eapply site_inv_same; [| |exact H1].
  - by apply (txns_are_reply _ id _ _ _ eq_refl Hrun).
  - by apply (queue_is_reply _ _ id _ _ _ (conj eq_refl eq_refl) Hrun).
Qed.

(** The part of [OnSendBatch] that fills the queue. *)
Definition put_batch (start_index : nat) (cmds : list (Z * list SimpleCommand)) (coord_sites : list (Z * Z)) :
    M SchedulerSlog () :=
  modify (fun s => s <| ss_txn_queue ::= fun q => q ++ replicate (start_index + length cmds - length q) None |>);;
  put_txns start_index cmds coord_sites.

Lemma OnSendBatch_parts i cmds coords s :
  OnSendBatch i cmds coords s = (put_batch i cmds coords;; ExecTxnQueue;; CheckPendingDeps) s.
Proof.
  unfold OnSendBatch, put_batch, mbind, M_bind. cbn [modify]. by destruct (put_txns i cmds coords _) as [[[] s2]| |].
Qed.

Lemma put_batch_inv i cmds coords s s' :
  Forall (fun c => fresh_pieces c.2) cmds -> site_inv s -> put_batch i cmds coords s = Done (tt, s') -> site_inv s'.
Proof.
  intros Hf Hinv Hrun. apply bind_done in Hrun as ([] & s1 & [= <-] & Hrun). apply put_txns_inv in Hrun; [done..|].
  apply (site_inv_queue s); [done..|]. intros k id Hk. cbn. by apply lookup_app_l_Some.
Qed.

(** ** Calls *)

Inductive SiteCall :=
  | CallSubmitTxn (cmds : cmds_by_par) (is_irt : bool)
  | CallSendBatch (start_index : nat) (cmds : list (Z * list SimpleCommand)) (coord_sites : list (Z * Z))
  | CallSendDepValues (req : ChronosSendOutputReq)
  | CallSendTxnOutput (txn_id par_id : Z) (out : TxnOutput).

Definition site_call (c : SiteCall) : M SchedulerSlog () :=
  match c with
  | CallSubmitTxn cmds is_irt => OnSubmitTxn cmds is_irt
  | CallSendBatch i cmds coord_sites => OnSendBatch i cmds coord_sites
  | CallSendDepValues req => OnSendDepValues req
  | CallSendTxnOutput id par out => OnSendTxnOutput id par out
  end.

(** Pieces arrive as the client has made them, and a transaction is submitted once. *)
Definition call_ok (s : SchedulerSlog) (c : SiteCall) : Prop :=
  match c with
  | CallSubmitTxn cmds _ => Forall (fun p => fresh_pieces p.2) cmds /\
      forall id, first_root_id cmds = Some id -> ss_dtxns s !! id = None
  | CallSendBatch _ cmds _ => Forall (fun c => fresh_pieces c.2) cmds
  | _ => True
  end.

(** The states of a site between the parts of its handlers. *)
Inductive site_at (site par : Z) (db : Db) : SchedulerSlog -> Prop :=
  | at_new : site_at site par db (new_SchedulerSlog site par db)
  | at_submit s cmds irt s' : site_at site par db s -> call_ok s (CallSubmitTxn cmds irt) ->
      OnSubmitTxn cmds irt s = Done (tt, s') -> site_at site par db s'
  | at_batch s i cmds coord_sites s' : site_at site par db s -> call_ok s (CallSendBatch i cmds coord_sites) ->
      put_batch i cmds coord_sites s = Done (tt, s') -> site_at site par db s'
  | at_exec s s' : site_at site par db s -> ExecTxnQueue s = Done (tt, s') -> site_at site par db s'
  | at_deps s b s' : site_at site par db s -> check_deps false [] (ss_pending_dep_values s) s = Done (b, s') ->
      site_at site par db s'
  | at_merge s id vars b s' : site_at site par db s -> ss_merge id vars s = Done (b, s') -> site_at site par db s'
  | at_wait s req : site_at site par db s -> site_at site par db (s <| ss_pending_dep_values ::= fun l => l ++ [req] |>)
  | at_output s id p out s' : site_at site par db s -> OnSendTxnOutput id p out s = Done (tt, s') -> site_at site par db s'.

(** The handlers go through such states. *)
Lemma call_at site par db s c s' :
  site_at site par db s -> call_ok s c -> site_call c s = Done (tt, s') -> site_at site par db s'.
Proof.
  intros Hat Hok Hrun. destruct c as [cmds irt|i cmds coords|req|id p out]; cbn in Hrun; [by eapply at_submit| | |by eapply at_output].
  - rewrite OnSendBatch_parts in Hrun. apply bind_done in Hrun as ([] & s1 & H1 & Hrun).
    apply bind_done in Hrun as ([] & s2 & H2 & Hrun). apply bind_done in Hrun as (? & ? & [= <- <-] & Hrun).
    apply bind_done in Hrun as (b & s3 & H3 & Hrun).
    assert (site_at site par db s3) as Hs3 by (eapply at_deps, H3; eapply at_exec, H2; by eapply at_batch).
    destruct b; [by eapply at_exec | by injection Hrun as <-].
  - apply bind_done in Hrun as (d & ? & [= <- <-] & Hrun). destruct (ss_dtxns s !! so_txn_id req).
    + apply bind_done in Hrun as (b & s1 & H1 & Hrun). apply at_merge with (site := site) (par := par) (db := db) in H1; [|done].
      destruct b; [by eapply at_exec | by injection Hrun as <-].
    + injection Hrun as <-. by apply at_wait.
Qed.

Lemma at_inv site par db s : slog_junk_next_execute_index = 0 -> site_at site par db s -> site_inv s.
Proof.
  intros Hj. induction 1 as [|s cmds irt s' Hr IH [Hf Hn] Hrun|s i cmds coords s' Hr IH Hf Hrun|s s' Hr IH Hrun|s b s' Hr IH Hrun
    |s id vars b s' Hr IH Hrun|s req Hr IH|s id p out s' Hr IH Hrun].
  - split; cbn; rewrite ?Hj; [|lia|intros i Hi; lia]. intros id t. cbn. by rewrite lookup_empty.
  - by apply (OnSubmitTxn_inv cmds irt s).
  - by apply (put_batch_inv i cmds coords s).
  - by apply (ExecTxnQueue_inv s).
  - by apply (check_deps_inv false [] (ss_pending_dep_values s) s b s').
  - by apply (merge_inv id vars s b s').
  - by apply (site_inv_same s).
  - by apply (OnSendTxnOutput_inv id p out s tt s').
Qed.

Lemma no_repeats_drop n l : no_repeats l -> no_repeats (drop n l).
Proof. intros Hn i k id. rewrite !lookup_drop. intros Hi Hk. specialize (Hn _ _ _ Hi Hk). lia. Qed.

(** A transaction that has run is not touched, and has nothing left to run. *)
Lemma past_waits_not s s' i id t y :
  site_inv s -> no_repeats (ss_txn_queue s) -> (i < Z.to_nat (ss_next_execute_index s))%nat ->
  ss_txn_queue s !! i = Some (Some id) -> ss_dtxns s !! id = Some t -> sx_executed t = true ->
  (forall id, Some id ∉ drop (Z.to_nat (ss_next_execute_index s)) (ss_txn_queue s) -> ss_dtxns s' !! id = ss_dtxns s !! id) ->
  ~ piece_waits s' id y.
Proof.
  intros Hinv Hnr Hi Hq Ht Hx Hother (t' & c & Ht' & Hc & Hf & _). rewrite Hother, Ht in Ht'.
  - injection Ht' as <-. pose proof (xw_done t (si_wf s Hinv id t Ht) Hx) as Hall. rewrite Forall_forall in Hall.
    rewrite (Hall c Hc) in Hf. done.
  - intros [j Hj]%list_elem_of_lookup. rewrite lookup_drop in Hj. specialize (Hnr _ _ _ Hq Hj). lia.
Qed.
End run.

(** C11: wherever the handlers of a site run its queue
    ([next_execute_index_], which nothing initialises, happening to be zero at the
    start) and no transaction is in the queue twice, [ExecTxnQueue] runs a piece only when the queue is filled up to its
    transaction, and only when it conflicts with no piece that a transaction before it
    in the queue has left to run: going past transactions that wait, it keeps the order
    of the queue between conflicting pieces. *)
Theorem slog_runs_in_order `{SlogEnv} site par db s s' k id x :
  slog_junk_next_execute_index = 0 -> site_at site par db s -> no_repeats (ss_txn_queue s) ->
  ExecTxnQueue s = Done (tt, s') ->
  ss_txn_queue s !! k = Some (Some id) -> piece_ran s s' id x ->
  forall i, (i < k)%nat -> exists id', ss_txn_queue s !! i = Some (Some id') /\
    forall y, piece_waits s' id' y -> sx_check_piece_conflict slog_cfg y x = false.
Proof.
  intros Hj Hat Hnr Hrun Hk Hx i Hi. pose proof (at_inv site par db s Hj Hat) as Hinv.
  apply bind_done in Hrun as (? & ? & [= <- <-] & Hrun). set (n := Z.to_nat (ss_next_execute_index s)) in *.
  apply exec_queue_in_order in Hrun as [_ Hother _ Hearly Hfill]; [|by apply Hinv|by apply no_repeats_drop].
  destruct (decide (i < n)%nat) as [Hin|Hin].
  - destruct (si_done s Hinv i Hin) as (id' & t & Hq & Ht & Hex). exists id'. split; [done|].
    intros y Hy. by destruct (past_waits_not s s' i id' t y Hinv Hnr Hin Hq Ht Hex Hother).
  - assert (drop n (ss_txn_queue s) !! (k - n)%nat = Some (Some id)) as Hk'
      by (rewrite lookup_drop, <- Hk; f_equal; lia).
    destruct (Hfill (i - n)%nat (k - n)%nat id x Hk' Hx ltac:(lia)) as [id' Hid'].
    destruct (drop n (ss_txn_queue s) !! (i - n)%nat) as [o|] eqn:Hi'; [|done]. cbn in Hid'. subst o.
    exists id'. split; [rewrite <- Hi', lookup_drop; f_equal; lia|].
    intros y. apply (Hearly (i - n)%nat (k - n)%nat id); [done|done|lia|done].
Qed.

(** ** An example: the first transaction waits, the second goes past it in part *)

Definition slog_order_reg : Registry :=
  {| Db := list Z; txn_reg_ := fun _ _ => Some (DF_NO, fun c db => (input c, db ++ [root_id_ c], [])) |}.
Definition slog_order_env : SlogEnv :=
  {| slog_reg := slog_order_reg; slog_cfg := uniform_config 3 1 2 true [(8, 7)]; slog_junk_n_local_pieces := 7;
     slog_junk_coord_site := 9; slog_junk_next_execute_index := 0 |}.
Definition slog_order_piece (id inn ready : Z) : SimpleCommand :=
  mk_cmd inn 0 inn id 0 (mk_ws [] [] [] ready) [] 0 0 0 [] false.
Definition slog_order_cmds : list (Z * list SimpleCommand) :=
  [(100, [slog_order_piece 100 8 0]); (200, [slog_order_piece 200 7 1; slog_order_piece 200 9 1])].
Definition slog_order_s0 : SchedulerSlog (H := slog_order_env) := new_SchedulerSlog (H := slog_order_env) 0 0 [].

Lemma slog_runs_in_order_witness : exists s s',
  put_batch (H := slog_order_env) 0 slog_order_cmds [(100, 4); (200, 4)] slog_order_s0 = Done (tt, s) /\
  ExecTxnQueue s = Done (tt, s') /\ ss_db s' = [200] /\ piece_waits s' 200 7 /\
  exists id', ss_txn_queue s !! 0%nat = Some (Some id') /\
    forall y, piece_waits s' id' y -> sx_check_piece_conflict (slog_cfg (SlogEnv := slog_order_env)) y 9 = false.
Proof.
  destruct (put_batch (H := slog_order_env) 0 slog_order_cmds [(100, 4); (200, 4)] slog_order_s0) as [[[] s]| |] eqn:Ep;
    [|vm_compute in Ep; discriminate Ep..].
  destruct (ExecTxnQueue s) as [[[] s']| |] eqn:Ex.
  2,3: vm_compute in Ep; injection Ep as <-; vm_compute in Ex; discriminate Ex.
  exists s, s'. assert (site_at (H := slog_order_env) 0 0 [] s) as Hat.
  { eapply at_batch; [apply at_new| |exact Ep]. unfold slog_order_cmds.
    repeat first [constructor | set_solver]. }
  assert (piece_ran s s' 200 9 /\ ss_db s' = [200] /\ piece_waits s' 200 7 /\ ss_txn_queue s = [Some 100; Some 200]) as (Hr & Hd & Hw & Hq).
  { vm_compute in Ep. injection Ep as <-. vm_compute in Ex. injection Ex as <-. split_and!; [|reflexivity| |reflexivity].
    - do 2 eexists. exists 1%nat. split_and!; vm_compute; reflexivity.
    - do 2 eexists. split; [vm_compute; reflexivity|]. split; [apply list_elem_of_here|done]. }
  split_and!; [done..|].
  apply (slog_runs_in_order (H := slog_order_env) 0 0 [] s s' 1 200 9 eq_refl Hat); [| exact Ex | by rewrite Hq | exact Hr | lia].
  rewrite Hq. intros [|[|i]] [|[|k]] id; cbn; intros; simplify_eq; done.
Defined.
