(* ===== verification/MemRow.v ===== *)
(** * The in-memory database: schemas and rows
    (src/memdb/schema.h, schema.cc, row.h, row.cc, and the parts of value.h and value.cc
    they use)

    A row keeps the columns of fixed size in one block of bytes, at the offsets its
    schema gives out, and its strings either packed in one block with the position
    where each one stops (a dense row) or one by one (a sparse row; an update that
    changes the length of a string turns a dense row into a sparse one).

    Memory that is read or written outside of an array is [Aborted].  Positions are
    natural numbers; the code has [int], and a row is far from [2^31] bytes.  A row that
    is in a table takes itself out and puts itself back when an indexed column changes;
    these calls are returned. *)
From stdpp Require Import base tactics numbers list sorting.
From S2P Require Import Prelude SparseInt OMap Command.

(** ** Kinds of values *)

Inductive kind := UNKNOWN | I32 | I64 | DOUBLE | STR.
#[export] Instance kind_eq_dec : EqDecision kind.
Proof. solve_decision. Defined.

Definition get_kind (v : Value) : kind :=
  match v with
  | V_UNKNOWN => UNKNOWN
  | V_I32 _ => I32
  | V_I64 _ => I64
  | V_DOUBLE _ => DOUBLE
  | V_STR _ => STR
  end.

(** [sizeof] of what is kept in the block of fixed size. *)
Definition fixed_size (k : kind) : nat :=
  match k with
  | I32 => 4
  | I64 | DOUBLE => 8
  | STR | UNKNOWN => 0
  end.

Definition int_bytes (n : nat) (v : Z) : list Z := byte_at v <$> seq 0 n.

Definition write_binary (v : Value) : option (list Z) :=
  match v with
  | V_UNKNOWN => None
  | V_I32 i => Some (int_bytes 4 i)
  | V_I64 i => Some (int_bytes 8 i)
  | V_DOUBLE d => Some (int_bytes 8 d)
  | V_STR s => Some s
  end.

(** ** Schemas *)

(** [ci_pos] is [fixed_size_offst], or [var_size_idx] for a string. *)
Record column_info := mk_col { ci_id : Z; ci_name : list Z; ci_indexed : bool; ci_type : kind; ci_pos : nat }.
#[export] Instance Eta_col : Eta column_info := fun r => mk_col (ci_id r) (ci_name r) (ci_indexed r) (ci_type r) (ci_pos r).

Record Schema := mk_schema {
  col_name_to_id_ : list (list Z * Z);
  col_info_ : list column_info;
  key_cols_id_ : list Z;
  var_size_cols_ : nat;
  fixed_part_size_ : nat;
  hidden_fixed_ : nat;
  hidden_var_ : nat;
  frozen_ : bool;
}.
#[export] Instance Eta_schema : Eta Schema :=
  fun r => mk_schema (col_name_to_id_ r) (col_info_ r) (key_cols_id_ r) (var_size_cols_ r) (fixed_part_size_ r)
    (hidden_fixed_ r) (hidden_var_ r) (frozen_ r).

Definition new_Schema : Schema := mk_schema [] [] [] 0 0 0 0 false.

(** [col_name_to_id_.find(name)] *)
Definition find_name (name : list Z) (s : Schema) : option Z :=
  snd <$> List.find (fun p => bool_decide (p.1 = name)) (col_name_to_id_ s).

Definition get_column_id (name : list Z) (s : Schema) : Z := default (-1) (find_name name s).

Definition do_add_column (name : list Z) (type : kind) (key : bool) : M Schema Z :=
  s ← get;
  let this_column_id := Z.of_nat (length (col_name_to_id_ s)) in
  match find_name name s with
  | Some _ => mret (-1)
  | None =>
    when key (modify (fun s => s <| key_cols_id_ ::= fun l => l ++ [this_column_id] |>));;
    pos ←
      (if bool_decide (type = STR) then
         modify (fun s => s <| var_size_cols_ ::= S |>);;
         mret (var_size_cols_ s)
       else
         verify (negb (bool_decide (type = UNKNOWN)));;
         modify (fun s => s <| fixed_part_size_ ::= fun n => (n + fixed_size type)%nat |>);;
         mret (fixed_part_size_ s));
    modify (fun s => s <| col_name_to_id_ ::= fun l => l ++ [(name, this_column_id)] |>
                       <| col_info_ ::= fun l => l ++ [mk_col this_column_id name key type pos] |>);;
    mret this_column_id
  end.

Definition add_column (name : list Z) (type : kind) (key : bool) : M Schema Z :=
  s ← get;
  verify (negb (frozen_ s) && (hidden_fixed_ s =? 0)%nat && (hidden_var_ s =? 0)%nat);;
  do_add_column name type key.

Definition add_hidden_column (name : list Z) (type : kind) : M Schema Z :=
  s ← get;
  verify (negb (frozen_ s));;
  ret ← do_add_column name type false;
  modify (fun s => if bool_decide (type = STR) then s <| hidden_var_ ::= S |> else s <| hidden_fixed_ ::= S |>);;
  mret ret.

Definition freeze : M Schema () := modify (fun s => s <| frozen_ := true |>).

Definition columns_count (s : Schema) : nat := (length (col_info_ s) - hidden_fixed_ s - hidden_var_ s)%nat.

(** [begin()] to [end()] *)
Definition visible_columns (s : Schema) : list column_info := take (columns_count s) (col_info_ s).

(** ** Schemas with secondary indices *)

Record IndexedSchema := mk_ischema {
  is_schema : Schema;
  idx_col_ : Z;
  all_idx_ : list (list Z);
  idx_name_ : list (list Z * Z);
}.
#[export] Instance Eta_ischema : Eta IndexedSchema :=
  fun r => mk_ischema (is_schema r) (idx_col_ r) (all_idx_ r) (idx_name_ r).

Definition new_IndexedSchema : IndexedSchema := mk_ischema new_Schema (-1) [] [].

Definition on_schema {A} (m : M Schema A) : M IndexedSchema A := fun s =>
  match m (is_schema s) with
  | Done (a, s') => Done (a, s <| is_schema := s' |>)
  | Aborted => Aborted
  | OutOfFuel => OutOfFuel
  end.

Definition index_sanity_check (idx : list Z) : M IndexedSchema () :=
  s ← get;
  verify (bool_decide (NoDup idx));;
  for_each idx (fun column_id => verify ((0 <=? column_id) && (column_id <? Z.of_nat (columns_count (is_schema s))))).

Definition mark_indexed (col_id : Z) : M IndexedSchema () :=
  modify (fun s => s <| is_schema ::= fun c => c <| col_info_ ::= alter (fun i => i <| ci_indexed := true |>) (Z.to_nat col_id) |> |>).

Definition add_index (name : list Z) (idx : list Z) : M IndexedSchema Z :=
  index_sanity_check idx;;
  s ← get;
  let this_idx_id := Z.of_nat (length (all_idx_ s)) in
  if existsb (fun p => bool_decide (p.1 = name)) (idx_name_ s) then mret (-1)
  else
    for_each idx mark_indexed;;
    modify (fun s => s <| idx_name_ ::= fun l => l ++ [(name, this_idx_id)] |> <| all_idx_ ::= fun l => l ++ [idx] |>);;
    mret this_idx_id.

(** [add_index_by_column_names]: the names are looked up, one after the other. *)
Fixpoint column_ids (names : list (list Z)) : M IndexedSchema (list Z) :=
  match names with
  | [] => mret []
  | name :: names =>
    s ← get;
    let col_id := get_column_id name (is_schema s) in
    verify (0 <=? col_id);;
    idx ← column_ids names;
    mret (col_id :: idx)
  end.
Definition add_index_by_column_names (name : list Z) (named_idx : list (list Z)) : M IndexedSchema Z :=
  idx ← column_ids named_idx;
  add_index name idx.

(** [".index"] *)
Definition index_name : list Z := [46; 105; 110; 100; 101; 120].

Definition ifreeze : M IndexedSchema () :=
  s ← get;
  when (negb (frozen_ (is_schema s)))
    (idx_col ← on_schema (add_hidden_column index_name I64);
     modify (fun s => s <| idx_col_ := idx_col |>);;
     verify (0 <=? idx_col));;
  on_schema freeze.

(** ** Rows *)

Inductive VarPart :=
  | Dense (dense_var_part_ : list Z) (dense_var_idx_ : list nat)
  | Sparse (sparse_var_ : list (list Z)).

Record Row := mk_row {
  fixed_part_ : list Z;
  var_part_ : VarPart;
  tbl_ : option Z;
  rdonly_ : bool;
  schema_ : Schema;
}.
#[export] Instance Eta_row : Eta Row := fun r => mk_row (fixed_part_ r) (var_part_ r) (tbl_ r) (rdonly_ r) (schema_ r).

(** Calls of a row to the table it is in. *)
Inductive TblCall := NotifyBefore (col : Z) | TblRemove | TblInsert | NotifyAfter (col : Z).

(** [len] bytes from [pos] on; writing them. *)
Definition slice (pos len : nat) (l : list Z) : option (list Z) :=
  if (pos + len <=? length l)%nat then Some (take len (drop pos l)) else None.
Definition write_at (pos : nat) (b : list Z) (l : list Z) : option (list Z) :=
  if (pos + length b <=? length l)%nat then Some (take pos l ++ b ++ drop (pos + length b) l) else None.

(** Where the string number [i] of a dense row starts, and its length. *)
Definition dense_range (idx : list nat) (i : nat) : option (nat * nat) :=
  match i with
  | O => stop ← idx !! 0%nat; Some (0%nat, stop)
  | S k => start ← idx !! k; stop ← idx !! i; Some (start, (stop - start)%nat)
  end.

Definition get_str (i : nat) (v : VarPart) : option (list Z) :=
  match v with
  | Dense part idx => '(start, len) ← dense_range idx i; slice start len part
  | Sparse strs => strs !! i
  end.

Definition get_column_info (column_id : nat) (r : Row) : option column_info := col_info_ (schema_ r) !! column_id.

Definition get_blob (column_id : nat) (r : Row) : option (list Z) :=
  info ← get_column_info column_id r;
  match ci_type info with
  | I32 => slice (ci_pos info) 4 (fixed_part_ r)
  | I64 | DOUBLE => slice (ci_pos info) 8 (fixed_part_ r)
  | STR => get_str (ci_pos info) (var_part_ r)
  | UNKNOWN => None
  end.

Definition value_of (k : kind) (b : list Z) : option Value :=
  match k with
  | I32 => Some (V_I32 (of_bytes b))
  | I64 => Some (V_I64 (of_bytes b))
  | DOUBLE => Some (V_DOUBLE (le_combine b))
  | STR => Some (V_STR b)
  | UNKNOWN => None
  end.

Definition get_column (column_id : nat) (r : Row) : option Value :=
  info ← get_column_info column_id r;
  b ← get_blob column_id r;
  value_of (ci_type info) b.

Definition get_key (r : Row) : option (list (list Z)) := mapM (fun c => get_blob (Z.to_nat c) r) (key_cols_id_ (schema_ r)).

(** The strings of a dense row, one by one. *)
Definition dense_strs (n : nat) (v : VarPart) : option (list (list Z)) := mapM (fun i => get_str i v) (seq 0 n).

Definition make_sparse : M Row () :=
  r ← get;
  match var_part_ r with
  | Sparse _ => mret ()
  | Dense _ _ =>
    strs ← from_option (dense_strs (var_size_cols_ (schema_ r)) (var_part_ r));
    modify (fun r => r <| var_part_ := Sparse strs |>)
  end.

(** What the table is told around an update of the column [col]. *)
Definition reinsert (r : Row) (col : column_info) : list TblCall :=
  if ci_indexed col && bool_decide (is_Some (tbl_ r))
  then [NotifyBefore (ci_id col); TblRemove; TblInsert; NotifyAfter (ci_id col)] else [].

Definition update_fixed (col : column_info) (b : list Z) : M Row (list TblCall) :=
  r ← get;
  verify (negb (rdonly_ r));;
  old ← from_option (slice (ci_pos col) (length b) (fixed_part_ r));
  if bool_decide (old = b) then mret []
  else
    fp ← from_option (write_at (ci_pos col) b (fixed_part_ r));
    modify (fun r => r <| fixed_part_ := fp |>);;
    mret (reinsert r col).

Definition update_str (col : column_info) (column_id : nat) (v : list Z) : M Row (list TblCall) :=
  r ← get;
  verify (negb (rdonly_ r));;
  verify (bool_decide (ci_type col = STR));;
  old ← from_option (get_str (ci_pos col) (var_part_ r));
  if bool_decide (old = v) then mret []
  else
    match var_part_ r with
    | Dense part idx =>
      if (length old =? length v)%nat then
        '(start, _) ← from_option (dense_range idx (ci_pos col));
        part ← from_option (write_at start v part);
        modify (fun r => r <| var_part_ := Dense part idx |>)
      else
        make_sparse;;
        modify (fun r => match var_part_ r with
                         | Sparse strs => r <| var_part_ := Sparse (<[ci_pos col := v]> strs) |>
                         | Dense _ _ => r
                         end)
    | Sparse strs => modify (fun r => r <| var_part_ := Sparse (<[ci_pos col := v]> strs) |>)
    end;;
    mret (reinsert r col).

(** [update(column_id, Value)] with the overloads for the kinds *)
Definition update (column_id : nat) (v : Value) : M Row (list TblCall) :=
  r ← get;
  info ← from_option (get_column_info column_id r);
  match v with
  | V_I32 i => verify (bool_decide (ci_type info = I32));; update_fixed info (int_bytes 4 i)
  | V_I64 i => verify (bool_decide (ci_type info = I64));; update_fixed info (int_bytes 8 i)
  | V_DOUBLE d => verify (bool_decide (ci_type info = DOUBLE));; update_fixed info (int_bytes 8 d)
  | V_STR s => update_str info column_id s
  | V_UNKNOWN => abort
  end.

(** [set_table] *)
Definition set_table (tbl : option Z) : M Row () :=
  r ← get;
  when (bool_decide (is_Some tbl)) (verify (bool_decide (tbl_ r = None)));;
  modify (fun r => r <| tbl_ := tbl |>).

(** ** Creating and copying rows *)

(** The first pass of [create]: the block of fixed size, and the position reached. *)
Fixpoint fixed_pass (values : list Value) (pos : nat) (fp : list Z) : option (nat * list Z) :=
  match values with
  | [] => Some (pos, fp)
  | V_UNKNOWN :: _ => None
  | V_STR _ :: values => fixed_pass values pos fp
  | v :: values =>
    b ← write_binary v;
    fp ← write_at pos b fp;
    fixed_pass values (pos + length b)%nat fp
  end.

(** The second pass: the strings, and where each one stops. *)
Fixpoint var_pass (values : list Value) (pos : nat) : list Z * list nat :=
  match values with
  | [] => ([], [])
  | V_STR s :: values =>
    let '(part, idx) := var_pass values (pos + length s)%nat in (s ++ part, (pos + length s)%nat :: idx)
  | _ :: values => var_pass values pos
  end.

(** Hidden columns: room in the block, and empty strings. *)
Fixpoint hidden_fixed (cols : list column_info) (pos : nat) : option nat :=
  match cols with
  | [] => Some pos
  | c :: cols => if bool_decide (ci_type c = UNKNOWN) then None else hidden_fixed cols (pos + fixed_size (ci_type c))%nat
  end.
Fixpoint hidden_var (cols : list column_info) (idx : list nat) : option (list nat) :=
  match cols with
  | [] => Some idx
  | c :: cols =>
    if bool_decide (ci_type c = STR) then stop ← last idx; hidden_var cols (idx ++ [stop]) else hidden_var cols idx
  end.

Definition guard_ (b : bool) : option () := if b then Some () else None.

(** [Row::create] *)
Definition create_row (s : Schema) (values : list Value) : option Row :=
  '(pos, fp) ← fixed_pass values 0 (replicate (fixed_part_size_ s) 0);
  let hidden := drop (length values) (col_info_ s) in
  pos ← hidden_fixed hidden pos;
  _ ← guard_ (pos =? fixed_part_size_ s)%nat;
  if (var_size_cols_ s =? 0)%nat then Some (mk_row fp (Dense [] []) None false s)
  else
    let '(part, idx) := var_pass values 0 in
    idx ← hidden_var hidden idx;
    _ ← guard_ (length idx =? var_size_cols_ s)%nat;
    Some (mk_row fp (Dense part idx) None false s).

(** The overload for containers *)
Definition create (s : Schema) (values : list Value) : option Row :=
  _ ← guard_ (length values =? columns_count s)%nat;
  create_row s values.

(** [copy]: a dense copy in no table, of the columns that are not hidden. *)
Definition copy_strs (r : Row) : option (list (list Z)) :=
  mapM (fun c => get_blob (Z.to_nat (ci_id c)) r) (filter (fun c => ci_type c = STR) (visible_columns (schema_ r))).

Fixpoint stops (pos : nat) (strs : list (list Z)) : list nat :=
  match strs with
  | [] => []
  | s :: strs => (pos + length s)%nat :: stops (pos + length s) strs
  end.

Definition copy (r : Row) : option Row :=
  fp ← slice 0 (fixed_part_size_ (schema_ r)) (fixed_part_ r);
  strs ← copy_strs r;
  Some (mk_row fp (Dense (concat strs) (stops 0 strs)) None false (schema_ r)).

(** ** The layout of a schema *)

Definition nstr (cols : list column_info) : nat := length (filter (fun c => ci_type c = STR) cols).
Definition fsize (cols : list column_info) : nat := sum_list (fixed_size ∘ ci_type <$> cols).

#[global] Arguments nstr : simpl never.
#[global] Arguments fsize : simpl never.

(** Where a column is, given the columns before it. *)
Definition col_at (before : list column_info) (c : column_info) : Prop :=
  ci_id c = Z.of_nat (length before) /\ ci_type c ≠ UNKNOWN /\
  ci_pos c = if bool_decide (ci_type c = STR) then nstr before else fsize before.

Record schema_wf (s : Schema) : Prop := {
  sw_cols : forall k c, col_info_ s !! k = Some c -> col_at (take k (col_info_ s)) c;
  sw_var : var_size_cols_ s = nstr (col_info_ s);
  sw_fixed : fixed_part_size_ s = fsize (col_info_ s);
  sw_names : (col_name_to_id_ s).*1 = ci_name <$> col_info_ s /\ NoDup (ci_name <$> col_info_ s);
  sw_ids : (col_name_to_id_ s).*2 = ci_id <$> col_info_ s;
  sw_keys : Forall (fun k => 0 <= k < Z.of_nat (length (col_info_ s))) (key_cols_id_ s);
  sw_hidden : (hidden_fixed_ s + hidden_var_ s <= length (col_info_ s))%nat;
}.

Lemma nstr_app l1 l2 : nstr (l1 ++ l2) = (nstr l1 + nstr l2)%nat.
Proof. unfold nstr. by rewrite filter_app, length_app. Qed.
Lemma fsize_app l1 l2 : fsize (l1 ++ l2) = (fsize l1 + fsize l2)%nat.
Proof. unfold fsize. rewrite fmap_app. induction l1 as [|c l1 IH]; cbn in *; [done|]. rewrite IH. lia. Qed.
Lemma nstr_one c : nstr [c] = if bool_decide (ci_type c = STR) then 1%nat else 0%nat.
Proof. unfold nstr. rewrite filter_cons, filter_nil. by case_decide; case_bool_decide. Qed.
Lemma fsize_one c : fsize [c] = fixed_size (ci_type c).
Proof. unfold fsize. cbn. lia. Qed.

Lemma find_name_None name s : find_name name s = None <-> name ∉ (col_name_to_id_ s).*1.
Proof.
  unfold find_name. induction (col_name_to_id_ s) as [|[n i] l IH]; cbn; [split; [intros _; apply not_elem_of_nil|done]|].
  case_bool_decide as E; cbn; rewrite not_elem_of_cons; [split; [done|intros [? _]; congruence]|].
  rewrite IH. split; [intros ?; split; [congruence|done] | by intros []].
Qed.

(** A schema with one more column. *)
Definition with_column (c : column_info) (key : bool) (s : Schema) : Schema :=
  mk_schema (col_name_to_id_ s ++ [(ci_name c, ci_id c)]) (col_info_ s ++ [c])
    (if key then key_cols_id_ s ++ [ci_id c] else key_cols_id_ s)
    (var_size_cols_ s + nstr [c])%nat (fixed_part_size_ s + fsize [c])%nat (hidden_fixed_ s) (hidden_var_ s) (frozen_ s).

Lemma with_column_wf c key s :
  schema_wf s -> col_at (col_info_ s) c -> ci_name c ∉ (col_name_to_id_ s).*1 -> schema_wf (with_column c key s).
Proof.
  intros [Hc Hv Hf [Hn Hnd] Hi Hk Hh] Hcol Hname. split; cbn.
  - intros k c' Hk'. apply lookup_snoc_Some in Hk' as [[Hlt Hk']|[-> ->]].
    + rewrite take_app_le by lia. by apply Hc.
    + by rewrite take_app_length.
  - by rewrite nstr_app, Hv.
  - by rewrite fsize_app, Hf.
  - rewrite !fmap_app, Hn. split; [done|]. cbn. apply NoDup_app. split; [done|].
    split; [|apply NoDup_singleton]. intros x Hx ->%list_elem_of_singleton. apply Hname. by rewrite Hn.
  - by rewrite !fmap_app, Hi.
  - rewrite length_app. cbn. assert (Forall (fun k => 0 <= k < Z.of_nat (length (col_info_ s) + 1)) (key_cols_id_ s)) as Hk'
      by (eapply Forall_impl; [exact Hk|]; intros k; cbn; lia).
    destruct key; [|done]. apply Forall_app. split; [done|]. destruct Hcol as (-> & _). repeat constructor; lia.
  - rewrite length_app. cbn. lia.
Qed.

(** What adding a column does. *)
Lemma do_add_column_done name type key s a s' :
  schema_wf s -> do_add_column name type key s = Done (a, s') ->
  (a = -1 /\ s' = s /\ name ∈ (col_name_to_id_ s).*1) \/
  exists c, ci_type c = type /\ ci_name c = name /\ ci_id c = a /\ s' = with_column c key s /\
    col_at (col_info_ s) c /\ (ci_name c ∉ (col_name_to_id_ s).*1) /\ ci_indexed c = key.
Proof.
  intros Hwf Hrun. apply bind_done in Hrun as (? & ? & [= <- <-] & Hrun).
  destruct (find_name name s) as [i|] eqn:Ef.
  { injection Hrun as <- <-. left. split; [done|]. split; [done|]. destruct (decide (name ∈ (col_name_to_id_ s).*1)) as [|Hn]; [done|].
    apply find_name_None in Hn. congruence. }
  apply find_name_None in Ef.
  assert (length (col_name_to_id_ s) = length (col_info_ s)) as Hlen.
  { rewrite <- (length_fmap fst), (proj1 (sw_names s Hwf)), length_fmap. done. }
  right. exists (mk_col a name key type (if bool_decide (type = STR) then nstr (col_info_ s) else fsize (col_info_ s))).
  unfold with_column, col_at. rewrite nstr_one, fsize_one. cbn.
  rewrite <- (sw_var s Hwf), <- (sw_fixed s Hwf). unfold mbind, M_bind, when, modify, mret, M_ret, verify in Hrun.
  destruct s as [names cols keys v f hf hv fr]. cbn in *.
  destruct key, type; cbn in Hrun; try discriminate Hrun; injection Hrun as <- <-; cbn;
    rewrite Hlen, ?Nat.add_0_r, ?Nat.add_1_r; auto 12.
Qed.

(** Every column that is added keeps the layout. *)
Lemma do_add_column_wf name type key : preserves schema_wf (do_add_column name type key).
Proof.
  intros s a s' Hwf Hrun. apply (do_add_column_done _ _ _ _ _ _ Hwf) in Hrun as [(_ & -> & _)|(c & _ & _ & _ & -> & Hc & Hn & _)]; [done|].
  by apply with_column_wf.
Qed.
#[local] Hint Resolve do_add_column_wf : preserves.

Lemma add_column_wf name type key : preserves schema_wf (add_column name type key).
Proof. unfold add_column. solve_preserves. Qed.

Lemma freeze_wf : preserves schema_wf freeze.
Proof. apply preserves_modify. by intros s []. Qed.

(** ** Blocks of chunks *)

Lemma slice_concat l i b :
  l !! i = Some b -> slice (length (concat (take i l))) (length b) (concat l) = Some b.
Proof.
  intros Hi. rewrite <- (take_drop_middle l i b Hi) at 2. unfold slice.
  assert (concat (take i l ++ b :: drop (S i) l) = concat (take i l) ++ b ++ concat (drop (S i) l)) as ->
    by (by rewrite concat_app).
  rewrite !length_app. destruct (Nat.leb_spec (length (concat (take i l)) + length b)
    (length (concat (take i l)) + (length b + length (concat (drop (S i) l))))%nat); [|lia].
  by rewrite drop_app_length, take_app_length.
Qed.

Lemma concat_insert l i (b v : list Z) :
  l !! i = Some b -> concat (<[i := v]> l) = concat (take i l) ++ v ++ concat (drop (S i) l).
Proof.
  intros Hi. assert (i < length l)%nat by (by eapply lookup_lt_Some).
  by rewrite insert_take_drop, concat_app by done.
Qed.

Lemma write_at_concat l i b v :
  l !! i = Some b -> length v = length b ->
  write_at (length (concat (take i l))) v (concat l) = Some (concat (<[i := v]> l)).
Proof.
  intros Hi Hlen. rewrite (concat_insert l i b v Hi). rewrite <- (take_drop_middle l i b Hi) at 2.
  assert (concat (take i l ++ b :: drop (S i) l) = concat (take i l) ++ b ++ concat (drop (S i) l)) as ->
    by (by rewrite concat_app).
  unfold write_at. rewrite !length_app, Hlen. destruct (Nat.leb_spec (length (concat (take i l)) + length b)
    (length (concat (take i l)) + (length b + length (concat (drop (S i) l))))%nat); [|lia].
  rewrite take_app_length. f_equal. f_equal. f_equal.
  rewrite app_assoc, <- length_app. by rewrite drop_app_length.
Qed.

Lemma stops_lookup pos strs i :
  (i < length strs)%nat -> stops pos strs !! i = Some (pos + length (concat (take (S i) strs)))%nat.
Proof.
  revert pos i. induction strs as [|s strs IH]; intros pos i Hi; cbn in Hi; [lia|].
  destruct i as [|i]; cbn [stops lookup list_lookup]; [cbn; by rewrite length_app, take_0, Nat.add_0_r|].
  rewrite IH by lia. f_equal. rewrite (firstn_cons (S i)). cbn [concat]. rewrite length_app. lia.
Qed.

Lemma stops_same pos strs i b v : strs !! i = Some b -> length v = length b -> stops pos (<[i := v]> strs) = stops pos strs.
Proof.
  revert pos i. induction strs as [|s strs IH]; intros pos i Hi Hlen; [done|].
  destruct i as [|i]; cbn in *; [injection Hi as ->; by rewrite Hlen|]. f_equal. by apply IH.
Qed.

Lemma stops_length pos strs : length (stops pos strs) = length strs.
Proof. revert pos. induction strs as [|s strs IH]; intros pos; cbn; [done|]. by rewrite IH. Qed.

(** A dense string is found at its range. *)
Lemma dense_range_stops strs i b :
  strs !! i = Some b -> dense_range (stops 0 strs) i = Some (length (concat (take i strs)), length b).
Proof.
  intros Hi. assert (i < length strs)%nat by (by eapply lookup_lt_Some).
  assert (concat (take (S i) strs) = concat (take i strs) ++ b) as Hc.
  { rewrite (take_S_r strs i b Hi), concat_app. cbn. by rewrite app_nil_r. }
  destruct i as [|i]; cbn [dense_range]; rewrite !stops_lookup by lia; cbn [mbind option_bind].
  - rewrite Hc. done.
  - rewrite Hc, length_app. do 2 f_equal. lia.
Qed.

(** A [VarPart] holds the strings [strs]. *)
Definition holds (v : VarPart) (strs : list (list Z)) : Prop :=
  match v with
  | Dense part idx => part = concat strs /\ idx = stops 0 strs
  | Sparse l => l = strs
  end.

Lemma get_str_holds v strs i b : holds v strs -> strs !! i = Some b -> get_str i v = Some b.
Proof.
  destruct v as [part idx|l]; cbn; [intros [-> ->] Hi|by intros ->].
  rewrite (dense_range_stops _ _ _ Hi). cbn. by apply slice_concat.
Qed.

Lemma dense_strs_holds v strs : holds v strs -> dense_strs (length strs) v = Some strs.
Proof.
  intros Hv. unfold dense_strs. apply mapM_Some. apply Forall2_same_length_lookup_2; [by rewrite length_seq|].
  intros i x y Hx Hy. apply lookup_seq in Hx as [-> _]. cbn. by apply (get_str_holds v strs).
Qed.

Lemma var_pass_stops values pos :
  let strs := base.omap (fun v => match v with V_STR s => Some s | _ => None end) values in
  var_pass values pos = (concat strs, stops pos strs).
Proof.
  revert pos. induction values as [|v values IH]; intros pos; cbn; [done|].
  destruct v; cbn; rewrite IH; done.
Qed.

(** ** What a row stands for

    A row stands for a list of blobs, one per column: the blobs of fixed size are in one
    block, the strings in the other part. *)

Definition is_str (c : column_info) : bool := bool_decide (ci_type c = STR).
Definition fixed_chunks (cols : list column_info) (bl : list (list Z)) : list (list Z) :=
  zip_with (fun c b => if is_str c then [] else b) cols bl.
Fixpoint str_chunks (cols : list column_info) (bl : list (list Z)) : list (list Z) :=
  match cols, bl with
  | c :: cols, b :: bl => if is_str c then b :: str_chunks cols bl else str_chunks cols bl
  | _, _ => []
  end.

(** The blobs have the sizes of their columns. *)
Definition sized (c : column_info) (b : list Z) : Prop := is_str c = false -> length b = fixed_size (ci_type c).

Record row_rep (r : Row) (bl : list (list Z)) : Prop := {
  rr_schema : schema_wf (schema_ r);
  rr_sized : Forall2 sized (col_info_ (schema_ r)) bl;
  rr_fixed : fixed_part_ r = concat (fixed_chunks (col_info_ (schema_ r)) bl);
  rr_var : holds (var_part_ r) (str_chunks (col_info_ (schema_ r)) bl);
}.

Lemma nstr_cons c cols : nstr (c :: cols) = ((if is_str c then 1 else 0) + nstr cols)%nat.
Proof. change (c :: cols) with ([c] ++ cols). rewrite nstr_app, nstr_one. done. Qed.
Lemma fsize_cons c cols : fsize (c :: cols) = (fixed_size (ci_type c) + fsize cols)%nat.
Proof. change (c :: cols) with ([c] ++ cols). by rewrite fsize_app, fsize_one. Qed.

Lemma is_str_size c : is_str c = true -> fixed_size (ci_type c) = 0%nat.
Proof. unfold is_str. case_bool_decide as E; [by rewrite E|done]. Qed.

Lemma str_chunks_length cols bl : length bl = length cols -> length (str_chunks cols bl) = nstr cols.
Proof.
  revert bl. induction cols as [|c cols IH]; intros [|b bl] Hl; try done. injection Hl as Hl. cbn.
  rewrite nstr_cons. destruct (is_str c); cbn; by rewrite IH.
Qed.

Lemma str_chunks_lookup cols bl k c b :
  cols !! k = Some c -> bl !! k = Some b -> is_str c = true -> str_chunks cols bl !! nstr (take k cols) = Some b.
Proof.
  revert bl k. induction cols as [|c0 cols IH]; intros [|b0 bl] [|k] Hc Hb Hs; try done; cbn in *.
  - injection Hc as ->. injection Hb as ->. by rewrite Hs.
  - rewrite nstr_cons. destruct (is_str c0); cbn; by apply IH.
Qed.

Lemma str_chunks_insert cols bl k c v :
  length bl = length cols -> cols !! k = Some c -> is_str c = true ->
  str_chunks cols (<[k := v]> bl) = <[nstr (take k cols) := v]> (str_chunks cols bl).
Proof.
  revert bl k. induction cols as [|c0 cols IH]; intros [|b0 bl] [|k] Hl Hc Hs; try done; injection Hl as Hl; cbn in *.
  - injection Hc as ->. by rewrite Hs.
  - rewrite nstr_cons. destruct (is_str c0); cbn; by rewrite IH.
Qed.

Lemma str_chunks_insert_ne cols bl k c v :
  cols !! k = Some c -> is_str c = false -> str_chunks cols (<[k := v]> bl) = str_chunks cols bl.
Proof.
  revert bl k. induction cols as [|c0 cols IH]; intros [|b0 bl] [|k] Hc Hs; try done; cbn in *.
  - injection Hc as ->. by rewrite Hs.
  - by rewrite IH.
Qed.

Lemma fixed_chunks_lookup cols bl k c b :
  cols !! k = Some c -> bl !! k = Some b -> is_str c = false -> fixed_chunks cols bl !! k = Some b.
Proof. intros Hc Hb Hs. unfold fixed_chunks. rewrite lookup_zip_with, Hc, Hb. cbn. by rewrite Hs. Qed.

Lemma fixed_chunks_before cols bl k :
  Forall2 sized cols bl -> length (concat (take k (fixed_chunks cols bl))) = fsize (take k cols).
Proof.
  intros Hs. revert k. induction Hs as [|c b cols bl Hcb Hs IH]; intros [|k]; try done.
  cbn [fixed_chunks zip_with take]. fold (fixed_chunks cols bl). rewrite fsize_cons. cbn [concat]. rewrite length_app, IH.
  unfold sized in Hcb. destruct (is_str c) eqn:Es; [by rewrite is_str_size|by rewrite Hcb].
Qed.

Lemma fixed_chunks_insert cols bl k c v :
  cols !! k = Some c -> is_str c = false -> fixed_chunks cols (<[k := v]> bl) = <[k := v]> (fixed_chunks cols bl).
Proof.
  revert bl k. unfold fixed_chunks. induction cols as [|c0 cols IH]; intros [|b0 bl] [|k] Hc Hs; try done; cbn in *.
  - injection Hc as ->. by rewrite Hs.
  - by rewrite IH.
Qed.

Lemma fixed_chunks_insert_str cols bl k c v :
  cols !! k = Some c -> is_str c = true -> fixed_chunks cols (<[k := v]> bl) = fixed_chunks cols bl.
Proof.
  revert bl k. unfold fixed_chunks. induction cols as [|c0 cols IH]; intros [|b0 bl] [|k] Hc Hs; try done; cbn in *.
  - injection Hc as ->. by rewrite Hs.
  - by rewrite IH.
Qed.

(** Reading a column gives its blob. *)
Lemma get_blob_rep r bl k b : row_rep r bl -> bl !! k = Some b -> get_blob k r = Some b.
Proof.
  intros [Hwf Hs Hf Hv] Hb. destruct (Forall2_lookup_r _ _ _ _ _ Hs Hb) as (c & Hc & Hcb).
  unfold get_blob, get_column_info. rewrite Hc. cbn. destruct (sw_cols _ Hwf k c Hc) as (_ & Hu & Hpos).
  destruct (is_str c) eqn:Es.
  - unfold is_str in Es. rewrite Es in Hpos. apply bool_decide_eq_true in Es. rewrite Es, Hpos.
    apply (get_str_holds _ _ _ _ Hv). apply (str_chunks_lookup _ _ _ c); [done..|]. by apply bool_decide_eq_true.
  - pose proof (Hcb Es) as Hlen. rewrite Hf. unfold is_str in Es. rewrite Es in Hpos.
    assert (slice (ci_pos c) (length b) (concat (fixed_chunks (col_info_ (schema_ r)) bl)) = Some b) as Hsl.
    { rewrite Hpos, <- (fixed_chunks_before _ bl) by done. apply slice_concat. by apply (fixed_chunks_lookup _ _ _ c). }
    rewrite Hlen in Hsl. by destruct (ci_type c).
Qed.

(** ** Updates *)

(** What an update leaves alone. *)
Definition same_place (r r' : Row) : Prop := schema_ r' = schema_ r /\ tbl_ r' = tbl_ r /\ rdonly_ r' = rdonly_ r.

(** The table is told if an indexed column of a row in the table really changes. *)
Definition calls_for (r : Row) (c : column_info) (old b : list Z) : list TblCall :=
  if bool_decide (old = b) then [] else reinsert r c.

Lemma sized_insert cols bl k c b :
  Forall2 sized cols bl -> cols !! k = Some c -> sized c b -> Forall2 sized cols (<[k := b]> bl).
Proof.
  intros Hs Hc Hb. rewrite <- (list_insert_id cols k c Hc). by apply Forall2_insert.
Qed.

Lemma rep_fixed r bl k c b fp :
  row_rep r bl -> col_info_ (schema_ r) !! k = Some c -> is_str c = false -> sized c b ->
  fp = concat (<[k := b]> (fixed_chunks (col_info_ (schema_ r)) bl)) -> row_rep (r <| fixed_part_ := fp |>) (<[k := b]> bl).
Proof.
  intros [Hwf Hs Hf Hv] Hc Es Hb ->. split; cbn.
  - done.
  - by apply (sized_insert _ _ _ c).
  - by rewrite (fixed_chunks_insert _ _ _ c).
  - by rewrite (str_chunks_insert_ne _ _ _ c).
Qed.

Lemma rep_str r bl k c b v :
  row_rep r bl -> col_info_ (schema_ r) !! k = Some c -> is_str c = true ->
  holds v (<[ci_pos c := b]> (str_chunks (col_info_ (schema_ r)) bl)) -> row_rep (r <| var_part_ := v |>) (<[k := b]> bl).
Proof.
  intros [Hwf Hs Hf Hv] Hc Es Hh. destruct (sw_cols _ Hwf k c Hc) as (_ & _ & Hpos).
  unfold is_str in Es. rewrite Es in Hpos. rewrite Hpos in Hh. split; cbn.
  - done.
  - apply (sized_insert _ _ _ c); [done..|]. intros E. unfold is_str in E. congruence.
  - by rewrite (fixed_chunks_insert_str _ _ _ c).
  - rewrite (str_chunks_insert _ _ _ c); [done| |done|done]. symmetry. by eapply Forall2_length.
Qed.

Lemma update_fixed_rep r bl k c old b :
  row_rep r bl -> col_info_ (schema_ r) !! k = Some c -> bl !! k = Some old -> is_str c = false ->
  length b = fixed_size (ci_type c) -> rdonly_ r = false ->
  exists r', update_fixed c b r = Done (calls_for r c old b, r') /\ row_rep r' (<[k := b]> bl) /\ same_place r r'.
Proof.
  intros Hrep Hc Hold Es Hlen Hro. pose proof Hrep as [Hwf Hs Hf Hv].
  pose proof (Forall2_lookup_lr _ _ _ _ _ _ Hs Hc Hold Es) as Hlold.
  destruct (sw_cols _ Hwf k c Hc) as (_ & _ & Hpos). unfold is_str in Es. rewrite Es in Hpos.
  assert (fixed_chunks (col_info_ (schema_ r)) bl !! k = Some old) as Hk by (by apply (fixed_chunks_lookup _ _ _ c)).
  pose proof (fixed_chunks_before (col_info_ (schema_ r)) bl k Hs) as Hb. rewrite <- Hpos in Hb.
  assert (slice (ci_pos c) (length b) (fixed_part_ r) = Some old) as Hsl.
  { rewrite Hf, Hlen, <- Hlold, <- Hb. by apply slice_concat. }
  assert (write_at (ci_pos c) b (fixed_part_ r) = Some (concat (<[k := b]> (fixed_chunks (col_info_ (schema_ r)) bl)))) as Hw.
  { rewrite Hf, <- Hb. apply (write_at_concat _ _ old); [done|congruence]. }
  unfold update_fixed, calls_for, mbind, M_bind, get, verify, from_option. rewrite Hro, Hsl. cbn.
  destruct (bool_decide (old = b)) eqn:E; [apply bool_decide_eq_true in E|].
  - exists r. split; [done|]. split; [|done]. subst b. by rewrite list_insert_id.
  - rewrite Hw. cbn. eexists. split; [done|]. split; [|done]. apply (rep_fixed r bl k c b); auto. by intros _.
Qed.

Lemma make_sparse_rep r bl :
  row_rep r bl -> exists strs, make_sparse r = Done (tt, r <| var_part_ := Sparse strs |>) /\
    strs = str_chunks (col_info_ (schema_ r)) bl.
Proof.
  intros [Hwf Hs Hf Hv]. unfold make_sparse, mbind, M_bind, get. destruct r as [fp v tbl ro s]. cbn in *.
  destruct v as [part idx|strs]; cbn in *; [|exists strs; by rewrite Hv].
  pose proof (dense_strs_holds (Dense part idx) _ Hv) as Hd.
  rewrite str_chunks_length, <- (sw_var _ Hwf) in Hd by (symmetry; by eapply Forall2_length).
  rewrite Hd. cbn. by eexists.
Qed.

Lemma update_str_rep r bl k c old b :
  row_rep r bl -> col_info_ (schema_ r) !! k = Some c -> bl !! k = Some old -> is_str c = true -> rdonly_ r = false ->
  exists r', update_str c k b r = Done (calls_for r c old b, r') /\ row_rep r' (<[k := b]> bl) /\ same_place r r'.
Proof.
  intros Hrep Hc Hold Es Hro. pose proof Hrep as [Hwf Hs Hf Hv].
  destruct (sw_cols _ Hwf k c Hc) as (_ & _ & Hpos). pose proof Es as Hst. unfold is_str in Hst. rewrite Hst in Hpos.
  pose proof (str_chunks_lookup _ bl k c old Hc Hold Es) as Hk. rewrite <- Hpos in Hk.
  unfold update_str, calls_for, mbind, M_bind, get, verify, from_option. rewrite Hro, Hst.
  rewrite (get_str_holds _ _ _ _ Hv Hk). cbn.
  destruct (bool_decide (old = b)) eqn:E; [apply bool_decide_eq_true in E; exists r; subst b; split; [done|]; by rewrite list_insert_id|].
  destruct (var_part_ r) as [part idx|strs] eqn:Ev.
  - destruct (Nat.eqb_spec (length old) (length b)) as [El|El].
    + destruct Hv as [-> ->]. rewrite (dense_range_stops _ _ _ Hk). cbn.
      rewrite (write_at_concat _ _ old b Hk) by done. cbn. eexists. split; [done|]. split; [|done].
      apply (rep_str r bl k c b); [done..|]. split; [done|]. symmetry. by apply (stops_same _ _ _ old).
    + destruct (make_sparse_rep r bl Hrep) as (strs & -> & ->). cbn. eexists. split; [done|]. split; [|done].
      by apply (rep_str r bl k c b).
  - cbn. eexists. split; [done|]. split; [|done]. apply (rep_str r bl k c b); [done..|]. cbn in *. by rewrite Hv.
Qed.

(** ** Values *)

Definition value_ok (v : Value) : Prop :=
  match v with
  | V_UNKNOWN => False
  | V_I32 i => in_s 32 i
  | V_I64 i => in_s 64 i
  | V_DOUBLE d => in_u 64 d
  | V_STR _ => True
  end.

Definition bytes_of (v : Value) : list Z := default [] (write_binary v).

Lemma value_of_bytes v : value_ok v -> value_of (get_kind v) (bytes_of v) = Some v.
Proof.
  destruct v as [|i|i|d|s]; cbn [value_ok get_kind value_of bytes_of write_binary default]; intros Hv; [done|do 2 f_equal..].
  - by apply (of_bytes_all i 4); [lia|].
  - by apply (of_bytes_all i 8); [lia|].
  - change (le_combine (byte_at d <$> seq 0 8) = d). rewrite le_combine_low. apply Z.mod_small. exact Hv.
Qed.

Lemma bytes_of_sized c v : get_kind v = ci_type c -> sized c (bytes_of v).
Proof. unfold sized, is_str. intros <-. by destruct v. Qed.

Definition row_ok (r : Row) : Prop := exists bl, row_rep r bl.

Lemma get_column_rep r bl k c b :
  row_rep r bl -> col_info_ (schema_ r) !! k = Some c -> bl !! k = Some b -> get_column k r = value_of (ci_type c) b.
Proof. intros Hrep Hc Hb. unfold get_column, get_column_info. rewrite Hc. cbn. by rewrite (get_blob_rep r bl k b). Qed.

Lemma get_column_lt r bl k : row_rep r bl -> (length bl <= k)%nat -> get_column k r = None.
Proof.
  intros Hrep Hk. unfold get_column, get_column_info. rewrite lookup_ge_None_2; [done|].
  by rewrite (Forall2_length _ _ _ (rr_sized _ _ Hrep)).
Qed.

(** An update of a well-formed row. *)
Lemma update_rep r bl k c v old :
  row_rep r bl -> col_info_ (schema_ r) !! k = Some c -> bl !! k = Some old -> get_kind v = ci_type c -> v ≠ V_UNKNOWN -> rdonly_ r = false ->
  exists r', update k v r = Done (calls_for r c old (bytes_of v), r') /\ row_rep r' (<[k := bytes_of v]> bl) /\ same_place r r'.
Proof.
  intros Hrep Hc Hold Hk Hv Hro. unfold update, get_column_info, mbind, M_bind, get, from_option. rewrite Hc. cbn.
  unfold verify. destruct v as [|i|i|d|s]; [done|rewrite bool_decide_eq_true_2 by done..|]; cbn [bytes_of write_binary default].
  1-3: apply update_fixed_rep; try done; [unfold is_str; by rewrite <- Hk | by rewrite <- Hk].
  apply update_str_rep; try done. unfold is_str. by rewrite <- Hk.
Qed.

Lemma insert_columns r r' bl k c v :
  row_rep r bl -> row_rep r' (<[k := bytes_of v]> bl) -> schema_ r' = schema_ r -> col_info_ (schema_ r) !! k = Some c ->
  get_kind v = ci_type c -> value_ok v -> forall j, get_column j r' = if decide (j = k) then Some v else get_column j r.
Proof.
  intros Hrep Hrep' Es Hc Hk Hv j. pose proof (Forall2_length _ _ _ (rr_sized _ _ Hrep)) as Hlen.
  assert (k < length bl)%nat by (rewrite <- Hlen; by eapply lookup_lt_Some).
  destruct (decide (j = k)) as [->|Hne].
  - rewrite (get_column_rep r' _ k c (bytes_of v) Hrep'); [|by rewrite Es|by apply list_lookup_insert_eq].
    rewrite <- Hk. by apply value_of_bytes.
  - destruct (bl !! j) as [b|] eqn:Eb.
    + destruct (Forall2_lookup_r _ _ _ _ _ (rr_sized _ _ Hrep) Eb) as (c' & Hc' & _).
      rewrite (get_column_rep r' _ j c' b Hrep'); [|by rewrite Es|by rewrite list_lookup_insert_ne].
      by rewrite (get_column_rep r _ j c' b Hrep).
    + apply lookup_ge_None in Eb.
      rewrite (get_column_lt r' _ j Hrep'), (get_column_lt r _ j Hrep); [done|done|by rewrite length_insert].
Qed.
