(* ===== verification/MemRowSpec.v ===== *)
(** * The in-memory database: what a row promises

    Through all its layouts a row behaves as the list of its column values: a new row
    has the values it is made of, an update changes one column and no other, and a copy
    has the same columns. *)
From stdpp Require Import base tactics numbers list sorting.
From S2P Require Import Prelude SparseInt OMap Command MemRow.

(** ** Creating a row *)

Definition is_str_val (v : Value) : option (list Z) := match v with V_STR s => Some s | _ => None end.
Definition fixed_val (v : Value) : list Z := match v with V_STR _ => [] | _ => bytes_of v end.

Lemma write_at_fresh (pre b : list Z) n :
  (length b <= n)%nat ->
  write_at (length pre) b (pre ++ replicate n 0) = Some ((pre ++ b) ++ replicate (n - length b) 0).
Proof.
  intros Hb. unfold write_at. rewrite length_app, length_replicate.
  destruct (Nat.leb_spec (length pre + length b) (length pre + n)); [|lia].
  rewrite take_app_length, <- app_assoc. do 3 f_equal.
  by rewrite drop_app_add, drop_replicate.
Qed.

Lemma fixed_pass_spec values pre n :
  Forall (fun v => v ≠ V_UNKNOWN) values -> (length (concat (fixed_val <$> values)) <= n)%nat ->
  fixed_pass values (length pre) (pre ++ replicate n 0) =
    Some ((length pre + length (concat (fixed_val <$> values)))%nat,
          (pre ++ concat (fixed_val <$> values)) ++ replicate (n - length (concat (fixed_val <$> values))) 0).
Proof.
  intros Hu. revert pre n. induction Hu as [|v values Hv Hu IH]; intros pre n Hn; cbn in Hn |- *.
  { by rewrite !app_nil_r, Nat.add_0_r, Nat.sub_0_r. }
  rewrite length_app in Hn.
  assert (forall b, b = fixed_val v -> (fp ← write_at (length pre) b (pre ++ replicate n 0); fixed_pass values (length pre + length b) fp) =
    Some ((length pre + length (fixed_val v ++ concat (fixed_val <$> values)))%nat,
     (pre ++ fixed_val v ++ concat (fixed_val <$> values)) ++
       replicate (n - length (fixed_val v ++ concat (fixed_val <$> values))) 0)) as Hgo.
  { intros b ->. rewrite write_at_fresh by lia. cbn. rewrite <- length_app, IH by lia.
    rewrite !length_app, !app_assoc. do 2 f_equal; [lia|]. do 2 f_equal. lia. }
  destruct v as [|i|i|d|s]; [done|by apply Hgo..|]. cbn. rewrite IH by (cbn in Hn; lia). done.
Qed.

(** Blobs of columns that have no value of their own. *)
Definition hidden_blob (c : column_info) : list Z := replicate (fixed_size (ci_type c)) 0.

Lemma hidden_fixed_spec cols pos :
  Forall (fun c => ci_type c ≠ UNKNOWN) cols -> hidden_fixed cols pos = Some (pos + fsize cols)%nat.
Proof.
  intros Hu. revert pos. induction Hu as [|c cols Hc Hu IH]; intros pos; cbn; [by rewrite Nat.add_0_r|].
  rewrite bool_decide_eq_false_2 by done. rewrite IH, fsize_cons. f_equal. lia.
Qed.

Lemma hidden_var_none cols idx : nstr cols = 0%nat -> hidden_var cols idx = Some idx.
Proof.
  induction cols as [|c cols IH]; [done|]. rewrite nstr_cons. unfold is_str. cbn. case_bool_decide; [done|]. exact IH.
Qed.

(** The values fit the columns. *)
Definition fits (c : column_info) (v : Value) : Prop := get_kind v = ci_type c /\ value_ok v.

Lemma fits_fixed cols values :
  Forall2 fits cols values -> fixed_chunks cols (bytes_of <$> values) = fixed_val <$> values.
Proof.
  induction 1 as [|c v cols values [Hk _] Hf IH]; [done|]. cbn. unfold fixed_chunks in IH. rewrite IH. f_equal.
  unfold is_str. rewrite <- Hk. by destruct v.
Qed.
Lemma fits_str cols values :
  Forall2 fits cols values -> str_chunks cols (bytes_of <$> values) = base.omap is_str_val values.
Proof.
  induction 1 as [|c v cols values [Hk _] Hf IH]; [done|]. cbn. rewrite IH. unfold is_str. rewrite <- Hk. by destruct v.
Qed.
Lemma fits_sized cols values : Forall2 fits cols values -> Forall2 sized cols (bytes_of <$> values).
Proof. intros Hf. apply Forall2_fmap_r. eapply Forall2_impl; [exact Hf|]. intros c v [Hk _]. by apply bytes_of_sized. Qed.
Lemma fits_known cols values : Forall2 fits cols values -> Forall (fun v => v ≠ V_UNKNOWN) values.
Proof. induction 1 as [|c v cols values [_ Hv] Hf IH]; constructor; [by destruct v|done]. Qed.

Lemma hidden_chunks cols : nstr cols = 0%nat ->
  concat (fixed_chunks cols (hidden_blob <$> cols)) = replicate (fsize cols) 0 /\ str_chunks cols (hidden_blob <$> cols) = [] /\
  Forall2 sized cols (hidden_blob <$> cols).
Proof.
  induction cols as [|c cols IH]; [by repeat constructor|]. rewrite nstr_cons, fsize_cons. cbn.
  destruct (is_str c) eqn:Es; [done|]. intros (H1 & H2 & H3)%IH. split_and!.
  - unfold fixed_chunks in H1. by rewrite H1, replicate_add.
  - done.
  - constructor; [|done]. intros _. unfold hidden_blob. by rewrite length_replicate.
Qed.

Lemma fixed_chunks_app c1 c2 b1 b2 : length c1 = length b1 -> fixed_chunks (c1 ++ c2) (b1 ++ b2) = fixed_chunks c1 b1 ++ fixed_chunks c2 b2.
Proof. intros Hl. unfold fixed_chunks. by apply zip_with_app. Qed.
Lemma str_chunks_app c1 c2 b1 b2 : length c1 = length b1 -> str_chunks (c1 ++ c2) (b1 ++ b2) = str_chunks c1 b1 ++ str_chunks c2 b2.
Proof.
  revert b1. induction c1 as [|c c1 IH]; intros [|b b1] Hl; try done. injection Hl as Hl. cbn. rewrite IH by done.
  by destruct (is_str c).
Qed.

Lemma fixed_chunks_size cols bl : Forall2 sized cols bl -> length (concat (fixed_chunks cols bl)) = fsize cols.
Proof.
  intros Hs. pose proof (fixed_chunks_before cols bl (length cols) Hs) as Hb.
  rewrite !take_ge in Hb; [done|done|unfold fixed_chunks; rewrite length_zip_with; lia].
Qed.

(** A row is made of the values that fit its columns. *)
Lemma create_rep s values :
  schema_wf s -> Forall2 fits (visible_columns s) values -> nstr (drop (columns_count s) (col_info_ s)) = 0%nat ->
  exists r, create s values = Some r /\ row_rep r ((bytes_of <$> values) ++ (hidden_blob <$> drop (columns_count s) (col_info_ s))) /\
    schema_ r = s /\ tbl_ r = None /\ rdonly_ r = false.
Proof.
  intros Hwf Hf Hh. set (vis := visible_columns s) in *. set (hid := drop (columns_count s) (col_info_ s)) in *.
  assert (length vis = columns_count s) as Hvis
    by (unfold vis, visible_columns; rewrite length_take; unfold columns_count; lia).
  assert (length values = columns_count s) as Hlen by (rewrite <- (Forall2_length _ _ _ Hf); done).
  assert (col_info_ s = vis ++ hid) as Hcols by (symmetry; apply take_drop).
  pose proof (fits_sized _ _ Hf) as Hsz. pose proof (fixed_chunks_size _ _ Hsz) as Hfs. rewrite (fits_fixed _ _ Hf) in Hfs.
  destruct (hidden_chunks hid Hh) as (Hhf & Hhs & Hhz).
  pose proof (sw_fixed s Hwf) as Hfix. rewrite Hcols, fsize_app in Hfix.
  pose proof (sw_var s Hwf) as Hvar. rewrite Hcols, nstr_app, Hh, Nat.add_0_r in Hvar.
  unfold create, create_row. rewrite Hlen, Nat.eqb_refl. cbn [guard_ mbind option_bind].
  pose proof (fixed_pass_spec values [] (fixed_part_size_ s) (fits_known _ _ Hf)) as Hpass. cbn [app length] in Hpass.
  rewrite Hpass by (rewrite Hfs, Hfix; lia). cbn [mbind option_bind]. fold hid.
  rewrite hidden_fixed_spec; [|apply Forall_forall; intros c [j Hj]%list_elem_of_lookup; unfold hid in Hj; rewrite lookup_drop in Hj;
    by destruct (sw_cols s Hwf _ _ Hj) as (_ & ? & _)].
  cbn [mbind option_bind]. rewrite Nat.add_0_l, Hfs, <- Hfix, Nat.eqb_refl. cbn [guard_ mbind option_bind].
  assert (concat (fixed_val <$> values) ++ replicate (fixed_part_size_ s - fsize vis) 0 =
    concat (fixed_chunks (col_info_ s) ((bytes_of <$> values) ++ (hidden_blob <$> hid)))) as Hfp.
  { rewrite Hcols, fixed_chunks_app by (rewrite length_fmap; congruence). rewrite concat_app, (fits_fixed _ _ Hf), Hhf. do 2 f_equal. lia. }
  assert (str_chunks (col_info_ s) ((bytes_of <$> values) ++ (hidden_blob <$> hid)) = base.omap is_str_val values) as Hst.
  { rewrite Hcols, str_chunks_app by (rewrite length_fmap; congruence). by rewrite (fits_str _ _ Hf), Hhs, app_nil_r. }
  assert (Forall2 sized (col_info_ s) ((bytes_of <$> values) ++ (hidden_blob <$> hid))) as Hsz' by (rewrite Hcols; by apply Forall2_app).
  assert (length (base.omap is_str_val values) = var_size_cols_ s) as Hns.
  { rewrite <- (fits_str _ _ Hf), str_chunks_length; [done|]. rewrite length_fmap. congruence. }
  destruct (Nat.eqb_spec (var_size_cols_ s) 0) as [E|E].
  - eexists. split; [done|]. split; [|done]. split; [done|done|exact Hfp|]. cbn [schema_ var_part_]. rewrite Hst.
    rewrite E in Hns. apply nil_length_inv in Hns. by rewrite Hns.
  - rewrite (var_pass_stops values 0). cbn zeta. rewrite hidden_var_none by done. cbn [mbind option_bind].
    fold is_str_val. rewrite stops_length, Hns, Nat.eqb_refl. cbn [guard_ mbind option_bind].
    eexists. split; [done|]. split; [|done]. split; [done|done|exact Hfp|]. cbn [schema_ var_part_]. by rewrite Hst.
Qed.

(** ** Copying a row *)

Lemma str_chunks_Forall2 (P : column_info -> list Z -> Prop) cols bl :
  Forall2 P cols bl -> Forall2 P (filter (fun c => ci_type c = STR) cols) (str_chunks cols bl).
Proof.
  induction 1 as [|c b cols bl Hcb Hf IH]; [constructor|]. rewrite filter_cons. cbn. unfold is_str.
  case_decide; [rewrite bool_decide_eq_true_2 by done; by constructor | by rewrite bool_decide_eq_false_2].
Qed.

Lemma blobs_by_id r bl :
  row_rep r bl -> Forall2 (fun c b => get_blob (Z.to_nat (ci_id c)) r = Some b) (col_info_ (schema_ r)) bl.
Proof.
  intros Hrep. apply Forall2_same_length_lookup_2; [by eapply Forall2_length, rr_sized|]. intros k c b Hc Hb.
  destruct (sw_cols _ (rr_schema _ _ Hrep) k c Hc) as (-> & _). rewrite Nat2Z.id, length_take_le; [by apply (get_blob_rep r bl)|].
  apply lookup_lt_Some in Hc. lia.
Qed.

Lemma visible_all s : hidden_fixed_ s = 0%nat -> hidden_var_ s = 0%nat -> visible_columns s = col_info_ s.
Proof. intros H1 H2. unfold visible_columns, columns_count. rewrite H1, H2. apply take_ge. lia. Qed.

Lemma copy_rep r bl :
  row_rep r bl -> visible_columns (schema_ r) = col_info_ (schema_ r) ->
  exists r', copy r = Some r' /\ row_rep r' bl /\ schema_ r' = schema_ r /\ tbl_ r' = None /\ rdonly_ r' = false.
Proof.
  intros Hrep Hvis. pose proof Hrep as [Hwf Hs Hf Hv]. unfold copy, copy_strs. rewrite Hvis.
  assert (length (fixed_part_ r) = fixed_part_size_ (schema_ r)) as Hlen by (by rewrite Hf, fixed_chunks_size, <- (sw_fixed _ Hwf)).
  assert (slice 0 (fixed_part_size_ (schema_ r)) (fixed_part_ r) = Some (fixed_part_ r)) as ->.
  { unfold slice. rewrite Nat.add_0_l, Hlen, Nat.leb_refl, drop_0. f_equal. apply take_ge. lia. }
  cbn [mbind option_bind]. rewrite (proj2 (mapM_Some _ _ _) (str_chunks_Forall2 _ _ _ (blobs_by_id r bl Hrep))).
  cbn [mbind option_bind]. eexists. split; [done|]. by split; [split|].
Qed.

(** ** A row as a list of values *)

Inductive row_op := OpUpdate (k : nat) (v : Value) | OpSparse | OpCopy.

Definition run_op (o : row_op) (r : Row) : option Row :=
  match o with
  | OpUpdate k v => match update k v r with Done (_, r') => Some r' | _ => None end
  | OpSparse => match make_sparse r with Done (_, r') => Some r' | _ => None end
  | OpCopy => copy r
  end.
Fixpoint run_ops (os : list row_op) (r : Row) : option Row :=
  match os with
  | [] => Some r
  | o :: os => r ← run_op o r; run_ops os r
  end.

Definition spec_op (o : row_op) (vs : list Value) : list Value :=
  match o with
  | OpUpdate k v => <[k := v]> vs
  | OpSparse | OpCopy => vs
  end.

(** An update is of the column's kind. *)
Definition op_ok (s : Schema) (o : row_op) : Prop :=
  match o with
  | OpUpdate k v => exists c, col_info_ s !! k = Some c /\ fits c v
  | _ => True
  end.

(** A schema is made of the columns of its definition. *)
Definition add_columns (cols : list (list Z * kind * bool)) : M Schema () :=
  for_each cols (fun c => _ ← add_column c.1.1 c.1.2 c.2; mret ()).

Definition no_hidden (s : Schema) : Prop := schema_wf s /\ hidden_fixed_ s = 0%nat /\ hidden_var_ s = 0%nat.

Lemma add_columns_wf cols s' : add_columns cols new_Schema = Done (tt, s') -> no_hidden s'.
Proof.
  assert (no_hidden new_Schema) as H0.
  { split; [|done]. split; try done. by split; [|constructor]. }
  apply (hoare_for_each _ _ no_hidden); [|done]. intros [[n k] b] _ s [] s1 (Hwf & H1 & H2) Hrun.
  apply bind_done in Hrun as (a & s2 & Hadd & [= <-]). cbn in Hadd.
  apply bind_done in Hadd as (? & ? & [= <- <-] & Hadd). apply bind_done in Hadd as ([] & s3 & Hv & Hadd).
  apply (preserves_verify _ (fun x => x = s) _ _ _ eq_refl) in Hv as ->.
  split; [by apply (do_add_column_wf n k b s a)|].
  apply (do_add_column_done _ _ _ _ _ _ Hwf) in Hadd as [(_ & -> & _)|(c & _ & _ & _ & -> & _)]; done.
Qed.

(** The row stands for the list. *)
Definition shows (r : Row) (vs : list Value) : Prop :=
  row_rep r (bytes_of <$> vs) /\ Forall2 fits (col_info_ (schema_ r)) vs /\ no_hidden (schema_ r) /\ rdonly_ r = false.

Lemma shows_columns r vs k : shows r vs -> get_column k r = vs !! k.
Proof.
  intros (Hrep & Hf & _). destruct (vs !! k) as [v|] eqn:Ev.
  - destruct (Forall2_lookup_r _ _ _ _ _ Hf Ev) as (c & Hc & Hk & Hv).
    rewrite (get_column_rep r _ k c (bytes_of v) Hrep Hc); [rewrite <- Hk; by apply value_of_bytes|].
    by rewrite list_lookup_fmap, Ev.
  - apply (get_column_lt r _ k Hrep). rewrite length_fmap. by apply lookup_ge_None.
Qed.

Lemma run_op_shows o r vs : shows r vs -> op_ok (schema_ r) o ->
  exists r', run_op o r = Some r' /\ shows r' (spec_op o vs) /\ schema_ r' = schema_ r.
Proof.
  intros (Hrep & Hf & Hn & Hro) Ho. destruct o as [k v| |]; cbn.
  - destruct Ho as (c & Hc & Hk & Hv). destruct (Forall2_lookup_l _ _ _ _ _ Hf Hc) as (v0 & Hv0 & _).
    assert ((bytes_of <$> vs) !! k = Some (bytes_of v0)) as Hold by (by rewrite list_lookup_fmap, Hv0).
    destruct (update_rep r _ k c v _ Hrep Hc Hold Hk) as (r' & -> & Hrep' & (Es & Et & Er)); [by destruct v|done|].
    exists r'. split; [done|]. split; [|done]. unfold shows. rewrite list_fmap_insert, Es, Er. split_and!; [done| |done|done].
    rewrite <- (list_insert_id (col_info_ (schema_ r)) k c Hc). by apply Forall2_insert.
  - destruct (make_sparse_rep r _ Hrep) as (strs & -> & ->). eexists. split; [done|]. split; [|done]. split; [|done].
    destruct Hrep. by split.
  - destruct (copy_rep r _ Hrep) as (r' & -> & Hrep' & Es & _ & Er); [apply visible_all; apply Hn|].
    exists r'. unfold shows. rewrite Es, Er. done.
Qed.

Lemma run_ops_shows os r vs : shows r vs -> Forall (op_ok (schema_ r)) os ->
  exists r', run_ops os r = Some r' /\ shows r' (foldl (fun vs o => spec_op o vs) vs os).
Proof.
  revert r vs. induction os as [|o os IH]; intros r vs Hr Ho; cbn; [by exists r|].
  apply Forall_cons in Ho as [Ho Hos]. destruct (run_op_shows o r vs Hr Ho) as (r1 & -> & Hr1 & Es). cbn.
  apply IH; [done|]. by rewrite Es.
Qed.

(** C16: take a schema made by adding columns and a row created with values of
    the columns' kinds.  Under every sequence of updates of the columns' kinds, changes
    to the sparse layout and copies, the row shows in every column the value that a plain
    list of values, updated in the same way, has there; no step fails. *)
Theorem row_refines_list cols s values os :
  add_columns cols new_Schema = Done (tt, s) -> Forall2 fits (col_info_ s) values -> Forall (op_ok s) os ->
  exists r r', create s values = Some r /\ run_ops os r = Some r' /\
    forall k, get_column k r = values !! k /\ get_column k r' = foldl (fun vs o => spec_op o vs) values os !! k.
Proof.
  intros Hs Hf Ho. apply add_columns_wf in Hs as Hn. pose proof Hn as (Hwf & H1 & H2).
  pose proof (visible_all s H1 H2) as Hvis.
  assert (drop (columns_count s) (col_info_ s) = []) as Hd by (unfold columns_count; rewrite H1, H2; apply drop_ge; lia).
  destruct (create_rep s values Hwf) as (r & Hc & Hrep & Es & _ & Er); [by rewrite Hvis|by rewrite Hd|].
  rewrite Hd, app_nil_r in Hrep. subst s.
  assert (shows r values) as Hsh by done. destruct (run_ops_shows os r values Hsh Ho) as (r' & Hrun & Hsh').
  exists r, r'. split_and!; [done..|]. intros k. by rewrite !(shows_columns _ _ _ Hsh), (shows_columns _ _ _ Hsh').
Qed.

Definition row_demo_cols : list (list Z * kind * bool) := [([105], I64, true); ([115], STR, false); ([110], I32, false); ([116], STR, false)].
Definition row_demo_values : list Value := [V_I64 (-7); V_STR [1; 2]; V_I32 5; V_STR [3]].
Definition row_demo_ops : list row_op := [OpUpdate 1 (V_STR [9; 9; 9]); OpCopy; OpUpdate 3 (V_STR [4]); OpUpdate 2 (V_I32 (-1))].

Lemma row_refines_list_witness : exists s r r',
  add_columns row_demo_cols new_Schema = Done (tt, s) /\ create s row_demo_values = Some r /\ run_ops row_demo_ops r = Some r' /\
  (get_column 1 r, get_column 1 r', get_column 2 r', get_column 3 r') =
    (Some (V_STR [1; 2]), Some (V_STR [9; 9; 9]), Some (V_I32 (-1)), Some (V_STR [4])).
Proof.
  destruct (add_columns row_demo_cols new_Schema) as [[[] s]| |] eqn:Es; [|vm_compute in Es; discriminate Es..].
  destruct (row_refines_list row_demo_cols s row_demo_values row_demo_ops Es) as (r & r' & Hc & Hr & Hk).
  - vm_compute in Es. injection Es as <-. repeat constructor; vm_compute; intros; discriminate.
  - vm_compute in Es. injection Es as <-. repeat constructor; eexists; (split; [reflexivity|]); repeat constructor; vm_compute; intros; discriminate.
  - exists s, r, r'. split_and!; [done..|]. rewrite (proj1 (Hk 1%nat)), !(fun k => proj2 (Hk k)). reflexivity.
Defined.
