(* ===== verification/Occ.v ===== *)
(** * Optimistic concurrency control at a server
    (src/memdb/locking.h, src/memdb/txn_occ.h, txn_occ.cc, the versioned rows of
    src/memdb/row.h, src/deptran/occ/exec.cc, and the transaction table of
    src/deptran/scheduler.cc)

    A transaction reads columns with their versions and keeps its writes to itself.
    [Prepare] checks that the versions have not changed, and locks the rows it has read
    and is to write; [Commit] applies the writes and counts up the versions; both run
    under the mutex of the scheduler, as the pieces do.

    Row pointers are numbers, and [updates_], a multimap over row pointers, is in their
    order.  Transactions run with the policy [OCC_LAZY] ([GetOrCreateMTxn]) and are not
    read-only.  Reference counts are left out: a row that anything points to stays. *)
From stdpp Require Import base tactics numbers list sorting gmap.
From S2P Require Import Prelude SparseInt OMap Command MemRow.

(** ** Locks of rows *)

Record RWLock := mk_rw { wlocked_ : bool; w_ : Z; r_ : gset Z }.

Definition new_RWLock : RWLock := mk_rw false 0 ∅.

Definition wlock_by (o : Z) (l : RWLock) : bool * RWLock :=
  if wlocked_ l then (o =? w_ l, l)
  else if bool_decide (r_ l = ∅) then (true, mk_rw true o (r_ l))
  else if bool_decide (o ∈ r_ l /\ size (r_ l) = 1%nat) then (true, mk_rw true o (r_ l ∖ {[o]}))
  else (false, l).

Definition rlock_by (o : Z) (l : RWLock) : bool * RWLock :=
  if wlocked_ l then (o =? w_ l, l) else (true, mk_rw (wlocked_ l) (w_ l) ({[o]} ∪ r_ l)).

Definition unlock_by (o : Z) (l : RWLock) : bool * RWLock :=
  let w := wlocked_ l && (o =? w_ l) in
  (w || bool_decide (o ∈ r_ l), mk_rw (wlocked_ l && negb w) (w_ l) (r_ l ∖ {[o]})).

(** ** Rows and transactions *)

Record VersionedRow := mk_vrow { vr_row : Row; ver_ : list Z; lock_ : RWLock }.
#[export] Instance Eta_vrow : Eta VersionedRow := fun r => mk_vrow (vr_row r) (ver_ r) (lock_ r).

Definition create_vrow (s : Schema) (values : list Value) : option VersionedRow :=
  r ← create s values;
  Some (mk_vrow r (replicate (columns_count s) 0) new_RWLock).

Definition copy_vrow (r : VersionedRow) : option VersionedRow :=
  row ← copy (vr_row r);
  _ ← guard_ (0 <? length (ver_ r))%nat;
  Some (mk_vrow row (ver_ r) (lock_ r)).

Definition incr_column_ver (col : nat) (r : VersionedRow) : VersionedRow := r <| ver_ ::= alter (fun v => u64 (v + 1)) col |>.

Inductive outcome := O_NONE | O_ABORT | O_COMMIT.
#[export] Instance outcome_eq_dec : EqDecision outcome.
Proof. solve_decision. Defined.

Record TxnOCC := mk_occ {
  outcome_ : outcome;
  reads_ : list (Z * nat);
  updates_ : list (Z * (nat * Value));
  inserts_ : list (Z * Z);
  removes_ : list (Z * Z);
  locks_ : list Z;
  ver_check_read_ : gmap (Z * nat) Z;
  ver_check_write_ : gmap (Z * nat) Z;
  verified_ : bool;
}.
#[export] Instance Eta_occ : Eta TxnOCC :=
  fun r => mk_occ (outcome_ r) (reads_ r) (updates_ r) (inserts_ r) (removes_ r) (locks_ r) (ver_check_read_ r)
    (ver_check_write_ r) (verified_ r).

Definition new_TxnOCC : TxnOCC := mk_occ O_NONE [] [] [] [] [] ∅ ∅ false.

(** [snapshot_tables] are the tables of kind [TBL_SNAPSHOT]; [next_row] is where the next
    row is put. *)
Record OccServer := mk_srv {
  srv_rows : gmap Z VersionedRow;
  mdb_txns_ : gmap Z TxnOCC;
  snapshot_tables : gset Z;
  next_row : Z;
}.
#[export] Instance Eta_srv : Eta OccServer := fun r => mk_srv (srv_rows r) (mdb_txns_ r) (snapshot_tables r) (next_row r).

(** ** Access *)

Definition occ_row (rid : Z) : M OccServer VersionedRow := s ← get; from_option (srv_rows s !! rid).
Definition set_row (rid : Z) (f : VersionedRow -> VersionedRow) : M OccServer () :=
  modify (fun s => s <| srv_rows ::= alter f rid |>).
Definition set_occ (tid : Z) (f : TxnOCC -> TxnOCC) : M OccServer () := modify (fun s => s <| mdb_txns_ ::= alter f tid |>).

Definition GetOrCreateMTxn (tid : Z) : M OccServer TxnOCC :=
  s ← get;
  match mdb_txns_ s !! tid with
  | Some t => mret t
  | None => modify (fun s => s <| mdb_txns_ ::= <[tid := new_TxnOCC]> |>);; mret new_TxnOCC
  end.

Definition RemoveMTxn (tid : Z) : M OccServer TxnOCC :=
  s ← get;
  t ← from_option (mdb_txns_ s !! tid);
  modify (fun s => s <| mdb_txns_ ::= delete tid |>);;
  mret t.

(** An operation of the row [rid]. *)
Definition on_row {A} (rid : Z) (m : M Row A) : M OccServer A := fun s =>
  match srv_rows s !! rid with
  | None => Aborted
  | Some r =>
    match m (vr_row r) with
    | Done (a, row) => Done (a, s <| srv_rows ::= <[rid := r <| vr_row := row |>]> |>)
    | Aborted => Aborted
    | OutOfFuel => OutOfFuel
    end
  end.

Definition get_column_ver (col : nat) (r : VersionedRow) : option Z := ver_ r !! col.

(** [assert(debug_check_row_valid(row))] *)
Definition debug_check_row_valid (rid : Z) (t : TxnOCC) : bool := forallb (fun p => negb (p.2 =? rid)) (removes_ t).

(** The entry of [updates_] for a column. *)
Definition own_write (rid : Z) (col : nat) (t : TxnOCC) : option Value :=
  snd ∘ snd <$> List.find (fun u => (u.1 =? rid) && (u.2.1 =? col)%nat) (updates_ t).

(** [insert_into_map(updates_, ...)]: after the entries of the same row. *)
Fixpoint put_update (rid : Z) (cv : nat * Value) (l : list (Z * (nat * Value))) : list (Z * (nat * Value)) :=
  match l with
  | [] => [(rid, cv)]
  | u :: l => if rid <? u.1 then (rid, cv) :: u :: l else u :: put_update rid cv l
  end.

Definition overwrite (rid : Z) (col : nat) (v : Value) (l : list (Z * (nat * Value))) : list (Z * (nat * Value)) :=
  (fun u => if (u.1 =? rid) && (u.2.1 =? col)%nat then (u.1, (u.2.1, v)) else u) <$> l.

(** [__DebugCheckReadVersion] *)
Definition debug_check_read (rc : Z * nat) (ver_now : Z) (vers : gmap (Z * nat) Z) : bool :=
  match vers !! rc with
  | Some ver_read => ver_now <=? ver_read
  | None => true
  end.

(** ** Pieces *)

Definition read_column (tid rid : Z) (col : nat) : M OccServer Value :=
  t ← GetOrCreateMTxn tid;
  verify (debug_check_row_valid rid t);;
  verify (bool_decide (outcome_ t = O_NONE));;
  r ← occ_row rid;
  match tbl_ (vr_row r) with
  | None => from_option (get_column col (vr_row r))
  | Some _ =>
    match own_write rid col t with
    | Some v => mret v
    | None =>
      ver_now ← from_option (get_column_ver col r);
      let vers := match ver_check_read_ t !! (rid, col) with
                  | Some _ => ver_check_read_ t
                  | None => <[(rid, col) := ver_now]> (ver_check_read_ t)
                  end in
      set_occ tid (fun t => t <| ver_check_read_ := vers |>);;
      verify (debug_check_read (rid, col) ver_now vers);;
      v ← from_option (get_column col (vr_row r));
      set_occ tid (fun t => t <| reads_ ::= fun l => l ++ [(rid, col)] |>);;
      mret v
    end
  end.

Definition write_column (tid rid : Z) (col : nat) (v : Value) : M OccServer () :=
  t ← GetOrCreateMTxn tid;
  verify (debug_check_row_valid rid t);;
  verify (bool_decide (outcome_ t = O_NONE));;
  r ← occ_row rid;
  match tbl_ (vr_row r) with
  | None => _ ← on_row rid (update col v); mret ()
  | Some _ =>
    match own_write rid col t with
    | Some _ => set_occ tid (fun t => t <| updates_ ::= overwrite rid col v |>)
    | None =>
      ver_now ← from_option (get_column_ver col r);
      verify (debug_check_read (rid, col) ver_now (ver_check_read_ t));;
      set_occ tid (fun t => t <| updates_ ::= put_update rid (col, v) |>)
    end
  end.

Definition insert_row (tid tbl rid : Z) : M OccServer () :=
  t ← GetOrCreateMTxn tid;
  verify (bool_decide (outcome_ t = O_NONE));;
  r ← occ_row rid;
  verify (bool_decide (tbl_ (vr_row r) = None));;
  set_occ tid (fun t => t <| inserts_ ::= fun l => l ++ [(tbl, rid)] |>
                          <| removes_ ::= filter (fun p => p ≠ (tbl, rid)) |>).

(** The versions of a row that is to be removed, first ones staying. *)
Definition remember_row (rid : Z) (r : VersionedRow) (vers : gmap (Z * nat) Z) : gmap (Z * nat) Z :=
  vers ∪ list_to_map (imap (fun col v => ((rid, col), v)) (take (columns_count (schema_ (vr_row r))) (ver_ r))).

(** The first occurrence is taken out. *)
Fixpoint erase_one (x : Z * Z) (l : list (Z * Z)) : list (Z * Z) :=
  match l with
  | [] => []
  | y :: l => if bool_decide (y = x) then l else y :: erase_one x l
  end.

Definition remove_row (tid tbl rid : Z) : M OccServer () :=
  t ← GetOrCreateMTxn tid;
  verify (debug_check_row_valid rid t);;
  verify (bool_decide (outcome_ t = O_NONE));;
  r ← occ_row rid;
  (if bool_decide ((tbl, rid) ∈ inserts_ t) then
     set_occ tid (fun t => t <| inserts_ ::= erase_one (tbl, rid) |>)
   else
     set_occ tid (fun t => t <| ver_check_write_ ::= remember_row rid r |>
                             <| removes_ ::= fun l => if bool_decide ((tbl, rid) ∈ l) then l else l ++ [(tbl, rid)] |>));;
  set_occ tid (fun t => t <| updates_ ::= filter (fun u => u.1 ≠ rid) |>).

(** ** Preparing *)

(** [version_check] of one of the two maps *)
Fixpoint version_check (vers : list ((Z * nat) * Z)) : M OccServer bool :=
  match vers with
  | [] => mret true
  | ((rid, col), ver) :: vers =>
    r ← occ_row rid;
    curr_ver ← from_option (get_column_ver col r);
    if curr_ver =? ver then version_check vers else mret false
  end.

Definition DebugVersionCheck (t : TxnOCC) : bool :=
  forallb (fun p : (Z * nat) * Z => match ver_check_write_ t !! p.1 with
                                   | Some ver_write => ver_write <=? p.2
                                   | None => true
                                   end) (map_to_list (ver_check_read_ t)).

Definition unlock_rows (tid : Z) (rows : list Z) : M OccServer () :=
  for_each rows (fun rid => set_row rid (fun r => r <| lock_ ::= fun l => (unlock_by tid l).2 |>)).

(** A loop over the rows to lock: on failure all locks are given back. *)
Fixpoint lock_rows (lock : Z -> RWLock -> bool * RWLock) (tid : Z) (rows : list Z) : M OccServer bool :=
  match rows with
  | [] => mret true
  | rid :: rows =>
    r ← occ_row rid;
    let '(ok, l) := lock tid (lock_ r) in
    if (ok : bool) then
      set_row rid (fun r => r <| lock_ := l |>);;
      set_occ tid (fun t => t <| locks_ ::= fun ls => ls ++ [rid] |>);;
      lock_rows lock tid rows
    else
      s ← get;
      t ← from_option (mdb_txns_ s !! tid);
      unlock_rows tid (locks_ t);;
      set_occ tid (fun t => t <| locks_ := [] |>);;
      mret false
  end.

Definition Prepare (tid : Z) : M OccServer bool :=
  t ← GetOrCreateMTxn tid;
  verify (bool_decide (outcome_ t = O_NONE));;
  verify (negb (verified_ t));;
  verify (DebugVersionCheck t);;
  ok ← version_check (map_to_list (ver_check_read_ t));
  ok ← (if (ok : bool) then version_check (map_to_list (ver_check_write_ t)) else mret false);
  if (ok : bool) then
    ok ← lock_rows rlock_by tid (fst ∘ fst <$> map_to_list (ver_check_read_ t));
    if (ok : bool) then
      ok ← lock_rows wlock_by tid (fst <$> updates_ t);
      if (ok : bool) then
        set_occ tid (fun t => t <| verified_ := true |>);;
        mret true
      else mret false
    else mret false
  else mret false.

(** ** Committing and aborting *)

(** [table->insert(row)] and [table->remove(row)], seen from the row *)
Definition table_insert (tbl rid : Z) : M OccServer () :=
  s ← get;
  on_row rid (set_table (Some tbl));;
  when (bool_decide (tbl ∈ snapshot_tables s))
    (set_row rid (fun r => r <| vr_row ::= fun row => row <| rdonly_ := true |> |>)).
(** A snapshot table leaves the row as it is. *)
Definition table_remove (tbl rid : Z) : M OccServer () :=
  s ← get;
  r ← occ_row rid;
  if bool_decide (tbl ∈ snapshot_tables s) then verify (rdonly_ (vr_row r))
  else when (bool_decide (tbl_ (vr_row r) = Some tbl)) (on_row rid (set_table None)).

(** The entries of [updates_] by row. *)
Fixpoint by_row (l : list (Z * (nat * Value))) : list (Z * list (nat * Value)) :=
  match l with
  | [] => []
  | (rid, cv) :: l =>
    match by_row l with
    | (rid', cvs) :: gs => if rid =? rid' then (rid, cv :: cvs) :: gs else (rid, [cv]) :: (rid', cvs) :: gs
    | [] => [(rid, [cv])]
    end
  end.

Definition update_row (rid : Z) (cv : nat * Value) : M OccServer () :=
  _ ← on_row rid (update cv.1 cv.2);
  set_row rid (incr_column_ver cv.1).

(** A row of a snapshot table is replaced by a changed copy, which takes over its locks. *)
Definition replace_row (tbl rid : Z) (cvs : list (nat * Value)) (locks : list Z) : M OccServer (list Z) :=
  r ← occ_row rid;
  r' ← from_option (copy_vrow r);
  s ← get;
  let new := next_row s in
  modify (fun s => s <| srv_rows ::= <[new := r']> |> <| next_row ::= Z.succ |>);;
  for_each cvs (fun cv =>
    _ ← on_row new (update cv.1 cv.2);
    set_row rid (incr_column_ver cv.1);;
    set_row new (incr_column_ver cv.1));;
  table_remove tbl rid;;
  table_insert tbl new;;
  mret ((fun x => if x =? rid then new else x) <$> locks).

(** The loop over [updates_]; [locks] is [locks_]. *)
Fixpoint apply_updates (gs : list (Z * list (nat * Value))) (locks : list Z) : M OccServer (list Z) :=
  match gs with
  | [] => mret locks
  | (rid, cvs) :: gs =>
    r ← occ_row rid;
    s ← get;
    tbl ← from_option (tbl_ (vr_row r));
    locks ← (if bool_decide (tbl ∈ snapshot_tables s) then replace_row tbl rid cvs locks
             else for_each cvs (update_row rid);; mret locks);
    apply_updates gs locks
  end.

Definition remove_one (tbl rid : Z) : M OccServer () :=
  r ← occ_row rid;
  for_each (seq 0 (columns_count (schema_ (vr_row r)))) (fun col => set_row rid (incr_column_ver col));;
  table_remove tbl rid.

Definition Commit (tid : Z) : M OccServer () :=
  _ ← GetOrCreateMTxn tid;
  t ← RemoveMTxn tid;
  verify (bool_decide (outcome_ t = O_NONE));;
  verify (verified_ t);;
  for_each (inserts_ t) (fun p => table_insert p.1 p.2);;
  locks ← apply_updates (by_row (updates_ t)) (locks_ t);
  for_each (removes_ t) (fun p => remove_one p.1 p.2);;
  unlock_rows tid (filter (fun rid => rid ∉ (removes_ t).*2) locks).

(** [ClassicExecutor::Abort] and [TxnOCC::abort] *)
Definition Abort_ (tid : Z) : M OccServer () :=
  _ ← GetOrCreateMTxn tid;
  t ← RemoveMTxn tid;
  verify (bool_decide (outcome_ t = O_NONE));;
  unlock_rows tid (locks_ t).
