(* ===== verification/OccLock.v ===== *)
(** * Optimistic concurrency control: locks and prepared transactions

    What taking and giving back the locks of one transaction means for the others, and
    what a transaction holds once it is prepared. *)
From stdpp Require Import base tactics numbers list sorting gmap sets.
From S2P Require Import Prelude SparseInt OMap Command MemRow MemRowSpec Occ.

(** ** One lock *)

(** A lock that is held for writing is not held for reading. *)
Definition lock_ok (l : RWLock) : Prop := wlocked_ l = true -> r_ l = ∅.
Definition holds_w (o : Z) (l : RWLock) : Prop := wlocked_ l = true /\ w_ l = o.
Definition holds_r (o : Z) (l : RWLock) : Prop := holds_w o l \/ o ∈ r_ l.

Lemma lock_exclusive l o o' : lock_ok l -> holds_w o l -> holds_r o' l -> o' = o.
Proof. intros Hok [Hw <-] [[_ <-]|Hr]; [done|]. rewrite (Hok Hw) in Hr. set_solver. Qed.

(** [o] changes the lock and leaves the others what they hold. *)
Definition spares (o : Z) (l l' : RWLock) : Prop :=
  (lock_ok l -> lock_ok l') /\ forall o', o' ≠ o -> (holds_r o' l -> holds_r o' l') /\ (holds_w o' l -> holds_w o' l').

#[export] Instance spares_preorder o : PreOrder (spares o).
Proof. split; [by split|]. intros l1 l2 l3 [A1 A2] [B1 B2]. split; [auto|]. intros o' Ho. destruct (A2 o' Ho), (B2 o' Ho). auto. Qed.

(** What a lock operation that succeeds promises: the owner has what it asked for, and
    loses nothing. *)
Definition gains (P : Z -> RWLock -> Prop) (lock : Z -> RWLock -> bool * RWLock) : Prop :=
  forall o l l', lock_ok l -> lock o l = (true, l') ->
    spares o l l' /\ P o l' /\ (holds_r o l -> holds_r o l') /\ (holds_w o l -> holds_w o l').

Lemma rlock_gains : gains holds_r rlock_by.
Proof.
  intros o [w x r] l' Hok. unfold rlock_by. cbn [wlocked_ w_ r_ fst snd andb negb]. unfold spares, holds_r, holds_w, lock_ok. destruct w; cbn [wlocked_ w_ r_ fst snd andb negb].
  - intros [= Ho <-]. apply Z.eqb_eq in Ho as ->. cbn [wlocked_ w_ r_ fst snd andb negb]. naive_solver.
  - intros [= <-]. cbn [wlocked_ w_ r_ fst snd andb negb]. rewrite elem_of_union, elem_of_singleton. split_and!; [done| |by right; left|naive_solver..].
    intros o' Ho. rewrite elem_of_union. naive_solver.
Qed.

Lemma wlock_gains : gains holds_w wlock_by.
Proof.
  intros o [w x r] l' Hok. unfold wlock_by. cbn [wlocked_ w_ r_ fst snd andb negb]. unfold spares, holds_r, holds_w, lock_ok. destruct w; cbn [wlocked_ w_ r_ fst snd andb negb].
  - intros [= Ho <-]. apply Z.eqb_eq in Ho as ->. cbn [wlocked_ w_ r_ fst snd andb negb]. naive_solver.
  - case_bool_decide as E; [subst r; intros [= <-]; cbn [wlocked_ w_ r_ fst snd andb negb]; set_unfold; naive_solver|]. case_bool_decide as E2; [|done].
    intros [= <-]. cbn [wlocked_ w_ r_ fst snd andb negb]. destruct E2 as [Ho Hs]. apply size_1_elem_of in Hs as [y Hy]. apply leibniz_equiv in Hy. subst r.
    apply elem_of_singleton in Ho as ->. split_and!; [intros _ _; set_solver| |done|naive_solver..].
    intros o' Hne. rewrite elem_of_singleton. naive_solver.
Qed.

Lemma unlock_spares o l : spares o l (unlock_by o l).2.
Proof.
  destruct l as [w x r]. unfold unlock_by, spares, holds_r, holds_w, lock_ok. cbn [wlocked_ w_ r_ fst snd andb negb].
  split.
  - intros Hok Hw. apply andb_true_iff in Hw as [Hw _]. rewrite (Hok Hw). set_solver.
  - intros o' Ho. rewrite elem_of_difference, elem_of_singleton. destruct w; cbn [wlocked_ w_ r_ fst snd andb negb]; [|naive_solver].
    destruct (Z.eqb_spec o x); cbn [wlocked_ w_ r_ fst snd andb negb]; naive_solver.
Qed.

(** ** The rows of a server *)

Abbreviation Key := (Z * nat)%type.
Definition colval (s : OccServer) (rc : Key) : option Value := r ← srv_rows s !! rc.1; get_column rc.2 (vr_row r).
Definition verof (s : OccServer) (rc : Key) : option Z := r ← srv_rows s !! rc.1; ver_ r !! rc.2.

(** Something is true of the lock of a row. *)
Definition at_lock (P : RWLock -> Prop) (s : OccServer) (rid : Z) : Prop :=
  exists r, srv_rows s !! rid = Some r /\ P (lock_ r).

Definition locks_ok (s : OccServer) : Prop := forall rid r, srv_rows s !! rid = Some r -> lock_ok (lock_ r).

(** Only locks change, and only the ones of [o]. *)
Definition row_touched (o : Z) (x x' : option VersionedRow) : Prop :=
  match x, x' with
  | Some r, Some r' => vr_row r' = vr_row r /\ ver_ r' = ver_ r /\ spares o (lock_ r) (lock_ r')
  | None, None => True
  | _, _ => False
  end.
Record touches (o : Z) (s s' : OccServer) : Prop := {
  to_rows : forall rid, row_touched o (srv_rows s !! rid) (srv_rows s' !! rid);
  to_tables : snapshot_tables s' = snapshot_tables s;
  to_txns : forall t, t ≠ o -> mdb_txns_ s' !! t = mdb_txns_ s !! t;
}.

#[export] Instance row_touched_preorder o : PreOrder (row_touched o).
Proof.
  split; [intros [r|]; by cbn|]. intros [r1|] [r2|] [r3|]; cbn; try done. intros (A1 & A2 & A3) (B1 & B2 & B3).
  split_and!; [congruence..|by etrans].
Qed.

#[export] Instance touches_preorder o : PreOrder (touches o).
Proof.
  split; [intros s; by split|]. intros s1 s2 s3 [A1 A2 A3] [B1 B2 B3]. split; [|congruence|].
  - intros rid. etrans; [apply A1|apply B1].
  - intros t Ht. rewrite B3, A3; done.
Qed.

Section touched.
Context (o : Z) (s s' : OccServer) (Ht : touches o s s').

Lemma touches_colval rc : colval s' rc = colval s rc.
Proof.
  unfold colval. pose proof (to_rows _ _ _ Ht rc.1) as Hr.
  destruct (srv_rows s !! rc.1), (srv_rows s' !! rc.1); cbn in *; try done. by destruct Hr as (-> & _).
Qed.
Lemma touches_verof rc : verof s' rc = verof s rc.
Proof.
  unfold verof. pose proof (to_rows _ _ _ Ht rc.1) as Hr.
  destruct (srv_rows s !! rc.1), (srv_rows s' !! rc.1); cbn in *; try done. by destruct Hr as (_ & -> & _).
Qed.
Lemma touches_locks_ok : locks_ok s -> locks_ok s'.
Proof.
  intros Hok rid r' Hr'. pose proof (to_rows _ _ _ Ht rid) as Hr. rewrite Hr' in Hr.
  destruct (srv_rows s !! rid) as [r|] eqn:E; [|done]. apply Hr. by apply (Hok rid).
Qed.
Lemma touches_holds_r t rid : t ≠ o -> at_lock (holds_r t) s rid -> at_lock (holds_r t) s' rid.
Proof.
  intros Hne (r & E & Hh). pose proof (to_rows _ _ _ Ht rid) as Hr. rewrite E in Hr.
  destruct (srv_rows s' !! rid) as [r'|] eqn:E'; [|done]. exists r'. split; [done|]. by apply Hr.
Qed.
Lemma touches_holds_w t rid : t ≠ o -> at_lock (holds_w t) s rid -> at_lock (holds_w t) s' rid.
Proof.
  intros Hne (r & E & Hh). pose proof (to_rows _ _ _ Ht rid) as Hr. rewrite E in Hr.
  destruct (srv_rows s' !! rid) as [r'|] eqn:E'; [|done]. exists r'. split; [done|]. by apply Hr.
Qed.
End touched.

Lemma touches_set_row o rid r l s :
  srv_rows s !! rid = Some r -> spares o (lock_ r) l -> touches o s (s <| srv_rows ::= alter (fun r => r <| lock_ := l |>) rid |>).
Proof.
  intros Hr Hl. split; [|done..]. intros k. cbn. destruct (decide (k = rid)) as [->|Hne].
  - by rewrite lookup_alter_eq, Hr.
  - by rewrite lookup_alter_ne.
Qed.

Lemma touches_set_occ o f s : touches o s (s <| mdb_txns_ ::= alter f o |>).
Proof. split; [done..|]. intros t Ht. cbn. by rewrite lookup_alter_ne. Qed.

Lemma unlock_rows_touches o rows s s' :
  unlock_rows o rows s = Done (tt, s') -> touches o s s' /\ mdb_txns_ s' = mdb_txns_ s.
Proof.
  revert s. induction rows as [|rid rows IH]; intros s Hrun; [by injection Hrun as <-|].
  apply bind_done in Hrun as ([] & s1 & [= <-] & Hrun). apply IH in Hrun as [Ht Hm]. split; [|done].
  etrans; [|exact Ht]. clear Ht Hm. split; [|done..]. intros k. cbn. destruct (decide (k = rid)) as [->|Hne].
  - rewrite lookup_alter_eq. destruct (srv_rows s !! rid) as [r|]; cbn; [|done]. split_and!; [done..|]. apply unlock_spares.
  - by rewrite lookup_alter_ne.
Qed.

(** Only [locks_] of a transaction changes. *)
Definition same_but_locks (t t' : TxnOCC) : Prop := t' <| locks_ := [] |> = t <| locks_ := [] |>.

(** One row is locked, and noted. *)
Definition with_lock (o rid : Z) (l : RWLock) (s : OccServer) : OccServer :=
  s <| srv_rows ::= alter (fun r => r <| lock_ := l |>) rid |>
    <| mdb_txns_ ::= alter (fun t => t <| locks_ ::= fun ls => ls ++ [rid] |>) o |>.

Lemma with_lock_touches o rid l s r :
  srv_rows s !! rid = Some r -> spares o (lock_ r) l -> touches o s (with_lock o rid l s).
Proof. intros Hr Hl. etrans; [by apply (touches_set_row o rid r l) | apply touches_set_occ]. Qed.

Lemma with_lock_lookup o rid l s r (Q : RWLock -> Prop) k :
  srv_rows s !! rid = Some r -> (Q (lock_ r) -> Q l) -> at_lock Q s k -> at_lock Q (with_lock o rid l s) k.
Proof.
  intros Hr HQ (r' & Hk & Hq). unfold at_lock. cbn. destruct (decide (k = rid)) as [->|Hne].
  - rewrite lookup_alter_eq, Hr. eexists. split; [done|]. cbn. apply HQ. congruence.
  - rewrite lookup_alter_ne by done. by exists r'.
Qed.

Lemma with_lock_at o rid l s r (Q : RWLock -> Prop) : srv_rows s !! rid = Some r -> Q l -> at_lock Q (with_lock o rid l s) rid.
Proof. intros Hr HQ. unfold at_lock. cbn. rewrite lookup_alter_eq, Hr. by eexists. Qed.

Lemma with_lock_txn o rid l s t :
  mdb_txns_ s !! o = Some t -> exists t', mdb_txns_ (with_lock o rid l s) !! o = Some t' /\ same_but_locks t t'.
Proof. intros Ht. cbn. rewrite lookup_alter_eq, Ht. by eexists. Qed.

(** Locking the rows of a list. *)
Lemma lock_rows_spec P lock o rows s ok s' t :
  gains P lock -> (forall o l l', lock o l = (true, l') -> lock_ok l -> P o l -> P o l') ->
  locks_ok s -> mdb_txns_ s !! o = Some t -> lock_rows lock o rows s = Done (ok, s') ->
  touches o s s' /\ (exists t', mdb_txns_ s' !! o = Some t' /\ same_but_locks t t') /\
  (ok = true -> (forall rid, rid ∈ rows -> at_lock (P o) s' rid) /\
    (forall rid, at_lock (P o) s rid -> at_lock (P o) s' rid) /\
    (forall rid, at_lock (holds_r o) s rid -> at_lock (holds_r o) s' rid)).
Proof.
  intros Hg HP. revert s t. induction rows as [|rid rows IH]; intros s t Hok Ht Hrun.
  { injection Hrun as <- <-. split; [done|]. split; [by exists t|]. intros _. split_and!; [set_solver|done..]. }
  apply bind_done in Hrun as (r & s1 & H1 & Hrun). apply bind_done in H1 as (? & ? & [= <- <-] & H1).
  destruct (srv_rows s !! rid) as [r0|] eqn:Er; [|done]. injection H1 as -> <-.
  destruct (lock o (lock_ r)) as [b l] eqn:El. destruct b.
  - apply bind_done in Hrun as ([] & s2 & [= <-] & Hrun). apply bind_done in Hrun as ([] & s3 & [= <-] & Hrun).
    destruct (Hg o (lock_ r) l (Hok rid r Er) El) as (Hsp & Hp & Hr & Hw).
    change (lock_rows lock o rows (with_lock o rid l s) = Done (ok, s')) in Hrun.
    pose proof (with_lock_touches o rid l s r Er Hsp) as Hto.
    destruct (with_lock_txn o rid l s t Ht) as (t1 & Ht1 & Hs1).
    destruct (IH _ t1 (touches_locks_ok _ _ _ Hto Hok) Ht1 Hrun) as (Hto' & (t' & Ht' & Hs') & Hres).
    split; [by etrans|]. split; [exists t'; split; [done|]; unfold same_but_locks in *; congruence|].
    intros (H1 & H2 & H3)%Hres. split_and!.
    + intros k [->|Hk]%elem_of_cons; [apply H2, (with_lock_at _ _ _ _ r); done | by apply H1].
    + intros k Hk. apply H2. apply (with_lock_lookup _ _ _ _ r); [done|exact (HP o (lock_ r) l El (Hok rid r Er))|done].
    + intros k Hk. apply H3. by apply (with_lock_lookup _ _ _ _ r).
  - apply bind_done in Hrun as (? & ? & [= <- <-] & Hrun). apply bind_done in Hrun as (t0 & s2 & H2 & Hrun).
    rewrite Ht in H2. injection H2 as <- <-. apply bind_done in Hrun as ([] & s3 & H3 & Hrun).
    apply unlock_rows_touches in H3 as [Hto Hm]. apply bind_done in Hrun as ([] & s4 & [= <-] & Hrun). injection Hrun as <- <-.
    split; [etrans; [exact Hto|apply touches_set_occ]|]. split; [|done].
    cbn. rewrite lookup_alter_eq, Hm, Ht. by eexists.
Qed.

(** ** Preparing *)

Lemma version_check_spec l s b s' :
  version_check l s = Done (b, s') -> s' = s /\ (b = true -> forall rc v, (rc, v) ∈ l -> verof s rc = Some v).
Proof.
  revert s. induction l as [|[[rid col] ver] l IH]; intros s Hrun.
  { injection Hrun as <- <-. split; [done|]. intros _ rc v. by rewrite elem_of_nil. }
  apply bind_done in Hrun as (r & s1 & H1 & Hrun). apply bind_done in H1 as (? & ? & [= <- <-] & H1).
  destruct (srv_rows s !! rid) as [r0|] eqn:Er; [|done]. injection H1 as -> <-.
  apply bind_done in Hrun as (cv & s1 & H1 & Hrun). unfold get_column_ver in H1.
  destruct (ver_ r !! col) as [v0|] eqn:Ev; [|done]. injection H1 as -> <-.
  destruct (Z.eqb_spec cv ver) as [->|Hne]; [|by injection Hrun as <- <-].
  apply IH in Hrun as [-> Hall]. split; [done|]. intros Hb rc v [[= -> ->]|Hin]%elem_of_cons; [|by apply Hall].
  unfold verof. cbn. by rewrite Er.
Qed.

Lemma GetOrCreate_spec o s t s' :
  GetOrCreateMTxn o s = Done (t, s') ->
  t = default new_TxnOCC (mdb_txns_ s !! o) /\ mdb_txns_ s' !! o = Some t /\ touches o s s' /\ srv_rows s' = srv_rows s.
Proof.
  intros Hrun. apply bind_done in Hrun as (? & ? & [= <- <-] & Hrun).
  destruct (mdb_txns_ s !! o) as [t0|] eqn:E; [injection Hrun as <- <-; by rewrite E|].
  apply bind_done in Hrun as ([] & s1 & [= <-] & Hrun). injection Hrun as <- <-. split; [done|]. cbn. rewrite lookup_insert_eq.
  split_and!; [done| |done]. split; [done..|]. intros t Ht. cbn. by rewrite lookup_insert_ne.
Qed.

(** A transaction that has been asked to prepare. *)
Definition asked (ok : bool) (t t' : TxnOCC) : Prop :=
  t' <| locks_ := [] |> = t <| locks_ := [] |> <| verified_ := ok |>.

Lemma holds_w_keeps o l l' : rlock_by o l = (true, l') -> lock_ok l -> holds_r o l -> holds_r o l'.
Proof. intros E Hok. by destruct (rlock_gains o l l' Hok E) as (_ & ? & _). Qed.

Lemma Prepare_spec o s ok s' :
  locks_ok s -> Prepare o s = Done (ok, s') ->
  let t := default new_TxnOCC (mdb_txns_ s !! o) in
  touches o s s' /\ verified_ t = false /\ (exists t', mdb_txns_ s' !! o = Some t' /\ asked ok t t') /\
  (ok = true -> (forall rc v, ver_check_read_ t !! rc = Some v -> verof s rc = Some v /\ at_lock (holds_r o) s' rc.1) /\
    (forall u, u ∈ updates_ t -> at_lock (holds_w o) s' u.1)).
Proof.
  intros Hok Hrun t. apply bind_done in Hrun as (t0 & s1 & H1 & Hrun).
  apply GetOrCreate_spec in H1 as (-> & Ht1 & Hto1 & Hrows). fold t in Hrun, Ht1.
  pose proof (touches_locks_ok _ _ _ Hto1 Hok) as Hok1.
  apply bind_done in Hrun as ([] & s2 & H2 & Hrun). apply (preserves_verify _ (fun x => x = s1) _ _ _ eq_refl) in H2 as ->.
  apply bind_done in Hrun as ([] & s2 & H2 & Hrun). destruct (verified_ t) eqn:Hv; [done|]. injection H2 as <-.
  apply bind_done in Hrun as ([] & s2 & H2 & Hrun). apply (preserves_verify _ (fun x => x = s1) _ _ _ eq_refl) in H2 as ->.
  apply bind_done in Hrun as (b1 & s2 & H2 & Hrun). apply version_check_spec in H2 as [-> Hver].
  apply bind_done in Hrun as (b2 & s2 & H2 & Hrun).
  assert (s2 = s1 /\ (b2 = true -> b1 = true)) as [-> Hb].
  { destruct b1; [apply version_check_spec in H2 as [-> _]; done | by injection H2 as <- <-]. }
  assert (asked false t t) as Hsame.
  { unfold asked. revert Hv. destruct t. cbn. by intros ->. }
  destruct b2; [|injection Hrun as <- <-; split_and!; [done|done|by exists t|done]]. specialize (Hb eq_refl). subst b1.
  apply bind_done in Hrun as (b3 & s3 & H3 & Hrun).
  destruct (lock_rows_spec holds_r rlock_by o _ s1 b3 s3 t rlock_gains holds_w_keeps Hok1 Ht1 H3) as (Hto3 & (t3 & Ht3 & Hs3) & Hres3).
  pose proof (touches_locks_ok _ _ _ Hto3 Hok1) as Hok3.
  assert (asked false t t3) as Hask3.
  { unfold asked, same_but_locks in *. rewrite Hs3. exact Hsame. }
  destruct b3; [|injection Hrun as <- <-; split_and!; [by etrans|done|by exists t3|done]].
  apply bind_done in Hrun as (b4 & s4 & H4 & Hrun).
  assert (forall o l l', wlock_by o l = (true, l') -> lock_ok l -> holds_w o l -> holds_w o l') as HW.
  { intros o' l l' E Hl. by destruct (wlock_gains o' l l' Hl E) as (_ & ? & _). }
  destruct (lock_rows_spec holds_w wlock_by o _ s3 b4 s4 t3 wlock_gains HW Hok3 Ht3 H4) as (Hto4 & (t4 & Ht4 & Hs4) & Hres4).
  assert (asked false t t4) as Hask4 by (unfold asked, same_but_locks in *; congruence).
  destruct b4; [|injection Hrun as <- <-; split_and!; [by etrans; [|etrans]|done|by exists t4|done]].
  apply bind_done in Hrun as ([] & s5 & [= <-] & Hrun). injection Hrun as <- <-.
  destruct (Hres3 eq_refl) as (Hr3 & _ & _). destruct (Hres4 eq_refl) as (Hw4 & _ & Hr4). split_and!.
  - etrans; [exact Hto1|]. etrans; [exact Hto3|]. etrans; [exact Hto4|]. apply touches_set_occ.
  - done.
  - cbn. rewrite lookup_alter_eq, Ht4. eexists. split; [done|]. unfold asked in *. destruct t, t4. cbn in *. by injection Hask4 as -> -> -> -> -> -> -> _.
  - intros _. split.
    + intros rc v Hrc. split.
      * rewrite <- (touches_verof _ _ _ Hto1). apply Hver; [done|]. by apply elem_of_map_to_list.
      * apply Hr4, Hr3. apply list_elem_of_fmap. exists (rc, v). split; [done|]. by apply elem_of_map_to_list.
    + intros u Hu. apply Hw4. assert (updates_ t3 = updates_ t) as E3 by (exact (f_equal updates_ Hask3)).
      apply list_elem_of_fmap. by exists u.
Qed.

(** ** Optimistic concurrency control: the committed transactions are serializable

    A run interleaves the pieces of many transactions with their preparation, commit and
    abort.  The transactions that commit could have run one after the other in the order
    of their commits: they would have read the same values and left the same columns. *)

(** ** One transaction after the other *)

Inductive op := Rd (rc : Key) (v : Value) | Wr (rc : Key) (v : Value).

(** A database gives every column its value. *)
Abbreviation Database := (Key -> option Value).
Definition write_db (rc : Key) (v : Value) (D : Database) : Database := fun x => if decide (x = rc) then Some v else D x.

(** Running operations one by one; [None] if one reads what the database does not have. *)
Fixpoint serial (ops : list op) (D : Database) : option Database :=
  match ops with
  | [] => Some D
  | Rd rc v :: ops => if decide (D rc = Some v) then serial ops D else None
  | Wr rc v :: ops => serial ops (write_db rc v D)
  end.

(** ** Runs of a server *)

Inductive occ_event :=
  | EvRead (tid rid : Z) (col : nat)
  | EvWrite (tid rid : Z) (col : nat) (v : Value)
  | EvPrepare (tid : Z)
  | EvCommit (tid : Z)
  | EvAbort (tid : Z).

(** The operations of the transactions that are running, and of those that have committed,
    in the order of their commits. *)
Record history := mk_hist { running : gmap Z (list op); committed : list op }.

Definition ops_of (tid : Z) (h : history) : list op := default [] (running h !! tid).
Definition add_op (tid : Z) (o : op) (h : history) : history :=
  mk_hist (<[tid := ops_of tid h ++ [o]]> (running h)) (committed h).
Definition end_txn (tid : Z) (h : history) : history := mk_hist (delete tid (running h)) (committed h).
Definition commit_txn (tid : Z) (h : history) : history := mk_hist (delete tid (running h)) (committed h ++ ops_of tid h).

(** The last piece of a transaction comes before its preparation. *)
Definition not_prepared (tid : Z) (s : OccServer) : bool :=
  negb (verified_ (default new_TxnOCC (mdb_txns_ s !! tid))).

Definition occ_step (e : occ_event) (x : OccServer * history) : option (OccServer * history) :=
  let '(s, h) := x in
  match e with
  | EvRead tid rid col =>
    if not_prepared tid s then
      match read_column tid rid col s with Done (v, s') => Some (s', add_op tid (Rd (rid, col) v) h) | _ => None end
    else None
  | EvWrite tid rid col v =>
    if not_prepared tid s then
      match write_column tid rid col v s with Done (_, s') => Some (s', add_op tid (Wr (rid, col) v) h) | _ => None end
    else None
  | EvPrepare tid => match Prepare tid s with Done (_, s') => Some (s', h) | _ => None end
  | EvCommit tid => match Commit tid s with Done (_, s') => Some (s', commit_txn tid h) | _ => None end
  | EvAbort tid => match Abort_ tid s with Done (_, s') => Some (s', end_txn tid h) | _ => None end
  end.

Fixpoint occ_run (es : list occ_event) (x : OccServer * history) : option (OccServer * history) :=
  match es with
  | [] => Some x
  | e :: es => x ← occ_step e x; occ_run es x
  end.

(** Values are what the C++ types hold. *)
Definition event_ok (e : occ_event) : Prop := match e with EvWrite _ _ _ v => value_ok v | _ => True end.

(** ** The rows *)

(** A row in a table that is not a snapshot table. *)
Definition row_fine (tables : gset Z) (r : VersionedRow) : Prop :=
  row_ok (vr_row r) /\ rdonly_ (vr_row r) = false /\ exists tbl, tbl_ (vr_row r) = Some tbl /\ tbl ∉ tables.

Definition rows_fine (s : OccServer) : Prop := forall rid r, srv_rows s !! rid = Some r -> row_fine (snapshot_tables s) r.

Lemma touches_rows_fine o s s' : touches o s s' -> rows_fine s -> rows_fine s'.
Proof.
  intros Ht Hf rid r' Hr'. pose proof (to_rows _ _ _ Ht rid) as Hr. rewrite Hr' in Hr.
  destruct (srv_rows s !! rid) as [r|] eqn:E; [|done]. destruct Hr as (Er & _). destruct (Hf rid r E) as (A & B & C).
  unfold row_fine. by rewrite Er, (to_tables _ _ _ Ht).
Qed.

(** An update that goes through is of a column's kind. *)
Lemma update_done k v r calls r' :
  update k v r = Done (calls, r') -> exists c, col_info_ (schema_ r) !! k = Some c /\ get_kind v = ci_type c /\ v ≠ V_UNKNOWN.
Proof.
  intros Hrun. apply bind_done in Hrun as (? & ? & [= <- <-] & Hrun). apply bind_done in Hrun as (c & s1 & H1 & Hrun).
  unfold get_column_info in H1. destruct (col_info_ (schema_ r) !! k) as [c0|] eqn:Ec; [|done]. injection H1 as -> <-.
  exists c. split; [done|]. destruct v as [|i|i|d|x]; [done|apply bind_done in Hrun as ([] & s1 & H1 & _)..|].
  1-3: unfold verify in H1; case_bool_decide; [done|done].
  apply bind_done in Hrun as (? & ? & [= <- <-] & Hrun). apply bind_done in Hrun as ([] & s1 & _ & Hrun).
  apply bind_done in Hrun as ([] & s2 & H2 & _). unfold verify in H2. by case_bool_decide.
Qed.

(** What [update_row] does to the row. *)
Lemma update_fine tables r col v calls row' :
  row_fine tables r -> value_ok v -> update col v (vr_row r) = Done (calls, row') ->
  let r' := incr_column_ver col (r <| vr_row := row' |>) in
  row_fine tables r' /\ (forall j, get_column j row' = if decide (j = col) then Some v else get_column j (vr_row r)) /\
  lock_ r' = lock_ r.
Proof.
  intros ((bl & Hrep) & Hro & tbl & Htbl & Hns) Hv Hrun r'. pose proof (update_done _ _ _ _ _ Hrun) as (c & Hc & Hk & Hu).
  destruct (Forall2_lookup_l _ _ _ _ _ (rr_sized _ _ Hrep) Hc) as (old & Hold & _).
  destruct (update_rep _ bl col c v old Hrep Hc Hold Hk Hu Hro) as (row & E & Hrep' & (Es & Et & Er)).
  rewrite E in Hrun. injection Hrun as _ ->. split_and!; [| |done].
  - split; [by eexists|]. cbn. rewrite Er, Et. eauto.
  - by apply (insert_columns _ _ bl col c v).
Qed.

(** ** Applying the writes of a transaction *)

Abbreviation write := (Z * (nat * Value))%type.
Definition wkey (u : write) : Key := (u.1, u.2.1).
Definition look (rc : Key) (us : list write) : option Value :=
  snd ∘ snd <$> List.find (fun u => (u.1 =? rc.1) && (u.2.1 =? rc.2)%nat) us.

Lemma look_cons rc u us : look rc (u :: us) = if decide (rc = wkey u) then Some u.2.2 else look rc us.
Proof.
  unfold look. cbn. destruct rc as [rid col], u as [rid' [col' v]]. unfold wkey. cbn.
  destruct (Z.eqb_spec rid' rid), (Nat.eqb_spec col' col); cbn; case_decide; naive_solver.
Qed.

Lemma look_None rc us : look rc us = None <-> rc ∉ wkey <$> us.
Proof.
  induction us as [|u us IH]; [split; [intros _; apply not_elem_of_nil|done]|]. rewrite look_cons, fmap_cons, not_elem_of_cons.
  case_decide; naive_solver.
Qed.

(** [us] have been applied, each once. *)
Record applied (us : list write) (s s' : OccServer) : Prop := {
  ap_rows : rows_fine s';
  ap_tables : snapshot_tables s' = snapshot_tables s;
  ap_txns : mdb_txns_ s' = mdb_txns_ s;
  ap_locks : forall rid, lock_ <$> srv_rows s' !! rid = lock_ <$> srv_rows s !! rid;
  ap_vals : forall rc, colval s' rc = match look rc us with Some v => Some v | None => colval s rc end;
  ap_vers : forall rc, verof s' rc = (if decide (rc ∈ wkey <$> us) then fun v => u64 (v + 1) else id) <$> verof s rc;
}.

Lemma update_row_applied u s s' :
  rows_fine s -> value_ok u.2.2 -> update_row u.1 u.2 s = Done (tt, s') -> applied [u] s s'.
Proof.
  destruct u as [rid [col v]]. cbn. intros Hf Hv Hrun. apply bind_done in Hrun as (calls & s1 & H1 & Hrun).
  unfold on_row in H1. cbn [fst snd] in H1. destruct (srv_rows s !! rid) as [r|] eqn:Er; [|done].
  destruct (update col v (vr_row r)) as [[x row']| |] eqn:Eu; [|done..]. injection H1 as -> <-.
  injection Hrun as <-. destruct (update_fine _ _ _ _ _ _ (Hf rid r Er) Hv Eu) as (Hfine & Hcol & Hl).
  set (r' := incr_column_ver col (r <| vr_row := row' |>)) in *.
  match goal with |- applied _ _ ?x => set (s' := x) end.
  assert (srv_rows s' = <[rid := r']> (srv_rows s)) as Es.
  { unfold s'. cbn. apply map_eq. intros k. destruct (decide (k = rid)) as [->|Hne].
    - by rewrite lookup_alter_eq, !lookup_insert_eq.
    - by rewrite lookup_alter_ne, !lookup_insert_ne. }
  split; [|done|done|..].
  - intros k r0. rewrite Es. intros [[<- <-]|[_ Hk]]%lookup_insert_Some; [done|by apply (Hf k)].
  - intros k. rewrite Es. destruct (decide (k = rid)) as [->|Hne]; [by rewrite lookup_insert_eq, Er|by rewrite lookup_insert_ne].
  - intros [k j]. rewrite look_cons. unfold colval, wkey. rewrite Es. cbn [fst snd]. destruct (decide (k = rid)) as [->|Hne].
    + rewrite lookup_insert_eq, Er. cbn [mbind option_bind]. change (vr_row r') with row'. rewrite Hcol.
      destruct (decide (j = col)) as [->|Hj]; [by rewrite decide_True | by rewrite decide_False by congruence].
    + rewrite lookup_insert_ne by done. by rewrite decide_False by congruence.
  - intros [k j]. unfold verof. rewrite Es. cbn [fst snd fmap list_fmap].
    destruct (decide _) as [Hin|Hin]; rewrite list_elem_of_singleton in Hin; unfold wkey in Hin; cbn [fst snd] in Hin.
    + injection Hin as -> ->. rewrite lookup_insert_eq, Er. cbn. by rewrite list_lookup_alter_eq.
    + destruct (decide (k = rid)) as [->|Hne]; [|rewrite lookup_insert_ne by done; by destruct (srv_rows s !! k) as [r0|]; cbn; [destruct (ver_ r0 !! j)|]].
      rewrite lookup_insert_eq, Er. cbn. rewrite list_lookup_alter_ne by congruence. by destruct (ver_ r !! j).
Qed.

Lemma bump_cons (f : Z -> Z) (rc k : Key) ks v : k ∉ ks ->
  (if decide (rc ∈ ks) then f else id) ((if decide (rc ∈ [k]) then f else id) v) = (if decide (rc ∈ k :: ks) then f else id) v.
Proof.
  intros Hk. destruct (decide (rc ∈ [k])) as [H1|H1], (decide (rc ∈ ks)) as [H2|H2], (decide (rc ∈ k :: ks)) as [H3|H3]; try done;
    rewrite ?list_elem_of_singleton in *; rewrite ?elem_of_cons in *; naive_solver.
Qed.

Lemma updates_applied us s s' :
  rows_fine s -> Forall (fun u => value_ok u.2.2) us -> NoDup (wkey <$> us) ->
  for_each us (fun u => update_row u.1 u.2) s = Done (tt, s') -> applied us s s'.
Proof.
  revert s. induction us as [|u us IH]; intros s Hf Hv Hnd Hrun.
  { injection Hrun as <-. split; try done. intros rc. cbn. by destruct (verof s rc). }
  apply Forall_cons in Hv as [Hv Hvs]. rewrite fmap_cons in Hnd. apply NoDup_cons in Hnd as [Hu Hnd].
  apply bind_done in Hrun as ([] & s1 & H1%update_row_applied & Hrun); [|done..].
  destruct H1 as [A1 A2 A3 A4 A5 A6]. destruct (IH s1 A1 Hvs Hnd Hrun) as [B1 B2 B3 B4 B5 B6].
  split; [done|congruence|congruence|by intros rid; rewrite B4| |].
  - intros rc. rewrite B5, A5, !look_cons. destruct (decide (rc = wkey u)) as [->|Hne]; [by rewrite (proj2 (look_None _ _) Hu)|done].
  - intros rc. rewrite B6, A6. destruct (verof s rc) as [v|]; [|done]. cbn [fmap option_fmap option_map]. f_equal. change (wkey <$> u :: us) with (wkey u :: (wkey <$> us)).
    by apply bump_cons.
Qed.

Definition flat (gs : list (Z * list (nat * Value))) : list write := gs ≫= (fun g => (fun cv => (g.1, cv)) <$> g.2).

Lemma flat_by_row l : flat (by_row l) = l.
Proof.
  induction l as [|[rid cv] l IH]; cbn; [done|]. destruct (by_row l) as [|[rid' cvs] gs]; cbn in *; [by rewrite <- IH|].
  destruct (Z.eqb_spec rid rid') as [->|Hne]; cbn; by rewrite <- IH.
Qed.

Lemma for_each_app {S A} (l1 l2 : list A) (f : A -> M S ()) s :
  for_each (l1 ++ l2) f s = (for_each l1 f;; for_each l2 f) s.
Proof.
  revert s. induction l1 as [|x l1 IH]; intros s; [done|]. cbn. unfold mbind, M_bind.
  destruct (f x s) as [[[] s1]| |]; [|done..]. by rewrite IH.
Qed.

Lemma for_each_row rid cvs s :
  for_each cvs (update_row rid) s = for_each ((fun cv => (rid, cv)) <$> cvs) (fun u : write => update_row u.1 u.2) s.
Proof.
  revert s. induction cvs as [|cv cvs IH]; intros s; [done|]. cbn. unfold mbind, M_bind.
  destruct (update_row rid cv s) as [[[] s1]| |]; [|done..]. apply IH.
Qed.

(** Without snapshot tables the writes are applied one by one. *)
Lemma apply_updates_flat gs locks s locks' s' :
  rows_fine s -> Forall (fun u => value_ok u.2.2) (flat gs) -> NoDup (wkey <$> flat gs) ->
  apply_updates gs locks s = Done (locks', s') ->
  locks' = locks /\ for_each (flat gs) (fun u => update_row u.1 u.2) s = Done (tt, s').
Proof.
  revert s. induction gs as [|[rid cvs] gs IH]; intros s Hf Hv Hnd Hrun; [by injection Hrun as <- <-|].
  cbn [flat mbind list_bind fst snd] in *. fold (flat gs) in *. rewrite Forall_app in Hv. destruct Hv as [Hv Hvs].
  rewrite fmap_app in Hnd. apply NoDup_app in Hnd as (Hnd & _ & Hnds).
  apply bind_done in Hrun as (r & s1 & H1 & Hrun). apply bind_done in H1 as (? & ? & [= <- <-] & H1).
  destruct (srv_rows s !! rid) as [r0|] eqn:Er; [|done]. injection H1 as -> <-.
  apply bind_done in Hrun as (? & ? & [= <- <-] & Hrun). destruct (Hf rid r Er) as (_ & _ & tbl & Ht & Hns).
  apply bind_done in Hrun as (tbl' & s1 & H1 & Hrun). rewrite Ht in H1. injection H1 as <- <-.
  rewrite bool_decide_eq_false_2 in Hrun by done. apply bind_done in Hrun as (l1 & s1 & H1 & Hrun).
  apply bind_done in H1 as ([] & s2 & H1 & [= -> ->]). rewrite for_each_row in H1.
  rewrite for_each_app, (bind_eq _ _ _ _ _ H1). apply updates_applied in H1 as Ha; [|done..]. apply IH; [apply Ha|done..].
Qed.

(** Committing a transaction that only reads and writes columns. *)
Lemma Commit_applied o s s' t :
  rows_fine s -> mdb_txns_ s !! o = Some t -> inserts_ t = [] -> removes_ t = [] ->
  Forall (fun u => value_ok u.2.2) (updates_ t) -> NoDup (wkey <$> updates_ t) -> Commit o s = Done (tt, s') ->
  verified_ t = true /\ mdb_txns_ s' = delete o (mdb_txns_ s) /\
  exists s1, applied (updates_ t) (s <| mdb_txns_ ::= delete o |>) s1 /\ touches o s1 s'.
Proof.
  intros Hf Ht Hi Hr Hv Hnd Hrun. apply bind_done in Hrun as (t0 & s0 & H0 & Hrun).
  apply bind_done in H0 as (? & ? & [= <- <-] & H0). rewrite Ht in H0. injection H0 as <- <-.
  apply bind_done in Hrun as (t0 & s0 & H0 & Hrun). apply bind_done in H0 as (? & ? & [= <- <-] & H0). rewrite Ht in H0.
  apply bind_done in H0 as (? & ? & [= <- <-] & H0). apply bind_done in H0 as ([] & ? & [= <-] & [= <- <-]).
  apply bind_done in Hrun as ([] & s1 & H1 & Hrun). unfold verify in H1. destruct (bool_decide _); [|done]. injection H1 as <-.
  apply bind_done in Hrun as ([] & s1 & H1 & Hrun). destruct (verified_ t); [|done]. injection H1 as <-.
  rewrite Hi, Hr in Hrun. apply bind_done in Hrun as ([] & s1 & [= <-] & Hrun). apply bind_done in Hrun as (locks & s1 & H1 & Hrun).
  apply apply_updates_flat in H1 as [-> H1]; [|done|by rewrite flat_by_row..]. rewrite flat_by_row in H1.
  apply updates_applied in H1; [|done..]. apply bind_done in Hrun as ([] & s2 & [= <-] & Hrun).
  apply unlock_rows_touches in Hrun as [Hto Hm]. split_and!; [done| |by exists s1].
  rewrite Hm. by rewrite (ap_txns _ _ _ H1).
Qed.
