(* ===== verification/OccInv.v ===== *)
(** * Optimistic concurrency control: the invariant of a run

    What a running transaction has read and written so far, against the rows as they
    are; [occ_serializable] follows. *)
From stdpp Require Import base tactics numbers list sorting gmap sets.
From S2P Require Import Prelude SparseInt OMap Command MemRow MemRowSpec Occ OccLock.

Lemma serial_app l1 l2 D : serial (l1 ++ l2) D = serial l1 D ≫= serial l2.
Proof. revert D. induction l1 as [|[rc v|rc v] l1 IH]; intros D; cbn; [done| |apply IH]. case_decide; [apply IH|done]. Qed.

(** A database with the writes of a transaction on top. *)
Definition over (us : list write) (D : Database) : Database := fun rc => match look rc us with Some v => Some v | None => D rc end.

(** On every database that has what was read, the operations run and leave the writes. *)
Definition replays (rd : gmap Key Value) (us : list write) (ops : list op) : Prop :=
  forall D : Database, (forall rc v, rd !! rc = Some v -> D rc = Some v) ->
  exists D', serial ops D = Some D' /\ forall rc, D' rc = over us D rc.

(** The values [rd] were read at the versions [vers]. *)
Record reads_at (s : OccServer) (vers : gmap Key Z) (rd : gmap Key Value) : Prop := {
  ra_dom : forall rc v, rd !! rc = Some v -> is_Some (vers !! rc);
  ra_val : forall rc ver, vers !! rc = Some ver -> exists now v,
    verof s rc = Some now /\ rd !! rc = Some v /\ ver <= now /\ (ver = now -> colval s rc = Some v);
}.

Record txn_inv (s : OccServer) (o : Z) (t : TxnOCC) (ops : list op) : Prop := {
  ti_plain : inserts_ t = [] /\ removes_ t = [];
  ti_ops : exists rd, reads_at s (ver_check_read_ t) rd /\ replays rd (updates_ t) ops;
  ti_vals : Forall (fun u => value_ok u.2.2) (updates_ t);
  ti_nodup : NoDup (wkey <$> updates_ t);
  ti_prep : verified_ t = true ->
    (forall rc ver, ver_check_read_ t !! rc = Some ver -> verof s rc = Some ver /\ at_lock (holds_r o) s rc.1) /\
    (forall u, u ∈ updates_ t -> at_lock (holds_w o) s u.1);
}.

Lemma new_txn_inv s o : txn_inv s o new_TxnOCC [].
Proof.
  split; try done; [|constructor..]. exists ∅. split; [by split|]. intros D _. by exists D.
Qed.

(** Rows that have the same values and versions for the transaction. *)
Lemma txn_inv_touches p s s' o t t' ops :
  touches p s s' -> txn_inv s o t ops -> (inserts_ t', removes_ t', ver_check_read_ t', updates_ t') = (inserts_ t, removes_ t, ver_check_read_ t, updates_ t) ->
  (verified_ t' = true -> o ≠ p /\ verified_ t = true) -> txn_inv s' o t' ops.
Proof.
  intros Hto [A (rd & [B1 B2] & B3) C D E] [= F1 F2 F3 F4] Hv. split.
  - by rewrite F1, F2.
  - exists rd. rewrite F3, F4. split; [|done]. split; [done|]. intros rc ver Hrc. destruct (B2 rc ver Hrc) as (now & v & ?).
    exists now, v. by rewrite (touches_verof _ _ _ Hto), (touches_colval _ _ _ Hto).
  - by rewrite F4.
  - by rewrite F4.
  - rewrite F3, F4. intros [Hne Ht]%Hv. destruct (E Ht) as [E1 E2]. split.
    + intros rc ver Hrc. destruct (E1 rc ver Hrc). split; [by rewrite (touches_verof _ _ _ Hto)|].
      by apply (touches_holds_r _ _ _ Hto).
    + intros u Hu. apply (touches_holds_w _ _ _ Hto); auto.
Qed.

(** ** Reads and writes *)

Lemma replays_read rd us ops rc v :
  replays rd us ops -> (forall D, (forall rc v, rd !! rc = Some v -> D rc = Some v) -> over us D rc = Some v) ->
  replays rd us (ops ++ [Rd rc v]).
Proof.
  intros Hr Hv D HD. destruct (Hr D HD) as (D' & E & HD'). exists D'. rewrite serial_app, E. cbn.
  by rewrite HD', (Hv D HD), decide_True.
Qed.

Lemma replays_mono rd rd' us ops : rd ⊆ rd' -> replays rd us ops -> replays rd' us ops.
Proof. intros Hsub Hr D HD. apply Hr. intros rc v Hrc. apply HD. by eapply lookup_weaken. Qed.

Lemma replays_write rd us us' ops rc v :
  replays rd us ops -> (forall x, look x us' = if decide (x = rc) then Some v else look x us) -> replays rd us' (ops ++ [Wr rc v]).
Proof.
  intros Hr Hl D HD. destruct (Hr D HD) as (D' & E & HD'). exists (write_db rc v D'). rewrite serial_app, E. split; [done|].
  intros x. unfold write_db, over. rewrite Hl, HD'. unfold over. by case_decide.
Qed.

Lemma look_put rid col v us x :
  look (rid, col) us = None -> look x (put_update rid (col, v) us) = if decide (x = (rid, col)) then Some v else look x us.
Proof.
  induction us as [|u us IH]; intros Hn; cbn [put_update]; [by rewrite look_cons|].
  rewrite look_cons in Hn. destruct (decide ((rid, col) = wkey u)) as [|Hne]; [done|].
  destruct (rid <? u.1); rewrite !look_cons; [done|]. rewrite IH by done. change (wkey (rid, (col, v))) with (rid, col) in *.
  destruct (decide (x = wkey u)) as [->|]; [|done]. by destruct (decide (wkey u = (rid, col))).
Qed.

Lemma keys_put rid cv us : wkey <$> put_update rid cv us ≡ₚ wkey (rid, cv) :: (wkey <$> us).
Proof.
  induction us as [|u us IH]; cbn [put_update]; [done|]. destruct (rid <? u.1); [done|]. cbn [fmap list_fmap]. rewrite IH. apply Permutation_swap.
Qed.

Lemma Forall_put (P : write -> Prop) rid cv us : P (rid, cv) -> Forall P us -> Forall P (put_update rid cv us).
Proof. intros Hp. induction 1 as [|u us Hu Hus IH]; cbn; [by constructor|]. destruct (rid <? u.1); by repeat constructor. Qed.

Lemma keys_overwrite rid col v us : wkey <$> overwrite rid col v us = wkey <$> us.
Proof.
  unfold overwrite. rewrite <- list_fmap_compose. apply list_fmap_ext. intros i [r [c x]] _. cbn.
  by destruct ((r =? rid) && (c =? col)%nat).
Qed.

Lemma look_overwrite rid col v us x :
  is_Some (look (rid, col) us) -> look x (overwrite rid col v us) = if decide (x = (rid, col)) then Some v else look x us.
Proof.
  intros Hs. induction us as [|u us IH]; [by destruct Hs|]. unfold overwrite in *. rewrite fmap_cons, !look_cons in *.
  destruct u as [r [c y]]. unfold wkey in *. cbn [fst snd] in *.
  destruct (Z.eqb_spec r rid) as [->|Hr]; [destruct (Nat.eqb_spec c col) as [->|Hc]|]; cbn [andb fst snd] in *.
  - destruct (decide (x = (rid, col))) as [->|Hx]; [done|]. clear Hs IH.
    induction us as [|[r [c z]] us IH]; [done|]. rewrite fmap_cons, !look_cons, IH. unfold wkey. cbn [fst snd].
    destruct (Z.eqb_spec r rid) as [->|]; [destruct (Nat.eqb_spec c col) as [->|]|]; cbn [andb fst snd]; [|done..].
    by rewrite !decide_False.
  - rewrite decide_False in Hs by congruence. rewrite IH by done. destruct (decide (x = (rid, c))) as [->|]; [|done]. destruct (decide ((rid, c) = (rid, col))); [congruence|done].
  - rewrite decide_False in Hs by congruence. rewrite IH by done. destruct (decide (x = (r, c))) as [->|]; [|done]. destruct (decide ((r, c) = (rid, col))); [congruence|done].
Qed.

(** The first steps of a piece: the transaction, and a row in a table. *)
Lemma piece_row {A} (k : TxnOCC -> VersionedRow -> M OccServer A) o rid s a s' :
  rows_fine s ->
  (t ← GetOrCreateMTxn o; verify (debug_check_row_valid rid t);; verify (bool_decide (outcome_ t = O_NONE));;
   r ← occ_row rid; k t r) s = Done (a, s') ->
  let t := default new_TxnOCC (mdb_txns_ s !! o) in
  exists s1 r, touches o s s1 /\ mdb_txns_ s1 !! o = Some t /\ srv_rows s1 = srv_rows s /\ srv_rows s !! rid = Some r /\
    is_Some (tbl_ (vr_row r)) /\ k t r s1 = Done (a, s').
Proof.
  intros Hf Hrun t. apply bind_done in Hrun as (t0 & s1 & H1 & Hrun). apply GetOrCreate_spec in H1 as (-> & Ht & Hto & Hr).
  apply bind_done in Hrun as ([] & s2 & H2 & Hrun). apply (preserves_verify _ (fun x => x = s1) _ _ _ eq_refl) in H2 as ->.
  apply bind_done in Hrun as ([] & s2 & H2 & Hrun). apply (preserves_verify _ (fun x => x = s1) _ _ _ eq_refl) in H2 as ->.
  apply bind_done in Hrun as (r & s2 & H2 & Hrun). apply bind_done in H2 as (? & ? & [= <- <-] & H2). rewrite Hr in H2.
  destruct (srv_rows s !! rid) as [r0|] eqn:Er; [|done]. injection H2 as -> <-.
  destruct (Hf rid r Er) as (_ & _ & tbl & Htbl & _). exists s1, r. split_and!; eauto.
Qed.

(** A piece changes its transaction and nothing else. *)
Definition piece_done (o : Z) (s s' : OccServer) (t' : TxnOCC) : Prop := touches o s s' /\ mdb_txns_ s' !! o = Some t'.

Lemma piece_set o s s1 t f : piece_done o s s1 t -> piece_done o s (s1 <| mdb_txns_ ::= alter f o |>) (f t).
Proof. intros [Hto Ht]. split; [etrans; [exact Hto|apply touches_set_occ]|]. cbn. by rewrite lookup_alter_eq, Ht. Qed.

(** Reading a column: the version that is there is the one that was read before, if it
    was. *)
Lemma reads_at_read s vers rd rc now v :
  reads_at s vers rd -> verof s rc = Some now -> colval s rc = Some v ->
  let vers' := match vers !! rc with Some _ => vers | None => <[rc := now]> vers end in
  debug_check_read rc now vers' = true ->
  exists rd', reads_at s vers' rd' /\ rd ⊆ rd' /\ rd' !! rc = Some v.
Proof.
  intros [Hd Hr] Hnow Hcv vers' Hdbg. unfold debug_check_read, vers' in *. clear vers'. destruct (vers !! rc) as [ver|] eqn:Ever.
  - rewrite Ever in Hdbg. destruct (Hr rc ver Ever) as (now' & v' & E & Hrd & Hle & Hval). rewrite Hnow in E. injection E as <-.
    apply Z.leb_le in Hdbg. rewrite Hcv in Hval. exists rd. split_and!; [by split|done|]. rewrite Hrd, Hval; [done|lia].
  - assert (rd !! rc = None) as Hno.
    { destruct (rd !! rc) as [x|] eqn:Ex; [|done]. apply Hd in Ex as [? ?]. congruence. }
    exists (<[rc := v]> rd). split_and!; [|by apply insert_subseteq|by rewrite lookup_insert_eq]. split.
    + intros k x. rewrite !lookup_insert_Some. destruct (decide (k = rc)) as [->|Hne]; [by rewrite lookup_insert_eq|].
      rewrite lookup_insert_ne by done. intros [[? _]|[_ Hk]]; [done|by eapply Hd].
    + intros k ver. destruct (decide (k = rc)) as [->|Hne].
      * rewrite !lookup_insert_eq. intros [= <-]. exists now, v. split_and!; done.
      * rewrite !lookup_insert_ne by done. apply Hr.
Qed.

Lemma read_spec o rid col s v s' ops :
  rows_fine s -> let t := default new_TxnOCC (mdb_txns_ s !! o) in
  verified_ t = false -> txn_inv s o t ops -> read_column o rid col s = Done (v, s') ->
  exists t', piece_done o s s' t' /\ verified_ t' = false /\ txn_inv s o t' (ops ++ [Rd (rid, col) v]).
Proof.
  intros Hf t Hv [Hp (rd & Hr & Hrep) Hvals Hnd _] Hrun.
  apply (piece_row (fun t r => match tbl_ (vr_row r) with None => _ | Some _ => _ end) _ _ _ _ _ Hf) in Hrun
    as (s1 & r & Hto & Ht & Hrows & Er & [tbl Htbl] & Hrun). fold t in Ht, Hrun. rewrite Htbl in Hrun.
  change (own_write rid col t) with (look (rid, col) (updates_ t)) in Hrun.
  destruct (look (rid, col) (updates_ t)) as [x|] eqn:El.
  { injection Hrun as <- <-. exists t. split_and!; [done..|]. split; [done| |done..|congruence]. exists rd. split; [done|].
    apply replays_read; [done|]. intros D HD. unfold over. by rewrite El. }
  apply bind_done in Hrun as (now & s2 & H2 & Hrun). unfold get_column_ver in H2.
  destruct (ver_ r !! col) as [now'|] eqn:Ev; [|done]. injection H2 as -> <-.
  apply bind_done in Hrun as ([] & s2 & [= <-] & Hrun). apply bind_done in Hrun as ([] & s3 & H3 & Hrun).
  unfold verify in H3. destruct (debug_check_read _ _ _) eqn:Edbg; [|done]. injection H3 as <-.
  apply bind_done in Hrun as (v0 & s3 & H3 & Hrun). destruct (get_column col (vr_row r)) as [v1|] eqn:Ec; [|done].
  injection H3 as -> <-. apply bind_done in Hrun as ([] & s3 & [= <-] & Hrun). injection Hrun as -> <-.
  destruct (reads_at_read s (ver_check_read_ t) rd (rid, col) now v Hr) as (rd' & Hr' & Hsub & Hrd);
    [unfold verof; cbn; by rewrite Er | unfold colval; cbn; by rewrite Er | exact Edbg |].
  eexists. split; [apply piece_set, piece_set; by split|]. split; [exact Hv|]. split; [done| |done..|].
  - exists rd'. split; [exact Hr'|]. apply replays_read; [by apply (replays_mono rd)|].
    intros D HD. unfold over. change (updates_ _) with (updates_ t). by rewrite El, (HD _ _ Hrd).
  - cbn. congruence.
Qed.

Lemma write_spec o rid col v s s' ops :
  rows_fine s -> value_ok v -> let t := default new_TxnOCC (mdb_txns_ s !! o) in
  verified_ t = false -> txn_inv s o t ops -> write_column o rid col v s = Done (tt, s') ->
  exists t', piece_done o s s' t' /\ verified_ t' = false /\ txn_inv s o t' (ops ++ [Wr (rid, col) v]).
Proof.
  intros Hf Hok t Hv [Hp (rd & Hr & Hrep) Hvals Hnd _] Hrun.
  apply (piece_row (fun t r => match tbl_ (vr_row r) with None => _ | Some _ => _ end) _ _ _ _ _ Hf) in Hrun
    as (s1 & r & Hto & Ht & Hrows & Er & [tbl Htbl] & Hrun). fold t in Ht, Hrun. rewrite Htbl in Hrun.
  change (own_write rid col t) with (look (rid, col) (updates_ t)) in Hrun.
  destruct (look (rid, col) (updates_ t)) as [x|] eqn:El.
  - injection Hrun as <-. eexists. split; [apply piece_set; by split|]. split; [exact Hv|]. split; [done|..|cbn; congruence].
    + exists rd. split; [exact Hr|]. apply (replays_write _ (updates_ t)); [done|]. intros y. apply look_overwrite. by rewrite El.
    + cbn. unfold overwrite. apply Forall_fmap. apply (Forall_impl _ _ _ Hvals). intros u Hu. cbn. by destruct (_ && _).
    + cbn. by rewrite keys_overwrite.
  - apply bind_done in Hrun as (now & s2 & H2 & Hrun). unfold get_column_ver in H2.
    destruct (ver_ r !! col) as [now'|] eqn:Ev; [|done]. injection H2 as -> <-.
    apply bind_done in Hrun as ([] & s2 & H3 & Hrun). unfold verify in H3. destruct (debug_check_read _ _ _); [|done].
    injection H3 as <-. injection Hrun as <-.
    eexists. split; [apply piece_set; by split|]. split; [exact Hv|]. split; [done|..|cbn; congruence].
    + exists rd. split; [exact Hr|]. apply (replays_write _ (updates_ t)); [done|]. intros y. by apply look_put.
    + by apply Forall_put.
    + cbn. rewrite keys_put. apply NoDup_cons. split; [|done]. by apply look_None.
Qed.

(** ** The server *)

(** [n] transactions have committed, starting from the columns [D0]. *)
Record srv_inv (D0 : Database) (n : Z) (s : OccServer) (h : history) : Prop := {
  si_rows : rows_fine s;
  si_locks : locks_ok s;
  si_vers : forall rc v, verof s rc = Some v -> 0 <= v <= n;
  si_txns : forall o t, mdb_txns_ s !! o = Some t -> txn_inv s o t (ops_of o h);
  si_idle : forall o, mdb_txns_ s !! o = None -> ops_of o h = [];
  si_db : exists D, serial (committed h) D0 = Some D /\ forall rc, D rc = colval s rc;
}.

Lemma si_txn D0 n s h o : srv_inv D0 n s h -> txn_inv s o (default new_TxnOCC (mdb_txns_ s !! o)) (ops_of o h).
Proof.
  intros H. destruct (mdb_txns_ s !! o) as [t|] eqn:E; [by apply (si_txns _ _ _ _ H)|].
  rewrite (si_idle _ _ _ _ H o E). apply new_txn_inv.
Qed.

(** A transaction [o] does what touches only its own state; its operations are [h']'s. *)
Lemma srv_inv_touches D0 n s h s' h' o :
  srv_inv D0 n s h -> touches o s s' -> committed h' = committed h ->
  (forall o', o' ≠ o -> ops_of o' h' = ops_of o' h) ->
  (forall t, mdb_txns_ s' !! o = Some t -> txn_inv s' o t (ops_of o h')) ->
  (mdb_txns_ s' !! o = None -> ops_of o h' = []) -> srv_inv D0 n s' h'.
Proof.
  intros [A1 A2 A3 A4 A5 A6] Hto Hc Hops Hown Hidle. split.
  - by apply (touches_rows_fine o s).
  - by apply (touches_locks_ok o s).
  - intros rc v. rewrite (touches_verof _ _ _ Hto). apply A3.
  - intros o' t. destruct (decide (o' = o)) as [->|Hne]; [apply Hown|]. rewrite (to_txns _ _ _ Hto), Hops by done.
    intros Ht%A4. by apply (txn_inv_touches o s s' o' t).
  - intros o'. destruct (decide (o' = o)) as [->|Hne]; [apply Hidle|]. rewrite (to_txns _ _ _ Hto), Hops by done. apply A5.
  - rewrite Hc. destruct A6 as (D & E & HD). exists D. split; [done|]. intros rc. by rewrite (touches_colval _ _ _ Hto).
Qed.

Lemma piece_step D0 n s h s' o t' e :
  srv_inv D0 n s h -> piece_done o s s' t' -> verified_ t' = false -> txn_inv s o t' (ops_of o h ++ [e]) ->
  srv_inv D0 n s' (add_op o e h).
Proof.
  intros Hi [Hto Ht] Hv Hinv. unfold ops_of in *. apply (srv_inv_touches D0 n s h s' _ o); unfold ops_of; cbn; try done.
  - intros o' Ho. by rewrite lookup_insert_ne.
  - intros t. rewrite lookup_insert_eq, Ht. intros [= <-]. apply (txn_inv_touches o s s' o t'); [done..|congruence].
  - by rewrite Ht.
Qed.

Lemma prepare_step D0 n s h s' o ok : srv_inv D0 n s h -> Prepare o s = Done (ok, s') -> srv_inv D0 n s' h.
Proof.
  intros Hi Hrun. pose proof (si_txn _ _ _ _ o Hi) as Hown.
  destruct (Prepare_spec o s ok s' (si_locks _ _ _ _ Hi) Hrun) as (Hto & Hv & (t' & Ht' & Hask) & Hok).
  set (t := default new_TxnOCC (mdb_txns_ s !! o)) in *.
  assert ((inserts_ t', removes_ t', ver_check_read_ t', updates_ t') = (inserts_ t, removes_ t, ver_check_read_ t, updates_ t)) as Esame
    by exact (f_equal (fun t => (inserts_ t, removes_ t, ver_check_read_ t, updates_ t)) Hask).
  assert (verified_ t' = ok) as Ev by exact (f_equal verified_ Hask).
  apply (srv_inv_touches D0 n s h s' _ o); try done; [|by rewrite Ht'].
  rewrite Ht'. intros t'' [= <-]. destruct ok; [|apply (txn_inv_touches o s s' o t); [done..|congruence]].
  destruct (txn_inv_touches o s s' o t t (ops_of o h) Hto Hown eq_refl) as [B1 B2 B3 B4 _]; [congruence|].
  destruct (Hok eq_refl) as [Hrd Hwr]. injection Esame as E1 E2 E3 E4.
  split; rewrite ?E1, ?E2, ?E3, ?E4; try done. intros _. split; [|done].
  intros rc ver Hrc. rewrite (touches_verof _ _ _ Hto). by apply Hrd.
Qed.

Lemma Abort_spec o s s' : Abort_ o s = Done (tt, s') -> touches o s s' /\ mdb_txns_ s' !! o = None.
Proof.
  intros Hrun. apply bind_done in Hrun as (t0 & s0 & H0 & Hrun). apply GetOrCreate_spec in H0 as (_ & Ht & Hto & _).
  apply bind_done in Hrun as (t1 & s1 & H1 & Hrun). apply bind_done in H1 as (? & ? & [= <- <-] & H1). rewrite Ht in H1.
  apply bind_done in H1 as (? & ? & [= <- <-] & H1). apply bind_done in H1 as ([] & ? & [= <-] & [= <- <-]).
  apply bind_done in Hrun as ([] & s2 & H2 & Hrun). unfold verify in H2. destruct (bool_decide _); [|done]. injection H2 as <-.
  apply unlock_rows_touches in Hrun as [Hto2 Hm]. split; [|rewrite Hm; cbn; by rewrite lookup_delete_eq].
  etrans; [exact Hto|]. etrans; [|exact Hto2]. split; [done..|]. intros t Hne. cbn. by rewrite lookup_delete_ne.
Qed.

Lemma ops_of_end o o' h : ops_of o' (end_txn o h) = if decide (o' = o) then [] else ops_of o' h.
Proof. unfold ops_of, end_txn. cbn. case_decide as Ho; [subst; by rewrite lookup_delete_eq | by rewrite lookup_delete_ne]. Qed.

Lemma abort_step D0 n s h s' o : srv_inv D0 n s h -> Abort_ o s = Done (tt, s') -> srv_inv D0 n s' (end_txn o h).
Proof.
  intros Hi [Hto Hno]%Abort_spec. apply (srv_inv_touches D0 n s h s' _ o); try done.
  - intros o' Ho. by rewrite ops_of_end, decide_False.
  - by rewrite Hno.
  - intros _. by rewrite ops_of_end, decide_True.
Qed.

(** ** Commit *)

Lemma Commit_runs o s s' : Commit o s = Done (tt, s') -> is_Some (mdb_txns_ s !! o).
Proof.
  intros Hrun. destruct (mdb_txns_ s !! o) as [t|] eqn:E; [done|]. exfalso.
  apply bind_done in Hrun as (t0 & s0 & H0 & Hrun). apply GetOrCreate_spec in H0 as (-> & Ht & _). rewrite E in Ht. cbn in Ht.
  apply bind_done in Hrun as (t1 & s1 & H1 & Hrun). apply bind_done in H1 as (? & ? & [= <- <-] & H1). rewrite Ht in H1.
  apply bind_done in H1 as (? & ? & [= <- <-] & H1). apply bind_done in H1 as ([] & ? & [= <-] & [= <- <-]).
  apply bind_done in Hrun as ([] & s2 & [= <-] & Hrun). by apply bind_done in Hrun as ([] & s3 & [=] & Hrun).
Qed.

Lemma applied_locks us s s' (P : RWLock -> Prop) rid : applied us s s' -> at_lock P s rid -> at_lock P s' rid.
Proof.
  intros Ha (r & Er & Hp). pose proof (ap_locks _ _ _ Ha rid) as El. rewrite Er in El.
  destruct (srv_rows s' !! rid) as [r'|] eqn:Er'; [|done]. injection El as El. exists r'. by rewrite El.
Qed.

Lemma applied_locks_ok us s s' : applied us s s' -> locks_ok s -> locks_ok s'.
Proof.
  intros Ha Hok rid r' Er'. pose proof (ap_locks _ _ _ Ha rid) as El. rewrite Er' in El.
  destruct (srv_rows s !! rid) as [r|] eqn:Er; [|done]. injection El as ->. by apply (Hok rid).
Qed.

(** The version of a column after a commit. *)
Lemma applied_verof us s s' n rc v :
  applied us s s' -> (forall rc v, verof s rc = Some v -> 0 <= v <= n) -> n < 2 ^ 64 - 1 -> verof s rc = Some v ->
  verof s' rc = Some (if decide (rc ∈ wkey <$> us) then v + 1 else v).
Proof.
  intros Ha Hb Hn Hv. rewrite (ap_vers _ _ _ Ha), Hv. cbn. case_decide; [|done]. f_equal. apply Hb in Hv.
  unfold u64. apply Z.mod_small. lia.
Qed.

(** Another transaction when the writes [us] of [o] are applied. *)
Lemma txn_inv_applied us s s' n o' t ops :
  applied us s s' -> (forall rc v, verof s rc = Some v -> 0 <= v <= n) -> n < 2 ^ 64 - 1 ->
  (forall rc, rc ∈ wkey <$> us -> verified_ t = true -> at_lock (holds_r o') s rc.1 -> False) ->
  txn_inv s o' t ops -> txn_inv s' o' t ops.
Proof.
  intros Ha Hb Hn Hex [A (rd & [B1 B2] & B3) C D E]. split; try done.
  - exists rd. split; [|done]. split; [done|]. intros rc ver Hrc. destruct (B2 rc ver Hrc) as (now & v & Hnow & Hrd & Hle & Hval).
    eexists _, v. split; [by eapply applied_verof|]. split; [done|]. rewrite (ap_vals _ _ _ Ha). case_decide as Hin.
    + split; lia.
    + split; [done|]. intros Heq. by rewrite (proj2 (look_None _ _) Hin), Hval.
  - intros Hv. destruct (E Hv) as [E1 E2]. split.
    + intros rc ver Hrc. destruct (E1 rc ver Hrc) as [H1 H2]. split; [|by eapply applied_locks].
      rewrite (applied_verof _ _ _ _ _ _ Ha Hb Hn H1). rewrite decide_False; [done|]. intros Hin. by apply (Hex rc Hin).
    + intros u Hu. by eapply applied_locks; [|apply E2].
Qed.

Lemma prepared_exclusive s o o' rid : locks_ok s -> at_lock (holds_w o) s rid -> at_lock (holds_r o') s rid -> o' = o.
Proof. intros Hok (r & Er & Hw) (r' & Er' & Hr). rewrite Er in Er'. injection Er' as <-. by apply (lock_exclusive (lock_ r)); [apply (Hok rid)|..]. Qed.

(** The writes of a prepared transaction, over what it has read. *)
Lemma commit_serial s o t ops D :
  txn_inv s o t ops -> verified_ t = true -> (forall rc, D rc = colval s rc) ->
  exists D', serial ops D = Some D' /\ forall rc, D' rc = over (updates_ t) D rc.
Proof.
  intros [_ (rd & [B1 B2] & B3) _ _ E] Hv HD. apply B3. intros rc v Hrd. destruct (B1 rc v Hrd) as [ver Hver].
  destruct (B2 rc ver Hver) as (now & v' & Hnow & Hrd' & _ & Hval). destruct (proj1 (E Hv) rc ver Hver) as [Hcur _].
  rewrite HD, Hval; congruence.
Qed.

Lemma commit_step D0 n s h s' o :
  srv_inv D0 n s h -> n < 2 ^ 64 - 1 -> Commit o s = Done (tt, s') -> srv_inv D0 (n + 1) s' (commit_txn o h).
Proof.
  intros Hi Hn Hrun. destruct (Commit_runs o s s' Hrun) as [t Ht]. pose proof (si_txns _ _ _ _ Hi o t Ht) as Hown.
  pose proof (ti_plain _ _ _ _ Hown) as [Hins Hrem].
  destruct (Commit_applied o s s' t (si_rows _ _ _ _ Hi) Ht Hins Hrem (ti_vals _ _ _ _ Hown) (ti_nodup _ _ _ _ Hown) Hrun)
    as (Hv & Hm & s1 & Ha & Hto).
  set (sd := s <| mdb_txns_ ::= delete o |>) in *.
  assert (forall rc v, verof sd rc = Some v -> 0 <= v <= n) as Hb by exact (si_vers _ _ _ _ Hi).
  assert (touches o s sd) as Htd by (split; [done..|]; intros; by apply lookup_delete_ne).
  assert (locks_ok sd) as Hok by exact (si_locks _ _ _ _ Hi).
  assert (forall o', ops_of o' (commit_txn o h) = ops_of o' (end_txn o h)) as Hend by done.
  split.
  - apply (touches_rows_fine o s1); [done|apply Ha].
  - apply (touches_locks_ok o s1); [done|]. by apply (applied_locks_ok _ sd s1 Ha).
  - intros rc v. rewrite (touches_verof _ _ _ Hto), (ap_vers _ _ _ Ha). destruct (verof sd rc) as [v0|] eqn:E; [|done].
    pose proof (applied_verof _ _ _ n rc v0 Ha Hb Hn E) as E'. rewrite (ap_vers _ _ _ Ha), E in E'. rewrite E'.
    intros [= <-]. apply Hb in E. case_decide; lia.
  - intros o' t' Ht'. rewrite Hm in Ht'. apply lookup_delete_Some in Ht' as [Hne Ht'].
    rewrite Hend, ops_of_end, decide_False by done. pose proof (si_txns _ _ _ _ Hi o' t' Ht') as Hoth.
    apply (txn_inv_touches o s1 s' o' t'); [done| |done|done].
    apply (txn_inv_applied (updates_ t) sd s1 n); [done..| |by apply (txn_inv_touches o s sd o' t')].
    intros rc (u & -> & Hu)%list_elem_of_fmap _ Hr. apply Hne. symmetry.
    apply (prepared_exclusive sd o o' u.1 Hok); [|exact Hr]. by apply (ti_prep _ _ _ _ Hown Hv).
  - intros o' Ho'. rewrite Hend, ops_of_end. case_decide; [done|]. apply (si_idle _ _ _ _ Hi).
    rewrite Hm in Ho'. apply lookup_delete_None in Ho' as [?|?]; congruence.
  - destruct (si_db _ _ _ _ Hi) as (D & HD & Hcv). destruct (commit_serial s o t _ D Hown Hv Hcv) as (D' & HD' & Hover).
    exists D'. cbn. rewrite serial_app, HD. cbn. split; [done|]. intros rc.
    rewrite (touches_colval _ _ _ Hto), (ap_vals _ _ _ Ha), Hover. unfold over. by rewrite Hcv.
Qed.

(** ** Runs *)

Lemma occ_step_inv D0 n s h e s' h' :
  srv_inv D0 n s h -> n < 2 ^ 64 - 1 -> event_ok e -> occ_step e (s, h) = Some (s', h') ->
  exists n', n <= n' <= n + 1 /\ srv_inv D0 n' s' h'.
Proof.
  intros Hi Hn He Hstep. pose proof (fun o => si_txn _ _ _ _ o Hi) as Htx. pose proof (si_rows _ _ _ _ Hi) as Hf.
  destruct e as [o rid col|o rid col v|o|o|o]; cbn in Hstep.
  - unfold not_prepared in Hstep. destruct (verified_ _) eqn:Hv in Hstep; [done|]. cbn in Hstep.
    destruct (read_column o rid col s) as [[v s1]| |] eqn:E; [|done..]. injection Hstep as <- <-.
    destruct (read_spec o rid col s v s1 _ Hf Hv (Htx o) E) as (t' & Hp & Hv' & Ht'). exists n. split; [lia|]. by apply (piece_step D0 n s h s1 o t').
  - unfold not_prepared in Hstep. destruct (verified_ _) eqn:Hv in Hstep; [done|]. cbn in Hstep.
    destruct (write_column o rid col v s) as [[[] s1]| |] eqn:E; [|done..]. injection Hstep as <- <-.
    destruct (write_spec o rid col v s s1 _ Hf He Hv (Htx o) E) as (t' & Hp & Hv' & Ht'). exists n. split; [lia|]. by apply (piece_step D0 n s h s1 o t').
  - destruct (Prepare o s) as [[ok s1]| |] eqn:E; [|done..]. injection Hstep as <- <-. exists n. split; [lia|]. by apply (prepare_step D0 n s h s1 o ok).
  - destruct (Commit o s) as [[[] s1]| |] eqn:E; [|done..]. injection Hstep as <- <-. exists (n + 1). split; [lia|]. by apply (commit_step D0 n s).
  - destruct (Abort_ o s) as [[[] s1]| |] eqn:E; [|done..]. injection Hstep as <- <-. exists n. split; [lia|]. by apply (abort_step D0 n s).
Qed.

Lemma occ_run_inv D0 es n s h s' h' :
  srv_inv D0 n s h -> n + Z.of_nat (length es) < 2 ^ 64 -> Forall event_ok es -> occ_run es (s, h) = Some (s', h') ->
  exists n', srv_inv D0 n' s' h'.
Proof.
  revert n s h. induction es as [|e es IH]; intros n s h Hi Hn He Hrun; cbn [occ_run] in Hrun; [injection Hrun as <- <-; eauto|].
  cbn [length] in Hn. apply Forall_cons in He as [He Hes]. destruct (occ_step e (s, h)) as [[s1 h1]|] eqn:E; [|done].
  destruct (occ_step_inv D0 n s h e s1 h1 Hi ltac:(lia) He E) as (n' & Hn' & Hi'). apply (IH n' s1 h1); [done|lia|done|exact Hrun].
Qed.

(** A server that has not run anything. *)
Record fresh_server (s : OccServer) : Prop := {
  fs_rows : rows_fine s;
  fs_new : forall rid r, srv_rows s !! rid = Some r -> lock_ r = new_RWLock /\ Forall (fun v => v = 0) (ver_ r);
  fs_txns : mdb_txns_ s = ∅;
}.

Definition no_history : history := mk_hist ∅ [].

Lemma fresh_inv s : fresh_server s -> srv_inv (colval s) 0 s no_history.
Proof.
  intros [A B C]. split; [done|..].
  - intros rid r Hr. by destruct (B rid r Hr) as [-> _].
  - intros [rid col] v. unfold verof. cbn. destruct (srv_rows s !! rid) as [r|] eqn:Er; [|done]. cbn. intros Hv.
    destruct (B rid r Er) as [_ Hz]. rewrite Forall_lookup in Hz. rewrite (Hz col v Hv). lia.
  - intros o t. by rewrite C.
  - done.
  - by exists (colval s).
Qed.

(** C13: committed transactions are serializable in the order of their
    commits.  Whatever way the pieces (reads and writes of columns), the preparations,
    commits and aborts of transactions interleave at a server, the operations of the
    transactions that committed, run one after the other on the columns as they were at the
    start, read exactly the values that were read and end with exactly the columns that
    the server has.  Rows exist from the start and are in tables without snapshots (insertions
    and removals of rows are not part of these runs), and fewer than [2 ^ 64] events
    keep the versions from wrapping. *)
Theorem occ_serializable s0 es s h :
  fresh_server s0 -> Forall event_ok es -> Z.of_nat (length es) < 2 ^ 64 ->
  occ_run es (s0, no_history) = Some (s, h) ->
  exists D, serial (committed h) (colval s0) = Some D /\ forall rc, D rc = colval s rc.
Proof.
  intros Hf He Hn Hrun. destruct (occ_run_inv (colval s0) es 0 s0 no_history s h (fresh_inv s0 Hf) ltac:(lia) He Hrun) as [n' Hi].
  apply (si_db _ _ _ _ Hi).
Qed.

(** A server with two rows of two columns. *)
Definition demo_schema : Schema :=
  match add_columns [([105], I64, true); ([115], STR, false)] new_Schema with Done (_, s) => s | _ => new_Schema end.
Definition demo_row (values : list Value) : option VersionedRow :=
  r ← create_vrow demo_schema values;
  Some (r <| vr_row ::= fun row => row <| tbl_ := Some 1 |> |>).
Definition demo_server : OccServer :=
  mk_srv (map_imap (fun _ => demo_row) {[1 := [V_I64 10; V_STR [1]]; 2 := [V_I64 20; V_STR [2; 2]]]}) ∅ ∅ 3.

(** Transaction 2 has read what transaction 1 is to write, and is refused; 3 reads it
    afterwards. *)
Definition demo_events : list occ_event :=
  [EvRead 1 1 0; EvRead 2 1 0; EvWrite 2 1 1 (V_STR [7]); EvWrite 1 1 0 (V_I64 11); EvRead 1 1 0; EvPrepare 1; EvPrepare 2;
   EvAbort 2; EvCommit 1; EvRead 3 1 0; EvWrite 3 2 1 (V_STR [3; 3; 3]); EvWrite 3 2 1 (V_STR [3]); EvPrepare 3; EvCommit 3].

Lemma demo_row_fine values r :
  Forall2 fits (visible_columns demo_schema) values -> demo_row values = Some r ->
  row_fine ∅ r /\ lock_ r = new_RWLock /\ Forall (fun v => v = 0) (ver_ r).
Proof.
  intros Hf Hr. assert (no_hidden demo_schema) as (Hwf & _) by (apply (add_columns_wf [([105], I64, true); ([115], STR, false)]); reflexivity).
  destruct (create_rep demo_schema values Hwf Hf eq_refl) as (row & Hc & [A B C D] & Es & Et & Ero).
  unfold demo_row, create_vrow in Hr. rewrite Hc in Hr. injection Hr as <-. split_and!; [|done|by repeat constructor].
  split_and!; [by eexists; split|done|]. by exists 1.
Qed.

Lemma demo_fresh : fresh_server demo_server.
Proof.
  assert (forall rid r, srv_rows demo_server !! rid = Some r -> row_fine ∅ r /\ lock_ r = new_RWLock /\ Forall (fun v => v = 0) (ver_ r)) as H.
  { intros rid r. unfold demo_server. cbn [srv_rows]. rewrite map_lookup_imap.
    intros (values & Hv & Hr)%bind_Some. apply (demo_row_fine values r); [|exact Hr].
    apply lookup_insert_Some in Hv as [[_ <-]|[_ Hv]]; [|apply lookup_singleton_Some in Hv as [_ <-]];
      repeat constructor; vm_compute; intros; discriminate. }
  split; [|intros rid r Hr; by apply H in Hr as [_ ?]|done]. intros rid r Hr. by apply H in Hr as [? _].
Qed.

Lemma occ_serializable_witness : exists s h D,
  occ_run demo_events (demo_server, no_history) = Some (s, h) /\
  committed h = [Rd (1, 0%nat) (V_I64 10); Wr (1, 0%nat) (V_I64 11); Rd (1, 0%nat) (V_I64 11);
                 Rd (1, 0%nat) (V_I64 11); Wr (2, 1%nat) (V_STR [3; 3; 3]); Wr (2, 1%nat) (V_STR [3])] /\
  serial (committed h) (colval demo_server) = Some D /\
  (D (1, 0%nat), D (1, 1%nat), D (2, 1%nat)) = (Some (V_I64 11), Some (V_STR [1]), Some (V_STR [3])).
Proof.
  destruct (occ_run demo_events (demo_server, no_history)) as [[s h]|] eqn:E; [|vm_compute in E; discriminate E].
  destruct (occ_serializable demo_server demo_events s h demo_fresh) as (D & HD & Hcv); [|reflexivity|exact E|].
  { repeat constructor; vm_compute; intros; discriminate. }
  exists s, h, D. split_and!; [done| |exact HD|].
  - vm_compute in E. injection E as <- <-. reflexivity.
  - rewrite !Hcv. vm_compute in E. injection E as <- <-. reflexivity.
Defined.

(** Rows to be removed are checked but not locked ([OCCExecutor::Prepare] locks the rows
    that were read or are to be written): of two transactions that each read what the
    other one removes, both commit, which no serial order allows. *)
Definition skew : M OccServer (bool * bool) :=
  _ ← read_column 1 1 0;
  remove_row 1 1 2;;
  _ ← read_column 2 2 0;
  remove_row 2 1 1;;
  ok1 ← Prepare 1;
  ok2 ← Prepare 2;
  Commit 1;;
  Commit 2;;
  mret (ok1, ok2).

Example removes_not_locked : exists s,
  skew demo_server = Done ((true, true), s) /\
  (fun r => tbl_ (vr_row r)) <$> srv_rows s = {[1 := None; 2 := None]}.
Proof. eexists. split; vm_compute; reflexivity. Qed.
