(* ===== verification/MemTable.v ===== *)
(** * The in-memory database: tables
    (src/memdb/table.h, table.cc, and [update] of row.cc with its calls to the table)

    A sorted table is a multimap from the keys of its rows to pointers; an indexed table
    has, besides, one sorted table per index, whose rows carry the indexed columns and a
    pointer to the master index of the base row: the pointers to its index rows and, last,
    to the base row itself.

    Rows live in a store with their reference counts.  The keys of a table point into the
    rows; a row takes itself out of the table before its key changes, so that a copy of
    the key stands for it here, and [row_update] is [Aborted] where the code leaves a
    dangling key: when the strings of a row move while the table holds it by a string.
    Schemas are compared by their contents. *)
From stdpp Require Import base tactics numbers list sorting gmap.
From S2P Require Import Prelude SparseInt OMap Command Snapshot MemRow.

(** ** Keys *)

(** A column of a key as the comparison reads it. *)
Inductive keypart := KNum (n : Z) | KStr (s : list Z).
#[export] Instance keypart_eq_dec : EqDecision keypart.
Proof. solve_decision. Defined.

Abbreviation SortedMultiKey := (list keypart) (only parsing).

(** A number with the order of the double; none for what is not a number. *)
Definition double_rank (bits : Z) : option Z :=
  let mag := bits mod 2 ^ 63 in
  if 2047 * 2 ^ 52 <? mag then None else Some (if bits <? 2 ^ 63 then mag else - mag).

Definition key_part (k : kind) (b : list Z) : option keypart :=
  match k with
  | I32 | I64 => Some (KNum (of_bytes b))
  | DOUBLE => KNum <$> double_rank (le_combine b)
  | STR => Some (KStr b)
  | UNKNOWN => None
  end.

Fixpoint key_parts (infos : list column_info) (blobs : list (list Z)) : option SortedMultiKey :=
  match infos, blobs with
  | [], [] => Some []
  | c :: infos, b :: blobs => _ ← guard_ (ci_indexed c); p ← key_part (ci_type c) b; ps ← key_parts infos blobs; Some (p :: ps)
  | _, _ => None
  end.

Definition key_infos (s : Schema) : option (list column_info) := mapM (fun c => col_info_ s !! Z.to_nat c) (key_cols_id_ s).

(** [SortedMultiKey(mb, schema)] *)
Definition multi_key (s : Schema) (blobs : list (list Z)) : option SortedMultiKey := infos ← key_infos s; key_parts infos blobs.

(** [memcmp] of the bytes that both have *)
Fixpoint memcmp (a b : list Z) : Z :=
  match a, b with
  | x :: a, y :: b => if x =? y then memcmp a b else x - y
  | _, _ => 0
  end.

(** Keys of one schema have parts of the same kinds; the last cases make the order total. *)
Fixpoint compare (a b : SortedMultiKey) : Z :=
  match a, b with
  | [], [] => 0
  | KNum mine :: a, KNum other :: b => if mine <? other then -1 else if mine >? other then 1 else compare a b
  | KStr mine :: a, KStr other :: b =>
    let cmp := memcmp mine other in
    if cmp <? 0 then -1
    else if cmp >? 0 then 1
    else if (length mine <? length other)%nat then -1
    else if (length other <? length mine)%nat then 1
    else compare a b
  | [], _ :: _ | KNum _ :: _, KStr _ :: _ => -1
  | _ :: _, [] | KStr _ :: _, KNum _ :: _ => 1
  end.

Lemma memcmp_opp a b : memcmp b a = - memcmp a b.
Proof. revert b. induction a as [|x a IH]; intros [|y b]; cbn; try done. rewrite (Z.eqb_sym y x). destruct (Z.eqb_spec x y); [apply IH|lia]. Qed.

Lemma memcmp_eq a b : memcmp a b = 0 -> length a = length b -> a = b.
Proof. revert b. induction a as [|x a IH]; intros [|y b]; cbn; try done. destruct (Z.eqb_spec x y) as [->|]; [|lia]. intros Hc [= Hl]. by rewrite (IH b). Qed.

Lemma memcmp_refl a : memcmp a a = 0.
Proof. induction a as [|x a IH]; cbn; [done|]. by rewrite Z.eqb_refl. Qed.

(** The order of strings. *)
Definition str_lt (a b : list Z) : Prop := memcmp a b < 0 \/ (memcmp a b = 0 /\ (length a < length b)%nat).

Lemma str_lt_trans a b c : str_lt a b -> str_lt b c -> str_lt a c.
Proof.
  revert b c. induction a as [|x a IH]; intros [|y b] [|z c]; unfold str_lt in *; cbn; try lia.
  destruct (Z.eqb_spec x y), (Z.eqb_spec y z), (Z.eqb_spec x z); try lia. intros A B. specialize (IH b c).
  assert (memcmp a c < 0 \/ memcmp a c = 0 /\ (length a < length c)%nat) by (apply IH; lia). lia.
Qed.

Lemma compare_cons p a q b :
  compare (p :: a) (q :: b) =
  match p, q with
  | KNum m, KNum o => if m <? o then -1 else if o <? m then 1 else compare a b
  | KStr m, KStr o => if decide (m = o) then compare a b else if decide (str_lt m o) then -1 else 1
  | KNum _, KStr _ => -1
  | KStr _, KNum _ => 1
  end.
Proof.
  destruct p as [m|m], q as [o|o]; cbn [compare]; try done; [by rewrite Z.gtb_ltb|]. rewrite Z.gtb_ltb.
  case_decide as E. { subst o. by rewrite memcmp_refl, Nat.ltb_irrefl. }
  assert (~ (memcmp m o = 0 /\ length m = length o)) as Hn by (intros []; auto using memcmp_eq). unfold str_lt.
  destruct (Z.ltb_spec (memcmp m o) 0), (Z.ltb_spec 0 (memcmp m o)), (Nat.ltb_spec (length m) (length o)), (Nat.ltb_spec (length o) (length m));
    case_decide; lia.
Qed.

Ltac destruct_parts := repeat match goal with p : keypart |- _ => destruct p end.

Lemma compare_refl a : compare a a = 0.
Proof. induction a as [|p a IH]; [done|]. rewrite compare_cons. destruct p; [rewrite Z.ltb_irrefl|rewrite decide_True by done]; apply IH. Qed.

Lemma str_lt_asym a b : str_lt a b -> ~ str_lt b a.
Proof. unfold str_lt. rewrite (memcmp_opp a b). lia. Qed.
Lemma str_lt_total a b : a ≠ b -> ~ str_lt a b -> str_lt b a.
Proof. unfold str_lt. rewrite (memcmp_opp a b). intros Hne Hn. pose proof (memcmp_eq a b). destruct (decide (memcmp a b = 0 /\ length a = length b)) as [[? ?]|]; [destruct Hne; auto|lia]. Qed.

Lemma compare_trans a b c : compare a b = -1 -> compare b c = -1 -> compare a c = -1.
Proof.
  revert b c. induction a as [|p a IH]; intros [|q b] [|r c]; try (destruct_parts; done). rewrite !compare_cons. specialize (IH b c).
  destruct p as [p|p], q as [q|q], r as [r|r]; try done.
  - destruct (Z.ltb_spec p q), (Z.ltb_spec q p), (Z.ltb_spec q r), (Z.ltb_spec r q), (Z.ltb_spec p r), (Z.ltb_spec r p); try lia; auto.
  - pose proof (str_lt_trans p q r). pose proof (str_lt_asym p q). repeat case_decide; subst; try done; try naive_solver.
Qed.

Lemma compare_total a b : a ≠ b -> compare a b ≠ -1 -> compare b a = -1.
Proof.
  revert b. induction a as [|p a IH]; intros [|q b] Hne; try (destruct_parts; done). rewrite !compare_cons.
  destruct p as [p|p], q as [q|q]; try done.
  - destruct (Z.ltb_spec p q), (Z.ltb_spec q p); try lia. assert (p = q) as -> by lia. intros. apply IH; congruence.
  - case_decide as E; [subst q; rewrite decide_True by done; intros; apply IH; congruence|]. 
    destruct (decide (str_lt p q)) as [|E1]; [done|]. intros _. rewrite decide_False by congruence. rewrite decide_True; [done|]. by apply str_lt_total.
Qed.

#[export] Program Instance multikey_OrdKey : OrdKey (list keypart) := { key_ltb a b := compare a b =? -1 }.
Next Obligation. intros a. apply Z.eqb_neq. by rewrite compare_refl. Qed.
Next Obligation. intros a b c Hab%Z.eqb_eq Hbc%Z.eqb_eq. apply Z.eqb_eq. by apply (compare_trans a b c). Qed.
Next Obligation. intros a b Hne Hab%Z.eqb_neq. apply Z.eqb_eq. by apply compare_total. Qed.

(** ** The store *)

#[export] Instance column_info_eq_dec : EqDecision column_info.
Proof. solve_decision. Defined.
#[export] Instance Schema_eq_dec : EqDecision Schema.
Proof. solve_decision. Defined.

(** An indexed table: the hidden column with the pointer to the master index, the columns
    of each index ([get_index]), and the tables of the indices. *)
Inductive TblKind := Sorted | Indexed (index_column_id : nat) (idx : list (list Z)) (indices : list Z).

Record Tbl := mk_tbl { tb_schema : Schema; tb_rows : list (list keypart * Z); tb_kind : TblKind }.
#[export] Instance Eta_tbl : Eta Tbl := fun r => mk_tbl (tb_schema r) (tb_rows r) (tb_kind r).

Record Db := mk_db {
  db_rows : gmap Z (Row * Z);
  db_masters : gmap Z (list (option Z));
  db_tables : gmap Z Tbl;
  db_next : Z;
}.
#[export] Instance Eta_db : Eta Db := fun r => mk_db (db_rows r) (db_masters r) (db_tables r) (db_next r).

Definition db_row (p : Z) : M Db Row := d ← get; from_option (fst <$> db_rows d !! p).
Definition db_table (t : Z) : M Db Tbl := d ← get; from_option (db_tables d !! t).
Definition db_master (m : Z) : M Db (list (option Z)) := d ← get; from_option (db_masters d !! m).

Definition on_row {A} (p : Z) (m : M Row A) : M Db A := fun d =>
  match db_rows d !! p with
  | None => Aborted
  | Some (r, n) =>
    match m r with
    | Done (a, r') => Done (a, d <| db_rows ::= <[p := (r', n)]> |>)
    | Aborted => Aborted
    | OutOfFuel => OutOfFuel
    end
  end.

Definition set_rows (t : Z) (f : list (list keypart * Z) -> list (list keypart * Z)) : M Db () :=
  modify (fun d => d <| db_tables ::= alter (fun T => T <| tb_rows ::= f |>) t |>).

Definition new_row (r : Row) : M Db Z :=
  state (fun d => (db_next d, d <| db_rows ::= <[db_next d := (r, 1)]> |> <| db_next ::= Z.succ |>)).
Definition new_master (l : list (option Z)) : M Db Z :=
  state (fun d => (db_next d, d <| db_masters ::= <[db_next d := l]> |> <| db_next ::= Z.succ |>)).

(** [RefCounted::release] *)
Definition release (p : Z) : M Db () :=
  d ← get;
  '(r, n) ← from_option (db_rows d !! p);
  verify (0 <=? n - 1);;
  modify (fun d => d <| db_rows ::= if n - 1 =? 0 then delete p else <[p := (r, n - 1)]> |>).

(** [Value::get_i64] *)
Definition get_i64 (v : Value) : M Db Z :=
  match v with
  | V_I64 i | V_I32 i => mret i
  | _ => abort
  end.

Definition row_key (s : Schema) (r : Row) : option (list keypart) := blobs ← get_key r; multi_key s blobs.

(** ** Sorted tables *)

(** [SortedTable::insert] *)
Definition st_insert (t p : Z) : M Db () :=
  T ← db_table t;
  r ← db_row p;
  key ← from_option (row_key (tb_schema T) r);
  verify (bool_decide (schema_ r = tb_schema T));;
  on_row p (set_table (Some t));;
  set_rows t (mm_insert key p).

(** [rows_.erase(it)], where [it] is at the row [p] *)
Fixpoint erase_ptr (p : Z) (l : list (list keypart * Z)) : list (list keypart * Z) :=
  match l with
  | [] => []
  | e :: l => if e.2 =? p then l else e :: erase_ptr p l
  end.

(** [SortedTable::remove(iterator, do_free)] *)
Definition st_remove_at (t p : Z) (do_free : bool) : M Db () :=
  when do_free (release p);;
  set_rows t (erase_ptr p).

(** [SortedTable::remove(Row*, do_free)], which calls [remove(iterator, do_free)] *)
Definition remove_row_by (remove_at : Z -> Z -> bool -> M Db ()) (t p : Z) (do_free : bool) : M Db () :=
  T ← db_table t;
  r ← db_row p;
  smk ← from_option (row_key (tb_schema T) r);
  when (existsb (fun e => e.2 =? p) (equal_range smk (tb_rows T)))
    (on_row p (set_table None);;
     remove_at t p do_free).

Definition st_remove_row : Z -> Z -> bool -> M Db () := remove_row_by st_remove_at.

(** ** Indexed tables *)

(** [IndexedTable::destroy_secondary_indices]: all but the last pointer. *)
Definition destroy_secondary_indices (m : Z) : M Db () :=
  master_idx ← db_master m;
  for_each (removelast master_idx) (fun q =>
    q ← from_option q;
    row ← db_row q;
    match tbl_ row with
    | None => release q
    | Some tbl => st_remove_row tbl q true
    end);;
  modify (fun d => d <| db_masters ::= delete m |>).

(** The pointer to the master index of a row. *)
Definition master_of (icol : nat) (p : Z) : M Db Z :=
  row ← db_row p;
  v ← from_option (get_column icol row);
  get_i64 v.

(** [IndexedTable::remove(iterator, do_free)] *)
Definition it_remove_at (icol : nat) (t p : Z) (do_free : bool) : M Db () :=
  when do_free
    (m ← master_of icol p;
     destroy_secondary_indices m;;
     release p);;
  set_rows t (erase_ptr p).

Definition remove_at (t p : Z) (do_free : bool) : M Db () :=
  T ← db_table t;
  match tb_kind T with
  | Sorted => st_remove_at t p do_free
  | Indexed icol _ _ => it_remove_at icol t p do_free
  end.

Definition remove_row : Z -> Z -> bool -> M Db () := remove_row_by remove_at.

(** [remove(const SortedMultiKey&)]; [remove(Cursor)] for the rows of a cursor that goes
    forward *)
Definition remove_rows (t : Z) (ps : list Z) : M Db () := for_each ps (fun p => remove_at t p true).
Definition remove_key (t : Z) (smk : list keypart) : M Db () :=
  T ← db_table t;
  remove_rows t (equal_range smk (tb_rows T)).*2.

(** [SortedTable::clear], which an indexed table inherits *)
Definition clear (t : Z) : M Db () :=
  T ← db_table t;
  for_each (tb_rows T) (fun e => release e.2);;
  set_rows t (fun _ => []).

(** [IndexedTable::make_index_row], for the index with the given columns and table *)
Definition make_index_row (base : Z) (idx_id : nat) (cols : list Z) (tbl m : Z) : M Db Z :=
  r ← db_row base;
  idx_keys ← from_option (mapM (fun col_id => get_column (Z.to_nat col_id) r) cols);
  T ← db_table tbl;
  row ← from_option (create (tb_schema T) (idx_keys ++ [V_I64 m]));
  idx_row ← new_row row;
  master_idx ← db_master m;
  verify (bool_decide (master_idx !! idx_id = Some None));;
  modify (fun d => d <| db_masters ::= <[m := <[idx_id := Some idx_row]> master_idx]> |>);;
  mret idx_row.

(** The indices by their number, with the columns and the table of each. *)
Definition numbered (idx : list (list Z)) (indices : list Z) : list (nat * (list Z * Z)) := imap pair (zip idx indices).

Definition add_index_row (p m : Z) (x : nat * (list Z * Z)) : M Db () :=
  idx_row ← make_index_row p x.1 x.2.1 x.2.2 m;
  st_insert x.2.2 idx_row.

(** [IndexedTable::insert] *)
Definition it_insert (icol : nat) (idx : list (list Z)) (indices : list Z) (t p : Z) : M Db () :=
  ptr_value ← master_of icol p;
  when (ptr_value =? 0)
    (m ← new_master (replicate (length indices) None ++ [Some p]);
     for_each (numbered idx indices) (add_index_row p m);;
     _ ← on_row p (update icol (V_I64 m));
     mret ());;
  st_insert t p.

Definition tbl_insert (t p : Z) : M Db () :=
  T ← db_table t;
  match tb_kind T with
  | Sorted => st_insert t p
  | Indexed icol idx indices => it_insert icol idx indices t p
  end.

(** ** Updates *)

Definition affected (col : Z) (x : nat * (list Z * Z)) : bool := existsb (Z.eqb col) x.2.1.

(** [IndexedTable::notify_before_update]; a sorted table does nothing *)
Definition notify_before_update (t p col : Z) : M Db () :=
  T ← db_table t;
  match tb_kind T with
  | Sorted => mret ()
  | Indexed icol idx indices =>
    row ← db_row p;
    verify (bool_decide (tbl_ row = Some t));;
    m ← master_of icol p;
    verify (negb (m =? 0));;
    for_each (numbered idx indices) (fun x =>
      when (affected col x)
        (master_idx ← db_master m;
         q ← from_option (mjoin (master_idx !! x.1));
         st_remove_row x.2.2 q true;;
         modify (fun d => d <| db_masters ::= <[m := <[x.1 := None]> master_idx]> |>)))
  end.

Definition notify_after_update (t p col : Z) : M Db () :=
  T ← db_table t;
  match tb_kind T with
  | Sorted => mret ()
  | Indexed icol idx indices =>
    row ← db_row p;
    verify (bool_decide (tbl_ row = Some t));;
    m ← master_of icol p;
    verify (negb (m =? 0));;
    for_each (numbered idx indices) (fun x => when (affected col x) (add_index_row p m x))
  end.

Definition is_dense (r : Row) : bool := match var_part_ r with Dense _ _ => true | Sparse _ => false end.

(** Whether some column of the key is a string. *)
Definition string_key (s : Schema) : bool :=
  match key_infos s with Some infos => existsb is_str infos | None => false end.

(** [Row::update], with what it does to the table of the row.  The keys of the table point
    to the strings of a dense row, which [make_sparse] frees. *)
Definition row_update (p : Z) (col : nat) (v : Value) : M Db () :=
  r ← db_row p;
  '(calls, r') ← on_row p (fun r => match update col v r with
                                      | Done x => Done (x, r)
                                      | Aborted => Aborted
                                      | OutOfFuel => OutOfFuel
                                      end);
  match tbl_ r, calls with
  | Some tbl, _ :: _ =>
    info ← from_option (get_column_info col r);
    notify_before_update tbl p (ci_id info);;
    remove_row tbl p false;;
    _ ← on_row p (update col v);
    tbl_insert tbl p;;
    notify_after_update tbl p (ci_id info)
  | Some tbl, [] =>
    T ← db_table tbl;
    verify (negb (is_dense r && negb (is_dense r') && string_key (tb_schema T)));;
    on_row p (modify (fun _ => r'))
  | None, _ => on_row p (modify (fun _ => r'))
  end.

(** ** Queries *)

Inductive symbol_t := ORD_ASC | ORD_DESC | ORD_ANY.

(** [query], [query_lt], [query_gt], [query_in] and [all] of a sorted table: the rows a
    cursor goes through. *)
Definition t_query (t : Z) (r : range_spec) (order : symbol_t) : M Db (list Z) :=
  T ← db_table t;
  verify (range_ok r);;
  let '(_, rows, _) := range_parts r (tb_rows T) in
  mret (match order with ORD_DESC => reverse rows.*2 | _ => rows.*2 end).

(** [SortedTable::Cursor], over those rows; [cu_count] is [count_], none for -1. *)
Record Cursor := mk_cursor { cu_rows : list Z; cu_next : nat; cu_count : option Z }.
#[export] Instance Eta_cursor : Eta Cursor := fun r => mk_cursor (cu_rows r) (cu_next r) (cu_count r).

Definition cursor (rows : list Z) : Cursor := mk_cursor rows 0 None.
Definition cursor_reset : M Cursor () := modify (fun c => c <| cu_next := 0%nat |>).
Definition cursor_has_next (c : Cursor) : bool := (cu_next c <? length (cu_rows c))%nat.
Definition cursor_next : M Cursor Z :=
  c ← get;
  row ← from_option (cu_rows c !! cu_next c);
  modify (fun c => c <| cu_next ::= S |>);;
  mret row.
Definition cursor_count : M Cursor Z :=
  state (fun c => let n := default (Z.of_nat (length (cu_rows c))) (cu_count c) in (n, c <| cu_count := Some n |>)).

(** [Index::Cursor::next]: from an index row to its base row. *)
Definition base_of (q : Z) : M Db Z :=
  index_row ← db_row q;
  verify (0 <? columns_count (schema_ index_row))%nat;;
  pointer_value ← from_option (get_column (columns_count (schema_ index_row) - 1) index_row);
  m ← get_i64 pointer_value;
  verify (negb (m =? 0));;
  master_idx ← db_master m;
  from_option (mjoin (last master_idx)).

Fixpoint bases_of (qs : list Z) : M Db (list Z) :=
  match qs with
  | [] => mret []
  | q :: qs => p ← base_of q; ps ← bases_of qs; mret (p :: ps)
  end.

(** [Index::query] and the others, on the index number [idx_id] of a table *)
Definition idx_query (t : Z) (idx_id : nat) (r : range_spec) (order : symbol_t) : M Db (list Z) :=
  T ← db_table t;
  match tb_kind T with
  | Sorted => abort
  | Indexed _ _ indices =>
    tbl ← from_option (indices !! idx_id);
    qs ← t_query tbl r (match r with RAll => ORD_ASC | _ => order end);
    bases_of qs
  end.

(** [IndexedTable::remove(Index::Cursor)] *)
Definition remove_by_index (t : Z) (idx_id : nat) (r : range_spec) (order : symbol_t) : M Db () :=
  rows ← idx_query t idx_id r order;
  for_each rows (fun p => remove_row t p true).

(** ** Making an indexed table *)

Definition hidden_name : list Z := [46; 104; 105; 100; 100; 101; 110].

(** The schema of an index: its columns, and the pointer. *)
Definition index_schema (s : Schema) (cols : list Z) : M Schema () :=
  for_each cols (fun col_id =>
    col_info ← from_option (col_info_ s !! Z.to_nat col_id);
    _ ← add_column (ci_name col_info) (ci_type col_info) true;
    mret ());;
  ret ← add_column hidden_name I64 false;
  verify (0 <=? ret).

Definition add_table (T : Tbl) : M Db Z :=
  state (fun d => (db_next d, d <| db_tables ::= <[db_next d := T]> |> <| db_next ::= Z.succ |>)).

Fixpoint add_index_tables (s : Schema) (idx : list (list Z)) : M Db (list Z) :=
  match idx with
  | [] => mret []
  | cols :: idx =>
    idx_schema ← from_option (match (index_schema s cols;; freeze) new_Schema with Done (_, x) => Some x | _ => None end);
    t ← add_table (mk_tbl idx_schema [] Sorted);
    ts ← add_index_tables s idx;
    mret (t :: ts)
  end.

(** [IndexedTable::IndexedTable]; [schema] is frozen by [Table::Table]. *)
Definition new_IndexedTable (schema : IndexedSchema) : M Db Z :=
  schema ← from_option (match ifreeze schema with Done (_, x) => Some x | _ => None end);
  indices ← add_index_tables (is_schema schema) (all_idx_ schema);
  add_table (mk_tbl (is_schema schema) [] (Indexed (Z.to_nat (idx_col_ schema)) (all_idx_ schema) indices)).
Definition new_SortedTable (schema : Schema) : M Db Z :=
  add_table (mk_tbl (schema <| frozen_ := true |>) [] Sorted).

(** The destructors: the rows are released; of an indexed table, the master indices and
    the tables of the indices go first. *)
Definition delete_sorted (t : Z) : M Db () :=
  T ← db_table t;
  for_each (tb_rows T) (fun e => release e.2);;
  modify (fun d => d <| db_tables ::= delete t |>).

Definition delete_indexed (t : Z) : M Db () :=
  T ← db_table t;
  match tb_kind T with
  | Sorted => abort
  | Indexed icol _ indices =>
    for_each (tb_rows T) (fun e => m ← master_of icol e.2; modify (fun d => d <| db_masters ::= delete m |>));;
    for_each indices delete_sorted;;
    delete_sorted t
  end.
