(* ===== verification/MemTableInv.v ===== *)
(** * The in-memory database: what an indexed table keeps

    [Rep d L]: the state [d] of the database holds the table whose rows, index rows and
    master indices are those of the list [L]; every operation on the table is a change of
    one element of the list. *)
From stdpp Require Import base tactics numbers list sorting gmap.
From S2P Require Import Prelude SparseInt OMap Command Snapshot MemRow MemRowSpec MemTable.

(** ** Rows as lists of values *)

Definition rowv (r : Row) (vs : list Value) : Prop :=
  row_rep r (bytes_of <$> vs) /\ Forall2 fits (col_info_ (schema_ r)) vs /\ rdonly_ r = false.

Lemma rowv_get r vs k : rowv r vs -> get_column k r = vs !! k.
Proof.
  intros (Hrep & Hf & _). destruct (vs !! k) as [v|] eqn:Ev.
  - destruct (Forall2_lookup_r _ _ _ _ _ Hf Ev) as (c & Hc & Hk & Hv).
    rewrite (get_column_rep r _ k c (bytes_of v) Hrep Hc); [rewrite <- Hk; by apply value_of_bytes|]. by rewrite list_lookup_fmap, Ev.
  - apply (get_column_lt r _ k Hrep). rewrite length_fmap. by apply lookup_ge_None.
Qed.

Lemma rowv_place r r' vs :
  fixed_part_ r' = fixed_part_ r -> var_part_ r' = var_part_ r -> schema_ r' = schema_ r -> rdonly_ r' = rdonly_ r -> rowv r vs -> rowv r' vs.
Proof. intros E1 E2 E3 E4 ([A B C D] & F & G). unfold rowv. rewrite E3, E4. split; [|done]. split; by rewrite ?E3, ?E1, ?E2. Qed.

Lemma rowv_update r vs k v :
  rowv r vs -> (exists c, col_info_ (schema_ r) !! k = Some c /\ fits c v) ->
  exists c old r', col_info_ (schema_ r) !! k = Some c /\ vs !! k = Some old /\
    update k v r = Done (calls_for r c (bytes_of old) (bytes_of v), r') /\ rowv r' (<[k := v]> vs) /\ same_place r r'.
Proof.
  intros (Hrep & Hf & Hro) (c & Hc & Hk & Hv). destruct (Forall2_lookup_l _ _ _ _ _ Hf Hc) as (old & Hold & _).
  destruct (update_rep r _ k c v (bytes_of old) Hrep Hc) as (r' & Hu & Hr' & Hs); [by rewrite list_lookup_fmap, Hold|done|by destruct v|done|].
  exists c, old, r'. split_and!; try done. split_and!; [by rewrite list_fmap_insert| |].
  - destruct Hs as (-> & _ & _). rewrite <- (list_insert_id _ _ _ Hc). apply Forall2_insert; [done|by split].
  - by destruct Hs as (_ & _ & ->).
Qed.

(** ** Keys of values *)

Definition part_v (v : Value) : option keypart :=
  match v with
  | V_UNKNOWN => None
  | V_I32 i | V_I64 i => Some (KNum i)
  | V_DOUBLE d => KNum <$> double_rank d
  | V_STR s => Some (KStr s)
  end.

Lemma key_part_value v : value_ok v -> key_part (get_kind v) (bytes_of v) = part_v v.
Proof.
  destruct v as [|i|i|d|s]; cbn [value_ok get_kind key_part part_v bytes_of write_binary default]; intros Hv; try done.
  - do 2 f_equal. by apply (of_bytes_all i 4); [lia|].
  - do 2 f_equal. by apply (of_bytes_all i 8); [lia|].
  - change (KNum <$> double_rank (le_combine (byte_at d <$> seq 0 8)) = KNum <$> double_rank d). rewrite le_combine_low. f_equal. f_equal. by apply Z.mod_small.
Qed.

Definition vkey (cols : list Z) (vs : list Value) : option (list keypart) := mapM (fun c => v ← vs !! Z.to_nat c; part_v v) cols.

(** The key of a schema is readable: its columns are there and indexed. *)
Definition keys_indexed (s : Schema) : Prop := Forall (fun c => exists i, col_info_ s !! Z.to_nat c = Some i /\ ci_indexed i = true) (key_cols_id_ s).

Lemma rowv_key r vs : rowv r vs -> keys_indexed (schema_ r) -> row_key (schema_ r) r = vkey (key_cols_id_ (schema_ r)) vs.
Proof.
  intros Hr Hk. pose proof Hr as (Hrep & Hf & _). unfold row_key, get_key, multi_key, key_infos, vkey.
  induction Hk as [|c cols (i & Hi & Hx) Hk IH]; [done|]. cbn [mapM]. rewrite Hi. cbn [mbind option_bind].
  destruct (Forall2_lookup_l _ _ _ _ _ Hf Hi) as (v & Hv & Hkind & Hok). rewrite Hv.
  rewrite (get_blob_rep r _ _ (bytes_of v) Hrep) by (by rewrite list_lookup_fmap, Hv). cbn [mbind option_bind].
  destruct (mapM (fun c => get_blob (Z.to_nat c) r) cols) as [blobs|] eqn:Eb.
  - cbn [mbind option_bind mret option_ret] in IH |- *. destruct (mapM (fun c => col_info_ (schema_ r) !! Z.to_nat c) cols) as [infos|] eqn:Ei.
    + cbn [mbind option_bind mret option_ret key_parts] in IH |- *. rewrite Hx. cbn [guard_ mbind option_bind]. rewrite <- Hkind, key_part_value by done.
      destruct (part_v v); cbn [mbind option_bind]; [|done]. by rewrite IH.
    + exfalso. apply mapM_None in Ei. apply Exists_exists in Ei as (c' & Hc' & Hn). rewrite Forall_forall in Hk.
      destruct (Hk c' Hc') as (i' & Hi' & _). congruence.
  - exfalso. apply mapM_None in Eb. apply Exists_exists in Eb as (c' & Hc' & Hn). rewrite Forall_forall in Hk.
    destruct (Hk c' Hc') as (i' & Hi' & _). destruct (Forall2_lookup_l _ _ _ _ _ Hf Hi') as (v' & Hv' & _).
    rewrite (get_blob_rep r _ _ (bytes_of v') Hrep) in Hn by (by rewrite list_lookup_fmap, Hv'). done.
Qed.

(** ** Entries of a multimap *)

Lemma mm_insert_perm (k : list keypart) (p : Z) l : mm_insert k p l ≡ₚ (k, p) :: l.
Proof. unfold mm_insert. rewrite <- Permutation_middle. by rewrite upto_above. Qed.

Lemma erase_ptr_perm k p l : NoDup l.*2 -> (k, p) ∈ l -> l ≡ₚ (k, p) :: erase_ptr p l.
Proof.
  induction l as [|e l IH]; intros Hnd Hin; [by apply elem_of_nil in Hin|]. cbn in *. apply NoDup_cons in Hnd as [He Hnd].
  destruct (Z.eqb_spec e.2 p) as [E|Hne].
  - apply elem_of_cons in Hin as [->|Hin]; [done|]. destruct He. rewrite E. apply list_elem_of_fmap. by exists (k, p).
  - apply elem_of_cons in Hin as [<-|Hin]; [by cbn in Hne|]. rewrite Permutation_swap. f_equiv. by apply IH.
Qed.

Lemma erase_ptr_rest k p l rest : NoDup l.*2 -> l ≡ₚ (k, p) :: rest -> erase_ptr p l ≡ₚ rest.
Proof.
  intros Hnd Hl. assert ((k, p) ∈ l) as Hin by (rewrite Hl; by left). pose proof (erase_ptr_perm k p l Hnd Hin) as He.
  apply (Permutation_cons_inv (a := (k, p))). etrans; [symmetry; exact He|exact Hl].
Qed.

Lemma erase_ptr_sorted p l : mm_sorted l -> mm_sorted (erase_ptr p l).
Proof.
  induction l as [|e l IH]; intros Hs; [done|]. cbn. pose proof (sorted_tail e l Hs) as [Hl He]. destruct (e.2 =? p); [done|].
  constructor; [by apply IH|]. clear -He. induction He as [|x l Hx He IH]; cbn; [constructor|]. destruct (x.2 =? p); [done|by constructor].
Qed.

Lemma equal_range_has k p l : mm_sorted l -> (k, p) ∈ l -> existsb (fun e => e.2 =? p) (equal_range k l) = true.
Proof.
  intros Hs Hin. destruct (range_parts (REq k) l) as [[a b] c] eqn:E.
  destruct (range_parts_spec (REq k) l a b c Hs eq_refl E) as (-> & Ha & _ & Hc). cbn in E. injection E as _ Eb _. rewrite Eb.
  apply existsb_exists. exists (k, p). split; [|by apply Z.eqb_refl]. apply list_elem_of_In.
  assert (in_range (REq k) k = true) as Hk by (cbn [in_range]; by rewrite key_irrefl).
  rewrite !elem_of_app in Hin. rewrite Forall_forall in Ha, Hc. destruct Hin as [Hin|[Hin|Hin]]; [|done|]; [apply Ha in Hin|apply Hc in Hin]; cbn [fst] in Hin; congruence.
Qed.

(** ** The table *)

(** A base row, its master index and index rows, and its values; the table it says it is
    in, and whether it is in the base table now. *)
Record link := mk_link { lk_p : Z; lk_m : Z; lk_qs : list (option Z); lk_vs : list Value; lk_tbl : option Z; lk_in : bool }.
#[export] Instance Eta_link : Eta link := fun r => mk_link (lk_p r) (lk_m r) (lk_qs r) (lk_vs r) (lk_tbl r) (lk_in r).

Section table.
Context (t : Z) (S : Schema) (icol : nat) (idx : list (list Z)) (indices : list Z) (schemas : list Schema).

(** What the schemas of the table and of the indices are like. *)
Record cfg_ok : Prop := {
  cf_wf : schema_wf S;
  cf_keys : keys_indexed S;
  cf_icol : columns_count S = icol /\ exists c, drop icol (col_info_ S) = [c] /\ ci_type c = I64 /\ ci_indexed c = false;
  cf_len : length indices = length idx;
  cf_ids : NoDup indices /\ t ∉ indices;
  cf_idx : forall i cols, idx !! i = Some cols -> Forall (fun c => 0 <= c /\ exists k, col_info_ S !! Z.to_nat c = Some k /\ ci_indexed k = true) cols;
  cf_schemas : forall i cols, idx !! i = Some cols -> exists s, schemas !! i = Some s /\ schema_wf s /\ hidden_fixed_ s = 0%nat /\ hidden_var_ s = 0%nat /\
    Forall2 (fun c k => exists kS, col_info_ S !! Z.to_nat c = Some kS /\ ci_type k = ci_type kS /\ ci_indexed k = true) cols (take (length cols) (col_info_ s)) /\
    (exists k, drop (length cols) (col_info_ s) = [k] /\ ci_type k = I64) /\
    key_cols_id_ s = Z.of_nat <$> seq 0 (length cols);
}.
Context (Hcfg : cfg_ok).

(** The values that an index row has. *)
Definition picked (cols : list Z) (vs : list Value) : list Value := base.omap (fun c => vs !! Z.to_nat c) cols.

Definition base_entry (l : link) : option (list keypart * Z) :=
  if lk_in l then (fun k => (k, lk_p l)) <$> vkey (key_cols_id_ S) (lk_vs l) else None.
Definition index_entry (i : nat) (cols : list Z) (l : link) : option (list keypart * Z) :=
  q ← mjoin (lk_qs l !! i); (fun k => (k, q)) <$> vkey cols (lk_vs l).

(** The columns that keys are made of can be compared. *)
Definition readable (vs : list Value) : Prop :=
  Forall2 (fun c v => ci_indexed c = true -> is_Some (part_v v)) (col_info_ S) vs.

Abbreviation heap := (gmap Z (Row * Z)).

Record good (R : heap) (l : link) : Prop := {
  gd_row : exists r n, R !! lk_p l = Some (r, n) /\ 1 <= n /\ rowv r (lk_vs l) /\ schema_ r = S /\ tbl_ r = lk_tbl l;
  gd_readable : readable (lk_vs l);
  gd_len : length (lk_qs l) = length idx;
  gd_m : 0 < lk_m l < 2 ^ 63;
  gd_idx : forall i q cols, lk_qs l !! i = Some (Some q) -> idx !! i = Some cols ->
    exists rq n, R !! q = Some (rq, n) /\ 1 <= n /\ rowv rq (picked cols (lk_vs l) ++ [V_I64 (lk_m l)]) /\
      schemas !! i = Some (schema_ rq) /\ tbl_ rq = indices !! i;
}.

Definition ptrs (l : link) : list Z := lk_p l :: base.omap id (lk_qs l).

Record tables_ok (T : gmap Z Tbl) (L : list link) : Prop := {
  tk_base : exists rows, T !! t = Some (mk_tbl S rows (Indexed icol idx indices)) /\ mm_sorted rows /\ rows ≡ₚ base.omap base_entry L;
  tk_index : forall i ti cols, indices !! i = Some ti -> idx !! i = Some cols -> exists s rows, schemas !! i = Some s /\
    T !! ti = Some (mk_tbl s rows Sorted) /\ mm_sorted rows /\ rows ≡ₚ base.omap (index_entry i cols) L;
}.

Record ptrs_ok (next : Z) (L : list link) : Prop := {
  pk_nodup : NoDup (L ≫= ptrs);
  pk_ms : NoDup (lk_m <$> L);
  pk_next : Forall (fun l => lk_m l < next /\ Forall (fun p => p < next) (ptrs l)) L;
  pk_pos : 0 < next;
}.

Record Rep (d : Db) (L : list link) : Prop := {
  rp_tables : tables_ok (db_tables d) L;
  rp_good : Forall (good (db_rows d)) L;
  rp_ptrs : ptrs_ok (db_next d) L;
}.

(** The master index of a row. *)
Definition linked (d : Db) (l : link) : Prop :=
  db_masters d !! lk_m l = Some (lk_qs l ++ [Some (lk_p l)]) /\ lk_vs l !! icol = Some (V_I64 (lk_m l)).

(** ** Changes of the parts *)

Lemma good_frame R R' l : (forall x, x ∈ ptrs l -> R' !! x = R !! x) -> good R l -> good R' l.
Proof.
  intros Hx [A B C D E]. split; try done.
  - rewrite Hx by by left. done.
  - intros i q cols Hq Hi. rewrite Hx; [by apply E|]. right. apply list_elem_of_omap. exists (Some q). split; [by eapply list_elem_of_lookup_2|done].
Qed.

(** The other rows do not change when those of one row do. *)
Lemma goods_frame R R' next l L :
  ptrs_ok next (l :: L) -> Forall (good R) L -> (forall x, x ∉ ptrs l -> x < next -> R' !! x = R !! x) -> Forall (good R') L.
Proof.
  intros Hp HL Hx. rewrite Forall_forall in *. intros l' Hl'. apply (good_frame R); [|by apply HL]. intros x Hin.
  pose proof (pk_next _ _ Hp) as Hn. rewrite Forall_forall in Hn. destruct (Hn l') as [_ Hlt]; [by right|]. rewrite Forall_forall in Hlt.
  apply Hx; [|by apply Hlt]. intros Hin'. pose proof (pk_nodup _ _ Hp) as Hnd. cbn [mbind list_bind] in Hnd. apply NoDup_app in Hnd as (_ & Hd & _).
  apply (Hd x Hin'). apply list_elem_of_bind. eauto.
Qed.

Lemma tables_perm T L L' : L ≡ₚ L' -> tables_ok T L -> tables_ok T L'.
Proof.
  intros HL [A B]. split.
  - destruct A as (rows & H1 & H2 & H3). exists rows. by rewrite <- HL.
  - intros i ti cols Hi Hc. destruct (B i ti cols Hi Hc) as (s & rows & H0 & H1 & H2 & H3). exists s, rows. by rewrite <- HL.
Qed.

Lemma Rep_perm d L L' : L ≡ₚ L' -> Rep d L -> Rep d L'.
Proof.
  intros HL [A B [C D E F]]. split; [by apply (tables_perm _ L)|by rewrite <- HL|]. split; rewrite <- ?HL; done.
Qed.

(** One table gets other rows. *)
Lemma tables_index_alter T L L' i ti cols f :
  tables_ok T L -> indices !! i = Some ti -> idx !! i = Some cols ->
  (forall rows, mm_sorted rows -> rows ≡ₚ base.omap (index_entry i cols) L -> mm_sorted (f rows) /\ f rows ≡ₚ base.omap (index_entry i cols) L') ->
  (forall j cols', j ≠ i -> base.omap (index_entry j cols') L' = base.omap (index_entry j cols') L) ->
  base.omap base_entry L' = base.omap base_entry L -> tables_ok (alter (fun T => T <| tb_rows ::= f |>) ti T) L'.
Proof.
  intros [A B] Hi Hc Hf Hj Hb. destruct (cf_ids Hcfg) as [Hnd Ht]. split.
  - destruct A as (rows & H1 & H2 & H3). exists rows. rewrite Hb. split; [|done]. rewrite lookup_alter_ne; [done|].
    intros ->. apply Ht. by eapply list_elem_of_lookup_2.
  - intros j tj cols' Hj1 Hj2. destruct (B j tj cols' Hj1 Hj2) as (s & rows & H0 & H1 & H2 & H3). destruct (decide (j = i)) as [->|Hne].
    + simplify_eq. exists s, (f rows). rewrite lookup_alter_eq, H1. destruct (Hf rows H2 H3). done.
    + exists s, rows. rewrite Hj by done. split; [done|]. split; [|done]. rewrite lookup_alter_ne; [done|].
      intros ->. apply Hne. by eapply NoDup_lookup.
Qed.

Lemma tables_base_alter T L L' f :
  tables_ok T L ->
  (forall rows, mm_sorted rows -> rows ≡ₚ base.omap base_entry L -> mm_sorted (f rows) /\ f rows ≡ₚ base.omap base_entry L') ->
  (forall j cols, base.omap (index_entry j cols) L' = base.omap (index_entry j cols) L) -> tables_ok (alter (fun T => T <| tb_rows ::= f |>) t T) L'.
Proof.
  intros [A B] Hf Hj. destruct (cf_ids Hcfg) as [Hnd Ht]. split.
  - destruct A as (rows & H1 & H2 & H3). exists (f rows). rewrite lookup_alter_eq, H1. destruct (Hf rows H2 H3). done.
  - intros j tj cols' Hj1 Hj2. destruct (B j tj cols' Hj1 Hj2) as (s & rows & H0 & H1 & H2 & H3). exists s, rows. rewrite Hj. split; [done|]. split; [|done].
    rewrite lookup_alter_ne; [done|]. intros <-. apply Ht. by eapply list_elem_of_lookup_2.
Qed.

(** ** Index rows *)

Definition in_cols (cols : list Z) : Prop := Forall (fun c => exists k, col_info_ S !! Z.to_nat c = Some k /\ ci_indexed k = true) cols.

Lemma idx_in_cols i cols : idx !! i = Some cols -> in_cols cols.
Proof. intros Hi. eapply Forall_impl; [by apply (cf_idx Hcfg i)|]. by intros c [_ ?]. Qed.

Lemma picked_all cols vs : Forall2 fits (col_info_ S) vs -> in_cols cols -> mapM (fun c => vs !! Z.to_nat c) cols = Some (picked cols vs).
Proof.
  intros Hf. induction 1 as [|c cols (k & Hk & _) Hc IH]; [done|]. destruct (Forall2_lookup_l _ _ _ _ _ Hf Hk) as (v & Hv & _).
  unfold picked in *. cbn [mapM base.omap list_omap]. rewrite Hv. cbn [mbind option_bind]. by rewrite IH.
Qed.

Lemma vkey_readable vs cols : readable vs -> in_cols cols -> is_Some (vkey cols vs).
Proof.
  intros Hr. induction 1 as [|c cols (k & Hk & Hx) Hc IH]; [by eexists|]. destruct (Forall2_lookup_l _ _ _ _ _ Hr Hk) as (v & Hv & Hp).
  destruct IH as [ps Eps], (Hp Hx) as [x Ex]. unfold vkey in *. cbn [mapM]. rewrite Hv. cbn [mbind option_bind]. rewrite Ex. cbn [mbind option_bind].
  rewrite Eps. by eexists.
Qed.

(** The key of an index row is that of the picked columns. *)
Lemma vkey_picked cols vs w :
  Forall2 fits (col_info_ S) vs -> in_cols cols -> vkey (Z.of_nat <$> seq 0 (length cols)) (picked cols vs ++ w) = vkey cols vs.
Proof.
  intros Hf Hc. pose proof (picked_all cols vs Hf Hc) as Hp. apply mapM_Some in Hp.
  assert (forall pre, vkey (Z.of_nat <$> seq (length pre) (length cols)) (pre ++ picked cols vs ++ w) = vkey cols vs) as Hgen; [|apply (Hgen [])].
  clear Hc. revert Hp. generalize (picked cols vs). intros ps Hp. induction Hp as [|c v cols ps Hv Hp IH]; intros pre; [done|].
  unfold vkey in *. cbn [length seq fmap list_fmap mapM]. rewrite Nat2Z.id, lookup_app_r, Nat.sub_diag by done. cbn [app lookup list_lookup mbind option_bind].
  rewrite Hv. cbn [mbind option_bind]. specialize (IH (pre ++ [v])). rewrite length_app, Nat.add_comm, <- app_assoc in IH. cbn [app length Nat.add] in IH.
  by rewrite IH.
Qed.

Lemma index_row_fits cols vs s m i :
  Forall2 fits (col_info_ S) vs -> idx !! i = Some cols -> schemas !! i = Some s -> in_s 64 m ->
  exists r, create s (picked cols vs ++ [V_I64 m]) = Some r /\ rowv r (picked cols vs ++ [V_I64 m]) /\ schema_ r = s /\ tbl_ r = None.
Proof.
  intros Hf Hi Hs Hm. destruct (cf_schemas Hcfg i cols Hi) as (s' & Hs' & Hwf & H1 & H2 & Hcols & (k & Hk & Hty) & _). rewrite Hs in Hs'. injection Hs' as <-.
  pose proof (picked_all cols vs Hf (idx_in_cols i cols Hi)) as Hp. apply mapM_Some in Hp.
  assert (Forall2 fits (col_info_ s) (picked cols vs ++ [V_I64 m])) as Hfits.
  { rewrite <- (take_drop (length cols) (col_info_ s)), Hk. apply Forall2_app; [|apply Forall2_cons; split; [split; [by rewrite Hty|exact Hm]|apply Forall2_nil; done]].
    apply Forall2_same_length_lookup_2; [rewrite <- (Forall2_length _ _ _ Hcols); by rewrite (Forall2_length _ _ _ Hp)|].
    intros j c v Hc Hv. destruct (Forall2_lookup_r _ _ _ _ _ Hcols Hc) as (col & Hcol & kS & HkS & Ht & _).
    pose proof (Forall2_lookup_lr _ _ _ _ _ _ Hp Hcol Hv) as Hv'. cbn in Hv'.
    destruct (Forall2_lookup_lr _ _ _ _ _ _ Hf HkS Hv') as [? ?]. split; [by rewrite Ht|done]. }
  assert (visible_columns s = col_info_ s) as Hvis by by apply visible_all.
  assert (columns_count s = length (col_info_ s)) as Hcc by (unfold columns_count; lia).
  destruct (create_rep s (picked cols vs ++ [V_I64 m])) as (r & Hr & Hrep & Es & Et & Ero); [done|by rewrite Hvis|by rewrite Hcc, drop_all|].
  exists r. rewrite Hcc, drop_all in Hrep. cbn [fmap list_fmap] in Hrep. rewrite app_nil_r in Hrep. split; [done|]. split; [|done].
  split; [done|]. by rewrite Es.
Qed.
End table.

(** ** The in-memory database: the steps of the operations on an indexed table

    What [add_index_row], the removal of an index row, and the insertion, removal and
    change of a base row do to the list of [Rep]. *)

Section ops.
Context (t : Z) (S : Schema) (icol : nat) (idx : list (list Z)) (indices : list Z) (schemas : list Schema).
Context (Hcfg : cfg_ok t S icol idx indices schemas).
Abbreviation good := (MemTableInv.good S idx indices schemas).
Abbreviation tables_ok := (tables_ok t S icol idx indices schemas).
Abbreviation Rep := (Rep t S icol idx indices schemas).
Abbreviation linked := (linked icol).

(** ** Reading *)

Lemma db_row_eq d p r n : db_rows d !! p = Some (r, n) -> db_row p d = Done (r, d).
Proof. intros Hp. unfold db_row, mbind, M_bind, get, from_option. by rewrite Hp. Qed.
Lemma db_table_eq d x T : db_tables d !! x = Some T -> db_table x d = Done (T, d).
Proof. intros Hx. unfold db_table, mbind, M_bind, get, from_option. by rewrite Hx. Qed.
Lemma db_master_eq d m l : db_masters d !! m = Some l -> db_master m d = Done (l, d).
Proof. intros Hx. unfold db_master, mbind, M_bind, get, from_option. by rewrite Hx. Qed.
Lemma from_option_eq {St A} (o : option A) (a : A) (s : St) : o = Some a -> from_option o s = Done (a, s).
Proof. by intros ->. Qed.
Lemma verify_eq {St} b (s : St) : b = true -> verify b s = Done (tt, s).
Proof. by intros ->. Qed.
Lemma on_row_eq {A} p (m : M Row A) d r n a r' :
  db_rows d !! p = Some (r, n) -> m r = Done (a, r') -> on_row p m d = Done (a, d <| db_rows ::= <[p := (r', n)]> |>).
Proof. intros Hp Hm. unfold on_row. by rewrite Hp, Hm. Qed.
Lemma set_table_eq x r : x = None \/ tbl_ r = None -> set_table x r = Done (tt, r <| tbl_ := x |>).
Proof. intros Hx. unfold set_table, mbind, M_bind, get, when. destruct x; cbn; [|done]. destruct Hx as [?|Hx]; [done|]. by rewrite Hx. Qed.

Lemma rowv_tbl r vs x : rowv r vs -> rowv (r <| tbl_ := x |>) vs.
Proof. by apply rowv_place. Qed.

Lemma omap_cons_entry {A B} (f : A -> option B) x l : base.omap f (x :: l) = match f x with Some y => y :: base.omap f l | None => base.omap f l end.
Proof. done. Qed.

Lemma ptrs_elem l q i : lk_qs l !! i = Some (Some q) -> q ∈ ptrs l.
Proof. intros Hq. right. apply list_elem_of_omap. exists (Some q). split; [by eapply list_elem_of_lookup_2|done]. Qed.

(** Inserting a row into a sorted table. *)
Lemma st_insert_eq d x s rows kd p r n vs k :
  db_tables d !! x = Some (mk_tbl s rows kd) -> db_rows d !! p = Some (r, n) -> rowv r vs -> schema_ r = s -> keys_indexed s ->
  vkey (key_cols_id_ s) vs = Some k -> tbl_ r = None ->
  st_insert x p d = Done (tt, d <| db_rows ::= <[p := (r <| tbl_ := Some x |>, n)]> |> <| db_tables ::= alter (fun T => T <| tb_rows ::= mm_insert k p |>) x |>).
Proof.
  intros Hx Hp Hr Hs Hki Hk Ht. unfold st_insert. rewrite (bind_eq _ _ _ _ _ (db_table_eq _ _ _ Hx)), (bind_eq _ _ _ _ _ (db_row_eq _ _ _ _ Hp)).
  cbn [tb_schema]. assert (row_key s r = Some k) as Hkey by (rewrite <- Hs, (rowv_key r vs Hr), Hs; [done|by rewrite Hs]).
  rewrite (bind_eq _ _ _ _ _ (from_option_eq _ _ _ Hkey)). erewrite bind_eq by (apply verify_eq; by apply bool_decide_eq_true).
  erewrite bind_eq by (eapply on_row_eq; [exact Hp|apply set_table_eq; by right]). done.
Qed.

(** Taking a row out of a sorted table. *)
Lemma remove_row_by_eq ra d x s rows kd p r n vs k do_free :
  db_tables d !! x = Some (mk_tbl s rows kd) -> mm_sorted rows -> (k, p) ∈ rows -> db_rows d !! p = Some (r, n) -> rowv r vs -> schema_ r = s -> keys_indexed s ->
  vkey (key_cols_id_ s) vs = Some k ->
  remove_row_by ra x p do_free d = ra x p do_free (d <| db_rows ::= <[p := (r <| tbl_ := None |>, n)]> |>).
Proof.
  intros Hx Hso Hin Hp Hr Hs Hki Hk. unfold remove_row_by. rewrite (bind_eq _ _ _ _ _ (db_table_eq _ _ _ Hx)), (bind_eq _ _ _ _ _ (db_row_eq _ _ _ _ Hp)).
  cbn [tb_schema tb_rows]. assert (row_key s r = Some k) as Hkey by (rewrite <- Hs, (rowv_key r vs Hr), Hs; [done|by rewrite Hs]).
  rewrite (bind_eq _ _ _ _ _ (from_option_eq _ _ _ Hkey)). rewrite (equal_range_has k p rows Hso Hin). cbn [when].
  erewrite bind_eq by (eapply on_row_eq; [exact Hp|apply set_table_eq; by left]). done.
Qed.

Lemma release_eq d p r n : db_rows d !! p = Some (r, n) -> 1 <= n ->
  exists R, release p d = Done (tt, d <| db_rows := R |>) /\ forall x, x ≠ p -> R !! x = db_rows d !! x.
Proof.
  intros Hp Hn. unfold release. rewrite (bind_eq get _ d d d eq_refl). rewrite (bind_eq _ _ _ _ _ (from_option_eq _ _ _ Hp)).
  erewrite bind_eq by (apply verify_eq, Z.leb_le; lia). unfold modify. destruct (n - 1 =? 0).
  - exists (delete p (db_rows d)). split; [done|]. intros x Hx. by rewrite lookup_delete_ne.
  - exists (<[p := (r, n - 1)]> (db_rows d)). split; [done|]. intros x Hx. by rewrite lookup_insert_ne.
Qed.

(** The pointers with one more, or one less, index row. *)
Lemma omap_set {A} (l : list (option A)) i x : l !! i = Some None -> base.omap id (<[i := Some x]> l) ≡ₚ x :: base.omap id l.
Proof.
  intros Hi. rewrite <- (take_drop_middle l i None Hi) at 2. rewrite (insert_take_drop l i) by (by eapply lookup_lt_Some).
  rewrite !omap_app. cbn [base.omap list_omap id]. by rewrite <- Permutation_middle.
Qed.
Lemma omap_unset {A} (l : list (option A)) i x : l !! i = Some (Some x) -> base.omap id l ≡ₚ x :: base.omap id (<[i := None]> l).
Proof.
  intros Hi. rewrite <- (take_drop_middle l i (Some x) Hi) at 1. rewrite (insert_take_drop l i) by (by eapply lookup_lt_Some).
  rewrite !omap_app. cbn [base.omap list_omap id]. by rewrite <- Permutation_middle.
Qed.

Lemma ptrs_ok_add next l L i :
  ptrs_ok next (l :: L) -> lk_qs l !! i = Some None -> ptrs_ok (Z.succ next) (l <| lk_qs ::= <[i := Some next]> |> :: L).
Proof.
  intros [A B C D] Hi. assert (ptrs (l <| lk_qs ::= <[i := Some next]> |>) ≡ₚ next :: ptrs l) as Hp.
  { unfold ptrs. cbn. rewrite omap_set by done. apply Permutation_swap. }
  split; [| |apply Forall_cons in C as [[C1 C2] C3]; constructor|lia].
  - cbn [mbind list_bind] in *. rewrite Hp. cbn [app]. constructor; [|done]. rewrite elem_of_app. rewrite Forall_forall in C. intros [Hin|Hin].
    + destruct (C l) as [_ Hl]; [by left|]. rewrite Forall_forall in Hl. apply Hl in Hin. lia.
    + apply list_elem_of_bind in Hin as (l' & Hin & Hl'). destruct (C l') as [_ Hl]; [by right|]. rewrite Forall_forall in Hl. apply Hl in Hin. lia.
  - done.
  - cbn. split; [lia|]. rewrite Hp. constructor; [lia|]. apply (Forall_impl _ _ _ C2). intros x. cbn. lia.
  - apply (Forall_impl _ _ _ C3). intros x [? Hx]. split; [lia|]. apply (Forall_impl _ _ _ Hx). intros z. cbn. lia.
Qed.

Lemma ptrs_ok_drop next l L i q :
  ptrs_ok next (l :: L) -> lk_qs l !! i = Some (Some q) -> ptrs_ok next (l <| lk_qs ::= <[i := None]> |> :: L) /\ q ∉ (l <| lk_qs ::= <[i := None]> |> :: L) ≫= ptrs.
Proof.
  intros [A B C D] Hi. assert (ptrs l ≡ₚ q :: ptrs (l <| lk_qs ::= <[i := None]> |>)) as Hp.
  { unfold ptrs. cbn. rewrite (omap_unset _ i q) by done. apply Permutation_swap. }
  cbn [mbind list_bind] in *. rewrite Hp in A. cbn [app] in A. apply NoDup_cons in A as [Hq A]. split; [|done].
  apply Forall_cons in C as [[C1 C2] C3]. split; try done. constructor; [|done]. split; [done|]. rewrite Hp in C2. by apply Forall_cons in C2 as [_ ?].
Qed.

(** ** One more index row *)

Lemma indices_lookup i cols : idx !! i = Some cols -> exists ti, indices !! i = Some ti.
Proof. intros Hi. apply lookup_lt_is_Some. rewrite (cf_len _ _ _ _ _ _ Hcfg). by eapply lookup_lt_Some. Qed.

Lemma index_keys_indexed i cols s : idx !! i = Some cols -> schemas !! i = Some s -> keys_indexed s /\ key_cols_id_ s = Z.of_nat <$> seq 0 (length cols).
Proof.
  intros Hi Hs. destruct (cf_schemas _ _ _ _ _ _ Hcfg i cols Hi) as (s' & Hs' & _ & _ & _ & Hcols & _ & Hk). rewrite Hs in Hs'. injection Hs' as <-.
  split; [|done]. unfold keys_indexed. rewrite Hk. apply Forall_fmap, Forall_forall. intros j Hj%elem_of_seq. cbn. rewrite Nat2Z.id.
  destruct (lookup_lt_is_Some_2 cols j) as [c Hc]; [lia|]. destruct (Forall2_lookup_l _ _ _ _ _ Hcols Hc) as (k & Hk' & kS & _ & _ & Hx).
  apply lookup_take_Some in Hk' as [Hk' _]. eauto.
Qed.

Lemma add_index_row_rep d l L i cols ti :
  Rep d (l :: L) -> db_masters d !! lk_m l = Some (lk_qs l ++ [Some (lk_p l)]) -> lk_qs l !! i = Some None ->
  idx !! i = Some cols -> indices !! i = Some ti ->
  exists d', add_index_row (lk_p l) (lk_m l) (i, (cols, ti)) d = Done (tt, d') /\
    Rep d' (l <| lk_qs ::= <[i := Some (db_next d)]> |> :: L) /\
    db_masters d' = <[lk_m l := <[i := Some (db_next d)]> (lk_qs l) ++ [Some (lk_p l)]]> (db_masters d) /\ db_next d' = Z.succ (db_next d).
Proof.
  intros [Ht Hg Hp] Hm Hq Hi Hti. apply Forall_cons in Hg as [Hgl HgL]. pose proof Hgl as [(r & n & Hr & Hn & Hv & Es & Etb) Hread Hlen Hmb Hidx].
  destruct (tk_index _ _ _ _ _ _ _ _ Ht i ti cols Hti Hi) as (s & rows & Hs & HT & Hso & Hpm).
  assert (Forall2 fits (col_info_ S) (lk_vs l)) as Hfits by (rewrite <- Es; apply Hv).
  pose proof (idx_in_cols _ _ _ _ _ _ Hcfg i cols Hi) as Hic.
  destruct (index_row_fits _ _ _ _ _ _ Hcfg cols (lk_vs l) s (lk_m l) i Hfits Hi Hs) as (rq & Hcr & Hrq & Esq & Etq); [unfold in_s; cbn; lia|].
  destruct (index_keys_indexed i cols s Hi Hs) as [Hki Hkc].
  destruct (vkey_readable S (lk_vs l) cols Hread Hic) as [k Hk].
  assert (vkey (key_cols_id_ s) (picked cols (lk_vs l) ++ [V_I64 (lk_m l)]) = Some k) as Hkq by (rewrite Hkc, (vkey_picked S); done).
  pose proof (pk_next _ _ Hp) as Hnext. apply Forall_cons in Hnext as [[_ Hlt] HltL]. rewrite Forall_forall in Hlt.
  assert (lk_p l < db_next d) as Hpn by (apply Hlt; by left).
  unfold add_index_row. cbn [fst snd].
  set (d1 := d <| db_rows ::= <[db_next d := (rq, 1)]> |> <| db_next ::= Z.succ |>).
  set (d2 := d1 <| db_masters ::= <[lk_m l := <[i := Some (db_next d)]> (lk_qs l ++ [Some (lk_p l)])]> |>).
  assert (make_index_row (lk_p l) i cols ti (lk_m l) d = Done (db_next d, d2)) as Emk.
  { unfold make_index_row. rewrite (bind_eq _ _ _ _ _ (db_row_eq _ _ _ _ Hr)).
    erewrite bind_eq by (apply from_option_eq; rewrite <- (picked_all S cols (lk_vs l) Hfits Hic); apply mapM_ext; intros c; apply rowv_get, Hv).
    rewrite (bind_eq _ _ _ _ _ (db_table_eq _ _ _ HT)). cbn [tb_schema]. rewrite (bind_eq _ _ _ _ _ (from_option_eq _ _ _ Hcr)).
    erewrite bind_eq by reflexivity. erewrite bind_eq by (apply db_master_eq; exact Hm).
    erewrite bind_eq by (apply verify_eq, bool_decide_eq_true; by rewrite lookup_app_l by (by eapply lookup_lt_Some)). done. }
  rewrite (bind_eq _ _ _ _ _ Emk).
  erewrite st_insert_eq; [| |cbn; apply lookup_insert_eq|exact Hrq|exact Esq|exact Hki|exact Hkq|exact Etq]; [|exact HT].
  eexists. split; [done|]. split.
  - split; cbn [d2 d1].
    + apply (tables_index_alter _ _ _ _ _ _ Hcfg _ (l :: L) _ i ti cols); try done.
      * intros rows' Hso' Hpm'. split; [by apply mm_insert_sorted|]. rewrite mm_insert_perm, Hpm'. rewrite !omap_cons_entry.
        assert (index_entry i cols l = None) as -> by (unfold index_entry; by rewrite Hq).
        assert (index_entry i cols (l <| lk_qs ::= <[i := Some (db_next d)]> |>) = Some (k, db_next d)) as ->; [|done].
        unfold index_entry. cbn. rewrite list_lookup_insert_eq by (by eapply lookup_lt_Some). cbn. by rewrite Hk.
      * intros j cols' Hj. rewrite !omap_cons_entry. unfold index_entry at 1 3. cbn. by rewrite list_lookup_insert_ne.
    + constructor.
      * split; cbn; try done; [|by rewrite length_insert|].
        -- exists r, n. rewrite !lookup_insert_ne by lia. done.
        -- intros j q cols' Hj Hj'. destruct (decide (j = i)) as [->|Hne].
           ++ rewrite list_lookup_insert_eq in Hj by (by eapply lookup_lt_Some). simplify_eq.
              exists (rq <| tbl_ := Some ti |>), 1. rewrite lookup_insert_eq. split_and!; try done. by apply rowv_tbl.
           ++ rewrite list_lookup_insert_ne in Hj by done. pose proof (Hlt q (ptrs_elem l q j Hj)) as Hqn.
              rewrite !lookup_insert_ne by lia. by apply (Hidx j).
      * apply (goods_frame S idx indices schemas (db_rows d) _ (db_next d) l); [done..|]. intros x _ Hx. cbn. by rewrite !lookup_insert_ne by lia.
    + by apply ptrs_ok_add.
  - cbn. split; [|done]. rewrite insert_app_l; [done|]. by eapply lookup_lt_Some.
Qed.

(** ** One index row less *)

Lemma entries_nodup (f : link -> option (list keypart * Z)) L :
  (forall l k p, f l = Some (k, p) -> p ∈ ptrs l) -> NoDup (L ≫= ptrs) -> NoDup (base.omap f L).*2.
Proof.
  intros Hf. induction L as [|l L IH]; [constructor|]. cbn [mbind list_bind]. intros (_ & Hd & HL)%NoDup_app. rewrite omap_cons_entry.
  destruct (f l) as [[k p]|] eqn:E; [|by apply IH]. cbn. constructor; [|by apply IH].
  intros ((k', p') & -> & Hin)%list_elem_of_fmap. apply list_elem_of_omap in Hin as (l' & Hl' & E'). cbn in *.
  apply (Hd p' (Hf _ _ _ E)). apply list_elem_of_bind. exists l'. split; [by eapply Hf|done].
Qed.

Lemma index_entry_ptr i cols l k q : index_entry i cols l = Some (k, q) -> q ∈ ptrs l.
Proof.
  unfold index_entry. destruct (mjoin (lk_qs l !! i)) as [q'|] eqn:E; [|done]. cbn. destruct (vkey cols (lk_vs l)); [|done]. intros [= <- <-].
  apply (ptrs_elem l q' i). destruct (lk_qs l !! i) as [[]|]; naive_solver.
Qed.
Lemma base_entry_ptr l k p : base_entry S l = Some (k, p) -> p ∈ ptrs l.
Proof. unfold base_entry. destruct (lk_in l); [|done]. destruct (vkey _ _); [|done]. intros [= <- <-]. by left. Qed.

Lemma drop_index_row_rep d l L i cols ti q :
  Rep d (l :: L) -> lk_qs l !! i = Some (Some q) -> idx !! i = Some cols -> indices !! i = Some ti ->
  exists d', st_remove_row ti q true d = Done (tt, d') /\ Rep d' (l <| lk_qs ::= <[i := None]> |> :: L) /\ db_masters d' = db_masters d /\ db_next d' = db_next d.
Proof.
  intros [Ht Hg Hp] Hq Hi Hti. apply Forall_cons in Hg as [Hgl HgL]. pose proof Hgl as [Hrow Hread Hlen Hmb Hidx].
  destruct (tk_index _ _ _ _ _ _ _ _ Ht i ti cols Hti Hi) as (s & rows & Hs & HT & Hso & Hpm).
  destruct (Hidx i q cols Hq Hi) as (rq & n & Hrq & Hn & Hvq & Esq & Etq). rewrite Hs in Esq. injection Esq as Esq.
  assert (Forall2 fits (col_info_ S) (lk_vs l)) as Hfits by (destruct Hrow as (r & n' & _ & _ & Hv & <- & _); apply Hv).
  pose proof (idx_in_cols _ _ _ _ _ _ Hcfg i cols Hi) as Hic. destruct (index_keys_indexed i cols s Hi Hs) as [Hki Hkc].
  destruct (vkey_readable S (lk_vs l) cols Hread Hic) as [k Hk].
  assert (vkey (key_cols_id_ s) (picked cols (lk_vs l) ++ [V_I64 (lk_m l)]) = Some k) as Hkq by (rewrite Hkc, (vkey_picked S); done).
  assert (index_entry i cols l = Some (k, q)) as Hent by (unfold index_entry; rewrite Hq; cbn; by rewrite Hk).
  assert ((k, q) ∈ rows) as Hin by (rewrite Hpm, omap_cons_entry, Hent; by left).
  assert (NoDup rows.*2) as Hnd by (rewrite Hpm; apply entries_nodup; [apply index_entry_ptr|apply Hp]).
  unfold st_remove_row. rewrite (remove_row_by_eq st_remove_at d ti s rows Sorted q rq n _ k true HT Hso Hin Hrq Hvq (eq_sym Esq) Hki Hkq).
  set (d1 := d <| db_rows ::= <[q := (rq <| tbl_ := None |>, n)]> |>). unfold st_remove_at. cbn [when].
  destruct (release_eq d1 q (rq <| tbl_ := None |>) n) as (R & HR & HRx); [apply lookup_insert_eq|done|].
  rewrite (bind_eq _ _ _ _ _ HR). eexists. split; [done|]. split; [|done].
  destruct (ptrs_ok_drop _ _ _ _ _ Hp Hq) as [Hp' Hqn].
  assert (forall x, x ≠ q -> R !! x = db_rows d !! x) as HR' by (intros x Hx; rewrite HRx by done; cbn; by rewrite lookup_insert_ne).
  split; cbn [db_rows db_tables db_next d1 set_field].
  - apply (tables_index_alter _ _ _ _ _ _ Hcfg _ (l :: L) _ i ti cols); try done.
    + intros rows' Hso' Hpm'. split; [by apply erase_ptr_sorted|].
      assert (NoDup rows'.*2) as Hnd' by (rewrite Hpm'; apply entries_nodup; [apply index_entry_ptr|apply Hp]).
      rewrite omap_cons_entry, Hent in Hpm'. rewrite (erase_ptr_rest k q rows' _ Hnd' Hpm').
      rewrite omap_cons_entry. assert (index_entry i cols (l <| lk_qs ::= <[i := None]> |>) = None) as ->; [|done].
      unfold index_entry. cbn. by rewrite list_lookup_insert_eq by (by eapply lookup_lt_Some).
    + intros j cols' Hj. rewrite !omap_cons_entry. unfold index_entry at 1 3. cbn. by rewrite list_lookup_insert_ne.
  - cbn [mbind list_bind] in Hqn. rewrite elem_of_app in Hqn. constructor.
    + apply (good_frame _ _ _ _ (db_rows d)).
      { intros x Hx. apply HR'. intros ->. apply Hqn. by left. }
      split; try done; [by cbn; rewrite length_insert|]. cbn. intros j q' cols' Hj. destruct (decide (j = i)) as [->|Hne].
      * by rewrite list_lookup_insert_eq in Hj by (by eapply lookup_lt_Some).
      * rewrite list_lookup_insert_ne in Hj by done. by apply Hidx.
    + rewrite Forall_forall in HgL |- *. intros l' Hl'. apply (good_frame _ _ _ _ (db_rows d)); [|by apply HgL].
      intros x Hx. apply HR'. intros ->. apply Hqn. right. apply list_elem_of_bind. eauto.
  - done.
Qed.

(** ** The base row *)

Lemma Rep_base (d : Db) (l : link) L r n vs' x (b : bool) T' :
  Rep d (l :: L) -> 1 <= n -> rowv r vs' -> schema_ r = S -> tbl_ r = x -> readable S vs' ->
  (forall i q cols, lk_qs l !! i = Some (Some q) -> idx !! i = Some cols -> picked cols vs' = picked cols (lk_vs l)) ->
  tables_ok T' (l <| lk_vs := vs' |> <| lk_tbl := x |> <| lk_in := b |> :: L) ->
  Rep (d <| db_rows ::= <[lk_p l := (r, n)]> |> <| db_tables := T' |>) (l <| lk_vs := vs' |> <| lk_tbl := x |> <| lk_in := b |> :: L).
Proof.
  intros [Ht Hg Hp] Hn Hr Hs Hb Hread Hpick HT. apply Forall_cons in Hg as [Hgl HgL]. split; [exact HT| |destruct Hp as [A B C D]; apply Forall_cons in C as [C1 C2]; split; [exact A|exact B|by constructor|done]].
  cbn [db_rows set_field]. pose proof (pk_nodup _ _ Hp) as Hnd. cbn [mbind list_bind] in Hnd. apply NoDup_app in Hnd as (Hnl & _ & _).
  apply NoDup_cons in Hnl as [Hpl _]. constructor.
  - destruct Hgl as [_ _ Hlen Hmb Hidx]. split; try done; cbn; [exists r, n; by rewrite lookup_insert_eq|].
    intros i q cols Hq Hi. destruct (Hidx i q cols Hq Hi) as (rq & nq & H1 & H2 & H3). exists rq, nq. rewrite lookup_insert_ne.
    + rewrite (Hpick i q) by done. done.
    + intros E. apply Hpl. rewrite E. apply list_elem_of_omap. exists (Some q). split; [by eapply list_elem_of_lookup_2|done].
  - apply (goods_frame S idx indices schemas (db_rows d) _ (db_next d) l); [done..|]. intros y Hy _. rewrite lookup_insert_ne; [done|].
    intros <-. apply Hy. by left.
Qed.

Lemma base_key vs : readable S vs -> exists k, vkey (key_cols_id_ S) vs = Some k.
Proof. intros Hr. destruct (vkey_readable S vs (key_cols_id_ S) Hr (cf_keys _ _ _ _ _ _ Hcfg)) as [k Hk]. eauto. Qed.

(** Putting the base row into the table. *)
Lemma base_insert_rep d l L :
  Rep d (l :: L) -> lk_in l = false -> lk_tbl l = None ->
  exists d', st_insert t (lk_p l) d = Done (tt, d') /\ Rep d' (l <| lk_tbl := Some t |> <| lk_in := true |> :: L) /\ db_masters d' = db_masters d /\ db_next d' = db_next d.
Proof.
  intros Hrep Hb Hx. pose proof Hrep as [Ht Hg Hp]. apply Forall_cons in Hg as [[(r & n & Hr & Hn & Hv & Es & Etb) Hread _ _ _] _].
  destruct (tk_base _ _ _ _ _ _ _ _ Ht) as (rows & HT & Hso & Hpm). destruct (base_key (lk_vs l) Hread) as [k Hk]. rewrite Hx in Etb.
  erewrite st_insert_eq; [|exact HT|exact Hr|exact Hv|exact Es|apply Hcfg|exact Hk|exact Etb]. eexists. split; [done|]. split; [|done].
  apply (Rep_base d l L (r <| tbl_ := Some t |>) n (lk_vs l) (Some t) true (alter (fun T => T <| tb_rows ::= mm_insert k (lk_p l) |>) t (db_tables d))) in Hrep;
    [by destruct l|done|by apply rowv_tbl|done|done|done|done|].
  apply (tables_base_alter _ _ _ _ _ _ Hcfg _ (l :: L)); [done| |by intros; rewrite !omap_cons_entry].
  intros rows' Hso' Hpm'. split; [by apply mm_insert_sorted|]. rewrite mm_insert_perm, Hpm', !omap_cons_entry.
  assert (base_entry S l = None) as -> by (unfold base_entry; by rewrite Hb). unfold base_entry at 2. cbn. by rewrite Hk.
Qed.

(** Taking it out, to change it. *)
Lemma base_remove_rep d l L :
  Rep d (l :: L) -> lk_in l = true ->
  exists d', remove_row t (lk_p l) false d = Done (tt, d') /\ Rep d' (l <| lk_tbl := None |> <| lk_in := false |> :: L) /\ db_masters d' = db_masters d /\ db_next d' = db_next d.
Proof.
  intros Hrep Hb. pose proof Hrep as [Ht Hg Hp]. apply Forall_cons in Hg as [[(r & n & Hr & Hn & Hv & Es & Etb) Hread _ _ _] _].
  destruct (tk_base _ _ _ _ _ _ _ _ Ht) as (rows & HT & Hso & Hpm). destruct (base_key (lk_vs l) Hread) as [k Hk].
  assert (base_entry S l = Some (k, lk_p l)) as Hent by (unfold base_entry; by rewrite Hb, Hk).
  assert ((k, lk_p l) ∈ rows) as Hin by (rewrite Hpm, omap_cons_entry, Hent; by left).
  unfold remove_row. rewrite (remove_row_by_eq remove_at d t S rows _ (lk_p l) r n (lk_vs l) k false HT Hso Hin Hr Hv Es (cf_keys _ _ _ _ _ _ Hcfg) Hk).
  unfold remove_at. erewrite bind_eq by (apply db_table_eq; exact HT). cbn [tb_kind]. unfold it_remove_at. cbn [when].
  erewrite bind_eq by reflexivity. eexists. split; [done|]. split; [|done].
  apply (Rep_base d l L (r <| tbl_ := None |>) n (lk_vs l) None false (alter (fun T => T <| tb_rows ::= erase_ptr (lk_p l) |>) t (db_tables d))) in Hrep;
    [by destruct l|done|by apply rowv_tbl|done|done|done|done|].
  apply (tables_base_alter _ _ _ _ _ _ Hcfg _ (l :: L)); [done| |by intros; rewrite !omap_cons_entry].
  intros rows' Hso' Hpm'. split; [by apply erase_ptr_sorted|].
  assert (NoDup rows'.*2) as Hnd' by (rewrite Hpm'; apply entries_nodup; [apply base_entry_ptr|apply Hp]).
  rewrite omap_cons_entry, Hent in Hpm'. by rewrite (erase_ptr_rest k _ rows' _ Hnd' Hpm').
Qed.

(** Writing a column that the keys in use do not have. *)
Definition misses (col : nat) (cols : list Z) : Prop := Forall (fun c => Z.to_nat c ≠ col) cols.

Lemma vkey_insert cols vs col v : misses col cols -> vkey cols (<[col := v]> vs) = vkey cols vs.
Proof.
  induction 1 as [|c cols Hc _ IH]; [done|]. unfold vkey in *. cbn [mapM]. rewrite list_lookup_insert_ne by done. by rewrite IH.
Qed.
Lemma picked_insert cols vs col v : misses col cols -> picked cols (<[col := v]> vs) = picked cols vs.
Proof. induction 1 as [|c cols Hc _ IH]; [done|]. unfold picked in *. cbn [base.omap list_omap]. rewrite list_lookup_insert_ne by done. by rewrite IH. Qed.

Lemma readable_insert vs col v c :
  readable S vs -> col_info_ S !! col = Some c -> (ci_indexed c = true -> is_Some (part_v v)) -> readable S (<[col := v]> vs).
Proof. intros Hr Hc Hv. unfold readable. rewrite <- (list_insert_id _ _ _ Hc). by apply Forall2_insert. Qed.

(** The keys in use stay as they are. *)
Definition same_keys (l : link) (vs' : list Value) : Prop :=
  (lk_in l = true -> vkey (key_cols_id_ S) vs' = vkey (key_cols_id_ S) (lk_vs l)) /\
  forall i q cols, lk_qs l !! i = Some (Some q) -> idx !! i = Some cols -> picked cols vs' = picked cols (lk_vs l) /\ vkey cols vs' = vkey cols (lk_vs l).

Lemma misses_same_keys l col v :
  (lk_in l = true -> misses col (key_cols_id_ S)) ->
  (forall i q cols, lk_qs l !! i = Some (Some q) -> idx !! i = Some cols -> misses col cols) -> same_keys l (<[col := v]> (lk_vs l)).
Proof. intros A B. split; [intros; by apply vkey_insert, A|]. intros i q cols Hq Hi. split; [apply picked_insert|apply vkey_insert]; by apply (B i q). Qed.

Lemma base_write_rep d l L r n col v c :
  Rep d (l :: L) -> db_rows d !! lk_p l = Some (r, n) -> col_info_ S !! col = Some c -> fits c v -> (ci_indexed c = true -> is_Some (part_v v)) ->
  exists old r', lk_vs l !! col = Some old /\ update col v r = Done (calls_for r c (bytes_of old) (bytes_of v), r') /\
    (same_keys l (<[col := v]> (lk_vs l)) -> Rep (d <| db_rows ::= <[lk_p l := (r', n)]> |>) (l <| lk_vs ::= <[col := v]> |> :: L)).
Proof.
  intros Hrep Hr Hc Hfit Hpart. pose proof Hrep as [Ht Hg Hp].
  apply Forall_cons in Hg as [[(r0 & n0 & Hr0 & Hn & Hv & Es & Etb) Hread _ _ _] _]. rewrite Hr in Hr0. injection Hr0 as <- <-.
  destruct (rowv_update r (lk_vs l) col v Hv) as (c' & old & r' & Hc' & Hold & Hu & Hv' & (Es' & Et' & _)); [rewrite Es; eauto|].
  rewrite Es, Hc in Hc'. injection Hc' as <-. exists old, r'. split; [done|]. split; [done|]. intros [Hkey Hix].
  apply (Rep_base d l L r' n (<[col := v]> (lk_vs l)) (lk_tbl l) (lk_in l) (db_tables d)) in Hrep; [by destruct l|done|done|by rewrite Es'|by rewrite Et'| | |].
  - by apply (readable_insert _ _ _ c).
  - intros i q cols Hq Hi. by apply (Hix i q).
  - destruct Ht as [A B]. split.
    + destruct A as (rows & H1 & H2 & H3). exists rows. split; [done|]. split; [done|]. rewrite H3, !omap_cons_entry.
      assert (base_entry S (l <| lk_vs := <[col := v]> (lk_vs l) |> <| lk_tbl := lk_tbl l |> <| lk_in := lk_in l |>) = base_entry S l) as ->; [|done].
      unfold base_entry. cbn [lk_p lk_vs lk_in set_field]. destruct (lk_in l); [|done]. by rewrite Hkey.
    + intros i ti cols Hi Hcols. destruct (B i ti cols Hi Hcols) as (s & rows & H0 & H1 & H2 & H3). exists s, rows. split; [done|]. split; [done|]. split; [done|].
      rewrite H3, !omap_cons_entry.
      assert (index_entry i cols (l <| lk_vs := <[col := v]> (lk_vs l) |> <| lk_tbl := lk_tbl l |> <| lk_in := lk_in l |>) = index_entry i cols l) as ->; [|done].
      unfold index_entry. cbn [lk_qs lk_vs lk_in set_field]. destruct (lk_qs l !! i) as [[q|]|] eqn:Eq; [|done..]. cbn [mjoin option_join mbind option_bind].
      by destruct (Hix i q cols Eq Hcols) as [_ ->].
Qed.
End ops.
