(* ===== verification/MemTableSpec.v ===== *)
(** * The in-memory database: the operations on an indexed table

    [Table d L]: every row of [L] is in the table and in all of its indices.  Insertions,
    updates and removals go through states in which one row is not; each ends in such a
    state again. *)
From stdpp Require Import base tactics numbers list sorting gmap.
From S2P Require Import Prelude SparseInt OMap Command Snapshot MemRow MemRowSpec MemTable MemTableInv.

(** ** Loops over the indices *)

Lemma for_each_total {St A} (f : A -> M St ()) (I : nat -> St -> Prop) (l : list A) k s :
  I k s -> (forall i x s, l !! i = Some x -> I (k + i)%nat s -> exists s', f x s = Done (tt, s') /\ I (Datatypes.S (k + i)) s') ->
  exists s', for_each l f s = Done (tt, s') /\ I (k + length l)%nat s'.
Proof.
  revert k s. induction l as [|x l IH]; intros k s Hk Hf; cbn; [exists s; by rewrite Nat.add_0_r|].
  destruct (Hf 0%nat x s eq_refl) as (s1 & E1 & Hs1); [by rewrite Nat.add_0_r|]. rewrite (bind_eq _ _ _ _ _ E1).
  rewrite Nat.add_0_r in Hs1. destruct (IH (Datatypes.S k) s1 Hs1) as (s2 & E2 & Hs2).
  - intros i y s' Hy Hi. replace (Datatypes.S k + i)%nat with (k + Datatypes.S i)%nat in * by lia. by apply Hf.
  - exists s2. split; [done|]. by replace (k + Datatypes.S (length l))%nat with (Datatypes.S k + length l)%nat by lia.
Qed.

Lemma numbered_loop {St} (f : nat * (list Z * Z) -> M St ()) (I : nat -> St -> Prop) idx indices s :
  length indices = length idx -> I 0%nat s ->
  (forall i cols ti s, idx !! i = Some cols -> indices !! i = Some ti -> I i s -> exists s', f (i, (cols, ti)) s = Done (tt, s') /\ I (Datatypes.S i) s') ->
  exists s', for_each (numbered idx indices) f s = Done (tt, s') /\ I (length idx) s'.
Proof.
  intros Hl H0 Hf. destruct (for_each_total f I (numbered idx indices) 0 s H0) as (s' & E & Hs').
  - intros i x s1 Hx Hs1. unfold numbered in Hx. rewrite list_lookup_imap in Hx. apply fmap_Some in Hx as ([cols ti] & [Hc Hi]%lookup_zip_Some & ->). by apply Hf.
  - exists s'. unfold numbered in Hs'. rewrite length_imap, length_zip in Hs'. replace (0 + min (length idx) (length indices))%nat with (length idx) in Hs' by lia. done.
Qed.

Section spec.
Context (t : Z) (S : Schema) (icol : nat) (idx : list (list Z)) (indices : list Z) (schemas : list Schema).
Context (Hcfg : cfg_ok t S icol idx indices schemas).
Abbreviation good := (MemTableInv.good S idx indices schemas).
Abbreviation Rep := (Rep t S icol idx indices schemas).
Abbreviation linked := (linked icol).

(** The master index [m] has the given pointers, and the other ones are as in [M]. *)
Definition masters_at (M : gmap Z (list (option Z))) (m : Z) (qs : list (option Z)) (d : Db) : Prop :=
  db_masters d !! m = Some qs /\ forall m', m' ≠ m -> db_masters d !! m' = M !! m'.

(** Exactly the indices that [P] picks have no row. *)
Definition open_in (P : nat * (list Z * Z) -> bool) (qs : list (option Z)) : Prop :=
  forall i cols ti, idx !! i = Some cols -> indices !! i = Some ti ->
    if P (i, (cols, ti)) then qs !! i = Some None else exists q, qs !! i = Some (Some q).

(** Adding the index rows that are missing. *)
Lemma add_index_rows (P : nat * (list Z * Z) -> bool) d l L :
  Rep d (l :: L) -> db_masters d !! lk_m l = Some (lk_qs l ++ [Some (lk_p l)]) ->
  open_in P (lk_qs l) ->
  exists d' qs, for_each (numbered idx indices) (fun x => when (P x) (add_index_row (lk_p l) (lk_m l) x)) d = Done (tt, d') /\
    Rep d' (l <| lk_qs := qs |> :: L) /\ masters_at (db_masters d) (lk_m l) (qs ++ [Some (lk_p l)]) d' /\ Forall is_Some qs /\ db_next d' <= db_next d + Z.of_nat (length idx).
Proof.
  intros Hrep Hm HP.
  destruct (numbered_loop (fun x => when (P x) (add_index_row (lk_p l) (lk_m l) x))
    (fun i d' => exists qs, Rep d' (l <| lk_qs := qs |> :: L) /\ masters_at (db_masters d) (lk_m l) (qs ++ [Some (lk_p l)]) d' /\
       (forall j, (i <= j)%nat -> qs !! j = lk_qs l !! j) /\ Forall is_Some (take i qs) /\ db_next d' <= db_next d + Z.of_nat i) idx indices d) as (d' & E & qs & Hr & Hma & _ & Hall & Hnx).
  - apply Hcfg.
  - exists (lk_qs l). split_and!; try done; [by destruct l|lia].
  - intros i cols ti d1 Hi Hti (qs & Hr & [Hm1 Hm2] & Hrest & Hall & Hnx). pose proof (HP i cols ti Hi Hti) as HPi.
    destruct (P (i, (cols, ti))) eqn:EP; cbn [when].
    + rewrite <- (Hrest i) in HPi by done.
      destruct (add_index_row_rep _ _ _ _ _ _ Hcfg d1 (l <| lk_qs := qs |>) L i cols ti Hr Hm1 HPi Hi Hti) as (d2 & E2 & Hr2 & Hms & Hnx2).
      exists d2. split; [exact E2|]. exists (<[i := Some (db_next d1)]> qs). split; [exact Hr2|]. cbn in Hms. split_and!.
      * unfold masters_at. rewrite Hms. split; [apply lookup_insert_eq|]. intros m' Hne. rewrite lookup_insert_ne by done. by apply Hm2.
      * intros j Hj. rewrite list_lookup_insert_ne by lia. apply Hrest. lia.
      * rewrite (take_S_r _ _ (Some (db_next d1))) by (apply list_lookup_insert_eq; by eapply lookup_lt_Some).
        rewrite take_insert_ge by lia. apply Forall_app. split; [done|]. by repeat constructor.
      * lia.
    + exists d1. split; [done|]. exists qs. split_and!; try done; [intros j Hj; apply Hrest; lia| |lia].
      destruct HPi as [q Hq]. rewrite <- Hrest in Hq by done. rewrite (take_S_r _ _ _ Hq). apply Forall_app. split; [done|]. by repeat constructor.
  - exists d', qs. split_and!; try done. rewrite take_ge in Hall; [done|].
    destruct Hr as [_ Hg _]. apply Forall_cons in Hg as [[_ _ Hlen _ _] _]. cbn in Hlen. lia.
Qed.

Lemma Rep_masters d L f : Rep d L -> Rep (d <| db_masters ::= f |>) L.
Proof. intros [A B C]. by split. Qed.

(** Taking out the index rows of some indices. *)
Definition drop_index_row (m : Z) (x : nat * (list Z * Z)) : M Db () :=
  master_idx ← db_master m;
  q ← from_option (mjoin (master_idx !! x.1));
  st_remove_row x.2.2 q true;;
  modify (fun d => d <| db_masters ::= <[m := <[x.1 := None]> master_idx]> |>).

Lemma drop_index_rows (P : nat * (list Z * Z) -> bool) d l L :
  Rep d (l :: L) -> db_masters d !! lk_m l = Some (lk_qs l ++ [Some (lk_p l)]) -> Forall is_Some (lk_qs l) ->
  exists d' qs, for_each (numbered idx indices) (fun x => when (P x) (drop_index_row (lk_m l) x)) d = Done (tt, d') /\
    Rep d' (l <| lk_qs := qs |> :: L) /\ masters_at (db_masters d) (lk_m l) (qs ++ [Some (lk_p l)]) d' /\ open_in P qs /\ db_next d' = db_next d.
Proof.
  intros Hrep Hm Hall. assert (length (lk_qs l) = length idx) as Hlen by (destruct Hrep as [_ Hg _]; by apply Forall_cons in Hg as [[_ _ ? _ _] _]).
  destruct (numbered_loop (fun x => when (P x) (drop_index_row (lk_m l) x))
    (fun i d' => exists qs, Rep d' (l <| lk_qs := qs |> :: L) /\ (masters_at (db_masters d) (lk_m l) (qs ++ [Some (lk_p l)]) d' /\ db_next d' = db_next d) /\
       (forall j, (i <= j)%nat -> qs !! j = lk_qs l !! j) /\
       forall j cols ti, (j < i)%nat -> idx !! j = Some cols -> indices !! j = Some ti ->
         if P (j, (cols, ti)) then qs !! j = Some None else qs !! j = lk_qs l !! j) idx indices d) as (d' & E & qs & Hr & [Hma Hnx] & _ & Hqs).
  - apply Hcfg.
  - exists (lk_qs l). split_and!; try done; [by destruct l|]. intros j cols ti Hj. lia.
  - intros i cols ti d1 Hi Hti (qs & Hr & [[Hm1 Hm2] Hnx] & Hrest & Hqs).
    assert (forall qs' : list (option Z), (forall j, j ≠ i -> qs' !! j = qs !! j) ->
      (if P (i, (cols, ti)) then qs' !! i = Some None else qs' !! i = qs !! i) ->
      (forall j, (Datatypes.S i <= j)%nat -> qs' !! j = lk_qs l !! j) /\
      forall j cols ti, (j < Datatypes.S i)%nat -> idx !! j = Some cols -> indices !! j = Some ti ->
         if P (j, (cols, ti)) then qs' !! j = Some None else qs' !! j = lk_qs l !! j) as Hnext.
    { intros qs' Hne Hsame. split; [intros j Hj; rewrite Hne by lia; apply Hrest; lia|]. intros j cols' ti' Hj Hc Ht.
      destruct (decide (j = i)) as [->|Hji]; [|rewrite Hne by done; apply Hqs; [lia|done..]]. simplify_eq.
      destruct (P (i, (cols, ti))); [done|]. by rewrite Hsame, Hrest. }
    destruct (P (i, (cols, ti))) eqn:EP; cbn [when].
    + destruct (lookup_lt_is_Some_2 (lk_qs l) i) as [oq Hoq]; [rewrite Hlen; by eapply lookup_lt_Some|].
      rewrite Forall_forall in Hall. destruct (Hall oq) as [q ->]; [by eapply list_elem_of_lookup_2|]. rewrite <- Hrest in Hoq by done.
      destruct (drop_index_row_rep _ _ _ _ _ _ Hcfg d1 (l <| lk_qs := qs |>) L i cols ti q Hr Hoq Hi Hti) as (d2 & E2 & Hr2 & Hms & Hnx2).
      eexists. split.
      * unfold drop_index_row. rewrite (bind_eq _ _ _ _ _ (db_master_eq _ _ _ Hm1)).
        erewrite bind_eq by (apply from_option_eq; cbn; rewrite lookup_app_l by (by eapply lookup_lt_Some); by rewrite Hoq).
        cbn [fst snd]. rewrite (bind_eq _ _ _ _ _ E2). done.
      * exists (<[i := None]> qs). split; [by apply Rep_masters|]. split; [|apply Hnext].
        -- split; [|cbn; by rewrite Hnx2]. split; cbn; [rewrite lookup_insert_eq; by rewrite insert_app_l by (by eapply lookup_lt_Some)|].
           intros m' Hne. rewrite lookup_insert_ne by done. rewrite Hms. by apply Hm2.
        -- intros j Hj. by rewrite list_lookup_insert_ne.
        -- apply list_lookup_insert_eq. by eapply lookup_lt_Some.
    + exists d1. split; [done|]. exists qs. split; [done|]. split; [done|]. by apply Hnext.
  - exists d', qs. split_and!; try done. intros i cols ti Hi Hti. specialize (Hqs i cols ti (lookup_lt_Some _ _ _ Hi) Hi Hti).
    destruct (P (i, (cols, ti))); [done|]. destruct (lookup_lt_is_Some_2 (lk_qs l) i) as [oq Hoq]; [rewrite Hlen; by eapply lookup_lt_Some|].
    rewrite Forall_forall in Hall. destruct (Hall oq) as [q ->]; [by eapply list_elem_of_lookup_2|]. exists q. by rewrite Hqs.
Qed.

(** ** The state between the operations *)

Definition settled (l : link) : Prop := lk_in l = true /\ lk_tbl l = Some t /\ Forall is_Some (lk_qs l).

Record Table (d : Db) (L : list link) : Prop := {
  tb_rep : Rep d L;
  tb_linked : Forall (linked d) L;
  tb_settled : Forall settled L;
}.

Lemma Table_perm d L L' : L ≡ₚ L' -> Table d L -> Table d L'.
Proof. intros HL [A B C]. split; [by apply (Rep_perm _ _ _ _ _ _ _ L)|by rewrite <- HL..]. Qed.

(** The master indices of the other rows. *)
Lemma linked_frame next d d' l L :
  ptrs_ok next (l :: L) -> Forall (linked d) L -> (forall m, m ≠ lk_m l -> db_masters d' !! m = db_masters d !! m) -> Forall (linked d') L.
Proof.
  intros Hp HL Hm. rewrite Forall_forall in *. intros l' Hl'. destruct (HL l' Hl') as [A B]. split; [|done]. rewrite Hm; [done|].
  intros E. pose proof (pk_ms _ _ Hp) as Hnd. cbn in Hnd. apply NoDup_cons in Hnd as [Hnd _]. apply Hnd. rewrite <- E. apply list_elem_of_fmap. eauto.
Qed.

(** A row of the table comes first. *)
Lemma Table_pick d L l : Table d L -> l ∈ L -> exists L', L ≡ₚ l :: L' /\ Table d (l :: L').
Proof. intros HT (L' & E)%elem_of_Permutation. exists L'. split; [done|]. by apply (Table_perm d L). Qed.

Lemma master_of_eq d l L m : Rep d (l :: L) -> lk_vs l !! icol = Some (V_I64 m) -> master_of icol (lk_p l) d = Done (m, d).
Proof.
  intros [_ Hg _] Hm. apply Forall_cons in Hg as [[(r & n & Hr & _ & Hv & _) _ _ _ _] _]. unfold master_of.
  rewrite (bind_eq _ _ _ _ _ (db_row_eq _ _ _ _ Hr)). by erewrite bind_eq by (apply from_option_eq; by rewrite (rowv_get r (lk_vs l))).
Qed.

Lemma icol_spec : exists c, col_info_ S !! icol = Some c /\ ci_type c = I64 /\ ci_indexed c = false /\ length (col_info_ S) = Datatypes.S icol.
Proof.
  destruct (cf_icol _ _ _ _ _ _ Hcfg) as (_ & c & Hd & Ht & Hi). exists c. assert (col_info_ S !! icol = Some c) as Hc.
  { pose proof (lookup_drop (col_info_ S) icol 0) as E. rewrite Hd, Nat.add_0_r in E. by rewrite <- E. }
  split_and!; try done. apply (f_equal length) in Hd. rewrite length_drop in Hd. cbn in Hd. lia.
Qed.

(** Keys do not have a column that is not indexed. *)
Lemma plain_misses col c cols : col_info_ S !! col = Some c -> ci_indexed c = false -> in_cols S cols -> misses col cols.
Proof. intros Hc Hx Hic. apply (Forall_impl _ _ _ Hic). intros z (k & Hk & Hi) E. rewrite E in Hk. congruence. Qed.

Lemma plain_same_keys l col c v : col_info_ S !! col = Some c -> ci_indexed c = false -> same_keys S idx l (<[col := v]> (lk_vs l)).
Proof.
  intros Hc Hx. apply misses_same_keys; [intros _; apply (plain_misses col c); [done..|]; apply Hcfg|].
  intros i q cols _ Hi. apply (plain_misses col c); [done..|]. by apply (idx_in_cols _ _ _ _ _ _ Hcfg i).
Qed.

(** ** Insertion *)

(** A new row, and its master index. *)
Definition fresh_link (d : Db) (vs : list Value) : link :=
  mk_link (db_next d) (Z.succ (db_next d)) (replicate (length indices) None) vs None false.

Lemma fresh_ptrs d vs : ptrs (fresh_link d vs) = [db_next d].
Proof. unfold ptrs. cbn. f_equal. by induction (length indices). Qed.

Lemma Rep_fresh d L r vs ms :
  Rep d L -> rowv r vs -> schema_ r = S -> tbl_ r = None -> readable S vs -> Z.succ (db_next d) < 2 ^ 63 ->
  Rep (d <| db_rows ::= <[db_next d := (r, 1)]> |> <| db_next ::= Z.succ |> <| db_masters := ms |> <| db_next ::= Z.succ |>) (fresh_link d vs :: L).
Proof.
  intros [[A B] Hg [C D E F]] Hr Hs Htb Hread Hb. cbn [db_rows db_masters db_tables db_next set_field] in *.
  assert (forall i cols, index_entry i cols (fresh_link d vs) = None) as Hie.
  { intros i cols. unfold index_entry. cbn. destruct (replicate (length indices) None !! i) as [x|] eqn:Ex; [|done].
    apply lookup_replicate in Ex as [-> _]. done. }
  split.
  - split; [exact A|]. intros i ti cols Hi Hc. rewrite omap_cons_entry, Hie. by apply B.
  - constructor.
    + split; cbn; [exists r, 1; by rewrite lookup_insert_eq|done|rewrite length_replicate; apply Hcfg|lia|].
      intros i q cols Hq. apply lookup_replicate in Hq as [? _]. done.
    + rewrite Forall_forall in *. intros l Hl. apply (good_frame _ _ _ _ (db_rows d)); [|by apply Hg]. intros x Hx.
      destruct (E l Hl) as [_ Hlt]. rewrite Forall_forall in Hlt. apply Hlt in Hx. cbn. by rewrite lookup_insert_ne by lia.
  - cbn. rewrite Forall_forall in E. split; cbn [mbind list_bind fmap list_fmap]; [rewrite fresh_ptrs; cbn [app]|..|lia].
    + constructor; [|done]. intros (l & Hx & Hl)%list_elem_of_bind. destruct (E l Hl) as [_ Hlt]. rewrite Forall_forall in Hlt. apply Hlt in Hx. lia.
    + constructor; [|done]. intros (l & Hx & Hl)%list_elem_of_fmap. destruct (E l Hl) as [Hlt _]. cbn in Hx. lia.
    + constructor; [rewrite fresh_ptrs; cbn; split; [lia|]; by repeat constructor; lia|]. apply Forall_forall. intros l Hl.
      destruct (E l Hl) as [? Hlt]. split; [lia|]. apply (Forall_impl _ _ _ Hlt). intros x. cbn. lia.
Qed.

(** [Row::create] and [insert] *)
Definition insert_values (vs : list Value) : M Db Z :=
  T ← db_table t;
  row ← from_option (create (tb_schema T) vs);
  p ← new_row row;
  tbl_insert t p;;
  mret p.

(** Values that a row of the table can be made of. *)
Definition row_fits (vs : list Value) : Prop :=
  Forall2 (fun c v => fits c v /\ (ci_indexed c = true -> is_Some (part_v v))) (visible_columns S) vs.

Lemma create_fits vs : row_fits vs ->
  exists r, create S vs = Some r /\ rowv r (vs ++ [V_I64 0]) /\ schema_ r = S /\ tbl_ r = None /\ readable S (vs ++ [V_I64 0]).
Proof.
  intros Hf. destruct (cf_icol _ _ _ _ _ _ Hcfg) as (Hcc & c & Hd & Hty & Hx).
  assert (col_info_ S = visible_columns S ++ [c]) as Hcols by (unfold visible_columns; rewrite Hcc, <- Hd; by rewrite take_drop).
  assert (Forall2 fits (visible_columns S) vs) as Hf1 by (eapply Forall2_impl; [exact Hf|]; by intros ? ? []).
  destruct (create_rep S vs (cf_wf _ _ _ _ _ _ Hcfg) Hf1) as (r & Hr & Hrep & Es & Et & Ero).
  { rewrite Hcc, Hd, nstr_one, Hty. done. }
  exists r. rewrite Hcc, Hd in Hrep. cbn [fmap list_fmap] in Hrep. split; [done|]. split; [split; [|split; [|done]]|split; [done|split; [done|]]].
  - rewrite fmap_app. cbn [fmap list_fmap]. unfold hidden_blob in Hrep. rewrite Hty in Hrep. exact Hrep.
  - rewrite Es, Hcols. apply Forall2_app; [done|]. repeat constructor; [by rewrite Hty|by cbn..].
  - unfold readable. rewrite Hcols. apply Forall2_app; [|repeat constructor; by rewrite Hx].
    eapply Forall2_impl; [exact Hf|]. by intros ? ? [].
Qed.

Lemma base_row_of d l L : Rep d (l :: L) -> exists r n, db_rows d !! lk_p l = Some (r, n) /\ rowv r (lk_vs l) /\ schema_ r = S /\ tbl_ r = lk_tbl l.
Proof. intros [_ Hg _]. apply Forall_cons in Hg as [[(r & n & Hr & _ & Hv & Hs & Ht) _ _ _ _] _]. by exists r, n. Qed.

Lemma kind_of_table d L : Rep d L -> exists rows, db_table t d = Done (mk_tbl S rows (Indexed icol idx indices), d).
Proof. intros [[(rows & HT & _) _] _ _]. exists rows. by apply db_table_eq. Qed.

(** The hidden column is set to the master index. *)
Lemma set_master d l L m :
  Rep d (l :: L) -> in_s 64 m ->
  exists d' x, on_row (lk_p l) (update icol (V_I64 m)) d = Done (x, d') /\ Rep d' (l <| lk_vs ::= <[icol := V_I64 m]> |> :: L) /\
    db_masters d' = db_masters d /\ db_next d' = db_next d.
Proof.
  intros Hr Hm. destruct (base_row_of d l L Hr) as (r & n & Hp & _ & _ & _). destruct icol_spec as (c & Hc & Hty & Hx & _).
  destruct (base_write_rep _ _ _ _ _ _ d l L r n icol (V_I64 m) c Hr Hp Hc) as (old & r' & _ & Hu & Hrep); [by split|by rewrite Hx|].
  eexists _, _. split; [by eapply on_row_eq|]. split; [|done]. by eapply Hrep, plain_same_keys.
Qed.

(** What [it_insert] does before the row is put into the table. *)
Lemma fill_indices d l L :
  Rep d (l :: L) -> db_masters d !! lk_m l = Some (lk_qs l ++ [Some (lk_p l)]) -> lk_qs l = replicate (length indices) None ->
  exists d' qs, (for_each (numbered idx indices) (add_index_row (lk_p l) (lk_m l));; _ ← on_row (lk_p l) (update icol (V_I64 (lk_m l))); mret ()) d = Done (tt, d') /\
    Rep d' (l <| lk_qs := qs |> <| lk_vs ::= <[icol := V_I64 (lk_m l)]> |> :: L) /\
    masters_at (db_masters d) (lk_m l) (qs ++ [Some (lk_p l)]) d' /\ Forall is_Some qs /\ db_next d' <= db_next d + Z.of_nat (length idx).
Proof.
  intros Hr Hm Hqs. pose proof (gd_m _ _ _ _ _ _ (proj1 (proj1 (Forall_cons _ _ _) (rp_good _ _ _ _ _ _ _ _ Hr)))) as Hmb.
  destruct (add_index_rows (fun _ => true) d l L Hr Hm) as (d1 & qs & E1 & Hr1 & [Hm1 Hm2] & Hall & Hnx).
  { intros i cols ti _ Hti. rewrite Hqs. apply lookup_replicate. split; [done|]. by eapply lookup_lt_Some. }
  change (for_each (numbered idx indices) (add_index_row (lk_p l) (lk_m l)) d = Done (tt, d1)) in E1.
  destruct (set_master d1 _ L (lk_m l) Hr1) as (d2 & x & E2 & Hr2 & Em & En); [unfold in_s; cbn; lia|].
  exists d2, qs. split; [rewrite (bind_eq _ _ _ _ _ E1); by rewrite (bind_eq _ _ _ _ _ E2)|]. split; [exact Hr2|].
  split; [unfold masters_at; by rewrite Em|]. split; [done|lia].
Qed.

Lemma insert_table d L vs :
  Table d L -> row_fits vs -> Z.succ (db_next d) < 2 ^ 63 ->
  exists d' l, insert_values vs d = Done (db_next d, d') /\ Table d' (l :: L) /\ lk_p l = db_next d /\ take icol (lk_vs l) = vs /\
    db_next d' <= db_next d + Z.of_nat (length idx) + 2.
Proof.
  intros [Hrep Hlk Hst] Hf Hb. destruct (create_fits vs Hf) as (r & Hcr & Hr & Es & Et & Hread).
  destruct (kind_of_table d L Hrep) as [rows HT]. destruct (cf_icol _ _ _ _ _ _ Hcfg) as (Hcc & c & Hd & _).
  assert (length vs = icol) as Hlv.
  { apply Forall2_length in Hf. destruct icol_spec as (? & _ & _ & _ & Hn). unfold visible_columns in Hf. rewrite length_take in Hf. lia. }
  assert (forall v w, <[icol := w]> (vs ++ [v]) = vs ++ [w]) as Hset by (intros v w; rewrite <- Hlv, <- (Nat.add_0_r (length vs)); by rewrite insert_app_r).
  unfold insert_values. rewrite (bind_eq _ _ _ _ _ HT). cbn [tb_schema]. rewrite (bind_eq _ _ _ _ _ (from_option_eq _ _ _ Hcr)).
  set (d1 := d <| db_rows ::= <[db_next d := (r, 1)]> |> <| db_next ::= Z.succ |>). rewrite (bind_eq (new_row r) _ d (db_next d) d1 eq_refl).
  set (m0 := replicate (length indices) None ++ [Some (db_next d)]).
  set (d2 := d1 <| db_masters ::= <[Z.succ (db_next d) := m0]> |> <| db_next ::= Z.succ |>).
  pose proof (Rep_fresh d L r (vs ++ [V_I64 0]) (<[Z.succ (db_next d) := m0]> (db_masters d)) Hrep Hr Es Et Hread Hb) as Hr2. change (Rep d2 (fresh_link d (vs ++ [V_I64 0]) :: L)) in Hr2.
  pose proof (rp_ptrs _ _ _ _ _ _ _ _ Hr2) as Hpk.
  destruct (fill_indices d2 _ L Hr2 (lookup_insert_eq _ _ _) eq_refl) as (d3 & qs & E3 & Hr3 & [Hm3 Hm3'] & Hall & Hnx).
  destruct (base_insert_rep _ _ _ _ _ _ Hcfg d3 _ L Hr3 eq_refl eq_refl) as (d4 & E4 & Hr4 & Hm4 & Hn4).
  assert (tbl_insert t (db_next d) d1 = Done (tt, d4)) as Eins.
  { unfold tbl_insert. assert (db_table t d1 = Done (mk_tbl S rows (Indexed icol idx indices), d1)) as HT1.
    { revert HT. unfold db_table, mbind, M_bind, get, from_option. cbn. destruct (db_tables d !! t); [|done]. by intros [= ->]. }
    rewrite (bind_eq _ _ _ _ _ HT1). cbn [tb_kind]. unfold it_insert, master_of.
    erewrite bind_eq; [|erewrite bind_eq by (eapply db_row_eq; apply lookup_insert_eq); erewrite bind_eq by (apply from_option_eq; rewrite (rowv_get r _ icol Hr); by rewrite <- Hlv, lookup_app_r, Nat.sub_diag by done); done].
    change (0 =? 0) with true. cbn [when].
    erewrite bind_eq; [exact E4|]. rewrite (bind_eq (new_master m0) _ d1 (Z.succ (db_next d)) d2 eq_refl). exact E3. }
  rewrite (bind_eq _ _ _ _ _ Eins). eexists _, _. split; [done|]. split; [split; [exact Hr4|constructor|constructor]|].
  - split; [cbn; by rewrite Hm4|]. cbn. rewrite Hset. by rewrite <- Hlv, lookup_app_r, Nat.sub_diag by done.
  - apply (linked_frame _ d _ _ L Hpk); [done|]. intros m Hne. rewrite Hm4, Hm3' by done. cbn in Hne |- *. by rewrite lookup_insert_ne by congruence.
  - by repeat split.
  - done.
  - split; [done|]. cbn. rewrite Hset. rewrite <- Hlv, take_app_length. split; [done|]. rewrite Hn4. cbn in Hnx. lia.
Qed.

(** ** Updates *)

Lemma on_row_read {A} p (m : M Row A) d r n a : db_rows d !! p = Some (r, n) -> m r = Done (a, r) -> on_row p m d = Done (a, d).
Proof. intros Hp Hm. rewrite (on_row_eq _ _ _ _ _ _ _ Hp Hm). do 2 f_equal. destruct d. cbn in *. unfold set_field; cbn. f_equal. by apply insert_id. Qed.

(** The strings do not move when a number is written, or the same string. *)
Lemma update_keeps_strings r vs col v c old x r' :
  rowv r vs -> col_info_ (schema_ r) !! col = Some c -> vs !! col = Some old -> (ci_type c ≠ STR \/ bytes_of old = bytes_of v) -> fits c v ->
  update col v r = Done (x, r') -> var_part_ r' = var_part_ r.
Proof.
  intros (Hrep & Hf & Hro) Hc Hold Hk [Hkind Hok] Hu. revert Hu. unfold update, get_column_info, mbind, M_bind, get, from_option. rewrite Hc.
  cbn [mret M_ret]. destruct v as [|i|i|b|s]; try done.
  1-3: unfold verify, update_fixed, mbind, M_bind, get, from_option; case_bool_decide; [|done]; cbn; destruct (rdonly_ r); [done|]; cbn;
    destruct (slice _ _ _); [|done]; cbn; case_bool_decide; [by intros [= _ <-]|]; destruct (write_at _ _ _); [|done]; cbn; by intros [= _ <-].
  destruct Hk as [Hk|Hk]; [by destruct Hk|].
  assert (get_blob col r = Some s) as Hb by (rewrite (get_blob_rep r _ col (bytes_of old) Hrep) by (by rewrite list_lookup_fmap, Hold); by rewrite Hk).
  unfold get_blob, get_column_info in Hb. rewrite Hc in Hb. cbn [mbind option_bind] in Hb. rewrite <- Hkind in Hb. cbn in Hb.
  unfold verify, update_str, mbind, M_bind, get, from_option. destruct (rdonly_ r); [done|]. cbn. rewrite bool_decide_eq_true_2 by done. cbn.
  rewrite Hb. cbn. rewrite bool_decide_eq_true_2 by done. by intros [= _ <-].
Qed.

Lemma bytes_of_inj c v v' : fits c v -> fits c v' -> bytes_of v = bytes_of v' -> v = v'.
Proof. intros [E O] [E' O'] Hb. pose proof (value_of_bytes v O) as A. pose proof (value_of_bytes v' O') as B. rewrite E in A. rewrite E', <- Hb in B. congruence. Qed.

(** An update that the table is not told about. *)
Lemma update_plain d l L r n col c v old :
  Table d (l :: L) -> db_rows d !! lk_p l = Some (r, n) -> col_info_ S !! col = Some c -> col ≠ icol -> fits c v -> (ci_indexed c = true -> is_Some (part_v v)) ->
  lk_vs l !! col = Some old -> (bytes_of old = bytes_of v \/ ci_indexed c = false) ->
  exists x r', update col v r = Done (x, r') /\ Table (d <| db_rows ::= <[lk_p l := (r', n)]> |>) (l <| lk_vs ::= <[col := v]> |> :: L).
Proof.
  intros [Hrep Hlk Hst] Hp Hc Hcol Hf Hpart Hold Hor.
  destruct (base_write_rep _ _ _ _ _ _ d l L r n col v c Hrep Hp Hc Hf Hpart) as (old' & r' & Hold' & Hu & Hrep'). simplify_eq.
  exists (calls_for r c (bytes_of old) (bytes_of v)), r'. split; [done|].
  apply Forall_cons in Hlk as [[Hm Hv] Hlk]. apply Forall_cons in Hst as [Hst HstL]. split; [apply Hrep'| |by constructor].
  - destruct Hor as [Heq|Hx]; [|by apply (plain_same_keys l col c)].
    destruct (base_row_of d l L Hrep) as (r0 & n0 & Hp0 & (_ & Hfits & _) & Es & _). rewrite Hp in Hp0. injection Hp0 as <- <-. rewrite Es in Hfits.
    pose proof (Forall2_lookup_lr _ _ _ _ _ _ Hfits Hc Hold) as Hfo. rewrite <- (bytes_of_inj c old v Hfo Hf Heq), list_insert_id by done. done.
  - constructor; [split; [done|]; cbn; by rewrite list_lookup_insert_ne|]. by apply (Forall_impl _ _ _ Hlk).
Qed.

(** Before and after an update that it is told about. *)
Lemma notified (f : Z -> nat * (list Z * Z) -> M Db ()) d l L col :
  Rep d (l :: L) -> lk_tbl l = Some t -> lk_vs l !! icol = Some (V_I64 (lk_m l)) ->
  (T ← db_table t;
   match tb_kind T with
   | Sorted => mret ()
   | Indexed icol idx indices =>
     row ← db_row (lk_p l);
     verify (bool_decide (tbl_ row = Some t));;
     m ← master_of icol (lk_p l);
     verify (negb (m =? 0));;
     for_each (numbered idx indices) (fun x => when (affected col x) (f m x))
   end) d = for_each (numbered idx indices) (fun x => when (affected col x) (f (lk_m l) x)) d.
Proof.
  intros Hr Ht Hm. destruct (kind_of_table d _ Hr) as [rows HT]. rewrite (bind_eq _ _ _ _ _ HT). cbn [tb_kind].
  destruct (base_row_of d l L Hr) as (r & n & Hp & _ & _ & Htb). rewrite (bind_eq _ _ _ _ _ (db_row_eq _ _ _ _ Hp)).
  erewrite bind_eq by (apply verify_eq, bool_decide_eq_true; by rewrite Htb). rewrite (bind_eq _ _ _ _ _ (master_of_eq d l L _ Hr Hm)).
  pose proof (gd_m _ _ _ _ _ _ (proj1 (proj1 (Forall_cons _ _ _) (rp_good _ _ _ _ _ _ _ _ Hr)))) as Hmb.
  by erewrite bind_eq by (apply verify_eq; destruct (Z.eqb_spec (lk_m l) 0); [lia|done]).
Qed.

Lemma not_affected col x : affected (Z.of_nat col) x = false -> Forall (fun c => 0 <= c) x.2.1 -> misses col x.2.1.
Proof.
  unfold affected. destruct x as [i [cols ti]]. cbn. intros He. induction 1 as [|z cols Hz _ IH]; [constructor|]. cbn in He. apply orb_false_iff in He as [He1 He2].
  constructor; [|by apply IH]. apply Z.eqb_neq in He1. lia.
Qed.

(** The row is taken out, changed, and put back. *)
Lemma update_reinserts d l L col c v :
  Table d (l :: L) -> col_info_ S !! col = Some c -> col ≠ icol -> fits c v -> (ci_indexed c = true -> is_Some (part_v v)) ->
  exists d' qs, (notify_before_update t (lk_p l) (ci_id c);; remove_row t (lk_p l) false;; _ ← on_row (lk_p l) (update col v); tbl_insert t (lk_p l);;
      notify_after_update t (lk_p l) (ci_id c)) d = Done (tt, d') /\
    Table d' (l <| lk_qs := qs |> <| lk_vs ::= <[col := v]> |> :: L) /\ db_next d' <= db_next d + Z.of_nat (length idx).
Proof.
  intros [Hrep Hlk Hst] Hc Hcol Hf Hpart. apply Forall_cons in Hlk as [[Hm Hv] Hlk]. apply Forall_cons in Hst as [(Hin & Htb & Hall) Hst].
  destruct (sw_cols _ (cf_wf _ _ _ _ _ _ Hcfg) col c Hc) as (Hid & _). rewrite length_take_le in Hid by (apply Nat.lt_le_incl; by eapply lookup_lt_Some).
  rewrite Hid. set (P := affected (Z.of_nat col)).
  destruct (drop_index_rows P d l L Hrep Hm Hall) as (d1 & qs & E1 & Hr1 & [Hm1 Hm1'] & Hopen & Hn1).
  apply (eq_trans (notified drop_index_row d l L (Z.of_nat col) Hrep Htb Hv)) in E1. change (notify_before_update t (lk_p l) (Z.of_nat col) d = Done (tt, d1)) in E1.
  rewrite (bind_eq _ _ _ _ _ E1). destruct (base_remove_rep _ _ _ _ _ _ Hcfg d1 _ L Hr1 Hin) as (d2 & E2 & Hr2 & Hm2 & Hn2).
  change (lk_p (l <| lk_qs := qs |>)) with (lk_p l) in E2. rewrite (bind_eq _ _ _ _ _ E2).
  destruct (base_row_of d2 _ L Hr2) as (r2 & n2 & Hp2 & _). destruct (base_write_rep _ _ _ _ _ _ d2 _ L r2 n2 col v c Hr2 Hp2 Hc Hf Hpart) as (old & r3 & _ & Hu & Hr3).
  assert (Rep (d2 <| db_rows ::= <[lk_p l := (r3, n2)]> |>) (l <| lk_qs := qs |> <| lk_tbl := None |> <| lk_in := false |> <| lk_vs ::= <[col := v]> |> :: L)) as Hr3'.
  { apply Hr3, misses_same_keys; [done|]. intros i q cols Hq Hi. destruct (indices_lookup _ _ _ _ _ _ Hcfg i cols Hi) as [ti Hti].
    specialize (Hopen i cols ti Hi Hti). destruct (P (i, (cols, ti))) eqn:EP; [cbn in Hq; congruence|]. apply (not_affected col (i, (cols, ti)) EP).
    eapply Forall_impl; [exact (cf_idx _ _ _ _ _ _ Hcfg i cols Hi)|]. by intros z [? _]. }
  erewrite bind_eq by (eapply on_row_eq; [exact Hp2|exact Hu]). cbn [lk_p set_field].
  set (d3 := d2 <| db_rows ::= <[lk_p l := (r3, n2)]> |>) in *. set (l3 := l <| lk_qs := qs |> <| lk_tbl := None |> <| lk_in := false |> <| lk_vs ::= <[col := v]> |>) in *.
  assert (lk_vs l3 !! icol = Some (V_I64 (lk_m l))) as Hv3 by (cbn; by rewrite list_lookup_insert_ne).
  destruct (base_insert_rep _ _ _ _ _ _ Hcfg d3 l3 L Hr3' eq_refl eq_refl) as (d4 & E4 & Hr4 & Hm4 & Hn4).
  pose proof (gd_m _ _ _ _ _ _ (proj1 (proj1 (Forall_cons _ _ _) (rp_good _ _ _ _ _ _ _ _ Hrep)))) as Hmb.
  assert (tbl_insert t (lk_p l) d3 = Done (tt, d4)) as E4'.
  { unfold tbl_insert. destruct (kind_of_table d3 _ Hr3') as [rows HT]. rewrite (bind_eq _ _ _ _ _ HT). cbn [tb_kind]. unfold it_insert.
    rewrite (bind_eq _ _ _ _ _ (master_of_eq d3 l3 L _ Hr3' Hv3)). destruct (Z.eqb_spec (lk_m l) 0); [lia|]. cbn [when]. exact E4. }
  rewrite (bind_eq _ _ _ _ _ E4'). destruct (add_index_rows P d4 _ L Hr4) as (d5 & qs' & E5 & Hr5 & [Hm5 Hm5'] & Hall5 & Hn5).
  { cbn. rewrite Hm4. cbn. rewrite Hm2. exact Hm1. } { exact Hopen. }
  apply (eq_trans (notified (fun m => add_index_row (lk_p l) m) d4 _ L (Z.of_nat col) Hr4 eq_refl Hv3)) in E5.
  assert (l3 <| lk_tbl := Some t |> <| lk_in := true |> <| lk_qs := qs' |> = l <| lk_qs := qs' |> <| lk_vs ::= <[col := v]> |>) as El.
  { unfold l3. clear -Hin Htb. destruct l. cbn in *. by subst. }
  rewrite El in Hr5. exists d5, qs'. split; [exact E5|]. split; [split; [exact Hr5|constructor|by constructor]|cbn in Hn4; lia].
  - split; [exact Hm5|]. cbn. by rewrite list_lookup_insert_ne.
  - apply (linked_frame _ d _ l L (rp_ptrs _ _ _ _ _ _ _ _ Hrep)); [done|]. intros m' Hne. rewrite Hm5' by done. rewrite Hm4. cbn. rewrite Hm2. by apply Hm1'.
Qed.

(** A string column that is not indexed moves the strings of the row; no key may point to them. *)
Definition may_write (c : column_info) (v : Value) : Prop :=
  fits c v /\ (ci_indexed c = true -> is_Some (part_v v)) /\ (ci_indexed c = false -> ci_type c = STR -> string_key S = false).

Lemma update_table d l L col c v :
  Table d (l :: L) -> col_info_ S !! col = Some c -> col ≠ icol -> may_write c v ->
  exists d' qs, row_update (lk_p l) col v d = Done (tt, d') /\ Table d' (l <| lk_qs := qs |> <| lk_vs ::= <[col := v]> |> :: L) /\
    db_next d' <= db_next d + Z.of_nat (length idx).
Proof.
  intros HT Hc Hcol (Hf & Hpart & Hstr). pose proof HT as [Hrep Hlk Hst]. apply Forall_cons in Hst as [(Hin & Htb & Hall) _].
  destruct (base_row_of d l L Hrep) as (r & n & Hp & Hv & Es & Ht). rewrite Htb in Ht.
  destruct (base_write_rep _ _ _ _ _ _ d l L r n col v c Hrep Hp Hc Hf Hpart) as (old & r' & Hold & Hu & _).
  unfold row_update. rewrite (bind_eq _ _ _ _ _ (db_row_eq _ _ _ _ Hp)). erewrite bind_eq by (eapply on_row_read; [exact Hp|by rewrite Hu]).
  rewrite Ht. cbn [fst snd]. destruct (decide (bytes_of old = bytes_of v \/ ci_indexed c = false)) as [Hor|Hnor].
  - assert (calls_for r c (bytes_of old) (bytes_of v) = []) as ->.
    { unfold calls_for, reinsert. case_bool_decide; [done|]. destruct Hor as [? | ->]; done. }
    destruct (kind_of_table d _ Hrep) as [rows HTb]. rewrite (bind_eq _ _ _ _ _ HTb). cbn [tb_schema].
    destruct (update_plain d l L r n col c v old HT Hp Hc Hcol Hf Hpart Hold Hor) as (x & r2 & Hu2 & HT'). rewrite Hu in Hu2. injection Hu2 as _ <-.
    erewrite bind_eq.
    2:{ apply verify_eq. destruct (decide (ci_type c = STR /\ bytes_of old ≠ bytes_of v)) as [[Hs Hne]|Hn].
        - destruct Hor as [?|Hx]; [done|]. rewrite (Hstr Hx Hs). by rewrite andb_false_r.
        - rewrite <- Es in Hc. unfold is_dense. rewrite (update_keeps_strings r _ col v c old (calls_for r c (bytes_of old) (bytes_of v)) r' Hv Hc Hold);
            [by destruct (var_part_ r)| |done|done].
          destruct (decide (bytes_of old = bytes_of v)); [by right|left; intros ?; by destruct Hn]. }
    eexists _, (lk_qs l). split; [eapply on_row_eq; [exact Hp|reflexivity]|]. split; [by destruct l|cbn; lia].
  - assert (calls_for r c (bytes_of old) (bytes_of v) = reinsert r c) as ->.
    { unfold calls_for. rewrite bool_decide_eq_false_2; [done|]. intros ?. apply Hnor. by left. }
    unfold reinsert. rewrite Ht. destruct (ci_indexed c) eqn:Ex; [|destruct Hnor; by right]. rewrite bool_decide_eq_true_2 by by eexists. cbn [andb].
    erewrite bind_eq by (apply from_option_eq; unfold get_column_info; by rewrite Es). apply update_reinserts; try done. by rewrite Ex.
Qed.
End spec.
