(* ===== verification/MemTableRun.v ===== *)
(** * The in-memory database: removals and queries of an indexed table, and what the table
    is to its clients

    The table is a set of rows, each with its values ([holds]); queries, by the key of the
    table or by that of an index, enumerate it in the order of the keys. *)
From stdpp Require Import base tactics numbers list sorting gmap.
From S2P Require Import Prelude SparseInt OMap Command Snapshot MemRow MemRowSpec MemTable MemTableInv MemTableSpec.

Section run.
Context (t : Z) (S : Schema) (icol : nat) (idx : list (list Z)) (indices : list Z) (schemas : list Schema).
Context (Hcfg : cfg_ok t S icol idx indices schemas).
Abbreviation Rep := (Rep t S icol idx indices schemas).
Abbreviation linked := (linked icol).
Abbreviation Table := (Table t S icol idx indices schemas).

(** ** Removal *)

Lemma removelast_snoc {A} (l : list A) x : removelast (l ++ [x]) = l.
Proof. by rewrite removelast_app, app_nil_r. Qed.

(** The index rows of a row go. *)
Lemma destroy_indices d l L :
  Rep d (l :: L) -> linked d l -> Forall is_Some (lk_qs l) ->
  exists d' qs, destroy_secondary_indices (lk_m l) d = Done (tt, d') /\ Rep d' (l <| lk_qs := qs |> :: L) /\ Forall (eq None) qs /\
    db_masters d' = delete (lk_m l) (db_masters d) /\ db_next d' = db_next d.
Proof.
  intros Hrep [Hm _] Hall. unfold destroy_secondary_indices. rewrite (bind_eq _ _ _ _ _ (db_master_eq _ _ _ Hm)), removelast_snoc.
  assert (length (lk_qs l) = length idx) as Hlen by (destruct Hrep as [_ Hg _]; by apply Forall_cons in Hg as [[_ _ ? _ _] _]).
  match goal with |- context [for_each (lk_qs l) ?f] => set (body := f) end.
  destruct (for_each_total body (fun i d' => exists qs, Rep d' (l <| lk_qs := qs |> :: L) /\ db_masters d' = db_masters d /\ db_next d' = db_next d /\
     (forall j, (i <= j)%nat -> qs !! j = lk_qs l !! j) /\ Forall (eq None) (take i qs)) (lk_qs l) 0 d) as (d1 & E1 & qs & Hr1 & Hm1 & Hn1 & _ & Hnone).
  - exists (lk_qs l). split_and!; try done. by destruct l.
  - intros i oq d1 Hoq (qs & Hr1 & Hm1 & Hn1 & Hdrop & Hnone). cbn in Hdrop, Hnone. rewrite Forall_forall in Hall.
    destruct (Hall oq) as [q ->]; [by eapply list_elem_of_lookup_2|].
    assert (qs !! i = Some (Some q)) as Hq by (by rewrite Hdrop).
    destruct (lookup_lt_is_Some_2 idx i) as [cols Hi]; [rewrite <- Hlen; by eapply lookup_lt_Some|].
    destruct (indices_lookup _ _ _ _ _ _ Hcfg i cols Hi) as [ti Hti].
    destruct (gd_idx _ _ _ _ _ _ (proj1 (proj1 (Forall_cons _ _ _) (rp_good _ _ _ _ _ _ _ _ Hr1))) i q cols Hq Hi) as (rq & n & Hrq & _ & _ & _ & Htq).
    destruct (drop_index_row_rep _ _ _ _ _ _ Hcfg d1 _ L i cols ti q Hr1 Hq Hi Hti) as (d2 & E2 & Hr2 & Hm2 & Hn2).
    exists d2. split.
    + unfold body. rewrite (bind_eq (from_option (Some q)) _ d1 q d1 eq_refl). rewrite (bind_eq _ _ _ _ _ (db_row_eq _ _ _ _ Hrq)). by rewrite Htq, Hti.
    + exists (<[i := None]> qs). split; [exact Hr2|]. split; [congruence|]. split; [congruence|]. cbn [Nat.add]. split.
      * intros j Hj. rewrite list_lookup_insert_ne by lia. apply Hdrop. lia.
      * rewrite (take_S_r _ _ None) by (apply list_lookup_insert_eq; by eapply lookup_lt_Some). rewrite take_insert_ge by lia.
        apply Forall_app. split; [done|]. by repeat constructor.
  - rewrite (bind_eq _ _ _ _ _ E1). eexists _, qs. split; [done|]. split; [by apply Rep_masters|].
    rewrite take_ge in Hnone.
    + cbn. rewrite Hm1. done.
    + pose proof (gd_len _ _ _ _ _ _ (proj1 (proj1 (Forall_cons _ _ _) (rp_good _ _ _ _ _ _ _ _ Hr1)))) as Hl. cbn in Hl |- *. lia.
Qed.

(** The row goes. *)
Lemma Rep_gone d l L R :
  Rep d (l :: L) -> lk_in l = true -> Forall (eq None) (lk_qs l) -> (forall x, x ≠ lk_p l -> R !! x = db_rows d !! x) ->
  Rep (d <| db_rows := R |> <| db_tables ::= alter (fun T => T <| tb_rows ::= erase_ptr (lk_p l) |>) t |>) L.
Proof.
  intros [Ht Hg Hp] Hin Hnone HR. apply Forall_cons in Hg as [Hgl HgL].
  destruct (base_key _ _ _ _ _ _ Hcfg (lk_vs l) (gd_readable _ _ _ _ _ _ Hgl)) as [k Hk].
  assert (base_entry S l = Some (k, lk_p l)) as Hent by (unfold base_entry; by rewrite Hin, Hk).
  split; cbn [db_rows db_tables db_next set_field].
  - apply (tables_base_alter _ _ _ _ _ _ Hcfg _ (l :: L)); [done| |].
    + intros rows Hso Hpm. split; [by apply erase_ptr_sorted|].
      assert (NoDup rows.*2) as Hnd by (rewrite Hpm; apply entries_nodup; [apply base_entry_ptr|apply Hp]).
      rewrite omap_cons_entry, Hent in Hpm. by rewrite (erase_ptr_rest k _ rows _ Hnd Hpm).
    + intros j cols. rewrite omap_cons_entry. unfold index_entry at 2. destruct (lk_qs l !! j) as [oq|] eqn:Eq; [|done].
      rewrite Forall_forall in Hnone. rewrite <- (Hnone oq) by (by eapply list_elem_of_lookup_2). done.
  - apply (goods_frame S idx indices schemas (db_rows d) _ (db_next d) l); [done..|]. intros x Hx _. apply HR. intros ->. apply Hx. by left.
  - destruct Hp as [A B C D]. cbn [mbind list_bind fmap list_fmap] in *. apply NoDup_app in A as (_ & _ & A). apply NoDup_cons in B as [_ B]. apply Forall_cons in C as [_ C].
    by split.
Qed.

Lemma it_remove_rep d l L :
  Rep d (l :: L) -> linked d l -> lk_in l = true -> Forall is_Some (lk_qs l) ->
  exists d', it_remove_at icol t (lk_p l) true d = Done (tt, d') /\ Rep d' L /\ db_masters d' = delete (lk_m l) (db_masters d) /\ db_next d' = db_next d.
Proof.
  intros Hrep Hlk Hin Hall. destruct (destroy_indices d l L Hrep Hlk Hall) as (d1 & qs & E1 & Hr1 & Hnone & Hm1 & Hn1).
  destruct (gd_row _ _ _ _ _ _ (proj1 (proj1 (Forall_cons _ _ _) (rp_good _ _ _ _ _ _ _ _ Hr1)))) as (r & n & Hp & Hn & _).
  destruct (release_eq d1 (lk_p l) r n Hp Hn) as (R & ER & HR).
  unfold it_remove_at. cbn [when]. eexists. split.
  - erewrite bind_eq; [reflexivity|]. erewrite bind_eq by (eapply master_of_eq; [exact Hrep|apply Hlk]). rewrite (bind_eq _ _ _ _ _ E1). exact ER.
  - split; [|done]. by apply (Rep_gone d1 (l <| lk_qs := qs |>) L R Hr1).
Qed.

(** A row that a client removes, and one that goes with its key. *)
Lemma clear_table d l L r n :
  Rep d (l :: L) -> db_rows d !! lk_p l = Some (r, n) -> Rep (d <| db_rows ::= <[lk_p l := (r <| tbl_ := None |>, n)]> |>) (l <| lk_tbl := None |> :: L).
Proof.
  intros Hrep Hp. pose proof Hrep as [Ht Hg _]. apply Forall_cons in Hg as [[(r0 & n0 & Hr0 & Hn & Hv & Es & _) Hread _ _ _] _]. rewrite Hp in Hr0. injection Hr0 as <- <-.
  apply (Rep_base _ _ _ _ _ _ d l L (r <| tbl_ := None |>) n (lk_vs l) None (lk_in l) (db_tables d)) in Hrep; [by destruct l|done|by apply rowv_tbl|done..|].
  destruct Ht as [A B]. by split.
Qed.

Lemma gone_table d d' l L :
  Table d (l :: L) -> Rep d' L -> db_masters d' = delete (lk_m l) (db_masters d) -> Table d' L.
Proof.
  intros [Hrep Hlk Hst] Hr Hm. apply Forall_cons in Hlk as [_ Hlk]. apply Forall_cons in Hst as [_ Hst]. split; [done| |done].
  apply (linked_frame _ _ d _ l L (rp_ptrs _ _ _ _ _ _ _ _ Hrep)); [done|]. intros m Hne. rewrite Hm. by rewrite lookup_delete_ne.
Qed.

Lemma remove_at_table d l L : Table d (l :: L) -> exists d', remove_at t (lk_p l) true d = Done (tt, d') /\ Table d' L /\ db_next d' = db_next d.
Proof.
  intros HT. pose proof HT as [Hrep Hlk Hst]. apply Forall_cons in Hlk as [Hlk _]. apply Forall_cons in Hst as [(Hin & _ & Hall) _].
  destruct (it_remove_rep d l L Hrep Hlk Hin Hall) as (d' & E & Hr & Hm & Hn). destruct (kind_of_table _ _ _ _ _ _ d _ Hrep) as [rows Ht].
  exists d'. unfold remove_at. rewrite (bind_eq _ _ _ _ _ Ht). split; [exact E|]. split; [|done]. by apply (gone_table d d' l).
Qed.

Lemma remove_row_table d l L : Table d (l :: L) -> exists d', remove_row t (lk_p l) true d = Done (tt, d') /\ Table d' L /\ db_next d' = db_next d.
Proof.
  intros HT. pose proof HT as [Hrep Hlk Hst]. apply Forall_cons in Hlk as [Hlk _]. apply Forall_cons in Hst as [(Hin & _ & Hall) _].
  pose proof Hrep as [[(rows & Ht & Hso & Hpm) _] Hg _]. apply Forall_cons in Hg as [[(r & n & Hp & Hn & Hv & Es & _) Hread _ _ _] _].
  destruct (base_key _ _ _ _ _ _ Hcfg (lk_vs l) Hread) as [k Hk].
  assert ((k, lk_p l) ∈ rows) as Hkin by (rewrite Hpm, omap_cons_entry; unfold base_entry at 1; rewrite Hin, Hk; by left).
  unfold remove_row. rewrite (remove_row_by_eq remove_at d t S rows _ (lk_p l) r n (lk_vs l) k true Ht Hso Hkin Hp Hv Es (cf_keys _ _ _ _ _ _ Hcfg) Hk).
  pose proof (clear_table d l L r n Hrep Hp) as Hr1. set (d1 := d <| db_rows ::= <[lk_p l := (r <| tbl_ := None |>, n)]> |>) in *.
  destruct (it_remove_rep d1 (l <| lk_tbl := None |>) L Hr1) as (d' & E & Hr & Hm & Hn'); [exact Hlk|done..|].
  exists d'. unfold remove_at. destruct (kind_of_table _ _ _ _ _ _ d1 _ Hr1) as [rows' Ht']. rewrite (bind_eq _ _ _ _ _ Ht').
  split; [exact E|]. split; [|done]. by apply (gone_table d d' l).
Qed.

Lemma links_nodup d L : Rep d L -> NoDup (lk_p <$> L).
Proof.
  intros [_ _ [A _ _ _]]. induction L as [|l L IH]; [constructor|]. cbn [mbind list_bind] in A. apply NoDup_app in A as (_ & Hd & A). cbn. constructor; [|by apply IH].
  intros (l' & E & Hl')%list_elem_of_fmap. apply (Hd (lk_p l)); [by left|]. apply list_elem_of_bind. exists l'. split; [rewrite E; by left|done].
Qed.

(** A list of rows goes, one by one. *)
Lemma remove_all_table (rm : Z -> M Db ()) d L ps :
  (forall d l L, Table d (l :: L) -> exists d', rm (lk_p l) d = Done (tt, d') /\ Table d' L /\ db_next d' = db_next d) ->
  Table d L -> NoDup ps -> (forall p, p ∈ ps -> p ∈ lk_p <$> L) ->
  exists d' L', for_each ps rm d = Done (tt, d') /\ Table d' L' /\ db_next d' = db_next d /\ forall l, l ∈ L' <-> l ∈ L /\ lk_p l ∉ ps.
Proof.
  intros Hrm HT Hnd. revert d L HT. induction Hnd as [|p ps Hp Hnd IH]; intros d L HT Hps; [exists d, L; split_and!; try done; intros l; split; [intros; split; [done|apply not_elem_of_nil]|by intros []]|].
  assert (p ∈ lk_p <$> L) as (l & -> & Hl)%list_elem_of_fmap by (apply Hps; by left). destruct (Table_pick _ _ _ _ _ _ d L l HT Hl) as (L1 & EL & HT1).
  destruct (Hrm d l L1 HT1) as (d1 & E1 & HT2 & Hn1). pose proof (links_nodup d _ (tb_rep _ _ _ _ _ _ _ _ HT1)) as Hnd1.
  cbn in Hnd1. apply NoDup_cons in Hnd1 as [Hfresh _]. destruct (IH d1 L1 HT2) as (d2 & L2 & E2 & HT3 & Hn2 & HL2).
  { intros q Hq. assert (q ∈ lk_p <$> L) as Hin by (apply Hps; by right). rewrite EL in Hin. cbn in Hin. apply elem_of_cons in Hin as [->|Hin]; [done|done]. }
  exists d2, L2. cbn [for_each]. rewrite (bind_eq _ _ _ _ _ E1). split; [done|]. split; [done|]. split; [congruence|].
  intros l'. rewrite HL2, EL, elem_of_cons, not_elem_of_cons. split; [intros [A B]|naive_solver].
  split; [by right|]. split; [|done]. intros Heq. apply Hfresh. rewrite <- Heq. apply list_elem_of_fmap. eauto.
Qed.

(** ** Queries *)

Abbreviation kf cols := (fun l => default [] (vkey cols (lk_vs l))).

(** The part of a sorted table that is in a range, by the rows it stands for. *)
Lemma range_links (kf : link -> list keypart) (pf : link -> Z) rows L r :
  mm_sorted rows -> rows ≡ₚ (fun l => (kf l, pf l)) <$> L -> range_ok r = true -> NoDup (lk_p <$> L) ->
  exists M, (range_parts r rows).1.2.*2 = pf <$> M /\ (forall l, l ∈ M <-> l ∈ L /\ in_range r (kf l) = true) /\
    StronglySorted (fun a b => key_ltb (kf b) (kf a) = false) M /\ NoDup (lk_p <$> M).
Proof.
  intros Hso Hpm Hr Hnd. apply Permutation_map_inv in Hpm as (L' & -> & HL). destruct (range_parts r (map (fun l => (kf l, pf l)) L')) as [[a b] c] eqn:E.
  destruct (range_parts_spec r _ a b c Hso Hr E) as (Hparts & Ha & Hb & Hc). cbn [fst snd].
  apply (fmap_app_inv (fun l => (kf l, pf l))) in Hparts as (A & M & -> & (B & C & -> & -> & ->)%eq_sym%fmap_app_inv & ->).
  rewrite Forall_fmap in Ha, Hb, Hc. exists B. split_and!.
  - by rewrite <- list_fmap_compose.
  - intros l. rewrite HL, !elem_of_app. rewrite !Forall_forall in Ha, Hb, Hc. specialize (Ha l). specialize (Hb l). specialize (Hc l). cbn in Ha, Hb, Hc.
    destruct (in_range r (kf l)); naive_solver.
  - change (map (fun l => (kf l, pf l)) (A ++ B ++ C)) with ((fun l => (kf l, pf l)) <$> (A ++ B ++ C)) in Hso. rewrite !fmap_app in Hso.
    apply sorted_app in Hso as (_ & (Hso & _)%sorted_app & _). clear -Hso.
    induction B as [|l B IH]; [constructor|]. cbn in Hso. apply sorted_tail in Hso as [Hs Hl]. constructor; [by apply IH|]. rewrite Forall_fmap in Hl. exact Hl.
  - rewrite HL, !fmap_app in Hnd. by apply NoDup_app in Hnd as (_ & _ & (Hnd & _)%NoDup_app).
Qed.

Lemma omap_all {A B} (f : A -> option B) (g : A -> B) (l : list A) : Forall (fun x => f x = Some (g x)) l -> base.omap f l = g <$> l.
Proof. induction 1 as [|x l Hx Hl IH]; [done|]. rewrite omap_cons_entry, Hx. cbn. by rewrite IH. Qed.

Lemma key_of d L l cols : Table d L -> l ∈ L -> in_cols S cols -> vkey cols (lk_vs l) = Some (kf cols l).
Proof.
  intros [[_ Hg _] _ _] Hl Hc. rewrite Forall_forall in Hg. destruct (vkey_readable S (lk_vs l) cols (gd_readable _ _ _ _ _ _ (Hg l Hl)) Hc) as [k ->]. done.
Qed.

Lemma base_entries d L : Table d L -> base.omap (base_entry S) L = (fun l => (kf (key_cols_id_ S) l, lk_p l)) <$> L.
Proof.
  intros HT. apply omap_all, Forall_forall. intros l Hl. destruct (proj1 (Forall_forall _ _) (tb_settled _ _ _ _ _ _ _ _ HT) l Hl) as (Hin & _).
  unfold base_entry. rewrite Hin, (key_of d L l _ HT Hl); [done|]. apply Hcfg.
Qed.

(** The index row of a row. *)
Definition qf (i : nat) (l : link) : Z := default 0 (mjoin (lk_qs l !! i)).

Lemma qf_spec d L l i cols : Table d L -> l ∈ L -> idx !! i = Some cols -> lk_qs l !! i = Some (Some (qf i l)).
Proof.
  intros [[_ Hg _] _ Hst] Hl Hi. rewrite Forall_forall in Hg, Hst. destruct (Hst l Hl) as (_ & _ & Hall).
  destruct (lookup_lt_is_Some_2 (lk_qs l) i) as [oq Hoq]; [rewrite (gd_len _ _ _ _ _ _ (Hg l Hl)); by eapply lookup_lt_Some|].
  rewrite Forall_forall in Hall. destruct (Hall oq) as [q ->]; [by eapply list_elem_of_lookup_2|]. unfold qf. by rewrite Hoq.
Qed.

Lemma index_entries d L i cols : Table d L -> idx !! i = Some cols -> base.omap (index_entry i cols) L = (fun l => (kf cols l, qf i l)) <$> L.
Proof.
  intros HT Hi. apply omap_all, Forall_forall. intros l Hl. unfold index_entry. rewrite (qf_spec d L l i cols HT Hl Hi). cbn [mjoin option_join mbind option_bind].
  rewrite (key_of d L l _ HT Hl); [done|]. by apply (idx_in_cols _ _ _ _ _ _ Hcfg i).
Qed.

Lemma base_of_index d L l i cols : Table d L -> l ∈ L -> idx !! i = Some cols -> base_of (qf i l) d = Done (lk_p l, d).
Proof.
  intros HT Hl Hi. pose proof (qf_spec d L l i cols HT Hl Hi) as Hq. destruct HT as [[_ Hg _] Hlk _]. rewrite Forall_forall in Hg, Hlk.
  pose proof (gd_m _ _ _ _ _ _ (Hg l Hl)) as Hmb. destruct (Hlk l Hl) as [Hm _].
  destruct (gd_idx _ _ _ _ _ _ (Hg l Hl) i _ cols Hq Hi) as (rq & n & Hr & _ & Hv & Hs & _).
  destruct (cf_schemas _ _ _ _ _ _ Hcfg i cols Hi) as (s & Hs' & _ & H1 & H2 & Hcols & (k & Hk & _) & _). rewrite Hs in Hs'. injection Hs' as <-.
  assert (length (col_info_ (schema_ rq)) = Datatypes.S (length (picked cols (lk_vs l)))) as Hlen.
  { destruct Hv as (_ & Hf & _). apply Forall2_length in Hf. rewrite Hf, length_app. cbn. lia. }
  assert (columns_count (schema_ rq) = Datatypes.S (length (picked cols (lk_vs l)))) as Hcc by (unfold columns_count; lia).
  unfold base_of. rewrite (bind_eq _ _ _ _ _ (db_row_eq _ _ _ _ Hr)), Hcc. erewrite bind_eq by reflexivity.
  erewrite bind_eq by (apply from_option_eq; rewrite (rowv_get rq _ _ Hv); cbn [Nat.sub]; by rewrite Nat.sub_0_r, lookup_app_r, Nat.sub_diag by lia).
  erewrite bind_eq by reflexivity. erewrite bind_eq by (apply verify_eq; destruct (Z.eqb_spec (lk_m l) 0); [lia|done]).
  rewrite (bind_eq _ _ _ _ _ (db_master_eq _ _ _ Hm)). by rewrite last_snoc.
Qed.

Lemma bases_of_index d L M i cols : Table d L -> (forall l, l ∈ M -> l ∈ L) -> idx !! i = Some cols -> bases_of (qf i <$> M) d = Done (lk_p <$> M, d).
Proof.
  intros HT HM Hi. induction M as [|l M IH]; [done|]. cbn [fmap list_fmap bases_of]. rewrite (bind_eq _ _ _ _ _ (base_of_index d L l i cols HT (HM l (list_elem_of_here _ _)) Hi)).
  rewrite (bind_eq _ _ _ _ _ (IH (fun x Hx => HM x (list_elem_of_further _ _ _ Hx)))). done.
Qed.

Definition toward {A} (o : symbol_t) (l : list A) : list A := match o with ORD_DESC => reverse l | _ => l end.

Lemma toward_fmap {A B} (f : A -> B) o l : toward o (f <$> l) = f <$> toward o l.
Proof. destruct o; cbn; [done| |done]. by rewrite fmap_reverse. Qed.

Lemma t_query_eq d ti s rows kd r o : db_tables d !! ti = Some (mk_tbl s rows kd) -> range_ok r = true -> t_query ti r o d = Done (toward o (range_parts r rows).1.2.*2, d).
Proof.
  intros HT Hr. unfold t_query. rewrite (bind_eq _ _ _ _ _ (db_table_eq _ _ _ HT)). erewrite bind_eq by by apply verify_eq. cbn [tb_rows].
  by destruct (range_parts r rows) as [[a b] c], o.
Qed.

(** ** The table as a set of rows *)

Definition shows (A : gmap Z (list Value)) (L : list link) : Prop :=
  forall p vs, A !! p = Some vs <-> exists l, l ∈ L /\ lk_p l = p /\ take icol (lk_vs l) = vs.

Definition holds (d : Db) (A : gmap Z (list Value)) : Prop := exists L, Table d L /\ shows A L.

(** What a query for the keys made of [cols] gives: the rows in the range, each once, in the order of the keys. *)
Record answers (cols : list Z) (r : range_spec) (o : symbol_t) (A : gmap Z (list Value)) (ps : list Z) : Prop := {
  an_nodup : NoDup ps;
  an_rows : forall p, p ∈ ps <-> exists vs k, A !! p = Some vs /\ vkey cols vs = Some k /\ in_range r k = true;
  an_order : exists ks, Forall2 (fun p k => exists vs, A !! p = Some vs /\ vkey cols vs = Some k) (toward o ps) ks /\
    StronglySorted (fun a b => key_ltb b a = false) ks;
}.

Lemma lookup_visible vs c k : Forall2 fits (col_info_ S) vs -> col_info_ S !! c = Some k -> ci_indexed k = true -> take icol vs !! c = vs !! c.
Proof.
  intros Hf Hc Hx. apply lookup_take_lt. destruct (icol_spec _ _ _ _ _ _ Hcfg) as (k' & Hk' & _ & Hx' & Hlen). apply lookup_lt_Some in Hc as Hlt.
  destruct (decide (c = icol)) as [->|]; [congruence|lia].
Qed.

Lemma vkey_visible d L l cols : Table d L -> l ∈ L -> in_cols S cols -> vkey cols (take icol (lk_vs l)) = Some (kf cols l).
Proof.
  intros HT Hl Hc. etrans; [|exact (key_of d L l cols HT Hl Hc)]. destruct HT as [[_ Hg _] _ _]. rewrite Forall_forall in Hg.
  destruct (gd_row _ _ _ _ _ _ (Hg l Hl)) as (r & n & _ & _ & (_ & Hf & _) & Es & _). rewrite Es in Hf.
  induction Hc as [|c cols (k & Hk & Hx) Hc IH]; [done|]. unfold vkey in *. cbn [mapM]. rewrite (lookup_visible _ _ k) by done. by rewrite IH.
Qed.

Lemma toward_twice {A} o (l : list A) : toward o (toward o l) = l.
Proof. destruct o; cbn; [done|apply reverse_involutive|done]. Qed.

Lemma answers_links d A L M cols r o :
  Table d L -> shows A L -> in_cols S cols -> (forall l, l ∈ M <-> l ∈ L /\ in_range r (kf cols l) = true) ->
  StronglySorted (fun a b => key_ltb (kf cols b) (kf cols a) = false) M -> NoDup (lk_p <$> M) -> answers cols r o A (toward o (lk_p <$> M)).
Proof.
  intros HT HA Hc HM Hso Hnd. assert (forall x, x ∈ toward o (lk_p <$> M) <-> x ∈ lk_p <$> M) as Hto by (intros x; destruct o; cbn; [done|by rewrite elem_of_reverse|done]).
  assert (forall l, l ∈ L -> A !! lk_p l = Some (take icol (lk_vs l))) as HAl by (intros l Hl; apply HA; eauto).
  split.
  - destruct o; cbn; [done|by rewrite reverse_Permutation|done].
  - intros p. rewrite Hto, list_elem_of_fmap. split.
    + intros (l & -> & [Hl Hr]%HM). exists (take icol (lk_vs l)), (kf cols l). rewrite (vkey_visible d L) by done. auto.
    + intros (vs & k & (l & Hl & <- & <-)%HA & Hk & Hr). exists l. split; [done|]. apply HM. split; [done|].
      rewrite (vkey_visible d L) in Hk by done. by injection Hk as ->.
  - rewrite toward_twice. exists (kf cols <$> M). split.
    + apply Forall2_fmap, Forall_Forall2_diag, Forall_forall. intros l [Hl _]%HM. exists (take icol (lk_vs l)). rewrite (vkey_visible d L) by done. auto.
    + clear -Hso. induction Hso as [|l M Hs IH Hl]; cbn; constructor; [done|]. by rewrite Forall_fmap.
Qed.

Lemma t_query_holds d A r o : holds d A -> range_ok r = true -> exists ps, t_query t r o d = Done (ps, d) /\ answers (key_cols_id_ S) r o A ps.
Proof.
  intros (L & HT & HA) Hr. pose proof (tb_rep _ _ _ _ _ _ _ _ HT) as Hrep. destruct (tk_base _ _ _ _ _ _ _ _ (rp_tables _ _ _ _ _ _ _ _ Hrep)) as (rows & Ht & Hso & Hpm).
  rewrite (base_entries d L HT) in Hpm. destruct (range_links _ _ rows L r Hso Hpm Hr (links_nodup d L Hrep)) as (M & E & HM & Hs & Hnd).
  eexists. split; [by eapply t_query_eq|]. rewrite E. by apply (answers_links d A L); [..|apply Hcfg| | |].
Qed.

Lemma idx_query_holds d A i cols r o :
  holds d A -> idx !! i = Some cols -> range_ok r = true ->
  exists ps, idx_query t i r o d = Done (ps, d) /\ answers cols r (match r with RAll => ORD_ASC | _ => o end) A ps.
Proof.
  intros (L & HT & HA) Hi Hr. pose proof (tb_rep _ _ _ _ _ _ _ _ HT) as Hrep. destruct (indices_lookup _ _ _ _ _ _ Hcfg i cols Hi) as [ti Hti].
  destruct (tk_index _ _ _ _ _ _ _ _ (rp_tables _ _ _ _ _ _ _ _ Hrep) i ti cols Hti Hi) as (s & rows & _ & Ht & Hso & Hpm).
  rewrite (index_entries d L i cols HT Hi) in Hpm. destruct (range_links _ _ rows L r Hso Hpm Hr (links_nodup d L Hrep)) as (M & E & HM & Hs & Hnd).
  destruct (kind_of_table _ _ _ _ _ _ d _ Hrep) as [rows' HT']. set (o' := match r with RAll => ORD_ASC | _ => o end).
  exists (lk_p <$> toward o' M). split.
  - unfold idx_query. rewrite (bind_eq _ _ _ _ _ HT'). cbn [tb_kind]. rewrite (bind_eq _ _ _ _ _ (from_option_eq _ _ _ Hti)).
    rewrite (bind_eq _ _ _ _ _ (t_query_eq d ti s rows _ r o' Ht Hr)). rewrite E, toward_fmap. apply (bases_of_index d L _ i cols HT); [|done].
    intros l Hl. apply HM. by destruct o'; cbn in Hl; rewrite ?elem_of_reverse in Hl.
  - rewrite <- toward_fmap. apply (answers_links d A L); try done. by apply (idx_in_cols _ _ _ _ _ _ Hcfg i).
Qed.
End run.
