(* ===== verification/MemTableNew.v ===== *)
(** * The in-memory database: making an indexed table

    Whatever columns and indices a client gives, the schemas that [new_IndexedTable]
    makes of them are as the operations of the table need them. *)
From stdpp Require Import base tactics numbers list sorting gmap.
From S2P Require Import Prelude SparseInt OMap Command Snapshot MemRow MemRowSpec MemTable MemTableInv MemTableSpec MemTableRun.

(** ** Building a schema *)

Inductive sch_step := BColumn (name : list Z) (type : kind) (key : bool) | BIndex (name : list Z) (cols : list Z).

Definition build (steps : list sch_step) : M IndexedSchema () :=
  for_each steps (fun b =>
    match b with
    | BColumn name type key => _ ← on_schema (add_column name type key); mret ()
    | BIndex name cols => _ ← add_index name cols; mret ()
    end).

Lemma for_each_inv {St A} (f : A -> M St ()) (I : nat -> St -> Prop) (l : list A) k s s' :
  for_each l f s = Done (tt, s') -> I k s ->
  (forall i x s s', l !! i = Some x -> I (k + i)%nat s -> f x s = Done (tt, s') -> I (S (k + i)) s') -> I (k + length l)%nat s'.
Proof.
  revert k s. induction l as [|x l IH]; intros k s; cbn; [intros [= <-]; by rewrite Nat.add_0_r|]. intros ([] & s1 & E1 & E)%bind_done Hk Hf.
  rewrite <- Nat.add_succ_comm. apply (IH (S k) s1 E).
  - specialize (Hf 0%nat x s s1 eq_refl). rewrite Nat.add_0_r in Hf. by apply Hf.
  - intros i y s2 s3 Hy. specialize (Hf (S i) y s2 s3 Hy). by rewrite <- Nat.add_succ_comm in Hf.
Qed.

(** *** The marks of the indexed columns do not change the layout *)

Definition layout (c : column_info) : Z * list Z * kind * nat := (ci_id c, ci_name c, ci_type c, ci_pos c).

Lemma nstr_layout l l' : layout <$> l = layout <$> l' -> nstr l = nstr l'.
Proof.
  revert l'. induction l as [|c l IH]; intros [|c' l'] E; try done. injection E as E1 E2 E3 E4 E. unfold nstr in *. rewrite !filter_cons, E3.
  case_decide; cbn; by rewrite (IH l').
Qed.
Lemma fsize_layout l l' : layout <$> l = layout <$> l' -> fsize l = fsize l'.
Proof. revert l'. induction l as [|c l IH]; intros [|c' l'] E; try done. injection E as E1 E2 E3 E4 E. rewrite !fsize_cons, E3. by rewrite (IH l'). Qed.

Lemma schema_wf_layout s f : (forall l, layout <$> f l = layout <$> l) -> schema_wf s -> schema_wf (s <| col_info_ ::= f |>).
Proof.
  intros Hf [Hc Hv Hs [Hn Hnd] Hi Hk Hh]. pose proof (Hf (col_info_ s)) as E. apply (f_equal length) in E as El. rewrite !length_fmap in El.
  assert (ci_name <$> f (col_info_ s) = ci_name <$> col_info_ s) as En by (apply (f_equal (fmap (fun x => x.1.1.2))) in E; by rewrite <- !list_fmap_compose in E).
  assert (ci_id <$> f (col_info_ s) = ci_id <$> col_info_ s) as Ei by (apply (f_equal (fmap (fun x => x.1.1.1))) in E; by rewrite <- !list_fmap_compose in E).
  split; cbn; rewrite ?En, ?Ei, ?El; try done; [|by rewrite (nstr_layout _ _ E)|by rewrite (fsize_layout _ _ E)].
  intros k c Hk'. assert ((layout <$> col_info_ s) !! k = Some (layout c)) as (c0 & E0 & Hc0)%list_lookup_fmap_Some by (by rewrite <- E, list_lookup_fmap, Hk').
  injection E0 as E1 E2 E3 E4. destruct (Hc k c0 Hc0) as (A & B & C).
  assert (layout <$> take k (f (col_info_ s)) = layout <$> take k (col_info_ s)) as Et by (by rewrite !fmap_take, E).
  unfold col_at. rewrite E1, E3, E4, (nstr_layout _ _ Et), (fsize_layout _ _ Et), length_take, El, <- length_take. done.
Qed.

(** ** What is built *)

Definition indexed_in (s : Schema) (c : Z) : Prop := 0 <= c /\ exists k, col_info_ s !! Z.to_nat c = Some k /\ ci_indexed k = true.

Record built (s : IndexedSchema) : Prop := {
  bu_wf : schema_wf (is_schema s);
  bu_hidden : hidden_fixed_ (is_schema s) = 0%nat /\ hidden_var_ (is_schema s) = 0%nat /\ frozen_ (is_schema s) = false;
  bu_keys : Forall (indexed_in (is_schema s)) (key_cols_id_ (is_schema s));
  bu_idx : forall i cols, all_idx_ s !! i = Some cols -> NoDup cols /\ Forall (indexed_in (is_schema s)) cols;
}.

Lemma built_new : built new_IndexedSchema.
Proof. split; try done. split; try done. by split; [|constructor]. Qed.

Lemma indexed_in_more s s' c : (forall k i, col_info_ s !! k = Some i -> exists i', col_info_ s' !! k = Some i' /\ (ci_indexed i = true -> ci_indexed i' = true)) ->
  indexed_in s c -> indexed_in s' c.
Proof. intros Hs (H0 & k & Hk & Hx). split; [done|]. destruct (Hs _ _ Hk) as (k' & Hk' & Hx'). eauto. Qed.

Lemma with_column_more c key s k i : col_info_ s !! k = Some i -> exists i', col_info_ (with_column c key s) !! k = Some i' /\ (ci_indexed i = true -> ci_indexed i' = true).
Proof. intros Hk. exists i. split; [|done]. cbn. rewrite lookup_app_l; [done|]. by eapply lookup_lt_Some. Qed.

Lemma add_column_built name type key s a s' : built s -> on_schema (add_column name type key) s = Done (a, s') -> built s'.
Proof.
  intros [Hwf Hh Hk Hi] Hrun. unfold on_schema in Hrun. destruct (add_column name type key (is_schema s)) as [[a' c']| |] eqn:E; try done. injection Hrun as -> <-.
  apply bind_done in E as (? & ? & [= <- <-] & E). apply bind_done in E as ([] & s2 & Hv & E). apply (preserves_verify _ (fun x => x = is_schema s)) in Hv as ->; [|done].
  apply (do_add_column_done _ _ _ _ _ _ Hwf) in E as [(_ & -> & _)|(c & _ & _ & _ & -> & Hc & Hn & Hx)]; [by destruct s|].
  pose proof (with_column_more c key (is_schema s)) as Hmore. split; cbn [is_schema set_field all_idx_].
  - by apply with_column_wf.
  - done.
  - assert (Forall (indexed_in (with_column c key (is_schema s))) (key_cols_id_ (is_schema s))) as Hold
      by (eapply Forall_impl; [exact Hk|]; intros z; by apply indexed_in_more).
    cbn [key_cols_id_ with_column]. destruct key; [|done]. apply Forall_app. split; [done|]. repeat constructor; destruct Hc as (-> & _); [lia|].
    exists c. split; [|done]. cbn. by rewrite Nat2Z.id, lookup_app_r, Nat.sub_diag by done.
  - intros i cols Hc'. destruct (Hi i cols Hc') as [A B]. split; [done|]. eapply Forall_impl; [exact B|]. intros z. by apply indexed_in_more.
Qed.

(** Marking a column. *)
Definition mark_col (z : Z) : list column_info -> list column_info := alter (fun i => i <| ci_indexed := true |>) (Z.to_nat z).

Lemma mark_col_more z l k i : l !! k = Some i -> exists i', mark_col z l !! k = Some i' /\ (ci_indexed i = true -> ci_indexed i' = true).
Proof.
  intros Hk. unfold mark_col. destruct (decide (k = Z.to_nat z)) as [->|Hne].
  - rewrite list_lookup_alter_eq, Hk. cbn. eauto.
  - rewrite list_lookup_alter_ne by done. eauto.
Qed.

Lemma mark_col_layout z l : layout <$> mark_col z l = layout <$> l.
Proof.
  apply list_eq. intros k. rewrite !list_lookup_fmap. unfold mark_col. destruct (decide (k = Z.to_nat z)) as [->|Hne].
  - rewrite list_lookup_alter_eq. by destruct (l !! Z.to_nat z).
  - by rewrite list_lookup_alter_ne.
Qed.

Lemma mark_built z s : built s -> built (s <| is_schema ::= fun c => c <| col_info_ ::= mark_col z |> |>).
Proof.
  intros [Hwf Hh Hk Hi]. assert (forall c, indexed_in (is_schema s) c -> indexed_in ((is_schema s) <| col_info_ ::= mark_col z |>) c) as Hmore.
  { intros c. apply indexed_in_more. intros k i. cbn. apply mark_col_more. }
  split; cbn [is_schema set_field all_idx_].
  - apply schema_wf_layout; [apply mark_col_layout|done].
  - done.
  - eapply Forall_impl; [exact Hk|apply Hmore].
  - intros i cols Hc. destruct (Hi i cols Hc) as [A B]. split; [done|]. eapply Forall_impl; [exact B|apply Hmore].
Qed.

Lemma for_each_verify {St A} (l : list A) (P : A -> bool) (s s' : St) : for_each l (fun x => verify (P x)) s = Done (tt, s') -> s' = s /\ Forall (fun x => P x = true) l.
Proof.
  revert s. induction l as [|x l IH]; intros s; cbn; [intros [= <-]; by split|]. intros ([] & s1 & E1 & E)%bind_done. unfold verify in E1.
  destruct (P x) eqn:EP; [|done]. injection E1 as <-. apply IH in E as [-> HF]. split; [done|by constructor].
Qed.

Lemma add_index_built name idx s a s' : built s -> add_index name idx s = Done (a, s') -> built s'.
Proof.
  intros Hb Hrun. apply bind_done in Hrun as ([] & s1 & Hsc & Hrun). apply bind_done in Hsc as (? & ? & [= <- <-] & Hsc).
  apply bind_done in Hsc as ([] & s2 & Hv & Hsc). unfold verify in Hv. case_bool_decide as Hnd; [|done]. injection Hv as <-.
  apply for_each_verify in Hsc as [-> Hin]. apply bind_done in Hrun as (? & ? & [= <- <-] & Hrun). destruct (existsb _ _); [by injection Hrun as _ <-|].
  apply bind_done in Hrun as ([] & s3 & Hmark & Hrun). injection Hrun as _ <-.
  apply (for_each_inv _ (fun i s' => built s' /\ all_idx_ s' = all_idx_ s /\ length (col_info_ (is_schema s')) = length (col_info_ (is_schema s)) /\
    Forall (indexed_in (is_schema s')) (take i idx)) idx 0) in Hmark as (Hb3 & Eidx & _ & Hall).
  - destruct Hb3 as [A B C D]. rewrite take_ge in Hall by (cbn; lia). split; try done. cbn [all_idx_ set_field]. rewrite Eidx. intros i cols Hi.
    apply lookup_snoc_Some in Hi as [[_ Hi]|[_ <-]]; [|done]. apply (D i). by rewrite Eidx.
  - by split_and!.
  - intros i z s1 s2 Hz (Hb1 & E1 & El & Hall) [= <-]. split; [by apply mark_built|]. cbn [Nat.add] in *. split; [exact E1|].
    cbn [is_schema set_field col_info_]. split; [unfold mark_col; by rewrite length_alter|]. rewrite (take_S_r _ _ _ Hz). apply Forall_app. split.
    + eapply Forall_impl; [exact Hall|]. intros c. apply indexed_in_more. intros k j. cbn. apply mark_col_more.
    + rewrite Forall_forall in Hin. pose proof (Hin z (list_elem_of_lookup_2 _ _ _ Hz)) as [H0%Z.leb_le H1%Z.ltb_lt]%andb_true_iff. cbn in H1.
      repeat constructor; [lia|]. cbn. destruct (lookup_lt_is_Some_2 (col_info_ (is_schema s1)) (Z.to_nat z)) as [k Hk]; [unfold columns_count in H1; lia|].
      exists (k <| ci_indexed := true |>). by rewrite list_lookup_alter_eq, Hk.
Qed.

Lemma build_built steps s : build steps new_IndexedSchema = Done (tt, s) -> built s.
Proof.
  intros Hrun. apply (for_each_inv _ (fun _ => built) steps 0) in Hrun; [done|apply built_new|]. intros _ b s1 s2 _ Hb Hs.
  destruct b as [name type key|name cols]; apply bind_done in Hs as (a & s3 & Hs & [= <-]); [by eapply add_column_built|by eapply add_index_built].
Qed.

(** ** Freezing it *)

Record frozen_ok (s : IndexedSchema) : Prop := {
  fo_wf : schema_wf (is_schema s);
  fo_keys : Forall (indexed_in (is_schema s)) (key_cols_id_ (is_schema s));
  fo_icol : columns_count (is_schema s) = Z.to_nat (idx_col_ s) /\
    exists c, drop (Z.to_nat (idx_col_ s)) (col_info_ (is_schema s)) = [c] /\ ci_type c = I64 /\ ci_indexed c = false;
  fo_idx : forall i cols, all_idx_ s !! i = Some cols -> NoDup cols /\ Forall (indexed_in (is_schema s)) cols;
}.

Lemma ifreeze_ok s s' : built s -> ifreeze s = Done (tt, s') -> frozen_ok s' /\ all_idx_ s' = all_idx_ s /\ key_cols_id_ (is_schema s') = key_cols_id_ (is_schema s).
Proof.
  intros [Hwf (Hh1 & Hh2 & Hfr) Hk Hi] Hrun. apply bind_done in Hrun as (? & ? & [= <- <-] & Hrun). rewrite Hfr in Hrun. cbn [negb when] in Hrun.
  apply bind_done in Hrun as ([] & s1 & Hrun & Hfz). apply bind_done in Hrun as (a & s2 & Hadd & Hrun). apply bind_done in Hrun as ([] & s3 & [= <-] & Hv).
  unfold verify in Hv. destruct (Z.leb_spec 0 a) as [Ha|]; [|done]. injection Hv as <-.
  unfold on_schema in Hadd. destruct (add_hidden_column index_name I64 (is_schema s)) as [[a' c']| |] eqn:E; try done. injection Hadd as -> <-.
  apply bind_done in E as (? & ? & [= <- <-] & E). apply bind_done in E as ([] & x & Hx & E). apply (preserves_verify _ (fun x => x = is_schema s)) in Hx as ->; [|done].
  apply bind_done in E as (b & y & E & E2). apply bind_done in E2 as ([] & z & [= <-] & [= -> <-]).
  apply (do_add_column_done _ _ _ _ _ _ Hwf) in E as [(-> & _)|(c & Ety & _ & <- & -> & Hc & Hn & Hx)]; [lia|]. cbn in Hfz. injection Hfz as <-.
  pose proof (with_column_more c false (is_schema s)) as Hmore. destruct (with_column_wf c false _ Hwf Hc Hn) as [A1 A2 A3 A4 A5 A6 A7].
  destruct Hc as (Hid & _). split; [split|done].
  - split; try done. cbn. rewrite length_app, Hh1, Hh2. cbn. lia.
  - eapply Forall_impl; [exact Hk|]. intros z. by apply indexed_in_more.
  - cbn. rewrite Hid, Nat2Z.id, drop_app_length. split; [|by exists c]. unfold columns_count. cbn. rewrite length_app, Hh1, Hh2. cbn. lia.
  - intros i cols Hc. destruct (Hi i cols Hc) as [B1 B2]. split; [done|]. eapply Forall_impl; [exact B2|]. intros z. by apply indexed_in_more.
Qed.

(** ** The schemas of the indices *)

(** A column of an index is that of the table, as a column of the key. *)
Definition col_of (S : Schema) (c : Z) (k : column_info) : Prop :=
  exists kS, col_info_ S !! Z.to_nat c = Some kS /\ ci_type k = ci_type kS /\ ci_name k = ci_name kS /\ ci_indexed k = true.

Lemma names_differ S c c' k k' :
  schema_wf S -> 0 <= c -> 0 <= c' -> col_info_ S !! Z.to_nat c = Some k -> col_info_ S !! Z.to_nat c' = Some k' -> ci_name k = ci_name k' -> c = c'.
Proof.
  intros Hwf H0 H1 Hk Hk' E. assert (Z.to_nat c = Z.to_nat c'); [|lia].
  eapply (NoDup_lookup (ci_name <$> col_info_ S)); [apply (sw_names S Hwf)|by rewrite list_lookup_fmap, Hk|by rewrite list_lookup_fmap, Hk', E].
Qed.

(** The columns of an index are added one by one; none is there already. *)
Lemma index_columns S cols s' :
  schema_wf S -> NoDup cols -> Forall (indexed_in S) cols ->
  for_each cols (fun col_id => col_info ← from_option (col_info_ S !! Z.to_nat col_id); _ ← add_column (ci_name col_info) (ci_type col_info) true; mret ()) new_Schema = Done (tt, s') ->
  schema_wf s' /\ hidden_fixed_ s' = 0%nat /\ hidden_var_ s' = 0%nat /\ Forall2 (col_of S) cols (col_info_ s') /\ key_cols_id_ s' = Z.of_nat <$> seq 0 (length cols).
Proof.
  intros Hwf Hnd Hin Hrun. rewrite Forall_forall in Hin.
  apply (for_each_inv _ (fun i s => schema_wf s /\ hidden_fixed_ s = 0%nat /\ hidden_var_ s = 0%nat /\ Forall2 (col_of S) (take i cols) (col_info_ s) /\
    key_cols_id_ s = Z.of_nat <$> seq 0 i) cols 0) in Hrun; [by rewrite take_ge in Hrun by (cbn; lia)| |].
  { split; [split; try done; by split; [|constructor]|]. by split_and!. }
  intros i z s1 s2 Hz (Hwf1 & Hh1 & Hh2 & Hcols & Hk) Hstep. cbn [Nat.add] in *. apply bind_done in Hstep as (kS & s3 & Hs & Hstep).
  destruct (col_info_ S !! Z.to_nat z) as [kS'|] eqn:EkS; [|done]. injection Hs as <- <-. apply bind_done in Hstep as (a & s4 & Hadd & [= <-]).
  apply bind_done in Hadd as (? & ? & [= <- <-] & Hadd). apply bind_done in Hadd as ([] & s5 & Hv & Hadd). apply (preserves_verify _ (fun x => x = s1)) in Hv as ->; [|done].
  apply Forall2_length in Hcols as Hlen. rewrite length_take_le in Hlen by (apply Nat.lt_le_incl; by eapply lookup_lt_Some).
  apply (do_add_column_done _ _ _ _ _ _ Hwf1) in Hadd as [(_ & _ & Hdup)|(c & Ety & Ena & _ & -> & Hc & Hn & Hx)].
  - exfalso. rewrite (proj1 (sw_names s1 Hwf1)) in Hdup. apply list_elem_of_fmap in Hdup as (k' & Ek' & (j & Hj)%list_elem_of_lookup_1).
    destruct (Forall2_lookup_r _ _ _ _ _ Hcols Hj) as (z' & Hz' & kS2 & HkS2 & _ & En & _). apply lookup_take_Some in Hz' as [Hz' Hlt].
    assert (z = z') as <- by (eapply (names_differ S z z' kS' kS2 Hwf); [by apply Hin; eapply list_elem_of_lookup_2|by apply Hin; eapply list_elem_of_lookup_2|done|done|congruence]).
    pose proof (NoDup_lookup _ _ _ _ Hnd Hz Hz'). lia.
  - split_and!; [by apply with_column_wf|done|done| |].
    + cbn. rewrite (take_S_r _ _ _ Hz). apply Forall2_app; [done|]. constructor; [|by constructor]. by exists kS'.
    + cbn [key_cols_id_ with_column]. destruct Hc as (-> & _). rewrite Hk, seq_S, fmap_app, <- Hlen. done.
Qed.

(** What [cfg_ok] says of the schema of an index. *)
Definition index_ok (S : Schema) (cols : list Z) (s : Schema) : Prop :=
  schema_wf s /\ hidden_fixed_ s = 0%nat /\ hidden_var_ s = 0%nat /\
  Forall2 (fun c k => exists kS, col_info_ S !! Z.to_nat c = Some kS /\ ci_type k = ci_type kS /\ ci_indexed k = true) cols (take (length cols) (col_info_ s)) /\
  (exists k, drop (length cols) (col_info_ s) = [k] /\ ci_type k = I64) /\ key_cols_id_ s = Z.of_nat <$> seq 0 (length cols).

Lemma index_schema_ok S cols s :
  schema_wf S -> NoDup cols -> Forall (indexed_in S) cols -> (index_schema S cols;; freeze) new_Schema = Done (tt, s) -> index_ok S cols s.
Proof.
  intros Hwf Hnd Hin Hrun. apply bind_done in Hrun as ([] & s1 & Hrun & [= <-]). apply bind_done in Hrun as ([] & s2 & Hcols & Hrun).
  destruct (index_columns S cols s2 Hwf Hnd Hin Hcols) as (Hwf2 & Hh1 & Hh2 & HF & Hk). apply bind_done in Hrun as (a & s3 & Hadd & Hv).
  unfold verify in Hv. destruct (Z.leb_spec 0 a) as [Ha|]; [|done]. injection Hv as <-.
  apply bind_done in Hadd as (? & ? & [= <- <-] & Hadd). apply bind_done in Hadd as ([] & s5 & Hv & Hadd). apply (preserves_verify _ (fun x => x = s2)) in Hv as ->; [|done].
  apply (do_add_column_done _ _ _ _ _ _ Hwf2) in Hadd as [(-> & _)|(c & Ety & Ena & _ & -> & Hc & Hn & Hx)]; [lia|].
  apply Forall2_length in HF as Hlen. destruct (with_column_wf c false _ Hwf2 Hc Hn) as [A1 A2 A3 A4 A5 A6 A7].
  split; [by split|]. split; [done|]. split; [done|]. cbn. rewrite Hlen, take_app_length, drop_app_length. split_and!; [|by exists c|by rewrite Hk, Hlen].
  eapply Forall2_impl; [exact HF|]. intros z k (kS & E1 & E2 & _ & E4). eauto.
Qed.

(** ** The tables *)

Lemma add_index_tables_spec S idx d indices d' :
  schema_wf S -> (forall i cols, idx !! i = Some cols -> NoDup cols /\ Forall (indexed_in S) cols) -> add_index_tables S idx d = Done (indices, d') ->
  exists schemas, indices = (fun i => db_next d + Z.of_nat i) <$> seq 0 (length idx) /\ db_next d' = db_next d + Z.of_nat (length idx) /\
    Forall2 (index_ok S) idx schemas /\ (forall i ti, indices !! i = Some ti -> exists s, schemas !! i = Some s /\ db_tables d' !! ti = Some (mk_tbl s [] Sorted)) /\
    (forall x, x < db_next d -> db_tables d' !! x = db_tables d !! x).
Proof.
  intros Hwf. revert d indices. induction idx as [|cols idx IH]; intros d indices Hidx Hrun; cbn in Hrun.
  - injection Hrun as <- <-. exists []. split_and!; try done; cbn; lia.
  - apply bind_done in Hrun as (s & d1 & Hs & Hrun). destruct ((index_schema S cols;; freeze) new_Schema) as [[[] s0]| |] eqn:Es; try done. injection Hs as <- <-.
    destruct (Hidx 0%nat cols eq_refl) as [Hnd Hin]. pose proof (index_schema_ok S cols s0 Hwf Hnd Hin Es) as Hok.
    apply bind_done in Hrun as (t0 & d2 & [= <- <-] & Hrun). apply bind_done in Hrun as (ts & d3 & Hrun & [= <- <-]).
    destruct (IH _ _ (fun i cols' Hi => Hidx (Datatypes.S i) cols' Hi) Hrun) as (schemas & -> & En & HF & HT & Hfr). cbn [db_next db_tables set_field] in *.
    exists (s0 :: schemas). split_and!.
    + cbn [length seq fmap list_fmap]. f_equal; [lia|]. rewrite <- seq_shift. rewrite <- list_fmap_compose. apply list_fmap_ext. intros i x _. cbn. lia.
    + rewrite En. cbn [length]. lia.
    + by constructor.
    + intros [|i] ti Hi; cbn [lookup list_lookup] in Hi.
      * injection Hi as <-. exists s0. split; [done|]. rewrite Hfr by lia. apply lookup_insert_eq.
      * by apply HT.
    + intros x Hx. rewrite Hfr by lia. by rewrite lookup_insert_ne by lia.
Qed.

(** A new table is empty, and in order. *)
Lemma new_table_holds steps sch d t d' :
  build steps new_IndexedSchema = Done (tt, sch) -> 0 < db_next d -> new_IndexedTable sch d = Done (t, d') ->
  exists S icol indices schemas, cfg_ok t S icol (all_idx_ sch) indices schemas /\ holds t S icol (all_idx_ sch) indices schemas d' ∅ /\
    db_next d' = db_next d + Z.of_nat (length (all_idx_ sch)) + 1 /\ (exists rows, db_tables d' !! t = Some (mk_tbl S rows (Indexed icol (all_idx_ sch) indices))).
Proof.
  intros Hb%build_built Hd Hrun. apply bind_done in Hrun as (sch' & d1 & Hf & Hrun). destruct (ifreeze sch) as [[[] x]| |] eqn:Ef; try done. injection Hf as <- <-.
  destruct (ifreeze_ok sch x Hb Ef) as ([Hwf Hk Hic Hi] & Eidx & _). rewrite <- Eidx. apply bind_done in Hrun as (indices & d2 & Hrun & [= <- <-]).
  destruct (add_index_tables_spec _ _ _ _ _ Hwf Hi Hrun) as (schemas & Eind & En & HF & HT & _).
  assert (forall i ti, indices !! i = Some ti -> ti < db_next d2) as Hlt.
  { intros i ti Hti. rewrite Eind in Hti. apply list_lookup_fmap_Some in Hti as (j & -> & [-> Hj]%lookup_seq). lia. }
  assert (length indices = length (all_idx_ x)) as Hlen by (by rewrite Eind, length_fmap, length_seq).
  exists (is_schema x), (Z.to_nat (idx_col_ x)), indices, schemas.
  assert (cfg_ok (db_next d2) (is_schema x) (Z.to_nat (idx_col_ x)) (all_idx_ x) indices schemas) as Hcfg.
  { split; try done.
    - apply (Forall_impl _ _ _ Hk). by intros z [_ ?].
    - split; [|intros (i & Hti)%list_elem_of_lookup_1; apply Hlt in Hti; lia].
      rewrite Eind. apply NoDup_fmap_2; [intros i j; lia|apply NoDup_seq].
    - intros i cols Hc. by apply (Hi i).
    - intros i cols Hc. destruct (Forall2_lookup_l _ _ _ _ _ HF Hc) as (s & Hs & Hok). by exists s. }
  split; [done|]. split; [|split; [cbn; lia|exists []; apply lookup_insert_eq]]. exists []. split; [|intros p vs; rewrite lookup_empty; split; [done|by intros (l & Hl%elem_of_nil & _)]].
  split; [|done..]. split; [split|done|].
  - exists []. cbn. rewrite lookup_insert_eq. split; [done|]. split; [constructor|done].
  - intros i ti cols Hti Hc. destruct (HT i ti Hti) as (s & Hs & HTi). exists s, []. cbn. rewrite lookup_insert_ne by (apply Hlt in Hti; lia).
    split; [done|]. split; [done|]. split; [constructor|done].
  - split; try done; [constructor..|cbn; lia].
Qed.
