(* ===== verification/MemTableThm.v ===== *)
(** * The in-memory database: the operations on an indexed table refine those on a set of rows *)
From stdpp Require Import base tactics numbers list sorting gmap.
From S2P Require Import Prelude SparseInt OMap Command Snapshot SnapshotRef MemRow MemRowSpec MemTable MemTableInv MemTableSpec MemTableRun MemTableNew.

(** What a client does: rows are named by their addresses. *)
Inductive t_op :=
  | OInsert (vs : list Value)
  | OUpdate (p : Z) (col : nat) (v : Value)
  | ORemove (p : Z)
  | ORemoveKey (k : list keypart)
  | ORemoveIndex (i : nat) (r : range_spec (K := list keypart)) (o : symbol_t).

Definition run_top (t : Z) (o : t_op) : M Db () :=
  match o with
  | OInsert vs => _ ← insert_values t vs; mret ()
  | OUpdate p col v => row_update p col v
  | ORemove p => remove_row t p true
  | ORemoveKey k => remove_key t k
  | ORemoveIndex i r o => remove_by_index t i r o
  end.

(** The rows that a client must name, and the values that it may write. *)
Definition allowed (S : Schema) (idx : list (list Z)) (A : gmap Z (list Value)) (o : t_op) : Prop :=
  match o with
  | OInsert vs => row_fits S vs
  | OUpdate p col v => is_Some (A !! p) /\ exists c, visible_columns S !! col = Some c /\ may_write S c v
  | ORemove p => is_Some (A !! p)
  | ORemoveKey _ => True
  | ORemoveIndex i r _ => is_Some (idx !! i) /\ range_ok r = true
  end.

Definition key_in (cols : list Z) (r : range_spec) (vs : list Value) : bool :=
  match vkey cols vs with Some k => in_range r k | None => false end.

(** The rows afterwards; a new row gets the next address. *)
Definition spec_top (S : Schema) (idx : list (list Z)) (next : Z) (A : gmap Z (list Value)) (o : t_op) : gmap Z (list Value) :=
  match o with
  | OInsert vs => <[next := vs]> A
  | OUpdate p col v => alter (<[col := v]>) p A
  | ORemove p => delete p A
  | ORemoveKey k => filter (fun x => key_in (key_cols_id_ S) (REq k) x.2 = false) A
  | ORemoveIndex i r _ => filter (fun x => key_in (default [] (idx !! i)) r x.2 = false) A
  end.

Section refine.
Context (t : Z) (S : Schema) (icol : nat) (idx : list (list Z)) (indices : list Z) (schemas : list Schema).
Context (Hcfg : cfg_ok t S icol idx indices schemas).
Abbreviation Table := (Table t S icol idx indices schemas).
Abbreviation holds := (holds t S icol idx indices schemas).
Abbreviation shows := (shows icol).

Lemma table_nodup d L : Table d L -> NoDup (lk_p <$> L).
Proof. intros HT. eapply links_nodup, tb_rep, HT. Qed.

(** The rows of [A] are those of the links, which differ in their addresses. *)
Lemma shows_gone A A' L L' (P : Z -> Prop) :
  shows A L -> (forall l, l ∈ L' <-> l ∈ L /\ ~ P (lk_p l)) -> (forall p vs, A' !! p = Some vs <-> A !! p = Some vs /\ ~ P p) -> shows A' L'.
Proof. intros HA HL HA' p vs. rewrite HA', (HA p vs). setoid_rewrite HL. naive_solver. Qed.

Lemma shows_insert A L l vs : shows A L -> NoDup (lk_p <$> (l :: L)) -> take icol (lk_vs l) = vs -> shows (<[lk_p l := vs]> A) (l :: L).
Proof.
  intros HA [Hl _]%NoDup_cons <- p vs'. rewrite lookup_insert_Some, (HA p vs'). setoid_rewrite elem_of_cons. split.
  - intros [[<- <-]|[Hne (l' & Hl' & <- & <-)]]; eauto.
  - intros (l' & [->|Hl'] & <- & <-); [by left|]. right. split; [|eauto]. intros E. apply Hl. rewrite E. apply list_elem_of_fmap. eauto.
Qed.

Lemma shows_pick A L p : shows A L -> is_Some (A !! p) -> exists l, l ∈ L /\ lk_p l = p.
Proof. intros HA [vs (l & Hl & E & _)%HA]. eauto. Qed.

Lemma shows_perm A L L' : L ≡ₚ L' -> shows A L -> shows A L'.
Proof. intros HL HA p vs. rewrite (HA p vs). by setoid_rewrite HL. Qed.

Lemma shows_delete A L l : shows A (l :: L) -> NoDup (lk_p <$> (l :: L)) -> shows (delete (lk_p l) A) L.
Proof.
  intros HA [Hl _]%NoDup_cons. apply (shows_gone A _ (l :: L) L (eq (lk_p l)) HA).
  - intros l'. rewrite elem_of_cons. split; [|naive_solver]. intros Hl'. split; [by right|]. intros E. apply Hl. rewrite E. apply list_elem_of_fmap. eauto.
  - intros p vs. rewrite lookup_delete_Some. naive_solver.
Qed.

(** The rows of a query go. *)
Lemma removed_holds d A L ps rm cols r o :
  (forall d l L, Table d (l :: L) -> exists d', rm (lk_p l) d = Done (tt, d') /\ Table d' L /\ db_next d' = db_next d) ->
  Table d L -> shows A L -> answers cols r o A ps ->
  exists d', for_each ps rm d = Done (tt, d') /\ holds d' (filter (fun x => key_in cols r x.2 = false) A) /\ db_next d' = db_next d.
Proof.
  intros Hrm HT HA [Hnd Hps _]. destruct (remove_all_table _ _ _ _ _ _ rm d L ps Hrm HT Hnd) as (d' & L' & E & HT' & Hn & HL').
  { intros p (vs & k & (l & Hl & <- & _)%HA & _)%Hps. apply list_elem_of_fmap. eauto. }
  exists d'. split; [done|]. split; [|done]. exists L'. split; [done|]. apply (shows_gone A _ L L' (fun p => p ∈ ps)); [done..|].
  intros p vs. rewrite map_lookup_filter_Some. cbn. rewrite Hps. unfold key_in. split; intros [Hp Hk]; split; try done.
  - intros (vs' & k & Hp' & Hk' & Hr). rewrite Hp in Hp'. injection Hp' as <-. rewrite Hk' in Hk. congruence.
  - destruct (vkey cols vs) as [k|] eqn:Ek; [|done]. destruct (in_range r k) eqn:Er; [|done]. destruct Hk. eauto.
Qed.

Lemma refine_step d A o :
  holds d A -> allowed S idx A o -> Z.succ (db_next d) < 2 ^ 63 ->
  exists d', run_top t o d = Done (tt, d') /\ holds d' (spec_top S idx (db_next d) A o) /\ db_next d' <= db_next d + Z.of_nat (length idx) + 2.
Proof.
  intros Hh Ho Hb. pose proof Hh as (L & HT & HA). destruct o as [vs|p col v|p|k|i r o]; cbn [run_top allowed spec_top] in *.
  - destruct (insert_table _ _ _ _ _ _ Hcfg d L vs HT Ho Hb) as (d' & l & E & HT' & Hp & Hv & Hn). exists d'. rewrite (bind_eq _ _ _ _ _ E). split; [done|]. split; [|done].
    exists (l :: L). split; [done|]. rewrite <- Hp. apply shows_insert; [done| |done]. by apply (table_nodup d').
  - destruct Ho as [Hp (c & Hc & Hw)]. destruct (shows_pick A L p HA Hp) as (l & Hl & <-). destruct (Table_pick _ _ _ _ _ _ d L l HT Hl) as (L' & EL & HT').
    apply lookup_take_Some in Hc as [Hc Hlt]. destruct (cf_icol _ _ _ _ _ _ Hcfg) as (Hcc & _). rewrite Hcc in Hlt.
    destruct (update_table _ _ _ _ _ _ Hcfg d l L' col c v HT' Hc ltac:(lia) Hw) as (d' & qs & E & HT'' & Hn). exists d'. split; [done|]. split; [|lia].
    eexists. split; [exact HT''|]. pose proof (table_nodup _ _ HT'') as Hnd. apply (shows_perm _ _ _ EL) in HA.
    assert (A !! lk_p l = Some (take icol (lk_vs l))) as HAl by (apply HA; exists l; split; [by left|done]).
    assert (alter (<[col := v]>) (lk_p l) A = <[lk_p l := <[col := v]> (take icol (lk_vs l))]> (delete (lk_p l) A)) as ->.
    { rewrite insert_delete_eq. apply map_eq. intros x. destruct (decide (x = lk_p l)) as [->|]; [by rewrite lookup_alter_eq, HAl, lookup_insert_eq|]. by rewrite lookup_alter_ne, lookup_insert_ne. }
    refine (shows_insert (delete (lk_p l) A) L' (l <| lk_qs := qs |> <| lk_vs ::= <[col := v]> |>) (<[col := v]> (take icol (lk_vs l))) _ Hnd _); [by apply shows_delete|]. cbn. by rewrite take_insert_lt by lia.
  - destruct (shows_pick A L p HA Ho) as (l & Hl & <-). destruct (Table_pick _ _ _ _ _ _ d L l HT Hl) as (L' & EL & HT').
    destruct (remove_row_table _ _ _ _ _ _ Hcfg d l L' HT') as (d' & E & HT'' & Hn). exists d'. split; [done|]. split; [|lia]. exists L'. split; [done|].
    apply shows_delete; [by apply (shows_perm _ L)|]. by apply (table_nodup d).
  - destruct (t_query_holds _ _ _ _ _ _ Hcfg d A (REq k) ORD_ASC Hh eq_refl) as (ps & E & Hans).
    destruct (tk_base _ _ _ _ _ _ _ _ (rp_tables _ _ _ _ _ _ _ _ (tb_rep _ _ _ _ _ _ _ _ HT))) as (rows & Ht & _).
    rewrite (t_query_eq d t S rows _ (REq k) ORD_ASC Ht eq_refl) in E. injection E as <-.
    destruct (removed_holds d A L _ (fun p => remove_at t p true) _ _ _ (remove_at_table _ _ _ _ _ _ Hcfg) HT HA Hans) as (d' & E & Hh' & Hn). exists d'. split; [|split; [exact Hh'|lia]].
    unfold remove_key. rewrite (bind_eq _ _ _ _ _ (db_table_eq _ _ _ Ht)). exact E.
  - destruct Ho as [[cols Hi] Hr]. destruct (idx_query_holds _ _ _ _ _ _ Hcfg d A i cols r o Hh Hi Hr) as (ps & E & Hans). rewrite Hi. cbn [default].
    destruct (removed_holds d A L _ (fun p => remove_row t p true) _ _ _ (remove_row_table _ _ _ _ _ _ Hcfg) HT HA Hans) as (d' & E' & Hh' & Hn). exists d'. split; [|split; [exact Hh'|lia]].
    unfold remove_by_index. by rewrite (bind_eq _ _ _ _ _ E).
Qed.
End refine.

(** ** The in-memory database: an indexed table is a set of rows with its indices *)

(** The states that a client reaches in [n] operations, with the rows it has then. *)
Inductive table_reach (t : Z) (S : Schema) (idx : list (list Z)) (d1 : Db) : nat -> Db -> gmap Z (list Value) -> Prop :=
  | reach_new : table_reach t S idx d1 0 d1 ∅
  | reach_op n d A o d' : table_reach t S idx d1 n d A -> allowed S idx A o -> run_top t o d = Done (tt, d') ->
      table_reach t S idx d1 (Datatypes.S n) d' (spec_top S idx (db_next d) A o).

Section reach.
Context (t : Z) (S : Schema) (icol : nat) (idx : list (list Z)) (indices : list Z) (schemas : list Schema).
Context (Hcfg : cfg_ok t S icol idx indices schemas).
Abbreviation holds := (holds t S icol idx indices schemas).

Lemma reach_holds d1 n d A :
  holds d1 ∅ -> table_reach t S idx d1 n d A -> db_next d1 + Z.of_nat n * (Z.of_nat (length idx) + 2) < 2 ^ 63 ->
  holds d A /\ db_next d <= db_next d1 + Z.of_nat n * (Z.of_nat (length idx) + 2).
Proof.
  intros H1. induction 1 as [|n d A o d' Hr IH Ho Hrun]; intros Hb; [split; [done|lia]|]. destruct IH as [Hh Hn]; [lia|].
  destruct (refine_step _ _ _ _ _ _ Hcfg d A o Hh Ho) as (d2 & E & Hh' & Hn'); [lia|]. rewrite Hrun in E. injection E as <-. split; [done|lia].
Qed.

(** The rows that the client has are those of the store. *)
Lemma holds_rows d A p vs : holds d A -> A !! p = Some vs ->
  p < db_next d /\ exists r n, db_rows d !! p = Some (r, n) /\ forall k v, vs !! k = Some v -> get_column k r = Some v.
Proof.
  intros (L & [[_ Hg Hp] _ _] & HA) (l & Hl & <- & <-)%HA. rewrite Forall_forall in Hg. pose proof (pk_next _ _ Hp) as Hn. rewrite Forall_forall in Hn.
  split; [destruct (Hn l Hl) as [_ Hlt]; rewrite Forall_forall in Hlt; apply Hlt; by left|].
  destruct (gd_row _ _ _ _ _ _ (Hg l Hl)) as (r & n & Hr & _ & Hv & _). exists r, n. split; [done|]. intros k v Hk.
  rewrite (rowv_get r _ k Hv). by apply lookup_take_Some in Hk as [? _].
Qed.
End reach.

(** C15: an indexed table, of any columns and indices, is a set of rows.
    After any operations of a client (insertions; updates of columns, indexed or not;
    removals of a row, of a key, or of what a query of an index gives) every operation
    that is allowed runs to its end, every row of the set is in the store with its
    values, and a query of the table or of any of its indices, for any range and in
    either direction, gives exactly the rows of the set whose key is in the range, each
    once and in the order of the keys ([Index::all] in ascending order always). *)
Theorem table_refines steps sch d0 t d1 S n d A :
  build steps new_IndexedSchema = Done (tt, sch) -> 0 < db_next d0 -> new_IndexedTable sch d0 = Done (t, d1) ->
  tb_schema <$> db_tables d1 !! t = Some S -> table_reach t S (all_idx_ sch) d1 n d A ->
  db_next d1 + (Z.of_nat n + 1) * (Z.of_nat (length (all_idx_ sch)) + 2) < 2 ^ 63 ->
  (forall o, allowed S (all_idx_ sch) A o -> exists d', run_top t o d = Done (tt, d')) /\
  (forall p vs, A !! p = Some vs ->
     p < db_next d /\ exists r n, db_rows d !! p = Some (r, n) /\ forall k v, vs !! k = Some v -> get_column k r = Some v) /\
  (forall r o, range_ok r = true -> exists ps, t_query t r o d = Done (ps, d) /\ answers (key_cols_id_ S) r o A ps) /\
  (forall i cols r o, all_idx_ sch !! i = Some cols -> range_ok r = true ->
     exists ps, idx_query t i r o d = Done (ps, d) /\ answers cols r (match r with RAll => ORD_ASC | _ => o end) A ps).
Proof.
  intros Hb H0 Hnew HS Hr Hbound. destruct (new_table_holds steps sch d0 t d1 Hb H0 Hnew) as (S' & icol & indices & schemas & Hcfg & H1 & _ & rows & HT).
  rewrite HT in HS. injection HS as ->. destruct (reach_holds _ _ _ _ _ _ Hcfg d1 n d A H1 Hr) as [Hh Hn]; [lia|]. split_and!.
  - intros o Ho. destruct (refine_step _ _ _ _ _ _ Hcfg d A o Hh Ho) as (d' & E & _); [lia|]. eauto.
  - intros p vs Hp. by eapply holds_rows.
  - intros r o Hro. by apply (t_query_holds _ _ _ _ _ _ Hcfg).
  - intros i cols r o Hi Hro. by apply (idx_query_holds _ _ _ _ _ _ Hcfg).
Qed.

(** ** A table of accounts: a number, an owner and a balance, with an index by owner and
    one by balance *)

Definition demo_steps : list sch_step :=
  [BColumn [105] I64 true; BColumn [111] STR false; BColumn [98] I32 false; BIndex [120] [1]; BIndex [121] [2; 1]].
Definition demo_sch : IndexedSchema := match build demo_steps new_IndexedSchema with Done (_, s) => s | _ => new_IndexedSchema end.
Definition demo_db0 : Db := mk_db ∅ ∅ ∅ 1.
Definition demo_db1 : Db := match new_IndexedTable demo_sch demo_db0 with Done (_, d) => d | _ => demo_db0 end.
Definition demo_S : Schema := match db_tables demo_db1 !! 3 with Some T => tb_schema T | None => new_Schema end.

Definition demo_tops : list t_op :=
  [OInsert [V_I64 7; V_STR [97]; V_I32 50]; OInsert [V_I64 3; V_STR [98; 99]; V_I32 20]; OInsert [V_I64 5; V_STR [97]; V_I32 10];
   OUpdate 8 1 (V_STR [97; 98]); OUpdate 4 2 (V_I32 15); ORemove 12].
Definition demo_after (k : nat) : Db := match for_each (take k demo_tops) (run_top 3) demo_db1 with Done (_, d) => d | _ => demo_db0 end.
Fixpoint demo_set (k : nat) : gmap Z (list Value) :=
  match k with
  | O => ∅
  | Datatypes.S k => match demo_tops !! k with Some o => spec_top demo_S (all_idx_ demo_sch) (db_next (demo_after k)) (demo_set k) o | None => demo_set k end
  end.

Lemma demo_row_fits a b c : in_s 64 a -> in_s 32 c -> row_fits demo_S [V_I64 a; V_STR b; V_I32 c].
Proof.
  intros Ha Hc. assert (ci_type <$> visible_columns demo_S = [I64; STR; I32]) as E by (vm_compute; reflexivity).
  unfold row_fits. destruct (visible_columns demo_S) as [|k1 [|k2 [|k3 [|]]]]; try discriminate E. injection E as E1 E2 E3.
  repeat apply Forall2_cons_2; [..|apply Forall2_nil_2]; (split; [split|]); cbn; rewrite ?E1, ?E2, ?E3; try reflexivity; try assumption; intros _; eexists; reflexivity.
Qed.

Ltac demo_op :=
  match goal with |- table_reach _ _ _ _ (Datatypes.S ?k) (demo_after _) (demo_set _) =>
    let o := eval vm_compute in (default (ORemove 0) (demo_tops !! k)) in
    refine (reach_op 3 demo_S (all_idx_ demo_sch) demo_db1 k (demo_after k) (demo_set k) o (demo_after (Datatypes.S k)) _ _ _); [|cbn [allowed]|vm_compute; reflexivity]
  end.

Lemma demo_reach : table_reach 3 demo_S (all_idx_ demo_sch) demo_db1 6 (demo_after 6) (demo_set 6).
Proof.
  demo_op; [|vm_compute; eexists; reflexivity]. demo_op; [|].
  2:{ split; [vm_compute; eexists; reflexivity|]. eexists. split; [vm_compute; reflexivity|]. split; [split; [reflexivity|cbn; unfold in_s; lia]|].
      split; [intros _; eexists; reflexivity|]. intros E. discriminate E. }
  demo_op; [|].
  2:{ split; [vm_compute; eexists; reflexivity|]. eexists. split; [vm_compute; reflexivity|]. split; [split; [reflexivity|exact I]|].
      split; [intros _; eexists; reflexivity|]. intros E. discriminate E. }
  do 3 (demo_op; [|apply demo_row_fits; unfold in_s; lia]).
  exact (reach_new 3 demo_S (all_idx_ demo_sch) demo_db1).
Qed.

Lemma table_refines_witness :
  exists ps, idx_query 3 1 (RGt [KNum 15; KStr []]) ORD_DESC (demo_after 6) = Done (ps, demo_after 6) /\ ps = [8; 4] /\
    answers [2; 1] (RGt [KNum 15; KStr []]) ORD_DESC (demo_set 6) ps.
Proof.
  destruct (table_refines demo_steps demo_sch demo_db0 3 demo_db1 demo_S 6 (demo_after 6) (demo_set 6)) as (_ & _ & _ & Hq).
  - vm_compute. reflexivity.
  - reflexivity.
  - vm_compute. reflexivity.
  - vm_compute. reflexivity.
  - exact demo_reach.
  - vm_compute. reflexivity.
  - destruct (Hq 1%nat [2; 1] (RGt [KNum 15; KStr []]) ORD_DESC) as (ps & E & Hps); [vm_compute; reflexivity..|].
    exists ps. split; [exact E|]. split; [|exact Hps]. vm_compute in E. injection E as <-. reflexivity.
Defined.
