(* ===== verification/Sharding.v ===== *)
(** * Sharding: the partition of a row, and the initial contents of the tables
    (src/deptran/sharding.cc, sharding.h, src/deptran/config.cc, src/deptran/multi_value.cc,
    src/memdb/value.cc, src/bench/tpca/sharding.cc, src/deptran/server_worker.cc)

    The tables of a benchmark are described by the configuration; every partition holds
    the rows whose key is mapped to it.  A worker makes the tables of its partition and
    fills them.  What is read from YAML files is given as lists, in the order in which
    the parser yields them.  The methods that a benchmark overrides are a record. *)
From Stdlib Require Import Strings.Byte Strings.String Floats.SpecFloat.
From stdpp Require Import base tactics numbers list sorting gmap.
From S2P Require Import Prelude OMap Command Config MemRow MemTable.

(** Strings as keys; the same order is [MultiValue::compare] on keys of integers. *)
#[export] Instance str_lt_dec a b : Decision (str_lt a b).
Proof. unfold str_lt. apply _. Defined.
#[export] Program Instance string_OrdKey : OrdKey (list Z) := { key_ltb a b := bool_decide (str_lt a b) }.
Next Obligation. intros a. apply bool_decide_eq_false. intros Ha. by apply (str_lt_asym a a). Qed.
Next Obligation. intros a b c Hab%bool_decide_eq_true Hbc%bool_decide_eq_true. apply bool_decide_eq_true. by apply (str_lt_trans a b c). Qed.
Next Obligation. intros a b Hne Hab%bool_decide_eq_false. apply bool_decide_eq_true. by apply str_lt_total. Qed.

(** ** Doubles

    A double is its bit pattern. *)

(** [(long long) floor(d)]; a value out of range has none. *)
Definition floor_double (bits : Z) : option Z :=
  let e := Z.shiftr bits 52 mod 2 ^ 11 in
  let m := (if e =? 0 then 0 else 2 ^ 52) + bits mod 2 ^ 52 in
  let m := if bits <? 2 ^ 63 then m else - m in
  let v := Z.shiftl m (Z.max e 1 - 1075) in
  if e =? 2047 then None else if (- 2 ^ 63 <=? v) && (v <? 2 ^ 63) then Some v else None.

Definition double_of_bits (bits : Z) : spec_float :=
  let s := 2 ^ 63 <=? bits in
  let e := Z.shiftr bits 52 mod 2 ^ 11 in
  let f := bits mod 2 ^ 52 in
  if e =? 2047 then (if f =? 0 then S754_infinity s else S754_nan)
  else if e =? 0 then (if f =? 0 then S754_zero s else S754_finite s (Z.to_pos f) (-1074))
  else S754_finite s (Z.to_pos (2 ^ 52 + f)) (e - 1075).

Definition bits_of_double (x : spec_float) : Z :=
  let sign (s : bool) := if s then 2 ^ 63 else 0 in
  match x with
  | S754_zero s => sign s
  | S754_infinity s => sign s + 2047 * 2 ^ 52
  | S754_nan => 4095 * 2 ^ 51
  | S754_finite s m e => sign s + (if Z.pos m <? 2 ^ 52 then Z.pos m else (e + 1075) * 2 ^ 52 + (Z.pos m - 2 ^ 52))
  end.

(** [(double) n], and addition and division *)
Definition double_of_int (n : Z) : Z := bits_of_double (binary_normalize 53 1024 n 0 false).
Definition double_add (a b : Z) : Z := bits_of_double (SFadd 53 1024 (double_of_bits a) (double_of_bits b)).
Definition double_div (a b : Z) : Z := bits_of_double (SFdiv 53 1024 (double_of_bits a) (double_of_bits b)).

(** ** Values of a kind *)

(** [std::to_string] of an [int] *)
Fixpoint digits (fuel : nat) (n : Z) : list Z :=
  match fuel with
  | O => []
  | S fuel => (if n <? 10 then [] else digits fuel (n / 10)) ++ [48 + n mod 10]
  end.
Definition to_string (n : Z) : list Z := if n <? 0 then 45 :: digits 20 (- n) else digits 20 n.

(** [RandomGenerator::int2str_n] *)
Definition int2str_n (i : Z) (length_ : nat) : list Z :=
  let ret := to_string i in
  if (length ret <? length_)%nat then replicate (length_ - length ret) 48 ++ ret
  else drop (length ret - length_) ret.

Definition value_get_zero (k : kind) : option Value :=
  match k with
  | I32 => Some (V_I32 0)
  | I64 => Some (V_I64 0)
  | DOUBLE => Some (V_DOUBLE 0)
  | STR | UNKNOWN => None
  end.

(** [v] is an [int]. *)
Definition value_get_n (k : kind) (v : Z) : option Value :=
  match k with
  | I32 => Some (V_I32 v)
  | I64 => Some (V_I64 v)
  | DOUBLE => Some (V_DOUBLE (double_of_int v))
  | STR => Some (V_STR (to_string v))
  | UNKNOWN => None
  end.

(** [operator++(Value&)] *)
Definition value_incr (v : Value) : option Value :=
  match v with
  | V_I32 i => Some (V_I32 (i32 (i + 1)))
  | V_I64 i => Some (V_I64 (i64 (i + 1)))
  | V_DOUBLE d => Some (V_DOUBLE (double_add d (double_of_int 1)))
  | V_STR _ | V_UNKNOWN => None
  end.

(** [Value::compare]; what is not a number is greater than, and not equal to, any double. *)
Definition value_compare (a b : Value) : option Z :=
  let cmp (x y : Z) := if x <? y then -1 else if x =? y then 0 else 1 in
  match a, b with
  | V_UNKNOWN, V_UNKNOWN => Some 0
  | V_I32 x, V_I32 y | V_I64 x, V_I64 y => Some (cmp x y)
  | V_DOUBLE x, V_DOUBLE y =>
    match double_rank x, double_rank y with Some x, Some y => Some (cmp x y) | _, _ => Some 1 end
  | V_STR x, V_STR y => Some (if decide (str_lt x y) then -1 else if decide (x = y) then 0 else 1)
  | _, _ => None
  end.
Definition value_lt (a b : Value) : option bool := c ← value_compare a b; Some (c =? -1).
Definition value_gt (a b : Value) : option bool := c ← value_compare a b; Some (c =? 1).

(** [MultiValue::compare] *)
Fixpoint mv_compare (a b : list Value) : option Z :=
  match a, b with
  | x :: a, y :: b => r ← value_compare x y; if r =? 0 then mv_compare a b else Some r
  | _ :: _, [] => Some 1
  | [], _ :: _ => Some (-1)
  | [], [] => Some 0
  end.

(** [value_rr_get_next]: the values [start] to [max] in turn, by name.  [value_map] is the
    static variable of the function. *)
Definition value_rr_get_next (s : list Z) (k : kind) (max start : Z) : M (omap (list Z) Value) Value :=
  value_map ← get;
  match find s value_map with
  | None =>
    buf ← from_option (value_get_n k start);
    modify (fun m => insert s buf m);;
    mret buf
  | Some v =>
    v ← from_option (value_incr v);
    top ← from_option (value_get_n k max);
    over ← from_option (value_gt v top);
    v ← (if (over : bool) then from_option (value_get_n k start) else mret v);
    modify (fun m => insert s v m);;
    mret v
  end.

(** ** Indices: counting through all combinations *)

(** Column to (index, number of values) *)
Abbreviation Index := (omap Z (Z * Z)).

Definition init_index (ix : Index) : option (Z * Index) :=
  match ix with
  | [] => Some (-1, ix)
  | _ => _ ← guard_ (forallb (fun e => 0 <? e.2.2) ix); Some (0, (fun e => (e.1, (0, e.2.2))) <$> ix)
  end.

(** The loop: add one at this column, and go on to the next when it is full. *)
Fixpoint carry (ix : Index) : option (Z * Index) :=
  match ix with
  | [] => Some (-1, [])
  | (c, (first, second)) :: rest =>
    let first := u32 (first + 1) in
    if second <=? first then
      _ ← guard_ (u32 (first - second) =? 0);
      '(ret, rest) ← carry rest;
      Some (ret, (c, (0, second)) :: rest)
    else Some (0, (c, (first, second)) :: rest)
  end.

(** The number of combinations of the indices *)
Fixpoint combinations (ix : Index) : Z := match ix with [] => 1 | e :: ix => e.2.2 * combinations ix end.

Definition index_increase (ix : Index) : option (Z * Index) := carry ix.
Definition index_reverse_increase (ix : Index) : option (Z * Index) :=
  '(ret, ix) ← carry (reverse ix); Some (ret, reverse ix).

(** The columns of [bound_index] go together: all but the first are taken out, and set to
    the first afterwards.  [index[k]] creates a missing entry with zeros. *)
Definition tie (bound0 : Z) (ix : Index) (c : Z) : Index :=
  let '(v, ix) := index (0, 0) bound0 ix in insert c v ix.
Definition bound_increase (increase : Index -> option (Z * Index)) (ix : Index) (bound_index : list Z) : option (Z * Index) :=
  match bound_index with
  | bound0 :: (_ :: _) as others =>
    '(ret, ix) ← increase (foldl (fun ix c => erase c ix) ix others);
    Some (ret, foldl (tie bound0) ix others)
  | _ => increase ix
  end.
Definition index_increase_bound : Index -> list Z -> option (Z * Index) := bound_increase index_increase.
Definition index_reverse_increase_bound : Index -> list Z -> option (Z * Index) := bound_increase index_reverse_increase.

(** ** Keys and partitions *)

(** The bytes of a string literal *)
Definition str (s : string) : list Z := (fun b => Z.of_N (Byte.to_N b)) <$> list_byte_of_string s.

(** [buf > 0 ? (uint32_t) buf : (uint32_t) (-buf)] *)
Definition magnitude (buf : Z) : Z := u32 (if 0 <? buf then buf else - buf).

(** A [char], which is signed, as [uint32_t] *)
Definition char_u32 (c : Z) : Z := u32 (wrap_s 8 c).

(** What a string would add: the sum of its characters, or its digits in base 127 *)
Definition sum_chars (num_partitions : Z) (s : list Z) : Z := foldl (fun sum c => u32 (sum + char_u32 c)) 0 s mod num_partitions.
Definition sum_digits (num_partitions : Z) (s : list Z) : Z :=
  (foldr (fun c '(sum, mod_) => (u32 (sum + u32 (mod_ * char_u32 c)) mod num_partitions, u32 (mod_ * 127) mod num_partitions))
    (0, 1) s).1 mod num_partitions.

(** [case Value::UNKNOWN], which ends in [verify(0)] *)
Definition case_unknown (h : Z) : option Z := None.

(** What one value of a key adds.  An [i32] is converted to the unsigned type of the
    number of partitions before the division, an [i64] is not.  The case of a string has no
    [break] and runs into the next.  A division by zero has no result. *)
Definition hash_value (hash_str : Z -> list Z -> Z) (num_partitions : Z) (v : Value) : option Z :=
  _ ← guard_ (negb (num_partitions =? 0));
  match v with
  | V_I32 i => Some (magnitude (u32 i mod num_partitions))
  | V_I64 i => Some (magnitude (Z.rem i num_partitions))
  | V_DOUBLE d => buf ← floor_double d; Some (magnitude (Z.rem buf num_partitions))
  | V_STR s => case_unknown (hash_str num_partitions s)
  | V_UNKNOWN => case_unknown 0
  end.

Fixpoint hash_key (hash_str : Z -> list Z -> Z) (num_partitions index : Z) (key : list Value) : option Z :=
  match key with
  | [] => _ ← guard_ (negb (num_partitions =? 0)); Some (index mod num_partitions)
  | v :: key =>
    h ← hash_value hash_str num_partitions v;
    hash_key hash_str num_partitions (u32 (index + h) mod num_partitions) key
  end.

Definition modulus (key : list Value) (num_partitions : Z) : option Z := hash_key sum_chars num_partitions 0 key.
Definition int_modulus (key : list Value) (num_partitions : Z) : option Z := hash_key sum_digits num_partitions 0 key.

(** ** The tables of a benchmark *)

Inductive method_t := MODULUS | INT_MODULUS.
(** [mdb::symbol_t], the kinds of tables *)
Inductive table_symbol := TBL_SORTED | TBL_UNSORTED | TBL_SNAPSHOT.
#[export] Instance table_symbol_eq_dec : EqDecision table_symbol.
Proof. solve_decision. Defined.

(** [foreign_tb] and [foreign], pointers to a table and to one of its columns, are the name
    of the table and the number of the column. *)
Record column_t := mk_column {
  cl_type : kind;
  cl_name : list Z;
  is_primary : bool;
  is_foreign : bool;
  foreign_tbl_name : list Z;
  foreign_col_name : list Z;
  foreign : option (list Z * nat);
  cl_values : option (list Value);
}.
#[export] Instance Eta_column_t : Eta column_t := fun r =>
  mk_column (cl_type r) (cl_name r) (is_primary r) (is_foreign r) (foreign_tbl_name r) (foreign_col_name r) (foreign r) (cl_values r).

(** The constructor, and the copy constructor, which drops the pointers *)
Definition new_column (type : kind) (name : list Z) (primary foreign : bool) (ftbl fcol : list Z) : column_t :=
  mk_column type name primary foreign ftbl fcol None None.
Definition copy_column (c : column_t) : column_t := c <| foreign := None |> <| cl_values := None |>.

Record tb_info_t := mk_tb_info {
  sharding_method : method_t;
  par_ids : list Z;
  num_records : Z;
  populated : omap Z bool;
  columns : list column_t;
  symbol : table_symbol;
  tb_name : list Z;
}.
#[export] Instance Eta_tb_info : Eta tb_info_t := fun r =>
  mk_tb_info (sharding_method r) (par_ids r) (num_records r) (populated r) (columns r) (symbol r) (tb_name r).

(** The symbol is not set until a sharding method is loaded. *)
Definition new_tb_info : tb_info_t := mk_tb_info MODULUS [] 0 [] [] TBL_UNSORTED [].

(** [dtxn_sched_] is the tables by name ([tables_]) with the database they are in;
    [g_c_last_schema] and [g_c_last2id] belong to the benchmarks that have customers. *)
Record Sharding := mk_sharding {
  tb_infos_ : omap (list Z) tb_info_t;
  dist2sid_ : omap (list Z) (list Value);
  stock2sid_ : omap (list Z) (list Value);
  num_foreign_row : Z;
  bound_foreign_index : list Z;
  self_primary_col : Z;
  prim_foreign_index : Index;
  num_self_primary : Z;
  n_row_inserted_ : Z;
  record_key : bool;
  g_c_last_schema : Schema;
  g_c_last2id : list (list keypart * Z);
  tables_ : omap (list Z) Z;
  mdb : Db;
  shard_rand_reads_ : nat;
}.
#[export] Instance Eta_sharding : Eta Sharding := fun r =>
  mk_sharding (tb_infos_ r) (dist2sid_ r) (stock2sid_ r) (num_foreign_row r) (bound_foreign_index r) (self_primary_col r)
    (prim_foreign_index r) (num_self_primary r) (n_row_inserted_ r) (record_key r) (g_c_last_schema r) (g_c_last2id r)
    (tables_ r) (mdb r) (shard_rand_reads_ r).

Definition new_Sharding : Sharding :=
  mk_sharding [] [] [] 1 [] 0 [] 0 0 true new_Schema [] [] (mk_db ∅ ∅ ∅ 1) 0.

Inductive benchmark := TPCA | TPCC | TPCC_REAL_DIST_PART | RW_BENCHMARK | RETWIS.
#[export] Instance benchmark_eq_dec : EqDecision benchmark.
Proof. solve_decision. Defined.

(** The configuration that has been loaded, and the results of [rand_r] *)
Class ShardEnv := {
  sh_cfg : Config;
  benchmark_ : benchmark;
  sh_rand_r : nat -> Z;
}.

Definition TPCC_TB_WAREHOUSE : list Z := str "warehouse".
Definition TPCC_TB_DISTRICT : list Z := str "district".
Definition TPCC_TB_CUSTOMER : list Z := str "customer".
Definition TPCC_TB_HISTORY : list Z := str "history".
Definition TPCC_TB_ORDER : list Z := str "order".
Definition TPCC_TB_ITEM : list Z := str "item".
Definition TPCC_TB_STOCK : list Z := str "stock".
Definition TPCC_TB_ORDER_C_ID_SECONDARY : list Z := str "order_secondary".

Section sharding.
Context `{ShardEnv}.

Definition num_partitions : Z := Z.of_nat (length (replica_groups_ sh_cfg)).

(** ** The partition of a key *)

(** The keys of the two maps are pairs of [i32].  A key of another kind makes the
    comparisons of the map fail. *)
Definition i32s (key : list Value) : option (list Z) := mapM (fun v => match v with V_I32 i => Some i | _ => None end) key.

(** [dist2sid_[mv]]: a missing entry is created, with the empty value. *)
Definition dist_mapping (mv : list Value) : M Sharding (list Value) :=
  k ← from_option (i32s mv);
  state (fun s => let '(v, m) := index [] k (dist2sid_ s) in (v, s <| dist2sid_ := m |>)).
Definition stock_mapping (mv : list Value) : M Sharding (list Value) :=
  k ← from_option (i32s mv);
  state (fun s => let '(v, m) := index [] k (stock2sid_ s) in (v, s <| stock2sid_ := m |>)).

Definition insert_dist_mapping (mv : list Value) : M Sharding () :=
  k ← from_option (i32s mv);
  modify (fun s => s <| dist2sid_ ::= fun m => insert_new k [V_I32 (i32 (Z.of_nat (length m)))] m |>).
Definition insert_stock_mapping (mv : list Value) : M Sharding () :=
  k ← from_option (i32s mv);
  modify (fun s => s <| stock2sid_ ::= fun m => insert_new k [V_I32 (i32 (Z.of_nat (length m)))] m |>).

Definition is_name (a b : list Z) : bool := bool_decide (a = b).

Definition PartitionFromKey (key : list Value) (tb_info : tb_info_t) : M Sharding Z :=
  key_buf ←
    (if negb (bool_decide (benchmark_ = TPCC_REAL_DIST_PART)) then mret key
     else if is_name (tb_name tb_info) TPCC_TB_STOCK || is_name (tb_name tb_info) TPCC_TB_ITEM then stock_mapping key
     else if negb (is_name (tb_name tb_info) TPCC_TB_HISTORY) then dist_mapping key
     else mret key);
  from_option (match sharding_method tb_info with
               | MODULUS => modulus key_buf (u32 num_partitions)
               | INT_MODULUS => int_modulus key_buf (u32 num_partitions)
               end).

(** The result, and [par_id] *)
Definition GetPartition (tb : list Z) (key : list Value) (par_id : Z) : M Sharding (Z * Z) :=
  s ← get;
  match find tb (tb_infos_ s) with
  | None => mret (-1, par_id)
  | Some info =>
    if (length (par_ids info) =? 0)%nat then mret (-2, par_id)
    else par_id ← PartitionFromKey key info; mret (0, par_id)
  end.

Definition SiteIdsForKey (tb : list Z) (key : list Value) : M Sharding (list Z) :=
  s ← get;
  info ← from_option (find tb (tb_infos_ s));
  partition_id ← PartitionFromKey key info;
  sites ← from_option (SitesByPartitionId sh_cfg partition_id);
  mret (si_id <$> sites).

Definition GetTablePartitions (tb : list Z) (par_ids_ : list Z) (s : Sharding) : Z * list Z :=
  match find tb (tb_infos_ s) with
  | None => (-1, par_ids_)
  | Some info => if (length (par_ids info) =? 0)%nat then (-2, par_ids_) else (0, par_ids info)
  end.

(** ** The schema of a table *)

(** The result, the schema and the symbol *)
Definition init_schema (tb : list Z) (s : Sharding) : M Schema (Z * option table_symbol) :=
  match find tb (tb_infos_ s) with
  | None => mret (-1, None)
  | Some info =>
    for_each (columns info) (fun c => _ ← add_column (cl_name c) (cl_type c) (is_primary c); mret ());;
    schema ← get;
    mret (Z.of_nat (columns_count schema), Some (symbol info))
  end.

(** The names, which are none at first; both checks of the number *)
Definition GetTableNames (par_id : Z) : M Sharding (list (list Z)) :=
  s ← get;
  let tables := (filter (fun e => existsb (Z.eqb par_id) (par_ids e.2) = true) (tb_infos_ s)).*1 in
  verify (0 <? length tables)%nat;;
  mret tables.

Definition get_number_rows (table_map : omap (list Z) Z) (s : Sharding) : omap (list Z) Z :=
  foldl (fun m e => insert e.1 (num_records e.2) m) table_map (tb_infos_ s).

(** ** Pointers to columns *)

Definition set_tb (tb : list Z) (f : tb_info_t -> tb_info_t) : M Sharding () :=
  modify (fun s => s <| tb_infos_ ::= fun m => match find tb m with Some t => insert tb (f t) m | None => m end |>).
Definition set_col (tb : list Z) (i : nat) (f : column_t -> column_t) : M Sharding () :=
  set_tb tb (fun t => t <| columns ::= alter f i |>).
Definition tb_of (tb : list Z) : M Sharding tb_info_t := s ← get; from_option (find tb (tb_infos_ s)).
Definition col_of (tb : list Z) (i : nat) : M Sharding column_t := t ← tb_of tb; from_option (columns t !! i).

Definition column_index (name : list Z) (cols : list column_t) : option nat :=
  fst <$> list_find (fun c => cl_name c = name) cols.

Definition resolve_column (tb : list Z) (i : nat) : M Sharding () :=
  col ← col_of tb i;
  when (is_foreign col)
    (verify (negb (length (foreign_col_name col) =? 0)%nat);;
     ftbl ← tb_of (foreign_tbl_name col);
     fcol_i ← from_option (column_index (foreign_col_name col) (columns ftbl));
     fcol ← col_of (foreign_tbl_name col) fcol_i;
     verify (bool_decide (cl_type fcol = cl_type col));;
     set_col (foreign_tbl_name col) fcol_i (fun c => c <| cl_values ::= fun v => Some (default [] v) |>);;
     set_col tb i (fun c => c <| foreign := Some (foreign_tbl_name col, fcol_i) |>)).

Definition BuildTableInfoPtr : M Sharding () :=
  s ← get;
  verify (0 <? length (tb_infos_ s))%nat;;
  for_each (tb_infos_ s) (fun e =>
    t ← tb_of e.1;
    verify (0 <? length (columns t))%nat;;
    for_each (seq 0 (length (columns t))) (resolve_column e.1)).

(** [Sharding::Sharding(const Sharding&)] and the assignment in [Frame::CreateSharding]:
    the columns are copied, the scheduler of the copy has no tables yet. *)
Definition copy_Sharding (sd : Sharding) : Sharding :=
  new_Sharding <| tb_infos_ := (fun e => (e.1, e.2 <| columns ::= fmap copy_column |>)) <$> tb_infos_ sd |>
               <| dist2sid_ := dist2sid_ sd |> <| stock2sid_ := stock2sid_ sd |> <| shard_rand_reads_ := shard_rand_reads_ sd |>.

Definition release_foreign_values : M Sharding () :=
  modify (fun s => s <| tb_infos_ ::= fmap (fun e => (e.1, e.2 <| columns ::= fmap (fun c => c <| cl_values := None |>) |>)) |>).

(** ** Random values *)

Definition shard_rand (min max : Z) : M Sharding Z :=
  r ← state (fun s => (sh_rand_r (shard_rand_reads_ s), s <| shard_rand_reads_ ::= S |>));
  from_option (RandomGenerator_rand r min max).

Definition RAND_MAX : Z := 2147483647.

(** [rand_double()]: [(double) r / ((double) RAND_MAX / (max - min)) + min], with the
    default arguments *)
Definition rand_double : M Sharding Z :=
  r ← state (fun s => (sh_rand_r (shard_rand_reads_ s), s <| shard_rand_reads_ ::= S |>));
  mret (double_add (double_div (double_of_int r) (double_div (double_of_int RAND_MAX) (double_of_int RAND_MAX))) (double_of_int 0)).

(** [RandomGenerator::rand()]: the divisor [RAND_MAX + 1] exceeds every [r]. *)
Definition random_value (k : kind) : M Sharding Value :=
  match k with
  | I32 => r ← shard_rand 0 RAND_MAX; mret (V_I32 r)
  | I64 => r ← shard_rand 0 RAND_MAX; mret (V_I64 r)
  | DOUBLE => d ← rand_double; mret (V_DOUBLE d)
  | STR => r ← shard_rand 0 999; mret (V_STR (int2str_n r 3))
  | UNKNOWN => abort
  end.
End sharding.

(** ** Hashing *)

(** A string has no partition, by either method. *)
Lemma string_key_fails hash_str n index key :
  Exists (fun v => get_kind v = STR) key -> hash_key hash_str n index key = None.
Proof.
  intros Hs. revert index. induction Hs as [v key Hv|v key _ IH]; intros index; cbn; unfold hash_value.
  - destruct v; try done. by destruct (guard_ _).
  - destruct (guard_ _); [|done]. cbn. destruct v; cbn; rewrite ?IH; try done. destruct (floor_double _); cbn; by rewrite ?IH.
Qed.

(** The two methods are one. *)
Theorem int_modulus_is_modulus key n : int_modulus key n = modulus key n.
Proof.
  unfold int_modulus, modulus. generalize 0. induction key as [|v key IH]; intros index; [done|]. cbn. unfold hash_value.
  destruct (guard_ _); [|done]. cbn. destruct v; cbn; rewrite ?IH; try done. destruct (floor_double _); cbn; by rewrite ?IH.
Qed.

Lemma hash_key_range hash_str n index key p : 0 < n -> hash_key hash_str n index key = Some p -> 0 <= p < n.
Proof.
  intros Hn. revert index. induction key as [|v key IH]; intros index; cbn.
  - destruct (n =? 0); cbn; [done|]. intros [= <-]. by apply Z.mod_pos_bound.
  - destruct (hash_value _ _ _); cbn; [apply IH|done].
Qed.

(** An integer key that is not negative *)
Lemma hash_int hash_str n k v :
  0 < n < 2 ^ 32 -> 0 <= k < 2 ^ 31 -> v = V_I32 k \/ v = V_I64 k -> hash_key hash_str n 0 [v] = Some (k mod n).
Proof.
  intros Hn Hk Hv. pose proof (Z.mod_pos_bound k n) as Hm.
  assert (hash_value hash_str n v = Some (k mod n)) as E.
  { unfold hash_value, magnitude. destruct (Z.eqb_spec n 0); [lia|]. cbn.
    assert (u32 (k mod n) = k mod n) as Eu by (apply wrap_u_id; unfold in_u; lia).
    destruct Hv as [-> | ->]; cbn.
    - rewrite (wrap_u_id 32 k) by (unfold in_u; lia). destruct (Z.ltb_spec 0 (k mod n)); [by rewrite Eu|]. assert (k mod n = 0) as -> by lia. done.
    - rewrite Z.rem_mod_nonneg by lia. destruct (Z.ltb_spec 0 (k mod n)); [by rewrite Eu|]. assert (k mod n = 0) as -> by lia. done. }
  unfold hash_key. rewrite E. destruct (Z.eqb_spec n 0); [lia|]. cbn [mbind option_bind guard_ negb]. rewrite Z.add_0_l.
  rewrite (wrap_u_id 32 (k mod n)) by (unfold in_u; lia). by rewrite !Z.mod_mod by lia.
Qed.

(** ** Counting through the combinations *)

Fixpoint index_number (ix : Index) : Z := match ix with [] => 0 | e :: ix => e.2.1 + e.2.2 * index_number ix end.

Definition counting (ix : Index) : Prop := Forall (fun e => 0 <= e.2.1 < e.2.2 /\ e.2.2 < 2 ^ 32) ix.
(** The same columns, with the same numbers of values *)
Definition limits (ix : Index) : list (Z * Z) := (fun e => (e.1, e.2.2)) <$> ix.

Lemma combinations_limits ix ix' : limits ix = limits ix' -> combinations ix = combinations ix'.
Proof.
  revert ix'. induction ix as [|[c [f s]] ix IH]; intros [|[c' [f' s']] ix'] E; try done. injection E as -> -> E. cbn. by rewrite (IH ix').
Qed.

Lemma index_number_range ix : counting ix -> 0 <= index_number ix < combinations ix.
Proof. induction 1 as [|[c [f s]] ix Hf _ IH]; cbn in *; [lia|]. nia. Qed.

Lemma index_number_inj ix ix' : counting ix -> counting ix' -> limits ix = limits ix' -> index_number ix = index_number ix' -> ix = ix'.
Proof.
  intros Hc. revert ix'. induction Hc as [|[c [f s]] ix Hf Hc IH]; intros [|[c' [f' s']] ix'] Hc' E En; try done.
  apply Forall_cons in Hc' as [Hf' Hc']. injection E as <- <- E. cbn in *.
  pose proof (Z.div_mod_unique s (index_number ix) (index_number ix') f f') as [E1 E2]; [lia..|]. subst. f_equal. by apply IH.
Qed.

Lemma carry_spec ix : counting ix -> exists ret ix', carry ix = Some (ret, ix') /\ counting ix' /\ limits ix' = limits ix /\
  (if index_number ix + 1 <? combinations ix then ret = 0 /\ index_number ix' = index_number ix + 1 else ret = -1 /\ index_number ix' = 0).
Proof.
  induction 1 as [|[c [f s]] ix Hf Hc IH]; cbn; [eexists _, _; by repeat split; constructor|]. cbn in Hf.
  destruct IH as (ret & ix' & Ec & Hc' & El & Hn). pose proof (index_number_range ix Hc) as Hr.
  rewrite (wrap_u_id 32 (f + 1)) by (unfold in_u; lia). destruct (Z.leb_spec s (f + 1)) as [Hfull|Hmore].
  - assert (f + 1 - s = 0) as -> by lia. cbn. rewrite Ec. cbn. eexists _, _. split; [done|]. split; [constructor; [cbn; lia|done]|].
    split; [exact (f_equal (cons (c, s)) El)|]. cbn. revert Hn.
    destruct (Z.ltb_spec (index_number ix + 1) (combinations ix)), (Z.ltb_spec (f + s * index_number ix + 1) (s * combinations ix)); intros [-> Hn]; try nia; split; nia.
  - eexists _, _. split; [done|]. split; [constructor; [cbn; lia|done]|]. split; [done|]. cbn.
    destruct (Z.ltb_spec (f + s * index_number ix + 1) (s * combinations ix)); [split; lia|nia].
Qed.

(** [init_index], and [index_increase] so many times: the last result, and the index *)
Fixpoint count_up (n : nat) (ix : Index) : option (Z * Index) :=
  match n with
  | O => init_index ix
  | S n => '(_, ix) ← count_up n ix; index_increase ix
  end.

Lemma init_counting ix : ix ≠ [] -> Forall (fun e => 0 < e.2.2 < 2 ^ 32) ix -> exists ix0,
  init_index ix = Some (0, ix0) /\ counting ix0 /\ limits ix0 = limits ix /\ index_number ix0 = 0.
Proof.
  intros Hne Hs. exists ((fun e => (e.1, (0, e.2.2))) <$> ix). split.
  { destruct ix as [|e ix]; [done|]. unfold init_index. rewrite (proj2 (forallb_forall _ _)); [done|].
    intros x Hx%list_elem_of_In. rewrite Forall_forall in Hs. apply Z.ltb_lt. by apply Hs. }
  clear Hne. induction Hs as [|[c [f s]] ix Hs _ (IH1 & IH2 & IH3)]; [by repeat split; constructor|]. cbn in *. split; [constructor; [cbn; lia|done]|].
  split; [exact (f_equal (cons (c, s)) IH2)|]. rewrite IH3. lia.
Qed.

Lemma count_up_spec ix n : ix ≠ [] -> Forall (fun e => 0 < e.2.2 < 2 ^ 32) ix -> Z.of_nat n < combinations ix ->
  exists ix', count_up n ix = Some (0, ix') /\ counting ix' /\ limits ix' = limits ix /\ index_number ix' = Z.of_nat n.
Proof.
  intros Hne Hs. induction n as [|n IH]; intros Hn; [by apply init_counting|]. destruct IH as (ix1 & E & Hc & El & Hx); [lia|].
  cbn. rewrite E. cbn. destruct (carry_spec ix1 Hc) as (ret & ix' & Ec & Hc' & El' & Hnum). rewrite (combinations_limits _ _ El), Hx in Hnum.
  destruct (Z.ltb_spec (Z.of_nat n + 1) (combinations ix)); [|lia]. destruct Hnum as [-> Hnum].
  exists ix'. unfold index_increase. rewrite Ec. split_and!; [done|done|congruence|lia].
Qed.

(** Starting from [init_index], with at least one column
    and at least one value for each, [index_increase] goes through every combination of
    one value per column exactly once, reporting 0, and then reports -1 and is back at the
    first combination. *)
Theorem indices_enumerated ix (comb : list Z) :
  ix ≠ [] -> Forall (fun e => 0 < e.2.2 < 2 ^ 32) ix -> Forall2 (fun f e => 0 <= f < e.2.2) comb ix ->
  (exists n, Z.of_nat n < combinations ix /\ count_up n ix = Some (0, zip_with (fun f e => (e.1, (f, e.2.2))) comb ix) /\
    forall m, Z.of_nat m < combinations ix -> count_up m ix = count_up n ix -> m = n) /\
  exists ix0, init_index ix = Some (0, ix0) /\ count_up (Z.to_nat (combinations ix)) ix = Some (-1, ix0).
Proof.
  intros Hne Hs Hcomb. split.
  - set (want := zip_with (fun f e => (e.1, (f, e.2.2))) comb ix).
    assert (counting want /\ limits want = limits ix) as [Hcw Hlw].
    { unfold want. clear Hne. induction Hcomb as [|f [c [f0 s]] comb ix Hf _ IH]; [by split; [constructor|]|]. apply Forall_cons in Hs as [Hs0 Hs]. destruct (IH Hs) as [IH1 IH2].
      cbn in *. split; [constructor; [cbn; lia|done]|]. exact (f_equal (cons (c, s)) IH2). }
    pose proof (index_number_range want Hcw) as Hr. rewrite (combinations_limits _ _ Hlw) in Hr.
    exists (Z.to_nat (index_number want)). split; [lia|]. destruct (count_up_spec ix (Z.to_nat (index_number want)) Hne Hs) as (ix' & E & Hc & El & Hx); [lia|].
    split; [rewrite E; do 2 f_equal; apply index_number_inj; [done|done|congruence|lia]|].
    intros m Hm Em. destruct (count_up_spec ix m Hne Hs Hm) as (ix2 & E2 & _ & _ & Hx2). rewrite E2, E in Em. injection Em as ->. lia.
  - destruct (init_counting ix Hne Hs) as (ix0 & E0 & Hc0 & El0 & Hx0). exists ix0. split; [done|].
    pose proof (index_number_range ix0 Hc0) as Hr. rewrite (combinations_limits _ _ El0) in Hr.
    destruct (Z.to_nat (combinations ix)) as [|n] eqn:En; [lia|]. destruct (count_up_spec ix n Hne Hs) as (ix1 & E1 & Hc1 & El1 & Hx1); [lia|].
    cbn. rewrite E1. cbn. unfold index_increase. destruct (carry_spec ix1 Hc1) as (ret & ix2 & Ec & Hc2 & El2 & Hnum).
    rewrite (combinations_limits _ _ El1), Hx1 in Hnum. destruct (Z.ltb_spec (Z.of_nat n + 1) (combinations ix)); [lia|]. destruct Hnum as [-> Hnum].
    rewrite Ec. do 2 f_equal. apply index_number_inj; [done|done|congruence|lia].
Qed.

Lemma indices_enumerated_witness : exists n, Z.of_nat n < 6 /\ count_up n [(1, (0, 2)); (4, (0, 3))] = Some (0, [(1, (1, 2)); (4, (2, 3))]).
Proof.
  destruct (indices_enumerated [(1, (0, 2)); (4, (0, 3))] [1; 2]) as [(n & Hn & Hc & _) _];
    [done | repeat constructor; cbn; lia | repeat constructor; cbn; lia | by exists n].
Defined.
