(* ===== verification/Populate.v ===== *)
(** * Populating the tables of a partition
    (src/bench/tpca/sharding.cc, src/bench/tpcc/sharding.cc,
    src/bench/tpcc_real_dist/sharding.cc, src/deptran/sharding.cc,
    src/deptran/server_worker.cc, src/deptran/config.cc)

    Every benchmark has its way to fill a table.  The local variables of
    [TpccSharding::PopulateTable] are the members of [Sharding] with the same names.
    A row is the [mdb::Row] that the rows of the protocols extend. *)
From Stdlib Require Import Strings.String.
From stdpp Require Import base tactics numbers list sorting gmap.
From S2P Require Import Prelude OMap Command Config Snapshot MemRow MemTable Sharding.

Section populate.
Context `{ShardEnv}.

(** ** The database and the members of the object *)

Definition on_mdb {A} (m : M Db A) : M Sharding A := fun s =>
  match m (mdb s) with
  | Done (a, d) => Done (a, s <| mdb := d |>)
  | Aborted => Aborted
  | OutOfFuel => OutOfFuel
  end.

Definition on_prim_index (f : Index -> option (Z * Index)) : M Sharding Z := fun s =>
  match f (prim_foreign_index s) with
  | Some (ret, ix) => Done (ret, s <| prim_foreign_index := ix |>)
  | None => Aborted
  end.

(** [dtxn_sched_->get_table]; a null pointer is followed at once. *)
Definition get_table (tb : list Z) : M Sharding Z := s ← get; from_option (find tb (tables_ s)).
Definition table_schema (t : Z) : M Sharding Schema := T ← on_mdb (db_table t); mret (tb_schema T).

(** [frame_->CreateRow], and [table_ptr->insert] *)
Definition CreateRow (schema : Schema) (row_data : list Value) : M Sharding Z :=
  row ← from_option (create schema row_data);
  on_mdb (new_row row).
Definition insert_created (t : Z) (row_data : list Value) : M Sharding Z :=
  schema ← table_schema t;
  p ← CreateRow schema row_data;
  on_mdb (tbl_insert t p);;
  mret p.

Definition push_value (tb : list Z) (i : nat) (v : Value) : M Sharding () :=
  set_col tb i (fun c => c <| cl_values ::= fmap (fun l => l ++ [v]) |>).

(** The column of the table and of its schema agree. *)
Definition same_column (c : column_t) (i : column_info) : M Sharding () :=
  verify (bool_decide (cl_name c = ci_name i));;
  verify (bool_decide (cl_type c = ci_type i)).

(** ** TPC-A *)

(** The first and the last key: those of the last primary column. *)
Fixpoint key_range (n_keys : Z) (cols : list column_t) (infos : list column_info) (range : Value * Value) : M Sharding (Value * Value) :=
  match cols, infos with
  | [], _ => mret range
  | _ :: _, [] => abort
  | c :: cols, i :: infos =>
    same_column c i;;
    range ←
      (if is_primary c then
         verify (ci_indexed i);;
         zero ← from_option (value_get_zero (cl_type c));
         max ← from_option (value_get_n (cl_type c) (i32 n_keys));
         mret (zero, max)
       else mret range);
    key_range n_keys cols infos range
  end.

(** The values of a row; none if its key belongs to another partition. *)
Fixpoint tpca_row (info : tb_info_t) (par_id : Z) (key_value : Value) (cols : list column_t) : M Sharding (option (list Value)) :=
  match cols with
  | [] => mret (Some [])
  | c :: cols =>
    v ←
      (if is_primary c then
         p ← PartitionFromKey [key_value] info;
         mret (if par_id =? p then Some key_value else None)
       else
         match foreign c with
         | Some (ftb, _) =>
           f ← tb_of ftb;
           r ← shard_rand 0 (i32 (u64 (num_records f - 1)));
           v ← from_option (value_get_n (cl_type c) r);
           mret (Some v)
         | None => v ← random_value (cl_type c); mret (Some v)
         end);
    match v with
    | None => mret None
    | Some v => row ← tpca_row info par_id key_value cols; mret (cons v <$> row)
    end
  end.

(** [for (; key_value < max_key; ++key_value) body] *)
Fixpoint for_keys (fuel : nat) (body : Value -> M Sharding ()) (key_value max_key : Value) : M Sharding () :=
  match fuel with
  | O => out_of_fuel
  | S fuel =>
    more ← from_option (value_lt key_value max_key);
    when more
      (body key_value;;
       next ← from_option (value_incr key_value);
       for_keys fuel body next max_key)
  end.

Definition tpca_insert (tb : list Z) (par_id t : Z) (key_value : Value) : M Sharding () :=
  info ← tb_of tb;
  row_data ← tpca_row info par_id key_value (columns info);
  match row_data with
  | Some row_data => _ ← insert_created t row_data; mret ()
  | None => mret ()
  end.

Definition Tpca_PopulateTable (tb : list Z) (par_id : Z) : M Sharding () :=
  info ← tb_of tb;
  t ← get_table (tb_name info);
  schema ← table_schema t;
  '(key_value, max_key) ← key_range (num_records info) (columns info) (visible_columns schema) (V_UNKNOWN, V_UNKNOWN);
  for_keys (Datatypes.S (Z.to_nat (i32 (num_records info)))) (tpca_insert tb par_id t) key_value max_key.

(** ** TPC-C: the secondary tables *)

Definition column_by_name (name : string) (r : Row) : option Value :=
  k ← find_name (str name) (schema_ r); get_column (Z.to_nat k) r.
Definition get_int (v : Value) : option Z := match v with V_I32 i => Some i | _ => None end.
Definition get_str (v : Value) : option (list Z) := match v with V_STR s => Some s | _ => None end.

(** The columns of one schema, in a row of another *)
Definition blobs_by_name (cols : list column_info) (r : Row) : option (list (list Z)) :=
  mapM (fun c => k ← find_name (ci_name c) (schema_ r); get_blob (Z.to_nat k) r) cols.
Definition values_by_name (cols : list column_info) (r : Row) : option (list Value) :=
  mapM (fun c => k ← find_name (ci_name c) (schema_ r); get_column (Z.to_nat k) r) cols.

(** The last order of every customer *)
Definition insert_order_secondary (sec p : Z) : M Sharding () :=
  r ← on_mdb (db_row p);
  cur_o_id_buf ← from_option (v ← column_by_name "o_id" r; get_int v);
  sch_buf ← table_schema sec;
  mb_buf ← from_option (blobs_by_name (filter (fun c => ci_indexed c = true) (visible_columns sch_buf)) r);
  smk ← from_option (multi_key sch_buf mb_buf);
  rs ← on_mdb (t_query sec (REq smk) ORD_ASC);
  match rs with
  | r_buf :: _ =>
    row ← on_mdb (db_row r_buf);
    o_id_buf ← from_option (v ← column_by_name "o_id" row; get_int v);
    when (o_id_buf <? cur_o_id_buf)
      (k ← from_option (find_name (str "o_id") (schema_ row));
       on_mdb (row_update r_buf (Z.to_nat k) (V_I32 cur_o_id_buf)))
  | [] =>
    sec_row_data_buf ← from_option (values_by_name (visible_columns sch_buf) r);
    _ ← insert_created sec sec_row_data_buf;
    mret ()
  end.

(** [strcmp] of the last names, and then the rest of the key *)
Definition insert_c_last (p : Z) : M Sharding () :=
  r ← on_mdb (db_row p);
  c_last_buf ← from_option (v ← column_by_name "c_last" r; get_str v);
  c_id_buf ← from_option (v ← column_by_name "c_id" r; get_int v);
  s ← get;
  mb_buf ← from_option (blobs_by_name (visible_columns (g_c_last_schema s)) r);
  smk ← from_option (multi_key (g_c_last_schema s) mb_buf);
  modify (fun s => s <| g_c_last2id ::= mm_insert (KStr c_last_buf :: smk) c_id_buf |>).

Definition add_c_last_column (name : list Z) (type : kind) : M Sharding () := fun s =>
  match add_column name type true (g_c_last_schema s) with
  | Done (_, schema) => Done (tt, s <| g_c_last_schema := schema |>)
  | Aborted => Aborted
  | OutOfFuel => OutOfFuel
  end.

(** A row of a table other than stock and districts *)
Definition insert_with_secondary (tb : list Z) (t : Z) (sec : option Z) (row_data : list Value) : M Sharding () :=
  p ← insert_created t row_data;
  match sec with Some sec => insert_order_secondary sec p | None => mret () end;;
  when (is_name tb TPCC_TB_CUSTOMER) (insert_c_last p).

(** ** TPC-C: the loops over the rows of a key *)

(** [while (true)]: [body] makes a row, and says whether the rows are enough. *)
Fixpoint insert_rows (fuel : nat) (body : M Sharding bool) (increase : M Sharding Z) : M Sharding () :=
  match fuel with
  | O => out_of_fuel
  | S fuel =>
    enough ← body;
    if (enough : bool) then mret ()
    else
      s ← get;
      ret ← increase;
      if num_self_primary s =? 0 then verify (ret =? 0);; insert_rows fuel body increase
      else if ret =? 0 then insert_rows fuel body increase else mret ()
  end.

(** After a row has been made: [num_self_primary] is 0 when there are fewer records than
    combinations. *)
Definition count_enough (n_records : Z) : M Sharding bool :=
  s ← get;
  if (num_self_primary s =? 0) && (n_records <=? n_row_inserted_ s) then
    modify (fun s => s <| num_self_primary := 1 |>);;
    mret true
  else mret false.

(** [for (; key_value < max_key || num_self_primary == 0; ++key_value) body] *)
Fixpoint for_primary_keys (fuel : nat) (body : Value -> M Sharding ()) (key_value max_key : Value) : M Sharding () :=
  match fuel with
  | O => out_of_fuel
  | S fuel =>
    s ← get;
    more ← from_option (value_lt key_value max_key);
    when (more || (num_self_primary s =? 0))
      (body key_value;;
       next ← from_option (value_incr key_value);
       for_primary_keys fuel body next max_key)
  end.

(** The value of a column that refers to another table and is not of the key.  A table
    that is missing has no rows, from which no value can be chosen. *)
Definition n_of (tb : list Z) : M Sharding Z := t ← tb_of tb; mret (num_records t).
Definition quotient (a b : Z) : M Sharding Z := verify (negb (b =? 0));; mret (a / b).
Definition last4 (name : list Z) : M Sharding (list Z) :=
  verify (4 <=? length name)%nat;; mret (drop (length name - 4) name).

(** The columns whose value is not random, or not only *)
Definition special_value (c : column_t) (key_value v_buf : Value) : M Sharding Value :=
  v_buf ←
    (if is_name (cl_name c) (str "d_next_o_id") then
       o ← n_of TPCC_TB_ORDER; d ← n_of TPCC_TB_DISTRICT; q ← quotient o d; mret (V_I32 (i32 q))
     else mret v_buf);
  if is_name (cl_name c) (str "c_last") then
    i ← from_option (get_int key_value);
    mret (V_STR (int2str_n (Z.rem i 1000) 3))
  else mret v_buf.

(** ** TPC-C, by warehouses *)

Definition tpcc_foreign_value (c : column_t) (ftb : list Z) (fcol : nat) (key_value : Value) : M Sharding Value :=
  fc ← col_of ftb fcol;
  l4 ← last4 (cl_name fc);
  n ←
    (if is_name l4 (str "i_id") then n ← n_of TPCC_TB_ITEM; mret (Some n)
     else if is_name l4 (str "w_id") then n ← n_of TPCC_TB_WAREHOUSE; mret (Some (n * num_partitions))
     else if is_name l4 (str "c_id") then
       (if is_name (cl_name c) (str "o_c_id") then mret None
        else a ← n_of TPCC_TB_CUSTOMER; b ← n_of TPCC_TB_DISTRICT; q ← quotient a b; mret (Some q))
     else if is_name l4 (str "d_id") then a ← n_of TPCC_TB_DISTRICT; b ← n_of TPCC_TB_WAREHOUSE; q ← quotient a b; mret (Some q)
     else n ← n_of ftb; mret (Some n));
  match n with
  | None => mret key_value
  | Some n => r ← shard_rand 0 (i32 (i32 n - 1)); from_option (value_get_n (cl_type c) r)
  end.

(** The value of a primary column; none if the key belongs to another partition. *)
Definition tpcc_key_value (tb : list Z) (par_id : Z) (key_value : Value) (i : nat) : M Sharding (option Value) :=
  info ← tb_of tb;
  c ← col_of tb i;
  s ← get;
  if (length (prim_foreign_index s) =? 0)%nat then
    p ← PartitionFromKey [key_value] info;
    if negb (par_id =? p) then mret None
    else push_value tb i key_value;; mret (Some key_value)
  else
    match foreign c with
    | Some (ftb, fcol) =>
      fc ← col_of ftb fcol;
      e ← from_option (find (Z.of_nat i) (prim_foreign_index s));
      if is_name (cl_name fc) (str "i_id") then mret (Some (V_I32 (i32 e.1)))
      else v ← from_option (l ← cl_values fc; l !! Z.to_nat e.1); mret (Some v)
    | None =>
      when (record_key s && bool_decide (is_Some (cl_values c)))
        (push_value tb i key_value;;
         modify (fun s => s <| record_key := false |>));;
      mret (Some key_value)
    end.

Fixpoint tpcc_row (tb : list Z) (par_id : Z) (key_value : Value) (cols : list nat) : M Sharding (option (list Value)) :=
  match cols with
  | [] => mret (Some [])
  | i :: cols =>
    c ← col_of tb i;
    v ←
      (if is_primary c then tpcc_key_value tb par_id key_value i
       else
         match foreign c with
         | Some (ftb, fcol) => v ← tpcc_foreign_value c ftb fcol key_value; mret (Some v)
         | None => v ← random_value (cl_type c); v ← special_value c key_value v; mret (Some v)
         end);
    match v with
    | None => mret None
    | Some v => row ← tpcc_row tb par_id key_value cols; mret (cons v <$> row)
    end
  end.

Definition tpcc_body (tb : list Z) (par_id t : Z) (sec : option Z) (key_value : Value) : M Sharding bool :=
  info ← tb_of tb;
  row_data ← tpcc_row tb par_id key_value (seq 0 (length (columns info)));
  match row_data with
  | None => mret false
  | Some row_data =>
    insert_with_secondary tb t sec row_data;;
    modify (fun s => s <| n_row_inserted_ ::= fun n => i32 (n + 1) |>);;
    count_enough (num_records info)
  end.

Definition start_key : M Sharding () :=
  _ ← on_prim_index init_index;
  modify (fun s => s <| record_key := true |> <| n_row_inserted_ := 0 |>).

Definition tpcc_key (tb : list Z) (par_id t : Z) (sec : option Z) (key_value : Value) : M Sharding () :=
  start_key;;
  s ← get;
  insert_rows (Datatypes.S (Z.to_nat (combinations (prim_foreign_index s)))) (tpcc_body tb par_id t sec key_value)
    (on_prim_index index_increase).

(** A primary column of a table other than the warehouses; [found] is
    [self_primary_col_find]. *)
Definition tpcc_prepare (tb : list Z) (i : nat) (info : column_info) (found : bool) : M Sharding bool :=
  c ← col_of tb i;
  if negb (is_primary c) then mret found
  else
    verify (ci_indexed info);;
    when (is_name tb TPCC_TB_CUSTOMER && negb (is_name (ci_name info) (str "c_id"))) (add_c_last_column (ci_name info) (ci_type info));;
    match foreign c with
    | Some (ftb, fcol) =>
      fc ← col_of ftb fcol;
      tmp_int ←
        (if is_name (cl_name fc) (str "i_id") then
           n ← n_of ftb;
           set_col tb i (fun c => c <| cl_values ::= fmap (fun _ => (fun k => V_I32 (Z.of_nat k)) <$> seq 0 (Z.to_nat (u32 n))) |>);;
           mret (u32 n)
         else
           l ← from_option (cl_values fc);
           set_col tb i (fun c => c <| cl_values ::= fmap (fun _ => l) |>);;
           mret (u32 (Z.of_nat (length l))));
      verify (0 <? tmp_int);;
      modify (fun s => s <| prim_foreign_index ::= insert (Z.of_nat i) (0, tmp_int) |> <| num_foreign_row ::= fun n => u64 (n * tmp_int) |>);;
      mret found
    | None =>
      verify (negb found);;
      modify (fun s => s <| self_primary_col := Z.of_nat i |>);;
      mret true
    end.

Fixpoint tpcc_prepare_all (tb : list Z) (i : nat) (cols : list column_t) (infos : list column_info) (found : bool) : M Sharding () :=
  match cols, infos with
  | [], _ => mret ()
  | _ :: _, [] => abort
  | c :: cols, info :: infos =>
    same_column c info;;
    found ← tpcc_prepare tb i info found;
    tpcc_prepare_all tb (S i) cols infos found
  end.

Definition begin_populate : M Sharding () :=
  modify (fun s => s <| num_foreign_row := 1 |> <| bound_foreign_index := [] |> <| self_primary_col := 0 |> <| prim_foreign_index := [] |>).

(** The keys of the column that refers to no other table *)
Definition populate_keys (info : tb_info_t) (n_records : Z) (body : Value -> M Sharding ()) : M Sharding () :=
  s ← get;
  verify (negb (num_foreign_row s =? 0));;
  verify ((n_records mod num_foreign_row s =? 0) || (num_records info <? num_foreign_row s));;
  let n := n_records / num_foreign_row s in
  modify (fun s => s <| num_self_primary := n |>);;
  c ← from_option (columns info !! Z.to_nat (self_primary_col s));
  key_value ← from_option (value_get_zero (cl_type c));
  max_key ← from_option (value_get_n (cl_type c) (i32 n));
  for_primary_keys (Z.to_nat (i32 n) + 2) body key_value max_key.

Fixpoint warehouse_row (info : tb_info_t) (tb : list Z) (par_id : Z) (key_value : Value) (cols : list nat) : M Sharding (option (list Value)) :=
  match cols with
  | [] => mret (Some [])
  | i :: cols =>
    c ← col_of tb i;
    v ←
      (if is_primary c then
         p ← PartitionFromKey [key_value] info;
         if par_id =? p then push_value tb i key_value;; mret (Some key_value) else mret None
       else
         match foreign c with
         | Some _ => abort
         | None => v ← random_value (cl_type c); mret (Some v)
         end);
    match v with
    | None => mret None
    | Some v => row ← warehouse_row info tb par_id key_value cols; mret (cons v <$> row)
    end
  end.

Definition warehouse_insert (tb : list Z) (par_id t : Z) (key_value : Value) : M Sharding () :=
  info ← tb_of tb;
  row_data ← warehouse_row info tb par_id key_value (seq 0 (length (columns info)));
  match row_data with
  | Some row_data => _ ← insert_created t row_data; mret ()
  | None => mret ()
  end.

Definition secondary_table (tb : list Z) : M Sharding (option Z) :=
  if is_name tb TPCC_TB_ORDER then sec ← get_table TPCC_TB_ORDER_C_ID_SECONDARY; mret (Some sec) else mret None.

Definition Tpcc_PopulateTable (tb : list Z) (par_id : Z) : M Sharding () :=
  info ← tb_of tb;
  t ← get_table (tb_name info);
  schema ← table_schema t;
  verify (columns_count schema =? length (columns info))%nat;;
  if is_name (tb_name info) TPCC_TB_WAREHOUSE then
    let n := num_records info * num_partitions in
    '(key_value, max_key) ← key_range n (columns info) (visible_columns schema) (V_UNKNOWN, V_UNKNOWN);
    for_keys (Datatypes.S (Z.to_nat (i32 n))) (warehouse_insert tb par_id t) key_value max_key
  else
    begin_populate;;
    sec ← secondary_table (tb_name info);
    tpcc_prepare_all tb 0 (columns info) (visible_columns schema) false;;
    when (is_name tb TPCC_TB_CUSTOMER) (add_c_last_column (str "c_id") I32);;
    populate_keys info (num_records info) (tpcc_key tb par_id t sec).

(** ** TPC-C, by districts; also the way of the other benchmarks *)

Definition ends_with (suffix : string) (name : list Z) : bool :=
  (length (str suffix) <=? length name)%nat && is_name (drop (length name - length (str suffix)) name) (str suffix).

Definition tpccd_foreign_value (c : column_t) (ftb : list Z) (fcol : nat) (key_value : Value) : M Sharding Value :=
  fc ← col_of ftb fcol;
  _ ← last4 (cl_name fc);
  verify (bool_decide (foreign_col_name c = cl_name fc));;
  n ←
    (if ends_with "i_id" (foreign_col_name c) then n ← n_of TPCC_TB_ITEM; mret (Some n)
     else if ends_with "w_id" (foreign_col_name c) then n ← n_of TPCC_TB_WAREHOUSE; mret (Some n)
     else if ends_with "c_id" (foreign_col_name c) then
       (if is_name (cl_name c) (str "o_c_id") then mret None
        else a ← n_of TPCC_TB_CUSTOMER; b ← n_of TPCC_TB_DISTRICT; q ← quotient a b; mret (Some q))
     else if ends_with "d_id" (foreign_col_name c) then
       a ← n_of TPCC_TB_DISTRICT; b ← n_of TPCC_TB_WAREHOUSE; q ← quotient (u64 (num_partitions * a)) b; mret (Some q)
     else n ← n_of ftb; mret (Some n));
  match n with
  | None => mret key_value
  | Some n => r ← shard_rand 0 (i32 (u64 (n - 1))); from_option (value_get_n (cl_type c) r)
  end.

(** A primary column; none if the key belongs to another partition. *)
Definition tpccd_key_value (tb : list Z) (sid : Z) (key_value : Value) (i : nat) : M Sharding (option Value) :=
  info ← tb_of tb;
  c ← col_of tb i;
  s ← get;
  if (length (prim_foreign_index s) =? 0)%nat then
    mine ←
      (if is_name (tb_name info) TPCC_TB_WAREHOUSE || is_name (tb_name info) TPCC_TB_ITEM then mret true
       else p ← PartitionFromKey [key_value] info; mret (sid =? p));
    if negb mine then mret None
    else push_value tb i key_value;; mret (Some key_value)
  else
    match foreign c with
    | Some (ftb, fcol) =>
      fc ← col_of ftb fcol;
      e ← from_option (find (Z.of_nat i) (prim_foreign_index s));
      if is_name (cl_name fc) (str "i_id") || is_name (cl_name fc) (str "w_id") then mret (Some (V_I32 (i32 e.1)))
      else v ← from_option (l ← cl_values fc; l !! Z.to_nat e.1); mret (Some v)
    | None =>
      when (record_key s && bool_decide (is_Some (cl_values c)) && negb (is_name (tb_name info) TPCC_TB_DISTRICT))
        (push_value tb i key_value;;
         modify (fun s => s <| record_key := false |>));;
      mret (Some key_value)
    end.

Fixpoint GenerateRowData (tb : list Z) (sid : Z) (key_value : Value) (cols : list nat) : M Sharding (option (list Value)) :=
  match cols with
  | [] => mret (Some [])
  | i :: cols =>
    c ← col_of tb i;
    v ←
      (if is_primary c then tpccd_key_value tb sid key_value i
       else
         match foreign c with
         | Some (ftb, fcol) => v ← tpccd_foreign_value c ftb fcol key_value; mret (Some v)
         | None => v ← random_value (cl_type c); v ← special_value c key_value v; mret (Some v)
         end);
    match v with
    | None => mret None
    | Some v => row ← GenerateRowData tb sid key_value cols; mret (cons v <$> row)
    end
  end.

Definition row_inserted : M Sharding () := modify (fun s => s <| n_row_inserted_ ::= fun n => i32 (n + 1) |>).

(** The columns of the key *)
Definition row_keys (schema : Schema) (row_data : list Value) : option (list Value) :=
  mapM (fun c => row_data !! Z.to_nat c) (key_cols_id_ schema).

Definition InsertRowData (tb : list Z) (partition_id t : Z) (sec : option Z) (row_data : list Value) : M Sharding () :=
  info ← tb_of tb;
  schema ← table_schema t;
  if is_name (tb_name info) TPCC_TB_STOCK || is_name (tb_name info) TPCC_TB_DISTRICT then
    mv ← from_option (row_keys schema row_data);
    p ← PartitionFromKey mv info;
    when (partition_id =? p)
      (row_inserted;;
       _ ← insert_created t row_data;
       when (is_name (tb_name info) TPCC_TB_DISTRICT)
         (for_each (zip (key_cols_id_ schema) mv) (fun kv =>
            c ← col_of tb (Z.to_nat kv.1);
            verify (bool_decide (is_Some (cl_values c)));;
            push_value tb (Z.to_nat kv.1) kv.2)))
  else
    row_inserted;;
    insert_with_secondary (tb_name info) t sec row_data.

Definition tpccd_body (tb : list Z) (partition_id t : Z) (sec : option Z) (key_value : Value) : M Sharding bool :=
  info ← tb_of tb;
  row_data ← GenerateRowData tb partition_id key_value (seq 0 (length (columns info)));
  match row_data with
  | None => mret false
  | Some row_data =>
    InsertRowData tb partition_id t sec row_data;;
    count_enough (num_records info)
  end.

Definition increase_bound : M Sharding Z :=
  s ← get;
  on_prim_index (fun ix => index_increase_bound ix (bound_foreign_index s)).

Definition tpccd_key (tb : list Z) (partition_id t : Z) (sec : option Z) (key_value : Value) : M Sharding () :=
  start_key;;
  s ← get;
  insert_rows (Datatypes.S (Z.to_nat (combinations (prim_foreign_index s)))) (tpccd_body tb partition_id t sec key_value) increase_bound.

Definition drop_values (tb : list Z) (i : nat) : M Sharding () := set_col tb i (fun c => c <| cl_values := None |>).

(** The number of values of a foreign column: of all items and warehouses, or of those
    of this partition *)
Definition foreign_base (tb : list Z) (i : nat) (c : column_t) (ftb : list Z) (fcol : nat) : M Sharding Z :=
  fc ← col_of ftb fcol;
  tmp_int ← n_of ftb;
  let times := modify (fun s => s <| num_foreign_row ::= fun n => u64 (n * tmp_int) |>) in
  if is_name (cl_name fc) (str "i_id") then
    drop_values tb i;; times;; mret tmp_int
  else if is_name (cl_name fc) (str "w_id") then
    when (bool_decide (is_Some (cl_values c)))
      (if is_name tb TPCC_TB_STOCK then drop_values tb i else verify (is_name tb TPCC_TB_DISTRICT));;
    times;; mret tmp_int
  else
    s ← get;
    when (num_foreign_row s =? 1) times;;
    l ← from_option (cl_values fc);
    let base := Z.of_nat (length l) in
    when (ends_with "w_id" (cl_name fc) || ends_with "d_id" (cl_name fc))
      (match bound_foreign_index s with
       | b :: _ => verify (base =? (index (0, 0) b (prim_foreign_index s)).1.2)
       | [] => mret ()
       end;;
       modify (fun s => s <| bound_foreign_index ::= fun l => l ++ [Z.of_nat i] |>));;
    set_col tb i (fun c => c <| cl_values ::= fmap (fun _ => l) |>);;
    mret base.

Definition PreparePrimaryColumn (tb : list Z) (i : nat) (info : column_info) : M Sharding () :=
  c ← col_of tb i;
  when (is_primary c)
    (verify (ci_indexed info);;
     when (is_name tb TPCC_TB_CUSTOMER && negb (is_name (ci_name info) (str "c_id"))) (add_c_last_column (ci_name info) (ci_type info));;
     match foreign c with
     | Some (ftb, fcol) =>
       base ← foreign_base tb i c ftb fcol;
       verify (0 <? base);;
       modify (fun s => s <| prim_foreign_index ::= insert (Z.of_nat i) (0, u32 base) |>)
     | None =>
       modify (fun s => s <| self_primary_col := Z.of_nat i |>);;
       when (is_name (cl_name c) (str "i_id") || is_name (cl_name c) (str "w_id")) (drop_values tb i)
     end).

Fixpoint tpccd_prepare_all (tb : list Z) (i : nat) (cols : list column_t) (infos : list column_info) : M Sharding () :=
  match cols, infos with
  | [], _ => mret ()
  | _ :: _, [] => abort
  | c :: cols, info :: infos =>
    same_column c info;;
    PreparePrimaryColumn tb i info;;
    tpccd_prepare_all tb (S i) cols infos
  end.

Definition Tpccd_PopulateTable (tb : list Z) (partition_id : Z) : M Sharding () :=
  info ← tb_of tb;
  t ← get_table (tb_name info);
  schema ← table_schema t;
  sec ← secondary_table (tb_name info);
  verify (columns_count schema =? length (columns info))%nat;;
  begin_populate;;
  tpccd_prepare_all tb 0 (columns info) (visible_columns schema);;
  when (is_name tb TPCC_TB_CUSTOMER) (add_c_last_column (str "c_id") I32);;
  let loc_num_records :=
    if is_name (tb_name info) TPCC_TB_DISTRICT then u64 (num_records info * num_partitions) else num_records info in
  populate_keys info loc_num_records (tpccd_key tb partition_id t sec).

(** ** All tables of a partition *)

Definition PopulateTable : list Z -> Z -> M Sharding () :=
  match benchmark_ with
  | TPCA => Tpca_PopulateTable
  | TPCC => Tpcc_PopulateTable
  | TPCC_REAL_DIST_PART | RW_BENCHMARK | RETWIS => Tpccd_PopulateTable
  end.

(** No column refers to values that have not been put in yet; TPC-A does not look. *)
Definition column_ready (c : column_t) : M Sharding bool :=
  match foreign c with
  | None => mret true
  | Some (ftb, fcol) =>
    fc ← col_of ftb fcol;
    mret (negb (bool_decide (cl_values fc = Some [])))
  end.
Fixpoint all_ready (cols : list column_t) : M Sharding bool :=
  match cols with
  | [] => mret true
  | c :: cols => r ← column_ready c; if (r : bool) then all_ready cols else mret false
  end.
Definition Ready2Populate (tb : list Z) : M Sharding bool :=
  match benchmark_ with
  | TPCA => mret true
  | _ => info ← tb_of tb; all_ready (columns info)
  end.

(** One table in a pass over the tables: whether it has been populated *)
Definition populate_one (par_id : Z) (tb : list Z) : M Sharding bool :=
  info ← tb_of tb;
  verify (bool_decide (tb = tb_name info));;
  set_tb tb (fun t => t <| populated ::= insert_new par_id false |>);;
  info ← tb_of tb;
  ready ← (if default false (find par_id (populated info)) then mret false else Ready2Populate tb);
  if (ready : bool) then
    PopulateTable tb par_id;;
    set_tb tb (fun t => t <| populated ::= insert par_id true |>);;
    mret true
  else mret false.

Fixpoint populate_pass (par_id : Z) (tbs : list (list Z)) : M Sharding nat :=
  match tbs with
  | [] => mret O
  | tb :: tbs => b ← populate_one par_id tb; n ← populate_pass par_id tbs; mret ((if (b : bool) then 1 else 0) + n)%nat
  end.

(** [do ... while (n_left > 0)]; the number is a [size_t]. *)
Fixpoint populate_rounds (fuel : nat) (par_id : Z) (n_left : Z) : M Sharding () :=
  match fuel with
  | O => out_of_fuel
  | S fuel =>
    s ← get;
    n ← populate_pass par_id (tb_infos_ s).*1;
    verify (0 <? n)%nat;;
    let n_left := u64 (n_left - Z.of_nat n) in
    if 0 <? n_left then populate_rounds fuel par_id n_left else mret ()
  end.

Definition PopulateTables (par_id : Z) : M Sharding Z :=
  s ← get;
  let n_left := length (tb_infos_ s) in
  verify (0 <? n_left)%nat;;
  populate_rounds (S n_left) par_id (Z.of_nat n_left);;
  release_foreign_values;;
  mret 0.

(** ** The worker of a site *)

(** [Scheduler::reg_table]: the orders get a table of the last order of each customer. *)
Definition register (name : list Z) (t : Z) : M Sharding () :=
  s ← get;
  verify (negb (count name (tables_ s)));;
  modify (fun s => s <| tables_ ::= insert name t |>).

Definition order_secondary_schema (o_schema : Schema) : M Schema () :=
  for_each (visible_columns o_schema) (fun it =>
    when (ci_indexed it && negb (is_name (ci_name it) (str "o_id"))) (_ ← add_column (ci_name it) (ci_type it) true; mret ()));;
  _ ← add_column (str "o_c_id") I32 true;
  _ ← add_column (str "o_id") I32 false;
  mret ().

Definition run_schema {A} (m : M Schema A) : M Sharding (A * Schema) :=
  match m new_Schema with
  | Done x => mret x
  | Aborted => abort
  | OutOfFuel => out_of_fuel
  end.

Definition reg_table (name : list Z) (t : Z) : M Sharding () :=
  register name t;;
  when (is_name name TPCC_TB_ORDER)
    (o_schema ← table_schema t;
     schema ← run_schema (order_secondary_schema o_schema);
     sec ← on_mdb (new_SortedTable schema.2);
     register TPCC_TB_ORDER_C_ID_SECONDARY sec).

(** The loaders make every table a sorted one. *)
Definition create_table (name : list Z) : M Sharding () :=
  s ← get;
  '((_, symbol), schema) ← run_schema (init_schema name s);
  match symbol with
  | Some TBL_SORTED => t ← on_mdb (new_SortedTable schema); reg_table name t
  | _ => abort
  end.

Definition PopTable (partition_id : Z) : M Sharding () :=
  table_names ← GetTableNames partition_id;
  for_each table_names create_table;;
  _ ← PopulateTables partition_id;
  mret ().
End populate.

(** ** Loading the description of the tables *)

(** A column of a table in the file; [y_foreign] is empty or a table, a dot and a column. *)
Record YColumn := mk_ycolumn { y_type : list Z; y_name : list Z; y_primary : bool; y_foreign : list Z }.

Definition kind_of_name (c_type : list Z) : option kind :=
  if is_name c_type (str "i32") || is_name c_type (str "integer") then Some I32
  else if is_name c_type (str "i64") then Some I64
  else if is_name c_type (str "double") then Some DOUBLE
  else if is_name c_type (str "str") || is_name c_type (str "string") then Some STR
  else None.

(** [find('.')] and the two [substr] *)
Fixpoint split_dot (s : list Z) : option (list Z * list Z) :=
  match s with
  | [] => None
  | c :: s => if c =? 46 then Some ([], s) else '(a, b) ← split_dot s; Some (c :: a, b)
  end.

Definition LoadSchemaTableColumnYML (column : YColumn) : option column_t :=
  type ← kind_of_name (y_type column);
  _ ← guard_ (negb (length (y_name column) =? 0)%nat);
  match y_foreign column with
  | [] => Some (new_column type (y_name column) (y_primary column) false [] [])
  | f =>
    '(ftbl, fcol) ← split_dot f;
    _ ← guard_ (negb (length fcol =? 0)%nat);
    Some (new_column type (y_name column) (y_primary column) true ftbl fcol)
  end.

(** The population of [LoadBenchYML]: the name of a table and its number of records *)
Definition load_population (scale_factor : Z) (population : list (list Z * Z)) : M Sharding () :=
  for_each population (fun it =>
    modify (fun s => s <| tb_infos_ ::= insert_new it.1 new_tb_info |>);;
    set_tb it.1 (fun t => t <| num_records := u32 (scale_factor * it.2) |>);;
    t ← tb_of it.1;
    verify (0 <? num_records t)).

Definition LoadSchemaYML (tables : list (list Z * list YColumn)) : M Sharding () :=
  for_each tables (fun it =>
    modify (fun s => s <| tb_infos_ ::= insert_new it.1 new_tb_info |>);;
    cols ← from_option (mapM LoadSchemaTableColumnYML it.2);
    set_tb it.1 (fun t => t <| columns ::= fun l => l ++ cols |> <| tb_name := it.1 |>));;
  BuildTableInfoPtr.

(** The method that is read is not stored. *)
Definition LoadShardingYML (cfg : Config) (methods : list (list Z * list Z)) : M Sharding () :=
  for_each methods (fun it =>
    _ ← tb_of it.1;
    for_each (replica_groups_ cfg) (fun g =>
      set_tb it.1 (fun t => t <| par_ids ::= fun l => l ++ [partition_id g] |> <| symbol := TBL_SORTED |>));;
    t ← tb_of it.1;
    verify (0 <? length (par_ids t))%nat).

(** [InitTPCCD]: the pairs of a district or an item and a warehouse, in order *)
Definition pairs (n m : Z) : list (list Value) :=
  d ← (fun k => Z.of_nat k) <$> seq 0 (Z.to_nat n);
  (fun w => [V_I32 d; V_I32 (Z.of_nat w)]) <$> seq 0 (Z.to_nat m).

Definition InitTPCCD `{ShardEnv} : M Sharding () :=
  let records tb := t ← state (fun s => let '(t, m) := index new_tb_info tb (tb_infos_ s) in (t, s <| tb_infos_ := m |>));
                    mret (num_records t) in
  when (bool_decide (benchmark_ = TPCC_REAL_DIST_PART))
    (n ← records TPCC_TB_WAREHOUSE;
     let n_w_id := i32 n in
     verify (0 <? n_w_id);;
     d ← records TPCC_TB_DISTRICT;
     for_each (pairs (i32 (u64 (num_partitions * d) / n_w_id)) n_w_id) insert_dist_mapping;;
     i ← records TPCC_TB_ITEM;
     for_each (pairs (i32 i) n_w_id) insert_stock_mapping).

(** The tables as the configuration has them, and as the worker of a site copies them *)
Definition load_tables `{ShardEnv} (scale_factor : Z) (population : list (list Z * Z)) (tables : list (list Z * list YColumn))
    (methods : list (list Z * list Z)) : M Sharding () :=
  load_population scale_factor population;;
  LoadSchemaYML tables;;
  LoadShardingYML sh_cfg methods;;
  InitTPCCD.

Definition start_worker `{ShardEnv} (partition_id : Z) (sd : Sharding) : result (() * Sharding) :=
  (BuildTableInfoPtr;; PopTable partition_id) (copy_Sharding sd).
