(* ===== verification/PopulateThm.v ===== *)
(** * Populating the tables: every record is in one partition

    The tables of TPC-A that the workers of all partitions fill, put together, hold every
    record once, in the partition to which requests for it are sent. *)
From Stdlib Require Import Strings.String.
From stdpp Require Import base tactics numbers list sorting gmap.
From S2P Require Import Prelude OMap Command Config Snapshot MemRow MemRowSpec MemTable MemTableInv Sharding Populate.

(** ** Running loops to their end *)

Lemma for_each_runs {St A} (f : A -> M St ()) (I : nat -> St -> Prop) (l : list A) s :
  I O s -> (forall i x s, l !! i = Some x -> I i s -> exists s', f x s = Done (tt, s') /\ I (S i) s') ->
  exists s', for_each l f s = Done (tt, s') /\ I (length l) s'.
Proof.
  revert I s. induction l as [|x l IH]; intros I s H0 Hf; [by exists s|].
  destruct (Hf O x s eq_refl H0) as (s1 & E1 & H1). destruct (IH (fun i => I (S i)) s1 H1) as (s2 & E2 & H2).
  - intros i y s2 Hy. by apply (Hf (S i)).
  - exists s2. split; [|done]. cbn. by rewrite (bind_eq _ _ _ _ _ E1).
Qed.

(** ** Maps with the same keys *)

Section same_keys.
Context `{OrdKey K}.

Lemma find_Forall2 {A B} (P : A -> B -> Prop) (m : omap K A) (m' : omap K B) k x :
  Forall2 (fun e e' => e.1 = e'.1 /\ P e.2 e'.2) m m' -> find k m = Some x -> exists y, find k m' = Some y /\ P x y.
Proof.
  induction 1 as [|[k1 x1] [k2 y2] m m' [E HP] _ IH]; cbn in *; [done|]. subst k2. case_decide; [intros [= <-]; eauto|done].
Qed.

Lemma insert_Forall2 {A B} (P : A -> B -> Prop) (m : omap K A) (m' : omap K B) k x y :
  sorted_keys m -> Forall2 (fun e e' => e.1 = e'.1 /\ P e.2 e'.2) m m' -> is_Some (find k m) -> find k m' = Some y -> P x y ->
  Forall2 (fun e e' => e.1 = e'.1 /\ P e.2 e'.2) (insert k x m) m'.
Proof.
  intros Hs Hm. revert Hs. induction Hm as [|[k1 x1] [k2 y2] m m' [E HP] Hm IH]; intros Hs Hk Hk' Hxy; [by destruct Hk|].
  cbn in *. subst k2. apply StronglySorted_inv in Hs as [Hs Hlt]. destruct (decide (k = k1)) as [->|Hne]; [injection Hk' as ->; by constructor|].
  assert (key_ltb k k1 = false) as ->.
  { apply key_lt_asym. rewrite Forall_forall in Hlt. apply Hlt. by apply find_key_in. }
  constructor; [done|]. by apply IH.
Qed.

Lemma Forall2_keys {A B} (P : A -> B -> Prop) (m : omap K A) (m' : omap K B) :
  Forall2 (fun e e' => e.1 = e'.1 /\ P e.2 e'.2) m m' -> m.*1 = m'.*1.
Proof. induction 1 as [|e e' m m' [E _] _ IH]; cbn; congruence. Qed.
End same_keys.

(** ** Rows of a sorted table *)

Lemma mm_insert_last k (p : Z) (l : list (list keypart * Z)) : Forall (fun e => key_ltb e.1 k = true) l -> mm_insert k p l = l ++ [(k, p)].
Proof.
  intros Hl. unfold mm_insert. assert (above_key k l = [] /\ upto_key k l = l) as [-> ->]; [|done].
  induction Hl as [|[j q] l Hj _ [IH1 IH2]]; [done|]. unfold above_key, upto_key in *. cbn [fst] in *. fold (above_key (A:=Z) k) in *.
  rewrite (key_lt_asym _ _ Hj). split; [done|]. by rewrite IH2.
Qed.

(** The schema of columns with the given names, types and keys; the key is the column [pri]. *)
Record schema_for (cols : list column_t) (pri : nat) (S : Schema) : Prop := {
  sf_wf : schema_wf S;
  sf_hidden : hidden_fixed_ S = 0%nat /\ hidden_var_ S = 0%nat;
  sf_cols : Forall2 (fun c i => ci_name i = cl_name c /\ ci_type i = cl_type c /\ ci_indexed i = is_primary c) cols (col_info_ S);
  sf_key : key_cols_id_ S = [Z.of_nat pri];
}.

Lemma schema_for_visible cols pri S : schema_for cols pri S -> visible_columns S = col_info_ S.
Proof. intros Hs. apply visible_all; apply Hs. Qed.

(** ** Descriptions of tables

    Tables of integers with one key column, as those of TPC-A are. *)

Definition int_kind (k : kind) : bool := match k with I32 | I64 => true | _ => false end.
Definition int_value (k : kind) (n : Z) : Value := match k with I32 => V_I32 n | _ => V_I64 n end.

Definition target_ok (m : omap (list Z) tb_info_t) (c : column_t) : bool :=
  negb (length (foreign_col_name c) =? 0)%nat &&
  match find (foreign_tbl_name c) m with
  | None => false
  | Some f =>
    match column_index (foreign_col_name c) (columns f) with
    | None => false
    | Some k => match columns f !! k with Some fc => bool_decide (cl_type fc = cl_type c) | None => false end
    end
  end.

Definition column_ok (m : omap (list Z) tb_info_t) (c : column_t) : bool :=
  int_kind (cl_type c) && (negb (is_foreign c) || target_ok m c).

Definition table_ok `{ShardEnv} (m : omap (list Z) tb_info_t) (e : list Z * tb_info_t) : bool :=
  let i := e.2 in
  is_name (tb_name i) e.1 && negb (is_name e.1 TPCC_TB_ORDER) && forallb (column_ok m) (columns i) &&
  bool_decide (NoDup (cl_name <$> columns i)) && (length (filter (fun c => is_primary c = true) (columns i)) =? 1)%nat &&
  (0 <? num_records i) && (num_records i <? 2 ^ 31) && bool_decide (symbol i = TBL_SORTED) && bool_decide (populated i = []) &&
  forallb (fun p => existsb (Z.eqb (Z.of_nat p)) (par_ids i)) (seq 0 (Z.to_nat num_partitions)).

Fixpoint increasing (l : list (list Z)) : bool :=
  match l with
  | [] => true
  | k :: l => forallb (key_ltb k) l && increasing l
  end.

Definition well_described `{ShardEnv} (m : omap (list Z) tb_info_t) : bool :=
  (0 <? length m)%nat && increasing m.*1 && forallb (table_ok m) m.

Lemma increasing_sorted {A} (m : omap (list Z) A) : increasing m.*1 = true -> sorted_keys m.
Proof.
  unfold sorted_keys. induction (m.*1) as [|k l IH]; cbn; [constructor|]. intros [Hk Hl]%andb_true_iff. constructor; [by apply IH|].
  apply Forall_forall. intros x Hx. rewrite forallb_forall in Hk. apply Hk. by apply list_elem_of_In.
Qed.

Section tpca.
Context `{ShardEnv}.
Context (Hb : benchmark_ = TPCA) (HP : 0 < num_partitions < 2 ^ 32) (Hrand : forall n, 0 <= sh_rand_r n <= RAND_MAX).
Context (m0 : omap (list Z) tb_info_t) (Hm0 : well_described m0 = true).

Lemma m0_sorted : sorted_keys m0.
Proof. apply increasing_sorted. apply andb_true_iff in Hm0 as [[_ ?]%andb_true_iff _]. done. Qed.
Lemma m0_nonempty : (0 < length m0)%nat.
Proof. apply andb_true_iff in Hm0 as [[?%Nat.ltb_lt _]%andb_true_iff _]. done. Qed.

(** What [table_ok] says *)
Record described (tb : list Z) (i : tb_info_t) : Prop := {
  de_name : tb_name i = tb;
  de_order : tb ≠ TPCC_TB_ORDER;
  de_cols : Forall (fun c => int_kind (cl_type c) = true /\ (is_foreign c = true -> target_ok m0 c = true)) (columns i);
  de_names : NoDup (cl_name <$> columns i);
  de_key : exists k c, columns i !! k = Some c /\ is_primary c = true /\ forall j c', columns i !! j = Some c' -> is_primary c' = true -> j = k;
  de_records : 0 < num_records i < 2 ^ 31;
  de_symbol : symbol i = TBL_SORTED;
  de_fresh : populated i = [];
  de_pars : forall p, 0 <= p < num_partitions -> existsb (Z.eqb p) (par_ids i) = true;
}.

Lemma filter_one {A} (P : A -> Prop) `{!forall x, Decision (P x)} l : length (filter P l) = 1%nat ->
  exists k x, l !! k = Some x /\ P x /\ forall j y, l !! j = Some y -> P y -> j = k.
Proof.
  induction l as [|x l IH]; [done|]. rewrite filter_cons. case_decide as Hx; cbn.
  - intros [= Hl%nil_length_inv]. exists O, x. split_and!; [done..|]. intros [|j] y Hy HPy; [done|]. exfalso.
    assert (y ∈ filter P l) as Hin by (apply list_elem_of_filter; split; [done|by eapply list_elem_of_lookup_2]). rewrite Hl in Hin. by apply not_elem_of_nil in Hin.
  - intros (k & y & Hy & HPy & Hu)%IH. exists (S k), y. split_and!; [done..|]. intros [|j] z Hz HPz; [by injection Hz as ->|]. f_equal. by eapply Hu.
Qed.

Lemma m0_described tb i : find tb m0 = Some i -> described tb i.
Proof.
  intros Hf%find_elem_of. apply andb_true_iff in Hm0 as [_ Ht]. rewrite forallb_forall in Ht. specialize (Ht _ (proj1 (list_elem_of_In _ _) Hf)).
  unfold table_ok, is_name in Ht. cbn [fst snd] in Ht. rewrite !andb_true_iff in Ht.
  destruct Ht as [[[[[[[[[T1%bool_decide_eq_true T2%negb_true_iff%bool_decide_eq_false] T3] T4%bool_decide_eq_true] T5%Nat.eqb_eq] T6%Z.ltb_lt] T7%Z.ltb_lt] T8%bool_decide_eq_true] T9%bool_decide_eq_true] T10].
  split; try done.
  - rewrite Forall_forall. intros c Hc. rewrite forallb_forall in T3. specialize (T3 c (proj1 (list_elem_of_In _ _) Hc)). apply andb_true_iff in T3 as [T3 T3'].
    split; [done|]. intros Hfo. by rewrite Hfo in T3'.
  - destruct (filter_one _ _ T5) as (k & c & Hk & Hc & Hu). by exists k, c.
  - intros p Hp. rewrite forallb_forall in T10. specialize (T10 (Z.to_nat p)). rewrite Z2Nat.id in T10 by lia. apply T10. apply in_seq. lia.
Qed.

(** ** Keys *)

Lemma int_value_kind k n : int_kind k = true -> get_kind (int_value k n) = k.
Proof. by destruct k. Qed.
Lemma int_value_ok k n : in_s 32 n -> value_ok (int_value k n).
Proof. unfold in_s. destruct k; cbn; unfold in_s; lia. Qed.
Lemma int_value_n k n : int_kind k = true -> value_get_n k n = Some (int_value k n).
Proof. by destruct k. Qed.
Lemma int_value_zero k : int_kind k = true -> value_get_zero k = Some (int_value k 0).
Proof. by destruct k. Qed.
Lemma int_value_lt k a b : int_kind k = true -> value_lt (int_value k a) (int_value k b) = Some (a <? b).
Proof. unfold value_lt. destruct k; try done; cbn; intros _; destruct (Z.ltb_spec a b); try done; destruct (Z.eqb_spec a b); done. Qed.
Lemma int_value_incr k n : int_kind k = true -> 0 <= n < 2 ^ 31 - 1 -> value_incr (int_value k n) = Some (int_value k (n + 1)).
Proof. intros Hk Hn. destruct k; try done; cbn; do 2 f_equal; apply wrap_s_id; unfold in_s; lia. Qed.

Lemma partition_of_key k n info s : int_kind k = true -> 0 <= n < 2 ^ 31 ->
  PartitionFromKey [int_value k n] info s = Done (n mod num_partitions, s).
Proof.
  intros Hk Hn. unfold PartitionFromKey. rewrite Hb, bool_decide_false by done. cbn [negb]. unfold mbind, M_bind, mret, M_ret, modulus, int_modulus.
  rewrite (wrap_u_id 32 num_partitions) by (unfold in_u; lia).
  rewrite !(hash_int _ num_partitions n) by (try done; destruct k; auto). by destruct (sharding_method info).
Qed.

(** ** Random values *)

Definition reads (n : nat) (s : Sharding) : Sharding := s <| shard_rand_reads_ := n |>.

Lemma shard_rand_runs min max s : 0 <= min <= max -> max <= RAND_MAX ->
  exists r, shard_rand min max s = Done (r, reads (S (shard_rand_reads_ s)) s) /\ min <= r <= max.
Proof.
  intros Hm Hx. unfold shard_rand, RandomGenerator_rand. cbn. destruct (Z.ltb_spec max min); [lia|]. cbn.
  eexists. split; [done|]. pose proof (Hrand (shard_rand_reads_ s)). pose proof (Z.rem_bound_pos (sh_rand_r (shard_rand_reads_ s)) (max - min + 1)). lia.
Qed.

Lemma random_value_runs k s : int_kind k = true ->
  exists v n, random_value k s = Done (v, reads n s) /\ get_kind v = k /\ value_ok v.
Proof.
  intros Hk. destruct (shard_rand_runs 0 RAND_MAX s) as (r & E & Hr); [done..|]. unfold RAND_MAX in Hr.
  destruct k; try done; cbn [random_value]; rewrite (bind_eq _ _ _ _ _ E); eexists _, _; (split; [done|]; split; [done|]); cbn; unfold in_s; lia.
Qed.

(** The tables of a site have the descriptions of [m0], but for what is filled in later. *)
Record like (i i0 : tb_info_t) : Prop := {
  lk_name : tb_name i = tb_name i0;
  lk_records : num_records i = num_records i0;
  lk_symbol : symbol i = symbol i0;
  lk_pars : par_ids i = par_ids i0;
  lk_method : sharding_method i = sharding_method i0;
  lk_cols : Forall2 (fun c c0 => copy_column c = copy_column c0) (columns i) (columns i0);
  lk_foreign : Forall (fun c => forall ftb j, foreign c = Some (ftb, j) -> ftb ∈ m0.*1) (columns i);
}.
Definition alike (s : Sharding) : Prop := Forall2 (fun e e0 => e.1 = e0.1 /\ like e.2 e0.2) (tb_infos_ s) m0.

Lemma alike_find s tb i : alike s -> find tb (tb_infos_ s) = Some i -> exists i0, find tb m0 = Some i0 /\ like i i0.
Proof. intros Ha. by apply find_Forall2. Qed.
Lemma alike_sorted s : alike s -> sorted_keys (tb_infos_ s).
Proof. intros Ha. unfold sorted_keys. rewrite (Forall2_keys _ _ _ Ha). apply m0_sorted. Qed.
Lemma alike_get s tb : alike s -> tb ∈ m0.*1 -> exists i i0, find tb (tb_infos_ s) = Some i /\ find tb m0 = Some i0 /\ like i i0 /\ tb_of tb s = Done (i, s).
Proof.
  intros Ha Hin. rewrite <- (Forall2_keys _ _ _ Ha) in Hin. apply find_key_in in Hin as [i Hi].
  destruct (alike_find s tb i Ha Hi) as (i0 & Hi0 & Hl). exists i, i0. split_and!; [done..|].
  unfold tb_of, get, mbind, M_bind. by rewrite Hi.
Qed.

(** ** The values of a row *)

(** A column as it is given: its type and whether it is of the key *)
Definition col_spec (c : column_t) (v : Value) : Prop := get_kind v = cl_type c /\ value_ok v.

Lemma tpca_row_runs info par kv h cols s :
  alike s -> (forall n, PartitionFromKey [kv] info (reads n s) = Done (h, reads n s)) -> value_ok kv ->
  Forall (fun c => int_kind (cl_type c) = true /\ (is_primary c = true -> cl_type c = get_kind kv) /\
    forall ftb j, foreign c = Some (ftb, j) -> ftb ∈ m0.*1) cols ->
  exists row n, tpca_row info par kv cols s = Done (row, reads n s) /\
    match row with
    | Some vs => Forall2 col_spec cols vs /\ (forall i c, cols !! i = Some c -> is_primary c = true -> vs !! i = Some kv /\ par = h)
    | None => par ≠ h
    end.
Proof.
  intros Ha Hp Hkv Hcols. assert (exists n, s = reads n s) as [n0 Es] by (exists (shard_rand_reads_ s); by destruct s).
  rewrite Es. generalize n0. clear n0 Es. induction Hcols as [|c cols (Hk & Hprim & Hfo) Hcols IH]; intros n0.
  { exists (Some []), n0. split; [done|]. by split. }
  cbn [tpca_row]. assert (exists o n1, (if is_primary c then p ← PartitionFromKey [kv] info; mret (if par =? p then Some kv else None)
    else match foreign c with
         | Some (ftb, _) => f ← tb_of ftb; r ← shard_rand 0 (i32 (u64 (num_records f - 1))); v ← from_option (value_get_n (cl_type c) r); mret (Some v)
         | None => v ← random_value (cl_type c); mret (Some v)
         end) (reads n0 s) = Done (o, reads n1 s) /\
    match o with Some v => col_spec c v /\ (is_primary c = true -> v = kv /\ par = h) | None => par ≠ h end) as (o & n1 & E & Ho).
  { destruct (is_primary c) eqn:Epc.
    - rewrite (bind_eq _ _ _ _ _ (Hp n0)). destruct (Z.eqb_spec par h) as [->|Hne]; eexists _, n0; (split; [done|]); [|done].
      split; [|done]. split; [by rewrite Hprim|done].
    - destruct (foreign c) as [[ftb j]|] eqn:Ef.
      + destruct (alike_get (reads n0 s) ftb Ha (Hfo ftb j eq_refl)) as (f & f0 & _ & Hf0 & Hl & E).
        rewrite (bind_eq _ _ _ _ _ E). pose proof (de_records _ _ (m0_described _ _ Hf0)) as Hn. rewrite (lk_records _ _ Hl).
        rewrite (wrap_u_id 64) by (unfold in_u; lia). rewrite (wrap_s_id 32) by (unfold in_s; lia).
        destruct (shard_rand_runs 0 (num_records f0 - 1) (reads n0 s)) as (r & Er & Hr); [lia|unfold RAND_MAX; lia|].
        rewrite (bind_eq _ _ _ _ _ Er), int_value_n by done. eexists _, _. split; [done|]. split; [|done].
        split; [by apply int_value_kind|]. apply int_value_ok. unfold in_s. lia.
      + destruct (random_value_runs (cl_type c) (reads n0 s) Hk) as (v & n & Er & Hv). rewrite (bind_eq _ _ _ _ _ Er). by eexists _, n. }
  rewrite (bind_eq _ _ _ _ _ E). destruct o as [v|]; [|by exists None, n1]. destruct Ho as [Hv Hpv].
  destruct (IH n1) as (row & n2 & Er & Hrow). rewrite (bind_eq _ _ _ _ _ Er). exists (cons v <$> row), n2. split; [done|].
  destruct row as [vs|]; [|done]. destruct Hrow as [Hf Hprims]. cbn. split; [by constructor|].
  intros [|i] c' Hc' Hpc'; [|by apply (Hprims i c')]. injection Hc' as <-. destruct (Hpv Hpc') as [-> ->]. done.
Qed.

(** ** Inserting a row *)

(** A row of a table: its entry, and the number that is its key *)
Definition row_at (d : Db) (S : Schema) (pri : nat) (k : kind) (e : list keypart * Z) (n : Z) : Prop :=
  e.1 = [KNum n] /\ e.2 < db_next d /\
  exists r vs, db_rows d !! e.2 = Some (r, 1) /\ rowv r vs /\ schema_ r = S /\ vs !! pri = Some (int_value k n).

Lemma row_at_frame d d' S pri k e n :
  (forall p, p < db_next d -> db_rows d' !! p = db_rows d !! p) -> db_next d <= db_next d' -> row_at d S pri k e n -> row_at d' S pri k e n.
Proof. intros Hr Hn (A & B & r & vs & C & D). split; [done|]. split; [lia|]. exists r, vs. by rewrite Hr. Qed.

Lemma insert_created_runs s t S L cols pri k vs n :
  db_tables (mdb s) !! t = Some (mk_tbl S L Sorted) -> schema_for cols pri S -> Forall2 col_spec cols vs ->
  vs !! pri = Some (int_value k n) -> Forall (fun e => key_ltb e.1 [KNum n] = true) L -> (exists c, cols !! pri = Some c /\ is_primary c = true) ->
  exists d', insert_created t vs s = Done (db_next (mdb s), s <| mdb := d' |>) /\
    db_tables d' = <[t := mk_tbl S (L ++ [([KNum n], db_next (mdb s))]) Sorted]> (db_tables (mdb s)) /\ db_next d' = db_next (mdb s) + 1 /\
    (forall q, q ≠ db_next (mdb s) -> db_rows d' !! q = db_rows (mdb s) !! q) /\ row_at d' S pri k ([KNum n], db_next (mdb s)) n.
Proof.
  intros Ht Hs Hvs Hpri HL (c & Hc & Hpc). pose proof (schema_for_visible _ _ _ Hs) as Hvis. destruct (sf_hidden _ _ _ Hs) as [Hh1 Hh2].
  assert (Forall2 fits (col_info_ S) vs) as Hfits.
  { pose proof (sf_cols _ _ _ Hs) as Hci. clear -Hci Hvs. revert Hvs. generalize vs. clear vs. induction Hci as [|c i cols infos (A & B & C) _ IH]; intros vs Hvs.
    - by apply Forall2_nil_inv_l in Hvs as ->.
    - apply Forall2_cons_inv_l in Hvs as (v & vs' & [Hk Hv] & Hvs & ->). constructor; [|by apply IH]. split; congruence. }
  assert (columns_count S = length (col_info_ S)) as Hcc by (unfold columns_count; lia).
  destruct (create_rep S vs) as (r & Hcr & Hrep & Hsr & Htr & Hro); [apply Hs|by rewrite Hvis|by rewrite Hcc, drop_all|].
  rewrite Hcc, drop_all in Hrep. cbn in Hrep. rewrite app_nil_r in Hrep.
  assert (rowv r vs) as Hrv by (split_and!; [done|by rewrite Hsr|done]).
  set (d := mdb s) in *. set (p := db_next d). set (d1 := d <| db_rows ::= <[p := (r, 1)]> |> <| db_next ::= Z.succ |>).
  unfold insert_created, table_schema, CreateRow.
  assert (on_mdb (db_table t) s = Done (mk_tbl S L Sorted, s)) as E1.
  { unfold on_mdb. fold d. rewrite (db_table_eq _ _ _ Ht). by destruct s. }
  rewrite (bind_eq _ _ _ _ _ (bind_eq _ _ _ _ _ E1)). cbn [tb_schema].
  assert (on_mdb (new_row r) s = Done (p, s <| mdb := d1 |>)) as E2 by done.
  erewrite bind_eq; [|rewrite (bind_eq _ _ _ _ _ (from_option_eq _ _ _ Hcr)); exact E2].
  assert (keys_indexed S) as Hki.
  { unfold keys_indexed. rewrite (sf_key _ _ _ Hs). repeat constructor. rewrite Nat2Z.id.
    destruct (Forall2_lookup_l _ _ _ _ _ (sf_cols _ _ _ Hs) Hc) as (i & Hi & _ & _ & Hx). exists i. split; [done|]. congruence. }
  assert (vkey (key_cols_id_ S) vs = Some [KNum n]) as Hvk.
  { rewrite (sf_key _ _ _ Hs). unfold vkey. cbn. rewrite Nat2Z.id, Hpri. cbn. by destruct k. }
  assert (tbl_insert t p d1 = Done (tt, d1 <| db_rows ::= <[p := (r <| tbl_ := Some t |>, 1)]> |> <| db_tables ::= alter (fun T => T <| tb_rows ::= mm_insert [KNum n] p |>) t |>)) as E3.
  { unfold tbl_insert. rewrite (bind_eq _ _ _ _ _ (db_table_eq d1 t _ Ht)). cbn [tb_kind].
    by apply (st_insert_eq d1 t S L Sorted p r 1 vs [KNum n]); [exact Ht|cbn; apply lookup_insert_eq|..]. }
  eexists. split.
  { erewrite bind_eq; [reflexivity|]. unfold on_mdb. cbn [mdb set_field]. rewrite E3. reflexivity. }
  cbn [db_tables db_next db_rows set_field d1]. split_and!.
  - apply map_eq. intros x. destruct (decide (x = t)) as [->|Hne]; [|by rewrite lookup_alter_ne, lookup_insert_ne].
    rewrite lookup_alter_eq, lookup_insert_eq. change (db_tables d1 !! t) with (db_tables d !! t). rewrite Ht. cbn [fmap option_fmap option_map]. do 2 f_equal.
    change (mk_tbl S (mm_insert [KNum n] p L) Sorted = mk_tbl S (L ++ [([KNum n], p)]) Sorted). by rewrite mm_insert_last.
  - done.
  - intros q Hq. by rewrite !lookup_insert_ne.
  - split; [done|]. split; [cbn; lia|]. exists (r <| tbl_ := Some t |>), vs. split_and!; [cbn; apply lookup_insert_eq|by apply rowv_tbl|done|done].
Qed.

(** ** Filling a table *)

(** The records of a partition, of the first [n] *)
Definition keys_of (par n : Z) : list Z := filter (fun k => k mod num_partitions = par) (seqZ 0 n).

Lemma keys_of_next par n : 0 <= n -> keys_of par (n + 1) = keys_of par n ++ (if decide (n mod num_partitions = par) then [n] else []).
Proof.
  intros Hn. unfold keys_of. rewrite seqZ_app by lia. by rewrite filter_app.
Qed.

Lemma keys_of_below par n k : k ∈ keys_of par n -> 0 <= k < n.
Proof. unfold keys_of. intros [_ Hk%elem_of_seqZ]%list_elem_of_filter. lia. Qed.

(** The table [t] has the records [ks], and nothing else in the site has changed since
    [s0], but for the place in the random numbers. *)
Record filled (s0 s : Sharding) (t : Z) (S : Schema) (pri : nat) (k : kind) (ks : list Z) : Prop := {
  fi_same : exists d n, s = reads n (s0 <| mdb := d |>);
  fi_table : exists L, db_tables (mdb s) !! t = Some (mk_tbl S L Sorted) /\ Forall2 (row_at (mdb s) S pri k) L ks;
  fi_others : forall t', t' ≠ t -> db_tables (mdb s) !! t' = db_tables (mdb s0) !! t';
  fi_rows : forall p, p < db_next (mdb s0) -> db_rows (mdb s) !! p = db_rows (mdb s0) !! p;
  fi_next : db_next (mdb s0) <= db_next (mdb s);
}.

Lemma filled_infos s0 s t S pri k ks : filled s0 s t S pri k ks -> tb_infos_ s = tb_infos_ s0 /\ tables_ s = tables_ s0.
Proof. by intros [(d & n & ->) _ _ _ _]. Qed.

Lemma filled_reads s0 s n t S pri k ks : filled s0 s t S pri k ks -> filled s0 (reads n s) t S pri k ks.
Proof. intros [(d & n0 & ->) A B C D]. split; [by exists d, n|done..]. Qed.

(** What is known of the table that is filled *)
Record filling (s0 : Sharding) (tb : list Z) (i : tb_info_t) (pri : nat) (c : column_t) (S : Schema) : Prop := {
  fg_alike : alike s0;
  fg_info : find tb (tb_infos_ s0) = Some i;
  fg_schema : schema_for (columns i) pri S;
  fg_pri : columns i !! pri = Some c /\ is_primary c = true;
  fg_only : forall j c', columns i !! j = Some c' -> is_primary c' = true -> j = pri;
  fg_kinds : Forall (fun c => int_kind (cl_type c) = true) (columns i);
  fg_records : 0 < num_records i < 2 ^ 31;
}.

Lemma filling_kind s0 tb i pri c S : filling s0 tb i pri c S -> int_kind (cl_type c) = true.
Proof. intros Hf. destruct (fg_pri _ _ _ _ _ _ Hf) as [Hc _]. pose proof (fg_kinds _ _ _ _ _ _ Hf) as Hk. rewrite Forall_forall in Hk. apply Hk. by eapply list_elem_of_lookup_2. Qed.

Lemma tpca_insert_runs s0 s tb i pri c S par t n :
  filling s0 tb i pri c S -> filled s0 s t S pri (cl_type c) (keys_of par n) -> 0 <= n < 2 ^ 31 ->
  exists s', tpca_insert tb par t (int_value (cl_type c) n) s = Done (tt, s') /\ filled s0 s' t S pri (cl_type c) (keys_of par (n + 1)).
Proof.
  intros Hg Hf Hn. pose proof (filling_kind _ _ _ _ _ _ Hg) as Hk. destruct (fg_pri _ _ _ _ _ _ Hg) as [Hc Hpc]. destruct (filled_infos _ _ _ _ _ _ _ Hf) as [Ei Et].
  assert (alike s) as Ha by (unfold alike; rewrite Ei; apply Hg).
  assert (tb_of tb s = Done (i, s)) as Etb by (unfold tb_of, get, mbind, M_bind; by rewrite Ei, (fg_info _ _ _ _ _ _ Hg)).
  unfold tpca_insert. rewrite (bind_eq _ _ _ _ _ Etb).
  destruct (tpca_row_runs i par (int_value (cl_type c) n) (n mod num_partitions) (columns i) s Ha) as (row & m & Er & Hrow).
  - intros m. apply partition_of_key; [done|lia].
  - apply int_value_ok. unfold in_s. lia.
  - apply Forall_forall. intros c' Hc'. pose proof (fg_kinds _ _ _ _ _ _ Hg) as Hks. rewrite Forall_forall in Hks. split; [by apply Hks|]. split.
    + intros Hpc'. apply list_elem_of_lookup in Hc' as [j Hj]. assert (j = pri) as -> by (by eapply (fg_only _ _ _ _ _ _ Hg)).
      rewrite Hc in Hj. injection Hj as <-. by rewrite int_value_kind.
    + intros ftb j Hfo. destruct (alike_find s tb i Ha) as (i0 & _ & Hl); [by rewrite Ei; apply Hg|].
      pose proof (lk_foreign _ _ Hl) as Hfs. rewrite Forall_forall in Hfs. by apply (Hfs c' Hc' ftb j).
  - rewrite (bind_eq _ _ _ _ _ Er). rewrite keys_of_next by lia. pose proof (filled_reads _ _ m _ _ _ _ _ Hf) as Hf'. destruct row as [vs|].
    + destruct Hrow as [Hvs Hprims]. destruct (Hprims pri c Hc Hpc) as [Hvp <-]. rewrite decide_True by done.
      destruct (fi_table _ _ _ _ _ _ _ Hf') as (L & HL & HLs).
      destruct (insert_created_runs (reads m s) t S L (columns i) pri (cl_type c) vs n) as (d' & Ed & D1 & D2 & D3 & D4); [done|apply Hg|done|done| |by exists c|].
      { apply Forall_forall. intros e (j & Hj)%list_elem_of_lookup. destruct (Forall2_lookup_l _ _ _ _ _ HLs Hj) as (k' & Hk' & -> & _).
        apply list_elem_of_lookup_2, keys_of_below in Hk'. cbn. destruct (Z.ltb_spec k' n); [done|lia]. }
      rewrite (bind_eq _ _ _ _ _ Ed). eexists. split; [done|].
      assert (forall e k, row_at (mdb (reads m s)) S pri (cl_type c) e k -> row_at d' S pri (cl_type c) e k) as Hkeep.
      { intros e k. apply row_at_frame; [|rewrite D2; cbn; lia]. intros q Hq. apply D3. lia. }
      destruct Hf' as [(d & n0 & Es) _ B C D]. split; cbn [mdb set_field].
      * exists d', n0. rewrite Es. done.
      * exists (L ++ [([KNum n], db_next (mdb (reads m s)))]). split; [by rewrite D1, lookup_insert_eq|].
        apply Forall2_app; [|by constructor; [exact D4|constructor]]. eapply Forall2_impl; [exact HLs|done].
      * intros t' Ht'. rewrite D1, lookup_insert_ne by done. by apply B.
      * intros p Hp. rewrite D3 by lia. by apply C.
      * rewrite D2. lia.
    + rewrite decide_False by congruence. rewrite app_nil_r. by eexists.
Qed.

Lemma for_keys_runs s0 tb i pri c S par t N fuel s n :
  filling s0 tb i pri c S -> filled s0 s t S pri (cl_type c) (keys_of par n) -> 0 <= n <= N -> N < 2 ^ 31 -> (Z.to_nat (N - n) < fuel)%nat ->
  exists s', for_keys fuel (tpca_insert tb par t) (int_value (cl_type c) n) (int_value (cl_type c) N) s = Done (tt, s') /\
    filled s0 s' t S pri (cl_type c) (keys_of par N).
Proof.
  intros Hg. pose proof (filling_kind _ _ _ _ _ _ Hg) as Hk. revert s n. induction fuel as [|fuel IH]; intros s n Hf Hn HN Hfuel; [lia|].
  cbn [for_keys]. rewrite int_value_lt by done. destruct (Z.ltb_spec n N).
  - destruct (tpca_insert_runs s0 s tb i pri c S par t n Hg Hf) as (s1 & E1 & Hf1); [lia|].
    destruct (IH s1 (n + 1) Hf1) as (s2 & E2 & Hf2); [lia..|]. exists s2. split; [|done].
    erewrite bind_eq by (by cbn). cbn [when]. rewrite (bind_eq _ _ _ _ _ E1), int_value_incr by (done || lia). done.
  - assert (n = N) as -> by lia. by exists s.
Qed.

Lemma key_range_runs N cols infos range k s :
  Forall2 (fun c i => ci_name i = cl_name c /\ ci_type i = cl_type c /\ ci_indexed i = is_primary c) cols infos ->
  int_kind k = true -> Forall (fun c => is_primary c = true -> cl_type c = k) cols ->
  key_range N cols infos range s = Done (if existsb is_primary cols then (int_value k 0, int_value k (i32 N)) else range, s).
Proof.
  intros Hci Hk. revert range. induction Hci as [|c i cols infos (A & B & C) _ IH]; intros range Hall; [done|].
  apply Forall_cons in Hall as [Hc Hall]. cbn [key_range existsb]. unfold same_column. rewrite A, B, C, !bool_decide_true by done.
  destruct (is_primary c); cbn [orb].
  - rewrite (Hc eq_refl), int_value_zero, int_value_n by done.
    match goal with |- (?m ≫= ?f) ?s = _ => change (key_range N cols infos (int_value k 0, int_value k (i32 N)) s = Done (int_value k 0, int_value k (i32 N), s)) end.
    rewrite IH by done. by destruct (existsb _ _).
  - match goal with |- (?m ≫= ?f) ?s = _ => change (key_range N cols infos range s = Done (if existsb is_primary cols then (int_value k 0, int_value k (i32 N)) else range, s)) end.
    by rewrite IH.
Qed.

(** ** One table *)

Lemma copied_spec c c0 : copy_column c = copy_column c0 -> cl_type c = cl_type c0 /\ cl_name c = cl_name c0 /\ is_primary c = is_primary c0.
Proof. by intros [= -> -> -> _ _ _]. Qed.

Lemma copied_schema cols cols0 pri S : Forall2 (fun c c0 => copy_column c = copy_column c0) cols cols0 -> schema_for cols0 pri S -> schema_for cols pri S.
Proof.
  intros Hc [A B C D]. split; [done..| |done]. clear -Hc C. revert C. generalize (col_info_ S).
  induction Hc as [|c c0 cols cols0 Hcc _ IH]; intros infos C; [done|]. apply Forall2_cons_inv_l in C as (x & infos' & Hx & C & ->).
  destruct (copied_spec _ _ Hcc) as (E1 & E2 & E3). constructor; [by rewrite E1, E2, E3|by apply IH].
Qed.
Lemma like_schema i i0 pri S : like i i0 -> schema_for (columns i0) pri S -> schema_for (columns i) pri S.
Proof. intros Hl. apply copied_schema, Hl. Qed.

Lemma like_refill i i0 p : like i i0 -> like (i <| populated := p |>) i0.
Proof. by intros []. Qed.

(** The description, and the key column, of the table [tb] *)
Record described_at (tb : list Z) (i0 : tb_info_t) (pri : nat) (c0 : column_t) : Prop := {
  da_info : find tb m0 = Some i0;
  da_pri : columns i0 !! pri = Some c0 /\ is_primary c0 = true;
}.

Lemma filling_of s tb i i0 pri c0 S :
  alike s -> find tb (tb_infos_ s) = Some i -> described_at tb i0 pri c0 -> schema_for (columns i0) pri S ->
  exists c, filling s tb i pri c S /\ cl_type c = cl_type c0 /\ like i i0.
Proof.
  intros Ha Hi [Hi0 [Hc0 Hpc0]] Hs. destruct (alike_find s tb i Ha Hi) as (i1 & Hi1 & Hl). rewrite Hi0 in Hi1. injection Hi1 as <-.
  pose proof (m0_described _ _ Hi0) as Hd. destruct (Forall2_lookup_r _ _ _ _ _ (lk_cols _ _ Hl) Hc0) as (c & Hc & Hcc).
  destruct (copied_spec _ _ Hcc) as (Et & _ & Ep). exists c. split; [|done]. split; [done|done|by eapply like_schema| | | |rewrite (lk_records _ _ Hl); apply Hd].
  - split; [done|congruence].
  - intros j c' Hj Hp. destruct (Forall2_lookup_l _ _ _ _ _ (lk_cols _ _ Hl) Hj) as (c0' & Hj0 & (_ & _ & Ep')%copied_spec).
    destruct (de_key _ _ Hd) as (k & c1 & Hk & Hpk & Hu). rewrite (Hu j c0' Hj0), (Hu pri c0 Hc0); congruence.
  - apply Forall_forall. intros c' [j Hj]%list_elem_of_lookup. destruct (Forall2_lookup_l _ _ _ _ _ (lk_cols _ _ Hl) Hj) as (c0' & Hj0 & (Et' & _ & _)%copied_spec).
    rewrite Et'. pose proof (de_cols _ _ Hd) as Hcs. rewrite Forall_forall in Hcs. apply Hcs. by eapply list_elem_of_lookup_2.
Qed.

Lemma Tpca_PopulateTable_runs s tb i i0 pri c0 S par t :
  alike s -> find tb (tb_infos_ s) = Some i -> described_at tb i0 pri c0 -> schema_for (columns i0) pri S ->
  find tb (tables_ s) = Some t -> db_tables (mdb s) !! t = Some (mk_tbl S [] Sorted) ->
  exists s', Tpca_PopulateTable tb par s = Done (tt, s') /\ filled s s' t S pri (cl_type c0) (keys_of par (num_records i0)).
Proof.
  intros Ha Hi Hd Hs Ht HT. destruct (filling_of s tb i i0 pri c0 S Ha Hi Hd Hs) as (c & Hg & <- & Hl).
  pose proof (filling_kind _ _ _ _ _ _ Hg) as Hk. destruct (fg_pri _ _ _ _ _ _ Hg) as [Hc Hpc]. pose proof (m0_described _ _ (da_info _ _ _ _ Hd)) as Hde.
  pose proof (fg_records _ _ _ _ _ _ Hg) as Hrec. unfold Tpca_PopulateTable.
  rewrite (bind_eq _ _ s i s) by (unfold tb_of, get, mbind, M_bind; by rewrite Hi).
  rewrite (bind_eq _ _ s t s) by (unfold get_table, get, mbind, M_bind; by rewrite (lk_name _ _ Hl), (de_name _ _ Hde), Ht).
  rewrite (bind_eq _ _ s S s) by (unfold table_schema, on_mdb, mbind, M_bind; rewrite (db_table_eq _ _ _ HT); by destruct s).
  rewrite (schema_for_visible _ _ _ Hs).
  rewrite (bind_eq _ _ _ _ _ (key_range_runs (num_records i) (columns i) (col_info_ S) _ (cl_type c) s (sf_cols _ _ _ (fg_schema _ _ _ _ _ _ Hg)) Hk
    ltac:(apply Forall_forall; intros c' [j Hj]%list_elem_of_lookup Hp; assert (j = pri) as -> by (by eapply (fg_only _ _ _ _ _ _ Hg)); congruence))).
  assert (existsb is_primary (columns i) = true) as -> by (apply existsb_exists; exists c; split; [apply list_elem_of_In; by eapply list_elem_of_lookup_2|done]).
  rewrite (wrap_s_id 32 (num_records i)) by (unfold in_s; lia). rewrite <- (lk_records _ _ Hl).
  apply (for_keys_runs s tb i pri c S par t); [done| |lia|lia|lia].
  split; [exists (mdb s), (shard_rand_reads_ s); by destruct s| |done|done|done]. exists []. split; [done|]. unfold keys_of. cbn. constructor.
Qed.

(** ** Writing a description *)

Lemma set_tb_runs s tb i i0 f : alike s -> find tb (tb_infos_ s) = Some i -> find tb m0 = Some i0 -> like (f i) i0 ->
  set_tb tb f s = Done (tt, s <| tb_infos_ := insert tb (f i) (tb_infos_ s) |>) /\ alike (s <| tb_infos_ := insert tb (f i) (tb_infos_ s) |>).
Proof.
  intros Ha Hi Hi0 Hl. split.
  - unfold set_tb, modify, set_field. cbn. by rewrite Hi.
  - unfold alike. cbn. apply (insert_Forall2 like _ _ _ _ i0); [by apply alike_sorted|done|by exists i|done|done].
Qed.

(** The site before its tables are made: nothing but the descriptions has changed since
    [s1], and nothing has been populated. *)
Record fresh (s1 s : Sharding) : Prop := {
  fr_alike : alike s;
  fr_same : exists m, s = s1 <| tb_infos_ := m |>;
  fr_populated : Forall (fun e => populated e.2 = []) (tb_infos_ s);
}.

Lemma fresh_get s1 s tb : fresh s1 s -> tb ∈ m0.*1 -> exists i i0,
  find tb (tb_infos_ s) = Some i /\ find tb m0 = Some i0 /\ like i i0 /\ populated i = [] /\ tb_of tb s = Done (i, s).
Proof.
  intros [Ha _ Hp] Htb. destruct (alike_get s tb Ha Htb) as (i & i0 & Hi & Hi0 & Hl & E). exists i, i0. split_and!; try done.
  rewrite Forall_forall in Hp. by apply (Hp (tb, i)), find_elem_of.
Qed.

Lemma set_col_runs s1 s tb n f : fresh s1 s -> tb ∈ m0.*1 -> (forall c, copy_column (f c) = copy_column c) ->
  (forall c ftb j, foreign (f c) = Some (ftb, j) -> foreign c = Some (ftb, j) \/ ftb ∈ m0.*1) ->
  exists s', set_col tb n f s = Done (tt, s') /\ fresh s1 s'.
Proof.
  intros Hfr Htb Hf Hfo. destruct (fresh_get _ _ _ Hfr Htb) as (i & i0 & Hi & Hi0 & Hl & Hp & _). destruct Hfr as [Ha [m Es] Hpop].
  assert (like (i <| columns ::= alter f n |>) i0) as Hl'.
  { destruct Hl as [A B C D E F G]. split; try done; cbn.
    - clear -F Hf. apply Forall2_same_length_lookup. pose proof (Forall2_length _ _ _ F) as Hlen. split; [by rewrite length_alter|].
      intros k c c0 Hk Hk0. destruct (decide (k = n)) as [->|Hne].
      + rewrite list_lookup_alter_eq in Hk. destruct (columns i !! n) as [c1|] eqn:E; [|done]. injection Hk as <-. rewrite Hf. exact (Forall2_lookup_lr _ _ _ _ _ _ F E Hk0).
      + rewrite list_lookup_alter_ne in Hk by done. exact (Forall2_lookup_lr _ _ _ _ _ _ F Hk Hk0).
    - apply Forall_lookup. intros k c Hk. rewrite Forall_lookup in G. destruct (decide (k = n)) as [->|Hne].
      + rewrite list_lookup_alter_eq in Hk. destruct (columns i !! n) as [c1|] eqn:E1; [|done]. injection Hk as <-. intros ftb j [Hc1|]%Hfo; [|done]. by eapply (G n c1).
      + rewrite list_lookup_alter_ne in Hk by done. by apply (G k c). }
  destruct (set_tb_runs s tb i i0 (fun t => t <| columns ::= alter f n |>) Ha Hi Hi0 Hl') as [E Ha']. eexists. split; [exact E|]. split; [done|by rewrite Es; eexists|].
  cbn. apply Forall_forall. intros e [-> |He]%insert_elem_of; [done|]. rewrite Forall_forall in Hpop. by apply Hpop.
Qed.

Lemma column_index_copied name cols cols0 : Forall2 (fun c c0 => copy_column c = copy_column c0) cols cols0 -> column_index name cols = column_index name cols0.
Proof.
  unfold column_index. induction 1 as [|c c0 cols cols0 Hc _ IH]; [done|]. destruct (copied_spec _ _ Hc) as (_ & En & _). cbn. rewrite En. case_decide; [done|].
  destruct (list_find _ cols) as [[]|], (list_find _ cols0) as [[]|]; cbn in *; congruence.
Qed.

Lemma col_of_runs s1 s tb n i c : fresh s1 s -> find tb (tb_infos_ s) = Some i -> columns i !! n = Some c -> col_of tb n s = Done (c, s).
Proof. intros Hfr Hi Hc. unfold col_of, tb_of, get, mbind, M_bind. rewrite Hi. cbn. by rewrite Hc. Qed.

Lemma resolve_column_runs s1 s tb n i : fresh s1 s -> find tb (tb_infos_ s) = Some i -> (n < length (columns i))%nat ->
  exists s', resolve_column tb n s = Done (tt, s') /\ fresh s1 s'.
Proof.
  intros Hfr Hi Hn. destruct (lookup_lt_is_Some_2 _ _ Hn) as [c Hc]. unfold resolve_column. rewrite (bind_eq _ _ _ _ _ (col_of_runs _ _ _ _ _ _ Hfr Hi Hc)).
  destruct (is_foreign c) eqn:Efo; [|by exists s]. cbn [when].
  destruct (alike_find s tb i (fr_alike _ _ Hfr) Hi) as (i0 & Hi0 & Hl). destruct (Forall2_lookup_l _ _ _ _ _ (lk_cols _ _ Hl) Hc) as (c0 & Hc0 & Hcc).
  pose proof (m0_described _ _ Hi0) as Hd. pose proof (de_cols _ _ Hd) as Hcs. rewrite Forall_lookup in Hcs. destruct (Hcs n c0 Hc0) as [_ Ht].
  injection Hcc as Ety _ _ Ef1 Ef2 Ef3. rewrite Ef1 in Efo. specialize (Ht Efo). unfold target_ok in Ht. rewrite <- Ef2, <- Ef3 in Ht. apply andb_true_iff in Ht as [Ht1 Ht].
  destruct (find (foreign_tbl_name c) m0) as [f0|] eqn:Ef0; [|done]. destruct (column_index (foreign_col_name c) (columns f0)) as [k|] eqn:Ek; [|done].
  destruct (columns f0 !! k) as [fc0|] eqn:Efc0; [|done]. apply bool_decide_eq_true in Ht.
  assert (foreign_tbl_name c ∈ m0.*1) as Hft by (apply find_key_in; by exists f0).
  destruct (fresh_get _ _ _ Hfr Hft) as (f & f0' & Hf & Hf0 & Hlf & _ & Etb). rewrite Ef0 in Hf0. injection Hf0 as <-.
  destruct (Forall2_lookup_r _ _ _ _ _ (lk_cols _ _ Hlf) Efc0) as (fc & Hfc & (Efty & _ & _)%copied_spec).
  rewrite (bind_eq _ _ _ _ _ (verify_eq _ _ Ht1)), (bind_eq _ _ _ _ _ Etb).
  rewrite (bind_eq _ _ s k s) by (rewrite (column_index_copied _ _ _ (lk_cols _ _ Hlf)), Ek; done).
  rewrite (bind_eq _ _ _ _ _ (col_of_runs _ _ _ _ _ _ Hfr Hf Hfc)). rewrite (bind_eq _ _ s tt s) by (apply verify_eq, bool_decide_eq_true; congruence).
  destruct (set_col_runs s1 s (foreign_tbl_name c) k (fun c => c <| cl_values ::= fun v => Some (default [] v) |>) Hfr Hft) as (s2 & E2 & Hfr2); [by intros []|by left|].
  rewrite (bind_eq _ _ _ _ _ E2). apply set_col_runs; [done|apply find_key_in; by exists i0|by intros []|]. intros c' ftb j [= <- <-]. by right.
Qed.

Lemma BuildTableInfoPtr_runs s1 : fresh s1 s1 -> exists s, BuildTableInfoPtr s1 = Done (tt, s) /\ fresh s1 s.
Proof.
  intros H1. unfold BuildTableInfoPtr. erewrite bind_eq by done. cbn beta.
  pose proof (Forall2_length _ _ _ (fr_alike _ _ H1)) as Hlen. pose proof m0_nonempty as Hne.
  rewrite (bind_eq _ _ s1 tt s1) by (apply verify_eq, Nat.ltb_lt; lia).
  destruct (for_each_runs (fun e => t ← tb_of e.1; verify (0 <? length (columns t))%nat;; for_each (seq 0 (length (columns t))) (resolve_column e.1))
    (fun _ => fresh s1) (tb_infos_ s1) s1) as (s & E & Hs); [done| |by exists s].
  intros _ e s He%list_elem_of_lookup_2 Hs. assert (e.1 ∈ m0.*1) as Htb.
  { rewrite <- (Forall2_keys _ _ _ (fr_alike _ _ H1)). by apply list_elem_of_fmap_2. }
  destruct (fresh_get _ _ _ Hs Htb) as (i & i0 & Hi & Hi0 & Hl & _ & Etb). rewrite (bind_eq _ _ _ _ _ Etb).
  pose proof (Forall2_length _ _ _ (lk_cols _ _ Hl)) as Hcl. destruct (de_key _ _ (m0_described _ _ Hi0)) as (k & c & Hk & _). apply lookup_lt_Some in Hk.
  rewrite (bind_eq _ _ s tt s) by (apply verify_eq, Nat.ltb_lt; lia).
  destruct (for_each_runs (resolve_column e.1) (fun _ => fresh s1) (seq 0 (length (columns i))) s) as (s' & E & Hs'); [done| |by exists s'].
  intros j n s2 [-> Hn]%lookup_seq Hs2. destruct (fresh_get _ _ _ Hs2 Htb) as (i2 & i2' & Hi2 & Hi2' & Hl2 & _). rewrite Hi0 in Hi2'. injection Hi2' as <-.
  apply (resolve_column_runs s1 s2 e.1 _ i2 Hs2 Hi2). rewrite (Forall2_length _ _ _ (lk_cols _ _ Hl2)). lia.
Qed.

(** ** Making the tables *)

Lemma int_kind_known k : int_kind k = true -> k ≠ UNKNOWN /\ k ≠ STR.
Proof. by destruct k. Qed.

(** The schema after the first [n] columns *)
Record partial (cols : list column_t) (pri n : nat) (S : Schema) : Prop := {
  pt_wf : schema_wf S;
  pt_hidden : hidden_fixed_ S = 0%nat /\ hidden_var_ S = 0%nat;
  pt_frozen : frozen_ S = false;
  pt_cols : Forall2 (fun c i => ci_name i = cl_name c /\ ci_type i = cl_type c /\ ci_indexed i = is_primary c) (take n cols) (col_info_ S);
  pt_key : key_cols_id_ S = if (pri <? n)%nat then [Z.of_nat pri] else [];
}.

Lemma add_column_runs cols pri n c S :
  Forall (fun c => int_kind (cl_type c) = true) cols -> NoDup (cl_name <$> cols) ->
  (forall j c', cols !! j = Some c' -> (is_primary c' = true <-> j = pri)) -> cols !! n = Some c -> partial cols pri n S ->
  exists a S', add_column (cl_name c) (cl_type c) (is_primary c) S = Done (a, S') /\ partial cols pri (Datatypes.S n) S'.
Proof.
  intros Hk Hnd Hpri Hc [Hwf [Hh1 Hh2] Hfr Hcols Hkey]. rewrite Forall_lookup in Hk. destruct (int_kind_known _ (Hk n c Hc)) as [Hu Hs].
  assert (ci_name <$> col_info_ S = cl_name <$> take n cols) as Hnames by (clear -Hcols; induction Hcols as [|x y l l' (E & _) _ IH]; cbn; congruence).
  assert (cl_name c ∉ (col_name_to_id_ S).*1) as Hnew.
  { rewrite (proj1 (sw_names _ Hwf)), Hnames. intros (c' & En & (j & Hj)%list_elem_of_lookup)%list_elem_of_fmap.
    apply lookup_take_Some in Hj as [Hj Hjn]. assert (j = n); [|lia]. apply (NoDup_lookup _ j n (cl_name c) Hnd); rewrite list_lookup_fmap; [by rewrite Hj, En|by rewrite Hc]. }
  assert (exists a S', add_column (cl_name c) (cl_type c) (is_primary c) S = Done (a, S')) as (a & S' & E).
  { unfold add_column. erewrite bind_eq by done. cbn beta. rewrite Hfr, Hh1, Hh2. erewrite bind_eq by done. unfold do_add_column. erewrite bind_eq by done. cbn beta.
    rewrite (proj2 (find_name_None _ _) Hnew), (bool_decide_false _ Hs), (bool_decide_false _ Hu). unfold when. destruct (is_primary c); by eexists _, _. }
  exists a, S'. split; [done|]. assert (do_add_column (cl_name c) (cl_type c) (is_primary c) S = Done (a, S')) as E'.
  { unfold add_column in E. erewrite bind_eq in E by done. cbn beta in E. rewrite Hfr, Hh1, Hh2 in E. erewrite bind_eq in E by done. exact E. }
  destruct (do_add_column_done _ _ _ _ _ _ Hwf E') as [(_ & _ & Hin)|(ci & T1 & T2 & T3 & -> & Hat & Hn & Hx)]; [done|].
  assert (length (col_info_ S) = n) as Hlen by (rewrite <- (Forall2_length _ _ _ Hcols), length_take; apply lookup_lt_Some in Hc; lia).
  split; cbn [hidden_fixed_ hidden_var_ frozen_ col_info_ key_cols_id_ with_column].
  - by apply with_column_wf.
  - done.
  - done.
  - rewrite (take_S_r _ _ _ Hc). apply Forall2_app; [done|]. constructor; [done|constructor].
  - destruct Hat as (Hid & _). rewrite Hlen in Hid. rewrite Hkey, Hid. destruct (is_primary c) eqn:Ep.
    + apply (Hpri n c Hc) in Ep as ->. rewrite Nat.ltb_irrefl. destruct (Nat.ltb_spec pri (Datatypes.S pri)); [done|lia].
    + assert (n ≠ pri) as Hne by (intros ->; pose proof (proj2 (Hpri pri c Hc) eq_refl); congruence).
      destruct (Nat.ltb_spec pri n), (Nat.ltb_spec pri (Datatypes.S n)); try done; lia.
Qed.

Lemma init_schema_runs s tb i i0 pri c0 :
  find tb (tb_infos_ s) = Some i -> like i i0 -> described_at tb i0 pri c0 ->
  exists a S, init_schema tb s new_Schema = Done ((a, Some TBL_SORTED), S) /\ forall b, schema_for (columns i0) pri (S <| frozen_ := b |>).
Proof.
  intros Hi Hl Hd. pose proof (m0_described _ _ (da_info _ _ _ _ Hd)) as Hde. destruct (da_pri _ _ _ _ Hd) as [Hc0 Hp0].
  pose proof (lk_cols _ _ Hl) as Hcols.
  assert (Forall (fun c => int_kind (cl_type c) = true) (columns i)) as Hk.
  { apply Forall_lookup. intros j c Hj. destruct (Forall2_lookup_l _ _ _ _ _ Hcols Hj) as (c' & Hj' & (-> & _)%copied_spec).
    pose proof (de_cols _ _ Hde) as Hcs. rewrite Forall_lookup in Hcs. by apply (Hcs j). }
  assert (NoDup (cl_name <$> columns i)) as Hnd.
  { assert (cl_name <$> columns i = cl_name <$> columns i0) as ->; [|apply Hde]. clear -Hcols. induction Hcols as [|x y l l' (_ & E & _)%copied_spec _ IH]; cbn; congruence. }
  assert (forall j c', columns i !! j = Some c' -> (is_primary c' = true <-> j = pri)) as Hpri.
  { intros j c Hj. destruct (Forall2_lookup_l _ _ _ _ _ Hcols Hj) as (c' & Hj' & (_ & _ & ->)%copied_spec).
    destruct (de_key _ _ Hde) as (k & ck & Hkk & Hpk & Hu). split; [|intros ->; congruence]. intros Hp. rewrite (Hu j c'), (Hu pri c0); done. }
  unfold init_schema. rewrite Hi.
  destruct (for_each_runs (fun c => _ ← add_column (cl_name c) (cl_type c) (is_primary c); mret ()) (partial (columns i) pri) (columns i) new_Schema) as (S & E & [Hwf Hh _ Hci Hkey]).
  - split; [|done|done|constructor|done]. split; try done. by split; [|constructor].
  - intros n c S Hc HS. destruct (add_column_runs _ _ _ _ _ Hk Hnd Hpri Hc HS) as (a & S' & E & HS'). exists S'. by rewrite (bind_eq _ _ _ _ _ E).
  - eexists _, S. split; [rewrite (bind_eq _ _ _ _ _ E); cbn; by rewrite (lk_symbol _ _ Hl), (de_symbol _ _ Hde)|]. intros b.
    assert (pri < length (columns i))%nat as Hlt by (rewrite (Forall2_length _ _ _ Hcols); by eapply lookup_lt_Some).
    rewrite take_ge in Hci by lia. apply (copied_schema _ (columns i)); [clear -Hcols; induction Hcols; by constructor|].
    split; cbn; [by destruct Hwf; split|done|done|]. rewrite Hkey. destruct (Nat.ltb_spec pri (length (columns i))); [done|lia].
Qed.

(** A table of the site: its description, its key column, its schema and its address *)
Record place := mk_place { pl_tb : list Z; pl_info : tb_info_t; pl_pri : nat; pl_col : column_t; pl_S : Schema; pl_t : Z }.

(** The table is there, with the records [ks]. *)
Record placed (s : Sharding) (p : place) (ks : list Z) : Prop := {
  ps_described : described_at (pl_tb p) (pl_info p) (pl_pri p) (pl_col p);
  ps_schema : schema_for (columns (pl_info p)) (pl_pri p) (pl_S p);
  ps_table : find (pl_tb p) (tables_ s) = Some (pl_t p);
  ps_rows : exists L, db_tables (mdb s) !! pl_t p = Some (mk_tbl (pl_S p) L Sorted) /\
    Forall2 (row_at (mdb s) (pl_S p) (pl_pri p) (cl_type (pl_col p))) L ks;
}.

Record made (ps : list place) (s : Sharding) : Prop := {
  md_alike : alike s;
  md_populated : Forall (fun e => populated e.2 = []) (tb_infos_ s);
  md_nodup : NoDup (pl_t <$> ps);
  md_below : Forall (fun p => pl_t p < db_next (mdb s)) ps;
  md_tables : forall name t, find name (tables_ s) = Some t -> name ∈ pl_tb <$> ps;
  md_places : Forall (fun p => placed s p []) ps;
}.

Lemma described_at_key tb : tb ∈ m0.*1 -> exists i0 pri c0, described_at tb i0 pri c0.
Proof.
  intros [i0 Hi0]%find_key_in. destruct (de_key _ _ (m0_described _ _ Hi0)) as (k & c & Hk & Hp & _). by exists i0, k, c.
Qed.

Lemma create_table_runs ps s tb : made ps s -> tb ∈ m0.*1 -> tb ∉ pl_tb <$> ps ->
  exists p s', create_table tb s = Done (tt, s') /\ pl_tb p = tb /\ made (ps ++ [p]) s'.
Proof.
  intros [Ha Hp Hnd Hbe Hta Hpl] Htb Hnew. destruct (described_at_key tb Htb) as (i0 & pri & c0 & Hd).
  destruct (alike_get s tb Ha Htb) as (i & i0' & Hi & Hi0' & Hl & _). rewrite (da_info _ _ _ _ Hd) in Hi0'. injection Hi0' as <-.
  destruct (init_schema_runs s tb i i0 pri c0 Hi Hl Hd) as (a & S & E & HS).
  set (t := db_next (mdb s)). set (S' := S <| frozen_ := true |>).
  set (d := (mdb s) <| db_tables ::= <[t := mk_tbl S' [] Sorted]> |> <| db_next ::= Z.succ |>).
  assert (count tb (tables_ s) = false) as Hc.
  { apply count_find_None. destruct (find tb (tables_ s)) as [t0|] eqn:Et; [|done]. by apply Hta in Et. }
  exists (mk_place tb i0 pri c0 S' t), (s <| mdb := d |> <| tables_ ::= insert tb t |>). split; [|split; [done|]].
  - unfold create_table. erewrite bind_eq by done. cbn beta. rewrite (bind_eq _ _ s ((a, Some TBL_SORTED), S) s) by (unfold run_schema; by rewrite E).
    cbn match. rewrite (bind_eq _ _ s t (s <| mdb := d |>)) by done. unfold reg_table, register.
    rewrite (bind_eq _ _ (s <| mdb := d |>) tt (s <| mdb := d |> <| tables_ ::= insert tb t |>)).
    2:{ erewrite bind_eq by done. cbn beta. change (tables_ (s <| mdb := d |>)) with (tables_ s). by rewrite Hc. }
    unfold is_name. by rewrite bool_decide_false by apply (m0_described _ _ (da_info _ _ _ _ Hd)).
  - split.
    + done.
    + done.
    + rewrite fmap_app. apply NoDup_app. split; [done|]. split; [|apply NoDup_singleton]. intros x (p & E1 & Hx)%list_elem_of_fmap E2%list_elem_of_singleton.
      rewrite Forall_forall in Hbe. specialize (Hbe _ Hx). cbn in E2. unfold t in E2. lia.
    + apply Forall_app. split; [|by repeat constructor; cbn; lia]. eapply Forall_impl; [exact Hbe|]. cbn. intros. lia.
    + intros name x. cbn. rewrite find_insert, fmap_app, elem_of_app. case_decide as E1; [right; by apply list_elem_of_singleton|].
      intros Hx. left. by apply (Hta name x).
    + apply Forall_app. split.
      * apply Forall_forall. intros p Hpin. rewrite Forall_forall in Hpl. destruct (Hpl p Hpin) as [P1 P2 P3 P4]. split; [done|done| |].
        -- cbn. rewrite find_insert_ne; [done|]. intros ->. apply Hnew. by apply list_elem_of_fmap_2.
        -- destruct P4 as (L & HL & HLs). exists L. apply Forall2_nil_inv_r in HLs as ->. split; [|constructor]. cbn.
           rewrite lookup_insert_ne; [done|]. rewrite Forall_forall in Hbe. specialize (Hbe p Hpin). unfold t. lia.
      * constructor; [|constructor]. split; [done|apply HS|cbn; apply find_insert_eq|]. exists []. split; [cbn; apply lookup_insert_eq|constructor].
Qed.

Lemma create_tables_run s : made [] s -> exists ps s', for_each m0.*1 create_table s = Done (tt, s') /\ pl_tb <$> ps = m0.*1 /\ made ps s'.
Proof.
  intros Hs. destruct (for_each_runs create_table (fun j s => exists ps, pl_tb <$> ps = take j m0.*1 /\ made ps s) m0.*1 s) as (s' & E & ps & Eps & Hm).
  - by exists [].
  - intros j tb s2 Htb (ps & Eps & Hm). destruct (create_table_runs ps s2 tb Hm) as (p & s3 & E & Ep & Hm'); [by eapply list_elem_of_lookup_2| |].
    + rewrite Eps. intros (j' & Hj')%list_elem_of_lookup. apply lookup_take_Some in Hj' as [Hj' Hlt].
      assert (j' = j); [|lia]. apply (NoDup_lookup _ j' j tb (sorted_NoDup _ m0_sorted)); done.
    + exists s3. split; [done|]. exists (ps ++ [p]). split; [|done]. rewrite fmap_app, Eps, (take_S_r _ _ _ Htb). cbn. by rewrite Ep.
  - exists ps, s'. rewrite take_ge in Eps by lia. done.
Qed.

Lemma GetTableNames_runs s par : alike s -> 0 <= par < num_partitions -> GetTableNames par s = Done (m0.*1, s).
Proof.
  intros Ha Hpar. assert (filter (fun e : list Z * tb_info_t => existsb (Z.eqb par) (par_ids e.2) = true) (tb_infos_ s) = tb_infos_ s) as E.
  { assert (Forall (fun e : list Z * tb_info_t => existsb (Z.eqb par) (par_ids e.2) = true) (tb_infos_ s)) as Hall.
    { apply Forall_forall. intros e He. destruct (list_elem_of_lookup_1 _ _ He) as [j Hj]. destruct (Forall2_lookup_l _ _ _ _ _ Ha Hj) as (e0 & He0 & _ & Hl).
      rewrite (lk_pars _ _ Hl). destruct e0 as [tb i0]. apply (de_pars tb i0); [|done]. apply m0_described.
      apply sorted_elem_of_find; [apply m0_sorted|by eapply list_elem_of_lookup_2]. }
    clear -Hall. induction Hall as [|e l He _ IH]; [done|]. rewrite filter_cons, decide_True by done. by rewrite IH. }
  unfold GetTableNames. erewrite bind_eq by done. cbn beta. rewrite E, (Forall2_keys _ _ _ Ha).
  pose proof m0_nonempty. rewrite (bind_eq _ _ s tt s) by (apply verify_eq, Nat.ltb_lt; rewrite length_fmap; lia). done.
Qed.

(** ** Filling the tables *)

(** The first [j] tables have the records of the partition. *)
Record site (par : Z) (ps : list place) (j : nat) (s : Sharding) : Prop := {
  si_alike : alike s;
  si_nodup : NoDup (pl_t <$> ps);
  si_places : forall n p, ps !! n = Some p -> placed s p (if (n <? j)%nat then keys_of par (num_records (pl_info p)) else []);
  si_populated : forall n p i, ps !! n = Some p -> find (pl_tb p) (tb_infos_ s) = Some i -> default false (find par (populated i)) = (n <? j)%nat;
}.

Lemma made_site par ps s : made ps s -> site par ps 0 s.
Proof.
  intros [A B C D E F]. split; [done|done| |].
  - intros n p Hn. rewrite Forall_lookup in F. exact (F n p Hn).
  - intros n p i _ Hi%find_elem_of. rewrite Forall_forall in B. specialize (B _ Hi). cbn in B. by rewrite B.
Qed.

Lemma placed_infos s m p ks : placed s p ks -> placed (s <| tb_infos_ := m |>) p ks.
Proof. by intros []. Qed.

Lemma find_marked (par : Z) (m : omap Z bool) : default false (find par (insert_new par false m)) = default false (find par m).
Proof. rewrite find_insert_new. by case_decide. Qed.

Lemma placed_filled s s' p ks t S pri k ks' : filled s s' t S pri k ks' -> placed s p ks -> pl_t p ≠ t -> placed s' p ks.
Proof.
  intros Hf [A B C (L & D & E)] Hne. split; [done|done| |].
  - destruct (filled_infos _ _ _ _ _ _ _ Hf) as [_ ->]. done.
  - exists L. rewrite (fi_others _ _ _ _ _ _ _ Hf) by done. split; [done|]. eapply Forall2_impl; [exact E|]. intros e x. apply row_at_frame; apply Hf.
Qed.

Lemma populate_one_runs par ps j p s :
  pl_tb <$> ps = m0.*1 -> ps !! j = Some p -> site par ps j s ->
  exists s', populate_one par (pl_tb p) s = Done (true, s') /\ site par ps (Datatypes.S j) s'.
Proof.
  intros Hnames Hj [Ha Hnd Hpl Hpop]. pose proof (Hpl j p Hj) as Hp. rewrite Nat.ltb_irrefl in Hp.
  assert (pl_tb p ∈ m0.*1) as Htb by (rewrite <- Hnames; apply list_elem_of_fmap_2; by eapply list_elem_of_lookup_2).
  destruct (alike_get s (pl_tb p) Ha Htb) as (i & i0 & Hi & Hi0 & Hl & Etb).
  assert (i0 = pl_info p) as -> by (pose proof (da_info _ _ _ _ (ps_described _ _ _ Hp)); congruence).
  pose proof (m0_described _ _ Hi0) as Hde. unfold populate_one. rewrite (bind_eq _ _ _ _ _ Etb).
  rewrite (bind_eq _ _ s tt s) by (apply verify_eq, bool_decide_eq_true; rewrite (lk_name _ _ Hl); symmetry; apply Hde).
  set (i1 := i <| populated ::= insert_new par false |>).
  destruct (set_tb_runs s (pl_tb p) i (pl_info p) (fun t => t <| populated ::= insert_new par false |>) Ha Hi Hi0 (like_refill _ _ _ Hl)) as [E1 Ha1].
  fold i1 in E1, Ha1. set (s1 := s <| tb_infos_ := insert (pl_tb p) i1 (tb_infos_ s) |>) in *. rewrite (bind_eq _ _ _ _ _ E1).
  assert (find (pl_tb p) (tb_infos_ s1) = Some i1) as Hi1 by apply find_insert_eq.
  rewrite (bind_eq _ _ s1 i1 s1) by (unfold tb_of, get, mbind, M_bind; by rewrite Hi1).
  assert (default false (find par (populated i1)) = false) as ->.
  { change (populated i1) with (insert_new par false (populated i)). rewrite find_marked, (Hpop j p i Hj Hi). apply Nat.ltb_irrefl. }
  rewrite (bind_eq _ _ s1 true s1) by (unfold Ready2Populate; by rewrite Hb).
  assert (PopulateTable = Tpca_PopulateTable) as -> by (unfold PopulateTable; by rewrite Hb).
  destruct (ps_rows _ _ _ Hp) as (L & HL & HLs). apply Forall2_nil_inv_r in HLs as ->.
  destruct (Tpca_PopulateTable_runs s1 (pl_tb p) i1 (pl_info p) (pl_pri p) (pl_col p) (pl_S p) par (pl_t p)) as (s2 & E2 & Hf);
    [done|done|apply Hp|apply Hp|apply Hp|done|].
  rewrite (bind_eq _ _ _ _ _ E2). destruct (filled_infos _ _ _ _ _ _ _ Hf) as [Einf Etab].
  assert (alike s2) as Ha2 by (unfold alike; by rewrite Einf). assert (find (pl_tb p) (tb_infos_ s2) = Some i1) as Hi2 by (by rewrite Einf).
  destruct (set_tb_runs s2 (pl_tb p) i1 (pl_info p) (fun t => t <| populated ::= insert par true |>) Ha2 Hi2 Hi0 (like_refill _ _ _ (like_refill _ _ _ Hl))) as [E3 Ha3].
  rewrite (bind_eq _ _ _ _ _ E3). eexists. split; [done|]. split; [done|done| |].
  - intros n q Hn. apply placed_infos. pose proof (Hpl n q Hn) as Hq. destruct (decide (n = j)) as [->|Hne].
    + rewrite Hj in Hn. injection Hn as <-. destruct (Nat.ltb_spec j (Datatypes.S j)); [|lia]. split; [apply Hp|apply Hp|rewrite Etab; apply Hp|apply Hf].
    + assert ((n <? Datatypes.S j)%nat = (n <? j)%nat) as -> by (destruct (Nat.ltb_spec n (Datatypes.S j)), (Nat.ltb_spec n j); lia || done).
      apply (placed_filled s1 s2 q _ (pl_t p) (pl_S p) (pl_pri p) (cl_type (pl_col p)) (keys_of par (num_records (pl_info p)))); [done|by apply placed_infos|].
      intros Et. apply Hne. apply (NoDup_lookup _ n j (pl_t p) Hnd); rewrite list_lookup_fmap; [by rewrite Hn, <- Et|by rewrite Hj].
  - intros n q iq Hn. cbn [tb_infos_ set_field]. rewrite find_insert. case_decide as Eq.
    + assert (n = j) as ->.
      { apply (NoDup_lookup _ n j (pl_tb p) (sorted_NoDup _ m0_sorted)); rewrite <- Hnames, list_lookup_fmap; [by rewrite Hn, Eq|by rewrite Hj]. }
      intros [= <-]. assert ((j <? Datatypes.S j)%nat = true) as -> by (apply Nat.ltb_lt; lia). cbn [populated set_field]. by rewrite find_insert_eq.
    + rewrite Einf. change (tb_infos_ s1) with (insert (pl_tb p) i1 (tb_infos_ s)). rewrite find_insert_ne by done. intros Hq. rewrite (Hpop n q iq Hn Hq).
      assert (n ≠ j) by (intros ->; congruence). destruct (Nat.ltb_spec n (Datatypes.S j)), (Nat.ltb_spec n j); lia || done.
Qed.

Lemma populate_pass_runs par ps l j s : pl_tb <$> ps = m0.*1 -> drop j ps = l -> site par ps j s ->
  exists s', populate_pass par (pl_tb <$> l) s = Done (length l, s') /\ site par ps (j + length l) s'.
Proof.
  intros Hnames. revert j s. induction l as [|p l IH]; intros j s Hl Hs; [exists s; by rewrite Nat.add_0_r|].
  assert (ps !! j = Some p) as Hj by (pose proof (lookup_drop ps j 0) as E; rewrite Hl, Nat.add_0_r in E; by rewrite <- E).
  destruct (populate_one_runs par ps j p s Hnames Hj Hs) as (s1 & E1 & H1).
  destruct (IH (Datatypes.S j) s1) as (s2 & E2 & H2); [rewrite <- Nat.add_1_r, <- drop_drop, Hl; done|done|].
  exists s2. cbn [fmap list_fmap populate_pass]. rewrite (bind_eq _ _ _ _ _ E1), (bind_eq _ _ _ _ _ E2). split; [done|]. cbn [length]. by rewrite Nat.add_succ_r.
Qed.

Lemma PopulateTables_runs par ps s : pl_tb <$> ps = m0.*1 -> made ps s ->
  exists s', PopulateTables par s = Done (0, s') /\ forall n p, ps !! n = Some p -> placed s' p (keys_of par (num_records (pl_info p))).
Proof.
  intros Hnames Hm. pose proof (made_site par ps s Hm) as Hs. pose proof (Forall2_keys _ _ _ (si_alike _ _ _ _ Hs)) as Hkeys. pose proof m0_nonempty as Hne.
  assert (length (tb_infos_ s) = length m0) as Hlen by (rewrite <- (length_fmap fst), Hkeys; by rewrite length_fmap).
  assert (length ps = length m0) as Hlps by (rewrite <- (length_fmap pl_tb), Hnames; by rewrite length_fmap).
  destruct (populate_pass_runs par ps ps 0 s Hnames eq_refl Hs) as (s1 & E1 & H1). cbn [Nat.add] in H1.
  unfold PopulateTables. erewrite bind_eq by done. cbn beta. rewrite Hlen.
  rewrite (bind_eq _ _ s tt s) by (apply verify_eq, Nat.ltb_lt; lia).
  rewrite (bind_eq _ _ s tt s1).
  2:{ cbn [populate_rounds]. erewrite bind_eq by done. cbn beta. rewrite Hkeys, <- Hnames, (bind_eq _ _ _ _ _ E1).
      rewrite (bind_eq _ _ s1 tt s1) by (apply verify_eq, Nat.ltb_lt; lia). by rewrite Hlps, Z.sub_diag. }
  rewrite (bind_eq _ _ s1 tt (s1 <| tb_infos_ ::= fmap (fun e => (e.1, e.2 <| columns ::= fmap (fun c => c <| cl_values := None |>) |>)) |>)) by done.
  eexists. split; [done|]. intros n p Hn. pose proof (si_places _ _ _ _ H1 n p Hn) as Hp.
  assert ((n <? length ps)%nat = true) as E by (apply Nat.ltb_lt; by eapply lookup_lt_Some). rewrite E in Hp. exact (placed_infos _ _ _ _ Hp).
Qed.

Lemma PopTable_runs par s : 0 <= par < num_partitions -> made [] s ->
  exists s' ps, PopTable par s = Done (tt, s') /\ pl_tb <$> ps = m0.*1 /\ forall n p, ps !! n = Some p -> placed s' p (keys_of par (num_records (pl_info p))).
Proof.
  intros Hpar Hm. unfold PopTable. rewrite (bind_eq _ _ _ _ _ (GetTableNames_runs s par (md_alike _ _ Hm) Hpar)).
  destruct (create_tables_run s Hm) as (ps & s1 & E1 & Hnames & H1). rewrite (bind_eq _ _ _ _ _ E1).
  destruct (PopulateTables_runs par ps s1 Hnames H1) as (s2 & E2 & H2). rewrite (bind_eq _ _ _ _ _ E2). by exists s2, ps.
Qed.

Lemma copy_fresh sd : tb_infos_ sd = m0 -> fresh (copy_Sharding sd) (copy_Sharding sd).
Proof.
  intros Esd. assert (tb_infos_ (copy_Sharding sd) = (fun e => (e.1, e.2 <| columns ::= fmap copy_column |>)) <$> m0) as E by (cbn; by rewrite Esd). split.
  - unfold alike. rewrite E. apply Forall2_fmap_l, Forall_Forall2_diag, Forall_forall. intros e _. split; [done|]. split; try done; cbn.
    + apply Forall2_fmap_l, Forall_Forall2_diag, Forall_forall. by intros [] _.
    + apply Forall_fmap, Forall_forall. by intros c _ ftb j.
  - exists (tb_infos_ (copy_Sharding sd)). done.
  - rewrite E. apply Forall_fmap, Forall_forall. intros [tb i] Hin. cbn. apply (de_fresh tb). apply m0_described. by apply sorted_elem_of_find; [apply m0_sorted|].
Qed.

Lemma start_worker_runs sd par : tb_infos_ sd = m0 -> 0 <= par < num_partitions ->
  exists s ps, start_worker par sd = Done (tt, s) /\ pl_tb <$> ps = m0.*1 /\ forall n p, ps !! n = Some p -> placed s p (keys_of par (num_records (pl_info p))).
Proof.
  intros Esd Hpar. unfold start_worker. destruct (BuildTableInfoPtr_runs _ (copy_fresh sd Esd)) as (s & E & [Ha [m Es] Hp]). rewrite (bind_eq _ _ _ _ _ E).
  apply PopTable_runs; [done|]. split; [done|done|constructor|constructor| |constructor]. intros name t. by rewrite Es.
Qed.
End tpca.

(** C28: take the description of tables of integers with one
    key column, as TPC-A has, and any number of partitions.  The worker of every partition
    gets through making and filling its tables, and each of its tables has then exactly the
    records whose number is the partition modulo the number of partitions, once each, in
    order, with the number in the key column; and this is the partition to which
    [GetPartition] sends a request for the record. *)
Theorem rows_in_one_partition `{ShardEnv} (sd : Sharding) :
  benchmark_ = TPCA -> 0 < num_partitions < 2 ^ 32 -> (forall n, 0 <= sh_rand_r n <= RAND_MAX) -> well_described (tb_infos_ sd) = true ->
  (forall par, 0 <= par < num_partitions -> exists s, start_worker par sd = Done (tt, s) /\
    forall tb i, find tb (tb_infos_ sd) = Some i -> exists t T pri c,
      find tb (tables_ s) = Some t /\ db_tables (mdb s) !! t = Some T /\ columns i !! pri = Some c /\ is_primary c = true /\
      (tb_rows T).*1 = (fun k => [KNum k]) <$> filter (fun k => k mod num_partitions = par) (seqZ 0 (num_records i)) /\
      forall e k, e ∈ tb_rows T -> e.1 = [KNum k] -> exists r, db_rows (mdb s) !! e.2 = Some (r, 1) /\ get_column pri r = value_get_n (cl_type c) k) /\
  forall tb i c k v par_id, find tb (tb_infos_ sd) = Some i -> c ∈ columns i -> is_primary c = true -> 0 <= k < num_records i ->
    value_get_n (cl_type c) k = Some v -> GetPartition tb [v] par_id sd = Done ((0, k mod num_partitions), sd).
Proof.
  intros Hb HP Hrand Hd. split.
  - intros par Hpar. destruct (start_worker_runs Hb HP Hrand (tb_infos_ sd) Hd sd par eq_refl Hpar) as (s & ps & E & Hnames & Hps).
    exists s. split; [done|]. intros tb i Hi. assert (tb ∈ pl_tb <$> ps) as (p & -> & [n Hn]%list_elem_of_lookup)%list_elem_of_fmap.
    { rewrite Hnames. apply find_key_in. by exists i. }
    destruct (Hps n p Hn) as [[P1 [P2 P3]] P4 P5 (L & HL & HLs)]. rewrite Hi in P1. injection P1 as Ei. rewrite <- Ei in *.
    exists (pl_t p), (mk_tbl (pl_S p) L Sorted), (pl_pri p), (pl_col p). split_and!; try done; cbn [tb_rows].
    + fold (keys_of par (num_records i)). clear -HLs. induction HLs as [|e k L ks (E & _) _ IH]; cbn; congruence.
    + intros e k [j Hj]%list_elem_of_lookup Ee. destruct (Forall2_lookup_l _ _ _ _ _ HLs Hj) as (k' & Hk' & Ee' & _ & r & vs & Hr & Hrv & _ & Hpri).
      rewrite Ee in Ee'. injection Ee' as <-. exists r. split; [done|]. rewrite (rowv_get _ _ _ Hrv), Hpri. symmetry. apply int_value_n.
      pose proof (de_cols _ _ _ (m0_described HP _ Hd _ _ Hi)) as Hcs. rewrite Forall_lookup in Hcs. by apply (Hcs (pl_pri p)).
  - intros tb i c k v par_id Hi Hc Hpc Hk Hv. pose proof (m0_described HP _ Hd _ _ Hi) as Hde. unfold GetPartition. erewrite bind_eq by done. cbn beta. rewrite Hi.
    pose proof (de_pars _ _ _ Hde 0) as Hpar. destruct (par_ids i) as [|p0 ps] eqn:Ep; [discriminate Hpar; lia|]. cbn [length Nat.eqb].
    pose proof (de_cols _ _ _ Hde) as Hcs. rewrite Forall_forall in Hcs. destruct (Hcs c Hc) as [Hkind _]. rewrite int_value_n in Hv by done. injection Hv as <-.
    pose proof (de_records _ _ _ Hde). rewrite (bind_eq _ _ _ _ _ (partition_of_key Hb HP (cl_type c) k i sd Hkind ltac:(lia))). done.
Qed.

Module PopulateExample.
Definition column (type name : string) (primary : bool) (foreign : string) : YColumn := mk_ycolumn (str type) (str name) primary (str foreign).

(** The tables of [config/tpca.yml], with few records *)
Definition tpca_schema : list (list Z * list YColumn) :=
  [(str "branch", [column "integer" "branch_id" true ""; column "integer" "balance" false ""]);
   (str "teller", [column "integer" "teller_id" true ""; column "integer" "branch_id" false "branch.branch_id"]);
   (str "customer", [column "integer" "customer_id" true ""; column "integer" "branch_id" false "branch.branch_id"; column "integer" "balance" false ""])].
Definition tpca_population : list (list Z * Z) := [(str "branch", 3); (str "teller", 4); (str "customer", 7)].
Definition tpca_methods : list (list Z * list Z) := [(str "teller", str "MOD"); (str "branch", str "MOD"); (str "customer", str "MOD")].

#[local] Instance tpca_env : ShardEnv := {|
  sh_cfg := uniform_config 3 2 1 false [];
  benchmark_ := TPCA;
  sh_rand_r n := Z.of_nat n mod 1000;
|}.

Definition tpca_tables : Sharding :=
  match load_tables 1 tpca_population tpca_schema tpca_methods new_Sharding with Done (_, sd) => sd | _ => new_Sharding end.

(** The customers of the second partition *)
Lemma rows_in_one_partition_witness :
  (exists s t T, start_worker 1 tpca_tables = Done (tt, s) /\ find (str "customer") (tables_ s) = Some t /\ db_tables (mdb s) !! t = Some T /\
    (tb_rows T).*1 = [[KNum 1]; [KNum 3]; [KNum 5]]) /\
  GetPartition (str "customer") [V_I32 5] 0 tpca_tables = Done ((0, 1), tpca_tables).
Proof.
  destruct (rows_in_one_partition tpca_tables) as [Hrows Hpart];
    [done | vm_compute; done | intros n; cbn [sh_rand_r tpca_env]; pose proof (Z.mod_pos_bound (Z.of_nat n) 1000); unfold RAND_MAX; lia | vm_compute; reflexivity |].
  assert (0 <= 1 < num_partitions) as H1 by (vm_compute; split; [discriminate|reflexivity]).
  destruct (find (str "customer") (tb_infos_ tpca_tables)) as [i|] eqn:Ei; [|vm_compute in Ei; discriminate Ei]. split.
  - destruct (Hrows 1 H1) as (s & E & Hs). destruct (Hs _ _ Ei) as (t & T & pri & c & Ht & HT & _ & _ & Hk & _).
    exists s, t, T. refine (conj E (conj Ht (conj HT _))). rewrite Hk. clear -Ei. vm_compute in Ei. injection Ei as <-. vm_compute. reflexivity.
  - destruct (columns i) as [|c cols] eqn:Ec; [vm_compute in Ei; injection Ei as <-; discriminate Ec|].
    assert (is_primary c = true /\ cl_type c = I32 /\ num_records i = 7) as (Hc1 & Hc2 & Hn).
    { clear -Ei Ec. vm_compute in Ei. injection Ei as <-. injection Ec as <- _. repeat split. }
    apply (Hpart _ i c 5 _ 0 Ei); [rewrite Ec; left|exact Hc1|rewrite Hn; split; [discriminate|reflexivity]|rewrite Hc2; reflexivity].
Defined.

(** The other ways to populate run to their end as well. *)
Definition tpcc_schema : list (list Z * list YColumn) :=
  [(str "warehouse", [column "integer" "w_id" true ""; column "string" "w_name" false ""; column "double" "w_tax" false ""]);
   (str "district", [column "integer" "d_id" true ""; column "integer" "d_w_id" true "warehouse.w_id"; column "integer" "d_next_o_id" false ""]);
   (str "customer", [column "integer" "c_id" true ""; column "integer" "c_d_id" true "district.d_id"; column "integer" "c_w_id" true "district.d_w_id"; column "string" "c_last" false ""]);
   (str "history", [column "integer" "h_key" true ""; column "integer" "h_c_id" false "customer.c_id"; column "integer" "h_d_id" false "district.d_id"]);
   (str "order", [column "integer" "o_d_id" true "district.d_id"; column "integer" "o_w_id" true "district.d_w_id"; column "integer" "o_id" true ""; column "integer" "o_c_id" false "customer.c_id"]);
   (str "new_order", [column "integer" "no_d_id" true "order.o_d_id"; column "integer" "no_w_id" true "order.o_w_id"; column "integer" "no_o_id" true "order.o_id"]);
   (str "item", [column "integer" "i_id" true ""; column "integer" "i_im_id" false ""]);
   (str "stock", [column "integer" "s_i_id" true "item.i_id"; column "integer" "s_w_id" true "warehouse.w_id"; column "integer" "s_quantity" false ""])].

Section tpcc.
Context (b : benchmark).
#[local] Instance tpcc_env : ShardEnv := {| sh_cfg := uniform_config 3 2 1 false []; benchmark_ := b; sh_rand_r n := Z.of_nat n mod 1000 |}.

(** How many rows each table has in a partition, after loading and populating *)
Definition tpcc_rows (par : Z) : option (list nat) :=
  let names := fst <$> tpcc_schema in
  match load_tables 1 (zip names [1; 2; 6; 6; 6; 2; 4; 4]) tpcc_schema ((fun n => (n, str "MOD")) <$> names) new_Sharding with
  | Done (_, sd) =>
    match start_worker par sd with
    | Done (_, s) => mapM (fun e => T ← db_tables (mdb s) !! e.2; Some (length (tb_rows T))) (tables_ s)
    | _ => None
    end
  | _ => None
  end.
End tpcc.

Example tpcc_populates : tpcc_rows TPCC 0 = Some [6; 2; 3; 2; 2; 6; 6; 4; 1]%nat /\ tpcc_rows TPCC 1 = Some [6; 2; 3; 2; 2; 6; 6; 4; 1]%nat.
Proof. split; vm_compute; reflexivity. Qed.
Example tpccd_populates : tpcc_rows TPCC_REAL_DIST_PART 0 = Some [6; 2; 3; 4; 2; 6; 6; 2; 1]%nat /\ tpcc_rows TPCC_REAL_DIST_PART 1 = Some [6; 2; 3; 4; 2; 6; 6; 2; 1]%nat.
Proof. split; vm_compute; reflexivity. Qed.
End PopulateExample.
