(* ===== verification/Tapir.v ===== *)
(** * TAPIR: executors and servers
    (src/deptran/tapir/exec.cc, dtxn.cc, sched.cc; src/deptran/executor.cc, and the table of
    executors of src/deptran/scheduler.cc)

    A piece reads rows with their versions and keeps its writes to itself.  [FastAccept]
    runs all pieces of the partition again, and locks the rows that were read and are to
    be written; [Commit] applies the writes and gives the locks back, [Abort] only gives
    them back.  A request runs under the mutex of the scheduler; the pieces of a request
    have different inner identifiers.

    A registered handler is a program of column accesses ([Piece]); the rows it may touch
    exist from the start.  Row pointers are numbers, and the maps over row pointers are in
    their order. *)
From stdpp Require Import base tactics numbers list sorting gmap.
From S2P Require Import Prelude SparseInt OMap Command MemRow Occ.

(** [ReadColumn] and [WriteColumn] of a handler, and the output it ends with. *)
Inductive Piece :=
  | PRead (rid : Z) (col : nat) (k : Value -> Piece)
  | PWrite (rid : Z) (col : nat) (v : Value) (k : Piece)
  | PRet (out : omap Z Value).

(** [WriteColumns]: one column after the other. *)
Definition PWriteColumns (rid : Z) (columns : list (nat * Value)) (k : Piece) : Piece := foldr (fun p => PWrite rid p.1 p.2) k columns.

(** [TxnRegistry::get] by the types of the transaction and of the piece. *)
Class TapirRegistry := tapir_reg : Z -> Z -> option (SimpleCommand -> Piece).

(** [TapirDTxn], and what [TapirExecutor] adds. *)
Record TapirExec := mk_tex {
  read_vers_ : gmap (Z * nat) Z;
  write_bufs_ : gmap (Z * nat) Value;
  locked_rows_ : gset Z;
  fast_phase : bool;
}.
#[export] Instance Eta_tex : Eta TapirExec := fun r => mk_tex (read_vers_ r) (write_bufs_ r) (locked_rows_ r) (fast_phase r).

Definition new_TapirExec : TapirExec := mk_tex ∅ ∅ ∅ false.

Record TapirSched := mk_tsched {
  tp_rows : gmap Z VersionedRow;
  executors_ : gmap Z TapirExec;
  tp_mdb_txns : gset Z;
  epoch_enabled_ : bool;
}.
#[export] Instance Eta_tsched : Eta TapirSched := fun r => mk_tsched (tp_rows r) (executors_ r) (tp_mdb_txns r) (epoch_enabled_ r).

Definition SUCCESS : Z := 0.
Definition REJECT : Z := -10.

(** The entries of a map over rows and columns, in order. *)
Definition key_le (a b : Z * nat) : Prop := a.1 < b.1 \/ (a.1 = b.1 /\ (a.2 <= b.2)%nat).
#[export] Instance key_le_dec a b : Decision (key_le a b).
Proof. unfold key_le. apply _. Defined.
Definition entries {A} (m : gmap (Z * nat) A) : list ((Z * nat) * A) := merge_sort (fun p q => key_le p.1 q.1) (map_to_list m).
(** The rows of such a map. *)
Definition rows_of {A} (m : gmap (Z * nat) A) : list Z := remove_dups (fst ∘ fst <$> entries m).

Section server.
Context `{TapirRegistry}.

(** ** Tables *)

Definition set_exec (tid : Z) (f : TapirExec -> TapirExec) : M TapirSched () := modify (fun s => s <| executors_ ::= alter f tid |>).
Definition GetExecutor (tid : Z) : M TapirSched TapirExec := s ← get; from_option (executors_ s !! tid).

Definition GetOrCreateExecutor (tid : Z) : M TapirSched () :=
  s ← get;
  match executors_ s !! tid with
  | Some _ => mret ()
  | None => modify (fun s => s <| executors_ ::= <[tid := new_TapirExec]> |>)
  end.

Definition DestroyExecutor (tid : Z) : M TapirSched () :=
  _ ← GetExecutor tid;
  modify (fun s => s <| executors_ ::= delete tid |>).

(** With epochs enabled the executor stays. *)
Definition TrashExecutor (tid : Z) : M TapirSched () :=
  s ← get;
  if epoch_enabled_ s then mret () else DestroyExecutor tid.

Definition tp_row (rid : Z) : M TapirSched VersionedRow := s ← get; from_option (tp_rows s !! rid).
Definition set_tp_row (rid : Z) (r : VersionedRow) : M TapirSched () := modify (fun s => s <| tp_rows ::= <[rid := r]> |>).

(** ** Running pieces *)

Definition ReadColumn (tid rid : Z) (col : nat) : M TapirSched Value :=
  r ← tp_row rid;
  c ← from_option (get_column col (vr_row r));
  ver_id ← from_option (get_column_ver col r);
  set_exec tid (fun e => e <| read_vers_ ::= <[(rid, col) := ver_id]> |>);;
  mret c.

Definition WriteColumn (tid rid : Z) (col : nat) (v : Value) : M TapirSched () :=
  _ ← tp_row rid;
  set_exec tid (fun e => e <| write_bufs_ ::= <[(rid, col) := v]> |>).

Fixpoint run_piece (tid : Z) (p : Piece) : M TapirSched (omap Z Value) :=
  match p with
  | PRead rid col k => v ← ReadColumn tid rid col; run_piece tid (k v)
  | PWrite rid col v k => WriteColumn tid rid col v;; run_piece tid k
  | PRet out => mret out
  end.

(** [TapirExecutor::Execute]: [ws] has the outputs of the pieces before. *)
Fixpoint execute (tid : Z) (cmds : list SimpleCommand) (ws : TxnWorkspace) (output : TxnOutput) : M TapirSched TxnOutput :=
  match cmds with
  | [] => mret output
  | c :: cmds =>
    handler ← from_option (tapir_reg (root_type_ c) (type_ c));
    m ← run_piece tid (handler (c <| input ::= ws_Aggregate ws |>));
    execute tid cmds (ws_insert m ws) (insert (inn_id_ c) m output)
  end.

Definition Execute (tid : Z) (cmds : list SimpleCommand) : M TapirSched TxnOutput := execute tid cmds (mk_ws [] [] [] 0) [].

(** ** [FastAccept] *)

(** Neither the copy constructor nor the assignment of a [Value] copies [ver_]: a value
    that a handler has put into its output, or that has come in a message made from such
    an output, has the initial one. *)
Definition val_ver (v : Value) : Z := 0.

(** The outputs of the dispatch phase, joined. *)
Definition output_m (cmds : list SimpleCommand) : omap Z Value := foldl (fun m c => insert_range (output c) m) [] cmds.

Definition outputs_match (dispatched : omap Z Value) (output : TxnOutput) : bool :=
  forallb (fun p => forallb (fun q : Z * Value =>
    match find q.1 dispatched with Some v => val_ver q.2 =? val_ver v | None => false end) p.2) output.

Definition lock_row (lock : Z -> RWLock -> bool * RWLock) (tid rid : Z) : M TapirSched bool :=
  r ← tp_row rid;
  let '(ok, l) := lock tid (lock_ r) in
  set_tp_row rid (r <| lock_ := l |>);;
  when ok (set_exec tid (fun e => e <| locked_rows_ ::= fun ls => {[rid]} ∪ ls |>));;
  mret ok.

(** The two loops go on after a lock that is refused. *)
Fixpoint lock_reads (tid : Z) (vers : list ((Z * nat) * Z)) (res : Z) : M TapirSched Z :=
  match vers with
  | [] => mret res
  | ((rid, col), ver_read) :: vers =>
    r ← tp_row rid;
    ver_now ← from_option (get_column_ver col r);
    verify (negb (ver_now >? ver_read));;
    ok ← lock_row rlock_by tid rid;
    lock_reads tid vers (if (ok : bool) then res else REJECT)
  end.

Fixpoint lock_writes (tid : Z) (rows : list Z) (res : Z) : M TapirSched Z :=
  match rows with
  | [] => mret res
  | rid :: rows =>
    ok ← lock_row wlock_by tid rid;
    lock_writes tid rows (if (ok : bool) then res else REJECT)
  end.

Definition FastAccept (tid : Z) (txn_cmds : list SimpleCommand) : M TapirSched Z :=
  set_exec tid (fun e => e <| fast_phase := true |>);;
  output ← Execute tid txn_cmds;
  if outputs_match (output_m txn_cmds) output then
    e ← GetExecutor tid;
    res ← lock_reads tid (entries (read_vers_ e)) SUCCESS;
    lock_writes tid (rows_of (write_bufs_ e)) res
  else mret REJECT.

(** ** [Commit] and [Abort] *)

Definition write_col (p : (Z * nat) * Value) : M TapirSched () :=
  let '((rid, col), v) := p in
  r ← tp_row rid;
  _ ← from_option (get_column_ver col r);
  '(_, row) ← from_option (match update col v (vr_row r) with Done (x, row) => Some (x, row) | _ => None end);
  set_tp_row rid (incr_column_ver col r <| vr_row := row |>).

Definition unlock_row (tid rid : Z) : M TapirSched () :=
  r ← tp_row rid;
  let '(ok, l) := unlock_by tid (lock_ r) in
  set_tp_row rid (r <| lock_ := l |>);;
  verify ok.

Definition clear_bufs (tid : Z) : M TapirSched () := set_exec tid (fun e => e <| read_vers_ := ∅ |> <| write_bufs_ := ∅ |>).

Definition Commit (tid : Z) : M TapirSched () :=
  e ← GetExecutor tid;
  for_each (entries (write_bufs_ e)) write_col;;
  for_each (elements (locked_rows_ e)) (unlock_row tid);;
  clear_bufs tid.

Definition Abort_ (tid : Z) : M TapirSched () :=
  e ← GetExecutor tid;
  for_each (elements (locked_rows_ e)) (unlock_row tid);;
  clear_bufs tid.

(** ** Requests *)

Definition OnDispatch (cmds : list SimpleCommand) : M TapirSched TxnOutput :=
  c ← from_option (head cmds);
  GetOrCreateExecutor (root_id_ c);;
  modify (fun s => s <| tp_mdb_txns ::= fun ts => {[root_id_ c]} ∪ ts |>);;
  Execute (root_id_ c) cmds.

Definition OnFastAccept (cmd_id : Z) (txn_cmds : list SimpleCommand) : M TapirSched Z :=
  GetOrCreateExecutor cmd_id;;
  res ← FastAccept cmd_id txn_cmds;
  verify (negb (length txn_cmds =? 0)%nat);;
  mret res.

Definition COMMIT : Z := 1.
Definition ABORT : Z := 2.

Definition OnDecide (txn_id decision : Z) : M TapirSched () :=
  _ ← GetExecutor txn_id;
  (if decision =? COMMIT then Commit txn_id
   else if decision =? ABORT then Abort_ txn_id
   else abort);;
  TrashExecutor txn_id.
End server.
