(* ===== verification/TapirCoord.v ===== *)
(** * TAPIR: the coordinator (src/deptran/tapir/coord.cc, commo.cc; src/deptran/classic/coord.cc)

    A coordinator runs one transaction at a time: it dispatches the pieces that are ready to
    one server of their partition, until all outputs are in, asks all servers of all
    partitions to accept, and tells them the decision; an aborted transaction is tried
    again under a new identifier. *)
From stdpp Require Import base tactics numbers list sorting gmap.
From S2P Require Import Prelude OMap Command Config Chopper ChrCoord Tapir.

(** The RPCs, to a server or to all servers of a partition. *)
Inductive TapirMsg :=
  | SendDispatch (par phase : Z) (cmds : list SimpleCommand)
  | BroadcastFastAccept (par phase cmd_id : Z) (cmds : list SimpleCommand)
  | BroadcastDecide (par cmd_id decision : Z).

Record TapirCoord := mk_tcoord {
  tc : Coord;
  n_fast_accept_oks_ : omap Z Z;
  n_fast_accept_rejects_ : omap Z Z;
  tc_sent : list TapirMsg;
}.
#[export] Instance Eta_tcoord : Eta TapirCoord := fun r => mk_tcoord (tc r) (n_fast_accept_oks_ r) (n_fast_accept_rejects_ r) (tc_sent r).

(** What a workload provides: what happens when the output of a piece is in, [Reset] of a
    transaction, and the configured [max_retry_]. *)
Class TapirWorkload := {
  start_callback : Z -> omap Z Value -> TxnCommand -> TxnCommand;
  txn_Reset : TxnCommand -> TxnCommand;
  tapir_max_retry : Z;
}.

Section coordinator.
Context (cfg : Config) `{TapirWorkload}.

Definition on_tc {A} (m : M Coord A) : M TapirCoord A := fun s =>
  match m (tc s) with
  | Done (a, c) => Done (a, s <| tc := c |>)
  | Aborted => Aborted
  | OutOfFuel => OutOfFuel
  end.
Definition on_txn {A} (m : M TxnCommand A) : M TapirCoord A := on_tc (on_cmd m).
Definition emit_msg (m : TapirMsg) : M TapirCoord () := modify (fun s => s <| tc_sent ::= fun l => l ++ [m] |>).
Definition the_coord : M TapirCoord Coord := gets tc.
Definition the_txn : M TapirCoord TxnCommand := gets (fun s => cmd_ (tc s)).
Definition next_phase : M TapirCoord () := on_tc (modify (fun s => s <| phase_ ::= fun p => u32 (p + 1) |>)).

Definition TapirReset : M TapirCoord () :=
  modify (fun s => s <| tc ::= coord_Reset |> <| n_fast_accept_oks_ := [] |> <| n_fast_accept_rejects_ := [] |>).

(** ** Dispatch *)

Definition Dispatch : M TapirCoord () :=
  cmds_by_par ← on_txn (GetReadyCmds 0);
  for_each cmds_by_par (fun pair =>
    cc ← on_tc (count_dispatch pair.2;; number_pieces pair.2);
    s ← the_coord;
    emit_msg (SendDispatch pair.1 (phase_ s) cc)).

(** [case INIT_END] of [GotoNextPhase] *)
Definition goto_dispatch : M TapirCoord () :=
  next_phase;;
  Dispatch;;
  s ← the_coord;
  verify (phase_ s mod 4 =? 1).

(** [ClassicCoord::Restart] *)
Definition ClassicRestart : M TapirCoord () :=
  s ← the_coord;
  verify (aborted_ s);;
  on_tc new_attempt;;
  s ← the_coord;
  if (tapir_max_retry <? n_retry_ s) && (0 <=? tapir_max_retry) then on_tc End_
  else
    TapirReset;;
    on_txn (modify txn_Reset);;
    goto_dispatch.

(** [TapirCoord::Restart] draws an identifier of its own first. *)
Definition TapirRestart : M TapirCoord () :=
  on_tc (modify (fun s => s <| next_txn_id_ ::= fun n => u64 (n + 1) |>
    <| cmd_ ::= fun t => t <| txn_root_id_ := next_txn_id_ s |> <| txn_id_ := next_txn_id_ s |> |>));;
  ClassicRestart.

(** [case DECIDE] *)
Definition goto_end : M TapirCoord () :=
  next_phase;;
  s ← the_coord;
  verify (phase_ s mod 4 =? 0);;
  if committed_ s then on_tc End_ else if aborted_ s then TapirRestart else abort.

Definition Decide : M TapirCoord () :=
  s ← the_coord;
  verify (negb (bool_decide (committed_ s = aborted_ s)));;
  let d := if committed_ s then COMMIT else ABORT in
  for_each (partition_ids_ (cmd_ s)) (fun par_id => emit_msg (BroadcastDecide par_id (txn_id_ (cmd_ s)) d));;
  goto_end.

(** [case FAST_ACCEPT] *)
Definition goto_decide : M TapirCoord () :=
  next_phase;;
  s ← the_coord;
  verify (phase_ s mod 4 =? 3);;
  Decide.

(** ** Acceptance *)

Definition GetCmdsByPartition (par_id : Z) (t : TxnCommand) : list SimpleCommand :=
  filter (fun c => cmd_partition_id_ c = par_id) (cmds_ t).*2.

Fixpoint fast_accept_all (pars : list Z) (sum : Z) : M TapirCoord Z :=
  match pars with
  | [] => mret sum
  | par_id :: pars =>
    s ← the_coord;
    let txn_cmds := GetCmdsByPartition par_id (cmd_ s) in
    verify (0 <? length txn_cmds)%nat;;
    verify (length txn_cmds <? Z.to_nat 10000)%nat;;
    modify (fun s => s <| n_fast_accept_oks_ ::= insert par_id 0 |> <| n_fast_accept_rejects_ ::= insert par_id 0 |>);;
    emit_msg (BroadcastFastAccept par_id (phase_ s) (txn_id_ (cmd_ s)) txn_cmds);;
    fast_accept_all pars (sum + Z.of_nat (length txn_cmds))
  end.

Definition SendFastAccept : M TapirCoord () :=
  t ← the_txn;
  verify (negb (length (partition_ids_ t) =? 0)%nat);;
  sum ← fast_accept_all (partition_ids_ t) 0;
  t ← the_txn;
  verify (sum =? Z.of_nat (length (cmds_ t))).

(** [case DISPATCH] *)
Definition goto_fast_accept : M TapirCoord () :=
  next_phase;;
  s ← the_coord;
  verify (phase_ s mod 4 =? 2);;
  SendFastAccept.

Definition AllDispatchAcked : M TapirCoord bool :=
  s ← the_coord;
  if forallb snd (dispatch_acks_ s) then verify (n_dispatch_ack_ s =? n_dispatch_ s);; mret true else mret false.

(** The output of one piece comes in. *)
Definition take_output (p : Z * omap Z Value) : M TapirCoord () :=
  on_tc (modify (fun s => s <| n_dispatch_ack_ ::= fun n => u32 (n + 1) |>));;
  s ← the_coord;
  let '(acked, acks) := index false p.1 (dispatch_acks_ s) in
  verify (negb acked);;
  on_tc (modify (fun s => s <| dispatch_acks_ := insert p.1 true acks |>));;
  on_txn (Merge start_callback p.1 p.2).

Definition DispatchAck (phase : Z) (outputs : TxnOutput) : M TapirCoord () :=
  s ← the_coord;
  if negb (phase =? phase_ s) then mret ()
  else
    for_each outputs take_output;;
    more ← on_txn HasMoreSubCmdReadyNotOut;
    if (more : bool) then Dispatch
    else
      acked ← AllDispatchAcked;
      if (acked : bool) then goto_fast_accept else mret ().

(** [GetFastQuorum]: all replicas of the partition. *)
Definition GetFastQuorum (par_id : Z) : M TapirCoord Z := from_option (GetPartitionSize cfg par_id).

Fixpoint FastQuorumPossible (pars : list Z) : M TapirCoord bool :=
  match pars with
  | [] => mret true
  | par_id :: pars =>
    par_size ← from_option (GetPartitionSize cfg par_id);
    quorum ← GetFastQuorum par_id;
    n ← state (fun s => let '(n, m) := index 0 par_id (n_fast_accept_rejects_ s) in (n, s <| n_fast_accept_rejects_ := m |>));
    if n >? par_size - quorum then mret false else FastQuorumPossible pars
  end.

Fixpoint AllFastQuorumReached (pars : list Z) : M TapirCoord bool :=
  match pars with
  | [] => mret true
  | par_id :: pars =>
    quorum ← GetFastQuorum par_id;
    n ← state (fun s => let '(n, m) := index 0 par_id (n_fast_accept_oks_ s) in (n, s <| n_fast_accept_oks_ := m |>));
    if n <? quorum then mret false else AllFastQuorumReached pars
  end.

(** [n_fast_accept_oks_[par_id]++] and the like *)
Definition count_up (par_id : Z) (m : omap Z Z) : omap Z Z :=
  let '(n, m) := index 0 par_id m in insert par_id (i32 (n + 1)) m.

Definition FastAcceptAck (phase par_id res : Z) : M TapirCoord () :=
  s ← the_coord;
  if phase_ s >? phase then mret ()
  else
    (if res =? SUCCESS then modify (fun s => s <| n_fast_accept_oks_ ::= count_up par_id |>)
     else if res =? REJECT then modify (fun s => s <| n_fast_accept_rejects_ ::= count_up par_id |>)
     else abort);;
    t ← the_txn;
    possible ← FastQuorumPossible (partition_ids_ t);
    if (possible : bool) then
      reached ← AllFastQuorumReached (partition_ids_ t);
      if (reached : bool) then on_tc (modify (fun s => s <| committed_ := true |>));; goto_decide else mret ()
    else on_tc (modify (fun s => s <| aborted_ := true |>));; goto_decide.

(** ** A new transaction: [ClassicCoord::do_one] *)

Definition tapir_do_one (is_local : bool) (home_region_id : Z) (t : TxnCommand) : M TapirCoord () :=
  verify (negb (home_region_id =? 65535));;
  on_tc (modify (fun s => s <| my_txn_is_loacal_ := is_local |> <| home_par_id_ := home_region_id |>
    <| cmd_ := t <| txn_root_id_ := next_txn_id_ s |> <| txn_id_ := next_txn_id_ s |> <| txn_timestamp_ := next_txn_id_ s |> |>
    <| next_txn_id_ ::= fun n => u64 (n + 1) |> <| n_retry_ := 0 |>));;
  TapirReset;;
  goto_dispatch.
End coordinator.
