(* ===== verification/TapirSystem.v ===== *)
(** * TAPIR: coordinators and servers together (src/deptran/tapir/commo.cc, src/deptran/communicator.cc)

    Every coordinator has one connection to each server, over which its requests arrive in
    the order in which they were sent; requests of different connections, and answers, are
    delivered in any order, at any later time, or never.

    [ty_pieces] and [ty_decided] are a history that no handler reads: the pieces with
    which a transaction was sent for acceptance, and the decisions to commit, in order. *)
From stdpp Require Import base tactics numbers list sorting gmap.
From S2P Require Import Prelude OMap Command Config MemRow Occ Chopper ChrCoord Tapir TapirCoord.

(** A request, with what the closure that takes the answer has captured. *)
Inductive TapirReq :=
  | RqDispatch (phase : Z) (cmds : list SimpleCommand)
  | RqFastAccept (phase par cmd_id : Z) (cmds : list SimpleCommand)
  | RqDecide (cmd_id decision : Z).

Inductive TapirRsp :=
  | RsDispatch (coo phase : Z) (outputs : TxnOutput)
  | RsFastAccept (coo phase par res : Z).

(** The configuration, the initial rows of a partition, and the place of a coordinator
    among the replicas ([loc_id_]). *)
Class TapirEnv := {
  t_cfg : Config;
  t_rows : Z -> gmap Z VersionedRow;
  t_loc : Z -> nat;
}.

Record Tapir := mk_tapir {
  ty_servers : gmap Z TapirSched;
  ty_coords : gmap Z TapirCoord;
  ty_chan : gmap (Z * Z) (list TapirReq);
  ty_replies : list TapirRsp;
  ty_pieces : gmap Z (omap Z (list SimpleCommand));
  ty_decided : list Z;
}.
#[export] Instance Eta_tapir : Eta Tapir :=
  fun r => mk_tapir (ty_servers r) (ty_coords r) (ty_chan r) (ty_replies r) (ty_pieces r) (ty_decided r).

Section system.
Context `{TapirEnv} `{TapirRegistry} `{TapirWorkload}.

(** [Coordinator::Coordinator]: the identifiers of a coordinator start with its number. *)
Definition first_id (coo : Z) : Z := u64 (Z.shiftl coo 32 + 1).
Definition no_txn : TxnCommand := mk_txn 0 0 0 0 [] [] [] [] [] [] [] 0 0 0 0.
Definition new_TapirCoord (coo : Z) : TapirCoord :=
  mk_tcoord (mk_coord 0 false false 0 0 0 [] (first_id coo) (first_id coo) false 0 no_txn 0 [] []) [] [] [].

Definition new_TapirSched (par : Z) : TapirSched := mk_tsched (t_rows par) ∅ ∅ true.

Definition init_tapir (coos : list Z) : Tapir := {|
  ty_servers := list_to_map ((fun x => (si_id x, new_TapirSched (si_partition_id_ x))) <$> sites_ t_cfg);
  ty_coords := list_to_map ((fun c => (c, new_TapirCoord c)) <$> coos);
  ty_chan := ∅;
  ty_replies := [];
  ty_pieces := ∅;
  ty_decided := [];
|}.

(** ** Sending *)

Definition replicas_of (par : Z) : list Z := si_id <$> default [] (SitesByPartitionId t_cfg par).

Definition push (coo site : Z) (q : TapirReq) (w : Tapir) : Tapir :=
  w <| ty_chan ::= <[(coo, site) := default [] (ty_chan w !! (coo, site)) ++ [q]]> |>.
Definition push_all (coo : Z) (sites : list Z) (q : TapirReq) (w : Tapir) : Tapir := foldl (fun w x => push coo x q w) w sites.

(** The pieces of a transaction for one more partition. *)
Definition note_pieces (id par : Z) (cmds : list SimpleCommand) (w : Tapir) : Tapir :=
  w <| ty_pieces ::= <[id := insert par cmds (default [] (ty_pieces w !! id))]> |>.
(** A decision to commit is noted once. *)
Definition note_decision (id decision : Z) (w : Tapir) : Tapir :=
  if (decision =? COMMIT) && negb (bool_decide (id ∈ ty_decided w)) then w <| ty_decided ::= fun l => l ++ [id] |> else w.

Definition post (coo : Z) (m : TapirMsg) (w : Tapir) : option Tapir :=
  match m with
  | SendDispatch par phase cmds =>
    (* NearestProxyForPartition *)
    x ← replicas_of par !! t_loc coo;
    Some (push coo x (RqDispatch phase cmds) w)
  | BroadcastFastAccept par phase id cmds =>
    Some (push_all coo (replicas_of par) (RqFastAccept phase par id cmds) (note_pieces id par cmds w))
  | BroadcastDecide par id decision =>
    Some (push_all coo (replicas_of par) (RqDecide id decision) (note_decision id decision w))
  end.

Fixpoint post_all (coo : Z) (ms : list TapirMsg) (w : Tapir) : option Tapir :=
  match ms with
  | [] => Some w
  | m :: ms => w ← post coo m w; post_all coo ms w
  end.

Definition at_coord (coo : Z) (m : M TapirCoord ()) (w : Tapir) : option Tapir :=
  s ← ty_coords w !! coo;
  match m (s <| tc_sent := [] |>) with
  | Done (_, s) => post_all coo (tc_sent s) (w <| ty_coords ::= <[coo := s]> |>)
  | _ => None
  end.

Definition at_server {A} (site : Z) (m : M TapirSched A) (reply : A -> list TapirRsp) (w : Tapir) : option Tapir :=
  s ← ty_servers w !! site;
  match m s with
  | Done (a, s) => Some (w <| ty_servers ::= <[site := s]> |> <| ty_replies ::= fun l => l ++ reply a |>)
  | _ => None
  end.

(** ** Steps *)

Definition serve (coo site : Z) (q : TapirReq) (w : Tapir) : option Tapir :=
  match q with
  | RqDispatch phase cmds => at_server site (OnDispatch cmds) (fun out => [RsDispatch coo phase out]) w
  | RqFastAccept phase par id cmds => at_server site (OnFastAccept id cmds) (fun res => [RsFastAccept coo phase par res]) w
  | RqDecide id decision => at_server site (OnDecide id decision) (fun _ => []) w
  end.

Definition take_reply (p : TapirRsp) (w : Tapir) : option Tapir :=
  match p with
  | RsDispatch coo phase out => at_coord coo (DispatchAck phase out) w
  | RsFastAccept coo phase par res => at_coord coo (FastAcceptAck t_cfg phase par res) w
  end.

Inductive tapir_event :=
  | TvStart (coo : Z) (is_local : bool) (home : Z) (t : TxnCommand)
  | TvServe (coo site : Z)
  | TvReply (k : nat).

(** A client gives a coordinator a transaction when the last one has ended. *)
Definition tapir_step (e : tapir_event) (w : Tapir) : option Tapir :=
  match e with
  | TvStart coo is_local home t =>
    s ← ty_coords w !! coo;
    if phase_ (tc s) mod 4 =? 0 then at_coord coo (tapir_do_one is_local home t) w else None
  | TvServe coo site =>
    match ty_chan w !! (coo, site) with
    | Some (q :: qs) => serve coo site q (w <| ty_chan ::= <[(coo, site) := qs]> |>)
    | _ => None
    end
  | TvReply k =>
    p ← ty_replies w !! k;
    take_reply p (w <| ty_replies ::= delete k |>)
  end.

Fixpoint tapir_run (es : list tapir_event) (w : Tapir) : option Tapir :=
  match es with
  | [] => Some w
  | e :: es => w ← tapir_step e w; tapir_run es w
  end.
End system.
