(* ===== verification/TapirEval.v ===== *)
(** * TAPIR: what running pieces and applying writes do to the rows

    The rows without their locks ([Content]) are all that a piece depends on.  Running
    pieces and applying their writes as functions on them, which rows they depend on, and
    when two transactions may change places. *)
From stdpp Require Import base tactics numbers list sorting gmap sets.
From S2P Require Import Prelude SparseInt OMap Command MemRow Occ Tapir MemRowSpec OccLock.

Abbreviation Content := (gmap Z (Row * list Z)).
Definition content_of (r : VersionedRow) : Row * list Z := (vr_row r, ver_ r).
Definition contents (rows : gmap Z VersionedRow) : Content := content_of <$> rows.

(** The versions read and the writes of an execution. *)
Record Trace := mk_trace { tr_reads : gmap (Z * nat) Z; tr_writes : gmap (Z * nat) Value }.
Definition no_trace : Trace := mk_trace ∅ ∅.
Definition key_rows {A} (m : gmap (Z * nat) A) : gset Z := set_map fst (dom m).
Definition trace_rows (t : Trace) : gset Z := key_rows (tr_reads t) ∪ key_rows (tr_writes t).

Section eval.
Context `{TapirRegistry}.

Fixpoint eval_piece (σ : Content) (p : Piece) (t : Trace) : option (omap Z Value * Trace) :=
  match p with
  | PRead rid col k =>
    '(row, vers) ← σ !! rid;
    c ← get_column col row;
    ver ← vers !! col;
    eval_piece σ (k c) (mk_trace (<[(rid, col) := ver]> (tr_reads t)) (tr_writes t))
  | PWrite rid col v k =>
    _ ← σ !! rid;
    eval_piece σ k (mk_trace (tr_reads t) (<[(rid, col) := v]> (tr_writes t)))
  | PRet out => Some (out, t)
  end.

Fixpoint eval_from (σ : Content) (cmds : list SimpleCommand) (ws : TxnWorkspace) (output : TxnOutput) (t : Trace) : option (TxnOutput * Trace) :=
  match cmds with
  | [] => Some (output, t)
  | c :: cmds =>
    handler ← tapir_reg (root_type_ c) (type_ c);
    '(m, t) ← eval_piece σ (handler (c <| input ::= ws_Aggregate ws |>)) t;
    eval_from σ cmds (ws_insert m ws) (insert (inn_id_ c) m output) t
  end.

Definition eval_cmds (σ : Content) (cmds : list SimpleCommand) : option (TxnOutput * Trace) := eval_from σ cmds (mk_ws [] [] [] 0) [] no_trace.

(** ** The traces grow *)

Definition grows (t t' : Trace) : Prop := dom (tr_reads t) ⊆ dom (tr_reads t') /\ dom (tr_writes t) ⊆ dom (tr_writes t').
#[export] Instance grows_preorder : PreOrder grows.
Proof. split; [by split|]. intros t1 t2 t3 [A1 A2] [B1 B2]. split; by etrans. Qed.

Lemma grows_rows t t' : grows t t' -> trace_rows t ⊆ trace_rows t'.
Proof. intros [A B]. unfold trace_rows, key_rows. set_solver. Qed.

Lemma eval_piece_grows σ p t m t' : eval_piece σ p t = Some (m, t') -> grows t t'.
Proof.
  revert t. induction p as [rid col k IH|rid col v k IH|out]; intros t; cbn [eval_piece].
  - destruct (σ !! rid) as [[row vers]|]; [|done]. cbn. destruct (get_column col row) as [c|]; [|done]. cbn. destruct (vers !! col); [|done]. cbn.
    intros E%IH. etrans; [|exact E]. split; cbn; [rewrite dom_insert|]; set_solver.
  - destruct (σ !! rid); [|done]. cbn. intros E%IH. etrans; [|exact E]. split; cbn; [|rewrite dom_insert]; set_solver.
  - by intros [= <- <-].
Qed.

Lemma eval_from_grows σ cmds ws out t r : eval_from σ cmds ws out t = Some r -> grows t r.2.
Proof.
  revert ws out t. induction cmds as [|c cmds IH]; intros ws out t; cbn [eval_from]; [by intros [= <-]|].
  destruct (tapir_reg _ _); [|done]. cbn. destruct (eval_piece _ _ _) as [[m t1]|] eqn:E; [|done]. cbn. intros Hr%IH.
  etrans; [by eapply eval_piece_grows|done].
Qed.

(** ** Only the rows of the trace matter *)

Definition agree (X : gset Z) (σ σ' : Content) : Prop := forall rid, rid ∈ X -> σ' !! rid = σ !! rid.

Lemma eval_piece_agree σ σ' p t m t' : eval_piece σ p t = Some (m, t') -> agree (trace_rows t') σ σ' -> eval_piece σ' p t = Some (m, t').
Proof.
  revert t. induction p as [rid col k IH|rid col v k IH|out]; intros t; cbn [eval_piece]; [| |done].
  - destruct (σ !! rid) as [[row vers]|] eqn:Er; [|done]. cbn. destruct (get_column col row) as [c|] eqn:Ec; [|done]. cbn. destruct (vers !! col) as [ver|] eqn:Ev; [|done]. cbn.
    intros E Ha. rewrite (Ha rid), Er; cbn; [rewrite Ec; cbn; rewrite Ev; cbn; by apply IH|].
    apply eval_piece_grows, grows_rows in E. apply E. unfold trace_rows, key_rows. cbn. rewrite dom_insert. set_solver.
  - destruct (σ !! rid) as [row|] eqn:Er; [|done]. cbn. intros E Ha. rewrite (Ha rid), Er; cbn; [by apply IH|].
    apply eval_piece_grows, grows_rows in E. apply E. unfold trace_rows, key_rows. cbn. rewrite dom_insert. set_solver.
Qed.

Lemma agree_mono X Y σ σ' : X ⊆ Y -> agree Y σ σ' -> agree X σ σ'.
Proof. intros Hs Ha rid Hr. apply Ha. set_solver. Qed.

Lemma eval_from_agree σ σ' cmds ws out t r : eval_from σ cmds ws out t = Some r -> agree (trace_rows r.2) σ σ' -> eval_from σ' cmds ws out t = Some r.
Proof.
  revert ws out t. induction cmds as [|c cmds IH]; intros ws out t; cbn [eval_from]; [done|].
  destruct (tapir_reg _ _); [|done]. cbn. destruct (eval_piece _ _ _) as [[m t1]|] eqn:E; [|done]. cbn. intros Hr Ha.
  rewrite (eval_piece_agree σ σ' _ _ m t1 E); [cbn; by apply IH|]. eapply agree_mono; [|exact Ha]. by eapply grows_rows, eval_from_grows.
Qed.

(** ** A trace on top of another one *)

Definition over (t0 t : Trace) : Trace := mk_trace (tr_reads t ∪ tr_reads t0) (tr_writes t ∪ tr_writes t0).

Lemma over_nil t : over t no_trace = t.
Proof. destruct t. unfold over. cbn. by rewrite !(left_id_L ∅ (∪)). Qed.

Lemma eval_piece_over σ p t0 t m t' : eval_piece σ p (over t0 t) = Some (m, t') -> exists t1, eval_piece σ p t = Some (m, t1) /\ t' = over t0 t1.
Proof.
  revert t. induction p as [rid col k IH|rid col v k IH|out]; intros t; cbn [eval_piece].
  - destruct (σ !! rid) as [[row vers]|]; [|done]. cbn. destruct (get_column col row) as [c|]; [|done]. cbn. destruct (vers !! col) as [ver|]; [|done]. cbn.
    rewrite insert_union_l. intros E. by apply (IH c (mk_trace (<[(rid, col):=ver]> (tr_reads t)) (tr_writes t))) in E.
  - destruct (σ !! rid); [|done]. cbn. rewrite insert_union_l. intros E. by apply (IH (mk_trace (tr_reads t) (<[(rid, col):=v]> (tr_writes t)))) in E.
  - intros [= <- <-]. by eexists.
Qed.

Lemma eval_from_over σ cmds ws out t0 t m t' :
  eval_from σ cmds ws out (over t0 t) = Some (m, t') -> exists t1, eval_from σ cmds ws out t = Some (m, t1) /\ t' = over t0 t1.
Proof.
  revert ws out t. induction cmds as [|c cmds IH]; intros ws out t; cbn [eval_from]; [intros [= <- <-]; by eexists|].
  destruct (tapir_reg _ _); [|done]. cbn. destruct (eval_piece _ _ (over t0 t)) as [[m1 t1]|] eqn:E; [|done]. cbn.
  apply eval_piece_over in E as (t2 & -> & ->). cbn. apply IH.
Qed.
End eval.
Arguments eval_cmds : simpl never.

(** ** Applying writes *)

Definition apply_write (σ : Content) (p : (Z * nat) * Value) : option Content :=
  '(row, vers) ← σ !! p.1.1;
  _ ← vers !! p.1.2;
  match update p.1.2 p.2 row with
  | Done (_, row') => Some (<[p.1.1 := (row', alter (fun v => u64 (v + 1)) p.1.2 vers)]> σ)
  | _ => None
  end.

Fixpoint apply_all (l : list ((Z * nat) * Value)) (σ : Content) : option Content :=
  match l with
  | [] => Some σ
  | p :: l => σ ← apply_write σ p; apply_all l σ
  end.
Definition apply_writes (m : gmap (Z * nat) Value) (σ : Content) : option Content := apply_all (entries m) σ.

Lemma elem_of_entries {A} (m : gmap (Z * nat) A) k x : (k, x) ∈ entries m <-> m !! k = Some x.
Proof. unfold entries. rewrite merge_sort_Permutation. apply elem_of_map_to_list. Qed.

Lemma entries_rows {A} (m : gmap (Z * nat) A) rid : rid ∈ key_rows m <-> exists col x, ((rid, col), x) ∈ entries m.
Proof.
  unfold key_rows. rewrite elem_of_map. split.
  - intros ([r col] & -> & Hk). apply elem_of_dom in Hk as [x Hx]. exists col, x. by apply elem_of_entries.
  - intros (col & x & Hx%elem_of_entries). exists (rid, col). split; [done|]. by apply elem_of_dom.
Qed.

Definition list_rows (l : list ((Z * nat) * Value)) : gset Z := list_to_set (fst ∘ fst <$> l).

Lemma entries_list_rows (m : gmap (Z * nat) Value) : list_rows (entries m) = key_rows m.
Proof.
  apply set_eq. intros rid. rewrite entries_rows. unfold list_rows. rewrite elem_of_list_to_set, list_elem_of_fmap. split.
  - intros ([[r col] x] & -> & Hin). by exists col, x.
  - intros (col & x & Hin). by exists ((rid, col), x).
Qed.

Lemma list_rows_cons p l : list_rows (p :: l) = {[p.1.1]} ∪ list_rows l.
Proof. done. Qed.

Lemma apply_write_elsewhere σ p σ' rid : apply_write σ p = Some σ' -> rid ≠ p.1.1 -> σ' !! rid = σ !! rid.
Proof.
  unfold apply_write. destruct (σ !! p.1.1) as [[row vers]|]; [|done]. cbn. destruct (vers !! p.1.2); [|done]. cbn.
  destruct (update _ _ _) as [[? row']| |]; [|done..]. intros [= <-] Hne. by apply lookup_insert_ne.
Qed.

Lemma apply_all_elsewhere l σ σ' rid : apply_all l σ = Some σ' -> rid ∉ list_rows l -> σ' !! rid = σ !! rid.
Proof.
  revert σ. induction l as [|p l IH]; intros σ; cbn [apply_all]; [by intros [= <-]|].
  destruct (apply_write σ p) as [σ1|] eqn:E; [|done]. cbn. intros Hr Hn.
  rewrite (IH σ1 Hr) by set_solver. eapply apply_write_elsewhere; [done|]. set_solver.
Qed.

Lemma apply_write_agree σ p σ1 σ' : apply_write σ p = Some σ1 -> σ' !! p.1.1 = σ !! p.1.1 -> exists σ1', apply_write σ' p = Some σ1' /\ σ1' !! p.1.1 = σ1 !! p.1.1.
Proof.
  unfold apply_write. intros E Ha. rewrite Ha. destruct (σ !! p.1.1) as [[row vers]|]; [|done]. cbn in *. destruct (vers !! p.1.2); [|done]. cbn in *.
  destruct (update _ _ _) as [[? row']| |]; [|done..]. injection E as <-. eexists. split; [done|]. by rewrite !lookup_insert_eq.
Qed.

Lemma apply_all_agree l σ σ1 σ' : apply_all l σ = Some σ1 -> agree (list_rows l) σ σ' -> exists σ1', apply_all l σ' = Some σ1' /\ agree (list_rows l) σ1 σ1'.
Proof.
  revert σ σ'. induction l as [|p l IH]; intros σ σ'; cbn [apply_all]; [intros [= <-]; by exists σ'|].
  rewrite list_rows_cons. destruct (apply_write σ p) as [σ2|] eqn:E; [|done]. cbn. intros Hr Ha.
  destruct (apply_write_agree σ p σ2 σ' E) as (σ2' & E' & Ep); [apply Ha; set_solver|].
  assert (forall rid, rid ∈ {[p.1.1]} ∪ list_rows l -> σ2' !! rid = σ2 !! rid) as Ha2.
  { intros rid Hin. destruct (decide (rid = p.1.1)) as [->|Hne]; [done|].
    rewrite (apply_write_elsewhere _ _ _ _ E' Hne), (apply_write_elsewhere _ _ _ _ E Hne). by apply Ha. }
  destruct (IH σ2 σ2' Hr) as (σ1' & Er & Ha1); [intros rid Hin; apply Ha2; set_solver|]. exists σ1'. rewrite E'. split; [done|].
  intros rid Hin. destruct (decide (rid ∈ list_rows l)) as [Hl|Hl]; [by apply Ha1|].
  rewrite (apply_all_elsewhere _ _ _ _ Er Hl), (apply_all_elsewhere _ _ _ _ Hr Hl). by apply Ha2.
Qed.

Lemma apply_writes_elsewhere m σ σ' X : apply_writes m σ = Some σ' -> key_rows m ## X -> agree X σ σ'.
Proof. intros E Hd rid Hin. eapply apply_all_elsewhere; [exact E|]. rewrite entries_list_rows. set_solver. Qed.

Lemma apply_writes_agree m σ σ1 σ' : apply_writes m σ = Some σ1 -> agree (key_rows m) σ σ' -> exists σ1', apply_writes m σ' = Some σ1' /\ agree (key_rows m) σ1 σ1'.
Proof. rewrite <- entries_list_rows. apply apply_all_agree. Qed.

(** ** Transactions one after the other *)

Definition compat (t1 t2 : Trace) : Prop := key_rows (tr_writes t1) ## trace_rows t2 /\ key_rows (tr_writes t2) ## trace_rows t1.

Section replay.
Context `{TapirRegistry}.

Definition runs_to (σ : Content) (ct : list SimpleCommand * Trace) (σ' : Content) : Prop :=
  (exists out, eval_cmds σ ct.1 = Some (out, ct.2)) /\ apply_writes (tr_writes ct.2) σ = Some σ'.

Lemma runs_to_swap σ ct1 σ1 ct2 σ2 :
  runs_to σ ct1 σ1 -> runs_to σ1 ct2 σ2 -> compat ct1.2 ct2.2 -> exists σ1', runs_to σ ct2 σ1' /\ runs_to σ1' ct1 σ2.
Proof.
  destruct ct1 as [c1 t1], ct2 as [c2 t2]. intros [[o1 E1] A1] [[o2 E2] A2] [D1 D2]. cbn [fst snd] in *.
  assert (key_rows (tr_writes t1) ⊆ trace_rows t1) as S1 by (unfold trace_rows; set_solver).
  assert (key_rows (tr_writes t2) ⊆ trace_rows t2) as S2 by (unfold trace_rows; set_solver).
  pose proof (apply_writes_elsewhere _ _ _ _ A1 D1) as G1.
  destruct (apply_writes_agree _ _ _ σ A2) as (σ1' & A2' & G2); [intros rid Hin; symmetry; apply G1; set_solver|].
  pose proof (apply_writes_elsewhere _ _ _ _ A2' D2) as G1'.
  destruct (apply_writes_agree _ _ _ σ1' A1) as (σ2' & A1' & G3); [intros rid Hin; apply G1'; set_solver|].
  exists σ1'. split; split; cbn [fst snd].
  - exists o2. eapply eval_from_agree; [exact E2|]. intros rid Hin. symmetry. by apply G1.
  - done.
  - exists o1. by eapply eval_from_agree; [exact E1|].
  - rewrite A1'. f_equal. apply map_eq. intros rid.
    assert (forall m σ σ', apply_writes m σ = Some σ' -> rid ∉ key_rows m -> σ' !! rid = σ !! rid) as Hel by (intros m τ τ' E Hn; apply (apply_writes_elsewhere _ _ _ {[rid]} E); set_solver).
    destruct (decide (rid ∈ key_rows (tr_writes t1))) as [H1|H1].
    + rewrite (G3 rid H1). symmetry. apply (Hel _ _ _ A2). set_solver.
    + rewrite (Hel _ _ _ A1' H1). destruct (decide (rid ∈ key_rows (tr_writes t2))) as [H2|H2]; [by apply G2|].
      by rewrite (Hel _ _ _ A2 H2), (Hel _ _ _ A1 H1), (Hel _ _ _ A2' H2).
Qed.

Inductive replay : list (list SimpleCommand * Trace) -> Content -> Content -> Prop :=
  | replay_nil σ : replay [] σ σ
  | replay_cons σ ct σ1 l σ2 : runs_to σ ct σ1 -> replay l σ1 σ2 -> replay (ct :: l) σ σ2.

Lemma replay_app l1 l2 σ σ2 : replay (l1 ++ l2) σ σ2 <-> exists σ1, replay l1 σ σ1 /\ replay l2 σ1 σ2.
Proof.
  split.
  - revert σ. induction l1 as [|ct l1 IH]; intros σ Hr; cbn in Hr; [exists σ; by split; [constructor|]|].
    inversion_clear Hr as [|? ? σ0 ? ? Hc Hr']. apply IH in Hr' as (σ1 & Ha & Hb). exists σ1. split; [by econstructor|done].
  - intros (σ1 & Ha & Hb). induction Ha; cbn; [done|]. econstructor; [done|]. by apply IHHa.
Qed.

(** A transaction that runs last can run before others that it does not conflict with. *)
Lemma replay_before l σ σ1 ct σ2 : replay l σ σ1 -> runs_to σ1 ct σ2 -> Forall (fun ct' => compat ct.2 ct'.2) l -> replay (ct :: l) σ σ2.
Proof.
  intros Hr Hc Hf. induction Hr as [σ|σ ct' σ1 l σ3 H1 Hr IH]; [by econstructor; [|constructor]|].
  apply Forall_cons in Hf as [Hcp Hf]. specialize (IH Hc Hf). inversion_clear IH as [|? ? σ1' ? ? Ha Hb].
  destruct (runs_to_swap _ _ _ _ _ H1 Ha) as (σ0 & Hx & Hy); [by destruct Hcp|].
  econstructor; [exact Hx|]. by econstructor.
Qed.

Lemma replay_insert l1 l2 σ σ1 ct σ2 :
  replay (l1 ++ l2) σ σ1 -> runs_to σ1 ct σ2 -> Forall (fun ct' => compat ct.2 ct'.2) l2 -> replay (l1 ++ ct :: l2) σ σ2.
Proof.
  intros (σ0 & Ha & Hb)%replay_app Hc Hf. apply replay_app. exists σ0. split; [done|]. by eapply replay_before.
Qed.

(** ** Serial execution *)

(** The pieces of a transaction for a partition. *)
Definition pieces_for (pieces : gmap Z (omap Z (list SimpleCommand))) (par id : Z) : option (list SimpleCommand) :=
  ps ← pieces !! id; find par ps.

(** The transactions of a list, one after the other, on the rows of a partition. *)
Fixpoint serial (pieces : gmap Z (omap Z (list SimpleCommand))) (par : Z) (ids : list Z) (σ : Content) : option Content :=
  match ids with
  | [] => Some σ
  | id :: ids =>
    match pieces_for pieces par id with
    | None => serial pieces par ids σ
    | Some cmds =>
      '(_, t) ← eval_cmds σ cmds;
      σ ← apply_writes (tr_writes t) σ;
      serial pieces par ids σ
    end
  end.
End replay.

(** ** TAPIR: what a request does to a server

    A transaction that a server has accepted ([accepted]) holds the locks of the rows that
    it read and will write, so that requests of other transactions do not change what it
    computed ([spares_others]); committing it runs it as if alone on the rows. *)

(** ** Locks of rows *)

Definition lock_at (P : RWLock -> Prop) (rows : gmap Z VersionedRow) (rid : Z) : Prop := exists r, rows !! rid = Some r /\ P (lock_ r).
Definition rows_ok (rows : gmap Z VersionedRow) : Prop := forall rid r, rows !! rid = Some r -> lock_ok (lock_ r).

Definition trace_of (e : TapirExec) : Trace := mk_trace (read_vers_ e) (write_bufs_ e).

(** Only locks of [o] change, and the executor of [o]. *)
Record ttouches (o : Z) (s s' : TapirSched) : Prop := {
  tt_rows : forall rid, row_touched o (tp_rows s !! rid) (tp_rows s' !! rid);
  tt_execs : forall t, t ≠ o -> executors_ s' !! t = executors_ s !! t;
}.
#[export] Instance ttouches_preorder o : PreOrder (ttouches o).
Proof.
  split; [intros s; by split|]. intros s1 s2 s3 [A1 A2] [B1 B2]. split; [intros rid; etrans; [apply A1|apply B1]|].
  intros t Ht. by rewrite B2, A2.
Qed.

Section ttouched.
Context (o : Z) (s s' : TapirSched) (Ht : ttouches o s s').

Lemma ttouches_contents : contents (tp_rows s') = contents (tp_rows s).
Proof.
  apply map_eq. intros rid. unfold contents. rewrite !lookup_fmap. pose proof (tt_rows _ _ _ Ht rid) as Hr.
  destruct (tp_rows s !! rid) as [r|], (tp_rows s' !! rid) as [r'|]; try done. destruct Hr as (E1 & E2 & _). cbn. unfold content_of. by rewrite E1, E2.
Qed.
Lemma ttouches_rows_ok : rows_ok (tp_rows s) -> rows_ok (tp_rows s').
Proof.
  intros Hok rid r' Hr'. pose proof (tt_rows _ _ _ Ht rid) as Hr. rewrite Hr' in Hr.
  destruct (tp_rows s !! rid) as [r|] eqn:E; [|done]. apply Hr. by apply (Hok rid).
Qed.
Lemma ttouches_lock_at t rid P : t ≠ o -> P = holds_r t \/ P = holds_w t -> lock_at P (tp_rows s) rid -> lock_at P (tp_rows s') rid.
Proof.
  intros Hne HP (r & E & Hh). pose proof (tt_rows _ _ _ Ht rid) as Hr. rewrite E in Hr.
  destruct (tp_rows s' !! rid) as [r'|] eqn:E'; [|done]. exists r'. split; [done|].
  destruct Hr as (_ & _ & _ & Hr). destruct (Hr t Hne) as [Ha Hb]. destruct HP as [-> | ->]; auto.
Qed.
End ttouched.

Lemma ttouches_exec o f s : ttouches o s (s <| executors_ ::= alter f o |>).
Proof. split; [done|]. intros t Ht. cbn. by rewrite lookup_alter_ne. Qed.

Lemma ttouches_row o rid r l s : tp_rows s !! rid = Some r -> spares o (lock_ r) l -> ttouches o s (s <| tp_rows ::= <[rid := r <| lock_ := l |>]> |>).
Proof.
  intros Hr Hl. split; [|done]. intros k. cbn. destruct (decide (k = rid)) as [->|Hne].
  - by rewrite Hr, lookup_insert_eq.
  - by rewrite lookup_insert_ne.
Qed.

Lemma contents_lookup rows rid r : rows !! rid = Some r -> contents rows !! rid = Some (vr_row r, ver_ r).
Proof. intros E. unfold contents. by rewrite lookup_fmap, E. Qed.

(** ** Running pieces *)

Section server.
Context `{TapirRegistry}.

Definition put_trace (tid : Z) (t : Trace) (s : TapirSched) : TapirSched :=
  s <| executors_ ::= alter (fun e => e <| read_vers_ := tr_reads t |> <| write_bufs_ := tr_writes t |>) tid |>.

Lemma tsched_ext s s' : tp_rows s = tp_rows s' -> tp_mdb_txns s = tp_mdb_txns s' -> epoch_enabled_ s = epoch_enabled_ s' -> (forall k, executors_ s !! k = executors_ s' !! k) -> s = s'.
Proof. destruct s, s'. cbn. intros -> -> -> He. f_equal. by apply map_eq. Qed.

Lemma put_trace_ext tid t f s e :
  executors_ s !! tid = Some e -> f e = e <| read_vers_ := tr_reads t |> <| write_bufs_ := tr_writes t |> -> s <| executors_ ::= alter f tid |> = put_trace tid t s.
Proof.
  intros He Hf. apply tsched_ext; [done..|]. intros k. unfold put_trace. cbn. destruct (decide (k = tid)) as [->|Hne].
  - rewrite !lookup_alter_eq, He. cbn. by rewrite Hf.
  - by rewrite !lookup_alter_ne.
Qed.

Lemma put_trace_self tid s e : executors_ s !! tid = Some e -> put_trace tid (trace_of e) s = s.
Proof.
  intros E. rewrite <- (put_trace_ext tid (trace_of e) id s e E); [|by destruct e]. apply tsched_ext; [done..|]. intros k. cbn. by rewrite alter_id.
Qed.
Lemma put_trace_twice tid t t' s : put_trace tid t' (put_trace tid t s) = put_trace tid t' s.
Proof. apply tsched_ext; [done..|]. intros k. unfold put_trace. cbn. destruct (decide (k = tid)) as [->|Hne].
  - rewrite !lookup_alter_eq. by destruct (executors_ s !! tid).
  - by rewrite !lookup_alter_ne.
Qed.
Lemma put_trace_lookup tid t s e : executors_ s !! tid = Some e -> exists e', executors_ (put_trace tid t s) !! tid = Some e' /\ trace_of e' = t.
Proof. intros E. unfold put_trace. cbn. rewrite lookup_alter_eq, E. cbn. eexists. split; [done|]. by destruct t. Qed.

Lemma run_piece_eval tid p s e m s' :
  executors_ s !! tid = Some e -> run_piece tid p s = Done (m, s') ->
  exists t, eval_piece (contents (tp_rows s)) p (trace_of e) = Some (m, t) /\ s' = put_trace tid t s.
Proof.
  revert s e. induction p as [rid col k IH|rid col v k IH|out]; intros s e He Hrun; cbn [run_piece eval_piece] in *.
  - apply bind_done in Hrun as (v & s1 & Hr & Hrun).
    apply bind_done in Hr as (r & s2 & Hrow & Hr). unfold tp_row in Hrow. apply bind_done in Hrow as (s3 & s4 & [= <- <-] & Hrow).
    destruct (tp_rows s !! rid) as [r0|] eqn:Er; [|done]. injection Hrow as <- <-.
    destruct (get_column col (vr_row r0)) as [c|] eqn:Ec; [|done]. unfold get_column_ver in Hr. destruct (ver_ r0 !! col) as [ver|] eqn:Ev; [|done].
    injection Hr as <- <-. rewrite (contents_lookup _ _ _ Er). cbn [mbind option_bind]. rewrite Ec. cbn [mbind option_bind]. rewrite Ev. cbn [mbind option_bind].
    destruct (IH c (put_trace tid (mk_trace (<[(rid, col) := ver]> (read_vers_ e)) (write_bufs_ e)) s) (e <| read_vers_ ::= <[(rid, col) := ver]> |>)) as (t & Et & ->).
    + unfold put_trace. cbn. rewrite lookup_alter_eq, He. by destruct e.
    + rewrite <- Hrun. f_equal. symmetry. apply (put_trace_ext _ _ _ _ e He). by destruct e.
    + exists t. split; [exact Et|]. apply put_trace_twice.
  - apply bind_done in Hrun as ([] & s1 & Hr & Hrun). apply bind_done in Hr as (r & s2 & Hrow & Hr). unfold tp_row in Hrow. apply bind_done in Hrow as (s3 & s4 & [= <- <-] & Hrow).
    destruct (tp_rows s !! rid) as [r0|] eqn:Er; [|done]. injection Hrow as <- <-. injection Hr as <-.
    rewrite (contents_lookup _ _ _ Er). cbn [mbind option_bind].
    destruct (IH (put_trace tid (mk_trace (read_vers_ e) (<[(rid, col) := v]> (write_bufs_ e))) s) (e <| write_bufs_ ::= <[(rid, col) := v]> |>)) as (t & Et & ->).
    + unfold put_trace. cbn. rewrite lookup_alter_eq, He. by destruct e.
    + rewrite <- Hrun. f_equal. symmetry. apply (put_trace_ext _ _ _ _ e He). by destruct e.
    + exists t. split; [exact Et|]. apply put_trace_twice.
  - injection Hrun as <- <-. exists (trace_of e). split; [done|]. by rewrite put_trace_self.
Qed.

Lemma execute_eval tid cmds ws out s e m s' :
  executors_ s !! tid = Some e -> execute tid cmds ws out s = Done (m, s') ->
  exists t, eval_from (contents (tp_rows s)) cmds ws out (trace_of e) = Some (m, t) /\ s' = put_trace tid t s.
Proof.
  revert s e ws out. induction cmds as [|c cmds IH]; intros s e ws out He Hrun; cbn [execute eval_from] in *.
  - injection Hrun as <- <-. exists (trace_of e). split; [done|]. by rewrite put_trace_self.
  - destruct (tapir_reg _ _) as [h|]; [|done]. apply bind_done in Hrun as (h' & s0 & [= <- <-] & Hrun). apply bind_done in Hrun as (m1 & s1 & Hp & Hrun).
    destruct (run_piece_eval _ _ _ _ _ _ He Hp) as (t1 & E1 & ->). cbn [mbind option_bind]. rewrite E1. cbn [mbind option_bind].
    destruct (put_trace_lookup tid t1 s e He) as (e1 & He1 & <-). destruct (IH _ _ _ _ He1 Hrun) as (t & Et & ->).
    exists t. split; [exact Et|]. apply put_trace_twice.
Qed.

Lemma Execute_eval tid cmds s e m s' :
  executors_ s !! tid = Some e -> Execute tid cmds s = Done (m, s') ->
  exists t, eval_cmds (contents (tp_rows s)) cmds = Some (m, t) /\ s' = put_trace tid (over (trace_of e) t) s.
Proof.
  intros He Hrun. destruct (execute_eval _ _ _ _ _ _ _ _ He Hrun) as (t & Et & ->). rewrite <- (over_nil (trace_of e)) in Et.
  apply eval_from_over in Et as (t1 & E1 & ->). by exists t1.
Qed.

Lemma Execute_ttouches tid cmds s m s' : Execute tid cmds s = Done (m, s') -> is_Some (executors_ s !! tid) -> ttouches tid s s'.
Proof. intros Hrun [e He]. destruct (Execute_eval _ _ _ _ _ _ He Hrun) as (t & _ & ->). apply ttouches_exec. Qed.

(** ** Taking and giving back locks *)

(** A lock operation that is refused changes nothing. *)
Definition claims (P : Z -> RWLock -> Prop) (lock : Z -> RWLock -> bool * RWLock) : Prop :=
  gains P lock /\ forall o l l', lock o l = (false, l') -> l' = l.

Lemma rlock_claims : claims holds_r rlock_by.
Proof. split; [apply rlock_gains|]. intros o l l'. unfold rlock_by. destruct (wlocked_ l); by intros [= _ <-]. Qed.
Lemma wlock_claims : claims holds_w wlock_by.
Proof. split; [apply wlock_gains|]. intros o l l'. unfold wlock_by. destruct (wlocked_ l); [by intros [= _ <-]|]. repeat case_bool_decide; by intros [= <-]. Qed.

(** What [o] holds stays held, and so do its reads and writes. *)
Record keeps (o : Z) (s s' : TapirSched) : Prop := {
  kp_touches : ttouches o s s';
  kp_locks P rid : P = holds_r o \/ P = holds_w o -> lock_at P (tp_rows s) rid -> lock_at P (tp_rows s') rid;
  kp_trace : trace_of <$> executors_ s' !! o = trace_of <$> executors_ s !! o;
}.
#[export] Instance keeps_preorder o : PreOrder (keeps o).
Proof. split; [by split|]. intros s1 s2 s3 [A1 A2 A3] [B1 B2 B3]. split; [by etrans|auto|congruence]. Qed.

Lemma keeps_rows_ok o s s' : keeps o s s' -> rows_ok (tp_rows s) -> rows_ok (tp_rows s').
Proof. intros Hk. apply (ttouches_rows_ok o). by destruct Hk. Qed.

Lemma lock_row_keeps P lock tid rid s ok s' :
  claims P lock -> rows_ok (tp_rows s) -> lock_row lock tid rid s = Done (ok, s') ->
  keeps tid s s' /\ (ok = true -> lock_at (P tid) (tp_rows s') rid).
Proof.
  intros [Hg Hno] Hok Hrun. unfold lock_row, tp_row in Hrun. apply bind_done in Hrun as (r & s1 & Hr & Hrun).
  apply bind_done in Hr as (s2 & s3 & [= <- <-] & Hr). destruct (tp_rows s !! rid) as [r0|] eqn:Er; [|done]. injection Hr as <- <-.
  pose proof (Hok _ _ Er) as Hl. destruct (lock tid (lock_ r0)) as [b l] eqn:El. apply bind_done in Hrun as ([] & s4 & [= <-] & Hrun).
  apply bind_done in Hrun as ([] & s5 & Hw & [= <- <-]).
  assert (spares tid (lock_ r0) l /\ (b = true -> P tid l) /\ (holds_r tid (lock_ r0) -> holds_r tid l) /\ (holds_w tid (lock_ r0) -> holds_w tid l)) as (Hsp & HP & Hr & Hwl).
  { destruct b; [destruct (Hg _ _ _ Hl El) as (? & ? & ? & ?); by auto|]. apply Hno in El as ->. split; [done|]. by split. }
  assert (keeps tid s (s <| tp_rows ::= <[rid := r0 <| lock_ := l |>]> |>)) as Hk1.
  { split; [by apply ttouches_row| |done]. intros Q k HQ (r & E & Hh). cbn. destruct (decide (k = rid)) as [->|Hne].
    - exists (r0 <| lock_ := l |>). rewrite lookup_insert_eq. split; [done|]. cbn. assert (r = r0) as -> by congruence. destruct HQ as [-> | ->]; auto.
    - exists r. by rewrite lookup_insert_ne. }
  assert (lock_at (fun l' => l' = l) (tp_rows s5) rid /\ keeps tid (s <| tp_rows ::= <[rid := r0 <| lock_ := l |>]> |>) s5) as [(r1 & E1 & <-) Hk2].
  { destruct b; injection Hw as <-; (split; [exists (r0 <| lock_ := l |>); cbn; by rewrite lookup_insert_eq|]); [|done].
    split; [apply ttouches_exec|done|]. cbn. rewrite lookup_alter_eq. by destruct (executors_ s !! tid). }
  split; [by etrans|]. intros Hb. exists r1. auto.
Qed.

Lemma lock_reads_keeps tid vers res s r s' :
  rows_ok (tp_rows s) -> lock_reads tid vers res s = Done (r, s') ->
  keeps tid s s' /\ (r = SUCCESS -> res = SUCCESS /\ forall p, p ∈ vers -> lock_at (holds_r tid) (tp_rows s') p.1.1).
Proof.
  revert s res. induction vers as [|[[rid col] ver] vers IH]; intros s res Hok Hrun; cbn [lock_reads] in Hrun.
  - injection Hrun as <- <-. split; [done|]. intros ->. split; [done|]. by intros p ?%elem_of_nil.
  - apply bind_done in Hrun as (r0 & s1 & Hr & Hrun). unfold tp_row in Hr. apply bind_done in Hr as (s2 & s3 & [= <- <-] & Hr).
    destruct (tp_rows s !! rid); [|done]. injection Hr as <- <-. apply bind_done in Hrun as (now & s4 & Hr & Hrun).
    destruct (get_column_ver _ _); [|done]. injection Hr as <- <-. apply bind_done in Hrun as ([] & s5 & Hv & Hrun). apply (preserves_verify _ (fun x => x = s)) in Hv as ->; [|done].
    apply bind_done in Hrun as (ok & s6 & Hl & Hrun). destruct (lock_row_keeps _ _ _ _ _ _ _ rlock_claims Hok Hl) as [Hk1 Hh].
    destruct (IH _ _ (keeps_rows_ok _ _ _ Hk1 Hok) Hrun) as [Hk2 Hs]. split; [by etrans|]. intros Er. destruct (Hs Er) as [Eres Hall].
    destruct ok; [|by inversion Eres]. split; [done|]. intros p [-> |Hp]%elem_of_cons; [|by apply Hall]. apply (kp_locks _ _ _ Hk2); [by left|]. by apply Hh.
Qed.

Lemma lock_writes_keeps tid rows res s r s' :
  rows_ok (tp_rows s) -> lock_writes tid rows res s = Done (r, s') ->
  keeps tid s s' /\ (r = SUCCESS -> res = SUCCESS /\ forall rid, rid ∈ rows -> lock_at (holds_w tid) (tp_rows s') rid).
Proof.
  revert s res. induction rows as [|rid rows IH]; intros s res Hok Hrun; cbn [lock_writes] in Hrun.
  - injection Hrun as <- <-. split; [done|]. intros ->. split; [done|]. by intros p ?%elem_of_nil.
  - apply bind_done in Hrun as (ok & s6 & Hl & Hrun). destruct (lock_row_keeps _ _ _ _ _ _ _ wlock_claims Hok Hl) as [Hk1 Hh].
    destruct (IH _ _ (keeps_rows_ok _ _ _ Hk1 Hok) Hrun) as [Hk2 Hs]. split; [by etrans|]. intros Er. destruct (Hs Er) as [Eres Hall].
    destruct ok; [|by inversion Eres]. split; [done|]. intros p [-> |Hp]%elem_of_cons; [|by apply Hall]. apply (kp_locks _ _ _ Hk2); [by right|]. by apply Hh.
Qed.

Lemma unlock_row_ttouches tid rid s s' : unlock_row tid rid s = Done (tt, s') -> ttouches tid s s' /\ executors_ s' = executors_ s.
Proof.
  intros Hrun. unfold unlock_row, tp_row in Hrun. apply bind_done in Hrun as (r & s1 & Hr & Hrun).
  apply bind_done in Hr as (s2 & s3 & [= <- <-] & Hr). destruct (tp_rows s !! rid) as [r0|] eqn:Er; [|done]. injection Hr as <- <-.
  pose proof (unlock_spares tid (lock_ r0)) as Hsp. destruct (unlock_by tid (lock_ r0)) as [b l]. apply bind_done in Hrun as ([] & s4 & [= <-] & Hv).
  unfold verify in Hv. destruct b; [|done]. injection Hv as <-. split; [by apply ttouches_row|done].
Qed.

Lemma unlock_all_ttouches tid rows s s' : for_each rows (unlock_row tid) s = Done (tt, s') -> ttouches tid s s' /\ executors_ s' = executors_ s.
Proof.
  revert s. induction rows as [|rid rows IH]; intros s Hrun; cbn [for_each] in Hrun; [by injection Hrun as <-|].
  apply bind_done in Hrun as ([] & s1 & Hu & Hrun). apply unlock_row_ttouches in Hu as [Ht1 E1]. apply IH in Hrun as [Ht2 E2].
  split; [by etrans|congruence].
Qed.

(** ** Accepted transactions *)

Record accepted (s : TapirSched) (id : Z) (cmds : list SimpleCommand) (t : Trace) : Prop := {
  ac_writes : write_bufs_ <$> executors_ s !! id = Some (tr_writes t);
  ac_eval : exists out, eval_cmds (contents (tp_rows s)) cmds = Some (out, t);
  ac_reads : forall rid, rid ∈ trace_rows t -> lock_at (holds_r id) (tp_rows s) rid;
  ac_locks : forall rid, rid ∈ key_rows (tr_writes t) -> lock_at (holds_w id) (tp_rows s) rid;
}.

(** Two transactions that are both accepted do not conflict. *)
Lemma accepted_apart s id cmds t id' cmds' t' :
  rows_ok (tp_rows s) -> accepted s id cmds t -> accepted s id' cmds' t' -> id' ≠ id -> key_rows (tr_writes t) ## trace_rows t'.
Proof.
  intros Hok Ha Ha' Hne rid Hw Hr. destruct (ac_locks _ _ _ _ Ha _ Hw) as (r & E & Hh). destruct (ac_reads _ _ _ _ Ha' _ Hr) as (r' & E' & Hh').
  assert (r' = r) as -> by congruence. apply Hne. eapply lock_exclusive; [by apply (Hok rid)|done..].
Qed.

(** What a request of [o] leaves the other transactions. *)
Definition spares_others (o : Z) (s s' : TapirSched) : Prop :=
  (rows_ok (tp_rows s) -> rows_ok (tp_rows s')) /\ forall id cmds t, id ≠ o -> accepted s id cmds t -> accepted s' id cmds t.

Lemma ttouches_spares o s s' : ttouches o s s' -> spares_others o s s'.
Proof.
  intros Ht. split; [by apply (ttouches_rows_ok o)|]. intros id cmds t Hne [A1 A2 A3 A4]. split.
  - by rewrite (tt_execs _ _ _ Ht).
  - by rewrite (ttouches_contents _ _ _ Ht).
  - intros rid Hr. apply (ttouches_lock_at _ _ _ Ht id); auto.
  - intros rid Hr. apply (ttouches_lock_at _ _ _ Ht id); auto.
Qed.

Lemma GetOrCreateExecutor_done tid s s' :
  GetOrCreateExecutor tid s = Done (tt, s') -> ttouches tid s s' /\ tp_rows s' = tp_rows s /\
    exists e, executors_ s' !! tid = Some e /\ e = default new_TapirExec (executors_ s !! tid).
Proof.
  unfold GetOrCreateExecutor. intros Hrun. apply bind_done in Hrun as (s1 & s2 & [= <- <-] & Hrun).
  destruct (executors_ s !! tid) as [e|] eqn:E; injection Hrun as <-; [split_and!; [done..|by exists e]|].
  split_and!; [|done|eexists; cbn; by rewrite lookup_insert_eq]. split; [done|]. intros t Ht. cbn. by rewrite lookup_insert_ne.
Qed.

Lemma OnDispatch_ttouches c cmds s out s' : head cmds = Some c -> OnDispatch cmds s = Done (out, s') -> ttouches (root_id_ c) s s'.
Proof.
  intros Hc Hrun. unfold OnDispatch in Hrun. apply bind_done in Hrun as (c' & s1 & Hh & Hrun). rewrite Hc in Hh. injection Hh as <- <-.
  apply bind_done in Hrun as ([] & s2 & Hg & Hrun). apply GetOrCreateExecutor_done in Hg as (Ht & _ & e & He & _).
  apply bind_done in Hrun as ([] & s3 & [= <-] & Hrun). etrans; [exact Ht|]. etrans; [|eapply Execute_ttouches; [exact Hrun|by exists e]]. by split.
Qed.

(** The columns that the dispatch phase left in the buffer are all written again. *)
Definition tidy_at (s : TapirSched) (id : Z) (cmds : list SimpleCommand) : bool :=
  match executors_ s !! id, eval_cmds (contents (tp_rows s)) cmds with
  | Some e, Some (_, t) => bool_decide (dom (write_bufs_ e) ⊆ dom (tr_writes t))
  | _, _ => true
  end.

Lemma union_covered {A} (m m' : gmap (Z * nat) A) : dom m' ⊆ dom m -> m ∪ m' = m.
Proof.
  intros Hd. apply map_eq. intros k. rewrite lookup_union. destruct (m !! k) eqn:E; [by destruct (m' !! k)|].
  destruct (m' !! k) eqn:E'; [|done]. exfalso. apply (elem_of_dom_2 (D := gset (Z * nat))) in E'. apply Hd, elem_of_dom in E' as [? ?]. congruence.
Qed.

Lemma key_rows_entry {A} (m : gmap (Z * nat) A) rid : rid ∈ key_rows m -> exists p, p ∈ entries m /\ p.1.1 = rid.
Proof. intros (col & x & Hin)%entries_rows. by exists ((rid, col), x). Qed.

Lemma key_rows_union {A} (m m' : gmap (Z * nat) A) : key_rows m ⊆ key_rows (m ∪ m').
Proof. unfold key_rows. set_solver. Qed.

Lemma FastAccept_keeps tid cmds s res s' e :
  executors_ s !! tid = Some e -> rows_ok (tp_rows s) -> FastAccept tid cmds s = Done (res, s') ->
  ttouches tid s s' /\
  (tidy_at s tid cmds = true -> res = SUCCESS -> exists t, accepted s' tid cmds t).
Proof.
  intros He Hok Hrun. unfold FastAccept in Hrun. apply bind_done in Hrun as ([] & s1 & [= <-] & Hrun).
  set (s1 := s <| executors_ ::= alter _ tid |>) in Hrun.
  assert (ttouches tid s s1) as Ht1 by apply ttouches_exec.
  assert (executors_ s1 !! tid = Some (e <| fast_phase := true |>)) as He1 by (cbn; by rewrite lookup_alter_eq, He).
  apply bind_done in Hrun as (out & s2 & Hx & Hrun). destruct (Execute_eval _ _ _ _ _ _ He1 Hx) as (t & Et & ->).
  set (s2 := put_trace _ _ _) in Hrun.
  assert (ttouches tid s1 s2) as Ht2 by apply ttouches_exec. assert (ttouches tid s s2) as Ht by (by etrans).
  destruct (outputs_match _ _); [|injection Hrun as <- <-; by split].
  destruct (put_trace_lookup tid (over (trace_of (e <| fast_phase := true |>)) t) s1 _ He1) as (e2 & He2 & Etr).
  apply bind_done in Hrun as (e3 & s3 & Hg & Hrun). unfold GetExecutor in Hg. apply bind_done in Hg as (s4 & s5 & [= <- <-] & Hg).
  fold s2 in He2. rewrite He2 in Hg. injection Hg as <- <-. apply bind_done in Hrun as (r1 & s6 & Hr & Hw).
  pose proof (ttouches_rows_ok _ _ _ Ht Hok) as Hok2. destruct (lock_reads_keeps _ _ _ _ _ _ Hok2 Hr) as [Hk1 Hs1].
  pose proof (keeps_rows_ok _ _ _ Hk1 Hok2) as Hok3. destruct (lock_writes_keeps _ _ _ _ _ _ Hok3 Hw) as [Hk2 Hs2].
  assert (keeps tid s2 s') as Hk by (by etrans). split; [etrans; [exact Ht|apply Hk]|].
  intros Htidy Er. destruct (Hs2 Er) as [Er1 Hlw]. destruct (Hs1 Er1) as [_ Hlr].
  assert (write_bufs_ e2 = tr_writes t) as Ew.
  { change (tr_writes (trace_of e2) = tr_writes t). rewrite Etr. cbn. apply union_covered. change (tp_rows s1) with (tp_rows s) in Et. unfold tidy_at in Htidy. rewrite He, Et in Htidy. by apply bool_decide_eq_true in Htidy. }
  assert (forall rid, rid ∈ key_rows (tr_writes t) -> lock_at (holds_w tid) (tp_rows s') rid) as Hlocks.
  { intros rid Hin. apply Hlw. rewrite <- Ew in Hin. apply key_rows_entry in Hin as (p & Hp & <-). unfold rows_of. rewrite elem_of_remove_dups, list_elem_of_fmap. by exists p. }
  exists t. split.
  - pose proof (kp_trace _ _ _ Hk) as E. rewrite He2 in E. cbn in E. destruct (executors_ s' !! tid) as [e'|]; [|done]. injection E as _ E. cbn. by rewrite E, Ew.
  - exists out. by rewrite (ttouches_contents _ _ _ (kp_touches _ _ _ Hk)), (ttouches_contents _ _ _ Ht).
  - intros rid [Hin|Hin]%elem_of_union.
    + apply (kp_locks _ _ _ Hk2); [by left|]. assert (rid ∈ key_rows (read_vers_ e2)) as (p & Hp & <-)%key_rows_entry; [|by apply Hlr].
      change (rid ∈ key_rows (tr_reads (trace_of e2))). rewrite Etr. by apply key_rows_union.
    + destruct (Hlocks _ Hin) as (r & E & Hh). exists r. split; [done|]. by left.
  - done.
Qed.

Lemma OnFastAccept_spec id cmds s res s' :
  rows_ok (tp_rows s) -> OnFastAccept id cmds s = Done (res, s') ->
  ttouches id s s' /\ (tidy_at s id cmds = true -> res = SUCCESS -> exists t, accepted s' id cmds t).
Proof.
  intros Hok Hrun. unfold OnFastAccept in Hrun. apply bind_done in Hrun as ([] & s1 & Hg & Hrun).
  apply GetOrCreateExecutor_done in Hg as (Ht1 & Er & e & He & Ee). apply bind_done in Hrun as (r & s2 & Hf & Hrun).
  apply bind_done in Hrun as ([] & s3 & Hv & [= <- <-]). apply (preserves_verify _ (fun x => x = s2)) in Hv as ->; [|done].
  rewrite <- Er in Hok. destruct (FastAccept_keeps _ _ _ _ _ _ He Hok Hf) as [Ht2 Ha]. split; [by etrans|]. intros Htidy. apply Ha.
  clear Ha. unfold tidy_at in *. rewrite He, Er. destruct (executors_ s !! id) as [e0|]; cbn in Ee; subst e; [done|].
  destruct (eval_cmds _ _) as [[out t]|]; [|done]. apply bool_decide_eq_true. cbn. set_solver.
Qed.

(** ** Decisions *)

Lemma write_col_apply p s s' :
  write_col p s = Done (tt, s') ->
  apply_write (contents (tp_rows s)) p = Some (contents (tp_rows s')) /\ executors_ s' = executors_ s /\
  forall rid, lock_ <$> tp_rows s' !! rid = lock_ <$> tp_rows s !! rid.
Proof.
  destruct p as [[rid col] v]. intros Hrun. unfold write_col, tp_row in Hrun. apply bind_done in Hrun as (r & s1 & Hr & Hrun).
  apply bind_done in Hr as (s2 & s3 & [= <- <-] & Hr). destruct (tp_rows s !! rid) as [r0|] eqn:Er; [|done]. injection Hr as <- <-.
  unfold get_column_ver in Hrun. destruct (ver_ r0 !! col) as [ver|] eqn:Ev; [|done]. apply bind_done in Hrun as (ver' & s4 & [= <- <-] & Hrun).
  destruct (update col v (vr_row r0)) as [[x row]| |] eqn:Eu; [|done..]. apply bind_done in Hrun as ([y row'] & s5 & [= <- <- <-] & [= <-]).
  unfold apply_write. cbn [fst snd]. rewrite (contents_lookup _ _ _ Er). cbn [mbind option_bind]. rewrite Ev. cbn [mbind option_bind]. rewrite Eu.
  split_and!; [|done|].
  - f_equal. unfold contents. cbn. by rewrite fmap_insert.
  - intros k. cbn. destruct (decide (k = rid)) as [->|Hne]; [by rewrite lookup_insert_eq, Er|by rewrite lookup_insert_ne].
Qed.

Lemma write_cols_apply l s s' :
  for_each l write_col s = Done (tt, s') ->
  apply_all l (contents (tp_rows s)) = Some (contents (tp_rows s')) /\ executors_ s' = executors_ s /\
  forall rid, lock_ <$> tp_rows s' !! rid = lock_ <$> tp_rows s !! rid.
Proof.
  revert s. induction l as [|p l IH]; intros s Hrun; cbn [for_each apply_all] in *; [by injection Hrun as <-|].
  apply bind_done in Hrun as ([] & s1 & Hw & Hrun). apply write_col_apply in Hw as (A1 & E1 & L1). apply IH in Hrun as (A2 & E2 & L2).
  rewrite A1. cbn [mbind option_bind]. split_and!; [done|congruence|]. intros rid. by rewrite L2, L1.
Qed.

Lemma lock_at_same P rows rows' rid : lock_ <$> rows' !! rid = lock_ <$> rows !! rid -> lock_at P rows rid -> lock_at P rows' rid.
Proof.
  intros E (r & Hr & Hp). rewrite Hr in E. destruct (rows' !! rid) as [r'|] eqn:Er'; [|done]. injection E as E. exists r'. by rewrite E.
Qed.

(** Applying the writes of an accepted transaction. *)
Lemma write_cols_spares id cmds t s s1 :
  rows_ok (tp_rows s) -> accepted s id cmds t -> for_each (entries (tr_writes t)) write_col s = Done (tt, s1) ->
  runs_to (contents (tp_rows s)) (cmds, t) (contents (tp_rows s1)) /\ spares_others id s s1.
Proof.
  intros Hok Ha Hw. apply write_cols_apply in Hw as (A & E & L). split; [split; [apply (ac_eval _ _ _ _ Ha)|done]|]. split.
  - intros _ rid r' Hr'. specialize (L rid). rewrite Hr' in L. destruct (tp_rows s !! rid) as [r|] eqn:Er; [|done]. injection L as ->. by apply (Hok rid).
  - intros id' cmds' t' Hne Ha'. pose proof (accepted_apart _ _ _ _ _ _ _ Hok Ha Ha' Hne) as Hd. destruct Ha' as [B1 [out B2] B3 B4]. split.
    + by rewrite E.
    + exists out. eapply eval_from_agree; [exact B2|]. by apply (apply_writes_elsewhere _ _ _ _ A).
    + intros rid Hr. apply (lock_at_same _ _ _ _ (L rid)). auto.
    + intros rid Hr. apply (lock_at_same _ _ _ _ (L rid)). auto.
Qed.

Lemma TrashExecutor_ttouches tid s s' : TrashExecutor tid s = Done (tt, s') -> ttouches tid s s'.
Proof.
  unfold TrashExecutor. intros Hrun. apply bind_done in Hrun as (s1 & s2 & [= <- <-] & Hrun). destruct (epoch_enabled_ s); [by injection Hrun as <-|].
  unfold DestroyExecutor in Hrun. apply bind_done in Hrun as (e & s1 & Hg & Hrun). unfold GetExecutor in Hg.
  apply bind_done in Hg as (s2 & s3 & [= <- <-] & Hg). destruct (executors_ s !! tid); [|done]. injection Hg as <- <-. injection Hrun as <-.
  split; [done|]. intros t0 Ht. cbn. by rewrite lookup_delete_ne.
Qed.

Lemma release_ttouches tid rows s s' : (for_each rows (unlock_row tid);; clear_bufs tid) s = Done (tt, s') -> ttouches tid s s'.
Proof.
  intros Hrun. apply bind_done in Hrun as ([] & s1 & Hu & [= <-]). apply unlock_all_ttouches in Hu as [Ht _]. etrans; [exact Ht|]. apply ttouches_exec.
Qed.

Lemma OnDecide_abort id d s s' : d ≠ COMMIT -> OnDecide id d s = Done (tt, s') -> ttouches id s s'.
Proof.
  intros Hd Hrun. unfold OnDecide in Hrun. apply bind_done in Hrun as (e & s1 & Hg & Hrun).
  unfold GetExecutor in Hg. apply bind_done in Hg as (s2 & s3 & [= <- <-] & Hg). destruct (executors_ s !! id) eqn:Ee; [|done]. injection Hg as <- <-.
  apply bind_done in Hrun as ([] & s4 & Hx & Ht%TrashExecutor_ttouches). rewrite (proj2 (Z.eqb_neq _ _) Hd) in Hx.
  destruct (d =? ABORT); [|done]. unfold Abort_, GetExecutor in Hx. apply bind_done in Hx as (e' & s5 & Hg & Hx).
  apply bind_done in Hg as (s2 & s3 & [= <- <-] & Hg). rewrite Ee in Hg. injection Hg as <- <-. apply release_ttouches in Hx. by etrans.
Qed.

Lemma OnDecide_commit id cmds t s s' :
  rows_ok (tp_rows s) -> accepted s id cmds t -> OnDecide id COMMIT s = Done (tt, s') ->
  runs_to (contents (tp_rows s)) (cmds, t) (contents (tp_rows s')) /\ spares_others id s s'.
Proof.
  intros Hok Ha Hrun. unfold OnDecide in Hrun. apply bind_done in Hrun as (e & s1 & Hg & Hrun).
  unfold GetExecutor in Hg. apply bind_done in Hg as (s2 & s3 & [= <- <-] & Hg). destruct (executors_ s !! id) as [e0|] eqn:Ee; [|done]. injection Hg as <- <-.
  apply bind_done in Hrun as ([] & s4 & Hx & Ht%TrashExecutor_ttouches). change (COMMIT =? COMMIT) with true in Hx. cbn iota in Hx.
  unfold Commit, GetExecutor in Hx. apply bind_done in Hx as (e' & s5 & Hg & Hx).
  apply bind_done in Hg as (s2 & s3 & [= <- <-] & Hg). rewrite Ee in Hg. injection Hg as <- <-. apply bind_done in Hx as ([] & s6 & Hw & Hx%release_ttouches).
  pose proof (ac_writes _ _ _ _ Ha) as Ew. rewrite Ee in Ew. injection Ew as Ew. rewrite Ew in Hw. destruct (write_cols_spares _ _ _ _ _ Hok Ha Hw) as [Hr [H1 H2]].
  assert (ttouches id s6 s') as Ht' by (by etrans). destruct (ttouches_spares _ _ _ Ht') as [H3 H4]. split; [|split; auto].
  by rewrite (ttouches_contents _ _ _ Ht').
Qed.
End server.
