(* ===== verification/TapirSteps.v ===== *)
(** * TAPIR: what a coordinator does, as steps

    The handlers of a coordinator are runs of a few steps ([cstep]): begin a transaction
    under a new identifier, dispatch pieces, ask for acceptance, decide.  A step says which
    messages are sent and what becomes of the phase, the identifier, the partitions and the
    counts of acceptances. *)
From stdpp Require Import base tactics numbers list sorting gmap sets.
From S2P Require Import Prelude OMap Command Config Chopper ChrCoord Tapir TapirCoord.

Definition ph (c : TapirCoord) : Z := phase_ (tc c).
Definition cid (c : TapirCoord) : Z := txn_id_ (cmd_ (tc c)).
Definition cnext (c : TapirCoord) : Z := next_txn_id_ (tc c).
Definition cpars (c : TapirCoord) : oset Z := partition_ids_ (cmd_ (tc c)).
Definition cended (c : TapirCoord) : list (Z * bool) := ended_ (tc c).
Definition coks (c : TapirCoord) (par : Z) : Z := default 0 (find par (n_fast_accept_oks_ c)).

(** No counter wraps around in the next request. *)
Definition room (c : TapirCoord) : Prop := 0 <= ph c /\ ph c + 4 < 2 ^ 32 /\ 0 <= cnext c /\ cnext c + 4 < 2 ^ 64.

Record kept (c c' : TapirCoord) : Prop := {
  kt_ph : ph c' = ph c;
  kt_id : cid c' = cid c;
  kt_next : cnext c' = cnext c;
  kt_ended : cended c' = cended c;
  kt_oks p : coks c' p = coks c p;
}.
#[export] Instance kept_preorder : PreOrder kept.
Proof. split; [by split|]. intros a b c [] []. split; congruence. Qed.

(** What a workload leaves alone. *)
Class TapirWorkloadOk `{TapirWorkload} : Prop := {
  callback_id k out t : txn_id_ (start_callback k out t) = txn_id_ t;
  callback_pars k out t : partition_ids_ (start_callback k out t) = partition_ids_ t;
  reset_id t : txn_id_ (txn_Reset t) = txn_id_ t;
  reset_pars t : partition_ids_ (txn_Reset t) = partition_ids_ t;
}.

(** A dispatch in phase [p] for transaction [id]. *)
Definition is_dispatch (p id : Z) (m : TapirMsg) : Prop :=
  exists par cmds c, m = SendDispatch par p cmds /\ head cmds = Some c /\ root_id_ c = id.

Section steps.
Context (cfg : Config) `{TapirWorkload}.

Inductive cstep : TapirCoord -> list TapirMsg -> TapirCoord -> Prop :=
  | CS_quiet c c' : kept c c' -> cpars c' = cpars c -> cstep c [] c'
  | CS_dispatch c ms c' : kept c c' -> ph c mod 4 = 1 -> sorted_set (cpars c') -> Forall (is_dispatch (ph c) (cid c)) ms -> cstep c ms c'
  | CS_begin c c' :
      ph c mod 4 = 0 -> ph c' = ph c + 1 -> cnext c <= cid c' < cnext c' -> cnext c' <= cnext c + 2 -> cended c' = cended c ->
      sorted_set (cpars c') -> (forall p, coks c' p = 0) -> cstep c [] c'
  | CS_draw c c' :
      ph c mod 4 = 0 -> ph c' = ph c -> cnext c <= cid c' < cnext c' -> cnext c' <= cnext c + 2 -> cended c' = cended c ++ [(cid c', false)] ->
      cpars c' = cpars c -> (forall p, coks c' p = coks c p) -> cstep c [] c'
  | CS_accept c c' cmds :
      ph c mod 4 = 1 -> ph c' = ph c + 1 -> cid c' = cid c -> cnext c' = cnext c -> cended c' = cended c -> cpars c' = cpars c ->
      cpars c ≠ [] -> (forall p, coks c' p = 0 \/ coks c' p = coks c p) -> (forall p, p ∈ cpars c -> coks c' p = 0) ->
      cstep c ((fun par => BroadcastFastAccept par (ph c + 1) (cid c) (cmds par)) <$> cpars c) c'
  | CS_commit c c' :
      ph c mod 4 = 2 -> ph c' = ph c + 2 -> cid c' = cid c -> cnext c' = cnext c -> cended c' = cended c ++ [(cid c, true)] -> cpars c' = cpars c ->
      (forall p, coks c' p = coks c p) -> (forall p, p ∈ cpars c -> exists n, GetPartitionSize cfg p = Some n /\ n <= coks c p) ->
      cstep c ((fun par => BroadcastDecide par (cid c) COMMIT) <$> cpars c) c'
  | CS_abort c c' :
      ph c mod 4 = 2 -> ph c' = ph c + 2 -> cid c' = cid c -> cnext c' = cnext c -> cended c' = cended c -> cpars c' = cpars c ->
      (forall p, coks c' p = coks c p) ->
      cstep c ((fun par => BroadcastDecide par (cid c) ABORT) <$> cpars c) c'.

Inductive csteps : TapirCoord -> list TapirMsg -> TapirCoord -> Prop :=
  | csteps_nil c : csteps c [] c
  | csteps_cons c ms c1 ms' c2 : cstep c ms c1 -> csteps c1 ms' c2 -> csteps c (ms ++ ms') c2.

(** An acceptance is counted. *)
Record counted (par : Z) (c c' : TapirCoord) : Prop := {
  cn_ph : ph c' = ph c;
  cn_id : cid c' = cid c;
  cn_next : cnext c' = cnext c;
  cn_ended : cended c' = cended c;
  cn_pars : cpars c' = cpars c;
  cn_oks p : coks c' p = if decide (p = par) then i32 (coks c p + 1) else coks c p;
}.

(** A handler that did the steps, and sent their messages. *)
Definition did (c c' : TapirCoord) : Prop := exists ms, csteps c ms c' /\ tc_sent c' = tc_sent c ++ ms.
#[export] Instance did_preorder : PreOrder did.
Proof.
  split; [intros c; exists []; split; [constructor|by rewrite app_nil_r]|]. intros c1 c2 c3 (ms & A1 & A2) (ms' & B1 & B2).
  exists (ms ++ ms'). split; [|by rewrite B2, A2, app_assoc]. clear A2 B2. induction A1; [done|]. rewrite <- app_assoc. econstructor; [done|]. by apply IHA1.
Qed.
Lemma did_step c ms c' : cstep c ms c' -> tc_sent c' = tc_sent c ++ ms -> did c c'.
Proof. intros Hs E. exists ms. split; [|done]. rewrite <- (app_nil_r ms). econstructor; [done|constructor]. Qed.

Lemma on_tc_done {A} (m : M Coord A) s a s' : on_tc m s = Done (a, s') -> exists c, m (tc s) = Done (a, c) /\ s' = s <| tc := c |>.
Proof. unfold on_tc. destruct (m (tc s)) as [[b c]| |]; [|done..]. intros [= <- <-]. by exists c. Qed.
Lemma on_txn_done {A} (m : M TxnCommand A) s a s' :
  on_txn m s = Done (a, s') -> exists t, m (cmd_ (tc s)) = Done (a, t) /\ s' = s <| tc ::= fun c => c <| cmd_ := t |> |>.
Proof.
  intros (c & Hc & ->)%on_tc_done. unfold on_cmd in Hc. destruct (m (cmd_ (tc s))) as [[b t]| |]; [|done..]. injection Hc as <- <-. by exists t.
Qed.

(** ** Dispatch *)

Definition rooted (id : Z) (cmds : list SimpleCommand) : Prop := exists c, head cmds = Some c /\ root_id_ c = id.

Lemma push_piece_rooted id par c cmds :
  Forall (fun p => rooted id p.2) cmds -> root_id_ c = id -> Forall (fun p => rooted id p.2) (push_piece par c cmds).
Proof.
  intros Hf Hc. apply Forall_forall. intros p Hp. unfold push_piece in Hp. apply insert_elem_of in Hp as [->|Hp]; [|rewrite Forall_forall in Hf; by apply Hf].
  cbn [snd]. rewrite index_fst. destruct (find par cmds) as [cs|] eqn:E; cbn; [|by exists c].
  apply find_elem_of in E. rewrite Forall_forall in Hf. destruct (Hf _ E) as (c0 & Hh & Hr). exists c0. split; [|done]. cbn in Hh. by destruct cs.
Qed.

Lemma get_ready_rooted id entries max cmds t r t' :
  get_ready entries max cmds t = Done (r, t') -> txn_id_ t = id -> sorted_set (partition_ids_ t) -> Forall (fun p => rooted id p.2) cmds ->
  txn_id_ t' = id /\ sorted_set (partition_ids_ t') /\ Forall (fun p => rooted id p.2) r.
Proof.
  revert max cmds t. induction entries as [|[pi st] entries IH]; intros max cmds t Hrun Hid Hs Hf; cbn [get_ready] in Hrun; [by injection Hrun as <- <-|].
  destruct (st =? DISPATCHABLE); [|by eapply IH].
  apply bind_done in Hrun as (t0 & t1 & [= <- <-] & Hrun). apply bind_done in Hrun as (par & t2 & Hp & Hrun). destruct (find pi _); [|done]. injection Hp as <- <-.
  apply bind_done in Hrun as ([] & t3 & Hv & Hrun). apply (preserves_verify _ (fun x => x = t)) in Hv as ->; [|done].
  apply bind_done in Hrun as ([] & t4 & [= <-] & Hrun).
  assert (forall t5 : TxnCommand, txn_id_ t5 = txn_id_ t -> partition_ids_ t5 = sinsert z (partition_ids_ t) -> txn_id_ t5 = id /\ sorted_set (partition_ids_ t5)) as Hs' by (intros t5 -> ->; split; [done|by apply sorted_sinsert]).
  set (cmds' := push_piece _ _ _) in Hrun. assert (Forall (fun p => rooted id p.2) cmds') as Hf' by by apply push_piece_rooted.
  destruct (max - 1 =? 0).
  - injection Hrun as <- <-. split_and!; [by apply Hs'..|done].
  - eapply IH; [exact Hrun|by apply Hs'..|done].
Qed.

Lemma GetReadyCmds_rooted max t r t' :
  GetReadyCmds max t = Done (r, t') -> sorted_set (partition_ids_ t) ->
  txn_id_ t' = txn_id_ t /\ sorted_set (partition_ids_ t') /\ Forall (fun p => rooted (txn_id_ t) p.2) r.
Proof.
  intros Hrun Hs. unfold GetReadyCmds in Hrun. apply bind_done in Hrun as (t0 & t1 & [= <- <-] & Hrun).
  apply bind_done in Hrun as ([] & t3 & Hv & Hrun). apply (preserves_verify _ (fun x => x = t)) in Hv as ->; [|done].
  apply bind_done in Hrun as ([] & t3 & Hv & Hrun). apply (preserves_verify _ (fun x => x = t)) in Hv as ->; [|done].
  apply bind_done in Hrun as (cmds & t4 & Hg & Hrun). apply bind_done in Hrun as ([] & t5 & Hv & [= <- <-]).
  apply (preserves_verify _ (fun x => x = t4)) in Hv as ->; [|done]. by eapply get_ready_rooted.
Qed.

Lemma number_pieces_pars pars cs : preserves (fun s => partition_ids_ (cmd_ s) = pars) (number_pieces cs).
Proof. induction cs as [|c cs IH]; cbn [number_pieces]; solve_preserves. unfold number_piece. by apply preserves_state. Qed.

Lemma number_from_rooted id n cs : rooted id cs -> rooted id (number_from n cs).
Proof. intros (c & Hh & Hr). destruct cs as [|c' cs]; [done|]. injection Hh as ->. by eexists. Qed.

(** What the loop of [Dispatch] has done so far. *)
Record dispatching (c0 c : TapirCoord) : Prop := {
  di_kept : kept c0 c;
  di_pars : cpars c = cpars c0;
  di_sent : exists ms, tc_sent c = tc_sent c0 ++ ms /\ Forall (is_dispatch (ph c0) (cid c0)) ms;
}.

Lemma dispatch_pieces_done c0 c pair r c' :
  dispatching c0 c -> rooted (cid c0) pair.2 ->
  (cc ← on_tc (count_dispatch pair.2;; number_pieces pair.2); s ← the_coord; emit_msg (SendDispatch pair.1 (phase_ s) cc)) c = Done (r, c') ->
  dispatching c0 c'.
Proof.
  intros [Hk Hp (ms & Es & Hf)] Hr Hrun. apply bind_done in Hrun as (cc & c1 & (t1 & Hn & ->)%on_tc_done & Hrun).
  apply bind_done in Hn as ([] & t2 & [= <-] & Hn). set (t2 := _ <| n_dispatch_ ::= _ |>) in Hn.
  pose proof (number_pieces_pars _ _ t2 _ _ eq_refl Hn) as Ep. destruct (number_pieces_eq pair.2 t2) as (t3 & En & _ & F). rewrite En in Hn. injection Hn as <- <-.
  apply bind_done in Hrun as (s & c2 & [= <- <-] & [= <- <-]). destruct F as (F1 & F2 & F3 & F4 & F5 & F6 & F7 & F8). split.
  - etrans; [exact Hk|]. split; cbn; done.
  - rewrite <- Hp. exact Ep.
  - exists (ms ++ [SendDispatch pair.1 (phase_ t3) (number_from (next_pie_id_ t2) pair.2)]). split; [cbn; by rewrite Es, app_assoc|].
    apply Forall_app. split; [done|]. constructor; [|constructor]. destruct (number_from_rooted _ (next_pie_id_ t2) _ Hr) as (c4 & Hh & Hc).
    assert (ph c0 = phase_ t3) as <- by (rewrite F1; symmetry; apply (kt_ph _ _ Hk)). by exists pair.1, (number_from (next_pie_id_ t2) pair.2), c4.
Qed.

Lemma Dispatch_did c c' :
  Dispatch c = Done (tt, c') -> ph c mod 4 = 1 -> sorted_set (cpars c) ->
  did c c' /\ ph c' = ph c /\ sorted_set (cpars c').
Proof.
  intros Hrun Hph Hs. unfold Dispatch in Hrun. apply bind_done in Hrun as (cmds & c1 & (t & Hg & ->)%on_txn_done & Hrun).
  apply GetReadyCmds_rooted in Hg as (Hid & Hst & Hf); [|done].
  set (c1 := c <| tc ::= _ |>) in Hrun.
  assert (dispatching c1 c') as [Hk Hp (ms & Es & Hm)].
  { assert (Forall (fun p => rooted (cid c1) p.2) cmds) as Hf' by (change (cid c1) with (txn_id_ t); by rewrite Hid). clearbody c1. clear -Hrun Hf'.
    assert (preserves (dispatching c1) (for_each cmds (fun pair => cc ← on_tc (count_dispatch pair.2;; number_pieces pair.2); s ← the_coord; emit_msg (SendDispatch pair.1 (phase_ s) cc)))) as Hpr.
    { apply preserves_for_each. intros p Hp s a s' Hs Hrun'. rewrite Forall_forall in Hf'. by eapply dispatch_pieces_done; [exact Hs|apply Hf'|]. }
    apply (Hpr c1 tt c'); [|done]. split; [done..|]. exists []. by rewrite app_nil_r. }
  assert (kept c c1) as Hk1 by (split; [done|exact Hid|done..]).
  assert (kept c c') as Hk' by (by etrans). split_and!; [|apply Hk'|by rewrite Hp].
  apply (did_step c ms); [|done]. apply CS_dispatch; [done|done|by rewrite Hp|]. by rewrite <- (kt_ph _ _ Hk1), <- (kt_id _ _ Hk1).
Qed.

(** ** A new attempt *)

Lemma next_phase_done c c' :
  0 <= ph c < 2 ^ 32 - 1 -> next_phase c = Done (tt, c') ->
  c' = c <| tc ::= fun x => x <| phase_ := ph c + 1 |> |>.
Proof.
  intros Hr (t & [= <-] & ->)%on_tc_done. unfold set_field. cbn. do 2 f_equal. apply wrap_u_id. unfold in_u, ph in *. lia.
Qed.

(** Runs a handler up to its next effect, for effects that only test or read. *)
Ltac step_verify Hrun :=
  let Hv := fresh in apply bind_done in Hrun as ([] & ? & Hv & Hrun);
  match type of Hv with verify _ ?c = _ => apply (preserves_verify _ (fun x => x = c)) in Hv as ->; [|done] end.

Lemma goto_dispatch_did c c1 c' :
  goto_dispatch c1 = Done (tt, c') -> 0 <= ph c1 < 2 ^ 32 - 1 ->
  ph c mod 4 = 0 -> ph c1 = ph c -> cnext c <= cid c1 < cnext c1 -> cnext c1 <= cnext c + 2 -> cended c1 = cended c ->
  sorted_set (cpars c1) -> (forall p, coks c1 p = 0) -> tc_sent c1 = tc_sent c -> did c c'.
Proof.
  intros Hrun Hr H0 H1 H2 H3 H4 H5 H6 H7. unfold goto_dispatch in Hrun. apply bind_done in Hrun as ([] & c2 & Hn & Hrun).
  apply next_phase_done in Hn; [|done]. apply bind_done in Hrun as ([] & c3 & Hd & Hrun). apply bind_done in Hrun as (s & c4 & [= <- <-] & Hv).
  apply (preserves_verify _ (fun x => x = c3)) in Hv as ->; [|done].
  assert (ph c2 = ph c + 1) as Ep by (rewrite Hn, <- H1; done).
  apply Dispatch_did in Hd as (Hd & _); [|rewrite Ep; rewrite Z.add_mod, H0 by lia; done|by rewrite Hn].
  etrans; [|exact Hd]. apply (did_step c []); [|rewrite Hn, app_nil_r; exact H7]. rewrite Hn in Ep |- *. by apply CS_begin.
Qed.

Context `{!TapirWorkloadOk}.

Lemma TapirRestart_did c c' :
  TapirRestart c = Done (tt, c') -> 0 <= ph c < 2 ^ 32 - 1 -> 0 <= cnext c < 2 ^ 64 - 2 -> committed_ (tc c) = false -> ph c mod 4 = 0 -> sorted_set (cpars c) -> did c c'.
Proof.
  intros Hrun R1 R2 Hcm Hph Hs. unfold TapirRestart in Hrun. apply bind_done in Hrun as ([] & c1 & (t1 & [= <-] & ->)%on_tc_done & Hrun).
  unfold ClassicRestart in Hrun. apply bind_done in Hrun as (s & c2 & [= <- <-] & Hrun). step_verify Hrun.
  apply bind_done in Hrun as ([] & c2 & (t2 & [= <-] & ->)%on_tc_done & Hrun). apply bind_done in Hrun as (s & c3 & [= <- <-] & Hrun).
  set (c2 := _ <| tc := _ |>) in Hrun.
  assert (u64 (cnext c + 1) = cnext c + 1) as E1 by (apply wrap_u_id; unfold in_u; lia).
  assert (u64 (u64 (cnext c + 1) + 1) = cnext c + 2) as E2 by (rewrite E1; replace (cnext c + 1 + 1) with (cnext c + 2) by lia; apply wrap_u_id; unfold in_u; lia).
  assert (cid c2 = cnext c + 1) as Ei by exact E1. assert (cnext c2 = cnext c + 2) as En by exact E2.
  destruct (_ && _).
  - apply on_tc_done in Hrun as (t3 & He & ->). unfold End_ in He. apply bind_done in He as (t4 & t5 & [= <- <-] & He). step_verify He.
    injection He as <-. apply (did_step c []); [|by rewrite app_nil_r]. apply CS_draw.
    + done.
    + done.
    + change (cnext c <= cid c2 < cnext c2). lia.
    + change (cnext c2 <= cnext c + 2). lia.
    + change (cended c ++ [(cid c2, committed_ (tc c))] = cended c ++ [(cid c2, false)]). by rewrite Hcm.
    + done.
    + done.
  - apply bind_done in Hrun as ([] & c3 & [= <-] & Hrun). apply bind_done in Hrun as ([] & c4 & (t4 & [= <-] & ->)%on_txn_done & Hrun).
    set (c4 := _ <| tc ::= _ |>) in Hrun.
    assert (cid c4 = cid c2) as Ei4 by (unfold c4, cid; cbn; by rewrite reset_id). assert (cpars c4 = cpars c2) as Ep4 by (unfold c4, cpars; cbn; by rewrite reset_pars).
    eapply goto_dispatch_did; [exact Hrun|..]; [|done|done|..]; [..|done|by rewrite Ep4|done|done].
    + change (0 <= ph c < 2 ^ 32 - 1). lia.
    + change (cnext c4) with (cnext c2). lia.
    + change (cnext c4) with (cnext c2). lia.
Qed.

(** ** Decisions *)

Lemma emit_all_done {A} (f : A -> TapirMsg) l c c' : for_each l (fun x => emit_msg (f x)) c = Done (tt, c') -> c' = c <| tc_sent := tc_sent c ++ (f <$> l) |>.
Proof.
  revert c. induction l as [|x l IH]; intros c Hrun; cbn [for_each] in Hrun.
  - injection Hrun as <-. cbn. rewrite app_nil_r. by destruct c.
  - apply bind_done in Hrun as ([] & c1 & [= <-] & ->%IH). cbn. by rewrite <- app_assoc.
Qed.

Lemma goto_decide_did c c' :
  goto_decide c = Done (tt, c') -> room c -> ph c mod 4 = 2 -> sorted_set (cpars c) ->
  (aborted_ (tc c) = false -> forall p, p ∈ cpars c -> exists n, GetPartitionSize cfg p = Some n /\ n <= coks c p) -> did c c'.
Proof.
  intros Hrun (R1 & R2 & R3 & R4) Hph Hs Hq. unfold goto_decide in Hrun. apply bind_done in Hrun as ([] & c1 & Hn & Hrun).
  apply next_phase_done in Hn; [|lia]. apply bind_done in Hrun as (s & c2 & [= <- <-] & Hrun). step_verify Hrun.
  unfold Decide in Hrun. apply bind_done in Hrun as (s & c2 & [= <- <-] & Hrun).
  apply bind_done in Hrun as ([] & c2 & Hv & Hrun). unfold verify in Hv. destruct (negb _) eqn:Hx; [|done]. injection Hv as <-.
  apply negb_true_iff, bool_decide_eq_false in Hx. apply bind_done in Hrun as ([] & c2 & ->%emit_all_done & Hrun).
  set (d := if committed_ (tc c1) then COMMIT else ABORT) in Hrun. unfold goto_end in Hrun.
  apply bind_done in Hrun as ([] & c3 & He & Hrun). apply next_phase_done in He; [|rewrite Hn; change (0 <= ph c + 1 < 2 ^ 32 - 1); lia].
  apply bind_done in Hrun as (s & c4 & [= <- <-] & Hrun). step_verify Hrun.
  assert (ph c3 = ph c + 2) as Ep by (rewrite He; change (ph c1 + 1 = ph c + 2); rewrite Hn; change (ph c + 1 + 1 = ph c + 2); lia).
  assert (tc_sent c3 = tc_sent c ++ ((fun par => BroadcastDecide par (cid c) d) <$> cpars c)) as Es by by rewrite He, Hn.
  assert (committed_ (tc c3) = committed_ (tc c) /\ aborted_ (tc c3) = aborted_ (tc c) /\ committed_ (tc c1) = committed_ (tc c) /\ aborted_ (tc c1) = aborted_ (tc c)) as (C3 & A3 & C1 & A1) by by rewrite He, Hn.
  assert (cid c3 = cid c /\ cnext c3 = cnext c /\ cended c3 = cended c /\ cpars c3 = cpars c /\ forall p, coks c3 p = coks c p) as (E1 & E2 & E3 & E4 & E5) by by rewrite He, Hn.
  subst d. rewrite C1 in *. rewrite A1 in Hx. rewrite C3 in Hrun. destruct (committed_ (tc c)) eqn:Ec.
  - apply on_tc_done in Hrun as (t & Hend & ->). unfold End_ in Hend. apply bind_done in Hend as (t1 & t2 & [= <- <-] & Hend). step_verify Hend. injection Hend as <-.
    eapply (did_step c _); [|exact Es]. eapply CS_commit; [done|exact Ep|exact E1|exact E2| |exact E4|exact E5|].
    + change (cended c3 ++ [(cid c3, committed_ (tc c3))] = cended c ++ [(cid c, true)]). by rewrite E1, E3, C3.
    + apply Hq. by destruct (aborted_ (tc c)).
  - rewrite A3 in Hrun. destruct (aborted_ (tc c)); [|done].
    transitivity c3; [eapply (did_step c _); [|exact Es]; by apply CS_abort|].
    eapply TapirRestart_did; [exact Hrun|rewrite Ep; lia|rewrite E2; lia|done| |by rewrite E4].
    rewrite Ep, Z.add_mod, Hph by lia. done.
Qed.

(** ** Acceptance *)

Lemma index_find_default par (m : omap Z Z) p : default 0 (find p (index 0 par m).2) = default 0 (find p m).
Proof. rewrite find_index. case_decide as E; [|done]. subst. rewrite index_fst. by destruct (find p m). Qed.

Lemma AllFastQuorumReached_done pars c b c' :
  AllFastQuorumReached cfg pars c = Done (b, c') ->
  tc c' = tc c /\ tc_sent c' = tc_sent c /\ (forall p, coks c' p = coks c p) /\
  (b = true -> forall p, p ∈ pars -> exists n, GetPartitionSize cfg p = Some n /\ n <= coks c p).
Proof.
  revert c. induction pars as [|par pars IH]; intros c Hrun; cbn [AllFastQuorumReached] in Hrun; [injection Hrun as <- <-; split_and!; [done..|]; by intros _ p ?%elem_of_nil|].
  unfold GetFastQuorum in Hrun. destruct (GetPartitionSize cfg par) as [q|] eqn:Eq; [|done]. apply bind_done in Hrun as (q' & c1 & [= <- <-] & Hrun).
  destruct (index 0 par (n_fast_accept_oks_ c)) as [n m] eqn:Ei. apply bind_done in Hrun as (n' & c1 & Hst & Hrun). unfold state in Hst. rewrite Ei in Hst. injection Hst as <- <-.
  set (c1 := c <| n_fast_accept_oks_ := m |>) in Hrun.
  assert (forall p, coks c1 p = coks c p) as E1 by (intros p; unfold coks; cbn; rewrite <- (index_find_default par (n_fast_accept_oks_ c)), Ei; done).
  assert (n = coks c par) as En by (unfold coks; rewrite <- index_fst, Ei; done).
  destruct (Z.ltb_spec n q); [injection Hrun as <- <-; by split_and!|].
  destruct (IH _ Hrun) as (I1 & I2 & I3 & I4). split_and!; [done|done|intros p; by rewrite I3|].
  intros Hb p [->|Hp]%elem_of_cons; [exists q; split; [done|lia]|]. destruct (I4 Hb p Hp) as (k & Ek & Hk). exists k. by rewrite <- E1.
Qed.

Lemma FastQuorumPossible_done pars c b c' :
  FastQuorumPossible cfg pars c = Done (b, c') -> tc c' = tc c /\ tc_sent c' = tc_sent c /\ n_fast_accept_oks_ c' = n_fast_accept_oks_ c.
Proof.
  revert c. induction pars as [|par pars IH]; intros c Hrun; cbn [FastQuorumPossible] in Hrun; [by injection Hrun as <- <-|].
  unfold GetFastQuorum in Hrun. destruct (GetPartitionSize cfg par) as [q|] eqn:Eq; [|done]. apply bind_done in Hrun as (q1 & c1 & [= <- <-] & Hrun).
  apply bind_done in Hrun as (q1 & c1 & [= <- <-] & Hrun).
  destruct (index 0 par (n_fast_accept_rejects_ c)) as [n m] eqn:Ei. apply bind_done in Hrun as (n' & c1 & Hst & Hrun). unfold state in Hst. rewrite Ei in Hst. injection Hst as <- <-.
  destruct (n >? _); [by injection Hrun as <- <-|]. apply IH in Hrun as (I1 & I2 & I3). by rewrite I1, I2, I3.
Qed.

Lemma count_up_coks par m p : default 0 (find p (count_up par m)) = if decide (p = par) then i32 (default 0 (find p m) + 1) else default 0 (find p m).
Proof.
  unfold count_up. destruct (index 0 par m) as [n m'] eqn:E. rewrite find_insert.
  assert (n = default 0 (find par m)) as -> by (rewrite <- index_fst, E; done).
  assert (default 0 (find p m') = default 0 (find p m)) as Em by (rewrite <- (index_find_default par m), E; done).
  destruct (decide (par = p)) as [->|Hne]; [by rewrite decide_True|]. by rewrite decide_False.
Qed.

Lemma FastAcceptAck_did phase par res c c' :
  FastAcceptAck cfg phase par res c = Done (tt, c') -> phase <= ph c -> phase mod 4 = 2 -> sorted_set (cpars c) -> room c ->
  (phase < ph c /\ c' = c) \/
  (phase = ph c /\ exists c1, (if decide (res = SUCCESS) then counted par c c1 else cstep c [] c1) /\ tc_sent c1 = tc_sent c /\ did c1 c').
Proof.
  intros Hrun Hle Hmod Hs Hroom. unfold FastAcceptAck in Hrun. apply bind_done in Hrun as (s & c0 & [= <- <-] & Hrun).
  change (phase_ (tc c)) with (ph c) in Hrun. destruct (Z.gtb_spec (ph c) phase); [injection Hrun as <-; left; split; [lia|done]|].
  right. assert (phase = ph c) as -> by lia. split; [done|]. apply bind_done in Hrun as ([] & c1 & Hres & Hrun).
  exists c1.
  assert ((if decide (res = SUCCESS) then counted par c c1 else cstep c [] c1) /\ tc_sent c1 = tc_sent c /\ tc c1 = tc c) as (Hc1 & Es1 & Et1).
  { destruct (Z.eqb_spec res SUCCESS) as [->|Hne]; [rewrite decide_True by done|rewrite decide_False by done; destruct (res =? REJECT); [|done]];
      injection Hres as <-; (split; [|done]).
    - split; [done..|]. intros p. unfold coks. cbn. apply count_up_coks.
    - by apply CS_quiet; [split|]. }
  split; [exact Hc1|]. split; [exact Es1|].
  apply bind_done in Hrun as (t & c2 & [= <- <-] & Hrun). apply bind_done in Hrun as (b & c2 & Hp & Hrun). apply FastQuorumPossible_done in Hp as (Et2 & Es2 & Eo2).
  assert (did c1 c2) as Hd2 by (apply (did_step c1 []); [apply CS_quiet; [split|]|by rewrite app_nil_r]; unfold ph, cid, cnext, cended, coks, cpars; rewrite ?Et2, ?Eo2; done).
  etrans; [exact Hd2|]. assert (cpars c2 = cpars c /\ ph c2 = ph c /\ cnext c2 = cnext c) as (Ep2 & Eh2 & En2) by (unfold cpars, ph, cnext; by rewrite Et2, Et1).
  change (partition_ids_ (cmd_ (tc c1))) with (cpars c1) in Hrun. assert (cpars c1 = cpars c2) as Ec1 by (unfold cpars; by rewrite Et2). rewrite Ec1 in Hrun.
  destruct b.
  - apply bind_done in Hrun as (b & c3 & Hq & Hrun). apply AllFastQuorumReached_done in Hq as (Et3 & Es3 & Eo3 & Hq).
    assert (did c2 c3) as Hd3 by (apply (did_step c2 []); [apply CS_quiet; [split|]|by rewrite app_nil_r]; unfold ph, cid, cnext, cended, cpars; rewrite ?Et3; done).
    etrans; [exact Hd3|]. destruct b; [|by injection Hrun as <-]. apply bind_done in Hrun as ([] & c4 & (t & [= <-] & ->)%on_tc_done & Hrun).
    set (c4 := _ <| tc := _ |>) in Hrun.
    assert (kept c3 c4 /\ cpars c4 = cpars c3 /\ tc_sent c4 = tc_sent c3) as (Hk & Ek & Es4) by done.
    etrans; [apply (did_step c3 []); [by apply CS_quiet|by rewrite app_nil_r]|].
    assert (ph c4 = ph c /\ cnext c4 = cnext c /\ cpars c4 = cpars c2) as (Eh4 & En4 & Ep4).
    { rewrite (kt_ph _ _ Hk), (kt_next _ _ Hk), Ek. unfold ph, cnext, cpars. by rewrite Et3, Et2, Et1. }
    eapply goto_decide_did; [exact Hrun|unfold room; by rewrite Eh4, En4|by rewrite Eh4|by rewrite Ep4, Ep2|].
    intros _ p Hin. rewrite Ep4 in Hin. destruct (Hq eq_refl p Hin) as (n & En & Hn). exists n. split; [done|]. rewrite (kt_oks _ _ Hk), Eo3. done.
  - apply bind_done in Hrun as ([] & c4 & (t & [= <-] & ->)%on_tc_done & Hrun). set (c4 := _ <| tc := _ |>) in Hrun.
    assert (kept c2 c4 /\ cpars c4 = cpars c2 /\ tc_sent c4 = tc_sent c2) as (Hk & Ek & Es4) by done.
    etrans; [apply (did_step c2 []); [by apply CS_quiet|by rewrite app_nil_r]|].
    eapply goto_decide_did; [exact Hrun|unfold room; by rewrite (kt_ph _ _ Hk), (kt_next _ _ Hk), Eh2, En2|by rewrite (kt_ph _ _ Hk), Eh2|by rewrite Ek, Ep2|done].
Qed.

(** ** Outputs of the dispatch phase *)

Lemma Merge_kept id pars k out : preserves (fun t => txn_id_ t = id /\ partition_ids_ t = pars) (Merge start_callback k out).
Proof.
  unfold Merge. solve_preserves_with ltac:(apply preserves_modify).
  all: cbn; by rewrite ?callback_id, ?callback_pars.
Qed.

(** What [DispatchAck] has done before it decides how to go on. *)
Definition quiet (c0 c : TapirCoord) : Prop := kept c0 c /\ cpars c = cpars c0 /\ tc_sent c = tc_sent c0.
#[local] Instance quiet_preorder : PreOrder quiet.
Proof. split; [by split|]. intros a b c (A1 & A2 & A3) (B1 & B2 & B3). split_and!; [by etrans|congruence..]. Qed.
Lemma quiet_did c c' : quiet c c' -> did c c'.
Proof. intros (H1 & H2 & H3). apply (did_step c []); [by apply CS_quiet|by rewrite app_nil_r]. Qed.

Lemma on_txn_quiet {A} (m : M TxnCommand A) c a c' :
  (forall id pars, preserves (fun t => txn_id_ t = id /\ partition_ids_ t = pars) m) -> on_txn m c = Done (a, c') -> quiet c c'.
Proof.
  intros Hm (t & Ht & ->)%on_txn_done. destruct (Hm (cid c) (cpars c) _ _ _ (conj eq_refl eq_refl) Ht) as [E1 E2].
  split_and!; [split; [done|exact E1|done..]|exact E2|done].
Qed.

Lemma take_output_quiet p c c' : take_output p c = Done (tt, c') -> quiet c c'.
Proof.
  intros Hrun. unfold take_output in Hrun. apply bind_done in Hrun as ([] & c1 & (t1 & [= <-] & ->)%on_tc_done & Hrun).
  apply bind_done in Hrun as (s & c2 & [= <- <-] & Hrun). destruct (index _ _ _) as [acked acks]. step_verify Hrun.
  apply bind_done in Hrun as ([] & c2 & (t2 & [= <-] & ->)%on_tc_done & Hrun).
  apply on_txn_quiet in Hrun; [|intros; apply Merge_kept]. etrans; [|exact Hrun]. by split_and!.
Qed.

Lemma take_outputs_quiet outs c c' : for_each outs take_output c = Done (tt, c') -> quiet c c'.
Proof.
  revert c. induction outs as [|p outs IH]; intros c Hrun; cbn [for_each] in Hrun; [by injection Hrun as <-|].
  apply bind_done in Hrun as ([] & c1 & Hp%take_output_quiet & Hr%IH). by etrans.
Qed.

Lemma fast_accept_all_done pars sum c n c' :
  fast_accept_all pars sum c = Done (n, c') ->
  tc c' = tc c /\
  tc_sent c' = tc_sent c ++ ((fun par => BroadcastFastAccept par (ph c) (cid c) (GetCmdsByPartition par (cmd_ (tc c)))) <$> pars) /\
  (forall p, coks c' p = 0 \/ coks c' p = coks c p) /\ (forall p, p ∈ pars -> coks c' p = 0).
Proof.
  revert sum c. induction pars as [|par pars IH]; intros sum c Hrun; cbn [fast_accept_all] in Hrun.
  { injection Hrun as <- <-. rewrite app_nil_r. split_and!; [done|done|by right|by intros p ?%elem_of_nil]. }
  apply bind_done in Hrun as (s & c1 & [= <- <-] & Hrun). step_verify Hrun. step_verify Hrun.
  apply bind_done in Hrun as ([] & c1 & [= <-] & Hrun). apply bind_done in Hrun as ([] & c2 & [= <-] & Hrun).
  set (c2 := _ <| tc_sent ::= _ |>) in Hrun. destruct (IH _ _ Hrun) as (I1 & I2 & I3 & I4). clear IH.
  assert (forall p, coks c2 p = if decide (p = par) then 0 else coks c p) as E2.
  { intros p. unfold coks, c2. cbn. rewrite find_insert. destruct (decide (par = p)) as [->|]; [by rewrite decide_True|by rewrite decide_False]. }
  split_and!; [by rewrite I1|rewrite I2; cbn; by rewrite <- app_assoc| |].
  - intros p. destruct (I3 p) as [-> | ->]; [by left|]. rewrite E2. case_decide; auto.
  - intros p [->|Hp]%elem_of_cons; [|by apply I4]. destruct (I3 par) as [-> | ->]; [done|]. rewrite E2. by rewrite decide_True.
Qed.

Lemma goto_fast_accept_did c c' :
  goto_fast_accept c = Done (tt, c') -> room c -> ph c mod 4 = 1 -> did c c'.
Proof.
  intros Hrun (R1 & R2 & R3 & R4) Hph. unfold goto_fast_accept in Hrun. apply bind_done in Hrun as ([] & c1 & Hn & Hrun).
  apply next_phase_done in Hn; [|lia]. apply bind_done in Hrun as (s & c2 & [= <- <-] & Hrun). step_verify Hrun.
  unfold SendFastAccept in Hrun. apply bind_done in Hrun as (t & c2 & [= <- <-] & Hrun).
  apply bind_done in Hrun as ([] & c2 & Hv & Hrun). unfold verify in Hv. destruct (negb _) eqn:Hne; [|done]. injection Hv as <-.
  change (partition_ids_ (cmd_ (tc c1))) with (cpars c1) in Hne.
  apply bind_done in Hrun as (n & c2 & Hf & Hrun). apply bind_done in Hrun as (t & c3 & [= <- <-] & Hv).
  apply (preserves_verify _ (fun x => x = c2)) in Hv as ->; [|done]. apply fast_accept_all_done in Hf as (F1 & F2 & F3 & F4).
  assert (ph c1 = ph c + 1 /\ cid c1 = cid c /\ cnext c1 = cnext c /\ cended c1 = cended c /\ cpars c1 = cpars c /\ tc_sent c1 = tc_sent c /\ forall p, coks c1 p = coks c p) as (E1 & E2 & E3 & E4 & E5 & E6 & E7) by by rewrite Hn.
  assert (ph c2 = ph c1 /\ cid c2 = cid c1 /\ cnext c2 = cnext c1 /\ cended c2 = cended c1 /\ cpars c2 = cpars c1) as (G1 & G2 & G3 & G4 & G5) by (unfold ph, cid, cnext, cended, cpars; by rewrite F1).
  eapply (did_step c).
  - eapply (CS_accept c c2 (fun par => GetCmdsByPartition par (cmd_ (tc c1)))); [done|congruence..| | |].
    + rewrite <- E5. by destruct (cpars c1).
    + intros p. rewrite <- E7. apply F3.
    + intros p Hp. apply F4. change (partition_ids_ (cmd_ (tc c1))) with (cpars c1). by rewrite E5.
  - rewrite F2, E6, E1, E2. by rewrite <- E5.
Qed.

Lemma DispatchAck_did phase outs c c' :
  DispatchAck phase outs c = Done (tt, c') -> phase mod 4 = 1 -> sorted_set (cpars c) -> room c -> did c c'.
Proof.
  intros Hrun Hmod Hs Hroom. unfold DispatchAck in Hrun. apply bind_done in Hrun as (s & c0 & [= <- <-] & Hrun).
  change (phase_ (tc c)) with (ph c) in Hrun. destruct (Z.eqb_spec phase (ph c)) as [->|]; [|by injection Hrun as <-]. cbn [negb] in Hrun.
  apply bind_done in Hrun as ([] & c1 & Hq1%take_outputs_quiet & Hrun). apply bind_done in Hrun as (more & c2 & Hq2 & Hrun).
  apply on_txn_quiet in Hq2; [|intros; unfold HasMoreSubCmdReadyNotOut; solve_preserves].
  assert (quiet c c2) as Hq by (by etrans). etrans; [by apply quiet_did|]. destruct Hq as (Hk & Hp & _). clear Hq1 Hq2.
  assert (room c2) as Hroom2 by (unfold room; by rewrite (kt_ph _ _ Hk), (kt_next _ _ Hk)).
  assert (ph c2 mod 4 = 1) as Hm2 by by rewrite (kt_ph _ _ Hk). assert (sorted_set (cpars c2)) as Hs2 by by rewrite Hp.
  destruct more; [by apply Dispatch_did in Hrun as (? & _)|].
  apply bind_done in Hrun as (b & c3 & Ha & Hrun).
  assert (c3 = c2) as ->.
  { assert (preserves (fun x => x = c2) AllDispatchAcked) as Hpr by (unfold AllDispatchAcked; solve_preserves). by apply (Hpr c2 b c3). }
  destruct b; [by apply goto_fast_accept_did|by injection Hrun as <-].
Qed.

Lemma tapir_do_one_did is_local home t c c' :
  tapir_do_one is_local home t c = Done (tt, c') -> room c -> ph c mod 4 = 0 -> sorted_set (partition_ids_ t) -> did c c'.
Proof.
  intros Hrun (R1 & R2 & R3 & R4) Hph Hs. unfold tapir_do_one in Hrun. step_verify Hrun.
  apply bind_done in Hrun as ([] & c1 & (t1 & [= <-] & ->)%on_tc_done & Hrun). apply bind_done in Hrun as ([] & c2 & [= <-] & Hrun).
  assert (u64 (cnext c + 1) = cnext c + 1) as E1 by (apply wrap_u_id; unfold in_u; lia).
  eapply (goto_dispatch_did c); [exact Hrun|change (0 <= ph c < 2 ^ 32 - 1); lia|done|done| | |done|done|done|done].
  - change (cnext c <= cnext c < u64 (cnext c + 1)). lia.
  - change (u64 (cnext c + 1) <= cnext c + 2). lia.
Qed.
End steps.

(** ** TAPIR: how fast the counters of a coordinator grow *)

Section growth.
Context (cfg : Config) `{TapirWorkload}.

(** [m] adds at most [k] to the phase and to the next identifier. *)
Definition adds {A} (k : Z) (m : M TapirCoord A) : Prop := forall c a c', m c = Done (a, c') -> 0 <= ph c -> 0 <= cnext c -> 0 <= ph c' <= ph c + k /\ 0 <= cnext c' <= cnext c + k.

Lemma adds_bind {A B} k k' (m : M TapirCoord A) (f : A -> M TapirCoord B) : adds k m -> (forall a, adds k' (f a)) -> adds (k + k') (m ≫= f).
Proof.
  intros Hm Hf c b c' Hrun Hp Hn. apply bind_done in Hrun as (a & c1 & Ha & Hb). destruct (Hm _ _ _ Ha Hp Hn) as [P1 N1].
  destruct (Hf _ _ _ _ Hb) as [P2 N2]; [lia..|]. lia.
Qed.
Lemma adds_mono {A} k k' (m : M TapirCoord A) : adds k m -> k <= k' -> adds k' m.
Proof. intros Hm Hk c a c' Hrun Hp Hn. destruct (Hm _ _ _ Hrun Hp Hn). lia. Qed.

(** A part of a handler that leaves them alone. *)
Definition still {A} (m : M TapirCoord A) : Prop := forall p n, preserves (fun c => ph c = p /\ cnext c = n) m.
Lemma adds_still {A} (m : M TapirCoord A) : still m -> adds 0 m.
Proof. intros Hm c a c' Hrun Hp Hn. destruct (Hm (ph c) (cnext c) _ _ _ (conj eq_refl eq_refl) Hrun) as [-> ->]. lia. Qed.
Lemma adds_then {A B} k (m : M TapirCoord A) (f : A -> M TapirCoord B) : still m -> (forall a, adds k (f a)) -> adds k (m ≫= f).
Proof. intros Hm Hf. apply (adds_mono (0 + k)); [|lia]. apply adds_bind; [by apply adds_still|done]. Qed.
Lemma adds_ret {A} (a : A) : adds 0 (mret a).
Proof. apply adds_still. intros p n. apply preserves_ret. Qed.
Lemma adds_abort {A} k : adds k (abort (A := A)).
Proof. by intros c a c'. Qed.

Lemma still_txn {A} (m : M TxnCommand A) : still (on_txn m).
Proof. intros p n c a c' Hc (t & _ & ->)%on_txn_done. exact Hc. Qed.
Lemma still_verify b : still (verify b).
Proof. intros p n. apply preserves_verify. Qed.
Lemma still_coord : still the_coord.
Proof. intros p n. apply preserves_gets. Qed.
Lemma still_txn_get : still the_txn.
Proof. intros p n. apply preserves_gets. Qed.
Lemma still_modify f : (forall c, tc (f c) = tc c) -> still (modify f).
Proof. intros Hf p n c a c' [<- <-] [= <- <-]. unfold ph, cnext. by rewrite Hf. Qed.
Lemma still_tc f : (forall c, phase_ (f c) = phase_ c /\ next_txn_id_ (f c) = next_txn_id_ c) -> still (on_tc (modify f)).
Proof. intros Hf p n c a c' [<- <-] (t & [= <- <-] & ->)%on_tc_done. apply Hf. Qed.
Lemma still_bind {A B} (m : M TapirCoord A) (f : A -> M TapirCoord B) : still m -> (forall a, still (f a)) -> still (m ≫= f).
Proof. intros Hm Hf p n. apply preserves_bind; [apply Hm|intros a; apply Hf]. Qed.
Lemma still_for_each {A} (l : list A) f : (forall a, still (f a)) -> still (for_each l f).
Proof. intros Hf p n. apply preserves_for_each. intros a _. apply Hf. Qed.
Lemma still_number cmds : still (on_tc (count_dispatch cmds;; number_pieces cmds)).
Proof.
  intros p n c a c' [<- <-] (t & Ht & ->)%on_tc_done. apply bind_done in Ht as ([] & t1 & [= <-] & Ht).
  destruct (number_pieces_eq cmds ((tc c) <| n_dispatch_ ::= fun n => u32 (n + Z.of_nat (length cmds)) |>)) as (t2 & E & _ & F). rewrite E in Ht. injection Ht as <- <-.
  destruct F as (F1 & _ & _ & _ & _ & _ & _ & F8). split; [exact F1|exact F8].
Qed.
#[local] Hint Resolve still_txn still_verify still_coord still_txn_get still_number : still.

Lemma adds_next_phase : adds 1 next_phase.
Proof.
  intros c a c' (t & [= <- <-] & ->)%on_tc_done Hp Hn. unfold ph, cnext in *. cbn. unfold wrap_u.
  pose proof (Z.mod_le (phase_ (tc c) + 1) (2 ^ 32) ltac:(lia) ltac:(lia)). pose proof (Z.mod_pos_bound (phase_ (tc c) + 1) (2 ^ 32)). lia.
Qed.

(** Walks through a part of a handler that is [still]. *)
Ltac solve_still :=
  repeat first
    [ progress intros
    | solve [auto with still]
    | apply still_bind | apply still_for_each | apply still_modify; done | apply still_tc; done
    | match goal with |- still (match ?x with _ => _ end) => destruct x end
    | match goal with |- still (mret _) => intros ? ?; apply preserves_ret | |- still (from_option _) => intros ? ?; apply preserves_from_option | |- still abort => intros ? ?; apply preserves_abort end ].

Lemma still_Dispatch : still Dispatch.
Proof. unfold Dispatch, emit_msg. solve_still. Qed.
Lemma still_End : still (on_tc End_).
Proof.
  intros p n c a c' [<- <-] (t & Ht & ->)%on_tc_done. unfold End_ in Ht. apply bind_done in Ht as (t1 & t2 & [= <- <-] & Ht).
  apply bind_done in Ht as ([] & t3 & Hv & Ht). apply (preserves_verify _ (fun y => y = tc c)) in Hv as ->; [|done]. by injection Ht as <- <-.
Qed.
Lemma still_take_output p : still (take_output p).
Proof. unfold take_output. solve_still. Qed.
Lemma still_accept_all pars sum : still (fast_accept_all pars sum).
Proof. revert sum. induction pars as [|par pars IH]; intros sum; cbn [fast_accept_all]; unfold emit_msg; solve_still. Qed.
Lemma still_possible pars : still (FastQuorumPossible cfg pars).
Proof.
  induction pars as [|par pars IH]; cbn [FastQuorumPossible]; unfold GetFastQuorum; solve_still.
  intros p n. apply preserves_state. intros c. by destruct (index _ _ _).
Qed.
Lemma still_reached pars : still (AllFastQuorumReached cfg pars).
Proof.
  induction pars as [|par pars IH]; cbn [AllFastQuorumReached]; unfold GetFastQuorum; solve_still.
  intros p n. apply preserves_state. intros c. by destruct (index _ _ _).
Qed.
#[local] Hint Resolve still_Dispatch still_End still_take_output still_accept_all still_possible still_reached : still.

Lemma adds_goto_dispatch : adds 1 goto_dispatch.
Proof. unfold goto_dispatch. apply (adds_mono (1 + 0)); [|lia]. apply adds_bind; [apply adds_next_phase|]. intros []. apply adds_still. solve_still. Qed.

(** A part that draws an identifier. *)
Lemma adds_draw (m : M Coord ()) :
  (forall c a c', m c = Done (a, c') -> phase_ c' = phase_ c /\ (next_txn_id_ c' = u64 (next_txn_id_ c + 1) \/ next_txn_id_ c' = next_txn_id_ c)) -> adds 1 (on_tc m).
Proof.
  intros Hm c a c' (t & Ht & ->)%on_tc_done Hp Hn. apply Hm in Ht as [E1 E2]. unfold ph, cnext in *. cbn. rewrite E1.
  pose proof (Z.mod_le (next_txn_id_ (tc c) + 1) (2 ^ 64) ltac:(lia) ltac:(lia)). pose proof (Z.mod_pos_bound (next_txn_id_ (tc c) + 1) (2 ^ 64)).
  unfold wrap_u in E2. destruct E2 as [-> | ->]; lia.
Qed.

Lemma adds_Restart : adds 3 TapirRestart.
Proof.
  unfold TapirRestart. apply (adds_bind 1 2); [apply adds_draw; intros c a c' [= <- <-]; split; [done|by left]|]. intros [].
  unfold ClassicRestart. apply adds_then; [auto with still|]. intros c. apply adds_then; [auto with still|]. intros [].
  apply (adds_bind 1 1); [apply adds_draw; unfold new_attempt; intros c0 a c' [= <- <-]; split; [done|by left]|]. intros [].
  apply adds_then; [auto with still|]. intros c1. destruct (_ && _); [apply (adds_mono 0); [|lia]; apply adds_still; auto with still|].
  apply adds_then; [unfold TapirReset; intros p n c2 a c' [<- <-] [= <- <-]; done|]. intros []. apply adds_then; [auto with still|]. intros []. apply adds_goto_dispatch.
Qed.

Lemma adds_goto_decide : adds 5 goto_decide.
Proof.
  unfold goto_decide. apply (adds_bind 1 4); [apply adds_next_phase|]. intros []. apply adds_then; [auto with still|]. intros c. apply adds_then; [auto with still|]. intros [].
  unfold Decide. apply adds_then; [auto with still|]. intros c1. apply adds_then; [auto with still|]. intros [].
  apply adds_then; [unfold emit_msg; solve_still|]. intros []. unfold goto_end. apply (adds_bind 1 3); [apply adds_next_phase|]. intros [].
  apply adds_then; [auto with still|]. intros c2. apply adds_then; [auto with still|]. intros []. destruct (committed_ c2).
  - apply (adds_mono 0); [|lia]. apply adds_still. auto with still.
  - destruct (aborted_ c2); [apply adds_Restart|apply adds_abort].
Qed.

Lemma adds_FastAcceptAck phase par res : adds 5 (FastAcceptAck cfg phase par res).
Proof.
  unfold FastAcceptAck. apply adds_then; [auto with still|]. intros c. destruct (_ >? _); [apply (adds_mono 0); [apply adds_ret|lia]|].
  apply adds_then; [solve_still|]. intros []. apply adds_then; [auto with still|]. intros t. apply adds_then; [auto with still|]. intros b. destruct b.
  - apply adds_then; [auto with still|]. intros b. destruct b; [|apply (adds_mono 0); [apply adds_ret|lia]].
    apply adds_then; [apply still_tc; done|]. intros []. apply adds_goto_decide.
  - apply adds_then; [apply still_tc; done|]. intros []. apply adds_goto_decide.
Qed.

Lemma adds_DispatchAck phase outs : adds 1 (DispatchAck phase outs).
Proof.
  unfold DispatchAck. apply adds_then; [auto with still|]. intros c. destruct (negb _); [apply (adds_mono 0); [apply adds_ret|lia]|].
  apply adds_then; [solve_still|]. intros []. apply adds_then; [auto with still|]. intros b. destruct b; [apply (adds_mono 0); [|lia]; apply adds_still; auto with still|].
  apply adds_then; [unfold AllDispatchAcked; solve_still|]. intros b. destruct b; [|apply (adds_mono 0); [apply adds_ret|lia]].
  unfold goto_fast_accept. apply (adds_bind 1 0); [apply adds_next_phase|]. intros []. apply adds_still. unfold SendFastAccept. solve_still.
Qed.

Lemma adds_do_one is_local home t : adds 2 (tapir_do_one is_local home t).
Proof.
  unfold tapir_do_one. apply adds_then; [auto with still|]. intros []. apply (adds_bind 1 1); [apply adds_draw; intros c a c' [= <- <-]; split; [done|by left]|]. intros [].
  apply adds_then; [unfold TapirReset; intros p n c a c' [<- <-] [= <- <-]; done|]. intros []. apply adds_goto_dispatch.
Qed.
End growth.
