(* ===== verification/TapirInv.v ===== *)
(** * TAPIR: the invariant of coordinators, messages and servers

    For every site and transaction a [Status] says whether the site has accepted the
    transaction, or committed it, and with which reads and writes.  The invariant ties it to
    the state of the server ([server_ok]), to the requests under way ([req_ok], [in_turn])
    and to the phase of the coordinator ([coord_ok]). *)
From stdpp Require Import base tactics numbers list sorting gmap sets.
From S2P Require Import Prelude OMap Command Config MemRow Occ OccLock Chopper ChrCoord Tapir TapirCoord TapirSystem TapirEval TapirSteps.

Inductive Status := Acc (t : Trace) | Com (t : Trace).

(** ** Messages on their way *)

Section posting.
Context `{TapirEnv} `{TapirRegistry} `{TapirWorkload}.

Definition chan_of (w : Tapir) (coo x : Z) : list TapirReq := default [] (ty_chan w !! (coo, x)).

(** The requests that a message of a coordinator is for a site. *)
Definition sent_to (coo x : Z) (m : TapirMsg) : list TapirReq :=
  match m with
  | SendDispatch par p cmds => if decide (replicas_of par !! t_loc coo = Some x) then [RqDispatch p cmds] else []
  | BroadcastFastAccept par p id cmds => if decide (x ∈ replicas_of par) then [RqFastAccept p par id cmds] else []
  | BroadcastDecide par id d => if decide (x ∈ replicas_of par) then [RqDecide id d] else []
  end.

(** All but the channels and the history. *)
Definition same_nodes (w w' : Tapir) : Prop :=
  ty_servers w' = ty_servers w /\ ty_coords w' = ty_coords w /\ ty_replies w' = ty_replies w.

Lemma push_chan coo x q w coo' x' :
  chan_of (push coo x q w) coo' x' = chan_of w coo' x' ++ (if decide (coo' = coo /\ x' = x) then [q] else []).
Proof.
  unfold chan_of, push. cbn. case_decide as E.
  - destruct E as [-> ->]. by rewrite lookup_insert_eq.
  - rewrite lookup_insert_ne by naive_solver. by rewrite app_nil_r.
Qed.

Lemma push_all_chan coo sites q w coo' x' :
  NoDup sites ->
  chan_of (push_all coo sites q w) coo' x' = chan_of w coo' x' ++ (if decide (coo' = coo /\ x' ∈ sites) then [q] else []).
Proof.
  unfold push_all. revert w. induction sites as [|x sites IH]; intros w Hn; cbn [foldl].
  - rewrite decide_False by set_solver. by rewrite app_nil_r.
  - apply NoDup_cons in Hn as [Hx Hn]. rewrite IH, push_chan by done. rewrite <- app_assoc. f_equal.
    repeat case_decide; try done; exfalso; set_solver.
Qed.

Lemma push_all_rest coo sites q w :
  same_nodes w (push_all coo sites q w) /\ ty_pieces (push_all coo sites q w) = ty_pieces w /\ ty_decided (push_all coo sites q w) = ty_decided w.
Proof. unfold push_all. revert w. induction sites as [|x sites IH]; intros w; cbn [foldl]; [done|]. exact (IH (push coo x q w)). Qed.

Context (Hlay : layout t_cfg).

Lemma replicas_NoDup par : NoDup (replicas_of par).
Proof.
  unfold replicas_of. destruct (SitesByPartitionId t_cfg par) as [l|] eqn:E; [|constructor]. by apply (layout_NoDup _ Hlay par).
Qed.
Lemma replicas_disjoint par par' x : x ∈ replicas_of par -> x ∈ replicas_of par' -> par = par'.
Proof.
  unfold replicas_of. destruct (SitesByPartitionId t_cfg par) as [l|] eqn:E; [|by intros ?%elem_of_nil].
  destruct (SitesByPartitionId t_cfg par') as [l'|] eqn:E'; [|by intros _ ?%elem_of_nil]. cbn. by apply (layout_disjoint _ Hlay).
Qed.
Lemma replicas_size par n : GetPartitionSize t_cfg par = Some n -> n = Z.of_nat (length (replicas_of par)).
Proof.
  unfold GetPartitionSize, replicas_of, SitesByPartitionId. destruct (find_group t_cfg par) as [g|]; [|done]. cbn. intros [= <-]. by rewrite length_fmap.
Qed.

(** What one message does to the history. *)
Definition noted (m : TapirMsg) (w w' : Tapir) : Prop :=
  match m with
  | SendDispatch _ _ _ => ty_pieces w' = ty_pieces w /\ ty_decided w' = ty_decided w
  | BroadcastFastAccept par _ id cmds => ty_pieces w' = <[id := insert par cmds (default [] (ty_pieces w !! id))]> (ty_pieces w) /\ ty_decided w' = ty_decided w
  | BroadcastDecide _ id d => ty_pieces w' = ty_pieces w /\ ty_decided w' = ty_decided (note_decision id d w)
  end.

Lemma post_done coo m w w' :
  post coo m w = Some w' ->
  same_nodes w w' /\ noted m w w' /\ forall coo' x, chan_of w' coo' x = chan_of w coo' x ++ (if decide (coo' = coo) then sent_to coo x m else []).
Proof.
  destruct m as [par p cmds|par p id cmds|par id d]; cbn [post sent_to].
  - destruct (replicas_of par !! t_loc coo) as [y|] eqn:E; [|done]. intros [= <-]. split_and!; [done..|]. intros coo' x. rewrite push_chan. f_equal.
    repeat case_decide; naive_solver.
  - intros [= <-]. destruct (push_all_rest coo (replicas_of par) (RqFastAccept p par id cmds) (note_pieces id par cmds w)) as ((A1 & A2 & A3) & B1 & B2).
    split_and!; [by split_and!|by split_and!|]. intros coo' x. rewrite push_all_chan by apply replicas_NoDup. f_equal. repeat case_decide; naive_solver.
  - intros [= <-]. destruct (push_all_rest coo (replicas_of par) (RqDecide id d) (note_decision id d w)) as ((A1 & A2 & A3) & B1 & B2).
    assert (same_nodes w (note_decision id d w) /\ ty_pieces (note_decision id d w) = ty_pieces w /\ ty_chan (note_decision id d w) = ty_chan w) as ((C1 & C2 & C3) & C4 & C5).
    { unfold note_decision. by case_match. }
    split_and!; [split_and!; congruence|split; [congruence|done]|]. intros coo' x. rewrite push_all_chan by apply replicas_NoDup.
    unfold chan_of at 1. rewrite C5. f_equal. repeat case_decide; naive_solver.
Qed.

(** Messages for acceptance: [post_all] in one step. *)
Lemma post_accepts coo pars p id cmds w w' :
  NoDup pars -> post_all coo ((fun par => BroadcastFastAccept par p id (cmds par)) <$> pars) w = Some w' ->
  same_nodes w w' /\ ty_decided w' = ty_decided w /\
  (forall id' par, pieces_for (ty_pieces w') par id' = if decide (id' = id /\ par ∈ pars) then Some (cmds par) else pieces_for (ty_pieces w) par id') /\
  (forall id', id' ≠ id -> ty_pieces w' !! id' = ty_pieces w !! id') /\
  (pars ≠ [] -> is_Some (ty_pieces w' !! id)) /\
  (forall coo' x, exists l, chan_of w' coo' x = chan_of w coo' x ++ l /\
     ((l = [] /\ (coo' = coo -> forall par, par ∈ pars -> x ∉ replicas_of par)) \/ exists par, coo' = coo /\ par ∈ pars /\ x ∈ replicas_of par /\ l = [RqFastAccept p par id (cmds par)])).
Proof.
  revert w. induction pars as [|par pars IH]; intros w Hn Hrun; cbn [fmap list_fmap post_all] in Hrun.
  - injection Hrun as <-. split_and!; [done|done| |done|done|].
    + intros id' par. rewrite decide_False; [done|]. by intros [_ ?%elem_of_nil].
    + intros coo' x. exists []. split; [by rewrite app_nil_r|]. left. split; [done|]. by intros _ par ?%elem_of_nil.
  - apply NoDup_cons in Hn as [Hp Hn]. destruct (post coo _ w) as [w1|] eqn:E1; [|done]. cbn [mbind option_bind] in Hrun.
    apply post_done in E1 as ((A1 & A2 & A3) & (A4 & A5) & A6). destruct (IH w1 Hn Hrun) as ((B1 & B2 & B3) & B4 & B5 & B6 & B7 & B8). clear IH.
    split_and!; [split_and!; congruence|congruence| | | |].
    + intros id' par'. rewrite B5. unfold pieces_for. rewrite A4. destruct (decide (id' = id)) as [->|Hne].
      * rewrite lookup_insert_eq. cbn [mbind option_bind]. rewrite find_insert. destruct (decide (par = par')) as [->|Hpp].
        -- rewrite decide_False by naive_solver. rewrite decide_True; [done|]. split; [done|by left].
        -- destruct (decide (par' ∈ pars)); [rewrite !decide_True; [done|by split; [|right]|done]|].
           rewrite !decide_False; [by destruct (ty_pieces w !! id)|intros [_ [->|?]%elem_of_cons]; done|naive_solver].
      * rewrite lookup_insert_ne by done. rewrite !decide_False by naive_solver. done.
    + intros id' Hne. rewrite B6 by done. rewrite A4. by rewrite lookup_insert_ne.
    + intros _. destruct pars as [|par2 pars]; [|by apply B7]. injection Hrun as <-. rewrite A4, lookup_insert_eq. by eexists.
    + intros coo' x. destruct (B8 coo' x) as (l & -> & Hl). rewrite A6, <- app_assoc. eexists. split; [done|]. cbn [sent_to].
      destruct (decide (coo' = coo)) as [->|Hc]; [|destruct Hl as [[-> Hl]|(par' & ? & _)]; [left; done|done]].
      destruct (decide (x ∈ replicas_of par)) as [Hx|Hx].
      * destruct Hl as [[-> Hl]|(par' & _ & Hp' & Hx' & ->)].
        -- right. exists par. split_and!; [done|left|done|done].
        -- exfalso. assert (par' = par) as -> by (by eapply replicas_disjoint). done.
      * destruct Hl as [[-> Hl]|(par' & _ & Hp' & Hx' & ->)].
        -- left. split; [done|]. intros _ par' [->|Hp']%elem_of_cons; [done|by apply Hl].
        -- right. exists par'. split_and!; [done|by right|done|done].
Qed.

Lemma post_decides coo pars id d w w' :
  NoDup pars -> post_all coo ((fun par => BroadcastDecide par id d) <$> pars) w = Some w' ->
  same_nodes w w' /\ ty_pieces w' = ty_pieces w /\
  ty_decided w' = (if decide (d = COMMIT /\ pars ≠ [] /\ id ∉ ty_decided w) then ty_decided w ++ [id] else ty_decided w) /\
  (forall coo' x, chan_of w' coo' x = chan_of w coo' x ++ (if decide (coo' = coo /\ Exists (fun par => x ∈ replicas_of par) pars) then [RqDecide id d] else [])).
Proof.
  revert w. induction pars as [|par pars IH]; intros w Hn Hrun; cbn [fmap list_fmap post_all] in Hrun.
  - injection Hrun as <-. split_and!; [done|done| |].
    + by rewrite decide_False by naive_solver.
    + intros coo' x. rewrite decide_False; [by rewrite app_nil_r|]. by intros [_ ?%Exists_nil].
  - apply NoDup_cons in Hn as [Hp Hn]. destruct (post coo _ w) as [w1|] eqn:E1; [|done]. cbn [mbind option_bind] in Hrun.
    apply post_done in E1 as ((A1 & A2 & A3) & (A4 & A5) & A6). destruct (IH w1 Hn Hrun) as ((B1 & B2 & B3) & B4 & B5 & B6). clear IH.
    split_and!; [split_and!; congruence|congruence| |].
    + assert (ty_decided w1 = if decide (d = COMMIT /\ id ∉ ty_decided w) then ty_decided w ++ [id] else ty_decided w) as E1.
      { rewrite A5. unfold note_decision. destruct (Z.eqb_spec d COMMIT) as [->|Hd]; cbn [andb]; [|by rewrite decide_False by naive_solver].
        destruct (decide (id ∈ ty_decided w)); [rewrite bool_decide_eq_true_2, decide_False by naive_solver; done|].
        rewrite bool_decide_eq_false_2, decide_True by done. done. }
      rewrite B5, E1. destruct (decide (d = COMMIT /\ id ∉ ty_decided w)) as [[-> Hid]|Hx].
      * rewrite decide_False, decide_True; [done|naive_solver|]. intros (_ & _ & Hi). apply Hi. apply elem_of_app. right. by apply list_elem_of_singleton.
      * rewrite !decide_False by naive_solver. done.
    + intros coo' x. rewrite B6, A6, <- app_assoc. f_equal. cbn [sent_to]. destruct (decide (coo' = coo)) as [->|Hc]; [|rewrite !decide_False by naive_solver; done].
      destruct (decide (x ∈ replicas_of par)) as [Hx|Hx].
      * rewrite decide_False, decide_True; [done|split; [done|by left]|]. intros (_ & (par' & Hp' & Hx')%Exists_exists).
        assert (par' = par) as -> by (by eapply replicas_disjoint). done.
      * cbn [app]. apply decide_ext. rewrite Exists_cons. naive_solver.
Qed.
End posting.

(** ** What holds of a server *)

Section server.
Context `{TapirEnv} `{TapirRegistry}.
Abbreviation Pieces := (gmap Z (omap Z (list SimpleCommand))).

(** The transactions that a site has committed, in the order in which they were decided. *)
Definition log (g : Z -> option Status) (P : Pieces) (par : Z) (L : list Z) : list (list SimpleCommand * Trace) :=
  base.omap (fun id => match g id, pieces_for P par id with Some (Com t), Some cmds => Some (cmds, t) | _, _ => None end) L.

Record server_ok (g : Z -> option Status) (P : Pieces) (L : list Z) (par : Z) (s : TapirSched) : Prop := {
  so_rows : rows_ok (tp_rows s);
  so_acc id t : g id = Some (Acc t) -> exists cmds, pieces_for P par id = Some cmds /\ accepted s id cmds t;
  so_replay : replay (log g P par L) (contents (t_rows par)) (contents (tp_rows s));
  so_apart id t : g id = Some (Acc t) -> forall A B, L = A ++ id :: B -> forall id' t', id' ∈ B -> g id' = Some (Com t') -> compat t t';
}.

Definition upd (g : Z -> option Status) (id : Z) (st : option Status) : Z -> option Status := fun i => if decide (i = id) then st else g i.

Lemma log_ext g g' P P' par L :
  (forall id, id ∈ L -> g' id = g id \/ (forall t, g' id ≠ Some (Com t)) /\ (forall t, g id ≠ Some (Com t))) ->
  (forall id, id ∈ L -> pieces_for P' par id = pieces_for P par id) -> log g' P' par L = log g P par L.
Proof.
  intros Hg HP. unfold log. induction L as [|id L IH]; [done|]. cbn. rewrite IH by (intros; (apply Hg || apply HP); by right).
  rewrite (HP id) by left. destruct (Hg id) as [->|[H1 H2]]; [left|done|].
  assert (forall g'' : Z -> option Status, (forall t, g'' id ≠ Some (Com t)) -> match g'' id, pieces_for P par id with Some (Com t), Some cmds => Some (cmds, t) | _, _ => None end = None) as Hnone.
  { intros g'' Hn. destruct (g'' id) as [[t|t]|] eqn:E; [done| |done]. by destruct (Hn t). }
  by rewrite !Hnone.
Qed.

Lemma log_app g P par L1 L2 : log g P par (L1 ++ L2) = log g P par L1 ++ log g P par L2.
Proof. apply omap_app. Qed.

(** Another request of the transaction, or none at all. *)
Lemma server_ok_touched g P L par s s' o :
  server_ok g P L par s -> spares_others o s s' -> (forall t, g o ≠ Some (Acc t)) -> contents (tp_rows s') = contents (tp_rows s) -> server_ok g P L par s'.
Proof.
  intros [S1 S2 S3 S4] [K1 K2] Hg Hc. split; [auto| |by rewrite Hc|done].
  intros id t Ht. destruct (S2 id t Ht) as (cmds & Hp & Ha). exists cmds. split; [done|]. apply K2; [|done]. intros ->. by destruct (Hg t).
Qed.

(** The pieces of other transactions are noted. *)
Lemma server_ok_pieces g P P' L par s :
  server_ok g P L par s -> (forall id, id ∈ L \/ is_Some (g id) -> pieces_for P' par id = pieces_for P par id) -> server_ok g P' L par s.
Proof.
  intros [S1 S2 S3 S4] HP. split; [done| | |done].
  - intros id t Ht. destruct (S2 id t Ht) as (cmds & Hp & Ha). exists cmds. split; [|done]. rewrite HP; [done|]. right. by eexists.
  - rewrite (log_ext g g P P'); [done|by left|]. intros id Hid. apply HP. by left.
Qed.

(** A transaction is decided. *)
Lemma server_ok_decided g P L par s id :
  server_ok g P L par s -> id ∉ L -> (forall t, g id ≠ Some (Com t)) -> server_ok g P (L ++ [id]) par s.
Proof.
  intros [S1 S2 S3 S4] Hid Hg. split; [done|done| |].
  - rewrite log_app. assert (log g P par [id] = []) as ->; [|by rewrite app_nil_r]. unfold log. cbn. destruct (g id) as [[t|t]|]; [done| |done]. by destruct (Hg t).
  - intros i t Ht A B HL i' t' Hi' Ht'. destruct B as [|y B' _] using rev_ind; [by apply elem_of_nil in Hi'|].
    rewrite app_comm_cons, app_assoc in HL. apply app_inj_tail in HL as [-> <-]. apply elem_of_app in Hi' as [Hi'|Hi'].
    + by eapply S4.
    + apply list_elem_of_singleton in Hi' as ->. by destruct (Hg t').
Qed.

(** It is accepted by the site. *)
Lemma server_ok_accept g P L par s s' id cmds t :
  server_ok g P L par s -> ttouches id s s' -> g id = None -> id ∉ L -> pieces_for P par id = Some cmds -> accepted s' id cmds t ->
  server_ok (upd g id (Some (Acc t))) P L par s'.
Proof.
  intros [S1 S2 S3 S4] Ht Hg Hid Hp Ha. pose proof (ttouches_spares _ _ _ Ht) as [K1 K2]. unfold upd. split.
  - auto.
  - intros i u Hu. case_decide as E; [subst i; injection Hu as <-; by exists cmds|]. destruct (S2 i u Hu) as (cm & Hp' & Ha'). exists cm. split; [done|]. by apply K2.
  - rewrite (log_ext g _ P); [by rewrite (ttouches_contents _ _ _ Ht)| |done]. intros i Hi. rewrite decide_False; [by left|]. by intros ->.
  - intros i u Hu A B HL i' t' Hi' Ht'. rewrite decide_False in Hu; [|intros ->; apply Hid; rewrite HL; set_solver].
    rewrite decide_False in Ht'; [|intros ->; apply Hid; rewrite HL; set_solver]. by eapply S4.
Qed.

(** It is aborted at the site. *)
Lemma server_ok_abort g P L par s s' id :
  server_ok g P L par s -> ttouches id s s' -> id ∉ L -> server_ok (upd g id None) P L par s'.
Proof.
  intros [S1 S2 S3 S4] Ht Hid. pose proof (ttouches_spares _ _ _ Ht) as [K1 K2]. unfold upd. split.
  - auto.
  - intros i u Hu. case_decide; [done|]. destruct (S2 i u Hu) as (cm & Hp' & Ha'). exists cm. split; [done|]. by apply K2.
  - rewrite (log_ext g _ P); [by rewrite (ttouches_contents _ _ _ Ht)| |done]. intros i Hi. rewrite decide_False; [by left|]. by intros ->.
  - intros i u Hu A B HL i' t' Hi' Ht'. case_decide; [done|]. case_decide; [done|]. by eapply S4.
Qed.

(** It is committed at the site. *)
Lemma server_ok_commit g P L par s s' id cmds t :
  server_ok g P L par s -> NoDup L -> id ∈ L -> g id = Some (Acc t) -> pieces_for P par id = Some cmds ->
  (accepted s id cmds t -> runs_to (contents (tp_rows s)) (cmds, t) (contents (tp_rows s')) /\ spares_others id s s') ->
  server_ok (upd g id (Some (Com t))) P L par s'.
Proof.
  intros [S1 S2 S3 S4] HN Hid Hg Hp Hrun. destruct (S2 id t Hg) as (cm & Hp' & Ha). assert (cm = cmds) as -> by congruence.
  destruct (Hrun Ha) as [Hr [K1 K2]]. unfold upd. split.
  - auto.
  - intros i u Hu. case_decide; [done|]. destruct (S2 i u Hu) as (cm & Hp'' & Ha'). exists cm. split; [done|]. by apply K2.
  - apply list_elem_of_split in Hid as (A & B & HL). pose proof HN as HN'. rewrite HL in HN'. apply NoDup_app in HN' as (_ & HA & HB). apply NoDup_cons in HB as [HB _].
    assert (id ∉ A) as HnA by (intros Hi; apply (HA id Hi); by left).
    assert (forall l, id ∉ l -> log (fun i => if decide (i = id) then Some (Com t) else g i) P par l = log g P par l) as Hlog.
    { intros l Hl. apply log_ext; [|done]. intros i Hi. rewrite decide_False; [by left|]. by intros ->. }
    rewrite HL in S3 |- *. change (id :: B) with ([id] ++ B) in *. rewrite !log_app in *. rewrite (Hlog A), (Hlog B) by done.
    assert (log (fun i => if decide (i = id) then Some (Com t) else g i) P par [id] = [(cmds, t)]) as -> by (unfold log; cbn; rewrite decide_True by done; by rewrite Hp).
    assert (log g P par [id] = []) as E by (unfold log; cbn; by rewrite Hg). rewrite E in S3.
    eapply replay_insert; [exact S3|exact Hr|]. apply Forall_forall. intros [cm t'] Hin. unfold log in Hin. apply list_elem_of_omap in Hin as (i & Hi & Ei).
    destruct (g i) as [[u|u]|] eqn:Egi; [done| |done]. destruct (pieces_for P par i); [|done]. injection Ei as <- <-. cbn. by eapply S4.
  - intros i u Hu A B HL i' t' Hi' Ht'. destruct (decide (i = id)) as [|E1]; [done|]. destruct (decide (i' = id)) as [->|E2]; [|by eapply S4]. injection Ht' as <-.
    destruct (S2 i u Hu) as (cm & Hp'' & Ha'). split.
    + eapply accepted_apart; [done|exact Ha'|exact Ha|congruence].
    + eapply accepted_apart; [done|exact Ha|exact Ha'|congruence].
Qed.
End server.
