(* ===== verification/TapirSafe.v ===== *)
(** * TAPIR: the steps of the system keep the invariant *)
From stdpp Require Import base tactics numbers list sorting gmap sets.
From S2P Require Import Prelude OMap Command Config MemRow Occ OccLock Chopper ChrCoord Tapir TapirCoord TapirSystem TapirEval TapirSteps TapirInv.

(** ** Requests of one connection *)

(** The transaction that a request needs not to have been accepted, or to be accepted,
    and whether it is the last such request. *)
Definition subject (r : TapirReq) : option Z :=
  match r with
  | RqDispatch _ cmds => root_id_ <$> head cmds
  | RqFastAccept _ _ id _ => Some id
  | RqDecide id d => if d =? COMMIT then Some id else None
  end.
Definition final (r : TapirReq) : bool :=
  match r with RqDispatch _ _ => false | RqFastAccept _ _ _ _ => true | RqDecide _ d => d =? COMMIT end.

Fixpoint in_turn (q : list TapirReq) : Prop :=
  match q with
  | [] => True
  | r :: q => (final r = true -> Forall (fun r' => subject r' ≠ subject r) q) /\ in_turn q
  end.

Lemma in_turn_snoc q r : in_turn q -> (forall r0, r0 ∈ q -> final r0 = true -> subject r ≠ subject r0) -> in_turn (q ++ [r]).
Proof.
  induction q as [|r0 q IH]; cbn [in_turn app]; [by repeat constructor|]. intros [H1 H2] Hn. split.
  - intros Hf. apply Forall_app. split; [auto|]. constructor; [|constructor]. apply Hn; [by left|done].
  - apply IH; [done|]. intros r1 Hr1. apply Hn. by right.
Qed.

(** ** Counting *)

Definition is_ok (coo p par : Z) (r : TapirRsp) : bool :=
  match r with
  | RsFastAccept coo' p' par' res => (coo' =? coo) && (p' =? p) && (par' =? par) && (res =? SUCCESS)
  | RsDispatch _ _ _ => false
  end.
(** The acceptances that are under way to a coordinator. *)
Definition flying (coo p par : Z) (rs : list TapirRsp) : Z := Z.of_nat (length (filter (fun r => is_ok coo p par r = true) rs)).

Lemma flying_nonneg coo p par rs : 0 <= flying coo p par rs.
Proof. unfold flying. lia. Qed.
Lemma flying_app coo p par rs rs' : flying coo p par (rs ++ rs') = flying coo p par rs + flying coo p par rs'.
Proof. unfold flying. rewrite filter_app, length_app. lia. Qed.
Lemma flying_one coo p par r : flying coo p par [r] = if is_ok coo p par r then 1 else 0.
Proof. unfold flying. rewrite filter_cons, filter_nil. destruct (is_ok coo p par r); [by rewrite decide_True|by rewrite decide_False]. Qed.
Lemma flying_delete coo p par rs k r :
  rs !! k = Some r -> flying coo p par rs = flying coo p par (delete k rs) + if is_ok coo p par r then 1 else 0.
Proof.
  intros Hk. rewrite <- flying_one, <- flying_app. unfold flying. f_equal. apply Permutation_length. apply filter_Permutation.
  rewrite (delete_Permutation rs k r Hk) at 1. by rewrite Permutation_cons_append.
Qed.
Lemma flying_none coo p par rs : (forall r, r ∈ rs -> is_ok coo p par r = false) -> flying coo p par rs = 0.
Proof.
  intros Hn. unfold flying. induction rs as [|r rs IH]; [done|]. rewrite filter_cons_False; [apply IH; intros r' Hr'; apply Hn; by right|].
  by rewrite (Hn r) by left.
Qed.

Section safe.
Context `{TapirEnv} `{TapirRegistry} `{TapirWorkload} (Hlay : layout t_cfg).
Abbreviation Pieces := (gmap Z (omap Z (list SimpleCommand))).
Abbreviation Ghost := (Z -> Z -> option Status).

(** The replicas that have accepted. *)
Definition holders (G : Ghost) (par id : Z) : Z := Z.of_nat (length (filter (fun x => is_Some (G x id)) (replicas_of par))).

Lemma length_filter_mono {A} (P Q : A -> Prop) `{!forall x, Decision (P x), !forall x, Decision (Q x)} l :
  (forall x, x ∈ l -> P x -> Q x) -> (length (filter P l) <= length (filter Q l))%nat.
Proof.
  induction l as [|x l IH]; intros HPQ; [done|]. specialize (IH (fun y Hy => HPQ y (list_elem_of_further _ _ _ Hy))). rewrite !filter_cons.
  destruct (decide (P x)), (decide (Q x)) as [|Hq]; cbn; try lia. exfalso. apply Hq, HPQ; [left|done].
Qed.

Lemma holders_mono (G G' : Ghost) par id : (forall x, is_Some (G x id) -> is_Some (G' x id)) -> holders G par id <= holders G' par id.
Proof. intros Hg. unfold holders. apply inj_le. apply length_filter_mono. auto. Qed.

Lemma holders_full G par id : Z.of_nat (length (replicas_of par)) <= holders G par id -> forall x, x ∈ replicas_of par -> is_Some (G x id).
Proof.
  unfold holders. generalize (replicas_of par) as l. induction l as [|y l IH]; intros Hle x Hx; [by apply elem_of_nil in Hx|].
  rewrite filter_cons in Hle. pose proof (length_filter (fun x => is_Some (G x id)) l) as Hlen. case_decide as Hd; cbn [length] in Hle; [|lia].
  apply elem_of_cons in Hx as [->|Hx]; [done|]. apply IH; [lia|done].
Qed.

Definition updG (G : Ghost) (x id : Z) (st : option Status) : Ghost := fun y => if decide (y = x) then upd (G x) id st else G y.
Lemma updG_eq G x id st : updG G x id st x id = st.
Proof. unfold updG, upd. by rewrite !decide_True. Qed.
Lemma updG_ne G x id st y i : y ≠ x \/ i ≠ id -> updG G x id st y i = G y i.
Proof. intros Hne. unfold updG, upd. destruct (decide (y = x)) as [->|]; [|done]. rewrite decide_False; [done|naive_solver]. Qed.

Lemma holders_accept G par x id t : x ∈ replicas_of par -> G x id = None -> holders (updG G x id (Some t)) par id = holders G par id + 1.
Proof.
  unfold holders. pose proof (replicas_NoDup Hlay par) as Hn. revert Hn. generalize (replicas_of par) as l. intros l Hn Hx Hg.
  enough (length (filter (fun y => is_Some (updG G x id (Some t) y id)) l) = S (length (filter (fun y => is_Some (G y id)) l))) as -> by lia.
  induction Hn as [|y l Hy Hn IH]; [by apply elem_of_nil in Hx|]. rewrite !filter_cons. apply elem_of_cons in Hx as [->|Hx].
  - rewrite updG_eq, Hg. rewrite decide_True by (by eexists). rewrite decide_False by (by intros [? ?]). cbn. f_equal. apply Nat.le_antisymm; apply length_filter_mono; intros z Hz; (rewrite updG_ne; [done|]); left; by intros ->.
  - assert (y ≠ x) as Hne by (by intros ->). rewrite updG_ne by (by left). destruct (decide (is_Some (G y id))); cbn; by rewrite IH.
Qed.

(** ** The invariant *)

(** A transaction is the current one of its coordinator, in phase [k]. *)
Definition live (C : gmap Z TapirCoord) (id k : Z) : Prop := exists c, C !! (id / 2 ^ 32) = Some c /\ cid c = id /\ ph c mod 4 = k.
(** Its identifier has been given out. *)
Definition born (C : gmap Z TapirCoord) (id : Z) : Prop := exists c, C !! (id / 2 ^ 32) = Some c /\ id < cnext c.

Record coord_ok (P : Pieces) (L : list Z) (G : Ghost) (rs : list TapirRsp) (coo : Z) (c : TapirCoord) : Prop := {
  co_id : 0 <= coo /\ coo * 2 ^ 32 < cnext c;
  co_ph : 0 <= ph c /\ ph c mod 4 ≠ 3;
  co_cur : ph c mod 4 ≠ 0 -> cid c / 2 ^ 32 = coo /\ cid c < cnext c;
  co_sorted : sorted_set (cpars c);
  co_low par : - 2 ^ 31 <= coks c par;
  co_pars : ph c mod 4 = 2 -> cpars c ≠ [] /\ forall par, is_Some (pieces_for P par (cid c)) <-> par ∈ cpars c;
  co_count : ph c mod 4 = 2 -> forall par, par ∈ cpars c -> coks c par + flying coo (ph c) par rs <= holders G par (cid c);
  co_ended id : (id, true) ∈ cended c -> id ∈ L;
}.

Record ids_ok (C : gmap Z TapirCoord) (P : Pieces) (L : list Z) : Prop := {
  id_pieces id : is_Some (P !! id) -> born C id /\ ~ live C id 1;
  id_nodup : NoDup L;
  id_decided id : id ∈ L -> is_Some (P !! id) /\ ~ live C id 2;
}.

Record ghost_ok (P : Pieces) (L : list Z) (G : Ghost) (chan : Z -> Z -> list TapirReq) : Prop := {
  gh_pieces x id : is_Some (G x id) -> exists par, x ∈ replicas_of par /\ is_Some (pieces_for P par id);
  gh_com x id t : G x id = Some (Com t) -> id ∈ L;
  gh_dec id par x : id ∈ L -> is_Some (pieces_for P par id) -> x ∈ replicas_of par ->
    (exists t, G x id = Some (Com t)) \/ ((exists t, G x id = Some (Acc t)) /\ RqDecide id COMMIT ∈ chan (id / 2 ^ 32) x);
}.

Definition req_ok (C : gmap Z TapirCoord) (P : Pieces) (L : list Z) (G : Ghost) (coo x : Z) (r : TapirReq) : Prop :=
  match r with
  | RqDispatch p cmds => p mod 4 = 1 /\ exists c, head cmds = Some c /\ root_id_ c / 2 ^ 32 = coo /\ born C (root_id_ c) /\ G x (root_id_ c) = None
  | RqFastAccept p par id cmds =>
    p mod 4 = 2 /\ id / 2 ^ 32 = coo /\ x ∈ replicas_of par /\ pieces_for P par id = Some cmds /\ G x id = None /\
    exists c, C !! coo = Some c /\ p <= ph c /\ (p = ph c -> cid c = id)
  | RqDecide id d =>
    id / 2 ^ 32 = coo /\
    if d =? COMMIT then id ∈ L /\ exists t, G x id = Some (Acc t)
    else id ∉ L /\ born C id /\ ~ live C id 1 /\ ~ live C id 2
  end.

Definition rep_ok (C : gmap Z TapirCoord) (r : TapirRsp) : Prop :=
  match r with
  | RsDispatch coo p out => p mod 4 = 1
  | RsFastAccept coo p par res => p mod 4 = 2 /\ exists c, C !! coo = Some c /\ p <= ph c
  end.

Record Inv (w : Tapir) (G : Ghost) : Prop := {
  iv_coords coo c : ty_coords w !! coo = Some c -> coord_ok (ty_pieces w) (ty_decided w) G (ty_replies w) coo c;
  iv_ids : ids_ok (ty_coords w) (ty_pieces w) (ty_decided w);
  iv_ghost : ghost_ok (ty_pieces w) (ty_decided w) G (chan_of w);
  iv_reqs coo x r : r ∈ chan_of w coo x -> req_ok (ty_coords w) (ty_pieces w) (ty_decided w) G coo x r;
  iv_turn coo x : in_turn (chan_of w coo x);
  iv_reps r : r ∈ ty_replies w -> rep_ok (ty_coords w) r;
  iv_servers par x : x ∈ replicas_of par -> exists s, ty_servers w !! x = Some s /\ server_ok (G x) (ty_pieces w) (ty_decided w) par s;
}.
End safe.

(** ** TAPIR: the steps of a coordinator keep the invariant *)

Section moves.
Context `{TapirEnv} `{TapirRegistry} `{TapirWorkload} (Hlay : layout t_cfg).
Abbreviation Pieces := (gmap Z (omap Z (list SimpleCommand))).
Abbreviation Ghost := (Z -> Z -> option Status).

(** ** Coordinators that go on *)

Record advances (C C' : gmap Z TapirCoord) : Prop := {
  adv_born id : born C id -> born C' id;
  adv_live id k : k = 1 \/ k = 2 -> live C' id k -> live C id 1 \/ live C id k \/ ~ born C id;
  adv_ph coo c : C !! coo = Some c -> exists c', C' !! coo = Some c' /\ ph c <= ph c' /\ (ph c' = ph c -> ph c mod 4 = 2 -> cid c' = cid c);
}.

Lemma moves_advances C coo c c' :
  C !! coo = Some c -> cnext c <= cnext c' -> ph c <= ph c' -> (ph c' = ph c -> ph c mod 4 = 2 -> cid c' = cid c) ->
  (forall k, k = 1 \/ k = 2 -> ph c' mod 4 = k -> (cid c' = cid c /\ (ph c mod 4 = 1 \/ ph c mod 4 = k)) \/ cnext c <= cid c') ->
  advances C (<[coo := c']> C).
Proof.
  intros Hc Hn Hp Hi Hl. split.
  - intros id (c0 & E & Hlt). destruct (decide (id / 2 ^ 32 = coo)) as [<-|Hne].
    + exists c'. rewrite lookup_insert_eq. split; [done|]. assert (c0 = c) as -> by congruence. lia.
    + exists c0. by rewrite lookup_insert_ne.
  - intros id k Hk (c0 & E & Hid & Hm). destruct (decide (id / 2 ^ 32 = coo)) as [<-|Hne].
    + rewrite lookup_insert_eq in E. injection E as <-. destruct (Hl k Hk Hm) as [[Ec Hph]|Hfresh].
      * destruct Hph as [Hph|Hph]; [left|right; left]; exists c; (split; [done|split; [congruence|done]]).
      * right. right. intros (c0 & E & Hlt). assert (c0 = c) as -> by congruence. lia.
    + right. left. exists c0. by rewrite lookup_insert_ne in E.
  - intros coo0 c0 E. destruct (decide (coo0 = coo)) as [->|Hne].
    + exists c'. rewrite lookup_insert_eq. assert (c0 = c) as -> by congruence. done.
    + exists c0. rewrite lookup_insert_ne by done. split; [done|]. split; [lia|done].
Qed.

Lemma ids_advance C C' P L : advances C C' -> ids_ok C P L -> ids_ok C' P L.
Proof.
  intros [A1 A2 A3] [I1 I2 I3]. split; [|done|].
  - intros id Hp. destruct (I1 id Hp) as [Hb Hl]. split; [auto|]. intros Hl'. destruct (A2 id 1) as [?|[?|?]]; auto.
  - intros id Hid. destruct (I3 id Hid) as [Hp Hl]. split; [done|]. destruct (I1 id Hp) as [Hb Hl1]. intros Hl'. destruct (A2 id 2) as [?|[?|?]]; auto.
Qed.

Lemma req_advance C C' P P' L L' (G : Ghost) coo x r :
  advances C C' -> (forall par id cmds, pieces_for P par id = Some cmds -> pieces_for P' par id = Some cmds) ->
  (forall id, id ∈ L -> id ∈ L') -> (forall id, id ∈ L' -> id ∈ L \/ live C id 2) ->
  req_ok C P L G coo x r -> req_ok C' P' L' G coo x r.
Proof.
  intros [A1 A2 A3] HP HL HL'. destruct r as [p cmds|p par id cmds|id d]; cbn [req_ok].
  - intros (Hp & c & Hh & Hr & Hb & Hg). split; [done|]. exists c. auto.
  - intros (Hp & Hr & Hx & Hpc & Hg & c & Hc & Hle & Hi). split_and!; [done|done|done|auto|done|].
    destruct (A3 coo c Hc) as (c' & Hc' & Hph & Hid). exists c'. split; [done|]. split; [lia|]. intros E. rewrite <- (Hi ltac:(lia)). apply Hid; [lia|].
    by replace (ph c) with p by lia.
  - intros [Hr Hd]. split; [done|]. destruct (d =? COMMIT).
    + destruct Hd as [Hd Ht]. auto.
    + destruct Hd as (Hd & Hb & Hl1 & Hl2). split_and!; [|auto|..].
      * intros [?|?]%HL'; auto.
      * intros Hl. destruct (A2 id 1) as [?|[?|?]]; auto.
      * intros Hl. destruct (A2 id 2) as [?|[?|?]]; auto.
Qed.

Lemma rep_advance C C' r : advances C C' -> rep_ok C r -> rep_ok C' r.
Proof.
  intros [A1 A2 A3]. destruct r as [coo p out|coo p par res]; [done|]. intros (Hp & c & Hc & Hle). split; [done|].
  destruct (A3 coo c Hc) as (c' & Hc' & Hph & _). exists c'. split; [done|lia].
Qed.

(** Nothing but the coordinator changes. *)
Lemma inv_move w G coo c c' :
  Inv w G -> ty_coords w !! coo = Some c -> advances (ty_coords w) (<[coo := c']> (ty_coords w)) ->
  coord_ok (ty_pieces w) (ty_decided w) G (ty_replies w) coo c' -> Inv (w <| ty_coords ::= <[coo := c']> |>) G.
Proof.
  intros [I1 I2 I3 I4 I5 I6 I7] Hc Hadv Hok. split; cbn [ty_coords ty_pieces ty_decided ty_replies ty_servers]; try done.
  - intros coo0 c0. cbn. destruct (decide (coo0 = coo)) as [->|Hne]; [rewrite lookup_insert_eq; by intros [= <-]|rewrite lookup_insert_ne by done; apply I1].
  - by eapply ids_advance.
  - intros coo0 x r Hr. eapply req_advance; [exact Hadv|done|done|by left|]. by apply I4.
  - intros r Hr. eapply rep_advance; [exact Hadv|]. by apply I6.
Qed.

(** ** Steps without messages *)

Lemma coord_ok_kept P L G rs coo c c' : coord_ok P L G rs coo c -> kept c c' -> cpars c' = cpars c -> coord_ok P L G rs coo c'.
Proof.
  intros [] [K1 K2 K3 K4 K5] Hp. split; rewrite ?K1, ?K2, ?K3, ?K4, ?Hp; try done.
  - intros par. by rewrite K5.
  - intros Hm par Hpar. rewrite K5. auto.
Qed.

Lemma kept_advances C coo c c' : C !! coo = Some c -> kept c c' -> advances C (<[coo := c']> C).
Proof.
  intros Hc [K1 K2 K3 K4 K5]. apply (moves_advances _ _ c); [done|lia|lia|by rewrite K2|]. intros k Hk Hm. left. rewrite K1 in Hm. auto.
Qed.

Lemma inv_quiet w G coo c c' :
  Inv w G -> ty_coords w !! coo = Some c -> kept c c' -> cpars c' = cpars c -> Inv (w <| ty_coords ::= <[coo := c']> |>) G.
Proof.
  intros HI Hc Hk Hp. apply (inv_move _ _ _ c); [done|done|by eapply kept_advances|]. eapply coord_ok_kept; [by apply (iv_coords _ _ HI)|done|done].
Qed.

Lemma inv_begin w G coo c c' :
  Inv w G -> ty_coords w !! coo = Some c -> ph c mod 4 = 0 -> ph c' = ph c + 1 -> cnext c <= cid c' < cnext c' -> cended c' = cended c ->
  sorted_set (cpars c') -> (forall p, coks c' p = 0) -> cnext c' <= (coo + 1) * 2 ^ 32 ->
  Inv (w <| ty_coords ::= <[coo := c']> |>) G.
Proof.
  intros HI Hc Hm Hph Hid He Hs Ho Hn. pose proof (iv_coords _ _ HI _ _ Hc) as [O1 O2 O3 O4 O5 O6 O7 O8].
  assert (ph c' mod 4 = 1) as Hm' by (rewrite Hph, Z.add_mod, Hm by lia; done).
  apply (inv_move _ _ _ c); [done|done| |].
  - apply (moves_advances _ _ c); [done|lia|lia|lia|]. intros k Hk Hk'. right. lia.
  - split; rewrite ?Hm', ?He; try done.
    + split; [apply O1|]. lia.
    + split; [lia|done].
    + intros _. split; [|lia]. symmetry. apply (Z.div_unique_pos (cid c') (2 ^ 32) coo (cid c' - coo * 2 ^ 32)); lia.
    + intros par. rewrite Ho. done.
Qed.

Lemma inv_draw w G coo c c' :
  Inv w G -> ty_coords w !! coo = Some c -> ph c mod 4 = 0 -> ph c' = ph c -> cnext c <= cid c' < cnext c' -> cended c' = cended c ++ [(cid c', false)] ->
  cpars c' = cpars c -> (forall p, coks c' p = coks c p) ->
  Inv (w <| ty_coords ::= <[coo := c']> |>) G.
Proof.
  intros HI Hc Hm Hph Hid He Hp Ho. pose proof (iv_coords _ _ HI _ _ Hc) as [O1 O2 O3 O4 O5 O6 O7 O8].
  apply (inv_move _ _ _ c); [done|done| |].
  - apply (moves_advances _ _ c); [done|lia|lia|lia|]. intros k Hk Hk'. right. lia.
  - split; rewrite ?Hph, ?Hm, ?He, ?Hp; try done.
    + split; [apply O1|]. lia.
    + split; [apply O2|done].
    + intros par. by rewrite Ho.
    + intros id [?|[= _]%list_elem_of_singleton]%elem_of_app. auto.
Qed.

(** ** Dispatch *)

Lemma inv_dispatch_coord w G coo c c' :
  Inv w G -> ty_coords w !! coo = Some c -> kept c c' -> ph c mod 4 = 1 -> sorted_set (cpars c') -> Inv (w <| ty_coords ::= <[coo := c']> |>) G.
Proof.
  intros HI Hc Hk Hm Hs. apply (inv_move _ _ _ c); [done|done|by eapply kept_advances|].
  destruct Hk as [K1 K2 K3 K4 K5], (iv_coords _ _ HI _ _ Hc) as [O1 O2 O3 O4 O5 O6 O7 O8]. split; rewrite ?K1, ?K2, ?K3, ?K4; try done.
  - intros par. by rewrite K5.
  - intros E. rewrite Hm in E. done.
  - intros E. rewrite Hm in E. done.
Qed.

(** One dispatch is sent. *)
Lemma inv_post_dispatch w G coo c m w' :
  Inv w G -> ty_coords w !! coo = Some c -> ph c mod 4 = 1 -> is_dispatch (ph c) (cid c) m -> post coo m w = Some w' ->
  Inv w' G /\ ty_coords w' = ty_coords w.
Proof.
  intros [I1 I2 I3 I4 I5 I6 I7] Hc Hm (par & cmds & c0 & -> & Hh & Hr) Hpost.
  pose proof (I1 _ _ Hc) as [O1 O2 O3 O4 O5 O6 O7 O8].
  apply (post_done Hlay) in Hpost as ((A1 & A2 & A3) & (A4 & A5) & A6). split; [|done].
  assert (cid c / 2 ^ 32 = coo /\ cid c < cnext c) as [Hown Hlt] by (apply O3; by rewrite Hm).
  assert (live (ty_coords w) (cid c) 1) as Hlive by (exists c; by rewrite Hown).
  assert (~ is_Some (ty_pieces w !! cid c)) as HnP by (intros HP; by apply (id_pieces _ _ _ I2) in HP as [_ ?]).
  assert (forall x, G x (cid c) = None) as HnG.
  { intros x. destruct (G x (cid c)) eqn:E; [|done]. exfalso. destruct (gh_pieces _ _ _ _ I3 x (cid c)) as (par' & _ & Hp'); [by eexists|].
    apply HnP. unfold pieces_for in Hp'. destruct (ty_pieces w !! cid c); [by eexists|]. by destruct Hp'. }
  assert (forall coo0 x r, r ∈ chan_of w' coo0 x -> r ∈ chan_of w coo0 x \/ (coo0 = coo /\ r = RqDispatch (ph c) cmds)) as Hchan.
  { intros coo0 x r. rewrite A6. intros [?|Hin]%elem_of_app; [by left|]. right. case_decide; [|by apply elem_of_nil in Hin]. cbn [sent_to] in Hin.
    case_decide; [|by apply elem_of_nil in Hin]. by apply list_elem_of_singleton in Hin. }
  split; rewrite ?A1, ?A2, ?A3, ?A4, ?A5; try done.
  - destruct I3 as [G1 G2 G3]. split; [done|done|]. intros id par' x Hid Hp Hx. destruct (G3 id par' x Hid Hp Hx) as [?|[? Hin]]; [by left|].
    right. split; [done|]. rewrite A6. apply elem_of_app. by left.
  - intros coo0 x r [Hin|[-> ->]]%Hchan; [by apply I4|]. split; [done|]. exists c0. rewrite Hr. split_and!; [done|done|by exists c; rewrite Hown|done].
  - intros coo0 x. rewrite A6. case_decide as E; [subst coo0|rewrite app_nil_r; apply I5]. cbn [sent_to]. case_decide; [|rewrite app_nil_r; apply I5].
    apply in_turn_snoc; [apply I5|]. intros r0 Hr0 Hf Hs. cbn [subject] in Hs. rewrite Hh in Hs. cbn in Hs. rewrite Hr in Hs.
    pose proof (I4 _ _ _ Hr0) as Hok. destruct r0 as [p' cmds'|p' par' id' cmds'|id' d']; [done|..]; cbn [req_ok subject final] in *.
    + injection Hs as <-. destruct Hok as (_ & _ & _ & Hpc & _). apply HnP. unfold pieces_for in Hpc. destruct (ty_pieces w !! cid c); [by eexists|done].
    + destruct (d' =? COMMIT); [|done]. injection Hs as <-. destruct Hok as (_ & Hid & _). apply HnP. by apply (id_decided _ _ _ I2).
Qed.

Lemma inv_post_dispatches w G coo c ms w' :
  Inv w G -> ty_coords w !! coo = Some c -> ph c mod 4 = 1 -> Forall (is_dispatch (ph c) (cid c)) ms -> post_all coo ms w = Some w' -> Inv w' G.
Proof.
  intros HI Hc Hm Hf. revert w HI Hc. induction Hf as [|m ms Hd Hf IH]; intros w HI Hc Hpost; cbn [post_all] in Hpost; [by injection Hpost as <-|].
  destruct (post coo m w) as [w1|] eqn:E; [|done]. destruct (inv_post_dispatch _ _ _ _ _ _ HI Hc Hm Hd E) as [HI1 Ec]. apply (IH w1); [done|by rewrite Ec|done].
Qed.
End moves.
