(* ===== verification/TapirDecide.v ===== *)
(** * TAPIR: asking for acceptance and deciding keep the invariant *)
From stdpp Require Import base tactics numbers list sorting gmap sets.
From S2P Require Import Prelude OMap Command Config MemRow Occ OccLock Chopper ChrCoord Tapir TapirCoord TapirSystem TapirEval TapirSteps TapirInv TapirSafe.

Section decide.
Context `{TapirEnv} `{TapirRegistry} `{TapirWorkload} (Hlay : layout t_cfg).
Abbreviation Ghost := (Z -> Z -> option Status).

Lemma pieces_for_some P par id : is_Some (pieces_for P par id) -> is_Some (P !! id).
Proof. unfold pieces_for. destruct (P !! id); [by eexists|by intros [? ?]]. Qed.

(** What is known of the current transaction of a coordinator. *)
Lemma current_owner w G coo c : Inv w G -> ty_coords w !! coo = Some c -> ph c mod 4 ≠ 0 -> cid c / 2 ^ 32 = coo /\ cid c < cnext c.
Proof. intros HI Hc. by destruct (iv_coords _ _ HI _ _ Hc). Qed.
Lemma current_live w G coo c k : Inv w G -> ty_coords w !! coo = Some c -> ph c mod 4 = k -> k ≠ 0 -> live (ty_coords w) (cid c) k.
Proof. intros HI Hc Hk Hne. destruct (current_owner _ _ _ _ HI Hc) as [E _]; [by rewrite Hk|]. exists c. by rewrite E. Qed.

Lemma dispatching_fresh w G coo c :
  Inv w G -> ty_coords w !! coo = Some c -> ph c mod 4 = 1 ->
  ty_pieces w !! cid c = None /\ cid c ∉ ty_decided w /\ forall x, G x (cid c) = None.
Proof.
  intros HI Hc Hm. pose proof (current_live _ _ _ _ 1 HI Hc Hm ltac:(done)) as Hl. destruct HI as [I1 I2 I3 I4 I5 I6 I7].
  assert (~ is_Some (ty_pieces w !! cid c)) as HnP by (intros HP; by apply (id_pieces _ _ _ I2) in HP as [_ ?]).
  split_and!; [by apply eq_None_not_Some|intros Hin; by apply (id_decided _ _ _ I2) in Hin as [? _]|].
  intros x. apply eq_None_not_Some. intros Hg. apply (gh_pieces _ _ _ _ I3) in Hg as (par & _ & Hp%pieces_for_some). done.
Qed.

(** A request that comes last because the transaction is already final. *)
Lemma final_before w G coo x r0 id :
  Inv w G -> r0 ∈ chan_of w coo x -> final r0 = true -> subject r0 = Some id ->
  (is_Some (ty_pieces w !! id) /\ G x id = None) \/ id ∈ ty_decided w.
Proof.
  intros HI Hr Hf Hs. pose proof (iv_reqs _ _ HI _ _ _ Hr) as Hok. destruct r0 as [p' cmds'|p' par' id' cmds'|id' d']; [done|..]; cbn [req_ok subject final] in *.
  - injection Hs as ->. destruct Hok as (_ & _ & _ & Hpc & Hg & _). left. split; [|done]. eapply pieces_for_some. by rewrite Hpc.
  - destruct (d' =? COMMIT); [|done]. injection Hs as ->. right. by destruct Hok as (_ & ? & _).
Qed.

Lemma coord_ok_pieces P P' L G rs coo c :
  coord_ok P L G rs coo c -> (ph c mod 4 = 2 -> forall par, pieces_for P' par (cid c) = pieces_for P par (cid c)) -> coord_ok P' L G rs coo c.
Proof.
  intros [O1 O2 O3 O4 O5 O6 O7 O8] HP. split; try done. intros Hm. destruct (O6 Hm) as [Hne Hiff]. split; [done|]. intros par. by rewrite HP.
Qed.

Lemma inv_accept w G coo c c' cmds w' :
  Inv w G -> ty_coords w !! coo = Some c ->
  ph c mod 4 = 1 -> ph c' = ph c + 1 -> cid c' = cid c -> cnext c' = cnext c -> cended c' = cended c -> cpars c' = cpars c ->
  cpars c ≠ [] -> (forall p, coks c' p = 0 \/ coks c' p = coks c p) -> (forall p, p ∈ cpars c -> coks c' p = 0) ->
  post_all coo ((fun par => BroadcastFastAccept par (ph c + 1) (cid c) (cmds par)) <$> cpars c) (w <| ty_coords ::= <[coo := c']> |>) = Some w' ->
  Inv w' G.
Proof.
  intros HI Hc Hm Hph Hid Hn He Hp Hne Ho1 Ho2 Hpost. set (id := cid c) in *.
  destruct (dispatching_fresh _ _ _ _ HI Hc Hm) as (HnP & HnL & HnG). fold id in HnP, HnL, HnG.
  destruct (current_owner _ _ _ _ HI Hc) as [Hown Hlt]; [by rewrite Hm|]. fold id in Hown, Hlt.
  pose proof (iv_coords _ _ HI _ _ Hc) as [O1 O2 O3 O4 O5 O6 O7 O8].
  assert (ph c' mod 4 = 2) as Hm' by (rewrite Hph, Z.add_mod, Hm by lia; done).
  apply (post_accepts Hlay) in Hpost as ((A1 & A2 & A3) & A4 & A5 & A6 & A7 & A8); [|by apply sorted_NoDup].
  cbn [ty_coords ty_pieces ty_decided ty_replies ty_servers set_field] in A1, A2, A3, A4, A5, A6.
  change (forall coo' x, exists l, chan_of w' coo' x = chan_of w coo' x ++ l /\ ((l = [] /\ (coo' = coo -> forall par, par ∈ cpars c -> x ∉ replicas_of par)) \/
    exists par, coo' = coo /\ par ∈ cpars c /\ x ∈ replicas_of par /\ l = [RqFastAccept (ph c + 1) par id (cmds par)])) in A8.
  specialize (A7 Hne).
  assert (forall i par, i ≠ id -> pieces_for (ty_pieces w') par i = pieces_for (ty_pieces w) par i) as HPne by (intros i par Hi; rewrite A5, decide_False; [done|naive_solver]).
  assert (forall par i cm, pieces_for (ty_pieces w) par i = Some cm -> pieces_for (ty_pieces w') par i = Some cm) as HPext.
  { intros par i cm E. rewrite HPne; [done|]. intros ->. unfold pieces_for in E. by rewrite HnP in E. }
  assert (advances (ty_coords w) (<[coo := c']> (ty_coords w))) as Hadv.
  { apply (moves_advances _ _ c); [done|lia|lia|lia|]. intros k Hk Hk'. left. split; [done|by left]. }
  destruct HI as [I1 I2 I3 I4 I5 I6 I7]. split; rewrite ?A1, ?A2, ?A3, ?A4.
  - intros coo0 c0. destruct (decide (coo0 = coo)) as [->|Hcc].
    + rewrite lookup_insert_eq. intros [= <-]. split; rewrite ?Hm', ?He, ?Hp; try done.
      * rewrite Hn. done.
      * split; [lia|done].
      * intros _. by rewrite Hid, Hn.
      * intros par. destruct (Ho1 par) as [-> | ->]; [lia|done].
      * intros _. split; [done|]. intros par. rewrite Hid, A5. destruct (decide (id = id /\ par ∈ cpars c)) as [[_ Hin]|Hin].
        -- split; [done|by eexists].
        -- split; [|naive_solver]. intros Hs%pieces_for_some. rewrite HnP in Hs. by destruct Hs.
      * intros _ par Hin. rewrite Ho2 by done. rewrite flying_none; [unfold holders; lia|]. intros r Hr. pose proof (I6 _ Hr) as Hok.
        destruct r as [|coo1 p1 par1 res1]; [done|]. cbn [is_ok rep_ok] in *. destruct Hok as (_ & c1 & Hc1 & Hle).
        destruct (Z.eqb_spec coo1 coo) as [->|]; [|done]. destruct (Z.eqb_spec p1 (ph c')) as [->|]; [|done]. assert (c1 = c) as -> by congruence. lia.
    + rewrite lookup_insert_ne by done. intros Hc0. eapply coord_ok_pieces; [by apply I1|]. intros Hm0 par. apply HPne. intros E.
      destruct (co_cur _ _ _ _ _ _ (I1 _ _ Hc0)) as [Hown0 _]; [by rewrite Hm0|]. apply Hcc. by rewrite <- Hown0, E.
  - pose proof (ids_advance _ _ _ _ Hadv I2) as [J1 J2 J3]. split; [|done|].
    + intros i Hi. destruct (decide (i = id)) as [->|Hx]; [|apply J1; by rewrite <- A6].
      split; [exists c'; rewrite Hown, lookup_insert_eq, Hn; done|]. intros (c0 & E & _ & E1). rewrite Hown, lookup_insert_eq in E. injection E as <-. by rewrite Hm' in E1.
    + intros i Hi. destruct (J3 i Hi) as [Hs Hl]. split; [|done]. rewrite A6; [done|]. intros ->. done.
  - destruct I3 as [G1 G2 G3]. split; [|done|].
    + intros x i Hg. destruct (G1 x i Hg) as (par & Hx & Hs). exists par. split; [done|]. destruct Hs as [cm Hs]. exists cm. by apply HPext.
    + intros i par x Hi Hs Hx. rewrite HPne in Hs by (intros ->; done). destruct (G3 i par x Hi Hs Hx) as [?|[? Hin]]; [by left|]. right. split; [done|].
      destruct (A8 (i / 2 ^ 32) x) as (l & -> & _). apply elem_of_app. by left.
  - intros coo0 x r Hr. destruct (A8 coo0 x) as (l & E & Hl). rewrite E in Hr. apply elem_of_app in Hr as [Hr|Hr].
    + eapply req_advance; [exact Hadv|exact HPext|done|by left|by apply I4].
    + destruct Hl as [[-> _]|(par & -> & Hpar & Hx & ->)]; [by apply elem_of_nil in Hr|]. apply list_elem_of_singleton in Hr as ->.
      split_and!; [rewrite <- Hph; done|done|done|by rewrite A5, decide_True|done|]. exists c'. rewrite lookup_insert_eq. split_and!; [done|lia|done].
  - intros coo0 x. destruct (A8 coo0 x) as (l & -> & Hl). destruct Hl as [[-> _]|(par & -> & Hpar & Hx & ->)]; [rewrite app_nil_r; apply I5|].
    apply in_turn_snoc; [apply I5|]. intros r0 Hr0 Hf Hs. cbn [subject] in Hs.
    destruct (final_before w G coo x r0 id) as [[Hs' _]|Hin]; [by split|done|done|done|rewrite HnP in Hs'; by destruct Hs'|done].
  - intros r Hr. eapply rep_advance; [exact Hadv|]. by apply I6.
  - intros par x Hx. destruct (I7 par x Hx) as (s & Hs & Hok). exists s. split; [done|]. eapply server_ok_pieces; [exact Hok|]. intros i Hi. apply HPne. intros ->.
    destruct Hi as [Hi|Hi]; [done|]. rewrite HnG in Hi. by destruct Hi.
Qed.

Lemma coord_ok_decided P L L' G rs coo c : coord_ok P L G rs coo c -> (forall id, id ∈ L -> id ∈ L') -> coord_ok P L' G rs coo c.
Proof. intros [O1 O2 O3 O4 O5 O6 O7 O8] HL. split; try done. auto. Qed.

(** All replicas have accepted the current transaction. *)
Lemma quorum_accepted w G coo c :
  Inv w G -> ty_coords w !! coo = Some c -> ph c mod 4 = 2 ->
  (forall p, p ∈ cpars c -> exists n, GetPartitionSize t_cfg p = Some n /\ n <= coks c p) ->
  cid c ∉ ty_decided w /\ forall par x, par ∈ cpars c -> x ∈ replicas_of par -> exists t, G x (cid c) = Some (Acc t).
Proof.
  intros HI Hc Hm Hq. pose proof (current_live _ _ _ _ 2 HI Hc Hm ltac:(done)) as Hl.
  assert (cid c ∉ ty_decided w) as Hn by (intros Hin; by apply (id_decided _ _ _ (iv_ids _ _ HI)) in Hin as [_ ?]). split; [done|].
  intros par x Hpar Hx. destruct (Hq par Hpar) as (n & En & Hle). apply replicas_size in En as ->.
  pose proof (co_count _ _ _ _ _ _ (iv_coords _ _ HI _ _ Hc) Hm par Hpar) as Hcount. pose proof (flying_nonneg coo (ph c) par (ty_replies w)).
  assert (Z.of_nat (length (replicas_of par)) <= holders G par (cid c)) as Hfull by lia.
  destruct (holders_full G par (cid c) Hfull x Hx) as [[t|t] E]; [by exists t|]. exfalso. apply Hn. by eapply (gh_com _ _ _ _ (iv_ghost _ _ HI)).
Qed.

Lemma inv_commit w G coo c c' w' :
  Inv w G -> ty_coords w !! coo = Some c ->
  ph c mod 4 = 2 -> ph c' = ph c + 2 -> cid c' = cid c -> cnext c' = cnext c -> cended c' = cended c ++ [(cid c, true)] -> cpars c' = cpars c ->
  (forall p, coks c' p = coks c p) -> (forall p, p ∈ cpars c -> exists n, GetPartitionSize t_cfg p = Some n /\ n <= coks c p) ->
  post_all coo ((fun par => BroadcastDecide par (cid c) COMMIT) <$> cpars c) (w <| ty_coords ::= <[coo := c']> |>) = Some w' ->
  Inv w' G.
Proof.
  intros HI Hc Hm Hph Hid Hn He Hp Ho Hq Hpost. set (id := cid c) in *.
  destruct (quorum_accepted _ _ _ _ HI Hc Hm Hq) as [HnL Hall]. fold id in HnL, Hall.
  destruct (current_owner _ _ _ _ HI Hc) as [Hown Hlt]; [by rewrite Hm|]. fold id in Hown, Hlt.
  pose proof (current_live _ _ _ _ 2 HI Hc Hm ltac:(done)) as Hlive. fold id in Hlive.
  pose proof (iv_coords _ _ HI _ _ Hc) as [O1 O2 O3 O4 O5 O6 O7 O8]. destruct (O6 Hm) as [Hne Hpars]. fold id in Hpars.
  assert (ph c' mod 4 = 0) as Hm' by (rewrite Hph, Z.add_mod, Hm by lia; done).
  apply (post_decides Hlay) in Hpost as ((A1 & A2 & A3) & A4 & A5 & A6); [|by apply sorted_NoDup].
  cbn [ty_coords ty_pieces ty_decided ty_replies ty_servers set_field] in A1, A2, A3, A4, A5.
  rewrite decide_True in A5 by done.
  change (forall coo' x, chan_of w' coo' x = chan_of w coo' x ++ (if decide (coo' = coo /\ Exists (fun par => x ∈ replicas_of par) (cpars c)) then [RqDecide id COMMIT] else [])) in A6.
  assert (advances (ty_coords w) (<[coo := c']> (ty_coords w))) as Hadv.
  { apply (moves_advances _ _ c); [done|lia|lia|lia|]. intros k Hk Hk'. lia. }
  assert (forall x, Exists (fun par => x ∈ replicas_of par) (cpars c) -> exists t, G x id = Some (Acc t)) as Hacc.
  { intros x (par & Hpar & Hx)%Exists_exists. by eapply Hall. }
  assert (is_Some (ty_pieces w !! id)) as HP by (destruct (cpars c) as [|par l] eqn:El; [done|]; apply (pieces_for_some _ par), Hpars; by left).
  pose proof HI as [I1 I2 I3 I4 I5 I6 I7]. split; rewrite ?A1, ?A2, ?A3, ?A4, ?A5.
  - intros coo0 c0. destruct (decide (coo0 = coo)) as [->|Hcc].
    + rewrite lookup_insert_eq. intros [= <-]. split; rewrite ?Hm', ?He, ?Hp; try done.
      * rewrite Hn. done.
      * split; [lia|done].
      * intros par. by rewrite Ho.
      * intros i [Hi|[= ->]%list_elem_of_singleton]%elem_of_app; apply elem_of_app; [left; auto|right; by apply list_elem_of_singleton].
    + rewrite lookup_insert_ne by done. intros Hc0. eapply coord_ok_decided; [by apply I1|]. intros i Hi. apply elem_of_app. by left.
  - pose proof (ids_advance _ _ _ _ Hadv I2) as [J1 J2 J3]. split; [done| |].
    + apply NoDup_app. split_and!; [done| |apply NoDup_singleton]. by intros i Hi ->%list_elem_of_singleton.
    + intros i [Hi| ->%list_elem_of_singleton]%elem_of_app; [by apply J3|]. split; [done|]. intros (c0 & E & _ & E1).
      rewrite Hown, lookup_insert_eq in E. injection E as <-. by rewrite Hm' in E1.
  - destruct I3 as [G1 G2 G3]. split; [done|intros x i t Hg; apply elem_of_app; left; by eapply G2|].
    intros i par x [Hi| ->%list_elem_of_singleton]%elem_of_app Hs Hx.
    + destruct (G3 i par x Hi Hs Hx) as [?|[? Hin]]; [by left|]. right. split; [done|]. rewrite A6. apply elem_of_app. by left.
    + right. apply Hpars in Hs. split; [by eapply Hall|]. rewrite A6. apply elem_of_app. right. rewrite decide_True; [by apply list_elem_of_singleton|].
      split; [done|]. apply Exists_exists. by exists par.
  - intros coo0 x r Hr. rewrite A6 in Hr. apply elem_of_app in Hr as [Hr|Hr].
    + eapply req_advance; [exact Hadv|done| | |by apply I4].
      * intros i Hi. apply elem_of_app. by left.
      * intros i [Hi| ->%list_elem_of_singleton]%elem_of_app; [by left|by right].
    + case_decide as Hx; [|by apply elem_of_nil in Hr]. destruct Hx as [-> Hx]. apply list_elem_of_singleton in Hr as ->. split; [done|].
      split; [apply elem_of_app; right; by apply list_elem_of_singleton|by apply Hacc].
  - intros coo0 x. rewrite A6. case_decide as Hx; [|rewrite app_nil_r; apply I5]. destruct Hx as [-> Hx].
    apply in_turn_snoc; [apply I5|]. intros r0 Hr0 Hf Hs. cbn [subject] in Hs. change (COMMIT =? COMMIT) with true in Hs. cbn iota in Hs.
    destruct (final_before w G coo x r0 id) as [[_ Hg]|Hin]; [by split|done|done|done| |done]. destruct (Hacc x Hx) as (t & Ht). congruence.
  - intros r Hr. eapply rep_advance; [exact Hadv|]. by apply I6.
  - intros par x Hx. destruct (I7 par x Hx) as (s & Hs & Hok). exists s. split; [done|]. apply server_ok_decided; [done|done|].
    intros t Ht. apply HnL. by eapply (gh_com _ _ _ _ I3).
Qed.

Lemma inv_abort w G coo c c' w' :
  Inv w G -> ty_coords w !! coo = Some c ->
  ph c mod 4 = 2 -> ph c' = ph c + 2 -> cid c' = cid c -> cnext c' = cnext c -> cended c' = cended c -> cpars c' = cpars c ->
  (forall p, coks c' p = coks c p) ->
  post_all coo ((fun par => BroadcastDecide par (cid c) ABORT) <$> cpars c) (w <| ty_coords ::= <[coo := c']> |>) = Some w' ->
  Inv w' G.
Proof.
  intros HI Hc Hm Hph Hid Hn He Hp Ho Hpost. set (id := cid c) in *.
  destruct (current_owner _ _ _ _ HI Hc) as [Hown Hlt]; [by rewrite Hm|]. fold id in Hown, Hlt.
  pose proof (current_live _ _ _ _ 2 HI Hc Hm ltac:(done)) as Hlive. fold id in Hlive.
  pose proof (iv_coords _ _ HI _ _ Hc) as [O1 O2 O3 O4 O5 O6 O7 O8].
  assert (ph c' mod 4 = 0) as Hm' by (rewrite Hph, Z.add_mod, Hm by lia; done).
  apply (post_decides Hlay) in Hpost as ((A1 & A2 & A3) & A4 & A5 & A6); [|by apply sorted_NoDup].
  cbn [ty_coords ty_pieces ty_decided ty_replies ty_servers set_field] in A1, A2, A3, A4, A5.
  rewrite decide_False in A5 by (by intros [? _]).
  change (forall coo' x, chan_of w' coo' x = chan_of w coo' x ++ (if decide (coo' = coo /\ Exists (fun par => x ∈ replicas_of par) (cpars c)) then [RqDecide id ABORT] else [])) in A6.
  assert (advances (ty_coords w) (<[coo := c']> (ty_coords w))) as Hadv.
  { apply (moves_advances _ _ c); [done|lia|lia|lia|]. intros k Hk Hk'. lia. }
  assert (forall k, k = 1 \/ k = 2 -> ~ live (<[coo := c']> (ty_coords w)) id k) as Hdead.
  { intros k Hk (c0 & E & _ & E1). rewrite Hown, lookup_insert_eq in E. injection E as <-. lia. }
  destruct HI as [I1 I2 I3 I4 I5 I6 I7]. split; rewrite ?A1, ?A2, ?A3, ?A4, ?A5.
  - intros coo0 c0. destruct (decide (coo0 = coo)) as [->|Hcc].
    + rewrite lookup_insert_eq. intros [= <-]. split; rewrite ?Hm', ?He, ?Hp; try done.
      * rewrite Hn. done.
      * split; [lia|done].
      * intros par. by rewrite Ho.
    + rewrite lookup_insert_ne by done. apply I1.
  - by eapply ids_advance.
  - destruct I3 as [G1 G2 G3]. split; [done|done|]. intros i par x Hi Hs Hx. destruct (G3 i par x Hi Hs Hx) as [?|[? Hin]]; [by left|].
    right. split; [done|]. rewrite A6. apply elem_of_app. by left.
  - intros coo0 x r Hr. rewrite A6 in Hr. apply elem_of_app in Hr as [Hr|Hr].
    + eapply req_advance; [exact Hadv|done|done|by left|by apply I4].
    + case_decide as Hx; [|by apply elem_of_nil in Hr]. destruct Hx as [-> Hx]. apply list_elem_of_singleton in Hr as ->. split; [done|].
      change (ABORT =? COMMIT) with false. cbn iota. split_and!; [|exists c'; by rewrite Hown, lookup_insert_eq, Hn|by apply Hdead; left|by apply Hdead; right].
      intros Hin. by apply (id_decided _ _ _ I2) in Hin as [_ ?].
  - intros coo0 x. rewrite A6. case_decide as Hx; [|rewrite app_nil_r; apply I5]. apply in_turn_snoc; [apply I5|].
    intros r0 Hr0 Hf Hs. change (subject (RqDecide id ABORT)) with (@None Z) in Hs. destruct r0 as [p' cmds'|p' par' id' cmds'|id' d']; [done|done|].
    cbn [final subject] in *. by rewrite Hf in Hs.
  - intros r Hr. eapply rep_advance; [exact Hadv|]. by apply I6.
  - done.
Qed.

(** ** Handlers *)

Lemma post_rest coo m w w' (f : gmap Z TapirCoord -> gmap Z TapirCoord) :
  post coo m w = Some w' -> post coo m (w <| ty_coords ::= f |>) = Some (w' <| ty_coords ::= f |>).
Proof.
  assert (forall sites q w, push_all coo sites q (w <| ty_coords ::= f |>) = (push_all coo sites q w) <| ty_coords ::= f |>) as Hpush.
  { intros sites q. unfold push_all. induction sites as [|x sites IH]; intros w0; cbn [foldl]; [done|]. rewrite <- IH. f_equal. }
  destruct m as [par p cmds|par p id cmds|par id d]; cbn [post].
  - destruct (replicas_of par !! t_loc coo); [|done]. by intros [= <-].
  - intros [= <-]. by rewrite <- Hpush.
  - intros [= <-]. rewrite <- Hpush. do 2 f_equal. unfold note_decision. cbn. by case_match.
Qed.

Lemma post_all_rest coo ms w (f : gmap Z TapirCoord -> gmap Z TapirCoord) :
  post_all coo ms (w <| ty_coords ::= f |>) = (fun w' => w' <| ty_coords ::= f |>) <$> post_all coo ms w.
Proof.
  revert w. induction ms as [|m ms IH]; intros w; cbn [post_all]; [done|].
  destruct (post coo m w) as [w1|] eqn:E.
  - rewrite (post_rest _ _ _ _ _ E). cbn [mbind option_bind]. apply IH.
  - destruct m; cbn [post] in *; [|done..]. by destruct (replicas_of par !! t_loc coo).
Qed.

Lemma post_all_app coo ms ms' w : post_all coo (ms ++ ms') w = (w1 ← post_all coo ms w; post_all coo ms' w1).
Proof. revert w. induction ms as [|m ms IH]; intros w; cbn [post_all app]; [done|]. destruct (post coo m w); [|done]. cbn [mbind option_bind]. apply IH. Qed.

Lemma inv_cstep w G coo c ms c' w' :
  Inv w G -> ty_coords w !! coo = Some c -> cstep t_cfg c ms c' -> cnext c' <= (coo + 1) * 2 ^ 32 ->
  post_all coo ms (w <| ty_coords ::= <[coo := c']> |>) = Some w' -> Inv w' G.
Proof.
  intros HI Hc Hs Hn Hpost. inversion Hs; subst.
  - injection Hpost as <-. by eapply inv_quiet.
  - assert (Inv (w <| ty_coords ::= <[coo := c']> |>) G) as HI1 by (by eapply inv_dispatch_coord).
    eapply (inv_post_dispatches Hlay _ _ _ c'); [exact HI1|cbn; by rewrite lookup_insert_eq| | |exact Hpost].
    + by rewrite (kt_ph c c').
    + by rewrite (kt_ph c c'), (kt_id c c').
  - injection Hpost as <-. by eapply inv_begin.
  - injection Hpost as <-. by eapply inv_draw.
  - by eapply inv_accept.
  - by eapply inv_commit.
  - by eapply inv_abort.
Qed.

Lemma cstep_next c ms c' : cstep t_cfg c ms c' -> cnext c <= cnext c'.
Proof. intros Hs. inversion Hs; subst; try lia; by rewrite (kt_next c c'). Qed.
Lemma csteps_next c ms c' : csteps t_cfg c ms c' -> cnext c <= cnext c'.
Proof. induction 1 as [c|c ms c1 ms' c2 Hs _ IH]; [done|]. apply cstep_next in Hs. lia. Qed.

Lemma post_all_coords coo ms w w' : post_all coo ms w = Some w' -> ty_coords w' = ty_coords w.
Proof.
  revert w. induction ms as [|m ms IH]; intros w Hp; cbn [post_all] in Hp; [by injection Hp as <-|].
  destruct (post coo m w) as [w1|] eqn:E; [|done]. apply (post_done Hlay) in E as ((_ & E & _) & _). cbn [mbind option_bind] in Hp. rewrite <- E. by apply IH.
Qed.

Lemma inv_csteps c ms c' : csteps t_cfg c ms c' -> forall w G coo w',
  Inv w G -> ty_coords w !! coo = Some c -> cnext c' <= (coo + 1) * 2 ^ 32 ->
  post_all coo ms (w <| ty_coords ::= <[coo := c']> |>) = Some w' -> Inv w' G.
Proof.
  induction 1 as [c|c ms c1 ms' c2 Hs Hrest IH]; intros w G coo w' HI Hc Hn Hpost.
  - injection Hpost as <-. by eapply inv_quiet.
  - rewrite post_all_app, post_all_rest in Hpost. pose proof (csteps_next _ _ _ Hrest).
    destruct (post_all coo ms w) as [w0|] eqn:E0; [|done]. cbn [fmap option_fmap option_map mbind option_bind] in Hpost.
    assert (post_all coo ms (w <| ty_coords ::= <[coo := c1]> |>) = Some (w0 <| ty_coords ::= <[coo := c1]> |>)) as E1 by (by rewrite post_all_rest, E0).
    eapply (IH (w0 <| ty_coords ::= <[coo := c1]> |>)).
    + eapply inv_cstep; [exact HI|exact Hc|exact Hs|lia|exact E1].
    + cbn. by rewrite lookup_insert_eq.
    + done.
    + rewrite <- Hpost. f_equal. unfold set_field. cbn. f_equal. by rewrite insert_insert_eq.
Qed.
End decide.
