(* ===== verification/TapirServe.v ===== *)
(** * TAPIR: requests and answers that are delivered keep the invariant *)
From stdpp Require Import base tactics numbers list sorting gmap sets.
From S2P Require Import Prelude OMap Command Config MemRow Occ OccLock Chopper ChrCoord Tapir TapirCoord TapirSystem TapirEval TapirSteps TapirInv TapirSafe TapirDecide.

Section serve.
Context `{TapirEnv} `{TapirRegistry} `{TapirWorkload} (Hlay : layout t_cfg).
Abbreviation Ghost := (Z -> Z -> option Status).

(** ** Answers *)

Lemma inv_drop_reply w G k r : Inv w G -> ty_replies w !! k = Some r -> Inv (w <| ty_replies ::= delete k |>) G.
Proof.
  intros [I1 I2 I3 I4 I5 I6 I7] Hk. split; try done.
  - intros coo c Hc. destruct (I1 coo c Hc) as [O1 O2 O3 O4 O5 O6 O7 O8]. split; try done. intros Hm par Hpar. cbn.
    pose proof (flying_delete coo (ph c) par _ _ _ Hk) as E. specialize (O7 Hm par Hpar). case_match; lia.
  - intros r' Hr'. apply I6. cbn in Hr'. rewrite (delete_Permutation _ _ _ Hk). by right.
Qed.

Lemma i32_le z : - 2 ^ 31 <= z -> - 2 ^ 31 <= i32 z <= z.
Proof.
  intros Hz. pose proof (wrap_s_range 32 z ltac:(lia)) as [Hlo _]. split; [exact Hlo|]. unfold wrap_s.
  change (2 ^ (32 - 1)) with (2 ^ 31). pose proof (Z.mod_le (z + 2 ^ 31) (2 ^ 32) ltac:(lia) ltac:(lia)). lia.
Qed.

Lemma inv_counted w G k coo par c c1 :
  Inv w G -> ty_replies w !! k = Some (RsFastAccept coo (ph c) par SUCCESS) -> ty_coords w !! coo = Some c -> counted par c c1 ->
  Inv (w <| ty_replies ::= delete k |> <| ty_coords ::= <[coo := c1]> |>) G.
Proof.
  intros HI Hk Hc [K1 K2 K3 K4 K5 K6]. pose proof (inv_drop_reply _ _ _ _ HI Hk) as HI'.
  apply (inv_move _ _ _ c); [done|done| |].
  - apply (moves_advances _ _ c); [done|lia|lia|by rewrite K2|]. intros n Hn Hm. left. rewrite K1 in Hm. auto.
  - destruct (iv_coords _ _ HI _ _ Hc) as [O1 O2 O3 O4 O5 O6 O7 O8]. split; rewrite ?K1, ?K2, ?K3, ?K4, ?K5; try done.
    + intros p. rewrite K6. pose proof (O5 p). case_decide; [|done]. apply i32_le. lia.
    + intros Hm p Hp. rewrite K6. specialize (O7 Hm p Hp). pose proof (flying_delete coo (ph c) p _ _ _ Hk) as E.
      cbn. change (ty_replies (w <| ty_replies ::= delete k |>)) with (delete k (ty_replies w)). cbn [is_ok] in E. rewrite !Z.eqb_refl in E. cbn [andb] in E.
      rewrite andb_true_r in E. destruct (decide (p = par)) as [->|Hne].
      * rewrite Z.eqb_refl in E. pose proof (O5 par). pose proof (i32_le (coks c par + 1) ltac:(lia)). lia.
      * assert ((par =? p) = false) as Ef by (apply Z.eqb_neq; congruence). rewrite Ef in E. lia.
Qed.

(** ** Handlers of a coordinator *)

Lemma inv_did w G coo c s w' :
  Inv w G -> ty_coords w !! coo = Some c -> did t_cfg (c <| tc_sent := [] |>) s -> cnext s <= (coo + 1) * 2 ^ 32 ->
  post_all coo (tc_sent s) (w <| ty_coords ::= <[coo := s]> |>) = Some w' -> Inv w' G.
Proof.
  intros HI Hc (ms & Hs & E) Hn Hpost. rewrite E in Hpost. cbn [tc_sent] in Hpost.
  eapply (inv_csteps Hlay _ _ _ Hs (w <| ty_coords ::= <[coo := c <| tc_sent := [] |>]> |>) G coo w').
  - by apply (inv_quiet _ _ _ c).
  - cbn. by rewrite lookup_insert_eq.
  - done.
  - rewrite <- Hpost. f_equal. unfold set_field. cbn. f_equal. by rewrite insert_insert_eq.
Qed.

Context `{!TapirWorkloadOk}.

Lemma inv_start w G coo is_local home t c w' :
  Inv w G -> ty_coords w !! coo = Some c -> room c -> ph c mod 4 = 0 -> sorted_set (partition_ids_ t) ->
  at_coord coo (tapir_do_one is_local home t) w = Some w' -> (forall c', ty_coords w' !! coo = Some c' -> cnext c' <= (coo + 1) * 2 ^ 32) -> Inv w' G.
Proof.
  intros HI Hc Hr Hm Hs Hat Hb. unfold at_coord in Hat. rewrite Hc in Hat. cbn [mbind option_bind] in Hat.
  destruct (tapir_do_one _ _ _ _) as [[[] s]| |] eqn:E; [|done..]. apply (tapir_do_one_did t_cfg) in E; [|done..].
  eapply inv_did; [done..| |exact Hat]. apply Hb. rewrite (post_all_coords Hlay _ _ _ _ Hat). cbn. by rewrite lookup_insert_eq.
Qed.

Lemma inv_reply w G k p coo w' :
  Inv w G -> ty_replies w !! k = Some p ->
  (match p with RsDispatch coo' _ _ => coo' | RsFastAccept coo' _ _ _ => coo' end) = coo ->
  (forall c, ty_coords w !! coo = Some c -> room c) ->
  take_reply p (w <| ty_replies ::= delete k |>) = Some w' -> (forall c', ty_coords w' !! coo = Some c' -> cnext c' <= (coo + 1) * 2 ^ 32) -> Inv w' G.
Proof.
  intros HI Hk Hcoo Hroom Htake Hb. pose proof (iv_reps _ _ HI p) as Hrep. specialize (Hrep ltac:(by eapply list_elem_of_lookup_2)).
  pose proof (inv_drop_reply _ _ _ _ HI Hk) as HI'.
  destruct p as [coo' p out|coo' p par res]; subst coo'; cbn [take_reply rep_ok] in *; unfold at_coord in Htake;
    cbn [ty_coords set_field] in Htake; change (ty_coords (w <| ty_replies ::= delete k |>)) with (ty_coords w) in Htake;
    (destruct (ty_coords w !! coo) as [c|] eqn:Hc; [|done]); cbn [mbind option_bind] in Htake; specialize (Hroom c eq_refl);
    pose proof (co_sorted _ _ _ _ _ _ (iv_coords _ _ HI _ _ Hc)) as Hs.
  - destruct (DispatchAck _ _ _) as [[[] s]| |] eqn:E; [|done..]. apply (DispatchAck_did t_cfg) in E; [|done..].
    eapply (inv_did (w <| ty_replies ::= delete k |>)); [done|done|exact E| |exact Htake]. apply Hb. rewrite (post_all_coords Hlay _ _ _ _ Htake). cbn. by rewrite lookup_insert_eq.
  - destruct Hrep as (Hp & c0 & Ec0 & Hle). assert (c0 = c) as -> by congruence.
    destruct (FastAcceptAck _ _ _ _ _) as [[[] s]| |] eqn:E; [|done..]. apply FastAcceptAck_did in E; [|done..].
    assert (cnext s <= (coo + 1) * 2 ^ 32) as Hn by (apply Hb; rewrite (post_all_coords Hlay _ _ _ _ Htake); cbn; by rewrite lookup_insert_eq).
    destruct E as [[_ ->]|(-> & c1 & Hc1 & Es & Hd)].
    { injection Htake as <-. by apply (inv_quiet _ _ _ c). }
    change (ph (c <| tc_sent := [] |>)) with (ph c) in *.
    assert (Inv (w <| ty_replies ::= delete k |> <| ty_coords ::= <[coo := c1]> |>) G) as HI1.
    { destruct (decide (res = SUCCESS)) as [->|Hres].
      - apply (inv_counted w G k coo par c c1 HI Hk Hc). destruct Hc1; by split.
      - eapply (inv_cstep Hlay (w <| ty_replies ::= delete k |> <| ty_coords ::= <[coo := c <| tc_sent := [] |>]> |>) G coo (c <| tc_sent := [] |>) []);
          [by apply (inv_quiet _ _ _ c)|cbn; by rewrite lookup_insert_eq|exact Hc1| |].
        + destruct Hd as (ms & Hd & _). apply csteps_next in Hd. lia.
        + cbn [post_all]. f_equal. unfold set_field. cbn. f_equal. by rewrite insert_insert_eq. }
    destruct Hd as (ms & Hd & Esent). rewrite Es in Esent. cbn in Esent. rewrite Esent in Htake.
    eapply (inv_csteps Hlay _ _ _ Hd _ _ _ _ HI1); [cbn; by rewrite lookup_insert_eq|done|].
    rewrite <- Htake. f_equal. unfold set_field. cbn. f_equal. by rewrite insert_insert_eq.
Qed.

(** ** Requests *)

(** Request [r] of [coo] has been taken in by site [x]. *)
Definition served (coo x : Z) (qs : list TapirReq) (s' : TapirSched) (rs' : list TapirRsp) (w : Tapir) : Tapir :=
  w <| ty_chan ::= <[(coo, x) := qs]> |> <| ty_servers ::= <[x := s']> |> <| ty_replies ::= fun l => l ++ rs' |>.

Section one.
Context (w : Tapir) (G : Ghost) (HI : Inv w G) (coo x : Z) (r : TapirReq) (qs : list TapirReq) (Hq : chan_of w coo x = r :: qs).

Lemma served_chan s' rs' coo' x' :
  chan_of (served coo x qs s' rs' w) coo' x' = if decide (coo' = coo /\ x' = x) then qs else chan_of w coo' x'.
Proof.
  unfold chan_of, served. cbn. case_decide as E; [destruct E as [-> ->]; by rewrite lookup_insert_eq|]. rewrite lookup_insert_ne by naive_solver. done.
Qed.

Lemma served_req s' rs' coo' x' r' : r' ∈ chan_of (served coo x qs s' rs' w) coo' x' -> r' ∈ chan_of w coo' x' /\ req_ok (ty_coords w) (ty_pieces w) (ty_decided w) G coo' x' r'.
Proof.
  rewrite served_chan. intros Hr. assert (r' ∈ chan_of w coo' x') as Hin by (case_decide as E; [destruct E as [-> ->]; rewrite Hq; by right|done]).
  split; [done|]. by apply (iv_reqs _ _ HI).
Qed.

Lemma served_turn s' rs' coo' x' : in_turn (chan_of (served coo x qs s' rs' w) coo' x').
Proof.
  rewrite served_chan. pose proof (iv_turn _ _ HI coo' x') as Ht. case_decide as E; [|done]. destruct E as [-> ->]. rewrite Hq in Ht. by destruct Ht.
Qed.

Lemma request_ok : req_ok (ty_coords w) (ty_pieces w) (ty_decided w) G coo x r.
Proof. apply (iv_reqs _ _ HI). rewrite Hq. by left. Qed.

(** Another request to the site about the same transaction comes from the same
    coordinator, and not after the last one. *)
Lemma served_subject s' rs' coo' r' id :
  r' ∈ chan_of (served coo x qs s' rs' w) coo' x -> subject r = Some id -> final r = true -> id / 2 ^ 32 = coo -> subject r' ≠ Some id.
Proof.
  intros Hr Hs Hf Hown Hs'. destruct (served_req _ _ _ _ _ Hr) as [Hin Hok].
  assert (id / 2 ^ 32 = coo') as Hown'.
  { destruct r' as [p cmds|p par id' cmds|id' d]; cbn [req_ok subject] in *.
    - destruct Hok as (_ & c & Hh & Hr' & _). rewrite Hh in Hs'. cbn in Hs'. injection Hs' as <-. done.
    - injection Hs' as <-. by destruct Hok as (_ & ? & _).
    - destruct (d =? COMMIT); [|done]. injection Hs' as <-. by destruct Hok as [? _]. }
  assert (coo' = coo) as -> by congruence. rewrite served_chan, decide_True in Hr by done.
  pose proof (iv_turn _ _ HI coo x) as Ht. rewrite Hq in Ht. destruct Ht as [Ht _]. specialize (Ht Hf). rewrite Forall_forall in Ht. apply (Ht r' Hr). congruence.
Qed.

Lemma req_ok_upd C P L coo' x' r' id st :
  req_ok C P L G coo' x' r' -> (x' = x -> subject r' = Some id -> st = None /\ id ∉ L) -> req_ok C P L (updG G x id st) coo' x' r'.
Proof.
  intros Hok Hs. assert (forall i, subject r' = Some i -> updG G x id st x' i = G x' i \/ (updG G x id st x' i = None /\ id ∉ L /\ i = id)) as Hu.
  { intros i Hi. destruct (decide (x' = x)) as [->|]; [|left; apply updG_ne; by left]. destruct (decide (i = id)) as [->|]; [|left; apply updG_ne; by right].
    destruct (Hs eq_refl Hi) as [-> HL]. right. by rewrite updG_eq. }
  destruct r' as [p cmds|p par id' cmds|id' d]; cbn [req_ok subject] in *.
  - destruct Hok as (Hp & c & Hh & Hr' & Hb & Hg). split; [done|]. exists c. split_and!; [done|done|done|]. rewrite Hh in Hu. destruct (Hu _ eq_refl) as [->|[? _]]; done.
  - destruct Hok as (Hp & Hr' & Hx & Hpc & Hg & Hc). split_and!; [done|done|done|done| |done]. destruct (Hu _ eq_refl) as [->|[? _]]; done.
  - destruct Hok as [Hr' Hd]. split; [done|]. destruct (d =? COMMIT); [|done]. destruct Hd as [Hin Ht]. split; [done|].
    destruct (Hu _ eq_refl) as [->|(_ & HL & ->)]; done.
Qed.

(** What is common to all requests. *)
Lemma inv_served (G' : Ghost) s' rs' :
  (forall coo c, ty_coords w !! coo = Some c -> coord_ok (ty_pieces w) (ty_decided w) G' (ty_replies w ++ rs') coo c) ->
  ghost_ok (ty_pieces w) (ty_decided w) G' (chan_of (served coo x qs s' rs' w)) ->
  (forall coo' x' r', r' ∈ chan_of (served coo x qs s' rs' w) coo' x' -> req_ok (ty_coords w) (ty_pieces w) (ty_decided w) G' coo' x' r') ->
  (forall r', r' ∈ rs' -> rep_ok (ty_coords w) r') ->
  (forall x', x' ≠ x -> G' x' = G x') ->
  (forall par, x ∈ replicas_of par -> server_ok (G' x) (ty_pieces w) (ty_decided w) par s') ->
  Inv (served coo x qs s' rs' w) G'.
Proof.
  intros S1 S2 S3 S4 S5 S6. split.
  - exact S1.
  - apply (iv_ids _ _ HI).
  - exact S2.
  - exact S3.
  - apply served_turn.
  - intros r' [Hr|Hr]%elem_of_app; [by apply (iv_reps _ _ HI)|auto].
  - intros par y Hy. cbn. destruct (decide (y = x)) as [->|Hne].
    + exists s'. rewrite lookup_insert_eq. split; [done|auto].
    + destruct (iv_servers _ _ HI par y Hy) as (s & Hs & Hok). exists s. rewrite lookup_insert_ne by done. by rewrite (S5 y Hne).
Qed.

(** The decisions that are under way, but for the one that is taken in. *)
Lemma served_commits s' rs' id coo' x' :
  RqDecide id COMMIT ∈ chan_of w coo' x' -> r ≠ RqDecide id COMMIT \/ x' ≠ x -> RqDecide id COMMIT ∈ chan_of (served coo x qs s' rs' w) coo' x'.
Proof.
  rewrite served_chan. intros Hin Hne. case_decide as E; [|done]. destruct E as [-> ->]. rewrite Hq in Hin. apply elem_of_cons in Hin as [Hin|Hin]; [|done].
  destruct Hne as [Hne|Hne]; [|done]. by destruct Hne.
Qed.

Lemma coord_ok_replies P L G' rs rs' coo' c :
  coord_ok P L G rs coo' c -> (forall par, flying coo' (ph c) par rs' = 0) -> (forall y i, is_Some (G y i) -> i = cid c -> is_Some (G' y i)) -> coord_ok P L G' (rs ++ rs') coo' c.
Proof.
  intros [O1 O2 O3 O4 O5 O6 O7 O8] Hf Hg. split; try done. intros Hm par Hpar. rewrite flying_app, Hf. specialize (O7 Hm par Hpar).
  pose proof (holders_mono G G' par (cid c) (fun y Hy => Hg y _ Hy eq_refl)). lia.
Qed.

Lemma inv_serve_dispatch p cmds s out s' :
  r = RqDispatch p cmds -> ty_servers w !! x = Some s -> OnDispatch cmds s = Done (out, s') ->
  Inv (served coo x qs s' [RsDispatch coo p out] w) G.
Proof.
  intros Er Hs Hrun. pose proof request_ok as Hrq. rewrite Er in Hrq. destruct Hrq as (Hp & c & Hh & Hown & Hb & Hg). pose proof (OnDispatch_ttouches _ _ _ _ _ Hh Hrun) as Ht.
  pose proof (iv_ghost _ _ HI) as [G1 G2 G3]. apply inv_served.
  - intros coo' c' Hc'. apply coord_ok_replies; [by apply (iv_coords _ _ HI)| |done]. intros par. by apply flying_none; intros r' ->%list_elem_of_singleton.
  - split; [done|done|]. intros id par y Hid Hpc Hy. destruct (G3 id par y Hid Hpc Hy) as [?|[? Hin]]; [by left|]. right. split; [done|]. apply served_commits; [done|left; by rewrite Er].
  - intros coo' x' r' Hr'. by apply served_req in Hr' as [_ ?].
  - by intros r' ->%list_elem_of_singleton.
  - done.
  - intros par Hx. destruct (iv_servers _ _ HI par x Hx) as (s0 & Hs0 & Hok). assert (s0 = s) as -> by congruence.
    eapply server_ok_touched; [exact Hok|by apply ttouches_spares|by rewrite Hg|by eapply ttouches_contents].
Qed.

Lemma inv_serve_abort id d s s' :
  r = RqDecide id d -> d ≠ COMMIT -> ty_servers w !! x = Some s -> OnDecide id d s = Done (tt, s') ->
  Inv (served coo x qs s' [] w) (updG G x id None).
Proof.
  intros Er Hd Hs Hrun. pose proof request_ok as Hrq. rewrite Er in Hrq. destruct Hrq as [Hown Hok]. rewrite (proj2 (Z.eqb_neq _ _) Hd) in Hok. destruct Hok as (HL & Hb & Hl1 & Hl2).
  apply OnDecide_abort in Hrun; [|done].
  pose proof (iv_ghost _ _ HI) as [G1 G2 G3].
  assert (forall y i, i ≠ id -> updG G x id None y i = G y i) as Hne by (intros y i Hi; apply updG_ne; by right).
  assert (forall y i st, updG G x id None y i = Some st -> G y i = Some st) as Hold.
  { intros y i st E. destruct (decide (y = x /\ i = id)) as [[-> ->]|Hn]; [by rewrite updG_eq in E|]. rewrite updG_ne in E; [done|]. destruct (decide (y = x)); naive_solver. }
  apply inv_served.
  - intros coo' c' Hc'. rewrite app_nil_r. destruct (iv_coords _ _ HI _ _ Hc') as [O1 O2 O3 O4 O5 O6 O7 O8]. split; try done.
    intros Hm par Hpar. specialize (O7 Hm par Hpar).
    assert (cid c' ≠ id) as Hni by (intros <-; apply Hl2; by apply (current_live w G coo' c' 2)).
    assert (holders G par (cid c') <= holders (updG G x id None) par (cid c')); [|lia]. apply holders_mono. intros y. by rewrite Hne.
  - split.
    + intros y i [st E]. apply (G1 y i). exists st. by apply Hold.
    + intros y i t E. by apply (G2 y i t), Hold.
    + intros i par y Hi Hpc Hy. rewrite Hne by (intros ->; done). destruct (G3 i par y Hi Hpc Hy) as [?|[? Hin]]; [by left|]. right. split; [done|].
      apply served_commits; [done|]. left. rewrite Er. by intros [= _ ->].
  - intros coo' x' r' Hr'. apply served_req in Hr' as [_ Hr']. by apply req_ok_upd.
  - by intros r' ?%elem_of_nil.
  - intros x' Hx. unfold updG. by rewrite decide_False.
  - intros par Hx. destruct (iv_servers _ _ HI par x Hx) as (s0 & Hs0 & Hok). assert (s0 = s) as -> by congruence.
    unfold updG. rewrite decide_True by done. by eapply server_ok_abort.
Qed.

Lemma inv_serve_commit id s s' :
  r = RqDecide id COMMIT -> ty_servers w !! x = Some s -> OnDecide id COMMIT s = Done (tt, s') ->
  exists G', Inv (served coo x qs s' [] w) G'.
Proof.
  intros Er Hs Hrun. pose proof request_ok as Hrq. rewrite Er in Hrq. destruct Hrq as [Hown Hok]. change (COMMIT =? COMMIT) with true in Hok. cbn iota in Hok. destruct Hok as (HL & t & Hg).
  pose proof (iv_ghost _ _ HI) as [G1 G2 G3]. exists (updG G x id (Some (Com t))).
  assert (forall y i, y ≠ x \/ i ≠ id -> updG G x id (Some (Com t)) y i = G y i) as Hne by (intros y i; apply updG_ne).
  assert (forall y i, is_Some (G y i) <-> is_Some (updG G x id (Some (Com t)) y i)) as Hsome.
  { intros y i. destruct (decide (y = x /\ i = id)) as [[-> ->]|Hn]; [rewrite updG_eq, Hg; split; by eexists|]. rewrite Hne; [done|]. destruct (decide (y = x)); naive_solver. }
  destruct (G1 x id) as (par0 & Hx0 & cmds & Hpc0); [by rewrite Hg|].
  apply inv_served.
  - intros coo' c' Hc'. apply coord_ok_replies; [by apply (iv_coords _ _ HI)|done|]. intros y i Hi _. by apply Hsome.
  - split.
    + intros y i Hi. apply (G1 y i). by apply Hsome.
    + intros y i u E. destruct (decide (i = id)) as [->|Hn]; [done|]. rewrite Hne in E by (by right). by eapply G2.
    + intros i par y Hi Hpc Hy. destruct (decide (y = x /\ i = id)) as [[-> ->]|Hn]; [left; exists t; by rewrite updG_eq|].
      assert (y ≠ x \/ i ≠ id) as Hn' by (destruct (decide (y = x)); naive_solver). rewrite Hne by done.
      destruct (G3 i par y Hi Hpc Hy) as [?|[? Hin]]; [by left|]. right. split; [done|]. apply served_commits; [done|].
      destruct Hn' as [?|Hn']; [by right|left]. rewrite Er. by intros [= ->].
  - intros coo' x' r' Hr'. pose proof Hr' as Hr2. apply served_req in Hr' as [_ Hr']. apply req_ok_upd; [done|]. intros -> Hsub. exfalso.
    by apply (served_subject _ _ _ _ id Hr2); rewrite ?Er.
  - by intros r' ?%elem_of_nil.
  - intros x' Hx. unfold updG. by rewrite decide_False.
  - intros par Hx. destruct (iv_servers _ _ HI par x Hx) as (s0 & Hs0 & Hok). assert (s0 = s) as -> by congruence.
    assert (par = par0) as -> by (by eapply replicas_disjoint).
    unfold updG. rewrite decide_True by done. eapply server_ok_commit; [exact Hok|apply (id_nodup _ _ _ (iv_ids _ _ HI))|done|exact Hg|exact Hpc0|].
    intros Ha. eapply OnDecide_commit; [apply (so_rows _ _ _ _ _ Hok)|done|done].
Qed.

Lemma inv_serve_accept p par id cmds s res s' :
  r = RqFastAccept p par id cmds -> ty_servers w !! x = Some s -> tidy_at s id cmds = true -> OnFastAccept id cmds s = Done (res, s') ->
  exists G', Inv (served coo x qs s' [RsFastAccept coo p par res] w) G'.
Proof.
  intros Er Hs Htidy Hrun. pose proof request_ok as Hrq. rewrite Er in Hrq. destruct Hrq as (Hp & Hown & Hx & Hpc & Hg & c & Hc & Hle & Hcid).
  pose proof (iv_ghost _ _ HI) as [G1 G2 G3].
  assert (id ∉ ty_decided w) as HnL.
  { intros Hin. destruct (G3 id par x Hin) as [[t E]|[[t E] _]]; [by eexists|done|congruence..]. }
  destruct (iv_servers _ _ HI par x Hx) as (s0 & Hs0 & Hok). assert (s0 = s) as -> by congruence.
  apply OnFastAccept_spec in Hrun as [Ht Hacc]; [|apply (so_rows _ _ _ _ _ Hok)].
  assert (forall r', r' ∈ [RsFastAccept coo p par res] -> rep_ok (ty_coords w) r') as Hrep by (intros r' ->%list_elem_of_singleton; split; [done|]; by exists c).
  assert (forall coo' c', ty_coords w !! coo' = Some c' -> forall par', is_ok coo' (ph c') par' (RsFastAccept coo p par res) = true -> coo' = coo /\ c' = c /\ cid c = id /\ par' = par /\ res = SUCCESS) as His.
  { intros coo' c' Hc' par' E. cbn [is_ok] in E. rewrite !andb_true_iff, !Z.eqb_eq in E. destruct E as (((-> & E) & ->) & ->). assert (c' = c) as -> by congruence. auto. }
  destruct (decide (res = SUCCESS)) as [->|Hres].
  - destruct (Hacc Htidy eq_refl) as (t & Ha). exists (updG G x id (Some (Acc t))).
    assert (forall y i, y ≠ x \/ i ≠ id -> updG G x id (Some (Acc t)) y i = G y i) as Hne by (intros y i; apply updG_ne).
    assert (forall y i, is_Some (G y i) -> is_Some (updG G x id (Some (Acc t)) y i)) as Hsome.
    { intros y i Hi. destruct (decide (y = x /\ i = id)) as [[-> ->]|Hn]; [rewrite updG_eq; by eexists|]. rewrite Hne; [done|]. destruct (decide (y = x)); naive_solver. }
    apply inv_served; [| | |done| |].
    + intros coo' c' Hc'. destruct (iv_coords _ _ HI _ _ Hc') as [O1 O2 O3 O4 O5 O6 O7 O8]. split; try done.
      intros Hm par' Hpar. specialize (O7 Hm par' Hpar). rewrite flying_app, flying_one. destruct (is_ok _ _ _ _) eqn:E.
      * apply (His _ _ Hc') in E as (-> & -> & <- & -> & _). rewrite (holders_accept Hlay) by done. lia.
      * pose proof (holders_mono G (updG G x id (Some (Acc t))) par' (cid c') (fun y => Hsome y _)). lia.
    + split.
      * intros y i Hi. destruct (decide (y = x /\ i = id)) as [[-> ->]|Hn]; [exists par; split; [done|by eexists]|]. apply (G1 y i).
        rewrite Hne in Hi; [done|]. destruct (decide (y = x)); naive_solver.
      * intros y i u E. destruct (decide (y = x /\ i = id)) as [[-> ->]|Hn]; [by rewrite updG_eq in E|]. apply (G2 y i u).
        rewrite Hne in E; [done|]. destruct (decide (y = x)); naive_solver.
      * intros i par' y Hi Hpc' Hy. rewrite Hne by (right; by intros ->). destruct (G3 i par' y Hi Hpc' Hy) as [?|[? Hin]]; [by left|]. right. split; [done|].
        apply served_commits; [done|left; by rewrite Er].
    + intros coo' x' r' Hr'. pose proof Hr' as Hr2. apply served_req in Hr' as [_ Hr']. apply req_ok_upd; [done|]. intros -> Hsub. exfalso.
      by apply (served_subject _ _ _ _ id Hr2); rewrite ?Er.
    + intros x' Hx'. unfold updG. by rewrite decide_False.
    + intros par' Hx'. assert (par' = par) as -> by (by eapply replicas_disjoint). unfold updG. rewrite decide_True by done. by eapply server_ok_accept.
  - exists G. apply inv_served; [| | |done|done|].
    + intros coo' c' Hc'. apply coord_ok_replies; [by apply (iv_coords _ _ HI)| |done]. intros par'. apply flying_none. intros r' ->%list_elem_of_singleton.
      destruct (is_ok _ _ _ _) eqn:E; [|done]. apply (His _ _ Hc') in E as (_ & _ & _ & _ & ?). done.
    + split; [done|done|]. intros i par' y Hi Hpc' Hy. destruct (G3 i par' y Hi Hpc' Hy) as [?|[? Hin]]; [by left|]. right. split; [done|]. apply served_commits; [done|left; by rewrite Er].
    + intros coo' x' r' Hr'. by apply served_req in Hr' as [_ ?].
    + intros par' Hx'. assert (par' = par) as -> by (by eapply replicas_disjoint).
      eapply server_ok_touched; [exact Hok|by apply ttouches_spares|by rewrite Hg|by eapply ttouches_contents].
Qed.
End one.
End serve.
