(* ===== verification/TapirSerial.v ===== *)
(** * TAPIR: runs are serializable *)
From stdpp Require Import base tactics numbers list sorting gmap sets.
From S2P Require Import Prelude OMap Command Config MemRow MemRowSpec Occ OccLock Chopper ChrCoord Tapir TapirCoord TapirSystem TapirEval TapirSteps TapirInv TapirSafe TapirDecide TapirServe.

Section serial.
Context `{TapirEnv} `{TapirRegistry} `{TapirWorkload}.
Abbreviation Ghost := (Z -> Z -> option Status).

(** ** What is asked of a run *)

(** The sites are those of the partitions, and the locks are free at first. *)
Record tapir_layout : Prop := {
  tl_layout : layout t_cfg;
  tl_sites : NoDup (si_id <$> sites_ t_cfg);
  tl_replicas par sites s : SitesByPartitionId t_cfg par = Some sites -> s ∈ sites -> s ∈ sites_ t_cfg /\ si_partition_id_ s = par;
  tl_free par rid r : t_rows par !! rid = Some r -> wlocked_ (lock_ r) = false;
}.

(** Whenever a server takes in a request for acceptance, the columns that the dispatch
    phase wrote there are all written again. *)
Definition tidy_step (e : tapir_event) (w : Tapir) : bool :=
  match e with
  | TvServe coo site =>
    match ty_chan w !! (coo, site), ty_servers w !! site with
    | Some (RqFastAccept _ _ id cmds :: _), Some s => tidy_at s id cmds
    | _, _ => true
    end
  | _ => true
  end.
Fixpoint tidy (es : list tapir_event) (w : Tapir) : bool :=
  match es with
  | [] => true
  | e :: es => tidy_step e w && match tapir_step e w with Some w' => tidy es w' | None => true end
  end.

(** The partitions of a transaction that a client hands over are a [std::set]. *)
Definition start_ok (e : tapir_event) : Prop := match e with TvStart _ _ _ t => sorted_set (partition_ids_ t) | _ => True end.

(** ** The invariant along a run *)

(** After [n] events. *)
Definition bounded (n : Z) (w : Tapir) : Prop :=
  forall coo c, ty_coords w !! coo = Some c -> coo < 2 ^ 32 /\ ph c <= 5 * n /\ cnext c <= coo * 2 ^ 32 + 1 + 5 * n.

Context `{!TapirWorkloadOk} (Hlay : tapir_layout).

Lemma at_coord_bounded n coo (m : M TapirCoord ()) w w' G :
  Inv w G -> adds 5 m -> bounded n w -> at_coord coo m w = Some w' -> bounded (n + 1) w'.
Proof.
  intros HI Hm Hb Hat. unfold at_coord in Hat. destruct (ty_coords w !! coo) as [c|] eqn:Ec; [|done]. cbn [mbind option_bind] in Hat.
  destruct (m _) as [[[] s]| |] eqn:Em; [|done..]. pose proof (post_all_coords (tl_layout Hlay) _ _ _ _ Hat) as E. cbn in E.
  pose proof (iv_coords _ _ HI _ _ Ec) as [[O1 O1'] O2 _ _ _ _ _ _]. destruct (Hb _ _ Ec) as (B1 & B2 & B3).
  destruct (Hm _ _ _ Em) as [P1 N1]; [apply O2|change (0 <= cnext c); lia|].
  change (ph (c <| tc_sent := [] |>)) with (ph c) in P1. change (cnext (c <| tc_sent := [] |>)) with (cnext c) in N1.
  intros coo0 c0. rewrite E. change (ty_coords (w <| ty_coords ::= <[coo := s]> |>)) with (<[coo := s]> (ty_coords w)).
  destruct (decide (coo0 = coo)) as [->|Hne]; [rewrite lookup_insert_eq; intros [= <-]; lia|].
  rewrite lookup_insert_ne by done. intros Hc0. destruct (Hb _ _ Hc0). lia.
Qed.

Lemma bounded_room n w G coo c : Inv w G -> bounded n w -> 0 <= n < 2 ^ 28 -> ty_coords w !! coo = Some c -> room c /\ cnext c <= (coo + 1) * 2 ^ 32.
Proof.
  intros HI Hb Hn Hc. destruct (iv_coords _ _ HI _ _ Hc) as [O1 O2 _ _ _ _ _ _]. destruct (Hb _ _ Hc) as (B1 & B2 & B3). unfold room. lia.
Qed.

Lemma bounded_next n w coo c : bounded n w -> n < 2 ^ 28 -> ty_coords w !! coo = Some c -> cnext c <= (coo + 1) * 2 ^ 32.
Proof. intros Hb Hn Hc. destruct (Hb _ _ Hc) as (B1 & B2 & B3). lia. Qed.

Lemma served_step {A} coo x r qs (m : M TapirSched A) reply w w' :
  at_server x m reply (w <| ty_chan ::= <[(coo, x) := qs]> |>) = Some w' -> chan_of w coo x = r :: qs ->
  exists s a s', ty_servers w !! x = Some s /\ m s = Done (a, s') /\ w' = served coo x qs s' (reply a) w.
Proof.
  intros Hat _. unfold at_server in Hat. cbn in Hat. destruct (ty_servers w !! x) as [s|] eqn:Es; [|done]. cbn [mbind option_bind] in Hat.
  destruct (m s) as [[a s']| |] eqn:Em; [|done..]. injection Hat as <-. by exists s, a, s'.
Qed.

Lemma tapir_step_inv e w G w' n :
  Inv w G -> bounded n w -> 0 <= n -> n + 1 < 2 ^ 28 -> start_ok e -> tidy_step e w = true -> tapir_step e w = Some w' ->
  (exists G', Inv w' G') /\ bounded (n + 1) w'.
Proof.
  intros HI Hb Hn0 Hn Hst Htidy Hstep. pose proof (tl_layout Hlay) as HL. destruct e as [coo is_local home t|coo x|k]; cbn [tapir_step start_ok tidy_step] in *.
  - destruct (ty_coords w !! coo) as [c|] eqn:Ec; [|done]. cbn [mbind option_bind] in Hstep. change (phase_ (tc c)) with (ph c) in Hstep.
    destruct (Z.eqb_spec (ph c mod 4) 0) as [Hm|]; [|done].
    assert (bounded (n + 1) w') as Hb' by (eapply at_coord_bounded; [exact HI| |exact Hb|exact Hstep]; apply (adds_mono 2); [apply adds_do_one|lia]).
    split; [|done]. exists G. eapply (inv_start HL); [exact HI|exact Ec|eapply bounded_room; [done..| |done]; lia|done|exact Hst|exact Hstep|].
    intros c' Hc'. by eapply bounded_next.
  - destruct (ty_chan w !! (coo, x)) as [[|r qs]|] eqn:Eq; [done| |done].
    assert (chan_of w coo x = r :: qs) as Hq by (unfold chan_of; by rewrite Eq).
    assert ((exists G', Inv w' G') /\ ty_coords w' = ty_coords w) as [HI' Ec].
    2:{ split; [done|]. intros coo0 c. rewrite Ec. intros Hc. destruct (Hb _ _ Hc). lia. }
    destruct r as [p cmds|p par id cmds|id d]; cbn [serve] in Hstep; destruct (served_step _ _ _ _ _ _ _ _ Hstep Hq) as (s & a & s' & Hs & Hm & ->); (split; [|done]).
    + exists G. by eapply inv_serve_dispatch.
    + rewrite Hs in Htidy. by eapply (inv_serve_accept HL).
    + destruct a. destruct (decide (d = COMMIT)) as [->|Hd]; [by eapply (inv_serve_commit HL)|]. eexists. by eapply inv_serve_abort.
  - destruct (ty_replies w !! k) as [p|] eqn:Ek; [|done]. cbn [mbind option_bind] in Hstep.
    assert (bounded (n + 1) w') as Hb'.
    { destruct p as [coo p out|coo p par res]; cbn [take_reply] in Hstep.
      - eapply (at_coord_bounded n); [by eapply inv_drop_reply| |exact Hb|exact Hstep]. apply (adds_mono 1); [apply (adds_DispatchAck)|lia].
      - eapply (at_coord_bounded n); [by eapply inv_drop_reply| |exact Hb|exact Hstep]. apply adds_FastAcceptAck. }
    split; [|done]. exists G. eapply (inv_reply HL); [exact HI|exact Ek|done| |exact Hstep|].
    + intros c Hc. eapply bounded_room; [done..| |done]. lia.
    + intros c' Hc'. by eapply bounded_next.
Qed.

Lemma tapir_run_inv es w G w' n :
  Inv w G -> bounded n w -> 0 <= n -> n + Z.of_nat (length es) < 2 ^ 28 -> Forall start_ok es -> tidy es w = true -> tapir_run es w = Some w' ->
  exists G', Inv w' G'.
Proof.
  revert w G n. induction es as [|e es IH]; intros w G n HI Hb Hn0 Hn Hst Htidy Hrun; cbn [tapir_run tidy] in *; [injection Hrun as <-; by exists G|].
  apply Forall_cons in Hst as [Hs1 Hst]. cbn [length] in Hn. destruct (tapir_step e w) as [w1|] eqn:E; [|done]. cbn [mbind option_bind] in Hrun. apply andb_true_iff in Htidy as [Ht1 Htidy].
  destruct (tapir_step_inv e w G w1 n) as [[G1 HI1] Hb1]; [done|done|done|lia|done|done|done|]. eapply (IH w1 G1 (n + 1)); [done|done|lia|lia|done|done|done].
Qed.

(** ** The first state *)

Lemma init_coord coos coo c : ty_coords (init_tapir coos) !! coo = Some c -> coo ∈ coos /\ c = new_TapirCoord coo.
Proof.
  cbn. intros E. apply elem_of_list_to_map_2, list_elem_of_fmap in E as (k & [= -> ->] & Hk). done.
Qed.

Lemma first_id_eq coo : 0 <= coo < 2 ^ 32 -> first_id coo = coo * 2 ^ 32 + 1.
Proof. intros Hc. unfold first_id. rewrite Z.shiftl_mul_pow2 by lia. apply wrap_u_id. unfold in_u. lia. Qed.

Lemma init_server coos par x : x ∈ replicas_of par -> ty_servers (init_tapir coos) !! x = Some (new_TapirSched par).
Proof.
  intros Hx. unfold replicas_of in Hx. destruct (SitesByPartitionId t_cfg par) as [l|] eqn:El; [|by apply elem_of_nil in Hx]. cbn in Hx.
  apply list_elem_of_fmap in Hx as (s & -> & Hs). destruct (tl_replicas Hlay _ _ _ El Hs) as [Hin <-]. cbn. apply elem_of_list_to_map_1.
  - rewrite <- list_fmap_compose. apply (tl_sites Hlay).
  - apply list_elem_of_fmap. by exists s.
Qed.

Lemma tapir_init_inv coos : Forall (fun c => 0 <= c < 2 ^ 32) coos -> Inv (init_tapir coos) (fun _ _ => None) /\ bounded 0 (init_tapir coos).
Proof.
  intros Hc. rewrite Forall_forall in Hc. split; [split|].
  - intros coo c [Hin ->]%init_coord. pose proof (first_id_eq coo (Hc _ Hin)) as E. split; try done.
    + change (cnext (new_TapirCoord coo)) with (first_id coo). specialize (Hc _ Hin). lia.
    + constructor.
    + intros id Hid. by apply elem_of_nil in Hid.
  - split; cbn.
    + intros id Hid. rewrite lookup_empty in Hid. by destruct Hid.
    + constructor.
    + by intros id ?%elem_of_nil.
  - split; cbn.
    + by intros x id [? ?].
    + done.
    + by intros id par x ?%elem_of_nil.
  - intros coo x r Hr. unfold chan_of in Hr. cbn in Hr. rewrite lookup_empty in Hr. by apply elem_of_nil in Hr.
  - intros coo x. unfold chan_of. cbn. by rewrite lookup_empty.
  - by intros r ?%elem_of_nil.
  - intros par x Hx. exists (new_TapirSched par). split; [by apply init_server|]. split; cbn.
    + intros rid r Hr Hw. by rewrite (tl_free Hlay _ _ _ Hr) in Hw.
    + done.
    + constructor.
    + done.
  - intros coo c [Hin ->]%init_coord. pose proof (first_id_eq coo (Hc _ Hin)) as E. specialize (Hc _ Hin).
    change (cnext (new_TapirCoord coo)) with (first_id coo). change (ph (new_TapirCoord coo)) with 0. lia.
Qed.

(** ** Serializability *)

Lemma log_serial g P par L σ σ' :
  (forall id, id ∈ L -> is_Some (pieces_for P par id) -> exists t, g id = Some (Com t)) -> replay (log g P par L) σ σ' -> serial P par L σ = Some σ'.
Proof.
  revert σ. induction L as [|id L IH]; intros σ Hc Hr; cbn [serial].
  - inversion Hr. done.
  - unfold log in Hr. cbn in Hr. destruct (pieces_for P par id) as [cmds|] eqn:Ep.
    + destruct (Hc id) as [t Ht]; [by left|done|]. rewrite Ht in Hr. inversion Hr as [|? ? σ1 ? ? [[out E] A] Hr']; subst. cbn [fst snd] in *.
      rewrite E. cbn [mbind option_bind]. rewrite A. cbn [mbind option_bind]. apply IH; [|done]. intros i Hi. apply Hc. by right.
    + assert (replay (log g P par L) σ σ') as Hr' by (by destruct (g id) as [[t|t]|]). apply IH; [|done]. intros i Hi. apply Hc. by right.
Qed.

(** C2: committed transactions of TAPIR are serializable in the order in
    which their coordinators decide.  In every run of coordinators and servers, whatever the
    interleaving of requests (in order on each connection) and answers (in any order), and
    with transactions that are refused, aborted and tried again, provided that the pieces, run
    again for acceptance, write every column that the dispatch phase wrote at the server
    ([tidy]; the code does not clear [write_bufs_] in between): the rows of a replica, once
    no decision to commit is under way to it, are what the committed transactions leave
    when they run one after the other on the initial rows of the partition, each with the
    pieces that its coordinator sent.  So all replicas of a partition agree, and all
    partitions apply the same transactions in the same order.  A commit that is reported to
    a client is among them. *)
Theorem tapir_serializable coos es w :
  Forall (fun c => 0 <= c < 2 ^ 32) coos -> Z.of_nat (length es) < 2 ^ 28 -> Forall start_ok es ->
  tapir_run es (init_tapir coos) = Some w -> tidy es (init_tapir coos) = true ->
  (forall par x, x ∈ replicas_of par -> (forall coo id, RqDecide id COMMIT ∉ default [] (ty_chan w !! (coo, x))) ->
    serial (ty_pieces w) par (ty_decided w) (contents (t_rows par)) = contents ∘ tp_rows <$> ty_servers w !! x) /\
  (forall coo c id, ty_coords w !! coo = Some c -> (id, true) ∈ ended_ (tc c) -> id ∈ ty_decided w).
Proof.
  intros Hc Hn Hst Hrun Htidy. destruct (tapir_init_inv coos Hc) as [HI0 Hb0].
  destruct (tapir_run_inv es _ _ w 0 HI0 Hb0) as [G HI]; [done|lia|done|done|done|]. split.
  - intros par x Hx Hnone. destruct (iv_servers _ _ HI par x Hx) as (s & Hs & Hok). rewrite Hs. cbn [fmap option_fmap option_map compose].
    eapply log_serial; [|apply (so_replay _ _ _ _ _ Hok)]. intros id Hid Hp.
    destruct (gh_dec _ _ _ _ (iv_ghost _ _ HI) id par x Hid Hp Hx) as [?|[_ Hin]]; [done|]. by apply Hnone in Hin.
  - intros coo c id Hcc Hin. by apply (co_ended _ _ _ _ _ _ (iv_coords _ _ HI _ _ Hcc)).
Qed.
End serial.

(** ** An example *)

(** Two transactions move money from row 1 of partition 0 to row 2 of partition 1. *)
Module TapirExample.
Definition add (d : Z) (v : Value) : Value := match v with V_I64 n => V_I64 (i64 (n + d)) | _ => v end.
#[export] Instance registry : TapirRegistry := fun _ piece =>
  if piece =? 0 then Some (fun _ => PRead 1 0 (fun v => PWrite 1 0 (add (-5) v) (PRet [(7, v)])))
  else if piece =? 1 then Some (fun _ => PRead 2 0 (fun v => PWrite 2 0 (add 5 v) (PRet [(8, v)])))
  else None.

Definition schema : Schema := match add_columns [([105], I64, false)] new_Schema with Done (_, s) => s | _ => new_Schema end.
Definition row (v : Value) : option VersionedRow := r ← create_vrow schema [v]; Some (r <| vr_row ::= fun row => row <| tbl_ := Some 1 |> |>).
#[export] Instance env : TapirEnv := {|
  t_cfg := uniform_config 2 2 1 false [];
  t_rows par := base.omap row (if par =? 0 then {[1 := V_I64 100]} else {[2 := V_I64 200]});
  t_loc coo := Z.to_nat (coo mod 2);
|}.

Definition again (t : TxnCommand) : TxnCommand := (Reset t) <| status_ := [(0, DISPATCHABLE); (1, DISPATCHABLE)] |> <| n_pieces_dispatchable_ := 2 |>.
#[export] Instance workload : TapirWorkload := {| start_callback _ _ t := t; txn_Reset := again; tapir_max_retry := -1 |}.
#[export] Instance workload_ok : TapirWorkloadOk.
Proof. by split. Qed.

Definition move : TxnCommand := mk_txn 0 0 1 0 [] [] [] [(0, 0); (1, 1)] [(0, DISPATCHABLE); (1, DISPATCHABLE)] [] [] 2 2 0 0.

(** Both are dispatched; the one of coordinator 2 is refused, tried again, and commits. *)
Definition start (coo : Z) : tapir_event := TvStart coo true 0 move.
Definition serves (coo : Z) (sites : list Z) : list tapir_event := TvServe coo <$> sites.
Definition replies (n : nat) : list tapir_event := replicate n (TvReply 0).
Definition events : list tapir_event :=
  start 2 :: serves 2 [0; 2] ++ replies 2 ++ start 1 :: serves 1 [1; 3] ++ replies 2 ++
  serves 2 [0; 1; 2; 3] ++ serves 1 [0] ++ TvReply 4 :: replies 4 ++ serves 2 [0; 1; 2; 3] ++
  serves 1 [0; 1; 1; 1; 2; 2; 3; 3; 3] ++ replies 5 ++ serves 1 [0; 1; 2; 3] ++ replies 4 ++ serves 1 [0; 1; 2; 3].

Definition coos : list Z := [1; 2].

(** No decision to commit is under way to [x]. *)
Definition settled (w : Tapir) (x : Z) : bool :=
  forallb (fun p : (Z * Z) * list TapirReq => negb (p.1.2 =? x) || forallb (fun r => match r with RqDecide _ d => negb (d =? COMMIT) | _ => true end) p.2) (map_to_list (ty_chan w)).
Lemma settled_spec w x : settled w x = true -> forall coo id, RqDecide id COMMIT ∉ default [] (ty_chan w !! (coo, x)).
Proof.
  intros Hs coo id Hin. destruct (ty_chan w !! (coo, x)) as [q|] eqn:E; [|by apply elem_of_nil in Hin]. unfold settled in Hs. rewrite forallb_forall in Hs.
  specialize (Hs ((coo, x), q)). cbn [fst snd] in Hs. rewrite Z.eqb_refl in Hs. cbn [negb orb] in Hs. rewrite forallb_forall in Hs.
  specialize (Hs ltac:(by apply list_elem_of_In, elem_of_map_to_list) (RqDecide id COMMIT)). by discriminate (Hs ltac:(by apply list_elem_of_In)).
Qed.

Lemma layout_ok : tapir_layout.
Proof.
  split.
  - apply uniform_layout.
  - apply (bool_decide_eq_true_1 (NoDup (si_id <$> sites_ t_cfg))). vm_compute. reflexivity.
  - intros par sites s Hp Hs. unfold SitesByPartitionId, find_group in Hp. destruct (List.find _ _) as [g|] eqn:Eg; [|done]. injection Hp as <-.
    apply List.find_some in Eg as [Hg <-%Z.eqb_eq]. cbn in Hg. destruct Hg as [<-|[<-|[]]]; cbn in Hs |- *; set_unfold; naive_solver.
  - intros par rid r Hr. cbn [t_rows env] in Hr. rewrite lookup_omap in Hr. destruct ((if par =? 0 then _ else _) !! rid) as [v|]; [|done]. cbn in Hr.
    unfold row, create_vrow in Hr. destruct (create schema [v]); [|done]. by injection Hr as <-.
Qed.

(** The state after the events. *)
Definition final_state : option Tapir := tapir_run events (init_tapir coos).
Definition values (w : Tapir) (x rid : Z) : option Value := s ← ty_servers w !! x; r ← tp_rows s !! rid; get_column 0 (vr_row r).
Definition as_told (w : Tapir) : bool :=
  bool_decide (ty_decided w = [8589934593; 4294967299] /\ (values w 0 1, values w 1 1, values w 2 2, values w 3 2) = (Some (V_I64 90), Some (V_I64 90), Some (V_I64 210), Some (V_I64 210)))
  && forallb (settled w) [0; 1; 2; 3].
Lemma runs_through : match final_state with Some w => as_told w | None => false end = true.
Proof. vm_compute. reflexivity. Qed.
Lemma all_tidy : tidy events (init_tapir coos) = true.
Proof. vm_compute. reflexivity. Qed.

Lemma tapir_serializable_witness : exists w,
  tapir_run events (init_tapir coos) = Some w /\ ty_decided w = [8589934593; 4294967299] /\
  (values w 0 1, values w 1 1, values w 2 2, values w 3 2) = (Some (V_I64 90), Some (V_I64 90), Some (V_I64 210), Some (V_I64 210)) /\
  (forall x, x ∈ [0; 1] -> serial (ty_pieces w) 0 (ty_decided w) (contents (t_rows 0)) = contents ∘ tp_rows <$> ty_servers w !! x).
Proof.
  pose proof runs_through as Hrt. unfold final_state in Hrt. destruct (tapir_run events (init_tapir coos)) as [w|] eqn:E; [|discriminate Hrt].
  apply andb_true_iff in Hrt as [Ht Hs]. apply bool_decide_eq_true in Ht as [Hd Hv]. exists w. split_and!; [reflexivity|exact Hd|exact Hv|].
  intros x Hx. rewrite forallb_forall in Hs.
  refine (proj1 (@tapir_serializable env registry workload workload_ok layout_ok coos events w _ _ _ E all_tidy) 0 x _ _).
  - repeat constructor; vm_compute; intros; discriminate.
  - vm_compute. reflexivity.
  - unfold events. repeat (apply Forall_cons; split; [cbn; repeat constructor|] || apply Forall_app; split || (cbn; repeat constructor)).
  - exact Hx.
  - apply settled_spec, Hs. apply list_elem_of_In. clear -Hx. set_solver.
Defined.
End TapirExample.
