(* ===== verification/OvSched.v ===== *)
(** * Ocean Vista: timestamps, transactions and the scheduler of a site
    (src/deptran/ocean_vista/ov-txn_mgr.h, ov-txn_mgr.cc, ov-tx.h, ov-tx.cc,
    ov-scheduler.h, ov-scheduler.cc)

    A coordinator asks a site for a timestamp, stores the pieces of its transaction at
    the replicas, tells the site that they are stored, and asks the replicas to execute.
    A site reports the least timestamp that is not stored yet; from these the gossipers
    compute watermarks, and a transaction is executed once its timestamp is below.

    The clock reading of [GetMonotTimestamp] is a parameter of the handlers that use it.
    [executed_] is set by none of the functions here.  The result codes, which the
    coordinator does not use, are left out. *)
From stdpp Require Import base tactics numbers list sorting.
From S2P Require Import Prelude OMap Command.

(** ** Timestamps *)

Record ov_ts_t := mk_ovts { ov_timestamp_ : Z; ov_site_id_ : Z }.
#[export] Instance Eta_ovts : Eta ov_ts_t := fun r => mk_ovts (ov_timestamp_ r) (ov_site_id_ r).
#[export] Instance ov_ts_eq_dec : EqDecision ov_ts_t.
Proof. solve_decision. Defined.

Definition ov_zero : ov_ts_t := mk_ovts 0 0.

Definition ov_lt (a b : ov_ts_t) : bool :=
  if ov_timestamp_ a <? ov_timestamp_ b then true
  else if ov_timestamp_ a >? ov_timestamp_ b then false
  else ov_site_id_ a <? ov_site_id_ b.
Definition ov_eq (a b : ov_ts_t) : bool := (ov_timestamp_ a =? ov_timestamp_ b) && (ov_site_id_ a =? ov_site_id_ b).
Definition ov_gt (a b : ov_ts_t) : bool := negb (ov_lt a b) && negb (ov_eq a b).

(** The order of the timestamps, as a relation. *)
Definition ov_lex (a b : ov_ts_t) : Prop :=
  ov_timestamp_ a < ov_timestamp_ b \/ (ov_timestamp_ a = ov_timestamp_ b /\ ov_site_id_ a < ov_site_id_ b).

Lemma ov_lt_lex a b : ov_lt a b = true <-> ov_lex a b.
Proof.
  unfold ov_lt, ov_lex. destruct (Z.ltb_spec (ov_timestamp_ a) (ov_timestamp_ b)), (Z.gtb_spec (ov_timestamp_ a) (ov_timestamp_ b)); lia.
Qed.
Lemma ov_lt_false a b : ov_lt a b = false <-> ~ ov_lex a b.
Proof. rewrite <- ov_lt_lex. by destruct (ov_lt a b). Qed.
Lemma ov_lex_ext a b : ~ ov_lex a b -> ~ ov_lex b a -> a = b.
Proof. destruct a, b. unfold ov_lex. cbn. intros. f_equal; lia. Qed.
Lemma ov_gt_lex a b : ov_gt a b = true <-> ov_lex b a.
Proof.
  unfold ov_gt, ov_eq. rewrite andb_true_iff, !negb_true_iff, ov_lt_false, andb_false_iff, !Z.eqb_neq. unfold ov_lex. lia.
Qed.
Lemma ov_gt_false a b : ov_gt a b = false <-> ~ ov_lex b a.
Proof. rewrite <- ov_gt_lex. by destruct (ov_gt a b). Qed.

#[export] Program Instance ov_ts_OrdKey : OrdKey ov_ts_t := { key_ltb := ov_lt }.
Next Obligation. intros a. rewrite ov_lt_false. unfold ov_lex. lia. Qed.
Next Obligation. intros a b c. rewrite !ov_lt_lex. unfold ov_lex. lia. Qed.
Next Obligation.
  intros a b Hne. rewrite ov_lt_false, ov_lt_lex. intros Hab. destruct (ov_lt b a) eqn:E; [by apply ov_lt_lex|].
  apply ov_lt_false in E. destruct Hne. by apply ov_lex_ext.
Qed.

(** ** [TidMgr] *)

Record TidMgr := mk_tidmgr {
  tm_site_id_ : Z;
  last_clock_ : Z;
  s_phase_txns_ : omap ov_ts_t Z;
  time_drift_ms_ : Z;
}.
#[export] Instance Eta_tidmgr : Eta TidMgr := fun r => mk_tidmgr (tm_site_id_ r) (last_clock_ r) (s_phase_txns_ r) (time_drift_ms_ r).

(** [last_clock_] has no initialiser. *)
Definition new_TidMgr (junk_clock drift site_id : Z) : TidMgr := mk_tidmgr site_id junk_clock [] drift.

Definition GetMonotTimestamp (now : Z) : M TidMgr ov_ts_t :=
  state (fun t =>
    let ts := i64 (now + time_drift_ms_ t) in
    let ts := if ts <=? last_clock_ t then i64 (last_clock_ t + 1) else ts in
    (mk_ovts ts (i16 (tm_site_id_ t)), t <| last_clock_ := ts |>)).

Definition CreateTs (now txn_id : Z) : M TidMgr ov_ts_t :=
  ovts ← GetMonotTimestamp now;
  modify (fun t => t <| s_phase_txns_ ::= insert ovts txn_id |>);;
  mret ovts.

Definition StoredTs (txn_id timestamp server_id : Z) : M TidMgr () :=
  let ovts := mk_ovts timestamp server_id in
  t ← get;
  id ← from_option (find ovts (s_phase_txns_ t));
  verify (id =? txn_id);;
  modify (fun t => t <| s_phase_txns_ ::= erase ovts |>).

Definition GetServerVWatermark (now : Z) : M TidMgr ov_ts_t :=
  t ← get;
  match s_phase_txns_ t with
  | [] => GetMonotTimestamp now
  | (ovts, _) :: _ => mret ovts
  end.

(** ** A transaction at a site *)

Inductive OV_txn_status := INIT | STORED | CAN_EXECUTE | EXECUTED.
#[export] Instance OV_txn_status_eq_dec : EqDecision OV_txn_status.
Proof. solve_decision. Defined.

Definition PHASE_CHRONOS_DISPATCH : Z := 1.
Definition PHASE_CHRONOS_PRE_ACCEPT : Z := 2.
Definition PHASE_CHRONOS_COMMIT : Z := 3.

Definition TXN_STD : Z := 1.
Definition TXN_PAC : Z := 2.
Definition TXN_CMT : Z := 8.

(** [executed_callback] is assigned or the default that fails; [ptr_output_repy_] points
    to the output of a pending request or nowhere. *)
Record TxOV := mk_txov {
  ox_phase : Z;
  ox_status : Z;
  ox_dreqs : list SimpleCommand;
  ox_output : TxnOutput;
  ox_committed : bool;
  ox_executed : bool;
  ox_involved : bool;
  ox_fully_dispatched : bool;
  ox_ovts : ov_ts_t;
  ox_ov_status : OV_txn_status;
  ox_callback : bool;
  ox_reply : bool;
  ox_root_type : Z;
}.
#[export] Instance Eta_txov : Eta TxOV :=
  fun r => mk_txov (ox_phase r) (ox_status r) (ox_dreqs r) (ox_output r) (ox_committed r) (ox_executed r) (ox_involved r)
    (ox_fully_dispatched r) (ox_ovts r) (ox_ov_status r) (ox_callback r) (ox_reply r) (ox_root_type r).

Definition new_TxOV : TxOV := mk_txov 0 0 [] [] false false false false ov_zero INIT false false 0.

(** The handlers of the pieces, which act on the rows according to the phase of the
    transaction, and fill the output they are given. *)
Class OvRegistry := {
  OvDb : Type;
  ov_txn_reg_ : Z -> Z -> option (defer_t * (Z -> SimpleCommand -> omap Z Value -> OvDb -> TxnWorkspace * OvDb * omap Z Value));
}.

Section tx.
Context `{OvRegistry}.

Definition ov_reg_get (c : SimpleCommand) := ov_txn_reg_ (root_type_ c) (type_ c).

Record OvTxSt := mk_otst { ot_tx : TxOV; ot_db : OvDb }.
#[export] Instance Eta_otst : Eta OvTxSt := fun r => mk_otst (ot_tx r) (ot_db r).

Definition set_tx (f : TxOV -> TxOV) : M OvTxSt () := modify (fun s => s <| ot_tx ::= f |>).

(** A piece that is handed to its handler and also kept in [dreqs_]: the copy shares the
    values of the workspace. *)
Definition share_values (kept : bool) (ws : TxnWorkspace) (t : TxOV) : TxOV :=
  if kept then t <| ox_dreqs ::= fun l => alter (fun c => c <| input ::= fun w => w <| values_ := values_ ws |> |>) (length l - 1)%nat l |>
  else t.

Definition known_piece (c : SimpleCommand) (t : TxOV) : bool := existsb (fun x => inn_id_ x =? inn_id_ c) (ox_dreqs t).

Definition run_handler (kept : bool) (handler : Z -> SimpleCommand -> omap Z Value -> OvDb -> TxnWorkspace * OvDb * omap Z Value)
    (c : SimpleCommand) (out : omap Z Value) : M OvTxSt (omap Z Value) :=
  state (fun s =>
    let '(ws, db, out) := handler (ox_phase (ot_tx s)) c out (ot_db s) in
    (out, s <| ot_db := db |> <| ot_tx ::= share_values kept ws |>)).

Definition keep_piece (c : SimpleCommand) : M OvTxSt () := set_tx (fun t => t <| ox_dreqs ::= fun l => l ++ [c] |>).

Definition DispatchExecute (c : SimpleCommand) (out : omap Z Value) : M OvTxSt (omap Z Value) :=
  set_tx (fun t => t <| ox_phase := PHASE_CHRONOS_DISPATCH |> <| ox_root_type := root_type_ c |>);;
  s ← get;
  if known_piece c (ot_tx s) then mret out
  else
    '(defer, handler) ← from_option (ov_reg_get c);
    match defer with
    | DF_REAL => keep_piece c;; run_handler true handler c out
    | DF_NO => run_handler false handler c out
    | DF_FAKE => keep_piece c;; mret out
    end.

Definition PreAcceptExecute (c : SimpleCommand) (out : omap Z Value) : M OvTxSt (omap Z Value) :=
  set_tx (fun t => t <| ox_phase := PHASE_CHRONOS_PRE_ACCEPT |>);;
  s ← get;
  let already_dispatched := known_piece c (ot_tx s) in
  '(defer, handler) ← from_option (ov_reg_get c);
  match defer with
  | DF_REAL => when (negb already_dispatched) (keep_piece c);; run_handler (negb already_dispatched) handler c out
  | DF_NO => run_handler false handler c out
  | DF_FAKE => when (negb already_dispatched) (keep_piece c);; mret out
  end.

(** The loop of [CommitExecute] over [dreqs_], [i] the index of the next piece. *)
Fixpoint commit_pieces (cmds : list SimpleCommand) (i : nat) (ws : TxnWorkspace) : M OvTxSt () :=
  match cmds with
  | [] => mret ()
  | c :: cmds =>
    '(_, handler) ← from_option (ov_reg_get c);
    let c := c <| input ::= ws_Aggregate ws |> in
    m ← state (fun s =>
      let '(ws', db, m) := handler (ox_phase (ot_tx s)) c (index [] (inn_id_ c) (ox_output (ot_tx s))).1 (ot_db s) in
      (m, s <| ot_db := db |>
            <| ot_tx ::= fun t => t <| ox_dreqs ::= alter (fun _ => c <| input := ws' |>) i |> <| ox_output ::= insert (inn_id_ c) m |> |>));
    commit_pieces cmds (S i) (ws_insert m ws)
  end.

Definition CommitExecute : M OvTxSt () :=
  set_tx (fun t => t <| ox_phase := PHASE_CHRONOS_COMMIT |>);;
  s ← get;
  commit_pieces (ox_dreqs (ot_tx s)) 0 (mk_ws [] [] [] 0);;
  set_tx (fun t => t <| ox_committed := true |>).

Definition UpdateStatus (st : Z) (t : TxOV) : TxOV := if ox_status t <? st then t <| ox_status := st |> else t.
End tx.

(** ** The scheduler of a site *)

(** What a handler starts or answers: the threads of the gossiper, and the requests of
    [OVExecute] that are pending.  The output of the answer is the reply buffer, which
    nothing writes. *)
Inductive OvOut := StartLoop | ReplyExecute (txn_id : Z) (output : TxnOutput).

Section sched.
Context `{OvRegistry}.

(** [gossiper_] is there or null; [stored_txns_by_id_] points to transactions of
    [dtxns_]; [so_executed] records the executions in their order. *)
Record SchedulerOV := mk_schedov {
  so_site_id : Z;
  so_partition_id : Z;
  so_has_gossiper : bool;
  so_gossiper_inited : bool;
  so_tid_mgr : TidMgr;
  so_txns : omap Z TxOV;
  so_stored : oset Z;
  so_vwatermark : ov_ts_t;
  so_db : OvDb;
  so_out : list OvOut;
  so_executed : list (Z * ov_ts_t);
}.
#[export] Instance Eta_schedov : Eta SchedulerOV :=
  fun r => mk_schedov (so_site_id r) (so_partition_id r) (so_has_gossiper r) (so_gossiper_inited r) (so_tid_mgr r) (so_txns r)
    (so_stored r) (so_vwatermark r) (so_db r) (so_out r) (so_executed r).

Definition new_SchedulerOV (junk_clock drift site_id partition_id : Z) (has_gossiper : bool) (db : OvDb) : SchedulerOV :=
  mk_schedov site_id partition_id has_gossiper false (new_TidMgr junk_clock drift site_id) [] [] ov_zero db [] [].

Definition on_tid_mgr {A} (m : M TidMgr A) : M SchedulerOV A := fun s =>
  match m (so_tid_mgr s) with
  | Done (a, t) => Done (a, s <| so_tid_mgr := t |>)
  | Aborted => Aborted
  | OutOfFuel => OutOfFuel
  end.

(** A method of the transaction [id]. *)
Definition on_txn {A} (id : Z) (m : M OvTxSt A) : M SchedulerOV A := fun s =>
  match find id (so_txns s) with
  | None => Aborted
  | Some t =>
    match m (mk_otst t (so_db s)) with
    | Done (a, st) => Done (a, s <| so_txns ::= insert id (ot_tx st) |> <| so_db := ot_db st |>)
    | Aborted => Aborted
    | OutOfFuel => OutOfFuel
    end
  end.

Definition ov_emit (m : OvOut) : M SchedulerOV () := modify (fun s => s <| so_out ::= fun l => l ++ [m] |>).

(** [GetOrCreateDTxn] *)
Definition ov_GetOrCreateDTxn (id : Z) : M SchedulerOV () :=
  s ← get;
  when (negb (count id (so_txns s))) (modify (fun s => s <| so_txns ::= insert id new_TxOV |>)).
Definition ov_txn (id : Z) : M SchedulerOV TxOV := s ← get; from_option (find id (so_txns s)).

(** The pieces of a request, one after the other; [output] is by [inn_id]. *)
Fixpoint dispatch_pieces (id : Z) (cmds : list SimpleCommand) (output : TxnOutput) : M SchedulerOV TxnOutput :=
  match cmds with
  | [] => mret output
  | c :: cmds =>
    out ← on_txn id (DispatchExecute c (index [] (inn_id_ c) output).1);
    dispatch_pieces id cmds (insert (inn_id_ c) out output)
  end.

Definition OnDispatch (cmd : list SimpleCommand) : M SchedulerOV TxnOutput :=
  c0 ← from_option (head cmd);
  let txn_id := root_id_ c0 in
  ov_GetOrCreateDTxn txn_id;;
  s ← get;
  verify (cmd_partition_id_ c0 =? so_partition_id s);;
  output ← dispatch_pieces txn_id cmd [];
  on_txn txn_id (set_tx (UpdateStatus TXN_STD));;
  mret output.

Definition OnStore (txn_id : Z) (cmds : list SimpleCommand) (ts site_id : Z) : M SchedulerOV () :=
  verify (0 <? txn_id);;
  c0 ← from_option (head cmds);
  verify (root_id_ c0 =? txn_id);;
  s ← get;
  when (negb (so_gossiper_inited s))
    (modify (fun s => s <| so_gossiper_inited := true |>);;
     when (so_has_gossiper s) (ov_emit StartLoop));;
  ov_GetOrCreateDTxn txn_id;;
  on_txn txn_id (set_tx (fun t => (UpdateStatus TXN_PAC t) <| ox_involved := true |>));;
  t ← ov_txn txn_id;
  (if ox_status t <? TXN_CMT then
     when (ox_phase t <? PHASE_CHRONOS_PRE_ACCEPT)
       (for_each cmds (fun c => _ ← on_txn txn_id (PreAcceptExecute c []); mret ()))
   else
     when (length (ox_dreqs t) =? 0)%nat (on_txn txn_id (set_tx (fun t => t <| ox_dreqs ::= fun l => l ++ cmds |>))));;
  verify (negb (ox_fully_dispatched t));;
  on_txn txn_id (set_tx (fun t => t <| ox_fully_dispatched := true |> <| ox_ovts := mk_ovts ts site_id |> <| ox_ov_status := STORED |>));;
  modify (fun s => s <| so_stored ::= sinsert txn_id |>).

Definition OnCreateTs (now txn_id : Z) : M SchedulerOV ov_ts_t := on_tid_mgr (CreateTs now txn_id).

Definition OnStoredRemoveTs (txn_id timestamp server_id : Z) : M SchedulerOV () :=
  on_tid_mgr (StoredTs txn_id timestamp server_id).

(** [CommitExecute] at the scheduler. *)
Definition execute_txn (id : Z) : M SchedulerOV () :=
  t ← ov_txn id;
  verify (negb (ox_executed t));;
  on_txn id CommitExecute;;
  modify (fun s => s <| so_executed ::= fun l => l ++ [(id, ox_ovts t)] |>).

(** The loop over [stored_txns_by_id_], in the order of the identifiers. *)
Fixpoint execute_stored (ids : list Z) : M SchedulerOV () :=
  match ids with
  | [] => mret ()
  | id :: ids =>
    s ← get;
    t ← ov_txn id;
    when (ov_lt (ox_ovts t) (so_vwatermark s) && bool_decide (ox_ov_status t = CAN_EXECUTE))
      (execute_txn id;;
       modify (fun s => s <| so_stored ::= serase id |>);;
       verify (ox_callback t);;
       ov_emit (ReplyExecute id []));;
    execute_stored ids
  end.

Definition OnPublish (now dc_ts dc_id : Z) : M SchedulerOV ov_ts_t :=
  let dc_ovts := mk_ovts dc_ts dc_id in
  s ← get;
  when (ov_gt dc_ovts (so_vwatermark s))
    (modify (fun s => s <| so_vwatermark := dc_ovts |>);;
     execute_stored (so_stored s));;
  on_tid_mgr (GetServerVWatermark now).

Definition OnExecute (txn_id : Z) : M SchedulerOV () :=
  ov_GetOrCreateDTxn txn_id;;
  t ← ov_txn txn_id;
  verify (negb (ox_reply t));;
  on_txn txn_id (set_tx (fun t => t <| ox_reply := true |> <| ox_ov_status := CAN_EXECUTE |>));;
  s ← get;
  if ov_gt (ox_ovts t) (so_vwatermark s) then
    on_txn txn_id (set_tx (fun t => t <| ox_callback := true |>))
  else
    execute_txn txn_id;;
    modify (fun s => s <| so_stored ::= serase txn_id |>);;
    on_txn txn_id (set_tx (fun t => t <| ox_ov_status := EXECUTED |>));;
    ov_emit (ReplyExecute txn_id []).
End sched.
