(* ===== verification/OvGossip.v ===== *)
(** * Ocean Vista: the gossiper of a data centre
    (src/deptran/ocean_vista/ov-gossiper.h, ov-gossiper.cc)

    The first site of a data centre collects the watermarks of the sites ([Aggregate]),
    exchanges the least of them with the gossipers of the other data centres
    ([Gossip]), and publishes the least of all with the next round of [Aggregate].

    The names of sites and data centres are numbers in the order of the strings; a site
    is known by its index in the configuration. *)
From stdpp Require Import base tactics numbers list sorting.
From S2P Require Import Prelude OMap Command OvSched.

Record OvSite := mk_ovsite { os_name : Z; os_dc : Z; os_par : Z }.
Class OvConfig := ov_sites : list OvSite.

(** [peer_dc] is what the callback of the exchange remembers. *)
Inductive OvGossipMsg :=
  | SendPublish (site : Z) (wm : ov_ts_t)
  | SendExchange (site peer_dc dcname : Z) (wm : ov_ts_t).

Record OVGossiper := mk_gossiper {
  gs_dcname : Z;
  gs_peers : omap Z Z;
  gs_dc_wm : omap Z ov_ts_t;
  gs_site_wm : omap Z ov_ts_t;
  gs_vwatermark : ov_ts_t;
  gs_publish_acks : oset Z;
  gs_exchange_acks : oset Z;
  gs_gossip_flag : bool;
  gs_aggregate_flag : bool;
  gs_sent : list OvGossipMsg;
}.
#[export] Instance Eta_gossiper : Eta OVGossiper :=
  fun r => mk_gossiper (gs_dcname r) (gs_peers r) (gs_dc_wm r) (gs_site_wm r) (gs_vwatermark r) (gs_publish_acks r)
    (gs_exchange_acks r) (gs_gossip_flag r) (gs_aggregate_flag r) (gs_sent r).

Section gossiper.
Context `{OvConfig}.

(** [for (index = 0; ...; index++) if (sites_[index].name == name) break] *)
Fixpoint index_of_name (name : Z) (sites : list OvSite) (i : Z) : option Z :=
  match sites with
  | [] => None
  | s :: sites => if os_name s =? name then Some i else index_of_name name sites (i + 1)
  end.

(** [sites_by_dc_]: the names of the sites of each data centre *)
Definition sites_by_dc : omap Z (oset Z) :=
  foldl (fun m s => insert (os_dc s) (sinsert (os_name s) (index [] (os_dc s) m).1) m) [] ov_sites.

(** One data centre in the loop of the constructor. *)
Definition init_dc (g : OVGossiper) (dc : Z * oset Z) : option OVGossiper :=
  let g := g <| gs_dc_wm ::= insert dc.1 ov_zero |> in
  if negb (dc.1 =? gs_dcname g) then
    name ← head dc.2;
    i ← index_of_name name ov_sites 0;
    Some (g <| gs_peers ::= insert dc.1 i |>)
  else
    Some (foldl (fun g name =>
      g <| gs_site_wm ::= insert (default (Z.of_nat (length ov_sites)) (index_of_name name ov_sites 0)) ov_zero |>) g dc.2).

(** The two flags have no initialiser. *)
Definition new_OVGossiper (junk_gossip junk_aggregate : bool) (dcname : Z) : option OVGossiper :=
  foldl (fun g dc => g ← g; init_dc g dc) (Some (mk_gossiper dcname [] [] [] ov_zero [] [] junk_gossip junk_aggregate [])) sites_by_dc.

(** Whether a site makes the gossiper: the first name of its data centre. *)
Definition makes_gossiper (s : OvSite) : bool :=
  match find (os_dc s) sites_by_dc with
  | Some (name :: _) => os_name s =? name
  | _ => false
  end.

Definition gs_send (m : OvGossipMsg) : M OVGossiper () := modify (fun g => g <| gs_sent ::= fun l => l ++ [m] |>).

(** [m[k] = v] if [v] is larger; [operator[]] makes an entry. *)
Definition raise_wm (k : Z) (v : ov_ts_t) (m : omap Z ov_ts_t) : omap Z ov_ts_t :=
  let '(old, m) := index ov_zero k m in
  if ov_gt v old then insert k v m else m.

Definition least_wm (m : omap Z ov_ts_t) : option ov_ts_t :=
  match m with
  | [] => None
  | (_, w) :: _ => Some (foldl (fun least p => if ov_lt p.2 least then p.2 else least) w m)
  end.

Definition OnExchange (dcname : Z) (dvw_ovts : ov_ts_t) : M OVGossiper ov_ts_t :=
  modify (fun g => g <| gs_dc_wm ::= raise_wm dcname dvw_ovts |>);;
  state (fun g => let '(w, m) := index ov_zero (gs_dcname g) (gs_dc_wm g) in (w, g <| gs_dc_wm := m |>)).

Definition Aggregate : M OVGossiper () :=
  modify (fun g => g <| gs_publish_acks := [] |>);;
  g ← get;
  for_each (gs_site_wm g) (fun p => gs_send (SendPublish p.1 (gs_vwatermark g))).

Definition PublishAck (site_id : Z) (ret_ovts : ov_ts_t) : M OVGossiper () :=
  modify (fun g => g <| gs_publish_acks ::= sinsert site_id |>);;
  g ← get;
  verify (count site_id (gs_site_wm g));;
  modify (fun g => g <| gs_site_wm ::= raise_wm site_id ret_ovts |>);;
  g ← get;
  when (length (gs_publish_acks g) =? length (gs_site_wm g))%nat
    (min_ovts ← from_option (least_wm (gs_site_wm g));
     modify (fun g => g <| gs_dc_wm ::= insert (gs_dcname g) min_ovts |> <| gs_aggregate_flag := true |>)).

Definition Gossip : M OVGossiper () :=
  modify (fun g => g <| gs_exchange_acks := [] |>);;
  g ← get;
  for_each (gs_peers g) (fun p =>
    w ← state (fun g => let '(w, m) := index ov_zero (gs_dcname g) (gs_dc_wm g) in (w, g <| gs_dc_wm := m |>));
    gs_send (SendExchange p.2 p.1 (gs_dcname g) w)).

Definition ExchangeAck (site_id dcname : Z) (ret_ovts : ov_ts_t) : M OVGossiper () :=
  modify (fun g => g <| gs_exchange_acks ::= sinsert site_id |>);;
  g ← get;
  verify (count dcname (gs_dc_wm g));;
  modify (fun g => g <| gs_dc_wm ::= raise_wm dcname ret_ovts |>);;
  g ← get;
  when (length (gs_exchange_acks g) =? length (gs_peers g))%nat
    (min_ovts ← from_option (least_wm (gs_dc_wm g));
     modify (fun g => g <| gs_vwatermark := min_ovts |> <| gs_gossip_flag := true |>)).

(** One turn of the loops, when the flag is set. *)
Definition GossipLoop : M OVGossiper () :=
  g ← get;
  when (gs_gossip_flag g) (modify (fun g => g <| gs_gossip_flag := false |>);; Gossip).
Definition AggregateLoop : M OVGossiper () :=
  g ← get;
  when (gs_aggregate_flag g) (modify (fun g => g <| gs_aggregate_flag := false |>);; Aggregate).
End gossiper.
