(* ===== verification/OvCoord.v ===== *)
(** * Ocean Vista: the coordinator
    (src/deptran/ocean_vista/ov-coordinator.h, ov-coordinator.cc, ov-commo.cc,
    src/deptran/classic/coord.cc)

    A coordinator gets a timestamp, dispatches the pieces, stores them at every replica
    of the touched partitions, reports that they are stored, and has them executed.  The
    answers are matched with the phase in which the request was made.

    What a workload does with an output ([start_callback]) is a parameter; the read-only
    state and the early return of a transaction are at their initial values. *)
From stdpp Require Import base tactics numbers list sorting.
From S2P Require Import Prelude OMap Command Chopper OvSched.

(** The requests of [OVCommo], with the phase that the callback remembers. *)
Inductive OvReq :=
  | SendCreateTs (phase txn_id : Z)
  | SendDispatch (phase : Z) (cmds : list SimpleCommand)
  | BroadcastStore (phase par_id txn_id : Z) (cmds : list SimpleCommand) (ts : ov_ts_t)
  | SendStoredRemoveTs (phase txn_id : Z) (ts : ov_ts_t)
  | BroadcastExecute (phase par_id txn_id : Z).

Definition OV_INIT : Z := 0.
Definition OV_CREATED_TS : Z := 1.
Definition OV_DISPATHED : Z := 2.
Definition OV_STORED : Z := 3.
Definition OV_EXECUTE : Z := 4.
Definition OV_END : Z := 5.

Record CoordinatorOV := mk_ovcoord {
  oc_phase : Z;
  oc_committed : bool;
  oc_n_dispatch : Z;
  oc_n_dispatch_ack : Z;
  oc_dispatch_acks : omap Z bool;
  oc_next_pie_id : Z;
  oc_cmd : TxnCommand;
  oc_ovts : ov_ts_t;
  oc_store_acks : omap Z Z;
  oc_execute_acks : omap Z Z;
  oc_commit_oks : omap Z Z;
  oc_sent : list OvReq;
  oc_ended : list Z;
}.
#[export] Instance Eta_ovcoord : Eta CoordinatorOV :=
  fun r => mk_ovcoord (oc_phase r) (oc_committed r) (oc_n_dispatch r) (oc_n_dispatch_ack r) (oc_dispatch_acks r)
    (oc_next_pie_id r) (oc_cmd r) (oc_ovts r) (oc_store_acks r) (oc_execute_acks r) (oc_commit_oks r) (oc_sent r) (oc_ended r).

Class OvWorkload := ov_start_callback : Z -> omap Z Value -> TxnCommand -> TxnCommand.

(** [TxnCommand::GetCmdsByPartition] *)
Definition GetCmdsByPartition (par_id : Z) (t : TxnCommand) : list SimpleCommand :=
  filter (fun c => cmd_partition_id_ c = par_id) (cmds_ t).*2.

Section coord.
Context `{OvWorkload}.

Definition on_oc_cmd {A} (m : M TxnCommand A) : M CoordinatorOV A := fun s =>
  match m (oc_cmd s) with
  | Done (a, t) => Done (a, s <| oc_cmd := t |>)
  | Aborted => Aborted
  | OutOfFuel => OutOfFuel
  end.

Definition oc_send (m : OvReq) : M CoordinatorOV () := modify (fun s => s <| oc_sent ::= fun l => l ++ [m] |>).

Definition own_root : M CoordinatorOV () := s ← get; verify (txn_root_id_ (oc_cmd s) =? txn_id_ (oc_cmd s)).

Definition oc_CreateTs : M CoordinatorOV () :=
  own_root;;
  s ← get;
  oc_send (SendCreateTs (oc_phase s) (txn_id_ (oc_cmd s))).

(** [c->id_ = next_pie_id(); dispatch_acks_[c->inn_id_] = false] *)
Definition oc_number_piece (c : SimpleCommand) : M CoordinatorOV SimpleCommand :=
  state (fun s =>
    let c' := c <| id_ := oc_next_pie_id s |> in
    (c', s <| oc_next_pie_id ::= fun n => u64 (n + 1) |> <| oc_dispatch_acks ::= insert (inn_id_ c) false |>
           <| oc_cmd ::= fun t => t <| cmds_ ::= insert (inn_id_ c) c' |> |>)).

Fixpoint oc_number_pieces (cmds : list SimpleCommand) : M CoordinatorOV (list SimpleCommand) :=
  match cmds with
  | [] => mret []
  | c :: cmds => c ← oc_number_piece c; cmds ← oc_number_pieces cmds; mret (c :: cmds)
  end.

Definition oc_Dispatch : M CoordinatorOV () :=
  own_root;;
  cmds_by_par ← on_oc_cmd (GetReadyCmds 0);
  for_each cmds_by_par (fun p =>
    modify (fun s => s <| oc_n_dispatch ::= fun n => u32 (n + Z.of_nat (length p.2)) |>);;
    cc ← oc_number_pieces p.2;
    s ← get;
    oc_send (SendDispatch (oc_phase s) cc)).

Definition OVStore : M CoordinatorOV () :=
  s ← get;
  for_each (partition_ids_ (oc_cmd s)) (fun par_id =>
    oc_send (BroadcastStore (oc_phase s) par_id (txn_id_ (oc_cmd s)) (GetCmdsByPartition par_id (oc_cmd s)) (oc_ovts s))).

Definition StoredRemoveTs : M CoordinatorOV () :=
  own_root;;
  s ← get;
  oc_send (SendStoredRemoveTs (oc_phase s) (txn_id_ (oc_cmd s)) (oc_ovts s)).

Definition Execute : M CoordinatorOV () :=
  s ← get;
  for_each (partition_ids_ (oc_cmd s)) (fun par_id => oc_send (BroadcastExecute (oc_phase s) par_id (txn_id_ (oc_cmd s)))).

(** [ClassicCoord::End]; nothing aborts a transaction. *)
Definition oc_End : M CoordinatorOV () :=
  s ← get;
  verify (oc_committed s);;
  modify (fun s => s <| oc_ended ::= fun l => l ++ [txn_id_ (oc_cmd s)] |>).

Definition oc_GotoNextPhase : M CoordinatorOV () :=
  s ← get;
  let current_phase := oc_phase s mod 6 in
  modify (fun s => s <| oc_phase ::= fun p => u32 (p + 1) |>);;
  let at_phase p := s ← get; verify (oc_phase s mod 6 =? p) in
  if current_phase =? OV_INIT then oc_CreateTs;; at_phase OV_CREATED_TS
  else if current_phase =? OV_CREATED_TS then oc_Dispatch;; at_phase OV_DISPATHED
  else if current_phase =? OV_DISPATHED then OVStore;; at_phase OV_STORED
  else if current_phase =? OV_STORED then StoredRemoveTs;; at_phase OV_EXECUTE
  else if current_phase =? OV_EXECUTE then Execute;; at_phase OV_END
  else at_phase OV_INIT;; oc_End.

Definition TxnStored (s : CoordinatorOV) : bool := forallb (fun par_id => count par_id (oc_store_acks s)) (partition_ids_ (oc_cmd s)).

(** Every answer is [SUCCESS]. *)
Definition OVStoreACK (phase par_id : Z) : M CoordinatorOV () :=
  s ← get;
  if negb (phase =? oc_phase s) then mret ()
  else
    modify (fun s => s <| oc_store_acks ::= fun m => let '(n, m) := index 0 par_id m in insert par_id (i32 (n + 1)) m |>);;
    s ← get;
    when (TxnStored s) oc_GotoNextPhase.

Definition StoredRemoveTsAck (phase : Z) : M CoordinatorOV () :=
  s ← get;
  verify (phase =? oc_phase s);;
  own_root;;
  oc_GotoNextPhase.

Definition CreateTsAck (phase : Z) (ts : ov_ts_t) : M CoordinatorOV () :=
  s ← get;
  verify (phase =? oc_phase s);;
  own_root;;
  modify (fun s => s <| oc_ovts := ts |>);;
  oc_GotoNextPhase.

(** [TxnCommand::Merge(TxnOutput&)] *)
Definition oc_Merge (output : TxnOutput) : M CoordinatorOV () :=
  for_each output (fun p => on_oc_cmd (Merge ov_start_callback p.1 p.2)).

Definition ExecuteAck (phase par_id : Z) (output : TxnOutput) : M CoordinatorOV () :=
  s ← get;
  if negb (phase =? oc_phase s) then mret ()
  else
    modify (fun s => s <| oc_committed := true |>
      <| oc_execute_acks ::= fun m => let '(n, m) := index 0 par_id m in insert par_id (i32 (n + 1)) m |>);;
    n ← state (fun s => let '(n, m) := index 0 par_id (oc_commit_oks s) in (n, s <| oc_commit_oks := m |>));
    if 1 <? n then mret ()
    else
      oc_Merge output;;
      s ← get;
      when (OutputReady (oc_cmd s)) oc_GotoNextPhase.

(** [ClassicCoord::AllDispatchAcked] *)
Definition AllDispatchAcked : M CoordinatorOV bool :=
  s ← get;
  if forallb snd (oc_dispatch_acks s) then verify (oc_n_dispatch_ack s =? oc_n_dispatch s);; mret true else mret false.

Definition DispatchAck (phase : Z) (output : TxnOutput) : M CoordinatorOV () :=
  s ← get;
  verify (phase =? oc_phase s);;
  own_root;;
  for_each output (fun p =>
    modify (fun s => s <| oc_n_dispatch_ack ::= fun n => u32 (n + 1) |>);;
    s ← get;
    verify (negb (index false p.1 (oc_dispatch_acks s)).1);;
    modify (fun s => s <| oc_dispatch_acks ::= insert p.1 true |>);;
    on_oc_cmd (Merge ov_start_callback p.1 p.2));;
  more ← on_oc_cmd HasMoreSubCmdReadyNotOut;
  if (more : bool) then oc_Dispatch
  else
    all ← AllDispatchAcked;
    when all oc_GotoNextPhase.

Definition oc_Reset (s : CoordinatorOV) : CoordinatorOV :=
  s <| oc_committed := false |> <| oc_n_dispatch := 0 |> <| oc_n_dispatch_ack := 0 |> <| oc_dispatch_acks := [] |>
    <| oc_execute_acks := [] |> <| oc_store_acks := [] |>.

(** [ClassicCoord::do_one] for the transaction made of a request, with the identifier
    [next_txn_id()]. *)
Definition oc_do_one (txn_id : Z) (t : TxnCommand) : M CoordinatorOV () :=
  modify (fun s => oc_Reset (s <| oc_cmd := t <| txn_root_id_ := txn_id |> <| txn_id_ := txn_id |> <| txn_timestamp_ := txn_id |> |>));;
  oc_GotoNextPhase.
End coord.
