(* ===== verification/OvSystem.v ===== *)
(** * Ocean Vista: coordinators, sites and gossipers together

    The parts of Ocean Vista with the messages between them.  A message that has been
    sent may be delivered at any later time, once, in any order; a handler that fails a
    [verify] has no successor state.

    [ow_ts] records the timestamp that was made for a transaction and the site that made
    it, [ow_reported] the transactions that were reported as stored, with the timestamp
    and the touched partitions; neither is read by a handler.  [ow_pending] is who waits for the answer of an
    execution. *)
From stdpp Require Import base tactics numbers list sorting gmap.
From S2P Require Import Prelude OMap Command Chopper OvSched OvGossip OvCoord.

Inductive ov_packet :=
  | PReq (coo : Z) (site : option Z) (r : OvReq)
  | PCreateTsAck (coo phase : Z) (ts : ov_ts_t)
  | PDispatchAck (coo phase : Z) (output : TxnOutput)
  | PStoreAck (coo phase par : Z)
  | PRemoveAck (coo phase : Z)
  | PExecuteAck (coo phase par : Z) (output : TxnOutput)
  | PPublish (g site : Z) (wm : ov_ts_t)
  | PPublishAck (g site : Z) (wm : ov_ts_t)
  | PExchange (g site peer_dc dcname : Z) (wm : ov_ts_t)
  | PExchangeAck (g site peer_dc : Z) (wm : ov_ts_t).

Section system.
Context `{OvRegistry} `{OvConfig} `{OvWorkload}.

Record OvSys := mk_ovsys {
  ow_sites : gmap Z SchedulerOV;
  ow_gossipers : gmap Z OVGossiper;
  ow_coords : gmap Z CoordinatorOV;
  ow_net : list ov_packet;
  ow_pending : gmap (Z * Z) (Z * Z * Z);
  ow_ts : gmap Z (ov_ts_t * Z);
  ow_reported : list (Z * ov_ts_t * oset Z);
  ow_used : gset Z;
}.
#[export] Instance Eta_ovsys : Eta OvSys :=
  fun r => mk_ovsys (ow_sites r) (ow_gossipers r) (ow_coords r) (ow_net r) (ow_pending r) (ow_ts r) (ow_reported r) (ow_used r).

Definition ow_send (l : list ov_packet) (w : OvSys) : OvSys := w <| ow_net ::= fun n => n ++ l |>.

(** ** Running a handler at one of the parts *)

Definition gossip_packet (g : Z) (m : OvGossipMsg) : ov_packet :=
  match m with
  | SendPublish site wm => PPublish g site wm
  | SendExchange site peer_dc dcname wm => PExchange g site peer_dc dcname wm
  end.

Definition at_gossiper {A} (g : Z) (m : M OVGossiper A) (w : OvSys) : option (A * OvSys) :=
  r ← ow_gossipers w !! g;
  match m (r <| gs_sent := [] |>) with
  | Done (a, r) => Some (a, ow_send (gossip_packet g <$> gs_sent r) (w <| ow_gossipers ::= <[g := r]> |>))
  | _ => None
  end.

(** What a site starts or answers. *)
Definition ov_out (site : Z) (w : option OvSys) (o : OvOut) : option OvSys :=
  w ← w;
  match o with
  | StartLoop => snd <$> at_gossiper site (Gossip;; Aggregate) w
  | ReplyExecute id output =>
    '(coo, phase, par) ← ow_pending w !! (site, id);
    Some (ow_send [PExecuteAck coo phase par output] w)
  end.

Definition at_ovsite {A} (site : Z) (m : M SchedulerOV A) (w : OvSys) : option (A * OvSys) :=
  r ← ow_sites w !! site;
  match m (r <| so_out := [] |>) with
  | Done (a, r) => pair a <$> foldl (ov_out site) (Some (w <| ow_sites ::= <[site := r]> |>)) (so_out r)
  | _ => None
  end.

(** The sites of a partition ([rpc_par_proxies_]). *)
Definition par_sites (par : Z) : list Z :=
  base.omap (fun x => if os_par x.2 =? par then Some (Z.of_nat x.1) else None) (imap pair ov_sites).

Definition req_packets (coo : Z) (r : OvReq) : option (list ov_packet) :=
  match r with
  | SendCreateTs _ _ | SendDispatch _ _ => Some [PReq coo None r]
  | BroadcastStore _ par _ _ _ | BroadcastExecute _ par _ =>
    match par_sites par with
    | [] => None
    | sites => Some ((fun site => PReq coo (Some site) r) <$> sites)
    end
  | SendStoredRemoveTs _ _ ts => Some [PReq coo (Some (ov_site_id_ ts)) r]
  end.

Definition note_stored (c : CoordinatorOV) (w : OvSys) (r : OvReq) : OvSys :=
  match r with
  | SendStoredRemoveTs _ id ts => w <| ow_reported ::= fun l => l ++ [(id, ts, partition_ids_ (oc_cmd c))] |>
  | _ => w
  end.

Definition at_coord (coo : Z) (m : M CoordinatorOV ()) (w : OvSys) : option OvSys :=
  c ← ow_coords w !! coo;
  match m (c <| oc_sent := [] |>) with
  | Done (_, c) =>
    ps ← mapM (req_packets coo) (oc_sent c);
    Some (ow_send (concat ps) (foldl (note_stored c) (w <| ow_coords ::= <[coo := c]> |>) (oc_sent c)))
  | _ => None
  end.

(** ** Steps *)

Definition ov_serve (coo site now : Z) (r : OvReq) (w : OvSys) : option OvSys :=
  match r with
  | SendCreateTs phase id =>
    '(ts, w) ← at_ovsite site (OnCreateTs now id) w;
    Some (ow_send [PCreateTsAck coo phase ts] (w <| ow_ts ::= <[id := (ts, site)]> |>))
  | SendDispatch phase cmds =>
    '(output, w) ← at_ovsite site (OnDispatch cmds) w;
    Some (ow_send [PDispatchAck coo phase output] w)
  | BroadcastStore phase par id cmds ts =>
    '(_, w) ← at_ovsite site (OnStore id cmds (ov_timestamp_ ts) (ov_site_id_ ts)) w;
    Some (ow_send [PStoreAck coo phase par] w)
  | SendStoredRemoveTs phase id ts =>
    '(_, w) ← at_ovsite site (OnStoredRemoveTs id (ov_timestamp_ ts) (ov_site_id_ ts)) w;
    Some (ow_send [PRemoveAck coo phase] w)
  | BroadcastExecute phase par id =>
    snd <$> at_ovsite site (OnExecute id) (w <| ow_pending ::= <[(site, id) := (coo, phase, par)]> |>)
  end.

(** [site] is the site that is asked where the sender may choose one; [now] is the clock. *)
Definition ov_deliver (p : ov_packet) (site now : Z) (w : OvSys) : option OvSys :=
  match p with
  | PReq coo target r => ov_serve coo (default site target) now r w
  | PCreateTsAck coo phase ts => at_coord coo (CreateTsAck phase ts) w
  | PDispatchAck coo phase output => at_coord coo (DispatchAck phase output) w
  | PStoreAck coo phase par => at_coord coo (OVStoreACK phase par) w
  | PRemoveAck coo phase => at_coord coo (StoredRemoveTsAck phase) w
  | PExecuteAck coo phase par output => at_coord coo (ExecuteAck phase par output) w
  | PPublish g site wm =>
    '(ts, w) ← at_ovsite site (OnPublish now (ov_timestamp_ wm) (ov_site_id_ wm)) w;
    Some (ow_send [PPublishAck g site ts] w)
  | PPublishAck g site wm => snd <$> at_gossiper g (PublishAck site wm) w
  | PExchange g site peer_dc dcname wm =>
    '(ts, w) ← at_gossiper site (OnExchange dcname wm) w;
    Some (ow_send [PExchangeAck g site peer_dc ts] w)
  | PExchangeAck g site peer_dc wm => snd <$> at_gossiper g (ExchangeAck site peer_dc wm) w
  end.

Inductive ov_event :=
  | EvStart (coo id : Z) (t : TxnCommand)
  | EvDeliver (k : nat) (site now : Z)
  | EvGossip (g : Z)
  | EvAggregate (g : Z).

(** A coordinator that has ended its transaction, or has had none, takes a new one, with
    a new identifier; the loops of a gossiper run once they are started. *)
Definition ov_step (e : ov_event) (w : OvSys) : option OvSys :=
  match e with
  | EvStart coo id t =>
    c ← ow_coords w !! coo;
    if bool_decide (oc_phase c mod 6 = OV_INIT) && bool_decide (id ∉ ow_used w) then
      at_coord coo (oc_do_one id t) (w <| ow_used ::= fun X => {[id]} ∪ X |>)
    else None
  | EvDeliver k site now =>
    p ← ow_net w !! k;
    ov_deliver p site now (w <| ow_net ::= delete k |>)
  | EvGossip g =>
    s ← ow_sites w !! g;
    if so_gossiper_inited s then snd <$> at_gossiper g GossipLoop w else None
  | EvAggregate g =>
    s ← ow_sites w !! g;
    if so_gossiper_inited s then snd <$> at_gossiper g AggregateLoop w else None
  end.

Fixpoint ov_run (es : list ov_event) (w : OvSys) : option OvSys :=
  match es with
  | [] => Some w
  | e :: es => w ← ov_step e w; ov_run es w
  end.

(** ** The beginning *)

(** What has no initialiser, and the drift of the clocks. *)
Record OvInit := mk_ovinit {
  oi_clock : Z -> Z;
  oi_drift : Z -> Z;
  oi_flags : Z -> bool * bool;
  oi_db : OvDb;
  oi_coords : gmap Z CoordinatorOV;
}.

Definition init_site (i : OvInit) (x : nat * OvSite) : Z * SchedulerOV :=
  let id := Z.of_nat x.1 in
  (id, new_SchedulerOV (oi_clock i id) (oi_drift i id) id (os_par x.2) (makes_gossiper x.2) (oi_db i)).

Definition init_gossiper (i : OvInit) (x : nat * OvSite) : option (Z * OVGossiper) :=
  let id := Z.of_nat x.1 in
  if makes_gossiper x.2 then pair id <$> new_OVGossiper (oi_flags i id).1 (oi_flags i id).2 (os_dc x.2) else None.

Definition ov_init (i : OvInit) : OvSys := {|
  ow_sites := list_to_map (init_site i <$> imap pair ov_sites);
  ow_gossipers := list_to_map (base.omap (init_gossiper i) (imap pair ov_sites));
  ow_coords := oi_coords i;
  ow_net := [];
  ow_pending := ∅;
  ow_ts := ∅;
  ow_reported := [];
  ow_used := ∅;
|}.
End system.
