(* ===== verification/OvWatermark.v ===== *)
(** * Ocean Vista: what a watermark promises

    A watermark is [safe] for a site when the site has no timestamp below it that is not
    stored, and will make none.  The watermark of a site, of a data centre and of the
    whole system are safe for the site, the data centre and all sites. *)
From stdpp Require Import base tactics numbers list sorting gmap.
From S2P Require Import Prelude OMap Command Chopper OvSched OvGossip OvCoord OvSystem.

(** ** One site *)

(** After [n] steps: the clocks of the sites stay far from overflow. *)
Record tid_ok (n : Z) (t : TidMgr) : Prop := {
  tk_sorted : sorted_keys (s_phase_txns_ t);
  tk_clock : 0 <= last_clock_ t <= 2 ^ 62 + n;
  tk_keys : forall k, k ∈ (s_phase_txns_ t).*1 -> 1 <= ov_timestamp_ k <= last_clock_ t;
  tk_drift : 0 <= time_drift_ms_ t < 2 ^ 61;
}.

Definition clock_ok (now : Z) : Prop := 0 <= now < 2 ^ 61.

Record safe (t : TidMgr) (w : ov_ts_t) : Prop := {
  sf_clock : ov_timestamp_ w <= last_clock_ t;
  sf_keys : forall k, k ∈ (s_phase_txns_ t).*1 -> ~ ov_lex k w;
}.

Lemma safe_lower t w w' : safe t w -> ~ ov_lex w w' -> safe t w'.
Proof.
  intros [A B] Hle. split; [unfold ov_lex in Hle; lia|]. intros k Hk. specialize (B k Hk). unfold ov_lex in *. lia.
Qed.

Lemma safe_zero n t : tid_ok n t -> safe t ov_zero.
Proof. intros [A B C D]. split; [cbn; lia|]. intros k Hk%C. unfold ov_lex. cbn. lia. Qed.

Lemma GetMonot_spec n now t ts t' :
  tid_ok n t -> 0 <= n < 2 ^ 31 -> clock_ok now -> GetMonotTimestamp now t = Done (ts, t') ->
  tid_ok (n + 1) t' /\ s_phase_txns_ t' = s_phase_txns_ t /\ last_clock_ t < last_clock_ t' /\ ov_timestamp_ ts = last_clock_ t'.
Proof.
  unfold clock_ok. intros [A B C D] Hn Hnow [= <- <-]. cbn.
  rewrite (wrap_s_id 64 (now + time_drift_ms_ t)), (wrap_s_id 64 (last_clock_ t + 1)) by (unfold in_s; cbn in *; lia).
  destruct (Z.leb_spec (now + time_drift_ms_ t) (last_clock_ t)); (split_and!; [|done|lia|done]);
    (split; cbn; [done|lia| |done]); intros k Hk%C; lia.
Qed.

Lemma tid_ok_mono n n' t : n <= n' -> tid_ok n t -> tid_ok n' t.
Proof. intros Hn [A B C D]. split; [done|lia|done..]. Qed.

Lemma CreateTs_spec n now id t ts t' :
  tid_ok n t -> 0 <= n < 2 ^ 31 -> clock_ok now -> CreateTs now id t = Done (ts, t') ->
  tid_ok (n + 1) t' /\ (forall w, safe t w -> safe t' w /\ ~ ov_lex ts w) /\
  (forall k, find k (s_phase_txns_ t') = if decide (k = ts) then Some id else find k (s_phase_txns_ t)) /\
  find ts (s_phase_txns_ t) = None.
Proof.
  intros Hok Hn Hnow Hrun. apply bind_done in Hrun as (ts' & t1 & H1 & Hrun).
  destruct (GetMonot_spec n now t ts' t1 Hok Hn Hnow H1) as ([A B C D] & Ek & Hlt & Hts).
  apply bind_done in Hrun as ([] & t2 & [= <-] & [= <- <-]). cbn.
  assert (forall k, k ∈ (s_phase_txns_ t).*1 -> ov_timestamp_ k < ov_timestamp_ ts') as Hnew.
  { intros k Hk%(tk_keys _ _ Hok). lia. }
  split; [|split; [|split]].
  - split; cbn; [by apply sorted_insert|done| |done]. intros k [->|Hk]%insert_keys; [pose proof (tk_clock _ _ Hok); lia|by apply C].
  - intros w [S1 S2]. split; [|unfold ov_lex; lia]. split; cbn; [lia|]. rewrite Ek.
    intros k [->|Hk]%insert_keys; [unfold ov_lex; lia|by apply S2].
  - intros k. rewrite Ek, find_insert. destruct (decide (ts' = k)), (decide (k = ts')); congruence.
  - apply find_None_notin. intros Hin%Hnew. lia.
Qed.

Lemma StoredTs_spec n id ts t t' :
  tid_ok n t -> StoredTs id (ov_timestamp_ ts) (ov_site_id_ ts) t = Done (tt, t') ->
  tid_ok n t' /\ (forall w, safe t w -> safe t' w) /\ find ts (s_phase_txns_ t) = Some id /\
  (forall k, k ≠ ts -> find k (s_phase_txns_ t') = find k (s_phase_txns_ t)).
Proof.
  intros [A B C D] Hrun. assert (mk_ovts (ov_timestamp_ ts) (ov_site_id_ ts) = ts) as Ets by by destruct ts.
  unfold StoredTs in Hrun. rewrite Ets in Hrun. clear Ets.
  apply bind_done in Hrun as (? & ? & [= <- <-] & Hrun). apply bind_done in Hrun as (i & t1 & H1 & Hrun).
  destruct (find ts (s_phase_txns_ t)) as [i'|] eqn:E; [|done]. injection H1 as -> <-.
  apply bind_done in Hrun as ([] & t1 & H1 & Hrun). unfold verify in H1. destruct (Z.eqb_spec i id) as [->|]; [|done].
  injection H1 as <-. injection Hrun as <-. cbn.
  assert (forall k, k ∈ (erase ts (s_phase_txns_ t)).*1 -> k ∈ (s_phase_txns_ t).*1) as Hsub.
  { intros k ((k' & v) & -> & [Hin _]%erase_elem_of)%list_elem_of_fmap. apply list_elem_of_fmap. by exists (k', v). }
  split; [|split; [|split; [done|]]].
  - split; cbn; [by apply sorted_erase|done| |done]. intros k Hk%Hsub. by apply C.
  - intros w [S1 S2]. split; [done|]. cbn. intros k Hk%Hsub. by apply S2.
  - intros k Hk. by rewrite find_erase_ne.
Qed.

Lemma GetServerVWatermark_spec n now t ts t' :
  tid_ok n t -> 0 <= n < 2 ^ 31 -> clock_ok now -> GetServerVWatermark now t = Done (ts, t') ->
  tid_ok (n + 1) t' /\ (forall w, safe t w -> safe t' w) /\ s_phase_txns_ t' = s_phase_txns_ t /\ safe t' ts.
Proof.
  intros Hok Hn Hnow Hrun. apply bind_done in Hrun as (? & ? & [= <- <-] & Hrun).
  destruct (s_phase_txns_ t) as [|[k v] l] eqn:E.
  - destruct (GetMonot_spec n now t ts t' Hok Hn Hnow Hrun) as (Hok' & Ek & Hlt & Hts). rewrite E in Ek. split; [done|].
    split; [|split; [done|]].
    + intros w [S1 S2]. split; [lia|]. rewrite Ek. by intros k ?%elem_of_nil.
    + split; [lia|]. rewrite Ek. by intros k ?%elem_of_nil.
  - injection Hrun as <- <-. split; [apply (tid_ok_mono n); [lia|done]|]. split; [done|]. split; [done|]. split.
    + apply (tk_keys _ _ Hok). rewrite E. by left.
    + pose proof (tk_sorted _ _ Hok) as Hs. unfold sorted_keys in Hs. rewrite E in *. cbn in *.
      apply StronglySorted_inv in Hs as [_ Hall]. intros j [->|Hj]%elem_of_cons; [unfold ov_lex; lia|].
      rewrite Forall_forall in Hall. apply Hall in Hj. apply ov_lt_lex in Hj. unfold ov_lex in *. lia.
Qed.

(** ** All sites *)

Section watermark.
Context `{OvRegistry} `{OvConfig} `{OvWorkload}.

Definition site_info (id : Z) : option OvSite := if 0 <=? id then ov_sites !! Z.to_nat id else None.
Definition in_dc (dc id : Z) : Prop := exists x, site_info id = Some x /\ os_dc x = dc.

(** [wm] is safe for the sites of which [P] is true. *)
Definition safe_for (P : Z -> Prop) (sites : gmap Z SchedulerOV) (wm : ov_ts_t) : Prop :=
  forall id s, sites !! id = Some s -> P id -> safe (so_tid_mgr s) wm.
Abbreviation everywhere := (fun _ : Z => True).

Record sites_ok (n : Z) (sites : gmap Z SchedulerOV) : Prop := {
  sk_tid : forall id s, sites !! id = Some s -> tid_ok n (so_tid_mgr s);
  sk_wm : forall id s, sites !! id = Some s -> safe_for everywhere sites (so_vwatermark s);
  sk_info : forall id s, sites !! id = Some s -> is_Some (site_info id);
}.

Lemma safe_for_zero n sites P : sites_ok n sites -> safe_for P sites ov_zero.
Proof. intros Hs id s Hid _. by apply (safe_zero n), (sk_tid _ _ Hs id). Qed.

Lemma safe_for_lower (P : Z -> Prop) sites w w' : safe_for P sites w -> ~ ov_lex w w' -> safe_for P sites w'.
Proof. intros Hs Hle id s Hid HP. by apply (safe_lower _ w); [apply (Hs id)|]. Qed.

(** The sites go on: what was safe stays safe. *)
Definition grows (sites sites' : gmap Z SchedulerOV) : Prop :=
  forall id s', sites' !! id = Some s' -> exists s, sites !! id = Some s /\ forall w, safe (so_tid_mgr s) w -> safe (so_tid_mgr s') w.

Lemma grows_safe P sites sites' wm : grows sites sites' -> safe_for P sites wm -> safe_for P sites' wm.
Proof. intros Hg Hs id s' Hid HP. destruct (Hg id s' Hid) as (s & Es & Hw). by apply Hw, (Hs id). Qed.

(** ** The gossiper *)

Definition gmsg_ok (sites : gmap Z SchedulerOV) (m : OvGossipMsg) : Prop :=
  match m with
  | SendPublish _ wm => safe_for everywhere sites wm
  | SendExchange site peer_dc dcname wm => safe_for (in_dc dcname) sites wm /\ in_dc peer_dc site
  end.

Record gossiper_ok (dc : Z) (sites : gmap Z SchedulerOV) (g : OVGossiper) : Prop := {
  go_name : gs_dcname g = dc;
  go_sites : forall id, in_dc (gs_dcname g) id -> count id (gs_site_wm g) = true;
  go_site_wm : forall id wm, find id (gs_site_wm g) = Some wm -> safe_for (eq id) sites wm;
  go_dcs : forall x, x ∈ ov_sites -> count (os_dc x) (gs_dc_wm g) = true;
  go_dc_wm : forall dc wm, find dc (gs_dc_wm g) = Some wm -> safe_for (in_dc dc) sites wm;
  go_wm : safe_for everywhere sites (gs_vwatermark g);
  go_peers : Forall (fun p => in_dc p.1 p.2) (gs_peers g);
  go_sent : Forall (gmsg_ok sites) (gs_sent g);
}.

Lemma gmsg_grows sites sites' m : grows sites sites' -> gmsg_ok sites m -> gmsg_ok sites' m.
Proof. intros Hg. destruct m; cbn; [by apply grows_safe|intros [? ?]; split; [by eapply grows_safe|done]]. Qed.

Lemma gossiper_grows dc sites sites' g : grows sites sites' -> gossiper_ok dc sites g -> gossiper_ok dc sites' g.
Proof.
  intros Hg [N A B C D E F G]. split; try done.
  - intros id wm Hf. eapply grows_safe; eauto.
  - intros dc' wm Hf. eapply grows_safe; eauto.
  - by eapply grows_safe.
  - apply (Forall_impl _ _ _ G). intros m. by apply gmsg_grows.
Qed.

Lemma find_raise k v m j x : find j (raise_wm k v m) = Some x -> (j = k /\ x = v) \/ find j m = Some x \/ x = ov_zero.
Proof.
  unfold raise_wm, index. destruct (find k m) as [old|] eqn:E; cbn.
  - destruct (ov_gt v old); [|auto]. rewrite find_insert. case_decide; [intros [= <-]; subst; auto|auto].
  - destruct (ov_gt v ov_zero); rewrite !find_insert; case_decide; intros; simplify_eq; auto.
Qed.

Lemma count_raise k v m j : count j m = true -> count j (raise_wm k v m) = true.
Proof.
  rewrite !count_find. unfold raise_wm, index. destruct (find k m) as [old|] eqn:E; cbn.
  - destruct (ov_gt v old); [|done]. rewrite find_insert. by case_decide.
  - destruct (ov_gt v ov_zero); rewrite !find_insert; by case_decide.
Qed.

Lemma count_insert (k : Z) (v : ov_ts_t) m (j : Z) : count j m = true -> count j (insert k v m) = true.
Proof. rewrite !count_find, find_insert. by case_decide. Qed.

Lemma least_wm_spec m r k v : least_wm m = Some r -> find k m = Some v -> ~ ov_lex v r.
Proof.
  assert (forall (l : omap Z ov_ts_t) w0, let r := foldl (fun least p => if ov_lt p.2 least then p.2 else least) w0 l in
    ~ ov_lex w0 r /\ forall p, p ∈ l -> ~ ov_lex p.2 r) as Hf.
  { induction l as [|p l IH]; intros w0; cbn; [split; [unfold ov_lex; lia|by intros p ?%elem_of_nil]|].
    destruct (IH (if ov_lt p.2 w0 then p.2 else w0)) as [Ha Hb]. destruct (ov_lt p.2 w0) eqn:E.
    - apply ov_lt_lex in E. split; [unfold ov_lex in *; lia|]. intros q [->|Hq]%elem_of_cons; auto.
    - apply ov_lt_false in E. split; [done|]. intros q [->|Hq]%elem_of_cons; [unfold ov_lex in *; lia|auto]. }
  intros Hr Hk%find_elem_of. unfold least_wm in Hr. destruct m as [|[k0 w0] m]; [done|]. injection Hr as <-.
  exact (proj2 (Hf ((k0, w0) :: m) w0) (k, v) Hk).
Qed.

Section handlers.
Context (n dc : Z) (sites : gmap Z SchedulerOV) (Hok : sites_ok n sites).
Abbreviation inv := (gossiper_ok dc sites).

(** Changes of the parts of a gossiper that nothing depends on. *)
Lemma inv_acks g f : inv g -> inv (g <| gs_publish_acks ::= f |>).
Proof. by intros [? ? ? ? ? ? ? ?]. Qed.
Lemma inv_xacks g f : inv g -> inv (g <| gs_exchange_acks ::= f |>).
Proof. by intros [? ? ? ? ? ? ? ?]. Qed.
Lemma inv_gflag g b : inv g -> inv (g <| gs_gossip_flag := b |>).
Proof. by intros [? ? ? ? ? ? ? ?]. Qed.
Lemma inv_aflag g b : inv g -> inv (g <| gs_aggregate_flag := b |>).
Proof. by intros [? ? ? ? ? ? ? ?]. Qed.

Lemma inv_raise_dc g k wm : inv g -> safe_for (in_dc k) sites wm -> inv (g <| gs_dc_wm ::= raise_wm k wm |>).
Proof.
  intros [N A B C D E F G] Hs. split; try done.
  - intros x Hx. by apply count_raise, C.
  - intros dc' wm' [[-> ->]|[Hf| ->]]%find_raise; [done|by apply D|by apply (safe_for_zero n)].
Qed.

Lemma inv_raise_site g id wm : inv g -> safe_for (eq id) sites wm -> inv (g <| gs_site_wm ::= raise_wm id wm |>).
Proof.
  intros [N A B C D E F G] Hs. split; try done.
  - intros x Hx. by apply count_raise, A.
  - intros id' wm' [[-> ->]|[Hf| ->]]%find_raise; [done|by apply B|by apply (safe_for_zero n)].
Qed.

(** The least watermark of the sites is one of the data centre. *)
Lemma least_of_sites g wm : inv g -> least_wm (gs_site_wm g) = Some wm -> safe_for (in_dc (gs_dcname g)) sites wm.
Proof.
  intros [N A B C D E F G] Hl id s Hid Hdc. pose proof (A id Hdc) as [w Hw]%count_find.
  apply (safe_lower _ w); [by apply (B id w Hw id)|]. by apply (least_wm_spec (gs_site_wm g) wm id).
Qed.

(** The least watermark of the data centres is one of all sites. *)
Lemma least_of_dcs g wm : inv g -> least_wm (gs_dc_wm g) = Some wm -> safe_for everywhere sites wm.
Proof.
  intros [N A B C D E F G] Hl id s Hid _. destruct (sk_info _ _ Hok id s Hid) as [x Hx].
  assert (x ∈ ov_sites) as Hin. { unfold site_info in Hx. destruct (0 <=? id); [|done]. by eapply list_elem_of_lookup_2. }
  pose proof (C x Hin) as [w Hw]%count_find. apply (safe_lower _ w); [apply (D _ w Hw id); [done|by exists x]|].
  by apply (least_wm_spec (gs_dc_wm g) wm (os_dc x)).
Qed.

Lemma inv_send g m : inv g -> gmsg_ok sites m -> inv (g <| gs_sent ::= fun l => l ++ [m] |>).
Proof. intros [N A B C D E F G] Hm. split; try done. cbn. apply Forall_app. split; [done|by constructor]. Qed.

(** [dc_watermarks_[my_dcname_]], which may make the entry. *)
Lemma inv_index g w m :
  inv g -> index ov_zero (gs_dcname g) (gs_dc_wm g) = (w, m) ->
  safe_for (in_dc (gs_dcname g)) sites w /\ inv (g <| gs_dc_wm := m |>).
Proof.
  intros Hi E. unfold index in E. destruct (find (gs_dcname g) (gs_dc_wm g)) as [w0|] eqn:Ef; injection E as <- <-.
  - split; [by apply (go_dc_wm _ _ _ Hi)|]. by destruct Hi.
  - pose proof (safe_for_zero n sites (in_dc (gs_dcname g)) Hok) as Hz. split; [done|]. destruct Hi as [N A B C D E F G].
    split; try done; cbn.
    + intros x Hx. by apply count_insert, C.
    + intros k wm. rewrite find_insert. case_decide as Hdc; [by intros [= <-]; subst|]. apply D.
Qed.

Lemma OnExchange_ok dcname dvw g w g' :
  inv g -> safe_for (in_dc dcname) sites dvw -> OnExchange dcname dvw g = Done (w, g') ->
  inv g' /\ safe_for (in_dc dc) sites w.
Proof.
  intros Hi Hs Hrun. apply bind_done in Hrun as ([] & g1 & [= <-] & Hrun). pose proof (inv_raise_dc g dcname dvw Hi Hs) as Hi1.
  injection Hrun as Hrun. destruct (index _ _ _) as [w0 m] eqn:E in Hrun. injection Hrun as <- <-.
  destruct (inv_index _ _ _ Hi1 E) as [Hw Hi2]. split; [done|]. by rewrite <- (go_name _ _ _ Hi).
Qed.

Lemma Aggregate_ok : preserves inv Aggregate.
Proof.
  apply preserves_bind; [apply preserves_modify; intros g; apply inv_acks|]. intros [].
  intros g a g' Hi Hrun. apply bind_done in Hrun as (? & ? & [= <- <-] & Hrun). revert Hrun.
  apply (preserves_for_each _ _ (fun x => inv x)); [|done]. intros p _. apply preserves_modify. intros g1 Hg1.
  apply inv_send; [done|]. apply (go_wm _ _ _ Hi).
Qed.

Lemma PublishAck_ok site ret : safe_for (eq site) sites ret -> preserves inv (PublishAck site ret).
Proof.
  intros Hs. unfold PublishAck. apply preserves_bind; [apply preserves_modify; intros g; apply inv_acks|]. intros [].
  apply preserves_bind; [apply preserves_get|]. intros g0. apply preserves_bind; [apply preserves_verify|]. intros [].
  apply preserves_bind; [apply preserves_modify; intros g Hg; by apply inv_raise_site|]. intros [].
  intros g a g' Hi Hrun. apply bind_done in Hrun as (? & ? & [= <- <-] & Hrun).
  unfold when in Hrun. destruct (_ =? _)%nat; [|by injection Hrun as <- <-].
  apply bind_done in Hrun as (wm & g1 & H2 & Hrun). destruct (least_wm (gs_site_wm g)) as [wm'|] eqn:El; [|done].
  injection H2 as -> <-. injection Hrun as <- <-. apply inv_aflag. pose proof (least_of_sites g wm Hi El) as Hl.
  destruct Hi as [N A B C D E F G]. split; try done; cbn.
  - intros x Hx. by apply count_insert, C.
  - intros k w. rewrite find_insert. case_decide as Hdc; [by intros [= <-]; subst|]. apply D.
Qed.

Lemma Gossip_ok : preserves inv Gossip.
Proof.
  apply preserves_bind; [apply preserves_modify; intros g; apply inv_xacks|]. intros [].
  intros g a g' Hi Hrun. apply bind_done in Hrun as (? & ? & [= <- <-] & Hrun).
  assert (preserves (fun x => inv x /\ gs_dcname x = gs_dcname g) (for_each (gs_peers g) (fun p =>
    w ← state (fun g => let '(w, m) := index ov_zero (gs_dcname g) (gs_dc_wm g) in (w, g <| gs_dc_wm := m |>));
    gs_send (SendExchange p.2 p.1 (gs_dcname g) w)))) as Hp; [|by apply (Hp g a g')].
  apply preserves_for_each. intros p Hin g1 [] g2 [Hg1 Edc] Hr. apply bind_done in Hr as (w & g3 & E & [= <-]).
  injection E as E. destruct (index _ _ _) as [w0 m] eqn:Ei in E. injection E as <- <-.
  destruct (inv_index _ _ _ Hg1 Ei) as [Hw Hi2]. split; [|done]. apply inv_send; [done|]. rewrite Edc in Hw. split; [done|].
  pose proof (go_peers _ _ _ Hi) as Hpe. rewrite Forall_forall in Hpe. by apply Hpe.
Qed.

Lemma ExchangeAck_ok site dcname ret : safe_for (in_dc dcname) sites ret -> preserves inv (ExchangeAck site dcname ret).
Proof.
  intros Hs. unfold ExchangeAck. apply preserves_bind; [apply preserves_modify; intros g; apply inv_xacks|]. intros [].
  apply preserves_bind; [apply preserves_get|]. intros g0. apply preserves_bind; [apply preserves_verify|]. intros [].
  apply preserves_bind; [apply preserves_modify; intros g Hg; by apply inv_raise_dc|]. intros [].
  intros g a g' Hi Hrun. apply bind_done in Hrun as (? & ? & [= <- <-] & Hrun).
  unfold when in Hrun. destruct (_ =? _)%nat; [|by injection Hrun as <- <-].
  apply bind_done in Hrun as (wm & g1 & H2 & Hrun). destruct (least_wm (gs_dc_wm g)) as [wm'|] eqn:El; [|done].
  injection H2 as -> <-. injection Hrun as <- <-. apply inv_gflag. pose proof (least_of_dcs g wm Hi El) as Hl.
  destruct Hi as [N A B C D E F G]. by split.
Qed.

Lemma GossipLoop_ok : preserves inv GossipLoop.
Proof.
  apply preserves_bind; [apply preserves_get|]. intros g. apply preserves_when.
  apply preserves_bind; [apply preserves_modify; intros x; apply inv_gflag|]. intros []. apply Gossip_ok.
Qed.
Lemma AggregateLoop_ok : preserves inv AggregateLoop.
Proof.
  apply preserves_bind; [apply preserves_get|]. intros g. apply preserves_when.
  apply preserves_bind; [apply preserves_modify; intros x; apply inv_aflag|]. intros []. apply Aggregate_ok.
Qed.
Lemma StartLoop_ok : preserves inv (Gossip;; Aggregate).
Proof. apply preserves_bind; [apply Gossip_ok|intros []; apply Aggregate_ok]. Qed.
End handlers.

(** ** The handlers of a site *)

Definition keeps (t : TidMgr) (v : ov_ts_t) (s : SchedulerOV) : Prop := so_tid_mgr s = t /\ so_vwatermark s = v.

Lemma keeps_on_txn {A} t v id (m : M OvTxSt A) : preserves (keeps t v) (on_txn id m).
Proof.
  intros s a s' Hk Hrun. unfold on_txn in Hrun. destruct (find id (so_txns s)); [|done]. by destruct (m _) as [[? ?]| |]; [injection Hrun as <- <-|..].
Qed.
Lemma keeps_modify t v f : (forall s, so_tid_mgr (f s) = so_tid_mgr s /\ so_vwatermark (f s) = so_vwatermark s) -> preserves (keeps t v) (modify f).
Proof. intros Hf. apply preserves_modify. intros s [? ?]. destruct (Hf s). split; congruence. Qed.
#[local] Hint Resolve keeps_on_txn : preserves.

Ltac solve_keeps := solve_preserves_with ltac:(apply keeps_modify; by intros).

Lemma keeps_create t v id : preserves (keeps t v) (ov_GetOrCreateDTxn id).
Proof. unfold ov_GetOrCreateDTxn. solve_keeps. Qed.
Lemma keeps_txn t v id : preserves (keeps t v) (ov_txn id).
Proof. unfold ov_txn. solve_keeps. Qed.
#[local] Hint Resolve keeps_create keeps_txn : preserves.
Lemma keeps_execute t v id : preserves (keeps t v) (execute_txn id).
Proof. unfold execute_txn. solve_keeps. Qed.
#[local] Hint Resolve keeps_execute : preserves.
Lemma keeps_execute_stored t v ids : preserves (keeps t v) (execute_stored ids).
Proof. induction ids as [|id ids IH]; cbn [execute_stored]; unfold ov_emit; solve_keeps. Qed.
Lemma keeps_dispatch t v id cmds output : preserves (keeps t v) (dispatch_pieces id cmds output).
Proof. revert output. induction cmds as [|c cmds IH]; intros output; cbn [dispatch_pieces]; solve_keeps. Qed.
#[local] Hint Resolve keeps_execute_stored keeps_dispatch : preserves.

Lemma OnDispatch_keeps t v cmd : preserves (keeps t v) (OnDispatch cmd).
Proof. unfold OnDispatch. solve_keeps. Qed.
Lemma OnStore_keeps t v id cmds ts site : preserves (keeps t v) (OnStore id cmds ts site).
Proof. unfold OnStore, ov_emit. solve_keeps. Qed.
Lemma OnExecute_keeps t v id : preserves (keeps t v) (OnExecute id).
Proof. unfold OnExecute, ov_emit. solve_keeps. Qed.

(** What a handler does to the timestamps of its site; [P] is what is known of the
    watermark it has been told. *)
Record site_effect (n : Z) (P : ov_ts_t -> Prop) (s s' : SchedulerOV) : Prop := {
  se_tid : tid_ok (n + 1) (so_tid_mgr s');
  se_safe : forall w, safe (so_tid_mgr s) w -> safe (so_tid_mgr s') w;
  se_wm : so_vwatermark s' = so_vwatermark s \/ P (so_vwatermark s');
}.

Lemma keeps_effect {A} n P (m : M SchedulerOV A) s a s' :
  (forall t v, preserves (keeps t v) m) -> tid_ok n (so_tid_mgr s) -> m s = Done (a, s') ->
  site_effect n P s s' /\ so_tid_mgr s' = so_tid_mgr s.
Proof.
  intros Hm Hok Hrun. destruct (Hm _ _ s a s' (conj eq_refl eq_refl) Hrun) as [Et Ev]. split; [|done].
  split; rewrite ?Et; [apply (tid_ok_mono n); [lia|done]|done|by left].
Qed.

Lemma on_tid_mgr_done {A} (m : M TidMgr A) s a s' :
  on_tid_mgr m s = Done (a, s') -> exists t, m (so_tid_mgr s) = Done (a, t) /\ s' = s <| so_tid_mgr := t |>.
Proof. unfold on_tid_mgr. destruct (m (so_tid_mgr s)) as [[b t]| |]; intros [= -> <-]. eauto. Qed.

Lemma OnPublish_effect n P now wm s ts s' :
  0 <= n < 2 ^ 31 -> clock_ok now -> P wm -> tid_ok n (so_tid_mgr s) ->
  OnPublish now (ov_timestamp_ wm) (ov_site_id_ wm) s = Done (ts, s') ->
  site_effect n P s s' /\ safe (so_tid_mgr s') ts /\ s_phase_txns_ (so_tid_mgr s') = s_phase_txns_ (so_tid_mgr s).
Proof.
  intros Hn Hnow HP Hok Hrun. unfold OnPublish in Hrun. assert (mk_ovts (ov_timestamp_ wm) (ov_site_id_ wm) = wm) as Ew by by destruct wm.
  rewrite Ew in Hrun. clear Ew.
  apply bind_done in Hrun as (? & ? & [= <- <-] & Hrun). apply bind_done in Hrun as ([] & s1 & E1 & Hrun).
  assert (so_tid_mgr s1 = so_tid_mgr s /\ (so_vwatermark s1 = so_vwatermark s \/ P (so_vwatermark s1))) as [Et Ev].
  { unfold when in E1. destruct (ov_gt _ _); [|injection E1 as <-; auto]. apply bind_done in E1 as ([] & s2 & [= <-] & E1).
    apply (keeps_execute_stored (so_tid_mgr s) wm) in E1 as [-> ->]; [auto|done]. }
  apply on_tid_mgr_done in Hrun as (t & Ht & ->). rewrite Et in Ht.
  destruct (GetServerVWatermark_spec n now _ ts t Hok Hn Hnow Ht) as (Hok' & Hsafe & Ek & Hts). split; [|done]. by split.
Qed.

(** ** The system *)

Definition pkt_ok (sites : gmap Z SchedulerOV) (p : ov_packet) : Prop :=
  match p with
  | PPublish _ _ wm => safe_for everywhere sites wm
  | PPublishAck _ site wm => safe_for (eq site) sites wm
  | PExchange _ site peer_dc dcname wm => safe_for (in_dc dcname) sites wm /\ in_dc peer_dc site
  | PExchangeAck _ _ peer_dc wm => safe_for (in_dc peer_dc) sites wm
  | _ => True
  end.

Record wm_inv (n : Z) (w : OvSys) : Prop := {
  wi_sites : sites_ok n (ow_sites w);
  wi_gossipers : forall g r, ow_gossipers w !! g = Some r -> exists x, site_info g = Some x /\ gossiper_ok (os_dc x) (ow_sites w) r;
  wi_net : Forall (pkt_ok (ow_sites w)) (ow_net w);
}.

Lemma pkt_grows sites sites' p : grows sites sites' -> pkt_ok sites p -> pkt_ok sites' p.
Proof. intros Hg. destruct p; cbn; try done; [by apply grows_safe..| |by apply grows_safe]. intros [? ?]. split; [by eapply grows_safe|done]. Qed.

(** The net loses a packet, or gets some. *)
Lemma wm_inv_net n w net : wm_inv n w -> Forall (pkt_ok (ow_sites w)) net -> wm_inv n (w <| ow_net := net |>).
Proof. intros [A B C] Hn. by split. Qed.

Lemma wm_inv_send n w l : wm_inv n w -> Forall (pkt_ok (ow_sites w)) l -> wm_inv n (ow_send l w).
Proof. intros Hi Hl. apply wm_inv_net; [done|]. apply Forall_app. split; [apply Hi|done]. Qed.

Lemma at_gossiper_inv {A} n g (m : M OVGossiper A) w a w' :
  wm_inv n w -> (forall r x, ow_gossipers w !! g = Some r -> site_info g = Some x -> preserves (gossiper_ok (os_dc x) (ow_sites w)) m) ->
  at_gossiper g m w = Some (a, w') -> wm_inv n w' /\ ow_sites w' = ow_sites w.
Proof.
  intros Hi Hm Hrun. unfold at_gossiper in Hrun. destruct (ow_gossipers w !! g) as [r|] eqn:Er; [|done]. cbn in Hrun.
  destruct (wi_gossipers _ _ Hi g r Er) as (x & Hx & Hr). specialize (Hm r x eq_refl Hx).
  destruct (m (r <| gs_sent := [] |>)) as [[b r']| |] eqn:E; [|done..]. injection Hrun as -> <-.
  assert (gossiper_ok (os_dc x) (ow_sites w) r') as Hr'. { apply (Hm _ _ _) in E; [done|]. destruct Hr. by split. }
  split; [|done]. apply wm_inv_send.
  - destruct Hi as [I1 I2 I3]. split; [done| |done]. intros g1 r1. cbn. intros [[<- <-]|[_ Hg1]]%lookup_insert_Some; [by exists x|by apply I2].
  - cbn. apply Forall_fmap. apply (Forall_impl _ _ _ (go_sent _ _ _ Hr')). by intros [].
Qed.

Lemma ov_outs_inv n site outs w w' :
  wm_inv n w -> foldl (ov_out site) (Some w) outs = Some w' -> wm_inv n w' /\ ow_sites w' = ow_sites w.
Proof.
  revert w. induction outs as [|o outs IH]; intros w Hi Hrun; cbn [foldl] in Hrun; [by injection Hrun as <-|].
  destruct (ov_out site (Some w) o) as [w1|] eqn:E.
  - assert (wm_inv n w1 /\ ow_sites w1 = ow_sites w) as [Hi1 Es1].
    { destruct o; cbn in E.
      - destruct (at_gossiper _ _ _) as [[[] w2]|] eqn:E2; [|done]. injection E as <-. revert E2. apply at_gossiper_inv; [done|].
        intros r x _ _. apply (StartLoop_ok n). apply Hi.
      - destruct (ow_pending w !! _) as [[[coo phase] par]|]; [|done]. injection E as <-. split; [|done].
        apply wm_inv_send; [done|]. by constructor. }
    rewrite <- Es1. by apply IH.
  - exfalso. clear -Hrun. induction outs as [|o' outs IH]; cbn in Hrun; [done|]. by apply IH.
Qed.

Lemma grows_insert n P sites site s s' : sites !! site = Some s -> site_effect n P s s' -> grows sites (<[site := s']> sites).
Proof.
  intros Hs He id s1 [[<- <-]|[Hne Hid]]%lookup_insert_Some; [exists s; split; [done|apply He] | by exists s1].
Qed.

Lemma sites_insert n P sites site s s' :
  0 <= n -> sites_ok n sites -> sites !! site = Some s -> site_effect n P s s' -> (forall wm, P wm -> safe_for everywhere sites wm) ->
  sites_ok (n + 1) (<[site := s']> sites).
Proof.
  intros Hn [A B C] Hs He HP. pose proof (grows_insert _ _ _ _ _ _ Hs He) as Hg. split.
  - intros id s1 [[<- <-]|[_ Hid]]%lookup_insert_Some; [apply He|]. apply (tid_ok_mono n); [lia|by apply (A id)].
  - intros id s1 [[<- <-]|[_ Hid]]%lookup_insert_Some; apply (grows_safe _ sites); try done; [|by apply (B id)].
    destruct (se_wm _ _ _ _ He) as [->|Hp]; [by apply (B site)|by apply HP].
  - intros id s1 [[<- <-]|[_ Hid]]%lookup_insert_Some; [by apply (C site s)|by apply (C id s1)].
Qed.

(** Running a handler at a site. *)
Lemma at_ovsite_inv {A} n P site (m : M SchedulerOV A) w a w' :
  0 <= n -> wm_inv n w -> (forall wm, P wm -> safe_for everywhere (ow_sites w) wm) ->
  (forall s a s', tid_ok n (so_tid_mgr s) -> m s = Done (a, s') -> site_effect n P s s') ->
  at_ovsite site m w = Some (a, w') ->
  exists s s', ow_sites w !! site = Some s /\ m (s <| so_out := [] |>) = Done (a, s') /\
    wm_inv (n + 1) w' /\ ow_sites w' = <[site := s']> (ow_sites w).
Proof.
  intros Hn [I1 I2 I3] HP Hm Hrun. unfold at_ovsite in Hrun. destruct (ow_sites w !! site) as [s|] eqn:Es; [|done]. cbn in Hrun.
  destruct (m (s <| so_out := [] |>)) as [[b s']| |] eqn:E; [|done..].
  destruct (foldl _ _ _) as [w2|] eqn:Ef; [|done]. injection Hrun as -> <-.
  assert (site_effect n P s s') as He.
  { assert (tid_ok n (so_tid_mgr (s <| so_out := [] |>))) as Ht by exact (sk_tid _ _ I1 site s Es).
    destruct (Hm _ _ _ Ht E) as [E1 E2 E3]. by split. }
  pose proof (grows_insert _ _ _ _ _ _ Es He) as Hg.
  apply (ov_outs_inv (n + 1)) in Ef as [Hi' Es'].
  - exists s, s'. by split_and!.
  - split; cbn.
    + by apply (sites_insert n P _ _ s).
    + intros g r Hgr. destruct (I2 g r Hgr) as (x & Hx & Hr). exists x. split; [done|]. by eapply gossiper_grows.
    + apply (Forall_impl _ _ _ I3). intros p. by apply pkt_grows.
Qed.
End watermark.

(** ** Ocean Vista: what is below a watermark is stored

    A site keeps what it has stored; a coordinator reports a transaction as stored only
    after a replica of every touched partition has it; and what has a timestamp below a
    watermark has been reported.  [ov_below_watermark_stored] puts them together. *)

Section stored.
Context `{OvRegistry} `{OvConfig} `{OvWorkload}.

(** ** A site keeps what it has stored *)

Definition stored_at (id : Z) (ts : ov_ts_t) (s : SchedulerOV) : Prop :=
  exists t, find id (so_txns s) = Some t /\ ox_fully_dispatched t = true /\ ox_ovts t = ts.

(** The same of a transaction. *)
Definition marked (ts : ov_ts_t) (st : OvTxSt) : Prop := ox_fully_dispatched (ot_tx st) = true /\ ox_ovts (ot_tx st) = ts.

Lemma marked_set ts f :
  (forall t, ox_fully_dispatched (f t) = ox_fully_dispatched t /\ ox_ovts (f t) = ox_ovts t) -> preserves (marked ts) (set_tx f).
Proof. intros Hf. apply preserves_modify. intros st [A B]. unfold marked. cbn. destruct (Hf (ot_tx st)) as [-> ->]. done. Qed.

Lemma marked_run ts b h c out : preserves (marked ts) (run_handler b h c out).
Proof.
  apply preserves_state. intros st [A B]. destruct (h _ _ _ _) as [[ws db] o]. unfold marked, share_values. cbn. by destruct b.
Qed.
#[local] Hint Resolve marked_run : preserves.
Ltac solve_marked := solve_preserves_with ltac:(apply marked_set; by intros).

Lemma marked_dispatch ts c out : preserves (marked ts) (DispatchExecute c out).
Proof. unfold DispatchExecute, keep_piece. solve_marked. Qed.
Lemma marked_preaccept ts c out : preserves (marked ts) (PreAcceptExecute c out).
Proof. unfold PreAcceptExecute, keep_piece. solve_marked. Qed.

Lemma marked_commit ts : preserves (marked ts) CommitExecute.
Proof.
  assert (forall cmds i ws, preserves (marked ts) (commit_pieces cmds i ws)) as Hc.
  { induction cmds as [|c cmds IH]; intros i ws; cbn [commit_pieces]; solve_marked.
    apply preserves_state. intros st [A B]. by destruct (_ : TxnWorkspace * OvDb * omap Z Value) as [[? ?] ?]. }
  unfold CommitExecute. solve_marked.
Qed.

Lemma stored_on_txn {A} id ts k (m : M OvTxSt A) : preserves (marked ts) m -> preserves (stored_at id ts) (on_txn k m).
Proof.
  intros Hm s a s' (t & Ht & Hd & Hts) Hrun. unfold on_txn in Hrun. destruct (find k (so_txns s)) as [t0|] eqn:Ek; [|done].
  destruct (m _) as [[b st]| |] eqn:E; [|done..]. injection Hrun as -> <-. unfold stored_at. cbn.
  destruct (decide (k = id)) as [->|Hne].
  - rewrite find_insert_eq. rewrite Ht in Ek. injection Ek as <-. apply Hm in E as [? ?]; [eauto|done].
  - rewrite find_insert_ne by done. eauto.
Qed.

Lemma stored_modify id ts f : (forall s, so_txns (f s) = so_txns s) -> preserves (stored_at id ts) (modify f).
Proof. intros Hf. apply preserves_modify. intros s Hs. unfold stored_at. by rewrite Hf. Qed.

Lemma stored_create id ts k : preserves (stored_at id ts) (ov_GetOrCreateDTxn k).
Proof.
  intros s a s' (t & Ht & Hr) Hrun. apply bind_done in Hrun as (? & ? & [= <- <-] & Hrun). unfold when in Hrun.
  destruct (count k (so_txns s)) eqn:E; cbn in Hrun; injection Hrun as <- <-; exists t; [done|]. cbn.
  rewrite find_insert_ne; [done|]. intros ->. apply count_find_None in E. congruence.
Qed.
#[local] Hint Resolve stored_create stored_on_txn marked_dispatch marked_preaccept marked_commit : preserves.

Ltac solve_stored :=
  solve_preserves_with ltac:(first [apply stored_modify; by intros | apply stored_on_txn; solve [eauto with preserves | apply marked_set; by intros]]).

Lemma stored_txn id ts k : preserves (stored_at id ts) (ov_txn k).
Proof. unfold ov_txn. solve_stored. Qed.
#[local] Hint Resolve stored_txn : preserves.
Lemma stored_execute_txn id ts k : preserves (stored_at id ts) (execute_txn k).
Proof. unfold execute_txn. solve_stored. Qed.
#[local] Hint Resolve stored_execute_txn : preserves.
Lemma stored_execute_stored id ts ids : preserves (stored_at id ts) (execute_stored ids).
Proof. induction ids as [|k ids IH]; cbn [execute_stored]; unfold ov_emit; solve_stored. Qed.
Lemma stored_dispatch_pieces id ts k cmds out : preserves (stored_at id ts) (dispatch_pieces k cmds out).
Proof. revert out. induction cmds as [|c cmds IH]; intros out; cbn [dispatch_pieces]; solve_stored. Qed.
#[local] Hint Resolve stored_execute_stored stored_dispatch_pieces : preserves.

Lemma OnDispatch_stored id ts cmd : preserves (stored_at id ts) (OnDispatch cmd).
Proof. unfold OnDispatch, UpdateStatus. solve_stored. apply stored_on_txn, marked_set. intros t. by destruct (_ <? _). Qed.
Lemma OnExecute_stored id ts k : preserves (stored_at id ts) (OnExecute k).
Proof. unfold OnExecute, ov_emit. solve_stored. Qed.
Lemma on_tid_mgr_stored {A} id ts (m : M TidMgr A) : preserves (stored_at id ts) (on_tid_mgr m).
Proof. intros s a s' Hs Hrun. by apply on_tid_mgr_done in Hrun as (t & _ & ->). Qed.
#[local] Hint Resolve on_tid_mgr_stored : preserves.
Lemma OnPublish_stored id ts now a b : preserves (stored_at id ts) (OnPublish now a b).
Proof. unfold OnPublish. solve_stored. Qed.

(** The last steps of [OnStore]. *)
Lemma store_mark id ts s1 s2 s' :
  on_txn id (set_tx (fun t => t <| ox_fully_dispatched := true |> <| ox_ovts := ts |> <| ox_ov_status := STORED |>)) s1 = Done (tt, s2) ->
  s' = s2 <| so_stored ::= sinsert id |> ->
  stored_at id ts s' /\ forall k ts', k ≠ id -> stored_at k ts' s1 -> stored_at k ts' s'.
Proof.
  unfold on_txn. destruct (find id (so_txns s1)) as [t|] eqn:E; [|done]. intros [= <-] ->. unfold stored_at. cbn. split.
  - rewrite find_insert_eq. by eexists.
  - intros k ts' Hk. by rewrite find_insert_ne.
Qed.

Lemma OnStore_spec id cmds a b s s' :
  OnStore id cmds a b s = Done (tt, s') ->
  stored_at id (mk_ovts a b) s' /\ forall k ts, stored_at k ts s -> stored_at k ts s'.
Proof.
  intros Hrun. unfold OnStore in Hrun. apply bind_done in Hrun as ([] & s1 & E1 & Hrun). apply bind_done in Hrun as (c0 & s2 & E2 & Hrun).
  apply bind_done in Hrun as ([] & s3 & E3 & Hrun). apply bind_done in Hrun as (? & ? & [= <- <-] & Hrun).
  apply bind_done in Hrun as ([] & s4 & E4 & Hrun). apply bind_done in Hrun as ([] & s5 & E5 & Hrun).
  apply bind_done in Hrun as ([] & s6 & E6 & Hrun). apply bind_done in Hrun as (t & s7 & E7 & Hrun).
  apply bind_done in Hrun as ([] & s8 & E8 & Hrun). apply bind_done in Hrun as ([] & s9 & E9 & Hrun).
  apply bind_done in Hrun as ([] & s10 & E10 & Hrun). injection Hrun as <-.
  assert (forall k ts, stored_at k ts s -> stored_at k ts s6) as Hpre.
  { intros k ts Hk. apply (preserves_verify _ (stored_at k ts)) in E1; [|done]. apply (preserves_from_option _ (stored_at k ts)) in E2; [|done].
    apply (preserves_verify _ (stored_at k ts)) in E3; [|done].
    assert (stored_at k ts s4) as Hs4.
    { match type of E4 with ?m _ = _ => assert (preserves (stored_at k ts) m) as Hp by (unfold ov_emit; solve_stored) end. exact (Hp _ _ _ E3 E4). }
    apply (stored_create k ts) in E5; [|done]. revert E5 E6. apply stored_on_txn, marked_set.
    intros x. unfold UpdateStatus. by destruct (ox_status x <? TXN_PAC). }
  apply bind_done in E7 as (? & ? & [= <- <-] & E7). destruct (find id (so_txns s6)) as [t0|] eqn:Et; [|done]. injection E7 as -> <-.
  assert (forall k ts, stored_at k ts s6 -> stored_at k ts s8) as Hmid.
  { intros k ts Hk. match type of E8 with ?m _ = _ => assert (preserves (stored_at k ts) m) as Hp by solve_stored end. exact (Hp _ _ _ Hk E8). }
  unfold verify in E9. destruct (ox_fully_dispatched t) eqn:Ed; [done|]. injection E9 as <-.
  destruct (store_mark id (mk_ovts a b) s8 s10 _ E10 eq_refl) as [Hnew Hold]. split; [done|].
  intros k ts Hk%Hpre. apply Hold; [|by apply Hmid]. intros ->. destruct Hk as (t1 & Et1 & Hd & _). rewrite Et in Et1. congruence.
Qed.
End stored.
