(* ===== verification/OvReport.v ===== *)
(** * Ocean Vista: the requests of a coordinator

    What the handlers of a coordinator send and keep: requests carry the phase, the
    transaction and the timestamp they were made with. *)
From stdpp Require Import base tactics numbers list sorting gmap.
From S2P Require Import Prelude OMap Command Chopper OvSched OvCoord.

(** What the coordinator relies on: the callback of a workload keeps the identity of the
    transaction. *)
Class OvWorkloadOk `{OvWorkload} : Prop := {
  start_callback_id pi out t : txn_id_ (ov_start_callback pi out t) = txn_id_ t;
}.

Lemma mod6_succ p : (p + 1) mod 6 = if decide (p mod 6 = 5) then 0 else p mod 6 + 1.
Proof. case_decide; Z.to_euclidean_division_equations; lia. Qed.

(** What a request was made with. *)
Definition msg_ok (phase id : Z) (ts : ov_ts_t) (m : OvReq) : Prop :=
  match m with
  | SendCreateTs ph i => ph = phase /\ ph mod 6 = OV_CREATED_TS /\ i = id
  | SendDispatch ph _ => ph = phase /\ ph mod 6 = OV_DISPATHED
  | BroadcastStore ph _ i _ t => ph = phase /\ ph mod 6 = OV_STORED /\ i = id /\ t = ts
  | SendStoredRemoveTs ph i t => ph = phase /\ ph mod 6 = OV_EXECUTE /\ i = id /\ t = ts
  | BroadcastExecute ph _ _ => ph = phase /\ ph mod 6 = OV_END
  end.

Definition creating_req (m : OvReq) : list Z := match m with SendCreateTs _ id => [id] | _ => [] end.

Section coord.
Context `{OvWorkloadOk}.

(** A coordinator in a phase, with a transaction, timestamp and answers, that has sent
    what belongs to them and asked for no timestamp. *)
Record stands (phase id : Z) (ts : ov_ts_t) (acks : omap Z Z) (c : CoordinatorOV) : Prop := {
  st_phase : oc_phase c = phase;
  st_id : txn_id_ (oc_cmd c) = id;
  st_ts : oc_ovts c = ts;
  st_acks : oc_store_acks c = acks;
  st_sent : Forall (msg_ok phase id ts) (oc_sent c);
  st_creating : oc_sent c ≫= creating_req = [];
}.

Lemma stands_modify phase id ts acks f :
  (forall c, (oc_phase (f c), txn_id_ (oc_cmd (f c)), oc_ovts (f c), oc_store_acks (f c), oc_sent (f c)) =
             (oc_phase c, txn_id_ (oc_cmd c), oc_ovts c, oc_store_acks c, oc_sent c)) ->
  preserves (stands phase id ts acks) (modify f).
Proof. intros Hf. apply preserves_modify. intros c [A B C D E F]. specialize (Hf c). simplify_eq. split; congruence. Qed.

Lemma stands_state {A} phase id ts acks (f : CoordinatorOV -> A * CoordinatorOV) :
  (forall c, (oc_phase (f c).2, txn_id_ (oc_cmd (f c).2), oc_ovts (f c).2, oc_store_acks (f c).2, oc_sent (f c).2) =
             (oc_phase c, txn_id_ (oc_cmd c), oc_ovts c, oc_store_acks c, oc_sent c)) ->
  preserves (stands phase id ts acks) (state f).
Proof. intros Hf. apply preserves_state. intros c [A1 B C D E F]. specialize (Hf c). simplify_eq. split; congruence. Qed.

Lemma stands_cmd {A} phase id ts acks (m : M TxnCommand A) :
  (forall i, preserves (fun t => txn_id_ t = i) m) -> preserves (stands phase id ts acks) (on_oc_cmd m).
Proof.
  intros Hm c a c' [A1 B C D E F] Hrun. unfold on_oc_cmd in Hrun. destruct (m (oc_cmd c)) as [[b t]| |] eqn:Et; [|done..].
  injection Hrun as -> <-. apply (Hm id) in Et; [|done]. by split.
Qed.

Lemma stands_send phase id ts acks m :
  msg_ok phase id ts m -> creating_req m = [] -> preserves (stands phase id ts acks) (oc_send m).
Proof.
  intros Hm Hc. apply preserves_modify. intros c [A B C D E F]. split; try done; cbn.
  - apply Forall_app. split; [done|by constructor].
  - rewrite bind_app, F. cbn. by rewrite Hc.
Qed.

(** ** The transaction keeps its identity *)

Lemma id_modify i f : (forall t, txn_id_ (f t) = txn_id_ t) -> preserves (fun t => txn_id_ t = i) (modify f).
Proof. intros Hf. apply preserves_modify. intros t <-. apply Hf. Qed.
Ltac solve_id := solve_preserves_with ltac:(apply id_modify; by intros).

Lemma get_ready_id i entries max cmds : preserves (fun t => txn_id_ t = i) (get_ready entries max cmds).
Proof. revert max cmds. induction entries as [|[pi st] entries IH]; intros max cmds; cbn [get_ready]; solve_id. Qed.
#[local] Hint Resolve get_ready_id : preserves.
Lemma GetReadyCmds_id i max : preserves (fun t => txn_id_ t = i) (GetReadyCmds max).
Proof. unfold GetReadyCmds. solve_id. Qed.
Lemma Merge_id i pi out : preserves (fun t => txn_id_ t = i) (Merge ov_start_callback pi out).
Proof. unfold Merge. solve_id. apply id_modify. intros t. apply start_callback_id. Qed.
Lemma HasMore_id i : preserves (fun t => txn_id_ t = i) HasMoreSubCmdReadyNotOut.
Proof. unfold HasMoreSubCmdReadyNotOut. solve_id. Qed.

(** ** Handlers *)

Section standing.
Context (phase id : Z) (ts : ov_ts_t) (acks : omap Z Z).
Abbreviation inv := (stands phase id ts acks).

Ltac solve_stands := solve_preserves_with ltac:(first [apply stands_modify; by intros | apply stands_cmd; intros; solve [auto using GetReadyCmds_id, Merge_id, HasMore_id]]).

Lemma own_root_stands : preserves inv own_root.
Proof. unfold own_root. solve_stands. Qed.

Lemma number_pieces_stands cmds : preserves inv (oc_number_pieces cmds).
Proof.
  induction cmds as [|c cmds IH]; cbn [oc_number_pieces]; solve_stands. apply stands_state. by intros.
Qed.

Lemma Dispatch_stands : phase mod 6 = OV_DISPATHED -> preserves inv oc_Dispatch.
Proof.
  intros Hp. unfold oc_Dispatch. apply preserves_bind; [apply own_root_stands|]. intros []. apply preserves_bind; [solve_stands|].
  intros cmds. apply preserves_for_each. intros p _. apply preserves_bind; [solve_stands|]. intros [].
  apply preserves_bind; [apply number_pieces_stands|]. intros cc c a c' Hc Hrun. apply bind_done in Hrun as (? & ? & [= <- <-] & Hrun).
  revert Hrun. apply stands_send; [|done|done]. split; [apply Hc|]. by rewrite (st_phase _ _ _ _ _ Hc).
Qed.

(** Sending one request per partition. *)
Lemma broadcast_stands (f : CoordinatorOV -> Z -> OvReq) :
  (forall c par, inv c -> msg_ok phase id ts (f c par) /\ creating_req (f c par) = []) ->
  preserves inv (s ← get; for_each (partition_ids_ (oc_cmd s)) (fun par => oc_send (f s par))).
Proof.
  intros Hf c a c' Hc Hrun. apply bind_done in Hrun as (? & ? & [= <- <-] & Hrun). revert Hrun.
  apply (preserves_for_each _ _ inv); [|done]. intros par _. destruct (Hf c par Hc). by apply stands_send.
Qed.

Lemma OVStore_stands : phase mod 6 = OV_STORED -> preserves inv OVStore.
Proof. intros Hp. apply (broadcast_stands (fun s par => BroadcastStore _ _ _ _ _)). intros c par [A B C D E F]. cbn. subst. done. Qed.
Lemma Execute_stands : phase mod 6 = OV_END -> preserves inv Execute.
Proof. intros Hp. apply (broadcast_stands (fun s par => BroadcastExecute _ _ _)). intros c par [A B C D E F]. cbn. subst. done. Qed.
End standing.

(** ** One handler *)

(** From [c], which has sent nothing, to [c']: at most one phase further. *)
Record moved (c c' : CoordinatorOV) : Prop := {
  mv_id : txn_id_ (oc_cmd c') = txn_id_ (oc_cmd c);
  mv_ts : oc_ovts c' = oc_ovts c;
  mv_acks : oc_store_acks c' = oc_store_acks c;
  mv_phase : oc_phase c' = oc_phase c \/ oc_phase c' = oc_phase c + 1;
  mv_sent : Forall (msg_ok (oc_phase c') (txn_id_ (oc_cmd c)) (oc_ovts c)) (oc_sent c');
  mv_creating : oc_sent c' ≫= creating_req = if decide (oc_phase c' = oc_phase c + 1 /\ oc_phase c mod 6 = OV_INIT) then [txn_id_ (oc_cmd c)] else [];
  mv_pars : oc_phase c mod 6 = OV_STORED -> partition_ids_ (oc_cmd c') = partition_ids_ (oc_cmd c);
}.

Lemma stands_self c : oc_sent c = [] -> stands (oc_phase c) (txn_id_ (oc_cmd c)) (oc_ovts c) (oc_store_acks c) c.
Proof. intros E. split; try done; rewrite E; [constructor|done]. Qed.

Lemma stands_moved p c c' :
  stands p (txn_id_ (oc_cmd c)) (oc_ovts c) (oc_store_acks c) c' -> p = oc_phase c \/ (p = oc_phase c + 1 /\ oc_phase c mod 6 ≠ OV_INIT) ->
  oc_phase c mod 6 ≠ OV_STORED -> moved c c'.
Proof.
  intros [A B C D E F] Hp Hn. split; try done; [rewrite A; naive_solver|by rewrite A|]. rewrite F, A, decide_False; [done|]. lia.
Qed.

(** The next phase, once it is counted. *)
Definition phase_on (c : CoordinatorOV) : CoordinatorOV := c <| oc_phase ::= fun p => u32 (p + 1) |>.

Lemma goto_stands (m : M CoordinatorOV ()) c c' k :
  oc_sent c = [] -> 0 <= oc_phase c < 2 ^ 31 -> oc_phase c mod 6 ≠ OV_INIT -> oc_phase c mod 6 ≠ OV_STORED ->
  (forall id ts acks, preserves (stands (oc_phase c + 1) id ts acks) m) ->
  (m;; (s ← get; verify (oc_phase s mod 6 =? k))) (phase_on c) = Done (tt, c') -> moved c c' /\ oc_phase c' = oc_phase c + 1.
Proof.
  intros Hs Hb Hi Hn Hm Hrun. apply bind_done in Hrun as ([] & c1 & E1 & Hrun). apply bind_done in Hrun as (? & ? & [= <- <-] & Hrun).
  apply (preserves_verify _ (fun x => x = c1)) in Hrun as ->; [|done].
  assert (oc_phase (phase_on c) = oc_phase c + 1) as Ep. { cbn. unfold wrap_u. apply Z.mod_small. lia. }
  apply (Hm (txn_id_ (oc_cmd c)) (oc_ovts c) (oc_store_acks c)) in E1.
  - split; [|by rewrite (st_phase _ _ _ _ _ E1)]. by apply (stands_moved (oc_phase c + 1)); [|right|].
  - split; try done; cbn; rewrite Hs; [constructor|done].
Qed.

Lemma phase_on_succ c : 0 <= oc_phase c < 2 ^ 31 -> oc_phase (phase_on c) = oc_phase c + 1.
Proof. intros Hb. cbn. unfold wrap_u. apply Z.mod_small. lia. Qed.

(** A phase that begins with one request. *)
Lemma goto_sends (f : CoordinatorOV -> OvReq) c c' k :
  oc_sent c = [] -> 0 <= oc_phase c < 2 ^ 31 ->
  msg_ok (oc_phase c + 1) (txn_id_ (oc_cmd c)) (oc_ovts c) (f (phase_on c)) ->
  creating_req (f (phase_on c)) = (if decide (oc_phase c mod 6 = OV_INIT) then [txn_id_ (oc_cmd c)] else []) ->
  ((own_root;; (s ← get; oc_send (f s)));; (s ← get; verify (oc_phase s mod 6 =? k))) (phase_on c) = Done (tt, c') ->
  moved c c' /\ oc_phase c' = oc_phase c + 1.
Proof.
  intros Hs Hb Hm Hc Hrun. apply bind_done in Hrun as ([] & c1 & E1 & Hrun). apply bind_done in Hrun as (? & ? & [= <- <-] & Hrun).
  apply (preserves_verify _ (fun x => x = c1)) in Hrun as ->; [|done]. apply bind_done in E1 as ([] & c2 & E2 & E1).
  apply bind_done in E2 as (? & ? & [= <- <-] & E2). apply (preserves_verify _ (fun x => x = phase_on c)) in E2 as ->; [|done].
  apply bind_done in E1 as (? & ? & [= <- <-] & E1). injection E1 as <-.
  match goal with |- moved c ?x /\ _ => assert (oc_phase x = oc_phase c + 1 /\ oc_sent x = [f (phase_on c)]) as [Ep Es] end.
  { split; [exact (phase_on_succ c Hb)|]. cbn. by rewrite Hs. }
  split; [|done]. split; try done; rewrite ?Ep, ?Es; [by right|by constructor|]. cbn [mbind list_bind]. rewrite Hc, app_nil_r.
  destruct (decide (oc_phase c mod 6 = OV_INIT)), (decide (_ /\ _)); naive_solver.
Qed.

Lemma goto_moved c c' :
  oc_sent c = [] -> 0 <= oc_phase c < 2 ^ 31 -> oc_GotoNextPhase c = Done (tt, c') -> moved c c' /\ oc_phase c' = oc_phase c + 1.
Proof.
  intros Hs Hb Hrun. apply bind_done in Hrun as (? & ? & [= <- <-] & Hrun). apply bind_done in Hrun as ([] & c1 & [= <-] & Hrun).
  change (c <| oc_phase ::= _ |>) with (phase_on c) in Hrun. pose proof (phase_on_succ c Hb) as Ep.
  pose proof (mod6_succ (oc_phase c)) as Hm6.
  destruct (Z.eqb_spec (oc_phase c mod 6) OV_INIT) as [Hc|Hc0].
  { apply (goto_sends (fun s => SendCreateTs _ _) c c' OV_CREATED_TS) in Hrun; try done; [|by rewrite decide_True].
    cbn [msg_ok]. rewrite Ep, Hm6, Hc. done. }
  destruct (Z.eqb_spec (oc_phase c mod 6) OV_CREATED_TS) as [Hc|Hc1].
  { apply (goto_stands oc_Dispatch c c' OV_DISPATHED); try done; [rewrite Hc; done|].
    intros. apply Dispatch_stands. by rewrite Hm6, Hc. }
  destruct (Z.eqb_spec (oc_phase c mod 6) OV_DISPATHED) as [Hc|Hc2].
  { apply (goto_stands OVStore c c' OV_STORED); try done; [rewrite Hc; done|]. intros. apply OVStore_stands. by rewrite Hm6, Hc. }
  destruct (Z.eqb_spec (oc_phase c mod 6) OV_STORED) as [Hc|Hc3].
  { apply (goto_sends (fun s => SendStoredRemoveTs _ _ _) c c' OV_EXECUTE) in Hrun; try done; [|by rewrite Hc].
    cbn [msg_ok]. rewrite Ep, Hm6, Hc. done. }
  destruct (Z.eqb_spec (oc_phase c mod 6) OV_EXECUTE) as [Hc|Hc4].
  { apply (goto_stands Execute c c' OV_END); try done. intros. apply Execute_stands. by rewrite Hm6, Hc. }
  apply bind_done in Hrun as ([] & c1 & E1 & Hrun). apply bind_done in E1 as (? & ? & [= <- <-] & E1).
  apply (preserves_verify _ (fun x => x = phase_on c)) in E1 as ->; [|done].
  apply bind_done in Hrun as (? & ? & [= <- <-] & Hrun). apply bind_done in Hrun as ([] & c2 & E2 & Hrun).
  apply (preserves_verify _ (fun x => x = phase_on c)) in E2 as ->; [|done]. injection Hrun as <-. split; [|done].
  split; try done; cbn; rewrite ?Hs; [right; exact Ep|constructor|]. rewrite decide_False by (intros [_ ?]; done). done.
Qed.

Lemma moved_refl c : oc_sent c = [] -> moved c c.
Proof. intros Hs. split; try done; [by left|rewrite Hs; constructor|]. rewrite Hs, decide_False by lia. done. Qed.

(** Changes that the phases, the transaction and the timestamps do not see. *)
Lemma moved_from c c1 c' :
  stands (oc_phase c) (txn_id_ (oc_cmd c)) (oc_ovts c) (oc_store_acks c) c1 -> oc_phase c mod 6 ≠ OV_STORED ->
  moved c1 c' -> moved c c'.
Proof. intros [A B C D _ _] Hn [M1 M2 M3 M4 M5 M6 M7]. rewrite A, B, C, D in *. by split. Qed.

Lemma silent_modify f : (forall c, oc_sent (f c) = oc_sent c) -> preserves (fun c => oc_sent c = []) (modify f).
Proof. intros Hf. apply preserves_modify. intros c. by rewrite Hf. Qed.
Lemma silent_cmd {A} (m : M TxnCommand A) : preserves (fun c => oc_sent c = []) (on_oc_cmd m).
Proof. intros c a c' Hc Hrun. unfold on_oc_cmd in Hrun. by destruct (m (oc_cmd c)) as [[b t]| |]; [injection Hrun as -> <-|..]. Qed.
#[local] Hint Resolve silent_cmd : preserves.
Ltac solve_silent := solve_preserves_with ltac:(apply silent_modify; by intros).
Ltac solve_stands := solve_preserves_with ltac:(first [apply stands_modify; by intros | apply stands_cmd; intros; solve [auto using GetReadyCmds_id, Merge_id, HasMore_id]]).

Section handler.
Context (c c' : CoordinatorOV) (Hs : oc_sent c = []) (Hb : 0 <= oc_phase c < 2 ^ 31).

Lemma CreateTsAck_moved ph ts :
  CreateTsAck ph ts c = Done (tt, c') -> ph = oc_phase c /\ moved (c <| oc_ovts := ts |>) c' /\ oc_phase c' = oc_phase c + 1.
Proof.
  intros Hrun. apply bind_done in Hrun as (? & ? & [= <- <-] & Hrun). apply bind_done in Hrun as ([] & c1 & E1 & Hrun).
  unfold verify in E1. destruct (Z.eqb_spec ph (oc_phase c)) as [->|]; [|done]. injection E1 as <-. split; [done|].
  apply bind_done in Hrun as ([] & c1 & E1 & Hrun). apply bind_done in E1 as (? & ? & [= <- <-] & E1).
  apply (preserves_verify _ (fun x => x = c)) in E1 as ->; [|done].
  apply bind_done in Hrun as ([] & c1 & [= <-] & Hrun). by apply goto_moved in Hrun.
Qed.

Lemma StoredRemoveTsAck_moved ph : StoredRemoveTsAck ph c = Done (tt, c') -> ph = oc_phase c /\ moved c c' /\ oc_phase c' = oc_phase c + 1.
Proof.
  intros Hrun. apply bind_done in Hrun as (? & ? & [= <- <-] & Hrun). apply bind_done in Hrun as ([] & c1 & E1 & Hrun).
  unfold verify in E1. destruct (Z.eqb_spec ph (oc_phase c)) as [->|]; [|done]. injection E1 as <-. split; [done|].
  apply bind_done in Hrun as ([] & c1 & E1 & Hrun). apply bind_done in E1 as (? & ? & [= <- <-] & E1).
  apply (preserves_verify _ (fun x => x = c)) in E1 as ->; [|done]. by apply goto_moved in Hrun.
Qed.

(** One more answer. *)
Definition acked (par : Z) : CoordinatorOV :=
  c <| oc_store_acks ::= fun m => let '(n, m) := index 0 par m in insert par (i32 (n + 1)) m |>.

Lemma OVStoreACK_moved ph par :
  OVStoreACK ph par c = Done (tt, c') ->
  (ph ≠ oc_phase c /\ c' = c) \/
  (ph = oc_phase c /\ moved (acked par) c' /\ (oc_phase c' = oc_phase c + 1 -> TxnStored (acked par) = true)).
Proof.
  intros Hrun. apply bind_done in Hrun as (? & ? & [= <- <-] & Hrun). destruct (Z.eqb_spec ph (oc_phase c)) as [->|]; cbn [negb] in Hrun.
  - right. split; [done|]. apply bind_done in Hrun as ([] & c1 & [= <-] & Hrun). change (c <| oc_store_acks ::= _ |>) with (acked par) in Hrun.
    apply bind_done in Hrun as (? & ? & [= <- <-] & Hrun). unfold when in Hrun. destruct (TxnStored (acked par)) eqn:Et.
    + split; [|done]. apply goto_moved in Hrun; [by apply Hrun|done..].
    + injection Hrun as <-. split; [by apply moved_refl|]. cbn. lia.
  - left. by injection Hrun as <-.
Qed.

Lemma DispatchAck_moved ph out :
  DispatchAck ph out c = Done (tt, c') -> ph = oc_phase c /\ (ph mod 6 = OV_DISPATHED -> moved c c').
Proof.
  intros Hrun. apply bind_done in Hrun as (? & ? & [= <- <-] & Hrun). apply bind_done in Hrun as ([] & c1 & E1 & Hrun).
  unfold verify in E1. destruct (Z.eqb_spec ph (oc_phase c)) as [->|]; [|done]. injection E1 as <-. split; [done|]. intros Hp.
  pose proof (stands_self c Hs) as Hst.
  apply bind_done in Hrun as ([] & c1 & E1 & Hrun). apply (own_root_stands _ _ _ _ _ _ _ Hst) in E1 as Hst1.
  assert (oc_sent c1 = []) as Hs1.
  { match type of E1 with ?m _ = _ => assert (preserves (fun c => oc_sent c = []) m) as P by (unfold own_root; solve_silent) end. exact (P _ _ _ Hs E1). }
  apply bind_done in Hrun as ([] & c2 & E2 & Hrun). apply bind_done in Hrun as (more & c3 & E3 & Hrun).
  assert (stands (oc_phase c) (txn_id_ (oc_cmd c)) (oc_ovts c) (oc_store_acks c) c2) as Hst2.
  { match type of E2 with ?m _ = _ => assert (preserves (stands (oc_phase c) (txn_id_ (oc_cmd c)) (oc_ovts c) (oc_store_acks c)) m) as P by solve_stands end. exact (P _ _ _ Hst1 E2). }
  assert (oc_sent c2 = []) as Hs2.
  { match type of E2 with ?m _ = _ => assert (preserves (fun c => oc_sent c = []) m) as P by solve_silent end. exact (P _ _ _ Hs1 E2). }
  apply (stands_cmd _ _ _ _ _ HasMore_id _ _ _ Hst2) in E3 as Hst3. apply (silent_cmd _ _ _ _ Hs2) in E3 as Hs3.
  assert (oc_phase c mod 6 ≠ OV_STORED) as Hn by (rewrite Hp; done).
  destruct more.
  - apply (Dispatch_stands _ _ _ _ Hp _ _ _ Hst3) in Hrun. by apply (stands_moved (oc_phase c)); [|left|].
  - apply bind_done in Hrun as (all & c4 & E4 & Hrun).
    assert (c4 = c3) as ->.
    { apply bind_done in E4 as (? & ? & [= <- <-] & E4). destruct (forallb _ _); [|by injection E4 as _ <-].
      apply bind_done in E4 as ([] & c5 & E5 & E4). apply (preserves_verify _ (fun x => x = c3)) in E5 as ->; [|done]. by injection E4 as _ <-. }
    apply (moved_from c c3); [done..|]. unfold when in Hrun. destruct all; [|injection Hrun as <-; by apply moved_refl].
    apply goto_moved in Hrun; [apply Hrun|done|]. by rewrite (st_phase _ _ _ _ _ Hst3).
Qed.

Lemma ExecuteAck_moved ph par out :
  ExecuteAck ph par out c = Done (tt, c') -> c' = c \/ (ph = oc_phase c /\ (ph mod 6 = OV_END -> moved c c')).
Proof.
  intros Hrun. apply bind_done in Hrun as (? & ? & [= <- <-] & Hrun). destruct (Z.eqb_spec ph (oc_phase c)) as [->|]; cbn [negb] in Hrun; [|left; by injection Hrun as <-].
  right. split; [done|]. intros Hp. pose proof (stands_self c Hs) as Hst. assert (oc_phase c mod 6 ≠ OV_STORED) as Hn by (rewrite Hp; done).
  apply bind_done in Hrun as ([] & c1 & [= <-] & Hrun). apply bind_done in Hrun as (k & c1 & E1 & Hrun).
  injection E1 as E1. destruct (index _ _ _) as [k0 m] in E1. injection E1 as <- <-.
  match type of Hrun with _ ?x = _ => set (c1 := x) in * end.
  assert (stands (oc_phase c) (txn_id_ (oc_cmd c)) (oc_ovts c) (oc_store_acks c) c1) as Hst1 by (by destruct Hst; split).
  assert (oc_sent c1 = []) as Hs1 by exact Hs.
  destruct (1 <? k0); [injection Hrun as <-; apply (moved_from c c1); [done..|by apply moved_refl]|].
  apply bind_done in Hrun as ([] & c2 & E2 & Hrun). apply bind_done in Hrun as (? & ? & [= <- <-] & Hrun).
  assert (stands (oc_phase c) (txn_id_ (oc_cmd c)) (oc_ovts c) (oc_store_acks c) c2) as Hst2.
  { match type of E2 with ?m _ = _ => assert (preserves (stands (oc_phase c) (txn_id_ (oc_cmd c)) (oc_ovts c) (oc_store_acks c)) m) as P by (unfold oc_Merge; solve_stands) end. exact (P _ _ _ Hst1 E2). }
  assert (oc_sent c2 = []) as Hs2.
  { match type of E2 with ?m _ = _ => assert (preserves (fun c => oc_sent c = []) m) as P by (unfold oc_Merge; solve_silent) end. exact (P _ _ _ Hs1 E2). }
  apply (moved_from c c2); [done..|]. unfold when in Hrun. destruct (OutputReady _); [|injection Hrun as <-; by apply moved_refl].
  apply goto_moved in Hrun; [apply Hrun|done|]. by rewrite (st_phase _ _ _ _ _ Hst2).
Qed.

Lemma do_one_moved id t : oc_do_one id t c = Done (tt, c') ->
  exists c1, moved c1 c' /\ oc_phase c' = oc_phase c + 1 /\ oc_phase c1 = oc_phase c /\ txn_id_ (oc_cmd c1) = id /\ oc_store_acks c1 = [].
Proof.
  intros Hrun. apply bind_done in Hrun as ([] & c1 & [= <-] & Hrun). apply goto_moved in Hrun as [Hm Hp]; [|done..]. by eexists.
Qed.
End handler.
End coord.
