(* ===== verification/OvReach.v ===== *)
(** * Ocean Vista: one step of the system

    What a step changes, and that the watermarks stay safe: [wm_step] for any event,
    with a clock reading in its range. *)
From stdpp Require Import base tactics numbers list sorting gmap.
From S2P Require Import Prelude OMap Command Chopper OvSched OvGossip OvCoord OvSystem OvWatermark.

Section reach.
Context `{OvRegistry} `{OvConfig} `{OvWorkload}.
Abbreviation everywhere := (fun _ : Z => True).

(** ** What is left as it is *)

(** The packets that a site or a gossiper sends besides its answer. *)
Definition quiet (w : OvSys) (p : ov_packet) : Prop :=
  match p with
  | PExecuteAck coo phase par _ => exists k, ow_pending w !! k = Some (coo, phase, par)
  | PPublish _ _ _ | PPublishAck _ _ _ | PExchange _ _ _ _ _ | PExchangeAck _ _ _ _ => True
  | _ => False
  end.

Record same_work (w w' : OvSys) : Prop := {
  sw_coords : ow_coords w' = ow_coords w;
  sw_pending : ow_pending w' = ow_pending w;
  sw_ts : ow_ts w' = ow_ts w;
  sw_reported : ow_reported w' = ow_reported w;
  sw_used : ow_used w' = ow_used w;
  sw_net : exists l, ow_net w' = ow_net w ++ l /\ Forall (quiet w) l;
}.

Lemma same_work_refl w : same_work w w.
Proof. split; try done. exists []. by rewrite app_nil_r. Qed.

Lemma same_work_trans w1 w2 w3 : same_work w1 w2 -> same_work w2 w3 -> same_work w1 w3.
Proof.
  intros [A1 A2 A3 A4 A5 (l1 & A6 & A7)] [B1 B2 B3 B4 B5 (l2 & B6 & B7)]. split; [congruence..|].
  exists (l1 ++ l2). rewrite B6, A6, app_assoc. split; [done|]. apply Forall_app. split; [done|].
  apply (Forall_impl _ _ _ B7). intros []; cbn; by rewrite ?A2.
Qed.

Lemma at_gossiper_work {A} g (m : M OVGossiper A) w a w' :
  at_gossiper g m w = Some (a, w') -> same_work w w' /\ ow_sites w' = ow_sites w.
Proof.
  unfold at_gossiper. destruct (ow_gossipers w !! g) as [r|]; [|done]. cbn. destruct (m _) as [[b r']| |]; [|done..].
  intros [= -> <-]. split; [|done]. split; try done. eexists. split; [done|]. apply Forall_fmap, Forall_forall. by intros [].
Qed.

Lemma ov_outs_work site outs w w' : foldl (ov_out site) (Some w) outs = Some w' -> same_work w w' /\ ow_sites w' = ow_sites w.
Proof.
  revert w. induction outs as [|o outs IH]; intros w Hrun; cbn [foldl] in Hrun; [injection Hrun as <-; split; [apply same_work_refl|done]|].
  destruct (ov_out site (Some w) o) as [w1|] eqn:E.
  - assert (same_work w w1 /\ ow_sites w1 = ow_sites w) as [Hw1 Es1].
    { destruct o; cbn in E.
      - destruct (at_gossiper _ _ _) as [[[] w2]|] eqn:E2; [|done]. injection E as <-. by apply at_gossiper_work in E2.
      - destruct (ow_pending w !! _) as [[[coo phase] par]|] eqn:Ep; [|done]. injection E as <-. split; [|done].
        split; try done. eexists. split; [done|]. constructor; [|done]. cbn. eauto. }
    apply IH in Hrun as [? ?]. split; [by apply (same_work_trans _ w1)|congruence].
  - exfalso. clear -Hrun. induction outs as [|o' outs IH]; cbn in Hrun; [done|]. by apply IH.
Qed.

Lemma at_ovsite_work {A} site (m : M SchedulerOV A) w a w' :
  at_ovsite site m w = Some (a, w') ->
  exists s s', ow_sites w !! site = Some s /\ m (s <| so_out := [] |>) = Done (a, s') /\
    same_work w w' /\ ow_sites w' = <[site := s']> (ow_sites w).
Proof.
  unfold at_ovsite. destruct (ow_sites w !! site) as [s|]; [|done]. cbn. destruct (m _) as [[b s']| |] eqn:E; [|done..].
  destruct (foldl _ _ _) as [w2|] eqn:Ef; [|done]. intros [= -> <-]. apply ov_outs_work in Ef as [Hw Es].
  exists s, s'. split_and!; [done..| |exact Es]. apply (same_work_trans _ (w <| ow_sites ::= <[site := s']> |>)); [|done].
  split; try done. exists []. by rewrite app_nil_r.
Qed.

(** ** The requests of a coordinator *)

Definition reports (c : CoordinatorOV) (r : OvReq) : list (Z * ov_ts_t * oset Z) :=
  match r with SendStoredRemoveTs _ id ts => [(id, ts, partition_ids_ (oc_cmd c))] | _ => [] end.

Definition target_ok (r : OvReq) (site : option Z) : Prop :=
  match r with
  | BroadcastStore _ par _ _ _ => exists y, site = Some y /\ y ∈ par_sites par
  | _ => True
  end.

Lemma note_all c l w : foldl (note_stored c) w l = w <| ow_reported ::= fun r => r ++ (l ≫= reports c) |>.
Proof.
  revert w. induction l as [|r l IH]; intros w; cbn [foldl].
  - destruct w. cbn [mbind list_bind]. unfold set_field. cbn. by rewrite app_nil_r.
  - rewrite IH. cbn [mbind list_bind]. unfold set_field. destruct w, r; cbn; by rewrite <- ?app_assoc.
Qed.

Lemma req_packets_spec coo r l p : req_packets coo r = Some l -> p ∈ l -> exists site, p = PReq coo site r /\ target_ok r site.
Proof.
  assert (forall x, p ∈ [x] -> p = x) as Hone by (intros x [->|?%elem_of_nil]%elem_of_cons; done).
  destruct r; cbn [req_packets target_ok]; intros E Hp.
  1,2: injection E as <-; apply Hone in Hp as ->; eauto.
  - destruct (par_sites par_id) as [|y ys] eqn:Ey; [done|]. injection E as <-.
    apply (list_elem_of_fmap (fun s => PReq coo (Some s) _) (y :: ys)) in Hp as (z & -> & Hz).
    eexists. split; [done|]. exists z. by rewrite ?Ey.
  - injection E as <-. apply Hone in Hp as ->. eauto.
  - destruct (par_sites par_id) as [|y ys] eqn:Ey; [done|]. injection E as <-.
    apply (list_elem_of_fmap (fun s => PReq coo (Some s) _) (y :: ys)) in Hp as (z & -> & Hz). eauto.
Qed.

Record coord_work (coo : Z) (c c' : CoordinatorOV) (w w' : OvSys) : Prop := {
  cw_sites : ow_sites w' = ow_sites w;
  cw_gossipers : ow_gossipers w' = ow_gossipers w;
  cw_coords : ow_coords w' = <[coo := c']> (ow_coords w);
  cw_pending : ow_pending w' = ow_pending w;
  cw_ts : ow_ts w' = ow_ts w;
  cw_used : ow_used w' = ow_used w;
  cw_reported : ow_reported w' = ow_reported w ++ (oc_sent c' ≫= reports c');
  cw_net : exists ps, ow_net w' = ow_net w ++ concat ps /\ Forall2 (fun r l => req_packets coo r = Some l) (oc_sent c') ps;
}.

Lemma at_coord_work coo (m : M CoordinatorOV ()) w w' :
  at_coord coo m w = Some w' ->
  exists c c', ow_coords w !! coo = Some c /\ m (c <| oc_sent := [] |>) = Done (tt, c') /\ coord_work coo c c' w w'.
Proof.
  unfold at_coord. destruct (ow_coords w !! coo) as [c|]; [|done]. cbn. destruct (m _) as [[[] c']| |] eqn:E; [|done..].
  destruct (mapM _ _) as [ps|] eqn:Ep; [|done]. cbn. intros [= <-]. rewrite note_all. exists c, c'. split_and!; [done..|].
  split; try done. exists ps. split; [done|]. by apply mapM_Some.
Qed.

Lemma coord_work_packets coo c c' w w' :
  coord_work coo c c' w w' ->
  exists l, ow_net w' = ow_net w ++ l /\ Forall (fun p => exists r site, r ∈ oc_sent c' /\ p = PReq coo site r /\ target_ok r site) l.
Proof.
  intros Hw. destruct (cw_net _ _ _ _ _ Hw) as (ps & En & Hf). exists (concat ps). split; [done|]. apply Forall_concat.
  apply Forall_forall. intros l Hl. apply list_elem_of_lookup in Hl as (i & Hi). destruct (Forall2_lookup_r _ _ _ _ _ Hf Hi) as (r & Hr & Ep).
  apply Forall_forall. intros p Hp. destruct (req_packets_spec coo r l p Ep Hp) as (site & -> & Ht).
  exists r, site. split; [by eapply list_elem_of_lookup_2|done].
Qed.

(** ** The watermarks stay safe *)

Lemma wm_inv_later n n' w : n <= n' -> wm_inv n w -> wm_inv n' w.
Proof.
  intros Hn [[A B C] I2 I3]. split; [split; try done|done|done]. intros id s Hs. apply (tid_ok_mono n); [done|by apply (A id)].
Qed.

Lemma wm_inv_coord n coo c c' w w' : wm_inv n w -> coord_work coo c c' w w' -> wm_inv n w'.
Proof.
  intros [I1 I2 I3] Hw. destruct (coord_work_packets _ _ _ _ _ Hw) as (l & En & Hl).
  split; rewrite ?(cw_sites _ _ _ _ _ Hw), ?(cw_gossipers _ _ _ _ _ Hw); [done..|]. rewrite En. apply Forall_app. split; [done|].
  apply (Forall_impl _ _ _ Hl). by intros p (r & site & _ & -> & _).
Qed.

(** What a step does to the sites and the timestamps. *)
Record wm_moves (n : Z) (w w' : OvSys) : Prop := {
  wv_inv : wm_inv (n + 1) w';
  wv_grows : grows (ow_sites w) (ow_sites w');
  wv_ts : forall id ts y, ow_ts w' !! id = Some (ts, y) ->
    ow_ts w !! id = Some (ts, y) \/ forall wm, safe_for everywhere (ow_sites w) wm -> ~ ov_lex ts wm;
}.

Lemma grows_refl sites : grows sites sites.
Proof. intros id s Hs. by exists s. Qed.

Lemma wm_moves_still n w w' : wm_inv n w' -> ow_sites w' = ow_sites w -> ow_ts w' = ow_ts w -> wm_moves n w w'.
Proof.
  intros Hi Es Et. split; [apply (wm_inv_later n); [lia|done]|rewrite Es; apply grows_refl|]. intros. left. congruence.
Qed.

Lemma at_coord_moves n coo m w w' : wm_inv n w -> at_coord coo m w = Some w' -> wm_moves n w w'.
Proof.
  intros Hi Hrun. apply at_coord_work in Hrun as (c & c' & _ & _ & Hw). apply wm_moves_still; [by eapply wm_inv_coord|apply Hw..].
Qed.

Lemma at_gossiper_moves {A} n g (m : M OVGossiper A) w a w' :
  wm_inv n w -> (forall dc, preserves (gossiper_ok dc (ow_sites w)) m) -> at_gossiper g m w = Some (a, w') -> wm_moves n w w'.
Proof.
  intros Hi Hm Hrun. apply at_gossiper_work in Hrun as Hwork. destruct Hwork as [Hw Es].
  apply (at_gossiper_inv n) in Hrun as [Hi' _]; [|done|by intros]. apply wm_moves_still; [done..|apply Hw].
Qed.

Section handler.
Context (n : Z) (Hn : 0 <= n < 2 ^ 31).

Lemma at_ovsite_moves {A} P site (m : M SchedulerOV A) w a w' :
  wm_inv n w -> (forall wm, P wm -> safe_for everywhere (ow_sites w) wm) ->
  (forall s a s', tid_ok n (so_tid_mgr s) -> m s = Done (a, s') -> site_effect n P s s') ->
  at_ovsite site m w = Some (a, w') -> wm_moves n w w'.
Proof.
  intros Hi HP Hm Hrun. apply at_ovsite_work in Hrun as Hwork. destruct Hwork as (_ & _ & _ & _ & Hw & _).
  apply (at_ovsite_inv n P) in Hrun as (s & s' & Es & Er & Hi' & Es'); [|lia|done..]. split; [done| |].
  - rewrite Es'. assert (tid_ok n (so_tid_mgr (s <| so_out := [] |>))) as Ht by exact (sk_tid _ _ (wi_sites _ _ Hi) site s Es).
    destruct (Hm _ _ _ Ht Er) as [E1 E2 E3]. by apply (grows_insert n P _ _ s).
  - intros. left. by rewrite <- (sw_ts _ _ Hw).
Qed.

(** An answer is sent. *)
Lemma wm_moves_send w w' l : wm_moves n w w' -> Forall (pkt_ok (ow_sites w')) l -> wm_moves n w (ow_send l w').
Proof. intros [A B C] Hl. split; [by apply wm_inv_send|done..]. Qed.

Lemma keeps_moves {A} site (m : M SchedulerOV A) w a w' :
  wm_inv n w -> (forall t v, preserves (keeps t v) m) -> at_ovsite site m w = Some (a, w') -> wm_moves n w w'.
Proof.
  intros Hi Hm. apply (at_ovsite_moves (fun _ => False)); [done|done|]. intros s a' s' Ht Er. by apply (keeps_effect n _ _ _ _ _ Hm Ht Er).
Qed.

Lemma serve_moves coo site now r w w' :
  clock_ok now -> wm_inv n w -> ov_serve coo site now r w = Some w' -> wm_moves n w w'.
Proof.
  intros Hnow Hi Hrun. destruct r; cbn in Hrun.
  - destruct (at_ovsite _ _ _) as [[ts w1]|] eqn:E; [|done]. injection Hrun as <-. apply wm_moves_send; [|by constructor].
    apply at_ovsite_work in E as Hwork. destruct Hwork as (s & s' & Es & Er & Hw & Es').
    apply on_tid_mgr_done in Er as (t & Et & ->).
    assert (wm_moves n w w1) as [M1 M2 M3].
    { revert E. apply (at_ovsite_moves (fun _ => False)); [done|done|]. intros s1 a' s1' Ht Er. apply on_tid_mgr_done in Er as (t1 & Et1 & ->).
      destruct (CreateTs_spec n _ _ _ _ _ Ht Hn Hnow Et1) as (A & B & _). split; [done| |by left]. intros wm Hs. by apply B. }
    split; [by destruct M1; split|done|]. cbn. intros id ts' y [[<- [= <- <-]]|[_ Hid]]%lookup_insert_Some; [|by apply M3].
    right. intros wm Hsafe. pose proof (sk_tid _ _ (wi_sites _ _ Hi) site s Es) as Htid.
    destruct (CreateTs_spec n _ _ (so_tid_mgr s) _ _ Htid Hn Hnow Et) as (_ & B & _). apply (B wm), (Hsafe site); done.
  - destruct (at_ovsite _ _ _) as [[out w1]|] eqn:E; [|done]. injection Hrun as <-. apply wm_moves_send; [|by constructor].
    revert E. apply keeps_moves; [done|]. intros. apply OnDispatch_keeps.
  - destruct (at_ovsite _ _ _) as [[out w1]|] eqn:E; [|done]. injection Hrun as <-. apply wm_moves_send; [|by constructor].
    revert E. apply keeps_moves; [done|]. intros. apply OnStore_keeps.
  - destruct (at_ovsite _ _ _) as [[[] w1]|] eqn:E; [|done]. injection Hrun as <-. apply wm_moves_send; [|by constructor].
    revert E. apply (at_ovsite_moves (fun _ => False)); [done|done|]. intros s [] s' Ht Er. apply on_tid_mgr_done in Er as (t & Et & ->).
    destruct (StoredTs_spec n _ _ _ _ Ht Et) as (A & B & _). split; [apply (tid_ok_mono n); [lia|done]|done|by left].
  - destruct (at_ovsite _ _ _) as [[out w1]|] eqn:E; [|done]. injection Hrun as <-.
    apply keeps_moves in E; [|by destruct Hi; split|intros; apply OnExecute_keeps]. by destruct E; split.
Qed.

Lemma publish_moves g site now wm w w' ts w1 :
  clock_ok now -> wm_inv n w -> safe_for everywhere (ow_sites w) wm ->
  at_ovsite site (OnPublish now (ov_timestamp_ wm) (ov_site_id_ wm)) w = Some (ts, w1) ->
  w' = ow_send [PPublishAck g site ts] w1 -> wm_moves n w w'.
Proof.
  intros Hnow Hi Hwm E ->. apply at_ovsite_work in E as Hwork. destruct Hwork as (s & s' & Es & Er & _ & Es').
  assert (tid_ok n (so_tid_mgr (s <| so_out := [] |>))) as Ht by exact (sk_tid _ _ (wi_sites _ _ Hi) site s Es).
  destruct (OnPublish_effect n (eq wm) _ _ _ _ _ Hn Hnow eq_refl Ht Er) as (_ & Hts & _).
  apply wm_moves_send.
  - revert E. apply (at_ovsite_moves (eq wm)); [done|by intros ? <-|]. intros s1 a' s1' Ht1 Er1.
    by apply (OnPublish_effect n (eq wm) _ _ _ _ _ Hn Hnow eq_refl Ht1) in Er1 as (? & _).
  - constructor; [|done]. cbn. rewrite Es'. intros id s1 [[<- <-]|[Hne _]]%lookup_insert_Some; [done|]. by intros <-.
Qed.

Lemma deliver_moves p site now w w' :
  clock_ok now -> wm_inv n w -> pkt_ok (ow_sites w) p -> ov_deliver p site now w = Some w' -> wm_moves n w w'.
Proof.
  intros Hnow Hi Hp Hrun. destruct p; cbn in Hrun; try (by apply (at_coord_moves n) in Hrun).
  - by apply serve_moves in Hrun.
  - destruct (at_ovsite _ _ _) as [[ts w1]|] eqn:E; [|done]. injection Hrun as <-. by eapply publish_moves.
  - destruct (at_gossiper _ _ _) as [[[] w1]|] eqn:E; [|done]. injection Hrun as <-. revert E. apply at_gossiper_moves; [done|].
    intros dc. apply (PublishAck_ok n); [apply Hi|done].
  - destruct Hp as [Hp Hin]. destruct (at_gossiper _ _ _) as [[ts w1]|] eqn:E; [|done]. injection Hrun as <-.
    assert (wm_moves n w w1) as Hm.
    { revert E. apply at_gossiper_moves; [done|]. intros dc g1 ts1 g1' Hg Er. by apply (OnExchange_ok n dc _ (wi_sites _ _ Hi)) in Er as [? _]. }
    apply wm_moves_send; [done|]. constructor; [|done]. cbn. apply at_gossiper_work in E as Hwork. rewrite (proj2 Hwork).
    unfold at_gossiper in E. destruct (ow_gossipers w !! _) as [r|] eqn:Er; [|done]. cbn in E.
    destruct (wi_gossipers _ _ Hi _ r Er) as (x & Hx & Hr). destruct (OnExchange _ _ _) as [[b r']| |] eqn:Eo; [|done..].
    injection E as -> _. destruct Hin as (x' & Hx' & <-). rewrite Hx in Hx'. injection Hx' as <-.
    apply (OnExchange_ok n (os_dc x) _ (wi_sites _ _ Hi)) in Eo as [_ ?]; [done| |done]. destruct Hr. by split.
  - destruct (at_gossiper _ _ _) as [[[] w1]|] eqn:E; [|done]. injection Hrun as <-. revert E. apply at_gossiper_moves; [done|].
    intros dc. apply (ExchangeAck_ok n); [apply Hi|done].
Qed.

(** The clock is read in its range. *)
Definition event_ok (e : ov_event) : Prop := match e with EvDeliver _ _ now => clock_ok now | _ => True end.

Lemma wm_step e w w' : event_ok e -> wm_inv n w -> ov_step e w = Some w' -> wm_moves n w w'.
Proof.
  intros He Hi Hrun. destruct e; cbn in Hrun.
  - destruct (ow_coords w !! coo); [|done]. cbn in Hrun. destruct (_ && _); [|done].
    apply (at_coord_moves n) in Hrun; [|by destruct Hi; split]. by destruct Hrun; split.
  - destruct (ow_net w !! k) as [p|] eqn:Ep; [|done]. cbn in Hrun. pose proof (wi_net _ _ Hi) as Hnet.
    assert (pkt_ok (ow_sites w) p) as Hp by (by apply (Forall_lookup_1 _ _ _ _ Hnet Ep)).
    apply deliver_moves in Hrun; [by destruct Hrun; split|done| |done]. destruct Hi. split; [done..|]. cbn. by apply Forall_delete.
  - destruct (ow_sites w !! g) as [s|]; [|done]. cbn in Hrun. destruct (so_gossiper_inited s); [|done].
    destruct (at_gossiper _ _ _) as [[[] w1]|] eqn:E; [|done]. injection Hrun as <-. revert E. apply at_gossiper_moves; [done|].
    intros dc. apply (GossipLoop_ok n). apply Hi.
  - destruct (ow_sites w !! g) as [s|]; [|done]. cbn in Hrun. destruct (so_gossiper_inited s); [|done].
    destruct (at_gossiper _ _ _) as [[[] w1]|] eqn:E; [|done]. injection Hrun as <-. revert E. apply at_gossiper_moves; [done|].
    intros dc. apply AggregateLoop_ok.
Qed.
End handler.
End reach.

(** ** Ocean Vista: the system at its start

    The gossiper that a data centre begins with knows all its sites and all data
    centres, so that [wm_inv] holds of [ov_init]. *)

Lemma index_of_name_found name sites i k :
  index_of_name name sites i = Some k -> exists j x, k = i + Z.of_nat j /\ sites !! j = Some x /\ os_name x = name.
Proof.
  revert i. induction sites as [|s sites IH]; intros i; cbn; [done|]. destruct (Z.eqb_spec (os_name s) name) as [Hs|].
  - intros [= <-]. exists O, s. cbn. split; [lia|done].
  - intros (j & x & -> & Hj & Hx)%IH. exists (S j), x. cbn. split; [lia|done].
Qed.

Lemma index_of_name_at sites j x i :
  NoDup (os_name <$> sites) -> sites !! j = Some x -> index_of_name (os_name x) sites i = Some (i + Z.of_nat j).
Proof.
  revert j i. induction sites as [|s sites IH]; intros j i Hnd Hj; [done|]. apply NoDup_cons in Hnd as [Hs Hnd]. cbn.
  destruct j as [|j]; cbn in Hj.
  - injection Hj as ->. rewrite Z.eqb_refl. f_equal. lia.
  - destruct (Z.eqb_spec (os_name s) (os_name x)) as [E|].
    + destruct Hs. change (os_name s ∈ os_name <$> sites). rewrite E. apply list_elem_of_fmap. exists x. split; [done|]. by eapply list_elem_of_lookup_2.
    + rewrite (IH j (i + 1)) by done. f_equal. lia.
Qed.

Section start.
Context `{OvRegistry} `{OvConfig} `{OvWorkload}.

Lemma site_info_at j x : ov_sites !! j = Some x -> site_info (Z.of_nat j) = Some x.
Proof. intros Hj. unfold site_info. destruct (Z.leb_spec 0 (Z.of_nat j)); [|lia]. by rewrite Nat2Z.id. Qed.

(** ** The names of a data centre *)

Definition by_dc (l : list OvSite) : omap Z (oset Z) :=
  foldl (fun m s => insert (os_dc s) (sinsert (os_name s) (index [] (os_dc s) m).1) m) [] l.

Lemma by_dc_snoc l s :
  by_dc (l ++ [s]) = insert (os_dc s) (sinsert (os_name s) (default [] (find (os_dc s) (by_dc l)))) (by_dc l).
Proof. unfold by_dc. rewrite foldl_snoc. cbn. unfold index. by destruct (find (os_dc s) _). Qed.

Lemma by_dc_sound l dc names name :
  find dc (by_dc l) = Some names -> name ∈ names -> exists x, x ∈ l /\ os_dc x = dc /\ os_name x = name.
Proof.
  revert names. induction l as [|s l IH] using rev_ind; intros names; [done|]. rewrite by_dc_snoc, find_insert.
  case_decide as Hdc.
  - intros [= <-] [->|Hn]%elem_of_sinsert.
    + exists s. rewrite elem_of_app, elem_of_cons. auto.
    + subst dc. destruct (find (os_dc s) (by_dc l)) as [old|]; [|by apply elem_of_nil in Hn].
      destruct (IH old eq_refl Hn) as (x & Hx & ?). exists x. rewrite elem_of_app. auto.
  - intros Hf Hn. destruct (IH names Hf Hn) as (x & Hx & ?). exists x. rewrite elem_of_app. auto.
Qed.

Lemma by_dc_complete l x : x ∈ l -> exists names, find (os_dc x) (by_dc l) = Some names /\ os_name x ∈ names.
Proof.
  induction l as [|s l IH] using rev_ind; intros Hx; [by apply elem_of_nil in Hx|]. rewrite by_dc_snoc, find_insert.
  case_decide as Hdc.
  - eexists. split; [done|]. apply elem_of_sinsert. apply elem_of_app in Hx as [Hx|Hx].
    + destruct (IH Hx) as (names & Hf & Hn). rewrite Hdc, Hf. by right.
    + apply elem_of_cons in Hx as [->|?%elem_of_nil]; [by left|done].
  - apply elem_of_app in Hx as [Hx|Hx]; [by apply IH|]. by apply elem_of_cons in Hx as [->|?%elem_of_nil].
Qed.

Lemma sorted_by_dc l : sorted_keys (by_dc l).
Proof. induction l as [|s l IH] using rev_ind; [constructor|]. rewrite by_dc_snoc. by apply sorted_insert. Qed.

(** ** The constructor *)

Context (Hnames : NoDup (os_name <$> ov_sites)).

Record fresh (dc : Z) (g : OVGossiper) : Prop := {
  fr_name : gs_dcname g = dc;
  fr_site : forall id wm, find id (gs_site_wm g) = Some wm -> wm = ov_zero;
  fr_dc : forall k wm, find k (gs_dc_wm g) = Some wm -> wm = ov_zero;
  fr_wm : gs_vwatermark g = ov_zero;
  fr_peers : Forall (fun p => in_dc p.1 p.2) (gs_peers g);
  fr_sent : gs_sent g = [];
}.

Definition name_index (name : Z) : Z := default (Z.of_nat (length ov_sites)) (index_of_name name ov_sites 0).

(** The data centre [p] has been entered. *)
Definition entered (p : Z * oset Z) (g : OVGossiper) : Prop :=
  count p.1 (gs_dc_wm g) = true /\ (p.1 = gs_dcname g -> forall name, name ∈ p.2 -> count (name_index name) (gs_site_wm g) = true).

Definition enter_site (g : OVGossiper) (name : Z) : OVGossiper := g <| gs_site_wm ::= insert (name_index name) ov_zero |>.

Lemma find_insert_zero (k j : Z) m wm : (forall j wm, find j m = Some wm -> wm = ov_zero) -> find j (insert k ov_zero m) = Some wm -> wm = ov_zero.
Proof. intros Hm. rewrite find_insert. case_decide; [by intros [= <-]|apply Hm]. Qed.

Lemma enter_sites names dc g :
  fresh dc g -> let g' := foldl enter_site g names in
  fresh dc g' /\ gs_dc_wm g' = gs_dc_wm g /\ (forall name, name ∈ names -> count (name_index name) (gs_site_wm g') = true) /\
  (forall id, count id (gs_site_wm g) = true -> count id (gs_site_wm g') = true).
Proof.
  cbn. revert g. induction names as [|name names IH]; intros g Hg; cbn [foldl]; [split_and!; try done; by intros ? ?%elem_of_nil|].
  assert (fresh dc (enter_site g name)) as Hg1. { destruct Hg. split; try done. intros id wm. by apply find_insert_zero. }
  destruct (IH _ Hg1) as (A & B & C & D). split_and!; [done..| |].
  - intros nm [->|Hnm]%elem_of_cons; [|by apply C]. apply D. cbn. by rewrite count_find, find_insert_eq.
  - intros id Hid. apply D. by apply count_insert.
Qed.

Lemma init_dc_spec p dc g g' :
  (forall name, name ∈ p.2 -> exists x, x ∈ ov_sites /\ os_dc x = p.1 /\ os_name x = name) ->
  fresh dc g -> init_dc g p = Some g' -> fresh dc g' /\ entered p g' /\ forall q, entered q g -> entered q g'.
Proof.
  intros Hp Hg Hrun. unfold init_dc in Hrun. set (g1 := g <| gs_dc_wm ::= insert p.1 ov_zero |>) in *.
  assert (fresh dc g1) as Hg1. { destruct Hg. split; try done. intros k wm. by apply find_insert_zero. }
  assert (count p.1 (gs_dc_wm g1) = true) as Hc by (cbn; by rewrite count_find, find_insert_eq).
  assert (forall q, entered q g -> entered q g1) as Hold. { intros q [Q1 Q2]. split; [by apply count_insert|done]. }
  destruct (Z.eqb_spec p.1 (gs_dcname g1)) as [Edc|Hne]; cbn [negb] in Hrun.
  - injection Hrun as <-. destruct (enter_sites p.2 dc g1 Hg1) as (A & B & C & D). change (foldl _ g1 p.2) with (foldl enter_site g1 p.2).
    split; [done|]. split; [split; [by rewrite B|by intros _]|]. intros q Hq%Hold. destruct Hq as [Q1 Q2]. split; [by rewrite B|].
    intros Eq name Hn. apply D, Q2; [|done]. by rewrite Eq, (fr_name _ _ A), (fr_name _ _ Hg1).
  - destruct (head p.2) as [name|] eqn:Eh; [|done]. cbn in Hrun. destruct (index_of_name name ov_sites 0) as [i|] eqn:Ei; [|done].
    injection Hrun as <-. split; [|split; [by split|exact Hold]]. destruct Hg1 as [F1 F2 F3 F4 F5 F6]. split; try done. cbn.
    assert (name ∈ p.2) as Hn. { destruct p.2; [done|]. injection Eh as ->. by left. }
    destruct (Hp name Hn) as (x & Hx & Hd & Hnm). apply list_elem_of_lookup in Hx as (j & Hj).
    rewrite <- Hnm, (index_of_name_at _ j x) in Ei by done. injection Ei as <-.
    apply Forall_forall. intros q Hq%insert_elem_of. destruct Hq as [->|Hq]; [|by rewrite Forall_forall in F5; apply F5].
    exists x. split; [|done]. exact (site_info_at j x Hj).
Qed.

Lemma init_dcs_spec dcs dc g g' :
  (forall p name, p ∈ dcs -> name ∈ p.2 -> exists x, x ∈ ov_sites /\ os_dc x = p.1 /\ os_name x = name) ->
  fresh dc g -> foldl (fun g p => g ← g; init_dc g p) (Some g) dcs = Some g' ->
  fresh dc g' /\ (forall p, p ∈ dcs -> entered p g') /\ forall q, entered q g -> entered q g'.
Proof.
  revert g. induction dcs as [|p dcs IH]; intros g Hp Hg Hrun; cbn [foldl] in Hrun.
  - injection Hrun as <-. split_and!; [done| |done]. by intros ? ?%elem_of_nil.
  - cbn in Hrun. destruct (init_dc g p) as [g1|] eqn:E.
    + apply (init_dc_spec p dc) in E as (A & B & C); [|intros name; apply Hp; by left|done].
      apply IH in Hrun as (D1 & D2 & D3); [|intros q name Hq; apply Hp; by right|done]. split_and!; [done| |auto].
      intros q [->|Hq]%elem_of_cons; auto.
    + exfalso. clear -Hrun. induction dcs as [|q dcs IH]; cbn in Hrun; [done|]. by apply IH.
Qed.

Lemma new_OVGossiper_ok n a b x g sites :
  sites_ok n sites -> new_OVGossiper a b (os_dc x) = Some g -> gossiper_ok (os_dc x) sites g.
Proof.
  intros Hok Hrun. apply (init_dcs_spec _ (os_dc x)) in Hrun as (A & B & _).
  - assert (forall y, y ∈ ov_sites -> exists names, (os_dc y, names) ∈ sites_by_dc /\ os_name y ∈ names) as Hall.
    { intros y Hy. destruct (by_dc_complete ov_sites y Hy) as (names & Hf & Hn). exists names. split; [|done]. by apply find_elem_of. }
    destruct A as [F1 F2 F3 F4 F5 F6]. split; try done.
    + intros id (y & Hy & Ed). unfold site_info in Hy. destruct (Z.leb_spec 0 id); [|done].
      destruct (Hall y) as (names & Hf & Hn); [by eapply list_elem_of_lookup_2|].
      pose proof (proj2 (B _ Hf) Ed (os_name y) Hn) as Hc. unfold name_index in Hc.
      rewrite (index_of_name_at _ (Z.to_nat id) y) in Hc by done. cbn in Hc. by rewrite Z2Nat.id in Hc by done.
    + intros id wm ->%F2. by apply (safe_for_zero n).
    + intros y Hy. destruct (Hall y Hy) as (names & Hf & _). apply (B _ Hf).
    + intros k wm ->%F3. by apply (safe_for_zero n).
    + rewrite F4. by apply (safe_for_zero n).
    + rewrite F6. constructor.
  - intros p name Hp Hn. apply (by_dc_sound ov_sites p.1 p.2); [|done]. apply sorted_elem_of_find; [|by destruct p].
    apply sorted_by_dc.
  - by split.
Qed.

(** ** The sites *)

Definition init_ok (i : OvInit) : Prop :=
  (forall id, 0 <= oi_clock i id <= 2 ^ 62) /\ (forall id, 0 <= oi_drift i id < 2 ^ 61) /\
  forall coo c, oi_coords i !! coo = Some c -> oc_phase c = 0.

Lemma imap_pair_elem (l : list OvSite) p : p ∈ imap pair l -> l !! p.1 = Some p.2.
Proof. intros (j & Hj)%list_elem_of_lookup. rewrite list_lookup_imap in Hj. by destruct (l !! j) eqn:E; [injection Hj as <-|]. Qed.

Lemma init_sites_info i id s :
  ow_sites (ov_init i) !! id = Some s -> exists x, site_info id = Some x /\ s = (init_site i (Z.to_nat id, x)).2.
Proof.
  cbn. intros Hs%elem_of_list_to_map_2. apply list_elem_of_fmap in Hs as ([j x] & E & Hj%imap_pair_elem). injection E as -> ->.
  exists x. cbn [fst snd] in *. by rewrite (site_info_at j x), Nat2Z.id.
Qed.

Lemma init_wm i : init_ok i -> wm_inv 0 (ov_init i).
Proof.
  intros (Hc & Hd & _).
  assert (sites_ok 0 (ow_sites (ov_init i))) as Hok.
  { assert (forall id s, ow_sites (ov_init i) !! id = Some s -> tid_ok 0 (so_tid_mgr s) /\ so_vwatermark s = ov_zero /\ is_Some (site_info id)) as Hall.
    { intros id s Hs. destruct (init_sites_info i id s Hs) as (x & Hx & ->). split_and!; [|done|by eexists].
      split; cbn; [constructor|specialize (Hc (Z.of_nat (Z.to_nat id))); lia|by intros k ?%elem_of_nil|apply Hd]. }
    split; [by apply Hall| |by intros ? ? (_ & _ & ?)%Hall]. intros id s (_ & -> & _)%Hall id' s' (Ht & _)%Hall _. by apply (safe_zero 0). }
  split; [done| |constructor].
  cbn. intros g r Hr%elem_of_list_to_map_2. apply list_elem_of_omap in Hr as ([j x] & Hj%imap_pair_elem & E). unfold init_gossiper in E.
  destruct (makes_gossiper _); [|done]. destruct (new_OVGossiper _ _ _) as [r'|] eqn:En; [|done]. injection E as <- <-. exists x.
  split; [|by apply (new_OVGossiper_ok 0 _ _ x _ _ Hok) in En]. exact (site_info_at j x Hj).
Qed.
End start.
