(* ===== verification/OvSafe.v ===== *)
(** * Ocean Vista: what has a timestamp below a watermark is stored

    [rp_inv] follows a transaction from its timestamp to the report that it is stored;
    with the safety of the watermarks it gives [ov_watermark_safe]. *)
From stdpp Require Import base tactics numbers list sorting gmap.
From S2P Require Import Prelude OMap Command Chopper OvSched OvGossip OvCoord OvSystem OvWatermark OvReport OvReach.

Section safe.
Context `{OvRegistry} `{OvConfig} `{OvWorkloadOk}.

(** ** The invariant *)

Definition stored_on (w : OvSys) (y id : Z) (ts : ov_ts_t) : Prop := exists s, ow_sites w !! y = Some s /\ stored_at id ts s.
Definition stored_in (w : OvSys) (par id : Z) (ts : ov_ts_t) : Prop := exists y, y ∈ par_sites par /\ stored_on w y id ts.
Definition all_stored (w : OvSys) (id : Z) (ts : ov_ts_t) : Prop :=
  exists pars, (id, ts, pars) ∈ ow_reported w /\ forall par, par ∈ pars -> stored_in w par id ts.

(** The transaction of a coordinator, its phase if it is the current one. *)
Definition of_phase (w : OvSys) (coo phase : Z) (P : CoordinatorOV -> Prop) : Prop :=
  forall c, ow_coords w !! coo = Some c -> phase <= oc_phase c /\ (phase = oc_phase c -> P c).

Definition pk (w : OvSys) (p : ov_packet) : Prop :=
  match p with
  | PReq coo site r => target_ok r site /\
    match r with
    | SendCreateTs ph id => ph mod 6 = 1 /\ id ∈ ow_used w
    | SendDispatch ph _ => ph mod 6 = 2
    | BroadcastStore ph par id _ ts => ph mod 6 = 3 /\ of_phase w coo ph (fun c => id = txn_id_ (oc_cmd c) /\ ts = oc_ovts c)
    | SendStoredRemoveTs ph id ts => ph mod 6 = 4 /\ all_stored w id ts
    | BroadcastExecute ph _ _ => ph mod 6 = 5
    end
  | PCreateTsAck _ ph _ => ph mod 6 = 1
  | PDispatchAck _ ph _ => ph mod 6 = 2
  | PStoreAck coo ph par => ph mod 6 = 3 /\ of_phase w coo ph (fun c => stored_in w par (txn_id_ (oc_cmd c)) (oc_ovts c))
  | PRemoveAck _ ph => ph mod 6 = 4
  | PExecuteAck _ ph _ _ => ph mod 6 = 5
  | _ => True
  end.

Record coord_ok (n : Z) (w : OvSys) (c : CoordinatorOV) : Prop := {
  ck_phase : 0 <= oc_phase c <= n;
  ck_none : oc_phase c mod 6 = 1 \/ oc_phase c mod 6 = 2 -> oc_store_acks c = [];
  ck_stored : oc_phase c mod 6 = 3 -> forall par, count par (oc_store_acks c) = true -> stored_in w par (txn_id_ (oc_cmd c)) (oc_ovts c);
}.

Definition creating_packet (p : ov_packet) : list Z := match p with PReq _ _ r => creating_req r | _ => [] end.
Definition creating (net : list ov_packet) : list Z := net ≫= creating_packet.

(** The timestamp is one that its site counts as not stored. *)
Definition pending_at (w : OvSys) (y : Z) (ts : ov_ts_t) (id : Z) : Prop :=
  exists s, ow_sites w !! y = Some s /\ find ts (s_phase_txns_ (so_tid_mgr s)) = Some id.

Record rp_inv (n : Z) (w : OvSys) : Prop := {
  rp_coords : forall coo c, ow_coords w !! coo = Some c -> coord_ok n w c;
  rp_net : Forall (pk w) (ow_net w);
  rp_pending : forall k coo ph par, ow_pending w !! k = Some (coo, ph, par) -> ph mod 6 = 5;
  rp_nodup : NoDup (creating (ow_net w));
  rp_creating : forall id, id ∈ creating (ow_net w) -> ow_ts w !! id = None;
  rp_used : forall id x, ow_ts w !! id = Some x -> id ∈ ow_used w;
  rp_ts : forall id ts y, ow_ts w !! id = Some (ts, y) -> pending_at w y ts id \/ all_stored w id ts;
}.

(** ** What goes on being true *)

Record later (w w' : OvSys) : Prop := {
  lt_stored : forall y id ts, stored_on w y id ts -> stored_on w' y id ts;
  lt_reported : forall x, x ∈ ow_reported w -> x ∈ ow_reported w';
  lt_used : forall id, id ∈ ow_used w -> id ∈ ow_used w';
  lt_coords : forall coo c', ow_coords w' !! coo = Some c' -> exists c, ow_coords w !! coo = Some c /\ oc_phase c <= oc_phase c' /\
    (oc_phase c' = oc_phase c -> oc_phase c mod 6 = 3 -> txn_id_ (oc_cmd c') = txn_id_ (oc_cmd c) /\ oc_ovts c' = oc_ovts c);
}.

Lemma later_in w w' par id ts : later w w' -> stored_in w par id ts -> stored_in w' par id ts.
Proof. intros Hl (y & Hy & Hs). exists y. split; [done|by apply Hl]. Qed.

Lemma later_all w w' id ts : later w w' -> all_stored w id ts -> all_stored w' id ts.
Proof. intros Hl (pars & Hr & Hs). exists pars. split; [by apply Hl|]. intros par Hp. by apply (later_in w), Hs. Qed.

Lemma later_of_phase w w' coo ph (P P' : CoordinatorOV -> Prop) :
  later w w' -> ph mod 6 = 3 ->
  (forall c c', txn_id_ (oc_cmd c') = txn_id_ (oc_cmd c) -> oc_ovts c' = oc_ovts c -> P c -> P' c') ->
  of_phase w coo ph P -> of_phase w' coo ph P'.
Proof.
  intros Hl Hph HP Ho c' Hc'. destruct (lt_coords _ _ Hl coo c' Hc') as (c & Hc & Hle & Hsame). destruct (Ho c Hc) as [Hp1 Hp2].
  split; [lia|]. intros ->. assert (oc_phase c = oc_phase c') as E by lia. destruct Hsame as [E1 E2]; [done|by rewrite E|].
  apply (HP c); [done..|]. by apply Hp2.
Qed.

Lemma later_pk w w' p : later w w' -> pk w p -> pk w' p.
Proof.
  intros Hl. destruct p as [coo site r| | | | | | | | |]; cbn [pk]; try done.
  - intros [Ht Hr]. split; [done|]. destruct r; try done.
    + destruct Hr. split; [done|by apply Hl].
    + destruct Hr as [Hph Hr]. split; [done|]. revert Hr. apply later_of_phase; [done..|]. intros c c' -> ->. done.
    + destruct Hr as [Hph Hr]. split; [done|by apply (later_all w)].
  - intros [Hph Hr]. split; [done|]. revert Hr. apply later_of_phase; [done..|]. intros c c' -> ->. by apply later_in.
Qed.

(** A step that leaves the coordinators alone. *)
Lemma same_work_later w w' :
  same_work w w' -> (forall y id ts, stored_on w y id ts -> stored_on w' y id ts) -> later w w'.
Proof.
  intros Hw Hs. split; [done|by rewrite (sw_reported _ _ Hw)|by rewrite (sw_used _ _ Hw)|].
  intros coo c'. rewrite (sw_coords _ _ Hw). intros Hc. by exists c'.
Qed.

Lemma quiet_creating w l : Forall (quiet w) l -> creating l = [].
Proof. induction 1 as [|p l Hp _ IH]; [done|]. change (creating_packet p ++ creating l = []). rewrite IH. by destruct p. Qed.

Lemma creating_app l1 l2 : creating (l1 ++ l2) = creating l1 ++ creating l2.
Proof. apply bind_app. Qed.

Lemma rp_same_work n w w' :
  rp_inv n w -> same_work w w' -> (forall y id ts, stored_on w y id ts -> stored_on w' y id ts) ->
  (forall y ts id, pending_at w y ts id -> pending_at w' y ts id \/ all_stored w' id ts) -> rp_inv n w'.
Proof.
  intros [A B C D E F G] Hw Hst Hp. pose proof (same_work_later w w' Hw Hst) as Hl.
  destruct (sw_net _ _ Hw) as (l & En & Hq).
  split; rewrite ?(sw_coords _ _ Hw), ?(sw_pending _ _ Hw), ?(sw_ts _ _ Hw), ?(sw_used _ _ Hw), ?En, ?creating_app, ?(quiet_creating w l Hq), ?app_nil_r; try done.
  - intros coo c Hc. destruct (A coo c Hc) as [K1 K2 K3]. split; [done..|]. intros Hph par Hpar. apply (later_in w); auto.
  - apply Forall_app. split; [apply (Forall_impl _ _ _ B); intros p; by apply later_pk|].
    apply (Forall_impl _ _ _ Hq). intros [] Hpk; cbn in *; try done. destruct Hpk as (k & Hk). by apply C in Hk.
  - intros id ts y [Hy|Hy]%G; [by apply Hp|]. right. by apply (later_all w).
Qed.

Lemma coord_ok_sites n w w' c : ow_sites w' = ow_sites w -> coord_ok n w c -> coord_ok n w' c.
Proof. intros Es [A B C]. split; [done..|]. unfold stored_in, stored_on. by rewrite Es. Qed.

Lemma rp_send n w l : rp_inv n w -> Forall (pk w) l -> creating l = [] -> rp_inv n (ow_send l w).
Proof.
  intros [A B C D E F G] Hl Hc. split; try done; cbn [ow_send].
  - intros coo c Hco. by apply (coord_ok_sites n w), (A coo).
  - apply Forall_app. split; [exact B|exact Hl].
  - change (NoDup (creating (ow_net w ++ l))). by rewrite creating_app, Hc, app_nil_r.
  - change (forall id, id ∈ creating (ow_net w ++ l) -> ow_ts w !! id = None). by rewrite creating_app, Hc, app_nil_r.
Qed.

Lemma rp_inv_later n n' w : n <= n' -> rp_inv n w -> rp_inv n' w.
Proof. intros Hn [A B C D E F G]. split; try done. intros coo c Hc. destruct (A coo c Hc). split; [lia|done..]. Qed.

Lemma creating_delete k net p : net !! k = Some p -> creating net ≡ₚ creating_packet p ++ creating (delete k net).
Proof.
  intros Hk. apply delete_Permutation in Hk. unfold creating. rewrite Hk at 1. done.
Qed.

Lemma rp_delete n w k p : rp_inv n w -> ow_net w !! k = Some p ->
  rp_inv n (w <| ow_net ::= delete k |>) /\ pk w p /\
  forall id, id ∈ creating_packet p -> id ∉ creating (delete k (ow_net w)) /\ ow_ts w !! id = None.
Proof.
  intros [A B C D E F G] Hk. pose proof (creating_delete k _ p Hk) as Hperm. rewrite Hperm in D. apply NoDup_app in D as (D1 & D2 & D3).
  split; [|split; [by apply (Forall_lookup_1 _ _ _ _ B Hk)|]].
  - split; try done; cbn; [intros coo c Hco; by apply (coord_ok_sites n w), (A coo)|by apply Forall_delete|]. intros id Hid. apply E. rewrite Hperm. apply elem_of_app. by right.
  - intros id Hid. split; [by apply D2|]. apply E. rewrite Hperm. apply elem_of_app. by left.
Qed.

(** ** A step of a coordinator *)

Lemma creating_packets coo sent ps :
  Forall2 (fun r l => req_packets coo r = Some l) sent ps -> creating (concat ps) = sent ≫= creating_req.
Proof.
  induction 1 as [|r l sent ps Hr _ IH]; [done|]. cbn [concat]. rewrite creating_app, IH. cbn [mbind list_bind]. f_equal.
  assert (forall sites r0, creating_req r0 = [] -> creating ((fun site => PReq coo (Some site) r0) <$> sites) = []) as Hb.
  { intros sites r0 E. induction sites as [|y ys IHs]; [done|]. change (creating_req r0 ++ creating ((fun site => PReq coo (Some site) r0) <$> ys) = []).
    by rewrite E, IHs. }
  destruct r; cbn [req_packets] in Hr.
  1,2,4: by injection Hr as <-.
  all: destruct (par_sites par_id) as [|y ys]; [done|]; injection Hr as <-; by apply (Hb (y :: ys)).
Qed.

(** From [c], which may have got a new transaction, timestamp or answer to become [c1],
    to [c']. *)
Record coord_moves (n : Z) (w : OvSys) (c c1 c' : CoordinatorOV) : Prop := {
  cm_moved : moved c1 c';
  cm_phase : oc_phase c1 = oc_phase c;
  cm_ok : coord_ok n w c1;
  cm_same : oc_phase c mod 6 = 3 -> txn_id_ (oc_cmd c1) = txn_id_ (oc_cmd c) /\ oc_ovts c1 = oc_ovts c;
  cm_start : oc_phase c mod 6 = 0 -> oc_phase c' = oc_phase c + 1 -> txn_id_ (oc_cmd c1) ∈ ow_used w /\
    txn_id_ (oc_cmd c1) ∉ creating (ow_net w) /\ ow_ts w !! txn_id_ (oc_cmd c1) = None /\ oc_store_acks c1 = [];
  cm_report : forall ph id ts, SendStoredRemoveTs ph id ts ∈ oc_sent c' ->
    forall par, par ∈ partition_ids_ (oc_cmd c') -> stored_in w par (txn_id_ (oc_cmd c1)) (oc_ovts c1);
}.

Section coord.
Context (n coo : Z) (w w' : OvSys) (c c1 c' : CoordinatorOV).
Context (Hi : rp_inv n w) (Hc : ow_coords w !! coo = Some c) (Hw : coord_work coo c c' w w') (Hm : coord_moves n w c c1 c').

Lemma coord_later : later w w'.
Proof.
  destruct Hm as [[M1 M2 M3 M4 M5 M6 M7] E1 _ E3 _ _]. split.
  - intros y id ts. unfold stored_on. by rewrite (cw_sites _ _ _ _ _ Hw).
  - intros x Hx. rewrite (cw_reported _ _ _ _ _ Hw). apply elem_of_app. by left.
  - by rewrite (cw_used _ _ _ _ _ Hw).
  - intros coo' c0. rewrite (cw_coords _ _ _ _ _ Hw). intros [[<- <-]|[_ Hc0]]%lookup_insert_Some; [|by exists c0].
    exists c. split; [done|]. split; [lia|]. intros Hp Hph. rewrite M1, M2. by apply E3.
Qed.

Lemma coord_ok_next : coord_ok (n + 1) w c'.
Proof.
  destruct Hm as [[M1 M2 M3 M4 M5 M6 M7] E1 [K1 K2 K3] _ E4 _]. rewrite E1 in *. pose proof (mod6_succ (oc_phase c)) as H6.
  split.
  - lia.
  - intros Hph. rewrite M3. destruct M4 as [Ep|Ep]; rewrite Ep in Hph; [by apply K2|]. rewrite H6 in Hph. case_decide; [lia|].
    destruct (decide (oc_phase c mod 6 = 0)) as [E0|E0]; [by apply E4|]. apply K2. lia.
  - intros Hph par. rewrite M1, M2, M3. destruct M4 as [Ep|Ep]; rewrite Ep in Hph; [by apply K3|]. rewrite H6 in Hph. case_decide; [lia|].
    rewrite K2; [done|]. right. lia.
Qed.

Lemma coord_sends r site : r ∈ oc_sent c' -> target_ok r site -> pk w' (PReq coo site r).
Proof.
  intros Hr Ht. pose proof coord_later as Hl. destruct Hm as [[M1 M2 M3 M4 M5 M6 M7] E1 E2 _ E4 E5]. rewrite E1 in *.
  rewrite Forall_forall in M5. pose proof (M5 r Hr) as Hok. split; [done|].
  destruct r; cbn [msg_ok] in Hok.
  - destruct Hok as (-> & Hph & ->). split; [done|]. rewrite (cw_used _ _ _ _ _ Hw).
    assert (txn_id_ (oc_cmd c1) ∈ oc_sent c' ≫= creating_req) as Hin. { apply list_elem_of_bind. eexists. split; [|done]. by left. }
    rewrite M6 in Hin. case_decide as Hd; [|by apply elem_of_nil in Hin]. destruct Hd as [Hd1 Hd2]. rewrite ?E1 in Hd1, Hd2. by destruct (E4 Hd2 Hd1).
  - by destruct Hok as (-> & Hph).
  - destruct Hok as (-> & Hph & -> & ->). split; [done|]. intros c0. rewrite (cw_coords _ _ _ _ _ Hw), lookup_insert_eq. intros [= <-]. split; [lia|done].
  - destruct Hok as (-> & Hph & -> & ->). split; [done|]. exists (partition_ids_ (oc_cmd c')). split.
    + rewrite (cw_reported _ _ _ _ _ Hw). apply elem_of_app. right. apply list_elem_of_bind. eexists. split; [|done]. by left.
    + intros par Hpar. apply (later_in w); [done|]. by eapply E5.
  - by destruct Hok as (-> & Hph).
Qed.

Lemma rp_coord : rp_inv (n + 1) w'.
Proof.
  pose proof coord_later as Hl. pose proof coord_ok_next as Hok'. destruct Hi as [A B C D E F G].
  destruct (cw_net _ _ _ _ _ Hw) as (ps & En & Hps).
  assert (creating (ow_net w') = creating (ow_net w) ++ (oc_sent c' ≫= creating_req)) as Ecr.
  { by rewrite En, creating_app, (creating_packets coo (oc_sent c') ps). }
  assert (oc_sent c' ≫= creating_req = [] \/ (oc_sent c' ≫= creating_req = [txn_id_ (oc_cmd c1)] /\
    txn_id_ (oc_cmd c1) ∉ creating (ow_net w) /\ ow_ts w !! txn_id_ (oc_cmd c1) = None)) as Hnew.
  { destruct Hm as [[_ _ _ _ _ M6 _] E1 _ _ E4 _]. rewrite M6. case_decide as Hd; [right|by left]. rewrite E1 in Hd. by destruct (E4 (proj2 Hd) (proj1 Hd)) as (_ & ? & ? & _). }
  split; rewrite ?(cw_pending _ _ _ _ _ Hw), ?(cw_ts _ _ _ _ _ Hw), ?(cw_used _ _ _ _ _ Hw), ?Ecr; try done.
  - intros coo' c0. rewrite (cw_coords _ _ _ _ _ Hw). intros [[<- <-]|[_ Hc0]]%lookup_insert_Some.
    + by apply (coord_ok_sites _ w); [apply Hw|].
    + apply (coord_ok_sites _ w); [apply Hw|]. destruct (A coo' c0 Hc0). split; [lia|done..].
  - destruct (coord_work_packets _ _ _ _ _ Hw) as (l & En' & Hpl). rewrite En'. apply Forall_app. split.
    + apply (Forall_impl _ _ _ B). intros p. by apply later_pk.
    + apply (Forall_impl _ _ _ Hpl). intros p (r & site & Hr & -> & Ht). by apply coord_sends.
  - destruct Hnew as [->|(-> & Hn1 & Hn2)]; [by rewrite app_nil_r|]. apply NoDup_app. split_and!; [done| |apply NoDup_singleton].
    intros id Hid ->%list_elem_of_singleton. done.
  - intros id [Hid|Hid]%elem_of_app; [by apply E|]. destruct Hnew as [Hn|(Hn & _ & Hn2)]; rewrite Hn in Hid; [by apply elem_of_nil in Hid|].
    by apply list_elem_of_singleton in Hid as ->.
  - intros id ts y [(s & Hs)|Hs]%G; [left|right; by apply (later_all w)]. exists s. by rewrite (cw_sites _ _ _ _ _ Hw).
Qed.
End coord.

(** The answers that a coordinator gets. *)
Section acks.
Context (n coo : Z) (w : OvSys) (c : CoordinatorOV) (Hn : 0 <= n < 2 ^ 31) (Hi : rp_inv n w) (Hc : ow_coords w !! coo = Some c).
Abbreviation c0 := (c <| oc_sent := [] |>).

Lemma c0_ok : coord_ok n w c0.
Proof. by destruct (rp_coords _ _ Hi coo c Hc); split. Qed.

Lemma c0_phase : 0 <= oc_phase c0 < 2 ^ 31.
Proof. destruct (rp_coords _ _ Hi coo c Hc) as [K _ _]. change (oc_phase c0) with (oc_phase c). lia. Qed.

Lemma moves_still : coord_moves n w c c0 c0.
Proof.
  split; try done; [by apply moved_refl|apply c0_ok|cbn; lia|]. by intros ph id ts ?%elem_of_nil.
Qed.

Lemma moves_of c1 c' :
  moved c1 c' -> oc_phase c1 = oc_phase c -> coord_ok n w c1 -> oc_phase c mod 6 ≠ 0 ->
  (oc_phase c mod 6 = 3 -> txn_id_ (oc_cmd c1) = txn_id_ (oc_cmd c) /\ oc_ovts c1 = oc_ovts c) ->
  (oc_phase c mod 6 = 3 -> oc_phase c' = oc_phase c + 1 ->
     forall par, par ∈ partition_ids_ (oc_cmd c1) -> stored_in w par (txn_id_ (oc_cmd c1)) (oc_ovts c1)) ->
  (oc_phase c mod 6 = 4 -> oc_phase c' = oc_phase c + 1) -> coord_moves n w c c1 c'.
Proof.
  intros Hm Ep Hok Hne Hsame Hrep Hgo. split; try done. intros ph id ts Hin par Hpar. destruct Hm as [M1 M2 M3 M4 M5 M6 M7].
  rewrite Forall_forall in M5. apply M5 in Hin as (-> & Hph & _). rewrite Ep in *. change OV_EXECUTE with 4 in Hph.
  destruct M4 as [E|E]; rewrite E in Hph; [rewrite E in Hgo; specialize (Hgo Hph); lia|]. rewrite mod6_succ in Hph. case_decide; [lia|].
  assert (oc_phase c mod 6 = 3) as E3 by lia. apply Hrep; [done..|]. by rewrite <- M7.
Qed.

Lemma CreateTsAck_moves ph ts c' : ph mod 6 = 1 -> CreateTsAck ph ts c0 = Done (tt, c') -> exists c1, coord_moves n w c c1 c'.
Proof.
  intros Hph Hrun. apply CreateTsAck_moved in Hrun as (-> & Hm & _); [|done|apply c0_phase]. cbn in Hph. exists (c0 <| oc_ovts := ts |>).
  apply moves_of; try done; [|lia..]. destruct c0_ok as [K1 K2 K3]. split; [done..|]. cbn. lia.
Qed.

Lemma RemoveAck_moves ph c' : ph mod 6 = 4 -> StoredRemoveTsAck ph c0 = Done (tt, c') -> exists c1, coord_moves n w c c1 c'.
Proof.
  intros Hph Hrun. apply StoredRemoveTsAck_moved in Hrun as (-> & Hm & Hp); [|done|apply c0_phase]. cbn in Hph. exists c0.
  apply moves_of; try done; [apply c0_ok|lia..].
Qed.

Lemma DispatchAck_moves ph out c' : ph mod 6 = 2 -> DispatchAck ph out c0 = Done (tt, c') -> exists c1, coord_moves n w c c1 c'.
Proof.
  intros Hph Hrun. apply DispatchAck_moved in Hrun as (-> & Hm); [|done|apply c0_phase]. specialize (Hm Hph). cbn in Hph. exists c0.
  apply moves_of; try done; [apply c0_ok|lia..].
Qed.

Lemma ExecuteAck_moves ph par out c' : ph mod 6 = 5 -> ExecuteAck ph par out c0 = Done (tt, c') -> exists c1, coord_moves n w c c1 c'.
Proof.
  intros Hph Hrun. apply ExecuteAck_moved in Hrun as [->|(-> & Hm)]; [exists c0; apply moves_still| |done|apply c0_phase].
  specialize (Hm Hph). cbn in Hph. exists c0. apply moves_of; try done; [apply c0_ok|lia..].
Qed.

Lemma count_acked par j (m : omap Z Z) :
  count j (let '(n, m) := index 0 par m in insert par (i32 (n + 1)) m) = true -> j = par \/ count j m = true.
Proof.
  unfold index. destruct (find par m) as [k|] eqn:E; cbn; rewrite !count_find, !find_insert; repeat case_decide; auto.
Qed.

Lemma StoreAck_moves ph par c' :
  pk w (PStoreAck coo ph par) -> OVStoreACK ph par c0 = Done (tt, c') -> exists c1, coord_moves n w c c1 c'.
Proof.
  intros [Hph Hof] Hrun. destruct (Hof c Hc) as [_ Hst].
  apply OVStoreACK_moved in Hrun as [[_ ->]|(-> & Hm & Hall)]; [exists c0; apply moves_still| |done|apply c0_phase].
  cbn in Hph. specialize (Hst eq_refl). exists (acked c0 par).
  assert (coord_ok n w (acked c0 par)) as Hok.
  { destruct c0_ok as [K1 K2 K3]. split; [done|cbn; lia|]. intros H3 j [->|Hj]%count_acked; [done|by apply K3]. }
  apply moves_of; try done; [lia| |lia]. intros _ Hnext j Hj. apply Hall in Hnext. unfold TxnStored in Hnext.
  rewrite forallb_forall in Hnext. apply (ck_stored _ _ _ Hok); [done|]. apply Hnext. by apply list_elem_of_In.
Qed.
End acks.

(** A new transaction. *)
Lemma start_moves n coo w c c' id t :
  0 <= n < 2 ^ 31 -> rp_inv n w -> ow_coords w !! coo = Some c -> oc_phase c mod 6 = 0 ->
  id ∈ ow_used w -> id ∉ creating (ow_net w) -> ow_ts w !! id = None ->
  oc_do_one id t (c <| oc_sent := [] |>) = Done (tt, c') -> exists c1, coord_moves n w c c1 c'.
Proof.
  intros Hn Hi Hc Hph Hu Hcr Hts Hrun. pose proof (c0_phase n coo w c Hn Hi Hc) as Hb. destruct (rp_coords _ _ Hi coo c Hc) as [K _ _].
  apply do_one_moved in Hrun as (c1 & Hm & Hp & Hp1 & Hid & Hacks); [|done|done]. cbn in Hp, Hp1.
  exists c1. split; try done; [split; [lia|done|rewrite Hp1; lia]|lia|by rewrite Hid|].
  intros ph i ts Hin par Hpar. exfalso. destruct Hm as [_ _ _ _ M5 _ _]. rewrite Forall_forall in M5. apply M5 in Hin as (-> & H4 & _).
  rewrite Hp, mod6_succ in H4. change OV_EXECUTE with 4 in H4. case_decide; lia.
Qed.

(** ** A step of a site *)

Lemma rp_site {A} n site (m : M SchedulerOV A) w a w1 :
  rp_inv n w -> at_ovsite site m w = Some (a, w1) ->
  (forall s s' id ts, m s = Done (a, s') -> stored_at id ts s -> stored_at id ts s') ->
  (forall s s' ts id, ow_sites w !! site = Some s -> m (s <| so_out := [] |>) = Done (a, s') ->
     find ts (s_phase_txns_ (so_tid_mgr s)) = Some id ->
     find ts (s_phase_txns_ (so_tid_mgr s')) = Some id \/ all_stored w id ts) -> rp_inv n w1.
Proof.
  intros Hi Hrun Hst Hp. apply at_ovsite_work in Hrun as (s & s' & Es & Er & Hw & Es').
  assert (forall y id ts, stored_on w y id ts -> stored_on w1 y id ts) as Hst1.
  { intros y id ts (s0 & E0 & H3). unfold stored_on. rewrite Es'. destruct (decide (y = site)) as [->|Hne].
    - exists s'. rewrite lookup_insert_eq. split; [done|]. rewrite Es in E0. injection E0 as <-. by apply (Hst _ _ _ _ Er).
    - exists s0. by rewrite lookup_insert_ne. }
  apply (rp_same_work n w); [done..|]. intros y ts id (s0 & E0 & Hf). unfold pending_at. rewrite Es'. destruct (decide (y = site)) as [->|Hne].
  - rewrite Es in E0. injection E0 as <-. destruct (Hp s s' ts id Es Er Hf) as [Hf'|Ha].
    + left. exists s'. by rewrite lookup_insert_eq.
    + right. apply (later_all w); [|done]. by apply same_work_later.
  - left. exists s0. by rewrite lookup_insert_ne.
Qed.

(** A handler that has nothing to do with timestamps. *)
Lemma rp_keeps {A} n site (m : M SchedulerOV A) w a w1 :
  rp_inv n w -> at_ovsite site m w = Some (a, w1) ->
  (forall s s' id ts, m s = Done (a, s') -> stored_at id ts s -> stored_at id ts s') ->
  (forall t v, preserves (keeps t v) m) -> rp_inv n w1.
Proof.
  intros Hi Hrun Hst Hk. apply (rp_site n site m w a w1 Hi Hrun Hst). intros s s' ts id _ Er Hf. left.
  destruct (Hk _ _ _ _ _ (conj eq_refl eq_refl) Er) as [-> _]. exact Hf.
Qed.

Lemma rp_create n site now id w ts w1 :
  0 <= n < 2 ^ 31 -> clock_ok now -> wm_inv n w -> rp_inv n w -> id ∈ ow_used w -> id ∉ creating (ow_net w) -> ow_ts w !! id = None ->
  at_ovsite site (OnCreateTs now id) w = Some (ts, w1) -> rp_inv n (w1 <| ow_ts ::= <[id := (ts, site)]> |>).
Proof.
  intros Hn Hnow Hwm Hi Hu Hcr Hts Hrun. apply at_ovsite_work in Hrun as Hwork. destruct Hwork as (s & s' & Es & Er & Hw & Es').
  pose proof (sk_tid _ _ (wi_sites _ _ Hwm) site s Es) as Htid.
  apply on_tid_mgr_done in Er as (t & Et & ->). change (CreateTs now id (so_tid_mgr s) = Done (ts, t)) in Et.
  destruct (CreateTs_spec n _ _ (so_tid_mgr s) _ _ Htid Hn Hnow Et) as (_ & _ & Hfind & Hnone).
  assert (rp_inv n w1) as [A B C D E F G].
  { apply (rp_site n site _ w ts w1 Hi Hrun).
    - intros s1 s1' i t1 Er Hs1. exact (on_tid_mgr_stored i t1 _ _ _ _ Hs1 Er).
    - intros s1 s1' t1 i Es1 Er Hf. rewrite Es in Es1. injection Es1 as <-. apply on_tid_mgr_done in Er as (t2 & Et2 & ->).
      change (CreateTs now id (so_tid_mgr s) = Done (ts, t2)) in Et2.
      rewrite Et in Et2. injection Et2 as <-. left. cbn. rewrite Hfind. case_decide; [congruence|done]. }
  assert (creating (ow_net w1) = creating (ow_net w)) as Ecr.
  { destruct (sw_net _ _ Hw) as (l & -> & Hq). by rewrite creating_app, (quiet_creating w l Hq), app_nil_r. }
  split; try done; cbn.
  - intros coo c Hco. by apply (coord_ok_sites n w1), (A coo).
  - intros i Hic. rewrite lookup_insert_ne; [by apply E|]. intros <-. change (id ∈ creating (ow_net w1)) in Hic. by rewrite Ecr in Hic.
  - intros i x [[<- <-]|[_ Hx]]%lookup_insert_Some; [by rewrite (sw_used _ _ Hw)|by apply F in Hx].
  - intros i ti y [[<- [= <- <-]]|[_ Hx]]%lookup_insert_Some; [|exact (G _ _ _ Hx)].
    left. unfold pending_at. cbn. rewrite Es'. eexists. rewrite lookup_insert_eq. split; [done|]. cbn. rewrite Hfind. by rewrite decide_True.
Qed.

Lemma rp_remove n site id ts w w1 :
  wm_inv n w -> rp_inv n w -> all_stored w id ts ->
  at_ovsite site (OnStoredRemoveTs id (ov_timestamp_ ts) (ov_site_id_ ts)) w = Some (tt, w1) -> rp_inv n w1.
Proof.
  intros Hwm Hi Hall Hrun. apply (rp_site n site _ w tt w1 Hi Hrun).
  - intros s1 s1' i t1 Er Hs1. exact (on_tid_mgr_stored i t1 _ _ _ _ Hs1 Er).
  - intros s s' t i Es Er Hf. pose proof (sk_tid _ _ (wi_sites _ _ Hwm) site s Es) as Htid.
    apply on_tid_mgr_done in Er as (t2 & Et & ->). destruct (StoredTs_spec n _ _ (so_tid_mgr s) _ Htid Et) as (_ & _ & Hts & Hother).
    destruct (decide (t = ts)) as [->|Hne].
    + right. rewrite Hts in Hf. by injection Hf as <-.
    + left. cbn. by rewrite Hother.
Qed.

Lemma rp_store n coo ph site par id cmds ts w w1 :
  rp_inv n w -> pk w (PReq coo (Some site) (BroadcastStore ph par id cmds ts)) ->
  at_ovsite site (OnStore id cmds (ov_timestamp_ ts) (ov_site_id_ ts)) w = Some (tt, w1) ->
  rp_inv n (ow_send [PStoreAck coo ph par] w1).
Proof.
  intros Hi [(y & [= <-] & Hy) [Hph Hof]] Hrun. apply at_ovsite_work in Hrun as Hwork. destruct Hwork as (s & s' & Es & Er & Hw & Es').
  destruct (OnStore_spec _ _ _ _ _ _ Er) as [Hnew _]. assert (mk_ovts (ov_timestamp_ ts) (ov_site_id_ ts) = ts) as Ets by by destruct ts. rewrite Ets in Hnew.
  apply rp_send; [|constructor; [|done]|done].
  - apply (rp_keeps n site _ w tt w1 Hi Hrun); [|intros; apply OnStore_keeps]. intros s1 s1' i t Er1. apply OnStore_spec in Er1 as [_ Hkeep]. apply Hkeep.
  - split; [done|]. intros c Hc. rewrite (sw_coords _ _ Hw) in Hc. destruct (Hof c Hc) as [? Hcur]. split; [done|].
    intros [<- <-]%Hcur. exists site. split; [done|]. exists s'. by rewrite Es', lookup_insert_eq.
Qed.

(** ** Any step *)

Section step.
Context (n : Z) (Hn : 0 <= n < 2 ^ 31).

Lemma rp_serve coo site now r w w' :
  clock_ok now -> wm_inv n w -> rp_inv n w -> pk w (PReq coo (Some site) r) \/ pk w (PReq coo None r) ->
  (forall id, id ∈ creating_req r -> id ∉ creating (ow_net w) /\ ow_ts w !! id = None) ->
  ov_serve coo site now r w = Some w' -> rp_inv n w'.
Proof.
  intros Hnow Hwm Hi Hp Hcr Hrun. destruct r; cbn [ov_serve] in Hrun.
  - destruct (at_ovsite _ _ _) as [[ts w1]|] eqn:E; [|done]. injection Hrun as <-.
    destruct (Hcr txn_id) as [? ?]; [by left|].
    assert (phase mod 6 = 1 /\ txn_id ∈ ow_used w) as [Hph Hu] by (destruct Hp as [[_ ?]|[_ ?]]; done).
    apply rp_send; [by eapply rp_create|by constructor|done].
  - destruct (at_ovsite _ _ _) as [[out w1]|] eqn:E; [|done]. injection Hrun as <-.
    apply rp_send; [|constructor; [by destruct Hp as [[_ ?]|[_ ?]]|done]|done].
    apply (rp_keeps n _ _ _ _ _ Hi E); [intros s1 s1' i1 t1 Er Hs1; exact (OnDispatch_stored i1 t1 _ _ _ _ Hs1 Er)|intros; apply OnDispatch_keeps].
  - destruct (at_ovsite _ _ _) as [[[] w1]|] eqn:E; [|done]. injection Hrun as <-.
    destruct Hp as [Hp|[(? & [=] & _) _]]. by eapply rp_store.
  - destruct (at_ovsite _ _ _) as [[[] w1]|] eqn:E; [|done]. injection Hrun as <-.
    assert (phase mod 6 = 4 /\ all_stored w txn_id ts) as [Hph Ha] by (destruct Hp as [[_ ?]|[_ ?]]; done).
    apply rp_send; [by eapply rp_remove|by constructor|done].
  - destruct (at_ovsite _ _ _) as [[out w1]|] eqn:E; [|done]. injection Hrun as <-.
    apply (rp_keeps n) in E; [done| |intros s1 s1' i1 t1 Er Hs1; exact (OnExecute_stored i1 t1 _ _ _ _ Hs1 Er)|intros; apply OnExecute_keeps].
    destruct Hi as [I1 I2 I3 I4 I5 I6 I7]. split; try done; cbn.
    + intros c0 c Hco. by apply (coord_ok_sites n w), (I1 c0).
    + intros k co ph pr [[_ [= <- <- <-]]|[_ Hk]]%lookup_insert_Some; [by destruct Hp as [[_ ?]|[_ ?]]|by apply I3 in Hk].
Qed.

Lemma rp_at_coord coo m w w' :
  rp_inv n w -> (forall c c', ow_coords w !! coo = Some c -> m (c <| oc_sent := [] |>) = Done (tt, c') -> exists c1, coord_moves n w c c1 c') ->
  at_coord coo m w = Some w' -> rp_inv (n + 1) w'.
Proof.
  intros Hi Hm Hrun. apply at_coord_work in Hrun as (c & c' & Hc & Er & Hw). destruct (Hm c c' Hc Er) as (c1 & Hmv). by eapply rp_coord.
Qed.

Lemma rp_gossiper {A} g (m : M OVGossiper A) w a w' : rp_inv n w -> at_gossiper g m w = Some (a, w') -> rp_inv n w'.
Proof.
  intros Hi [Hw Es]%at_gossiper_work. apply (rp_same_work n w); [done..| |].
  - intros y id ts. unfold stored_on. by rewrite Es.
  - intros y ts id. unfold pending_at. rewrite Es. by left.
Qed.

Lemma rp_deliver p site now w w' :
  clock_ok now -> wm_inv n w -> rp_inv n w -> pk w p ->
  (forall id, id ∈ creating_packet p -> id ∉ creating (ow_net w) /\ ow_ts w !! id = None) ->
  ov_deliver p site now w = Some w' -> rp_inv (n + 1) w'.
Proof.
  intros Hnow Hwm Hi Hp Hcr Hrun. destruct p; cbn [ov_deliver] in Hrun.
  - apply (rp_inv_later n); [lia|]. eapply rp_serve; [done..| |done|done]. destruct site0; auto.
  - eapply rp_at_coord; [done| |done]. intros c c' Hc. by eapply CreateTsAck_moves.
  - eapply rp_at_coord; [done| |done]. intros c c' Hc. by eapply DispatchAck_moves.
  - eapply rp_at_coord; [done| |done]. intros c c' Hc. by eapply StoreAck_moves.
  - eapply rp_at_coord; [done| |done]. intros c c' Hc. by eapply RemoveAck_moves.
  - eapply rp_at_coord; [done| |done]. intros c c' Hc. by eapply ExecuteAck_moves.
  - destruct (at_ovsite _ _ _) as [[ts w1]|] eqn:E; [|done]. injection Hrun as <-. apply (rp_inv_later n); [lia|].
    apply rp_send; [|by constructor|done]. apply (rp_site n _ _ _ _ _ Hi E); [intros s1 s1' i1 t1 Er Hs1; exact (OnPublish_stored i1 t1 _ _ _ _ _ _ Hs1 Er)|].
    intros s s' t id Es Er Hf. left. pose proof (sk_tid _ _ (wi_sites _ _ Hwm) _ s Es) as Htid.
    apply (OnPublish_effect n (eq wm) now wm (s <| so_out := [] |>)) in Er as (_ & _ & ->); done.
  - destruct (at_gossiper _ _ _) as [[[] w1]|] eqn:E; [|done]. injection Hrun as <-. apply (rp_inv_later n); [lia|]. by eapply rp_gossiper.
  - destruct (at_gossiper _ _ _) as [[ts w1]|] eqn:E; [|done]. injection Hrun as <-. apply (rp_inv_later n); [lia|].
    apply rp_send; [by eapply rp_gossiper|by constructor|done].
  - destruct (at_gossiper _ _ _) as [[[] w1]|] eqn:E; [|done]. injection Hrun as <-. apply (rp_inv_later n); [lia|]. by eapply rp_gossiper.
Qed.

Lemma rp_step e w w' : event_ok e -> wm_inv n w -> rp_inv n w -> ov_step e w = Some w' -> rp_inv (n + 1) w'.
Proof.
  intros He Hwm Hi Hrun. destruct e; cbn [ov_step] in Hrun.
  - destruct (ow_coords w !! coo) as [c|] eqn:Ec; [|done]. cbn [mbind option_bind] in Hrun.
    destruct (bool_decide_reflect (oc_phase c mod 6 = OV_INIT)) as [Hph|]; [|done].
    destruct (bool_decide_reflect (id ∉ ow_used w)) as [Hu|]; [|done]. cbn [andb] in Hrun.
    assert (rp_inv n (w <| ow_used ::= fun X => {[id]} ∪ X |>)) as Hi0.
    { assert (later w (w <| ow_used ::= fun X => {[id]} ∪ X |>)) as Hl.
      { split; try done; cbn; [intros i; apply elem_of_union_r|]. intros coo' c' Hc'. by exists c'. }
      destruct Hi as [I1 I2 I3 I4 I5 I6 I7]. split; try done; cbn.
      - intros c0 c1 Hco. by apply (coord_ok_sites n w), (I1 c0).
      - apply (Forall_impl _ _ _ I2). intros p. by apply later_pk.
      - intros i x Hx. apply elem_of_union_r. by eapply I6. }
    assert (id ∉ creating (ow_net w)) as Hcr.
    { intros (p & Hp1 & Hp2)%list_elem_of_bind. pose proof (rp_net _ _ Hi) as Hnet. rewrite Forall_forall in Hnet. apply Hnet in Hp2.
      destruct p as [? ? []| | | | | | | | |]; cbn in Hp1; try by apply elem_of_nil in Hp1.
      apply list_elem_of_singleton in Hp1 as ->. by destruct Hp2 as (_ & _ & ?). }
    assert (ow_ts w !! id = None) as Hts. { destruct (ow_ts w !! id) eqn:E; [|done]. by apply (rp_used _ _ Hi) in E. }
    eapply rp_at_coord; [done| |done]. intros c0 c' Hc0. change (ow_coords w !! coo = Some c0) in Hc0. rewrite Ec in Hc0. injection Hc0 as <-.
    apply (start_moves n coo); try done. cbn. apply elem_of_union_l. by apply elem_of_singleton.
  - destruct (ow_net w !! k) as [p|] eqn:Ep; [|done]. cbn [mbind option_bind] in Hrun.
    destruct (rp_delete n w k p Hi Ep) as (Hi0 & Hpk & Hcr). eapply rp_deliver; [done| |exact Hi0|exact Hpk|exact Hcr|done].
    destruct Hwm. split; [done..|]. cbn. by apply Forall_delete.
  - destruct (ow_sites w !! g) as [s|]; [|done]. cbn [mbind option_bind] in Hrun. destruct (so_gossiper_inited s); [|done].
    destruct (at_gossiper _ _ _) as [[[] w1]|] eqn:E; [|done]. injection Hrun as <-. apply (rp_inv_later n); [lia|]. by eapply rp_gossiper.
  - destruct (ow_sites w !! g) as [s|]; [|done]. cbn [mbind option_bind] in Hrun. destruct (so_gossiper_inited s); [|done].
    destruct (at_gossiper _ _ _) as [[[] w1]|] eqn:E; [|done]. injection Hrun as <-. apply (rp_inv_later n); [lia|]. by eapply rp_gossiper.
Qed.
End step.
End safe.
