(* ===== verification/OvTheorems.v ===== *)
(** * Ocean Vista: theorems

    What holds of every run of the system: a watermark is safe, and what is executed is
    not above it. *)
From stdpp Require Import base tactics numbers list sorting gmap.
From S2P Require Import Prelude OMap Command Chopper OvSched OvGossip OvCoord OvSystem OvWatermark OvReport OvReach OvSafe.

Section runs.
Context `{OvRegistry} `{OvConfig} `{OvWorkloadOk}.
Abbreviation everywhere := (fun _ : Z => True).

(** ** The invariants along a run *)

Lemma init_rp i : init_ok i -> rp_inv 0 (ov_init i).
Proof.
  intros (_ & _ & Hc). split; try done; cbn.
  { intros coo c Hco. rewrite <- (Hc coo c Hco). split; rewrite (Hc coo c Hco); [lia|by intros []|done]. }
  all: constructor.
Qed.

Definition run_bound (n : Z) (es : list ov_event) : Prop := 0 <= n /\ n + Z.of_nat (length es) < 2 ^ 31 /\ Forall event_ok es.

Lemma run_bound_cons n e es : run_bound n (e :: es) -> 0 <= n < 2 ^ 31 /\ event_ok e /\ run_bound (n + 1) es.
Proof. intros (A & B & C). apply Forall_cons in C as [C D]. cbn [length] in B. split; [lia|]. split; [done|]. split; [lia|]. split; [lia|done]. Qed.

Lemma ov_run_inv n es w w' :
  run_bound n es -> wm_inv n w -> rp_inv n w -> ov_run es w = Some w' ->
  wm_inv (n + Z.of_nat (length es)) w' /\ rp_inv (n + Z.of_nat (length es)) w'.
Proof.
  revert n w. induction es as [|e es IH]; intros n w Hb Hwm Hrp Hrun; cbn [ov_run] in Hrun.
  - injection Hrun as <-. cbn. by rewrite Z.add_0_r.
  - apply run_bound_cons in Hb as (Hn & He & Hb). destruct (ov_step e w) as [w1|] eqn:E; [|done]. cbn in Hrun.
    pose proof (wm_step n Hn e w w1 He Hwm E) as [Hwm1 _ _]. pose proof (rp_step n Hn e w w1 He Hwm Hrp E) as Hrp1.
    replace (n + Z.of_nat (length (e :: es))) with (n + 1 + Z.of_nat (length es)) by (cbn [length]; lia). by apply (IH (n + 1) w1).
Qed.

(** A timestamp is an old one, or not below what was safe. *)
Lemma run_ts n es w w' id ts y :
  run_bound n es -> wm_inv n w -> ov_run es w = Some w' -> ow_ts w' !! id = Some (ts, y) ->
  ow_ts w !! id = Some (ts, y) \/ forall wm, safe_for everywhere (ow_sites w) wm -> ~ ov_lex ts wm.
Proof.
  revert n w. induction es as [|e es IH]; intros n w Hb Hwm Hrun Hts; cbn [ov_run] in Hrun; [injection Hrun as <-; by left|].
  apply run_bound_cons in Hb as (Hn & He & Hb). destruct (ov_step e w) as [w1|] eqn:E; [|done]. cbn in Hrun.
  destruct (wm_step n Hn e w w1 He Hwm E) as [Hwm1 Hg Hnew]. destruct (IH (n + 1) w1 Hb Hwm1 Hrun Hts) as [Hold|Hsafe].
  - by apply Hnew.
  - right. intros wm Hs. apply Hsafe. by apply (grows_safe _ (ow_sites w)).
Qed.

Lemma run_bound_app n es1 es2 : run_bound n (es1 ++ es2) -> run_bound n es1 /\ run_bound (n + Z.of_nat (length es1)) es2.
Proof. intros (A & B & C). apply Forall_app in C as [C D]. rewrite length_app in B. unfold run_bound. split_and!; try done; lia. Qed.

(** C14: take a run of Ocean Vista from its start, with the clock readings
    below 2^61 and fewer than 2^31 steps, and a state [w] in it where some site has
    learned the watermark W.  A transaction that has a timestamp below W, now or at any
    later time of the run, has it already in [w], and has been reported as stored: some
    replica of each of the partitions it touches has all its pieces with this
    timestamp. *)
Theorem ov_watermark_safe i es1 es2 w w' x s id ts y :
  NoDup (os_name <$> ov_sites) -> init_ok i -> run_bound 0 (es1 ++ es2) ->
  ov_run es1 (ov_init i) = Some w -> ov_run es2 w = Some w' ->
  ow_sites w !! x = Some s -> ow_ts w' !! id = Some (ts, y) -> ov_lex ts (so_vwatermark s) ->
  ow_ts w !! id = Some (ts, y) /\
  exists pars, (id, ts, pars) ∈ ow_reported w /\
    forall par, par ∈ pars -> exists z r, z ∈ par_sites par /\ ow_sites w !! z = Some r /\ stored_at id ts r.
Proof.
  intros Hnd Hinit Hb Hrun1 Hrun2 Hx Hts Hlt. apply run_bound_app in Hb as [Hb1 Hb2].
  destruct (ov_run_inv 0 es1 _ w Hb1 (init_wm Hnd i Hinit) (init_rp i Hinit) Hrun1) as [Hwm Hrp].
  pose proof (sk_wm _ _ (wi_sites _ _ Hwm) x s Hx) as Hsafe.
  destruct (run_ts _ es2 w w' id ts y Hb2 Hwm Hrun2 Hts) as [Hold|Hnew]; [|by destruct (Hnew _ Hsafe)]. split; [done|].
  destruct (rp_ts _ _ Hrp id ts y Hold) as [(r & Hr & Hf)|(pars & Hp & Hall)].
  - destruct (sf_keys _ _ (Hsafe y r Hr I) ts); [|done]. apply list_elem_of_fmap. exists (ts, id). split; [done|]. by apply find_elem_of.
  - exists pars. split; [done|]. intros par Hpar. destruct (Hall par Hpar) as (z & Hz & r & Hr & Hst). eauto.
Qed.

(** ** What is executed *)

Definition below (s : SchedulerOV) : Prop := Forall (fun e => ~ ov_lex (so_vwatermark s) e.2) (so_executed s).

Lemma below_modify f : (forall s, so_vwatermark (f s) = so_vwatermark s /\ so_executed (f s) = so_executed s) -> preserves below (modify f).
Proof. intros Hf. apply preserves_modify. intros s Hs. unfold below. by destruct (Hf s) as [-> ->]. Qed.
Lemma below_on_txn {A} k (m : M OvTxSt A) : preserves below (on_txn k m).
Proof.
  intros s a s' Hs Hrun. unfold on_txn in Hrun. destruct (find k (so_txns s)); [|done]. by destruct (m _) as [[? ?]| |]; [injection Hrun as <- <-|..].
Qed.
Lemma below_tid {A} (m : M TidMgr A) : preserves below (on_tid_mgr m).
Proof. intros s a s' Hs Hrun. by apply on_tid_mgr_done in Hrun as (t & _ & ->). Qed.
#[local] Hint Resolve below_on_txn below_tid : preserves.
Ltac solve_below := solve_preserves_with ltac:(apply below_modify; by intros).

Lemma ov_txn_done k s t s' : ov_txn k s = Done (t, s') -> s' = s /\ find k (so_txns s) = Some t.
Proof. intros Hrun. apply bind_done in Hrun as (? & ? & [= <- <-] & Hrun). destruct (find k (so_txns s)); [|done]. by injection Hrun as <- <-. Qed.

Lemma below_execute k s s' :
  below s -> (forall t, find k (so_txns s) = Some t -> ~ ov_lex (so_vwatermark s) (ox_ovts t)) ->
  execute_txn k s = Done (tt, s') -> below s'.
Proof.
  intros Hs Ht Hrun. apply bind_done in Hrun as (t & s1 & [-> Et]%ov_txn_done & Hrun). apply bind_done in Hrun as ([] & s2 & E2 & Hrun).
  apply (preserves_verify _ (fun x => x = s)) in E2 as ->; [|done]. apply bind_done in Hrun as ([] & s3 & E3 & Hrun).
  assert (so_vwatermark s3 = so_vwatermark s) as Ew. { by destruct (keeps_on_txn (so_tid_mgr s) (so_vwatermark s) k _ _ _ _ (conj eq_refl eq_refl) E3). }
  apply (below_on_txn k) in E3; [|done]. injection Hrun as <-. unfold below. cbn. apply Forall_app. split; [done|]. constructor; [|done].
  cbn. rewrite Ew. by apply Ht.
Qed.

Lemma below_execute_stored ids : preserves below (execute_stored ids).
Proof.
  induction ids as [|k ids IH]; cbn [execute_stored]; [apply preserves_ret|].
  intros s [] s' Hs Hrun. apply bind_done in Hrun as (? & ? & [= <- <-] & Hrun). apply bind_done in Hrun as (t & s1 & [-> Et]%ov_txn_done & Hrun).
  apply bind_done in Hrun as ([] & s2 & E2 & Hrun). revert Hrun. apply IH. unfold when in E2.
  destruct (ov_lt (ox_ovts t) (so_vwatermark s)) eqn:El; cbn [andb] in E2; [|by injection E2 as <-].
  destruct (bool_decide _); [|by injection E2 as <-]. apply bind_done in E2 as ([] & s3 & E3 & E2).
  apply below_execute in E3; [|done|].
  - match type of E2 with ?m _ = _ => assert (preserves below m) as P by (unfold ov_emit; solve_below) end. exact (P _ _ _ E3 E2).
  - intros t'. rewrite Et. intros [= <-]. apply ov_lt_lex in El. unfold ov_lex in *. lia.
Qed.

Lemma below_create k : preserves below (ov_GetOrCreateDTxn k).
Proof. unfold ov_GetOrCreateDTxn. solve_below. Qed.
Lemma below_txn k : preserves below (ov_txn k).
Proof. unfold ov_txn. solve_below. Qed.
Lemma below_dispatch k cmds out : preserves below (dispatch_pieces k cmds out).
Proof. revert out. induction cmds as [|c cmds IH]; intros out; cbn [dispatch_pieces]; solve_below. Qed.
#[local] Hint Resolve below_create below_txn below_dispatch : preserves.

Lemma OnDispatch_below cmd : preserves below (OnDispatch cmd).
Proof. unfold OnDispatch. solve_below. Qed.
Lemma OnStore_below k cmds a b : preserves below (OnStore k cmds a b).
Proof. unfold OnStore, ov_emit. solve_below. Qed.

Lemma OnPublish_below now a b : preserves below (OnPublish now a b).
Proof.
  intros s ts s' Hs Hrun. apply bind_done in Hrun as (? & ? & [= <- <-] & Hrun). apply bind_done in Hrun as ([] & s1 & E1 & Hrun).
  revert Hrun. apply below_tid. unfold when in E1. destruct (ov_gt _ _) eqn:Eg; [|by injection E1 as <-].
  apply bind_done in E1 as ([] & s2 & [= <-] & E1). revert E1. apply below_execute_stored. apply ov_gt_lex in Eg.
  unfold below. cbn. apply (Forall_impl _ _ _ Hs). intros e He. unfold ov_lex in *. cbn in *. lia.
Qed.

Lemma OnExecute_below k : preserves below (OnExecute k).
Proof.
  intros s [] s' Hs Hrun. apply bind_done in Hrun as ([] & s1 & E1 & Hrun). apply (below_create k) in E1; [|done].
  apply bind_done in Hrun as (t & s2 & [-> Et]%ov_txn_done & Hrun). apply bind_done in Hrun as ([] & s2 & E2 & Hrun).
  apply (preserves_verify _ (fun x => x = s1)) in E2 as ->; [|done]. apply bind_done in Hrun as ([] & s3 & E3 & Hrun).
  pose proof (below_on_txn k _ _ _ _ E1 E3) as Hs3. unfold on_txn in E3. rewrite Et in E3. injection E3 as E3.
  apply bind_done in Hrun as (? & ? & [= <- <-] & Hrun). destruct (ov_gt _ _) eqn:Eg.
  - revert Hrun. by apply below_on_txn.
  - apply bind_done in Hrun as ([] & s4 & E4 & Hrun). apply below_execute in E4; [|done|].
    + match type of Hrun with ?m _ = _ => assert (preserves below m) as P by (unfold ov_emit; solve_below) end. exact (P _ _ _ E4 Hrun).
    + intros t'. rewrite <- E3. cbn. rewrite find_insert_eq. intros [= <-]. apply ov_gt_false in Eg. rewrite <- E3 in Eg. exact Eg.
Qed.

(** ** All sites of a system *)

Section sites.
Context (P : SchedulerOV -> Prop) (Hout : forall s o, P s -> P (s <| so_out := o |>)).

Definition sites_are (w : OvSys) : Prop := forall x s, ow_sites w !! x = Some s -> P s.

Lemma at_ovsite_are {A} site (m : M SchedulerOV A) w a w' :
  preserves P m -> sites_are w -> at_ovsite site m w = Some (a, w') -> sites_are w'.
Proof.
  intros Hm Hw Hrun. apply at_ovsite_work in Hrun as (s & s' & Es & Er & _ & Es'). intros x s0. rewrite Es'.
  intros [[<- <-]|[_ Hx]]%lookup_insert_Some; [|by apply (Hw x)]. apply Hm in Er; [done|]. by apply Hout, (Hw site).
Qed.

Lemma at_gossiper_are {A} g (m : M OVGossiper A) w a w' : sites_are w -> at_gossiper g m w = Some (a, w') -> sites_are w'.
Proof. intros Hw [_ Es]%at_gossiper_work. unfold sites_are. by rewrite Es. Qed.

Lemma at_coord_are coo m w w' : sites_are w -> at_coord coo m w = Some w' -> sites_are w'.
Proof. intros Hw (c & c' & _ & _ & Hcw)%at_coord_work. unfold sites_are. by rewrite (cw_sites _ _ _ _ _ Hcw). Qed.

Context (Hdispatch : forall cmd, preserves P (OnDispatch cmd)) (Hstore : forall k cmds a b, preserves P (OnStore k cmds a b))
  (Hexecute : forall k, preserves P (OnExecute k)) (Htid : forall A (m : M TidMgr A), preserves P (on_tid_mgr m)).

(** The published watermark of an event may be restricted. *)
Lemma step_are (Q : ov_ts_t -> Prop) e w w' :
  (forall now wm, Q wm -> preserves P (OnPublish now (ov_timestamp_ wm) (ov_site_id_ wm))) ->
  (forall g site wm, PPublish g site wm ∈ ow_net w -> Q wm) ->
  sites_are w -> ov_step e w = Some w' -> sites_are w'.
Proof.
  intros Hpub HQ Hw Hrun. destruct e; cbn [ov_step] in Hrun.
  - destruct (ow_coords w !! coo); [|done]. cbn [mbind option_bind] in Hrun. destruct (_ && _); [|done]. by apply at_coord_are in Hrun.
  - destruct (ow_net w !! k) as [p|] eqn:Ep; [|done]. cbn [mbind option_bind] in Hrun. apply list_elem_of_lookup_2 in Ep.
    destruct p as [? ? r| | | | | | | | |]; cbn [ov_deliver] in Hrun; try by apply at_coord_are in Hrun.
    + destruct r; cbn [ov_serve] in Hrun; (destruct (at_ovsite _ _ _) as [[? w1]|] eqn:E; [|done]); injection Hrun as <-;
        apply at_ovsite_are in E; try done; [apply Htid|apply Htid].
    + destruct (at_ovsite _ _ _) as [[? w1]|] eqn:E; [|done]. injection Hrun as <-. apply at_ovsite_are in E; [done| |done].
      apply Hpub. by eapply HQ.
    + destruct (at_gossiper _ _ _) as [[? w1]|] eqn:E; [|done]. injection Hrun as <-. by apply at_gossiper_are in E.
    + destruct (at_gossiper _ _ _) as [[? w1]|] eqn:E; [|done]. injection Hrun as <-. by apply at_gossiper_are in E.
    + destruct (at_gossiper _ _ _) as [[? w1]|] eqn:E; [|done]. injection Hrun as <-. by apply at_gossiper_are in E.
  - destruct (ow_sites w !! g) as [s|]; [|done]. cbn [mbind option_bind] in Hrun. destruct (so_gossiper_inited s); [|done].
    destruct (at_gossiper _ _ _) as [[[] w1]|] eqn:E; [|done]. injection Hrun as <-. by apply at_gossiper_are in E.
  - destruct (ow_sites w !! g) as [s|]; [|done]. cbn [mbind option_bind] in Hrun. destruct (so_gossiper_inited s); [|done].
    destruct (at_gossiper _ _ _) as [[[] w1]|] eqn:E; [|done]. injection Hrun as <-. by apply at_gossiper_are in E.
Qed.
End sites.

Lemma run_below i es w : ov_run es (ov_init i) = Some w -> sites_are below w.
Proof.
  assert (sites_are below (ov_init i)) as H0'. { intros x s (o & _ & ->)%init_sites_info. constructor. }
  revert H0'. generalize (ov_init i). induction es as [|e es IH]; intros w0 Hw0 Hrun; cbn [ov_run] in Hrun; [by injection Hrun as <-|].
  destruct (ov_step e w0) as [w1|] eqn:E; [|done]. apply (IH w1); [|done]. revert E.
  apply (step_are below) with (Q := fun _ => True); try done; intros.
  - apply OnDispatch_below.
  - apply OnStore_below.
  - apply OnExecute_below.
  - apply below_tid.
  - apply OnPublish_below.
Qed.
End runs.
