(* ===== verification/OvLimits.v ===== *)
(** * Ocean Vista: limits, and a run

    With a single data centre no watermark ever rises; two replicas of a partition may
    execute the same transactions in different orders.  Instances on small systems. *)
From stdpp Require Import base tactics numbers list sorting gmap.
From S2P Require Import Prelude OMap Command Chopper OvSched OvGossip OvCoord OvSystem OvWatermark OvReport OvReach OvSafe OvTheorems.

Section alone.
Context `{OvRegistry} `{OvConfig} `{OvWorkload}.

(** ** One data centre *)

Definition alone_msg (m : OvGossipMsg) : Prop := match m with SendPublish _ wm => wm = ov_zero | SendExchange _ _ _ _ => False end.
Record alone (g : OVGossiper) : Prop := {
  al_peers : gs_peers g = [];
  al_wm : gs_vwatermark g = ov_zero;
  al_sent : Forall alone_msg (gs_sent g);
}.

Definition alone_packet (p : ov_packet) : Prop :=
  match p with PPublish _ _ wm => wm = ov_zero | PExchange _ _ _ _ _ | PExchangeAck _ _ _ _ => False | _ => True end.

Record alone_inv (w : OvSys) : Prop := {
  ai_sites : sites_are (fun s => so_vwatermark s = ov_zero) w;
  ai_gossipers : forall g r, ow_gossipers w !! g = Some r -> alone r;
  ai_net : Forall alone_packet (ow_net w);
}.

Lemma alone_modify f :
  (forall g, (gs_peers (f g), gs_vwatermark (f g), gs_sent (f g)) = (gs_peers g, gs_vwatermark g, gs_sent g)) -> preserves alone (modify f).
Proof. intros Hf. apply preserves_modify. intros g [A B C]. specialize (Hf g). simplify_eq. split; congruence. Qed.
Ltac solve_alone := solve_preserves_with ltac:(apply alone_modify; by intros).

Lemma Gossip_alone : preserves alone Gossip.
Proof.
  apply preserves_bind; [solve_alone|]. intros []. intros g [] g' Hg Hrun. apply bind_done in Hrun as (? & ? & [= <- <-] & Hrun).
  rewrite (al_peers _ Hg) in Hrun. by injection Hrun as <-.
Qed.
Lemma Aggregate_alone : preserves alone Aggregate.
Proof.
  apply preserves_bind; [solve_alone|]. intros []. intros g [] g' Hg Hrun. apply bind_done in Hrun as (? & ? & [= <- <-] & Hrun). revert Hrun.
  apply (preserves_for_each _ _ alone); [|done]. intros p _. apply preserves_modify. intros g1 [A B C]. split; [done..|]. cbn.
  apply Forall_app. split; [done|]. constructor; [apply Hg|done].
Qed.
Lemma PublishAck_alone site ts : preserves alone (PublishAck site ts).
Proof. unfold PublishAck. solve_alone. Qed.
#[local] Hint Resolve Gossip_alone Aggregate_alone PublishAck_alone : preserves.
Lemma GossipLoop_alone : preserves alone GossipLoop.
Proof. unfold GossipLoop. solve_alone. Qed.
Lemma AggregateLoop_alone : preserves alone AggregateLoop.
Proof. unfold AggregateLoop. solve_alone. Qed.

Lemma at_gossiper_alone {A} g (m : M OVGossiper A) w a w' : preserves alone m -> alone_inv w -> at_gossiper g m w = Some (a, w') -> alone_inv w'.
Proof.
  intros Hm [I1 I2 I3] Hrun. unfold at_gossiper in Hrun. destruct (ow_gossipers w !! g) as [r|] eqn:Er; [|done]. cbn [mbind option_bind] in Hrun.
  destruct (m _) as [[b r']| |] eqn:E; [|done..]. injection Hrun as -> <-.
  assert (alone r') as Hr'. { apply (Hm _ _ _) in E; [done|]. destruct (I2 g r Er). by split. }
  split; [done| |].
  - cbn. intros g0 r0 [[<- <-]|[_ Hg0]]%lookup_insert_Some; [done|by apply (I2 g0)].
  - cbn. apply Forall_app. split; [done|]. apply Forall_fmap. apply (Forall_impl _ _ _ (al_sent _ Hr')). by intros [].
Qed.

Lemma ov_outs_alone site outs w w' : alone_inv w -> foldl (ov_out site) (Some w) outs = Some w' -> alone_inv w'.
Proof.
  revert w. induction outs as [|o outs IH]; intros w Hi Hrun; cbn [foldl] in Hrun; [by injection Hrun as <-|].
  destruct (ov_out site (Some w) o) as [w1|] eqn:E.
  - apply (IH w1); [|done]. destruct o; cbn in E.
    + destruct (at_gossiper _ _ _) as [[[] w2]|] eqn:E2; [|done]. injection E as <-. revert E2. apply at_gossiper_alone; [|done].
      apply preserves_bind; [apply Gossip_alone|intros []; apply Aggregate_alone].
    + destruct (ow_pending w !! _) as [[[coo phase] par]|]; [|done]. injection E as <-. destruct Hi as [I1 I2 I3]. split; [done..|]. cbn.
      apply Forall_app. split; [done|by constructor].
  - exfalso. clear -Hrun. induction outs as [|o' outs IH]; cbn in Hrun; [done|]. by apply IH.
Qed.

Lemma at_ovsite_alone {A} site (m : M SchedulerOV A) w a w' :
  preserves (fun s => so_vwatermark s = ov_zero) m -> alone_inv w -> at_ovsite site m w = Some (a, w') -> alone_inv w'.
Proof.
  intros Hm Hi Hrun. unfold at_ovsite in Hrun. destruct (ow_sites w !! site) as [s|] eqn:Es; [|done]. cbn [mbind option_bind] in Hrun.
  destruct (m _) as [[b s']| |] eqn:E; [|done..]. destruct (foldl _ _ _) as [w2|] eqn:Ef; [|done]. injection Hrun as -> <-.
  revert Ef. apply ov_outs_alone. destruct Hi as [I1 I2 I3]. split; [|done..]. intros x s0. cbn.
  intros [[<- <-]|[_ Hx]]%lookup_insert_Some; [|by apply (I1 x)]. apply Hm in E; [done|]. exact (I1 site s Es).
Qed.

Lemma keeps_zero {A} (m : M SchedulerOV A) : (forall t v, preserves (keeps t v) m) -> preserves (fun s => so_vwatermark s = ov_zero) m.
Proof. intros Hm s a s' Hs Hrun. by destruct (Hm _ _ _ _ _ (conj eq_refl Hs) Hrun). Qed.
Lemma tid_zero {A} (m : M TidMgr A) : preserves (fun s => so_vwatermark s = ov_zero) (on_tid_mgr m).
Proof. intros s a s' Hs Hrun. by apply on_tid_mgr_done in Hrun as (t & _ & ->). Qed.
Lemma OnPublish_zero now : preserves (fun s => so_vwatermark s = ov_zero) (OnPublish now 0 0).
Proof.
  intros s ts s' Hs Hrun. apply bind_done in Hrun as (? & ? & [= <- <-] & Hrun). rewrite Hs in Hrun. cbn [ov_gt when] in Hrun.
  apply bind_done in Hrun as ([] & s1 & [= <-] & Hrun). revert Hrun. by apply tid_zero.
Qed.

Lemma alone_send w l : alone_inv w -> Forall alone_packet l -> alone_inv (ow_send l w).
Proof. intros [A B C] Hl. split; [done..|]. cbn. by apply Forall_app. Qed.

Lemma at_coord_alone coo m w w' : alone_inv w -> at_coord coo m w = Some w' -> alone_inv w'.
Proof.
  intros [A B C] (c & c' & _ & _ & Hw)%at_coord_work. destruct (coord_work_packets _ _ _ _ _ Hw) as (l & En & Hl).
  unfold sites_are in *. split; rewrite ?En; unfold sites_are; rewrite ?(cw_sites _ _ _ _ _ Hw), ?(cw_gossipers _ _ _ _ _ Hw); [done..|].
  apply Forall_app. split; [done|]. apply (Forall_impl _ _ _ Hl). by intros p (r & site & _ & -> & _).
Qed.

Lemma serve_alone coo site now r w w' : alone_inv w -> ov_serve coo site now r w = Some w' -> alone_inv w'.
Proof.
  intros Hi Hrun. destruct r; cbn [ov_serve] in Hrun; (destruct (at_ovsite _ _ _) as [[? w1]|] eqn:E; [|done]); injection Hrun as <-;
    try (apply alone_send; [|by repeat constructor]).
  - assert (alone_inv w1) as [A B C]; [|by split]. revert E. apply at_ovsite_alone; [apply tid_zero|done].
  - revert E. apply at_ovsite_alone; [|done]. apply keeps_zero. intros. apply OnDispatch_keeps.
  - revert E. apply at_ovsite_alone; [|done]. apply keeps_zero. intros. apply OnStore_keeps.
  - revert E. apply at_ovsite_alone; [apply tid_zero|done].
  - revert E. apply at_ovsite_alone; [|by destruct Hi; split]. apply keeps_zero. intros. apply OnExecute_keeps.
Qed.

Lemma step_alone e w w' : alone_inv w -> ov_step e w = Some w' -> alone_inv w'.
Proof.
  intros Hi Hrun. destruct e; cbn [ov_step] in Hrun.
  - destruct (ow_coords w !! coo); [|done]. cbn [mbind option_bind] in Hrun. destruct (_ && _); [|done].
    apply at_coord_alone in Hrun; [done|by destruct Hi; split].
  - destruct (ow_net w !! k) as [p|] eqn:Ep; [|done]. cbn [mbind option_bind] in Hrun.
    pose proof (Forall_lookup_1 _ _ _ _ (ai_net _ Hi) Ep) as Hp.
    assert (alone_inv (w <| ow_net ::= delete k |>)) as Hi0. { destruct Hi. split; [done..|]. cbn. by apply Forall_delete. }
    destruct p; cbn [ov_deliver] in Hrun; try done; try by apply at_coord_alone in Hrun.
    + by apply serve_alone in Hrun.
    + cbn in Hp. subst wm. destruct (at_ovsite _ _ _) as [[? w1]|] eqn:E; [|done]. injection Hrun as <-. apply alone_send; [|by constructor].
      revert E. apply at_ovsite_alone; [apply OnPublish_zero|done].
    + destruct (at_gossiper _ _ _) as [[[] w1]|] eqn:E; [|done]. injection Hrun as <-. revert E. by apply at_gossiper_alone; [apply PublishAck_alone|].
  - destruct (ow_sites w !! g) as [s|]; [|done]. cbn [mbind option_bind] in Hrun. destruct (so_gossiper_inited s); [|done].
    destruct (at_gossiper _ _ _) as [[[] w1]|] eqn:E; [|done]. injection Hrun as <-. revert E. by apply at_gossiper_alone; [apply GossipLoop_alone|].
  - destruct (ow_sites w !! g) as [s|]; [|done]. cbn [mbind option_bind] in Hrun. destruct (so_gossiper_inited s); [|done].
    destruct (at_gossiper _ _ _) as [[[] w1]|] eqn:E; [|done]. injection Hrun as <-. revert E. by apply at_gossiper_alone; [apply AggregateLoop_alone|].
Qed.

Lemma enter_sites_alone names g : alone g -> alone (foldl enter_site g names).
Proof. revert g. induction names as [|nm names IH]; intros g Hg; cbn [foldl]; [done|]. apply IH. by destruct Hg; split. Qed.

Lemma new_alone a b d g : (forall x, x ∈ ov_sites -> os_dc x = d) -> new_OVGossiper a b d = Some g -> alone g.
Proof.
  intros Hd. unfold new_OVGossiper.
  assert (forall dcs g0, alone g0 -> gs_dcname g0 = d -> Forall (fun p => p.2 ≠ [] -> p.1 = d) dcs ->
    foldl (fun g p => g ← g; init_dc g p) (Some g0) dcs = Some g -> alone g) as Hf.
  { induction dcs as [|p dcs IH]; intros g0 Hg0 Hname Hp Hrun; cbn [foldl] in Hrun; [by injection Hrun as <-|].
    apply Forall_cons in Hp as [Hp Hps]. cbn [mbind option_bind] in Hrun.
    destruct (init_dc g0 p) as [g1|] eqn:E; [|exfalso; clear -Hrun; induction dcs as [|q dcs IH]; cbn in Hrun; [done|by apply IH]].
    unfold init_dc in E. assert (alone (g0 <| gs_dc_wm ::= insert p.1 ov_zero |>)) as Hg1 by (by destruct Hg0; split).
    destruct (Z.eqb_spec p.1 (gs_dcname (g0 <| gs_dc_wm ::= insert p.1 ov_zero |>))) as [|Hne]; cbn [negb] in E.
    - injection E as <-. apply IH in Hrun; [done|exact (enter_sites_alone p.2 _ Hg1)| |done].
      clear -Hname. assert (forall names g, gs_dcname (foldl enter_site g names) = gs_dcname g) as Hn by (induction names as [|nm names IH]; intros g; cbn [foldl]; [done|by rewrite IH]).
      rewrite <- Hname. exact (Hn p.2 _).
    - destruct p as [k [|nm names]]; [done|]. destruct Hne. rewrite Hp by done. cbn. by rewrite Hname. }
  apply Hf; [done|done|]. apply Forall_forall. intros [k [|nm names]] Hk; [done|]. intros _. cbn.
  destruct (by_dc_sound ov_sites k (nm :: names) nm) as (x & Hx & <- & _); [|by left|by apply Hd].
  apply sorted_elem_of_find; [apply sorted_by_dc|done].
Qed.

Lemma init_alone i d : (forall x, x ∈ ov_sites -> os_dc x = d) -> alone_inv (ov_init i).
Proof.
  intros Hd. split; [| |constructor].
  - by intros x s (o & _ & ->)%init_sites_info.
  - cbn. intros g r Hr%elem_of_list_to_map_2. apply list_elem_of_omap in Hr as ([j x] & Hj%imap_pair_elem & E). unfold init_gossiper in E.
    destruct (makes_gossiper _); [|done]. destruct (new_OVGossiper _ _ _) as [r'|] eqn:En; [|done]. injection E as <- <-.
    cbn in Hj, En. rewrite (Hd x) in En by (by eapply list_elem_of_lookup_2). by eapply new_alone.
Qed.

(** C39: when all sites are of one data centre, whatever happens, the
    watermark of every site stays at zero, and only transactions without a timestamp are
    executed: there is no peer, so that the answers after which the gossiper computes
    the watermark never come. *)
Theorem ov_single_dc_stalls i es w x s d :
  (forall y, y ∈ ov_sites -> os_dc y = d) -> ov_run es (ov_init i) = Some w -> ow_sites w !! x = Some s ->
  so_vwatermark s = ov_zero /\ Forall (fun e => ~ ov_lex ov_zero e.2) (so_executed s).
Proof.
  intros Hd Hrun Hx. assert (so_vwatermark s = ov_zero) as Hwm.
  { pose proof (init_alone i d Hd) as Hi. revert Hi Hrun. generalize (ov_init i). induction es as [|e es IH]; intros w0 Hi Hrun; cbn [ov_run] in Hrun.
    - injection Hrun as ->. by apply (ai_sites _ Hi x).
    - destruct (ov_step e w0) as [w1|] eqn:E; [|done]. apply (IH w1); [by eapply step_alone|done]. }
  split; [done|]. rewrite <- Hwm. by apply (run_below i es w Hrun x s).
Qed.
End alone.

(** ** The order of execution *)

Section arrival.
Context `{OvRegistry}.

(** The transaction waits for its request to execute: it has not been asked for, it has
    not run, its pieces are registered and its timestamp is not above the watermark. *)
Definition awaits (s : SchedulerOV) (id : Z) (ts : ov_ts_t) : Prop :=
  exists t, find id (so_txns s) = Some t /\ ox_ovts t = ts /\ ox_reply t = false /\ ox_executed t = false /\
    Forall (fun c => is_Some (ov_reg_get c)) (ox_dreqs t) /\ ov_gt ts (so_vwatermark s) = false.

Lemma commit_pieces_done cmds i ws st :
  Forall (fun c => is_Some (ov_reg_get c)) cmds -> exists st', commit_pieces cmds i ws st = Done (tt, st').
Proof.
  intros Hc. revert i ws st. induction Hc as [|c cmds [[d h] Hr] _ IH]; intros i ws st; cbn [commit_pieces]; [by exists st|].
  rewrite Hr. erewrite bind_eq by reflexivity.
  cbv beta iota zeta.
  match goal with |- context [state ?f ≫= ?k] => rewrite (bind_eq (state f) k st (f st).1 (f st).2) end; [apply IH|].
  unfold state. f_equal. apply surjective_pairing.
Qed.

Lemma CommitExecute_done st :
  Forall (fun c => is_Some (ov_reg_get c)) (ox_dreqs (ot_tx st)) -> exists st', CommitExecute st = Done (tt, st').
Proof.
  intros Hc. unfold CommitExecute, set_tx. erewrite bind_eq by reflexivity. erewrite bind_eq by reflexivity.
  match goal with |- context [(commit_pieces ?cs ?i ?ws ≫= _) ?s1] => destruct (commit_pieces_done cs i ws s1 Hc) as [st' E] end.
  rewrite (bind_eq _ _ _ _ _ E). by eexists.
Qed.

Lemma on_txn_eq {A} id (m : M OvTxSt A) s t a st :
  find id (so_txns s) = Some t -> m (mk_otst t (so_db s)) = Done (a, st) ->
  on_txn id m s = Done (a, s <| so_txns ::= insert id (ot_tx st) |> <| so_db := ot_db st |>).
Proof. intros Hf Hm. unfold on_txn. by rewrite Hf, Hm. Qed.

Lemma OnExecute_runs id ts s :
  awaits s id ts -> exists s', OnExecute id s = Done (tt, s') /\ so_executed s' = so_executed s ++ [(id, ts)] /\
    so_vwatermark s' = so_vwatermark s /\ forall j, j ≠ id -> find j (so_txns s') = find j (so_txns s).
Proof.
  intros (t & Hf & <- & Hre & Hex & Hreg & Hgt). unfold OnExecute.
  assert (count id (so_txns s) = true) as Hc by (apply count_find; by eexists).
  rewrite (bind_eq _ _ s tt s); [|unfold ov_GetOrCreateDTxn; erewrite bind_eq by reflexivity; by rewrite Hc].
  rewrite (bind_eq _ _ s t s); [|unfold ov_txn; erewrite bind_eq by reflexivity; by rewrite Hf].
  rewrite Hre. erewrite bind_eq by reflexivity.
  erewrite bind_eq by (apply on_txn_eq with (t := t); [exact Hf | reflexivity]). cbn [ot_tx ot_db].
  erewrite bind_eq by reflexivity. set (s1 := s <| so_txns ::= _ |> <| so_db := _ |>).
  change (so_vwatermark s1) with (so_vwatermark s). rewrite Hgt.
  set (t1 := t <| ox_reply := true |> <| ox_ov_status := CAN_EXECUTE |>).
  assert (find id (so_txns s1) = Some t1) as Hf1 by apply find_insert_eq.
  destruct (CommitExecute_done (mk_otst t1 (so_db s1)) Hreg) as [st E].
  assert (exists s2, execute_txn id s1 = Done (tt, s2) /\ so_executed s2 = so_executed s ++ [(id, ox_ovts t)] /\
    so_vwatermark s2 = so_vwatermark s /\ is_Some (find id (so_txns s2)) /\ forall j, j ≠ id -> find j (so_txns s2) = find j (so_txns s))
    as (s2 & E2 & He & Hw & [t2 Ht2] & Ho).
  { unfold execute_txn. rewrite (bind_eq _ _ s1 t1 s1); [|unfold ov_txn; erewrite bind_eq by reflexivity; by rewrite Hf1].
    change (ox_executed t1) with (ox_executed t). rewrite Hex. erewrite bind_eq by reflexivity.
    erewrite bind_eq by (apply on_txn_eq with (t := t1); [exact Hf1 | exact E]). eexists. split; [reflexivity|]. cbn.
    split_and!; try done; [rewrite find_insert_eq; by eexists|]. intros j Hj. by rewrite !find_insert_ne by done. }
  rewrite (bind_eq _ _ _ _ _ E2). erewrite bind_eq by reflexivity.
  erewrite bind_eq by (apply on_txn_eq with (t := t2); [exact Ht2 | reflexivity]).
  eexists. split; [reflexivity|]. cbn. split_and!; try done. intros j Hj. rewrite find_insert_ne by done. by apply Ho.
Qed.

(** C40: requests to execute transactions that are not above the watermark
    of a site are served at once, each transaction being run when its request arrives: whatever the timestamps,
    the site runs them in the order of the requests.  So two replicas of a partition that get the same requests in
    different orders run the same transactions, all of them below the watermark of both, in different orders. *)
Theorem ov_executes_in_arrival_order (reqs : list (Z * ov_ts_t)) s :
  NoDup reqs.*1 -> Forall (fun r => awaits s r.1 r.2) reqs ->
  exists s', for_each reqs.*1 OnExecute s = Done (tt, s') /\ so_executed s' = so_executed s ++ reqs /\
    so_vwatermark s' = so_vwatermark s.
Proof.
  revert s. induction reqs as [|[id ts] reqs IH]; intros s Hnd Hall; cbn [fmap list_fmap fst for_each] in *.
  { exists s. by rewrite app_nil_r. }
  apply NoDup_cons in Hnd as [Hid Hnd]. apply Forall_cons in Hall as [Ha Hall].
  destruct (OnExecute_runs id ts s Ha) as (s1 & E & He & Hw & Ho). rewrite (bind_eq _ _ _ _ _ E).
  destruct (IH s1 Hnd) as (s' & E' & He' & Hw').
  { apply Forall_forall. intros [j tj] Hj. rewrite Forall_forall in Hall. destruct (Hall _ Hj) as (t & Hf & Hrest).
    exists t. cbn in *. rewrite Hw, Ho; [done|]. intros ->. apply Hid, list_elem_of_fmap. by exists (id, tj). }
  exists s'. split; [done|]. rewrite He', He, <- app_assoc. split; [done | congruence].
Qed.
End arrival.

(** ** A transaction over two data centres *)

Module OvDemo.
Definition reg : OvRegistry := {|
  OvDb := Z;
  ov_txn_reg_ := fun _ _ =>
    Some (DF_REAL, fun phase c out (db : Z) => (input c, if phase =? PHASE_CHRONOS_COMMIT then type_ c else db, out)) |}.
Definition workload : OvWorkload := fun _ _ t => t.
#[export] Existing Instances reg workload.
#[export] Instance workload_ok : OvWorkloadOk.
Proof. by split. Qed.

(** A transaction with the given pieces, each with its partition. *)
Definition txn (pieces : list (Z * Z)) : TxnCommand :=
  let n := Z.of_nat (length pieces) in
  mk_txn 0 0 1 0 [] [] [] pieces ((fun p => (p.1, DISPATCHABLE)) <$> pieces) [] [] n n 0 0.
Definition coord : CoordinatorOV := mk_ovcoord 0 false 0 0 [] 1 (txn []) ov_zero [] [] [] [] [].
Definition init (coords : list Z) : OvInit :=
  mk_ovinit (fun _ => 0) (fun _ => 0) (fun _ => (false, false)) (0 : OvDb) (list_to_map ((fun k => (k, coord)) <$> coords)).

Lemma init_is_ok coords : init_ok (init coords).
Proof.
  split; [intros; cbn; lia|]. split; [intros; cbn; lia|]. intros coo c Hc%elem_of_list_to_map_2.
  by apply list_elem_of_fmap in Hc as (k & [= -> ->] & _).
Qed.

(** The first packet is delivered. *)
Definition next (site now : Z) : ov_event := EvDeliver 0 site now.

(** Two sites of different data centres and partitions, and a transaction that touches
    both, up to its execution at the first site. *)
Definition two_parts : OvConfig := [mk_ovsite 0 0 0; mk_ovsite 1 1 1].
Definition two_parts_run : list ov_event :=
  [EvStart 0 1 (txn [(1, 0); (2, 1)]); next 0 10; next 0 10; next 0 10; next 1 10] ++ replicate 16 (next 0 20) ++
  [next 0 40; next 0 40; EvAggregate 0; EvAggregate 1] ++ replicate 4 (next 0 50) ++ [EvGossip 0; EvGossip 1] ++
  replicate 4 (next 0 60) ++ [EvAggregate 0; next 0 70].

(** Two sites of different data centres and one partition, and two transactions, up to
    the requests to execute; [order] is the order of their delivery. *)
Definition two_replicas : OvConfig := [mk_ovsite 0 0 0; mk_ovsite 1 1 0].
Definition two_replicas_run (order : list nat) : list ov_event :=
  [EvStart 0 1 (txn [(1, 0)]); EvStart 1 2 (txn [(2, 0)])] ++ replicate 10 (next 0 10) ++ replicate 16 (next 0 20) ++
  [EvAggregate 0; EvAggregate 1] ++ replicate 4 (EvDeliver 2 0 50) ++ [EvGossip 0; EvGossip 1] ++ replicate 4 (EvDeliver 2 0 60) ++
  [EvAggregate 0; EvAggregate 1] ++ replicate 4 (EvDeliver 2 0 70) ++ [next 0 80; next 0 80] ++
  ((fun k => EvDeliver k 0 80) <$> order).

(** A site at the end of a run: its partition, what it has executed, its rows. *)
Definition outcome (sites : OvConfig) (es : list ov_event) (coords : list Z) (site : Z) : option (Z * list (Z * ov_ts_t) * Z) :=
  w ← ov_run es (ov_init (init coords));
  s ← (ow_sites w !! site : option SchedulerOV);
  Some (so_partition_id s, so_executed s, so_db s : Z).

Lemma events_ok (es : list ov_event) : forallb (fun e => match e with EvDeliver _ _ now => (0 <=? now) && (now <? 2 ^ 61) | _ => true end) es = true -> Forall event_ok es.
Proof.
  intros Hes. apply Forall_forall. intros e He. rewrite forallb_forall in Hes. apply list_elem_of_In, Hes in He. destruct e; try done.
  apply andb_true_iff in He as [H1%Z.leb_le H2%Z.ltb_lt]. by split.
Qed.
End OvDemo.

Section witness.
Import OvDemo.
#[local] Existing Instances two_parts.

(** The state of the run and one site of it. *)
Definition ov_demo_state : option OvSys := ov_run two_parts_run (ov_init (init [0])).

Lemma ov_watermark_safe_witness :
  exists w w' s, ov_demo_state = Some w /\ ov_run [next 0 80] w = Some w' /\ ow_sites w !! 0 = Some s /\
    so_vwatermark s = mk_ovts 50 0 /\ ow_ts w !! 1 = Some (mk_ovts 10 0, 0) /\
    exists pars, (1, mk_ovts 10 0, pars) ∈ ow_reported w /\
      forall par, par ∈ pars -> exists z r, z ∈ par_sites par /\ ow_sites w !! z = Some r /\ stored_at 1 (mk_ovts 10 0) r.
Proof.
  destruct ov_demo_state as [w|] eqn:E; [|vm_compute in E; discriminate].
  destruct (ov_run [next 0 80] w) as [w'|] eqn:E';
    [|exfalso; assert ((w ← ov_demo_state; ov_run [next 0 80] w) = None) as F by (rewrite E; exact E'); vm_compute in F; discriminate].
  destruct (ow_sites w !! 0) as [s|] eqn:Es;
    [|exfalso; assert ((w ← ov_demo_state; ow_sites w !! 0) = None) as F by (rewrite E; exact Es); vm_compute in F; discriminate].
  assert ((w ← ov_demo_state; so_vwatermark <$> ow_sites w !! 0) = Some (mk_ovts 50 0)) as Ew by (vm_compute; reflexivity).
  rewrite E in Ew. cbn in Ew. rewrite Es in Ew. injection Ew as Ew.
  assert ((w ← ov_demo_state; w' ← ov_run [next 0 80] w; ow_ts w' !! 1) = Some (mk_ovts 10 0, 0)) as Ets by (vm_compute; reflexivity).
  rewrite E in Ets. cbn [mbind option_bind] in Ets. rewrite E' in Ets. cbn [mbind option_bind] in Ets.
  assert (NoDup (os_name <$> ov_sites)) as Hnd by (apply (bool_decide_unpack _); vm_compute; exact I).
  assert (run_bound 0 (two_parts_run ++ [next 0 80])) as Hb.
  { split; [done|]. split; [vm_compute; reflexivity|]. apply events_ok. vm_compute. reflexivity. }
  assert (ov_lex (mk_ovts 10 0) (so_vwatermark s)) as Hlt by (rewrite Ew; left; cbn; lia).
  exists w, w', s. unfold ov_demo_state in E. split; [reflexivity|]. split; [exact E'|]. split; [exact Es|]. split; [exact Ew|].
  exact (ov_watermark_safe (init [0]) two_parts_run [next 0 80] w w' 0 s 1 (mk_ovts 10 0) 0 Hnd (init_is_ok [0]) Hb E E' Es Ets Hlt).
Defined.
End witness.

(** Two replicas of one partition, in a run of the system, execute two
    transactions in opposite orders and end with different rows, although the timestamps
    of both are below the watermark that both have learned: [OnExecute] runs a transaction
    when the request arrives, and the requests come in any order. *)
Theorem ov_executes_out_of_order :
  let es := OvDemo.two_replicas_run [0; 1; 1; 0]%nat in
  Forall event_ok es /\
  OvDemo.outcome OvDemo.two_replicas es [0; 1] 0 = Some (0, [(1, mk_ovts 10 0); (2, mk_ovts 11 0)], 2) /\
  OvDemo.outcome OvDemo.two_replicas es [0; 1] 1 = Some (0, [(2, mk_ovts 11 0); (1, mk_ovts 10 0)], 1).
Proof. split; [apply OvDemo.events_ok; vm_compute; reflexivity|]. split; vm_compute; reflexivity. Qed.

(** The second replica, with both transactions stored and below its watermark, gets the
    request for the later one first. *)
Section arrival_witness.
Import OvDemo.
#[local] Existing Instances two_replicas.
Definition second_replica : option SchedulerOV := w ← ov_run (two_replicas_run []) (ov_init (init [0; 1])); ow_sites w !! 1.

(** The fields that [awaits] speaks of. *)
Definition waiting_fields (s : SchedulerOV) (id : Z) : option (ov_ts_t * bool * bool * bool) :=
  t ← find id (so_txns s);
  Some (ox_ovts t, ox_reply t, ox_executed t, ov_gt (ox_ovts t) (so_vwatermark s)).

Lemma waiting_awaits s id ts : waiting_fields s id = Some (ts, false, false, false) -> awaits s id ts.
Proof.
  unfold waiting_fields, awaits. destruct (find id (so_txns s)) as [t|]; [|done]. intros [= <- Hr He Hg]. exists t. split_and!; try done.
  apply Forall_forall. intros c _. by eexists.
Qed.

Lemma ov_executes_in_arrival_order_witness :
  exists s s', second_replica = Some s /\ for_each [2; 1] OnExecute s = Done (tt, s') /\
    so_executed s' = [(2, mk_ovts 11 0); (1, mk_ovts 10 0)].
Proof.
  destruct second_replica as [s|] eqn:E; [|vm_compute in E; discriminate].
  assert ((s ← second_replica; Some (waiting_fields s 2, waiting_fields s 1, so_executed s)) =
    Some (Some (mk_ovts 11 0, false, false, false), Some (mk_ovts 10 0, false, false, false), [])) as F by (vm_compute; reflexivity).
  rewrite E in F. cbn [mbind option_bind] in F. injection F as F2 F1 Fe.
  destruct (ov_executes_in_arrival_order [(2, mk_ovts 11 0); (1, mk_ovts 10 0)] s) as (s' & Hrun & He & _).
  - apply (bool_decide_unpack _). vm_compute. exact I.
  - apply Forall_cons. split; [by apply waiting_awaits|]. apply Forall_cons. split; [by apply waiting_awaits|]. by apply Forall_nil.
  - exists s, s'. split; [reflexivity|]. split; [exact Hrun|]. rewrite He, Fe. reflexivity.
Defined.
End arrival_witness.

(** A single data centre with one site: the watermark is still zero after all the
    requests for a transaction and a round of the gossiper. *)
Section alone_witness.
Import OvDemo.
Definition one_site : OvConfig := [mk_ovsite 0 0 0].
#[local] Existing Instances one_site.
Definition one_site_run : list ov_event := EvStart 0 1 (txn [(1, 0)]) :: replicate 11 (next 0 10) ++ [EvAggregate 0; next 0 50; next 0 50; EvGossip 0; EvAggregate 0].

Lemma ov_single_dc_stalls_witness :
  exists w s, ov_run one_site_run (ov_init (init [0])) = Some w /\ ow_sites w !! 0 = Some s /\
    so_stored s = [1] /\ so_vwatermark s = ov_zero /\ Forall (fun e => ~ ov_lex ov_zero e.2) (so_executed s).
Proof.
  assert (forall y, y ∈ ov_sites -> os_dc y = 0) as Hd by by intros y [->|?%elem_of_nil]%elem_of_cons.
  destruct (ov_run one_site_run (ov_init (init [0]))) as [w|] eqn:E; [|vm_compute in E; discriminate].
  destruct (ow_sites w !! 0) as [s|] eqn:Es;
    [|exfalso; assert ((w ← ov_run one_site_run (ov_init (init [0])); ow_sites w !! 0) = None) as F by (rewrite E; exact Es); vm_compute in F; discriminate].
  exists w, s. split; [reflexivity|]. split; [exact Es|]. split.
  - assert ((w ← ov_run one_site_run (ov_init (init [0])); so_stored <$> ow_sites w !! 0) = Some [1]) as F by (vm_compute; reflexivity).
    rewrite E in F. cbn in F. rewrite Es in F. injection F as F. exact F.
  - exact (ov_single_dc_stalls (init [0]) one_site_run w 0 s 0 Hd E Es).
Defined.
End alone_witness.
